(* ===== verification/_CoqProject ===== *)
-Q . S2P
Prelude.v
Reader.v
IoCursor.v
Utf8.v
Text.v
Io.v
Wire.v
MsgCommon.v
ReceiveBuffer.v
MsgMain.v
MsgInputs.v
MsgPlayback.v
MsgCursor.v
MsgVdAgent.v
MsgDisplay.v
MsgDrawOps.v
MsgDrawCopy.v
Messages.v
AgentStream.v
LinkMess.v
Ticket.v
Link.v
Proxy.v
HostSubject.v
Client.v
AgentQueue.v
OpcodeCounters.v
Clipboard.v
Channel.v
ChannelSpec.v
MainState.v
MainAgent.v
MainChannel.v
MainSpec.v
MainKeeps.v
MainTurns.v
MainErrors.v
MainProps.v
Keyboard.v
Inputs.v
InputsMotion.v
InputsBatch.v
InputsSpec.v
InputsProps.v
FuzzBound.v
Lru.v
Lz.v
Lz4.v
Video.v
CursorPixels.v
Cursor.v
CursorSpec.v
CursorProps.v
GlzDict.v
Glz.v
QuicModel.v
QuicBits.v
Quic.v
Damage.v
Clip.v
Surface.v
Mirror.v
DisplayDraw.v
DisplayPayload.v
DisplayState.v
DisplayImage.v
DisplayStreams.v
Display.v
DisplayPaint.v
DisplayProps.v
DisplayCopies.v
UsbMessages.v
Usbredir.v
VirtualMsc.v
UsbChannel.v
