(* ===== verification/Prelude.v ===== *)
(** * Verification of the ryll SPICE client

    ryll is a SPICE (remote desktop) client in Rust.  It connects to a server,
    opens a channel for each kind of traffic, and shows what they carry; this
    library models the parts below from the source and proves them correct:

    - a connection goes through a proxy, TLS and the link handshake
      ([shakenfist-spice-protocol/src/proxy.rs], [client.rs], [host_subject.rs],
      [link.rs]): files [Proxy], [HostSubject], [Client], [LinkMess], [Ticket],
      [Link];
    - a channel appends what it reads from the socket to a [ReceiveBuffer] and
      takes whole messages from it
      ([shakenfist-spice-protocol/src/messages/common.rs]): file [ReceiveBuffer];
    - a message body is parsed by its type's [WireType::read] over a
      [BoundedReader] ([src/reader.rs], [src/messages/*.rs]): files [Reader],
      [Wire], [MsgCommon], [MsgMain], [MsgInputs], [MsgPlayback], [MsgCursor],
      [MsgVdAgent], [MsgDisplay], [MsgDrawCopy]; the draw bodies that return
      [io::Result] use a [std::io::Cursor]: files [IoCursor], [MsgDrawOps];
    - the main channel's AGENT_DATA bodies carry a second stream of guest-agent
      messages, put back together by [AgentReassembler]
      ([src/messages/agent_stream.rs]): file [AgentStream];
    - images are decompressed ([shakenfist-spice-compression/src/lz.rs],
      [glz.rs], [quic.rs], [lz4.rs], [jpeg.rs], [limits.rs]): files [Lz], [Glz],
      [QuicModel], [QuicBits], [Quic], [Lz4], [Video]; so are the frames of video
      streams ([video.rs]): file [Video]; and cached under a byte cap
      ([byte_bounded_lru.rs], the renderer's [image_cache.rs], the dictionary of
      [glz.rs] that all display channels share): files [Lru], [GlzDict];
    - the display channel ([shakenfist-spice-renderer/src/channels/display.rs])
      decodes the server's draws, finds, decodes and caches their images, plays the
      video streams and reports on them, and emits draw events: files
      [DisplayDraw], [DisplayState], [DisplayImage], [DisplayStreams], [Display];
    - [SurfaceMirror::apply_event]
      ([shakenfist-spice-renderer/src/surface_mirror.rs]) keeps the surfaces those
      draw on ([display/surface.rs]), each of which remembers what changed as a
      [DamageRegion] ([display/damage.rs]) for its consumers; the clip rectangles
      of a draw are counted by [clip_area] ([display/clip.rs]): files [Mirror],
      [Surface], [Damage], [Clip];
    - the main channel ([shakenfist-spice-renderer/src/channels/main_channel.rs],
      [agent_queue.rs], [clipboard.rs], [opcode_counters.rs]) answers the server,
      joins the agent stream to the clipboard and the screen size, and paces what
      it sends the agent by the server's tokens: files [AgentQueue],
      [OpcodeCounters], [Clipboard], [MainState], [MainAgent], [MainChannel];
    - the inputs channel ([channels/inputs.rs]) turns the frontends' events into
      messages, coalesces and throttles the pointer's, and types pasted text: files
      [Keyboard], [Inputs];
    - the cursor channel ([channels/cursor.rs]) places the cursor, decodes its
      shapes and keeps those the server asks it to: files [CursorPixels], [Cursor];
    - the usbredir channel feeds the bodies of its VMC messages to
      [UsbredirParser] ([shakenfist-spice-usbredir/src/parser.rs], [messages.rs],
      [constants.rs]) and has the attached device do what they ask
      ([shakenfist-spice-renderer/src/channels/usbredir.rs], [usb/mod.rs]); the
      device is a real one or a disk image behind a SCSI mass storage device
      ([usb/virtual_msc.rs]): files [UsbMessages], [Usbredir], [UsbChannel],
      [VirtualMsc].

    The repository's fuzz targets for these parsers are executable
    specifications; four of them are modelled as boolean functions and proved to
    hold on every input ([ReceiveBuffer], [AgentStream], [FuzzBound]).

    ** How code becomes definitions

    A Rust integer is a [Z] with its width written out where it matters; a byte
    slice or [Vec<u8>] is a [list Z], and [bytes] says its elements are bytes.
    An operation with a [&mut self] that can fail or panic is a function in the
    monad [M E S] below, [S -> result E A * S], where [result] has [Ok], [Err]
    and [Panic]; one that can only panic returns an [option].  So "never
    panics" is a statement about the returned value, with the panics of slicing,
    indexing, overflow and [unwrap] where the source has them.  Struct and
    method [T::m] are the record [T] and the definition [T_m]; the field [f] of
    [T] is [T_f] (a short prefix where the struct is used a lot: [br_] for
    [BoundedReader], [rb_] [ReceiveBuffer], [bb_] [ByteBoundedLru]).  Borrowed
    and owned variants of a message ([PlaybackPacketRef], [PlaybackPacket]) are
    one record: a borrow of a byte list is the list.  Where a build that checks
    arithmetic panics and a release build wraps, the build is a parameter (the
    class [BuildProfile], or the argument [checks]).  A [write] of a message is a
    function on bytes; the [debug_assert!]s of those that have some are the
    predicates [*_write_asserts] of [MsgDrawCopy], proved to hold of every
    well-formed value, or the conditions of [wire_wf].

    ** Files

    - [Prelude]: machine integers, slices, the result type and the monad, and
      the list lemmas and tactics everything uses.
    - [Reader]: [BoundedReader]; [safe] (no panic, the reader stays in its
      bounds) and [reads] (parses exactly these bytes) with rules for each read.
    - [IoCursor]: the same for [std::io::Cursor]: [tame] and [takes].
    - [Wire]: the trait [WireType] as a class, and the classes [WireLaws],
      [WireRoundTrip], [WireRoundTripEnd] that say what a message promises; the
      message files give instances, mostly by the tactics [wire_laws] and
      [wire_rt], and clients ([FuzzBound], [Messages]) use only the classes.
    - [MsgCommon] ... [MsgDrawCopy]: one record, reader and writer per message.
    - [Messages]: the contract of every message type, per channel.
    - [ReceiveBuffer], [AgentStream]: the two reassemblers.
    - [FuzzBound]: the two fuzz targets over all message types.
    - [Damage], [Clip], [Surface], [Mirror]: from draw events to what a consumer
      of the pixels sees; [Mirror] uses the lemmas of [Surface], [Surface] those
      of [Damage].
    - [DisplayDraw]: the parts of the display channel that are functions of their
      own: draw bodies, clips, crops, raw bitmaps, the inflation of GLZ streams, the
      bounds on streams and reports; what the crops and bitmaps compute.
      [DisplayPayload]: which bodies a draw is decoded from, and what a clip lets
      through.  [DisplayState]: the channel's state; [DisplayImage]: its images;
      [DisplayStreams]: its video streams; [Display]: the draw handlers, the
      dispatch, acknowledgements and the loop.  [DisplayPaint]: what events do to a
      surface of [Mirror]; [DisplayProps], [DisplayCopies]: draws from the wire to
      the surface.
    - [Utf8]: [String::from_utf8_lossy]; [UsbMessages]: the usbredir messages and
      the class [UsbWire] of what they promise; [Usbredir]: the parser, proved
      against the class, and the loop that feeds it, over whatever the channel does
      with a message.
    - [VirtualMsc]: the disk, over the interface [RawFile] of the file behind it;
      [UsbChannel]: the trait [UsbDeviceBackend] and the channel, proved against
      [BackendLaws], which the disk meets.
    - [Text]: strings as the protocol crate's parsers use them; [Io]: programs over
      a byte stream, and two of them back to back under every interleaving.
    - [Ticket], [LinkMess], [Link], [Proxy], [HostSubject], [Client]: connecting.
      [Link] has the drivers of both ends over a peer that answers in any way;
      RSA, X.509 and the certificate store are classes with the documented
      behaviour of the crates as laws.
    - [Channel]: what the channels share, over the class [ChannelState]: the
      environment's answers, writes, the loop that cuts what was read into
      messages, the log of what the outside sees.  [ChannelSpec]: a Hoare logic
      for its monad, and the rules of reading ([triple_take_read],
      [triple_deliver]) and writing, proved once against [ChannelLaws].
    - [AgentQueue], [OpcodeCounters], [Clipboard]: parts of the main channel with a
      contract of their own.  [MainState], [MainAgent], [MainChannel]: its state,
      its agent and its messages and event loop.  [MainSpec]: the monitors that
      read its log and its invariant; [MainKeeps], [MainTurns]: that each operation
      and each turn of the loop keeps it; [MainErrors]: which operations can fail
      and how; [MainProps]: the theorems.
    - [Keyboard]: the scancode tables and the translation of text.  [Inputs]: the
      channel; [InputsMotion], [InputsBatch]: its acknowledgement window and its
      coalescing, on their own; [InputsSpec], [InputsProps]: its invariant and
      theorems, the guest's keyboard being part of what they speak of.
    - [CursorPixels]: the six cursor formats, and what each pixel of each is.
      [Cursor]: the channel; [CursorSpec]: what it promises as a function of the
      messages received, and that it keeps it; [CursorProps]: the theorems.
    - [Lru], [GlzDict], [Lz], [Glz]: image storage and decompression.  [Glz] uses
      the loops of [Lz], which the source repeats word for word.
    - [Lz4], [Video]: decoders over third-party codecs, which are classes with
      their documented behaviour as laws: LZ4 images; the JPEG trait and its
      pure-Rust backend; MJPEG and H.264 streams.
    - [QuicModel], [QuicBits], [Quic]: the QUIC decoder.  [QuicModel] has the code
      families, the statistics of a channel and the adaptive state; [QuicBits] the
      decoder's state, its bit reader, header and run lengths, and the weakest
      precondition [wp] the proofs about the monad use; [Quic] the row functions,
      written once over a [Plane] (the source has a copy for colour and one for
      alpha) and proved against the class [PlaneLaws], which both planes meet.

    ** What is proved

    - Framing: any sequence of reads gives the messages of the concatenated
      stream; the buffer's invariant; framed messages come back out; compaction
      moves no more bytes than were consumed.
    - Messages: parsers are total and panic-free on any bytes and return values
      in range; every value in range reads back as written; DRAW_COPY, whose
      images are found by pointers, is canonicalised by a read and a write.
    - Connecting: the handshake of an honest client and server completes, and no
      peer makes either end panic or accept what it should refuse; the proxy
      exchange ends in exactly the error its response calls for; a TLS server is
      accepted only if it holds a trusted certificate and, when one is configured,
      the pinned subject; link messages read back as written.
    - Main channel: what the agent is sent is whole messages, in order and within
      the server's tokens, whatever disconnects; each message is answered once, in
      order; which message ends the channel with which error, and which never does;
      the screen size and the tokens are not lost; a clipboard does not echo.
    - Inputs: the pointer never has more messages outstanding than the window
      allows and never stalls while the server acknowledges; coalescing does what
      handling the merged batch does; a paste types its text on a US keyboard
      whatever the user held, with any pointer traffic in between; where a
      cancelled paste leaves the guest, which is a defect of the code.
    - Cursor: a decoder of shapes that never panics and computes its reference
      pixel by pixel; whatever the reads, what the frontends see and the server is
      sent is a function of the messages framed, shapes from the cache included;
      acknowledgements are neither early nor late.
    - Agent stream: [push] refines a byte-at-a-time specification and
      reassembles what was sent, with bounded memory.
    - LRU: each insert keeps the most recent entries that fit both caps and the
      accounting is exact in every reachable state.
    - LZ: the decoder computes the reference semantics of its token stream;
      every image it returns has the size its dimensions say; and it panics on
      exactly one kind of malformed input (a copy starting one pixel before the
      image), which is a defect of the code.
    - GLZ: the same for the decoder with cross-image references, whatever other
      channels do to the shared dictionary between its locks; which references
      find their image, and why the others miss; the dictionary's tombstones are
      right for inserts one at a time, and the ways they are not otherwise.
    - QUIC: on any bytes the decoder returns, without a panic, either nothing or an
      image of the declared size; its bit reader implements an abstract bit
      stream; its Golomb decoder inverts a reference code whose lengths are those
      the model counts with.
    - LZ4: the decoder returns an image exactly when the blocks, each decoded
      against what precedes it, fill the rows of the image, and then its pixels are
      the reference conversion of the rows, bottom-up or top-down.
    - Video: an MJPEG frame without Huffman tables reaches the JPEG decoder with
      those of the last frame that had some and decoded; the H.264 decoder gives up
      on a stream exactly at 60 failures in a row.
    - Damage: a region covers everything added to it, has the exact bounding box
      of what was added, and stays at most [MAX_DAMAGE_RECTS] non-empty rectangles
      of which no two qualify to merge; merging covers no pixel that was not.
    - Clips: [clip_area] returns disjoint rectangles that cover exactly the pixels
      of the destination some clip rectangle covers, or says how the clip is too
      complex, which it never does for few rectangles.
    - Surfaces: every draw changes exactly the pixels its rectangles and its clip
      name, to the value the operation says, and adds all of them to the damage.
      Inversion and copying go clip rectangle by clip rectangle, which their
      comments do not say ([invert_twice_is_not_the_union],
      [copy_bits_reads_what_it_drew]).
    - Display channel: the draws of rectangles, of raw bitmaps and of cached images
      go from the wire to the pixels of a surface: exactly those of the draw that
      its clip lets through change, each to what the draw says; and an image the
      server wants kept can be drawn from the cache.
    - Mirror: a consumer that copies the damaged rectangles it takes has the
      pixels of the surface, whatever events came in between.
    - USB redirection: the parser frames the stream as its specification says,
      wherever the VMC messages cut it, without a panic and in bounded rounds;
      what a peer encodes comes back; payloads are well typed.  An error of the
      handler ends the loop behind the message it refused.
    - Virtual disk: over its transport it refines an abstract disk, whatever
      fails, where a write of no blocks is one that leaves the host without an
      answer; no transfer sequence makes it panic or leave its invariant.  Two
      ways it writes what it should not are lemmas ([data_out_writes_everything],
      [sample_zero_block_write]).
    - USB channel: a guest's control and bulk requests of any size, cut anywhere,
      become exactly the transfers the channel lets through, and their answers
      come back, up to the transfer the device fails.

    ** Bounds and fuel

    A Rust loop whose round count is not structural is a [Fixpoint] on fuel that
    returns [None] when the fuel runs out; the callers give an amount that is
    proved enough, so running out never happens: the data left for loops that
    consume a byte a round ([Lz]), the stream length plus one for the framing
    walk ([ReceiveBuffer]) and for the loop of a channel ([Channel]), the bytes of
    the backlog plus one for sending it ([MainAgent]), the length of a batch plus
    one ([Inputs]), the limit on a proxy's response for reading it ([Proxy]), 20
    for the digits of a [u64], the length of a text for its characters ([Utf8]),
    the number of entries plus one for evictions
    ([Lru]), the number of rectangles for merging damage ([Damage]), the bytes in
    the buffer plus one for the messages of a VMC body ([Usbredir],
    [UsbChannel]), the bits left plus one for run lengths and for the segments of a
    QUIC row, the pixels left of the segment for its inner loops, 7 for the seven
    wait windows ([QuicBits], [Quic]), the bytes of an LZ4 image for its blocks
    ([Lz4]) and those of a frame for the segments of its headers ([Video]).  Loops over
    the rows and columns of a draw are structural ([Surface]).  Lengths are at most
    [isize_max] = 2^63 - 1, as for any Rust slice; round trips of messages with
    32-bit lengths assume the encoding fits them.

    ** What is not modelled

    Sockets, TLS, tokio, locks, time limits and timers, but for when they fire;
    logging and the text of errors; snapshots for bug reports; the third-party
    libraries.  A clock is asked for a number, in nanoseconds; a write succeeds
    whole or fails.  The [lru] crate's map is an interface ([Lru]) with the
    documented behaviour as laws, and a list that meets them.  The dictionary's
    [Notify] is in the list of turns the GLZ decoder is given.  RSA, X.509, path
    validation and the signature of a handshake are classes ([Ticket], [Client]).
    The file of a virtual disk and a real USB device are interfaces too; [DefaultHasher]
    is a function of the environment.  The usbredir channel's loop and its
    statistics are left out.  The display channel's streams and its compressed
    images through the dispatch are modelled without theorems of their own (the
    decoders have theirs); the playback and WebDAV channels, the JPEG backends that are calls into platform
    libraries, the H.264 encoder and audio, the session that starts the channels, and the front ends (desktop,
    RDP, WebRTC, web), which are glue over libraries, are not. *)

From Stdlib Require Import ZArith Lia List.
From stdpp Require Import base numbers list tactics.

Open Scope Z_scope.

(** * Machine integers

    A Rust integer of width [w] is a [Z]; [u8 x], [u32 x], ... say that a [Z]
    is a value of that type.  [usize] is 64 bits wide, and a slice or [Vec]
    never holds more than [isize_max] bytes. *)

Definition usize_max : Z := 2 ^ 64 - 1.
Definition isize_max : Z := 2 ^ 63 - 1.
Definition u32_max : Z := 2 ^ 32 - 1.
Definition u64_max : Z := 2 ^ 64 - 1.

Definition in_unsigned (w x : Z) : Prop := 0 <= x < 2 ^ w.
Definition in_signed (w x : Z) : Prop := - 2 ^ (w - 1) <= x < 2 ^ (w - 1).

Abbreviation u8 := (in_unsigned 8).
Abbreviation u16 := (in_unsigned 16).
Abbreviation u32 := (in_unsigned 32).
Abbreviation u64 := (in_unsigned 64).
Abbreviation i16 := (in_signed 16).
Abbreviation i32 := (in_signed 32).
Abbreviation i64 := (in_signed 64).

#[export] Instance in_unsigned_dec w x : Decision (in_unsigned w x).
Proof. unfold in_unsigned. apply _. Defined.
#[export] Instance in_signed_dec w x : Decision (in_signed w x).
Proof. unfold in_signed. apply _. Defined.

(** The truncating cast [x as uN]. *)
Definition as_unsigned (w x : Z) : Z := x mod 2 ^ w.
(** The reinterpreting cast from [w]-bit unsigned to signed. *)
Definition as_signed (w x : Z) : Z := if x <? 2 ^ (w - 1) then x else x - 2 ^ w.

(** [saturating_add] on [u32] and [u64], and [saturating_sub]. *)
Definition saturating_add_u32 (a b : Z) : Z := Z.min (a + b) u32_max.
Definition saturating_add_u64 (a b : Z) : Z := Z.min (a + b) u64_max.
Definition saturating_sub (a b : Z) : Z := Z.max 0 (a - b).
Definition checked_add (a b : Z) : option Z :=
  if a + b <=? usize_max then Some (a + b) else None.
Definition checked_mul (a b : Z) : option Z :=
  if a * b <=? usize_max then Some (a * b) else None.
Definition checked_sub (a b : Z) : option Z :=
  if b <=? a then Some (a - b) else None.
Definition wrapping_sub (a b : Z) : Z := (a - b) mod 2 ^ 64.

(** * Byte slices *)

Definition zlen {A} (l : list A) : Z := Z.of_nat (length l).

(** [&l[a..b]]: [None] is the out-of-range panic. *)
Definition slice {A} (l : list A) (a b : Z) : option (list A) :=
  if (0 <=? a) && (a <=? b) && (b <=? zlen l)
  then Some (take (Z.to_nat (b - a)) (drop (Z.to_nat a) l))
  else None.

(** [l[i]]: [None] is the out-of-range panic. *)
Definition index {A} (l : list A) (i : Z) : option A :=
  if (0 <=? i) && (i <? zlen l) then l !! Z.to_nat i else None.

(** [buf[at..at + src.len()].copy_from_slice(src)]: [None] is the panic. *)
Definition copy_from_slice {A} (buf : list A) (at' : Z) (src : list A) : option (list A) :=
  if (0 <=? at') && (at' + zlen src <=? zlen buf)
  then Some (take (Z.to_nat at') buf ++ src ++ drop (Z.to_nat (at' + zlen src)) buf)
  else None.

(** Bytes are [Z]s in [0, 256); [bytes bs] says so of a whole buffer. *)
Abbreviation bytes := (Forall (in_unsigned 8)).

(** [to_le_bytes], [from_le_bytes] and their big-endian counterparts. *)
Fixpoint to_le (n : nat) (v : Z) : list Z :=
  match n with
  | O => []
  | S n => v mod 256 :: to_le n (v / 256)
  end.

Fixpoint from_le (bs : list Z) : Z :=
  match bs with
  | [] => 0
  | b :: bs => b + 256 * from_le bs
  end.

Definition from_be (bs : list Z) : Z := from_le (reverse bs).
Definition to_be (n : nat) (v : Z) : list Z := reverse (to_le n v).

(** * Fallible, panicking, stateful code

    A Rust function that returns a [Result] either returns [Ok], returns
    [Err], or panics.  A method on [&mut self] also threads the receiver,
    which keeps whatever the method did to it before it failed. *)

Inductive result (E A : Type) : Type :=
| Ok (a : A)
| Err (e : E)
| Panic.
Arguments Ok {E A} _.
Arguments Err {E A} _.
Arguments Panic {E A}.

Definition M (E St A : Type) : Type := St -> result E A * St.

Definition ret {E St A} (a : A) : M E St A := fun s => (Ok a, s).
Definition throw {E St A} (e : E) : M E St A := fun s => (Err e, s).
Definition panic {E St A} : M E St A := fun s => (Panic, s).
Definition get_state {E St} : M E St St := fun s => (Ok s, s).
Definition put_state {E St} (s : St) : M E St unit := fun _ => (Ok tt, s).

Definition bind {E St A B} (m : M E St A) (k : A -> M E St B) : M E St B :=
  fun s =>
    match m s with
    | (Ok a, s') => k a s'
    | (Err e, s') => (Err e, s')
    | (Panic, s') => (Panic, s')
    end.

(** An operation that panics when it has no value (indexing, slicing,
    overflowing arithmetic). *)
Definition unwrap {E St A} (o : option A) : M E St A :=
  match o with Some a => ret a | None => panic end.

Definition rbind {E A B} (m : result E A) (k : A -> result E B) : result E B :=
  match m with Ok a => k a | Err e => Err e | Panic => Panic end.
Definition rmap {E A B} (f : A -> B) (m : result E A) : result E B :=
  rbind m (fun a => Ok (f a)).
Definition rlift {E A} (o : option A) : result E A :=
  match o with Some a => Ok a | None => Panic end.

Declare Scope rust_scope.
Delimit Scope rust_scope with rust.
Notation "'let?' x := m 'in' k" := (bind m (fun x => k))
  (at level 10, x name, m at level 100, k at level 200,
   format "'[v' 'let?'  x  :=  '[' m ']'  'in' '/' k ']'") : rust_scope.
Notation "'do?' m 'in' k" := (bind m (fun _ => k))
  (at level 10, m at level 100, k at level 200,
   format "'[v' 'do?'  '[' m ']'  'in' '/' k ']'") : rust_scope.
Notation "'let!' x := m 'in' k" := (rbind m (fun x => k))
  (at level 10, x name, m at level 100, k at level 200,
   format "'[v' 'let!'  x  :=  '[' m ']'  'in' '/' k ']'") : rust_scope.
Open Scope rust_scope.

(** * Appending to an output [Vec] *)
Definition extend_from_slice {A} (out bs : list A) : list A := out ++ bs.
Definition push {A} (out : list A) (b : A) : list A := out ++ [b].

(** ** Lemmas on lengths and slices *)

Lemma zlen_nil {A} : zlen (@nil A) = 0.
Proof. reflexivity. Qed.

Lemma zlen_cons {A} (x : A) l : zlen (x :: l) = 1 + zlen l.
Proof. unfold zlen. simpl. lia. Qed.

Lemma zlen_app {A} (l1 l2 : list A) : zlen (l1 ++ l2) = zlen l1 + zlen l2.
Proof. unfold zlen. rewrite length_app. lia. Qed.

Lemma zlen_map {A B} (f : A -> B) l : zlen (map f l) = zlen l.
Proof. unfold zlen. by rewrite length_map. Qed.
Lemma zlen_nonneg {A} (l : list A) : 0 <= zlen l.
Proof. unfold zlen. lia. Qed.

Lemma zlen_replicate {A} n (x : A) : zlen (replicate n x) = Z.of_nat n.
Proof. unfold zlen. by rewrite length_replicate. Qed.

Lemma zlen_take {A} n (l : list A) :
  zlen (take n l) = Z.min (Z.of_nat n) (zlen l).
Proof. unfold zlen. rewrite length_take. lia. Qed.

Lemma zlen_drop {A} n (l : list A) :
  zlen (drop n l) = Z.max 0 (zlen l - Z.of_nat n).
Proof. unfold zlen. rewrite length_drop. lia. Qed.

Lemma zlen_insert {A} i (x : A) l : zlen (<[i:=x]> l) = zlen l.
Proof. unfold zlen. by rewrite length_insert. Qed.

Lemma zlen_0_nil {A} (l : list A) : zlen l = 0 -> l = [].
Proof. destruct l; [done|]. rewrite zlen_cons. pose proof (zlen_nonneg l). lia. Qed.

Lemma length_zlen {A} (l : list A) : length l = Z.to_nat (zlen l).
Proof. unfold zlen. lia. Qed.

Lemma take_zlen_app {A} (l1 l2 : list A) : take (Z.to_nat (zlen l1)) (l1 ++ l2) = l1.
Proof. rewrite <- length_zlen. apply take_app_length. Qed.

Lemma drop_zlen_app {A} (l1 l2 : list A) : drop (Z.to_nat (zlen l1)) (l1 ++ l2) = l2.
Proof. rewrite <- length_zlen. apply drop_app_length. Qed.

Lemma slice_Some {A} (l : list A) a b :
  0 <= a <= b -> b <= zlen l ->
  slice l a b = Some (take (Z.to_nat (b - a)) (drop (Z.to_nat a) l)).
Proof.
  intros Hab Hb. unfold slice.
  by rewrite !(proj2 (Z.leb_le _ _)) by lia.
Qed.

(** The middle of a concatenation, addressed by lengths. *)
Lemma slice_middle {A} (pre mid post : list A) :
  slice (pre ++ mid ++ post) (zlen pre) (zlen pre + zlen mid) = Some mid.
Proof.
  pose proof (zlen_nonneg pre). pose proof (zlen_nonneg mid). pose proof (zlen_nonneg post).
  rewrite slice_Some by (rewrite ?zlen_app; lia).
  rewrite drop_zlen_app. replace (zlen pre + zlen mid - zlen pre) with (zlen mid) by lia.
  by rewrite take_zlen_app.
Qed.

(** The middle, at literal offsets; and the two ends. *)
Lemma slice_at_lens {A} (pre mid post : list A) a b :
  a = zlen pre -> b = a + zlen mid -> slice (pre ++ mid ++ post) a b = Some mid.
Proof. intros -> ->. apply slice_middle. Qed.

Lemma slice_prefix {A} (mid post : list A) b :
  b = zlen mid -> slice (mid ++ post) 0 b = Some mid.
Proof. intros ->. exact (slice_middle [] mid post). Qed.

Lemma slice_suffix {A} (pre post : list A) a b :
  a = zlen pre -> b = zlen (pre ++ post) -> slice (pre ++ post) a b = Some post.
Proof.
  intros -> ->. pose proof (slice_middle pre post []). rewrite app_nil_r in H.
  by rewrite zlen_app.
Qed.

Lemma index_lookup {A} (l : list A) i :
  0 <= i < zlen l -> index l i = l !! Z.to_nat i.
Proof.
  intros Hi. unfold index.
  by rewrite (proj2 (Z.leb_le _ _)), (proj2 (Z.ltb_lt _ _)) by lia.
Qed.

Lemma index_is_Some {A} (l : list A) i : 0 <= i < zlen l -> is_Some (index l i).
Proof.
  intros Hi. rewrite index_lookup by done. apply lookup_lt_is_Some.
  unfold zlen in *. lia.
Qed.

Lemma slice_length {A} (l s : list A) a b : slice l a b = Some s -> zlen s = b - a.
Proof.
  unfold slice. destruct (_ && _) eqn:E; [|done].
  rewrite !andb_true_iff, !Z.leb_le in E. intros [= <-].
  rewrite zlen_take, zlen_drop. lia.
Qed.

Lemma slice_Forall {A} (P : A -> Prop) (l s : list A) a b :
  Forall P l -> slice l a b = Some s -> Forall P s.
Proof.
  unfold slice. destruct (_ && _); [|done]. intros H [= <-].
  by apply Forall_take, Forall_drop.
Qed.

(** ** Lemmas on byte encodings *)

Lemma length_to_le n v : length (to_le n v) = n.
Proof. revert v; induction n; intros; simpl; auto. Qed.

Lemma zlen_to_le n v : zlen (to_le n v) = Z.of_nat n.
Proof. unfold zlen. by rewrite length_to_le. Qed.

Lemma zlen_to_be n v : zlen (to_be n v) = Z.of_nat n.
Proof. unfold to_be, zlen. by rewrite length_reverse, length_to_le. Qed.

Lemma to_le_bytes n v : bytes (to_le n v).
Proof.
  revert v; induction n as [|n IH]; intros v; simpl; constructor; [|apply IH].
  red. pose proof (Z.mod_pos_bound v 256). lia.
Qed.

Lemma from_le_to_le n v : from_le (to_le n v) = v mod 2 ^ (8 * Z.of_nat n).
Proof.
  revert v; induction n as [|n IH]; intros v; simpl to_le; simpl from_le.
  { by rewrite Z.mod_1_r. }
  rewrite IH.
  replace (8 * Z.of_nat (S n)) with (8 + 8 * Z.of_nat n) by lia.
  rewrite Z.pow_add_r by lia. change (2 ^ 8) with 256.
  rewrite Z.rem_mul_r by (try apply Z.pow_nonzero; lia). lia.
Qed.

Lemma from_be_to_be n v : in_unsigned (8 * Z.of_nat n) v -> from_be (to_be n v) = v.
Proof.
  intros Hv. unfold from_be, to_be. rewrite reverse_involutive, from_le_to_le. by apply Z.mod_small.
Qed.

Lemma from_le_bound bs : bytes bs -> 0 <= from_le bs < 2 ^ (8 * zlen bs).
Proof.
  induction 1 as [|b bs Hb _ IH]; [done|].
  rewrite zlen_cons. replace (8 * (1 + zlen bs)) with (8 + 8 * zlen bs) by lia.
  pose proof (zlen_nonneg bs).
  rewrite Z.pow_add_r by lia. simpl from_le. red in Hb.
  change (2 ^ 8) with 256 in *. lia.
Qed.

Lemma to_le_from_le bs : bytes bs -> to_le (length bs) (from_le bs) = bs.
Proof.
  induction 1 as [|b bs Hb _ IH]; [done|]. simpl. red in Hb. change (2 ^ 8) with 256 in Hb.
  rewrite (Z.mul_comm 256), Z.mod_add, Z.div_add by lia.
  rewrite Z.mod_small, Z.div_small by lia. by rewrite Z.add_0_l, IH.
Qed.

Lemma as_signed_mod w x : 0 < w -> in_signed w x -> as_signed w (x mod 2 ^ w) = x.
Proof.
  intros Hw [H1 H2]. unfold as_signed.
  replace (2 ^ w) with (2 * 2 ^ (w - 1)) in *
    by (rewrite <- Z.pow_succ_r by lia; f_equal; lia).
  destruct (Z.ltb_spec x 0).
  - rewrite <- (Z.mod_unique x (2 * 2 ^ (w - 1)) (-1) (x + 2 * 2 ^ (w - 1))) by lia.
    destruct (Z.ltb_spec (x + 2 * 2 ^ (w - 1)) (2 ^ (w - 1))); lia.
  - rewrite Z.mod_small by lia. destruct (Z.ltb_spec x (2 ^ (w - 1))); lia.
Qed.

Lemma as_signed_range w x : 0 < w -> in_unsigned w x -> in_signed w (as_signed w x).
Proof.
  intros Hw [H1 H2]. unfold as_signed, in_signed.
  replace (2 ^ w) with (2 * 2 ^ (w - 1)) in *
    by (rewrite <- Z.pow_succ_r by lia; f_equal; lia).
  destruct (Z.ltb_spec x (2 ^ (w - 1))); lia.
Qed.

Lemma as_unsigned_range w x : 0 <= w -> in_unsigned w (as_unsigned w x).
Proof. intros Hw. apply Z.mod_pos_bound, Z.pow_pos_nonneg; lia. Qed.

Lemma as_unsigned_id w x : in_unsigned w x -> as_unsigned w x = x.
Proof. intros H. by apply Z.mod_small. Qed.

Create Rewrite HintDb zlen.
#[export] Hint Rewrite @zlen_nil @zlen_cons @zlen_app @zlen_to_le @zlen_replicate
  @zlen_insert : zlen.

(** ** Automation

    [zlen_solve] closes linear goals about buffer lengths; [case_bool] splits
    the conditions of the code into arithmetic facts. *)

Ltac zlen_nonneg_all :=
  repeat match goal with
    | |- context [zlen ?l] =>
        lazymatch goal with
        | _ : 0 <= zlen l |- _ => fail
        | _ => pose proof (zlen_nonneg l)
        end
    | _ : context [zlen ?l] |- _ =>
        lazymatch goal with
        | _ : 0 <= zlen l |- _ => fail
        | _ => pose proof (zlen_nonneg l)
        end
    end.

Ltac zlen_solve :=
  autorewrite with zlen in *; zlen_nonneg_all; lia.

Ltac case_bool :=
  repeat match goal with
    | |- context [if ?a <? ?b then _ else _] => destruct (Z.ltb_spec a b)
    | |- context [if ?a <=? ?b then _ else _] => destruct (Z.leb_spec a b)
    | |- context [if ?a >? ?b then _ else _] => rewrite (Z.gtb_ltb a b)
    | |- context [if ?a =? ?b then _ else _] => destruct (Z.eqb_spec a b)
    | _ : context [if ?a <? ?b then _ else _] |- _ => destruct (Z.ltb_spec a b)
    | _ : context [if ?a <=? ?b then _ else _] |- _ => destruct (Z.leb_spec a b)
    | _ : context [if ?a =? ?b then _ else _] |- _ => destruct (Z.eqb_spec a b)
    end.

#[global] Arguments to_le : simpl never.
#[global] Arguments from_le : simpl never.
#[global] Arguments zlen : simpl never.

Notation "out <+ bs" := (extend_from_slice out bs)
  (at level 50, left associativity) : rust_scope.

(** Appending the encodings of a list one after another. *)
Lemma foldl_extend {A} (enc : A -> list Z) (f : list Z -> A -> list Z) xs out :
  (forall out x, f out x = out ++ enc x) ->
  foldl f out xs = out ++ concat (map enc xs).
Proof.
  intros Hf. revert out. induction xs as [|x xs IH]; intros out; simpl; [by rewrite app_nil_r|].
  by rewrite IH, Hf, <- app_assoc.
Qed.

Lemma zlen_concat_map {A} (enc : A -> list Z) n xs :
  (forall x, zlen (enc x) = n) -> zlen (concat (map enc xs)) = n * zlen xs.
Proof.
  intros H. induction xs as [|x xs IH]; simpl; [unfold zlen; simpl; lia|].
  rewrite zlen_app, zlen_cons, H, IH. lia.
Qed.
