(* ===== verification/Reader.v ===== *)
(** The panic-free cursor over untrusted bytes:
    [shakenfist-spice-protocol/src/reader.rs].

    [BoundedReader] is a buffer and a position.  Every method threads the
    reader and may return a [LinkError]; slicing and arithmetic that could
    panic in Rust are modelled as panics, and the lemmas below show that no
    method reaches one.  The file also holds the two proof rules every message
    parser is verified with: [safe] (no panic, cursor in range, result well
    typed) and [reads] (the parser takes exactly these bytes to this value). *)
From Stdlib Require Import ZArith Lia List String.
From stdpp Require Import base numbers list tactics.
From S2P Require Import Prelude.

Open Scope Z_scope.
Open Scope rust_scope.

(** * Data *)

Inductive LinkError : Type :=
| Truncated (needed available : Z)
| TooLarge (what : string) (value max : Z)
| BadOffset (offset len buffer_len : Z)
| PointerIntoFixedPart (offset fixed_len : Z)
| Unsupported (what : string)
| BadMagic (found : list Z)
| UnsupportedVersion (major minor : Z)
| UnsupportedAuthMechanism (mechanism : Z)
| DecryptFailed
| BadUtf8
| BadKeyLength (len : Z)
| MissingRequiredCaps (set : string) (missing : list string) (caps : list Z).

(** [std::io::ErrorKind], the two kinds a parse error converts to. *)
Inductive ErrorKind : Type := UnexpectedEof | InvalidData.

Definition io_error_kind (e : LinkError) : ErrorKind :=
  match e with
  | Truncated _ _ => UnexpectedEof
  | _ => InvalidData
  end.

Record BoundedReader : Type := mkReader { br_data : list Z; br_pos : Z }.

Abbreviation Rd := (M LinkError BoundedReader).

(** * Operations *)

Definition reader_new (data : list Z) : BoundedReader := mkReader data 0.

(** [self.data.len() - self.pos], which panics if the position has run past
    the end. *)
Definition remaining : Rd Z :=
  let? r := get_state in
  unwrap (checked_sub (zlen (br_data r)) (br_pos r)).

Definition position : Rd Z :=
  let? r := get_state in
  ret (br_pos r).

Definition read_bytes (n : Z) : Rd (list Z) :=
  let? available := remaining in
  if available <? n then throw (Truncated n available)
  else
    let? r := get_state in
    let? e := unwrap (checked_add (br_pos r) n) in
    let? s := unwrap (slice (br_data r) (br_pos r) e) in
    do? put_state (mkReader (br_data r) e) in
    ret s.

Definition read_array (n : nat) : Rd (list Z) := read_bytes (Z.of_nat n).

Definition read_u8 : Rd Z :=
  let? a := read_array 1 in
  unwrap (index a 0).
Definition read_u16 : Rd Z := let? a := read_array 2 in ret (from_le a).
Definition read_u32 : Rd Z := let? a := read_array 4 in ret (from_le a).
Definition read_i16 : Rd Z := let? a := read_array 2 in ret (as_signed 16 (from_le a)).
Definition read_i32 : Rd Z := let? a := read_array 4 in ret (as_signed 32 (from_le a)).
Definition read_u64 : Rd Z := let? a := read_array 8 in ret (from_le a).
(** [i64::from_le_bytes(r.read_array()?)], which one message uses inline. *)
Definition read_i64 : Rd Z := let? a := read_array 8 in ret (as_signed 64 (from_le a)).

(** [for _ in 0..count { out.push(m?) }] *)
Fixpoint read_n {A} (count : nat) (m : Rd A) : Rd (list A) :=
  match count with
  | O => ret []
  | S count =>
      let? x := m in
      let? xs := read_n count m in
      ret (x :: xs)
  end.

Definition read_vec_u32 (count max : Z) : Rd (list Z) :=
  if max <? count then throw (TooLarge "count" count max)
  else read_n (Z.to_nat count) read_u32.

(** [remaining().checked_div(size).unwrap_or(usize::MAX)] bounds [count]. *)
Definition check_count (what : string) (count size : Z) : Rd unit :=
  let? rem := remaining in
  let room := if size =? 0 then usize_max else rem / size in
  if room <? count then throw (TooLarge what count room) else ret tt.

Definition slice_at (offset len : Z) : Rd (list Z) :=
  let? r := get_state in
  let buffer_len := zlen (br_data r) in
  match checked_add offset len with
  | Some e =>
      if e <=? buffer_len then unwrap (slice (br_data r) offset e)
      else throw (BadOffset offset len buffer_len)
  | None => throw (BadOffset offset len buffer_len)
  end.

Definition sub_reader (offset len : Z) : Rd BoundedReader :=
  let? s := slice_at offset len in
  ret (reader_new s).

(** * The reader invariant *)

Record reader_ok (r : BoundedReader) : Prop := {
  ok_pos : 0 <= br_pos r <= zlen (br_data r);
  ok_len : zlen (br_data r) <= isize_max;
  ok_bytes : bytes (br_data r)
}.

(** [safe m Q]: from a well-formed reader, [m] never panics, only moves the
    cursor forward within the buffer, and any value it returns satisfies
    [Q]. *)
Definition safe {A} (m : Rd A) (Q : A -> Prop) : Prop :=
  forall r, reader_ok r ->
  match m r with
  | (o, r') =>
      reader_ok r' /\ br_data r' = br_data r /\ br_pos r <= br_pos r' /\
      match o with Ok a => Q a | Err _ => True | Panic => False end
  end.

(** [reads m bs a]: wherever [bs] stands in a buffer, [m] started at [bs]
    returns [a] and stops just after [bs]. *)
Definition reads {A} (m : Rd A) (bs : list Z) (a : A) : Prop :=
  forall pre post, zlen (pre ++ bs ++ post) <= isize_max ->
  m (mkReader (pre ++ bs ++ post) (zlen pre)) =
    (Ok a, mkReader (pre ++ bs ++ post) (zlen pre + zlen bs)).

(** [reads_end m bs a]: the same for a parser that takes the rest of its
    buffer, so [bs] must be the buffer's tail. *)
Definition reads_end {A} (m : Rd A) (bs : list Z) (a : A) : Prop :=
  forall pre, zlen (pre ++ bs) <= isize_max ->
  m (mkReader (pre ++ bs) (zlen pre)) =
    (Ok a, mkReader (pre ++ bs) (zlen pre + zlen bs)).

(** * Proof rules *)

Section Rules.
Context {A B : Type}.

Lemma safe_ret (a : A) (Q : A -> Prop) : Q a -> safe (ret a) Q.
Proof. intros Ha r Hr. simpl. split_and!; auto; lia. Qed.

Lemma safe_throw e (Q : A -> Prop) : safe (throw e) Q.
Proof. intros r Hr. simpl. split_and!; auto; lia. Qed.

Lemma safe_bind (m : Rd A) (k : A -> Rd B) (P : A -> Prop) (Q : B -> Prop) :
  safe m P -> (forall a, P a -> safe (k a) Q) -> safe (bind m k) Q.
Proof.
  intros Hm Hk r Hr. unfold bind. specialize (Hm r Hr).
  destruct (m r) as [[a|e|] r1]; destruct Hm as (H1 & H2 & H3 & H4);
    [|by auto|done].
  specialize (Hk a H4 r1 H1). destruct (k a r1) as [o r2].
  destruct Hk as (K1 & K2 & K3 & K4). split_and!; [done|congruence|lia|done].
Qed.

Lemma safe_weaken (m : Rd A) (P Q : A -> Prop) :
  safe m P -> (forall a, P a -> Q a) -> safe m Q.
Proof.
  intros Hm HPQ r Hr. specialize (Hm r Hr). destruct (m r) as [[a|e|] r'];
    destruct Hm as (H1 & H2 & H3 & H4); split_and!; auto.
Qed.

Lemma safe_if (b : bool) (m1 m2 : Rd A) Q :
  (b = true -> safe m1 Q) -> (b = false -> safe m2 Q) ->
  safe (if b then m1 else m2) Q.
Proof. destruct b; auto. Qed.

Lemma reads_ret (a : A) : reads (ret a) [] a.
Proof. intros pre post _. unfold ret. do 2 f_equal. rewrite zlen_nil. lia. Qed.

Lemma reads_bind (m : Rd A) (k : A -> Rd B) bs1 bs2 a b :
  reads m bs1 a -> reads (k a) bs2 b -> reads (bind m k) (bs1 ++ bs2) b.
Proof.
  intros Hm Hk pre post Hlen. unfold bind.
  rewrite <- app_assoc in Hlen |- *. rewrite (Hm pre (bs2 ++ post)) by done.
  specialize (Hk (pre ++ bs1) post). rewrite <- !app_assoc in Hk.
  rewrite (zlen_app pre bs1) in Hk. rewrite Hk by done.
  do 2 f_equal. rewrite zlen_app. lia.
Qed.

Lemma reads_end_ret (a : A) : reads_end (ret a) [] a.
Proof. intros pre _. unfold ret. do 2 f_equal. rewrite zlen_nil. lia. Qed.

Lemma reads_bind_end (m : Rd A) (k : A -> Rd B) bs1 bs2 a b :
  reads m bs1 a -> reads_end (k a) bs2 b -> reads_end (bind m k) (bs1 ++ bs2) b.
Proof.
  intros Hm Hk pre Hlen. unfold bind.
  rewrite (Hm pre bs2) by done.
  specialize (Hk (pre ++ bs1)). rewrite <- !app_assoc in Hk.
  rewrite (zlen_app pre bs1) in Hk. rewrite Hk by done.
  do 2 f_equal. rewrite zlen_app. lia.
Qed.

(** After a read to the end, the rest of the parser has no bytes. *)
Lemma reads_end_bind (m : Rd A) (k : A -> Rd B) bs a b :
  reads_end m bs a -> reads_end (k a) [] b -> reads_end (bind m k) bs b.
Proof.
  intros Hm Hk pre Hlen. unfold bind. rewrite Hm by done.
  specialize (Hk (pre ++ bs)). rewrite app_nil_r, zlen_app in Hk.
  rewrite zlen_app in Hlen. rewrite Hk by done. do 2 f_equal. rewrite zlen_nil. lia.
Qed.

Lemma reads_to_end (m : Rd A) bs a : reads m bs a -> reads_end m bs a.
Proof.
  intros Hm pre Hlen. specialize (Hm pre []). rewrite app_nil_r in Hm. by apply Hm.
Qed.

(** A parser that consumed a tail-bounded prefix and then does no more. *)
Lemma reads_end_bind_ret (m : Rd A) (f : A -> B) bs a :
  reads_end m bs a -> reads_end (bind m (fun x => ret (f x))) bs (f a).
Proof. intros Hm pre Hlen. unfold bind, ret. by rewrite Hm. Qed.

Lemma reads_bind_ret (m : Rd A) (f : A -> B) bs a :
  reads m bs a -> reads (bind m (fun x => ret (f x))) bs (f a).
Proof. intros Hm pre post Hlen. unfold bind, ret. by rewrite Hm. Qed.
End Rules.

(** * The primitives obey the rules *)

Lemma safe_remaining : safe remaining (fun n => 0 <= n <= isize_max).
Proof.
  intros r Hr. unfold remaining, bind, get_state, checked_sub.
  destruct Hr as [Hp Hl Hb]. rewrite (proj2 (Z.leb_le _ _)) by lia.
  simpl. repeat split; auto; lia.
Qed.

Lemma remaining_eq r : 0 <= br_pos r <= zlen (br_data r) ->
  remaining r = (Ok (zlen (br_data r) - br_pos r), r).
Proof.
  intros Hp. unfold remaining, bind, get_state, checked_sub.
  by rewrite (proj2 (Z.leb_le _ _)) by lia.
Qed.

(** The complete behaviour of [read_bytes] on a well-formed reader. *)
Lemma read_bytes_eq n r :
  0 <= br_pos r <= zlen (br_data r) -> zlen (br_data r) <= isize_max -> 0 <= n ->
  read_bytes n r =
    let available := zlen (br_data r) - br_pos r in
    if available <? n then (Err (Truncated n available), r)
    else (Ok (take (Z.to_nat n) (drop (Z.to_nat (br_pos r)) (br_data r))),
          mkReader (br_data r) (br_pos r + n)).
Proof.
  intros Hp Hl Hn. unfold read_bytes, bind at 1. rewrite remaining_eq by done. simpl.
  case_bool; [done|]. unfold bind, get_state, checked_add, isize_max, usize_max in *.
  rewrite (proj2 (Z.leb_le (br_pos r + n) _)) by lia. simpl.
  rewrite slice_Some by lia. simpl. unfold put_state, ret.
  by replace (br_pos r + n - br_pos r) with n by lia.
Qed.

Lemma safe_read_bytes n : 0 <= n ->
  safe (read_bytes n) (fun s => zlen s = n /\ bytes s).
Proof.
  intros Hn r Hr. pose proof Hr as [Hp Hl Hb]. rewrite read_bytes_eq by done. simpl.
  case_bool.
  - repeat split; auto; lia.
  - repeat split; simpl; auto; try lia.
    + rewrite zlen_take, zlen_drop. lia.
    + by apply Forall_take, Forall_drop.
Qed.

(** A parser that asks for what is left gets all of it. *)
Definition read_rest : Rd (list Z) := let? n := remaining in read_bytes n.

Lemma safe_read_rest : safe read_rest bytes.
Proof.
  unfold read_rest. eapply safe_bind; [apply safe_remaining|]. simpl. intros n Hn.
  eapply safe_weaken; [apply safe_read_bytes; lia|]. by intros s [_ ?].
Qed.

Lemma bytes_singleton s : zlen s = 1 -> bytes s -> exists b, s = [b] /\ u8 b.
Proof.
  intros Hl Hb. destruct s as [|b [|c s]]; [done| |].
  - exists b. split; [done|]. by inversion Hb.
  - rewrite !zlen_cons in Hl. pose proof (zlen_nonneg s). lia.
Qed.

Lemma safe_read_u8 : safe read_u8 u8.
Proof.
  unfold read_u8, read_array. eapply safe_bind; [apply safe_read_bytes; lia|].
  intros s [Hl Hb]. destruct (bytes_singleton s Hl Hb) as (b & -> & Hu).
  by apply safe_ret.
Qed.

(** A fixed-width little-endian read, of which [read_u16] to [read_u64] are
    the instances. *)
Lemma safe_read_uint n :
  safe (let? a := read_array n in ret (from_le a)) (in_unsigned (8 * Z.of_nat n)).
Proof.
  eapply safe_bind; [apply safe_read_bytes; lia|]. intros s [Hl Hb].
  apply safe_ret. red. rewrite <- Hl. by apply from_le_bound.
Qed.

Lemma safe_read_u16 : safe read_u16 u16.
Proof. apply (safe_read_uint 2). Qed.
Lemma safe_read_u32 : safe read_u32 u32.
Proof. apply (safe_read_uint 4). Qed.
Lemma safe_read_u64 : safe read_u64 u64.
Proof. apply (safe_read_uint 8). Qed.

Lemma safe_read_sint n w : w = 8 * Z.of_nat n -> 0 < w ->
  safe (let? a := read_array n in ret (as_signed w (from_le a))) (in_signed w).
Proof.
  intros -> Hw. eapply safe_bind; [apply safe_read_bytes; lia|]. intros s [Hl Hb].
  apply safe_ret, as_signed_range; [done|]. red. rewrite <- Hl. by apply from_le_bound.
Qed.

Lemma safe_read_i16 : safe read_i16 i16.
Proof. by apply (safe_read_sint 2). Qed.
Lemma safe_read_i32 : safe read_i32 i32.
Proof. by apply (safe_read_sint 4). Qed.
Lemma safe_read_i64 : safe read_i64 i64.
Proof. by apply (safe_read_sint 8). Qed.

Lemma safe_read_n {A} n (m : Rd A) (P : A -> Prop) :
  safe m P -> safe (read_n n m) (fun l => length l = n /\ Forall P l).
Proof.
  intros Hm. induction n as [|n IH]; simpl.
  - by apply safe_ret.
  - eapply safe_bind; [apply Hm|]. intros a Ha. eapply safe_bind; [apply IH|].
    intros l [Hl HF]. apply safe_ret. simpl. auto.
Qed.

Lemma safe_read_vec_u32 count max :
  safe (read_vec_u32 count max) (fun l => zlen l = Z.max 0 count /\ Forall u32 l).
Proof.
  unfold read_vec_u32. apply safe_if; intros _; [apply safe_throw|].
  eapply safe_weaken; [apply safe_read_n, safe_read_u32|].
  intros l [Hl HF]. split; [unfold zlen; lia|done].
Qed.

Lemma safe_check_count what count size : 0 <= size ->
  safe (check_count what count size) (fun _ => count * size <= isize_max \/ size = 0).
Proof.
  intros Hs. unfold check_count. eapply safe_bind; [apply safe_remaining|]. simpl.
  intros n Hn. case_bool; try apply safe_throw; apply safe_ret; auto.
  left. pose proof (Z.mul_div_le n size). nia.
Qed.

Lemma safe_slice_at off len : 0 <= off -> 0 <= len ->
  safe (slice_at off len) (fun s => zlen s = len /\ bytes s).
Proof.
  intros Ho Hl r Hr. pose proof Hr as [Hp Hn Hb].
  unfold slice_at, bind, get_state, checked_add. case_bool; simpl.
  all: try (repeat split; auto; lia).
  rewrite slice_Some by lia. simpl. repeat split; auto; try lia.
  - rewrite zlen_take, zlen_drop. lia.
  - by apply Forall_take, Forall_drop.
Qed.

Lemma reads_bytes n bs : zlen bs = n -> reads (read_bytes n) bs bs.
Proof.
  intros <- pre post Hlen.
  rewrite read_bytes_eq by (simpl; zlen_solve). simpl.
  destruct (Z.ltb_spec (zlen (pre ++ bs ++ post) - zlen pre) (zlen bs)); [zlen_solve|].
  by rewrite drop_zlen_app, take_zlen_app.
Qed.

Lemma reads_u8 b : reads read_u8 [b] b.
Proof.
  change [b] with ([b] ++ []). unfold read_u8.
  eapply reads_bind; [by apply reads_bytes|]. apply reads_ret.
Qed.

Lemma reads_uint n v : in_unsigned (8 * Z.of_nat n) v ->
  reads (let? a := read_array n in ret (from_le a)) (to_le n v) v.
Proof.
  intros Hv. replace v with (from_le (to_le n v)) at 2
    by (rewrite from_le_to_le; by apply Z.mod_small).
  apply (reads_bind_ret _ from_le). apply reads_bytes, zlen_to_le.
Qed.

Lemma reads_u16 v : u16 v -> reads read_u16 (to_le 2 v) v.
Proof. apply (reads_uint 2). Qed.
Lemma reads_u32 v : u32 v -> reads read_u32 (to_le 4 v) v.
Proof. apply (reads_uint 4). Qed.
Lemma reads_u64 v : u64 v -> reads read_u64 (to_le 8 v) v.
Proof. apply (reads_uint 8). Qed.

Lemma reads_sint n w v : w = 8 * Z.of_nat n -> 0 < w -> in_signed w v ->
  reads (let? a := read_array n in ret (as_signed w (from_le a))) (to_le n v) v.
Proof.
  intros -> Hw Hv. replace v with (as_signed (8 * Z.of_nat n) (from_le (to_le n v))) at 2
    by (rewrite from_le_to_le; by apply as_signed_mod).
  apply (reads_bind_ret _ (fun a => as_signed (8 * Z.of_nat n) (from_le a))).
  apply reads_bytes, zlen_to_le.
Qed.

Lemma reads_i16 v : i16 v -> reads read_i16 (to_le 2 v) v.
Proof. by apply (reads_sint 2). Qed.
Lemma reads_i32 v : i32 v -> reads read_i32 (to_le 4 v) v.
Proof. by apply (reads_sint 4). Qed.
Lemma reads_i64 v : i64 v -> reads read_i64 (to_le 8 v) v.
Proof. by apply (reads_sint 8). Qed.

Lemma reads_n {A} (m : Rd A) (enc : A -> list Z) xs :
  Forall (fun x => reads m (enc x) x) xs ->
  reads (read_n (length xs) m) (concat (map enc xs)) xs.
Proof.
  induction 1 as [|x xs Hx _ IH]; simpl; [apply reads_ret|].
  eapply reads_bind; [apply Hx|]. by apply (reads_bind_ret _ (cons x)).
Qed.

Lemma reads_vec_u32 n xs : zlen xs = n -> Forall u32 xs ->
  reads (read_vec_u32 n n) (concat (map (to_le 4) xs)) xs.
Proof.
  intros <- HF. unfold read_vec_u32. rewrite Z.ltb_irrefl, <- length_zlen.
  apply reads_n. eapply Forall_impl; [|exact HF]. intros; by apply reads_u32.
Qed.

(** [check_count] consumes nothing, and passes when the elements are there. *)
Lemma reads_check_count {A} what count size (k : Rd A) bs a :
  0 <= count -> 0 < size -> count * size <= zlen bs -> count <= usize_max ->
  reads k bs a -> reads (do? check_count what count size in k) bs a.
Proof.
  intros Hc Hs Hfit Hmax Hk pre post Hlen. unfold bind at 1, check_count, bind at 1.
  rewrite remaining_eq by (simpl; zlen_solve). cbn [br_data br_pos].
  destruct (Z.eqb_spec size 0); [lia|].
  destruct (Z.ltb_spec ((zlen (pre ++ bs ++ post) - zlen pre) / size) count) as [Hlt|_];
    [|by apply Hk].
  exfalso. apply Z.lt_nge in Hlt. apply Hlt.
  apply Z.div_le_lower_bound; zlen_solve.
Qed.

Lemma reads_end_rest bs : reads_end read_rest bs bs.
Proof.
  intros pre Hlen. unfold read_rest, bind. rewrite remaining_eq by (simpl; zlen_solve).
  simpl. replace (zlen (pre ++ bs) - zlen pre) with (zlen bs) by zlen_solve.
  by apply (reads_to_end _ _ _ (reads_bytes (zlen bs) bs eq_refl)).
Qed.

(** The [u32]s that fill the rest of the body: [count] is [remaining / 4], so a
    trailing partial word is left unread. *)
Definition read_u32s_to_end : Rd (list Z) :=
  let? rem := remaining in
  let count := rem / 4 in
  read_vec_u32 count count.

Lemma safe_read_u32s_to_end : safe read_u32s_to_end (fun l => Forall u32 l).
Proof.
  unfold read_u32s_to_end. eapply safe_bind; [apply safe_remaining|]. cbv beta. intros n Hn.
  eapply safe_weaken; [apply safe_read_vec_u32|]. by intros l [_ ?].
Qed.

Lemma reads_end_u32s xs : Forall u32 xs ->
  reads_end read_u32s_to_end (concat (map (to_le 4) xs)) xs.
Proof.
  intros HF pre Hlen. unfold read_u32s_to_end, bind.
  rewrite remaining_eq by (simpl; zlen_solve). cbn [br_data br_pos]. cbv zeta.
  assert ((zlen (pre ++ concat (map (to_le 4) xs)) - zlen pre) / 4 = zlen xs) as ->.
  { rewrite zlen_app, (zlen_concat_map _ 4) by (intros; apply zlen_to_le).
    replace (zlen pre + 4 * zlen xs - zlen pre) with (zlen xs * 4) by lia.
    by apply Z.div_mul. }
  by apply (reads_to_end _ _ _ (reads_vec_u32 _ xs eq_refl HF)).
Qed.

(** * Automation for message parsers *)

Create HintDb wire discriminated.
#[export] Hint Resolve safe_read_u8 safe_read_u16 safe_read_u32 safe_read_u64
  safe_read_i16 safe_read_i32 safe_read_i64 safe_read_rest safe_read_n
  safe_read_vec_u32 safe_remaining safe_throw safe_read_u32s_to_end : wire.
#[export] Hint Resolve reads_u8 reads_u16 reads_u32 reads_u64
  reads_i16 reads_i32 reads_i64 reads_ret reads_end_ret reads_end_rest
  reads_end_u32s : wire.

(** Prove [safe]: step through the binds, keeping the facts about each value. *)
Ltac wire_safe :=
  repeat lazymatch goal with
    | |- safe (bind _ _) _ =>
        eapply safe_bind; [solve [eauto with wire] | cbv beta; intros ? ?]
    | |- safe (ret _) _ => apply safe_ret
    | |- safe (throw _) _ => apply safe_throw
    | |- safe (if _ then _ else _) _ => apply safe_if; intros ?
    end.

(** Prove [reads]: split the bytes along the binds. *)
Ltac wire_reads :=
  repeat lazymatch goal with
    | |- reads (bind _ _) _ _ => eapply reads_bind; [solve [eauto with wire] | cbv beta]
    | |- reads_end (bind _ _) _ _ =>
        first [ eapply reads_bind_end; [solve [eauto with wire] | cbv beta]
              | rewrite app_nil_r; eapply reads_end_bind; [solve [eauto with wire] | cbv beta] ]
    | |- reads (ret _) _ _ => apply reads_ret
    | |- reads_end (ret _) _ _ => apply reads_end_ret
    end.
