(* ===== verification/IoCursor.v ===== *)
(** [std::io::Cursor] over a byte slice with the [byteorder] readers, as the
    parsers that return [io::Result] use it.

    A cursor is only ever read forward, so its state is the unread suffix.  A
    read past the end fails with [UnexpectedEof] and never panics.  [takes]
    is the rule the [io::Result] parsers are verified with. *)
From Stdlib Require Import ZArith Lia.
From stdpp Require Import base numbers list tactics.
From S2P Require Import Prelude Reader.

Open Scope Z_scope.
Open Scope rust_scope.

Abbreviation Cur := (M ErrorKind (list Z)).

(** [Read::read_exact] into a buffer of [n] bytes. *)
Definition read_exact (n : nat) : Cur (list Z) :=
  fun s => if zlen s <? Z.of_nat n then (Err UnexpectedEof, s)
           else (Ok (take n s), drop n s).

Definition cur_u8 : Cur Z := let? a := read_exact 1 in ret (from_le a).
Definition cur_u16 : Cur Z := let? a := read_exact 2 in ret (from_le a).
Definition cur_u32 : Cur Z := let? a := read_exact 4 in ret (from_le a).
Definition cur_u64 : Cur Z := let? a := read_exact 8 in ret (from_le a).
Definition cur_u16_be : Cur Z := let? a := read_exact 2 in ret (from_be a).
Definition cur_u32_be : Cur Z := let? a := read_exact 4 in ret (from_be a).
Definition cur_u64_be : Cur Z := let? a := read_exact 8 in ret (from_be a).

(** [takes m bs a]: [m] at the front of [bs ++ post] returns [a] and leaves
    [post]. *)
Definition takes {A} (m : Cur A) (bs : list Z) (a : A) : Prop :=
  forall post, m (bs ++ post) = (Ok a, post).

Lemma takes_ret {A} (a : A) : takes (ret a) [] a.
Proof. done. Qed.

Lemma takes_bind {A B} (m : Cur A) (k : A -> Cur B) bs1 bs2 a b :
  takes m bs1 a -> takes (k a) bs2 b -> takes (bind m k) (bs1 ++ bs2) b.
Proof. intros Hm Hk post. unfold bind. by rewrite <- app_assoc, Hm, Hk. Qed.

Lemma takes_exact n bs : length bs = n -> takes (read_exact n) bs bs.
Proof.
  intros <- post. unfold read_exact.
  destruct (Z.ltb_spec (zlen (bs ++ post)) (Z.of_nat (length bs))).
  - unfold zlen in *. rewrite length_app in *. lia.
  - by rewrite take_app_length, drop_app_length.
Qed.

Lemma takes_uint n v : in_unsigned (8 * Z.of_nat n) v ->
  takes (let? a := read_exact n in ret (from_le a)) (to_le n v) v.
Proof.
  intros Hv post. unfold bind. rewrite takes_exact by apply length_to_le. simpl.
  unfold ret. rewrite from_le_to_le. by rewrite Z.mod_small.
Qed.

Lemma takes_u8 v : u8 v -> takes cur_u8 (to_le 1 v) v.
Proof. apply (takes_uint 1). Qed.
Lemma takes_u16 v : u16 v -> takes cur_u16 (to_le 2 v) v.
Proof. apply (takes_uint 2). Qed.
Lemma takes_u32 v : u32 v -> takes cur_u32 (to_le 4 v) v.
Proof. apply (takes_uint 4). Qed.
Lemma takes_u64 v : u64 v -> takes cur_u64 (to_le 8 v) v.
Proof. apply (takes_uint 8). Qed.

Lemma takes_uint_be n v : in_unsigned (8 * Z.of_nat n) v ->
  takes (let? a := read_exact n in ret (from_be a)) (to_be n v) v.
Proof.
  intros Hv post. unfold bind, to_be. rewrite takes_exact
    by (rewrite length_reverse; apply length_to_le).
  unfold ret, from_be. rewrite reverse_involutive, from_le_to_le. by rewrite Z.mod_small.
Qed.

Lemma takes_u16_be v : u16 v -> takes cur_u16_be (to_be 2 v) v.
Proof. apply (takes_uint_be 2). Qed.
Lemma takes_u32_be v : u32 v -> takes cur_u32_be (to_be 4 v) v.
Proof. apply (takes_uint_be 4). Qed.
Lemma takes_u64_be v : u64 v -> takes cur_u64_be (to_be 8 v) v.
Proof. apply (takes_uint_be 8). Qed.

#[export] Hint Resolve takes_u16_be takes_u32_be takes_u64_be : wire.
#[export] Hint Resolve takes_u8 takes_u16 takes_u32 takes_u64 takes_exact takes_ret : wire.

Ltac wire_takes :=
  repeat lazymatch goal with
    | |- takes (bind _ _) _ _ => eapply takes_bind; [solve [eauto with wire] | cbv beta]
    | |- takes (ret _) _ _ => apply takes_ret
    end.

(** [tame m Q]: [m] never panics and what it returns satisfies [Q], on any
    bytes. *)
Definition tame {A} (m : Cur A) (Q : A -> Prop) : Prop :=
  forall s, bytes s ->
  match m s with
  | (Ok a, s') => bytes s' /\ Q a
  | (Err _, s') => bytes s'
  | (Panic, _) => False
  end.

Lemma tame_ret {A} (a : A) (Q : A -> Prop) : Q a -> tame (ret a) Q.
Proof. intros Ha s Hs. simpl. auto. Qed.

Lemma tame_bind {A B} (m : Cur A) (k : A -> Cur B) (P : A -> Prop) (Q : B -> Prop) :
  tame m P -> (forall a, P a -> tame (k a) Q) -> tame (bind m k) Q.
Proof.
  intros Hm Hk s Hs. unfold bind. specialize (Hm s Hs).
  destruct (m s) as [[a|e|] s']; [|done|done].
  destruct Hm as [Hs' Ha]. by apply Hk.
Qed.

Lemma tame_exact n : tame (read_exact n) (fun a => length a = n /\ bytes a).
Proof.
  intros s Hs. unfold read_exact. case_bool; simpl; [done|].
  split; [by apply Forall_drop|]. split; [|by apply Forall_take].
  rewrite length_take. unfold zlen in *. lia.
Qed.

Lemma tame_uint n :
  tame (let? a := read_exact n in ret (from_le a)) (in_unsigned (8 * Z.of_nat n)).
Proof.
  eapply tame_bind; [apply tame_exact|]. intros a [Hl Hb]. apply tame_ret.
  red. replace (Z.of_nat n) with (zlen a) by (unfold zlen; lia). by apply from_le_bound.
Qed.

Lemma tame_uint_be n :
  tame (let? a := read_exact n in ret (from_be a)) (in_unsigned (8 * Z.of_nat n)).
Proof.
  eapply tame_bind; [apply tame_exact|]. intros a [Hl Hb]. apply tame_ret.
  red. unfold from_be. replace (Z.of_nat n) with (zlen (reverse a))
    by (unfold zlen; rewrite length_reverse; lia).
  apply from_le_bound. by apply Forall_reverse.
Qed.

Lemma tame_u8 : tame cur_u8 u8.
Proof. apply (tame_uint 1). Qed.
Lemma tame_u16 : tame cur_u16 u16.
Proof. apply (tame_uint 2). Qed.
Lemma tame_u32 : tame cur_u32 u32.
Proof. apply (tame_uint 4). Qed.
Lemma tame_u64 : tame cur_u64 u64.
Proof. apply (tame_uint 8). Qed.
Lemma tame_u16_be : tame cur_u16_be u16.
Proof. apply (tame_uint_be 2). Qed.
Lemma tame_u32_be : tame cur_u32_be u32.
Proof. apply (tame_uint_be 4). Qed.
Lemma tame_u64_be : tame cur_u64_be u64.
Proof. apply (tame_uint_be 8). Qed.

#[export] Hint Resolve tame_u8 tame_u16 tame_u32 tame_u64 tame_u16_be tame_u32_be
  tame_u64_be tame_exact : wire.

Ltac wire_tame :=
  repeat lazymatch goal with
    | |- tame (bind _ _) _ => eapply tame_bind; [solve [eauto with wire] | cbv beta; intros ? ?]
    | |- tame (ret _) _ => apply tame_ret
    end.
