(* ===== verification/Utf8.v ===== *)
(** UTF-8 text: [String::from_utf8_lossy] of the standard library.

    A Rust [String] is the list of its UTF-8 bytes, [utf8] says the list is
    one.  [from_utf8_lossy] replaces every maximal invalid sequence with U+FFFD. *)
From Stdlib Require Import ZArith Lia.
From stdpp Require Import base numbers list tactics.
From S2P Require Import Prelude.

Open Scope Z_scope.
Open Scope rust_scope.

(** * Model *)

Definition between (lo b hi : Z) : bool := (lo <=? b) && (b <=? hi).

(** A continuation byte, 0x80 to 0xBF. *)
Definition is_cont (b : Z) : bool := between 128 b 191.

(** The byte at [i], or 0 past the end: [safe_get]. *)
Definition safe_get (bs : list Z) (i : nat) : Z := default 0 (bs !! i).

(** The second byte that may follow a lead byte of three or four. *)
Definition second3 (b0 b1 : Z) : bool :=
  ((b0 =? 224) && between 160 b1 191) || (between 225 b0 236 && is_cont b1) ||
  ((b0 =? 237) && between 128 b1 159) || (between 238 b0 239 && is_cont b1).

Definition second4 (b0 b1 : Z) : bool :=
  ((b0 =? 240) && between 144 b1 191) || (between 241 b0 243 && is_cont b1) ||
  ((b0 =? 244) && between 128 b1 143).

(** The character, or maximal invalid sequence, at the front of a text that is
    not empty: whether it is valid, and its length. *)
Definition utf8_step (bs : list Z) : bool * nat :=
  let b0 := safe_get bs 0 in
  let b1 := safe_get bs 1 in
  let b2 := safe_get bs 2 in
  let b3 := safe_get bs 3 in
  if b0 <? 128 then (true, 1%nat)
  else if between 194 b0 223 then if is_cont b1 then (true, 2%nat) else (false, 1%nat)
  else if between 224 b0 239 then
    if second3 b0 b1 then if is_cont b2 then (true, 3%nat) else (false, 2%nat) else (false, 1%nat)
  else if between 240 b0 244 then
    if second4 b0 b1 then
      if is_cont b2 then if is_cont b3 then (true, 4%nat) else (false, 3%nat) else (false, 2%nat)
    else (false, 1%nat)
  else (false, 1%nat).

(** U+FFFD *)
Definition replacement : list Z := [239; 191; 189].

(** Each round takes at least a byte: as many rounds as bytes are enough. *)
Fixpoint lossy_loop (fuel : nat) (bs : list Z) : list Z :=
  match fuel, bs with
  | O, _ | _, [] => []
  | S fuel, _ =>
      let '(ok, n) := utf8_step bs in
      (if ok then take n bs else replacement) ++ lossy_loop fuel (drop n bs)
  end.

Definition from_utf8_lossy (bs : list Z) : list Z := lossy_loop (length bs) bs.

(** Valid UTF-8: a sequence of valid characters. *)
Inductive utf8 : list Z -> Prop :=
| utf8_nil : utf8 []
| utf8_char bs n : bs <> [] -> utf8_step bs = (true, n) -> utf8 (drop n bs) -> utf8 bs.

(** * Lemmas *)

Lemma utf8_step_pos bs : (1 <= snd (utf8_step bs))%nat.
Proof. unfold utf8_step. repeat (destruct (_ : bool) in |- *; cbn; try lia). Qed.

Lemma safe_get_cont bs i : is_cont (safe_get bs i) = true -> (i < length bs)%nat.
Proof.
  unfold safe_get. destruct (bs !! i) eqn:E; [intros _; by eapply lookup_lt_Some|done].
Qed.

Lemma second3_get bs i b0 : second3 b0 (safe_get bs i) = true -> (i < length bs)%nat.
Proof.
  unfold safe_get. destruct (bs !! i) eqn:E; [intros _; by eapply lookup_lt_Some|].
  cbn. unfold second3, is_cont, between. rewrite !orb_true_iff, !andb_true_iff, !Z.leb_le. lia.
Qed.

Lemma second4_get bs i b0 : second4 b0 (safe_get bs i) = true -> (i < length bs)%nat.
Proof.
  unfold safe_get. destruct (bs !! i) eqn:E; [intros _; by eapply lookup_lt_Some|].
  cbn. unfold second4, is_cont, between. rewrite !orb_true_iff, !andb_true_iff, !Z.leb_le. lia.
Qed.

(** A valid character is all there, and is decided by its own bytes. *)
Lemma utf8_step_valid bs n : bs <> [] -> utf8_step bs = (true, n) ->
  (n <= length bs)%nat /\
  forall bs', (forall i, (i < n)%nat -> safe_get bs' i = safe_get bs i) -> utf8_step bs' = (true, n).
Proof.
  intros Hne. assert (1 <= length bs)%nat by (destruct bs; [done|cbn; lia]).
  unfold utf8_step. intros Hs.
  repeat match goal with
    | H : context [if ?b then _ else _] |- _ => destruct b eqn:?
    end; simplify_eq;
    repeat match goal with
    | H : is_cont _ = true |- _ => pose proof (safe_get_cont _ _ H); revert H
    | H : second3 _ _ = true |- _ => pose proof (second3_get _ _ _ H); revert H
    | H : second4 _ _ = true |- _ => pose proof (second4_get _ _ _ H); revert H
    end; intros; (split; [lia|]); intros bs' Heq.
  - rewrite (Heq 0%nat) by lia. by case_match.
  - rewrite (Heq 0%nat), (Heq 1%nat) by lia. repeat case_match; congruence.
  - rewrite (Heq 0%nat), (Heq 1%nat), (Heq 2%nat) by lia. repeat case_match; congruence.
  - rewrite (Heq 0%nat), (Heq 1%nat), (Heq 2%nat), (Heq 3%nat) by lia. repeat case_match; congruence.
Qed.

Lemma safe_get_app_l bs rest i : (i < length bs)%nat -> safe_get (bs ++ rest) i = safe_get bs i.
Proof. intros Hi. unfold safe_get. by rewrite lookup_app_l. Qed.

Lemma utf8_char_app c rest : c <> [] -> utf8_step c = (true, length c) -> utf8 rest -> utf8 (c ++ rest).
Proof.
  intros Hne Hs Hr. apply (utf8_char _ (length c)).
  - by destruct c.
  - apply (utf8_step_valid c); [done|done|]. intros i Hi. by apply safe_get_app_l.
  - by rewrite drop_app_length.
Qed.

(** What comes out is always valid text. *)
Lemma lossy_loop_utf8 fuel bs : utf8 (lossy_loop fuel bs).
Proof.
  revert bs. induction fuel as [|fuel IH]; intros bs; [constructor|].
  destruct bs as [|b bs]; [constructor|]. cbn [lossy_loop].
  destruct (utf8_step (b :: bs)) as [[] n] eqn:E.
  - destruct (utf8_step_valid (b :: bs) n) as [Hn Hloc]; [done|done|].
    assert (length (take n (b :: bs)) = n) as Hlen by (rewrite length_take; lia).
    apply utf8_char_app; [|rewrite Hlen; apply Hloc|apply IH].
    + pose proof (utf8_step_pos (b :: bs)) as Hp. rewrite E in Hp. cbn in Hp.
      destruct n; [lia|done].
    + intros i Hi. rewrite <- (take_drop n (b :: bs)) at 2.
      symmetry. apply safe_get_app_l. lia.
  - apply utf8_char_app; [done|done|apply IH].
Qed.

Lemma lossy_loop_id fuel bs : utf8 bs -> (length bs <= fuel)%nat -> lossy_loop fuel bs = bs.
Proof.
  intros Hu. revert fuel. induction Hu as [|bs n Hne Hs _ IH]; intros fuel Hf; [by destruct fuel|].
  destruct fuel as [|fuel]; [destruct bs; [done|cbn in *; lia]|].
  destruct bs as [|b bs]; [done|]. cbn [lossy_loop]. rewrite Hs.
  pose proof (utf8_step_pos (b :: bs)) as Hp. rewrite Hs in Hp. cbn in Hp.
  rewrite IH by (rewrite length_drop; cbn in *; lia). apply take_drop.
Qed.

Lemma from_utf8_lossy_utf8 bs : utf8 (from_utf8_lossy bs).
Proof. apply lossy_loop_utf8. Qed.

(** Valid text is unchanged. *)
Lemma from_utf8_lossy_id bs : utf8 bs -> from_utf8_lossy bs = bs.
Proof. intros Hu. by apply lossy_loop_id. Qed.

Lemma lossy_loop_bytes fuel bs : bytes bs -> bytes (lossy_loop fuel bs).
Proof.
  revert bs. induction fuel as [|fuel IH]; intros bs Hb; [constructor|].
  destruct bs as [|b bs]; [constructor|]. cbn [lossy_loop].
  destruct (utf8_step (b :: bs)) as [ok n]. apply Forall_app. split; [|by apply IH, Forall_drop].
  destruct ok; [by apply Forall_take|]. unfold replacement, in_unsigned. repeat constructor; lia.
Qed.

Lemma from_utf8_lossy_bytes bs : bytes bs -> bytes (from_utf8_lossy bs).
Proof. apply lossy_loop_bytes. Qed.

(** A replacement character for at least a byte: text grows at most threefold. *)
Lemma lossy_loop_length fuel bs : (length (lossy_loop fuel bs) <= 3 * length bs)%nat.
Proof.
  revert bs. induction fuel as [|fuel IH]; intros bs; [cbn; lia|].
  destruct bs as [|b bs]; [cbn; lia|]. cbn [lossy_loop].
  pose proof (utf8_step_pos (b :: bs)) as Hp. destruct (utf8_step (b :: bs)) as [ok n].
  cbn [snd] in Hp. rewrite length_app. specialize (IH (drop n (b :: bs))).
  rewrite length_drop in IH. destruct ok; [rewrite length_take|]; cbn [length replacement] in *; lia.
Qed.

Lemma from_utf8_lossy_length bs : (length (from_utf8_lossy bs) <= 3 * length bs)%nat.
Proof. apply lossy_loop_length. Qed.

(** [String::from_utf8]: the text, unless it holds an invalid sequence. *)
Fixpoint utf8_loop (fuel : nat) (bs : list Z) : bool :=
  match fuel, bs with
  | _, [] => true
  | O, _ => false
  | S fuel, _ => let '(ok, n) := utf8_step bs in ok && utf8_loop fuel (drop n bs)
  end.

Definition from_utf8 (bs : list Z) : option (list Z) :=
  if utf8_loop (length bs) bs then Some bs else None.

Lemma utf8_loop_spec fuel bs : (length bs <= fuel)%nat -> utf8_loop fuel bs = true <-> utf8 bs.
Proof.
  revert bs. induction fuel as [|fuel IH]; intros bs Hf.
  - destruct bs; [|cbn in Hf; lia]. split; [constructor|done].
  - destruct bs as [|b bs]; [split; [constructor|done]|]. cbn [utf8_loop].
    pose proof (utf8_step_pos (b :: bs)) as Hp.
    destruct (utf8_step (b :: bs)) as [ok n] eqn:E. cbn [snd] in Hp.
    rewrite andb_true_iff, IH by (rewrite length_drop; cbn in *; lia). split.
    + intros [-> Hu]. by apply (utf8_char _ n).
    + intros Hu. inversion Hu as [|? m _ Hs Hu']; subst. rewrite E in Hs. by simplify_eq.
Qed.

Lemma from_utf8_eq bs s : from_utf8 bs = Some s <-> utf8 bs /\ s = bs.
Proof.
  unfold from_utf8. pose proof (utf8_loop_spec (length bs) bs (Nat.le_refl _)) as H.
  destruct (utf8_loop _ _).
  - split; [intros [= <-]; split; [by apply H|done]|by intros [_ ->]].
  - split; [done|]. intros [Hu _]. apply H in Hu. done.
Qed.
