(* ===== verification/Text.v ===== *)
(** Text as the protocol crate's string parsers use it.

    A Rust [str] is the list of its UTF-8 bytes.  Every pattern the parsers look for
    is ASCII, and no byte of a longer character is below 128, so splitting at bytes is
    splitting at characters. *)
From Stdlib Require Import ZArith Lia String Ascii.
From stdpp Require Import base numbers list tactics.
From S2P Require Import Prelude Utf8.

Open Scope Z_scope.
Open Scope rust_scope.

(** * ASCII *)

(** A string literal. *)
Definition lit (s : string) : list Z :=
  map (fun a => Z.of_N (N_of_ascii a)) (list_ascii_of_string s).

Definition is_ascii_digit (b : Z) : bool := between 48 b 57.
Definition is_ascii_alphabetic (b : Z) : bool := between 65 b 90 || between 97 b 122.
Definition is_ascii_alphanumeric (b : Z) : bool := is_ascii_digit b || is_ascii_alphabetic b.
(** [u8::is_ascii_whitespace]: space, tab, line feed, form feed, carriage return. *)
Definition is_ascii_whitespace (b : Z) : bool :=
  (b =? 32) || (b =? 9) || (b =? 10) || (b =? 12) || (b =? 13).

Definition to_ascii_lowercase (b : Z) : Z := if between 65 b 90 then b + 32 else b.
Definition eq_ignore_ascii_case (s t : list Z) : bool :=
  bool_decide (map to_ascii_lowercase s = map to_ascii_lowercase t).

(** * Slices of text *)

(** [s.strip_prefix(pat)] *)
Fixpoint strip_prefix (pat s : list Z) : option (list Z) :=
  match pat, s with
  | [], _ => Some s
  | p :: pat, c :: s => if p =? c then strip_prefix pat s else None
  | _ :: _, [] => None
  end.

(** [s.split_once(pat)]: around the first occurrence. *)
Fixpoint split_once (pat s : list Z) : option (list Z * list Z) :=
  match strip_prefix pat s with
  | Some rest => Some ([], rest)
  | None =>
      match s with
      | [] => None
      | c :: s => '(before, after) ← split_once pat s; Some (c :: before, after)
      end
  end.

(** [s.trim_end_matches(c)] *)
Fixpoint trim_end_matches (c : Z) (s : list Z) : list Z :=
  match s with
  | [] => []
  | x :: s =>
      match trim_end_matches c s with
      | [] => if x =? c then [] else [x]
      | s => x :: s
      end
  end.

(** [s.ends_with(pat)] *)
Definition ends_with (pat s : list Z) : bool :=
  bool_decide (drop (length s - length pat) s = pat).

(** * Numbers *)

(** [str::parse::<u64>] on text that is all digits: [None] is the overflow. *)
Definition parse_u64 (digits : list Z) : option Z :=
  foldl (fun acc b =>
    acc ← acc; acc10 ← checked_mul acc 10; checked_add acc10 (b - 48)) (Some 0) digits.

(** [format!("{n}")] *)
Fixpoint print_digits (fuel : nat) (n : Z) (out : list Z) : list Z :=
  match fuel with
  | O => out
  | S fuel =>
      let out := (48 + n mod 10) :: out in
      if n <? 10 then out else print_digits fuel (n / 10) out
  end.

(** A [u64] has at most 20 digits. *)
Definition print_u64 (n : Z) : list Z := print_digits 20 n [].

(** * Lemmas *)

Lemma strip_prefix_app pat s : strip_prefix pat (pat ++ s) = Some s.
Proof. induction pat as [|p pat IH]; cbn; [by destruct s|]. by rewrite Z.eqb_refl. Qed.

Lemma strip_prefix_Some pat s rest : strip_prefix pat s = Some rest <-> s = pat ++ rest.
Proof.
  split; [|intros ->; apply strip_prefix_app].
  revert s. induction pat as [|p pat IH]; intros s; cbn; [by destruct s; intros [= <-]|].
  destruct s as [|c s]; [done|]. destruct (Z.eqb_spec p c) as [<-|]; [|done].
  intros H. by rewrite (IH s H).
Qed.

(** Where the text before holds no byte of the pattern's first, the split is there. *)
Lemma split_once_app p pat before after : p ∉ before ->
  split_once (p :: pat) (before ++ (p :: pat) ++ after) = Some (before, after).
Proof.
  induction before as [|c before IH]; intros Hp.
  - rewrite app_nil_l. cbn [split_once app].
    change (p :: pat ++ after) with ((p :: pat) ++ after). rewrite strip_prefix_app. done.
  - apply not_elem_of_cons in Hp as [Hpc Hp]. cbn [split_once app strip_prefix].
    destruct (Z.eqb_spec p c) as [|_]; [done|]. cbn [app] in IH. by rewrite IH.
Qed.

Lemma trim_end_keeps c s x : x <> c -> trim_end_matches c (s ++ [x]) = s ++ [x].
Proof.
  intros Hx. induction s as [|y s IH]; cbn.
  - destruct (Z.eqb_spec x c); [done|done].
  - rewrite IH. by destruct s.
Qed.

Lemma print_digits_app fuel n out : print_digits fuel n out = print_digits fuel n [] ++ out.
Proof.
  revert n out. induction fuel as [|fuel IH]; intros n out; [done|]. cbn [print_digits]. cbv zeta.
  destruct (n <? 10); [done|]. rewrite IH, (IH _ [_]), <- app_assoc. done.
Qed.

Lemma print_digits_digits fuel n : 0 <= n -> Forall (fun b => is_ascii_digit b = true) (print_digits fuel n []).
Proof.
  revert n. induction fuel as [|fuel IH]; intros n Hn; [constructor|]. cbn [print_digits]. cbv zeta.
  assert (is_ascii_digit (48 + n mod 10) = true) as Hd.
  { unfold is_ascii_digit, between. pose proof (Z.mod_pos_bound n 10).
    rewrite andb_true_iff, !Z.leb_le. lia. }
  destruct (n <? 10); [by constructor|]. rewrite print_digits_app.
  apply Forall_app. split; [apply IH, Z.div_pos; lia|by constructor].
Qed.

Lemma parse_u64_snoc ds d : parse_u64 (ds ++ [d]) =
  (acc ← parse_u64 ds; acc10 ← checked_mul acc 10; checked_add acc10 (d - 48)).
Proof. unfold parse_u64. by rewrite foldl_app. Qed.

Lemma parse_print_digits fuel n : 0 <= n <= usize_max -> n < 10 ^ Z.of_nat fuel -> (0 < fuel)%nat ->
  parse_u64 (print_digits fuel n []) = Some n.
Proof.
  revert n. induction fuel as [|fuel IH]; intros n Hn Hf Hpos; [lia|]. cbn [print_digits]. cbv zeta.
  pose proof (Z.mod_pos_bound n 10). pose proof (Z.div_mod n 10).
  destruct (Z.ltb_spec n 10).
  - change [48 + n mod 10] with ([] ++ [48 + n mod 10]). rewrite parse_u64_snoc. cbn [parse_u64 foldl mbind option_bind].
    unfold checked_mul, checked_add, usize_max in *. cbn [mbind option_bind].
    rewrite Z.mod_small by lia. change (0 * 10 <=? 2 ^ 64 - 1) with true. cbn [mbind option_bind].
    rewrite (proj2 (Z.leb_le _ _)) by lia. f_equal. lia.
  - rewrite print_digits_app, parse_u64_snoc, IH.
    + unfold checked_mul, checked_add, usize_max in *. cbn [mbind option_bind].
      rewrite (proj2 (Z.leb_le _ _)) by lia. cbn [mbind option_bind].
      rewrite (proj2 (Z.leb_le _ _)) by lia. f_equal. lia.
    + unfold usize_max in *. lia.
    + apply Z.div_lt_upper_bound; [lia|]. rewrite Nat2Z.inj_succ, Z.pow_succ_r in Hf by lia. lia.
    + destruct fuel; [|lia]. rewrite Z.pow_1_r in Hf. lia.
Qed.

Lemma parse_print_u64 n : u64 n -> parse_u64 (print_u64 n) = Some n.
Proof. intros [H1 H2]. apply parse_print_digits; [unfold usize_max; lia|cbn; lia|lia]. Qed.

Lemma print_u64_digits n : 0 <= n -> Forall (fun b => is_ascii_digit b = true) (print_u64 n).
Proof. apply print_digits_digits. Qed.

(** It ends in a digit. *)
Lemma print_u64_last n : exists ds, print_u64 n = ds ++ [48 + n mod 10].
Proof.
  unfold print_u64.
  change (print_digits 20 n []) with
    (if n <? 10 then [48 + n mod 10] else print_digits 19 (n / 10) [48 + n mod 10]).
  destruct (n <? 10); [by exists []|]. rewrite print_digits_app. by eexists.
Qed.
