(* ===== verification/Io.v ===== *)
(** Programs that talk over a byte stream, as the drivers generic over
    [AsyncRead + AsyncWrite] do, and two of them connected back to back.

    A program is the tree of its reads, writes and flushes.  Two programs joined
    by a stream run as a step relation: either side may take its next step, and
    bytes that were written but not yet flushed may reach the wire at any time,
    in any pieces.  [eventually] quantifies over every such interleaving;
    [joined_eventually] reduces it to one run, because steps commute.  [peaceful]
    is what a program promises against a peer that sends any bytes. *)
From Stdlib Require Import ZArith Lia List Relations.
From stdpp Require Import base numbers list tactics relations.
From S2P Require Import Prelude.

Open Scope Z_scope.
Open Scope rust_scope.

(** * Programs *)

(** [Io_Read n k eof]: [k] gets the next [n] bytes, [eof] runs when the stream
    ends before there are [n]. *)
Inductive Io (E A : Type) : Type :=
| Io_Done (r : result E A)
| Io_Write (bs : list Z) (k : Io E A)
| Io_Flush (k : Io E A)
| Io_Read (n : nat) (k : list Z -> Io E A) (eof : Io E A).
Arguments Io_Done {E A} _.
Arguments Io_Write {E A} _ _.
Arguments Io_Flush {E A} _.
Arguments Io_Read {E A} _ _ _.

Section Programs.
Context {E : Type}.

Definition io_ret {A} (a : A) : Io E A := Io_Done (Ok a).
Definition io_throw {A} (e : E) : Io E A := Io_Done (Err e).
Definition io_lift {A} (r : result E A) : Io E A := Io_Done r.

Fixpoint io_bind {A B} (m : Io E A) (k : A -> Io E B) : Io E B :=
  match m with
  | Io_Done (Ok a) => k a
  | Io_Done (Err e) => Io_Done (Err e)
  | Io_Done Panic => Io_Done Panic
  | Io_Write bs m => Io_Write bs (io_bind m k)
  | Io_Flush m => Io_Flush (io_bind m k)
  | Io_Read n f eof => Io_Read n (fun bs => io_bind (f bs) k) (io_bind eof k)
  end.

(** [stream.write_all(bs).await?], [stream.flush().await?] *)
Definition io_write_all (bs : list Z) : Io E unit := Io_Write bs (io_ret tt).
Definition io_flush : Io E unit := Io_Flush (io_ret tt).

(** [stream.read_exact(&mut buf).await?] on a buffer of [n] bytes; [e] is what the
    caller makes of [UnexpectedEof]. *)
Definition io_read_exact (e : E) (n : nat) : Io E (list Z) := Io_Read n io_ret (io_throw e).

(** [stream.read(&mut byte).await?] into one byte: nothing is read at the end of
    the stream. *)
Definition io_read_byte : Io E (option Z) :=
  Io_Read 1 (fun bs => io_ret (head bs)) (io_ret None).
End Programs.

Notation "'io?' x := m 'in' k" := (io_bind m (fun x => k))
  (at level 10, x name, m at level 100, k at level 200,
   format "'[v' 'io?'  x  :=  '[' m ']'  'in' '/' k ']'") : rust_scope.
Notation "'io!' m 'in' k" := (io_bind m (fun _ => k))
  (at level 10, m at level 100, k at level 200,
   format "'[v' 'io!'  '[' m ']'  'in' '/' k ']'") : rust_scope.

(** * One program on a fixed input *)

(** The result, the bytes written and the bytes left unread, when the peer sends
    [inbox] and closes. *)
Fixpoint io_run {E A} (m : Io E A) (inbox : list Z) : result E A * list Z * list Z :=
  match m with
  | Io_Done r => (r, [], inbox)
  | Io_Write bs k => let '(r, out, rest) := io_run k inbox in (r, bs ++ out, rest)
  | Io_Flush k => io_run k inbox
  | Io_Read n k eof =>
      if (n <=? length inbox)%nat then io_run (k (take n inbox)) (drop n inbox)
      else io_run eof []
  end.

Lemma io_run_bind {E A B} (m : Io E A) (k : A -> Io E B) i :
  io_run (io_bind m k) i =
  match io_run m i with
  | (Ok a, out, rest) => let '(r, out', rest') := io_run (k a) rest in (r, out ++ out', rest')
  | (Err e, out, rest) => (Err e, out, rest)
  | (Panic, out, rest) => (Panic, out, rest)
  end.
Proof.
  revert i. induction m as [[a|e|]|bs m IH|m IH|n f IHf eof IHe]; intros i; cbn.
  - by destruct (io_run (k a) i) as [[r out] rest].
  - done.
  - done.
  - rewrite IH. destruct (io_run m i) as [[[a|e|] out] rest]; try done.
    destruct (io_run (k a) rest) as [[r out'] rest']. by rewrite app_assoc.
  - apply IH.
  - destruct (_ <=? _)%nat; [apply IHf|apply IHe].
Qed.

(** * A hostile peer *)

(** [peaceful L m Q]: whatever bytes the peer sends, and wherever it stops, [m]
    does not panic, never asks to read more than [L] bytes at once, and what it
    returns satisfies [Q]. *)
Fixpoint peaceful {E A} (L : Z) (m : Io E A) (Q : A -> Prop) : Prop :=
  match m with
  | Io_Done (Ok a) => Q a
  | Io_Done (Err _) => True
  | Io_Done Panic => False
  | Io_Write bs k => peaceful L k Q
  | Io_Flush k => peaceful L k Q
  | Io_Read n k eof =>
      Z.of_nat n <= L /\ peaceful L eof Q /\
      forall bs, length bs = n -> bytes bs -> peaceful L (k bs) Q
  end.

Section Peaceful.
Context {E A B : Type} (L : Z).

Lemma peaceful_bind (m : Io E A) (k : A -> Io E B) (P : A -> Prop) (Q : B -> Prop) :
  peaceful L m P -> (forall a, P a -> peaceful L (k a) Q) -> peaceful L (io_bind m k) Q.
Proof.
  intros Hm Hk. induction m as [[a|e|]|bs m IH|m IH|n f IHf eof IHe]; cbn in *; try done; auto.
  destruct Hm as (Hn & He & Hf). split_and!; auto.
Qed.

Lemma peaceful_write bs : peaceful L (io_write_all (E := E) bs) (fun _ => True).
Proof. done. Qed.

Lemma peaceful_flush : peaceful L (io_flush (E := E)) (fun _ => True).
Proof. done. Qed.

End Peaceful.

(** * Two programs joined by a stream *)

(** One end: what it still has to run, what it wrote and did not flush, and what
    has arrived for it. *)
Record Peer (E A : Type) : Type := mkPeer {
  prog : Io E A;
  pending : list Z;
  inbox : list Z
}.
Arguments mkPeer {E A} _ _ _.
Arguments prog {E A} _.
Arguments pending {E A} _.
Arguments inbox {E A} _.

Definition peer_start {E A} (m : Io E A) : Peer E A := mkPeer m [] [].

(** An end that returned drops its half of the stream once all it wrote is out. *)
Definition gone {E A} (p : Peer E A) : bool :=
  match prog p, pending p with Io_Done _, [] => true | _, _ => false end.

Definition deliver {E A} (p : Peer E A) (bs : list Z) : Peer E A :=
  mkPeer (prog p) (pending p) (inbox p ++ bs).

(** What one end does next: the bytes it puts on the wire and where it is then.
    [closed] says the other end is gone. *)
Definition prog_step {E A} (closed : bool) (p : Peer E A) : option (list Z * Peer E A) :=
  match prog p with
  | Io_Done _ => None
  | Io_Write bs k => Some ([], mkPeer k (pending p ++ bs) (inbox p))
  | Io_Flush k => Some (pending p, mkPeer k [] (inbox p))
  | Io_Read n k eof =>
      if (n <=? length (inbox p))%nat then
        Some ([], mkPeer (k (take n (inbox p))) (pending p) (drop n (inbox p)))
      else if closed then Some ([], mkPeer eof (pending p) [])
      else None
  end.

(** The transport sends the first [n] bytes that wait for a flush. *)
Definition drained {E A} (n : nat) (p : Peer E A) : Peer E A :=
  mkPeer (prog p) (drop n (pending p)) (inbox p).

Inductive peer_step {E A} (closed : bool) (p : Peer E A) : list Z -> Peer E A -> Prop :=
| Step_Prog d p' : prog_step closed p = Some (d, p') -> peer_step closed p d p'
| Step_Drain n :
    (0 < n <= length (pending p))%nat ->
    peer_step closed p (take n (pending p)) (drained n p).

(** The client end and the server end. *)
Definition Joined (E A B : Type) : Type := (Peer E A * Peer E B)%type.

Definition joined_start {E A B} (m1 : Io E A) (m2 : Io E B) : Joined E A B :=
  (peer_start m1, peer_start m2).

Inductive joined_step {E A B} : Joined E A B -> Joined E A B -> Prop :=
| Step_Left l r d l' :
    peer_step (gone r) l d l' -> joined_step (l, r) (l', deliver r d)
| Step_Right l r d r' :
    peer_step (gone l) r d r' -> joined_step (l, r) (deliver l d, r').

(** Every interleaving reaches [P], none gets stuck before. *)
Inductive eventually {St} (step : St -> St -> Prop) (P : St -> Prop) (s : St) : Prop :=
| Eventually_Now : P s -> eventually step P s
| Eventually_Step :
    (exists t, step s t) -> (forall t, step s t -> eventually step P t) ->
    eventually step P s.

Lemma eventually_weaken {St} (step : St -> St -> Prop) (P Q : St -> Prop) s :
  eventually step P s -> (forall t, P t -> Q t) -> eventually step Q s.
Proof.
  intros H HPQ. induction H as [s Hs|s Hex _ IH]; [left; auto|right; auto].
Qed.

(** ** Steps commute *)

Lemma deliver_nil {E A} (p : Peer E A) : deliver p [] = p.
Proof. destruct p. unfold deliver. cbn. by rewrite app_nil_r. Qed.

Lemma deliver_deliver {E A} (p : Peer E A) x y : deliver (deliver p x) y = deliver p (x ++ y).
Proof. unfold deliver. cbn. by rewrite app_assoc. Qed.

(** Bytes that arrive do not disturb a step, unless it is the end of the stream. *)
Lemma prog_step_deliver {E A} closed (p : Peer E A) d p' x :
  prog_step closed p = Some (d, p') -> closed = false \/ x = [] ->
  prog_step closed (deliver p x) = Some (d, deliver p' x).
Proof.
  intros Hs [-> | ->]; [|by rewrite !deliver_nil].
  destruct p as [[r|bs k|k|n k eof] b i]; cbn in *; simplify_eq; try done.
  rewrite length_app. case_match; [|done]. simplify_eq. rename select (_ = true) into Hn.
  apply Nat.leb_le in Hn. rewrite (proj2 (Nat.leb_le _ _)) by lia.
  by rewrite take_app_le, drop_app_le by done.
Qed.

Lemma peer_step_deliver {E A} closed (p : Peer E A) d p' x :
  peer_step closed p d p' -> closed = false \/ x = [] ->
  peer_step closed (deliver p x) d (deliver p' x).
Proof.
  intros [d0 p0 Hs|n Hn] Hx; [apply Step_Prog; by apply prog_step_deliver|].
  by apply (Step_Drain closed (deliver p x) n).
Qed.

(** Nor does learning that the other end is gone. *)
Lemma peer_step_closed {E A} closed (p : Peer E A) d p' :
  peer_step false p d p' -> peer_step closed p d p'.
Proof.
  intros [d0 p0 Hs|n Hn]; [apply Step_Prog|by apply Step_Drain].
  unfold prog_step in *. by repeat case_match.
Qed.

(** An end that is gone takes no step. *)
Lemma gone_stuck {E A} closed (p : Peer E A) d p' :
  peer_step closed p d p' -> gone p = false.
Proof.
  destruct p as [m b i]. intros [d0 p0 Hs|n Hn]; unfold gone; cbn in *.
  - by destruct m.
  - destruct b; [cbn in Hn; lia|]. by destruct m.
Qed.

(** Draining early and then going on is going on and then draining, or nothing
    is left to drain. *)
Lemma prog_step_drained {E A} closed (p : Peer E A) d p' n :
  prog_step closed p = Some (d, p') -> (0 < n <= length (pending p))%nat ->
  exists x, prog_step closed (drained n p) = Some (x, if decide (pending p' = []) then p' else drained n p') /\
  (if decide (pending p' = []) then d = take n (pending p) ++ x
   else d = [] /\ x = [] /\ take n (pending p') = take n (pending p) /\
        (0 < n <= length (pending p'))%nat).
Proof.
  intros Hs Hn.
  destruct p as [[r|bs k|k|m k eof] b i]; cbn in *; simplify_eq; cbn [pending].
  - exists []. rewrite decide_False, decide_False by (destruct b; cbn in *; [lia|done]).
    unfold drained. cbn. rewrite drop_app_le, take_app_le, length_app by lia.
    split; [done|]. split_and!; try done; lia.
  - exists (drop n d). rewrite decide_True, decide_True by done. by rewrite take_drop.
  - assert (b <> []) by (destruct b; cbn in *; [lia|done]).
    exists []. repeat case_match; simplify_eq; cbn [pending] in *; try done;
      (split; [done|]; split_and!; try done; lia).
Qed.

(** Two steps of one end: they are the same, or one catches up with the other, or
    they meet. *)
Lemma peer_step_diamond {E A} closed (p : Peer E A) d1 p1 d2 p2 :
  peer_step closed p d1 p1 -> peer_step closed p d2 p2 ->
  (d1 = d2 /\ p1 = p2) \/
  (exists x, d1 = d2 ++ x /\ peer_step closed p2 x p1) \/
  (exists x, d2 = d1 ++ x /\ peer_step closed p1 x p2) \/
  (exists x1 x2 q, d1 ++ x1 = d2 ++ x2 /\ peer_step closed p1 x1 q /\ peer_step closed p2 x2 q).
Proof.
  assert (forall d q n, prog_step closed p = Some (d, q) -> (0 < n <= length (pending p))%nat ->
    (exists x, d = take n (pending p) ++ x /\ peer_step closed (drained n p) x q) \/
    (exists x1 x2 q', d ++ x1 = take n (pending p) ++ x2 /\ peer_step closed q x1 q' /\
      peer_step closed (drained n p) x2 q')) as Hmix.
  { intros d q n Hs Hn. destruct (prog_step_drained _ _ _ _ _ Hs Hn) as (x & Hx & Hd).
    destruct (decide (pending q = [])).
    - left. exists x. split; [done|]. by apply Step_Prog.
    - right. destruct Hd as (-> & -> & Ht & Hl).
      exists (take n (pending q)), [], (drained n q). rewrite app_nil_r. cbn. split; [done|].
      split; [by apply Step_Drain|by apply Step_Prog]. }
  assert (forall n m, (0 < n <= length (pending p))%nat -> (0 < m <= length (pending p))%nat -> (n < m)%nat ->
    exists x, take m (pending p) = take n (pending p) ++ x /\
      peer_step closed (drained n p) x (drained m p)) as Hdd.
  { intros n m Hn Hm Hlt. exists (take (m - n) (drop n (pending p))). split.
    { replace m with (n + (m - n))%nat at 1 by lia. by rewrite take_take_drop. }
    replace (drained m p) with (drained (m - n) (drained n p)).
    - apply (Step_Drain closed (drained n p)). cbn. rewrite length_drop. lia.
    - unfold drained. cbn. rewrite drop_drop. do 2 f_equal. lia. }
  intros [d q Hs|n Hn] [d' q' Hs'|m Hm].
  - left. by simplify_eq.
  - destruct (Hmix _ _ _ Hs Hm) as [(x & ? & ?)|(x1 & x2 & q' & ? & ? & ?)]; eauto 10.
  - destruct (Hmix _ _ _ Hs' Hn) as [(x & ? & ?)|(x1 & x2 & q & ? & ? & ?)]; eauto 10.
  - destruct (lt_eq_lt_dec n m) as [[Hlt| ->]|Hlt]; [|by left|].
    + destruct (Hdd n m) as (x & ? & ?); eauto 10.
    + destruct (Hdd m n) as (x & ? & ?); eauto 10.
Qed.

(** At most one step. *)
Definition rc {St} (step : St -> St -> Prop) (s t : St) : Prop := s = t \/ step s t.

Lemma rc_refl {St} (step : St -> St -> Prop) s : rc step s s.
Proof. by left. Qed.
Lemma rc_once {St} (step : St -> St -> Prop) s t : step s t -> rc step s t.
Proof. by right. Qed.

Lemma joined_left {E A B} (r : Peer E B) r' d x (l1 l2 : Peer E A) :
  peer_step (gone r) l1 x l2 -> r' = deliver (deliver r d) x ->
  joined_step (A := A) (l1, deliver r d) (l2, r').
Proof. intros Hs ->. by apply Step_Left. Qed.

Lemma joined_right {E A B} (l : Peer E A) l' d x (r1 r2 : Peer E B) :
  peer_step (gone l) r1 x r2 -> l' = deliver (deliver l d) x ->
  joined_step (B := B) (deliver l d, r1) (l', r2).
Proof. intros Hs ->. by apply Step_Right. Qed.

(** The two ends' steps are independent of each other. *)
Lemma joined_step_commute {E A B} (s s1 s2 : Joined E A B) :
  joined_step s s1 -> joined_step s s2 ->
  exists u, rc joined_step s1 u /\ rc joined_step s2 u.
Proof.
  intros [l r d1 l1 H1|l r d1 r1 H1] H2; inversion H2 as [? ? d2 p2 H2'|? ? d2 p2 H2']; subst.
  - destruct (peer_step_diamond _ _ _ _ _ _ H1 H2')
      as [[-> ->]|[(x & -> & Hx)|[(x & -> & Hx)|(x1 & x2 & q & Hx & Hq1 & Hq2)]]].
    + eexists. by split; apply rc_refl.
    + eexists. split; [apply rc_refl|]. apply rc_once. eapply joined_left; [done|].
      by rewrite deliver_deliver.
    + eexists. split; [|apply rc_refl]. apply rc_once. eapply joined_left; [done|].
      by rewrite deliver_deliver.
    + exists (q, deliver r (d1 ++ x1)). split; apply rc_once; (eapply joined_left; [done|]);
        by rewrite deliver_deliver, ?Hx.
  - pose proof (gone_stuck _ _ _ _ H1) as Gl. pose proof (gone_stuck _ _ _ _ H2') as Gr.
    rewrite Gl in H2'. rewrite Gr in H1.
    exists (deliver l1 d2, deliver p2 d1). split; apply rc_once.
    + apply Step_Right, peer_step_closed, peer_step_deliver; auto.
    + apply Step_Left, peer_step_closed, peer_step_deliver; auto.
  - pose proof (gone_stuck _ _ _ _ H1) as Gr. pose proof (gone_stuck _ _ _ _ H2') as Gl.
    rewrite Gl in H1. rewrite Gr in H2'.
    exists (deliver p2 d1, deliver r1 d2). split; apply rc_once.
    + apply Step_Left, peer_step_closed, peer_step_deliver; auto.
    + apply Step_Right, peer_step_closed, peer_step_deliver; auto.
  - destruct (peer_step_diamond _ _ _ _ _ _ H1 H2')
      as [[-> ->]|[(x & -> & Hx)|[(x & -> & Hx)|(x1 & x2 & q & Hx & Hq1 & Hq2)]]].
    + eexists. by split; apply rc_refl.
    + eexists. split; [apply rc_refl|]. apply rc_once. eapply joined_right; [done|].
      by rewrite deliver_deliver.
    + eexists. split; [|apply rc_refl]. apply rc_once. eapply joined_right; [done|].
      by rewrite deliver_deliver.
    + exists (deliver l (d1 ++ x1), q). split; apply rc_once; (eapply joined_right; [done|]);
        by rewrite deliver_deliver, ?Hx.
Qed.

(** ** Every interleaving ends *)

Definition waiting {E A B} (s : Joined E A B) : nat :=
  (length (pending (fst s)) + length (pending (snd s)))%nat.

(** A step takes one program to one of its branches, or drains. *)
Inductive branch {E A} : Io E A -> Io E A -> Prop :=
| Branch_Write bs k : branch k (Io_Write bs k)
| Branch_Flush k : branch k (Io_Flush k)
| Branch_Read n k eof bs : branch (k bs) (Io_Read n k eof)
| Branch_Eof n k eof : branch eof (Io_Read n k eof).

Lemma branch_wf {E A} (m : Io E A) : Acc branch m.
Proof. induction m; constructor; intros m' Hm; inversion Hm; subst; auto. Qed.

Lemma prog_step_branch {E A} closed (p : Peer E A) d p' :
  prog_step closed p = Some (d, p') -> branch (prog p') (prog p).
Proof.
  destruct p as [[r|bs k|k|n k eof] b i]; cbn; intros Hs; simplify_eq; cbn [prog]; try constructor.
  repeat case_match; simplify_eq; constructor.
Qed.

Lemma joined_terminates {E A B} (s : Joined E A B) : Acc (flip joined_step) s.
Proof.
  assert (forall m1 m2 n (t : Joined E A B), prog (fst t) = m1 -> prog (snd t) = m2 ->
    (waiting t < n)%nat -> Acc (flip joined_step) t) as H.
  { intros m1. induction (branch_wf m1) as [m1 _ IH1]. intros m2.
    induction (branch_wf m2) as [m2 _ IH2]. induction n as [|n IHn]; [lia|].
    intros [l r] <- <- Hw. constructor. intros t Ht. cbn in *.
    inversion Ht as [? ? d l' Hs|? ? d r' Hs]; subst; destruct Hs as [d p' Hs|k Hk].
    - eapply IH1; [by eapply prog_step_branch|done|done|apply Nat.lt_succ_diag_r].
    - apply IHn; [done|done|]. unfold waiting in *. cbn in *. rewrite length_drop. lia.
    - eapply IH2; [by eapply prog_step_branch|done|done|apply Nat.lt_succ_diag_r].
    - apply IHn; [done|done|]. unfold waiting in *. cbn in *. rewrite length_drop. lia. }
  eapply H; [done|done|apply Nat.lt_succ_diag_r].
Qed.

(** Where nothing more happens. *)
Definition stuck {St} (step : St -> St -> Prop) (s : St) : Prop := forall t, ~ step s t.

(** In a system whose steps commute, what one run ends in, every run can still
    reach. *)
Lemma commuting_reach {St} (step : St -> St -> Prop) s u t :
  (forall s s1 s2, step s s1 -> step s s2 -> exists u, rc step s1 u /\ rc step s2 u) ->
  stuck step u -> rtc step s u -> step s t -> rtc step t u.
Proof.
  intros Hc Hu Hsu. revert t. induction Hsu as [s|s s1 u Hs1 Hrest IH]; intros t Ht.
  - by destruct (Hu t).
  - destruct (Hc _ _ _ Hs1 Ht) as (v & Hv1 & Hv2).
    assert (rtc step v u) as Hvu by (destruct Hv1 as [<-|Hv1]; [done|by apply IH]).
    destruct Hv2 as [->|Hv2]; [done|by eapply rtc_l].
Qed.

Lemma joined_eventually {E A B} (s u : Joined E A B) :
  rtc joined_step s u -> stuck joined_step u -> eventually joined_step (eq u) s.
Proof.
  intros Hsu Hu. induction (joined_terminates s) as [s _ IH].
  destruct Hsu as [s|s s1 u Hs1 Hrest]; [by left|].
  apply Eventually_Step; [by exists s1|]. intros t Ht.
  apply IH; [done|]. apply (commuting_reach joined_step s u t joined_step_commute); [done| |done].
  exact (rtc_l _ _ _ _ Hs1 Hrest).
Qed.

(** ** Runs, for one chosen interleaving

    The ends are kept as what they still have to run and what has arrived; all
    that was written has been flushed. *)

Definition calm {E A} (m : Io E A) (i : list Z) : Peer E A := mkPeer m [] i.

Section Runs.
Context {E A B : Type}.
Implicit Types (m : Io E A) (q : Io E B).

Lemma joined_done (r1 : result E A) (r2 : result E B) i1 i2 :
  stuck joined_step (calm (Io_Done r1) i1, calm (Io_Done r2) i2).
Proof.
  intros t Ht. inversion Ht as [? ? d l Hs|? ? d r Hs]; subst; by apply gone_stuck in Hs.
Qed.

Lemma run_left_read n k (eof : Io E A) i1 i2 q : (n <= length i1)%nat ->
  rtc joined_step (calm (Io_Read n k eof) i1, calm q i2)
    (calm (k (take n i1)) (drop n i1), calm q i2).
Proof.
  intros Hn. apply rtc_once.
  replace (calm q i2) with (deliver (calm q i2) []) at 2 by apply deliver_nil.
  apply Step_Left, Step_Prog. cbn. by rewrite (proj2 (Nat.leb_le _ _)).
Qed.

Lemma run_right_read n k (eof : Io E B) i1 i2 m : (n <= length i2)%nat ->
  rtc joined_step (calm m i1, calm (Io_Read n k eof) i2)
    (calm m i1, calm (k (take n i2)) (drop n i2)).
Proof.
  intros Hn. apply rtc_once.
  replace (calm m i1) with (deliver (calm m i1) []) at 2 by apply deliver_nil.
  apply Step_Right, Step_Prog. cbn. by rewrite (proj2 (Nat.leb_le _ _)).
Qed.

(** Reads that one end does from what has arrived. *)
Inductive solo {C} : Io E C -> list Z -> Io E C -> list Z -> Prop :=
| Solo_Refl p i : solo p i p i
| Solo_Read n k eof i p' i' :
    (n <= length i)%nat -> solo (k (take n i)) (drop n i) p' i' ->
    solo (Io_Read n k eof) i p' i'.

Lemma solo_bind {C D} p i p' i' (k : C -> Io E D) :
  solo p i p' i' -> solo (io_bind p k) i (io_bind p' k) i'.
Proof. induction 1 as [|n f eof i p' i' Hn _ IH]; [constructor|]. by apply Solo_Read. Qed.

(** A read of just the bytes at the front. *)
Lemma solo_read_app {C} n (k : list Z -> Io E C) eof bs i p' i' :
  length bs = n -> solo (k bs) i p' i' -> solo (Io_Read n k eof) (bs ++ i) p' i'.
Proof.
  intros <- Hk. apply Solo_Read; [rewrite length_app; lia|].
  by rewrite take_app_length, drop_app_length.
Qed.

Lemma run_left_solo m i1 m' i1' q i2 :
  solo m i1 m' i1' -> rtc joined_step (calm m i1, calm q i2) (calm m' i1', calm q i2).
Proof.
  induction 1 as [|n k eof i p' i' Hn _ IH]; [done|].
  etrans; [by apply run_left_read|done].
Qed.

Lemma run_right_solo q i2 q' i2' m i1 :
  solo q i2 q' i2' -> rtc joined_step (calm m i1, calm q i2) (calm m i1, calm q' i2').
Proof.
  induction 1 as [|n k eof i p' i' Hn _ IH]; [done|].
  etrans; [by apply run_right_read|done].
Qed.

(** Writes that end in a flush. *)
Fixpoint io_writes {C} (bss : list (list Z)) (k : Io E C) : Io E C :=
  match bss with
  | [] => Io_Flush k
  | bs :: bss => Io_Write bs (io_writes bss k)
  end.

Lemma run_left_writes bss m i1 i2 q :
  rtc joined_step (calm (io_writes bss m) i1, calm q i2) (calm m i1, calm q (i2 ++ concat bss)).
Proof.
  assert (forall b, rtc joined_step (mkPeer (io_writes bss m) b i1, calm q i2)
    (calm m i1, calm q (i2 ++ b ++ concat bss))) as H; [|apply (H [])].
  induction bss as [|bs bss IH]; intros b; cbn.
  - rewrite app_nil_r. apply rtc_once. apply (Step_Left _ (calm q i2)), Step_Prog. done.
  - rewrite (app_assoc b). eapply rtc_l; [|apply (IH (b ++ bs))].
    replace (calm q i2) with (deliver (calm q i2) []) at 2 by apply deliver_nil.
    by apply Step_Left, Step_Prog.
Qed.

Lemma run_right_writes bss q i1 i2 m :
  rtc joined_step (calm m i1, calm (io_writes bss q) i2) (calm m (i1 ++ concat bss), calm q i2).
Proof.
  assert (forall b, rtc joined_step (calm m i1, mkPeer (io_writes bss q) b i2)
    (calm m (i1 ++ b ++ concat bss), calm q i2)) as H; [|apply (H [])].
  induction bss as [|bs bss IH]; intros b; cbn.
  - rewrite app_nil_r. apply rtc_once. apply (Step_Right (calm m i1)), Step_Prog. done.
  - rewrite (app_assoc b). eapply rtc_l; [|apply (IH (b ++ bs))].
    replace (calm m i1) with (deliver (calm m i1) []) at 2 by apply deliver_nil.
    by apply Step_Right, Step_Prog.
Qed.
End Runs.
