(* ===== verification/Wire.v ===== *)
(** The message interface of the protocol crate:
    [shakenfist-spice-protocol/src/messages/mod.rs].

    [WireType] is the source's trait.  The law classes say what every message
    type promises to the code that uses it: writing appends, parsing any bytes
    is panic-free and yields a value the wire can carry ([wire_wf]), and a
    value the wire can carry reads back as written.  The message files
    discharge them; [never_panics], [round_trips] and [reencodes] are what
    follows for any such type. *)
From Stdlib Require Import ZArith Lia String.
From stdpp Require Import base numbers list tactics.
From S2P Require Import Prelude Reader.

Open Scope Z_scope.
Open Scope rust_scope.

(** * The trait *)

Class WireType (T : Type) : Type := {
  read : Rd T;
  write : T -> list Z -> list Z
}.

Definition decode {T} `{WireType T} (body : list Z) : result LinkError T :=
  fst (read (reader_new body)).

(** A value's wire encoding on its own. *)
Definition encode {T} `{WireType T} (v : T) : list Z := write v [].

(** * The laws *)

(** The values the wire can carry: field ranges, list lengths that fit their
    count fields, and the invariants the source documents on the type. *)
Class WireWf (T : Type) : Type := wire_wf : T -> Prop.

Class WireLaws (T : Type) `{WireType T, WireWf T} : Prop := {
  write_app : forall v out, write v out = out ++ encode v;
  read_safe : safe (read (T := T)) wire_wf
}.

(** Self-delimiting messages: trailing bytes are left unread. *)
Class WireRoundTrip (T : Type) `{WireType T, WireWf T} : Prop :=
  reads_back : forall v, wire_wf v -> reads read (encode v) v.

(** Messages that run to the end of the body. *)
Class WireRoundTripEnd (T : Type) `{WireType T, WireWf T} : Prop :=
  reads_end_back : forall v, wire_wf v -> reads_end read (encode v) v.

#[export] Instance round_trip_end (T : Type) `{WireRoundTrip T} : WireRoundTripEnd T.
Proof. intros v Hv. by apply reads_to_end, reads_back. Qed.

(** * What the laws give *)

(** No byte string makes the parser panic, and what it accepts is well
    formed. *)
Definition never_panics (T : Type) `{WireType T, WireWf T} : Prop :=
  forall body, bytes body -> zlen body <= isize_max ->
  match decode (T := T) body with
  | Ok v => wire_wf v
  | Err _ => True
  | Panic => False
  end.

(** The source's [assert_round_trip]: a written value reads back unchanged and
    the reader consumes exactly the bytes written. *)
Definition round_trips (T : Type) `{WireType T, WireWf T} : Prop :=
  forall v : T, wire_wf v -> zlen (encode v) <= isize_max ->
  read (reader_new (encode v)) = (Ok v, mkReader (encode v) (zlen (encode v))).

(** Bytes after a self-delimiting body are ignored. *)
Definition ignores_trailing (T : Type) `{WireType T, WireWf T} : Prop :=
  forall (v : T) extra, wire_wf v -> zlen (encode v ++ extra) <= isize_max ->
  decode (encode v ++ extra) = Ok v.

Section Consequences.
Context {T : Type} `{HL : WireLaws T}.

Lemma laws_never_panics : never_panics T.
Proof.
  intros body Hb Hlen. unfold decode.
  assert (reader_ok (reader_new body)) as Hr
    by (split; simpl; [pose proof (zlen_nonneg body); lia|done|done]).
  pose proof (read_safe _ Hr) as Hs. destruct (read (reader_new body)) as [o r'].
  simpl. destruct Hs as (_ & _ & _ & Ho). destruct o; auto.
Qed.

Lemma laws_round_trips `{!WireRoundTripEnd T} : round_trips T.
Proof.
  intros v Hv Hlen. apply (reads_end_back v Hv []). by rewrite app_nil_l.
Qed.

Lemma laws_ignores_trailing `{!WireRoundTrip T} : ignores_trailing T.
Proof.
  intros v extra Hv Hlen. unfold decode, reader_new.
  pose proof (reads_back v Hv [] extra) as Hr. rewrite !app_nil_l, zlen_nil in Hr.
  by rewrite Hr.
Qed.

(** Whatever bytes a peer sent, re-encoding what was parsed from them parses
    to the same value. *)
Lemma laws_reencodes `{!WireRoundTripEnd T} body (v : T) :
  bytes body -> zlen body <= isize_max -> decode body = Ok v ->
  zlen (encode v) <= isize_max -> decode (encode v) = Ok v.
Proof.
  intros Hb Hlen Hd He. pose proof (laws_never_panics body Hb Hlen) as Hp.
  rewrite Hd in Hp. unfold decode. by rewrite laws_round_trips.
Qed.
End Consequences.

(** A nested [T::read(r)?]: its laws come from [T]'s instances. *)
#[export] Hint Extern 1 (safe read _) => apply read_safe : wire.
#[export] Hint Extern 1 (reads read _ _) => apply reads_back; assumption : wire.
#[export] Hint Extern 1 (reads_end read _ _) => apply reads_end_back; assumption : wire.

(** Lists of nested values written one after another. *)
Definition write_all {T} `{WireType T} (vs : list T) (out : list Z) : list Z :=
  foldl (fun out v => write v out) out vs.

Lemma write_all_app {T} `{WireLaws T} (vs : list T) out :
  write_all vs out = out ++ concat (map encode vs).
Proof.
  revert out. induction vs as [|v vs IH]; intros out; simpl; [by rewrite app_nil_r|].
  unfold write_all in *. simpl. by rewrite IH, write_app, <- app_assoc.
Qed.

(** * Automation *)

Create Rewrite HintDb wire_write.

(** Bring a chain of appends to the form [out ++ a ++ b ++ ...]. *)
Ltac wire_norm :=
  unfold extend_from_slice, push in *;
  repeat match goal with
    | |- context [write ?v ?out] =>
        lazymatch out with nil => fail | _ => rewrite (write_app v out) end
    end;
  autorewrite with wire_write; rewrite ?write_all_app;
  change (fun v => write v []) with (fun v => encode v);
  rewrite ?app_nil_l; rewrite <- ?app_assoc.


(** Discharge [WireLaws] and the round-trip classes of a message whose
    definitions are a straight line of reads and writes. *)
Ltac wire_open :=
  match goal with
  | |- @WireLaws _ ?i ?w => unfold i, w; split
  | |- @WireRoundTrip _ ?i ?w => unfold i, w; red
  | |- @WireRoundTripEnd _ ?i ?w => unfold i, w; red
  end;
  unfold encode, wire_wf; cbn [read write].

Ltac wire_write_app :=
  intros v out; match goal with |- ?w _ _ = _ => unfold w end; wire_norm; reflexivity.

Ltac wire_read_safe :=
  match goal with |- safe ?m _ => unfold m end;
  wire_safe; cbn; split_and?; auto.

Ltac wire_laws := wire_open; [ wire_write_app | wire_read_safe ].

Ltac wire_rt_start :=
  wire_open; intros v Hv; destruct_and?; destruct v;
  match goal with
  | |- reads ?m (?w _ _) _ => unfold m, w
  | |- reads_end ?m (?w _ _) _ => unfold m, w
  end;
  cbn -[app read write encode] in *; wire_norm;
  match goal with |- _ _ ?bs _ => rewrite <- (app_nil_r bs); rewrite <- ?app_assoc end.

Ltac wire_rt := wire_rt_start; wire_reads.
