(* ===== verification/MsgCommon.v ===== *)
(** The message header, framing helper and base-channel messages:
    [shakenfist-spice-protocol/src/messages/common.rs] and the enums they are
    interpreted with in [constants.rs].

    [PING], [PONG], [SET_ACK], [ACK_SYNC], [NOTIFY] and [DISCONNECTING] are
    [WireType]s; [MessageHeader] is the 6-byte mini header, an [io::Result]
    parser. *)
From Stdlib Require Import ZArith Lia String.
From stdpp Require Import base numbers list tactics.
From S2P Require Import Prelude Reader IoCursor Wire.

Open Scope Z_scope.
Open Scope rust_scope.

(** * Wire enums *)

Inductive SpiceError : Type :=
| SpiceError_Ok | SpiceError_Error | SpiceError_InvalidMagic | SpiceError_InvalidData
| SpiceError_VersionMismatch | SpiceError_NeedSecured | SpiceError_NeedUnsecured
| SpiceError_PermissionDenied | SpiceError_BadConnectionId | SpiceError_ChannelUnavailable.

Definition SpiceError_from_u32 (value : Z) : SpiceError :=
  match value with
  | 0 => SpiceError_Ok
  | 1 => SpiceError_Error
  | 2 => SpiceError_InvalidMagic
  | 3 => SpiceError_InvalidData
  | 4 => SpiceError_VersionMismatch
  | 5 => SpiceError_NeedSecured
  | 6 => SpiceError_NeedUnsecured
  | 7 => SpiceError_PermissionDenied
  | 8 => SpiceError_BadConnectionId
  | 9 => SpiceError_ChannelUnavailable
  | _ => SpiceError_Error
  end.

Definition SpiceError_to_u32 (e : SpiceError) : Z :=
  match e with
  | SpiceError_Ok => 0
  | SpiceError_Error => 1
  | SpiceError_InvalidMagic => 2
  | SpiceError_InvalidData => 3
  | SpiceError_VersionMismatch => 4
  | SpiceError_NeedSecured => 5
  | SpiceError_NeedUnsecured => 6
  | SpiceError_PermissionDenied => 7
  | SpiceError_BadConnectionId => 8
  | SpiceError_ChannelUnavailable => 9
  end.

Inductive NotifySeverity : Type := Severity_Info | Severity_Warn | Severity_Error.

Definition NotifySeverity_from_u32 (value : Z) : NotifySeverity :=
  match value with
  | 0 => Severity_Info
  | 1 => Severity_Warn
  | 2 => Severity_Error
  | _ => Severity_Info
  end.

Inductive SpiceVisibility : Type := Visibility_Low | Visibility_Medium | Visibility_High.

Definition SpiceVisibility_from_u32 (value : Z) : option SpiceVisibility :=
  match value with
  | 0 => Some Visibility_Low
  | 1 => Some Visibility_Medium
  | 2 => Some Visibility_High
  | _ => None
  end.

(** * The mini header *)

Record MessageHeader : Type := mkMessageHeader {
  message_type : Z;
  message_size : Z
}.

Definition MessageHeader_SIZE : Z := 6.

Definition MessageHeader_read (data : list Z) : result ErrorKind MessageHeader :=
  if zlen data <? MessageHeader_SIZE then Err UnexpectedEof
  else fst ((let? message_type := cur_u16 in
             let? message_size := cur_u32 in
             ret (mkMessageHeader message_type message_size)) data).

Definition MessageHeader_write (self : MessageHeader) (buf : list Z) : list Z :=
  buf <+ to_le 2 (message_type self) <+ to_le 4 (message_size self).

(** A complete message with its header; the size field is the payload's length
    cast to [u32]. *)
Definition make_message (message_type : Z) (payload : list Z) : list Z :=
  let header := mkMessageHeader message_type (as_unsigned 32 (zlen payload)) in
  MessageHeader_write header [] <+ payload.

(** * PING *)

Record Ping : Type := mkPing {
  Ping_id : Z;
  Ping_timestamp : Z;
  Ping_padding_len : Z
}.

Definition Ping_read : Rd Ping :=
  let? id := read_u32 in
  let? timestamp := read_u64 in
  let? padding_len := remaining in
  do? read_bytes padding_len in
  ret (mkPing id timestamp padding_len).

Definition Ping_write (self : Ping) (out : list Z) : list Z :=
  out <+ to_le 4 (Ping_id self)
    <+ to_le 8 (Ping_timestamp self)
    <+ replicate (Z.to_nat (Ping_padding_len self)) 0.

#[export] Instance Ping_wire : WireType Ping := {| read := Ping_read; write := Ping_write |}.
#[export] Instance Ping_wf : WireWf Ping := fun v =>
  u32 (Ping_id v) /\ u64 (Ping_timestamp v) /\ 0 <= Ping_padding_len v <= isize_max.

#[export] Instance Ping_laws : WireLaws Ping.
Proof.
  wire_open; [wire_write_app|]. unfold Ping_read.
  do 2 (eapply safe_bind; [solve [eauto with wire]|cbv beta; intros ? ?]).
  eapply safe_bind; [apply safe_remaining|cbv beta; intros n Hn].
  eapply safe_bind; [apply safe_read_bytes; lia|intros _ _].
  apply safe_ret. cbn. auto.
Qed.

#[export] Instance Ping_rt : WireRoundTripEnd Ping.
Proof.
  wire_rt_start. do 2 (eapply reads_bind_end; [solve [eauto with wire]|cbv beta]).
  rewrite app_nil_r. intros pre Hlen. unfold bind at 1.
  rewrite remaining_eq by (simpl; zlen_solve). cbn [br_data br_pos].
  set (bs := replicate _ 0) in *.
  replace (zlen (pre ++ bs) - zlen pre) with (zlen bs) by zlen_solve.
  unfold bind. rewrite (reads_to_end _ _ _ (reads_bytes (zlen bs) bs eq_refl)) by done.
  unfold ret. do 3 f_equal. subst bs. rewrite zlen_replicate. lia.
Qed.

(** * PONG, SET_ACK, ACK_SYNC *)

Record Pong : Type := mkPong {
  Pong_id : Z;
  Pong_timestamp : Z
}.

Definition Pong_read : Rd Pong :=
  let? id := read_u32 in
  let? timestamp := read_u64 in
  ret (mkPong id timestamp).

Definition Pong_write (self : Pong) (out : list Z) : list Z :=
  out <+ to_le 4 (Pong_id self)
    <+ to_le 8 (Pong_timestamp self).

#[export] Instance Pong_wire : WireType Pong := {| read := Pong_read; write := Pong_write |}.
#[export] Instance Pong_wf : WireWf Pong := fun v =>
  u32 (Pong_id v) /\
  u64 (Pong_timestamp v).
#[export] Instance Pong_laws : WireLaws Pong.
Proof. wire_laws. Qed.
#[export] Instance Pong_rt : WireRoundTrip Pong.
Proof. wire_rt. Qed.

(** The [PONG] that answers a ping. *)
Definition Ping_pong (self : Ping) : Pong := mkPong (Ping_id self) (Ping_timestamp self).

Record SetAck : Type := mkSetAck {
  SetAck_generation : Z;
  SetAck_window : Z
}.

Definition SetAck_read : Rd SetAck :=
  let? generation := read_u32 in
  let? window := read_u32 in
  ret (mkSetAck generation window).

Definition SetAck_write (self : SetAck) (out : list Z) : list Z :=
  out <+ to_le 4 (SetAck_generation self)
    <+ to_le 4 (SetAck_window self).

#[export] Instance SetAck_wire : WireType SetAck := {| read := SetAck_read; write := SetAck_write |}.
#[export] Instance SetAck_wf : WireWf SetAck := fun v =>
  u32 (SetAck_generation v) /\
  u32 (SetAck_window v).
#[export] Instance SetAck_laws : WireLaws SetAck.
Proof. wire_laws. Qed.
#[export] Instance SetAck_rt : WireRoundTrip SetAck.
Proof. wire_rt. Qed.

Record AckSync : Type := mkAckSync {
  AckSync_generation : Z
}.

Definition AckSync_read : Rd AckSync :=
  let? generation := read_u32 in
  ret (mkAckSync generation).

Definition AckSync_write (self : AckSync) (out : list Z) : list Z :=
  out <+ to_le 4 (AckSync_generation self).

#[export] Instance AckSync_wire : WireType AckSync := {| read := AckSync_read; write := AckSync_write |}.
#[export] Instance AckSync_wf : WireWf AckSync := fun v =>
  u32 (AckSync_generation v).
#[export] Instance AckSync_laws : WireLaws AckSync.
Proof. wire_laws. Qed.
#[export] Instance AckSync_rt : WireRoundTrip AckSync.
Proof. wire_rt. Qed.

(** The [ACK_SYNC] that answers a [SET_ACK]. *)
Definition SetAck_ack_sync (self : SetAck) : AckSync := mkAckSync (SetAck_generation self).

(** * NOTIFY *)

Definition NOTIFY_MAX_MESSAGE_LEN : Z := 64 * 1024.

Record Notify : Type := mkNotify {
  Notify_timestamp : Z;
  Notify_severity : Z;
  Notify_visibility : Z;
  Notify_what : Z;
  Notify_message : list Z
}.

(** [let mut peek = r.clone(); if peek.read_u8() == Ok(0) { *r = peek; }] *)
Definition skip_nul : Rd unit :=
  fun r =>
    match read_u8 r with
    | (Ok b, peek) => if b =? 0 then (Ok tt, peek) else (Ok tt, r)
    | (Err _, _) => (Ok tt, r)
    | (Panic, _) => (Panic, r)
    end.

Definition Notify_read : Rd Notify :=
  let? timestamp := read_u64 in
  let? severity := read_u32 in
  let? visibility := read_u32 in
  let? what := read_u32 in
  let? message_len := read_u32 in
  if NOTIFY_MAX_MESSAGE_LEN <? message_len
  then throw (TooLarge "notify message_len" message_len NOTIFY_MAX_MESSAGE_LEN)
  else
    let? message := read_bytes message_len in
    do? skip_nul in
    ret (mkNotify timestamp severity visibility what message).

Definition Notify_write (self : Notify) (out : list Z) : list Z :=
  out <+ to_le 8 (Notify_timestamp self)
    <+ to_le 4 (Notify_severity self)
    <+ to_le 4 (Notify_visibility self)
    <+ to_le 4 (Notify_what self)
    <+ to_le 4 (as_unsigned 32 (zlen (Notify_message self)))
    <+ Notify_message self
    <+ [0].

Definition Notify_severity_kind (self : Notify) : NotifySeverity :=
  NotifySeverity_from_u32 (Notify_severity self).
Definition Notify_visibility_kind (self : Notify) : option SpiceVisibility :=
  SpiceVisibility_from_u32 (Notify_visibility self).

#[export] Instance Notify_wire : WireType Notify :=
  {| read := Notify_read; write := Notify_write |}.
#[export] Instance Notify_wf : WireWf Notify := fun v =>
  u64 (Notify_timestamp v) /\ u32 (Notify_severity v) /\ u32 (Notify_visibility v) /\
  u32 (Notify_what v) /\ bytes (Notify_message v) /\
  zlen (Notify_message v) <= NOTIFY_MAX_MESSAGE_LEN.

Lemma safe_skip_nul : safe skip_nul (fun _ => True).
Proof.
  intros r Hr. unfold skip_nul. pose proof (safe_read_u8 r Hr) as Hs.
  destruct (read_u8 r) as [[b|e|] r']; destruct Hs as (H1 & H2 & H3 & H4); [|by auto using Z.le_refl|done].
  destruct (b =? 0); auto using Z.le_refl.
Qed.

#[export] Instance Notify_laws : WireLaws Notify.
Proof.
  wire_open; [wire_write_app|]. unfold Notify_read.
  do 5 (eapply safe_bind; [solve [eauto with wire]|cbv beta; intros ? ?]).
  match goal with H : u32 ?n |- context [read_bytes ?n] => destruct H end.
  case_bool; [apply safe_throw|].
  eapply safe_bind; [by apply safe_read_bytes|intros m [Hm1 Hm2]].
  eapply safe_bind; [apply safe_skip_nul|intros _ _].
  apply safe_ret. cbn. split_and!; auto. lia.
Qed.

Lemma reads_skip_nul : reads skip_nul [0] tt.
Proof. intros pre post Hlen. unfold skip_nul. by rewrite (reads_u8 0 pre post Hlen). Qed.

#[export] Instance Notify_rt : WireRoundTrip Notify.
Proof.
  wire_rt_start.
  assert (as_unsigned 32 (zlen Notify_message0) = zlen Notify_message0) as ->
    by (apply as_unsigned_id; red; unfold NOTIFY_MAX_MESSAGE_LEN in *;
        pose proof (zlen_nonneg Notify_message0); lia).
  do 4 (eapply reads_bind; [solve [eauto with wire]|cbv beta]).
  eapply reads_bind; [apply reads_u32; red; unfold NOTIFY_MAX_MESSAGE_LEN in *;
    pose proof (zlen_nonneg Notify_message0); lia|cbv beta].
  case_bool; [lia|].
  eapply reads_bind; [by apply reads_bytes|].
  eapply reads_bind; [apply reads_skip_nul|]. apply reads_ret.
Qed.

(** * DISCONNECTING *)

Record Disconnecting : Type := mkDisconnecting {
  Disconnecting_timestamp : Z;
  Disconnecting_reason : Z
}.

Definition Disconnecting_read : Rd Disconnecting :=
  let? timestamp := read_u64 in
  let? reason := read_u32 in
  ret (mkDisconnecting timestamp reason).

Definition Disconnecting_write (self : Disconnecting) (out : list Z) : list Z :=
  out <+ to_le 8 (Disconnecting_timestamp self)
    <+ to_le 4 (Disconnecting_reason self).

#[export] Instance Disconnecting_wire : WireType Disconnecting := {| read := Disconnecting_read; write := Disconnecting_write |}.
#[export] Instance Disconnecting_wf : WireWf Disconnecting := fun v =>
  u64 (Disconnecting_timestamp v) /\
  u32 (Disconnecting_reason v).
#[export] Instance Disconnecting_laws : WireLaws Disconnecting.
Proof. wire_laws. Qed.
#[export] Instance Disconnecting_rt : WireRoundTrip Disconnecting.
Proof. wire_rt. Qed.

Definition Disconnecting_reason_kind (self : Disconnecting) : SpiceError :=
  SpiceError_from_u32 (Disconnecting_reason self).
