(* ===== verification/ReceiveBuffer.v ===== *)
(** A channel's receive buffer and message framing: [ReceiveBuffer] of
    [shakenfist-spice-protocol/src/messages/common.rs], with the differential
    fuzz target [fuzz/fuzz_targets/fuzz_receive_buffer.rs].

    The buffer is a [Vec] with a read offset.  Its abstract state is the queue
    of unconsumed bytes ([waiting]); the refinement lemmas show that every
    method acts on that queue as [frame_one] says, that compaction is
    invisible and moves no more bytes than were consumed, and that framing a
    stream does not depend on how the reads cut it. *)
From Stdlib Require Import ZArith Lia.
From stdpp Require Import base numbers list tactics.
From S2P Require Import Prelude Reader IoCursor MsgCommon.

Open Scope Z_scope.
Open Scope rust_scope.

(** * Data *)

Record ReceivedMessage : Type := mkReceivedMessage {
  rm_header : MessageHeader;
  rm_raw : list Z
}.

(** [&self.raw[MessageHeader::SIZE..]] *)
Definition ReceivedMessage_payload (self : ReceivedMessage) : option (list Z) :=
  slice (rm_raw self) MessageHeader_SIZE (zlen (rm_raw self)).

Record ReceiveBuffer : Type := mkReceiveBuffer {
  rb_data : list Z;
  rb_start : Z;
  rb_moved : Z
}.

Abbreviation Rb := (M ErrorKind ReceiveBuffer).

(** * Operations *)

Definition rb_new : ReceiveBuffer := mkReceiveBuffer [] 0 0.

(** [&self.data[self.start..]] *)
Definition unconsumed (self : ReceiveBuffer) : option (list Z) :=
  slice (rb_data self) (rb_start self) (zlen (rb_data self)).

Definition rb_len (self : ReceiveBuffer) : option Z :=
  checked_sub (zlen (rb_data self)) (rb_start self).

Definition compact : Rb unit :=
  let? self := get_state in
  if rb_start self =? 0 then ret tt
  else
    let? remaining := unwrap (checked_sub (zlen (rb_data self)) (rb_start self)) in
    if remaining =? 0 then put_state (mkReceiveBuffer [] 0 (rb_moved self))
    else if remaining <=? rb_start self then
      put_state (mkReceiveBuffer (drop (Z.to_nat (rb_start self)) (rb_data self)) 0
                   (rb_moved self + remaining))
    else ret tt.

Definition rb_extend_from_slice (bs : list Z) : Rb unit :=
  do? compact in
  let? self := get_state in
  put_state (mkReceiveBuffer (rb_data self <+ bs) (rb_start self) (rb_moved self)).

Definition take_message (max_body : Z) : Rb (option ReceivedMessage) :=
  let? self := get_state in
  let? waiting := unwrap (unconsumed self) in
  if zlen waiting <? MessageHeader_SIZE then ret None
  else
    let? header := (fun s => (MessageHeader_read waiting, s)) in
    let body := message_size header in
    if max_body <? body then throw InvalidData
    else
      let total := MessageHeader_SIZE + body in
      if zlen waiting <? total then ret None
      else
        let? raw := unwrap (slice waiting 0 total) in
        do? put_state (mkReceiveBuffer (rb_data self) (rb_start self + total) (rb_moved self)) in
        ret (Some (mkReceivedMessage header raw)).

(** * The differential fuzz target *)

Record Framed : Type := mkFramed {
  fr_messages : list (list Z);
  fr_refused : bool;
  fr_waiting : list Z
}.

(** The plain header-then-body walk of a whole stream.  Each round drops at
    least a header, so [length stream + 1] rounds are enough. *)
Fixpoint reference_loop (fuel : nat) (rest : list Z) (max_body : Z)
    (messages : list (list Z)) : Framed :=
  match fuel with
  | O => mkFramed messages false rest
  | S fuel =>
      if zlen rest <? MessageHeader_SIZE then mkFramed messages false rest
      else
        let size := from_le (take 4 (drop 2 rest)) in
        if max_body <? size then mkFramed messages true []
        else
          let total := MessageHeader_SIZE + size in
          if zlen rest <? total then mkFramed messages false rest
          else
            reference_loop fuel (drop (Z.to_nat total) rest) max_body
              (messages ++ [take (Z.to_nat total) rest])
  end.

Definition reference (stream : list Z) (max_body : Z) : Framed :=
  reference_loop (S (length stream)) stream max_body [].

(** [loop { match buffer.take_message(max_body) ... }]: the messages taken
    until the buffer has no whole message, and whether it was refused.  Each
    round consumes at least a header. *)
Fixpoint take_loop (fuel : nat) (max_body : Z) (buffer : ReceiveBuffer)
    (messages : list (list Z)) : option (list (list Z) * bool * ReceiveBuffer) :=
  match fuel with
  | O => None
  | S fuel =>
      match take_message max_body buffer with
      | (Ok (Some message), buffer) =>
          match ReceivedMessage_payload message with
          | Some payload =>
              if zlen payload =? message_size (rm_header message)
              then take_loop fuel max_body buffer (messages ++ [rm_raw message])
              else None
          | None => None
          end
      | (Ok None, buffer) => Some (messages, false, buffer)
      | (Err _, buffer) => Some (messages, true, buffer)
      | (Panic, _) => None
      end
  end.

(** Feed the reads one after another, as [chunked] does with the chunks its
    seed picks.  [None] is a panic or a failed assertion. *)
Fixpoint chunked_loop (chunks : list (list Z)) (max_body : Z) (buffer : ReceiveBuffer)
    (messages : list (list Z)) : option Framed :=
  match chunks with
  | [] => (fun w => mkFramed messages false w) <$> unconsumed buffer
  | chunk :: chunks =>
      match rb_extend_from_slice chunk buffer with
      | (Ok _, buffer) =>
          match take_loop (S (length (rb_data buffer))) max_body buffer messages with
          | Some (messages, true, _) => Some (mkFramed messages true [])
          | Some (messages, false, buffer) => chunked_loop chunks max_body buffer messages
          | None => None
          end
      | _ => None
      end
  end.

Definition chunked (chunks : list (list Z)) (max_body : Z) : option Framed :=
  chunked_loop chunks max_body rb_new [].

(** The reads [chunked] cuts a stream into, from a linear congruential seed. *)
Fixpoint cut_reads (fuel : nat) (seed : Z) (rest : list Z) : list (list Z) :=
  match fuel, rest with
  | O, _ | _, [] => []
  | S fuel, _ =>
      let seed := as_unsigned 32 (seed * 1103515245 + 12345) in
      let len := 1 + Z.shiftr seed 8 mod 512 in
      let n := Z.to_nat (Z.min len (zlen rest)) in
      take n rest :: cut_reads fuel seed (drop n rest)
  end.

(** The fuzz target on the stream, limit and seed its input selects: [true] is
    every assertion passing. *)
Definition fuzz_receive_buffer (stream : list Z) (max_body seed : Z) : bool :=
  let expected := reference stream max_body in
  match chunked (cut_reads (length stream) seed stream) max_body with
  | Some got =>
      bool_decide (fr_messages got = fr_messages expected) &&
      Bool.eqb (fr_refused got) (fr_refused expected) &&
      bool_decide (fr_waiting got = fr_waiting expected)
  | None => false
  end.

(** * The abstract queue *)

Definition rb_ok (self : ReceiveBuffer) : Prop :=
  0 <= rb_start self <= zlen (rb_data self) /\ bytes (rb_data self).

Definition waiting (self : ReceiveBuffer) : list Z :=
  drop (Z.to_nat (rb_start self)) (rb_data self).

(** What the front of a byte queue holds. *)
Inductive framing : Type :=
| NeedMore
| Refuse
| Frame (header : MessageHeader) (raw rest : list Z).

Definition frame_one (max_body : Z) (bs : list Z) : framing :=
  if zlen bs <? MessageHeader_SIZE then NeedMore
  else
    let size := from_le (take 4 (drop 2 bs)) in
    let total := MessageHeader_SIZE + size in
    if max_body <? size then Refuse
    else if zlen bs <? total then NeedMore
    else Frame (mkMessageHeader (from_le (take 2 bs)) size)
           (take (Z.to_nat total) bs) (drop (Z.to_nat total) bs).

Section Refinement.
Lemma unconsumed_waiting self : rb_ok self -> unconsumed self = Some (waiting self).
Proof.
  intros [H _]. unfold unconsumed, waiting. rewrite slice_Some by lia.
  f_equal. apply take_ge. rewrite length_drop. unfold zlen. lia.
Qed.

Lemma zlen_waiting self : rb_ok self -> zlen (waiting self) = zlen (rb_data self) - rb_start self.
Proof. intros [H _]. unfold waiting. rewrite zlen_drop. lia. Qed.

Lemma bytes_waiting self : rb_ok self -> bytes (waiting self).
Proof. intros [_ H]. by apply Forall_drop. Qed.

Lemma MessageHeader_read_eq bs : MessageHeader_SIZE <= zlen bs ->
  MessageHeader_read bs = Ok (mkMessageHeader (from_le (take 2 bs)) (from_le (take 4 (drop 2 bs)))).
Proof.
  unfold MessageHeader_SIZE. intros H. unfold MessageHeader_read, MessageHeader_SIZE.
  case_bool; [lia|]. unfold cur_u16, cur_u32, bind, read_exact.
  destruct (Z.ltb_spec (zlen bs) (Z.of_nat 2)); [lia|]. simpl.
  destruct (Z.ltb_spec (zlen (drop 2 bs)) (Z.of_nat 4)) as [Hc|]; [|done].
  rewrite zlen_drop in Hc. lia.
Qed.

Lemma size_nonneg bs : bytes bs -> 0 <= from_le (take 4 (drop 2 bs)).
Proof. intros H. apply from_le_bound. by apply Forall_take, Forall_drop. Qed.

(** [take_message] takes exactly the front frame of the queue. *)
Lemma take_message_refines max_body self : rb_ok self ->
  match frame_one max_body (waiting self) with
  | NeedMore => take_message max_body self = (Ok None, self)
  | Refuse => take_message max_body self = (Err InvalidData, self)
  | Frame h raw rest =>
      exists self',
        take_message max_body self = (Ok (Some (mkReceivedMessage h raw)), self') /\
        rb_ok self' /\ waiting self' = rest /\ rb_moved self' = rb_moved self /\
        rb_start self' = rb_start self + zlen raw
  end.
Proof.
  intros Hok. unfold take_message, bind, get_state.
  rewrite unconsumed_waiting by done. simpl.
  pose proof (size_nonneg _ (bytes_waiting _ Hok)) as Hsz.
  unfold frame_one. destruct (Z.ltb_spec (zlen (waiting self)) MessageHeader_SIZE); [done|].
  rewrite MessageHeader_read_eq by done. simpl.
  set (size := from_le _) in *. case_bool; [done|done|].
  unfold MessageHeader_SIZE in *. rewrite slice_Some by lia. simpl.
  rewrite drop_0, Z.sub_0_r. eexists. split_and!; [done| | |done|].
  - destruct Hok as [Hr Hb]. split; [|done]. simpl. rewrite zlen_waiting in * by done. lia.
  - unfold waiting. simpl. rewrite drop_drop. f_equal. destruct Hok. lia.
  - simpl. rewrite zlen_take. lia.
Qed.

Lemma compact_refines self : rb_ok self ->
  exists self',
    compact self = (Ok tt, self') /\ rb_ok self' /\ waiting self' = waiting self /\
    rb_moved self' + rb_start self' <= rb_moved self + rb_start self /\
    (rb_start self' = 0 \/ rb_start self' < zlen (waiting self)).
Proof.
  intros Hok. pose proof (zlen_waiting _ Hok) as Hw. pose proof Hok as [Hr Hb].
  unfold compact, bind, get_state, checked_sub.
  rewrite (proj2 (Z.leb_le _ _)) by lia. simpl.
  case_bool; simpl; (eexists; split_and!; [reflexivity|..]).
  all: unfold rb_ok, waiting in *; simpl; rewrite ?drop_0, ?zlen_drop;
    split_and?; auto; try zlen_solve.
  - symmetry. apply drop_ge. unfold zlen in *. lia.
  - by apply Forall_drop.
Qed.

(** Appending adds to the back of the queue; the compaction before it is
    invisible, moves at most the bytes already consumed, and leaves a
    consumed prefix shorter than what is waiting. *)
Lemma extend_refines bs self : rb_ok self -> bytes bs ->
  exists self',
    rb_extend_from_slice bs self = (Ok tt, self') /\
    rb_ok self' /\ waiting self' = waiting self ++ bs /\
    rb_moved self' + rb_start self' <= rb_moved self + rb_start self /\
    (rb_start self' = 0 \/ rb_start self' < zlen (waiting self)).
Proof.
  intros Hok Hbs. unfold rb_extend_from_slice, bind.
  destruct (compact_refines self Hok) as (self1 & -> & [Hr Hb] & Hw & Hm & Hs).
  simpl. eexists. split_and!; [reflexivity| | |exact Hm|exact Hs].
  - split; simpl; unfold extend_from_slice; [zlen_solve|by apply Forall_app].
  - rewrite <- Hw. unfold waiting, extend_from_slice. simpl.
    rewrite drop_app_le; [done|unfold zlen in *; lia].
Qed.
End Refinement.

(** * Framing a whole stream *)

Section Framing.
Context (max_body : Z).

Lemma frame_one_Frame bs h raw rest : bytes bs ->
  frame_one max_body bs = Frame h raw rest ->
  bs = raw ++ rest /\ bytes rest /\ zlen raw = MessageHeader_SIZE + message_size h /\
  0 <= message_size h <= max_body.
Proof.
  intros Hb. unfold frame_one. case_bool; try done. intros [= <- <- <-].
  pose proof (size_nonneg bs Hb). unfold MessageHeader_SIZE in *. simpl. split_and!.
  - by rewrite take_drop.
  - by apply Forall_drop.
  - rewrite zlen_take. lia.
  - lia.
  - lia.
Qed.

(** The header of a queue long enough to hold one does not change as bytes
    are appended. *)
Lemma header_app (bs c : list Z) : MessageHeader_SIZE <= zlen bs ->
  take 2 (bs ++ c) = take 2 bs /\ take 4 (drop 2 (bs ++ c)) = take 4 (drop 2 bs).
Proof.
  unfold MessageHeader_SIZE, zlen. intros H. split; [apply take_app_le; lia|].
  rewrite drop_app_le by lia. apply take_app_le. rewrite length_drop. lia.
Qed.

Lemma frame_one_app_Frame bs c h raw rest : bytes bs ->
  frame_one max_body bs = Frame h raw rest ->
  frame_one max_body (bs ++ c) = Frame h raw (rest ++ c).
Proof.
  intros Hb. pose proof (size_nonneg bs Hb). unfold frame_one.
  destruct (Z.ltb_spec (zlen bs) MessageHeader_SIZE); [done|].
  destruct (header_app bs c) as [-> ->]; [done|]. unfold MessageHeader_SIZE in *.
  set (size := from_le (take 4 _)) in *. case_bool; try done; try zlen_solve.
  intros [= <- <- <-]. f_equal.
  - apply take_app_le. unfold zlen in *. lia.
  - apply drop_app_le. unfold zlen in *. lia.
Qed.

Lemma frame_one_app_Refuse bs c :
  frame_one max_body bs = Refuse -> frame_one max_body (bs ++ c) = Refuse.
Proof.
  unfold frame_one. destruct (Z.ltb_spec (zlen bs) MessageHeader_SIZE); [done|].
  destruct (header_app bs c) as [-> ->]; [done|]. unfold MessageHeader_SIZE in *.
  case_bool; try done; zlen_solve.
Qed.

(** [framed bs ms refused rest]: the queue [bs] holds the messages [ms] in
    order, then either an oversized header or the partial message [rest]. *)
Inductive framed : list Z -> list (list Z) -> bool -> list Z -> Prop :=
| framed_more bs : frame_one max_body bs = NeedMore -> framed bs [] false bs
| framed_refuse bs : frame_one max_body bs = Refuse -> framed bs [] true []
| framed_cons bs h raw rest ms rf w :
    frame_one max_body bs = Frame h raw rest ->
    framed rest ms rf w -> framed bs (raw :: ms) rf w.

Lemma framed_det bs ms rf w ms' rf' w' :
  framed bs ms rf w -> framed bs ms' rf' w' -> ms = ms' /\ rf = rf' /\ w = w'.
Proof.
  intros H. revert ms' rf' w'.
  induction H as [bs E|bs E|bs h raw rest ms rf w E _ IH]; intros ms' rf' w';
    inversion 1 as [? E'|? E'|? ? ? ? ? ? ? E' H']; subst; rewrite E in E'; simplify_eq; auto.
  edestruct IH as (-> & -> & ->); eauto.
Qed.

Lemma framed_app bs ms w c ms' rf w' : bytes bs ->
  framed bs ms false w -> framed (w ++ c) ms' rf w' -> framed (bs ++ c) (ms ++ ms') rf w'.
Proof.
  intros Hb H. remember false as b eqn:Eb. revert Hb Eb.
  induction H as [bs E|bs E|bs h raw rest ms b w E H IH]; intros Hb Eb Hc; [done|done|].
  pose proof (frame_one_Frame _ _ _ _ Hb E) as (_ & Hrest & _).
  simpl. eapply framed_cons; [by apply frame_one_app_Frame|by apply IH].
Qed.

Lemma framed_app_refused bs ms w c : bytes bs ->
  framed bs ms true w -> framed (bs ++ c) ms true [].
Proof.
  intros Hb H. remember true as b eqn:Eb. revert Hb Eb.
  induction H as [bs E|bs E|bs h raw rest ms b w E H IH]; intros Hb Eb; [done| |].
  - by apply framed_refuse, frame_one_app_Refuse.
  - pose proof (frame_one_Frame _ _ _ _ Hb E) as (_ & Hrest & _).
    eapply framed_cons; [by apply frame_one_app_Frame|by apply IH].
Qed.

(** The reference walk computes [framed], with its fuel always enough. *)
Lemma reference_loop_framed fuel bs ms0 : bytes bs -> (length bs < fuel)%nat ->
  exists ms rf w, framed bs ms rf w /\
    reference_loop fuel bs max_body ms0 = mkFramed (ms0 ++ ms) rf w.
Proof.
  revert bs ms0. induction fuel as [|fuel IH]; intros bs ms0 Hb Hf; [lia|].
  destruct (frame_one max_body bs) as [| |h raw rest] eqn:E.
  - exists [], false, bs. split; [by apply framed_more|]. revert E. unfold frame_one. simpl.
    rewrite app_nil_r. case_bool; done.
  - exists [], true, []. split; [by apply framed_refuse|]. revert E. unfold frame_one. simpl.
    rewrite app_nil_r. case_bool; done.
  - pose proof (frame_one_Frame _ _ _ _ Hb E) as (Hsplit & Hrest & Hraw & Hsize).
    destruct (IH rest (ms0 ++ [raw]) Hrest) as (ms & rf & w & Hms & Hr).
    { subst bs. rewrite length_app in Hf. unfold zlen, MessageHeader_SIZE in Hraw. lia. }
    exists (raw :: ms), rf, w. split; [by eapply framed_cons|].
    rewrite <- app_assoc in Hr. simpl in Hr. rewrite <- Hr.
    revert E. unfold frame_one. simpl. case_bool; try done. by intros [= <- <- <-].
Qed.

Lemma framed_total bs : bytes bs -> exists ms rf w, framed bs ms rf w.
Proof.
  intros Hb. destruct (reference_loop_framed (S (length bs)) bs [] Hb) as (ms & rf & w & H & _);
    [lia|eauto].
Qed.

Lemma framed_end bs ms w : framed bs ms false w -> frame_one max_body w = NeedMore.
Proof.
  intros H. remember false as b eqn:Eb. induction H; simplify_eq; auto.
Qed.

(** Taking until nothing whole is left computes [framed] of the queue. *)
Lemma take_loop_framed fuel buffer ms0 : rb_ok buffer -> (length (waiting buffer) < fuel)%nat ->
  exists ms rf w buffer', framed (waiting buffer) ms rf w /\
    take_loop fuel max_body buffer ms0 = Some (ms0 ++ ms, rf, buffer') /\
    rb_ok buffer' /\ (rf = false -> waiting buffer' = w).
Proof.
  revert buffer ms0. induction fuel as [|fuel IH]; intros buffer ms0 Hok Hf; [lia|].
  pose proof (take_message_refines max_body buffer Hok) as Ht. simpl.
  destruct (frame_one max_body (waiting buffer)) as [| |h raw rest] eqn:E.
  - exists [], false, (waiting buffer), buffer. rewrite Ht, app_nil_r.
    split_and!; auto. by apply framed_more.
  - exists [], true, [], buffer. rewrite Ht, app_nil_r.
    split_and!; auto; [by apply framed_refuse|done].
  - destruct Ht as (buffer1 & -> & Hok1 & Hw1 & _).
    pose proof (frame_one_Frame _ _ _ _ (bytes_waiting _ Hok) E) as (Hsplit & _ & Hraw & Hsz).
    unfold ReceivedMessage_payload. simpl.
    rewrite slice_Some by (unfold MessageHeader_SIZE in *; lia).
    rewrite (proj2 (Z.eqb_eq _ _))
      by (rewrite zlen_take, zlen_drop; unfold MessageHeader_SIZE in *; lia).
    destruct (IH buffer1 (ms0 ++ [raw])) as (ms & rf & w & buffer' & Hms & Hl & Hok' & Hw').
    { done. }
    { rewrite Hw1. rewrite Hsplit, length_app in Hf. unfold zlen, MessageHeader_SIZE in *. lia. }
    exists (raw :: ms), rf, w, buffer'. rewrite Hl, <- app_assoc.
    split_and!; auto. eapply framed_cons; [done|]. by rewrite <- Hw1.
Qed.

(** Feeding a stream in any pieces frames what the whole stream holds. *)
Lemma chunked_loop_framed chunks buffer ms0 ms rf w :
  rb_ok buffer -> Forall (Forall (in_unsigned 8)) chunks ->
  frame_one max_body (waiting buffer) = NeedMore ->
  framed (waiting buffer ++ concat chunks) ms rf w ->
  chunked_loop chunks max_body buffer ms0 = Some (mkFramed (ms0 ++ ms) rf w).
Proof.
  intros Hok Hch. revert buffer ms0 ms rf w Hok.
  induction Hch as [|chunk chunks Hc Hcs IH]; intros buffer ms0 ms rf w Hok Hn H;
    cbn [chunked_loop concat] in *.
  { rewrite app_nil_r in H. destruct (framed_det _ _ _ _ _ _ _ H (framed_more _ Hn)) as (-> & -> & ->).
    by rewrite unconsumed_waiting, app_nil_r. }
  destruct (extend_refines chunk buffer Hok Hc) as (b1 & -> & Hok1 & Hw1 & _).
  destruct (take_loop_framed (S (length (rb_data b1))) b1 ms0 Hok1)
    as (ms1 & rf1 & w1 & b2 & Hf1 & -> & Hok2 & Hw2).
  { unfold waiting. rewrite length_drop. lia. }
  rewrite app_assoc, <- Hw1 in H. destruct rf1.
  - pose proof (framed_app_refused _ _ _ (concat chunks) (bytes_waiting _ Hok1) Hf1) as H'.
    by destruct (framed_det _ _ _ _ _ _ _ H H') as (-> & -> & ->).
  - specialize (Hw2 eq_refl). subst w1.
    pose proof (framed_end _ _ _ Hf1) as Hn2.
    destruct (framed_total (waiting b2 ++ concat chunks)) as (ms2 & rf2 & w2 & H2).
    { apply Forall_app. split; [by apply bytes_waiting|by apply Forall_concat]. }
    pose proof (framed_app _ _ _ _ _ _ _ (bytes_waiting _ Hok1) Hf1 H2) as H'.
    destruct (framed_det _ _ _ _ _ _ _ H H') as (-> & -> & ->).
    rewrite (IH b2 (ms0 ++ ms1) ms2 rf2 w2 Hok2 Hn2 H2). by rewrite <- app_assoc.
Qed.
End Framing.

(** * Reachable buffers *)

(** The buffers a channel can reach by reading and taking, with the bytes it
    has taken as messages so far. *)
Inductive rb_reach : ReceiveBuffer -> Z -> Prop :=
| reach_new : rb_reach rb_new 0
| reach_extend self consumed bs o self' :
    rb_reach self consumed -> bytes bs ->
    rb_extend_from_slice bs self = (o, self') -> rb_reach self' consumed
| reach_take self consumed max_body o self' :
    rb_reach self consumed ->
    take_message max_body self = (o, self') ->
    rb_reach self'
      (consumed + match o with Ok (Some m) => zlen (rm_raw m) | _ => 0 end).

Lemma rb_reach_inv self consumed :
  rb_reach self consumed -> rb_ok self /\ rb_moved self + rb_start self <= consumed.
Proof.
  induction 1 as [|self c bs o self' _ [Hok Hm] Hb E|self c mb o self' _ [Hok Hm] E].
  - split; [split; [by vm_compute|constructor]|by vm_compute].
  - destruct (extend_refines bs self Hok Hb) as (s1 & E1 & Hok1 & _ & Hm1 & _).
    rewrite E1 in E. simplify_eq. split; [done|lia].
  - pose proof (take_message_refines mb self Hok) as Ht.
    destruct (frame_one mb (waiting self)) as [| |h raw rest].
    1,2: rewrite Ht in E; simplify_eq; split; [done|lia].
    destruct Ht as (s1 & E1 & Hok1 & _ & Hm1 & Hs1). rewrite E1 in E. simplify_eq.
    split; [done|]. simpl. lia.
Qed.

Lemma chunked_is_reference chunks max_body :
  Forall (Forall (in_unsigned 8)) chunks ->
  chunked chunks max_body = Some (reference (concat chunks) max_body).
Proof.
  intros Hc. assert (bytes (concat chunks)) as Hb by by apply Forall_concat.
  destruct (reference_loop_framed max_body (S (length (concat chunks))) (concat chunks) [] Hb)
    as (ms & rf & w & Hf & Hr); [lia|].
  unfold reference. rewrite Hr.
  apply (chunked_loop_framed max_body chunks rb_new [] ms rf w); auto.
  split; [by vm_compute|constructor].
Qed.

(** * Properties *)

(** C1: However the reads cut a byte stream, the receive buffer frames exactly
    the messages a plain walk of the whole stream frames, stops at the same
    oversized header and leaves the same partial message waiting; no read or
    take panics, and every message's payload has its header's length. *)
Theorem chunked_reference chunks max_body :
  Forall (Forall (in_unsigned 8)) chunks ->
  chunked chunks max_body = Some (reference (concat chunks) max_body).
Proof.
  apply chunked_is_reference.
Qed.

Lemma chunked_reference_witness :
  chunked [[3; 0; 2]; [0; 0; 0; 7]; [8; 4; 0]] 16 =
    Some (mkFramed [[3; 0; 2; 0; 0; 0; 7; 8]] false [4; 0]).
Proof. rewrite chunked_reference; [reflexivity|]. by repeat constructor. Defined.

Lemma concat_cut_reads fuel seed rest : (length rest <= fuel)%nat ->
  concat (cut_reads fuel seed rest) = rest.
Proof.
  revert seed rest. induction fuel as [|fuel IH]; intros seed rest Hf.
  { destruct rest; [done|simpl in Hf; lia]. }
  destruct rest as [|x rest]; [done|]. cbn [cut_reads concat].
  rewrite IH; [apply take_drop|]. rewrite length_drop. rewrite zlen_cons.
  pose proof (zlen_nonneg rest).
  set (k := Z.shiftr _ _). pose proof (Z.mod_pos_bound k 512 ltac:(lia)). simpl length in *. lia.
Qed.

Lemma bytes_cut_reads fuel seed rest : bytes rest ->
  Forall (Forall (in_unsigned 8)) (cut_reads fuel seed rest).
Proof.
  revert seed rest. induction fuel as [|fuel IH]; intros seed rest Hb; [constructor|].
  destruct rest as [|x rest]; [constructor|]. cbn [cut_reads]. constructor.
  - by apply Forall_take.
  - by apply IH, Forall_drop.
Qed.

(** The differential fuzz target for the receive buffer passes on every
    stream, body limit and seed. *)
Theorem fuzz_receive_buffer_passes stream max_body seed :
  bytes stream -> fuzz_receive_buffer stream max_body seed = true.
Proof.
  intros Hb. unfold fuzz_receive_buffer.
  rewrite chunked_is_reference by by apply bytes_cut_reads.
  rewrite concat_cut_reads by lia.
  by rewrite !bool_decide_eq_true_2, Bool.eqb_reflx by done.
Qed.

Lemma fuzz_receive_buffer_passes_witness :
  fuzz_receive_buffer [3; 0; 2; 0; 0; 0; 7; 8; 1; 0; 9; 0; 0; 0] 8 41 = true.
Proof. apply fuzz_receive_buffer_passes. by repeat constructor. Defined.

Section RoundTrip.
Context (max_body : Z).

(** What [make_message] may be given so that its frame is accepted. *)
Definition sendable (m : Z * list Z) : Prop :=
  u16 m.1 /\ bytes m.2 /\ zlen m.2 <= max_body /\ zlen m.2 < 2 ^ 32.

Lemma make_message_eq ty payload : zlen payload < 2 ^ 32 ->
  make_message ty payload = to_le 2 ty ++ to_le 4 (zlen payload) ++ payload.
Proof.
  intros H. unfold make_message, MessageHeader_write, extend_from_slice.
  cbn [message_type message_size].
  rewrite as_unsigned_id by (split; [apply zlen_nonneg|done]).
  by rewrite app_nil_l, <- app_assoc.
Qed.

Lemma frame_one_make_message ty payload rest : sendable (ty, payload) ->
  frame_one max_body (make_message ty payload ++ rest) =
    Frame (mkMessageHeader ty (zlen payload)) (make_message ty payload) rest.
Proof.
  intros (Ht & Hb & Hm & Hl). cbn [fst snd] in *. pose proof (zlen_nonneg payload) as Hn.
  assert (from_le (to_le 2 ty) = ty) as Et
    by (rewrite from_le_to_le; by apply Z.mod_small).
  assert (from_le (to_le 4 (zlen payload)) = zlen payload) as Es
    by (rewrite from_le_to_le; apply Z.mod_small; split; [lia|done]).
  assert (zlen (make_message ty payload) = MessageHeader_SIZE + zlen payload) as Elen
    by (rewrite make_message_eq by done; autorewrite with zlen; unfold MessageHeader_SIZE; lia).
  unfold frame_one. cbv zeta.
  assert (take 2 (make_message ty payload ++ rest) = to_le 2 ty) as ->.
  { rewrite make_message_eq, <- app_assoc by done. apply take_app_length'. by rewrite length_to_le. }
  assert (take 4 (drop 2 (make_message ty payload ++ rest)) = to_le 4 (zlen payload)) as ->.
  { rewrite make_message_eq, <- !app_assoc by done.
    rewrite drop_app_length' by by rewrite length_to_le.
    apply take_app_length'. by rewrite length_to_le. }
  rewrite Et, Es, <- Elen. rewrite take_zlen_app, drop_zlen_app.
  unfold MessageHeader_SIZE in *. case_bool; try done; zlen_solve.
Qed.

Lemma framed_make_messages msgs : Forall sendable msgs ->
  framed max_body (concat (map (fun m => make_message m.1 m.2) msgs))
    (map (fun m => make_message m.1 m.2) msgs) false [].
Proof.
  induction 1 as [|[ty payload] msgs Hm _ IH]; simpl.
  - by apply framed_more.
  - eapply framed_cons; [by apply frame_one_make_message|done].
Qed.

Lemma bytes_make_message ty payload : bytes payload -> bytes (make_message ty payload).
Proof.
  intros H. unfold make_message, MessageHeader_write, extend_from_slice.
  rewrite app_nil_l. repeat (apply Forall_app; split); auto using to_le_bytes.
Qed.
End RoundTrip.

(** Messages framed by [make_message] and sent as one stream come out of
    the receive buffer unchanged and in order, whatever reads the stream
    arrives in, leaving nothing waiting. *)
Theorem framing_round_trip max_body msgs chunks :
  Forall (sendable max_body) msgs ->
  Forall (Forall (in_unsigned 8)) chunks ->
  concat chunks = concat (map (fun m => make_message m.1 m.2) msgs) ->
  chunked chunks max_body =
    Some (mkFramed (map (fun m => make_message m.1 m.2) msgs) false []).
Proof.
  intros Hm Hc E. rewrite chunked_is_reference by done. rewrite E.
  destruct (reference_loop_framed max_body
    (S (length (concat (map (fun m => make_message m.1 m.2) msgs))))
    (concat (map (fun m => make_message m.1 m.2) msgs)) []) as (ms & rf & w & Hf & Hr).
  - apply Forall_concat, Forall_map. eapply Forall_impl; [|exact Hm].
    intros [ty payload] (_ & Hb & _). by apply bytes_make_message.
  - lia.
  - unfold reference. rewrite Hr.
    by destruct (framed_det _ _ _ _ _ _ _ _ Hf (framed_make_messages max_body msgs Hm)) as (-> & -> & ->).
Qed.

Lemma framing_round_trip_witness :
  chunked [[4; 0; 1; 0; 0]; [0; 9; 5; 0; 0; 0; 0; 0]] 16 =
    Some (mkFramed [make_message 4 [9]; make_message 5 []] false []).
Proof.
  apply (framing_round_trip 16 [(4, [9]); (5, [])]).
  - repeat constructor; simpl; try done; lia.
  - by repeat constructor.
  - reflexivity.
Defined.

(** In every buffer a channel can reach, the read offset is in range, no
    read or take panics, and compaction has moved no more bytes than have been
    consumed as messages. *)
Theorem rb_reach_safe self consumed :
  rb_reach self consumed ->
  0 <= rb_start self <= zlen (rb_data self) /\ rb_moved self <= consumed /\
  (forall bs, bytes bs -> fst (rb_extend_from_slice bs self) = Ok tt) /\
  (forall max_body, fst (take_message max_body self) <> Panic).
Proof.
  intros H. destruct (rb_reach_inv _ _ H) as [Hok Hm]. pose proof Hok as [Hr _].
  split_and!; try lia.
  - intros bs Hb. by destruct (extend_refines bs self Hok Hb) as (s1 & -> & _).
  - intros mb. pose proof (take_message_refines mb self Hok) as Ht.
    destruct (frame_one mb (waiting self)); [by rewrite Ht|by rewrite Ht|].
    by destruct Ht as (s1 & -> & _).
Qed.

Lemma rb_reach_safe_witness :
  let self := snd (rb_extend_from_slice (make_message 4 [9] ++ [5]) rb_new) in
  rb_moved self <= 0 /\ fst (take_message 16 self) <> Panic.
Proof.
  intros self. edestruct (rb_reach_safe self 0) as (_ & H1 & _ & H2).
  - eapply reach_extend; [apply reach_new| |reflexivity]. by repeat constructor.
  - split; [exact H1|apply H2].
Defined.
