(* ===== verification/MsgMain.v ===== *)
(** Main channel messages:
    [shakenfist-spice-protocol/src/messages/main.rs]. *)
From Stdlib Require Import ZArith Lia String.
From stdpp Require Import base numbers list tactics.
From S2P Require Import Prelude Reader Wire MsgCommon.

Open Scope Z_scope.
Open Scope rust_scope.

Record MainInit : Type := mkMainInit {
  MainInit_session_id : Z;
  MainInit_display_channels_hint : Z;
  MainInit_supported_mouse_modes : Z;
  MainInit_current_mouse_mode : Z;
  MainInit_agent_connected : Z;
  MainInit_agent_tokens : Z;
  MainInit_multi_media_time : Z;
  MainInit_ram_hint : Z
}.

Definition MainInit_read : Rd MainInit :=
  let? session_id := read_u32 in
  let? display_channels_hint := read_u32 in
  let? supported_mouse_modes := read_u32 in
  let? current_mouse_mode := read_u32 in
  let? agent_connected := read_u32 in
  let? agent_tokens := read_u32 in
  let? multi_media_time := read_u32 in
  let? ram_hint := read_u32 in
  ret (mkMainInit session_id display_channels_hint supported_mouse_modes current_mouse_mode agent_connected agent_tokens multi_media_time ram_hint).

Definition MainInit_write (self : MainInit) (out : list Z) : list Z :=
  out <+ to_le 4 (MainInit_session_id self)
    <+ to_le 4 (MainInit_display_channels_hint self)
    <+ to_le 4 (MainInit_supported_mouse_modes self)
    <+ to_le 4 (MainInit_current_mouse_mode self)
    <+ to_le 4 (MainInit_agent_connected self)
    <+ to_le 4 (MainInit_agent_tokens self)
    <+ to_le 4 (MainInit_multi_media_time self)
    <+ to_le 4 (MainInit_ram_hint self).

#[export] Instance MainInit_wire : WireType MainInit := {| read := MainInit_read; write := MainInit_write |}.
#[export] Instance MainInit_wf : WireWf MainInit := fun v =>
  u32 (MainInit_session_id v) /\
  u32 (MainInit_display_channels_hint v) /\
  u32 (MainInit_supported_mouse_modes v) /\
  u32 (MainInit_current_mouse_mode v) /\
  u32 (MainInit_agent_connected v) /\
  u32 (MainInit_agent_tokens v) /\
  u32 (MainInit_multi_media_time v) /\
  u32 (MainInit_ram_hint v).
#[export] Instance MainInit_laws : WireLaws MainInit.
Proof. wire_laws. Qed.
#[export] Instance MainInit_rt : WireRoundTrip MainInit.
Proof. wire_rt. Qed.

(** * CHANNELS_LIST *)

Record ChannelEntry : Type := mkChannelEntry {
  ChannelEntry_channel_type : Z;
  ChannelEntry_channel_id : Z
}.

Record ChannelsList : Type := mkChannelsList {
  ChannelsList_channels : list ChannelEntry
}.

Definition ChannelsList_read : Rd ChannelsList :=
  let? num_channels := read_u32 in
  do? check_count "num_of_channels" num_channels 2 in
  let? channels := read_n (Z.to_nat num_channels)
    (let? channel_type := read_u8 in
     let? channel_id := read_u8 in
     ret (mkChannelEntry channel_type channel_id)) in
  ret (mkChannelsList channels).

Definition ChannelsList_write (self : ChannelsList) (out : list Z) : list Z :=
  let out := out <+ to_le 4 (as_unsigned 32 (zlen (ChannelsList_channels self))) in
  foldl (fun out c => out <+ [ChannelEntry_channel_type c] <+ [ChannelEntry_channel_id c])
    out (ChannelsList_channels self).

#[export] Instance ChannelsList_wire : WireType ChannelsList :=
  {| read := ChannelsList_read; write := ChannelsList_write |}.

Definition ChannelEntry_ok (c : ChannelEntry) : Prop :=
  u8 (ChannelEntry_channel_type c) /\ u8 (ChannelEntry_channel_id c).
#[export] Instance ChannelsList_wf : WireWf ChannelsList := fun v =>
  Forall ChannelEntry_ok (ChannelsList_channels v) /\
  u32 (zlen (ChannelsList_channels v)).

Definition ChannelEntry_bytes (c : ChannelEntry) : list Z :=
  [ChannelEntry_channel_type c; ChannelEntry_channel_id c].

Lemma ChannelsList_write_eq v out :
  ChannelsList_write v out =
    out ++ to_le 4 (as_unsigned 32 (zlen (ChannelsList_channels v))) ++
    concat (map ChannelEntry_bytes (ChannelsList_channels v)).
Proof.
  unfold ChannelsList_write. rewrite (foldl_extend ChannelEntry_bytes).
  - by rewrite <- app_assoc.
  - intros o c. unfold extend_from_slice. by rewrite <- app_assoc.
Qed.

#[export] Instance ChannelsList_laws : WireLaws ChannelsList.
Proof.
  wire_open; [intros v out; by rewrite !ChannelsList_write_eq|].
  unfold ChannelsList_read. eapply safe_bind; [apply safe_read_u32|intros n Hn].
  eapply safe_bind; [by apply safe_check_count|intros _ _].
  eapply safe_bind.
  { apply safe_read_n with (P := ChannelEntry_ok). wire_safe. split; auto. }
  intros l [Hl HF]. apply safe_ret. cbn. split; [done|]. red in Hn |- *. unfold zlen. lia.
Qed.

#[export] Instance ChannelsList_rt : WireRoundTrip ChannelsList.
Proof.
  wire_open. intros [l] [HF Hl]. rewrite ChannelsList_write_eq. cbn [ChannelsList_channels] in *.
  rewrite app_nil_l, as_unsigned_id by done.
  eapply reads_bind; [by apply reads_u32|].
  apply reads_check_count; try (red in Hl; unfold usize_max; lia).
  { rewrite (zlen_concat_map _ 2); [lia|]. by intros []. }
  rewrite <- length_zlen.
  apply (reads_bind_ret _ mkChannelsList), reads_n. eapply Forall_impl; [|exact HF].
  intros [t i] [H1 H2]. unfold ChannelEntry_bytes. cbn [ChannelEntry_channel_type ChannelEntry_channel_id]. change [t; i] with ([t] ++ [i] ++ []). wire_reads.
Qed.

(** * MOUSE_MODE and the rest *)

Record MainMouseMode : Type := mkMainMouseMode {
  MainMouseMode_supported_modes : Z;
  MainMouseMode_current_mode : Z
}.

Definition MainMouseMode_read : Rd MainMouseMode :=
  let? supported_modes := read_u16 in
  let? current_mode := read_u16 in
  ret (mkMainMouseMode supported_modes current_mode).

Definition MainMouseMode_write (self : MainMouseMode) (out : list Z) : list Z :=
  out <+ to_le 2 (MainMouseMode_supported_modes self)
    <+ to_le 2 (MainMouseMode_current_mode self).

#[export] Instance MainMouseMode_wire : WireType MainMouseMode := {| read := MainMouseMode_read; write := MainMouseMode_write |}.
#[export] Instance MainMouseMode_wf : WireWf MainMouseMode := fun v =>
  u16 (MainMouseMode_supported_modes v) /\
  u16 (MainMouseMode_current_mode v).
#[export] Instance MainMouseMode_laws : WireLaws MainMouseMode.
Proof. wire_laws. Qed.
#[export] Instance MainMouseMode_rt : WireRoundTrip MainMouseMode.
Proof. wire_rt. Qed.

Record MouseModeRequest : Type := mkMouseModeRequest {
  MouseModeRequest_mode : Z
}.

Definition MouseModeRequest_read : Rd MouseModeRequest :=
  let? mode := read_u16 in
  ret (mkMouseModeRequest mode).

Definition MouseModeRequest_write (self : MouseModeRequest) (out : list Z) : list Z :=
  out <+ to_le 2 (MouseModeRequest_mode self).

#[export] Instance MouseModeRequest_wire : WireType MouseModeRequest := {| read := MouseModeRequest_read; write := MouseModeRequest_write |}.
#[export] Instance MouseModeRequest_wf : WireWf MouseModeRequest := fun v =>
  u16 (MouseModeRequest_mode v).
#[export] Instance MouseModeRequest_laws : WireLaws MouseModeRequest.
Proof. wire_laws. Qed.
#[export] Instance MouseModeRequest_rt : WireRoundTrip MouseModeRequest.
Proof. wire_rt. Qed.

Record MultiMediaTime : Type := mkMultiMediaTime {
  MultiMediaTime_time : Z
}.

Definition MultiMediaTime_read : Rd MultiMediaTime :=
  let? time := read_u32 in
  ret (mkMultiMediaTime time).

Definition MultiMediaTime_write (self : MultiMediaTime) (out : list Z) : list Z :=
  out <+ to_le 4 (MultiMediaTime_time self).

#[export] Instance MultiMediaTime_wire : WireType MultiMediaTime := {| read := MultiMediaTime_read; write := MultiMediaTime_write |}.
#[export] Instance MultiMediaTime_wf : WireWf MultiMediaTime := fun v =>
  u32 (MultiMediaTime_time v).
#[export] Instance MultiMediaTime_laws : WireLaws MultiMediaTime.
Proof. wire_laws. Qed.
#[export] Instance MultiMediaTime_rt : WireRoundTrip MultiMediaTime.
Proof. wire_rt. Qed.

Record AgentTokens : Type := mkAgentTokens {
  AgentTokens_num_tokens : Z
}.

Definition AgentTokens_read : Rd AgentTokens :=
  let? num_tokens := read_u32 in
  ret (mkAgentTokens num_tokens).

Definition AgentTokens_write (self : AgentTokens) (out : list Z) : list Z :=
  out <+ to_le 4 (AgentTokens_num_tokens self).

#[export] Instance AgentTokens_wire : WireType AgentTokens := {| read := AgentTokens_read; write := AgentTokens_write |}.
#[export] Instance AgentTokens_wf : WireWf AgentTokens := fun v =>
  u32 (AgentTokens_num_tokens v).
#[export] Instance AgentTokens_laws : WireLaws AgentTokens.
Proof. wire_laws. Qed.
#[export] Instance AgentTokens_rt : WireRoundTrip AgentTokens.
Proof. wire_rt. Qed.

Record AgentDisconnected : Type := mkAgentDisconnected {
  AgentDisconnected_error_code : Z
}.

Definition AgentDisconnected_read : Rd AgentDisconnected :=
  let? error_code := read_u32 in
  ret (mkAgentDisconnected error_code).

Definition AgentDisconnected_write (self : AgentDisconnected) (out : list Z) : list Z :=
  out <+ to_le 4 (AgentDisconnected_error_code self).

#[export] Instance AgentDisconnected_wire : WireType AgentDisconnected := {| read := AgentDisconnected_read; write := AgentDisconnected_write |}.
#[export] Instance AgentDisconnected_wf : WireWf AgentDisconnected := fun v =>
  u32 (AgentDisconnected_error_code v).
#[export] Instance AgentDisconnected_laws : WireLaws AgentDisconnected.
Proof. wire_laws. Qed.
#[export] Instance AgentDisconnected_rt : WireRoundTrip AgentDisconnected.
Proof. wire_rt. Qed.

Definition AgentDisconnected_error_code_kind (self : AgentDisconnected) : SpiceError :=
  SpiceError_from_u32 (AgentDisconnected_error_code self).
