(* ===== verification/MsgInputs.v ===== *)
(** Inputs channel messages:
    [shakenfist-spice-protocol/src/messages/inputs.rs]. *)
From Stdlib Require Import ZArith Lia String.
From stdpp Require Import base numbers list tactics.
From S2P Require Import Prelude Reader Wire.

Open Scope Z_scope.
Open Scope rust_scope.

Record InputsInit : Type := mkInputsInit {
  InputsInit_keyboard_modifiers : Z
}.

Definition InputsInit_read : Rd InputsInit :=
  let? keyboard_modifiers := read_u16 in
  ret (mkInputsInit keyboard_modifiers).

Definition InputsInit_write (self : InputsInit) (out : list Z) : list Z :=
  out <+ to_le 2 (InputsInit_keyboard_modifiers self).

#[export] Instance InputsInit_wire : WireType InputsInit := {| read := InputsInit_read; write := InputsInit_write |}.
#[export] Instance InputsInit_wf : WireWf InputsInit := fun v =>
  u16 (InputsInit_keyboard_modifiers v).
#[export] Instance InputsInit_laws : WireLaws InputsInit.
Proof. wire_laws. Qed.
#[export] Instance InputsInit_rt : WireRoundTrip InputsInit.
Proof. wire_rt. Qed.

Record KeyModifiers : Type := mkKeyModifiers {
  KeyModifiers_modifiers : Z
}.

Definition KeyModifiers_read : Rd KeyModifiers :=
  let? modifiers := read_u16 in
  ret (mkKeyModifiers modifiers).

Definition KeyModifiers_write (self : KeyModifiers) (out : list Z) : list Z :=
  out <+ to_le 2 (KeyModifiers_modifiers self).

#[export] Instance KeyModifiers_wire : WireType KeyModifiers := {| read := KeyModifiers_read; write := KeyModifiers_write |}.
#[export] Instance KeyModifiers_wf : WireWf KeyModifiers := fun v =>
  u16 (KeyModifiers_modifiers v).
#[export] Instance KeyModifiers_laws : WireLaws KeyModifiers.
Proof. wire_laws. Qed.
#[export] Instance KeyModifiers_rt : WireRoundTrip KeyModifiers.
Proof. wire_rt. Qed.

Record KeyEvent : Type := mkKeyEvent {
  KeyEvent_scancode : Z
}.

Definition KeyEvent_read : Rd KeyEvent :=
  let? scancode := read_u32 in
  ret (mkKeyEvent scancode).

Definition KeyEvent_write (self : KeyEvent) (out : list Z) : list Z :=
  out <+ to_le 4 (KeyEvent_scancode self).

#[export] Instance KeyEvent_wire : WireType KeyEvent := {| read := KeyEvent_read; write := KeyEvent_write |}.
#[export] Instance KeyEvent_wf : WireWf KeyEvent := fun v =>
  u32 (KeyEvent_scancode v).
#[export] Instance KeyEvent_laws : WireLaws KeyEvent.
Proof. wire_laws. Qed.
#[export] Instance KeyEvent_rt : WireRoundTrip KeyEvent.
Proof. wire_rt. Qed.

(** * KEY_SCANCODE: raw scan codes to the end of the body *)

Record KeyScancode : Type := mkKeyScancode { KeyScancode_codes : list Z }.

Definition KeyScancode_read : Rd KeyScancode :=
  let? codes := read_rest in
  ret (mkKeyScancode codes).

Definition KeyScancode_write (self : KeyScancode) (out : list Z) : list Z :=
  out <+ KeyScancode_codes self.

#[export] Instance KeyScancode_wire : WireType KeyScancode :=
  {| read := KeyScancode_read; write := KeyScancode_write |}.
#[export] Instance KeyScancode_wf : WireWf KeyScancode := fun v => bytes (KeyScancode_codes v).
#[export] Instance KeyScancode_laws : WireLaws KeyScancode.
Proof. wire_laws. Qed.
#[export] Instance KeyScancode_rt : WireRoundTripEnd KeyScancode.
Proof. wire_rt. Qed.

(** * Mouse messages *)

Record MouseMotion : Type := mkMouseMotion {
  MouseMotion_dx : Z;
  MouseMotion_dy : Z;
  MouseMotion_buttons_state : Z
}.

Definition MouseMotion_read : Rd MouseMotion :=
  let? dx := read_i32 in
  let? dy := read_i32 in
  let? buttons_state := read_u16 in
  ret (mkMouseMotion dx dy buttons_state).

Definition MouseMotion_write (self : MouseMotion) (out : list Z) : list Z :=
  out <+ to_le 4 (MouseMotion_dx self)
    <+ to_le 4 (MouseMotion_dy self)
    <+ to_le 2 (MouseMotion_buttons_state self).

#[export] Instance MouseMotion_wire : WireType MouseMotion := {| read := MouseMotion_read; write := MouseMotion_write |}.
#[export] Instance MouseMotion_wf : WireWf MouseMotion := fun v =>
  i32 (MouseMotion_dx v) /\
  i32 (MouseMotion_dy v) /\
  u16 (MouseMotion_buttons_state v).
#[export] Instance MouseMotion_laws : WireLaws MouseMotion.
Proof. wire_laws. Qed.
#[export] Instance MouseMotion_rt : WireRoundTrip MouseMotion.
Proof. wire_rt. Qed.

Record MousePosition : Type := mkMousePosition {
  MousePosition_x : Z;
  MousePosition_y : Z;
  MousePosition_buttons_state : Z;
  MousePosition_display_id : Z
}.

Definition MousePosition_read : Rd MousePosition :=
  let? x := read_u32 in
  let? y := read_u32 in
  let? buttons_state := read_u16 in
  let? display_id := read_u8 in
  ret (mkMousePosition x y buttons_state display_id).

Definition MousePosition_write (self : MousePosition) (out : list Z) : list Z :=
  out <+ to_le 4 (MousePosition_x self)
    <+ to_le 4 (MousePosition_y self)
    <+ to_le 2 (MousePosition_buttons_state self)
    <+ [MousePosition_display_id self].

#[export] Instance MousePosition_wire : WireType MousePosition := {| read := MousePosition_read; write := MousePosition_write |}.
#[export] Instance MousePosition_wf : WireWf MousePosition := fun v =>
  u32 (MousePosition_x v) /\
  u32 (MousePosition_y v) /\
  u16 (MousePosition_buttons_state v) /\
  u8 (MousePosition_display_id v).
#[export] Instance MousePosition_laws : WireLaws MousePosition.
Proof. wire_laws. Qed.
#[export] Instance MousePosition_rt : WireRoundTrip MousePosition.
Proof. wire_rt. Qed.

Record MouseButton : Type := mkMouseButton {
  MouseButton_button : Z;
  MouseButton_buttons_state : Z
}.

Definition MouseButton_read : Rd MouseButton :=
  let? button := read_u8 in
  let? buttons_state := read_u16 in
  ret (mkMouseButton button buttons_state).

Definition MouseButton_write (self : MouseButton) (out : list Z) : list Z :=
  out <+ [MouseButton_button self]
    <+ to_le 2 (MouseButton_buttons_state self).

#[export] Instance MouseButton_wire : WireType MouseButton := {| read := MouseButton_read; write := MouseButton_write |}.
#[export] Instance MouseButton_wf : WireWf MouseButton := fun v =>
  u8 (MouseButton_button v) /\
  u16 (MouseButton_buttons_state v).
#[export] Instance MouseButton_laws : WireLaws MouseButton.
Proof. wire_laws. Qed.
#[export] Instance MouseButton_rt : WireRoundTrip MouseButton.
Proof. wire_rt. Qed.

(** The button id a press or release names, from a one-button mask; only the
    mask's low byte is looked at. *)
Definition MouseButton_id_for_mask (mask : Z) : Z :=
  match as_unsigned 8 mask with
  | 1 => 1 (* LEFT *)
  | 2 => 2 (* MIDDLE *)
  | 4 => 3 (* RIGHT *)
  | 8 => 4 (* UP *)
  | 16 => 5 (* DOWN *)
  | _ => 0 (* INVALID *)
  end.
