(* ===== verification/MsgPlayback.v ===== *)
(** Playback channel messages:
    [shakenfist-spice-protocol/src/messages/playback.rs]. *)
From Stdlib Require Import ZArith Lia String.
From stdpp Require Import base numbers list tactics.
From S2P Require Import Prelude Reader Wire.

Open Scope Z_scope.
Open Scope rust_scope.

Record PlaybackStart : Type := mkPlaybackStart {
  PlaybackStart_channels : Z;
  PlaybackStart_format : Z;
  PlaybackStart_frequency : Z;
  PlaybackStart_time : Z
}.

Definition PlaybackStart_read : Rd PlaybackStart :=
  let? channels := read_u32 in
  let? format := read_u16 in
  let? frequency := read_u32 in
  let? time := read_u32 in
  ret (mkPlaybackStart channels format frequency time).

Definition PlaybackStart_write (self : PlaybackStart) (out : list Z) : list Z :=
  out <+ to_le 4 (PlaybackStart_channels self)
    <+ to_le 2 (PlaybackStart_format self)
    <+ to_le 4 (PlaybackStart_frequency self)
    <+ to_le 4 (PlaybackStart_time self).

#[export] Instance PlaybackStart_wire : WireType PlaybackStart := {| read := PlaybackStart_read; write := PlaybackStart_write |}.
#[export] Instance PlaybackStart_wf : WireWf PlaybackStart := fun v =>
  u32 (PlaybackStart_channels v) /\
  u16 (PlaybackStart_format v) /\
  u32 (PlaybackStart_frequency v) /\
  u32 (PlaybackStart_time v).
#[export] Instance PlaybackStart_laws : WireLaws PlaybackStart.
Proof. wire_laws. Qed.
#[export] Instance PlaybackStart_rt : WireRoundTrip PlaybackStart.
Proof. wire_rt. Qed.

Record PlaybackMode : Type := mkPlaybackMode {
  PlaybackMode_time : Z;
  PlaybackMode_mode : Z
}.

Definition PlaybackMode_read : Rd PlaybackMode :=
  let? time := read_u32 in
  let? mode := read_u16 in
  ret (mkPlaybackMode time mode).

Definition PlaybackMode_write (self : PlaybackMode) (out : list Z) : list Z :=
  out <+ to_le 4 (PlaybackMode_time self)
    <+ to_le 2 (PlaybackMode_mode self).

#[export] Instance PlaybackMode_wire : WireType PlaybackMode := {| read := PlaybackMode_read; write := PlaybackMode_write |}.
#[export] Instance PlaybackMode_wf : WireWf PlaybackMode := fun v =>
  u32 (PlaybackMode_time v) /\
  u16 (PlaybackMode_mode v).
#[export] Instance PlaybackMode_laws : WireLaws PlaybackMode.
Proof. wire_laws. Qed.
#[export] Instance PlaybackMode_rt : WireRoundTrip PlaybackMode.
Proof. wire_rt. Qed.

(** * DATA: a time, then a frame to the end of the body *)

Record PlaybackPacket : Type := mkPlaybackPacket {
  PlaybackPacket_time : Z;
  PlaybackPacket_data : list Z
}.

(** The borrowing reader; a Rocq list needs no copy, so the owned value is the
    same record. *)
Definition PlaybackPacketRef_read : Rd PlaybackPacket :=
  let? time := read_u32 in
  let? data := read_rest in
  ret (mkPlaybackPacket time data).

Definition PlaybackPacket_write (self : PlaybackPacket) (out : list Z) : list Z :=
  out <+ to_le 4 (PlaybackPacket_time self) <+ PlaybackPacket_data self.

#[export] Instance PlaybackPacket_wire : WireType PlaybackPacket :=
  {| read := PlaybackPacketRef_read; write := PlaybackPacket_write |}.
#[export] Instance PlaybackPacket_wf : WireWf PlaybackPacket := fun v =>
  u32 (PlaybackPacket_time v) /\ bytes (PlaybackPacket_data v).
#[export] Instance PlaybackPacket_laws : WireLaws PlaybackPacket.
Proof. wire_laws. Qed.
#[export] Instance PlaybackPacket_rt : WireRoundTripEnd PlaybackPacket.
Proof. wire_rt. Qed.

(** * VOLUME: a [u8] count and that many [u16]s *)

Record PlaybackVolume : Type := mkPlaybackVolume { PlaybackVolume_volumes : list Z }.

Definition MAX_CHANNELS : Z := 255.

Definition PlaybackVolume_new (volumes : list Z) : result LinkError PlaybackVolume :=
  if MAX_CHANNELS <? zlen volumes
  then Err (TooLarge "nchannels" (zlen volumes) MAX_CHANNELS)
  else Ok (mkPlaybackVolume volumes).

Definition PlaybackVolume_read : Rd PlaybackVolume :=
  let? nchannels := read_u8 in
  do? check_count "nchannels" nchannels 2 in
  let? volumes := read_n (Z.to_nat nchannels) read_u16 in
  ret (mkPlaybackVolume volumes).

Definition PlaybackVolume_write (self : PlaybackVolume) (out : list Z) : list Z :=
  let volumes :=
    take (Z.to_nat (Z.min (zlen (PlaybackVolume_volumes self)) MAX_CHANNELS))
      (PlaybackVolume_volumes self) in
  let out := out <+ [as_unsigned 8 (zlen volumes)] in
  foldl (fun out v => out <+ to_le 2 v) out volumes.

#[export] Instance PlaybackVolume_wire : WireType PlaybackVolume :=
  {| read := PlaybackVolume_read; write := PlaybackVolume_write |}.
#[export] Instance PlaybackVolume_wf : WireWf PlaybackVolume := fun v =>
  Forall u16 (PlaybackVolume_volumes v) /\ zlen (PlaybackVolume_volumes v) <= MAX_CHANNELS.

Lemma PlaybackVolume_write_eq v out :
  PlaybackVolume_write v out =
    let volumes :=
      take (Z.to_nat (Z.min (zlen (PlaybackVolume_volumes v)) MAX_CHANNELS))
        (PlaybackVolume_volumes v) in
    out ++ [as_unsigned 8 (zlen volumes)] ++ concat (map (to_le 2) volumes).
Proof.
  unfold PlaybackVolume_write. cbv zeta. rewrite (foldl_extend (to_le 2)) by done.
  unfold extend_from_slice. by rewrite <- app_assoc.
Qed.

#[export] Instance PlaybackVolume_laws : WireLaws PlaybackVolume.
Proof.
  wire_open; [intros v out; by rewrite !PlaybackVolume_write_eq|].
  unfold PlaybackVolume_read. eapply safe_bind; [apply safe_read_u8|intros n Hn].
  eapply safe_bind; [by apply safe_check_count|intros _ _].
  eapply safe_bind; [apply safe_read_n, safe_read_u16|].
  intros l [Hl HF]. apply safe_ret. split; [done|].
  destruct Hn. cbn. unfold zlen, MAX_CHANNELS. lia.
Qed.

#[export] Instance PlaybackVolume_rt : WireRoundTrip PlaybackVolume.
Proof.
  wire_open. intros [l] [HF Hl]. rewrite PlaybackVolume_write_eq.
  cbn [PlaybackVolume_volumes] in *. cbv zeta. unfold MAX_CHANNELS in *.
  rewrite Z.min_l by done. rewrite <- length_zlen, firstn_all, app_nil_l.
  pose proof (zlen_nonneg l). rewrite as_unsigned_id by (split; lia).
  eapply reads_bind; [apply reads_u8|].
  apply reads_check_count; try (unfold usize_max; lia).
  { rewrite (zlen_concat_map _ 2); [lia|]. intros; apply zlen_to_le. }
  rewrite <- length_zlen.
  apply (reads_bind_ret _ mkPlaybackVolume), reads_n. eapply Forall_impl; [|exact HF].
  apply reads_u16.
Qed.

(** * MUTE *)

Record PlaybackMute : Type := mkPlaybackMute { PlaybackMute_mute : bool }.

Definition PlaybackMute_read : Rd PlaybackMute :=
  let? b := read_u8 in
  ret (mkPlaybackMute (negb (b =? 0))).

Definition PlaybackMute_write (self : PlaybackMute) (out : list Z) : list Z :=
  out <+ [if PlaybackMute_mute self then 1 else 0].

#[export] Instance PlaybackMute_wire : WireType PlaybackMute :=
  {| read := PlaybackMute_read; write := PlaybackMute_write |}.
#[export] Instance PlaybackMute_wf : WireWf PlaybackMute := fun _ => True.
#[export] Instance PlaybackMute_laws : WireLaws PlaybackMute.
Proof. wire_laws. Qed.
#[export] Instance PlaybackMute_rt : WireRoundTrip PlaybackMute.
Proof.
  wire_open. intros [m] _.
  pose proof (reads_bind_ret read_u8 (fun b => mkPlaybackMute (negb (b =? 0)))
    _ _ (reads_u8 (if m then 1 else 0))) as H.
  by destruct m.
Qed.

Record PlaybackLatency : Type := mkPlaybackLatency {
  PlaybackLatency_latency_ms : Z
}.

Definition PlaybackLatency_read : Rd PlaybackLatency :=
  let? latency_ms := read_u32 in
  ret (mkPlaybackLatency latency_ms).

Definition PlaybackLatency_write (self : PlaybackLatency) (out : list Z) : list Z :=
  out <+ to_le 4 (PlaybackLatency_latency_ms self).

#[export] Instance PlaybackLatency_wire : WireType PlaybackLatency := {| read := PlaybackLatency_read; write := PlaybackLatency_write |}.
#[export] Instance PlaybackLatency_wf : WireWf PlaybackLatency := fun v =>
  u32 (PlaybackLatency_latency_ms v).
#[export] Instance PlaybackLatency_laws : WireLaws PlaybackLatency.
Proof. wire_laws. Qed.
#[export] Instance PlaybackLatency_rt : WireRoundTrip PlaybackLatency.
Proof. wire_rt. Qed.
