(* ===== verification/MsgCursor.v ===== *)
(** Cursor channel messages:
    [shakenfist-spice-protocol/src/messages/cursor.rs].

    [SpiceCursor] carries a header exactly when the [NONE] flag is clear; the
    reader establishes that invariant and the writer relies on it. *)
From Stdlib Require Import ZArith Lia String.
From stdpp Require Import base numbers list tactics.
From S2P Require Import Prelude Reader Wire.

Open Scope Z_scope.
Open Scope rust_scope.

Record CursorHeader : Type := mkCursorHeader {
  CursorHeader_unique_id : Z;
  CursorHeader_cursor_type : Z;
  CursorHeader_width : Z;
  CursorHeader_height : Z;
  CursorHeader_hot_spot_x : Z;
  CursorHeader_hot_spot_y : Z
}.

Definition CursorHeader_read : Rd CursorHeader :=
  let? unique_id := read_u64 in
  let? cursor_type := read_u8 in
  let? width := read_u16 in
  let? height := read_u16 in
  let? hot_spot_x := read_u16 in
  let? hot_spot_y := read_u16 in
  ret (mkCursorHeader unique_id cursor_type width height hot_spot_x hot_spot_y).

Definition CursorHeader_write (self : CursorHeader) (out : list Z) : list Z :=
  out <+ to_le 8 (CursorHeader_unique_id self)
    <+ [CursorHeader_cursor_type self]
    <+ to_le 2 (CursorHeader_width self)
    <+ to_le 2 (CursorHeader_height self)
    <+ to_le 2 (CursorHeader_hot_spot_x self)
    <+ to_le 2 (CursorHeader_hot_spot_y self).

#[export] Instance CursorHeader_wire : WireType CursorHeader := {| read := CursorHeader_read; write := CursorHeader_write |}.
#[export] Instance CursorHeader_wf : WireWf CursorHeader := fun v =>
  u64 (CursorHeader_unique_id v) /\
  u8 (CursorHeader_cursor_type v) /\
  u16 (CursorHeader_width v) /\
  u16 (CursorHeader_height v) /\
  u16 (CursorHeader_hot_spot_x v) /\
  u16 (CursorHeader_hot_spot_y v).
#[export] Instance CursorHeader_laws : WireLaws CursorHeader.
Proof. wire_laws. Qed.
#[export] Instance CursorHeader_rt : WireRoundTrip CursorHeader.
Proof. wire_rt. Qed.

(** * The cursor carried by INIT and SET *)

Definition cursor_flags_NONE : Z := 1.

Record SpiceCursor : Type := mkSpiceCursor {
  SpiceCursor_flags : Z;
  SpiceCursor_header : option CursorHeader;
  SpiceCursor_data : list Z
}.

Definition SpiceCursor_none : SpiceCursor := mkSpiceCursor cursor_flags_NONE None [].

Definition SpiceCursor_has_flag (self : SpiceCursor) (bit : Z) : bool :=
  negb (Z.land (SpiceCursor_flags self) bit =? 0).

(** The borrowing reader, of which the owned one is a copy. *)
Definition SpiceCursorRef_read : Rd SpiceCursor :=
  let? flags := read_u16 in
  let? header :=
    (if Z.land flags cursor_flags_NONE =? 0
     then let? h := read (T := CursorHeader) in ret (Some h)
     else ret None) in
  let? data := read_rest in
  ret (mkSpiceCursor flags header data).

Definition SpiceCursor_write (self : SpiceCursor) (out : list Z) : list Z :=
  let out := out <+ to_le 2 (SpiceCursor_flags self) in
  let out := match SpiceCursor_header self with
             | Some header => write header out
             | None => out
             end in
  out <+ SpiceCursor_data self.

#[export] Instance SpiceCursor_wire : WireType SpiceCursor :=
  {| read := SpiceCursorRef_read; write := SpiceCursor_write |}.

(** A header exactly when [NONE] is clear. *)
#[export] Instance SpiceCursor_wf : WireWf SpiceCursor := fun v =>
  u16 (SpiceCursor_flags v) /\ bytes (SpiceCursor_data v) /\
  match SpiceCursor_header v with
  | Some h => Z.land (SpiceCursor_flags v) cursor_flags_NONE = 0 /\ wire_wf h
  | None => Z.land (SpiceCursor_flags v) cursor_flags_NONE <> 0
  end.

#[export] Instance SpiceCursor_laws : WireLaws SpiceCursor.
Proof.
  wire_open.
  - intros [flags [h|] data] out; unfold SpiceCursor_write; cbn [SpiceCursor_flags
      SpiceCursor_header SpiceCursor_data]; wire_norm; reflexivity.
  - unfold SpiceCursorRef_read. eapply safe_bind; [apply safe_read_u16|intros flags Hf].
    eapply safe_bind with (P := fun h => match h with
      | Some h => Z.land flags cursor_flags_NONE = 0 /\ wire_wf h
      | None => Z.land flags cursor_flags_NONE <> 0 end).
    + case_bool; wire_safe; auto.
    + intros h Hh. wire_safe. auto.
Qed.

#[export] Instance SpiceCursor_rt : WireRoundTripEnd SpiceCursor.
Proof.
  wire_open. intros [flags h data] (Hf & Hd & Hh). unfold SpiceCursor_write, SpiceCursorRef_read.
  cbn [SpiceCursor_flags SpiceCursor_header SpiceCursor_data] in *.
  destruct h as [h|]; wire_norm; (eapply reads_bind_end; [by apply reads_u16|cbv beta]).
  - destruct Hh as [-> Hh]. simpl (0 =? 0). eapply reads_bind_end.
    + apply (reads_bind_ret _ Some). by apply reads_back.
    + apply (reads_end_bind_ret _ (mkSpiceCursor _ _)), reads_end_rest.
  - destruct (Z.eqb_spec (Z.land flags cursor_flags_NONE) 0); [done|].
    change data with ([] ++ data). eapply reads_bind_end; [apply reads_ret|].
    apply (reads_end_bind_ret _ (mkSpiceCursor _ _)), reads_end_rest.
Qed.

Record CursorInitHead : Type := mkCursorInitHead {
  CursorInitHead_x : Z;
  CursorInitHead_y : Z;
  CursorInitHead_trail_length : Z;
  CursorInitHead_trail_frequency : Z;
  CursorInitHead_visible : Z
}.

Definition CursorInitHead_read : Rd CursorInitHead :=
  let? x := read_i16 in
  let? y := read_i16 in
  let? trail_length := read_u16 in
  let? trail_frequency := read_u16 in
  let? visible := read_u8 in
  ret (mkCursorInitHead x y trail_length trail_frequency visible).

Definition CursorInitHead_write (self : CursorInitHead) (out : list Z) : list Z :=
  out <+ to_le 2 (CursorInitHead_x self)
    <+ to_le 2 (CursorInitHead_y self)
    <+ to_le 2 (CursorInitHead_trail_length self)
    <+ to_le 2 (CursorInitHead_trail_frequency self)
    <+ [CursorInitHead_visible self].

#[export] Instance CursorInitHead_wire : WireType CursorInitHead := {| read := CursorInitHead_read; write := CursorInitHead_write |}.
#[export] Instance CursorInitHead_wf : WireWf CursorInitHead := fun v =>
  i16 (CursorInitHead_x v) /\
  i16 (CursorInitHead_y v) /\
  u16 (CursorInitHead_trail_length v) /\
  u16 (CursorInitHead_trail_frequency v) /\
  u8 (CursorInitHead_visible v).
#[export] Instance CursorInitHead_laws : WireLaws CursorInitHead.
Proof. wire_laws. Qed.
#[export] Instance CursorInitHead_rt : WireRoundTrip CursorInitHead.
Proof. wire_rt. Qed.

Record CursorInit : Type := mkCursorInit {
  CursorInit_head : CursorInitHead;
  CursorInit_cursor : SpiceCursor
}.

Definition CursorInit_read : Rd CursorInit :=
  let? head := read in
  let? cursor := read in
  ret (mkCursorInit head cursor).

Definition CursorInit_write (self : CursorInit) (out : list Z) : list Z :=
  let out := write (CursorInit_head self) out in
  let out := write (CursorInit_cursor self) out in
  out.

#[export] Instance CursorInit_wire : WireType CursorInit := {| read := CursorInit_read; write := CursorInit_write |}.
#[export] Instance CursorInit_wf : WireWf CursorInit := fun v =>
  wire_wf (CursorInit_head v) /\
  wire_wf (CursorInit_cursor v).
#[export] Instance CursorInit_laws : WireLaws CursorInit.
Proof. wire_laws. Qed.
#[export] Instance CursorInit_rt : WireRoundTripEnd CursorInit.
Proof. wire_rt. Qed.

Record CursorSetHead : Type := mkCursorSetHead {
  CursorSetHead_x : Z;
  CursorSetHead_y : Z;
  CursorSetHead_visible : Z
}.

Definition CursorSetHead_read : Rd CursorSetHead :=
  let? x := read_i16 in
  let? y := read_i16 in
  let? visible := read_u8 in
  ret (mkCursorSetHead x y visible).

Definition CursorSetHead_write (self : CursorSetHead) (out : list Z) : list Z :=
  out <+ to_le 2 (CursorSetHead_x self)
    <+ to_le 2 (CursorSetHead_y self)
    <+ [CursorSetHead_visible self].

#[export] Instance CursorSetHead_wire : WireType CursorSetHead := {| read := CursorSetHead_read; write := CursorSetHead_write |}.
#[export] Instance CursorSetHead_wf : WireWf CursorSetHead := fun v =>
  i16 (CursorSetHead_x v) /\
  i16 (CursorSetHead_y v) /\
  u8 (CursorSetHead_visible v).
#[export] Instance CursorSetHead_laws : WireLaws CursorSetHead.
Proof. wire_laws. Qed.
#[export] Instance CursorSetHead_rt : WireRoundTrip CursorSetHead.
Proof. wire_rt. Qed.

Record CursorSet : Type := mkCursorSet {
  CursorSet_head : CursorSetHead;
  CursorSet_cursor : SpiceCursor
}.

Definition CursorSet_read : Rd CursorSet :=
  let? head := read in
  let? cursor := read in
  ret (mkCursorSet head cursor).

Definition CursorSet_write (self : CursorSet) (out : list Z) : list Z :=
  let out := write (CursorSet_head self) out in
  let out := write (CursorSet_cursor self) out in
  out.

#[export] Instance CursorSet_wire : WireType CursorSet := {| read := CursorSet_read; write := CursorSet_write |}.
#[export] Instance CursorSet_wf : WireWf CursorSet := fun v =>
  wire_wf (CursorSet_head v) /\
  wire_wf (CursorSet_cursor v).
#[export] Instance CursorSet_laws : WireLaws CursorSet.
Proof. wire_laws. Qed.
#[export] Instance CursorSet_rt : WireRoundTripEnd CursorSet.
Proof. wire_rt. Qed.

Record CursorMove : Type := mkCursorMove {
  CursorMove_x : Z;
  CursorMove_y : Z
}.

Definition CursorMove_read : Rd CursorMove :=
  let? x := read_i16 in
  let? y := read_i16 in
  ret (mkCursorMove x y).

Definition CursorMove_write (self : CursorMove) (out : list Z) : list Z :=
  out <+ to_le 2 (CursorMove_x self)
    <+ to_le 2 (CursorMove_y self).

#[export] Instance CursorMove_wire : WireType CursorMove := {| read := CursorMove_read; write := CursorMove_write |}.
#[export] Instance CursorMove_wf : WireWf CursorMove := fun v =>
  i16 (CursorMove_x v) /\
  i16 (CursorMove_y v).
#[export] Instance CursorMove_laws : WireLaws CursorMove.
Proof. wire_laws. Qed.
#[export] Instance CursorMove_rt : WireRoundTrip CursorMove.
Proof. wire_rt. Qed.

Record CursorInvalOne : Type := mkCursorInvalOne {
  CursorInvalOne_id : Z
}.

Definition CursorInvalOne_read : Rd CursorInvalOne :=
  let? id := read_u64 in
  ret (mkCursorInvalOne id).

Definition CursorInvalOne_write (self : CursorInvalOne) (out : list Z) : list Z :=
  out <+ to_le 8 (CursorInvalOne_id self).

#[export] Instance CursorInvalOne_wire : WireType CursorInvalOne := {| read := CursorInvalOne_read; write := CursorInvalOne_write |}.
#[export] Instance CursorInvalOne_wf : WireWf CursorInvalOne := fun v =>
  u64 (CursorInvalOne_id v).
#[export] Instance CursorInvalOne_laws : WireLaws CursorInvalOne.
Proof. wire_laws. Qed.
#[export] Instance CursorInvalOne_rt : WireRoundTrip CursorInvalOne.
Proof. wire_rt. Qed.
