(* ===== verification/MsgVdAgent.v ===== *)
(** Guest agent messages carried by AGENT_DATA:
    [shakenfist-spice-protocol/src/messages/vd_agent.rs].

    The clipboard messages implement [ClipboardWireType]: their layout depends
    on whether the peer announced the selection capability.  For either answer
    they are an ordinary [WireType] ([with_selection]), so the same laws and
    consequences apply. *)
From Stdlib Require Import ZArith Lia String.
From stdpp Require Import base numbers list tactics.
From S2P Require Import Prelude Reader Wire.

Open Scope Z_scope.
Open Scope rust_scope.

Definition VD_AGENT_PROTOCOL : Z := 1.
Definition VD_AGENT_SUCCESS : Z := 1.
Definition VD_AGENT_CONFIG_MONITORS_FLAG_PHYSICAL_SIZE : Z := Z.shiftl 1 1.
Definition VD_AGENT_CLIPBOARD_SELECTION_CLIPBOARD : Z := 0.

(** * The header in front of every agent message *)

Record VdAgentMessageHeader : Type := mkVdAgentMessageHeader {
  VdAgentMessageHeader_protocol : Z;
  VdAgentMessageHeader_message_type : Z;
  VdAgentMessageHeader_opaque : Z;
  VdAgentMessageHeader_size : Z
}.

Definition VdAgentMessageHeader_read : Rd VdAgentMessageHeader :=
  let? protocol := read_u32 in
  let? message_type := read_u32 in
  let? opaque := read_u64 in
  let? size := read_u32 in
  ret (mkVdAgentMessageHeader protocol message_type opaque size).

Definition VdAgentMessageHeader_write (self : VdAgentMessageHeader) (out : list Z) : list Z :=
  out <+ to_le 4 (VdAgentMessageHeader_protocol self)
    <+ to_le 4 (VdAgentMessageHeader_message_type self)
    <+ to_le 8 (VdAgentMessageHeader_opaque self)
    <+ to_le 4 (VdAgentMessageHeader_size self).

#[export] Instance VdAgentMessageHeader_wire : WireType VdAgentMessageHeader := {| read := VdAgentMessageHeader_read; write := VdAgentMessageHeader_write |}.
#[export] Instance VdAgentMessageHeader_wf : WireWf VdAgentMessageHeader := fun v =>
  u32 (VdAgentMessageHeader_protocol v) /\
  u32 (VdAgentMessageHeader_message_type v) /\
  u64 (VdAgentMessageHeader_opaque v) /\
  u32 (VdAgentMessageHeader_size v).
#[export] Instance VdAgentMessageHeader_laws : WireLaws VdAgentMessageHeader.
Proof. wire_laws. Qed.
#[export] Instance VdAgentMessageHeader_rt : WireRoundTrip VdAgentMessageHeader.
Proof. wire_rt. Qed.

Definition VdAgentMessageHeader_SIZE : Z := 20.

Definition VdAgentMessageHeader_new (message_type size : Z) : VdAgentMessageHeader :=
  mkVdAgentMessageHeader VD_AGENT_PROTOCOL message_type 0 size.

(** * MONITORS_CONFIG *)

Record MonConfig : Type := mkMonConfig {
  MonConfig_height : Z;
  MonConfig_width : Z;
  MonConfig_depth : Z;
  MonConfig_x : Z;
  MonConfig_y : Z
}.

Definition MonConfig_read : Rd MonConfig :=
  let? height := read_u32 in
  let? width := read_u32 in
  let? depth := read_u32 in
  let? x := read_i32 in
  let? y := read_i32 in
  ret (mkMonConfig height width depth x y).

Definition MonConfig_write (self : MonConfig) (out : list Z) : list Z :=
  out <+ to_le 4 (MonConfig_height self)
    <+ to_le 4 (MonConfig_width self)
    <+ to_le 4 (MonConfig_depth self)
    <+ to_le 4 (MonConfig_x self)
    <+ to_le 4 (MonConfig_y self).

#[export] Instance MonConfig_wire : WireType MonConfig := {| read := MonConfig_read; write := MonConfig_write |}.
#[export] Instance MonConfig_wf : WireWf MonConfig := fun v =>
  u32 (MonConfig_height v) /\
  u32 (MonConfig_width v) /\
  u32 (MonConfig_depth v) /\
  i32 (MonConfig_x v) /\
  i32 (MonConfig_y v).
#[export] Instance MonConfig_laws : WireLaws MonConfig.
Proof. wire_laws. Qed.
#[export] Instance MonConfig_rt : WireRoundTrip MonConfig.
Proof. wire_rt. Qed.

Record MonitorMm : Type := mkMonitorMm {
  MonitorMm_height : Z;
  MonitorMm_width : Z
}.

Definition MonitorMm_read : Rd MonitorMm :=
  let? height := read_u16 in
  let? width := read_u16 in
  ret (mkMonitorMm height width).

Definition MonitorMm_write (self : MonitorMm) (out : list Z) : list Z :=
  out <+ to_le 2 (MonitorMm_height self)
    <+ to_le 2 (MonitorMm_width self).

#[export] Instance MonitorMm_wire : WireType MonitorMm := {| read := MonitorMm_read; write := MonitorMm_write |}.
#[export] Instance MonitorMm_wf : WireWf MonitorMm := fun v =>
  u16 (MonitorMm_height v) /\
  u16 (MonitorMm_width v).
#[export] Instance MonitorMm_laws : WireLaws MonitorMm.
Proof. wire_laws. Qed.
#[export] Instance MonitorMm_rt : WireRoundTrip MonitorMm.
Proof. wire_rt. Qed.

Definition MonitorMm_default : MonitorMm := mkMonitorMm 0 0.

Record MonitorsConfig : Type := mkMonitorsConfig {
  MonitorsConfig_flags : Z;
  MonitorsConfig_monitors : list MonConfig;
  MonitorsConfig_physical_sizes : list MonitorMm
}.

Definition flag_physical_size (flags : Z) : bool :=
  negb (Z.land flags VD_AGENT_CONFIG_MONITORS_FLAG_PHYSICAL_SIZE =? 0).

Definition MonitorsConfig_has_physical_size (self : MonitorsConfig) : bool :=
  flag_physical_size (MonitorsConfig_flags self).

Definition MonitorsConfig_read : Rd MonitorsConfig :=
  let? num_of_monitors := read_u32 in
  let? flags := read_u32 in
  let physical := flag_physical_size flags in
  let element := 20 + (if physical then 4 else 0) in
  do? check_count "num_of_monitors" num_of_monitors element in
  let? monitors := read_n (Z.to_nat num_of_monitors) (read (T := MonConfig)) in
  let? physical_sizes :=
    (if physical then read_n (Z.to_nat num_of_monitors) (read (T := MonitorMm)) else ret []) in
  ret (mkMonitorsConfig flags monitors physical_sizes).

(** [for i in 0..self.monitors.len() { self.physical_sizes.get(i).copied().unwrap_or_default() }] *)
Definition MonitorsConfig_table (self : MonitorsConfig) : list MonitorMm :=
  map (fun i => default MonitorMm_default (MonitorsConfig_physical_sizes self !! i))
    (seq 0 (length (MonitorsConfig_monitors self))).

Definition MonitorsConfig_write (self : MonitorsConfig) (out : list Z) : list Z :=
  let out := out <+ to_le 4 (as_unsigned 32 (zlen (MonitorsConfig_monitors self))) in
  let out := out <+ to_le 4 (MonitorsConfig_flags self) in
  let out := write_all (MonitorsConfig_monitors self) out in
  if MonitorsConfig_has_physical_size self then write_all (MonitorsConfig_table self) out
  else out.

#[export] Instance MonitorsConfig_wire : WireType MonitorsConfig :=
  {| read := MonitorsConfig_read; write := MonitorsConfig_write |}.

(** One physical size per monitor when the flag is set, none otherwise. *)
#[export] Instance MonitorsConfig_wf : WireWf MonitorsConfig := fun v =>
  u32 (MonitorsConfig_flags v) /\ u32 (zlen (MonitorsConfig_monitors v)) /\
  Forall wire_wf (MonitorsConfig_monitors v) /\
  Forall wire_wf (MonitorsConfig_physical_sizes v) /\
  length (MonitorsConfig_physical_sizes v) =
    (if MonitorsConfig_has_physical_size v then length (MonitorsConfig_monitors v) else 0%nat).

Lemma MonitorsConfig_table_full v :
  length (MonitorsConfig_physical_sizes v) = length (MonitorsConfig_monitors v) ->
  MonitorsConfig_table v = MonitorsConfig_physical_sizes v.
Proof.
  intros H. unfold MonitorsConfig_table. rewrite <- H. clear H. apply list_eq. intros i.
  rewrite list_lookup_fmap. destruct (decide (i < length (MonitorsConfig_physical_sizes v))%nat).
  - rewrite lookup_seq_lt by done. simpl.
    by destruct (lookup_lt_is_Some_2 (MonitorsConfig_physical_sizes v) i) as [x ->].
  - rewrite lookup_seq_ge by lia. simpl. by rewrite lookup_ge_None_2 by lia.
Qed.

#[export] Instance MonitorsConfig_laws : WireLaws MonitorsConfig.
Proof.
  wire_open.
  - intros v out. unfold MonitorsConfig_write. destruct (MonitorsConfig_has_physical_size v);
      wire_norm; reflexivity.
  - unfold MonitorsConfig_read.
    eapply safe_bind; [apply safe_read_u32|intros n Hn].
    eapply safe_bind; [apply safe_read_u32|intros flags Hf]. cbv zeta.
    eapply safe_bind; [apply safe_check_count; by destruct (flag_physical_size flags)|intros _ _].
    eapply safe_bind; [apply safe_read_n, read_safe|intros ms [Hms HF]].
    eapply safe_bind with (P := fun l => Forall wire_wf l /\
      length l = if flag_physical_size flags then Z.to_nat n else 0%nat).
    + destruct (flag_physical_size flags); [|by apply safe_ret].
      eapply safe_weaken; [apply safe_read_n, read_safe|]. by intros l [? ?].
    + intros ps [Hps Hl]. apply safe_ret. unfold MonitorsConfig_has_physical_size.
      cbn. split_and!; auto.
      * destruct Hn. split; unfold zlen; lia.
      * rewrite Hl. by destruct (flag_physical_size flags).
Qed.

Lemma zlen_MonConfig v : zlen (encode (T := MonConfig) v) = 20.
Proof. reflexivity. Qed.
Lemma zlen_MonitorMm v : zlen (encode (T := MonitorMm) v) = 4.
Proof. reflexivity. Qed.

#[export] Instance MonitorsConfig_rt : WireRoundTrip MonitorsConfig.
Proof.
  wire_open. intros [flags ms ps] (Hf & Hn & Hms & Hps & Hl).
  unfold MonitorsConfig_has_physical_size in *. cbn in Hf, Hn, Hms, Hps, Hl.
  unfold MonitorsConfig_write. unfold MonitorsConfig_has_physical_size.
  cbn [MonitorsConfig_flags MonitorsConfig_monitors].
  rewrite as_unsigned_id by done. unfold MonitorsConfig_read.
  assert (read_n (Z.to_nat (zlen ms)) (read (T := MonConfig)) = read_n (length ms) read) as Er
    by by rewrite <- length_zlen.
  destruct (flag_physical_size flags) eqn:Ef; wire_norm.
  - rewrite MonitorsConfig_table_full by done. cbn [MonitorsConfig_physical_sizes].
    do 2 (eapply reads_bind; [by apply reads_u32|cbv beta zeta]). rewrite Ef.
    apply reads_check_count; try (red in Hn; unfold usize_max; lia).
    { autorewrite with zlen. rewrite (zlen_concat_map _ 20), (zlen_concat_map _ 4)
        by auto using zlen_MonConfig, zlen_MonitorMm.
      replace (zlen ps) with (zlen ms) by (unfold zlen; lia). lia. }
    rewrite Er. eapply reads_bind.
    { apply reads_n. eapply Forall_impl; [|exact Hms]. intros; by apply reads_back. }
    apply (reads_bind_ret _ (mkMonitorsConfig flags ms)).
    rewrite <- length_zlen, <- Hl. apply reads_n.
    eapply Forall_impl; [|exact Hps]. intros; by apply reads_back.
  - do 2 (eapply reads_bind; [by apply reads_u32|cbv beta zeta]). rewrite Ef.
    apply reads_check_count; try (red in Hn; unfold usize_max; lia).
    { rewrite (zlen_concat_map _ 20) by auto using zlen_MonConfig. lia. }
    rewrite Er. destruct ps; [|done].
    match goal with |- reads _ ?bs _ => rewrite <- (app_nil_r bs) end. eapply reads_bind.
    { apply reads_n. eapply Forall_impl; [|exact Hms]. intros; by apply reads_back. }
    change (@nil Z) with (@nil Z ++ []). eapply reads_bind; apply reads_ret.
Qed.

(** * ANNOUNCE_CAPABILITIES *)

Record AnnounceCapabilities : Type := mkAnnounceCapabilities {
  AnnounceCapabilities_request : Z;
  AnnounceCapabilities_caps : list Z
}.

Definition MAX_CAPABILITY : Z := 32 * 16.

Definition has_capability (self : AnnounceCapabilities) (cap : Z) : bool :=
  match AnnounceCapabilities_caps self !! Z.to_nat (cap / 32) with
  | Some word => negb (Z.land word (Z.shiftl 1 (cap mod 32)) =? 0)
  | None => false
  end.

Definition set_capability (self : AnnounceCapabilities) (cap : Z) : AnnounceCapabilities :=
  if MAX_CAPABILITY <=? cap then self
  else
    let word := Z.to_nat (cap / 32) in
    let caps := AnnounceCapabilities_caps self in
    let caps := caps ++ replicate (S word - length caps) 0 in
    mkAnnounceCapabilities (AnnounceCapabilities_request self)
      (alter (fun w => Z.lor w (Z.shiftl 1 (cap mod 32))) word caps).

Definition AnnounceCapabilities_read : Rd AnnounceCapabilities :=
  let? request := read_u32 in
  let? caps := read_u32s_to_end in
  ret (mkAnnounceCapabilities request caps).

Definition AnnounceCapabilities_write (self : AnnounceCapabilities) (out : list Z) : list Z :=
  let out := out <+ to_le 4 (AnnounceCapabilities_request self) in
  foldl (fun out word => out <+ to_le 4 word) out (AnnounceCapabilities_caps self).

#[export] Instance AnnounceCapabilities_wire : WireType AnnounceCapabilities :=
  {| read := AnnounceCapabilities_read; write := AnnounceCapabilities_write |}.
#[export] Instance AnnounceCapabilities_wf : WireWf AnnounceCapabilities := fun v =>
  u32 (AnnounceCapabilities_request v) /\ Forall u32 (AnnounceCapabilities_caps v).

Lemma foldl_u32s xs out :
  foldl (fun out word => out <+ to_le 4 word) out xs = out ++ concat (map (to_le 4) xs).
Proof. by apply foldl_extend. Qed.
#[export] Hint Rewrite foldl_u32s : wire_write.

#[export] Instance AnnounceCapabilities_laws : WireLaws AnnounceCapabilities.
Proof. wire_laws. Qed.
#[export] Instance AnnounceCapabilities_rt : WireRoundTripEnd AnnounceCapabilities.
Proof. wire_rt. Qed.

(** * REPLY *)

Record VdAgentReply : Type := mkVdAgentReply {
  VdAgentReply_reply_type : Z;
  VdAgentReply_error : Z
}.

Definition VdAgentReply_read : Rd VdAgentReply :=
  let? reply_type := read_u32 in
  let? error := read_u32 in
  ret (mkVdAgentReply reply_type error).

Definition VdAgentReply_write (self : VdAgentReply) (out : list Z) : list Z :=
  out <+ to_le 4 (VdAgentReply_reply_type self)
    <+ to_le 4 (VdAgentReply_error self).

#[export] Instance VdAgentReply_wire : WireType VdAgentReply := {| read := VdAgentReply_read; write := VdAgentReply_write |}.
#[export] Instance VdAgentReply_wf : WireWf VdAgentReply := fun v =>
  u32 (VdAgentReply_reply_type v) /\
  u32 (VdAgentReply_error v).
#[export] Instance VdAgentReply_laws : WireLaws VdAgentReply.
Proof. wire_laws. Qed.
#[export] Instance VdAgentReply_rt : WireRoundTrip VdAgentReply.
Proof. wire_rt. Qed.

Definition VdAgentReply_is_success (self : VdAgentReply) : bool :=
  VdAgentReply_error self =? VD_AGENT_SUCCESS.

(** * Clipboard messages *)

Class ClipboardWireType (T : Type) : Type := {
  read_with : bool -> Rd T;
  write_with : T -> list Z -> bool -> list Z
}.

(** The message as it is on the wire once the capability is settled. *)
Definition with_selection {T} `{ClipboardWireType T} (has_selection : bool) : WireType T := {|
  read := read_with has_selection;
  write v out := write_with v out has_selection
|}.

Definition decode_with {T} `{ClipboardWireType T} (body : list Z) (has_selection : bool)
  : result LinkError T :=
  fst (read_with has_selection (reader_new body)).

Definition read_selection (has_selection : bool) : Rd Z :=
  if negb has_selection then ret VD_AGENT_CLIPBOARD_SELECTION_CLIPBOARD
  else
    let? header := read_array 4 in
    unwrap (index header 0).

Definition write_selection (out : list Z) (selection : Z) (has_selection : bool) : list Z :=
  if has_selection then out <+ [selection; 0; 0; 0] else out.

(** Without the header the selection is implicitly the clipboard. *)
Definition selection_ok (has_selection : bool) (selection : Z) : Prop :=
  u8 selection /\ (has_selection = false -> selection = VD_AGENT_CLIPBOARD_SELECTION_CLIPBOARD).

Lemma safe_read_selection b : safe (read_selection b) (selection_ok b).
Proof.
  unfold read_selection. destruct b; simpl.
  - eapply safe_bind; [apply safe_read_bytes; lia|]. intros s [Hl Hb].
    destruct s as [|x s]; [done|]. apply safe_ret. split; [by inversion Hb|done].
  - apply safe_ret. done.
Qed.

Definition selection_bytes (b : bool) (selection : Z) : list Z :=
  if b then [selection; 0; 0; 0] else [].

Lemma write_selection_eq out s b : write_selection out s b = out ++ selection_bytes b s.
Proof. destruct b; simpl; [done|by rewrite app_nil_r]. Qed.
#[export] Hint Rewrite write_selection_eq : wire_write.

Lemma reads_selection b s : selection_ok b s ->
  reads (read_selection b) (selection_bytes b s) s.
Proof.
  intros [Hs Hb]. unfold read_selection. destruct b; simpl.
  - change [s; 0; 0; 0] with ([s; 0; 0; 0] ++ []).
    eapply reads_bind; [by apply reads_bytes|apply reads_ret].
  - rewrite (Hb eq_refl). apply reads_ret.
Qed.

#[export] Hint Resolve safe_read_selection reads_selection : wire.

Record ClipboardGrab : Type := mkClipboardGrab {
  ClipboardGrab_selection : Z;
  ClipboardGrab_types : list Z
}.

Definition ClipboardGrab_offers (self : ClipboardGrab) (clipboard_type : Z) : bool :=
  bool_decide (clipboard_type ∈ ClipboardGrab_types self).

Definition ClipboardGrab_read_with (has_selection : bool) : Rd ClipboardGrab :=
  let? selection := read_selection has_selection in
  let? types := read_u32s_to_end in
  ret (mkClipboardGrab selection types).

Definition ClipboardGrab_write_with (self : ClipboardGrab) (out : list Z)
    (has_selection : bool) : list Z :=
  let out := write_selection out (ClipboardGrab_selection self) has_selection in
  foldl (fun out ty => out <+ to_le 4 ty) out (ClipboardGrab_types self).

#[export] Instance ClipboardGrab_clip : ClipboardWireType ClipboardGrab :=
  {| read_with := ClipboardGrab_read_with; write_with := ClipboardGrab_write_with |}.

Record ClipboardRequest : Type := mkClipboardRequest {
  ClipboardRequest_selection : Z;
  ClipboardRequest_clipboard_type : Z
}.

Definition ClipboardRequest_read_with (has_selection : bool) : Rd ClipboardRequest :=
  let? selection := read_selection has_selection in
  let? clipboard_type := read_u32 in
  ret (mkClipboardRequest selection clipboard_type).

Definition ClipboardRequest_write_with (self : ClipboardRequest) (out : list Z)
    (has_selection : bool) : list Z :=
  let out := write_selection out (ClipboardRequest_selection self) has_selection in
  out <+ to_le 4 (ClipboardRequest_clipboard_type self).

#[export] Instance ClipboardRequest_clip : ClipboardWireType ClipboardRequest :=
  {| read_with := ClipboardRequest_read_with; write_with := ClipboardRequest_write_with |}.

Record Clipboard : Type := mkClipboard {
  Clipboard_selection : Z;
  Clipboard_clipboard_type : Z;
  Clipboard_data : list Z
}.

Definition Clipboard_read_with (has_selection : bool) : Rd Clipboard :=
  let? selection := read_selection has_selection in
  let? clipboard_type := read_u32 in
  let? data := read_rest in
  ret (mkClipboard selection clipboard_type data).

Definition Clipboard_write_with (self : Clipboard) (out : list Z)
    (has_selection : bool) : list Z :=
  let out := write_selection out (Clipboard_selection self) has_selection in
  out <+ to_le 4 (Clipboard_clipboard_type self) <+ Clipboard_data self.

#[export] Instance Clipboard_clip : ClipboardWireType Clipboard :=
  {| read_with := Clipboard_read_with; write_with := Clipboard_write_with |}.

Record ClipboardRelease : Type := mkClipboardRelease { ClipboardRelease_selection : Z }.

Definition ClipboardRelease_read_with (has_selection : bool) : Rd ClipboardRelease :=
  let? selection := read_selection has_selection in
  ret (mkClipboardRelease selection).

Definition ClipboardRelease_write_with (self : ClipboardRelease) (out : list Z)
    (has_selection : bool) : list Z :=
  write_selection out (ClipboardRelease_selection self) has_selection.

#[export] Instance ClipboardRelease_clip : ClipboardWireType ClipboardRelease :=
  {| read_with := ClipboardRelease_read_with; write_with := ClipboardRelease_write_with |}.

(** ** Their laws, for either layout *)

Ltac clip_open :=
  match goal with
  | |- @WireLaws _ ?i ?w => unfold i, w; split
  | |- @WireRoundTrip _ ?i ?w => unfold i, w; red
  | |- @WireRoundTripEnd _ ?i ?w => unfold i, w; red
  end;
  unfold encode, wire_wf;
  cbv [read write with_selection read_with write_with ClipboardGrab_clip
       ClipboardRequest_clip Clipboard_clip ClipboardRelease_clip].
Ltac clip_laws :=
  clip_open;
  [ intros v out; match goal with |- ?w _ _ _ = _ => unfold w end; wire_norm; reflexivity
  | match goal with |- safe (?m _) _ => unfold m end; wire_safe; cbn; split_and?; auto ].
Ltac clip_rt :=
  clip_open; intros v Hv; destruct_and?; destruct v;
  match goal with
  | |- reads (?m _) (?w _ _ _) _ => unfold m, w
  | |- reads_end (?m _) (?w _ _ _) _ => unfold m, w
  end;
  cbn -[app read_selection write_selection] in *; wire_norm;
  match goal with |- _ _ ?bs _ => rewrite <- (app_nil_r bs); rewrite <- ?app_assoc end;
  wire_reads.

Section ClipboardLaws.
Context (b : bool).

#[local] Instance ClipboardGrab_wire : WireType ClipboardGrab := with_selection b.
#[local] Instance ClipboardGrab_wf : WireWf ClipboardGrab := fun v =>
  selection_ok b (ClipboardGrab_selection v) /\ Forall u32 (ClipboardGrab_types v).
#[local] Instance ClipboardRequest_wire : WireType ClipboardRequest := with_selection b.
#[local] Instance ClipboardRequest_wf : WireWf ClipboardRequest := fun v =>
  selection_ok b (ClipboardRequest_selection v) /\ u32 (ClipboardRequest_clipboard_type v).
#[local] Instance Clipboard_wire : WireType Clipboard := with_selection b.
#[local] Instance Clipboard_wf : WireWf Clipboard := fun v =>
  selection_ok b (Clipboard_selection v) /\ u32 (Clipboard_clipboard_type v) /\
  bytes (Clipboard_data v).
#[local] Instance ClipboardRelease_wire : WireType ClipboardRelease := with_selection b.
#[local] Instance ClipboardRelease_wf : WireWf ClipboardRelease := fun v =>
  selection_ok b (ClipboardRelease_selection v).

#[local] Instance ClipboardGrab_laws : WireLaws ClipboardGrab.
Proof. clip_laws. Qed.
#[local] Instance ClipboardGrab_rt : WireRoundTripEnd ClipboardGrab.
Proof. clip_rt. Qed.
#[local] Instance ClipboardRequest_laws : WireLaws ClipboardRequest.
Proof. clip_laws. Qed.
#[local] Instance ClipboardRequest_rt : WireRoundTrip ClipboardRequest.
Proof. clip_rt. Qed.
#[local] Instance Clipboard_laws : WireLaws Clipboard.
Proof. clip_laws. Qed.
#[local] Instance Clipboard_rt : WireRoundTripEnd Clipboard.
Proof. clip_rt. Qed.
#[local] Instance ClipboardRelease_laws : WireLaws ClipboardRelease.
Proof. clip_laws. Qed.
#[local] Instance ClipboardRelease_rt : WireRoundTrip ClipboardRelease.
Proof. clip_rt. Qed.
End ClipboardLaws.
