(* ===== verification/MsgDisplay.v ===== *)
(** Display channel messages other than the draw bodies:
    [shakenfist-spice-protocol/src/messages/display.rs] (rectangles and clips,
    surfaces, monitors, video streams and the client's display messages). *)
From Stdlib Require Import ZArith Lia String.
From stdpp Require Import base numbers list tactics.
From S2P Require Import Prelude Reader Wire.

Open Scope Z_scope.
Open Scope rust_scope.

(** * Rectangles, clips and the base of every draw *)

Record Rect : Type := mkRect {
  Rect_top : Z;
  Rect_left : Z;
  Rect_bottom : Z;
  Rect_right : Z
}.

Definition Rect_read : Rd Rect :=
  let? top := read_i32 in
  let? left := read_i32 in
  let? bottom := read_i32 in
  let? right := read_i32 in
  ret (mkRect top left bottom right).

Definition Rect_write (self : Rect) (out : list Z) : list Z :=
  out <+ to_le 4 (Rect_top self)
    <+ to_le 4 (Rect_left self)
    <+ to_le 4 (Rect_bottom self)
    <+ to_le 4 (Rect_right self).

#[export] Instance Rect_wire : WireType Rect := {| read := Rect_read; write := Rect_write |}.
#[export] Instance Rect_wf : WireWf Rect := fun v =>
  i32 (Rect_top v) /\
  i32 (Rect_left v) /\
  i32 (Rect_bottom v) /\
  i32 (Rect_right v).
#[export] Instance Rect_laws : WireLaws Rect.
Proof. wire_laws. Qed.
#[export] Instance Rect_rt : WireRoundTrip Rect.
Proof. wire_rt. Qed.

Definition Rect_SIZE : Z := 16.

Lemma zlen_Rect v : zlen (encode (T := Rect) v) = Rect_SIZE.
Proof. reflexivity. Qed.

Definition clip_type_NONE : Z := 0.
Definition clip_type_RECTS : Z := 1.

Record Clip : Type := mkClip {
  Clip_clip_type : Z;
  Clip_rects : list Rect
}.

Definition Clip_none : Clip := mkClip clip_type_NONE [].
Definition Clip_of_rects (rects : list Rect) : Clip := mkClip clip_type_RECTS rects.

Definition Clip_read : Rd Clip :=
  let? clip_type := read_u8 in
  let? rects :=
    (if clip_type =? clip_type_RECTS then
       let? count := read_u32 in
       do? check_count "num_rects" count Rect_SIZE in
       read_n (Z.to_nat count) (read (T := Rect))
     else ret []) in
  ret (mkClip clip_type rects).

Definition Clip_write (self : Clip) (out : list Z) : list Z :=
  let out := out <+ [Clip_clip_type self] in
  if Clip_clip_type self =? clip_type_RECTS then
    let out := out <+ to_le 4 (as_unsigned 32 (zlen (Clip_rects self))) in
    write_all (Clip_rects self) out
  else out.

#[export] Instance Clip_wire : WireType Clip := {| read := Clip_read; write := Clip_write |}.

(** Only a RECTS clip carries rectangles. *)
#[export] Instance Clip_wf : WireWf Clip := fun v =>
  u8 (Clip_clip_type v) /\
  if Clip_clip_type v =? clip_type_RECTS
  then Forall wire_wf (Clip_rects v) /\ u32 (zlen (Clip_rects v))
  else Clip_rects v = [].

#[export] Instance Clip_laws : WireLaws Clip.
Proof.
  wire_open.
  - intros v out. unfold Clip_write. destruct (_ =? _); wire_norm; reflexivity.
  - unfold Clip_read. eapply safe_bind; [apply safe_read_u8|intros ct Hct].
    eapply safe_bind with (P := fun l => if ct =? clip_type_RECTS
      then Forall wire_wf l /\ u32 (zlen l) else l = []).
    + case_bool; [|by apply safe_ret]. eapply safe_bind; [apply safe_read_u32|intros n Hn].
      eapply safe_bind; [by apply safe_check_count|intros _ _].
      eapply safe_weaken; [apply safe_read_n, read_safe|]. intros l [Hl HF].
      split; [done|]. destruct Hn. split; unfold zlen; lia.
    + intros l Hl. by apply safe_ret.
Qed.

#[export] Instance Clip_rt : WireRoundTrip Clip.
Proof.
  wire_open. intros [ct rs] [Hct Hrs]. unfold Clip_read, Clip_write.
  cbn [Clip_clip_type Clip_rects] in *. case_bool.
  - destruct Hrs as [HF Hn]. rewrite as_unsigned_id by done. wire_norm.
    eapply reads_bind; [apply reads_u8|]. rewrite (proj2 (Z.eqb_eq _ _)) by done.
    apply (reads_bind_ret _ (mkClip ct)).
    eapply reads_bind; [by apply reads_u32|].
    apply reads_check_count; try (red in Hn; unfold usize_max, Rect_SIZE; lia).
    { rewrite (zlen_concat_map _ Rect_SIZE) by apply zlen_Rect. lia. }
    rewrite <- length_zlen. apply reads_n.
    eapply Forall_impl; [|exact HF]. intros; by apply reads_back.
  - subst rs. wire_norm. rewrite <- (app_nil_r [ct]).
    eapply reads_bind; [apply reads_u8|]. rewrite (proj2 (Z.eqb_neq _ _)) by done.
    apply (reads_bind_ret _ (mkClip ct)), reads_ret.
Qed.

Record DrawBase : Type := mkDrawBase {
  DrawBase_surface_id : Z;
  DrawBase_bbox : Rect;
  DrawBase_clip : Clip
}.

Definition DrawBase_read : Rd DrawBase :=
  let? surface_id := read_u32 in
  let? bbox := read in
  let? clip := read in
  ret (mkDrawBase surface_id bbox clip).

Definition DrawBase_write (self : DrawBase) (out : list Z) : list Z :=
  let out := out <+ to_le 4 (DrawBase_surface_id self) in
  let out := write (DrawBase_bbox self) out in
  let out := write (DrawBase_clip self) out in
  out.

#[export] Instance DrawBase_wire : WireType DrawBase := {| read := DrawBase_read; write := DrawBase_write |}.
#[export] Instance DrawBase_wf : WireWf DrawBase := fun v =>
  u32 (DrawBase_surface_id v) /\
  wire_wf (DrawBase_bbox v) /\
  wire_wf (DrawBase_clip v).
#[export] Instance DrawBase_laws : WireLaws DrawBase.
Proof. wire_laws. Qed.
#[export] Instance DrawBase_rt : WireRoundTrip DrawBase.
Proof. wire_rt. Qed.

Record SpicePoint : Type := mkSpicePoint {
  SpicePoint_x : Z;
  SpicePoint_y : Z
}.

Definition SpicePoint_read : Rd SpicePoint :=
  let? x := read_i32 in
  let? y := read_i32 in
  ret (mkSpicePoint x y).

Definition SpicePoint_write (self : SpicePoint) (out : list Z) : list Z :=
  out <+ to_le 4 (SpicePoint_x self)
    <+ to_le 4 (SpicePoint_y self).

#[export] Instance SpicePoint_wire : WireType SpicePoint := {| read := SpicePoint_read; write := SpicePoint_write |}.
#[export] Instance SpicePoint_wf : WireWf SpicePoint := fun v =>
  i32 (SpicePoint_x v) /\
  i32 (SpicePoint_y v).
#[export] Instance SpicePoint_laws : WireLaws SpicePoint.
Proof. wire_laws. Qed.
#[export] Instance SpicePoint_rt : WireRoundTrip SpicePoint.
Proof. wire_rt. Qed.

(** * Surfaces and monitors *)

Record SurfaceCreate : Type := mkSurfaceCreate {
  SurfaceCreate_surface_id : Z;
  SurfaceCreate_width : Z;
  SurfaceCreate_height : Z;
  SurfaceCreate_format : Z;
  SurfaceCreate_flags : Z
}.

Definition SurfaceCreate_read : Rd SurfaceCreate :=
  let? surface_id := read_u32 in
  let? width := read_u32 in
  let? height := read_u32 in
  let? format := read_u32 in
  let? flags := read_u32 in
  ret (mkSurfaceCreate surface_id width height format flags).

Definition SurfaceCreate_write (self : SurfaceCreate) (out : list Z) : list Z :=
  out <+ to_le 4 (SurfaceCreate_surface_id self)
    <+ to_le 4 (SurfaceCreate_width self)
    <+ to_le 4 (SurfaceCreate_height self)
    <+ to_le 4 (SurfaceCreate_format self)
    <+ to_le 4 (SurfaceCreate_flags self).

#[export] Instance SurfaceCreate_wire : WireType SurfaceCreate := {| read := SurfaceCreate_read; write := SurfaceCreate_write |}.
#[export] Instance SurfaceCreate_wf : WireWf SurfaceCreate := fun v =>
  u32 (SurfaceCreate_surface_id v) /\
  u32 (SurfaceCreate_width v) /\
  u32 (SurfaceCreate_height v) /\
  u32 (SurfaceCreate_format v) /\
  u32 (SurfaceCreate_flags v).
#[export] Instance SurfaceCreate_laws : WireLaws SurfaceCreate.
Proof. wire_laws. Qed.
#[export] Instance SurfaceCreate_rt : WireRoundTrip SurfaceCreate.
Proof. wire_rt. Qed.

Record SurfaceDestroy : Type := mkSurfaceDestroy {
  SurfaceDestroy_surface_id : Z
}.

Definition SurfaceDestroy_read : Rd SurfaceDestroy :=
  let? surface_id := read_u32 in
  ret (mkSurfaceDestroy surface_id).

Definition SurfaceDestroy_write (self : SurfaceDestroy) (out : list Z) : list Z :=
  out <+ to_le 4 (SurfaceDestroy_surface_id self).

#[export] Instance SurfaceDestroy_wire : WireType SurfaceDestroy := {| read := SurfaceDestroy_read; write := SurfaceDestroy_write |}.
#[export] Instance SurfaceDestroy_wf : WireWf SurfaceDestroy := fun v =>
  u32 (SurfaceDestroy_surface_id v).
#[export] Instance SurfaceDestroy_laws : WireLaws SurfaceDestroy.
Proof. wire_laws. Qed.
#[export] Instance SurfaceDestroy_rt : WireRoundTrip SurfaceDestroy.
Proof. wire_rt. Qed.

Record DisplayHead : Type := mkDisplayHead {
  DisplayHead_monitor_id : Z;
  DisplayHead_surface_id : Z;
  DisplayHead_width : Z;
  DisplayHead_height : Z;
  DisplayHead_x : Z;
  DisplayHead_y : Z;
  DisplayHead_flags : Z
}.

Definition DisplayHead_read : Rd DisplayHead :=
  let? monitor_id := read_u32 in
  let? surface_id := read_u32 in
  let? width := read_u32 in
  let? height := read_u32 in
  let? x := read_u32 in
  let? y := read_u32 in
  let? flags := read_u32 in
  ret (mkDisplayHead monitor_id surface_id width height x y flags).

Definition DisplayHead_write (self : DisplayHead) (out : list Z) : list Z :=
  out <+ to_le 4 (DisplayHead_monitor_id self)
    <+ to_le 4 (DisplayHead_surface_id self)
    <+ to_le 4 (DisplayHead_width self)
    <+ to_le 4 (DisplayHead_height self)
    <+ to_le 4 (DisplayHead_x self)
    <+ to_le 4 (DisplayHead_y self)
    <+ to_le 4 (DisplayHead_flags self).

#[export] Instance DisplayHead_wire : WireType DisplayHead := {| read := DisplayHead_read; write := DisplayHead_write |}.
#[export] Instance DisplayHead_wf : WireWf DisplayHead := fun v =>
  u32 (DisplayHead_monitor_id v) /\
  u32 (DisplayHead_surface_id v) /\
  u32 (DisplayHead_width v) /\
  u32 (DisplayHead_height v) /\
  u32 (DisplayHead_x v) /\
  u32 (DisplayHead_y v) /\
  u32 (DisplayHead_flags v).
#[export] Instance DisplayHead_laws : WireLaws DisplayHead.
Proof. wire_laws. Qed.
#[export] Instance DisplayHead_rt : WireRoundTrip DisplayHead.
Proof. wire_rt. Qed.

Definition DisplayHead_SIZE : Z := 28.

Lemma zlen_DisplayHead v : zlen (encode (T := DisplayHead) v) = DisplayHead_SIZE.
Proof. reflexivity. Qed.

Record DisplayMonitorsConfig : Type := mkDisplayMonitorsConfig {
  DisplayMonitorsConfig_max_allowed : Z;
  DisplayMonitorsConfig_heads : list DisplayHead
}.

Definition DisplayMonitorsConfig_read : Rd DisplayMonitorsConfig :=
  let? count := read_u16 in
  let? max_allowed := read_u16 in
  do? check_count "monitors_config count" count DisplayHead_SIZE in
  let? heads := read_n (Z.to_nat count) (read (T := DisplayHead)) in
  ret (mkDisplayMonitorsConfig max_allowed heads).

Definition DisplayMonitorsConfig_write (self : DisplayMonitorsConfig) (out : list Z) : list Z :=
  let out := out <+ to_le 2 (as_unsigned 16 (zlen (DisplayMonitorsConfig_heads self))) in
  let out := out <+ to_le 2 (DisplayMonitorsConfig_max_allowed self) in
  write_all (DisplayMonitorsConfig_heads self) out.

#[export] Instance DisplayMonitorsConfig_wire : WireType DisplayMonitorsConfig :=
  {| read := DisplayMonitorsConfig_read; write := DisplayMonitorsConfig_write |}.
#[export] Instance DisplayMonitorsConfig_wf : WireWf DisplayMonitorsConfig := fun v =>
  u16 (DisplayMonitorsConfig_max_allowed v) /\ u16 (zlen (DisplayMonitorsConfig_heads v)) /\
  Forall wire_wf (DisplayMonitorsConfig_heads v).

#[export] Instance DisplayMonitorsConfig_laws : WireLaws DisplayMonitorsConfig.
Proof.
  wire_open; [wire_write_app|]. unfold DisplayMonitorsConfig_read.
  eapply safe_bind; [apply safe_read_u16|intros n Hn].
  eapply safe_bind; [apply safe_read_u16|intros m Hm].
  eapply safe_bind; [by apply safe_check_count|intros _ _].
  eapply safe_bind; [apply safe_read_n, read_safe|intros l [Hl HF]].
  apply safe_ret. cbn. split_and!; auto. destruct Hn. split; unfold zlen; lia.
Qed.

#[export] Instance DisplayMonitorsConfig_rt : WireRoundTrip DisplayMonitorsConfig.
Proof.
  wire_open. intros [m l] (Hm & Hn & HF).
  cbn [DisplayMonitorsConfig_max_allowed DisplayMonitorsConfig_heads] in *.
  unfold DisplayMonitorsConfig_write, DisplayMonitorsConfig_read.
  cbn [DisplayMonitorsConfig_max_allowed DisplayMonitorsConfig_heads].
  rewrite as_unsigned_id by done. wire_norm.
  do 2 (eapply reads_bind; [by apply reads_u16|cbv beta]).
  apply reads_check_count; try (red in Hn; unfold usize_max, DisplayHead_SIZE; lia).
  { rewrite (zlen_concat_map _ DisplayHead_SIZE) by apply zlen_DisplayHead. lia. }
  rewrite <- length_zlen. apply (reads_bind_ret _ (mkDisplayMonitorsConfig m)), reads_n.
  eapply Forall_impl; [|exact HF]. intros; by apply reads_back.
Qed.

(** * Sized byte strings *)

Definition write_sized_bytes (out data : list Z) : list Z :=
  out <+ to_le 4 (as_unsigned 32 (zlen data)) <+ data.

Record BinaryData : Type := mkBinaryData { BinaryData_data : list Z }.

Definition BinaryData_read_data : Rd (list Z) :=
  let? size := read_u32 in
  read_bytes size.

Definition BinaryData_read : Rd BinaryData :=
  let? data := BinaryData_read_data in
  ret (mkBinaryData data).

Definition BinaryData_write (self : BinaryData) (out : list Z) : list Z :=
  write_sized_bytes out (BinaryData_data self).

#[export] Instance BinaryData_wire : WireType BinaryData :=
  {| read := BinaryData_read; write := BinaryData_write |}.

(** A byte string whose length its [u32] size field can hold. *)
Definition sized_ok (data : list Z) : Prop := bytes data /\ u32 (zlen data).

#[export] Instance BinaryData_wf : WireWf BinaryData := fun v => sized_ok (BinaryData_data v).

Definition sized_bytes (data : list Z) : list Z := to_le 4 (as_unsigned 32 (zlen data)) ++ data.

Lemma write_sized_bytes_eq out data : write_sized_bytes out data = out ++ sized_bytes data.
Proof. unfold write_sized_bytes, extend_from_slice. by rewrite <- app_assoc. Qed.
#[export] Hint Rewrite write_sized_bytes_eq : wire_write.

Lemma safe_read_data : safe BinaryData_read_data sized_ok.
Proof.
  unfold BinaryData_read_data. eapply safe_bind; [apply safe_read_u32|intros n Hn].
  eapply safe_weaken; [apply safe_read_bytes; apply Hn|]. intros s [Hl Hb].
  split; [done|by rewrite Hl].
Qed.

Lemma reads_data data : sized_ok data -> reads BinaryData_read_data (sized_bytes data) data.
Proof.
  intros [Hb Hl]. unfold sized_bytes. rewrite as_unsigned_id by done.
  eapply reads_bind; [by apply reads_u32|by apply reads_bytes].
Qed.

#[export] Hint Resolve safe_read_data reads_data : wire.

#[export] Instance BinaryData_laws : WireLaws BinaryData.
Proof. wire_laws. Qed.
#[export] Instance BinaryData_rt : WireRoundTrip BinaryData.
Proof. wire_rt. Qed.

(** * Video streams *)

Record StreamCreate : Type := mkStreamCreate {
  StreamCreate_surface_id : Z;
  StreamCreate_id : Z;
  StreamCreate_flags : Z;
  StreamCreate_codec_type : Z;
  StreamCreate_stamp : Z;
  StreamCreate_stream_width : Z;
  StreamCreate_stream_height : Z;
  StreamCreate_src_width : Z;
  StreamCreate_src_height : Z;
  StreamCreate_dest : Rect;
  StreamCreate_clip : Clip
}.

Definition StreamCreate_read : Rd StreamCreate :=
  let? surface_id := read_u32 in
  let? id := read_u32 in
  let? flags := read_u8 in
  let? codec_type := read_u8 in
  let? stamp := read_u64 in
  let? stream_width := read_u32 in
  let? stream_height := read_u32 in
  let? src_width := read_u32 in
  let? src_height := read_u32 in
  let? dest := read in
  let? clip := read in
  ret (mkStreamCreate surface_id id flags codec_type stamp stream_width stream_height src_width src_height dest clip).

Definition StreamCreate_write (self : StreamCreate) (out : list Z) : list Z :=
  let out := out <+ to_le 4 (StreamCreate_surface_id self) in
  let out := out <+ to_le 4 (StreamCreate_id self) in
  let out := out <+ [StreamCreate_flags self] in
  let out := out <+ [StreamCreate_codec_type self] in
  let out := out <+ to_le 8 (StreamCreate_stamp self) in
  let out := out <+ to_le 4 (StreamCreate_stream_width self) in
  let out := out <+ to_le 4 (StreamCreate_stream_height self) in
  let out := out <+ to_le 4 (StreamCreate_src_width self) in
  let out := out <+ to_le 4 (StreamCreate_src_height self) in
  let out := write (StreamCreate_dest self) out in
  let out := write (StreamCreate_clip self) out in
  out.

#[export] Instance StreamCreate_wire : WireType StreamCreate := {| read := StreamCreate_read; write := StreamCreate_write |}.
#[export] Instance StreamCreate_wf : WireWf StreamCreate := fun v =>
  u32 (StreamCreate_surface_id v) /\
  u32 (StreamCreate_id v) /\
  u8 (StreamCreate_flags v) /\
  u8 (StreamCreate_codec_type v) /\
  u64 (StreamCreate_stamp v) /\
  u32 (StreamCreate_stream_width v) /\
  u32 (StreamCreate_stream_height v) /\
  u32 (StreamCreate_src_width v) /\
  u32 (StreamCreate_src_height v) /\
  wire_wf (StreamCreate_dest v) /\
  wire_wf (StreamCreate_clip v).
#[export] Instance StreamCreate_laws : WireLaws StreamCreate.
Proof. wire_laws. Qed.
#[export] Instance StreamCreate_rt : WireRoundTrip StreamCreate.
Proof. wire_rt. Qed.

Record StreamDataHeader : Type := mkStreamDataHeader {
  StreamDataHeader_id : Z;
  StreamDataHeader_multi_media_time : Z
}.

Definition StreamDataHeader_read : Rd StreamDataHeader :=
  let? id := read_u32 in
  let? multi_media_time := read_u32 in
  ret (mkStreamDataHeader id multi_media_time).

Definition StreamDataHeader_write (self : StreamDataHeader) (out : list Z) : list Z :=
  out <+ to_le 4 (StreamDataHeader_id self)
    <+ to_le 4 (StreamDataHeader_multi_media_time self).

#[export] Instance StreamDataHeader_wire : WireType StreamDataHeader := {| read := StreamDataHeader_read; write := StreamDataHeader_write |}.
#[export] Instance StreamDataHeader_wf : WireWf StreamDataHeader := fun v =>
  u32 (StreamDataHeader_id v) /\
  u32 (StreamDataHeader_multi_media_time v).
#[export] Instance StreamDataHeader_laws : WireLaws StreamDataHeader.
Proof. wire_laws. Qed.
#[export] Instance StreamDataHeader_rt : WireRoundTrip StreamDataHeader.
Proof. wire_rt. Qed.

Record StreamData : Type := mkStreamData {
  StreamData_base : StreamDataHeader;
  StreamData_data : list Z
}.

(** The borrowing reader, of which the owned one is a copy. *)
Definition StreamDataRef_read : Rd StreamData :=
  let? base := read (T := StreamDataHeader) in
  let? data := BinaryData_read_data in
  ret (mkStreamData base data).

Definition StreamData_write (self : StreamData) (out : list Z) : list Z :=
  let out := write (StreamData_base self) out in
  write_sized_bytes out (StreamData_data self).

#[export] Instance StreamData_wire : WireType StreamData :=
  {| read := StreamDataRef_read; write := StreamData_write |}.
#[export] Instance StreamData_wf : WireWf StreamData := fun v =>
  wire_wf (StreamData_base v) /\ sized_ok (StreamData_data v).
#[export] Instance StreamData_laws : WireLaws StreamData.
Proof. wire_laws. Qed.
#[export] Instance StreamData_rt : WireRoundTrip StreamData.
Proof. wire_rt. Qed.

Record StreamDataSized : Type := mkStreamDataSized {
  StreamDataSized_base : StreamDataHeader;
  StreamDataSized_width : Z;
  StreamDataSized_height : Z;
  StreamDataSized_dest : Rect;
  StreamDataSized_data : list Z
}.

Definition StreamDataSizedRef_read : Rd StreamDataSized :=
  let? base := read (T := StreamDataHeader) in
  let? width := read_u32 in
  let? height := read_u32 in
  let? dest := read (T := Rect) in
  let? data := BinaryData_read_data in
  ret (mkStreamDataSized base width height dest data).

Definition StreamDataSized_write (self : StreamDataSized) (out : list Z) : list Z :=
  let out := write (StreamDataSized_base self) out in
  let out := out <+ to_le 4 (StreamDataSized_width self) in
  let out := out <+ to_le 4 (StreamDataSized_height self) in
  let out := write (StreamDataSized_dest self) out in
  write_sized_bytes out (StreamDataSized_data self).

#[export] Instance StreamDataSized_wire : WireType StreamDataSized :=
  {| read := StreamDataSizedRef_read; write := StreamDataSized_write |}.
#[export] Instance StreamDataSized_wf : WireWf StreamDataSized := fun v =>
  wire_wf (StreamDataSized_base v) /\ u32 (StreamDataSized_width v) /\
  u32 (StreamDataSized_height v) /\ wire_wf (StreamDataSized_dest v) /\
  sized_ok (StreamDataSized_data v).
#[export] Instance StreamDataSized_laws : WireLaws StreamDataSized.
Proof. wire_laws. Qed.
#[export] Instance StreamDataSized_rt : WireRoundTrip StreamDataSized.
Proof. wire_rt. Qed.

Record StreamClip : Type := mkStreamClip {
  StreamClip_id : Z;
  StreamClip_clip : Clip
}.

Definition StreamClip_read : Rd StreamClip :=
  let? id := read_u32 in
  let? clip := read in
  ret (mkStreamClip id clip).

Definition StreamClip_write (self : StreamClip) (out : list Z) : list Z :=
  let out := out <+ to_le 4 (StreamClip_id self) in
  let out := write (StreamClip_clip self) out in
  out.

#[export] Instance StreamClip_wire : WireType StreamClip := {| read := StreamClip_read; write := StreamClip_write |}.
#[export] Instance StreamClip_wf : WireWf StreamClip := fun v =>
  u32 (StreamClip_id v) /\
  wire_wf (StreamClip_clip v).
#[export] Instance StreamClip_laws : WireLaws StreamClip.
Proof. wire_laws. Qed.
#[export] Instance StreamClip_rt : WireRoundTrip StreamClip.
Proof. wire_rt. Qed.

Record StreamDestroy : Type := mkStreamDestroy {
  StreamDestroy_id : Z
}.

Definition StreamDestroy_read : Rd StreamDestroy :=
  let? id := read_u32 in
  ret (mkStreamDestroy id).

Definition StreamDestroy_write (self : StreamDestroy) (out : list Z) : list Z :=
  out <+ to_le 4 (StreamDestroy_id self).

#[export] Instance StreamDestroy_wire : WireType StreamDestroy := {| read := StreamDestroy_read; write := StreamDestroy_write |}.
#[export] Instance StreamDestroy_wf : WireWf StreamDestroy := fun v =>
  u32 (StreamDestroy_id v).
#[export] Instance StreamDestroy_laws : WireLaws StreamDestroy.
Proof. wire_laws. Qed.
#[export] Instance StreamDestroy_rt : WireRoundTrip StreamDestroy.
Proof. wire_rt. Qed.

Record StreamActivateReport : Type := mkStreamActivateReport {
  StreamActivateReport_stream_id : Z;
  StreamActivateReport_unique_id : Z;
  StreamActivateReport_max_window_size : Z;
  StreamActivateReport_timeout_ms : Z
}.

Definition StreamActivateReport_read : Rd StreamActivateReport :=
  let? stream_id := read_u32 in
  let? unique_id := read_u32 in
  let? max_window_size := read_u32 in
  let? timeout_ms := read_u32 in
  ret (mkStreamActivateReport stream_id unique_id max_window_size timeout_ms).

Definition StreamActivateReport_write (self : StreamActivateReport) (out : list Z) : list Z :=
  out <+ to_le 4 (StreamActivateReport_stream_id self)
    <+ to_le 4 (StreamActivateReport_unique_id self)
    <+ to_le 4 (StreamActivateReport_max_window_size self)
    <+ to_le 4 (StreamActivateReport_timeout_ms self).

#[export] Instance StreamActivateReport_wire : WireType StreamActivateReport := {| read := StreamActivateReport_read; write := StreamActivateReport_write |}.
#[export] Instance StreamActivateReport_wf : WireWf StreamActivateReport := fun v =>
  u32 (StreamActivateReport_stream_id v) /\
  u32 (StreamActivateReport_unique_id v) /\
  u32 (StreamActivateReport_max_window_size v) /\
  u32 (StreamActivateReport_timeout_ms v).
#[export] Instance StreamActivateReport_laws : WireLaws StreamActivateReport.
Proof. wire_laws. Qed.
#[export] Instance StreamActivateReport_rt : WireRoundTrip StreamActivateReport.
Proof. wire_rt. Qed.

(** * Client messages *)

Record DisplayInit : Type := mkDisplayInit {
  DisplayInit_cache_id : Z;
  DisplayInit_cache_size : Z;
  DisplayInit_glz_dict_id : Z;
  DisplayInit_glz_dict_window : Z
}.

Definition DisplayInit_read : Rd DisplayInit :=
  let? cache_id := read_u8 in
  let? cache_size := read_i64 in
  let? glz_dict_id := read_u8 in
  let? glz_dict_window := read_i32 in
  ret (mkDisplayInit cache_id cache_size glz_dict_id glz_dict_window).

Definition DisplayInit_write (self : DisplayInit) (out : list Z) : list Z :=
  out <+ [DisplayInit_cache_id self]
    <+ to_le 8 (DisplayInit_cache_size self)
    <+ [DisplayInit_glz_dict_id self]
    <+ to_le 4 (DisplayInit_glz_dict_window self).

#[export] Instance DisplayInit_wire : WireType DisplayInit := {| read := DisplayInit_read; write := DisplayInit_write |}.
#[export] Instance DisplayInit_wf : WireWf DisplayInit := fun v =>
  u8 (DisplayInit_cache_id v) /\
  i64 (DisplayInit_cache_size v) /\
  u8 (DisplayInit_glz_dict_id v) /\
  i32 (DisplayInit_glz_dict_window v).
#[export] Instance DisplayInit_laws : WireLaws DisplayInit.
Proof. wire_laws. Qed.
#[export] Instance DisplayInit_rt : WireRoundTrip DisplayInit.
Proof. wire_rt. Qed.

Record StreamReport : Type := mkStreamReport {
  StreamReport_stream_id : Z;
  StreamReport_unique_id : Z;
  StreamReport_start_frame_mm_time : Z;
  StreamReport_end_frame_mm_time : Z;
  StreamReport_num_frames : Z;
  StreamReport_num_drops : Z;
  StreamReport_last_frame_delay : Z;
  StreamReport_audio_delay : Z
}.

Definition StreamReport_read : Rd StreamReport :=
  let? stream_id := read_u32 in
  let? unique_id := read_u32 in
  let? start_frame_mm_time := read_u32 in
  let? end_frame_mm_time := read_u32 in
  let? num_frames := read_u32 in
  let? num_drops := read_u32 in
  let? last_frame_delay := read_i32 in
  let? audio_delay := read_u32 in
  ret (mkStreamReport stream_id unique_id start_frame_mm_time end_frame_mm_time num_frames num_drops last_frame_delay audio_delay).

Definition StreamReport_write (self : StreamReport) (out : list Z) : list Z :=
  out <+ to_le 4 (StreamReport_stream_id self)
    <+ to_le 4 (StreamReport_unique_id self)
    <+ to_le 4 (StreamReport_start_frame_mm_time self)
    <+ to_le 4 (StreamReport_end_frame_mm_time self)
    <+ to_le 4 (StreamReport_num_frames self)
    <+ to_le 4 (StreamReport_num_drops self)
    <+ to_le 4 (StreamReport_last_frame_delay self)
    <+ to_le 4 (StreamReport_audio_delay self).

#[export] Instance StreamReport_wire : WireType StreamReport := {| read := StreamReport_read; write := StreamReport_write |}.
#[export] Instance StreamReport_wf : WireWf StreamReport := fun v =>
  u32 (StreamReport_stream_id v) /\
  u32 (StreamReport_unique_id v) /\
  u32 (StreamReport_start_frame_mm_time v) /\
  u32 (StreamReport_end_frame_mm_time v) /\
  u32 (StreamReport_num_frames v) /\
  u32 (StreamReport_num_drops v) /\
  i32 (StreamReport_last_frame_delay v) /\
  u32 (StreamReport_audio_delay v).
#[export] Instance StreamReport_laws : WireLaws StreamReport.
Proof. wire_laws. Qed.
#[export] Instance StreamReport_rt : WireRoundTrip StreamReport.
Proof. wire_rt. Qed.

Record PreferredCompression : Type := mkPreferredCompression {
  PreferredCompression_image_compression : Z
}.

Definition PreferredCompression_read : Rd PreferredCompression :=
  let? image_compression := read_u8 in
  ret (mkPreferredCompression image_compression).

Definition PreferredCompression_write (self : PreferredCompression) (out : list Z) : list Z :=
  out <+ [PreferredCompression_image_compression self].

#[export] Instance PreferredCompression_wire : WireType PreferredCompression := {| read := PreferredCompression_read; write := PreferredCompression_write |}.
#[export] Instance PreferredCompression_wf : WireWf PreferredCompression := fun v =>
  u8 (PreferredCompression_image_compression v).
#[export] Instance PreferredCompression_laws : WireLaws PreferredCompression.
Proof. wire_laws. Qed.
#[export] Instance PreferredCompression_rt : WireRoundTrip PreferredCompression.
Proof. wire_rt. Qed.

Record PreferredVideoCodecType : Type := mkPreferredVideoCodecType {
  PreferredVideoCodecType_codecs : list Z
}.

Definition PreferredVideoCodecType_read : Rd PreferredVideoCodecType :=
  let? count := read_u8 in
  let? codecs := read_bytes count in
  ret (mkPreferredVideoCodecType codecs).

Definition PreferredVideoCodecType_write (self : PreferredVideoCodecType) (out : list Z) : list Z :=
  out <+ [as_unsigned 8 (zlen (PreferredVideoCodecType_codecs self))]
    <+ PreferredVideoCodecType_codecs self.

#[export] Instance PreferredVideoCodecType_wire : WireType PreferredVideoCodecType :=
  {| read := PreferredVideoCodecType_read; write := PreferredVideoCodecType_write |}.
#[export] Instance PreferredVideoCodecType_wf : WireWf PreferredVideoCodecType := fun v =>
  bytes (PreferredVideoCodecType_codecs v) /\ u8 (zlen (PreferredVideoCodecType_codecs v)).
#[export] Instance PreferredVideoCodecType_laws : WireLaws PreferredVideoCodecType.
Proof.
  wire_open; [wire_write_app|]. unfold PreferredVideoCodecType_read.
  eapply safe_bind; [apply safe_read_u8|intros n Hn].
  eapply safe_bind; [apply safe_read_bytes; apply Hn|intros s [Hl Hb]].
  apply safe_ret. cbn. by rewrite Hl.
Qed.
#[export] Instance PreferredVideoCodecType_rt : WireRoundTrip PreferredVideoCodecType.
Proof.
  wire_rt_start. rewrite as_unsigned_id by done. eapply reads_bind; [apply reads_u8|].
  eapply reads_bind; [by apply reads_bytes|apply reads_ret].
Qed.
