(* ===== verification/MsgDrawOps.v ===== *)
(** The draw bodies that return [io::Result]:
    [shakenfist-spice-protocol/src/messages/display.rs] ([SpiceBrush],
    [SpiceQMask], [SpiceFill], [SpiceBlackness], [SpiceOpaque],
    [SpiceTransparent], [SpiceAlphaBlend]).

    These parsers index the slice by hand and report how many bytes they took,
    so the caller can find what follows.  Indexing and slicing are modelled with
    their panics; [io_fits] is the contract every one of them meets. *)
From Stdlib Require Import ZArith Lia String.
From stdpp Require Import base numbers list tactics.
From S2P Require Import Prelude Reader IoCursor Wire MsgDisplay.

Open Scope Z_scope.
Open Scope rust_scope.

Record SpiceQMask : Type := mkSpiceQMask {
  SpiceQMask_flags : Z;
  SpiceQMask_pos : SpicePoint;
  SpiceQMask_bitmap_offset : Z
}.

Definition SpiceQMask_read : Rd SpiceQMask :=
  let? flags := read_u8 in
  let? pos := read in
  let? bitmap_offset := read_u32 in
  ret (mkSpiceQMask flags pos bitmap_offset).

Definition SpiceQMask_write (self : SpiceQMask) (out : list Z) : list Z :=
  let out := out <+ [SpiceQMask_flags self] in
  let out := write (SpiceQMask_pos self) out in
  let out := out <+ to_le 4 (SpiceQMask_bitmap_offset self) in
  out.

#[export] Instance SpiceQMask_wire : WireType SpiceQMask := {| read := SpiceQMask_read; write := SpiceQMask_write |}.
#[export] Instance SpiceQMask_wf : WireWf SpiceQMask := fun v =>
  u8 (SpiceQMask_flags v) /\
  wire_wf (SpiceQMask_pos v) /\
  u32 (SpiceQMask_bitmap_offset v).
#[export] Instance SpiceQMask_laws : WireLaws SpiceQMask.
Proof. wire_laws. Qed.
#[export] Instance SpiceQMask_rt : WireRoundTrip SpiceQMask.
Proof. wire_rt. Qed.

Definition SpiceQMask_SIZE : Z := 13.

(** * Conversions between the two error types *)

(** [?] on a [LinkError] inside a function that returns [io::Result]. *)
Definition from_link {A} (m : result LinkError A) : result ErrorKind A :=
  match m with
  | Ok a => Ok a
  | Err e => Err (io_error_kind e)
  | Panic => Panic
  end.

(** Running [Cursor::new(slice)] reads and dropping the cursor. *)
Definition with_cursor {A} (m : Cur A) (s : list Z) : result ErrorKind A := fst (m s).

(** * Brushes *)

Inductive SpiceBrush : Type :=
| Brush_None
| Brush_Solid (color : Z)
| Brush_Pattern (pat_bitmap_offset : Z) (pos : SpicePoint).

Definition brush_NONE : Z := 0.
Definition brush_SOLID : Z := 1.
Definition brush_PATTERN : Z := 2.

Definition SpiceBrush_read (data : list Z) : result ErrorKind (SpiceBrush * Z) :=
  if zlen data =? 0 then Err UnexpectedEof
  else
    let! brush_type := rlift (index data 0) in
    if brush_type =? brush_NONE then Ok (Brush_None, 1)
    else if brush_type =? brush_SOLID then
      if zlen data <? 1 + 4 then Err UnexpectedEof
      else
        let! s := rlift (slice data 1 (zlen data)) in
        let! color := with_cursor cur_u32 s in
        Ok (Brush_Solid color, 1 + 4)
    else if brush_type =? brush_PATTERN then
      if zlen data <? 1 + 16 then Err UnexpectedEof
      else
        let! s := rlift (slice data 1 (zlen data)) in
        let! pat_bitmap_offset := with_cursor cur_u64 s in
        let! p := rlift (slice data (1 + 8) (1 + 16)) in
        let! pos := from_link (decode (T := SpicePoint) p) in
        Ok (Brush_Pattern pat_bitmap_offset pos, 1 + 16)
    else Err InvalidData.

(** * DRAW_FILL *)

Record SpiceFill : Type := mkSpiceFill {
  SpiceFill_brush : SpiceBrush;
  SpiceFill_rop_descriptor : Z;
  SpiceFill_mask : SpiceQMask
}.

Definition SpiceFill_read (data : list Z) : result ErrorKind (SpiceFill * Z) :=
  let! b := SpiceBrush_read data in
  let (brush, brush_len) := b in
  let after_brush := brush_len in
  if zlen data <? after_brush + 2 + SpiceQMask_SIZE then Err UnexpectedEof
  else
    let! s := rlift (slice data after_brush (after_brush + 2)) in
    let! rop_descriptor := with_cursor cur_u16 s in
    let mask_start := after_brush + 2 in
    let! ms := rlift (slice data mask_start (mask_start + SpiceQMask_SIZE)) in
    let! mask := from_link (decode (T := SpiceQMask) ms) in
    let total := mask_start + SpiceQMask_SIZE in
    Ok (mkSpiceFill brush rop_descriptor mask, total).

(** * DRAW_BLACKNESS, DRAW_WHITENESS and DRAW_INVERS *)

Record SpiceBlackness : Type := mkSpiceBlackness { SpiceBlackness_mask : SpiceQMask }.

Definition SpiceBlackness_read (data : list Z) : result ErrorKind SpiceBlackness :=
  if zlen data <? SpiceQMask_SIZE then Err UnexpectedEof
  else
    let! s := rlift (slice data 0 SpiceQMask_SIZE) in
    let! mask := from_link (decode (T := SpiceQMask) s) in
    Ok (mkSpiceBlackness mask).

(** * DRAW_OPAQUE *)

Record SpiceOpaque : Type := mkSpiceOpaque {
  SpiceOpaque_src_bitmap : Z;
  SpiceOpaque_src_top : Z;
  SpiceOpaque_src_left : Z;
  SpiceOpaque_src_bottom : Z;
  SpiceOpaque_src_right : Z;
  SpiceOpaque_brush : SpiceBrush;
  SpiceOpaque_rop_descriptor : Z;
  SpiceOpaque_scale_mode : Z;
  SpiceOpaque_mask : SpiceQMask
}.

Definition SpiceOpaque_read (data : list Z) : result ErrorKind (SpiceOpaque * Z) :=
  if zlen data <? 20 then Err UnexpectedEof
  else
    let! s := rlift (slice data 0 20) in
    let! k := with_cursor (
      let? src_bitmap := cur_u32 in
      let? src_top := cur_u32 in
      let? src_left := cur_u32 in
      let? src_bottom := cur_u32 in
      let? src_right := cur_u32 in
      ret (mkSpiceOpaque src_bitmap src_top src_left src_bottom src_right)) s in
    let! rest := rlift (slice data 20 (zlen data)) in
    let! b := SpiceBrush_read rest in
    let (brush, brush_len) := b in
    let after_brush := 20 + brush_len in
    if zlen data <? after_brush + 2 + 1 + SpiceQMask_SIZE then Err UnexpectedEof
    else
      let! s2 := rlift (slice data after_brush (after_brush + 3)) in
      let! rs := with_cursor (
        let? rop_descriptor := cur_u16 in
        let? scale_mode := cur_u8 in
        ret (rop_descriptor, scale_mode)) s2 in
      let mask_start := after_brush + 3 in
      let! ms := rlift (slice data mask_start (mask_start + SpiceQMask_SIZE)) in
      let! mask := from_link (decode (T := SpiceQMask) ms) in
      let total := mask_start + SpiceQMask_SIZE in
      Ok (k brush (fst rs) (snd rs) mask, total).

(** * DRAW_TRANSPARENT *)

Record SpiceTransparent : Type := mkSpiceTransparent {
  SpiceTransparent_src_bitmap : Z;
  SpiceTransparent_src_top : Z;
  SpiceTransparent_src_left : Z;
  SpiceTransparent_src_bottom : Z;
  SpiceTransparent_src_right : Z;
  SpiceTransparent_src_color : Z;
  SpiceTransparent_true_color : Z
}.

Definition SpiceTransparent_SIZE : Z := 28.

Definition SpiceTransparent_read (data : list Z) : result ErrorKind SpiceTransparent :=
  if zlen data <? SpiceTransparent_SIZE then Err UnexpectedEof
  else with_cursor (
    let? src_bitmap := cur_u32 in
    let? src_top := cur_u32 in
    let? src_left := cur_u32 in
    let? src_bottom := cur_u32 in
    let? src_right := cur_u32 in
    let? src_color := cur_u32 in
    let? true_color := cur_u32 in
    ret (mkSpiceTransparent src_bitmap src_top src_left src_bottom src_right
           src_color true_color)) data.

(** * DRAW_ALPHA_BLEND *)

Record SpiceAlphaBlend : Type := mkSpiceAlphaBlend {
  SpiceAlphaBlend_alpha_flags : Z;
  SpiceAlphaBlend_alpha : Z;
  SpiceAlphaBlend_src_bitmap : Z;
  SpiceAlphaBlend_src_top : Z;
  SpiceAlphaBlend_src_left : Z;
  SpiceAlphaBlend_src_bottom : Z;
  SpiceAlphaBlend_src_right : Z
}.

Definition SpiceAlphaBlend_SIZE : Z := 23.

Definition SpiceAlphaBlend_read (data : list Z) : result ErrorKind SpiceAlphaBlend :=
  if zlen data <? SpiceAlphaBlend_SIZE then Err UnexpectedEof
  else with_cursor (
    let? alpha_flags := cur_u16 in
    let? alpha := cur_u8 in
    let? src_bitmap := cur_u32 in
    let? src_top := cur_u32 in
    let? src_left := cur_u32 in
    let? src_bottom := cur_u32 in
    let? src_right := cur_u32 in
    ret (mkSpiceAlphaBlend alpha_flags alpha src_bitmap src_top src_left
           src_bottom src_right)) data.

(** * The wire format these parsers accept *)

Definition brush_bytes (b : SpiceBrush) : list Z :=
  match b with
  | Brush_None => [brush_NONE]
  | Brush_Solid color => [brush_SOLID] ++ to_le 4 color
  | Brush_Pattern off pos => [brush_PATTERN] ++ to_le 8 off ++ encode pos
  end.

Definition brush_ok (b : SpiceBrush) : Prop :=
  match b with
  | Brush_None => True
  | Brush_Solid color => u32 color
  | Brush_Pattern off pos => u64 off /\ wire_wf pos
  end.

Definition fill_bytes (f : SpiceFill) : list Z :=
  brush_bytes (SpiceFill_brush f) ++ to_le 2 (SpiceFill_rop_descriptor f) ++
  encode (SpiceFill_mask f).

Definition fill_ok (f : SpiceFill) : Prop :=
  brush_ok (SpiceFill_brush f) /\ u16 (SpiceFill_rop_descriptor f) /\
  wire_wf (SpiceFill_mask f).

Definition opaque_head (o : SpiceOpaque) : list Z :=
  to_le 4 (SpiceOpaque_src_bitmap o) ++ to_le 4 (SpiceOpaque_src_top o) ++
  to_le 4 (SpiceOpaque_src_left o) ++ to_le 4 (SpiceOpaque_src_bottom o) ++
  to_le 4 (SpiceOpaque_src_right o).

Definition opaque_bytes (o : SpiceOpaque) : list Z :=
  opaque_head o ++ brush_bytes (SpiceOpaque_brush o) ++
  (to_le 2 (SpiceOpaque_rop_descriptor o) ++ to_le 1 (SpiceOpaque_scale_mode o)) ++
  encode (SpiceOpaque_mask o).

Definition opaque_ok (o : SpiceOpaque) : Prop :=
  u32 (SpiceOpaque_src_bitmap o) /\ u32 (SpiceOpaque_src_top o) /\
  u32 (SpiceOpaque_src_left o) /\ u32 (SpiceOpaque_src_bottom o) /\
  u32 (SpiceOpaque_src_right o) /\ brush_ok (SpiceOpaque_brush o) /\
  u16 (SpiceOpaque_rop_descriptor o) /\ u8 (SpiceOpaque_scale_mode o) /\
  wire_wf (SpiceOpaque_mask o).

Definition transparent_bytes (t : SpiceTransparent) : list Z :=
  to_le 4 (SpiceTransparent_src_bitmap t) ++ to_le 4 (SpiceTransparent_src_top t) ++
  to_le 4 (SpiceTransparent_src_left t) ++ to_le 4 (SpiceTransparent_src_bottom t) ++
  to_le 4 (SpiceTransparent_src_right t) ++ to_le 4 (SpiceTransparent_src_color t) ++
  to_le 4 (SpiceTransparent_true_color t).

Definition transparent_ok (t : SpiceTransparent) : Prop :=
  u32 (SpiceTransparent_src_bitmap t) /\ u32 (SpiceTransparent_src_top t) /\
  u32 (SpiceTransparent_src_left t) /\ u32 (SpiceTransparent_src_bottom t) /\
  u32 (SpiceTransparent_src_right t) /\ u32 (SpiceTransparent_src_color t) /\
  u32 (SpiceTransparent_true_color t).

Definition alpha_blend_bytes (a : SpiceAlphaBlend) : list Z :=
  to_le 2 (SpiceAlphaBlend_alpha_flags a) ++ to_le 1 (SpiceAlphaBlend_alpha a) ++
  to_le 4 (SpiceAlphaBlend_src_bitmap a) ++ to_le 4 (SpiceAlphaBlend_src_top a) ++
  to_le 4 (SpiceAlphaBlend_src_left a) ++ to_le 4 (SpiceAlphaBlend_src_bottom a) ++
  to_le 4 (SpiceAlphaBlend_src_right a).

Definition alpha_blend_ok (a : SpiceAlphaBlend) : Prop :=
  u16 (SpiceAlphaBlend_alpha_flags a) /\ u8 (SpiceAlphaBlend_alpha a) /\
  u32 (SpiceAlphaBlend_src_bitmap a) /\ u32 (SpiceAlphaBlend_src_top a) /\
  u32 (SpiceAlphaBlend_src_left a) /\ u32 (SpiceAlphaBlend_src_bottom a) /\
  u32 (SpiceAlphaBlend_src_right a).

(** * Contracts *)

(** [io_total m Q]: on any bytes the parser returns, and what it accepts
    satisfies [Q]. *)
Definition io_total {A} (m : list Z -> result ErrorKind A) (Q : list Z -> A -> Prop) : Prop :=
  forall data, bytes data -> zlen data <= isize_max ->
  match m data with
  | Ok a => Q data a
  | Err _ => True
  | Panic => False
  end.

(** [io_accepts m ok enc]: an encoding followed by anything is accepted, with
    the number of bytes it took. *)
Definition io_accepts {A} (m : list Z -> result ErrorKind (A * Z)) (ok : A -> Prop)
  (enc : A -> list Z) : Prop :=
  forall v rest, ok v -> zlen (enc v ++ rest) <= isize_max ->
  m (enc v ++ rest) = Ok (v, zlen (enc v)).

(** A sized result lies within the slice it was read from. *)
Definition sized_within {A} (ok : A -> Prop) (enc : A -> list Z) (data : list Z) (p : A * Z) : Prop :=
  ok (fst p) /\ snd p = zlen (enc (fst p)) /\ snd p <= zlen data.

(** ** The building blocks *)

Lemma from_link_decode {T} `{WireLaws T} s : bytes s -> zlen s <= isize_max ->
  match from_link (decode (T := T) s) with
  | Ok v => wire_wf v
  | Err _ => True
  | Panic => False
  end.
Proof.
  intros Hb Hl. pose proof (laws_never_panics (T := T) s Hb Hl).
  by destruct (decode s).
Qed.

Lemma with_cursor_tame {A} (m : Cur A) Q s : tame m Q -> bytes s ->
  match with_cursor m s with Ok a => Q a | Err _ => True | Panic => False end.
Proof.
  intros Hm Hs. specialize (Hm s Hs). unfold with_cursor.
  destruct (m s) as [[a|e|] s']; simpl; tauto.
Qed.

Lemma with_cursor_takes {A} (m : Cur A) bs a rest :
  takes m bs a -> with_cursor m (bs ++ rest) = Ok a.
Proof. intros Hm. unfold with_cursor. by rewrite Hm. Qed.

(** Step over one fallible sub-read of a total parser. *)
Lemma total_bind {A B} (m : result ErrorKind A) (k : A -> result ErrorKind B)
  (P : A -> Prop) (Q : B -> Prop) :
  match m with Ok a => P a | Err _ => True | Panic => False end ->
  (forall a, P a -> match k a with Ok b => Q b | Err _ => True | Panic => False end) ->
  match rbind m k with Ok b => Q b | Err _ => True | Panic => False end.
Proof. intros Hm Hk. destruct m; simpl; [by apply Hk|done|done]. Qed.

Lemma total_slice data a b : bytes data -> zlen data <= isize_max ->
  0 <= a <= b -> b <= zlen data ->
  match rlift (E := ErrorKind) (slice data a b) with
  | Ok s => bytes s /\ zlen s = b - a /\ zlen s <= isize_max
  | Err _ => True
  | Panic => False
  end.
Proof.
  intros Hb Hl Hab Hd. destruct (slice data a b) as [s|] eqn:E.
  - simpl. pose proof (slice_Forall _ _ _ _ _ Hb E). pose proof (slice_length _ _ _ _ E).
    split_and!; auto; lia.
  - by rewrite slice_Some in E by lia.
Qed.

Ltac total_step :=
  match goal with
  | |- match rbind (rlift (slice _ _ _)) _ with _ => _ end =>
      eapply total_bind; [apply total_slice; auto; zlen_solve | cbv beta; intros ? (?&?&?)]
  | |- match rbind (from_link (decode _)) _ with _ => _ end =>
      eapply total_bind; [apply from_link_decode; auto | cbv beta; intros ? ?]
  | |- match rbind (with_cursor _ _) _ with _ => _ end =>
      eapply total_bind; [eapply with_cursor_tame; [solve [eauto with wire] | auto]
                         | cbv beta; intros ? ?]
  end.

Lemma brush_total : io_total SpiceBrush_read (sized_within brush_ok brush_bytes).
Proof.
  intros data Hb Hl. unfold SpiceBrush_read.
  destruct data as [|t data]; [done|]. cbn [index].
  destruct (Z.eqb_spec (zlen (t :: data)) 0); [done|]. simpl rbind.
  case_bool; try done; repeat total_step.
  all: split_and!; [done|reflexivity|cbn [snd]; zlen_solve].
Qed.

Lemma zlen_SpiceQMask v : zlen (encode (T := SpiceQMask) v) = SpiceQMask_SIZE.
Proof. reflexivity. Qed.

Lemma brush_len_pos b : 1 <= zlen (brush_bytes b) <= 17.
Proof. by destruct b. Qed.

Lemma fill_total : io_total SpiceFill_read (sized_within fill_ok fill_bytes).
Proof.
  intros data Hb Hl. unfold SpiceFill_read.
  eapply total_bind; [by apply brush_total|]. intros [b n] (Hok & Hn & Hle). simpl in *.
  pose proof (brush_len_pos b).
  destruct (Z.ltb_spec (zlen data) (n + 2 + SpiceQMask_SIZE)); [done|].
  unfold SpiceQMask_SIZE in *. repeat total_step.
  split_and!; cbn [fst snd]; [by split_and!| |lia].
  unfold fill_bytes. cbn [SpiceFill_brush SpiceFill_rop_descriptor SpiceFill_mask].
  rewrite !zlen_app, <- Hn, zlen_to_le, zlen_SpiceQMask.
  unfold SpiceQMask_SIZE. lia.
Qed.

Lemma blackness_total :
  io_total SpiceBlackness_read (fun _ v => wire_wf (SpiceBlackness_mask v)).
Proof.
  intros data Hb Hl. unfold SpiceBlackness_read.
  destruct (Z.ltb_spec (zlen data) SpiceQMask_SIZE); [done|]. unfold SpiceQMask_SIZE in *.
  by repeat total_step.
Qed.

Lemma opaque_total : io_total SpiceOpaque_read (sized_within opaque_ok opaque_bytes).
Proof.
  intros data Hb Hl. unfold SpiceOpaque_read.
  destruct (Z.ltb_spec (zlen data) 20); [done|]. total_step.
  eapply total_bind.
  { eapply with_cursor_tame with (Q := fun k => exists b t l bo r, u32 b /\ u32 t /\ u32 l /\
      u32 bo /\ u32 r /\ k = mkSpiceOpaque b t l bo r); [|done].
    wire_tame. eauto 20. }
  intros k (sb & st & sl & sbo & sr & ? & ? & ? & ? & ? & ->). total_step.
  eapply total_bind; [by apply brush_total|]. intros [b n] (Hok & Hn & Hle). simpl in Hok, Hn, Hle.
  pose proof (brush_len_pos b). cbv zeta.
  destruct (Z.ltb_spec (zlen data) (20 + n + 2 + 1 + SpiceQMask_SIZE)); [done|].
  unfold SpiceQMask_SIZE in *. total_step.
  eapply total_bind.
  { eapply with_cursor_tame with (Q := fun p => u16 (fst p) /\ u8 (snd p)); [|done].
    wire_tame. by split. }
  intros [rop sm] [Hr Hs]. repeat total_step.
  split_and!; cbn [fst snd]; [by split_and!| |lia].
  unfold opaque_bytes, opaque_head. cbn [SpiceOpaque_brush SpiceOpaque_rop_descriptor
    SpiceOpaque_scale_mode SpiceOpaque_mask].
  rewrite !zlen_app, <- Hn, !zlen_to_le, zlen_SpiceQMask. unfold SpiceQMask_SIZE. lia.
Qed.

Lemma transparent_total : io_total SpiceTransparent_read (fun _ => transparent_ok).
Proof.
  intros data Hb Hl. unfold SpiceTransparent_read. case_bool; [done|].
  eapply with_cursor_tame; [|done]. wire_tame. by split_and!.
Qed.

Lemma alpha_blend_total : io_total SpiceAlphaBlend_read (fun _ => alpha_blend_ok).
Proof.
  intros data Hb Hl. unfold SpiceAlphaBlend_read. case_bool; [done|].
  eapply with_cursor_tame; [|done]. wire_tame. by split_and!.
Qed.

(** ** Every encoding is accepted *)

Lemma decode_prefix {T} `{WireRoundTrip T} `{!WireLaws T} (v : T) : wire_wf v ->
  zlen (encode v) <= isize_max -> from_link (decode (encode v)) = Ok v.
Proof.
  intros Hv Hl. pose proof (laws_ignores_trailing v [] Hv) as Hd.
  rewrite app_nil_r in Hd. by rewrite Hd.
Qed.

Lemma index_head {A} (x : A) l : index ([x] ++ l) 0 = Some x.
Proof. done. Qed.

Lemma brush_accepts : io_accepts SpiceBrush_read brush_ok brush_bytes.
Proof.
  intros b rest Hok Hlen. unfold SpiceBrush_read.
  destruct (Z.eqb_spec (zlen (brush_bytes b ++ rest)) 0) as [E|_].
  { pose proof (brush_len_pos b). zlen_solve. }
  destruct b as [|color|off pos]; cbn [brush_bytes] in *; rewrite <- ?app_assoc;
    rewrite index_head; cbn [rlift rbind];
    cbn [Z.eqb brush_NONE brush_SOLID brush_PATTERN Pos.eqb]; [done| |].
  - destruct (Z.ltb_spec (zlen ([brush_SOLID] ++ to_le 4 color ++ rest)) (1 + 4)); [zlen_solve|].
    rewrite slice_suffix by done. cbn [rlift rbind].
    by rewrite (with_cursor_takes _ _ color) by by apply takes_u32.
  - destruct Hok as [Ho Hp].
    destruct (Z.ltb_spec (zlen ([brush_PATTERN] ++ to_le 8 off ++ encode pos ++ rest)) (1 + 16)) as [E|_].
    { rewrite !zlen_app, zlen_to_le in E. change (zlen (encode pos)) with 8 in E.
      rewrite zlen_cons, zlen_nil in E. zlen_solve. }
    rewrite slice_suffix by done. cbn [rlift rbind].
    rewrite (with_cursor_takes _ _ off) by by apply takes_u64. cbn [rlift rbind].
    rewrite (app_assoc [brush_PATTERN]), slice_at_lens by done. cbn [rlift rbind].
    by rewrite decode_prefix.
Qed.

Lemma fill_accepts : io_accepts SpiceFill_read fill_ok fill_bytes.
Proof.
  intros [b rop mask] rest (Hb & Hr & Hm) Hlen. unfold SpiceFill_read, fill_bytes in *.
  cbn [SpiceFill_brush SpiceFill_rop_descriptor SpiceFill_mask] in *.
  pose proof (brush_len_pos b). pose proof (zlen_SpiceQMask mask) as HQ.
  rewrite <- !app_assoc in *. rewrite brush_accepts by done. cbn [rlift rbind]. cbv zeta.
  assert (zlen (brush_bytes b ++ to_le 2 rop ++ encode mask ++ rest) =
    zlen (brush_bytes b) + 2 + SpiceQMask_SIZE + zlen rest) as E
    by (rewrite !zlen_app, zlen_to_le, HQ; lia).
  pose proof (zlen_nonneg rest). rewrite E, (proj2 (Z.ltb_ge _ _)) by lia.
  rewrite slice_at_lens by (rewrite ?zlen_to_le; lia). cbn [rlift rbind].
  rewrite <- (app_nil_r (to_le 2 rop)) at 1.
  rewrite (with_cursor_takes _ _ rop) by by apply takes_u16. cbn [rlift rbind].
  rewrite (app_assoc (brush_bytes b)), slice_at_lens
    by (rewrite ?zlen_app, ?zlen_to_le, ?HQ; lia). cbn [rlift rbind].
  rewrite decode_prefix by done. cbn [rlift rbind]. do 2 f_equal.
  rewrite !zlen_app, zlen_to_le, HQ. lia.
Qed.

Lemma opaque_accepts : io_accepts SpiceOpaque_read opaque_ok opaque_bytes.
Proof.
  intros [sb st sl sbo sr b rop sm mask] rest (H1 & H2 & H3 & H4 & H5 & Hb & Hr & Hs & Hm) Hlen.
  unfold SpiceOpaque_read, opaque_bytes in *.
  set (h := opaque_head _) in *. assert (zlen h = 20) as Hh by done.
  cbn [SpiceOpaque_src_bitmap SpiceOpaque_src_top SpiceOpaque_src_left SpiceOpaque_src_bottom
    SpiceOpaque_src_right SpiceOpaque_brush SpiceOpaque_rop_descriptor SpiceOpaque_scale_mode
    SpiceOpaque_mask] in *.
  pose proof (brush_len_pos b). pose proof (zlen_SpiceQMask mask) as HQ.
  pose proof (zlen_nonneg rest). set (rs := to_le 2 rop ++ to_le 1 sm) in *.
  assert (zlen rs = 3) as Hrs by done. rewrite <- !app_assoc in *.
  assert (zlen (h ++ brush_bytes b ++ rs ++ encode mask ++ rest) =
    20 + zlen (brush_bytes b) + 2 + 1 + SpiceQMask_SIZE + zlen rest) as E
    by (rewrite !zlen_app, HQ; lia).
  unfold SpiceQMask_SIZE in *. rewrite (proj2 (Z.ltb_ge _ 20)) by lia.
  rewrite slice_prefix by done. cbn [rlift rbind].
  rewrite <- (app_nil_r h) at 1.
  rewrite (with_cursor_takes _ _ (mkSpiceOpaque sb st sl sbo sr)).
  2: { unfold h, opaque_head. cbn -[app]. rewrite <- (app_nil_r (to_le 4 sr)). wire_takes. }
  cbn [rlift rbind]. rewrite slice_suffix by done. cbn [rlift rbind].
  rewrite brush_accepts by (first [done | rewrite (zlen_app h) in *; lia]). cbn [rlift rbind]. cbv zeta.
  rewrite E, (proj2 (Z.ltb_ge _ _)) by lia.
  rewrite (app_assoc h), slice_at_lens by (rewrite ?zlen_app; lia). cbn [rlift rbind].
  rewrite <- (app_nil_r rs) at 1. rewrite (with_cursor_takes _ _ (rop, sm)).
  2: { unfold rs. rewrite <- (app_nil_r (to_le 1 sm)). wire_takes. }
  cbn [rlift rbind]. rewrite (app_assoc (h ++ _)), slice_at_lens by (rewrite ?zlen_app; lia).
  cbn [rlift rbind]. rewrite decode_prefix by done. cbn [rlift rbind]. do 2 f_equal.
  rewrite !zlen_app, HQ. lia.
Qed.

Lemma blackness_accepts (mask : SpiceQMask) rest : wire_wf mask ->
  SpiceBlackness_read (encode mask ++ rest) = Ok (mkSpiceBlackness mask).
Proof.
  intros Hm. unfold SpiceBlackness_read. rewrite zlen_app, zlen_SpiceQMask.
  pose proof (zlen_nonneg rest). rewrite (proj2 (Z.ltb_ge _ _)) by lia.
  rewrite slice_prefix by done. cbn [rlift rbind]. by rewrite decode_prefix.
Qed.

Lemma transparent_accepts t rest : transparent_ok t ->
  SpiceTransparent_read (transparent_bytes t ++ rest) = Ok t.
Proof.
  destruct t. intros Ht. unfold SpiceTransparent_read.
  rewrite zlen_app, (proj2 (Z.ltb_ge _ _))
    by (change (zlen (transparent_bytes _)) with SpiceTransparent_SIZE;
        pose proof (zlen_nonneg rest); lia).
  apply with_cursor_takes. destruct Ht as (?&?&?&?&?&?&?). unfold transparent_bytes.
  cbn -[app] in *. rewrite <- (app_nil_r (to_le 4 SpiceTransparent_true_color0)). wire_takes.
Qed.

Lemma alpha_blend_accepts a rest : alpha_blend_ok a ->
  SpiceAlphaBlend_read (alpha_blend_bytes a ++ rest) = Ok a.
Proof.
  destruct a. intros Ht. unfold SpiceAlphaBlend_read.
  rewrite zlen_app, (proj2 (Z.ltb_ge _ _))
    by (change (zlen (alpha_blend_bytes _)) with SpiceAlphaBlend_SIZE;
        pose proof (zlen_nonneg rest); lia).
  apply with_cursor_takes. destruct Ht as (?&?&?&?&?&?&?). unfold alpha_blend_bytes.
  cbn -[app] in *. rewrite <- (app_nil_r (to_le 4 SpiceAlphaBlend_src_right0)). wire_takes.
Qed.

(** * Properties *)

(** On any byte string the draw-body parsers return a value or an error,
    never a panic; the fields of what they accept are in range, and for the
    variable-length bodies the byte count they report is the length of that
    value's wire form and lies within the slice. *)
Theorem draw_ops_never_panic :
  io_total SpiceBrush_read (sized_within brush_ok brush_bytes) /\
  io_total SpiceFill_read (sized_within fill_ok fill_bytes) /\
  io_total SpiceOpaque_read (sized_within opaque_ok opaque_bytes) /\
  io_total SpiceBlackness_read (fun _ v => wire_wf (SpiceBlackness_mask v)) /\
  io_total SpiceTransparent_read (fun _ => transparent_ok) /\
  io_total SpiceAlphaBlend_read (fun _ => alpha_blend_ok).
Proof.
  eauto 7 using brush_total, fill_total, opaque_total, blackness_total, transparent_total,
    alpha_blend_total.
Qed.

(** Every well-formed draw body is accepted: from its wire bytes followed by
    anything at all, each parser returns exactly that value, and the
    variable-length ones report exactly its length. *)
Theorem draw_ops_accept_encodings :
  io_accepts SpiceBrush_read brush_ok brush_bytes /\
  io_accepts SpiceFill_read fill_ok fill_bytes /\
  io_accepts SpiceOpaque_read opaque_ok opaque_bytes /\
  (forall (mask : SpiceQMask) rest, wire_wf mask ->
    SpiceBlackness_read (encode mask ++ rest) = Ok (mkSpiceBlackness mask)) /\
  (forall t rest, transparent_ok t ->
    SpiceTransparent_read (transparent_bytes t ++ rest) = Ok t) /\
  (forall a rest, alpha_blend_ok a ->
    SpiceAlphaBlend_read (alpha_blend_bytes a ++ rest) = Ok a).
Proof.
  split_and!; [apply brush_accepts|apply fill_accepts|apply opaque_accepts|
    apply blackness_accepts|apply transparent_accepts|apply alpha_blend_accepts].
Qed.

Example fill_example :
  SpiceFill_read ([1; 4; 3; 2; 1] ++ [8; 0] ++ [0; 1; 0; 0; 0; 2; 0; 0; 0; 0; 0; 0; 0] ++ [9])
  = Ok (mkSpiceFill (Brush_Solid 16909060) 8 (mkSpiceQMask 0 (mkSpicePoint 1 2) 0), 20).
Proof. reflexivity. Qed.
