(* ===== verification/MsgDrawCopy.v ===== *)
(** Images and DRAW_COPY:
    [shakenfist-spice-protocol/src/messages/display.rs] ([ImageDescriptor] to
    [patch_u32]) and [ImageType] of [constants.rs].

    A DRAW_COPY body points at its images by offset.  The reader resolves the
    offsets into sub-readers and the writer lays the images out and patches the
    pointers, so this is the one message whose encoding is not a straight line
    of fields: the writer's law and the round trip are proved here by hand. *)
From Stdlib Require Import ZArith Lia String.
From stdpp Require Import base numbers list tactics.
From S2P Require Import Prelude Reader Wire MsgDisplay MsgDrawOps.

Open Scope Z_scope.
Open Scope rust_scope.

(** * Image types *)

Inductive ImageType : Type :=
| Image_Pixmap | Image_Quic | Image_LzPalette | Image_LzRgb | Image_GlzRgb
| Image_FromCache | Image_Surface | Image_Jpeg | Image_FromCacheLossless
| Image_ZlibGlzRgb | Image_JpegAlpha | Image_Lz4.

Definition ImageType_from_u8 (value : Z) : option ImageType :=
  match value with
  | 0 => Some Image_Pixmap
  | 1 => Some Image_Quic
  | 100 => Some Image_LzPalette
  | 101 => Some Image_LzRgb
  | 102 => Some Image_GlzRgb
  | 103 => Some Image_FromCache
  | 104 => Some Image_Surface
  | 105 => Some Image_Jpeg
  | 106 => Some Image_FromCacheLossless
  | 107 => Some Image_ZlibGlzRgb
  | 108 => Some Image_JpegAlpha
  | 109 => Some Image_Lz4
  | _ => None
  end.

Record ImageDescriptor : Type := mkImageDescriptor {
  ImageDescriptor_image_id : Z;
  ImageDescriptor_image_type : Z;
  ImageDescriptor_flags : Z;
  ImageDescriptor_width : Z;
  ImageDescriptor_height : Z
}.

Definition ImageDescriptor_read : Rd ImageDescriptor :=
  let? image_id := read_u64 in
  let? image_type := read_u8 in
  let? flags := read_u8 in
  let? width := read_u32 in
  let? height := read_u32 in
  ret (mkImageDescriptor image_id image_type flags width height).

Definition ImageDescriptor_write (self : ImageDescriptor) (out : list Z) : list Z :=
  out <+ to_le 8 (ImageDescriptor_image_id self)
    <+ [ImageDescriptor_image_type self]
    <+ [ImageDescriptor_flags self]
    <+ to_le 4 (ImageDescriptor_width self)
    <+ to_le 4 (ImageDescriptor_height self).

#[export] Instance ImageDescriptor_wire : WireType ImageDescriptor := {| read := ImageDescriptor_read; write := ImageDescriptor_write |}.
#[export] Instance ImageDescriptor_wf : WireWf ImageDescriptor := fun v =>
  u64 (ImageDescriptor_image_id v) /\
  u8 (ImageDescriptor_image_type v) /\
  u8 (ImageDescriptor_flags v) /\
  u32 (ImageDescriptor_width v) /\
  u32 (ImageDescriptor_height v).
#[export] Instance ImageDescriptor_laws : WireLaws ImageDescriptor.
Proof. wire_laws. Qed.
#[export] Instance ImageDescriptor_rt : WireRoundTrip ImageDescriptor.
Proof. wire_rt. Qed.

(** * Bitmaps *)

Inductive BitmapPalette : Type :=
| Palette_None
| Palette_Offset (offset : Z)
| Palette_FromCache (id : Z).

Record BitmapHeader : Type := mkBitmapHeader {
  BitmapHeader_format : Z;
  BitmapHeader_flags : Z;
  BitmapHeader_x : Z;
  BitmapHeader_y : Z;
  BitmapHeader_stride : Z;
  BitmapHeader_palette : BitmapPalette
}.

Definition bitmap_flags_PAL_FROM_CACHE : Z := 2.

Definition pal_from_cache (flags : Z) : bool :=
  negb (Z.land flags bitmap_flags_PAL_FROM_CACHE =? 0).

Definition BitmapHeader_data_len (self : BitmapHeader) : option Z :=
  checked_mul (BitmapHeader_stride self) (BitmapHeader_y self).

Definition BitmapHeader_read : Rd BitmapHeader :=
  let? format := read_u8 in
  let? flags := read_u8 in
  let? x := read_u32 in
  let? y := read_u32 in
  let? stride := read_u32 in
  let? palette :=
    (if pal_from_cache flags then
       let? id := read_u64 in
       ret (Palette_FromCache id)
     else
       let? offset := read_u32 in
       ret (if offset =? 0 then Palette_None else Palette_Offset offset)) in
  ret (mkBitmapHeader format flags x y stride palette).

(** What the writer's [debug_assert_eq!] demands: where assertions are compiled
    in, [write] panics if it is false.  The writers' bytes below are those of
    every value that passes. *)
Definition BitmapHeader_write_asserts (self : BitmapHeader) : bool :=
  Bool.eqb (pal_from_cache (BitmapHeader_flags self))
    match BitmapHeader_palette self with Palette_FromCache _ => true | _ => false end.

Definition BitmapHeader_write (self : BitmapHeader) (out : list Z) : list Z :=
  let out := out <+ [BitmapHeader_format self] <+ [BitmapHeader_flags self]
    <+ to_le 4 (BitmapHeader_x self) <+ to_le 4 (BitmapHeader_y self)
    <+ to_le 4 (BitmapHeader_stride self) in
  match BitmapHeader_palette self with
  | Palette_None => out <+ to_le 4 0
  | Palette_Offset offset => out <+ to_le 4 offset
  | Palette_FromCache id => out <+ to_le 8 id
  end.

#[export] Instance BitmapHeader_wire : WireType BitmapHeader :=
  {| read := BitmapHeader_read; write := BitmapHeader_write |}.

(** The palette agrees with the flag, as the writer's [debug_assert] demands,
    and is never [Offset(0)]. *)
Definition palette_ok (flags : Z) (p : BitmapPalette) : Prop :=
  match p with
  | Palette_None => pal_from_cache flags = false
  | Palette_Offset offset => pal_from_cache flags = false /\ u32 offset /\ offset <> 0
  | Palette_FromCache id => pal_from_cache flags = true /\ u64 id
  end.

#[export] Instance BitmapHeader_wf : WireWf BitmapHeader := fun v =>
  u8 (BitmapHeader_format v) /\ u8 (BitmapHeader_flags v) /\
  u32 (BitmapHeader_x v) /\ u32 (BitmapHeader_y v) /\ u32 (BitmapHeader_stride v) /\
  palette_ok (BitmapHeader_flags v) (BitmapHeader_palette v).

Lemma safe_palette flags :
  safe (if pal_from_cache flags then let? id := read_u64 in ret (Palette_FromCache id)
        else let? offset := read_u32 in
             ret (if offset =? 0 then Palette_None else Palette_Offset offset))
       (palette_ok flags).
Proof.
  destruct (pal_from_cache flags) eqn:E; wire_safe; [by split|].
  case_bool; by split_and?.
Qed.
#[export] Hint Resolve safe_palette : wire.

#[export] Instance BitmapHeader_laws : WireLaws BitmapHeader.
Proof.
  wire_open; [|wire_read_safe]. intros v out. unfold BitmapHeader_write.
  destruct (BitmapHeader_palette v); wire_norm; reflexivity.
Qed.

#[export] Instance BitmapHeader_rt : WireRoundTrip BitmapHeader.
Proof.
  wire_open. intros [f fl x y st p] (Hf & Hfl & Hx & Hy & Hst & Hp).
  unfold BitmapHeader_read, BitmapHeader_write.
  cbn [BitmapHeader_format BitmapHeader_flags BitmapHeader_x BitmapHeader_y
    BitmapHeader_stride BitmapHeader_palette] in *.
  destruct p as [|off|id]; cbn [palette_ok] in Hp; wire_norm;
    do 2 (eapply reads_bind; [apply reads_u8|cbv beta]);
    do 3 (eapply reads_bind; [by apply reads_u32|cbv beta]).
  - rewrite Hp. apply (reads_bind_ret _ (mkBitmapHeader f fl x y st)).
    rewrite <- (app_nil_r (to_le 4 0)). eapply reads_bind; [by apply reads_u32|apply reads_ret].
  - destruct Hp as (-> & Ho & Hn). apply (reads_bind_ret _ (mkBitmapHeader f fl x y st)).
    rewrite <- (app_nil_r (to_le 4 off)). eapply reads_bind; [by apply reads_u32|].
    rewrite (proj2 (Z.eqb_neq _ _)) by done. apply reads_ret.
  - destruct Hp as (-> & Hi). apply (reads_bind_ret _ (mkBitmapHeader f fl x y st)).
    by apply (reads_bind_ret read_u64 Palette_FromCache), reads_u64.
Qed.

Record BitmapPayload : Type := mkBitmapPayload {
  BitmapPayload_header : BitmapHeader;
  BitmapPayload_data : list Z
}.

Definition BitmapPayload_read : Rd BitmapPayload :=
  let? header := read (T := BitmapHeader) in
  let? max := remaining in
  let? len :=
    (match BitmapHeader_data_len header with
     | Some len => ret len
     | None => throw (TooLarge "bitmap data" usize_max max)
     end) in
  let? data := read_bytes len in
  ret (mkBitmapPayload header data).

(** The writer's assertion and those of the header's writer, which it calls. *)
Definition BitmapPayload_write_asserts (self : BitmapPayload) : bool :=
  bool_decide (Some (zlen (BitmapPayload_data self)) =
    BitmapHeader_data_len (BitmapPayload_header self)) &&
  BitmapHeader_write_asserts (BitmapPayload_header self).

Definition BitmapPayload_write (self : BitmapPayload) (out : list Z) : list Z :=
  let out := write (BitmapPayload_header self) out in
  out <+ BitmapPayload_data self.

#[export] Instance BitmapPayload_wire : WireType BitmapPayload :=
  {| read := BitmapPayload_read; write := BitmapPayload_write |}.

(** The pixel data is [stride * y] bytes, as the writer's [debug_assert]
    demands. *)
#[export] Instance BitmapPayload_wf : WireWf BitmapPayload := fun v =>
  wire_wf (BitmapPayload_header v) /\ bytes (BitmapPayload_data v) /\
  BitmapHeader_data_len (BitmapPayload_header v) = Some (zlen (BitmapPayload_data v)).

#[export] Instance BitmapPayload_laws : WireLaws BitmapPayload.
Proof.
  wire_open; [wire_write_app|]. unfold BitmapPayload_read.
  eapply safe_bind; [apply read_safe|intros h Hh].
  eapply safe_bind; [apply safe_remaining|intros mx _].
  eapply safe_bind with (P := fun n => BitmapHeader_data_len h = Some n /\ 0 <= n).
  - destruct (BitmapHeader_data_len h) as [n|] eqn:E; [|apply safe_throw].
    apply safe_ret. split; [done|]. unfold BitmapHeader_data_len, checked_mul in E.
    destruct Hh as (_ & _ & _ & [? _] & [? _] & _). case_bool; simplify_eq. nia.
  - intros n [Hn Hp]. eapply safe_bind; [by apply safe_read_bytes|].
    intros s [Hl Hs]. apply safe_ret. split_and!; [done|done|]. cbn. by rewrite Hl.
Qed.

(** A check that reads nothing. *)
Lemma reads_remaining {A} (k : Z -> Rd A) bs a :
  (forall n, reads (k n) bs a) -> reads (let? n := remaining in k n) bs a.
Proof.
  intros Hk pre post Hlen. unfold bind. rewrite remaining_eq by (simpl; zlen_solve).
  by apply Hk.
Qed.

#[export] Instance BitmapPayload_rt : WireRoundTrip BitmapPayload.
Proof.
  wire_open. intros [h d] (Hh & Hb & Hl).
  unfold BitmapPayload_read, BitmapPayload_write.
  cbn [BitmapPayload_header BitmapPayload_data] in *. wire_norm.
  eapply reads_bind; [by apply reads_back|cbv beta]. apply reads_remaining. intros mx.
  rewrite Hl. rewrite <- (app_nil_l d). eapply reads_bind; [apply reads_ret|cbv beta].
  by apply (reads_bind_ret _ (mkBitmapPayload h)), reads_bytes.
Qed.

(** * Images *)

Inductive ImagePayload : Type :=
| Payload_Bitmap (bitmap : BitmapPayload)
| Payload_Jpeg (jpeg : BinaryData)
| Payload_Lz4 (lz4 : BinaryData)
| Payload_FromCache
| Payload_Other (data : list Z).

Definition ImagePayload_matches_type (self : ImagePayload) (image_type : Z) : bool :=
  match ImageType_from_u8 image_type with
  | Some Image_Pixmap => match self with Payload_Bitmap _ => true | _ => false end
  | Some Image_Jpeg => match self with Payload_Jpeg _ => true | _ => false end
  | Some Image_Lz4 => match self with Payload_Lz4 _ => true | _ => false end
  | Some (Image_FromCache | Image_FromCacheLossless) =>
      match self with Payload_FromCache => true | _ => false end
  | _ => match self with Payload_Other _ => true | _ => false end
  end.

Record SpiceImage : Type := mkSpiceImage {
  SpiceImage_descriptor : ImageDescriptor;
  SpiceImage_payload : ImagePayload
}.

Definition ImagePayload_read (image_type : Z) : Rd ImagePayload :=
  match ImageType_from_u8 image_type with
  | Some Image_Pixmap => let? b := read in ret (Payload_Bitmap b)
  | Some Image_Jpeg => let? b := read in ret (Payload_Jpeg b)
  | Some Image_Lz4 => let? b := read in ret (Payload_Lz4 b)
  | Some (Image_FromCache | Image_FromCacheLossless) => ret Payload_FromCache
  | _ => let? data := read_rest in ret (Payload_Other data)
  end.

Definition SpiceImage_read : Rd SpiceImage :=
  let? descriptor := read (T := ImageDescriptor) in
  let? payload := ImagePayload_read (ImageDescriptor_image_type descriptor) in
  ret (mkSpiceImage descriptor payload).

Definition SpiceImage_write_asserts (self : SpiceImage) : bool :=
  ImagePayload_matches_type (SpiceImage_payload self)
    (ImageDescriptor_image_type (SpiceImage_descriptor self)) &&
  match SpiceImage_payload self with
  | Payload_Bitmap bitmap => BitmapPayload_write_asserts bitmap
  | _ => true
  end.

Definition SpiceImage_write (self : SpiceImage) (out : list Z) : list Z :=
  let out := write (SpiceImage_descriptor self) out in
  match SpiceImage_payload self with
  | Payload_Bitmap bitmap => write bitmap out
  | Payload_Jpeg jpeg => write jpeg out
  | Payload_Lz4 lz4 => write lz4 out
  | Payload_FromCache => out
  | Payload_Other data => out <+ data
  end.

#[export] Instance SpiceImage_wire : WireType SpiceImage :=
  {| read := SpiceImage_read; write := SpiceImage_write |}.

Definition payload_ok (p : ImagePayload) : Prop :=
  match p with
  | Payload_Bitmap b => wire_wf b
  | Payload_Jpeg b => wire_wf b
  | Payload_Lz4 b => wire_wf b
  | Payload_FromCache => True
  | Payload_Other data => bytes data
  end.

(** The payload is the one the descriptor's type selects. *)
#[export] Instance SpiceImage_wf : WireWf SpiceImage := fun v =>
  wire_wf (SpiceImage_descriptor v) /\ payload_ok (SpiceImage_payload v) /\
  ImagePayload_matches_type (SpiceImage_payload v)
    (ImageDescriptor_image_type (SpiceImage_descriptor v)) = true.

Lemma safe_payload t :
  safe (ImagePayload_read t)
    (fun p => payload_ok p /\ ImagePayload_matches_type p t = true).
Proof.
  unfold ImagePayload_read, ImagePayload_matches_type.
  destruct (ImageType_from_u8 t) as [[]|]; wire_safe; by split.
Qed.
#[export] Hint Resolve safe_payload : wire.

#[export] Instance SpiceImage_laws : WireLaws SpiceImage.
Proof.
  wire_open.
  - intros v out. unfold SpiceImage_write.
    destruct (SpiceImage_payload v); wire_norm; reflexivity.
  - unfold SpiceImage_read. wire_safe. destruct_and?. by split_and!.
Qed.

Definition payload_bytes (p : ImagePayload) : list Z :=
  match p with
  | Payload_Bitmap b => encode b
  | Payload_Jpeg b => encode b
  | Payload_Lz4 b => encode b
  | Payload_FromCache => []
  | Payload_Other data => data
  end.

Lemma reads_end_payload t p : payload_ok p -> ImagePayload_matches_type p t = true ->
  reads_end (ImagePayload_read t) (payload_bytes p) p.
Proof.
  unfold ImagePayload_read, ImagePayload_matches_type. intros Hp Hm.
  destruct (ImageType_from_u8 t) as [[]|], p; try done; cbn [payload_bytes payload_ok] in *.
  all: first [ by apply (reads_end_bind_ret read Payload_Bitmap), reads_end_back
             | by apply (reads_end_bind_ret read Payload_Jpeg), reads_end_back
             | by apply (reads_end_bind_ret read Payload_Lz4), reads_end_back
             | by apply (reads_end_bind_ret read_rest Payload_Other), reads_end_rest
             | apply reads_end_ret ].
Qed.

Lemma SpiceImage_encode v :
  encode v = encode (SpiceImage_descriptor v) ++ payload_bytes (SpiceImage_payload v).
Proof.
  destruct v as [d p].
  change (encode (mkSpiceImage d p)) with (SpiceImage_write (mkSpiceImage d p) []).
  unfold SpiceImage_write. cbn [SpiceImage_descriptor SpiceImage_payload].
  change (write d []) with (encode d).
  destruct p; cbn [payload_bytes]; rewrite ?write_app, ?app_nil_r; reflexivity.
Qed.

#[export] Instance SpiceImage_rt : WireRoundTripEnd SpiceImage.
Proof.
  intros v (Hd & Hp & Hm). rewrite SpiceImage_encode. destruct v as [d p]. cbn in Hd, Hp, Hm.
  change (read (T := SpiceImage)) with SpiceImage_read. unfold SpiceImage_read.
  cbn [SpiceImage_descriptor SpiceImage_payload].
  eapply reads_bind_end; [by apply reads_back|cbv beta].
  by apply (reads_end_bind_ret _ (mkSpiceImage d)), reads_end_payload.
Qed.

(** An image is never empty on the wire. *)
Lemma zlen_SpiceImage v : 18 <= zlen (encode (T := SpiceImage) v).
Proof.
  rewrite SpiceImage_encode, zlen_app.
  change (zlen (encode (SpiceImage_descriptor v))) with 18.
  pose proof (zlen_nonneg (payload_bytes (SpiceImage_payload v))). lia.
Qed.

Record SpiceCopy : Type := mkSpiceCopy {
  SpiceCopy_src_bitmap : Z;
  SpiceCopy_src_area : Rect;
  SpiceCopy_rop_descriptor : Z;
  SpiceCopy_scale_mode : Z;
  SpiceCopy_mask : SpiceQMask
}.

Definition SpiceCopy_read : Rd SpiceCopy :=
  let? src_bitmap := read_u32 in
  let? src_area := read in
  let? rop_descriptor := read_u16 in
  let? scale_mode := read_u8 in
  let? mask := read in
  ret (mkSpiceCopy src_bitmap src_area rop_descriptor scale_mode mask).

Definition SpiceCopy_write (self : SpiceCopy) (out : list Z) : list Z :=
  let out := out <+ to_le 4 (SpiceCopy_src_bitmap self) in
  let out := write (SpiceCopy_src_area self) out in
  let out := out <+ to_le 2 (SpiceCopy_rop_descriptor self) in
  let out := out <+ [SpiceCopy_scale_mode self] in
  let out := write (SpiceCopy_mask self) out in
  out.

#[export] Instance SpiceCopy_wire : WireType SpiceCopy := {| read := SpiceCopy_read; write := SpiceCopy_write |}.
#[export] Instance SpiceCopy_wf : WireWf SpiceCopy := fun v =>
  u32 (SpiceCopy_src_bitmap v) /\
  wire_wf (SpiceCopy_src_area v) /\
  u16 (SpiceCopy_rop_descriptor v) /\
  u8 (SpiceCopy_scale_mode v) /\
  wire_wf (SpiceCopy_mask v).
#[export] Instance SpiceCopy_laws : WireLaws SpiceCopy.
Proof. wire_laws. Qed.
#[export] Instance SpiceCopy_rt : WireRoundTrip SpiceCopy.
Proof. wire_rt. Qed.

Definition SpiceCopy_SIZE : Z := 4 + Rect_SIZE + 2 + 1 + SpiceQMask_SIZE.

(** * Image pointers *)

(** [Iterator::min]. *)
Definition iter_min (l : list Z) : option Z :=
  match l with
  | [] => None
  | x :: l => Some (foldl Z.min x l)
  end.

Definition pointee (body : list Z) (fixed_len offset : Z) (pointers : list Z)
  : result LinkError (option BoundedReader) :=
  if offset =? 0 then Ok None
  else if offset <? fixed_len then Err (PointerIntoFixedPart offset fixed_len)
  else
    let e := Z.min (default (zlen body) (iter_min (filter (fun p => offset < p) pointers)))
                   (zlen body) in
    let len := saturating_sub e offset in
    rmap Some (fst (sub_reader offset len (reader_new body))).

Definition SpiceCopy_pointers (self : SpiceCopy) : list Z :=
  [SpiceCopy_src_bitmap self; SpiceQMask_bitmap_offset (SpiceCopy_mask self)].

Definition SpiceCopy_src_bitmap_reader (self : SpiceCopy) (body : list Z) (fixed_len : Z) :=
  pointee body fixed_len (SpiceCopy_src_bitmap self) (SpiceCopy_pointers self).

Definition SpiceCopy_mask_bitmap_reader (self : SpiceCopy) (body : list Z) (fixed_len : Z) :=
  pointee body fixed_len (SpiceQMask_bitmap_offset (SpiceCopy_mask self))
    (SpiceCopy_pointers self).

Definition has_palette_pointer (image : SpiceImage) : bool :=
  match SpiceImage_payload image with
  | Payload_Bitmap bitmap =>
      match BitmapHeader_palette (BitmapPayload_header bitmap) with
      | Palette_Offset _ => true
      | _ => false
      end
  | _ => false
  end.

Definition read_pointee (region : option BoundedReader) (offset : Z)
  : result LinkError (option (SpiceImage * Z)) :=
  match region with
  | None => Ok None
  | Some region =>
      let (image, region) := read (T := SpiceImage) region in
      let! image := image in
      if has_palette_pointer image then Err (Unsupported "bitmap palette pointer")
      else
        let! pos := fst (position region) in
        let! e := rlift (checked_add offset pos) in
        Ok (Some (image, e))
  end.

(** * DRAW_COPY *)

Record QMask : Type := mkQMask {
  QMask_flags : Z;
  QMask_pos : SpicePoint;
  QMask_bitmap : option SpiceImage
}.

Record DrawCopy : Type := mkDrawCopy {
  DrawCopy_base : DrawBase;
  DrawCopy_src_bitmap : option SpiceImage;
  DrawCopy_src_area : Rect;
  DrawCopy_rop_descriptor : Z;
  DrawCopy_scale_mode : Z;
  DrawCopy_mask : QMask
}.

(** A sub-computation's [Result] under [?]. *)
Definition lift {E St A} (m : result E A) : M E St A := fun s => (m, s).

(** Everything after the body has been taken as one slice. *)
Definition DrawCopy_resolve (body : list Z) : Rd DrawCopy :=
  let? base := read (T := DrawBase) in
  let? copy := read (T := SpiceCopy) in
  let? fixed_len := position in
  let? src_region := lift (SpiceCopy_src_bitmap_reader copy body fixed_len) in
  let? src := lift (read_pointee src_region (SpiceCopy_src_bitmap copy)) in
  let? mask_region := lift (SpiceCopy_mask_bitmap_reader copy body fixed_len) in
  let? mask :=
    lift (read_pointee mask_region (SpiceQMask_bitmap_offset (SpiceCopy_mask copy))) in
  let e := foldl Z.max fixed_len (omap (fmap snd) [src; mask]) in
  let? n := unwrap (checked_sub e fixed_len) in
  do? read_bytes n in
  ret (mkDrawCopy base (fst <$> src) (SpiceCopy_src_area copy)
         (SpiceCopy_rop_descriptor copy) (SpiceCopy_scale_mode copy)
         (mkQMask (SpiceQMask_flags (SpiceCopy_mask copy))
            (SpiceQMask_pos (SpiceCopy_mask copy)) (fst <$> mask))).

Definition DrawCopy_read : Rd DrawCopy :=
  let? pos := position in
  let? rem := remaining in
  let? whole := unwrap (checked_add pos rem) in
  let? body := slice_at 0 whole in
  DrawCopy_resolve body.

(** ** The writer *)

Record DrawCopyBuilder : Type := mkDrawCopyBuilder {
  builder_base : DrawBase;
  builder_src_bitmap : option SpiceImage;
  builder_src_area : Rect;
  builder_rop_descriptor : Z;
  builder_scale_mode : Z;
  builder_mask_flags : Z;
  builder_mask_pos : SpicePoint;
  builder_mask_bitmap : option SpiceImage
}.

Definition ropd_OP_PUT : Z := Z.shiftl 1 3.
Definition image_scale_mode_INTERPOLATE : Z := 0.

Definition DrawCopyBuilder_new (base : DrawBase) (src_bitmap : SpiceImage) (src_area : Rect)
  : DrawCopyBuilder :=
  mkDrawCopyBuilder base (Some src_bitmap) src_area ropd_OP_PUT
    image_scale_mode_INTERPOLATE 0 (mkSpicePoint 0 0) None.

Definition append_pointee (out : list Z) (start : Z) (image : option SpiceImage)
  : list Z * Z :=
  match image with
  | None => (out, 0)
  | Some image =>
      let offset := as_unsigned 32 (zlen out - start) in
      (write image out, offset)
  end.

(** [None] is the panic of [out[at..at + 4]]. *)
Definition patch_u32 (out : list Z) (at' value : Z) : option (list Z) :=
  if (0 <=? at') && (at' + 4 <=? zlen out)
  then Some (take (Z.to_nat at') out ++ to_le 4 value ++ drop (Z.to_nat (at' + 4)) out)
  else None.

Definition DrawCopyBuilder_write (self : DrawCopyBuilder) (out : list Z) : option (list Z) :=
  let start := zlen out in
  let out := write (builder_base self) out in
  let copy_at := zlen out in
  let out := write
    (mkSpiceCopy 0 (builder_src_area self) (builder_rop_descriptor self)
       (builder_scale_mode self)
       (mkSpiceQMask (builder_mask_flags self) (builder_mask_pos self) 0)) out in
  let (out, src_bitmap) := append_pointee out start (builder_src_bitmap self) in
  let (out, mask_bitmap) := append_pointee out start (builder_mask_bitmap self) in
  out ← patch_u32 out copy_at src_bitmap;
  patch_u32 out (copy_at + SpiceCopy_SIZE - 4) mask_bitmap.

(** The assertions of the writers it calls: the clip's and the images'. *)
Definition Clip_write_asserts (self : Clip) : bool :=
  (Clip_clip_type self =? clip_type_RECTS) || bool_decide (Clip_rects self = []).

Definition DrawCopyBuilder_write_asserts (self : DrawCopyBuilder) : bool :=
  let image_asserts o :=
    match o with Some image => SpiceImage_write_asserts image | None => true end in
  Clip_write_asserts (DrawBase_clip (builder_base self)) &&
  image_asserts (builder_src_bitmap self) && image_asserts (builder_mask_bitmap self).

Definition DrawCopyBuilder_build (self : DrawCopyBuilder) : option (list Z) :=
  DrawCopyBuilder_write self [].

Definition DrawCopy_builder (self : DrawCopy) : DrawCopyBuilder :=
  mkDrawCopyBuilder (DrawCopy_base self) (DrawCopy_src_bitmap self)
    (DrawCopy_src_area self) (DrawCopy_rop_descriptor self) (DrawCopy_scale_mode self)
    (QMask_flags (DrawCopy_mask self)) (QMask_pos (DrawCopy_mask self))
    (QMask_bitmap (DrawCopy_mask self)).

(** The builder never panics ([builder_write_eq] below), so the trait's writer
    keeps only its result. *)
Definition DrawCopy_write (self : DrawCopy) (out : list Z) : list Z :=
  default out (DrawCopyBuilder_write (DrawCopy_builder self) out).

#[export] Instance DrawCopy_wire : WireType DrawCopy :=
  {| read := DrawCopy_read; write := DrawCopy_write |}.

(** Images are well formed and have no palette pointer. *)
Definition image_ok (o : option SpiceImage) : Prop :=
  match o with
  | None => True
  | Some image => wire_wf image /\ has_palette_pointer image = false
  end.

#[export] Instance DrawCopy_wf : WireWf DrawCopy := fun v =>
  wire_wf (DrawCopy_base v) /\ image_ok (DrawCopy_src_bitmap v) /\
  wire_wf (DrawCopy_src_area v) /\ u16 (DrawCopy_rop_descriptor v) /\
  u8 (DrawCopy_scale_mode v) /\ u8 (QMask_flags (DrawCopy_mask v)) /\
  wire_wf (QMask_pos (DrawCopy_mask v)) /\ image_ok (QMask_bitmap (DrawCopy_mask v)).

(** ** The writers' assertions hold on well-formed values *)

Lemma bitmap_asserts_ok (v : BitmapPayload) : wire_wf v -> BitmapPayload_write_asserts v = true.
Proof.
  intros (Hh & _ & Hl). unfold BitmapPayload_write_asserts. rewrite Hl, bool_decide_true by done.
  destruct Hh as (_ & _ & _ & _ & _ & Hp). unfold BitmapHeader_write_asserts.
  destruct (BitmapHeader_palette _); cbn in Hp; destruct_and?;
    by match goal with H : pal_from_cache _ = _ |- _ => rewrite H end.
Qed.

Lemma image_asserts_ok (v : SpiceImage) : wire_wf v -> SpiceImage_write_asserts v = true.
Proof.
  intros (_ & Hp & Hm). unfold SpiceImage_write_asserts. rewrite Hm. cbn [andb].
  destruct (SpiceImage_payload v); try done. by apply bitmap_asserts_ok.
Qed.

Lemma draw_copy_asserts_ok (v : DrawCopy) : wire_wf v ->
  DrawCopyBuilder_write_asserts (DrawCopy_builder v) = true.
Proof.
  intros ((_ & _ & _ & Hc) & Hs & _ & _ & _ & _ & _ & Hm).
  unfold DrawCopyBuilder_write_asserts, DrawCopy_builder, Clip_write_asserts.
  cbn [builder_base builder_src_bitmap builder_mask_bitmap].
  destruct (DrawCopy_src_bitmap v) as [i|], (QMask_bitmap (DrawCopy_mask v)) as [j|];
    cbn in Hs, Hm; destruct_and?; rewrite ?image_asserts_ok by done; rewrite ?andb_true_r;
    (destruct (_ =? _); [done|by rewrite bool_decide_true]).
Qed.

(** * What the writer produces *)

Definition image_bytes (o : option SpiceImage) : list Z :=
  match o with None => [] | Some image => encode image end.

(** Where an image ends up, given the length of what precedes it. *)
Definition image_offset (before : Z) (o : option SpiceImage) : Z :=
  match o with None => 0 | Some _ => as_unsigned 32 before end.

Definition builder_fixed_len (b : DrawCopyBuilder) : Z :=
  zlen (encode (builder_base b)) + SpiceCopy_SIZE.

(** The fixed fields with the pointers the writer patches in. *)
Definition builder_copy (b : DrawCopyBuilder) : SpiceCopy :=
  let fixed_len := builder_fixed_len b in
  mkSpiceCopy (image_offset fixed_len (builder_src_bitmap b))
    (builder_src_area b) (builder_rop_descriptor b) (builder_scale_mode b)
    (mkSpiceQMask (builder_mask_flags b) (builder_mask_pos b)
       (image_offset (fixed_len + zlen (image_bytes (builder_src_bitmap b)))
          (builder_mask_bitmap b))).

Definition builder_layout (b : DrawCopyBuilder) : list Z :=
  encode (builder_base b) ++ encode (builder_copy b) ++
  image_bytes (builder_src_bitmap b) ++ image_bytes (builder_mask_bitmap b).

(** The fields of a [SpiceCopy] between its two pointers. *)
Definition copy_middle (area : Rect) (rop mode flags : Z) (pos : SpicePoint) : list Z :=
  encode area ++ to_le 2 rop ++ [mode] ++ [flags] ++ encode pos.

Lemma SpiceCopy_encode s area rop mode flags pos m :
  encode (mkSpiceCopy s area rop mode (mkSpiceQMask flags pos m)) =
  to_le 4 s ++ copy_middle area rop mode flags pos ++ to_le 4 m.
Proof. reflexivity. Qed.

Lemma zlen_SpiceCopy v : zlen (encode (T := SpiceCopy) v) = SpiceCopy_SIZE.
Proof. reflexivity. Qed.

Lemma append_pointee_eq out start o :
  append_pointee out start o = (out ++ image_bytes o, image_offset (zlen out - start) o).
Proof.
  destruct o; cbn [append_pointee image_bytes image_offset];
    [by rewrite write_app|by rewrite app_nil_r].
Qed.

Lemma patch_u32_eq pre mid post v a :
  a = zlen pre -> zlen mid = 4 ->
  patch_u32 (pre ++ mid ++ post) a v = Some (pre ++ to_le 4 v ++ post).
Proof.
  intros -> Hm. unfold patch_u32. pose proof (zlen_nonneg pre). pose proof (zlen_nonneg post).
  rewrite !zlen_app, !(proj2 (Z.leb_le _ _)) by lia. simpl andb. cbv iota.
  rewrite take_zlen_app. do 3 f_equal.
  rewrite app_assoc. replace (zlen pre + 4) with (zlen (pre ++ mid)) by (rewrite zlen_app; lia).
  by rewrite drop_zlen_app.
Qed.

(** Patching in place is writing the right pointers in the first place. *)
Lemma builder_write_eq b out :
  DrawCopyBuilder_write b out = Some (out ++ builder_layout b).
Proof.
  unfold DrawCopyBuilder_write, builder_layout. cbv zeta.
  rewrite !write_app, !append_pointee_eq, SpiceCopy_encode.
  unfold builder_copy. rewrite SpiceCopy_encode.
  set (mid := copy_middle _ _ _ _ _). set (bb := encode (builder_base b)).
  assert (zlen mid = SpiceCopy_SIZE - 8) as Hmid by reflexivity.
  set (si := image_bytes (builder_src_bitmap b)). set (mi := image_bytes (builder_mask_bitmap b)).
  rewrite <- !app_assoc.
  replace (zlen (out ++ bb ++ to_le 4 0 ++ mid ++ to_le 4 0 ++ si) - zlen out)
    with (builder_fixed_len b + zlen si)
    by (unfold builder_fixed_len; fold bb; rewrite !zlen_app, !zlen_to_le, Hmid; lia).
  replace (zlen (out ++ bb ++ to_le 4 0 ++ mid ++ to_le 4 0) - zlen out)
    with (builder_fixed_len b)
    by (unfold builder_fixed_len; fold bb; rewrite !zlen_app, !zlen_to_le, Hmid; lia).
  rewrite (app_assoc out bb (to_le 4 0 ++ _)), patch_u32_eq by done.
  cbn [mbind option_bind].
  rewrite (app_assoc _ mid), (app_assoc (out ++ bb)), patch_u32_eq
    by (rewrite ?zlen_app, ?zlen_to_le, ?Hmid; unfold SpiceCopy_SIZE; lia).
  by rewrite <- !app_assoc.
Qed.

Lemma DrawCopy_write_eq v out :
  write v out = out ++ builder_layout (DrawCopy_builder v).
Proof.
  change (write v out) with (DrawCopy_write v out). unfold DrawCopy_write.
  by rewrite builder_write_eq.
Qed.

Lemma DrawCopy_encode v : encode v = builder_layout (DrawCopy_builder v).
Proof. unfold encode. rewrite DrawCopy_write_eq. apply app_nil_l. Qed.

(** * The reader never panics *)

Lemma safe_lift {A} (m : result LinkError A) (Q : A -> Prop) :
  match m with Ok a => Q a | Err _ => True | Panic => False end -> safe (lift m) Q.
Proof. intros Hm r Hr. unfold lift. split_and!; auto; try lia; by destruct m. Qed.

Lemma safe_position : safe position (fun p => 0 <= p <= isize_max).
Proof. intros r Hr. pose proof Hr as [Hp Hl Hb]. simpl. split_and!; auto; lia. Qed.

(** The first step takes the reader's whole buffer. *)
Lemma whole_body_eq {A} (k : list Z -> Rd A) r :
  0 <= br_pos r <= zlen (br_data r) -> zlen (br_data r) <= isize_max ->
  (let? pos := position in
   let? rem := remaining in
   let? whole := unwrap (checked_add pos rem) in
   let? body := slice_at 0 whole in k body) r = k (br_data r) r.
Proof.
  intros Hp Hl. unfold bind at 1, position, bind at 1, get_state, ret.
  unfold bind at 1. rewrite remaining_eq by done. unfold checked_add.
  replace (br_pos r + (zlen (br_data r) - br_pos r)) with (zlen (br_data r)) by lia.
  unfold isize_max, usize_max in *. rewrite (proj2 (Z.leb_le _ _)) by lia.
  cbn [unwrap]. unfold bind, ret, slice_at, get_state, checked_add, bind, usize_max.
  rewrite Z.add_0_l, !(proj2 (Z.leb_le _ _)) by lia.
  rewrite slice_Some by lia. rewrite Z.sub_0_r, drop_0, take_ge by (rewrite length_zlen; lia).
  done.
Qed.

Lemma sub_reader_eq body off len : 0 <= off -> 0 <= len ->
  fst (sub_reader off len (reader_new body)) =
  if off + len <=? usize_max then
    if off + len <=? zlen body
    then Ok (reader_new (take (Z.to_nat len) (drop (Z.to_nat off) body)))
    else Err (BadOffset off len (zlen body))
  else Err (BadOffset off len (zlen body)).
Proof.
  intros Ho Hl. unfold sub_reader, slice_at, bind, get_state, checked_add. simpl.
  case_bool; try done. rewrite slice_Some by lia. simpl.
  by replace (off + len - off) with len by lia.
Qed.

Definition region_ok (body : list Z) (offset : Z) (o : option BoundedReader) : Prop :=
  match o with
  | None => True
  | Some r => reader_ok r /\ offset + zlen (br_data r) <= zlen body
  end.

Lemma pointee_safe body fixed_len offset ps :
  bytes body -> zlen body <= isize_max -> 0 <= offset ->
  match pointee body fixed_len offset ps with
  | Ok o => region_ok body offset o
  | Err _ => True
  | Panic => False
  end.
Proof.
  intros Hb Hl Ho. unfold pointee.
  destruct (offset =? 0); [done|]. destruct (offset <? fixed_len); [done|]. cbv zeta.
  set (len := saturating_sub _ _). assert (0 <= len) by (unfold len, saturating_sub; lia).
  rewrite sub_reader_eq by done.
  destruct (Z.leb_spec (offset + len) usize_max); [|done].
  destruct (Z.leb_spec (offset + len) (zlen body)); [|done]. simpl.
  set (s := take _ _). assert (zlen s = len) as Hs
    by (unfold s; rewrite zlen_take, zlen_drop; lia).
  split; [|lia]. split; simpl; [lia|lia|by apply Forall_take, Forall_drop].
Qed.

Lemma read_pointee_safe body region offset :
  zlen body <= isize_max -> 0 <= offset -> region_ok body offset region ->
  match read_pointee region offset with
  | Ok o => image_ok (fst <$> o)
  | Err _ => True
  | Panic => False
  end.
Proof.
  intros Hl Ho Hr. destruct region as [r|]; [|done]. destruct Hr as [Hr Hfit].
  unfold read_pointee. pose proof (read_safe (T := SpiceImage) r Hr) as Hs.
  destruct (read r) as [[image|e|] r']; destruct Hs as (Hr' & Hd & _ & Hi); [|done|done].
  cbn [rbind]. destruct (has_palette_pointer image) eqn:E; [done|].
  unfold position, bind, get_state, ret, checked_add. cbn [fst rbind].
  destruct Hr' as [Hp _ _]. rewrite Hd in Hp. unfold isize_max, usize_max in *.
  rewrite (proj2 (Z.leb_le _ _)) by lia. by split.
Qed.

Lemma foldl_max_ge l x : x <= foldl Z.max x l.
Proof. revert x; induction l as [|y l IH]; intros x; simpl; [lia|]. specialize (IH (Z.max x y)). lia. Qed.

#[export] Instance DrawCopy_laws : WireLaws DrawCopy.
Proof.
  split; [intros v out; by rewrite DrawCopy_write_eq, DrawCopy_encode|].
  intros r Hr. pose proof Hr as [Hp Hl Hb].
  change (read (T := DrawCopy)) with DrawCopy_read. unfold DrawCopy_read.
  rewrite whole_body_eq by done. revert r Hr Hp Hl Hb.
  enough (forall body, bytes body -> zlen body <= isize_max ->
    safe (DrawCopy_resolve body) wire_wf) as H by (intros r Hr Hp Hl Hb; exact (H _ Hb Hl r Hr)).
  intros body Hb Hl. unfold DrawCopy_resolve.
  eapply safe_bind; [apply read_safe|intros base Hbase].
  eapply safe_bind; [apply read_safe|intros copy (Hsrc & Harea & Hrop & Hmode & Hmf & Hmp & Hmo)].
  eapply safe_bind; [apply safe_position|intros fl Hfl].
  eapply safe_bind; [apply safe_lift, pointee_safe; auto; apply Hsrc|intros reg1 Hreg1].
  eapply safe_bind; [apply safe_lift, (read_pointee_safe body); auto; apply Hsrc|intros src Hs].
  eapply safe_bind; [apply safe_lift, pointee_safe; auto; apply Hmo|intros reg2 Hreg2].
  eapply safe_bind; [apply safe_lift, (read_pointee_safe body); auto; apply Hmo|intros mask Hm].
  cbv zeta. set (e := foldl _ _ _). assert (fl <= e) by apply foldl_max_ge.
  unfold checked_sub. rewrite (proj2 (Z.leb_le _ _)) by done. cbn [unwrap].
  eapply safe_bind; [apply (safe_ret _ (fun n => 0 <= n)); lia|intros n Hn].
  eapply safe_bind; [by apply safe_read_bytes|intros _ _].
  apply safe_ret. by split_and!.
Qed.

(** * The round trip *)

(** A pointer at the end of a prefix addresses the bytes up to the next
    pointer. *)
Lemma pointee_eq pre mid post fixed_len offset ps :
  offset = zlen pre -> 0 < offset -> fixed_len <= offset ->
  zlen (pre ++ mid ++ post) <= isize_max ->
  Z.min (default (zlen (pre ++ mid ++ post)) (iter_min (filter (fun p => offset < p) ps)))
        (zlen (pre ++ mid ++ post)) = offset + zlen mid ->
  pointee (pre ++ mid ++ post) fixed_len offset ps = Ok (Some (reader_new mid)).
Proof.
  intros -> Hpos Hfix Hlen Hend. unfold pointee.
  rewrite (proj2 (Z.eqb_neq _ _)), (proj2 (Z.ltb_ge _ _)) by lia. rewrite Hend. cbv zeta.
  unfold saturating_sub. replace (zlen pre + zlen mid - zlen pre) with (zlen mid) by lia.
  pose proof (zlen_nonneg mid). pose proof (zlen_nonneg post).
  rewrite Z.max_r, sub_reader_eq by lia. rewrite !zlen_app in *.
  unfold isize_max, usize_max in *. rewrite !(proj2 (Z.leb_le _ _)) by lia.
  by rewrite drop_zlen_app, take_zlen_app.
Qed.

Lemma read_pointee_eq image offset :
  wire_wf image -> has_palette_pointer image = false ->
  0 <= offset -> offset + zlen (encode image) <= isize_max ->
  read_pointee (Some (reader_new (encode image))) offset =
    Ok (Some (image, offset + zlen (encode image))).
Proof.
  intros Hw Hp Ho Hl. unfold read_pointee.
  rewrite (laws_round_trips image Hw) by lia. cbn [rbind]. rewrite Hp.
  unfold position, bind, get_state, ret, checked_add. cbn [fst rbind].
  unfold isize_max, usize_max in *. cbn [br_pos]. by rewrite (proj2 (Z.leb_le _ _)) by lia.
Qed.

Lemma zlen_image_some image : 0 < zlen (image_bytes (Some image)).
Proof. cbn [image_bytes]. pose proof (zlen_SpiceImage image). lia. Qed.

(** The two pointers the writer patches in, resolved by the reader. *)
Section Resolve.
Context (fixed : list Z) (src mask : option SpiceImage).
Context (Hsrc : image_ok src) (Hmask : image_ok mask) (Hfix : 0 < zlen fixed).

Local Abbreviation body := (fixed ++ image_bytes src ++ image_bytes mask).
Local Abbreviation src_off := (image_offset (zlen fixed) src).
Local Abbreviation mask_off := (image_offset (zlen fixed + zlen (image_bytes src)) mask).

Context (Hlen : zlen body <= u32_max).

Lemma zlen_body :
  zlen body = zlen fixed + zlen (image_bytes src) + zlen (image_bytes mask).
Proof. rewrite !zlen_app. lia. Qed.

Lemma src_off_eq : src_off = if src is Some _ then zlen fixed else 0.
Proof.
  pose proof zlen_body as Hbody.
  destruct src; [|done]. cbn [image_offset]. apply as_unsigned_id. red.
  change (2 ^ 32) with (u32_max + 1). zlen_nonneg_all. lia.
Qed.

Lemma mask_off_eq :
  mask_off = if mask is Some _ then zlen fixed + zlen (image_bytes src) else 0.
Proof.
  pose proof zlen_body as Hbody.
  destruct mask; [|done]. cbn [image_offset]. apply as_unsigned_id. red.
  change (2 ^ 32) with (u32_max + 1). zlen_nonneg_all. lia.
Qed.

Lemma pointee_src :
  pointee body (zlen fixed) src_off [src_off; mask_off] =
  Ok ((fun image => reader_new (encode image)) <$> src).
Proof.
  rewrite src_off_eq, mask_off_eq. pose proof zlen_body as Hbody.
  destruct src as [image|]; [|done]. pose proof (zlen_image_some image) as Hi.
  cbn [image_bytes] in *. unfold u32_max, isize_max in *.
  apply pointee_eq; [done|lia|lia|unfold isize_max in *; lia|].
  rewrite Hbody. rewrite filter_cons_False by lia.
  destruct mask as [m|]; cbn [image_bytes].
  - rewrite filter_cons_True by lia. simpl. zlen_nonneg_all. lia.
  - rewrite filter_cons_False by lia. simpl. rewrite zlen_nil. lia.
Qed.

Lemma resolve_src :
  (let! region := pointee body (zlen fixed) src_off [src_off; mask_off] in
   read_pointee region src_off) =
  Ok ((fun image => (image, zlen fixed + zlen (image_bytes src))) <$> src).
Proof.
  rewrite pointee_src. cbn [rbind]. rewrite src_off_eq. pose proof zlen_body as Hbody.
  destruct src as [image|]; [|done]. destruct Hsrc as [Hw Hp]. cbn [image_bytes] in *.
  apply read_pointee_eq; [done|done|lia|]. unfold u32_max, isize_max in *. zlen_nonneg_all. lia.
Qed.

Lemma resolve_mask :
  (let! region := pointee body (zlen fixed) mask_off [src_off; mask_off] in
   read_pointee region mask_off) =
  Ok ((fun image => (image, zlen body)) <$> mask).
Proof.
  rewrite src_off_eq, mask_off_eq, zlen_body. pose proof zlen_body as Hbody.
  destruct mask as [image|]; [|done]. pose proof (zlen_image_some image) as Hi.
  destruct Hmask as [Hw Hp]. cbn [image_bytes] in *. unfold u32_max, isize_max in *.
  rewrite app_assoc in *. rewrite <- (app_nil_r (encode image)) at 1.
  zlen_nonneg_all.
  rewrite pointee_eq.
  - cbn [rbind]. rewrite read_pointee_eq; [done|done|done|lia|].
    unfold isize_max. lia.
  - by rewrite zlen_app.
  - lia.
  - lia.
  - rewrite app_nil_r. unfold isize_max. lia.
  - rewrite app_nil_r, Hbody. rewrite filter_cons_False by (destruct src; lia).
    rewrite filter_cons_False by lia. simpl. lia.
Qed.
End Resolve.

Lemma u32_image_offset n o : u32 (image_offset n o).
Proof. destruct o; simpl; [by apply as_unsigned_range|done]. Qed.

Lemma resolved_end (fixed : list Z) src mask :
  foldl Z.max (zlen fixed)
    (omap (fmap snd)
       [(fun image : SpiceImage => (image, zlen fixed + zlen (image_bytes src))) <$> src;
        (fun image : SpiceImage =>
           (image, zlen fixed + zlen (image_bytes src) + zlen (image_bytes mask))) <$> mask]) =
  zlen fixed + zlen (image_bytes src) + zlen (image_bytes mask).
Proof.
  pose proof (zlen_nonneg (image_bytes src)). pose proof (zlen_nonneg (image_bytes mask)).
  destruct src, mask; cbn -[zlen image_bytes Z.add] in *; cbn [image_bytes] in *;
    rewrite ?zlen_nil in *; lia.
Qed.

Lemma fst_fmap_pair {A B} (f : A -> B) (o : option A) :
  fst <$> ((fun x => (x, f x)) <$> o) = o.
Proof. by destruct o. Qed.

(** The part after the fixed fields: both pointers resolved, and the reader moved
    to the end of the last image. *)
Lemma resolve_images (fixed : list Z) src mask (copy : SpiceCopy) {A}
  (k : option SpiceImage -> option SpiceImage -> A) :
  image_ok src -> image_ok mask -> 0 < zlen fixed ->
  zlen (fixed ++ image_bytes src ++ image_bytes mask) <= u32_max ->
  SpiceCopy_src_bitmap copy = image_offset (zlen fixed) src ->
  SpiceQMask_bitmap_offset (SpiceCopy_mask copy) =
    image_offset (zlen fixed + zlen (image_bytes src)) mask ->
  let body := fixed ++ image_bytes src ++ image_bytes mask in
  (let? fixed_len := position in
   let? src_region := lift (SpiceCopy_src_bitmap_reader copy body fixed_len) in
   let? src := lift (read_pointee src_region (SpiceCopy_src_bitmap copy)) in
   let? mask_region := lift (SpiceCopy_mask_bitmap_reader copy body fixed_len) in
   let? mask :=
     lift (read_pointee mask_region (SpiceQMask_bitmap_offset (SpiceCopy_mask copy))) in
   let e := foldl Z.max fixed_len (omap (fmap snd) [src; mask]) in
   let? n := unwrap (checked_sub e fixed_len) in
   do? read_bytes n in
   ret (k (fst <$> src) (fst <$> mask))) (mkReader body (zlen fixed)) =
  (Ok (k src mask), mkReader body (zlen body)).
Proof.
  intros Hs Hm Hpos Hlen E1 E2. cbv zeta.
  pose proof (resolve_src fixed src mask Hs Hm Hpos Hlen) as R1.
  pose proof (resolve_mask fixed src mask Hs Hm Hpos Hlen) as R2.
  rewrite zlen_body in R2.
  unfold SpiceCopy_src_bitmap_reader, SpiceCopy_mask_bitmap_reader, SpiceCopy_pointers.
  rewrite E1, E2. unfold bind at 1, position, bind at 1, get_state, ret at 1.
  cbn [br_pos]. unfold bind at 1, lift at 1.
  destruct (pointee _ (zlen fixed) (image_offset (zlen fixed) src) _) as [reg1|e|];
    try discriminate R1. cbn [rbind] in R1.
  unfold bind at 1, lift at 1. rewrite R1. unfold bind at 1, lift at 1.
  destruct (pointee _ _ _ _) as [reg2|e|]; try discriminate R2. cbn [rbind] in R2.
  unfold bind at 1, lift at 1. rewrite R2. cbv zeta. rewrite resolved_end.
  pose proof (zlen_nonneg (image_bytes src)). pose proof (zlen_nonneg (image_bytes mask)).
  unfold checked_sub. rewrite (proj2 (Z.leb_le _ _)) by lia. cbn [unwrap].
  unfold bind at 1, ret at 1. unfold bind at 1.
  pose proof (reads_to_end _ _ _ (reads_bytes
    (zlen fixed + zlen (image_bytes src) + zlen (image_bytes mask) - zlen fixed)
    (image_bytes src ++ image_bytes mask) ltac:(rewrite zlen_app; lia)) fixed) as R3.
  rewrite R3 by (unfold u32_max, isize_max in *; lia). unfold ret. f_equal.
  - f_equal. f_equal; [apply (fst_fmap_pair (fun _ => _))|apply (fst_fmap_pair (fun _ => _))].
  - by rewrite <- zlen_app.
Qed.

Lemma DrawCopy_reads_back v : wire_wf v -> zlen (encode v) <= u32_max ->
  read (reader_new (encode v)) = (Ok v, mkReader (encode v) (zlen (encode v))).
Proof.
  intros (Hb & Hs & Ha & Hr & Hm & Hf & Hp & Hmi) Hlen.
  rewrite DrawCopy_encode in *. set (b := DrawCopy_builder v) in *. unfold builder_layout in *.
  assert (wire_wf (builder_copy b)) as Hcopy.
  { split_and!; try done; [apply u32_image_offset|split_and!; try done; apply u32_image_offset]. }
  change (wire_wf (builder_base b)) in Hb.
  assert (forall n, n <= u32_max -> n <= isize_max) as Hmax
    by (unfold u32_max, isize_max; lia).
  pose proof (reads_back (T := DrawBase) _ Hb [] (encode (builder_copy b) ++
    image_bytes (builder_src_bitmap b) ++ image_bytes (builder_mask_bitmap b))
    (Hmax _ Hlen)) as R1.
  pose proof (reads_back (builder_copy b) Hcopy (encode (builder_base b))
    (image_bytes (builder_src_bitmap b) ++ image_bytes (builder_mask_bitmap b)) (Hmax _ Hlen)) as R2.
  rewrite !app_nil_l, zlen_nil, Z.add_0_l in R1.
  change (read (T := DrawCopy)) with DrawCopy_read. unfold DrawCopy_read, reader_new.
  rewrite whole_body_eq by (cbn [br_data br_pos]; try apply Hmax; zlen_nonneg_all; lia).
  cbn [br_data]. unfold DrawCopy_resolve. unfold bind at 1. rewrite R1. unfold bind at 1. rewrite R2.
  rewrite app_assoc, <- zlen_app in *.
  rewrite (resolve_images _ _ _ (builder_copy b) (fun s m => mkDrawCopy _ s _ _ _ (mkQMask _ _ m)));
    try done.
  - destruct v as [? ? ? ? ? []]. done.
  - rewrite zlen_app, zlen_SpiceCopy. unfold SpiceCopy_SIZE, Rect_SIZE, SpiceQMask_SIZE.
    zlen_nonneg_all. lia.
  - by rewrite zlen_app, zlen_SpiceCopy.
  - by rewrite zlen_app, zlen_SpiceCopy.
Qed.

(** * Properties *)

(** C26: Whatever layout a DRAW_COPY body came in (images in either order,
    overlapping, or followed by slack), the value read from it writes out in the
    canonical layout without panicking, the writers' debug assertions included,
    and reads back unchanged, with the reader left at the end of the last
    image.  The written body is to fit the wire's 32-bit length. *)
Theorem draw_copy_canonicalises body (v : DrawCopy) :
  bytes body -> zlen body <= isize_max -> decode body = Ok v ->
  zlen (encode v) <= u32_max ->
  DrawCopyBuilder_write_asserts (DrawCopy_builder v) = true /\
  DrawCopyBuilder_build (DrawCopy_builder v) = Some (encode v) /\
  read (reader_new (encode v)) = (Ok v, mkReader (encode v) (zlen (encode v))).
Proof.
  intros Hb Hl Hd He. pose proof (laws_never_panics body Hb Hl) as Hw. rewrite Hd in Hw.
  split; [by apply draw_copy_asserts_ok|]. split.
  - unfold DrawCopyBuilder_build. by rewrite builder_write_eq, app_nil_l, DrawCopy_encode.
  - apply DrawCopy_reads_back; [|done]. pose proof (laws_never_panics body Hb Hl) as Hp.
    by rewrite Hd in Hp.
Qed.

(** A body with its mask image before its source image, so that reading and
    writing it changes the layout. *)
Definition swapped_body : list Z :=
  encode (mkDrawBase 1 (mkRect 0 0 2 2) Clip_none) ++
  encode (mkSpiceCopy 79 (mkRect 0 0 2 2) 8 0 (mkSpiceQMask 0 (mkSpicePoint 0 0) 57)) ++
  encode (mkSpiceImage (mkImageDescriptor 7 105 0 2 2) (Payload_Jpeg (mkBinaryData []))) ++
  encode (mkSpiceImage (mkImageDescriptor 9 103 0 2 2) Payload_FromCache).

Lemma draw_copy_canonicalises_witness :
  exists v : DrawCopy,
    decode swapped_body = Ok v /\ encode v <> swapped_body /\
    read (reader_new (encode v)) = (Ok v, mkReader (encode v) (zlen (encode v))).
Proof.
  eexists. split; [vm_compute; reflexivity|]. split; [vm_compute; discriminate|].
  apply (draw_copy_canonicalises swapped_body).
  - apply (bool_decide_unpack _). vm_compute. exact I.
  - vm_compute. discriminate.
  - vm_compute. reflexivity.
  - vm_compute. discriminate.
Defined.

Lemma foldl_min_le l x : foldl Z.min x l <= x /\ Forall (Z.le (foldl Z.min x l)) l.
Proof.
  revert x. induction l as [|y l IH]; intros x; simpl; [split; [lia|constructor]|].
  destruct (IH (Z.min x y)) as [H1 H2]. split; [lia|]. constructor; [lia|done].
Qed.

Lemma foldl_min_ind (P : Z -> Prop) l x : P x -> Forall P l -> P (foldl Z.min x l).
Proof.
  revert x. induction l as [|y l IH]; intros x Hx HF; [done|]. inversion HF; subst. simpl.
  apply IH; [|done]. by destruct (Z.min_spec x y) as [[_ ->]|[_ ->]].
Qed.

(** The end of a region: no later than any later pointer, and before the start
    only when the start is past the body. *)
Lemma next_pointer_spec offset len ps :
  let e := Z.min (default len (iter_min (filter (fun p => offset < p) ps))) len in
  Forall (fun p => offset < p -> e <= p) ps /\ (e < offset -> len < offset).
Proof.
  cbv zeta. set (qs := filter _ ps).
  assert (Forall (fun p => offset < p) qs) as Hq
    by (apply list.Forall_forall; intros p Hp; by apply list_elem_of_filter in Hp as [? _]).
  split.
  - apply list.Forall_forall. intros p Hp Hlt.
    assert (p ∈ qs) as Hin by (apply list_elem_of_filter; by split).
    destruct qs as [|q qs]; [by apply not_elem_of_nil in Hin|]. simpl.
    destruct (foldl_min_le qs q) as [H1 H2]. rewrite list.Forall_forall in H2.
    apply elem_of_cons in Hin as [->|Hin]; [lia|]. specialize (H2 p Hin). lia.
  - destruct qs as [|q qs]; simpl; [lia|]. inversion Hq; subst.
    pose proof (foldl_min_ind (fun p => offset < p) qs q). simpl in *. intros.
    assert (offset < foldl Z.min q qs) by auto. lia.
Qed.

(** An image pointer that resolves at all addresses a slice of the message
    body: it starts at the pointer, at or after the fixed fields, ends at or
    before the next pointer, and never runs past the body.  A pointer into the
    fixed fields is refused. *)
Theorem pointee_within body fixed_len offset ps :
  bytes body -> zlen body <= isize_max -> 0 <= offset ->
  match pointee body fixed_len offset ps with
  | Ok None => offset = 0
  | Ok (Some r) =>
      fixed_len <= offset /\ br_pos r = 0 /\
      exists before after, body = before ++ br_data r ++ after /\ zlen before = offset /\
        Forall (fun p => offset < p -> offset + zlen (br_data r) <= p) ps
  | Err (PointerIntoFixedPart o f) => o = offset /\ f = fixed_len /\ offset < fixed_len
  | Err (BadOffset o l n) => o = offset /\ n = zlen body /\ zlen body < offset
  | Err _ | Panic => False
  end.
Proof.
  intros Hb Hl Ho. unfold pointee. destruct (Z.eqb_spec offset 0); [done|].
  destruct (Z.ltb_spec offset fixed_len); [done|]. cbv zeta.
  set (e := Z.min _ _). assert (e <= zlen body) as He by (unfold e; lia).
  pose proof (next_pointer_spec offset (zlen body) ps) as [Hnext Hgt]. fold e in Hnext, Hgt.
  unfold saturating_sub. rewrite sub_reader_eq by lia. unfold isize_max, usize_max in *.
  case_bool; simpl; [|split_and!; lia|split_and!; lia].
  assert (offset <= e) as Hoe by lia. split_and!; [lia|done|].
  exists (take (Z.to_nat offset) body), (drop (Z.to_nat e) body). split_and!.
  - rewrite <- (take_drop (Z.to_nat offset) body) at 1. f_equal.
    rewrite <- (take_drop (Z.to_nat (Z.max 0 (e - offset))) (drop (Z.to_nat offset) body)) at 1.
    f_equal. rewrite drop_drop. f_equal. lia.
  - rewrite zlen_take. lia.
  - eapply Forall_impl; [|exact Hnext]. intros p Hp Hlt. specialize (Hp Hlt).
    rewrite zlen_take, zlen_drop. lia.
Qed.

Lemma pointee_within_witness :
  exists r before after, pointee swapped_body 57 57 [79; 57] = Ok (Some r) /\
    swapped_body = before ++ br_data r ++ after /\ zlen before = 57.
Proof.
  assert (bytes swapped_body) as Hb by (apply (bool_decide_unpack _); vm_compute; exact I).
  pose proof (pointee_within swapped_body 57 57 [79; 57] Hb
    ltac:(vm_compute; discriminate) ltac:(lia)) as H.
  destruct (pointee swapped_body 57 57 [79; 57]) as [[r|]| |] eqn:E;
    try (vm_compute in E; discriminate E).
  destruct H as (_ & _ & before & after & H1 & H2 & _). by exists r, before, after.
Defined.
