(* ===== verification/Messages.v ===== *)
(** Every message type of the protocol crate meets its contract: the three
    theorems here collect, per channel, what the message files prove type by
    type.  [delimited_ok] is for messages that end where their fields end,
    [whole_body_ok] for those that take the rest of the body. *)
From Stdlib Require Import ZArith.
From stdpp Require Import base numbers list tactics.
From S2P Require Import Prelude Reader Wire MsgCommon MsgMain MsgInputs.
From S2P Require Import MsgPlayback MsgCursor MsgVdAgent MsgDisplay MsgDrawOps MsgDrawCopy.

Open Scope Z_scope.

(** * The contract *)

Definition whole_body_ok (T : Type) `{WireType T, WireWf T} : Prop :=
  never_panics T /\ round_trips T.

Definition delimited_ok (T : Type) `{WireType T, WireWf T} : Prop :=
  whole_body_ok T /\ ignores_trailing T.

Lemma whole_body_ok_intro (T : Type) `{WireLaws T} `{!WireRoundTripEnd T} : whole_body_ok T.
Proof. split; [apply laws_never_panics|apply laws_round_trips]. Qed.

Lemma delimited_ok_intro (T : Type) `{WireLaws T} `{!WireRoundTrip T} : delimited_ok T.
Proof. split; [by apply whole_body_ok_intro, round_trip_end|by apply laws_ignores_trailing]. Qed.

Ltac wire_types :=
  split_and!;
  lazymatch goal with
  | |- delimited_ok _ => apply delimited_ok_intro; apply _
  | |- whole_body_ok _ => apply whole_body_ok_intro; apply _
  end.

(** * Properties *)

(** The messages of every channel's common part, the main channel and the
    guest agent: no body makes a parser panic, what it accepts is in range, every
    value in range reads back exactly as written with the reader at the end, and
    the self-delimiting ones ignore trailing bytes. *)
Theorem main_messages_correct :
  delimited_ok Pong /\ delimited_ok SetAck /\ delimited_ok AckSync /\ delimited_ok Notify /\
  delimited_ok Disconnecting /\ delimited_ok MainInit /\ delimited_ok ChannelsList /\
  delimited_ok MainMouseMode /\ delimited_ok MouseModeRequest /\ delimited_ok MultiMediaTime /\
  delimited_ok AgentTokens /\ delimited_ok AgentDisconnected /\
  delimited_ok VdAgentMessageHeader /\ delimited_ok MonConfig /\ delimited_ok MonitorMm /\
  delimited_ok MonitorsConfig /\ delimited_ok VdAgentReply /\ whole_body_ok Ping /\
  whole_body_ok AnnounceCapabilities.
Proof. wire_types. Qed.

(** The same for the inputs, cursor and playback channels. *)
Theorem device_messages_correct :
  delimited_ok InputsInit /\ delimited_ok KeyModifiers /\ delimited_ok KeyEvent /\
  delimited_ok MouseMotion /\ delimited_ok MousePosition /\ delimited_ok MouseButton /\
  delimited_ok CursorHeader /\ delimited_ok CursorInitHead /\ delimited_ok CursorSetHead /\
  delimited_ok CursorMove /\ delimited_ok CursorInvalOne /\ delimited_ok PlaybackStart /\
  delimited_ok PlaybackMode /\ delimited_ok PlaybackVolume /\ delimited_ok PlaybackMute /\
  delimited_ok PlaybackLatency /\ whole_body_ok KeyScancode /\ whole_body_ok SpiceCursor /\
  whole_body_ok CursorInit /\ whole_body_ok CursorSet /\ whole_body_ok PlaybackPacket.
Proof. wire_types. Qed.

(** The same for the display channel: geometry, surfaces, streams and the
    parts of a draw body. *)
Theorem display_messages_correct :
  delimited_ok Rect /\ delimited_ok Clip /\ delimited_ok DrawBase /\ delimited_ok SpicePoint /\
  delimited_ok SurfaceCreate /\ delimited_ok SurfaceDestroy /\ delimited_ok DisplayHead /\
  delimited_ok DisplayMonitorsConfig /\ delimited_ok BinaryData /\ delimited_ok StreamCreate /\
  delimited_ok StreamDataHeader /\ delimited_ok StreamData /\ delimited_ok StreamDataSized /\
  delimited_ok StreamClip /\ delimited_ok StreamDestroy /\ delimited_ok StreamActivateReport /\
  delimited_ok DisplayInit /\ delimited_ok StreamReport /\ delimited_ok PreferredCompression /\
  delimited_ok PreferredVideoCodecType /\ delimited_ok ImageDescriptor /\
  delimited_ok BitmapHeader /\ delimited_ok BitmapPayload /\ delimited_ok SpiceCopy /\
  delimited_ok SpiceQMask /\ whole_body_ok SpiceImage.
Proof. wire_types. Qed.

(** The clipboard messages meet the contract in both layouts: with and without
    the selection header the capability negotiation decides on. *)
Theorem clipboard_messages_correct has_selection :
  @whole_body_ok ClipboardGrab (with_selection has_selection) (ClipboardGrab_wf has_selection) /\
  @delimited_ok ClipboardRequest (with_selection has_selection)
    (ClipboardRequest_wf has_selection) /\
  @whole_body_ok Clipboard (with_selection has_selection) (Clipboard_wf has_selection) /\
  @delimited_ok ClipboardRelease (with_selection has_selection)
    (ClipboardRelease_wf has_selection).
Proof.
  split_and!.
  - apply (@whole_body_ok_intro _ _ _ (ClipboardGrab_laws _) (ClipboardGrab_rt _)).
  - apply (@delimited_ok_intro _ _ _ (ClipboardRequest_laws _) (ClipboardRequest_rt _)).
  - apply (@whole_body_ok_intro _ _ _ (Clipboard_laws _) (Clipboard_rt _)).
  - apply (@delimited_ok_intro _ _ _ (ClipboardRelease_laws _) (ClipboardRelease_rt _)).
Qed.
