(* ===== verification/AgentStream.v ===== *)
(** Reassembly of guest agent messages:
    [shakenfist-spice-protocol/src/messages/agent_stream.rs] and the oracle of
    [fuzz/fuzz_targets/fuzz_agent_reassembly.rs].

    [AgentReassembler] is a four-state machine fed the bodies of AGENT_DATA
    messages.  The model keeps the source's header buffer, fill count, payload
    [Vec] and that [Vec]'s capacity; [None] is a panic.  It is proved to refine
    a machine that takes one byte at a time ([spec_byte]), from which chunking
    independence and the round trip follow. *)
From Stdlib Require Import ZArith Lia String.
From stdpp Require Import base numbers list tactics.
From S2P Require Import Prelude Reader Wire MsgVdAgent.

Open Scope Z_scope.
Open Scope rust_scope.

(** * Data *)

Definition MAX_AGENT_MESSAGE_SIZE : Z := 100 * 1024 * 1024 + 4096.

Record AgentMessage : Type := mkAgentMessage {
  am_header : VdAgentMessageHeader;
  am_payload : list Z
}.

Inductive AgentStreamItem : Type :=
| Message (m : AgentMessage)
| Oversized (h : VdAgentMessageHeader)
| BadProtocol (h : VdAgentMessageHeader).

#[export] Instance VdAgentMessageHeader_eq_dec : EqDecision VdAgentMessageHeader.
Proof. solve_decision. Defined.
#[export] Instance AgentMessage_eq_dec : EqDecision AgentMessage.
Proof. solve_decision. Defined.
#[export] Instance AgentStreamItem_eq_dec : EqDecision AgentStreamItem.
Proof. solve_decision. Defined.

(** [capacity] is the allocated size of the payload's [Vec]. *)
Inductive State : Type :=
| St_Header (buf : list Z) (filled : Z)
| St_Body (header : VdAgentMessageHeader) (payload : list Z) (capacity : Z)
| St_Skip (remaining : Z)
| St_Resync.

Definition State_header : State := St_Header (replicate 20 0) 0.

Record AgentReassembler : Type := mkAgentReassembler {
  ar_max_message_size : Z;
  ar_state : State
}.

Definition AgentReassembler_new (max_message_size : Z) : AgentReassembler :=
  mkAgentReassembler max_message_size State_header.

Definition AgentReassembler_default : AgentReassembler :=
  AgentReassembler_new MAX_AGENT_MESSAGE_SIZE.

Definition ar_reset (self : AgentReassembler) : AgentReassembler :=
  mkAgentReassembler (ar_max_message_size self) State_header.

Definition at_message_boundary (self : AgentReassembler) : bool :=
  match ar_state self with
  | St_Header _ filled => filled =? 0
  | St_Resync => true
  | St_Body _ _ _ | St_Skip _ => false
  end.

(** * Operations *)

Definition saturating_mul (a b : Z) : Z := Z.min (a * b) usize_max.

(** [grow] returns the new capacity: [reserve_exact] allocates what it is asked
    for. *)
Definition grow (payload : list Z) (capacity extra total : Z) : option Z :=
  needed ← checked_add (zlen payload) extra;
  if capacity <? needed then
    let target := Z.min (Z.max needed (saturating_mul capacity 2)) total in
    additional ← checked_sub target (zlen payload);
    Some (zlen payload + additional)
  else Some capacity.

(** The state after a complete [header], the bytes left and what was found. *)
Definition start_body (max_message_size : Z) (header : VdAgentMessageHeader) (rest : list Z)
  (out : list AgentStreamItem) : State * list Z * list AgentStreamItem :=
  let size := VdAgentMessageHeader_size header in
  if negb (VdAgentMessageHeader_protocol header =? VD_AGENT_PROTOCOL) then
    (St_Resync, [], out ++ [BadProtocol header])
  else if max_message_size <? size then
    (St_Skip size, rest, out ++ [Oversized header])
  else if size =? 0 then
    (State_header, rest, out ++ [Message (mkAgentMessage header [])])
  else (St_Body header [] 0, rest, out).

Definition step (max_message_size : Z) (state : State) (rest : list Z)
  (out : list AgentStreamItem) : option (State * list Z * list AgentStreamItem) :=
  match state with
  | St_Header buf filled =>
      want ← checked_sub VdAgentMessageHeader_SIZE filled;
      let n := Z.min want (zlen rest) in
      src ← slice rest 0 n;
      buf ← copy_from_slice buf filled src;
      filled ← checked_add filled n;
      rest ← slice rest n (zlen rest);
      if filled <? VdAgentMessageHeader_SIZE then Some (St_Header buf filled, rest, out)
      else
        match decode (T := VdAgentMessageHeader) buf with
        | Ok header => Some (start_body max_message_size header rest out)
        | _ => None
        end
  | St_Body header payload capacity =>
      let size := VdAgentMessageHeader_size header in
      want ← checked_sub size (zlen payload);
      let n := Z.min want (zlen rest) in
      capacity ← grow payload capacity n size;
      src ← slice rest 0 n;
      let payload := payload ++ src in
      rest ← slice rest n (zlen rest);
      if zlen payload <? size then Some (St_Body header payload capacity, rest, out)
      else Some (State_header, rest, out ++ [Message (mkAgentMessage header payload)])
  | St_Skip remaining =>
      let n := Z.min remaining (zlen rest) in
      rest ← slice rest n (zlen rest);
      if n <? remaining then
        left ← checked_sub remaining n;
        Some (St_Skip left, rest, out)
      else Some (State_header, rest, out)
  | St_Resync => Some (St_Resync, [], out)
  end.

(** [while !rest.is_empty()]; the fuel is the bytes left, and running out of it
    is [None] too. *)
Fixpoint push_loop (fuel : nat) (max_message_size : Z) (state : State) (rest : list Z)
  (out : list AgentStreamItem) : option (State * list AgentStreamItem) :=
  match rest with
  | [] => Some (state, out)
  | _ :: _ =>
      match fuel with
      | O => None
      | S fuel =>
          r ← step max_message_size state rest out;
          let '(state, rest, out) := r in
          push_loop fuel max_message_size state rest out
      end
  end.

(** [push]'s first step: a new AGENT_DATA ends a resynchronisation. *)
Definition resume (state : State) : State :=
  match state with St_Resync => State_header | state => state end.

Definition ar_push (self : AgentReassembler) (chunk : list Z)
  : option (AgentReassembler * list AgentStreamItem) :=
  r ← push_loop (length chunk) (ar_max_message_size self) (resume (ar_state self)) chunk [];
  Some (mkAgentReassembler (ar_max_message_size self) (fst r), snd r).

(** Successive AGENT_DATA bodies. *)
Fixpoint push_all (self : AgentReassembler) (chunks : list (list Z))
  : option (AgentReassembler * list AgentStreamItem) :=
  match chunks with
  | [] => Some (self, [])
  | chunk :: chunks =>
      r ← ar_push self chunk;
      r' ← push_all (fst r) chunks;
      Some (fst r', snd r ++ snd r')
  end.

(** * The fuzz target *)

Definition VD_AGENT_MAX_DATA_SIZE : Z := 2048.

(** The AGENT_DATAs [run] cuts a stream into. *)
Fixpoint cut_agent_data (fuel : nat) (seed : Z) (rest : list Z) : list (list Z) :=
  match fuel, rest with
  | O, _ | _, [] => []
  | S fuel, _ =>
      let seed := as_unsigned 32 (seed * 1103515245 + 12345) in
      let len := 1 + Z.shiftr seed 8 mod VD_AGENT_MAX_DATA_SIZE in
      let n := Z.to_nat (Z.min len (zlen rest)) in
      take n rest :: cut_agent_data fuel seed (drop n rest)
  end.

Definition fuzz_run (cap : Z) (stream : list Z) (seed : Z) : option (list AgentStreamItem) :=
  snd <$> push_all (AgentReassembler_new cap) (cut_agent_data (length stream) seed stream).

Definition is_bad_protocol (i : AgentStreamItem) : bool :=
  match i with BadProtocol _ => true | _ => false end.

Definition has_bad_protocol (items : list AgentStreamItem) : bool :=
  existsb is_bad_protocol items.

(** The assertions on one item. *)
Definition item_ok (cap : Z) (i : AgentStreamItem) : bool :=
  match i with
  | Message m =>
      (VdAgentMessageHeader_protocol (am_header m) =? VD_AGENT_PROTOCOL) &&
      (zlen (am_payload m) =? VdAgentMessageHeader_size (am_header m)) &&
      (zlen (am_payload m) <=? cap)
  | Oversized h => cap <? VdAgentMessageHeader_size h
  | BadProtocol h => negb (VdAgentMessageHeader_protocol h =? VD_AGENT_PROTOCOL)
  end.

(** [true] is every assertion of the target passing. *)
Definition fuzz_agent_reassembly (data : list Z) : bool :=
  match data with
  | a :: b :: seed :: stream =>
      let cap := from_le [a; b] mod 8192 in
      match fuzz_run cap stream seed, ar_push (AgentReassembler_new cap) stream with
      | Some chunked, Some (_, whole) =>
          forallb (item_ok cap) chunked &&
          (has_bad_protocol chunked || has_bad_protocol whole ||
           bool_decide (chunked = whole))
      | _, _ => false
      end
  | _ => true
  end.

(** * The specification: one byte at a time *)

Inductive spec : Type :=
| Sp_Header (got : list Z)
| Sp_Body (header : VdAgentMessageHeader) (got : list Z)
| Sp_Skip (remaining : Z)
| Sp_Resync.

Definition spec_header (cap : Z) (bs : list Z) : spec * list AgentStreamItem :=
  match decode (T := VdAgentMessageHeader) bs with
  | Ok header =>
      if negb (VdAgentMessageHeader_protocol header =? VD_AGENT_PROTOCOL)
      then (Sp_Resync, [BadProtocol header])
      else if cap <? VdAgentMessageHeader_size header
      then (Sp_Skip (VdAgentMessageHeader_size header), [Oversized header])
      else if VdAgentMessageHeader_size header =? 0
      then (Sp_Header [], [Message (mkAgentMessage header [])])
      else (Sp_Body header [], [])
  | _ => (Sp_Resync, [])
  end.

Definition spec_byte (cap : Z) (st : spec) (b : Z) : spec * list AgentStreamItem :=
  match st with
  | Sp_Header got =>
      if zlen (got ++ [b]) <? VdAgentMessageHeader_SIZE then (Sp_Header (got ++ [b]), [])
      else spec_header cap (got ++ [b])
  | Sp_Body header got =>
      if zlen (got ++ [b]) <? VdAgentMessageHeader_size header
      then (Sp_Body header (got ++ [b]), [])
      else (Sp_Header [], [Message (mkAgentMessage header (got ++ [b]))])
  | Sp_Skip remaining =>
      if 1 <? remaining then (Sp_Skip (remaining - 1), []) else (Sp_Header [], [])
  | Sp_Resync => (Sp_Resync, [])
  end.

Fixpoint spec_bytes (cap : Z) (st : spec) (bs : list Z) : spec * list AgentStreamItem :=
  match bs with
  | [] => (st, [])
  | b :: bs =>
      let (st, o1) := spec_byte cap st b in
      let (st, o2) := spec_bytes cap st bs in
      (st, o1 ++ o2)
  end.

(** A new AGENT_DATA ends a resynchronisation. *)
Definition spec_boundary (st : spec) : spec :=
  match st with Sp_Resync => Sp_Header [] | st => st end.

Fixpoint spec_chunks (cap : Z) (st : spec) (chunks : list (list Z)) : spec * list AgentStreamItem :=
  match chunks with
  | [] => (st, [])
  | chunk :: chunks =>
      let (st, o1) := spec_bytes cap (spec_boundary st) chunk in
      let (st, o2) := spec_chunks cap st chunks in
      (st, o1 ++ o2)
  end.

(** ** The machine's states as specification states *)

Definition abs (st : State) : spec :=
  match st with
  | St_Header buf filled => Sp_Header (take (Z.to_nat filled) buf)
  | St_Body header payload _ => Sp_Body header payload
  | St_Skip remaining => Sp_Skip remaining
  | St_Resync => Sp_Resync
  end.

(** The invariant: the header buffer is partly filled, a body is within the cap
    and incomplete, and no more is allocated for it than twice what arrived. *)
Definition state_ok (cap : Z) (st : State) : Prop :=
  match st with
  | St_Header buf filled =>
      zlen buf = VdAgentMessageHeader_SIZE /\ 0 <= filled < VdAgentMessageHeader_SIZE /\
      bytes buf
  | St_Body header payload capacity =>
      wire_wf header /\ VdAgentMessageHeader_protocol header = VD_AGENT_PROTOCOL /\
      zlen payload < VdAgentMessageHeader_size header <= cap /\ bytes payload /\
      zlen payload <= capacity <= VdAgentMessageHeader_size header /\
      capacity <= 2 * zlen payload
  | St_Skip remaining => 0 < remaining <= u32_max
  | St_Resync => True
  end.

(** ** Properties of the specification *)

Lemma spec_bytes_app cap st a b :
  spec_bytes cap st (a ++ b) =
  let (st1, o1) := spec_bytes cap st a in
  let (st2, o2) := spec_bytes cap st1 b in (st2, o1 ++ o2).
Proof.
  revert st. induction a as [|x a IH]; intros st; simpl.
  - by destruct (spec_bytes cap st b).
  - destruct (spec_byte cap st x) as [st1 o1]. rewrite IH.
    destruct (spec_bytes cap st1 a) as [st2 o2]. destruct (spec_bytes cap st2 b).
    by rewrite app_assoc.
Qed.

Lemma spec_resync cap bs : spec_bytes cap Sp_Resync bs = (Sp_Resync, []).
Proof. induction bs as [|b bs IH]; simpl; [done|]. by rewrite IH. Qed.

Lemma zlen_snoc {A} (l : list A) x : zlen (l ++ [x]) = zlen l + 1.
Proof. by rewrite zlen_app. Qed.

Lemma spec_collect_header cap got bs : zlen got + zlen bs < VdAgentMessageHeader_SIZE ->
  spec_bytes cap (Sp_Header got) bs = (Sp_Header (got ++ bs), []).
Proof.
  revert got. induction bs as [|b bs IH]; intros got Hl; simpl; [by rewrite app_nil_r|].
  rewrite zlen_cons in Hl. pose proof (zlen_nonneg bs).
  rewrite zlen_snoc, (proj2 (Z.ltb_lt _ _)) by lia.
  rewrite IH by (rewrite zlen_snoc; lia). by rewrite <- app_assoc.
Qed.

Lemma spec_complete_header cap got bs : bs <> [] ->
  zlen got + zlen bs = VdAgentMessageHeader_SIZE ->
  spec_bytes cap (Sp_Header got) bs = spec_header cap (got ++ bs).
Proof.
  intros Hne Hl. destruct (exists_last Hne) as (bs' & b & ->).
  rewrite zlen_snoc in Hl. rewrite spec_bytes_app, spec_collect_header by lia. simpl.
  rewrite <- app_assoc, zlen_app, zlen_snoc, (proj2 (Z.ltb_ge _ _)) by lia.
  destruct (spec_header _ _). by rewrite app_nil_r.
Qed.

Lemma spec_collect_body cap h got bs : zlen got + zlen bs < VdAgentMessageHeader_size h ->
  spec_bytes cap (Sp_Body h got) bs = (Sp_Body h (got ++ bs), []).
Proof.
  revert got. induction bs as [|b bs IH]; intros got Hl; simpl; [by rewrite app_nil_r|].
  rewrite zlen_cons in Hl. pose proof (zlen_nonneg bs).
  rewrite zlen_snoc, (proj2 (Z.ltb_lt _ _)) by lia.
  rewrite IH by (rewrite zlen_snoc; lia). by rewrite <- app_assoc.
Qed.

Lemma spec_complete_body cap h got bs : bs <> [] ->
  zlen got + zlen bs = VdAgentMessageHeader_size h ->
  spec_bytes cap (Sp_Body h got) bs =
    (Sp_Header [], [Message (mkAgentMessage h (got ++ bs))]).
Proof.
  intros Hne Hl. destruct (exists_last Hne) as (bs' & b & ->).
  rewrite zlen_snoc in Hl. rewrite spec_bytes_app, spec_collect_body by lia. simpl.
  by rewrite <- app_assoc, zlen_app, zlen_snoc, (proj2 (Z.ltb_ge _ _)) by lia.
Qed.

Lemma spec_skip cap n bs : zlen bs < n ->
  spec_bytes cap (Sp_Skip n) bs = (Sp_Skip (n - zlen bs), []).
Proof.
  revert n. induction bs as [|b bs IH]; intros n Hl; simpl.
  - by rewrite zlen_nil, Z.sub_0_r.
  - rewrite zlen_cons in Hl. pose proof (zlen_nonneg bs).
    rewrite (proj2 (Z.ltb_lt _ _)), IH by lia. rewrite zlen_cons. do 2 f_equal. lia.
Qed.

Lemma spec_skip_done cap bs : bs <> [] ->
  spec_bytes cap (Sp_Skip (zlen bs)) bs = (Sp_Header [], []).
Proof.
  intros Hne. destruct (exists_last Hne) as (bs' & b & ->). rewrite zlen_snoc.
  rewrite spec_bytes_app, spec_skip by lia. simpl.
  by rewrite (proj2 (Z.ltb_ge _ _)) by lia.
Qed.

(** * Refinement *)

(** What one [step] takes from the front of the stream. *)
Lemma split_front (rest : list Z) n : 0 <= n <= zlen rest ->
  exists src tail, rest = src ++ tail /\ zlen src = n /\
    slice rest 0 n = Some src /\ slice rest n (zlen rest) = Some tail.
Proof.
  intros Hn. exists (take (Z.to_nat n) rest), (drop (Z.to_nat n) rest).
  assert (zlen (take (Z.to_nat n) rest) = n) as Hl by (rewrite zlen_take; lia).
  split_and!; [by rewrite take_drop|done| |].
  - rewrite slice_Some by lia. by rewrite Z.sub_0_r, drop_0.
  - rewrite slice_Some by lia. rewrite take_ge; [done|].
    rewrite length_drop, length_zlen. lia.
Qed.

Lemma nonempty_zlen {A} (l : list A) : l <> [] <-> 0 < zlen l.
Proof. destruct l; rewrite ?zlen_cons; [done|]. pose proof (zlen_nonneg l). split; [lia|done]. Qed.

Lemma State_header_ok cap : state_ok cap State_header.
Proof. split_and!; [done|done|done|]. repeat constructor; done. Qed.

(** [n] bytes are the encoding of the number they decode to. *)
Lemma le_field n s : length s = n -> bytes s ->
  s = to_le n (from_le s) /\ in_unsigned (8 * Z.of_nat n) (from_le s).
Proof.
  intros <- Hb. split; [by rewrite to_le_from_le|]. by apply from_le_bound.
Qed.

(** Twenty bytes always decode to a header. *)
Lemma decode_full_header buf : zlen buf = VdAgentMessageHeader_SIZE -> bytes buf ->
  exists h, decode (T := VdAgentMessageHeader) buf = Ok h /\ wire_wf h.
Proof.
  unfold VdAgentMessageHeader_SIZE. intros Hl Hb.
  assert (length buf = 20%nat) as Hlen by (rewrite length_zlen, Hl; done).
  assert (buf = take 4 buf ++ take 4 (drop 4 buf) ++ take 8 (drop 8 buf) ++ drop 16 buf) as Hsplit.
  { rewrite <- (take_drop 4 buf) at 1. f_equal. rewrite <- (take_drop 4 (drop 4 buf)) at 1.
    f_equal. rewrite drop_drop. simpl. rewrite <- (take_drop 8 (drop 8 buf)) at 1.
    f_equal. by rewrite drop_drop. }
  destruct (le_field 4 (take 4 buf)) as [E1 R1];
    [rewrite length_take; lia|by apply Forall_take|].
  destruct (le_field 4 (take 4 (drop 4 buf))) as [E2 R2];
    [rewrite length_take, length_drop; lia|by apply Forall_take, Forall_drop|].
  destruct (le_field 8 (take 8 (drop 8 buf))) as [E3 R3];
    [rewrite length_take, length_drop; lia|by apply Forall_take, Forall_drop|].
  destruct (le_field 4 (drop 16 buf)) as [E4 R4];
    [rewrite length_drop; lia|by apply Forall_drop|].
  set (h := mkVdAgentMessageHeader (from_le (take 4 buf)) (from_le (take 4 (drop 4 buf)))
    (from_le (take 8 (drop 8 buf))) (from_le (drop 16 buf))).
  assert (wire_wf h) as Hw by (by split_and!). exists h. split; [|done].
  assert (buf = encode h ++ []) as Henc.
  { rewrite app_nil_r. etrans; [exact Hsplit|]. rewrite E1, E2, E3, E4 at 1. reflexivity. }
  pose proof (laws_ignores_trailing h [] Hw
    ltac:(rewrite <- Henc, Hl; unfold isize_max; lia)) as Hd. by rewrite <- Henc in Hd.
Qed.

(** The outcome of one [step]: it took a non-empty prefix and did to the state
    what the specification does byte by byte. *)
Definition step_refines (cap : Z) (st : State) (rest : list Z) (out : list AgentStreamItem)
  (r : option (State * list Z * list AgentStreamItem)) : Prop :=
  exists st' src rest' new,
    r = Some (st', rest', out ++ new) /\ rest = src ++ rest' /\ src <> [] /\
    state_ok cap st' /\ spec_bytes cap (abs st) src = (abs st', new).

(** [copy_from_slice] into the unfilled part appends to the filled part. *)
Lemma fill_header buf filled src :
  zlen buf = VdAgentMessageHeader_SIZE -> 0 <= filled -> bytes buf -> bytes src ->
  filled + zlen src <= VdAgentMessageHeader_SIZE ->
  exists buf', copy_from_slice buf filled src = Some buf' /\
    zlen buf' = VdAgentMessageHeader_SIZE /\ bytes buf' /\
    take (Z.to_nat (filled + zlen src)) buf' = take (Z.to_nat filled) buf ++ src.
Proof.
  intros Hl Hf Hbb Hbs Hfit. unfold copy_from_slice.
  rewrite !(proj2 (Z.leb_le _ _)) by lia. simpl andb. cbv iota.
  pose proof (zlen_nonneg src). eexists. split; [done|].
  assert (zlen (take (Z.to_nat filled) buf) = filled) as Ht by (rewrite zlen_take; lia).
  split_and!.
  - rewrite !zlen_app, Ht, zlen_drop. lia.
  - apply Forall_app. split; [by apply Forall_take|].
    apply Forall_app. split; [done|by apply Forall_drop].
  - rewrite app_assoc. replace (filled + zlen src) with
      (zlen (take (Z.to_nat filled) buf ++ src)) at 1 by (rewrite zlen_app; lia).
    apply take_zlen_app.
Qed.

Lemma start_body_refines cap rest out src tail h hb :
  0 <= cap -> rest = src ++ tail -> src <> [] -> wire_wf h -> decode hb = Ok h ->
  forall st, spec_bytes cap (abs st) src = spec_header cap hb ->
  step_refines cap st rest out (Some (start_body cap h tail out)).
Proof.
  intros Hcap Hrest Hsrc Hh Hd st Hspec. unfold start_body, spec_header in *. rewrite Hd in Hspec.
  destruct (Z.eqb_spec (VdAgentMessageHeader_protocol h) VD_AGENT_PROTOCOL) as [Hp|Hp];
    simpl negb in *; cbv iota in *.
  2: { exists St_Resync, (src ++ tail), [], [BadProtocol h]. rewrite app_nil_r.
    split_and!; try done; [by destruct src|].
    by rewrite spec_bytes_app, Hspec, spec_resync. }
  pose proof Hh as (_ & _ & _ & [Hs1 Hs2]).
  destruct (Z.ltb_spec cap (VdAgentMessageHeader_size h)).
  { exists (St_Skip (VdAgentMessageHeader_size h)), src, tail, [Oversized h].
    split_and!; try done; cbn [state_ok]; unfold u32_max; lia. }
  destruct (Z.eqb_spec (VdAgentMessageHeader_size h) 0).
  { exists State_header, src, tail, [Message (mkAgentMessage h [])].
    split_and!; try done; apply State_header_ok. }
  exists (St_Body h [] 0), src, tail, []. rewrite app_nil_r.
  split_and!; try done; cbn [state_ok]; rewrite zlen_nil; split_and!; try done; lia.
Qed.

Lemma step_header_refines cap rest out buf filled :
  0 <= cap -> rest <> [] -> bytes rest -> state_ok cap (St_Header buf filled) ->
  step_refines cap (St_Header buf filled) rest out (step cap (St_Header buf filled) rest out).
Proof.
  intros Hcap Hne Hb (Hl & Hf & Hbuf). apply nonempty_zlen in Hne. unfold step, checked_sub.
  rewrite (proj2 (Z.leb_le _ _)) by lia. cbn [mbind option_bind].
  set (n := Z.min _ _). destruct (split_front rest n) as (src & tail & -> & Hn & -> & E2);
    [unfold n; lia|].
  apply Forall_app in Hb as [Hbs Hbt]. cbn [mbind option_bind].
  destruct (fill_header buf filled src) as (buf' & -> & Hl' & Hb' & Htake);
    try done; [lia|unfold n in Hn; lia|]. cbn [mbind option_bind]. unfold checked_add.
  rewrite (proj2 (Z.leb_le _ _)) by (unfold usize_max; unfold n, VdAgentMessageHeader_SIZE in *; lia).
  cbn [mbind option_bind]. rewrite E2. cbn [mbind option_bind]. rewrite <- Hn in *.
  assert (src <> []) as Hsrc by (apply nonempty_zlen; unfold n in Hn; lia).
  assert (zlen (take (Z.to_nat filled) buf) = filled) as Hgot by (rewrite zlen_take; lia).
  destruct (Z.ltb_spec (filled + zlen src) VdAgentMessageHeader_SIZE) as [Hlt|Hge].
  - exists (St_Header buf' (filled + zlen src)), src, tail, []. rewrite app_nil_r.
    assert (spec_bytes cap (abs (St_Header buf filled)) src =
      (abs (St_Header buf' (filled + zlen src)), [])) as Hs
      by (cbn [abs]; rewrite Htake; apply spec_collect_header; lia).
    pose proof (zlen_nonneg src). cbn [state_ok]. split_and!; try done; lia.
  - assert (filled + zlen src = VdAgentMessageHeader_SIZE) as Hfull by (unfold n in Hn; lia).
    rewrite Hfull, take_ge in Htake by (rewrite length_zlen, Hl'; lia).
    destruct (decode_full_header buf' Hl' Hb') as (h & E & Hh). rewrite E.
    apply (start_body_refines _ _ _ src tail h buf'); try done.
    cbn [abs]. rewrite Htake. apply spec_complete_header; [done|lia].
Qed.

(** [grow] makes room for the bytes that arrived, never past the body and never
    to more than twice what it will then hold. *)
Lemma grow_eq payload capacity n size :
  zlen payload <= capacity <= size -> capacity <= 2 * zlen payload ->
  0 <= n -> zlen payload + n <= size -> size <= u32_max ->
  exists capacity', grow payload capacity n size = Some capacity' /\
    zlen payload + n <= capacity' <= size /\ capacity' <= 2 * (zlen payload + n).
Proof.
  intros Hc H2 Hn Hfit Hmax. unfold grow, checked_add, u32_max, usize_max in *.
  pose proof (zlen_nonneg payload).
  rewrite (proj2 (Z.leb_le _ _)) by lia. cbn [mbind option_bind].
  destruct (Z.ltb_spec capacity (zlen payload + n)); [|eexists; split; [done|lia]].
  unfold saturating_mul, usize_max, checked_sub.
  rewrite (proj2 (Z.leb_le _ _)) by lia. cbn [mbind option_bind].
  eexists. split; [done|]. lia.
Qed.

Lemma step_body_refines cap rest out h payload capacity :
  0 <= cap -> rest <> [] -> bytes rest -> state_ok cap (St_Body h payload capacity) ->
  step_refines cap (St_Body h payload capacity) rest out
    (step cap (St_Body h payload capacity) rest out).
Proof.
  intros Hcap Hne Hb (Hh & Hp & Hlen & Hbp & Hc & H2). apply nonempty_zlen in Hne.
  pose proof Hh as (_ & _ & _ & [_ Hs]). unfold step, checked_sub.
  rewrite (proj2 (Z.leb_le _ _)) by lia. cbn [mbind option_bind].
  set (n := Z.min _ _). destruct (split_front rest n) as (src & tail & -> & Hn & E1 & E2);
    [unfold n; lia|]. apply Forall_app in Hb as [Hbs Hbt].
  destruct (grow_eq payload capacity n (VdAgentMessageHeader_size h)) as (c' & -> & Hc' & H2');
    [done|done|unfold n; lia|unfold n; lia|unfold u32_max; lia|].
  cbn [mbind option_bind]. rewrite E1. cbn [mbind option_bind]. rewrite E2.
  cbn [mbind option_bind]. rewrite <- Hn in *.
  assert (src <> []) as Hsrc by (apply nonempty_zlen; unfold n in Hn; lia).
  rewrite zlen_app. case_bool.
  - exists (St_Body h (payload ++ src) c'), src, tail, []. rewrite app_nil_r.
    assert (spec_bytes cap (Sp_Body h payload) src = (Sp_Body h (payload ++ src), [])) as Hsp
      by (apply spec_collect_body; lia).
    cbn [state_ok]. rewrite zlen_app. split_and!; try done; try lia. by apply Forall_app.
  - exists State_header, src, tail, [Message (mkAgentMessage h (payload ++ src))].
    split_and!; try done; [apply State_header_ok|].
    cbn [abs]. rewrite spec_complete_body; [done|done|unfold n in Hn; lia].
Qed.

Lemma step_skip_refines cap rest out remaining :
  rest <> [] -> state_ok cap (St_Skip remaining) ->
  step_refines cap (St_Skip remaining) rest out (step cap (St_Skip remaining) rest out).
Proof.
  intros Hne Hr. cbn [state_ok] in Hr. apply nonempty_zlen in Hne. unfold step.
  set (n := Z.min _ _). destruct (split_front rest n) as (src & tail & -> & Hn & _ & ->);
    [unfold n; lia|]. cbn [mbind option_bind].
  assert (src <> []) as Hsrc by (apply nonempty_zlen; unfold n in Hn; lia).
  rewrite <- Hn in *. case_bool.
  - unfold checked_sub. rewrite (proj2 (Z.leb_le _ _)) by lia. cbn [mbind option_bind].
    exists (St_Skip (remaining - zlen src)), src, tail, []. rewrite app_nil_r.
    assert (spec_bytes cap (Sp_Skip remaining) src = (Sp_Skip (remaining - zlen src), []))
      by (apply spec_skip; lia).
    pose proof (zlen_nonneg src). cbn [state_ok]. split_and!; try done; lia.
  - exists State_header, src, tail, []. rewrite app_nil_r.
    split_and!; try done; [apply State_header_ok|]. cbn [abs].
    replace remaining with (zlen src) by (unfold n in Hn; lia).
    by apply spec_skip_done.
Qed.

Lemma step_refines_all cap st rest out :
  0 <= cap -> rest <> [] -> bytes rest -> state_ok cap st ->
  step_refines cap st rest out (step cap st rest out).
Proof.
  intros Hcap Hne Hb Hst. destruct st.
  - by apply step_header_refines.
  - by apply step_body_refines.
  - by apply step_skip_refines.
  - exists St_Resync, rest, [], []. rewrite !app_nil_r. split_and!; try done.
    apply spec_resync.
Qed.

(** The loop ends within as many rounds as there are bytes, without a panic, and
    does what the specification does. *)
Lemma push_loop_refines cap rest fuel st out :
  0 <= cap -> bytes rest -> state_ok cap st -> (length rest <= fuel)%nat ->
  exists st' new,
    push_loop fuel cap st rest out = Some (st', out ++ new) /\
    state_ok cap st' /\ spec_bytes cap (abs st) rest = (abs st', new).
Proof.
  intros Hcap. revert fuel st out.
  induction rest as [rest IH] using (induction_ltof1 _ (@length Z)); unfold ltof in IH.
  intros fuel st out Hb Hst Hfuel. destruct rest as [|b rest'] eqn:E.
  { exists st, []. rewrite app_nil_r. by destruct fuel. }
  rewrite <- E in *. destruct fuel as [|fuel]; [rewrite E in Hfuel; simpl in Hfuel; lia|].
  destruct (step_refines_all cap st rest out) as (st1 & src & tail & new & Hs & Hr & Hne & Hok & Hsp);
    try done; [by rewrite E|].
  replace (push_loop (S fuel) cap st rest out) with
    (r ← step cap st rest out;
     let '(state, rest, out) := r in push_loop fuel cap state rest out) by (by rewrite E).
  rewrite Hs. cbn [mbind option_bind]. rewrite Hr in Hb, Hfuel. apply Forall_app in Hb as [_ Hb].
  assert (1 <= length src)%nat by (destruct src; [done|simpl; lia]). rewrite length_app in Hfuel.
  destruct (IH tail) with (fuel := fuel) (st := st1) (out := out ++ new)
    as (st2 & new2 & -> & Hok2 & Hsp2); try done; [rewrite Hr, length_app; lia|lia|].
  exists st2, (new ++ new2). rewrite app_assoc. split_and!; [done|done|].
  by rewrite Hr, spec_bytes_app, Hsp, Hsp2.
Qed.

Definition ar_ok (self : AgentReassembler) : Prop :=
  0 <= ar_max_message_size self /\ state_ok (ar_max_message_size self) (ar_state self).

Lemma reassembler_new_ok cap : 0 <= cap -> ar_ok (AgentReassembler_new cap).
Proof. intros Hc. split; [done|apply State_header_ok]. Qed.

Lemma push_refines self chunk : ar_ok self -> bytes chunk ->
  exists self' out, ar_push self chunk = Some (self', out) /\ ar_ok self' /\
    ar_max_message_size self' = ar_max_message_size self /\
    spec_bytes (ar_max_message_size self) (spec_boundary (abs (ar_state self))) chunk =
      (abs (ar_state self'), out).
Proof.
  intros [Hc Hst] Hb. unfold ar_push.
  assert (state_ok (ar_max_message_size self) (resume (ar_state self)) /\
    abs (resume (ar_state self)) = spec_boundary (abs (ar_state self))) as [Hst' <-]
    by (destruct (ar_state self); split; done || apply State_header_ok).
  destruct (push_loop_refines (ar_max_message_size self) chunk (length chunk)
    (resume (ar_state self)) [])
    as (st' & new & -> & Hok & Hsp); try done.
  cbn [mbind option_bind fst snd]. rewrite app_nil_l.
  exists (mkAgentReassembler (ar_max_message_size self) st'), new. by split_and!.
Qed.

Lemma push_all_refines self chunks : ar_ok self -> Forall (Forall u8) chunks ->
  exists self' out, push_all self chunks = Some (self', out) /\ ar_ok self' /\
    ar_max_message_size self' = ar_max_message_size self /\
    spec_chunks (ar_max_message_size self) (abs (ar_state self)) chunks =
      (abs (ar_state self'), out).
Proof.
  intros Hok HF. revert self Hok.
  induction HF as [|chunk chunks Hb _ IH]; intros self Hok; simpl; [by eexists _, _|].
  destruct (push_refines self chunk Hok Hb) as (s1 & o1 & -> & Hok1 & Hmax1 & ->).
  cbn [mbind option_bind fst snd].
  destruct (IH s1 Hok1) as (s2 & o2 & -> & Hok2 & Hmax2 & Hsp). cbn [mbind option_bind fst snd].
  rewrite Hmax1 in *. rewrite Hsp. exists s2, (o1 ++ o2). by split_and!.
Qed.

(** * What the specification guarantees *)

Definition spec_ok (cap : Z) (st : spec) : Prop :=
  match st with
  | Sp_Header got => zlen got < VdAgentMessageHeader_SIZE /\ bytes got
  | Sp_Body h got =>
      VdAgentMessageHeader_protocol h = VD_AGENT_PROTOCOL /\
      zlen got < VdAgentMessageHeader_size h <= cap
  | _ => True
  end.

(** Good items and, unless one of them is a bad header, no resynchronisation. *)
Definition spec_outcome (cap : Z) (st : spec) (r : spec * list AgentStreamItem) : Prop :=
  spec_ok cap (fst r) /\ Forall (fun i => item_ok cap i = true) (snd r) /\
  (fst r = Sp_Resync -> st = Sp_Resync \/ has_bad_protocol (snd r) = true).

Lemma spec_header_outcome cap bs st : zlen bs = VdAgentMessageHeader_SIZE -> bytes bs ->
  spec_outcome cap st (spec_header cap bs).
Proof.
  intros Hl Hb. destruct (decode_full_header bs Hl Hb) as (h & E & (_ & _ & _ & [Hs _])).
  unfold spec_header. rewrite E.
  destruct (Z.eqb_spec (VdAgentMessageHeader_protocol h) VD_AGENT_PROTOCOL) as [Hp|Hp];
    simpl negb; cbv iota.
  2: { split_and!; simpl; auto. constructor; [|done]. simpl. apply negb_true_iff. by apply Z.eqb_neq. }
  destruct (Z.ltb_spec cap (VdAgentMessageHeader_size h)).
  { split_and!; try done. constructor; [|done]. simpl. by apply Z.ltb_lt. }
  destruct (Z.eqb_spec (VdAgentMessageHeader_size h) 0) as [E0|E0].
  { split_and!; try done. constructor; [|done]. simpl. rewrite Hp, E0 in *. simpl.
    by apply Z.leb_le. }
  split_and!; simpl; try done; rewrite ?zlen_nil; lia.
Qed.

Lemma spec_byte_outcome cap st b : spec_ok cap st -> u8 b ->
  spec_outcome cap st (spec_byte cap st b).
Proof.
  intros Hst Hb. destruct st as [got|h got|n|]; cbn [spec_byte].
  - destruct Hst as [Hl Hg]. rewrite zlen_snoc.
    assert (bytes (got ++ [b])) by (apply Forall_app; split; [done|by constructor]).
    case_bool; [|apply spec_header_outcome; [rewrite zlen_snoc; lia|done]].
    split_and!; try done. cbn. by rewrite zlen_snoc.
  - destruct Hst as [Hp Hl]. rewrite zlen_snoc. case_bool.
    + split_and!; try done; cbn; rewrite ?zlen_snoc; lia.
    + split_and!; try done. constructor; [|done]. cbn. rewrite zlen_snoc, Hp. simpl.
      apply andb_true_iff. split; [apply Z.eqb_eq; lia|apply Z.leb_le; lia].
  - case_bool; by split_and!.
  - split_and!; simpl; auto.
Qed.

Lemma has_bad_app a b : has_bad_protocol (a ++ b) = has_bad_protocol a || has_bad_protocol b.
Proof. apply existsb_app. Qed.

Lemma spec_bytes_outcome cap bs : bytes bs -> forall st, spec_ok cap st ->
  spec_outcome cap st (spec_bytes cap st bs).
Proof.
  induction 1 as [|b bs Hb _ IH]; intros st Hst; simpl; [by split_and!; auto|].
  destruct (spec_byte_outcome cap st b Hst Hb) as (Hok & HF & Hr).
  destruct (spec_byte cap st b) as [st1 o1]. cbn [fst snd] in *.
  destruct (IH st1 Hok) as (Hok2 & HF2 & Hr2). destruct (spec_bytes cap st1 bs) as [st2 o2].
  cbn [fst snd] in *. split_and!; [done|by apply Forall_app|]. cbn [fst snd].
  intros E. rewrite has_bad_app.
  destruct (Hr2 E) as [->| ->]; [|right; by rewrite orb_true_r].
  destruct (Hr eq_refl) as [?| ->]; [by left|by right].
Qed.

Lemma spec_boundary_ok cap st : spec_ok cap st -> spec_ok cap (spec_boundary st).
Proof. by destruct st. Qed.

Lemma spec_chunks_ok cap chunks : Forall (Forall u8) chunks -> forall st, spec_ok cap st ->
  Forall (fun i => item_ok cap i = true) (snd (spec_chunks cap st chunks)).
Proof.
  induction 1 as [|c cs Hc _ IH]; intros st Hst; simpl; [done|].
  destruct (spec_bytes_outcome cap c Hc _ (spec_boundary_ok cap st Hst)) as (Hok & HF & _).
  destruct (spec_bytes cap _ c) as [st1 o1]. specialize (IH st1 Hok).
  destruct (spec_chunks cap st1 cs) as [st2 o2]. by apply Forall_app.
Qed.

(** Without a bad header the chunk boundaries do not matter. *)
Lemma spec_chunks_concat cap chunks : Forall (Forall u8) chunks -> forall st,
  spec_ok cap st -> st <> Sp_Resync ->
  has_bad_protocol (snd (spec_bytes cap st (concat chunks))) = false ->
  spec_chunks cap st chunks = spec_bytes cap st (concat chunks).
Proof.
  induction 1 as [|c cs Hc _ IH]; intros st Hst Hr; simpl; [done|].
  rewrite spec_bytes_app. assert (spec_boundary st = st) as -> by (by destruct st).
  destruct (spec_bytes_outcome cap c Hc st Hst) as (Hok & _ & Hres).
  destruct (spec_bytes cap st c) as [st1 o1]. cbn [fst snd] in *. specialize (IH st1 Hok).
  destruct (spec_bytes cap st1 (concat cs)) as [st2 o2]. cbn [snd] in *.
  rewrite has_bad_app. intros [Hb1 Hb2]%orb_false_iff.
  rewrite IH; [done| |done]. intros ->. destruct (Hres eq_refl); [done|congruence].
Qed.

(** ** Whole messages *)

(** A message on the wire. *)
Definition agent_wire (m : AgentMessage) : list Z := encode (am_header m) ++ am_payload m.

Definition agent_message_ok (cap : Z) (m : AgentMessage) : Prop :=
  wire_wf (am_header m) /\ VdAgentMessageHeader_protocol (am_header m) = VD_AGENT_PROTOCOL /\
  VdAgentMessageHeader_size (am_header m) = zlen (am_payload m) /\
  zlen (am_payload m) <= cap /\ bytes (am_payload m).

Lemma zlen_agent_header h : zlen (encode (T := VdAgentMessageHeader) h) = 20.
Proof. reflexivity. Qed.

Lemma spec_message cap m : agent_message_ok cap m ->
  spec_bytes cap (Sp_Header []) (agent_wire m) = (Sp_Header [], [Message m]).
Proof.
  destruct m as [h p]. intros (Hh & Hp & Hs & Hc & Hb). cbn [am_header am_payload] in *.
  unfold agent_wire. cbn [am_header am_payload].
  rewrite spec_bytes_app, spec_complete_header by done. rewrite app_nil_l.
  unfold spec_header. pose proof (laws_ignores_trailing h [] Hh 
    ltac:(rewrite app_nil_r, zlen_agent_header; done)) as Hd.
  rewrite app_nil_r in Hd. rewrite Hd, Hp. simpl negb. cbv iota. rewrite Hs.
  rewrite (proj2 (Z.ltb_ge _ _)) by done. destruct (Z.eqb_spec (zlen p) 0) as [E|E].
  { by rewrite (zlen_0_nil p E). }
  rewrite spec_complete_body; [done| |by rewrite zlen_nil].
  apply nonempty_zlen. pose proof (zlen_nonneg p). lia.
Qed.

Lemma spec_messages cap ms : Forall (agent_message_ok cap) ms ->
  spec_bytes cap (Sp_Header []) (concat (map agent_wire ms)) = (Sp_Header [], map Message ms).
Proof.
  induction 1 as [|m ms Hm _ IH]; cbn [map concat]; [done|].
  by rewrite spec_bytes_app, spec_message, IH.
Qed.

Lemma has_bad_messages ms : has_bad_protocol (map Message ms) = false.
Proof. by induction ms. Qed.

(** A reassembler that awaits a header and has none of it is at a boundary. *)
Lemma boundary_abs self : ar_ok self -> abs (ar_state self) = Sp_Header [] ->
  at_message_boundary self = true.
Proof.
  intros [_ Hok] Habs. unfold at_message_boundary.
  destruct (ar_state self) as [buf filled| | |]; try done.
  injection Habs as Habs. destruct Hok as (Hl & Hf & _).
  apply Z.eqb_eq. assert (zlen (take (Z.to_nat filled) buf) = 0) as H0 by (by rewrite Habs).
  rewrite zlen_take in H0. lia.
Qed.

(** Fed the start of a stream of messages, cut anywhere, the reassembler
    returns the messages that are complete, and no other item. *)
Lemma push_messages_prefix cap ms chunks rest :
  0 <= cap -> Forall (agent_message_ok cap) ms -> Forall (Forall u8) chunks ->
  concat chunks ++ rest = concat (map agent_wire ms) ->
  exists self n, push_all (AgentReassembler_new cap) chunks = Some (self, map Message (take n ms)) /\
    (rest = [] -> at_message_boundary self = true /\ (length ms <= n)%nat).
Proof.
  intros Hc Hms HF Hcat. pose proof (spec_messages cap ms Hms) as Hall.
  rewrite <- Hcat, spec_bytes_app in Hall.
  destruct (push_all_refines (AgentReassembler_new cap) chunks (reassembler_new_ok cap Hc) HF)
    as (self & out & E & Hok & _ & Hsp).
  cbn [ar_max_message_size AgentReassembler_new ar_state] in *.
  change (abs State_header) with (Sp_Header []) in Hsp.
  destruct (spec_bytes cap (Sp_Header []) (concat chunks)) as [st1 o1] eqn:E1.
  destruct (spec_bytes cap st1 rest) as [st2 o2] eqn:E2. injection Hall as -> Ho.
  assert (o1 = map Message (take (length o1) ms)) as Ho1.
  { by rewrite <- firstn_map, <- Ho, take_app_length. }
  rewrite spec_chunks_concat in Hsp; [|done|done|done|].
  2: { rewrite E1. cbn [snd]. rewrite Ho1. apply has_bad_messages. }
  rewrite E1 in Hsp. injection Hsp as Habs <-.
  exists self, (length o1). rewrite <- Ho1. split; [done|]. intros ->.
  injection E2 as -> <-. split; [by apply boundary_abs|].
  rewrite app_nil_r in Ho. by rewrite Ho, length_map.
Qed.

(** The cuts of the fuzz target lose nothing. *)
Lemma cut_agent_data_concat fuel seed rest : (length rest <= fuel)%nat ->
  concat (cut_agent_data fuel seed rest) = rest.
Proof.
  revert seed rest. induction fuel as [|fuel IH]; intros seed rest Hf.
  { by destruct rest; [|simpl in Hf; lia]. }
  destruct rest as [|b rest]; [done|].
  cbn [cut_agent_data]. set (n := Z.to_nat _). cbn [concat].
  rewrite IH; [apply take_drop|]. rewrite length_drop.
  assert (1 <= n)%nat; [|simpl in *; lia].
  unfold n. rewrite zlen_cons. pose proof (zlen_nonneg rest).
  pose proof (Z.mod_pos_bound (Z.shiftr (as_unsigned 32 (seed * 1103515245 + 12345)) 8)
    VD_AGENT_MAX_DATA_SIZE ltac:(done)). lia.
Qed.

Lemma Forall_concat_inv {A} (P : A -> Prop) ls : Forall P (concat ls) -> Forall (Forall P) ls.
Proof.
  induction ls as [|l ls IH]; simpl; [constructor|]. intros [H1 H2]%Forall_app.
  constructor; auto.
Qed.

(** * Properties *)

(** C2: The reassembler refines the byte-at-a-time specification: fed any
    AGENT_DATA bodies in any sizes, [push] terminates without a panic, keeps its
    invariant (a partial header, or an incomplete body within the cap whose
    buffer is at most the declared size and at most twice the bytes that
    arrived), and emits exactly what the specification emits. *)
Theorem agent_push_refines cap chunks :
  0 <= cap -> Forall (Forall u8) chunks ->
  exists self out, push_all (AgentReassembler_new cap) chunks = Some (self, out) /\
    ar_ok self /\ spec_chunks cap (Sp_Header []) chunks = (abs (ar_state self), out).
Proof.
  intros Hc HF.
  destruct (push_all_refines (AgentReassembler_new cap) chunks (reassembler_new_ok cap Hc) HF)
    as (self & out & E & Hok & _ & Hsp). by exists self, out.
Qed.

Lemma agent_push_refines_witness :
  exists self out, push_all (AgentReassembler_new 8) [[1; 0; 0]; [0; 4]] = Some (self, out) /\
    ar_ok self /\ ar_state self = St_Header ([1; 0; 0; 0; 4] ++ replicate 15 0) 5.
Proof.
  destruct (agent_push_refines 8 [[1; 0; 0]; [0; 4]]) as (self & out & E & Hok & _);
    [lia|repeat constructor; done|].
  exists self, out. split; [exact E|]. split; [exact Hok|].
  vm_compute in E. by injection E as <- _.
Defined.

(** Reassembly round trip: however a stream of well-formed agent messages is
    cut into AGENT_DATA bodies, headers included, the reassembler returns exactly
    those messages in order and ends on a message boundary. *)
Theorem agent_reassembly_round_trip cap ms chunks :
  0 <= cap -> Forall (agent_message_ok cap) ms -> Forall (Forall u8) chunks ->
  concat chunks = concat (map agent_wire ms) ->
  exists self, push_all (AgentReassembler_new cap) chunks = Some (self, map Message ms) /\
    at_message_boundary self = true.
Proof.
  intros Hc Hms HF Hcat. rewrite <- (app_nil_r (concat chunks)) in Hcat.
  destruct (push_messages_prefix cap ms chunks [] Hc Hms HF Hcat) as (self & n & E & Hb).
  destruct (Hb eq_refl) as [? Hn]. exists self. rewrite firstn_all2 in E by lia. done.
Qed.

Definition two_messages : list AgentMessage :=
  [mkAgentMessage (VdAgentMessageHeader_new 4 3) [7; 8; 9];
   mkAgentMessage (VdAgentMessageHeader_new 6 0) []].

(** Three chunks: inside the first header, and inside the second. *)
Lemma agent_reassembly_round_trip_witness :
  let stream := concat (map agent_wire two_messages) in
  exists self,
    push_all (AgentReassembler_new 64) [take 5 stream; take 20 (drop 5 stream); drop 25 stream] =
      Some (self, map Message two_messages) /\ at_message_boundary self = true.
Proof.
  apply agent_reassembly_round_trip.
  - lia.
  - repeat constructor; vm_compute; congruence.
  - apply (bool_decide_unpack _). vm_compute. exact I.
  - reflexivity.
Defined.

(** The assertions of the reassembly fuzz target hold for every input: each
    message carries exactly the body its header declared, within the cap, with
    the agent protocol; refusals are justified; and unless a bad header made a
    run drop bytes, cutting the stream differently does not change the output. *)
Theorem fuzz_agent_reassembly_passes data :
  bytes data -> fuzz_agent_reassembly data = true.
Proof.
  intros Hb. destruct data as [|a [|b [|seed stream]]]; try done.
  cbn [fuzz_agent_reassembly]. set (cap := from_le [a; b] mod 8192).
  assert (0 <= cap) as Hc by (apply Z.mod_pos_bound; lia).
  assert (bytes stream) as Hs
    by (inversion Hb as [|? ? _ Hb1]; inversion Hb1 as [|? ? _ Hb2]; by inversion Hb2).
  set (chunks := cut_agent_data (length stream) seed stream).
  assert (concat chunks = stream) as Hcat by (by apply cut_agent_data_concat).
  assert (Forall (Forall u8) chunks) as HF by (apply Forall_concat_inv; by rewrite Hcat).
  unfold fuzz_run. fold chunks.
  destruct (push_all_refines (AgentReassembler_new cap) chunks (reassembler_new_ok cap Hc) HF)
    as (s1 & o1 & -> & _ & _ & E1).
  destruct (push_refines (AgentReassembler_new cap) stream (reassembler_new_ok cap Hc) Hs)
    as (s2 & o2 & -> & _ & _ & E2). cbn [fmap option_fmap option_map snd].
  cbn [ar_max_message_size AgentReassembler_new ar_state] in *.
  change (spec_boundary (abs State_header)) with (Sp_Header []) in E2.
  change (abs State_header) with (Sp_Header []) in E1.
  apply andb_true_iff. split.
  - apply forallb_forall. pose proof (spec_chunks_ok cap chunks HF (Sp_Header [])) as Hi.
    rewrite E1 in Hi. specialize (Hi ltac:(done)). cbn [snd] in Hi.
    by apply List.Forall_forall.
  - destruct (has_bad_protocol o1); [done|]. destruct (has_bad_protocol o2) eqn:Hb2; [done|].
    apply bool_decide_eq_true. pose proof (spec_chunks_concat cap chunks HF (Sp_Header [])) as Hx.
    rewrite Hcat, E1, E2 in Hx. specialize (Hx ltac:(done) ltac:(done) Hb2). by injection Hx.
Qed.

Lemma fuzz_agent_reassembly_passes_witness :
  fuzz_agent_reassembly ([64; 0; 7] ++ concat (map agent_wire two_messages)) = true.
Proof.
  apply fuzz_agent_reassembly_passes. apply (bool_decide_unpack _). vm_compute. exact I.
Defined.
