(* ===== verification/LinkMess.v ===== *)
(** The messages of the link handshake: [shakenfist-spice-protocol/src/link.rs],
    lines 22 to 33 and 146 to 492, the capability checks of lines 632 to 757, and
    the enumerations and capability words of [constants.rs] they use.

    Both messages are a 16-byte header that declares the size of a body.  Parsing
    takes any bytes without a panic; a message that the client or the server role
    sends parses back unchanged.  [u32] sums that overflow are panics. *)
From Stdlib Require Import ZArith Lia List String.
From stdpp Require Import base numbers list tactics.
From S2P Require Import Prelude Reader MsgCommon.

Open Scope Z_scope.
Open Scope rust_scope.

(** * Constants *)

Definition MAX_LINK_MESSAGE_SIZE : Z := 4096.
Definition MAX_CAP_WORDS : Z := 16.
Definition TICKET_BLOB_BYTES : Z := 128.

(** ["REDQ"] *)
Definition SPICE_MAGIC : list Z := [82; 69; 68; 81].
Definition SPICE_VERSION_MAJOR : Z := 2.
Definition SPICE_VERSION_MINOR : Z := 2.
Definition AUTH_MECHANISM_SPICE : Z := 1.

Inductive ChannelType : Type :=
| Ch_Main | Ch_Display | Ch_Inputs | Ch_Cursor | Ch_Playback | Ch_Record
| Ch_Tunnel | Ch_Smartcard | Ch_Usbredir | Ch_Port | Ch_Webdav.

(** [channel_type as u8] *)
Definition ChannelType_as_u8 (c : ChannelType) : Z :=
  match c with
  | Ch_Main => 1 | Ch_Display => 2 | Ch_Inputs => 3 | Ch_Cursor => 4
  | Ch_Playback => 5 | Ch_Record => 6 | Ch_Tunnel => 7 | Ch_Smartcard => 8
  | Ch_Usbredir => 9 | Ch_Port => 10 | Ch_Webdav => 11
  end.

Definition ChannelType_from_u8 (value : Z) : option ChannelType :=
  match value with
  | 1 => Some Ch_Main | 2 => Some Ch_Display | 3 => Some Ch_Inputs
  | 4 => Some Ch_Cursor | 5 => Some Ch_Playback | 6 => Some Ch_Record
  | 7 => Some Ch_Tunnel | 8 => Some Ch_Smartcard | 9 => Some Ch_Usbredir
  | 10 => Some Ch_Port | 11 => Some Ch_Webdav
  | _ => None
  end.

(** ** Capability words *)

Definition cap_AUTH_SELECTION : Z := Z.shiftl 1 0.
Definition cap_AUTH_SPICE : Z := Z.shiftl 1 1.
Definition cap_MINI_HEADER : Z := Z.shiftl 1 3.
Definition cap_DEFAULT_COMMON : Z :=
  Z.lor (Z.lor cap_AUTH_SELECTION cap_AUTH_SPICE) cap_MINI_HEADER.

Definition cap_MAIN_SEMI_SEAMLESS_MIGRATE : Z := Z.shiftl 1 0.
Definition cap_MAIN_AGENT_CONNECTED_TOKENS : Z := Z.shiftl 1 2.
Definition cap_MAIN_SEAMLESS_MIGRATE : Z := Z.shiftl 1 3.
Definition cap_DEFAULT_MAIN : Z :=
  Z.lor (Z.lor cap_MAIN_SEMI_SEAMLESS_MIGRATE cap_MAIN_AGENT_CONNECTED_TOKENS)
    cap_MAIN_SEAMLESS_MIGRATE.
Definition cap_DEFAULT_OTHER : Z :=
  Z.lor cap_MAIN_SEMI_SEAMLESS_MIGRATE cap_MAIN_SEAMLESS_MIGRATE.

Definition cap_DISPLAY_CODEC_H264 : Z := Z.shiftl 1 11.
(** SIZED_STREAM, MONITORS_CONFIG, COMPOSITE, A8_SURFACE, STREAM_REPORT,
    LZ4_COMPRESSION, PREF_COMPRESSION, MULTI_CODEC, CODEC_MJPEG, CODEC_H264 and
    PREF_VIDEO_CODEC_TYPE. *)
Definition cap_DEFAULT_DISPLAY : Z :=
  foldl (fun word bit => Z.lor word (Z.shiftl 1 bit)) 0 [0; 1; 2; 3; 4; 5; 6; 8; 9; 11; 12].
Definition cap_DEFAULT_PLAYBACK : Z := Z.shiftl 1 3.
Definition cap_DEFAULT_SPICEVMC : Z := Z.shiftl 1 0.

Definition default_channel_caps (channel_type : ChannelType) : Z :=
  match channel_type with
  | Ch_Display => cap_DEFAULT_DISPLAY
  | Ch_Usbredir => cap_DEFAULT_SPICEVMC
  | Ch_Main => cap_DEFAULT_MAIN
  | Ch_Playback => cap_DEFAULT_PLAYBACK
  | _ => cap_DEFAULT_OTHER
  end.

Inductive H264Offer : Type := H264_Off | H264_AfterMjpeg | H264_Preferred.

Definition display_channel_caps (h264 : H264Offer) : Z :=
  match h264 with
  | H264_Off => Z.land cap_DEFAULT_DISPLAY (Z.lxor cap_DISPLAY_CODEC_H264 u32_max)
  | H264_AfterMjpeg | H264_Preferred => cap_DEFAULT_DISPLAY
  end.

(** * The messages *)

Record SpiceLinkMess : Type := mkSpiceLinkMess {
  lm_connection_id : Z;
  lm_channel_type : Z;
  lm_channel_id : Z;
  lm_common_caps : list Z;
  lm_channel_caps : list Z
}.

Definition SpiceLinkMess_new (connection_id : Z) (channel_type : ChannelType)
    (channel_id common_caps channel_caps : Z) : SpiceLinkMess :=
  mkSpiceLinkMess connection_id (ChannelType_as_u8 channel_type) channel_id
    [common_caps] [channel_caps].

(** The sum of two [u32]s: [None] is the overflow panic. *)
Definition u32_add (a b : Z) : option Z :=
  if a + b <=? u32_max then Some (a + b) else None.

Definition write_caps (buf : list Z) (caps : list Z) : list Z :=
  foldl (fun buf cap => buf <+ to_le 4 cap) buf caps.

(** Magic, version and size. *)
Definition link_header (size : Z) : list Z :=
  [] <+ SPICE_MAGIC <+ to_le 4 SPICE_VERSION_MAJOR <+ to_le 4 SPICE_VERSION_MINOR
     <+ to_le 4 (as_unsigned 32 size).

Definition SpiceLinkMess_serialize (self : SpiceLinkMess) : option (list Z) :=
  let num_common_caps := as_unsigned 32 (zlen (lm_common_caps self)) in
  let num_channel_caps := as_unsigned 32 (zlen (lm_channel_caps self)) in
  let caps_offset := 18 in
  caps ← u32_add num_common_caps num_channel_caps;
  let size := caps_offset + caps * 4 in
  let buf := link_header size <+ to_le 4 (lm_connection_id self) in
  let buf := push (push buf (lm_channel_type self)) (lm_channel_id self) in
  let buf := buf <+ to_le 4 num_common_caps <+ to_le 4 num_channel_caps
                 <+ to_le 4 caps_offset in
  Some (write_caps (write_caps buf (lm_common_caps self)) (lm_channel_caps self)).

(** Run a parser on another reader. *)
Definition in_reader {A} (r : BoundedReader) (m : Rd A) : Rd A := fun s => (fst (m r), s).

(** The header both parsers start with; [what] names the message in the error. *)
Definition parse_link_header (what : string) : Rd Z :=
  let? magic := read_array 4 in
  if negb (bool_decide (magic = SPICE_MAGIC)) then throw (BadMagic magic)
  else
    let? major := read_u32 in
    let? minor := read_u32 in
    if negb (major =? SPICE_VERSION_MAJOR) then throw (UnsupportedVersion major minor)
    else
      let? size := read_u32 in
      if MAX_LINK_MESSAGE_SIZE <? size then throw (TooLarge what size MAX_LINK_MESSAGE_SIZE)
      else ret size.

Definition parse_link_mess_body (size : Z) : Rd SpiceLinkMess :=
  let? connection_id := read_u32 in
  let? channel_type := read_u8 in
  let? channel_id := read_u8 in
  let? num_common_caps := read_u32 in
  let? num_channel_caps := read_u32 in
  let? caps_offset := read_u32 in
  match checked_sub size caps_offset with
  | None => throw (BadOffset caps_offset 0 size)
  | Some caps_len =>
      let? caps := sub_reader caps_offset caps_len in
      in_reader caps
        (let? common_caps := read_vec_u32 num_common_caps MAX_CAP_WORDS in
         let? channel_caps := read_vec_u32 num_channel_caps MAX_CAP_WORDS in
         ret (mkSpiceLinkMess connection_id channel_type channel_id common_caps channel_caps))
  end.

Definition SpiceLinkMess_parse (data : list Z) : result LinkError SpiceLinkMess :=
  fst ((let? size := parse_link_header "link message size" in
        let? body := sub_reader 16 size in
        in_reader body (parse_link_mess_body size)) (reader_new data)).

Record SpiceLinkReply : Type := mkSpiceLinkReply {
  lr_error : SpiceError;
  lr_pub_key : list Z;
  lr_common_caps : list Z;
  lr_channel_caps : list Z
}.

Definition parse_link_reply_body : Rd SpiceLinkReply :=
  let? error := read_u32 in
  let? pub_key := read_bytes 162 in
  let? num_common_caps := read_u32 in
  let? num_channel_caps := read_u32 in
  let? _caps_offset := read_u32 in
  let? common_caps := read_vec_u32 num_common_caps MAX_CAP_WORDS in
  let? channel_caps := read_vec_u32 num_channel_caps MAX_CAP_WORDS in
  ret (mkSpiceLinkReply (SpiceError_from_u32 error) pub_key common_caps channel_caps).

Definition SpiceLinkReply_parse (data : list Z) : result LinkError SpiceLinkReply :=
  fst ((let? size := parse_link_header "link reply size" in
        let? body := sub_reader 16 size in
        in_reader body parse_link_reply_body) (reader_new data)).

Definition SpiceLinkReply_error_reply (error : SpiceError) : SpiceLinkReply :=
  mkSpiceLinkReply error (replicate 162 0) [] [].

Definition SpiceLinkReply_serialize (self : SpiceLinkReply) : result LinkError (list Z) :=
  if negb (zlen (lr_pub_key self) =? 162) then Err (BadKeyLength (zlen (lr_pub_key self)))
  else
    let num_common_caps := as_unsigned 32 (zlen (lr_common_caps self)) in
    let num_channel_caps := as_unsigned 32 (zlen (lr_channel_caps self)) in
    let! caps := rlift (u32_add num_common_caps num_channel_caps) in
    let caps_offset := if 0 <? caps then 178 else 0 in
    let size := 178 + caps * 4 in
    let buf := link_header size <+ to_le 4 (SpiceError_to_u32 (lr_error self))
                 <+ lr_pub_key self <+ to_le 4 num_common_caps
                 <+ to_le 4 num_channel_caps <+ to_le 4 caps_offset in
    Ok (write_caps (write_caps buf (lr_common_caps self)) (lr_channel_caps self)).

(** * Capability checks *)

Definition REQUIRED_ADVERTISED_CAPS : list (Z * string) :=
  [(cap_AUTH_SELECTION, "AUTH_SELECTION"%string); (cap_MINI_HEADER, "MINI_HEADER"%string)].

Definition REQUIRED_SERVER_CAPS : list (Z * string) :=
  [(cap_AUTH_SELECTION, "AUTH_SELECTION"%string); (cap_AUTH_SPICE, "AUTH_SPICE"%string);
   (cap_MINI_HEADER, "MINI_HEADER"%string)].

Definition check_required_common_caps (set : string) (required : list (Z * string))
    (common_caps : list Z) : result LinkError unit :=
  let word0 := default 0 (head common_caps) in
  let missing :=
    map snd (List.filter (fun '(bit, _) => Z.land word0 bit =? 0) required) in
  match missing with
  | [] => Ok tt
  | _ => Err (MissingRequiredCaps set missing common_caps)
  end.

Definition SpiceLinkReply_check_client_requirements (self : SpiceLinkReply) : result LinkError unit :=
  check_required_common_caps "server" REQUIRED_SERVER_CAPS (lr_common_caps self).

(** [for (what, caps) in [..]] over the two sets. *)
Fixpoint check_cap_words (sets : list (string * list Z)) : result LinkError unit :=
  match sets with
  | [] => Ok tt
  | (what, caps) :: sets =>
      if MAX_CAP_WORDS <? zlen caps then Err (TooLarge what (zlen caps) MAX_CAP_WORDS)
      else check_cap_words sets
  end.

Definition check_advertised_caps (common_caps channel_caps : list Z) : result LinkError unit :=
  let! _ok := check_cap_words
    [("advertised common capability words"%string, common_caps);
     ("advertised channel capability words"%string, channel_caps)] in
  check_required_common_caps "advertised" REQUIRED_ADVERTISED_CAPS common_caps.

(** * What the wire carries *)

(** The words fit their count field and the parsers' cap. *)
Definition caps_ok (caps : list Z) : Prop := Forall u32 caps /\ zlen caps <= MAX_CAP_WORDS.

Record link_mess_wf (m : SpiceLinkMess) : Prop := {
  lmw_connection_id : u32 (lm_connection_id m);
  lmw_channel_type : u8 (lm_channel_type m);
  lmw_channel_id : u8 (lm_channel_id m);
  lmw_common_caps : caps_ok (lm_common_caps m);
  lmw_channel_caps : caps_ok (lm_channel_caps m)
}.

Record link_reply_wf (r : SpiceLinkReply) : Prop := {
  lrw_pub_key : zlen (lr_pub_key r) = 162 /\ bytes (lr_pub_key r);
  lrw_common_caps : caps_ok (lr_common_caps r);
  lrw_channel_caps : caps_ok (lr_channel_caps r)
}.

#[export] Instance caps_ok_dec caps : Decision (caps_ok caps).
Proof. unfold caps_ok. apply _. Defined.

Definition cap_bytes (caps : list Z) : list Z := concat (map (to_le 4) caps).

Lemma zlen_cap_bytes caps : zlen (cap_bytes caps) = 4 * zlen caps.
Proof. apply zlen_concat_map. intros. apply zlen_to_le. Qed.

Lemma write_caps_eq buf caps : write_caps buf caps = buf ++ cap_bytes caps.
Proof. by apply foldl_extend. Qed.

Lemma link_header_eq size :
  link_header size = SPICE_MAGIC ++ to_le 4 2 ++ to_le 4 2 ++ to_le 4 (as_unsigned 32 size).
Proof. unfold link_header, extend_from_slice. by rewrite <- !app_assoc. Qed.

Lemma zlen_link_header size : zlen (link_header size) = 16.
Proof. rewrite link_header_eq. unfold SPICE_MAGIC. zlen_solve. Qed.

(** The size is what the drivers read before the body. *)
Lemma link_header_size size : u32 size -> from_le (drop 12 (link_header size)) = size.
Proof.
  intros Hs. rewrite link_header_eq, as_unsigned_id by done.
  rewrite !app_assoc, drop_app_length' by done. rewrite from_le_to_le. by apply Z.mod_small.
Qed.

Definition link_mess_body (m : SpiceLinkMess) : list Z :=
  to_le 4 (lm_connection_id m) ++ [lm_channel_type m] ++ [lm_channel_id m] ++
  to_le 4 (zlen (lm_common_caps m)) ++ to_le 4 (zlen (lm_channel_caps m)) ++ to_le 4 18 ++
  cap_bytes (lm_common_caps m) ++ cap_bytes (lm_channel_caps m).

Definition link_reply_body (r : SpiceLinkReply) : list Z :=
  to_le 4 (SpiceError_to_u32 (lr_error r)) ++ lr_pub_key r ++
  to_le 4 (zlen (lr_common_caps r)) ++ to_le 4 (zlen (lr_channel_caps r)) ++
  to_le 4 (if 0 <? zlen (lr_common_caps r) + zlen (lr_channel_caps r) then 178 else 0) ++
  cap_bytes (lr_common_caps r) ++ cap_bytes (lr_channel_caps r).

Lemma caps_ok_len caps : caps_ok caps -> 0 <= zlen caps <= 16 /\ u32 (zlen caps).
Proof.
  intros [_ H]. pose proof (zlen_nonneg caps). unfold MAX_CAP_WORDS in H.
  unfold in_unsigned. lia.
Qed.

Lemma zlen_link_mess_body m :
  zlen (link_mess_body m) = 18 + (zlen (lm_common_caps m) + zlen (lm_channel_caps m)) * 4.
Proof. unfold link_mess_body. rewrite !zlen_app, !zlen_to_le, !zlen_cap_bytes. unfold zlen; cbn; lia. Qed.

Lemma zlen_link_reply_body r : zlen (lr_pub_key r) = 162 ->
  zlen (link_reply_body r) = 178 + (zlen (lr_common_caps r) + zlen (lr_channel_caps r)) * 4.
Proof.
  intros Hk. unfold link_reply_body. rewrite !zlen_app, !zlen_to_le, !zlen_cap_bytes, Hk. zlen_solve.
Qed.

Lemma link_mess_body_size m : link_mess_wf m -> 0 <= zlen (link_mess_body m) <= 146.
Proof.
  intros [_ _ _ H1 H2]. apply caps_ok_len in H1, H2. rewrite zlen_link_mess_body. lia.
Qed.

Lemma link_reply_body_size r : link_reply_wf r -> 0 <= zlen (link_reply_body r) <= 306.
Proof.
  intros [[Hk _] H1 H2]. apply caps_ok_len in H1, H2. rewrite zlen_link_reply_body by done. lia.
Qed.

Lemma serialize_mess_eq m : link_mess_wf m ->
  SpiceLinkMess_serialize m = Some (link_header (zlen (link_mess_body m)) ++ link_mess_body m).
Proof.
  intros [_ _ _ H1 H2]. apply caps_ok_len in H1 as [H1 U1], H2 as [H2 U2].
  unfold SpiceLinkMess_serialize. rewrite !as_unsigned_id by done.
  unfold u32_add, u32_max. destruct (Z.leb_spec (zlen (lm_common_caps m) + zlen (lm_channel_caps m)) (2 ^ 32 - 1)); [|lia].
  cbn [mbind option_bind]. rewrite !write_caps_eq, zlen_link_mess_body.
  unfold extend_from_slice, push, link_mess_body. by rewrite <- !app_assoc.
Qed.

Lemma serialize_reply_eq r : link_reply_wf r ->
  SpiceLinkReply_serialize r = Ok (link_header (zlen (link_reply_body r)) ++ link_reply_body r).
Proof.
  intros [[Hk _] H1 H2]. apply caps_ok_len in H1 as [H1 U1], H2 as [H2 U2].
  unfold SpiceLinkReply_serialize. rewrite Hk. cbn [negb Z.eqb Pos.eqb].
  rewrite !as_unsigned_id by done.
  unfold u32_add, u32_max. destruct (Z.leb_spec (zlen (lr_common_caps r) + zlen (lr_channel_caps r)) (2 ^ 32 - 1)); [|lia].
  cbn [rlift rbind]. rewrite !write_caps_eq, zlen_link_reply_body by done.
  unfold extend_from_slice, push, link_reply_body. by rewrite <- !app_assoc.
Qed.

(** * Parsing *)

Lemma safe_in_reader {A} r (m : Rd A) Q : reader_ok r -> safe m Q -> safe (in_reader r m) Q.
Proof.
  intros Hr Hm s Hs. unfold in_reader. specialize (Hm r Hr). destruct (m r) as [o r'].
  destruct Hm as (_ & _ & _ & Ho). split_and!; auto. lia.
Qed.

Lemma safe_sub_reader off len : 0 <= off -> 0 <= len ->
  safe (sub_reader off len) (fun r => reader_ok r /\ zlen (br_data r) = len).
Proof.
  intros Ho Hl r Hr. pose proof Hr as [Hp Hn Hb]. unfold sub_reader, bind.
  pose proof (safe_slice_at off len Ho Hl r Hr) as Hs.
  destruct (slice_at off len r) as [[s|e|] r'] eqn:E; [|done..].
  destruct Hs as (Hr' & Hd & Hle & Hlen & Hbs). split_and!; try done; cbn [br_data reader_new]; try done.
  split; cbn [br_pos br_data reader_new]; [pose proof (zlen_nonneg s); lia| |done].
  rewrite Hlen. unfold slice_at, bind, get_state in E.
  unfold checked_add in E. destruct (Z.leb_spec (off + len) usize_max); [|done].
  destruct (Z.leb_spec (off + len) (zlen (br_data r))); [lia|done].
Qed.

Lemma safe_parse_link_header what :
  safe (parse_link_header what) (fun size => 0 <= size <= MAX_LINK_MESSAGE_SIZE).
Proof.
  unfold parse_link_header, read_array.
  eapply safe_bind; [apply safe_read_bytes; lia|]. cbv beta. intros magic _.
  apply safe_if; intros _; [apply safe_throw|]. wire_safe.
  rename select (u32 _) into Hu. rename select (_ = false) into Hmax.
  apply Z.ltb_ge in Hmax. unfold in_unsigned in Hu. lia.
Qed.

Lemma sub_reader_middle pre mid post pos : zlen (pre ++ mid ++ post) <= isize_max ->
  sub_reader (zlen pre) (zlen mid) (mkReader (pre ++ mid ++ post) pos) =
  (Ok (reader_new mid), mkReader (pre ++ mid ++ post) pos).
Proof.
  intros Hlen. unfold sub_reader, bind, slice_at, get_state, checked_add.
  unfold bind. cbn [br_data]. pose proof (zlen_nonneg post). unfold isize_max, usize_max in *.
  rewrite !zlen_app in Hlen.
  cbv zeta. rewrite (proj2 (Z.leb_le (zlen pre + zlen mid) (2 ^ 64 - 1))) by lia.
  rewrite (proj2 (Z.leb_le (zlen pre + zlen mid) (zlen (pre ++ mid ++ post))))
    by (rewrite !zlen_app; lia).
  by rewrite slice_middle.
Qed.

Lemma reads_whole {A} (m : Rd A) bs a :
  reads m bs a -> zlen bs <= isize_max -> fst (m (reader_new bs)) = Ok a.
Proof.
  intros Hm Hl. specialize (Hm [] []). rewrite app_nil_l, app_nil_r, zlen_nil in Hm.
  unfold reader_new. by rewrite Hm.
Qed.

(** A framed message: the header and its body, and whatever comes behind. *)
Lemma parse_framed {A} what (parse : Z -> Rd A) body rest a :
  zlen body <= MAX_LINK_MESSAGE_SIZE ->
  fst (parse (zlen body) (reader_new body)) = Ok a ->
  zlen (link_header (zlen body) ++ body ++ rest) <= isize_max ->
  fst ((let? size := parse_link_header what in
        let? body := sub_reader 16 size in
        in_reader body (parse size)) (reader_new (link_header (zlen body) ++ body ++ rest))) = Ok a.
Proof.
  intros Hsz Ha Hlen. pose proof (zlen_nonneg body). unfold MAX_LINK_MESSAGE_SIZE in *.
  assert (reads (parse_link_header what) (link_header (zlen body)) (zlen body)) as Hh.
  { rewrite link_header_eq, as_unsigned_id by (red; lia).
    rewrite <- (app_nil_r (to_le 4 (zlen body))). unfold parse_link_header.
    eapply reads_bind; [by apply reads_bytes|]. cbv beta.
    rewrite bool_decide_true by done. cbn [negb].
    eapply reads_bind; [by apply reads_u32|]. cbv beta.
    eapply reads_bind; [by apply reads_u32|]. cbv beta. cbn [negb Z.eqb Pos.eqb SPICE_VERSION_MAJOR].
    eapply reads_bind; [apply reads_u32; red; lia|]. cbv beta.
    unfold MAX_LINK_MESSAGE_SIZE. rewrite (proj2 (Z.ltb_ge _ _)) by lia. apply reads_ret. }
  unfold bind at 1. unfold reader_new at 1.
  specialize (Hh [] (body ++ rest)). rewrite !app_nil_l, zlen_nil in Hh. rewrite Hh by done.
  unfold bind. rewrite <- (zlen_link_header (zlen body)) at 1.
  rewrite sub_reader_middle by done. exact Ha.
Qed.

Lemma reads_vec_u32_max n max xs : zlen xs = n -> n <= max -> Forall u32 xs ->
  reads (read_vec_u32 n max) (cap_bytes xs) xs.
Proof.
  intros <- Hmax HF. unfold read_vec_u32. rewrite (proj2 (Z.ltb_ge _ _)), <- length_zlen by done.
  apply reads_n. eapply Forall_impl; [|exact HF]. intros; by apply reads_u32.
Qed.

(** One read, and what the parser goes on with. *)
Lemma run_reads {A B} (m : Rd A) (k : A -> Rd B) bs a pre rest :
  reads m bs a -> zlen (pre ++ bs ++ rest) <= isize_max ->
  bind m k (mkReader (pre ++ bs ++ rest) (zlen pre)) =
  k a (mkReader ((pre ++ bs) ++ rest) (zlen (pre ++ bs))).
Proof. intros Hm Hl. unfold bind. by rewrite Hm, zlen_app, <- app_assoc. Qed.

Lemma parse_link_mess_body_eq m : link_mess_wf m ->
  fst (parse_link_mess_body (zlen (link_mess_body m)) (reader_new (link_mess_body m))) = Ok m.
Proof.
  intros Hm. pose proof (link_mess_body_size m Hm) as Hsz.
  pose proof (zlen_link_mess_body m) as Hz. destruct Hm as [U1 U2 U3 H1 H2].
  destruct (caps_ok_len _ H1) as [L1 C1], (caps_ok_len _ H2) as [L2 C2], H1 as [F1 _], H2 as [F2 _].
  set (caps := cap_bytes (lm_common_caps m) ++ cap_bytes (lm_channel_caps m)).
  assert (zlen caps = zlen (link_mess_body m) - 18) as Hc
    by (unfold caps; rewrite zlen_app, !zlen_cap_bytes; lia).
  revert Hsz Hz Hc. generalize (zlen (link_mess_body m)). intros size Hsz Hz Hc.
  assert (zlen (link_mess_body m) <= isize_max) as Hmax
    by (rewrite zlen_link_mess_body; unfold isize_max; lia).
  assert (u32 18) as U18 by (red; lia).
  unfold link_mess_body in Hmax |- *. fold caps in Hmax |- *. unfold parse_link_mess_body, reader_new.
  change 0 with (zlen (@nil Z)) at 1. rewrite <- (app_nil_l (to_le 4 (lm_connection_id m) ++ _)) in Hmax |- *.
  do 6 (erewrite run_reads; [rewrite app_assoc in Hmax | solve [eauto with wire] | exact Hmax]).
  unfold checked_sub. rewrite (proj2 (Z.leb_le _ _)) by lia.
  match goal with |- context [mkReader (?pre ++ caps)] => set (fixed := pre) in * end.
  assert (zlen fixed = 18) as Hf by (unfold fixed; rewrite !zlen_app, !zlen_to_le; done).
  replace (size - 18) with (zlen caps) by lia. clearbody fixed.
  pose proof (sub_reader_middle fixed caps [] (zlen fixed)) as Hs.
  rewrite app_nil_r, Hf in Hs. unfold bind at 1. rewrite Hf, Hs by done.
  unfold in_reader. cbn [fst]. rewrite zlen_app in Hmax. apply reads_whole; [|lia].
  eapply reads_bind; [apply reads_vec_u32_max; [done|unfold MAX_CAP_WORDS; lia|done]|]. cbv beta.
  clear -F2 L2. destruct m as [id t i cc hc].
  cbn [lm_connection_id lm_channel_type lm_channel_id lm_common_caps lm_channel_caps] in *.
  apply (reads_bind_ret (read_vec_u32 (zlen hc) MAX_CAP_WORDS) (mkSpiceLinkMess id t i cc)).
  apply reads_vec_u32_max; [done|unfold MAX_CAP_WORDS; lia|done].
Qed.

Lemma parse_link_reply_body_eq r : link_reply_wf r ->
  fst (parse_link_reply_body (reader_new (link_reply_body r))) = Ok r.
Proof.
  intros Hr. pose proof (link_reply_body_size r Hr) as Hsz. destruct Hr as [[Hk Hkb] H1 H2].
  destruct (caps_ok_len _ H1) as [L1 C1], (caps_ok_len _ H2) as [L2 C2], H1 as [F1 _], H2 as [F2 _].
  apply reads_whole; [|unfold isize_max; lia].
  unfold link_reply_body, parse_link_reply_body.
  eapply reads_bind; [apply reads_u32; by destruct (lr_error r)|]. cbv beta.
  eapply reads_bind; [by apply reads_bytes|]. cbv beta.
  eapply reads_bind; [by apply reads_u32|]. cbv beta.
  eapply reads_bind; [by apply reads_u32|]. cbv beta.
  eapply reads_bind; [apply reads_u32; by destruct (_ <? _)|]. cbv beta.
  eapply reads_bind; [apply reads_vec_u32_max; [done|unfold MAX_CAP_WORDS; lia|done]|]. cbv beta.
  replace (SpiceError_from_u32 (SpiceError_to_u32 (lr_error r))) with (lr_error r)
    by (by destruct (lr_error r)).
  destruct r as [e k cc hc]. cbn [lr_error lr_pub_key lr_common_caps lr_channel_caps] in *.
  apply (reads_bind_ret (read_vec_u32 (zlen hc) MAX_CAP_WORDS) (mkSpiceLinkReply e k cc)).
  apply reads_vec_u32_max; [done|unfold MAX_CAP_WORDS; lia|done].
Qed.

Lemma safe_read_caps n : safe (read_vec_u32 n MAX_CAP_WORDS) caps_ok.
Proof.
  unfold read_vec_u32. apply safe_if; intros Hn; [apply safe_throw|]. apply Z.ltb_ge in Hn.
  eapply safe_weaken; [apply safe_read_n, safe_read_u32|].
  intros l [Hl HF]. split; [done|]. unfold zlen, MAX_CAP_WORDS in *. lia.
Qed.

#[export] Hint Resolve safe_read_caps : wire.

Lemma safe_link_mess_body size : 0 <= size ->
  safe (parse_link_mess_body size) link_mess_wf.
Proof.
  intros Hs. unfold parse_link_mess_body. wire_safe.
  unfold checked_sub. rename select (u32 _) into Hoff. destruct Hoff as [Hoff _].
  case_match; [|apply safe_throw].
  rename select (_ = Some _) into E. destruct (Z.leb_spec a4 size); [|done]. simplify_eq.
  eapply safe_bind; [apply safe_sub_reader; lia|]. cbv beta. intros caps [Hc _].
  apply safe_in_reader; [done|]. wire_safe. by split.
Qed.

Lemma safe_link_reply_body : safe parse_link_reply_body link_reply_wf.
Proof.
  unfold parse_link_reply_body. eapply safe_bind; [apply safe_read_u32|]. cbv beta. intros e _.
  eapply safe_bind; [apply safe_read_bytes; lia|]. cbv beta. intros key Hkey. wire_safe. by split.
Qed.

(** What a whole parser gives from the safety of its body. *)
Lemma parse_framed_safe {A} what (parse : Z -> Rd A) Q data :
  (forall size, 0 <= size -> safe (parse size) Q) -> bytes data -> zlen data <= isize_max ->
  match fst ((let? size := parse_link_header what in
        let? body := sub_reader 16 size in
        in_reader body (parse size)) (reader_new data)) with
  | Ok a => Q a | Err _ => True | Panic => False
  end.
Proof.
  intros Hp Hb Hl.
  assert (safe (let? size := parse_link_header what in
        let? body := sub_reader 16 size in in_reader body (parse size)) Q) as Hs.
  { eapply safe_bind; [apply safe_parse_link_header|]. cbv beta. intros size Hsz.
    eapply safe_bind; [apply safe_sub_reader; lia|]. cbv beta. intros body [Hbody _].
    apply safe_in_reader; [done|]. apply Hp. lia. }
  specialize (Hs (reader_new data)). destruct (bind _ _ (reader_new data)) as [o r'].
  cbn [fst]. destruct Hs as (_ & _ & _ & Ho).
  - split; cbn; [pose proof (zlen_nonneg data); lia|done|done].
  - by destruct o.
Qed.

(** * Capability checks *)

(** The bits of a capability word, by name. *)
Definition has_cap (bit : Z) (caps : list Z) : Prop :=
  Z.testbit (default 0 (head caps)) bit = true.

Lemma land_bit word k : 0 <= k -> (Z.land word (Z.shiftl 1 k) =? 0) = negb (Z.testbit word k).
Proof.
  intros Hk. rewrite Z.shiftl_1_l. destruct (Z.testbit word k) eqn:E; cbn [negb].
  - apply Z.eqb_neq. intros H. apply (f_equal (fun z => Z.testbit z k)) in H.
    by rewrite Z.land_spec, Z.pow2_bits_true, E, Z.bits_0 in H.
  - apply Z.eqb_eq, Z.bits_inj'. intros n Hn.
    rewrite Z.land_spec, Z.pow2_bits_eqb, Z.bits_0 by done.
    destruct (Z.eqb_spec k n) as [<-|]; [by rewrite E|by rewrite andb_false_r].
Qed.

(** The names a check reports are the required ones that are absent, in order. *)
Definition missing_caps (required : list (Z * string)) (caps : list Z) : list string :=
  map snd (List.filter (fun '(bit, _) => negb (Z.testbit (default 0 (head caps)) bit)) required).

Definition SERVER_BITS : list (Z * string) :=
  [(0, "AUTH_SELECTION"%string); (1, "AUTH_SPICE"%string); (3, "MINI_HEADER"%string)].
Definition ADVERTISED_BITS : list (Z * string) :=
  [(0, "AUTH_SELECTION"%string); (3, "MINI_HEADER"%string)].

Definition verdict (set : string) (missing : list string) (caps : list Z) : result LinkError unit :=
  if decide (missing = []) then Ok tt else Err (MissingRequiredCaps set missing caps).

Lemma check_required_eq set bits caps :
  Forall (fun b => 0 <= fst b) bits ->
  check_required_common_caps set (map (fun b => (Z.shiftl 1 (fst b), snd b)) bits) caps =
    verdict set (missing_caps bits caps) caps.
Proof.
  intros Hb. unfold check_required_common_caps, missing_caps, verdict. cbv zeta.
  replace (map snd (List.filter _ (map _ bits))) with
    (map snd (List.filter (fun '(bit, _) => negb (Z.testbit (default 0 (head caps)) bit)) bits)).
  - by destruct (map snd _).
  - induction Hb as [|[b n] bits Hb _ IH]; [done|]. cbn [map fst snd List.filter] in *.
    rewrite land_bit by done. destruct (negb _); cbn [map snd]; by rewrite IH.
Qed.

Lemma check_server_eq self :
  SpiceLinkReply_check_client_requirements self =
  verdict "server" (missing_caps SERVER_BITS (lr_common_caps self)) (lr_common_caps self).
Proof. apply (check_required_eq "server" SERVER_BITS). by repeat constructor. Qed.

Lemma check_advertised_eq common channel :
  check_advertised_caps common channel =
  if MAX_CAP_WORDS <? zlen common
  then Err (TooLarge "advertised common capability words" (zlen common) MAX_CAP_WORDS)
  else if MAX_CAP_WORDS <? zlen channel
  then Err (TooLarge "advertised channel capability words" (zlen channel) MAX_CAP_WORDS)
  else verdict "advertised" (missing_caps ADVERTISED_BITS common) common.
Proof.
  unfold check_advertised_caps. cbn [check_cap_words].
  destruct (_ <? _); [done|]. destruct (_ <? _); [done|]. cbn [rbind].
  apply (check_required_eq "advertised" ADVERTISED_BITS). by repeat constructor.
Qed.

(** What is sent parses on the other side: the parsers accept as many words. *)
Lemma advertised_caps_ok common channel :
  check_advertised_caps common channel = Ok tt -> Forall u32 common -> Forall u32 channel ->
  caps_ok common /\ caps_ok channel /\ has_cap 0 common /\ has_cap 3 common.
Proof.
  rewrite check_advertised_eq. intros H F1 F2.
  destruct (Z.ltb_spec MAX_CAP_WORDS (zlen common)); [done|].
  destruct (Z.ltb_spec MAX_CAP_WORDS (zlen channel)); [done|].
  unfold verdict in H. destruct (decide _) as [Hm|]; [|done]. unfold missing_caps, ADVERTISED_BITS in Hm.
  unfold has_cap. cbn [List.filter] in Hm.
  destruct (Z.testbit _ 0), (Z.testbit _ 3); cbn in Hm; try done.
Qed.

Lemma parse_mess_eq m rest : link_mess_wf m -> zlen rest <= 2 ^ 62 ->
  SpiceLinkMess_parse ((link_header (zlen (link_mess_body m)) ++ link_mess_body m) ++ rest) = Ok m.
Proof.
  intros Hm Hr. rewrite <- app_assoc. pose proof (link_mess_body_size m Hm).
  apply parse_framed; unfold MAX_LINK_MESSAGE_SIZE.
  - lia.
  - by apply parse_link_mess_body_eq.
  - rewrite !zlen_app, zlen_link_header. unfold isize_max. lia.
Qed.

Lemma parse_reply_eq r rest : link_reply_wf r -> zlen rest <= 2 ^ 62 ->
  SpiceLinkReply_parse ((link_header (zlen (link_reply_body r)) ++ link_reply_body r) ++ rest) = Ok r.
Proof.
  intros Hr Hl. rewrite <- app_assoc. pose proof (link_reply_body_size r Hr).
  apply (parse_framed _ (fun _ => parse_link_reply_body)); unfold MAX_LINK_MESSAGE_SIZE.
  - lia.
  - by apply parse_link_reply_body_eq.
  - rewrite !zlen_app, zlen_link_header. unfold isize_max. lia.
Qed.

Lemma parse_mess_safe data : bytes data -> zlen data <= isize_max ->
  match SpiceLinkMess_parse data with Ok m => link_mess_wf m | Err _ => True | Panic => False end.
Proof. apply parse_framed_safe, safe_link_mess_body. Qed.

Lemma parse_reply_safe data : bytes data -> zlen data <= isize_max ->
  match SpiceLinkReply_parse data with Ok r => link_reply_wf r | Err _ => True | Panic => False end.
Proof. apply parse_framed_safe. intros. apply safe_link_reply_body. Qed.

(** * Properties *)

(** C24: Both link messages: the parser takes any bytes a peer sends without a panic,
    and what it accepts has bounded capability lists; the serializer accepts every
    such value, and parsing its bytes, with anything behind them, gives the value
    back. *)
Theorem link_messages_round_trip :
  (forall data, bytes data -> zlen data <= isize_max ->
    match SpiceLinkMess_parse data with Ok m => link_mess_wf m | Err _ => True | Panic => False end /\
    match SpiceLinkReply_parse data with Ok r => link_reply_wf r | Err _ => True | Panic => False end) /\
  (forall m rest, link_mess_wf m -> zlen rest <= 2 ^ 62 ->
    exists data, SpiceLinkMess_serialize m = Some data /\
      SpiceLinkMess_parse (data ++ rest) = Ok m) /\
  (forall r rest, link_reply_wf r -> zlen rest <= 2 ^ 62 ->
    exists data, SpiceLinkReply_serialize r = Ok data /\
      SpiceLinkReply_parse (data ++ rest) = Ok r).
Proof.
  split_and!.
  - intros data Hb Hl. split; [by apply parse_mess_safe|by apply parse_reply_safe].
  - intros m rest Hm Hr. eexists. split; [by apply serialize_mess_eq|by apply parse_mess_eq].
  - intros r rest Hr Hl. eexists. split; [by apply serialize_reply_eq|by apply parse_reply_eq].
Qed.

Lemma link_messages_round_trip_witness :
  SpiceLinkMess_serialize (SpiceLinkMess_new 7 Ch_Usbredir 2 9 1) =
    Some (SPICE_MAGIC ++ [2; 0; 0; 0; 2; 0; 0; 0; 26; 0; 0; 0; 7; 0; 0; 0; 9; 2;
      1; 0; 0; 0; 1; 0; 0; 0; 18; 0; 0; 0; 9; 0; 0; 0; 1; 0; 0; 0]) /\
  (exists data, SpiceLinkMess_serialize (SpiceLinkMess_new 7 Ch_Usbredir 2 9 1) = Some data /\
    SpiceLinkMess_parse (data ++ [1; 2; 3]) = Ok (SpiceLinkMess_new 7 Ch_Usbredir 2 9 1)) /\
  (exists data, SpiceLinkReply_serialize (SpiceLinkReply_error_reply SpiceError_NeedSecured) = Ok data /\
    SpiceLinkReply_parse (data ++ []) = Ok (SpiceLinkReply_error_reply SpiceError_NeedSecured)).
Proof.
  split; [vm_compute; reflexivity|]. split.
  - apply (proj1 (proj2 link_messages_round_trip)); [|done].
    split; try (split; done); split; try done; by apply (bool_decide_unpack _).
  - apply (proj2 (proj2 link_messages_round_trip)); [|done].
    split; [split; [done|by apply (bool_decide_unpack _)]|split; [constructor|done]..].
Defined.
