(* ===== verification/Ticket.v ===== *)
(** Ticket encryption: [shakenfist-spice-protocol/src/link.rs], lines 494 to 626.

    The client encrypts its password with the public key of the link reply, the
    server decrypts it.  The [rsa] crate is the class [RsaLib]; [RsaLaws] states
    what its documentation promises for the keys this code makes: 1024 bits, so
    that the public key is 162 bytes of DER and a ticket is 128 bytes. *)
From Stdlib Require Import ZArith Lia.
From stdpp Require Import base numbers list tactics.
From S2P Require Import Prelude Reader IoCursor MsgCommon Utf8 LinkMess.

Open Scope Z_scope.
Open Scope rust_scope.

(** * What can go wrong in a session *)

Inductive ClientError : Type :=
| CE_Link (e : LinkError)
| CE_Io (k : ErrorKind)
| CE_KeySize (size : Z)
| CE_KeyTooShort
| CE_ModulusSize (size : Z)
| CE_ExponentSize (size : Z)
| CE_Rsa
| CE_AuthFailed (e : SpiceError)
| CE_NeedsTls
| CE_LinkRefused (e : SpiceError).

(** [result?], where an error becomes an [anyhow] one. *)
Definition map_err {E1 E2 A} (f : E1 -> E2) (r : result E1 A) : result E2 A :=
  match r with Ok a => Ok a | Err e => Err (f e) | Panic => Panic end.

Definition ok_or {E A} (e : E) (o : option A) : result E A :=
  match o with Some a => Ok a | None => Err e end.

(** * The rsa crate *)

(** An operation that draws random numbers takes what it draws, [rng]. *)
Class RsaLib : Type := {
  RsaPublicKey : Type;
  RsaPrivateKey : Type;
  rsa_from_public_key_der : list Z -> option RsaPublicKey;
  rsa_public_new : Z -> Z -> option RsaPublicKey;
  rsa_size : RsaPublicKey -> Z;
  rsa_encrypt : list Z -> RsaPublicKey -> list Z -> option (list Z);
  rsa_private_new : list Z -> Z -> option RsaPrivateKey;
  rsa_to_public_key : RsaPrivateKey -> RsaPublicKey;
  rsa_to_public_key_der : RsaPublicKey -> option (list Z);
  rsa_decrypt : RsaPrivateKey -> list Z -> option (list Z)
}.

(** OAEP with SHA-1 takes two digests and two bytes. *)
Definition OAEP_OVERHEAD : Z := 42.

Class RsaLaws (R : RsaLib) : Prop := {
  rsa_der : forall rng key, rsa_private_new rng 1024 = Some key ->
    exists der, rsa_to_public_key_der (rsa_to_public_key key) = Some der /\
      zlen der = 162 /\ bytes der /\ head der = Some 48 /\
      rsa_from_public_key_der der = Some (rsa_to_public_key key);
  rsa_key_size : forall rng key, rsa_private_new rng 1024 = Some key ->
    rsa_size (rsa_to_public_key key) = 128;
  rsa_cipher_size : forall rng pub msg c, rsa_encrypt rng pub msg = Some c ->
    zlen c = rsa_size pub /\ bytes c;
  rsa_encrypts : forall rng pub msg, bytes msg -> zlen msg <= rsa_size pub - OAEP_OVERHEAD ->
    is_Some (rsa_encrypt rng pub msg);
  rsa_decrypts : forall rng key msg c, rsa_encrypt rng (rsa_to_public_key key) msg = Some c ->
    rsa_decrypt key c = Some msg
}.

Section Ticket.
Context {R : RsaLib}.

(** * The public key *)

Definition cur_err {A} (m : Cur A) : M ClientError (list Z) A :=
  fun s => let '(r, s') := m s in (map_err CE_Io r, s').

(** A length and that many bytes, with the limits on the length. *)
Definition read_sized (max : Z) (bad : Z -> ClientError) : M ClientError (list Z) (list Z) :=
  let? size := cur_err cur_u32_be in
  if (max <? size) || (size =? 0) then throw (bad size)
  else cur_err (read_exact (Z.to_nat size)).

Definition decode_raw_public_key (pub_key_bytes : list Z) : result ClientError RsaPublicKey :=
  if zlen pub_key_bytes <? 8 then Err CE_KeyTooShort
  else
    let! parts := fst ((let? modulus := read_sized 256 CE_ModulusSize in
                        let? exponent := read_sized 8 CE_ExponentSize in
                        ret (modulus, exponent)) pub_key_bytes) in
    ok_or CE_Rsa (rsa_public_new (from_be (fst parts)) (from_be (snd parts))).

Definition decode_public_key (pub_key_bytes : list Z) : result ClientError RsaPublicKey :=
  match head pub_key_bytes with
  | Some 48 =>
      match rsa_from_public_key_der pub_key_bytes with
      | Some key => Ok key
      | None => decode_raw_public_key pub_key_bytes
      end
  | _ => decode_raw_public_key pub_key_bytes
  end.

Definition parse_public_key (pub_key_bytes : list Z) : result ClientError RsaPublicKey :=
  let! key := decode_public_key pub_key_bytes in
  if negb (rsa_size key =? TICKET_BLOB_BYTES) then Err (CE_KeySize (rsa_size key)) else Ok key.

(** * The ticket *)

(** [debug_assert_eq!] panics where it does not hold. *)
Definition debug_assert (b : bool) : result ClientError unit := if b then Ok tt else Panic.

Definition encrypt_password (rng pub_key_bytes password : list Z) : result ClientError (list Z) :=
  let! pub_key := parse_public_key pub_key_bytes in
  let plaintext := push ([] <+ password) 0 in
  let! encrypted := ok_or CE_Rsa (rsa_encrypt rng pub_key plaintext) in
  let! _ok := debug_assert (zlen encrypted =? TICKET_BLOB_BYTES) in
  Ok encrypted.

Definition generate_ticket_keypair (rng : list Z) : result ClientError (RsaPrivateKey * list Z) :=
  let! private_key := ok_or CE_Rsa (rsa_private_new rng 1024) in
  let! der := ok_or CE_Rsa (rsa_to_public_key_der (rsa_to_public_key private_key)) in
  let! _ok := debug_assert (zlen der =? 162) in
  Ok (private_key, der).

Definition decrypt_password (key : RsaPrivateKey) (blob : list Z) : result LinkError (list Z) :=
  let! decrypted := ok_or DecryptFailed (rsa_decrypt key blob) in
  let decrypted := match list.last decrypted with Some 0 => List.removelast decrypted | _ => decrypted end in
  ok_or BadUtf8 (from_utf8 decrypted).
End Ticket.

(** * Lemmas *)

Section Laws.
Context {R : RsaLib} {L : RsaLaws R}.

Lemma read_sized_tame max bad s : bytes s ->
  match read_sized max bad s with
  | (Ok a, s') => bytes s' /\ bytes a
  | (Err _, s') => bytes s'
  | (Panic, _) => False
  end.
Proof.
  intros Hs. unfold read_sized, bind, cur_err. pose proof (tame_u32_be s Hs) as H.
  destruct (cur_u32_be s) as [[size|e|] s1]; cbn [map_err]; [|done..].
  destruct H as [H1 _]. destruct (_ || _); [done|].
  pose proof (tame_exact (Z.to_nat size) s1 H1) as H. destruct (read_exact _ s1) as [[a|e|] s2];
    cbn [map_err]; try done. by destruct H as (? & _ & ?).
Qed.

(** No key a server sends makes the client panic, and an accepted one has the
    ticket's width. *)
Lemma parse_public_key_ok key_bytes : bytes key_bytes ->
  match parse_public_key key_bytes with
  | Ok key => rsa_size key = 128 | Err _ => True | Panic => False
  end.
Proof.
  intros Hb. assert (decode_public_key key_bytes <> Panic) as Hd.
  { assert (decode_raw_public_key key_bytes <> Panic) as Hr.
    { unfold decode_raw_public_key. destruct (_ <? _); [done|]. unfold bind, ret.
      pose proof (read_sized_tame 256 CE_ModulusSize key_bytes Hb) as H.
      destruct (read_sized 256 CE_ModulusSize key_bytes) as [[m|e|] s1]; cbn [fst rbind]; [|done..].
      destruct H as [H1 _]. pose proof (read_sized_tame 8 CE_ExponentSize s1 H1) as H.
      destruct (read_sized 8 CE_ExponentSize s1) as [[x|e|] s2]; cbn [fst rbind]; [|done..].
      by destruct (rsa_public_new _ _). }
    unfold decode_public_key. repeat case_match; done. }
  unfold parse_public_key. destruct (decode_public_key key_bytes) as [key|e|]; cbn [rbind]; [|done..].
  destruct (Z.eqb_spec (rsa_size key) TICKET_BLOB_BYTES); [done|done].
Qed.

Lemma encrypt_password_ok rng key_bytes password : bytes key_bytes ->
  match encrypt_password rng key_bytes password with
  | Ok c => zlen c = 128 /\ bytes c | Err _ => True | Panic => False
  end.
Proof.
  intros Hb. unfold encrypt_password. pose proof (parse_public_key_ok key_bytes Hb) as H.
  destruct (parse_public_key key_bytes) as [key|e|]; cbn [rbind]; [|done..]. cbv zeta.
  destruct (rsa_encrypt _ _ _) as [c|] eqn:E; cbn [ok_or rbind]; [|done].
  apply rsa_cipher_size in E as [Hc Hcb]. rewrite Hc, H. unfold TICKET_BLOB_BYTES. cbn [Z.eqb Pos.eqb debug_assert rbind].
  by rewrite Hc, H.
Qed.

Lemma generate_ticket_keypair_ok rng key der :
  generate_ticket_keypair rng = Ok (key, der) ->
  zlen der = 162 /\ bytes der /\ parse_public_key der = Ok (rsa_to_public_key key).
Proof.
  unfold generate_ticket_keypair. destruct (rsa_private_new rng 1024) as [k|] eqn:E; cbn; [|done].
  destruct (rsa_der rng k E) as (d & Hd & Hl & Hb & Hh & Hf). rewrite Hd. cbn. rewrite Hl.
  cbn [Z.eqb Pos.eqb debug_assert rbind]. intros [= <- <-]. split_and!; [done|done|]. unfold parse_public_key, decode_public_key.
  rewrite Hh, Hf. cbn [rbind]. by rewrite (rsa_key_size rng k E).
Qed.

(** The ticket of a password decrypts to it. *)
Lemma ticket_decrypts krng rng key der password :
  generate_ticket_keypair krng = Ok (key, der) ->
  utf8 password -> bytes password -> zlen password <= 85 ->
  exists c, encrypt_password rng der password = Ok c /\ zlen c = 128 /\ bytes c /\
    decrypt_password key c = Ok password.
Proof.
  intros Hg Hu Hb Hl. pose proof Hg as Hg'.
  apply generate_ticket_keypair_ok in Hg' as (_ & Hdb & Hp).
  unfold generate_ticket_keypair in Hg. destruct (rsa_private_new krng 1024) as [k|] eqn:E; [|done].
  assert (k = key) as ->.
  { cbn in Hg. destruct (rsa_to_public_key_der _); cbn in Hg; [|done].
    destruct (_ =? _); cbn in Hg; congruence. }
  pose proof (rsa_key_size krng key E) as Hsz.
  destruct (rsa_encrypts rng (rsa_to_public_key key) (password ++ [0])) as [c Hc].
  { apply Forall_app_2; [done|]. by repeat constructor. }
  { rewrite Hsz, zlen_app. unfold OAEP_OVERHEAD. change (zlen [0]) with 1. lia. }
  pose proof (rsa_cipher_size _ _ _ _ Hc) as [Hcl Hcb]. exists c.
  unfold encrypt_password. rewrite Hp. cbn [rbind]. unfold push, extend_from_slice. rewrite app_nil_l, Hc.
  cbn [ok_or rbind]. rewrite Hcl, Hsz. cbn [Z.eqb Pos.eqb TICKET_BLOB_BYTES debug_assert rbind].
  split; [done|]. split; [done|]. split; [done|].
  unfold decrypt_password. rewrite (rsa_decrypts rng key _ c Hc). cbn [ok_or rbind].
  rewrite list.last_snoc, List.removelast_last.
  by rewrite (proj2 (from_utf8_eq password password)).
Qed.

Lemma decrypt_password_ok key blob :
  match decrypt_password key blob with Ok p => utf8 p | Err _ => True | Panic => False end.
Proof.
  unfold decrypt_password. destruct (rsa_decrypt key blob) as [m|]; cbn [ok_or rbind]; [|done].
  cbv zeta. destruct (from_utf8 _) eqn:E; cbn; [|done]. by apply from_utf8_eq in E as [? ->].
Qed.
End Laws.
