(* ===== verification/Link.v ===== *)
(** The drivers of the link handshake: [shakenfist-spice-protocol/src/link.rs],
    lines 765 to 1053, and the link and authentication stages of
    [SpiceClient::connect_channel_with_caps] ([client.rs], lines 489 to 573).

    Drivers are programs over a byte stream ([Io]).  [serve] puts the server role's
    drivers together the way their module comment prescribes, with the
    authorisation service as a parameter.  Time limits are not modelled. *)
From Stdlib Require Import ZArith Lia String.
From stdpp Require Import base numbers list tactics relations.
From S2P Require Import Prelude Reader MsgCommon Utf8 LinkMess Ticket Io.

Open Scope Z_scope.
Open Scope rust_scope.

#[export] Instance SpiceError_eq_dec : EqDecision SpiceError.
Proof. solve_decision. Defined.

Section Link.
Context {R : RsaLib}.

Abbreviation Link := (Io ClientError).

Definition read_exact_io (n : Z) : Link (list Z) :=
  io_read_exact (CE_Io UnexpectedEof) (Z.to_nat n).

(** A header, then as many bytes as it declares if they are not too many: [what]
    names the message in the error.  The source allocates one buffer of [16 + size]
    bytes once the size is accepted, and reads the body into its end: what is
    asked of the stream is the header and then [size] bytes. *)
Definition read_framed (what : string) : Link (list Z) :=
  io? header := read_exact_io 16 in
  io? field := io_lift (rlift (slice header 12 16)) in
  let size := from_le field in
  if MAX_LINK_MESSAGE_SIZE <? size then
    io_throw (CE_Link (TooLarge what size MAX_LINK_MESSAGE_SIZE))
  else
    io? body := read_exact_io size in
    io_ret (header ++ body).

(** * The client's drivers *)

Definition perform_link_with_caps (connection_id : Z) (channel_type : ChannelType)
    (channel_id : Z) (common_caps channel_caps : list Z) : Link SpiceLinkReply :=
  io! io_lift (map_err CE_Link (check_advertised_caps common_caps channel_caps)) in
  let link_mess := mkSpiceLinkMess connection_id (ChannelType_as_u8 channel_type) channel_id
                     common_caps channel_caps in
  io? data := io_lift (rlift (SpiceLinkMess_serialize link_mess)) in
  io! io_write_all data in
  io! io_flush in
  io? reply_data := read_framed "link reply size" in
  io_lift (map_err CE_Link (SpiceLinkReply_parse reply_data)).

Definition perform_link (connection_id : Z) (channel_type : ChannelType) (channel_id : Z) :
    Link SpiceLinkReply :=
  perform_link_with_caps connection_id channel_type channel_id [cap_DEFAULT_COMMON]
    [default_channel_caps channel_type].

Definition perform_auth (rng pub_key : list Z) (password : option (list Z)) : Link unit :=
  io! io_write_all (to_le 4 AUTH_MECHANISM_SPICE) in
  io? encrypted := io_lift (encrypt_password rng pub_key (default [] password)) in
  io! io_write_all encrypted in
  io! io_flush in
  io? answer := read_exact_io 4 in
  let error := SpiceError_from_u32 (from_le answer) in
  if bool_decide (error = SpiceError_Ok) then io_ret tt else io_throw (CE_AuthFailed error).

(** [SpiceClient::connect_channel_with_caps] once the transport is open. *)
Definition connect_channel_session (rng : list Z) (connection_id : Z) (channel_type : ChannelType)
    (channel_id : Z) (common_caps channel_caps : list Z) (password : option (list Z)) :
    Link SpiceLinkReply :=
  io? reply := perform_link_with_caps connection_id channel_type channel_id common_caps channel_caps in
  match lr_error reply with
  | SpiceError_Ok =>
      io! io_lift (map_err CE_Link (SpiceLinkReply_check_client_requirements reply)) in
      io! perform_auth rng (lr_pub_key reply) password in
      io_ret reply
  | SpiceError_NeedSecured => io_throw CE_NeedsTls
  | err => io_throw (CE_LinkRefused err)
  end.

(** * The server's drivers *)

Definition read_link_mess : Link SpiceLinkMess :=
  io? buf := read_framed "link message size" in
  io_lift (map_err CE_Link (SpiceLinkMess_parse buf)).

Definition send_link_reply (reply : SpiceLinkReply) : Link unit :=
  io? data := io_lift (map_err CE_Link (SpiceLinkReply_serialize reply)) in
  io! io_write_all data in
  io! io_flush in
  io_ret tt.

Definition send_need_secured : Link unit :=
  send_link_reply (SpiceLinkReply_error_reply SpiceError_NeedSecured).

Definition read_auth_ticket (key : RsaPrivateKey) : Link (list Z) :=
  io? mech := read_exact_io 4 in
  let mechanism := from_le mech in
  if negb (mechanism =? AUTH_MECHANISM_SPICE) then
    io_throw (CE_Link (UnsupportedAuthMechanism mechanism))
  else
    io? blob := read_exact_io 128 in
    io_lift (map_err CE_Link (decrypt_password key blob)).

Definition send_auth_result (error : SpiceError) : Link unit :=
  io! io_write_all (to_le 4 (SpiceError_to_u32 error)) in
  io! io_flush in
  io_ret tt.

(** A server that offers [common_caps] and [channel_caps] and asks [authorize] about
    the client's password. *)
Definition serve (krng common_caps channel_caps : list Z)
    (authorize : SpiceLinkMess -> list Z -> SpiceError) :
    Link (SpiceLinkMess * list Z * SpiceError) :=
  io? keypair := io_lift (generate_ticket_keypair krng) in
  let '(key, der) := keypair in
  io? mess := read_link_mess in
  io! send_link_reply (mkSpiceLinkReply SpiceError_Ok der common_caps channel_caps) in
  io? password := read_auth_ticket key in
  let error := authorize mess password in
  io! send_auth_result error in
  io_ret (mess, password, error).

(** A server that turns the client away with [error]. *)
Definition serve_refusal (error : SpiceError) : Link SpiceLinkMess :=
  io? mess := read_link_mess in
  io! send_link_reply (SpiceLinkReply_error_reply error) in
  io_ret mess.
End Link.

(** * Lemmas *)

Section Runs.
Context {R : RsaLib}.





(** What the client asks for, as the server reads it. *)
Definition asked (connection_id : Z) (channel_type : ChannelType) (channel_id : Z)
    (common_caps channel_caps : list Z) : SpiceLinkMess :=
  mkSpiceLinkMess connection_id (ChannelType_as_u8 channel_type) channel_id common_caps channel_caps.

Definition mess_bytes (m : SpiceLinkMess) : list Z :=
  link_header (zlen (link_mess_body m)) ++ link_mess_body m.

Lemma asked_wf cid ct chid cc hc :
  check_advertised_caps cc hc = Ok tt -> Forall u32 cc -> Forall u32 hc -> u32 cid -> u8 chid ->
  link_mess_wf (asked cid ct chid cc hc).
Proof.
  intros Hc Fc Fh Hi Hch. destruct (advertised_caps_ok cc hc Hc Fc Fh) as (? & ? & _).
  split; cbn; try done. by destruct ct.
Qed.

(** The client up to the server's reply. *)
Lemma perform_link_sends cid ct chid cc hc {A} (k : SpiceLinkReply -> Io ClientError A) :
  check_advertised_caps cc hc = Ok tt -> link_mess_wf (asked cid ct chid cc hc) ->
  io_bind (perform_link_with_caps cid ct chid cc hc) k =
  io_writes [mess_bytes (asked cid ct chid cc hc)]
    (io_bind (io_bind (read_framed "link reply size") (fun data =>
       io_lift (map_err CE_Link (SpiceLinkReply_parse data)))) k).
Proof.
  intros Hc Hm. unfold perform_link_with_caps. rewrite Hc.
  cbn [map_err io_lift io_bind]. cbv zeta. unfold asked in Hm.
  rewrite serialize_mess_eq by done. reflexivity.
Qed.






End Runs.




Section Handshake.
Context {R : RsaLib} {L : RsaLaws R}.
Context (rng krng : list Z) (cid chid : Z) (ct : ChannelType) (cc hc : list Z)
  (password : option (list Z)) (scc shc : list Z) (authorize : SpiceLinkMess -> list Z -> SpiceError).

End Handshake.

(** * Hostile peers *)

Section Hostile.
Context {R : RsaLib} {L : RsaLaws R}.

Lemma peaceful_read_io n : 0 <= n <= MAX_LINK_MESSAGE_SIZE ->
  peaceful MAX_LINK_MESSAGE_SIZE (read_exact_io n) (fun bs => zlen bs = n /\ bytes bs).
Proof.
  intros Hn. unfold read_exact_io. cbn. split_and!; [lia|done|].
  intros bs Hl Hb. split; [unfold zlen; lia|done].
Qed.

Lemma peaceful_framed what :
  peaceful MAX_LINK_MESSAGE_SIZE (read_framed what) (fun data => bytes data /\ zlen data <= isize_max).
Proof.
  unfold read_framed. eapply peaceful_bind; [by apply peaceful_read_io|]. cbv beta. intros h [Hh Hb].
  rewrite slice_Some by lia. cbn [rlift io_lift io_bind].
  set (size := from_le _).
  assert (0 <= size) as Hs.
  { apply from_le_bound. by apply Forall_take, Forall_drop. }
  destruct (Z.ltb_spec MAX_LINK_MESSAGE_SIZE size); [done|].
  eapply peaceful_bind; [by apply peaceful_read_io|]. cbv beta. intros body [Hl Hb'].
  cbn. split; [by apply Forall_app_2|]. rewrite zlen_app, Hh, Hl.
  unfold MAX_LINK_MESSAGE_SIZE, isize_max in *. lia.
Qed.

Lemma peaceful_lift {A} (r : result LinkError A) (Q : A -> Prop) :
  match r with Ok a => Q a | Err _ => True | Panic => False end ->
  peaceful MAX_LINK_MESSAGE_SIZE (io_lift (map_err CE_Link r)) Q.
Proof. by destruct r. Qed.

Lemma verdict_ok set missing caps : verdict set missing caps <> Panic.
Proof. unfold verdict. by destruct (decide _). Qed.

Lemma peaceful_perform_link cid ct chid cc hc :
  Forall u32 cc -> Forall u32 hc -> u32 cid -> u8 chid ->
  peaceful MAX_LINK_MESSAGE_SIZE (perform_link_with_caps cid ct chid cc hc) link_reply_wf.
Proof.
  intros Fc Fh Hcid Hchid. unfold perform_link_with_caps.
  destruct (check_advertised_caps cc hc) as [[]|e|] eqn:Hc; cbn [map_err io_lift io_bind].
  - pose proof (asked_wf cid ct chid cc hc Hc Fc Fh Hcid Hchid) as Hm. unfold asked in Hm.
    cbv zeta. rewrite serialize_mess_eq by done. cbn [rlift io_lift io_bind].
    eapply peaceful_bind; [apply peaceful_write|]. intros [] _.
    eapply peaceful_bind; [apply peaceful_flush|]. intros [] _.
    eapply peaceful_bind; [apply peaceful_framed|]. cbv beta. intros data [Hb Hl].
    apply peaceful_lift. by apply parse_reply_safe.
  - done.
  - rewrite check_advertised_eq in Hc. repeat (destruct (_ <? _); [done|]). by apply verdict_ok in Hc.
Qed.

Lemma peaceful_perform_auth rng key password : bytes key ->
  peaceful MAX_LINK_MESSAGE_SIZE (perform_auth rng key password) (fun _ => True).
Proof.
  intros Hb. unfold perform_auth. eapply peaceful_bind; [apply peaceful_write|]. intros [] _.
  pose proof (encrypt_password_ok rng key (default [] password) Hb) as H.
  destruct (encrypt_password rng key (default [] password)) as [c|e|]; [|done..]. cbn [io_lift io_bind].
  eapply peaceful_bind; [apply peaceful_write|]. intros [] _.
  eapply peaceful_bind; [apply peaceful_flush|]. intros [] _.
  eapply peaceful_bind; [by apply peaceful_read_io|]. cbv beta zeta. intros answer _.
  by destruct (bool_decide _).
Qed.

(** A reply the client goes on from. *)
Definition reply_accepted (r : SpiceLinkReply) : Prop :=
  link_reply_wf r /\ lr_error r = SpiceError_Ok /\
  missing_caps SERVER_BITS (lr_common_caps r) = [].

Lemma peaceful_session rng cid ct chid cc hc password :
  Forall u32 cc -> Forall u32 hc -> u32 cid -> u8 chid ->
  peaceful MAX_LINK_MESSAGE_SIZE (connect_channel_session rng cid ct chid cc hc password) reply_accepted.
Proof.
  intros Fc Fh Hcid Hchid. unfold connect_channel_session.
  eapply peaceful_bind; [by apply peaceful_perform_link|]. cbv beta. intros reply Hr.
  destruct (lr_error reply) eqn:He; try done.
  rewrite check_server_eq. unfold verdict.
  destruct (decide _) as [Hm|]; cbn [map_err io_lift io_bind]; [|done].
  eapply peaceful_bind; [apply peaceful_perform_auth; apply Hr|]. by intros [] _.
Qed.

Lemma peaceful_serve krng scc shc authorize :
  caps_ok scc -> caps_ok shc ->
  peaceful MAX_LINK_MESSAGE_SIZE (serve krng scc shc authorize)
    (fun '(mess, password, _) => link_mess_wf mess /\ utf8 password).
Proof.
  intros Hc Hh. unfold serve, generate_ticket_keypair.
  destruct (rsa_private_new krng 1024) as [key|] eqn:E; [|done].
  destruct (rsa_der krng key E) as (der & Hd & Hl & Hb & _).
  cbn [ok_or rbind]. rewrite Hd. cbn [ok_or rbind]. rewrite Hl.
  cbn [Z.eqb Pos.eqb debug_assert rbind io_lift io_bind].
  unfold read_link_mess. eapply peaceful_bind.
  { eapply peaceful_bind; [apply peaceful_framed|]. cbv beta. intros data [Hdb Hdl].
    apply peaceful_lift. by apply parse_mess_safe. }
  cbv beta. intros mess Hmess. unfold send_link_reply. rewrite serialize_reply_eq by (by split; cbn).
  cbn [map_err io_lift io_bind io_write_all io_flush io_ret peaceful].
  eapply (peaceful_bind _ _ _ utf8).
  - unfold read_auth_ticket. eapply peaceful_bind; [by apply peaceful_read_io|]. cbv beta zeta. intros mech _.
    destruct (negb _); [done|]. eapply peaceful_bind; [by apply peaceful_read_io|]. cbv beta. intros blob _.
    apply peaceful_lift. pose proof (decrypt_password_ok key blob) as H.
    by destruct (decrypt_password key blob).
  - intros password Hp. by cbn.
Qed.

Lemma run_framed what sent :
  exists r rest, io_run (read_framed what) sent = (r, [], rest) /\
    forall data, r = Ok data -> sent = data ++ rest.
Proof.
  assert (forall (r : result ClientError (list Z)) rest,
    (forall data, r <> Ok data) -> exists r' rest', (r, @nil Z, rest) = (r', [], rest') /\
      forall data, r' = Ok data -> sent = data ++ rest') as Hno.
  { intros r rest Hr. exists r, rest. split; [done|]. intros data Hd. by apply Hr in Hd. }
  unfold read_framed, read_exact_io, io_read_exact. cbn [io_bind io_run].
  destruct (_ <=? _)%nat; [|by apply Hno]. cbn [io_ret io_bind].
  destruct (slice _ _ _); cbn [rlift io_lift io_bind]; [|by apply Hno].
  destruct (_ <? _); [by apply Hno|]. cbn [io_bind io_run].
  destruct (_ <=? _)%nat; [|by apply Hno]. cbn [io_ret io_bind io_run].
  eexists _, _. split; [reflexivity|]. intros data [= <-]. by rewrite <- app_assoc, !take_drop.
Qed.

(** The bytes a client sends: nothing, its link message, or that and a ticket for the
    key of a reply it accepted. *)
Inductive client_sends (mess : SpiceLinkMess) (rng password sent : list Z) : list Z -> Prop :=
| Sends_Nothing : client_sends mess rng password sent []
| Sends_Mess : client_sends mess rng password sent (mess_bytes mess)
| Sends_Ticket data rest reply ticket :
    sent = data ++ rest -> SpiceLinkReply_parse data = Ok reply -> reply_accepted reply ->
    ticket = match encrypt_password rng (lr_pub_key reply) password with Ok c => c | _ => [] end ->
    client_sends mess rng password sent
      (mess_bytes mess ++ to_le 4 AUTH_MECHANISM_SPICE ++ ticket).

Lemma run_perform_auth rng key password sent :
  exists r rest, io_run (perform_auth rng key password) sent =
    (r, to_le 4 AUTH_MECHANISM_SPICE ++
        match encrypt_password rng key (default [] password) with Ok c => c | _ => [] end, rest).
Proof.
  unfold perform_auth.
  destruct (encrypt_password rng key (default [] password)) as [c|e|]; cbn.
  - destruct (_ <=? _)%nat; cbn; [|rewrite app_nil_r; eauto].
    destruct (bool_decide _); cbn; rewrite app_nil_r; eauto.
  - rewrite app_nil_r. eauto.
  - rewrite app_nil_r. eauto.
Qed.

Lemma run_session rng cid ct chid cc hc password sent :
  Forall u32 cc -> Forall u32 hc -> u32 cid -> u8 chid -> bytes sent -> zlen sent <= isize_max ->
  client_sends (asked cid ct chid cc hc) rng (default [] password) sent
    (snd (fst (io_run (connect_channel_session rng cid ct chid cc hc password) sent))).
Proof.
  intros Fc Fh Hcid Hchid Hb Hl. unfold connect_channel_session.
  destruct (check_advertised_caps cc hc) as [[]|e|] eqn:Hc;
    [|unfold perform_link_with_caps; rewrite Hc; apply Sends_Nothing..].
  pose proof (asked_wf cid ct chid cc hc Hc Fc Fh Hcid Hchid) as Hm.
  rewrite perform_link_sends by done. cbn [io_writes io_run].
  rewrite !io_run_bind. destruct (run_framed "link reply size" sent) as (r & rest & Hr & Hd). rewrite Hr.
  destruct r as [data|e|]; cbn [fst snd app]; [|rewrite app_nil_r; apply Sends_Mess..].
  specialize (Hd data eq_refl).
  assert (bytes data /\ zlen data <= isize_max) as [Hdb Hdl].
  { subst sent. apply Forall_app in Hb as [Hb _]. rewrite zlen_app in Hl.
    pose proof (zlen_nonneg rest). split; [done|lia]. }
  pose proof (parse_reply_safe data Hdb Hdl) as Hp.
  destruct (SpiceLinkReply_parse data) as [reply|e|] eqn:Hparse;
    [cbn [map_err io_lift io_run]|cbn; rewrite app_nil_r; apply Sends_Mess..].
  destruct (lr_error reply) eqn:He; try (cbn; rewrite app_nil_r; apply Sends_Mess).
  rewrite check_server_eq. unfold verdict.
  destruct (decide _) as [Hmiss|]; cbn [map_err io_lift io_bind]; [|cbn; rewrite app_nil_r; apply Sends_Mess].
  rewrite io_run_bind. destruct (run_perform_auth rng (lr_pub_key reply) password rest) as (r & rest' & ->).
  assert (client_sends (asked cid ct chid cc hc) rng (default [] password) sent
    (mess_bytes (asked cid ct chid cc hc) ++ to_le 4 AUTH_MECHANISM_SPICE ++
     match encrypt_password rng (lr_pub_key reply) (default [] password) with Ok c => c | _ => [] end)) as H
    by (by eapply Sends_Ticket).
  destruct r as [[]|e|]; cbn; rewrite ?app_nil_r; exact H.
Qed.

(** C21: Neither end trusts the other.  Whatever bytes the peer sends, and wherever it
    stops: a client session and a server session never panic and never read more
    than [MAX_LINK_MESSAGE_SIZE] bytes at once (into a buffer 16 bytes larger, which
    holds the header too); a server gets a well-formed link message and a
    password that is text; a client sends its ticket only behind a well-formed reply
    that reports success and lists every capability the client needs, and only for a
    key of the ticket's width. *)
Theorem link_hostile_peers rng krng cid ct chid cc hc password scc shc authorize :
  Forall u32 cc -> Forall u32 hc -> u32 cid -> u8 chid -> caps_ok scc -> caps_ok shc ->
  peaceful MAX_LINK_MESSAGE_SIZE (connect_channel_session rng cid ct chid cc hc password) reply_accepted /\
  peaceful MAX_LINK_MESSAGE_SIZE (serve krng scc shc authorize)
    (fun '(mess, password, _) => link_mess_wf mess /\ utf8 password) /\
  (forall sent, bytes sent -> zlen sent <= isize_max ->
    client_sends (asked cid ct chid cc hc) rng (default [] password) sent
      (snd (fst (io_run (connect_channel_session rng cid ct chid cc hc password) sent)))) /\
  (forall key c, bytes key -> encrypt_password rng key (default [] password) = Ok c -> zlen c = 128).
Proof.
  intros Fc Fh Hcid Hchid Hscc Hshc.
  split; [by apply peaceful_session|]. split; [by apply peaceful_serve|].
  split; [intros; by apply run_session|]. intros key c Hb Hc.
  pose proof (encrypt_password_ok rng key (default [] password) Hb) as H. rewrite Hc in H. apply H.
Qed.
End Hostile.

(** * A server that turns the client away *)

(** * The laws can hold *)

(** A cipher that only pads: one key, whose DER form is a tag and zeros. *)
Module ToyRsa.

Definition toy_der : list Z := 48 :: replicate 161 0.

Definition toy_encrypt (msg : list Z) : option (list Z) :=
  if decide (bytes msg /\ zlen msg <= 86)
  then Some (zlen msg :: msg ++ replicate (127 - length msg) 0) else None.

Definition toy_decrypt (c : list Z) : option (list Z) :=
  match c with [] => None | n :: c => Some (take (Z.to_nat n) c) end.

Definition toy_rsa : RsaLib := {|
  RsaPublicKey := unit;
  RsaPrivateKey := unit;
  rsa_from_public_key_der der := if decide (der = toy_der) then Some tt else None;
  rsa_public_new _ _ := None;
  rsa_size _ := 128;
  rsa_encrypt _ _ msg := toy_encrypt msg;
  rsa_private_new _ bits := if bits =? 1024 then Some tt else None;
  rsa_to_public_key key := key;
  rsa_to_public_key_der _ := Some toy_der;
  rsa_decrypt _ c := toy_decrypt c
|}.

Lemma toy_laws : RsaLaws toy_rsa.
Proof.
  split; cbn.
  - intros rng [] _. exists toy_der. split_and!; try done.
    + constructor; [done|]. apply Forall_replicate. done.
  - done.
  - intros rng [] msg c. unfold toy_encrypt. destruct (decide _) as [[Hb Hl]|]; [|done].
    intros [= <-]. rewrite zlen_cons, zlen_app, zlen_replicate. pose proof (zlen_nonneg msg).
    split; [unfold zlen in *; lia|].
    constructor; [red; lia|]. apply Forall_app_2; [done|]. by apply Forall_replicate.
  - intros rng [] msg Hb Hl. unfold toy_encrypt, OAEP_OVERHEAD in *. by rewrite decide_True.
  - intros rng [] msg c. unfold toy_encrypt. destruct (decide _) as [[Hb Hl]|]; [|done].
    intros [= <-]. cbn [toy_decrypt]. by rewrite take_zlen_app.
Qed.
End ToyRsa.


Lemma link_hostile_peers_witness :
  peaceful MAX_LINK_MESSAGE_SIZE
    (connect_channel_session (R := ToyRsa.toy_rsa) [] 7 Ch_Main 0 [cap_DEFAULT_COMMON] [13] None)
    reply_accepted /\
  io_run (connect_channel_session (R := ToyRsa.toy_rsa) [] 7 Ch_Main 0 [cap_DEFAULT_COMMON] [13] None)
    (replicate 40 255) =
    (Err (CE_Link (TooLarge "link reply size" 4294967295 4096)),
     mess_bytes (asked 7 Ch_Main 0 [11] [13]), replicate 24 255).
Proof.
  split; [|vm_compute; reflexivity].
  apply (link_hostile_peers (R := ToyRsa.toy_rsa) (L := ToyRsa.toy_laws) [] [] 7 Ch_Main 0
    [cap_DEFAULT_COMMON] [13] None [] [] (fun _ _ => SpiceError_Ok));
    by apply (bool_decide_unpack _).
Defined.
