(* ===== verification/Proxy.v ===== *)
(** HTTP CONNECT proxies: [shakenfist-spice-protocol/src/proxy.rs].

    [parse_proxy_uri] reads a proxy's address, and the CONNECT exchange is a program
    over the stream to the proxy.  The exchange's time limit is not modelled; the
    crate's version, which the build puts into the request, is a parameter. *)
From Stdlib Require Import ZArith Lia String.
From stdpp Require Import base numbers list tactics.
From S2P Require Import Prelude Reader Utf8 Text Io.

Open Scope Z_scope.
Open Scope rust_scope.

(** * [Ipv6Addr::from_str] of the standard library, as far as accepting goes *)

Definition is_hex_digit (b : Z) : bool :=
  is_ascii_digit b || between 65 b 70 || between 97 b 102.

(** The digits at the front, and the rest. *)
Fixpoint span (f : Z -> bool) (s : list Z) : list Z * list Z :=
  match s with
  | [] => ([], [])
  | c :: s' => if f c then let '(ds, rest) := span f s' in (c :: ds, rest) else ([], s)
  end.

Definition read_hex_group (s : list Z) : option (list Z) :=
  let '(ds, rest) := span is_hex_digit s in
  if (1 <=? zlen ds) && (zlen ds <=? 4) then Some rest else None.

Definition read_octet (s : list Z) : option (list Z) :=
  let '(ds, rest) := span is_ascii_digit s in
  let value := foldl (fun acc d => acc * 10 + (d - 48)) 0 ds in
  if (1 <=? zlen ds) && (zlen ds <=? 3) && (value <=? 255) &&
     negb ((1 <? zlen ds) && bool_decide (head ds = Some 48))
  then Some rest else None.

Definition read_ipv4 (s : list Z) : option (list Z) :=
  s ← read_octet s;
  s ← strip_prefix (lit ".") s; s ← read_octet s;
  s ← strip_prefix (lit ".") s; s ← read_octet s;
  s ← strip_prefix (lit ".") s; read_octet s.

Definition read_separator (i : nat) (read : list Z -> option (list Z)) (s : list Z) : option (list Z) :=
  match i with O => read s | S _ => s ← strip_prefix (lit ":") s; read s end.

(** Up to [n] groups; the last two may be an IPv4 address. *)
Fixpoint read_groups (n i : nat) (s : list Z) : nat * bool * list Z :=
  match n with
  | O => (i, false, s)
  | S n' =>
      match (match n' with O => None | S _ => read_separator i read_ipv4 s end) with
      | Some rest => (S (S i), true, rest)
      | None =>
          match read_separator i read_hex_group s with
          | Some rest => read_groups n' (S i) rest
          | None => (i, false, s)
          end
      end
  end.

Definition is_ipv6 (s : list Z) : bool :=
  let '(head_size, head_ipv4, rest) := read_groups 8 0 s in
  if (head_size =? 8)%nat then bool_decide (rest = [])
  else if head_ipv4 then false
  else
    match strip_prefix (lit "::") rest with
    | None => false
    | Some rest => bool_decide (snd (read_groups (8 - (head_size + 1)) 0 rest) = [])
    end.

(** * The proxy's address *)

Definition DEFAULT_HTTP_PROXY_PORT : Z := 3128.

Record HttpProxy : Type := mkHttpProxy { hp_host : list Z; hp_port : Z }.

Inductive ProxyError : Type :=
| UnsupportedScheme (scheme : list Z)
| HttpsUnsupported
| CredentialsUnsupported
| MissingBracket
| TrailingAfterBracket (after : list Z)
| EmptyHost
| MissingPort
| InvalidPort (port : list Z)
| PortOutOfRange (port : list Z).

Definition is_uri_scheme (s : list Z) : bool :=
  match s with
  | [] => false
  | first :: rest =>
      is_ascii_alphabetic first &&
      forallb (fun c => is_ascii_alphanumeric c || (c =? 43) || (c =? 45) || (c =? 46)) rest
  end.

Definition parse_port (port : list Z) : result ProxyError Z :=
  match port with
  | [] => Err MissingPort
  | _ =>
      if negb (forallb is_ascii_digit port) then Err (InvalidPort port)
      else
        match parse_u64 port with
        | Some n => if between 1 n 65535 then Ok n else Err (PortOutOfRange port)
        | None => Err (PortOutOfRange port)
        end
  end.

(** The text behind the scheme. *)
Definition strip_scheme (uri : list Z) : result ProxyError (list Z) :=
  match split_once (lit "://") uri with
  | Some (scheme, rest) =>
      if is_uri_scheme scheme then
        if eq_ignore_ascii_case scheme (lit "https") then Err HttpsUnsupported
        else if negb (eq_ignore_ascii_case scheme (lit "http")) then Err (UnsupportedScheme scheme)
        else Ok rest
      else Ok uri
  | None => Ok uri
  end.

Definition split_host_port (rest : list Z) : result ProxyError (list Z * option (list Z)) :=
  match strip_prefix (lit "[") rest with
  | Some bracketed =>
      match split_once (lit "]") bracketed with
      | None => Err MissingBracket
      | Some (host, after) =>
          match after with
          | [] => Ok (host, None)
          | _ =>
              match strip_prefix (lit ":") after with
              | Some port => Ok (host, Some port)
              | None => Err (TrailingAfterBracket after)
              end
          end
      end
  | None =>
      match split_once (lit ":") rest with
      | Some (host, port) => Ok (host, Some port)
      | None => Ok (rest, None)
      end
  end.

Definition parse_proxy_uri (uri : list Z) : result ProxyError HttpProxy :=
  if bool_decide (64 ∈ uri) then Err CredentialsUnsupported
  else
    let! rest := strip_scheme uri in
    let rest := trim_end_matches 47 rest in
    let! host_port := split_host_port rest in
    let '(host, port) := host_port in
    match host with
    | [] => Err EmptyHost
    | _ =>
        let! port := match port with
                     | None => Ok DEFAULT_HTTP_PROXY_PORT
                     | Some port => parse_port port
                     end in
        Ok (mkHttpProxy host port)
    end.

Definition authority (host : list Z) (port : Z) : list Z :=
  if is_ipv6 host then lit "[" ++ host ++ lit "]:" ++ print_u64 port
  else host ++ lit ":" ++ print_u64 port.

(** [impl Display for HttpProxy] *)
Definition HttpProxy_fmt (self : HttpProxy) : list Z :=
  lit "http://" ++ authority (hp_host self) (hp_port self).

(** * The CONNECT exchange *)

Definition MAX_CONNECT_RESPONSE_BYTES : Z := 16 * 1024.
Definition MAX_QUOTED_STATUS_LINE : nat := 256.

Inductive ConnectError : Type :=
| ConnectIo (k : ErrorKind)
| InvalidTarget
| ClosedBeforeHeaders (received : Z)
| HeadersTooLarge (limit : Z)
| MalformedStatusLine (line : list Z)
| Unauthorized (line : list Z)
| ProxyAuthenticationRequired (line : list Z)
| Refused (status : Z) (status_line : list Z).

(** ** Characters *)

(** The character at the front of valid text, and its bytes' number. *)
Definition char_value (bs : list Z) : Z :=
  let b0 := safe_get bs 0 in
  let c i := Z.land (safe_get bs i) 63 in
  match snd (utf8_step bs) with
  | 1%nat => b0
  | 2%nat => Z.lor (Z.shiftl (Z.land b0 31) 6) (c 1%nat)
  | 3%nat => Z.lor (Z.shiftl (Z.land b0 15) 12) (Z.lor (Z.shiftl (c 1%nat) 6) (c 2%nat))
  | _ => Z.lor (Z.shiftl (Z.land b0 7) 18)
           (Z.lor (Z.shiftl (c 1%nat) 12) (Z.lor (Z.shiftl (c 2%nat) 6) (c 3%nat)))
  end.

(** [s.chars().any(f)]: as many rounds as bytes are enough. *)
Fixpoint chars_any (f : Z -> bool) (fuel : nat) (s : list Z) : bool :=
  match fuel, s with
  | O, _ | _, [] => false
  | S fuel, _ => f (char_value s) || chars_any f fuel (drop (snd (utf8_step s)) s)
  end.

(** [char::is_whitespace] and [char::is_control]. *)
Definition is_whitespace (c : Z) : bool :=
  between 9 c 13 || (c =? 32) || (c =? 133) || (c =? 160) || (c =? 5760) ||
  between 8192 c 8202 || (c =? 8232) || (c =? 8233) || (c =? 8239) || (c =? 8287) || (c =? 12288).
Definition is_control (c : Z) : bool := between 0 c 31 || between 127 c 159.

(** The bytes of the first [n] characters, and the rest. *)
Fixpoint take_chars (n : nat) (s : list Z) : list Z * list Z :=
  match n, s with
  | O, _ | _, [] => ([], s)
  | S n, _ =>
      let k := snd (utf8_step s) in
      let '(front, rest) := take_chars n (drop k s) in
      (take k s ++ front, rest)
  end.

Definition quote_status_line (line : list Z) : list Z :=
  let text := from_utf8_lossy line in
  let '(quoted, rest) := take_chars MAX_QUOTED_STATUS_LINE text in
  match rest with [] => quoted | _ => quoted ++ lit "..." end.

(** ** Requests *)

Definition CRLF : list Z := [13; 10].

Section Exchange.
Context (version : list Z).

Definition USER_AGENT : list Z := lit "shakenfist-spice-protocol/" ++ version.

Definition invalid_target (target_host : list Z) : bool :=
  match target_host with
  | [] => true
  | _ => chars_any (fun c => is_whitespace c || is_control c) (length target_host) target_host
  end.

Definition connect_request (target_host : list Z) (target_port : Z) : list Z :=
  let target := authority target_host target_port in
  lit "CONNECT " ++ target ++ lit " HTTP/1.0" ++ CRLF ++
  lit "Host: " ++ target ++ CRLF ++
  lit "Proxy-Connection: keep-alive" ++ CRLF ++
  lit "User-Agent: " ++ USER_AGENT ++ CRLF ++
  CRLF.

Definition write_connect_request (target_host : list Z) (target_port : Z) : Io ConnectError unit :=
  if invalid_target target_host then io_throw InvalidTarget
  else
    io! io_write_all (connect_request target_host target_port) in
    io! io_flush in
    io_ret tt.

(** ** Responses *)

Definition starts_with (pat s : list Z) : bool :=
  match strip_prefix pat s with Some _ => true | None => false end.

Definition parse_status_code (line : list Z) : option Z :=
  rest ← match strip_prefix (lit "HTTP/1.0") line with
         | Some rest => Some rest
         | None => strip_prefix (lit "HTTP/1.1") line
         end;
  digits ← strip_prefix (lit " ") rest;
  let digits := snd (span (fun b => b =? 32) digits) in
  if zlen digits <? 3 then None
  else
    let code := take 3 digits in
    let after := drop 3 digits in
    if negb (forallb is_ascii_digit code) ||
       negb (bool_decide (after = []) || starts_with (lit " ") after) then None
    else Some (foldl (fun acc b => acc * 10 + (b - 48)) 0 code).

(** The text before the first line break. *)
Definition first_line (block : list Z) : list Z :=
  match split_once CRLF block with Some (line, _) => line | None => block end.

Definition parse_connect_response (block : list Z) : result ConnectError unit :=
  let line := first_line block in
  let quoted := quote_status_line line in
  match parse_status_code line with
  | None => Err (MalformedStatusLine quoted)
  | Some status =>
      if between 200 status 299 then Ok tt
      else if status =? 401 then Err (Unauthorized quoted)
      else if status =? 407 then Err (ProxyAuthenticationRequired quoted)
      else Err (Refused status quoted)
  end.

(** One round per byte; [limit] rounds are enough, as the block may not grow beyond
    it. *)
Fixpoint read_header_block (fuel : nat) (limit : Z) (block : list Z) : Io ConnectError (list Z) :=
  match fuel with
  | O => io_lift Panic
  | S fuel =>
      io? byte := io_read_byte in
      match byte with
      | None => io_throw (ClosedBeforeHeaders (zlen block))
      | Some byte =>
          let block := push block byte in
          if ends_with (CRLF ++ CRLF) block then io_ret block
          else if limit <=? zlen block then io_throw (HeadersTooLarge limit)
          else read_header_block fuel limit block
      end
  end.

Definition read_connect_response : Io ConnectError unit :=
  io? block := read_header_block (Z.to_nat MAX_CONNECT_RESPONSE_BYTES) MAX_CONNECT_RESPONSE_BYTES [] in
  io_lift (parse_connect_response block).

Definition establish_tunnel (target_host : list Z) (target_port : Z) : Io ConnectError unit :=
  io! write_connect_request target_host target_port in
  read_connect_response.
End Exchange.

(** * Lemmas: addresses *)

(** What an IPv6 literal may hold. *)
Definition ipv6_char (b : Z) : Prop := is_hex_digit b = true \/ b = 58 \/ b = 46.

(** [s] is [rest] behind characters of an IPv6 literal. *)
Definition ate (s rest : list Z) : Prop := exists pre, s = pre ++ rest /\ Forall ipv6_char pre.

Lemma ate_refl s : ate s s.
Proof. exists []. by split; [|constructor]. Qed.

Lemma ate_trans s t u : ate s t -> ate t u -> ate s u.
Proof.
  intros (p & -> & Hp) (q & -> & Hq). exists (p ++ q). split; [by rewrite app_assoc|by apply Forall_app].
Qed.

Lemma span_app f s : s = fst (span f s) ++ snd (span f s) /\ Forall (fun b => f b = true) (fst (span f s)).
Proof.
  induction s as [|c s [IH1 IH2]]; [by split; [|constructor]|]. cbn.
  destruct (f c) eqn:E; [|by split; [|constructor]].
  destruct (span f s) as [ds rest]. cbn in *. split; [by rewrite IH1 at 1|by constructor].
Qed.

Lemma span_ate f s : (forall b, f b = true -> ipv6_char b) -> ate s (snd (span f s)).
Proof.
  intros Hf. destruct (span_app f s) as [H1 H2]. exists (fst (span f s)).
  split; [done|]. eapply Forall_impl; [|exact H2]. auto.
Qed.

Lemma digit_hex b : is_ascii_digit b = true -> ipv6_char b.
Proof. intros H. left. unfold is_hex_digit. by rewrite H. Qed.

Lemma strip_ate c s rest : ipv6_char c -> strip_prefix [c] s = Some rest -> ate s rest.
Proof. intros Hc ->%strip_prefix_Some. exists [c]. by split; [|constructor]. Qed.

Lemma read_hex_group_ate s rest : read_hex_group s = Some rest -> ate s rest.
Proof.
  unfold read_hex_group. pose proof (span_ate is_hex_digit s) as H. destruct (span is_hex_digit s) as [ds r].
  destruct (_ && _); [|done]. intros [= <-]. apply H. by left.
Qed.

Lemma read_octet_ate s rest : read_octet s = Some rest -> ate s rest.
Proof.
  unfold read_octet. pose proof (span_ate is_ascii_digit s digit_hex) as H.
  destruct (span is_ascii_digit s) as [ds r]. cbv zeta. destruct (_ && _); [|done]. by intros [= <-].
Qed.

Lemma dot_char : ipv6_char 46.
Proof. by right; right. Qed.
Lemma colon_char : ipv6_char 58.
Proof. by right; left. Qed.

Lemma read_ipv4_ate s rest : read_ipv4 s = Some rest -> ate s rest.
Proof.
  unfold read_ipv4. intros H.
  repeat (apply bind_Some in H as (? & H' & H);
    first [apply read_octet_ate in H' | apply (strip_ate 46 _ _ dot_char) in H'];
    eapply ate_trans; [exact H'|]; clear H').
  by apply read_octet_ate.
Qed.

Lemma read_separator_ate i (read : list Z -> option (list Z)) s rest :
  (forall s rest, read s = Some rest -> ate s rest) -> read_separator i read s = Some rest -> ate s rest.
Proof.
  intros Hr. destruct i; [apply Hr|]. cbn [read_separator].
  intros (t & Ht & H)%bind_Some. eapply ate_trans; [by apply (strip_ate 58 _ _ colon_char)|by apply Hr].
Qed.

Lemma read_groups_ate n i s : ate s (snd (read_groups n i s)).
Proof.
  revert i s. induction n as [|n IH]; intros i s; cbn [read_groups]; [apply ate_refl|].
  destruct (match n with O => None | S _ => read_separator i read_ipv4 s end) as [rest|] eqn:E.
  { destruct n; [done|]. by eapply read_separator_ate; [apply read_ipv4_ate|]. }
  destruct (read_separator i read_hex_group s) as [rest|] eqn:E'; [|apply ate_refl].
  eapply ate_trans; [|apply IH]. by eapply read_separator_ate; [apply read_hex_group_ate|].
Qed.

Lemma ate_nil s : ate s [] -> Forall ipv6_char s.
Proof. intros (p & -> & Hp). by rewrite app_nil_r. Qed.

Lemma is_ipv6_chars s : is_ipv6 s = true -> Forall ipv6_char s.
Proof.
  unfold is_ipv6. pose proof (read_groups_ate 8 0 s) as H.
  destruct (read_groups 8 0 s) as [[n v4] rest]. cbn [snd] in H.
  destruct (_ =? _)%nat; [intros ->%bool_decide_eq_true; by apply ate_nil|].
  destruct v4; [done|]. destruct (strip_prefix _ rest) as [tail|] eqn:E; [|done].
  intros Ht%bool_decide_eq_true. apply ate_nil.
  eapply ate_trans; [exact H|]. apply strip_prefix_Some in E as ->.
  eapply ate_trans; [|rewrite <- Ht; apply read_groups_ate].
  exists (lit "::"). split; [done|]. repeat constructor; apply colon_char.
Qed.

Lemma ipv6_char_not c : is_hex_digit c = false -> c <> 58 -> c <> 46 -> ~ ipv6_char c.
Proof. intros H1 H2 H3 [H|[H|H]]; congruence. Qed.

Lemma Forall_not_elem {A} (P : A -> Prop) l x : Forall P l -> ~ P x -> x ∉ l.
Proof. intros Hl Hx Hin. apply Hx. by eapply list.Forall_forall. Qed.

(** * Properties of the address parser *)

(** Hosts whose printed form is read back: an IPv6 literal, or any text without a
    colon or an at sign, and no bracket in front. *)
Definition printable_host (host : list Z) : Prop :=
  host <> [] /\ (64 ∉ host) /\ (is_ipv6 host = true \/ ((58 ∉ host) /\ head host <> Some 91)).

Lemma parse_port_print n : 1 <= n <= 65535 -> parse_port (print_u64 n) = Ok n.
Proof.
  intros Hn. assert (u64 n) as Hu by (red; lia). unfold parse_port.
  destruct (print_u64_last n) as (ds & Hds). destruct (print_u64 n) as [|d l] eqn:E; [by destruct ds|].
  rewrite <- E. assert (forallb is_ascii_digit (print_u64 n) = true) as ->.
  { apply forallb_forall. intros x Hx. pose proof (print_u64_digits n) as H.
    rewrite list.Forall_forall in H. apply H; [lia|]. by apply list_elem_of_In. }
  cbn [negb]. rewrite parse_print_u64 by done. unfold between.
  by rewrite !(proj2 (Z.leb_le _ _)) by lia.
Qed.

Lemma parse_port_range s n : parse_port s = Ok n -> 1 <= n <= 65535.
Proof.
  unfold parse_port. destruct s; [done|]. destruct (negb _); [done|].
  destruct (parse_u64 _) as [m|]; [|done]. unfold between.
  destruct (_ && _) eqn:E; [|done]. rewrite andb_true_iff, !Z.leb_le in E. by intros [= <-].
Qed.

Lemma digits_not n c : 0 <= n -> is_ascii_digit c = false -> c ∉ print_u64 n.
Proof.
  intros Hn Hc. eapply Forall_not_elem; [by apply print_u64_digits|]. cbn. by rewrite Hc.
Qed.

Lemma strip_scheme_http rest : strip_scheme (lit "http://" ++ rest) = Ok rest.
Proof.
  unfold strip_scheme. change (lit "http://" ++ rest) with (lit "http" ++ (lit "://" ++ rest)).
  change (lit "://") with (58 :: lit "//"). rewrite split_once_app by (by apply (bool_decide_unpack _)).
  reflexivity.
Qed.

Lemma split_authority host port : 0 <= port -> printable_host host ->
  split_host_port (authority host port) = Ok (host, Some (print_u64 port)).
Proof.
  intros Hp (Hne & _ & Hh). unfold authority, split_host_port. destruct (is_ipv6 host) eqn:E.
  - change (lit "[") with [91]. rewrite strip_prefix_app.
    change (lit "]:" ++ print_u64 port) with ((93 :: []) ++ lit ":" ++ print_u64 port).
    change (lit "]") with [93]. rewrite split_once_app.
    + change (lit ":") with [58]. cbn [app]. change (58 :: print_u64 port) with ([58] ++ print_u64 port).
      by rewrite strip_prefix_app.
    + eapply Forall_not_elem; [by apply is_ipv6_chars|]. by apply ipv6_char_not.
  - destruct Hh as [?|[Hc Hb]]; [done|]. destruct host as [|c host]; [done|].
    change (lit "[") with [91]. cbn [app strip_prefix].
    destruct (Z.eqb_spec 91 c) as [<-|_]; [done|].
    change (lit ":") with [58]. change (c :: host ++ [58] ++ print_u64 port) with ((c :: host) ++ [58] ++ print_u64 port).
    by rewrite split_once_app.
Qed.

(** A proxy address: whatever the text, it is parsed or refused; an accepted one has a
    host without credentials and a port in range; and printing an address whose host
    has no colon, or is an IPv6 literal, and parsing what was printed gives it back. *)
Theorem proxy_uri_round_trip :
  (forall uri, match parse_proxy_uri uri with
    | Ok p => hp_host p <> [] /\ (64 ∉ uri) /\ 1 <= hp_port p <= 65535
    | Err _ => True
    | Panic => False
    end) /\
  (forall p, printable_host (hp_host p) -> 1 <= hp_port p <= 65535 ->
    parse_proxy_uri (HttpProxy_fmt p) = Ok p).
Proof.
  split.
  - intros uri. unfold parse_proxy_uri. destruct (bool_decide_reflect (64 ∈ uri)) as [|Hat]; [done|].
    assert (strip_scheme uri <> Panic) as Hs by (unfold strip_scheme; repeat case_match; done).
    destruct (strip_scheme uri) as [rest|e|]; cbn [rbind]; [|done..].
    assert (split_host_port (trim_end_matches 47 rest) <> Panic) as Hp
      by (unfold split_host_port; repeat case_match; done).
    destruct (split_host_port _) as [[host port]|e|]; cbn [rbind]; [|done..].
    destruct host as [|c host]; [done|]. destruct port as [port|]; cbn [rbind]; [|done].
    pose proof (parse_port_range port) as Hr.
    assert (parse_port port <> Panic) as Hpp by (unfold parse_port; repeat case_match; done).
    destruct (parse_port port) as [n|e|]; cbn [rbind]; [|done..]. split_and!; [done|done|by apply Hr..].
  - intros [host port] Hh Hp. cbn [hp_host hp_port] in *. unfold parse_proxy_uri, HttpProxy_fmt.
    cbn [hp_host hp_port]. destruct Hh as (Hne & Hat & Hh).
    assert (64 ∉ print_u64 port) as Hd by (apply digits_not; [lia|done]).
    assert (64 ∉ authority host port) as Ha.
    { unfold authority. destruct (is_ipv6 host); rewrite !not_elem_of_app; split_and!; try done;
        by apply (bool_decide_unpack _). }
    rewrite bool_decide_false by (rewrite not_elem_of_app; split; [by apply (bool_decide_unpack _)|done]).
    rewrite strip_scheme_http. cbn [rbind].
    assert (trim_end_matches 47 (authority host port) = authority host port) as ->.
    { destruct (print_u64_last port) as (ds & Hds). pose proof (Z.mod_pos_bound port 10).
      unfold authority. rewrite Hds.
      destruct (is_ipv6 host); rewrite !app_assoc; apply trim_end_keeps; lia. }
    rewrite split_authority by (try lia; done). cbn [rbind]. destruct host as [|c host]; [done|].
    by rewrite parse_port_print.
Qed.

(** [http://[::1]:3128], [http://squid:8080] and a Proxmox-like name. *)
Lemma proxy_uri_round_trip_witness :
  HttpProxy_fmt (mkHttpProxy (lit "::1") 3128) = lit "http://[::1]:3128" /\
  parse_proxy_uri (HttpProxy_fmt (mkHttpProxy (lit "::1") 3128)) = Ok (mkHttpProxy (lit "::1") 3128) /\
  parse_proxy_uri (HttpProxy_fmt (mkHttpProxy (lit "squid") 65535)) = Ok (mkHttpProxy (lit "squid") 65535).
Proof.
  split; [vm_compute; reflexivity|]. split; apply (proj2 proxy_uri_round_trip); try (cbn; lia);
    split_and!; try done; by apply (bool_decide_unpack _).
Defined.

(** * Lemmas: the exchange *)

(** Bytes below 128 are characters of their own. *)
Lemma utf8_step_high bs n : utf8_step bs = (true, n) -> n <> 1%nat ->
  forall i, (i < n)%nat -> 128 <= safe_get bs i.
Proof.
  intros Hs Hn. assert (forall b, is_cont b = true -> 128 <= b) as Hc
    by (intros b; unfold is_cont, between; rewrite andb_true_iff, !Z.leb_le; lia).
  assert (forall b0 b1, second3 b0 b1 = true -> 128 <= b1) as H3
    by (intros b0 b1; unfold second3, is_cont, between;
        rewrite !orb_true_iff, !andb_true_iff, !Z.leb_le; lia).
  assert (forall b0 b1, second4 b0 b1 = true -> 128 <= b1) as H4
    by (intros b0 b1; unfold second4, is_cont, between;
        rewrite !orb_true_iff, !andb_true_iff, !Z.leb_le; lia).
  unfold utf8_step in Hs. destruct (Z.ltb_spec (safe_get bs 0) 128); [by simplify_eq|].
  repeat match goal with
    | H : context [if ?b then _ else _] |- _ => destruct b eqn:?
    end; simplify_eq; intros [|[|[|[|i]]]] Hi; try lia; eauto.
Qed.

Lemma chars_any_ascii f fuel s : utf8 s -> (length s <= fuel)%nat -> chars_any f fuel s = false ->
  forall b, b ∈ s -> b < 128 -> f b = false.
Proof.
  intros Hu. revert fuel. induction Hu as [|s n Hne Hs Hu IH]; intros fuel Hf Hany b Hb Hlt.
  { by apply not_elem_of_nil in Hb. }
  destruct fuel as [|fuel]; [destruct s; [done|cbn in *; lia]|].
  destruct s as [|b0 s]; [done|]. cbn [chars_any] in Hany. apply orb_false_iff in Hany as [Hv Hany].
  pose proof (utf8_step_pos (b0 :: s)) as Hp. rewrite Hs in *. cbn [snd] in *.
  rewrite <- (take_drop n (b0 :: s)) in Hb. apply elem_of_app in Hb as [Hb|Hb].
  - destruct (decide (n = 1%nat)) as [->|Hn].
    + cbn [take] in Hb. apply list_elem_of_singleton in Hb as ->.
      unfold char_value in Hv. by rewrite Hs in Hv.
    + exfalso. apply list_elem_of_lookup_1 in Hb as [i Hi].
      assert (i < n)%nat as Hin by (apply lookup_lt_Some in Hi; rewrite length_take in Hi; lia).
      rewrite lookup_take_lt in Hi by done. pose proof (utf8_step_high _ _ Hs Hn i Hin) as H.
      unfold safe_get in H. rewrite Hi in H. cbn in H. lia.
  - apply (IH fuel); [|done|done|done]. rewrite length_drop. cbn in *. lia.
Qed.

Section Exchange_proofs.
Context (version : list Z).

(** The lines of a request. *)
Definition request_lines (host : list Z) (port : Z) : list (list Z) :=
  let target := authority host port in
  [lit "CONNECT " ++ target ++ lit " HTTP/1.0"; lit "Host: " ++ target;
   lit "Proxy-Connection: keep-alive"; lit "User-Agent: " ++ USER_AGENT version; []].

Lemma connect_request_lines host port :
  connect_request version host port = concat (map (fun l => l ++ CRLF) (request_lines host port)).
Proof. unfold connect_request, request_lines. cbn [map concat]. by rewrite <- !app_assoc, !app_nil_r. Qed.

Definition breaks_line (b : Z) : Prop := b = 13 \/ b = 10.

Lemma valid_target_bytes host b : utf8 host -> invalid_target host = false ->
  b = 32 \/ breaks_line b -> b ∉ host.
Proof.
  intros Hu Hv Hb Hin. destruct host as [|h host]; [by apply not_elem_of_nil in Hin|].
  unfold invalid_target in Hv.
  assert (is_whitespace b || is_control b = false) as Hf.
  { apply (chars_any_ascii (fun c => is_whitespace c || is_control c) _ _ Hu (Nat.le_refl _) Hv b Hin).
    unfold breaks_line in Hb. lia. }
  by destruct Hb as [->|[->| ->]].
Qed.

Lemma authority_bytes host port b : b ∉ host -> 0 <= port -> b = 32 \/ breaks_line b ->
  b ∉ authority host port.
Proof.
  intros Hb Hp Hc. assert (b ∉ print_u64 port) as Hd
    by (apply digits_not; [done|destruct Hc as [->|[->| ->]]; done]).
  unfold authority. destruct (is_ipv6 host); rewrite !not_elem_of_app; split_and!; try done;
    destruct Hc as [->|[->| ->]]; by apply (bool_decide_unpack _).
Qed.

(** ** Reading the answer *)

Definition block_ends (block : list Z) : Prop := ends_with (CRLF ++ CRLF) block = true.
(** No earlier point of [block] ends a header block. *)
Definition first_end (block : list Z) : Prop :=
  forall n, (n < length block)%nat -> ~ block_ends (take n block).

(** How an exchange may end on what the proxy sends before it closes. *)
Inductive answer (limit : Z) (sent : list Z) : result ConnectError (list Z) -> list Z -> Prop :=
| Answer_Block block rest :
    sent = block ++ rest -> zlen block <= limit -> block_ends block -> first_end block ->
    answer limit sent (Ok block) rest
| Answer_TooLarge block rest :
    sent = block ++ rest -> zlen block = limit -> ~ block_ends block -> first_end block ->
    answer limit sent (Err (HeadersTooLarge limit)) rest
| Answer_Closed :
    zlen sent < limit -> ~ block_ends sent -> first_end sent ->
    answer limit sent (Err (ClosedBeforeHeaders (zlen sent))) [].

Lemma first_end_push block b : first_end block -> ~ block_ends block -> first_end (block ++ [b]).
Proof.
  intros Hf Hb n Hn. rewrite length_app in Hn. cbn in Hn.
  rewrite take_app_le by lia. destruct (decide (n = length block)) as [->|].
  - by rewrite take_ge.
  - apply Hf. lia.
Qed.

Lemma run_header_block fuel limit block sent :
  zlen block + Z.of_nat fuel = limit -> (0 < fuel)%nat -> first_end block -> ~ block_ends block ->
  exists r rest, io_run (read_header_block fuel limit block) sent = (r, [], rest) /\
    answer limit (block ++ sent) r rest.
Proof.
  revert block sent. induction fuel as [|fuel IH]; intros block sent Hl Hpos Hf Hb; [lia|].
  cbn [read_header_block io_read_byte io_bind io_run].
  destruct sent as [|b sent]; cbn [length Nat.leb].
  - cbn [io_ret io_bind io_throw io_run]. do 2 eexists. split; [done|]. rewrite app_nil_r.
    apply Answer_Closed; [lia|done|done].
  - cbn [take drop head io_ret io_bind]. unfold push.
    replace (block ++ b :: sent) with ((block ++ [b]) ++ sent) by (by rewrite <- app_assoc).
    assert (zlen (block ++ [b]) = zlen block + 1) as Hlen by zlen_solve.
    rewrite drop_0. pose proof (first_end_push block b Hf Hb) as Hf'.
    destruct (ends_with (CRLF ++ CRLF) (block ++ [b])) eqn:E.
    + cbn [io_run]. do 2 eexists. split; [done|]. apply (Answer_Block _ _ (block ++ [b])); [done|lia|done|done].
    + assert (~ block_ends (block ++ [b])) as Hb' by (unfold block_ends; by rewrite E).
      destruct (Z.leb_spec limit (zlen (block ++ [b]))).
      * cbn [io_run]. do 2 eexists. split; [done|].
        apply (Answer_TooLarge _ _ (block ++ [b])); [done|lia|done|done].
      * apply IH; [lia|lia|done|done].
Qed.

(** C23: The CONNECT exchange, on everything a proxy may send before it closes.  A host
    that could break out of its line is refused before anything is written; otherwise
    the request is five lines, none of which holds a line break, with a target that
    holds no space; and the answer is read up to the end of its headers and no
    further, so the bytes behind them are left for TLS. *)
Theorem tunnel_exchange host port sent :
  utf8 host -> u16 port -> (forall b, breaks_line b -> b ∉ version) ->
  let '(r, out, rest) := io_run (establish_tunnel version host port) sent in
  if invalid_target host then r = Err InvalidTarget /\ out = [] /\ rest = sent
  else
    out = concat (map (fun l => l ++ CRLF) (request_lines host port)) /\
    Forall (fun l => forall b, breaks_line b -> b ∉ l) (request_lines host port) /\
    (32 ∉ authority host port) /\
    exists block, answer MAX_CONNECT_RESPONSE_BYTES sent block rest /\
      r = rbind block parse_connect_response.
Proof.
  intros Hu Hp Hver. unfold establish_tunnel, write_connect_request, read_connect_response.
  assert (0 < MAX_CONNECT_RESPONSE_BYTES) as Hmax by (unfold MAX_CONNECT_RESPONSE_BYTES; lia).
  revert Hmax. generalize MAX_CONNECT_RESPONSE_BYTES. intros limit Hmax.
  destruct (invalid_target host) eqn:Hv; [done|].
  cbn [io_bind io_write_all io_flush io_ret io_run]. rewrite io_run_bind.
  destruct (run_header_block (Z.to_nat limit) limit [] sent) as (r & rest & -> & Ha).
  { rewrite zlen_nil, Z2Nat.id; lia. }
  { lia. }
  { intros n Hn. cbn in Hn. lia. }
  { done. }
  rewrite app_nil_l in Ha.
  assert (forall b, b = 32 \/ breaks_line b -> b ∉ authority host port) as Hauth.
  { intros b Hb. apply authority_bytes; [by apply valid_target_bytes|apply Hp|done]. }
  assert (Forall (fun l => forall b, breaks_line b -> b ∉ l) (request_lines host port)) as Hlines.
  { unfold request_lines. cbv zeta. repeat apply Forall_cons; try apply Forall_nil_2; intros b Hb;
      unfold USER_AGENT; rewrite ?not_elem_of_app; split_and?;
      try (apply Hauth; by right); try (by apply Hver);
      destruct Hb as [->| ->]; by apply (bool_decide_unpack _). }
  assert (32 ∉ authority host port) as Hsp by (apply Hauth; by left).
  destruct r as [block|e|]; cbn [io_lift io_run rbind]; rewrite ?app_nil_r;
    (split; [apply connect_request_lines|]); (split; [done|]); (split; [done|]);
    eexists; (split; [exact Ha|]); done.
Qed.
End Exchange_proofs.

(** A good answer, with the first bytes of TLS behind it. *)
Lemma tunnel_exchange_witness :
  io_run (establish_tunnel (lit "1.0") (lit "pve:kvm") 61000)
    (lit "HTTP/1.0 200 OK" ++ CRLF ++ CRLF ++ [22; 3; 1]) =
    (Ok tt, lit "CONNECT pve:kvm:61000 HTTP/1.0" ++ CRLF ++ lit "Host: pve:kvm:61000" ++ CRLF ++
       lit "Proxy-Connection: keep-alive" ++ CRLF ++
       lit "User-Agent: shakenfist-spice-protocol/1.0" ++ CRLF ++ CRLF, [22; 3; 1]) /\
  Forall (fun l => forall b, breaks_line b -> b ∉ l) (request_lines (lit "1.0") (lit "pve:kvm") 61000).
Proof.
  split; [vm_compute; reflexivity|].
  assert (utf8 (lit "pve:kvm")) as Hu
    by (repeat (eapply utf8_char; [done|reflexivity|]); constructor).
  assert (forall b, breaks_line b -> b ∉ lit "1.0") as Hv
    by (intros b [->| ->]; by apply (bool_decide_unpack _)).
  assert (u16 61000) as Hp by (red; lia).
  pose proof (tunnel_exchange (lit "1.0") (lit "pve:kvm") 61000 [] Hu Hp Hv) as H.
  revert H. generalize (io_run (establish_tunnel (lit "1.0") (lit "pve:kvm") 61000) []).
  assert (invalid_target (lit "pve:kvm") = false) as Hi by (vm_compute; reflexivity). rewrite Hi.
  intros [[r out] rest] (_ & H & _). exact H.
Defined.

(** * Status lines *)

Lemma span_replicate n rest : head rest <> Some 32 ->
  span (fun b => b =? 32) (replicate n 32 ++ rest) = (replicate n 32, rest).
Proof.
  intros Hr. induction n as [|n IH]; cbn; [|by rewrite IH].
  destruct rest as [|c rest]; [done|]. cbn. destruct (Z.eqb_spec c 32) as [->|]; done.
Qed.

Lemma span_spaces s : exists n, s = replicate n 32 ++ snd (span (fun b => b =? 32) s).
Proof.
  induction s as [|c s [n IH]]; [by exists 0%nat|]. cbn. destruct (Z.eqb_spec c 32) as [->|].
  - exists (S n). destruct (span _ s) as [ds rest]. cbn in *. by rewrite IH at 1.
  - by exists 0%nat.
Qed.

Lemma digit_range d : is_ascii_digit d = true <-> 48 <= d <= 57.
Proof. unfold is_ascii_digit, between. by rewrite andb_true_iff, !Z.leb_le. Qed.

Lemma status_code_line minor spaces d1 d2 d3 reason :
  minor = 48 \/ minor = 49 ->
  is_ascii_digit d1 = true -> is_ascii_digit d2 = true -> is_ascii_digit d3 = true ->
  reason = [] \/ head reason = Some 32 ->
  parse_status_code (lit "HTTP/1." ++ [minor] ++ replicate (S spaces) 32 ++ [d1; d2; d3] ++ reason) =
    Some ((d1 - 48) * 100 + (d2 - 48) * 10 + (d3 - 48)).
Proof.
  intros Hm H1 H2 H3 Hr. unfold parse_status_code.
  assert (forall rest, match strip_prefix (lit "HTTP/1.0") (lit "HTTP/1." ++ [minor] ++ rest) with
    | Some r => Some r | None => strip_prefix (lit "HTTP/1.1") (lit "HTTP/1." ++ [minor] ++ rest) end = Some rest) as ->
    by (intros rest; by destruct Hm as [->| ->]).
  cbn [mbind option_bind]. change (replicate (S spaces) 32) with (lit " " ++ replicate spaces 32).
  rewrite <- app_assoc, strip_prefix_app. cbn [mbind option_bind].
  rewrite span_replicate by (apply digit_range in H1; intros [= E]; lia). cbn [snd app]. cbv zeta.
  destruct (Z.ltb_spec (zlen (d1 :: d2 :: d3 :: reason)) 3) as [Hlt|_];
    [rewrite !zlen_cons in Hlt; pose proof (zlen_nonneg reason); lia|].
  cbn [take drop forallb]. rewrite H1, H2, H3, drop_0. cbn [andb negb orb].
  assert (bool_decide (reason = []) || starts_with (lit " ") reason = true) as ->.
  { destruct reason as [|c reason]; [done|]. destruct Hr as [?|[= ->]]; [done|].
    rewrite orb_true_iff. right. done. }
  rewrite take_0. cbn [forallb negb orb foldl]. f_equal. lia.
Qed.

Lemma status_code_inv line status : parse_status_code line = Some status ->
  exists minor spaces d1 d2 d3 reason,
    line = lit "HTTP/1." ++ [minor] ++ replicate (S spaces) 32 ++ [d1; d2; d3] ++ reason /\
    (minor = 48 \/ minor = 49) /\
    is_ascii_digit d1 = true /\ is_ascii_digit d2 = true /\ is_ascii_digit d3 = true /\
    (reason = [] \/ head reason = Some 32) /\
    status = (d1 - 48) * 100 + (d2 - 48) * 10 + (d3 - 48).
Proof.
  unfold parse_status_code. intros (rest & Hrest & H)%bind_Some.
  assert (exists minor, (minor = 48 \/ minor = 49) /\ line = lit "HTTP/1." ++ [minor] ++ rest) as (minor & Hm & Hl).
  { destruct (strip_prefix (lit "HTTP/1.0") line) as [r|] eqn:E.
    - simplify_eq. apply strip_prefix_Some in E as ->. exists 48. auto.
    - apply strip_prefix_Some in Hrest as ->. exists 49. auto. }
  apply bind_Some in H as (digits & Hd & H). apply strip_prefix_Some in Hd as ->.
  destruct (span_spaces digits) as [n Hn]. cbv zeta in H.
  destruct (snd (span (fun b => b =? 32) digits)) as [|d1 [|d2 [|d3 reason]]] eqn:E; try done.
  destruct (_ <? 3); [done|]. cbn [take drop forallb] in H. rewrite drop_0, take_0 in H. cbn [forallb] in H.
  destruct (negb (is_ascii_digit d1 && _) || _) eqn:Hc; [done|]. simplify_eq.
  apply orb_false_iff in Hc as [Hdig Hr]. rewrite !negb_false_iff in *.
  rewrite !andb_true_iff in Hdig. destruct Hdig as (? & ? & ? & _).
  exists minor, n, d1, d2, d3, reason. split.
  { change (replicate (S n) 32) with (lit " " ++ replicate n 32). by rewrite <- !app_assoc. }
  split_and!; try done.
  - apply orb_true_iff in Hr as [Hr|Hr]; [left; by apply bool_decide_eq_true in Hr|right].
    unfold starts_with in Hr. destruct (strip_prefix (lit " ") reason) eqn:Ep; [|done].
    apply strip_prefix_Some in Ep as ->. done.
  - cbn [foldl]. lia.
Qed.

(** The lines that establish a tunnel: a version, spaces, a status in the two
    hundreds, and nothing or a space behind it. *)
Inductive tunnel_line : list Z -> Prop :=
| Tunnel_Line minor spaces d2 d3 reason :
    minor = 48 \/ minor = 49 -> is_ascii_digit d2 = true -> is_ascii_digit d3 = true ->
    reason = [] \/ head reason = Some 32 ->
    tunnel_line (lit "HTTP/1." ++ [minor] ++ replicate (S spaces) 32 ++ [50; d2; d3] ++ reason).

(** The client goes on through the proxy exactly when the first line of its answer is
    such a line; on any bytes there is a verdict. *)
Theorem connect_response_accepts block :
  (parse_connect_response block = Ok tt <-> tunnel_line (first_line block)) /\
  parse_connect_response block <> Panic.
Proof.
  unfold parse_connect_response. cbv zeta. split; [|by repeat case_match].
  destruct (parse_status_code (first_line block)) as [status|] eqn:E.
  - apply status_code_inv in E as (minor & n & d1 & d2 & d3 & reason & Hl & Hm & H1 & H2 & H3 & Hr & ->).
    apply digit_range in H1 as R1. apply digit_range in H2 as R2. apply digit_range in H3 as R3.
    unfold between. split.
    + destruct (Z.leb_spec 200 ((d1 - 48) * 100 + (d2 - 48) * 10 + (d3 - 48))),
        (Z.leb_spec ((d1 - 48) * 100 + (d2 - 48) * 10 + (d3 - 48)) 299);
        cbn [andb]; try (repeat case_match; done).
      intros _. assert (d1 = 50) as -> by lia. rewrite Hl. by constructor.
    + intros Ht. inversion Ht as [m' n' e2 e3 r' Hm' He2 He3 Hr' Heq]. rewrite Hl in Heq.
      apply digit_range in He2, He3.
      assert (parse_status_code (lit "HTTP/1." ++ [minor] ++ replicate (S n) 32 ++ [d1; d2; d3] ++ reason) =
        Some ((50 - 48) * 100 + (e2 - 48) * 10 + (e3 - 48))) as Hs
        by (rewrite <- Heq; apply status_code_line; try done; by apply digit_range).
      rewrite status_code_line in Hs by done. injection Hs as Hs.
      rewrite Hs, !(proj2 (Z.leb_le _ _)) by lia. done.
  - split; [done|]. intros Ht. inversion Ht as [m n d2 d3 r Hm H2 H3 Hr Heq].
    assert (parse_status_code (first_line block) = Some ((50 - 48) * 100 + (d2 - 48) * 10 + (d3 - 48))) as Hs
      by (rewrite <- Heq; by apply status_code_line).
    by rewrite E in Hs.
Qed.
