(* ===== verification/HostSubject.v ===== *)
(** Pinned certificate subjects: [shakenfist-spice-protocol/src/host_subject.rs].

    A pin is a line of text, [C=US,O=Acme,CN=hv1]; it is parsed once and compared
    with the subject of every certificate.  The X.509 parser is the class [X509Lib].
    Characters are read as bytes (see [Text]). *)
From Stdlib Require Import ZArith Lia String.
From stdpp Require Import base numbers list tactics.
From S2P Require Import Prelude Utf8 Text.

Open Scope Z_scope.
Open Scope rust_scope.

(** * Data *)

Inductive SubjectAttr : Type :=
| CountryName | StateOrProvinceName | LocalityName | OrganizationName
| OrganizationalUnitName | CommonName | DomainComponent | EmailAddress.

#[export] Instance SubjectAttr_eq_dec : EqDecision SubjectAttr.
Proof. solve_decision. Defined.

Definition SubjectAttr_short_name (a : SubjectAttr) : list Z :=
  match a with
  | CountryName => lit "C"
  | StateOrProvinceName => lit "ST"
  | LocalityName => lit "L"
  | OrganizationName => lit "O"
  | OrganizationalUnitName => lit "OU"
  | CommonName => lit "CN"
  | DomainComponent => lit "DC"
  | EmailAddress => lit "emailAddress"
  end.

Definition SubjectAttr_from_key (key : list Z) : option SubjectAttr :=
  if decide (key = lit "C") then Some CountryName
  else if decide (key = lit "ST") then Some StateOrProvinceName
  else if decide (key = lit "L") then Some LocalityName
  else if decide (key = lit "O") then Some OrganizationName
  else if decide (key = lit "OU") then Some OrganizationalUnitName
  else if decide (key = lit "CN") then Some CommonName
  else if decide (key = lit "DC") then Some DomainComponent
  else if decide (key = lit "emailAddress") then Some EmailAddress
  else None.

Record ExpectedSubject : Type := mkExpectedSubject {
  es_original : list Z;
  es_entries : list (SubjectAttr * list Z)
}.

(** The reason of a mismatch, with the attribute's number. *)
Inductive MismatchReason : Type :=
| WrongCount (got expected : Z)
| WrongType (i : Z)
| UnsupportedEncoding (i : Z)
| WrongValue (i : Z) (got : list Z).

Inductive HostSubjectError : Type :=
| InvalidEscape
| MissingAssignment (key : list Z)
| TruncatedEntry (key : list Z)
| EmptyValue (key : list Z)
| UnknownKey (key : list Z)
| CertificateParse
| Mismatch (expected : list Z) (reason : MismatchReason).

(** * Parsing *)

(** [value.split(is_ascii_whitespace)] *)
Fixpoint split_whitespace (s : list Z) : list (list Z) :=
  match s with
  | [] => [[]]
  | c :: s =>
      if is_ascii_whitespace c then [] :: split_whitespace s
      else
        match split_whitespace s with
        | [] => [[c]]
        | w :: ws => (c :: w) :: ws
        end
  end.

Definition words (s : list Z) : list (list Z) :=
  List.filter (fun w => negb (bool_decide (w = []))) (split_whitespace s).

(** [.join(" ")] *)
Fixpoint join (ws : list (list Z)) : list Z :=
  match ws with
  | [] => []
  | [w] => w
  | w :: ws => w ++ [32] ++ join ws
  end.

Definition normalise (value : list Z) : list Z := map to_ascii_lowercase (join (words value)).

(** An entry is complete. *)
Definition finish_entry (key value : list Z) (entries : list (SubjectAttr * list Z)) :
    result HostSubjectError (list (SubjectAttr * list Z)) :=
  match value with
  | [] => Err (EmptyValue key)
  | _ =>
      match SubjectAttr_from_key key with
      | None => Err (UnknownKey key)
      | Some attr => Ok (push entries (attr, normalise value))
      end
  end.

(** The loop over the characters: [\ ] is 92, [,] is 44, [=] is 61. *)
Fixpoint parse_entries (chars key value : list Z) (in_value : bool)
    (entries : list (SubjectAttr * list Z)) : result HostSubjectError (list (SubjectAttr * list Z)) :=
  match chars with
  | [] =>
      if in_value then finish_entry key value entries
      else match key with [] => Ok entries | _ => Err (TruncatedEntry key) end
  | c :: chars =>
      if c =? 92 then
        match chars with
        | next :: chars =>
            if (next =? 92) || (next =? 44) then
              if in_value then parse_entries chars key (push value next) true entries
              else parse_entries chars (push key next) value false entries
            else Err InvalidEscape
        | [] => Err InvalidEscape
        end
      else if in_value then
        if c =? 44 then
          let! entries := finish_entry key value entries in
          parse_entries chars [] [] false entries
        else parse_entries chars key (push value c) true entries
      else if (c =? 32) && bool_decide (key = []) then parse_entries chars key value false entries
      else if c =? 44 then Err (MissingAssignment key)
      else if c =? 61 then parse_entries chars key value true entries
      else parse_entries chars (push key c) value false entries
  end.

Definition parse_host_subject (subject : list Z) : result HostSubjectError ExpectedSubject :=
  let! entries := parse_entries subject [] [] false [] in
  Ok (mkExpectedSubject subject entries).

(** * Matching *)

(** The X.509 parser: what is behind the certificate, and its subject's attributes in
    order, each a type and its value if that has a supported encoding. *)
Class X509Lib : Type := {
  Oid : Type;
  Oid_eq_dec :: EqDecision Oid;
  SubjectAttr_oid : SubjectAttr -> Oid;
  x509_from_der : list Z -> option (list Z * list (Oid * option (list Z)))
}.

Section Matching.
Context {X : X509Lib}.

Definition mismatch (self : ExpectedSubject) (reason : MismatchReason) : HostSubjectError :=
  Mismatch (es_original self) reason.

(** [for (i, (ava, (attr, want))) in ..] *)
Fixpoint match_attributes (self : ExpectedSubject) (i : Z) (avas : list (Oid * option (list Z)))
    (entries : list (SubjectAttr * list Z)) : result HostSubjectError unit :=
  match avas, entries with
  | (oid, value) :: avas, (attr, want) :: entries =>
      if negb (bool_decide (oid = SubjectAttr_oid attr)) then Err (mismatch self (WrongType i))
      else
        match value with
        | None => Err (mismatch self (UnsupportedEncoding i))
        | Some got =>
            if negb (bool_decide (normalise got = want)) then Err (mismatch self (WrongValue i got))
            else match_attributes self (i + 1) avas entries
        end
  | _, _ => Ok tt
  end.

Definition matches_cert_der (self : ExpectedSubject) (der : list Z) : result HostSubjectError unit :=
  match x509_from_der der with
  | None => Err CertificateParse
  | Some (rem, avas) =>
      if negb (bool_decide (rem = [])) then Err CertificateParse
      else if negb (zlen avas =? zlen (es_entries self)) then
        Err (mismatch self (WrongCount (zlen avas) (zlen (es_entries self))))
      else match_attributes self 0 avas (es_entries self)
  end.
End Matching.

(** * Writing a pin *)

(** How an administrator writes a value: the separator and the escape are escaped. *)
Definition escape (value : list Z) : list Z :=
  concat (map (fun c => if (c =? 92) || (c =? 44) then [92; c] else [c]) value).

Fixpoint write_pin (attrs : list (SubjectAttr * list Z)) : list Z :=
  match attrs with
  | [] => []
  | [(a, v)] => SubjectAttr_short_name a ++ lit "=" ++ escape v
  | (a, v) :: attrs => SubjectAttr_short_name a ++ lit "=" ++ escape v ++ lit "," ++ write_pin attrs
  end.

(** * Lemmas *)

Lemma from_key_short_name a : SubjectAttr_from_key (SubjectAttr_short_name a) = Some a.
Proof. by destruct a. Qed.

(** A key is read as it is written. *)
Lemma parse_key key rest acc entries :
  Forall (fun c => is_ascii_alphabetic c = true) key ->
  parse_entries (key ++ 61 :: rest) acc [] false entries = parse_entries rest (acc ++ key) [] true entries.
Proof.
  revert acc. induction key as [|c key IH]; intros acc Hk; cbn [app parse_entries].
  - cbn. rewrite app_nil_r. by destruct acc.
  - apply Forall_cons_iff in Hk as [Hc Hk].
    assert (65 <= c <= 90 \/ 97 <= c <= 122) as Hr.
    { unfold is_ascii_alphabetic, between in Hc. rewrite orb_true_iff, !andb_true_iff, !Z.leb_le in Hc. lia. }
    destruct (Z.eqb_spec c 92), (Z.eqb_spec c 32), (Z.eqb_spec c 44), (Z.eqb_spec c 61); try lia.
    cbn [andb]. rewrite IH by done. unfold push. by rewrite <- app_assoc.
Qed.

(** So is an escaped value. *)
Lemma parse_value value rest key acc entries :
  parse_entries (escape value ++ rest) key acc true entries =
  parse_entries rest key (acc ++ value) true entries.
Proof.
  revert acc. induction value as [|c value IH]; intros acc; cbn [escape map concat app].
  - by rewrite app_nil_r.
  - fold (escape value). destruct ((c =? 92) || (c =? 44)) eqn:E; cbn [app parse_entries].
    + rewrite E. cbn [Z.eqb Pos.eqb]. rewrite IH. unfold push. by rewrite <- app_assoc.
    + apply orb_false_iff in E as [-> ->]. rewrite IH. unfold push. by rewrite <- app_assoc.
Qed.

Lemma short_name_alphabetic a : Forall (fun c => is_ascii_alphabetic c = true) (SubjectAttr_short_name a).
Proof. destruct a; by apply (bool_decide_unpack _). Qed.

Lemma parse_pin attrs entries : attrs <> [] -> Forall (fun av => snd av <> []) attrs ->
  parse_entries (write_pin attrs) [] [] false entries =
  Ok (entries ++ map (fun av => (fst av, normalise (snd av))) attrs).
Proof.
  revert entries. induction attrs as [|[a v] attrs IH]; intros entries Hne Hv; [done|].
  apply Forall_cons_iff in Hv as [Hav Hv]. cbn [snd fst] in *.
  assert (forall rest, parse_entries (SubjectAttr_short_name a ++ lit "=" ++ escape v ++ rest) [] [] false entries =
    parse_entries rest (SubjectAttr_short_name a) v true entries) as Hone.
  { intros rest. change (lit "=" ++ escape v ++ rest) with (61 :: (escape v ++ rest)).
    rewrite parse_key by apply short_name_alphabetic. by rewrite parse_value. }
  assert (finish_entry (SubjectAttr_short_name a) v entries = Ok (push entries (a, normalise v))) as Hfin.
  { unfold finish_entry. rewrite from_key_short_name. by destruct v. }
  destruct attrs as [|av attrs].
  - cbn [write_pin]. specialize (Hone []). rewrite app_nil_r in Hone. rewrite Hone. exact Hfin.
  - change (write_pin ((a, v) :: av :: attrs)) with
      (SubjectAttr_short_name a ++ lit "=" ++ escape v ++ lit "," ++ write_pin (av :: attrs)).
    rewrite Hone. change (lit "," ++ write_pin (av :: attrs)) with (44 :: write_pin (av :: attrs)).
    cbn [parse_entries Z.eqb Pos.eqb]. rewrite Hfin. cbn [rbind]. rewrite IH by done.
    unfold push. by rewrite <- app_assoc.
Qed.

(** ** Comparing values *)

Definition word (w : list Z) : Prop := w <> [] /\ Forall (fun c => is_ascii_whitespace c = false) w.

Lemma split_whitespace_words s : Forall (Forall (fun c => is_ascii_whitespace c = false)) (split_whitespace s).
Proof.
  induction s as [|c s IH]; cbn; [by repeat constructor|].
  destruct (is_ascii_whitespace c) eqn:E; [by constructor|].
  destruct (split_whitespace s) as [|w ws]; [by repeat constructor|].
  apply Forall_cons_iff in IH as [Hw Hws]. by repeat constructor.
Qed.

Lemma words_words s : Forall word (words s).
Proof.
  unfold words. apply list.Forall_forall. intros w Hw. apply list_elem_of_In, filter_In in Hw as [Hin Hw].
  split; [intros ->; done|].
  pose proof (split_whitespace_words s) as H. rewrite list.Forall_forall in H. apply H. by apply list_elem_of_In.
Qed.

Lemma split_word w s : Forall (fun c => is_ascii_whitespace c = false) w ->
  split_whitespace (w ++ 32 :: s) = w :: split_whitespace s.
Proof. induction 1 as [|c w Hc _ IH]; cbn; [done|]. by rewrite Hc, IH. Qed.

Lemma split_word_end w : Forall (fun c => is_ascii_whitespace c = false) w ->
  split_whitespace w = [w].
Proof. induction 1 as [|c w Hc _ IH]; cbn; [done|]. by rewrite Hc, IH. Qed.

(** Joining and splitting again gives the same words. *)
Lemma words_join ws : Forall word ws -> words (join ws) = ws.
Proof.
  induction 1 as [|w ws [Hne Hw] Hws IH]; [done|]. unfold words in *.
  destruct ws as [|w' ws].
  - cbn [join]. rewrite split_word_end by done. cbn. by rewrite bool_decide_false.
  - change (join (w :: w' :: ws)) with (w ++ 32 :: join (w' :: ws)). rewrite split_word by done.
    cbn [List.filter]. rewrite bool_decide_false by done. cbn [negb]. by rewrite IH.
Qed.

Lemma lowercase_whitespace c : is_ascii_whitespace (to_ascii_lowercase c) = is_ascii_whitespace c.
Proof.
  unfold to_ascii_lowercase, between. destruct ((65 <=? c) && (c <=? 90)) eqn:E; [|done].
  rewrite andb_true_iff, !Z.leb_le in E. unfold is_ascii_whitespace.
  destruct (Z.eqb_spec (c + 32) 32), (Z.eqb_spec (c + 32) 9), (Z.eqb_spec (c + 32) 10),
    (Z.eqb_spec (c + 32) 12), (Z.eqb_spec (c + 32) 13), (Z.eqb_spec c 32), (Z.eqb_spec c 9),
    (Z.eqb_spec c 10), (Z.eqb_spec c 12), (Z.eqb_spec c 13); try lia; done.
Qed.

Lemma map_join ws : map to_ascii_lowercase (join ws) = join (map (map to_ascii_lowercase) ws).
Proof.
  induction ws as [|w ws IH]; [done|]. destruct ws as [|w' ws]; [done|].
  change (join (w :: w' :: ws)) with (w ++ [32] ++ join (w' :: ws)).
  rewrite !map_app, IH. done.
Qed.

Definition same_words (s t : list Z) : Prop :=
  map (map to_ascii_lowercase) (words s) = map (map to_ascii_lowercase) (words t).

(** Two values compare equal when they have the same words, letter case aside. *)
Lemma normalise_same s t : normalise s = normalise t <-> same_words s t.
Proof.
  unfold normalise, same_words. rewrite !map_join. split; [|by intros ->].
  assert (forall u, Forall word (map (map to_ascii_lowercase) (words u))) as Hw.
  { intros u. apply list.Forall_forall. intros w Hw. apply list_elem_of_fmap in Hw as (v & -> & Hv).
    pose proof (words_words u) as H. rewrite list.Forall_forall in H. destruct (H v Hv) as [Hne Hf].
    split; [by destruct v|]. apply Forall_map. eapply Forall_impl; [|exact Hf].
    intros c Hc. by rewrite lowercase_whitespace. }
  intros H. rewrite <- (words_join _ (Hw s)), <- (words_join _ (Hw t)). by rewrite H.
Qed.

(** ** Parsing any text *)

Lemma finish_entry_ok key value entries :
  match finish_entry key value entries with
  | Ok es => length es = S (length entries) | Err _ => True | Panic => False
  end.
Proof.
  unfold finish_entry. destruct value; [done|]. destruct (SubjectAttr_from_key key); [|done].
  unfold push. rewrite length_app. cbn. lia.
Qed.

Lemma parse_entries_ok n chars key value in_value entries : (length chars <= n)%nat ->
  parse_entries chars key value in_value entries <> Panic.
Proof.
  revert chars key value in_value entries.
  induction n as [|n IH]; intros [|c chars] key value in_value entries Hn; cbn in Hn; try lia; cbn [parse_entries].
  1, 2: destruct in_value; [pose proof (finish_entry_ok key value entries); by destruct (finish_entry _ _ _)|by destruct key].
  destruct (c =? 92).
  { destruct chars as [|next chars]; [done|]. cbn in Hn.
    destruct (_ || _); [|done]. destruct in_value; apply IH; lia. }
  destruct in_value.
  - destruct (c =? 44); [|apply IH; lia]. pose proof (finish_entry_ok key value entries) as H.
    destruct (finish_entry _ _ _); cbn [rbind]; [apply IH; lia|done|done].
  - destruct (_ && _); [apply IH; lia|]. destruct (c =? 44); [done|].
    destruct (c =? 61); apply IH; lia.
Qed.

Section Pins.
Context {X : X509Lib}.

Lemma match_attributes_ok self i avas entries :
  length avas = length entries ->
  match_attributes self i avas entries = Ok tt <->
  Forall2 (fun ava e => fst ava = SubjectAttr_oid (fst e) /\
    exists got, snd ava = Some got /\ normalise got = snd e) avas entries.
Proof.
  revert i entries. induction avas as [|[oid value] avas IH]; intros i [|[attr want] entries] Hl; try done; cbn.
  destruct (bool_decide_reflect (oid = SubjectAttr_oid attr)) as [->|Ho]; cbn [negb].
  2: { split; [done|]. intros H. apply Forall2_cons_1 in H as [[? _] _]. done. }
  destruct value as [got|].
  2: { split; [done|]. intros H. by apply Forall2_cons_1 in H as [(_ & got & ? & _) _]. }
  destruct (bool_decide_reflect (normalise got = want)) as [Hw|Hw]; cbn [negb].
  - rewrite IH by (cbn in Hl; lia). split.
    + intros H. constructor; [|done]. split; [done|]. by exists got.
    + intros H. by apply Forall2_cons_1 in H as [_ ?].
  - split; [done|]. intros H. apply Forall2_cons_1 in H as [(_ & g & [= <-] & ?) _]. done.
Qed.

(** C25: A pin: any text is parsed or refused; a subject written as attributes and values,
    with separators escaped, is read back in order; and a certificate satisfies it
    exactly when it is well formed and its subject has these attributes, of these
    types, in this order, each with a readable value of the same words up to letter
    case. *)
Theorem host_subject_pins :
  (forall text, parse_host_subject text <> Panic) /\
  (forall attrs, attrs <> [] -> Forall (fun av => snd av <> []) attrs ->
    exists pin, parse_host_subject (write_pin attrs) = Ok pin /\
    forall der, matches_cert_der pin der = Ok tt <->
      exists avas, x509_from_der der = Some ([], avas) /\
        Forall2 (fun ava av => fst ava = SubjectAttr_oid (fst av) /\
          exists got, snd ava = Some got /\ same_words got (snd av)) avas attrs).
Proof.
  split.
  - intros text. unfold parse_host_subject.
    pose proof (parse_entries_ok _ text [] [] false [] (Nat.le_refl _)) as H.
    by destruct (parse_entries text [] [] false []).
  - intros attrs Hne Hv. unfold parse_host_subject. rewrite parse_pin by done. cbn [rbind app].
    eexists. split; [reflexivity|]. intros der. unfold matches_cert_der. cbn [es_entries].
    set (entries := map (fun av => (fst av, normalise (snd av))) attrs).
    assert (forall avas, length avas = length attrs ->
      match_attributes (mkExpectedSubject (write_pin attrs) entries) 0 avas entries = Ok tt <->
      Forall2 (fun ava av => fst ava = SubjectAttr_oid (fst av) /\
        exists got, snd ava = Some got /\ same_words got (snd av)) avas attrs) as Hm.
    { intros avas Hl. rewrite match_attributes_ok by (unfold entries; by rewrite length_map).
      unfold entries. rewrite Forall2_fmap_r. split; apply Forall2_impl; cbn;
        intros ava av (? & got & ? & Hg); (split; [done|]); exists got; (split; [done|]);
        by apply normalise_same. }
    destruct (x509_from_der der) as [[rem avas]|]; [|split; [done|intros (? & ? & _); done]].
    destruct (bool_decide_reflect (rem = [])) as [->|Hr]; cbn [negb];
      [|split; [done|intros (? & [= ? _] & _); done]].
    destruct (Z.eqb_spec (zlen avas) (zlen entries)) as [Hl|Hl]; cbn [negb];
      unfold zlen, entries in Hl; rewrite length_map in Hl.
    + rewrite Hm by lia. split; [intros H; by exists avas|by intros (? & [= <-] & H)].
    + split; [done|]. intros (? & [= <-] & H). apply Forall2_length in H. lia.
Qed.
End Pins.

(** Certificates that are their own subject: attribute numbers as types. *)
Module ToyX509.
Definition attr_number (a : SubjectAttr) : Z :=
  match a with CountryName => 6 | StateOrProvinceName => 8 | LocalityName => 7 | OrganizationName => 10
  | OrganizationalUnitName => 11 | CommonName => 3 | DomainComponent => 25 | EmailAddress => 1 end.
Definition toy_x509 : X509Lib := {|
  Oid := Z;
  SubjectAttr_oid := attr_number;
  x509_from_der der := match der with t :: value => Some ([], [(t, Some value)]) | [] => None end
|}.
End ToyX509.

(** [CN=A\,b] takes a certificate for ["a,B "]. *)
Lemma host_subject_pins_witness :
  write_pin [(CommonName, lit "A,b")] = lit "CN=A\,b" /\
  exists pin, parse_host_subject (lit "CN=A\,b") = Ok pin /\
    matches_cert_der (X := ToyX509.toy_x509) pin (3 :: lit "a,B ") = Ok tt.
Proof.
  split; [vm_compute; reflexivity|].
  destruct (proj2 (host_subject_pins (X := ToyX509.toy_x509)) [(CommonName, lit "A,b")]) as (pin & Hp & Hm).
  - done.
  - by repeat constructor.
  - exists pin. split; [exact Hp|]. apply Hm. exists [(3, Some (lit "a,B "))]. split; [done|].
    constructor; [|constructor]. split; [done|]. exists (lit "a,B "). split; [done|]. vm_compute. reflexivity.
Defined.

(** The doc comment of [ExpectedSubject::is_empty] says the parser never gives a subject
    without entries; it does for a text of spaces. *)
Lemma empty_pin_parses : parse_host_subject (lit "  ") = Ok (mkExpectedSubject (lit "  ") []).
Proof. reflexivity. Qed.
