(* ===== verification/Client.v ===== *)
(** Which server a client talks to: [SpiceClient] of
    [shakenfist-spice-protocol/src/client.rs] and [ConnectionConfig] of [lib.rs].

    A client is made from a configuration once; every channel then opens a transport
    and, over TLS, judges the certificate it is shown.  Chain validation is the
    webpki verifier's, so it is the class [TlsLib] with what this code needs to know
    of its verdict.  What is modelled is everything this code decides itself: which
    configurations are refused, which trust anchors and which verifier a connection
    gets, when a wrong name is forgiven, where a channel dials, and the flag that says
    a certificate was trusted on its CA alone. *)
From Stdlib Require Import ZArith Lia String.
From stdpp Require Import base numbers list tactics.
From S2P Require Import Prelude Text LinkMess HostSubject Proxy.

Open Scope Z_scope.
Open Scope rust_scope.

(** * Configuration *)

Record ConnectionConfig : Type := mkConnectionConfig {
  cc_host : list Z;
  cc_port : Z;
  cc_tls_port : option Z;
  cc_password : option (list Z);
  cc_ca_cert : option (list Z);
  cc_host_subject : option (list Z);
  cc_proxy : option HttpProxy
}.

Definition display_target (self : ConnectionConfig) : list Z :=
  match cc_proxy self with
  | Some proxy =>
      hp_host proxy ++ lit ":" ++ print_u64 (hp_port proxy) ++ lit " (tunnelled, target redacted)"
  | None => cc_host self ++ lit ":" ++ print_u64 (default (cc_port self) (cc_tls_port self))
  end.

(** * The TLS library *)

(** webpki looks at the name only after the chain has validated. *)
Inductive WebPkiVerdict : Type :=
| WebPki_Ok
| WebPki_NameMismatch
| WebPki_Rejected.

(** The certificates that anchor trust: the public roots, or those of a [ca=] field. *)
Inductive RootCertStore : Type :=
| PublicRoots
| PrivateRoots (certs : list (list Z)).

Class TlsLib : Type := {
  (** [rustls_pemfile::certs], [RootCertStore::add], the verifier's builder *)
  pem_certs : list Z -> option (list (list Z));
  anchor_ok : list Z -> bool;
  verifier_builds : RootCertStore -> bool;
  (** is a process-wide [CryptoProvider] installed? *)
  provider_installed : bool;
  (** [ServerName::try_from] accepts the text *)
  server_name_ok : list Z -> bool;
  webpki_verify : RootCertStore -> list Z -> list (list Z) -> list Z -> Z -> WebPkiVerdict
}.

Inductive NewError : Type :=
| MalformedHostSubject (e : HostSubjectError)
| ProxyWithoutSubject
| ProxyWithoutTlsPort
| BadPem
| NoCertificates
| BadAnchor
| NoProvider
| VerifierBuild.

Section Client.
Context {X : X509Lib} {T : TlsLib}.

(** * Trust anchors *)

Record TrustAnchors : Type := mkTrustAnchors { ta_store : RootCertStore; ta_private_pki : bool }.

(** [ca_cert.replace("\\n", "\n")]: a backslash and an [n] become a line break. *)
Fixpoint replace_newlines (s : list Z) : list Z :=
  match s with
  | [] => []
  | c :: s' =>
      match s' with
      | d :: s'' => if (c =? 92) && (d =? 110) then 10 :: replace_newlines s'' else c :: replace_newlines s'
      | [] => [c]
      end
  end.

Definition build_root_store (ca_cert : option (list Z)) : result NewError TrustAnchors :=
  match ca_cert with
  | None => Ok (mkTrustAnchors PublicRoots false)
  | Some ca_cert =>
      match pem_certs (replace_newlines ca_cert) with
      | None => Err BadPem
      | Some [] => Err NoCertificates
      | Some certs =>
          if negb (forallb anchor_ok certs) then Err BadAnchor
          else Ok (mkTrustAnchors (PrivateRoots certs) true)
      end
  end.

Definition needs_spice_verifier (anchors : TrustAnchors) (expected_subject : option ExpectedSubject) : bool :=
  ta_private_pki anchors || match expected_subject with Some _ => true | None => false end.

(** The verifier a connection gets. *)
Inductive TlsConnector : Type :=
| StockVerifier (store : RootCertStore)
| SpiceCaVerifier (store : RootCertStore) (expected_subject : option ExpectedSubject).

Definition create_tls_connector (config : ConnectionConfig) (expected_subject : option ExpectedSubject) :
    result NewError TlsConnector :=
  let! anchors := build_root_store (cc_ca_cert config) in
  if needs_spice_verifier anchors expected_subject then
    if negb provider_installed then Err NoProvider
    else if negb (verifier_builds (ta_store anchors)) then Err VerifierBuild
    else Ok (SpiceCaVerifier (ta_store anchors) expected_subject)
  else Ok (StockVerifier (ta_store anchors)).

(** * The client *)

Record SpiceClient : Type := mkSpiceClient {
  sc_config : ConnectionConfig;
  sc_tls_connector : option TlsConnector;
  sc_ca_alone : bool
}.

Definition SpiceClient_new (config : ConnectionConfig) : result NewError SpiceClient :=
  let! expected_subject :=
    match cc_host_subject config with
    | None => Ok None
    | Some text =>
        match parse_host_subject text with
        | Ok pin => Ok (Some pin)
        | Err e => Err (MalformedHostSubject e)
        | Panic => Panic
        end
    end in
  let! _ok :=
    match cc_proxy config with
    | None => Ok tt
    | Some _ =>
        match expected_subject, cc_tls_port config with
        | None, _ => Err ProxyWithoutSubject
        | _, None => Err ProxyWithoutTlsPort
        | Some _, Some _ => Ok tt
        end
    end in
  let! tls_connector :=
    match cc_tls_port config with
    | Some _ => rmap Some (create_tls_connector config expected_subject)
    | None => Ok None
    end in
  Ok (mkSpiceClient config tls_connector false).

(** * Judging a certificate *)

Definition check_subject (expected_subject : option ExpectedSubject) (end_entity : list Z) : bool :=
  match expected_subject with
  | None => true
  | Some expected => match matches_cert_der expected end_entity with Ok _ => true | _ => false end
  end.

(** A handshake's certificate: what the server shows, for which name, when. *)
Record Shown : Type := mkShown {
  sh_end_entity : list Z;
  sh_intermediates : list (list Z);
  sh_server_name : list Z;
  sh_now : Z
}.

(** [verify_server_cert], and what [note_name_mismatch_accepted] does to the flag. *)
Definition verify_server_cert (connector : TlsConnector) (ca_alone : bool) (s : Shown) : bool * bool :=
  match connector with
  | StockVerifier store =>
      (match webpki_verify store (sh_end_entity s) (sh_intermediates s) (sh_server_name s) (sh_now s) with
       | WebPki_Ok => true | _ => false end, ca_alone)
  | SpiceCaVerifier store expected_subject =>
      match webpki_verify store (sh_end_entity s) (sh_intermediates s) (sh_server_name s) (sh_now s) with
      | WebPki_Ok => (check_subject expected_subject (sh_end_entity s), ca_alone)
      | WebPki_NameMismatch =>
          if check_subject expected_subject (sh_end_entity s)
          then (true, match expected_subject with Some _ => ca_alone | None => true end)
          else (false, ca_alone)
      | WebPki_Rejected => (false, ca_alone)
      end
  end.

(** A client's handshakes, one after another: the flag they leave, and which were
    accepted. *)
Fixpoint run_handshakes (connector : TlsConnector) (ca_alone : bool) (shown : list Shown) :
    bool * list bool :=
  match shown with
  | [] => (ca_alone, [])
  | s :: shown =>
      let '(ok, ca_alone) := verify_server_cert connector ca_alone s in
      let '(ca_alone, oks) := run_handshakes connector ca_alone shown in
      (ca_alone, ok :: oks)
  end.

(** * Opening a transport *)

(** What [open_transport] does: dial a host and port, ask for a tunnel to a target if
    there is a proxy, and wrap the stream in TLS for a server name. *)
Record Transport : Type := mkTransport {
  tr_dial_host : list Z;
  tr_dial_port : Z;
  tr_tunnel : option (list Z * Z);
  tr_tls : option (TlsConnector * list Z)
}.

Inductive TransportError : Type :=
| CapsRefused (e : Reader.LinkError)
| PlaintextThroughProxy
| TlsNotConfigured
| BadServerName.

Definition open_transport (self : SpiceClient) (use_tls : bool) (port : Z) : result TransportError Transport :=
  let config := sc_config self in
  match cc_proxy config, use_tls with
  | Some _, false => Err PlaintextThroughProxy
  | proxy, _ =>
      let '(dial_host, dial_port) :=
        match proxy with
        | Some proxy => (hp_host proxy, hp_port proxy)
        | None => (cc_host config, port)
        end in
      let tunnel := match proxy with Some _ => Some (cc_host config, port) | None => None end in
      if use_tls then
        match sc_tls_connector self with
        | None => Err TlsNotConfigured
        | Some connector =>
            let server_name := match proxy with Some proxy => hp_host proxy | None => cc_host config end in
            if negb (server_name_ok server_name) then Err BadServerName
            else Ok (mkTransport dial_host dial_port tunnel (Some (connector, server_name)))
        end
      else Ok (mkTransport dial_host dial_port tunnel None)
  end.

(** The transport of [connect_channel_with_caps], which refuses unsendable capabilities
    before it dials. *)
Definition channel_transport (self : SpiceClient) (common_caps channel_caps : list Z) :
    result TransportError Transport :=
  match check_advertised_caps common_caps channel_caps with
  | Err e => Err (CapsRefused e)
  | Panic => Panic
  | Ok _ =>
      let '(use_tls, port) :=
        match cc_tls_port (sc_config self) with
        | Some tls_port => (true, tls_port)
        | None => (false, cc_port (sc_config self))
        end in
      open_transport self use_tls port
  end.

(** * Properties *)

(** The pin of a configuration. *)
Definition pin_of (config : ConnectionConfig) (pin : ExpectedSubject) : Prop :=
  exists text, cc_host_subject config = Some text /\ parse_host_subject text = Ok pin.

(** What a connector holds after [SpiceClient_new]. *)
Record connector_for (config : ConnectionConfig) (store : RootCertStore)
    (expected : option ExpectedSubject) : Prop := {
  cf_store : match cc_ca_cert config with
             | None => store = PublicRoots
             | Some ca => exists certs, certs <> [] /\ pem_certs (replace_newlines ca) = Some certs /\
                 store = PrivateRoots certs
             end;
  cf_pin : match cc_host_subject config with
           | None => expected = None
           | Some text => exists pin, expected = Some pin /\ parse_host_subject text = Ok pin
           end
}.

Lemma build_root_store_ok ca anchors : build_root_store ca = Ok anchors ->
  match ca with
  | None => anchors = mkTrustAnchors PublicRoots false
  | Some ca => exists certs, certs <> [] /\ pem_certs (replace_newlines ca) = Some certs /\
      anchors = mkTrustAnchors (PrivateRoots certs) true
  end.
Proof.
  unfold build_root_store. destruct ca as [ca|]; [|congruence].
  destruct (pem_certs _) as [[|c certs]|] eqn:E; [done| |done].
  destruct (negb _); [done|]. intros [= <-]. by exists (c :: certs).
Qed.

Lemma client_new_ok config client : SpiceClient_new config = Ok client ->
  sc_config client = config /\ sc_ca_alone client = false /\
  exists expected,
    match cc_host_subject config with
    | None => expected = None
    | Some text => exists pin, expected = Some pin /\ parse_host_subject text = Ok pin
    end /\
    (forall proxy, cc_proxy config = Some proxy -> is_Some expected /\ is_Some (cc_tls_port config)) /\
    match cc_tls_port config with
    | None => sc_tls_connector client = None
    | Some _ => exists connector, sc_tls_connector client = Some connector /\
        create_tls_connector config expected = Ok connector
    end.
Proof.
  unfold SpiceClient_new. intros H.
  destruct (match cc_host_subject config with None => _ | Some _ => _ end) as [expected|e|] eqn:Hpin; [|done..].
  cbn [rbind] in H.
  destruct (match cc_proxy config with None => _ | Some _ => _ end) as [[]|e|] eqn:Hproxy; [|done..].
  cbn [rbind] in H.
  assert (exists connector, (match cc_tls_port config with
    | Some _ => rmap Some (create_tls_connector config expected) | None => Ok None end) = Ok connector /\
    client = mkSpiceClient config connector false) as (connector & Hc & ->).
  { destruct (cc_tls_port config); [|injection H as <-; by eexists].
    destruct (create_tls_connector config expected) as [c|e|]; [|done..].
    injection H as <-. by eexists. }
  split; [done|]. split; [done|]. exists expected. split_and!.
  - destruct (cc_host_subject config) as [text|]; [|congruence].
    destruct (parse_host_subject text) as [pin|e|]; [|done..]. injection Hpin as <-. by exists pin.
  - intros proxy Hp. rewrite Hp in Hproxy. destruct expected, (cc_tls_port config); done.
  - cbn [sc_tls_connector]. destruct (cc_tls_port config); [|congruence].
    destruct (create_tls_connector config expected) as [c|e|]; [|done..]. injection Hc as <-. by exists c.
Qed.

(** Which verifier a client has, and why. *)
Lemma client_connector config client connector :
  SpiceClient_new config = Ok client -> sc_tls_connector client = Some connector ->
  match connector with
  | StockVerifier store => store = PublicRoots /\ cc_ca_cert config = None /\ cc_host_subject config = None
  | SpiceCaVerifier store expected => connector_for config store expected /\
      (is_Some (cc_ca_cert config) \/ is_Some (cc_host_subject config))
  end.
Proof.
  intros Hn Hc. destruct (client_new_ok config client Hn) as (_ & _ & expected & Hpin & _ & Htls).
  destruct (cc_tls_port config); [|congruence].
  destruct Htls as (c & Hc' & Hcreate). rewrite Hc' in Hc. injection Hc as ->.
  unfold create_tls_connector in Hcreate.
  destruct (build_root_store _) as [anchors|e|] eqn:Hb; [|done..]. cbn [rbind] in Hcreate.
  apply build_root_store_ok in Hb. unfold needs_spice_verifier in Hcreate.
  destruct (cc_ca_cert config) as [ca|] eqn:Hca.
  - destruct Hb as (certs & Hne & Hp & ->). cbn [ta_private_pki orb ta_store] in Hcreate.
    destruct (negb _); [done|]. destruct (negb _); [done|]. injection Hcreate as <-.
    split; [|left; done]. split; [rewrite Hca; by exists certs|done].
  - subst anchors. cbn [ta_private_pki orb ta_store] in Hcreate. destruct expected as [pin|].
    + destruct (negb _); [done|]. destruct (negb _); [done|]. injection Hcreate as <-.
      destruct (cc_host_subject config) eqn:Hh; [|done].
      split; [|right; done]. split; [by rewrite Hca|by rewrite Hh].
    + injection Hcreate as <-. destruct (cc_host_subject config); [|done].
      destruct Hpin as (? & ? & _). done.
Qed.

(** How a handshake's certificate fares against the anchors a configuration names. *)
Definition chain_verdict (config : ConnectionConfig) (s : Shown) (v : WebPkiVerdict) : Prop :=
  exists store, match cc_ca_cert config with
    | None => store = PublicRoots
    | Some ca => exists certs, certs <> [] /\ pem_certs (replace_newlines ca) = Some certs /\ store = PrivateRoots certs
    end /\
  webpki_verify store (sh_end_entity s) (sh_intermediates s) (sh_server_name s) (sh_now s) = v.

(** A certificate whose name is wrong and that no pin identifies. *)
Definition on_ca_alone (config : ConnectionConfig) (s : Shown) : Prop :=
  chain_verdict config s WebPki_NameMismatch /\ is_Some (cc_ca_cert config) /\ cc_host_subject config = None.

(** What an accepted certificate has shown. *)
Definition identified (config : ConnectionConfig) (s : Shown) : Prop :=
  (chain_verdict config s WebPki_Ok \/ chain_verdict config s WebPki_NameMismatch) /\
  (forall pin, pin_of config pin -> matches_cert_der pin (sh_end_entity s) = Ok tt) /\
  (cc_host_subject config = None -> chain_verdict config s WebPki_Ok \/ on_ca_alone config s).

Lemma verify_step config client connector flag s :
  SpiceClient_new config = Ok client -> sc_tls_connector client = Some connector ->
  ((verify_server_cert connector flag s).1 = true -> identified config s) /\
  ((verify_server_cert connector flag s).2 = true <-> flag = true \/ on_ca_alone config s).
Proof.
  intros Hn Hc. pose proof (client_connector config client connector Hn Hc) as H.
  assert (forall store v v', match cc_ca_cert config with None => store = PublicRoots
    | Some ca => exists certs, certs <> [] /\ pem_certs (replace_newlines ca) = Some certs /\ store = PrivateRoots certs end ->
    webpki_verify store (sh_end_entity s) (sh_intermediates s) (sh_server_name s) (sh_now s) = v ->
    chain_verdict config s v' -> v = v') as Huniq.
  { intros store v v' Hs Hv (store' & Hs' & Hv'). destruct (cc_ca_cert config); [|congruence].
    destruct Hs as (c & _ & Hp & ->), Hs' as (c' & _ & Hp' & ->). congruence. }
  destruct connector as [store|store expected]; cbn [verify_server_cert].
  - destruct H as (-> & Hca & Hh).
    assert (chain_verdict config s (webpki_verify PublicRoots (sh_end_entity s) (sh_intermediates s)
      (sh_server_name s) (sh_now s))) as Hv by (exists PublicRoots; by rewrite Hca).
    cbn [fst snd]. split.
    + destruct (webpki_verify _ _ _ _ _); try done. intros _. split_and!; [by left| |by left].
      intros pin (text & Ht & _). congruence.
    + split; [by left|]. intros [?|(_ & Hca' & _)]; [done|]. rewrite Hca in Hca'. by destruct Hca'.
  - destruct H as [[Hstore Hpin] Hwhy].
    assert (chain_verdict config s (webpki_verify store (sh_end_entity s) (sh_intermediates s)
      (sh_server_name s) (sh_now s))) as Hv by (by exists store).
    assert (check_subject expected (sh_end_entity s) = true ->
      forall pin, pin_of config pin -> matches_cert_der pin (sh_end_entity s) = Ok tt) as Hsub.
    { intros Hck pin (text & Ht & Hp). rewrite Ht in Hpin. destruct Hpin as (pin' & -> & Hp').
      assert (pin' = pin) as -> by congruence. unfold check_subject in Hck.
      by destruct (matches_cert_der pin (sh_end_entity s)) as [[]|e|]. }
    specialize (Huniq store _ WebPki_NameMismatch Hstore eq_refl).
    destruct (webpki_verify _ _ _ _ _) eqn:Hw; cbn [fst snd].
    + split; [intros Hck; split_and!; [by left|by apply Hsub|by left]|].
      split; [by left|]. intros [?|(Hn' & _)]; [done|]. by apply Huniq in Hn'.
    + destruct (check_subject expected (sh_end_entity s)) eqn:Hck; cbn [fst snd].
      * assert (cc_host_subject config = None -> on_ca_alone config s) as Hal.
        { intros Hh. split_and!; [done| |done]. destruct Hwhy as [?|Hs]; [done|]. rewrite Hh in Hs. by destruct Hs. }
        split; [intros _; split_and!; [by right|by apply Hsub|intros Hh; right; by apply Hal]|].
        destruct (cc_host_subject config) as [text|] eqn:Hh.
        { destruct Hpin as (pin & -> & _). split; [by left|]. intros [?|(_ & _ & ?)]; [done|congruence]. }
        subst expected. split; [intros _; right; by apply Hal|done].
      * split; [done|]. split; [by left|]. intros [?|(_ & _ & Hh)]; [done|].
        rewrite Hh in Hpin. by subst expected.
    + split; [done|]. split; [by left|]. intros [?|(Hn' & _)]; [done|]. by apply Huniq in Hn'.
Qed.

(** C22: Every certificate a TLS client accepts has shown who the server is.  Its chain ends
    in the configured CA's certificates and nothing else, or in the public roots when
    none is configured; a pinned subject always matches; and a wrong name is forgiven
    only to a pinned certificate or to one of the configured CA.  The flag reports, over
    all handshakes so far, exactly whether a certificate was shown that only the CA
    vouches for. *)
Theorem client_identifies_server config client connector shown :
  SpiceClient_new config = Ok client -> sc_tls_connector client = Some connector ->
  Forall2 (fun s ok => ok = true -> identified config s) shown
    (run_handshakes connector (sc_ca_alone client) shown).2 /\
  ((run_handshakes connector (sc_ca_alone client) shown).1 = true <->
   Exists (on_ca_alone config) shown).
Proof.
  intros Hn Hc. destruct (client_new_ok config client Hn) as (_ & -> & _).
  assert (forall flag, Forall2 (fun s ok => ok = true -> identified config s) shown
    (run_handshakes connector flag shown).2 /\
    ((run_handshakes connector flag shown).1 = true <-> flag = true \/ Exists (on_ca_alone config) shown)) as H.
  { induction shown as [|s shown IH]; intros flag; cbn [run_handshakes].
    - split; [constructor|]. cbn. rewrite Exists_nil. tauto.
    - destruct (verify_step config client connector flag s Hn Hc) as [H1 H2].
      destruct (verify_server_cert connector flag s) as [ok flag']. cbn [fst snd] in *.
      destruct (IH flag') as [IH1 IH2].
      destruct (run_handshakes connector flag' shown) as [flag'' oks]. cbn [fst snd] in *.
      split; [by constructor|]. rewrite IH2, H2, Exists_cons. tauto. }
  destruct (H false) as [H1 H2]. split; [done|]. rewrite H2. split; [by intros [?|?]|by right].
Qed.

(** Where a channel of a client goes: to the proxy alone if there is one, with TLS and a
    pin inside the tunnel to the server's TLS port; otherwise to the host itself, over
    TLS exactly when a TLS port is configured. *)
Theorem channel_transport_correct config client common_caps channel_caps transport :
  SpiceClient_new config = Ok client ->
  channel_transport client common_caps channel_caps = Ok transport ->
  tr_tls transport =
    match cc_tls_port config, sc_tls_connector client with
    | Some _, Some connector =>
        Some (connector, match cc_proxy config with Some proxy => hp_host proxy | None => cc_host config end)
    | _, _ => None
    end /\
  (is_Some (cc_tls_port config) <-> is_Some (tr_tls transport)) /\
  match cc_proxy config with
  | Some proxy =>
      tr_dial_host transport = hp_host proxy /\ tr_dial_port transport = hp_port proxy /\
      (exists tls_port, cc_tls_port config = Some tls_port /\
        tr_tunnel transport = Some (cc_host config, tls_port)) /\
      (exists pin, pin_of config pin)
  | None =>
      tr_dial_host transport = cc_host config /\ tr_tunnel transport = None /\
      tr_dial_port transport = default (cc_port config) (cc_tls_port config)
  end.
Proof.
  intros Hn Ht. destruct (client_new_ok config client Hn) as (Hcfg & _ & expected & Hpin & Hproxy & Htls).
  unfold channel_transport in Ht. rewrite Hcfg in Ht.
  destruct (check_advertised_caps common_caps channel_caps); [|done..].
  unfold open_transport in Ht. rewrite Hcfg in Ht. destruct (cc_tls_port config) as [tls_port|].
  - destruct Htls as (connector & Hc & _). rewrite Hc in Ht |- *.
    destruct (cc_proxy config) as [proxy|].
    + destruct (negb _); [done|]. injection Ht as <-. cbn.
      destruct (Hproxy proxy eq_refl) as [[pin Hp] _]. split_and!; try done.
      * by exists tls_port.
      * destruct (cc_host_subject config) as [text|] eqn:Hh; [|by subst expected].
        destruct Hpin as (pin' & _ & Hpin'). exists pin', text. done.
    + destruct (negb _); [done|]. injection Ht as <-. done.
  - destruct (cc_proxy config) as [proxy|]; [done|]. injection Ht as <-. cbn. split_and!; try done.
Qed.
End Client.

(** A library that finds every chain of a private CA good and every name wrong. *)
Module ToyTls.
Definition toy_tls : TlsLib := {|
  pem_certs pem := Some [pem];
  anchor_ok _ := true;
  verifier_builds _ := true;
  provider_installed := true;
  server_name_ok _ := true;
  webpki_verify store _ _ _ _ :=
    match store with PublicRoots => WebPki_Rejected | PrivateRoots _ => WebPki_NameMismatch end
|}.
End ToyTls.

Definition example_config (host_subject : option (list Z)) (proxy : option HttpProxy) : ConnectionConfig :=
  mkConnectionConfig (lit "hv1") 5900 (Some 5901) None (Some (lit "pem")) host_subject proxy.

(** With a pin [CN=a], the certificate for [a] is accepted and the one for [b] is not;
    without one both are, and the flag says so. *)
Lemma client_identifies_server_witness :
  let X := ToyX509.toy_x509 in let T := ToyTls.toy_tls in
  let shown := [mkShown (3 :: lit "A") [] (lit "hv1") 0; mkShown (3 :: lit "b") [] (lit "hv1") 0] in
  (exists client connector, SpiceClient_new (example_config (Some (lit "CN=a")) None) = Ok client /\
    sc_tls_connector client = Some connector /\
    run_handshakes connector false shown = (false, [true; false]) /\
    Forall2 (fun s ok => ok = true -> identified (example_config (Some (lit "CN=a")) None) s) shown [true; false]) /\
  (exists client connector, SpiceClient_new (example_config None None) = Ok client /\
    sc_tls_connector client = Some connector /\
    run_handshakes connector false shown = (true, [true; true]) /\
    Exists (on_ca_alone (example_config None None)) shown).
Proof.
  intros X T shown. split.
  - set (config := example_config (Some (lit "CN=a")) None).
    set (connector := SpiceCaVerifier (PrivateRoots [lit "pem"])
      (Some (mkExpectedSubject (lit "CN=a") [(CommonName, lit "a")]))).
    exists (mkSpiceClient config (Some connector) false), connector.
    split; [reflexivity|]. split; [reflexivity|]. split; [vm_compute; reflexivity|].
    exact (proj1 (client_identifies_server (X := X) (T := T) config
      (mkSpiceClient config (Some connector) false) connector shown eq_refl eq_refl)).
  - set (config := example_config None None).
    set (connector := SpiceCaVerifier (PrivateRoots [lit "pem"]) None).
    exists (mkSpiceClient config (Some connector) false), connector.
    split; [reflexivity|]. split; [reflexivity|]. split; [vm_compute; reflexivity|].
    apply (proj2 (client_identifies_server (X := X) (T := T) config
      (mkSpiceClient config (Some connector) false) connector shown eq_refl eq_refl)). reflexivity.
Defined.

Lemma channel_transport_correct_witness :
  let X := ToyX509.toy_x509 in let T := ToyTls.toy_tls in
  let config := example_config (Some (lit "CN=a")) (Some (mkHttpProxy (lit "proxy") 3128)) in
  exists client transport, SpiceClient_new config = Ok client /\
    channel_transport client [11] [1] = Ok transport /\
    tr_dial_host transport = lit "proxy" /\ exists pin, pin_of config pin.
Proof.
  intros X T config.
  set (connector := SpiceCaVerifier (PrivateRoots [lit "pem"])
    (Some (mkExpectedSubject (lit "CN=a") [(CommonName, lit "a")]))).
  exists (mkSpiceClient config (Some connector) false),
    (mkTransport (lit "proxy") 3128 (Some (lit "hv1", 5901)) (Some (connector, lit "proxy"))).
  split; [reflexivity|]. split; [reflexivity|]. split; [reflexivity|].
  exact (proj2 (proj2 (proj2 (proj2 (proj2 (channel_transport_correct (T := T) config
    (mkSpiceClient config (Some connector) false) [11] [1]
    (mkTransport (lit "proxy") 3128 (Some (lit "hv1", 5901)) (Some (connector, lit "proxy")))
    eq_refl eq_refl)))))).
Defined.
