(* ===== verification/AgentQueue.v ===== *)
(** Outgoing guest-agent data, cut into AGENT_DATA bodies:
    [shakenfist-spice-renderer/src/channels/agent_queue.rs].

    [PendingMessage] and [AgentSendQueue] are the source's types, the queue a
    list with its front first, and [aq_push], [next_chunk] and
    [discard_unstarted] its operations.  [owed] is what the comments call the
    tail of a message that is partly on the wire.  [agent_queue_stream] is the
    contract the main channel builds on: whatever the sequence of operations,
    the bodies handed out are a run of complete messages, in the order they
    were pushed, followed by the start of the one whose tail is owed. *)
From Stdlib Require Import ZArith Lia List.
From stdpp Require Import base numbers list tactics.
From S2P Require Import Prelude.

Open Scope Z_scope.

(** * Data and operations *)

Definition MAX_AGENT_CHUNK : Z := 2048 - 6.
Definition MAX_QUEUED_AGENT_MESSAGES : Z := 32.

Record PendingMessage : Type := mkPendingMessage {
  pm_data : list Z;
  pm_sent : Z
}.

Record AgentSendQueue : Type := mkAgentSendQueue { aq_messages : list PendingMessage }.

Definition AgentSendQueue_default : AgentSendQueue := mkAgentSendQueue [].

Definition aq_is_empty (self : AgentSendQueue) : bool :=
  match aq_messages self with [] => true | _ :: _ => false end.

Definition aq_len (self : AgentSendQueue) : Z := zlen (aq_messages self).

(** [push]: refused, leaving the queue alone, when it is full. *)
Definition aq_push (self : AgentSendQueue) (message : list Z) : bool * AgentSendQueue :=
  if MAX_QUEUED_AGENT_MESSAGES <=? aq_len self then (false, self)
  else
    match message with
    | [] => (true, self)
    | _ :: _ => (true, mkAgentSendQueue (push (aq_messages self) (mkPendingMessage message 0)))
    end.

(** [next_chunk]: [None] is the panic of the slice. *)
Definition next_chunk (self : AgentSendQueue) : option (option (list Z) * AgentSendQueue) :=
  match aq_messages self with
  | [] => Some (None, self)
  | front :: rest =>
      let end' := Z.min (pm_sent front + MAX_AGENT_CHUNK) (zlen (pm_data front)) in
      chunk ← slice (pm_data front) (pm_sent front) end';
      Some (Some chunk,
            mkAgentSendQueue
              (if end' =? zlen (pm_data front) then rest
               else mkPendingMessage (pm_data front) end' :: rest))
  end.

(** [discard_unstarted]: [truncate(keep)]. *)
Definition discard_unstarted (self : AgentSendQueue) : AgentSendQueue :=
  let keep := match aq_messages self with
              | front :: _ => if 0 <? pm_sent front then 1%nat else 0%nat
              | [] => 0%nat
              end in
  mkAgentSendQueue (take keep (aq_messages self)).

(** * Well-formed queues *)

(** The bytes still to come of the message that is partly on the wire. *)
Definition owed (self : AgentSendQueue) : list Z :=
  match aq_messages self with
  | front :: _ =>
      if 0 <? pm_sent front then drop (Z.to_nat (pm_sent front)) (pm_data front) else []
  | [] => []
  end.

(** The messages none of which has been sent. *)
Definition unstarted (self : AgentSendQueue) : list (list Z) :=
  match aq_messages self with
  | front :: rest =>
      if 0 <? pm_sent front then map pm_data rest else map pm_data (aq_messages self)
  | [] => []
  end.

(** Everything left to send. *)
Definition backlog (self : AgentSendQueue) : list Z := owed self ++ concat (unstarted self).

(** Only the front message can be partly sent, none is wholly sent, and the
    queue is within its bound. *)
Definition aq_ok (self : AgentSendQueue) : Prop :=
  match aq_messages self with
  | [] => True
  | front :: rest =>
      0 <= pm_sent front < zlen (pm_data front) /\
      Forall (fun m => pm_sent m = 0 /\ pm_data m <> []) rest
  end /\ aq_len self <= MAX_QUEUED_AGENT_MESSAGES.

Lemma aq_default_ok : aq_ok AgentSendQueue_default.
Proof. by split. Qed.

Lemma aq_push_cases self m ok q' : aq_ok self -> m <> [] -> aq_push self m = (ok, q') ->
  aq_ok q' /\ owed q' = owed self /\
  (if ok then unstarted q' = unstarted self ++ [m] /\ aq_len self < MAX_QUEUED_AGENT_MESSAGES
   else q' = self /\ aq_len self = MAX_QUEUED_AGENT_MESSAGES).
Proof.
  intros [Hf Hl] Hm. unfold aq_push. destruct (Z.leb_spec MAX_QUEUED_AGENT_MESSAGES (aq_len self)).
  { intros [= <- <-]. repeat split; [done..|lia]. }
  destruct m as [|b m]; [done|]. intros [= <- <-].
  destruct self as [[|front rest]].
  - pose proof (zlen_nonneg m). unfold aq_ok, aq_len. cbn.
    rewrite zlen_cons. by repeat split; try lia.
  - cbn [aq_messages] in Hf. destruct Hf as [Hs Hr].
    unfold aq_ok, owed, unstarted, aq_len, push in *. cbn [aq_messages app] in *.
    split; [split; [split; [done|]|]|split; [done|split; [|lia]]].
    + apply list.Forall_app. split; [done|]. by repeat constructor.
    + change (zlen ((front :: rest) ++ [mkPendingMessage (b :: m) 0]) <= MAX_QUEUED_AGENT_MESSAGES).
      rewrite (zlen_app (front :: rest)). change (zlen [_]) with 1. lia.
    + destruct (0 <? _); cbn [map]; rewrite map_app; done.
Qed.

(** A chunk is a non-empty piece, no longer than [MAX_AGENT_CHUNK], of what
    remains; a message is started only when nothing is owed. *)
Lemma next_chunk_cases self : aq_ok self ->
  (aq_is_empty self = true /\ next_chunk self = Some (None, self)) \/
  exists chunk q', next_chunk self = Some (Some chunk, q') /\ aq_ok q' /\
    aq_is_empty self = false /\
    1 <= zlen chunk <= MAX_AGENT_CHUNK /\ aq_len q' <= aq_len self /\
    ((owed self <> [] /\ owed self = chunk ++ owed q' /\ unstarted q' = unstarted self) \/
     (owed self = [] /\ exists m, unstarted self = m :: unstarted q' /\ m = chunk ++ owed q')).
Proof.
  intros [Hf Hl]. destruct self as [[|[d s] rest]]; [by left|right].
  unfold next_chunk, aq_len, owed, unstarted in *. cbn [aq_messages pm_data pm_sent] in *.
  destruct Hf as [Hs Hr]. set (e := Z.min (s + MAX_AGENT_CHUNK) (zlen d)).
  assert (s < e <= zlen d /\ e <= s + MAX_AGENT_CHUNK) as He
    by (unfold e, MAX_AGENT_CHUNK; lia).
  rewrite slice_Some by lia. cbn [mbind option_bind].
  set (chunk := take (Z.to_nat (e - s)) (drop (Z.to_nat s) d)).
  set (q' := mkAgentSendQueue _). exists chunk, q'.
  assert (Hc : drop (Z.to_nat s) d = chunk ++ drop (Z.to_nat e) d).
  { unfold chunk. rewrite <- (take_drop (Z.to_nat (e - s)) (drop (Z.to_nat s) d)) at 1.
    rewrite drop_drop. do 2 f_equal. lia. }
  assert (Ho : owed q' = drop (Z.to_nat e) d /\
    unstarted q' = map pm_data rest /\ aq_ok q' /\ aq_len q' <= zlen (mkPendingMessage d s :: rest)).
  { unfold q', owed, unstarted, aq_ok, aq_len. rewrite zlen_cons in *.
    destruct (Z.eqb_spec e (zlen d)) as [E|E]; cbn [aq_messages pm_data pm_sent].
    - rewrite E, drop_ge by (unfold zlen; lia).
      destruct rest as [|m rest]; [split_and!; (done || (unfold zlen; cbn; lia))|].
      apply Forall_cons_iff in Hr as [[Hm0 Hmd] Hr]. rewrite Hm0. cbn [Z.ltb Z.compare].
      split_and!; try done; try lia.
      destruct (pm_data m); [done|]. rewrite zlen_cons. pose proof (zlen_nonneg l). lia.
    - rewrite (proj2 (Z.ltb_lt 0 e)) by lia. rewrite zlen_cons. split_and!; (done || lia). }
  destruct Ho as (Ho & Hu & Hok & Hlen).
  split_and!; [done|done|done| | |done|].
  - unfold chunk. rewrite zlen_take, zlen_drop. lia.
  - unfold chunk. rewrite zlen_take, zlen_drop. lia.
  - unfold owed, unstarted in Ho, Hu. rewrite Ho, Hu. destruct (Z.ltb_spec 0 s).
    + left. split_and!; [|done|done]. intros E. apply (f_equal zlen) in E.
      rewrite zlen_drop in E. change (zlen []) with 0 in E. lia.
    + right. split; [done|]. exists d. split; [done|].
      replace s with 0 in Hc by lia. done.
Qed.

(** A chunk comes off the front of what remains. *)
Lemma next_chunk_backlog self chunk q' : aq_ok self ->
  next_chunk self = Some (Some chunk, q') -> backlog self = chunk ++ backlog q'.
Proof.
  intros Hok E. destruct (next_chunk_cases self Hok)
    as [[_ E']|(c & q & E' & _ & _ & _ & _ & Hcase)]; rewrite E in E'; [done|].
  injection E' as <- <-. unfold backlog.
  destruct Hcase as [(_ & -> & ->)|(-> & m & -> & ->)]; cbn [concat]; by rewrite <- ?app_assoc.
Qed.

Lemma discard_unstarted_spec self : aq_ok self ->
  aq_ok (discard_unstarted self) /\ owed (discard_unstarted self) = owed self /\
  unstarted (discard_unstarted self) = [] /\ aq_len (discard_unstarted self) <= 1.
Proof.
  intros [Hf Hl]. destruct self as [[|front rest]]; [done|].
  unfold discard_unstarted, owed, unstarted, aq_ok, aq_len in *. cbn [aq_messages] in *.
  destruct Hf as [Hs Hr]. destruct (0 <? pm_sent front) eqn:E; cbn [take];
    rewrite ?take_0; rewrite ?E; repeat split; (done || lia || by destruct Hs).
Qed.

(** * Runs of operations *)

Inductive aq_op : Type :=
| Aq_Push (message : list Z)
| Aq_Next
| Aq_Discard.

(** The queue's clients as a history: the chunks handed out and the messages
    accepted so far. *)
Record aq_run : Type := mkAqRun {
  run_queue : AgentSendQueue;
  run_chunks : list (list Z);
  run_accepted : list (list Z)
}.

Definition aq_step (r : aq_run) (op : aq_op) : option aq_run :=
  match op with
  | Aq_Push m =>
      let '(ok, q) := aq_push (run_queue r) m in
      Some (mkAqRun q (run_chunks r)
              (match ok, m with true, _ :: _ => run_accepted r ++ [m] | _, _ => run_accepted r end))
  | Aq_Next =>
      c ← next_chunk (run_queue r);
      Some (mkAqRun (snd c)
              (match fst c with Some c => run_chunks r ++ [c] | None => run_chunks r end)
              (run_accepted r))
  | Aq_Discard => Some (mkAqRun (discard_unstarted (run_queue r)) (run_chunks r) (run_accepted r))
  end.

Fixpoint aq_steps (r : aq_run) (ops : list aq_op) : option aq_run :=
  match ops with
  | [] => Some r
  | op :: ops => r ← aq_step r op; aq_steps r ops
  end.

Definition aq_start : aq_run := mkAqRun AgentSendQueue_default [] [].

Definition is_discard (op : aq_op) : bool := match op with Aq_Discard => true | _ => false end.

(** The chunks are the messages [started], less what is owed; [kept] records
    whether nothing has been discarded. *)
Definition aq_inv (kept : bool) (r : aq_run) : Prop :=
  aq_ok (run_queue r) /\
  Forall (fun c => 1 <= zlen c <= MAX_AGENT_CHUNK) (run_chunks r) /\
  exists started,
    concat (run_chunks r) ++ owed (run_queue r) = concat started /\
    (started ++ unstarted (run_queue r)) `sublist_of` run_accepted r /\
    (kept = true -> started ++ unstarted (run_queue r) = run_accepted r).

Lemma aq_step_inv kept r op : aq_inv kept r ->
  exists r', aq_step r op = Some r' /\ aq_inv (kept && negb (is_discard op)) r'.
Proof.
  intros (Hok & Hc & started & Hs & Hsub & Hk). destruct op as [m| |]; cbn [aq_step is_discard negb].
  - rewrite andb_true_r. destruct (aq_push (run_queue r) m) as [ok q'] eqn:E.
    eexists. split; [done|]. unfold aq_inv. cbn [run_queue run_chunks run_accepted].
    destruct m as [|b m].
    { assert (q' = run_queue r) as ->.
      { unfold aq_push in E. destruct (_ <=? _); by injection E as <- <-. }
      split; [done|]. split; [done|]. exists started. by destruct ok. }
    destruct (aq_push_cases _ _ _ _ Hok (ltac:(done) : b :: m <> []) E) as (Hok' & Ho & Hu).
    split; [done|]. split; [done|]. exists started. rewrite Ho. split; [done|].
    destruct ok; [|destruct Hu as [-> _]; done].
    destruct Hu as [-> _]. rewrite app_assoc. split.
    + by apply sublist_app.
    + intros H. by rewrite Hk.
  - rewrite andb_true_r.
    destruct (next_chunk_cases _ Hok) as [[_ ->]|(c & q' & -> & Hok' & _ & Hlen & _ & Hcase)];
      cbn [mbind option_bind fst snd]; (eexists; split; [done|]);
      unfold aq_inv; cbn [run_queue run_chunks run_accepted]; (split; [done|]).
    { split; [done|]. by exists started. }
    split; [by apply Forall_app; split; [|constructor]|]. rewrite concat_app. cbn [concat].
    rewrite app_nil_r, <- app_assoc.
    destruct Hcase as [(_ & Ho & Hu)|(Ho & m & Hu & Hm)].
    + exists started. rewrite Hu, <- Ho. done.
    + exists (started ++ [m]). rewrite Hu in *. rewrite Ho, app_nil_r in Hs.
      rewrite concat_app, <- Hs. cbn [concat]. rewrite app_nil_r, <- Hm, <- app_assoc. done.
  - rewrite andb_false_r. eexists. split; [done|].
    destruct (discard_unstarted_spec _ Hok) as (Hok' & Ho & Hu & _).
    unfold aq_inv. cbn [run_queue run_chunks run_accepted]. split; [done|]. split; [done|].
    exists started. rewrite Ho, Hu, app_nil_r. split; [done|]. split; [|done].
    etrans; [|exact Hsub]. by apply sublist_inserts_r.
Qed.

(** The queue's contract: any sequence of operations runs without a panic;
    every chunk is between 1 and [MAX_AGENT_CHUNK] bytes; the queue holds at
    most [MAX_QUEUED_AGENT_MESSAGES]; and the chunks, with the owed tail, are
    accepted messages whole and in the order they were accepted - all of them,
    up to those still unstarted, if nothing was discarded. *)
Theorem agent_queue_stream ops :
  exists r, aq_steps aq_start ops = Some r /\
    aq_len (run_queue r) <= MAX_QUEUED_AGENT_MESSAGES /\
    Forall (fun c => 1 <= zlen c <= MAX_AGENT_CHUNK) (run_chunks r) /\
    exists started,
      concat (run_chunks r) ++ owed (run_queue r) = concat started /\
      (started ++ unstarted (run_queue r)) `sublist_of` run_accepted r /\
      (existsb is_discard ops = false -> started ++ unstarted (run_queue r) = run_accepted r).
Proof.
  assert (forall ops kept r, aq_inv kept r -> exists r', aq_steps r ops = Some r' /\
    aq_inv (kept && negb (existsb is_discard ops)) r') as Hruns.
  { clear ops. induction ops as [|op ops IH]; intros kept r Hr; cbn [aq_steps existsb].
    { exists r. by rewrite andb_true_r. }
    destruct (aq_step_inv kept r op Hr) as (r' & -> & Hr'). cbn [mbind option_bind].
    destruct (IH _ _ Hr') as (r'' & E & Hr''). exists r''. split; [done|].
    by rewrite negb_orb, andb_assoc. }
  destruct (Hruns ops true aq_start) as (r & E & [_ Hl] & Hc & started & Hs & Hsub & Hk).
  { split; [exact aq_default_ok|]. split; [constructor|]. by exists []. }
  exists r. split_and!; [done|done|done|]. exists started. split_and!; [done|done|].
  intros Hd. apply Hk. by rewrite Hd.
Qed.
