(* ===== verification/OpcodeCounters.v ===== *)
(** Bounded per-opcode message counters:
    [shakenfist-spice-renderer/src/opcode_counters.rs].

    A name table is the set of opcodes it has a name for, which is all the
    counters ask of it; [main_server_named] and [main_client_named] are the
    main channel's.  A [BTreeMap] is a [gmap].  [opcode_counters_exact] is the
    contract: however many distinct opcodes a server sends, the maps stay
    bounded, and for a table within the bound they are exactly the histogram
    of the named opcodes. *)
From Stdlib Require Import ZArith Lia.
From stdpp Require Import base numbers list gmap fin_maps tactics.
From S2P Require Import Prelude.

Open Scope Z_scope.

Definition MAX_TRACKED_OPCODES : Z := 64.

(** An [OpcodeNamer], by whether it names an opcode. *)
Abbreviation OpcodeNamer := (Z -> bool).

Definition common_server_named (op : Z) : bool := (1 <=? op) && (op <=? 7).
Definition common_client_named (op : Z) : bool := (1 <=? op) && (op <=? 3).

Definition main_server_named (op : Z) : bool :=
  ((101 <=? op) && (op <=? 118)) || common_server_named op.
Definition main_client_named (op : Z) : bool :=
  ((4 <=? op) && (op <=? 6)) || ((101 <=? op) && (op <=? 112)) || common_client_named op.

Record OpcodeCounters : Type := mkOpcodeCounters {
  oc_recv : gmap Z Z;
  oc_send : gmap Z Z;
  oc_last_unknown : option Z;
  oc_unknown_count : Z
}.

Definition OpcodeCounters_new : OpcodeCounters := mkOpcodeCounters ∅ ∅ None 0.

Definition bump_bounded (map : gmap Z Z) (opcode : Z) : bool * gmap Z Z :=
  match map !! opcode with
  | Some count => (true, <[opcode := saturating_add_u64 count 1]> map)
  | None =>
      if MAX_TRACKED_OPCODES <=? Z.of_nat (size map) then (false, map)
      else (true, <[opcode := 1]> map)
  end.

Definition fold_unknown (opcode : Z) (self : OpcodeCounters) : OpcodeCounters :=
  mkOpcodeCounters (oc_recv self) (oc_send self) (Some opcode)
    (saturating_add_u64 (oc_unknown_count self) 1).

Definition record_recv (named : OpcodeNamer) (opcode : Z) (self : OpcodeCounters)
  : OpcodeCounters :=
  if negb (named opcode) then fold_unknown opcode self
  else
    let '(ok, recv) := bump_bounded (oc_recv self) opcode in
    let self := mkOpcodeCounters recv (oc_send self) (oc_last_unknown self)
                  (oc_unknown_count self) in
    if ok then self else fold_unknown opcode self.

(** The name assertion is compiled out of a release build. *)
Definition record_send (opcode : Z) (self : OpcodeCounters) : OpcodeCounters :=
  mkOpcodeCounters (oc_recv self) (snd (bump_bounded (oc_send self) opcode))
    (oc_last_unknown self) (oc_unknown_count self).

Definition note_unknown (named : OpcodeNamer) (opcode : Z) (self : OpcodeCounters)
  : OpcodeCounters :=
  if named opcode then fold_unknown opcode self else self.

(** The four fields of a snapshot that [publish_into] overwrites. *)
Record OpcodeFields : Type := mkOpcodeFields {
  of_recv : gmap Z Z;
  of_send : gmap Z Z;
  of_last_unknown : option Z;
  of_unknown_count : Z
}.

Definition publish_into (self : OpcodeCounters) : OpcodeFields :=
  mkOpcodeFields (oc_recv self) (oc_send self) (oc_last_unknown self) (oc_unknown_count self).

(** * Histograms *)

Definition occurrences (op : Z) (ops : list Z) : Z :=
  zlen (filter (fun o => o = op) ops).

Lemma occurrences_snoc op ops o :
  occurrences op (ops ++ [o]) = occurrences op ops + (if decide (o = op) then 1 else 0).
Proof.
  unfold occurrences. rewrite list.filter_app, zlen_app. f_equal. rewrite list.filter_cons.
  by destruct (decide (o = op)).
Qed.

Lemma occurrences_bound op ops : 0 <= occurrences op ops <= zlen ops.
Proof.
  unfold occurrences, zlen. pose proof (list.length_filter (fun o => o = op) ops). lia.
Qed.

(** [map] counts [ops], all of which [names] lists. *)
Definition counts (map : gmap Z Z) (ops : list Z) : Prop :=
  forall op, map !! op = if 0 <? occurrences op ops then Some (occurrences op ops) else None.

Lemma counts_nil : counts ∅ [].
Proof. intros op. by rewrite lookup_empty. Qed.

Lemma counts_size names map ops : counts map ops -> Forall (fun o => o ∈ names) ops ->
  (size map <= length names)%nat.
Proof.
  intros Hc Hn. rewrite <- size_dom. transitivity (size (list_to_set names : gset Z)).
  - apply subseteq_size. intros op [v Hv]%elem_of_dom. rewrite Hc in Hv.
    destruct (Z.ltb_spec 0 (occurrences op ops)) as [H|H]; [|done].
    rewrite elem_of_list_to_set. rewrite list.Forall_forall in Hn. apply Hn.
    unfold occurrences in H. destruct (filter _ ops) as [|o l] eqn:E; [done|].
    assert (o ∈ o :: l) as Ho by apply list_elem_of_here. rewrite <- E in Ho.
    apply list_elem_of_filter in Ho. by destruct Ho as [-> ?].
  - clear. induction names as [|n names IH]; [done|]. cbn [list_to_set length].
    rewrite size_union_alt. rewrite size_singleton.
    pose proof (subseteq_size (list_to_set names ∖ {[n]} : gset Z) (list_to_set names) ltac:(set_solver)). lia.
Qed.

Lemma bump_counts names map ops op : counts map ops -> Forall (fun o => o ∈ names) ops ->
  op ∈ names -> Z.of_nat (length names) <= MAX_TRACKED_OPCODES -> zlen ops < u64_max ->
  exists map', bump_bounded map op = (true, map') /\ counts map' (ops ++ [op]).
Proof.
  intros Hc Hn Hop Hl Hz. unfold bump_bounded. pose proof (occurrences_bound op ops) as Hb.
  assert (forall v, v = occurrences op ops + 1 -> counts (<[op := v]> map) (ops ++ [op])) as Hins.
  { intros v -> o. rewrite occurrences_snoc. destruct (decide (op = o)) as [->|Hne].
    - rewrite lookup_insert_eq. by rewrite (proj2 (Z.ltb_lt _ _)) by lia.
    - rewrite lookup_insert_ne by done. by rewrite Z.add_0_r, Hc. }
  rewrite Hc. destruct (Z.ltb_spec 0 (occurrences op ops)) as [H|H].
  { eexists. split; [done|]. apply Hins. unfold saturating_add_u64. lia. }
  assert (occurrences op ops = 0) as H0 by lia.
  destruct (Z.leb_spec MAX_TRACKED_OPCODES (Z.of_nat (size map))) as [Hfull|_].
  { exfalso. assert (op ∉ dom map) as Hnd.
    { rewrite not_elem_of_dom, Hc, H0. done. }
    pose proof (counts_size names (<[op := 1]> map) (ops ++ [op]) (Hins 1 ltac:(lia))
      ltac:(apply list.Forall_app; by repeat constructor)) as Hs.
    rewrite <- size_dom, dom_insert, size_union, size_singleton, size_dom in Hs by set_solver. lia. }
  eexists. split; [done|]. apply Hins. lia.
Qed.

(** * Runs *)

Inductive oc_op : Type :=
| Oc_Recv (opcode : Z)
| Oc_Send (opcode : Z)
| Oc_Unknown (opcode : Z).

Definition oc_step (named : OpcodeNamer) (self : OpcodeCounters) (op : oc_op) : OpcodeCounters :=
  match op with
  | Oc_Recv o => record_recv named o self
  | Oc_Send o => record_send o self
  | Oc_Unknown o => note_unknown named o self
  end.

Definition received (ops : list oc_op) : list Z :=
  omap (fun op => match op with Oc_Recv o => Some o | _ => None end) ops.
Definition sent (ops : list oc_op) : list Z :=
  omap (fun op => match op with Oc_Send o => Some o | _ => None end) ops.
(** What the unknown counter counts: unnamed opcodes received, and named ones
    that reached a catch-all arm. *)
Definition unknowns (named : OpcodeNamer) (ops : list oc_op) : list Z :=
  omap (fun op => match op with
                  | Oc_Recv o => if named o then None else Some o
                  | Oc_Unknown o => if named o then Some o else None
                  | Oc_Send _ => None
                  end) ops.

Definition oc_run (named : OpcodeNamer) (ops : list oc_op) : OpcodeCounters :=
  foldl (oc_step named) OpcodeCounters_new ops.

Lemma bump_bounded_size map op : Z.of_nat (size map) <= MAX_TRACKED_OPCODES ->
  Z.of_nat (size (snd (bump_bounded map op))) <= MAX_TRACKED_OPCODES.
Proof.
  intros H. unfold bump_bounded. destruct (map !! op) as [c|] eqn:E; cbn [snd].
  - rewrite map_size_insert_Some by done. done.
  - destruct (Z.leb_spec MAX_TRACKED_OPCODES (Z.of_nat (size map))); cbn [snd]; [done|].
    rewrite map_size_insert_None by done. lia.
Qed.

Lemma oc_step_bounded named self op :
  Z.of_nat (size (oc_recv self)) <= MAX_TRACKED_OPCODES /\
  Z.of_nat (size (oc_send self)) <= MAX_TRACKED_OPCODES ->
  Z.of_nat (size (oc_recv (oc_step named self op))) <= MAX_TRACKED_OPCODES /\
  Z.of_nat (size (oc_send (oc_step named self op))) <= MAX_TRACKED_OPCODES.
Proof.
  intros [Hr Hs]. destruct op as [o|o|o]; cbn [oc_step].
  - unfold record_recv. destruct (named o); cbn [negb]; [|done].
    pose proof (bump_bounded_size _ o Hr). destruct (bump_bounded _ o) as [[] m]; done.
  - unfold record_send. cbn. split; [done|by apply bump_bounded_size].
  - unfold note_unknown. by destruct (named o).
Qed.

(** What a run of fewer than 2^64 operations has counted. *)
Definition oc_inv (named : OpcodeNamer) (ops : list oc_op) (self : OpcodeCounters) : Prop :=
  counts (oc_recv self) (filter (fun o => named o = true) (received ops)) /\
  oc_unknown_count self = zlen (unknowns named ops) /\
  oc_last_unknown self = list.last (unknowns named ops).

Lemma omap_snoc {A B} (f : A -> option B) l x :
  omap f (l ++ [x]) = omap f l ++ (match f x with Some y => [y] | None => [] end).
Proof. rewrite omap_app. by cbn; destruct (f x). Qed.

Lemma oc_step_exact named names ops self op :
  (forall o, named o = true -> o ∈ names) ->
  Z.of_nat (length names) <= MAX_TRACKED_OPCODES -> zlen ops < u64_max ->
  oc_inv named ops self -> oc_inv named (ops ++ [op]) (oc_step named self op).
Proof.
  intros Hnames Hl Hz (Hc & Hu & Hlast).
  assert (zlen (unknowns named ops) <= zlen ops /\ zlen (received ops) <= zlen ops) as [Hul Hrl].
  { unfold unknowns, received, zlen. split; apply inj_le; clear.
    all: induction ops as [|op ops IH]; [done|]; cbn; case_match; cbn; lia. }
  assert (Hfold : saturating_add_u64 (oc_unknown_count self) 1 = zlen (unknowns named ops) + 1).
  { unfold saturating_add_u64. lia. }
  unfold oc_inv, received, unknowns. rewrite !omap_snoc. fold (received ops) (unknowns named ops).
  destruct op as [o|o|o]; cbn [oc_step].
  - unfold record_recv. rewrite list.filter_app, list.filter_cons. destruct (named o) eqn:En; cbn [negb].
    + rewrite decide_True by done.
      destruct (bump_counts names _ _ o Hc) as (m & -> & Hm).
      { apply list.Forall_forall. intros x [? _]%list_elem_of_filter. by apply Hnames. }
      { by apply Hnames. } { done. }
      { unfold zlen in *. pose proof (list.length_filter (fun o => named o = true) (received ops)). lia. }
      cbn [oc_recv oc_unknown_count oc_last_unknown]. by rewrite app_nil_r.
    + rewrite decide_False by done. rewrite filter_nil, app_nil_r.
      unfold fold_unknown. cbn [oc_recv oc_unknown_count oc_last_unknown].
      by rewrite Hfold, zlen_app, last_snoc.
  - unfold record_send. cbn [oc_recv oc_unknown_count oc_last_unknown]. by rewrite !app_nil_r.
  - unfold note_unknown. rewrite app_nil_r. destruct (named o) eqn:En; [|by rewrite app_nil_r].
    unfold fold_unknown. cbn [oc_recv oc_unknown_count oc_last_unknown].
    by rewrite Hfold, zlen_app, last_snoc.
Qed.

(** What a snapshot reports of the opcodes is exact and bounded: whatever
    opcodes a server sends, both maps hold at most [MAX_TRACKED_OPCODES] keys;
    and for a name table of at most that many
    entries the receive map is exactly the histogram of the named opcodes
    received, and every other opcode is in the unknown count, of which the
    last is remembered. *)
Theorem opcode_counters_exact named names ops :
  (forall o, named o = true -> o ∈ names) ->
  Z.of_nat (length names) <= MAX_TRACKED_OPCODES -> zlen ops <= u64_max ->
  let report := publish_into (oc_run named ops) in
  Z.of_nat (size (of_recv report)) <= MAX_TRACKED_OPCODES /\
  Z.of_nat (size (of_send report)) <= MAX_TRACKED_OPCODES /\
  (forall o, of_recv report !! o =
     let n := occurrences o (received ops) in
     if named o && (0 <? n) then Some n else None) /\
  of_unknown_count report = zlen (unknowns named ops) /\
  of_last_unknown report = list.last (unknowns named ops).
Proof.
  intros Hnames Hl Hz. unfold publish_into. cbn [of_recv of_send of_unknown_count of_last_unknown].
  set (self := oc_run named ops).
  assert (Hsize : Z.of_nat (size (oc_recv self)) <= MAX_TRACKED_OPCODES /\
    Z.of_nat (size (oc_send self)) <= MAX_TRACKED_OPCODES).
  { unfold self, oc_run. clear. induction ops as [|op ops IH] using rev_ind; [done|].
    rewrite foldl_app. by apply oc_step_bounded. }
  assert (Hex : oc_inv named ops self).
  { unfold self, oc_run. clear self Hsize. induction ops as [|op ops IH] using rev_ind.
    { split; [exact counts_nil|done]. }
    rewrite zlen_app in Hz. change (zlen [op]) with 1 in Hz. rewrite foldl_app.
    apply (oc_step_exact named names); [done|done|lia|]. apply IH. lia. }
  destruct Hsize as [H1 H2]. destruct Hex as (Hc & Hu & Hlast).
  split_and!; [done|done| |done|done].
  intros o. rewrite Hc. clear. cbv zeta. unfold occurrences. rewrite list_filter_filter.
  destruct (named o) eqn:En.
  - rewrite (list_filter_iff _ (fun a => a = o)); [done|].
    intros x. split; [by intros []|by intros ->].
  - rewrite (list_filter_iff _ (fun _ => False)).
    + assert (filter (fun _ : Z => False) (received ops) = []) as ->; [|reflexivity].
      induction (received ops) as [|x l IH]; [done|]. by rewrite list.filter_cons.
    + intros x. split; [|done]. intros [-> ?]. congruence.
Qed.

Lemma opcode_counters_exact_witness :
  oc_recv (oc_run main_server_named [Oc_Recv 4; Oc_Recv 999; Oc_Recv 4]) !! 4 = Some 2.
Proof.
  destruct (opcode_counters_exact main_server_named (seqZ 1 7 ++ seqZ 101 18)
    [Oc_Recv 4; Oc_Recv 999; Oc_Recv 4]) as (_ & _ & H & _).
  - intros o H. unfold main_server_named, common_server_named in H.
    rewrite elem_of_app, !elem_of_seqZ. lia.
  - done.
  - done.
  - apply (H 4).
Defined.
