(* ===== verification/Clipboard.v ===== *)
(** The clipboard: [shakenfist-spice-renderer/src/clipboard.rs], and the text
    normalisation of [channels/main_channel.rs].

    [ClipboardBackend] is the source's trait, its receiver's state threaded
    through; [MemoryClipboard] is its in-memory implementation.  A [String] is
    its UTF-8 bytes.  [normalize_clipboard] is what the main channel hashes to
    tell its own copy coming back from a new one; the lemmas say which changes
    it does not see. *)
From Stdlib Require Import ZArith Lia.
From stdpp Require Import base numbers list tactics.
From S2P Require Import Prelude.

Open Scope Z_scope.

(** * The trait *)

(** [&self] methods of a backend with interior state [B]; [set_text]'s
    boolean is whether it returned [Ok]. *)
Class ClipboardBackend (B : Type) : Type := {
  cb_get_text : B -> option (list Z) * B;
  cb_set_text : list Z -> B -> bool * B;
  cb_generation : B -> option Z
}.

(** * [MemoryClipboard] *)

Record MemoryClipboard : Type := mkMemoryClipboard {
  mem_text : option (list Z);
  mem_generation : Z;
  mem_guest_copies : option Z
}.

Definition MemoryClipboard_new : MemoryClipboard := mkMemoryClipboard None 0 None.

Definition mem_store (text : list Z) (self : MemoryClipboard) : MemoryClipboard :=
  mkMemoryClipboard (Some text) (as_unsigned 64 (mem_generation self + 1))
    (mem_guest_copies self).

Definition set_host_text (text : list Z) (self : MemoryClipboard) : MemoryClipboard :=
  mem_store text self.

Definition mem_set_text (text : list Z) (self : MemoryClipboard) : bool * MemoryClipboard :=
  let self := mem_store text self in
  (true, mkMemoryClipboard (mem_text self) (mem_generation self) (Some (zlen text))).

Definition MemoryClipboard_backend : ClipboardBackend MemoryClipboard := {|
  cb_get_text self := (mem_text self, self);
  cb_set_text := mem_set_text;
  cb_generation self := Some (mem_generation self)
|}.
#[export] Existing Instance MemoryClipboard_backend.

(** * Normalisation *)

Definition CR : Z := 13.
Definition LF : Z := 10.

(** [text.replace("\r\n", "\n")] *)
Fixpoint replace_crlf (text : list Z) : list Z :=
  match text with
  | [] => []
  | a :: rest =>
      match rest with
      | b :: rest' =>
          if (a =? CR) && (b =? LF) then LF :: replace_crlf rest' else a :: replace_crlf rest
      | [] => a :: replace_crlf rest
      end
  end.

(** [text.replace('\r', "\n")] *)
Definition replace_cr (text : list Z) : list Z :=
  map (fun b => if b =? CR then LF else b) text.

(** The encodings of the characters [char::is_whitespace] accepts, by
    length. *)
Definition ws1 (a : Z) : bool := ((9 <=? a) && (a <=? 13)) || (a =? 32).
Definition ws2 (a b : Z) : bool := (a =? 194) && ((b =? 133) || (b =? 160)).
Definition ws3 (a b c : Z) : bool :=
  ((a =? 225) && (b =? 154) && (c =? 128))
  || ((a =? 226) && (b =? 128)
        && (((128 <=? c) && (c <=? 138)) || (c =? 168) || (c =? 169) || (c =? 175)))
  || ((a =? 226) && (b =? 129) && (c =? 159))
  || ((a =? 227) && (b =? 128) && (c =? 128)).

(** Whether a text ends in whitespace, and its last character's length: on a
    reversed text, whose last character comes first. *)
Definition ws_len (r : list Z) : nat :=
  match r with
  | [] => 0
  | c :: r1 =>
      if ws1 c then 1
      else match r1 with
           | [] => 0
           | b :: r2 =>
               if ws2 b c then 2
               else match r2 with
                    | [] => 0
                    | a :: _ => if ws3 a b c then 3 else 0
                    end
           end
  end%nat.

Fixpoint trim_rev (fuel : nat) (r : list Z) : list Z :=
  match fuel with
  | O => r
  | S fuel => match ws_len r with O => r | S _ as n => trim_rev fuel (drop n r) end
  end.

(** [text.trim_end()]; each round drops a character, so the length is fuel
    enough. *)
Definition trim_end (text : list Z) : list Z :=
  reverse (trim_rev (length text) (reverse text)).

Definition normalize_clipboard (text : list Z) : list Z :=
  trim_end (replace_cr (replace_crlf text)).

(** ** What normalisation does not see *)

(** Every line ending turned into CRLF. *)
Fixpoint to_crlf (text : list Z) : list Z :=
  match text with
  | [] => []
  | b :: text => if b =? LF then CR :: LF :: to_crlf text else b :: to_crlf text
  end.

(** ASCII blanks and line endings, as a clipboard owner appends or trims. *)
Definition blank (b : Z) : bool := ws1 b.

Lemma replace_crlf_no_cr text : Forall (fun b => b <> CR) text -> replace_crlf text = text.
Proof.
  induction text as [|a [|b text] IH]; intros HF; [done|done|].
  inversion HF as [|? ? Ha Hr]; subst. cbn [replace_crlf].
  rewrite (proj2 (Z.eqb_neq a CR) Ha). cbn [andb]. f_equal. by apply IH.
Qed.

Lemma replace_crlf_to_crlf text : Forall (fun b => b <> CR) text ->
  replace_crlf (to_crlf text) = text.
Proof.
  induction 1 as [|b text Hb Ht IH]; [done|]. cbn [to_crlf].
  destruct (Z.eqb_spec b LF) as [->|Hn].
  - cbn [replace_crlf]. change ((CR =? CR) && (LF =? LF)) with true. cbv iota. by rewrite IH.
  - destruct (to_crlf text) as [|c l] eqn:E.
    + cbn [replace_crlf] in *. by rewrite <- IH.
    + cbn [replace_crlf]. rewrite (proj2 (Z.eqb_neq b CR) Hb). cbn [andb].
      f_equal. exact IH.
Qed.

Lemma trim_end_blank text b : blank b = true -> trim_end (text ++ [b]) = trim_end text.
Proof.
  intros Hb. unfold trim_end. rewrite reverse_snoc, length_app, Nat.add_1_r. cbn [trim_rev].
  assert (ws_len (b :: reverse text) = 1%nat) as -> by (cbn [ws_len]; unfold blank in Hb; by rewrite Hb).
  done.
Qed.

Lemma trim_end_blanks text bs : Forall (fun b => blank b = true) bs ->
  trim_end (text ++ bs) = trim_end text.
Proof.
  induction bs as [|b bs IH] using rev_ind; intros HF; [by rewrite app_nil_r|].
  apply Forall_app in HF as [H1 H2]. rewrite app_assoc, trim_end_blank; [by apply IH|].
  by inversion H2.
Qed.

(** What a host clipboard does to a text between its being set and read back:
    line endings flipped either way, blanks appended or trimmed, any number of
    times. *)
Inductive host_echo : list Z -> list Z -> Prop :=
| Echo_Crlf text : Forall (fun b => b <> CR) text -> host_echo text (to_crlf text)
| Echo_Blanks text blanks : Forall (fun b => blank b = true) blanks ->
    host_echo text (text ++ blanks)
| Echo_Refl text : host_echo text text
| Echo_Sym a b : host_echo a b -> host_echo b a
| Echo_Trans a b c : host_echo a b -> host_echo b c -> host_echo a c.

#[export] Instance host_echo_equivalence : Equivalence host_echo.
Proof. split; red; [apply Echo_Refl|apply Echo_Sym|apply Echo_Trans]. Qed.

Definition unify_lines (text : list Z) : list Z := replace_cr (replace_crlf text).

Lemma unify_blanks blanks : Forall (fun b => blank b = true) blanks ->
  Forall (fun b => blank b = true) (unify_lines blanks).
Proof.
  intros Hb. unfold unify_lines, replace_cr.
  assert (Forall (fun b => blank b = true) (replace_crlf blanks)) as H.
  { remember (length blanks) as n eqn:E. assert (length blanks <= n)%nat as Hle by lia.
    clear E. revert blanks Hle Hb.
    induction n as [|n IH]; intros [|a [|b l]] Hle Hb; try exact Hb; [cbn in Hle; lia|].
    cbn in Hle. cbn [replace_crlf]. apply Forall_cons_iff in Hb as [Ha Hr]. destruct (_ && _).
    - apply Forall_cons_iff in Hr as [_ Hr]. constructor; [done|]. apply IH; [lia|done].
    - constructor; [done|]. apply (IH (b :: l)); [cbn; lia|done]. }
  apply list.Forall_forall. intros b (c & -> & Hc)%list_elem_of_fmap.
  rewrite list.Forall_forall in H. destruct (c =? CR); [done|by apply H].
Qed.

Lemma unify_cons a text : a <> CR -> unify_lines (a :: text) = a :: unify_lines text.
Proof.
  intros Ha. unfold unify_lines, replace_cr. destruct text as [|b text]; cbn [replace_crlf map].
  - by rewrite (proj2 (Z.eqb_neq a CR) Ha).
  - rewrite (proj2 (Z.eqb_neq a CR) Ha). cbn [andb map]. by rewrite (proj2 (Z.eqb_neq a CR) Ha).
Qed.

Lemma unify_crlf text : unify_lines (CR :: LF :: text) = LF :: unify_lines text.
Proof. done. Qed.

Lemma unify_cr b text : b <> LF -> unify_lines (CR :: b :: text) = LF :: unify_lines (b :: text).
Proof.
  intros Hb. unfold unify_lines. cbn [replace_crlf]. by rewrite (proj2 (Z.eqb_neq b LF) Hb), andb_false_r.
Qed.

(** Appended blanks end up as appended blanks, even where one of them joins a
    final CR. *)
Lemma unify_app_blanks text blanks : Forall (fun b => blank b = true) blanks ->
  exists blanks', Forall (fun b => blank b = true) blanks' /\
    unify_lines (text ++ blanks) = unify_lines text ++ blanks'.
Proof.
  intros Hb. remember (length text) as n eqn:E. assert (length text <= n)%nat as Hle by lia.
  clear E. revert text Hle. induction n as [|n IH]; intros text Hle.
  { destruct text; [|cbn in Hle; lia]. exists (unify_lines blanks). split; [by apply unify_blanks|done]. }
  destruct text as [|a text].
  { exists (unify_lines blanks). split; [by apply unify_blanks|done]. }
  destruct (Z.eq_dec a CR) as [->|Ha].
  - destruct text as [|b text].
    + destruct blanks as [|b blanks]; [by exists []|]. cbn [app].
      destruct (Z.eq_dec b LF) as [->|Hn].
      * exists (unify_lines blanks). apply Forall_cons_iff in Hb as [_ Hb].
        split; [by apply unify_blanks|done].
      * rewrite unify_cr by done. exists (unify_lines (b :: blanks)).
        split; [by apply unify_blanks|done].
    + cbn in Hle. cbn [app]. destruct (Z.eq_dec b LF) as [->|Hn].
      * rewrite !unify_crlf. destruct (IH text ltac:(lia)) as (bl & Hbl & Eq).
        exists bl. by rewrite Eq.
      * rewrite !unify_cr by done. destruct (IH (b :: text) ltac:(cbn; lia)) as (bl & Hbl & Eq).
        exists bl. cbn [app] in Eq. by rewrite Eq.
  - cbn [app]. rewrite !unify_cons by done. cbn in Hle.
    destruct (IH text ltac:(lia)) as (bl & Hbl & Eq). exists bl. by rewrite Eq.
Qed.

Lemma normalize_echo text back : host_echo text back ->
  normalize_clipboard text = normalize_clipboard back.
Proof.
  induction 1 as [text Ht|text blanks Hb|text|a b _ IH|a b c _ IH1 _ IH2];
    unfold normalize_clipboard in *.
  - by rewrite replace_crlf_to_crlf, replace_crlf_no_cr.
  - fold (unify_lines (text ++ blanks)) (unify_lines text).
    destruct (unify_app_blanks text blanks Hb) as (bl & Hbl & ->).
    by rewrite trim_end_blanks.
  - done.
  - done.
  - by rewrite IH1.
Qed.
