(* ===== verification/Channel.v ===== *)
(** What the renderer's channels have in common: the parts of
    [shakenfist-spice-renderer/src/channels/mod.rs] they share, and the code
    each of them repeats: the byte totals, the packet capture, the writes, the
    loop that cuts what was read into messages.

    A handler is a computation of the monad [M ChannelError S] on its
    channel's state; what it does to the outside world is appended to the
    state's log: messages recorded by the traffic sink, bytes the stream took,
    events for the frontends.  What the world answers comes from an [Env]: the
    clocks, whether a write succeeds, whether a packet capture has room,
    whether a clipboard read completes.  Each question an [Env] is asked has
    its own number, so no two answers are tied together.  Times are in
    nanoseconds.  The class [ChannelState] is what this asks of a channel's
    state. *)
From Stdlib Require Import ZArith Lia.
From stdpp Require Import base numbers list gmap tactics.
From S2P Require Import Prelude Reader Wire MsgCommon ReceiveBuffer LinkMess OpcodeCounters.

Open Scope Z_scope.
Open Scope rust_scope.

Definition MAX_MESSAGE_BODY : Z := 64 * 1024 * 1024 * 4 + 1024 * 1024.

Definition saturating_duration_since (now earlier : Z) : Z := saturating_sub now earlier.

(** * What the frontends see *)

Inductive RequestId : Type :=
| Rid_Int (i : Z)
| Rid_Str (s : list Z).

Inductive DisconnectReason : Type := ServerClosed | ServerAnnounced | KeepaliveTimeout.

Inductive NotificationSource : Type :=
| Source_Spice (channel : ChannelType) (what : Z)
| Source_Internal.

(** Why a paste failed, which the source formats into a text. *)
Inductive PasteFailure : Type :=
| Paste_Unrepresentable (count : Z) (sample : list Z)
| Paste_Cancelled.

(** A decoded cursor: RGBA pixels. *)
Record CursorImage : Type := mkCursorImage {
  ci_width : Z;
  ci_height : Z;
  ci_hot_spot_x : Z;
  ci_hot_spot_y : Z;
  ci_pixels : list Z
}.

(** The [ChannelEvent]s the modelled channels emit; durations are kept in
    nanoseconds. *)
Inductive ChannelEvent : Type :=
| CE_SessionInitialized (session_id : Z)
| CE_ChannelsAvailable (channels : list (ChannelType * Z))
| CE_PingInterval (interval : Z)
| CE_Notification (severity : NotifySeverity) (source : NotificationSource)
    (message : list Z) (visibility : option SpiceVisibility)
| CE_Disconnected (channel : ChannelType) (reason : DisconnectReason)
| CE_MonitorsConfig (width height : Z)
| CE_SurfaceCreated (display_channel_id surface_id width height : Z)
| CE_SurfaceDestroyed (display_channel_id surface_id : Z)
| CE_ImageReady (display_channel_id surface_id left top width height : Z) (pixels : list Z)
    (image_id produced_at : Z)
| CE_ImageReadyChroma (display_channel_id surface_id left top width height : Z) (pixels : list Z)
    (chroma_rgba : Z * Z * Z * Z) (image_id produced_at : Z)
| CE_ImageReadyAlpha (display_channel_id surface_id left top width height : Z) (pixels : list Z)
    (alpha image_id produced_at : Z)
| CE_FillRect (display_channel_id surface_id : Z) (rect colour : Z * Z * Z * Z)
    (clip : list (Z * Z * Z * Z)) (produced_at : Z)
| CE_CopyBits (display_channel_id surface_id src_x src_y : Z) (dest_rect : Z * Z * Z * Z)
    (clip : list (Z * Z * Z * Z)) (produced_at : Z)
| CE_Invert (display_channel_id surface_id : Z) (rect : Z * Z * Z * Z)
    (clip : list (Z * Z * Z * Z)) (produced_at : Z)
| CE_DisplayMark (produced_at : Z)
| CE_CursorPosition (x y : Z) (visible : bool)
| CE_CursorShape (image : CursorImage)
| CE_InputRoundTrip (rtt : Z)
| CE_PasteCompleted (chars elapsed_ms : Z) (request_id : option RequestId)
| CE_PasteFailed (reason : PasteFailure) (request_id : option RequestId)
| CE_Error (channel : ChannelType).

Inductive Event : Type :=
| Ev_Received (message_type : Z) (payload : list Z)
| Ev_Sent (message_type : Z) (data : list Z)
| Ev_Wrote (data : list Z)
| Ev_Emit (event : ChannelEvent)
| Ev_Terminal (event : ChannelEvent)
| Ev_MouseMode (mode : Z)
| Ev_AgentConnected (connected : bool)
| Ev_SessionInit (session_id : Z)
| Ev_ChannelsAvail (channels : list (ChannelType * Z))
| Ev_KeepaliveFired.

(** * State and environment *)

Record Totals : Type := mkTotals {
  to_bytes_in : Z;
  to_bytes_out : Z;
  to_capture_dropped : Z;
  to_last_recv_ts : option Z;
  to_last_send_ts : option Z;
  to_opcodes : OpcodeCounters
}.

Definition Totals_new : Totals := mkTotals 0 0 0 None None OpcodeCounters_new.

Class ChannelState (S : Type) : Type := {
  ch_buffer : S -> ReceiveBuffer;
  ch_on_buffer : (ReceiveBuffer -> ReceiveBuffer) -> S -> S;
  ch_on_totals : (Totals -> Totals) -> S -> S;
  ch_on_log : (list Event -> list Event) -> S -> S;
  ch_turn : S -> nat;
  ch_on_turn : (nat -> nat) -> S -> S
}.

(** What ends a channel: a malformed message of a kind that is refused, a
    failed read or write, a message over the size limit, or a malformed draw. *)
Inductive ChannelError : Type :=
| Chan_Malformed (message_type : Z) (e : LinkError)
| Chan_Io
| Chan_Framing (e : ErrorKind)
| Chan_Draw (e : ErrorKind).

Inductive clip_read : Type := Clip_Completed | Clip_Panicked | Clip_TimedOut.

(** The outside world. *)
Record Env : Type := mkEnv {
  env_instant : nat -> Z;
  env_elapsed : nat -> Z;
  env_write_ok : nat -> bool;
  env_capture : option (nat -> bool);
  env_clip_read : nat -> clip_read;
  env_hash : list Z -> Z
}.

(** How the program was built: whether an arithmetic overflow panics, as in a
    debug build, or wraps, as in a release build. *)
Class BuildProfile : Type := { arithmetic_checked : bool }.

(** * Effects *)

Section Effects.
Context {S : Type} `{ChannelState S} (env : Env).

Abbreviation Ch := (M ChannelError S).

Definition modify (f : S -> S) : Ch unit := fun s => (Ok tt, f s).
Definition gets {A} (f : S -> A) : Ch A := fun s => (Ok (f s), s).
Definition when (b : bool) (m : Ch unit) : Ch unit := if b then m else ret tt.

(** Ask the environment the next question. *)
Definition ask {A} (f : nat -> A) : Ch A := fun s => (Ok (f (ch_turn s)), ch_on_turn Datatypes.S s).

Definition log_event (e : Event) : Ch unit := modify (ch_on_log (fun l => l ++ [e])).

(** [Instant::now()] and [traffic.elapsed()]. *)
Definition instant_now : Ch Z := ask (env_instant env).
Definition elapsed_now : Ch Z := ask (env_elapsed env).

(** [EventSink::emit]. *)
Definition emit (e : ChannelEvent) : Ch unit := log_event (Ev_Emit e).

Definition count_opcodes (f : OpcodeCounters -> OpcodeCounters) : Ch unit :=
  modify (ch_on_totals (fun t => mkTotals (to_bytes_in t) (to_bytes_out t) (to_capture_dropped t)
    (to_last_recv_ts t) (to_last_send_ts t) (f (to_opcodes t)))).

(** A packet the capture's queue had no room for. *)
Definition capture_packet : Ch unit :=
  match env_capture env with
  | None => ret tt
  | Some has_room =>
      let? ok := ask has_room in
      when (negb ok) (modify (ch_on_totals (fun t => mkTotals (to_bytes_in t) (to_bytes_out t)
        (saturating_add_u64 (to_capture_dropped t) 1) (to_last_recv_ts t) (to_last_send_ts t)
        (to_opcodes t))))
  end.

(** [send]: the bytes count as written only when the stream took them all. *)
Definition send (data : list Z) : Ch unit :=
  do? capture_packet in
  let? ok := ask (env_write_ok env) in
  if negb ok then throw Chan_Io
  else
    do? log_event (Ev_Wrote data) in
    let? ts := elapsed_now in
    modify (ch_on_totals (fun t => mkTotals (to_bytes_in t) (to_bytes_out t + zlen data)
      (to_capture_dropped t) (to_last_recv_ts t) (Some ts) (to_opcodes t))).

(** ** Reading *)

Definition run_buffer {A} (m : Rb A) : Ch A := fun s =>
  match m (ch_buffer s) with
  | (Ok a, b) => (Ok a, ch_on_buffer (fun _ => b) s)
  | (Err e, b) => (Err (Chan_Framing e), ch_on_buffer (fun _ => b) s)
  | (Panic, b) => (Panic, ch_on_buffer (fun _ => b) s)
  end.

Context (handle_message : Z -> list Z -> Ch unit).

(** The [while] of [process_messages]; a message takes at least its header
    from the buffer, so the bytes buffered are rounds enough. *)
Fixpoint process_loop (fuel : nat) : Ch unit :=
  match fuel with
  | O => panic
  | Datatypes.S fuel =>
      let? message := run_buffer (take_message MAX_MESSAGE_BODY) in
      match message with
      | None => ret tt
      | Some message =>
          let? payload := unwrap (ReceivedMessage_payload message) in
          let msg_type := message_type (rm_header message) in
          do? log_event (Ev_Received msg_type payload) in
          do? handle_message msg_type payload in
          process_loop fuel
      end
  end.

Definition process_messages : Ch unit :=
  let? buffer := gets ch_buffer in
  process_loop (Datatypes.S (length (rb_data buffer))).

(** What one successful [read] of the socket does. *)
Definition take_read (chunk : list Z) : Ch unit :=
  do? capture_packet in
  do? run_buffer (rb_extend_from_slice chunk) in
  do? modify (ch_on_totals (fun t => mkTotals (to_bytes_in t + zlen chunk) (to_bytes_out t)
        (to_capture_dropped t) (to_last_recv_ts t) (to_last_send_ts t) (to_opcodes t))) in
  let? ts := elapsed_now in
  do? modify (ch_on_totals (fun t => mkTotals (to_bytes_in t) (to_bytes_out t)
        (to_capture_dropped t) (Some ts) (to_last_send_ts t) (to_opcodes t))) in
  process_messages.

End Effects.

(** ** Messages *)

Section Decoding.
Context {S T : Type} `{WireType T}.

(** A body that must parse: [decode(payload).context(..)?]. *)
Definition must_decode (msg_type : Z) (payload : list Z) : M ChannelError S T :=
  match decode payload with
  | Ok v => ret v
  | Err e => throw (Chan_Malformed msg_type e)
  | Panic => panic
  end.

(** A body whose parse failure has an arm of its own. *)
Definition try_decode (payload : list Z) : M ChannelError S (option T) :=
  match decode payload with
  | Ok v => ret (Some v)
  | Err _ => ret None
  | Panic => panic
  end.

End Decoding.
