(* ===== verification/ChannelSpec.v ===== *)
(** A Hoare logic for the channels, and the rule of the loop they share.

    [triple P m Q R] is total: from a state in [P] the computation does not
    panic, and ends in [Q] or, when it fails, in [R].  [keeps] is the triple of
    an operation that keeps an invariant.  [triple_take_read] says what a read
    keeps, given that each message it completes keeps it, and [triple_deliver]
    which messages those are: the receive buffer of [ReceiveBuffer.v] is dealt
    with here, once for all channels. *)
From Stdlib Require Import ZArith Lia.
From stdpp Require Import base numbers list gmap tactics.
From S2P Require Import Prelude Reader Wire MsgCommon ReceiveBuffer LinkMess OpcodeCounters Channel.

Open Scope Z_scope.
Open Scope rust_scope.

(** * The logic *)

Section Logic.
Context {E S : Type}.
Implicit Types P : S -> Prop.

Definition triple {A} P (m : M E S A) (Q : A -> S -> Prop) (R : S -> Prop) : Prop :=
  forall s, P s ->
  match m s with
  | (Ok a, s') => Q a s'
  | (Err _, s') => R s'
  | (Panic, _) => False
  end.

Lemma triple_bind {A C} P (m : M E S A) (k : A -> M E S C) Q Q' R :
  triple P m Q R -> (forall a, triple (Q a) (k a) Q' R) -> triple P (bind m k) Q' R.
Proof.
  intros Hm Hk s HP. unfold bind. specialize (Hm s HP).
  destruct (m s) as [[a|e|] s']; [by apply Hk|done|done].
Qed.

Lemma triple_bind_ret {A C} P (a : A) (k : A -> M E S C) Q R :
  triple P (k a) Q R -> triple P (bind (ret a) k) Q R.
Proof. done. Qed.

Lemma triple_ret {A} P (a : A) (Q : A -> S -> Prop) R :
  (forall s, P s -> Q a s) -> triple P (ret a) Q R.
Proof. intros H s Hs. by apply H. Qed.

Lemma triple_conseq {A} P P' (m : M E S A) Q Q' (R R' : S -> Prop) :
  triple P' m Q' R' -> (forall s, P s -> P' s) -> (forall a s, Q' a s -> Q a s) ->
  (forall s, R' s -> R s) -> triple P m Q R.
Proof.
  intros Hm HP HQ HR s Hs. specialize (Hm s (HP s Hs)).
  destruct (m s) as [[a|e|] s']; auto.
Qed.

Lemma triple_pre {A} P P' (m : M E S A) Q R :
  triple P' m Q R -> (forall s, P s -> P' s) -> triple P m Q R.
Proof. intros Hm HP. by eapply triple_conseq. Qed.

Lemma bind_ok {A C} (m : M E S A) (k : A -> M E S C) s a s' :
  m s = (Ok a, s') -> bind m k s = k a s'.
Proof. intros Em. unfold bind. by rewrite Em. Qed.

Lemma bind_err {A C} (m : M E S A) (k : A -> M E S C) s e s' :
  m s = (Err e, s') -> bind m k s = (Err e, s').
Proof. intros Em. unfold bind. by rewrite Em. Qed.

End Logic.

(** [m] keeps every [I] of the family, and leaves [R] when it fails. *)
Definition keeps {S D A} (I : D -> S -> Prop) (R : S -> Prop) (m : M ChannelError S A) : Prop :=
  forall d, triple (I d) m (fun _ => I d) R.

Section Keeps.
Context {S D : Type} (I : D -> S -> Prop) (R : S -> Prop).
Context (IR : forall d s, I d s -> R s).

Lemma keeps_ret {A} (a : A) : keeps I R (ret a : M ChannelError S A).
Proof. by intros d s Hs. Qed.

Lemma keeps_throw {A} e : keeps I R (throw e : M ChannelError S A).
Proof. intros d s Hs. by eapply IR. Qed.

Lemma keeps_bind {A C} (m : M ChannelError S A) (k : A -> M ChannelError S C) :
  keeps I R m -> (forall a, keeps I R (k a)) -> keeps I R (bind m k).
Proof. intros Hm Hk d. eapply triple_bind; [apply Hm|]. intros a. apply Hk. Qed.

End Keeps.

Section KeepsChannel.
Context {S D : Type} `{ChannelState S} (I : D -> S -> Prop) (R : S -> Prop).

Lemma keeps_when b (m : M ChannelError S unit) :
  (b = true -> keeps I R m) -> keeps I R (when b m).
Proof. destruct b; intros Hm; [by apply Hm|apply keeps_ret]. Qed.

Lemma keeps_modify f : (forall d s, I d s -> I d (f s)) -> keeps I R (modify f).
Proof. intros Hf d s Hs. by apply Hf. Qed.

Lemma keeps_gets {A} (f : S -> A) : keeps I R (gets f).
Proof. by intros d s Hs. Qed.

Lemma keeps_ask {A} (f : nat -> A) : (forall d s, I d s -> I d (ch_on_turn Datatypes.S s)) ->
  keeps I R (ask f).
Proof. intros Hf d s Hs. by apply Hf. Qed.

End KeepsChannel.

(** * Reading *)

(** The buffer is a field of its own. *)
Class ChannelLaws (S : Type) `{ChannelState S} : Prop := {
  on_buffer_buffer f (s : S) : ch_buffer (ch_on_buffer f s) = f (ch_buffer s);
  on_totals_buffer f (s : S) : ch_buffer (ch_on_totals f s) = ch_buffer s;
  on_log_buffer f (s : S) : ch_buffer (ch_on_log f s) = ch_buffer s;
  on_turn_buffer f (s : S) : ch_buffer (ch_on_turn f s) = ch_buffer s
}.

(** A state with a message just recorded as received. *)
Definition heard {S} `{ChannelState S} (ty : Z) (payload : list Z) (s : S) : S :=
  ch_on_log (fun l => l ++ [Ev_Received ty payload]) s.

(** A message as it is handled, of the bytes framed. *)
Definition message_of (raw : list Z) : Z * list Z := (from_le (take 2 raw), drop 6 raw).

Lemma frame_message max bs h raw rest : bytes bs -> frame_one max bs = Frame h raw rest ->
  message_of raw = (message_type h, drop 6 raw) /\ slice raw 6 (zlen raw) = Some (drop 6 raw).
Proof.
  intros Hb E. destruct (frame_one_Frame _ _ _ _ _ Hb E) as (_ & _ & Hraw & Hsz).
  unfold MessageHeader_SIZE in Hraw. rewrite slice_Some by lia. split.
  - unfold frame_one in E. destruct (_ <? _); [done|]. destruct (_ <? _); [done|].
    destruct (_ <? _); [done|]. injection E as <- <- _. unfold message_of. cbn [message_type].
    rewrite take_take. do 3 f_equal. cbn [message_size] in Hsz. unfold MessageHeader_SIZE. lia.
  - rewrite take_ge; [done|]. rewrite length_drop. unfold zlen. lia.
Qed.

Section Delivery.
Context {S : Type} `{CL : ChannelLaws S} (env : Env).
Context (handle_message : Z -> list Z -> M ChannelError S unit).

(** What is true once the messages [ms] were handled, which leaves the buffer
    to this section; what a failure leaves of it; and that handling one more,
    which does not touch the buffer, leads to the next. *)
Context (I : list (Z * list Z) -> S -> Prop) (R : S -> Prop).
Context (I_buffer : forall ms f s, I ms s -> I ms (ch_on_buffer f s)).
Context (I_totals : forall ms f s, I ms s -> I ms (ch_on_totals f s)).
Context (I_turn : forall ms s, I ms s -> I ms (ch_on_turn Datatypes.S s)).
Context (I_failed : forall ms s, I ms s -> R s).
Context (I_message : forall ms b ty payload, rb_ok b -> bytes payload -> zlen payload <= isize_max ->
  triple (fun s => exists s0, I ms s0 /\ ch_buffer s0 = b /\ s = heard ty payload s0)
    (handle_message ty payload) (fun _ s => I (ms ++ [(ty, payload)]) s /\ ch_buffer s = b) R).

(** [w] waits to be framed. *)
Definition waits (ms : list (Z * list Z)) (w : list Z) (s : S) : Prop :=
  rb_ok (ch_buffer s) /\ I ms s /\ waiting (ch_buffer s) = w.

(** The messages framed in [bs] were handled, in order, and what is left of it
    holds no whole message. *)
Definition delivered (ms : list (Z * list Z)) (bs : list Z) (s : S) : Prop :=
  rb_ok (ch_buffer s) /\ exists raws, I (ms ++ map message_of raws) s /\
    framed MAX_MESSAGE_BODY bs raws false (waiting (ch_buffer s)).

Lemma triple_process fuel : forall ms w, (length w < fuel)%nat ->
  triple (waits ms w) (process_loop handle_message fuel) (fun _ => delivered ms w) R.
Proof.
  induction fuel as [|fuel IH]; intros ms w Hf s (Hok & Hs & Hw); [lia|]. cbn [process_loop].
  pose proof (take_message_refines MAX_MESSAGE_BODY (ch_buffer s) Hok) as Ht.
  pose proof (bytes_waiting _ Hok) as Hbw. rewrite Hw in Ht, Hbw. unfold bind at 1, run_buffer.
  destruct (frame_one MAX_MESSAGE_BODY w) as [| |h raw rest] eqn:Eframe.
  { rewrite Ht. cbn. unfold delivered. rewrite on_buffer_buffer. split; [done|]. exists [].
    rewrite app_nil_r, Hw. split; [by apply I_buffer|by apply framed_more]. }
  { rewrite Ht. cbn. by eapply I_failed, I_buffer. }
  destruct Ht as (b' & -> & Hok' & Hw' & _ & _). cbn [snd fst].
  destruct (frame_one_Frame _ _ _ _ _ Hbw Eframe) as (Hbs & Hbr & Hraw & Hsz).
  destruct (frame_message _ _ _ _ _ Hbw Eframe) as [Hmsg Hpay].
  unfold ReceivedMessage_payload, MessageHeader_SIZE in *. cbn [rm_raw rm_header].
  rewrite Hpay, (bind_ok (unwrap (Some _)) _ _ _ _ eq_refl), (bind_ok (log_event _) _ _ _ _ eq_refl).
  set (payload := drop 6 raw) in *. set (s1 := ch_on_buffer (fun _ => b') s).
  assert (bytes payload) as Hbp.
  { apply Forall_drop. rewrite Hbs in Hbw. by apply list.Forall_app in Hbw as [? _]. }
  assert (zlen payload <= isize_max) as Hlp.
  { unfold payload. rewrite (zlen_drop 6). unfold MAX_MESSAGE_BODY, isize_max in *. lia. }
  assert (ch_buffer s1 = b') as Hb1 by by unfold s1; rewrite on_buffer_buffer.
  pose proof (I_message ms b' (message_type h) payload Hok' Hbp Hlp (heard (message_type h) payload s1)
    ltac:(exists s1; split; [by apply I_buffer|done])) as Hm.
  change (ch_on_log (fun l => l ++ [Ev_Received (message_type h) payload]) s1)
    with (heard (message_type h) payload s1).
  unfold bind. destruct (handle_message (message_type h) payload _) as [[[]|e|] s2]; [|done|done].
  destruct Hm as [Hi2 Hb2].
  assert (length rest < fuel)%nat as Hf' by (rewrite Hbs, length_app in Hf; unfold zlen in Hraw; lia).
  specialize (IH (ms ++ [(message_type h, payload)]) rest Hf' s2 ltac:(unfold waits; by rewrite Hb2)).
  destruct (process_loop handle_message fuel s2) as [[[]|e|] s3]; [|done|done].
  destruct IH as (Hok3 & raws & Hi3 & Hfr). split; [done|]. exists (raw :: raws). split.
  - cbn [map]. by rewrite Hmsg, cons_middle, app_assoc.
  - by eapply framed_cons.
Qed.

Lemma triple_process_messages ms w :
  triple (waits ms w) (process_messages handle_message) (fun _ => delivered ms w) R.
Proof.
  intros s Hs. unfold process_messages. rewrite (bind_ok (gets _) _ _ _ _ eq_refl).
  apply triple_process; [|done]. destruct Hs as (_ & _ & <-). unfold waiting. rewrite length_drop. lia.
Qed.

Lemma waits_totals ms w f s : waits ms w s -> waits ms w (ch_on_totals f s).
Proof. intros (Hb & Hs & Hw). split; [|split]; rewrite ?on_totals_buffer; [done|by apply I_totals|done]. Qed.

Lemma waits_turn ms w s : waits ms w s -> waits ms w (ch_on_turn Datatypes.S s).
Proof. intros (Hb & Hs & Hw). split; [|split]; rewrite ?on_turn_buffer; [done|by apply I_turn|done]. Qed.

Lemma triple_deliver ms w chunk : bytes chunk ->
  triple (waits ms w) (take_read env handle_message chunk) (fun _ => delivered ms (w ++ chunk)) R.
Proof.
  intros Hb. unfold take_read. eapply (triple_bind _ _ _ (fun _ => waits ms w)).
  { unfold capture_packet. destruct (env_capture env) as [room|]; [|by intros s Hs].
    intros s Hs. unfold bind, ask. apply waits_turn in Hs. destruct (room (ch_turn s)); [done|].
    by apply waits_totals. }
  intros ?. eapply (triple_bind _ _ _ (fun _ => waits ms (w ++ chunk))).
  { intros s (Hok & Hs & <-). unfold run_buffer.
    destruct (extend_refines chunk (ch_buffer s) Hok Hb) as (b' & -> & Hok' & Hw' & _).
    split; [|split]; rewrite ?on_buffer_buffer; [done|by apply I_buffer|done]. }
  intros ?. eapply (triple_bind _ _ _ (fun _ => waits ms (w ++ chunk))); [intros s; apply waits_totals|].
  intros ?. eapply (triple_bind _ _ _ (fun _ => waits ms (w ++ chunk))); [intros s; apply waits_turn|].
  intros ts. eapply (triple_bind _ _ _ (fun _ => waits ms (w ++ chunk))); [intros s; apply waits_totals|].
  intros ?. apply triple_process_messages.
Qed.

End Delivery.

Section Reading.
Context {S : Type} `{CL : ChannelLaws S} (env : Env).
Context (handle_message : Z -> list Z -> M ChannelError S unit).

(** An invariant that leaves the buffer to the delivery, what a failure leaves
    of it, and that a message keeps it without touching the buffer. *)
Context (I R : S -> Prop).
Context (I_buffer : forall f s, I s -> I (ch_on_buffer f s)).
Context (I_totals : forall f s, I s -> I (ch_on_totals f s)).
Context (I_turn : forall s, I s -> I (ch_on_turn Datatypes.S s)).
Context (I_failed : forall s, I s -> R s).
Context (I_message : forall b ty payload, rb_ok b -> bytes payload -> zlen payload <= isize_max ->
  triple (fun s => exists s0, I s0 /\ ch_buffer s0 = b /\ s = heard ty payload s0)
    (handle_message ty payload) (fun _ s => I s /\ ch_buffer s = b) R).

Definition buffered (s : S) : Prop := rb_ok (ch_buffer s) /\ I s.

Lemma triple_take_read chunk : bytes chunk ->
  triple buffered (take_read env handle_message chunk) (fun _ => buffered) R.
Proof.
  intros Hb s [Hok Hs].
  pose proof (triple_deliver env handle_message (fun _ => I) R (fun _ => I_buffer) (fun _ => I_totals)
    (fun _ => I_turn) (fun _ => I_failed) (fun _ => I_message) [] _ chunk Hb s
    ltac:(split; [done|split; [done|reflexivity]])) as Hd.
  destruct (take_read env handle_message chunk s) as [[[]|e|] s']; [|done|done].
  destruct Hd as (Hok' & raws & Hs' & _). by split.
Qed.

End Reading.

(** * Writing *)

Section Writing.
Context {S : Type} `{ChannelState S} (env : Env).

(** Before and after the bytes are written; neither reads the totals or the
    turn. *)
Context (P Q R : S -> Prop) (data : list Z).
Context (P_totals : forall f s, P s -> P (ch_on_totals f s)).
Context (P_turn : forall s, P s -> P (ch_on_turn Datatypes.S s)).
Context (Q_totals : forall f s, Q s -> Q (ch_on_totals f s)).
Context (Q_turn : forall s, Q s -> Q (ch_on_turn Datatypes.S s)).
Context (P_wrote : forall s, P s -> Q (ch_on_log (fun l => l ++ [Ev_Wrote data]) s)).
Context (P_failed : forall s, P s -> R s).

Lemma triple_written : triple P (send env data) (fun _ => Q) R.
Proof.
  unfold send. eapply (triple_bind _ _ _ (fun _ => P)).
  { unfold capture_packet. destruct (env_capture env) as [room|]; [|by intros s Hs].
    intros s Hs. unfold bind, ask. apply P_turn in Hs. destruct (room (ch_turn s)); [done|].
    by apply P_totals. }
  intros ?. eapply (triple_bind _ _ _ (fun _ => P)); [by intros s; apply P_turn|].
  intros [|]; [|by intros s; apply P_failed]. cbn [negb].
  eapply (triple_bind _ _ _ (fun _ => Q)); [by intros s; apply P_wrote|].
  intros ?. eapply (triple_bind _ _ _ (fun _ => Q)); [by intros s; apply Q_turn|].
  intros ts s. apply Q_totals.
Qed.

End Writing.
