(* ===== verification/MainState.v ===== *)
(** The main channel's state and effects: the [MainChannel] struct of
    [shakenfist-spice-renderer/src/channels/main_channel.rs], and the clock of
    [mm_clock.rs].

    The struct's fields are grouped into records by what they are about.  A
    handler is a computation of the monad [Mc] on that state, with the effects
    of [Channel.v]. *)
From Stdlib Require Import ZArith Lia.
From stdpp Require Import base numbers list gmap tactics.
From S2P Require Import Prelude Reader MsgCommon ReceiveBuffer AgentStream LinkMess AgentQueue OpcodeCounters Clipboard Channel.

Open Scope Z_scope.
Open Scope rust_scope.

(** * The multimedia clock *)

Record MmClock : Type := mkMmClock {
  mm_base_time : Z;
  mm_base_instant : Z;
  mm_set_count : Z;
  mm_last_set_ts : option Z
}.

(** [MmClock::new], with the instant it reads. *)
Definition MmClock_new (now : Z) : MmClock := mkMmClock 0 now 0 None.

(** [MmClock::set], with the instant it reads. *)
Definition mm_set (mm_time traffic_elapsed now : Z) (self : MmClock) : MmClock :=
  mkMmClock mm_time now (saturating_add_u64 (mm_set_count self) 1) (Some traffic_elapsed).

Definition compute_now (base_mm_time base_instant now_instant : Z) : Z :=
  let elapsed_ms := as_unsigned 32 (saturating_duration_since now_instant base_instant / 1000000) in
  as_unsigned 32 (base_mm_time + elapsed_ms).

(** [MmClock::now], with the instant it reads. *)
Definition mm_now (now : Z) (self : MmClock) : Z :=
  compute_now (mm_base_time self) (mm_base_instant self) now.

(** The clock is the server's plus the whole milliseconds since it was set,
    around the 2^32 ms wrap. *)
Lemma mm_now_set t elapsed at' now clock : at' <= now ->
  mm_now now (mm_set t elapsed at' clock) = (t + (now - at') / 1000000) mod 2 ^ 32.
Proof.
  intros H. unfold mm_now, compute_now, mm_set, saturating_duration_since, saturating_sub, as_unsigned.
  cbn [mm_base_time mm_base_instant]. rewrite Z.max_r by lia. by rewrite Zplus_mod_idemp_r.
Qed.

(** * The state *)

Record Agent : Type := mkAgent {
  ag_connected : bool;
  ag_tokens : Z;
  ag_queue : AgentSendQueue;
  ag_stream : AgentReassembler;
  ag_caps_announced : bool;
  ag_guest_caps : bool;
  ag_clip_selection : option bool
}.

Record Resize : Type := mkResize {
  rz_open : bool;
  rz_pending : option (Z * Z);
  rz_debounce : option Z;
  rz_last_sent : option (Z * Z)
}.

(** [agent_starved_since] and what goes with it. *)
Record Starvation : Type := mkStarvation {
  st_since : option Z;
  st_since_ts : option Z;
  st_stall_count : Z;
  st_last_notified : option Z
}.

(** The reply bookkeeping. *)
Record Replies : Type := mkReplies {
  re_send_ts : gmap Z Z;
  re_request_count : Z;
  re_reply_count : Z;
  re_error_count : Z;
  re_last_ts : option Z;
  re_last_lag : option Z;
  re_recent_lags : list Z;
  re_outstanding : Z
}.

Record Session : Type := mkSession {
  se_id : option Z;
  se_channels_requested : bool;
  se_mouse_request_pending : bool;
  se_mouse_mode : option Z;
  se_init_signal : bool;
  se_channels_signal : bool
}.

Record Pings : Type := mkPings {
  pi_last_at : option Z;
  pi_recv_count : Z;
  pi_pong_count : Z;
  pi_last_recv_ts : option Z
}.

Record ClipState : Type := mkClipState {
  cl_last_hash : option Z;
  cl_last_generation : option Z
}.

Record MainChannel (B : Type) : Type := mkMainChannel {
  mc_buffer : ReceiveBuffer;
  mc_monitors : Z;
  mc_session : Session;
  mc_agent : Agent;
  mc_resize : Resize;
  mc_starved : Starvation;
  mc_replies : Replies;
  mc_clip : ClipState;
  mc_clipboard : option B;
  mc_totals : Totals;
  mc_pings : Pings;
  mc_mm_clock : MmClock;
  mc_log : list Event;
  mc_turn : nat
}.
Arguments mkMainChannel {B}.
Arguments mc_buffer {B}. Arguments mc_monitors {B}. Arguments mc_session {B}.
Arguments mc_agent {B}. Arguments mc_resize {B}. Arguments mc_starved {B}.
Arguments mc_replies {B}. Arguments mc_clip {B}. Arguments mc_clipboard {B}.
Arguments mc_totals {B}. Arguments mc_pings {B}. Arguments mc_mm_clock {B}.
Arguments mc_log {B}. Arguments mc_turn {B}.

(** [MainChannel::new]; [clock] is a clock already made by the session. *)
Definition MainChannel_new {B} (monitors : Z) (clipboard : option B) (clock : MmClock)
  : MainChannel B :=
  mkMainChannel rb_new monitors
    (mkSession None false false None true true)
    (mkAgent false 0 AgentSendQueue_default AgentReassembler_default false false None)
    (mkResize true None None None)
    (mkStarvation None None 0 None)
    (mkReplies ∅ 0 0 0 None None [] 0)
    (mkClipState None None)
    clipboard
    Totals_new
    (mkPings None 0 0 None)
    clock [] 0.

(** ** Updates, a group at a time *)

Section Updates.
Context {B : Type}.
Implicit Type c : MainChannel B.

Definition on_buffer (f : ReceiveBuffer -> ReceiveBuffer) c : MainChannel B :=
  mkMainChannel (f (mc_buffer c)) (mc_monitors c) (mc_session c) (mc_agent c) (mc_resize c)
    (mc_starved c) (mc_replies c) (mc_clip c) (mc_clipboard c) (mc_totals c) (mc_pings c)
    (mc_mm_clock c) (mc_log c) (mc_turn c).
Definition on_session (f : Session -> Session) c : MainChannel B :=
  mkMainChannel (mc_buffer c) (mc_monitors c) (f (mc_session c)) (mc_agent c) (mc_resize c)
    (mc_starved c) (mc_replies c) (mc_clip c) (mc_clipboard c) (mc_totals c) (mc_pings c)
    (mc_mm_clock c) (mc_log c) (mc_turn c).
Definition on_agent (f : Agent -> Agent) c : MainChannel B :=
  mkMainChannel (mc_buffer c) (mc_monitors c) (mc_session c) (f (mc_agent c)) (mc_resize c)
    (mc_starved c) (mc_replies c) (mc_clip c) (mc_clipboard c) (mc_totals c) (mc_pings c)
    (mc_mm_clock c) (mc_log c) (mc_turn c).
Definition on_resize (f : Resize -> Resize) c : MainChannel B :=
  mkMainChannel (mc_buffer c) (mc_monitors c) (mc_session c) (mc_agent c) (f (mc_resize c))
    (mc_starved c) (mc_replies c) (mc_clip c) (mc_clipboard c) (mc_totals c) (mc_pings c)
    (mc_mm_clock c) (mc_log c) (mc_turn c).
Definition on_starved (f : Starvation -> Starvation) c : MainChannel B :=
  mkMainChannel (mc_buffer c) (mc_monitors c) (mc_session c) (mc_agent c) (mc_resize c)
    (f (mc_starved c)) (mc_replies c) (mc_clip c) (mc_clipboard c) (mc_totals c) (mc_pings c)
    (mc_mm_clock c) (mc_log c) (mc_turn c).
Definition on_replies (f : Replies -> Replies) c : MainChannel B :=
  mkMainChannel (mc_buffer c) (mc_monitors c) (mc_session c) (mc_agent c) (mc_resize c)
    (mc_starved c) (f (mc_replies c)) (mc_clip c) (mc_clipboard c) (mc_totals c) (mc_pings c)
    (mc_mm_clock c) (mc_log c) (mc_turn c).
Definition on_clip (f : ClipState -> ClipState) c : MainChannel B :=
  mkMainChannel (mc_buffer c) (mc_monitors c) (mc_session c) (mc_agent c) (mc_resize c)
    (mc_starved c) (mc_replies c) (f (mc_clip c)) (mc_clipboard c) (mc_totals c) (mc_pings c)
    (mc_mm_clock c) (mc_log c) (mc_turn c).
Definition on_clipboard (f : option B -> option B) c : MainChannel B :=
  mkMainChannel (mc_buffer c) (mc_monitors c) (mc_session c) (mc_agent c) (mc_resize c)
    (mc_starved c) (mc_replies c) (mc_clip c) (f (mc_clipboard c)) (mc_totals c) (mc_pings c)
    (mc_mm_clock c) (mc_log c) (mc_turn c).
Definition on_totals (f : Totals -> Totals) c : MainChannel B :=
  mkMainChannel (mc_buffer c) (mc_monitors c) (mc_session c) (mc_agent c) (mc_resize c)
    (mc_starved c) (mc_replies c) (mc_clip c) (mc_clipboard c) (f (mc_totals c)) (mc_pings c)
    (mc_mm_clock c) (mc_log c) (mc_turn c).
Definition on_pings (f : Pings -> Pings) c : MainChannel B :=
  mkMainChannel (mc_buffer c) (mc_monitors c) (mc_session c) (mc_agent c) (mc_resize c)
    (mc_starved c) (mc_replies c) (mc_clip c) (mc_clipboard c) (mc_totals c) (f (mc_pings c))
    (mc_mm_clock c) (mc_log c) (mc_turn c).
Definition on_mm_clock (f : MmClock -> MmClock) c : MainChannel B :=
  mkMainChannel (mc_buffer c) (mc_monitors c) (mc_session c) (mc_agent c) (mc_resize c)
    (mc_starved c) (mc_replies c) (mc_clip c) (mc_clipboard c) (mc_totals c) (mc_pings c)
    (f (mc_mm_clock c)) (mc_log c) (mc_turn c).
Definition on_log (f : list Event -> list Event) c : MainChannel B :=
  mkMainChannel (mc_buffer c) (mc_monitors c) (mc_session c) (mc_agent c) (mc_resize c)
    (mc_starved c) (mc_replies c) (mc_clip c) (mc_clipboard c) (mc_totals c) (mc_pings c)
    (mc_mm_clock c) (f (mc_log c)) (mc_turn c).
Definition on_turn (f : nat -> nat) c : MainChannel B :=
  mkMainChannel (mc_buffer c) (mc_monitors c) (mc_session c) (mc_agent c) (mc_resize c)
    (mc_starved c) (mc_replies c) (mc_clip c) (mc_clipboard c) (mc_totals c) (mc_pings c)
    (mc_mm_clock c) (mc_log c) (f (mc_turn c)).
End Updates.

Definition ag_set_connected (v : bool) (a : Agent) : Agent :=
  mkAgent v (ag_tokens a) (ag_queue a) (ag_stream a) (ag_caps_announced a) (ag_guest_caps a)
    (ag_clip_selection a).
Definition ag_set_tokens (v : Z) (a : Agent) : Agent :=
  mkAgent (ag_connected a) v (ag_queue a) (ag_stream a) (ag_caps_announced a) (ag_guest_caps a)
    (ag_clip_selection a).
Definition ag_set_queue (v : AgentSendQueue) (a : Agent) : Agent :=
  mkAgent (ag_connected a) (ag_tokens a) v (ag_stream a) (ag_caps_announced a) (ag_guest_caps a)
    (ag_clip_selection a).
Definition ag_set_stream (v : AgentReassembler) (a : Agent) : Agent :=
  mkAgent (ag_connected a) (ag_tokens a) (ag_queue a) v (ag_caps_announced a) (ag_guest_caps a)
    (ag_clip_selection a).
Definition ag_set_caps_announced (v : bool) (a : Agent) : Agent :=
  mkAgent (ag_connected a) (ag_tokens a) (ag_queue a) (ag_stream a) v (ag_guest_caps a)
    (ag_clip_selection a).
Definition ag_set_guest_caps (v : bool) (a : Agent) : Agent :=
  mkAgent (ag_connected a) (ag_tokens a) (ag_queue a) (ag_stream a) (ag_caps_announced a) v
    (ag_clip_selection a).
Definition ag_set_clip_selection (v : option bool) (a : Agent) : Agent :=
  mkAgent (ag_connected a) (ag_tokens a) (ag_queue a) (ag_stream a) (ag_caps_announced a)
    (ag_guest_caps a) v.

Definition rz_set_open (v : bool) (r : Resize) : Resize :=
  mkResize v (rz_pending r) (rz_debounce r) (rz_last_sent r).
Definition rz_set_pending (v : option (Z * Z)) (r : Resize) : Resize :=
  mkResize (rz_open r) v (rz_debounce r) (rz_last_sent r).
Definition rz_set_debounce (v : option Z) (r : Resize) : Resize :=
  mkResize (rz_open r) (rz_pending r) v (rz_last_sent r).
Definition rz_set_last_sent (v : option (Z * Z)) (r : Resize) : Resize :=
  mkResize (rz_open r) (rz_pending r) (rz_debounce r) v.

Definition se_set_id (v : option Z) (s : Session) : Session :=
  mkSession v (se_channels_requested s) (se_mouse_request_pending s) (se_mouse_mode s)
    (se_init_signal s) (se_channels_signal s).
Definition se_set_channels_requested (v : bool) (s : Session) : Session :=
  mkSession (se_id s) v (se_mouse_request_pending s) (se_mouse_mode s)
    (se_init_signal s) (se_channels_signal s).
Definition se_set_mouse_request_pending (v : bool) (s : Session) : Session :=
  mkSession (se_id s) (se_channels_requested s) v (se_mouse_mode s)
    (se_init_signal s) (se_channels_signal s).
Definition se_set_mouse_mode (v : option Z) (s : Session) : Session :=
  mkSession (se_id s) (se_channels_requested s) (se_mouse_request_pending s) v
    (se_init_signal s) (se_channels_signal s).
Definition se_set_init_signal (v : bool) (s : Session) : Session :=
  mkSession (se_id s) (se_channels_requested s) (se_mouse_request_pending s) (se_mouse_mode s)
    v (se_channels_signal s).
Definition se_set_channels_signal (v : bool) (s : Session) : Session :=
  mkSession (se_id s) (se_channels_requested s) (se_mouse_request_pending s) (se_mouse_mode s)
    (se_init_signal s) v.

(** * Effects *)

Abbreviation Mc B := (M ChannelError (MainChannel B)).

#[export] Instance MainChannel_state {B} : ChannelState (MainChannel B) := {|
  ch_buffer := mc_buffer;
  ch_on_buffer := on_buffer;
  ch_on_totals := on_totals;
  ch_on_log := on_log;
  ch_turn := mc_turn;
  ch_on_turn := on_turn
|}.

Section Effects.
Context {B : Type} (env : Env).

Definition publish_mouse_mode (mode : Z) : Mc B unit := log_event (Ev_MouseMode mode).
Definition publish_agent_connected : Mc B unit :=
  let? connected := gets (fun s => ag_connected (mc_agent s)) in
  log_event (Ev_AgentConnected connected).

Definition emit_session_ended (reason : DisconnectReason) : Mc B unit :=
  log_event (Ev_Terminal (CE_Disconnected Ch_Main reason)).

(** [send_with_log], less the log line and the snapshot. *)
Definition send_with_log (msg_type : Z) (data : list Z) : Mc B unit :=
  do? log_event (Ev_Sent msg_type data) in
  do? count_opcodes (record_send msg_type) in
  send env data.

End Effects.
