(* ===== verification/MainAgent.v ===== *)
(** The main channel's guest-agent side:
    [shakenfist-spice-renderer/src/channels/main_channel.rs].

    One definition per function or method, under the source's name: what is
    sent to the agent and the token-paced queue it goes through, what arrives
    from it, the clipboard in both directions, and the display size the agent
    is asked for. *)
From Stdlib Require Import ZArith Lia String.
From stdpp Require Import base numbers list gmap tactics.
From S2P Require Import Prelude Reader Utf8 Wire MsgCommon MsgMain MsgVdAgent AgentStream AgentQueue OpcodeCounters Clipboard Channel MainState.

Open Scope Z_scope.
Open Scope rust_scope.

(** * Constants *)

Definition VD_AGENT_MONITORS_CONFIG : Z := 2.
Definition VD_AGENT_REPLY : Z := 3.
Definition VD_AGENT_CLIPBOARD : Z := 4.
Definition VD_AGENT_ANNOUNCE_CAPABILITIES : Z := 6.
Definition VD_AGENT_CLIPBOARD_GRAB : Z := 7.
Definition VD_AGENT_CLIPBOARD_REQUEST : Z := 8.
Definition VD_AGENT_CLIPBOARD_RELEASE : Z := 9.
Definition VD_AGENT_CONFIG_MONITORS_FLAG_USE_POS : Z := Z.shiftl 1 0.
Definition VD_AGENT_CLIPBOARD_NONE : Z := 0.
Definition VD_AGENT_CLIPBOARD_UTF8_TEXT : Z := 1.
Definition VD_AGENT_CAP_MOUSE_STATE : Z := 0.
Definition VD_AGENT_CAP_MONITORS_CONFIG : Z := 1.
Definition VD_AGENT_CAP_REPLY : Z := 2.
Definition VD_AGENT_CAP_CLIPBOARD_BY_DEMAND : Z := 5.
Definition VD_AGENT_CAP_CLIPBOARD_SELECTION : Z := 6.

Definition main_client_ATTACH_CHANNELS : Z := 104.
Definition main_client_MOUSE_MODE_REQUEST : Z := 105.
Definition main_client_AGENT_START : Z := 106.
Definition main_client_AGENT_DATA : Z := 107.

Definition REPLY_ELIGIBLE_AGENT_REQUEST_TYPES : list Z := [VD_AGENT_MONITORS_CONFIG].
Definition MAX_RECENT_AGENT_REPLIES : Z := 16.
Definition MAX_OUTSTANDING_AGENT_REQUESTS : Z := 99.

(** * Pure functions *)

Definition client_agent_capabilities : AnnounceCapabilities :=
  foldl set_capability (mkAnnounceCapabilities 1 [])
    [VD_AGENT_CAP_MOUSE_STATE; VD_AGENT_CAP_MONITORS_CONFIG; VD_AGENT_CAP_REPLY;
     VD_AGENT_CAP_CLIPBOARD_BY_DEMAND; VD_AGENT_CAP_CLIPBOARD_SELECTION].

Definition agent_message (ty : Z) (payload : list Z) : list Z :=
  write (VdAgentMessageHeader_new ty (as_unsigned 32 (zlen payload))) [] <+ payload.

Section Monitors.
Context `{BuildProfile}.

(** [width * i] on [u32]: [None] is the overflow panic of a checked build. *)
Definition mul_u32 (a b : Z) : option Z :=
  if arithmetic_checked then if a * b <=? u32_max then Some (a * b) else None
  else Some (as_unsigned 32 (a * b)).

(** The monitors from the [i]th of [n] on. *)
Fixpoint agent_monitors (active width height : Z) (i : Z) (n : nat) : option (list MonConfig) :=
  match n with
  | O => Some []
  | S n =>
      x ← (if 1 <? active then x ← mul_u32 width i; Some (as_signed 32 x) else Some 0);
      rest ← agent_monitors active width height (i + 1) n;
      Some (mkMonConfig height width 32 x 0 :: rest)
  end.

Definition agent_monitors_config (monitors width height : Z) : option MonitorsConfig :=
  let active := if monitors =? 0 then 1 else monitors in
  let flags := if 1 <? active then VD_AGENT_CONFIG_MONITORS_FLAG_USE_POS else 0 in
  ms ← agent_monitors active width height 0 (Z.to_nat active);
  Some (mkMonitorsConfig flags ms []).

End Monitors.

Definition agent_starved (agent_connected : bool) (agent_tokens : Z) (messages_queued : bool)
  : bool :=
  agent_connected && (agent_tokens =? 0) && messages_queued.

(** [GuestClipboard] *)
Inductive GuestClipboard : Type :=
| Gc_Grab (m : ClipboardGrab)
| Gc_Data (m : Clipboard)
| Gc_Request (m : ClipboardRequest)
| Gc_Release (m : ClipboardRelease).

Definition GuestClipboard_decode (agent_type : Z) (payload : list Z) (has_selection : bool)
  : result LinkError GuestClipboard :=
  if agent_type =? VD_AGENT_CLIPBOARD_GRAB then
    rmap Gc_Grab (decode_with payload has_selection)
  else if agent_type =? VD_AGENT_CLIPBOARD then
    rmap Gc_Data (decode_with payload has_selection)
  else if agent_type =? VD_AGENT_CLIPBOARD_REQUEST then
    rmap Gc_Request (decode_with payload has_selection)
  else if agent_type =? VD_AGENT_CLIPBOARD_RELEASE then
    rmap Gc_Release (decode_with payload has_selection)
  else Err (Unsupported "non-clipboard agent message type"%string).

Definition GuestClipboard_selection (self : GuestClipboard) : Z :=
  match self with
  | Gc_Grab m => ClipboardGrab_selection m
  | Gc_Data m => Clipboard_selection m
  | Gc_Request m => ClipboardRequest_selection m
  | Gc_Release m => ClipboardRelease_selection m
  end.

Section Agent.
Context {B : Type} `{ClipboardBackend B} `{BP : BuildProfile} (env : Env).

Abbreviation now := (instant_now env : Mc B Z).
Abbreviation elapsed := (elapsed_now env : Mc B Z).

Definition agent_field {A} (f : Agent -> A) : Mc B A := gets (fun s => f (mc_agent s)).
Definition set_agent (f : Agent -> Agent) : Mc B unit := modify (on_agent f).

(** * Sending to the agent *)

Definition note_agent_starvation : Mc B unit :=
  let? a := agent_field id in
  let starved := agent_starved (ag_connected a) (ag_tokens a) (negb (aq_is_empty (ag_queue a))) in
  let? since := gets (fun s => st_since (mc_starved s)) in
  match starved, since with
  | true, None =>
      let? t := now in
      let? ts := elapsed in
      modify (on_starved (fun v => mkStarvation (Some t) (Some ts) (st_stall_count v)
        (st_last_notified v)))
  | false, Some _ =>
      modify (on_starved (fun v => mkStarvation None None (st_stall_count v) None))
  | _, _ => ret tt
  end.

(** The [while] of [flush_agent_queue]; every round sends at least a byte, so
    the bytes queued are rounds enough. *)
Fixpoint flush_loop (fuel : nat) : Mc B unit :=
  match fuel with
  | O => panic
  | S fuel =>
      let? tokens := agent_field ag_tokens in
      if negb (0 <? tokens) then ret tt
      else
        let? queue := agent_field ag_queue in
        let? r := unwrap (next_chunk queue) in
        match fst r with
        | None => ret tt
        | Some chunk =>
            do? set_agent (ag_set_queue (snd r)) in
            do? send_with_log env main_client_AGENT_DATA
                  (make_message main_client_AGENT_DATA chunk) in
            do? set_agent (fun a => ag_set_tokens (ag_tokens a - 1) a) in
            flush_loop fuel
        end
  end.

Definition flush_agent_queue : Mc B unit :=
  let? queue := agent_field ag_queue in
  do? flush_loop (S (length (backlog queue))) in
  note_agent_starvation.

Definition send_agent_data_message (ty : Z) (payload : list Z) : Mc B bool :=
  let? queue := agent_field ag_queue in
  let '(ok, queue') := aq_push queue (agent_message ty payload) in
  if negb ok then ret false
  else
    do? set_agent (ag_set_queue queue') in
    do? flush_agent_queue in
    do? when (bool_decide (ty ∈ REPLY_ELIGIBLE_AGENT_REQUEST_TYPES))
          (let? t := now in
           modify (on_replies (fun r => mkReplies (<[ty := t]> (re_send_ts r))
             (saturating_add_u32 (re_request_count r) 1) (re_reply_count r) (re_error_count r)
             (re_last_ts r) (re_last_lag r) (re_recent_lags r)
             (Z.min (saturating_add_u32 (re_outstanding r) 1) MAX_OUTSTANDING_AGENT_REQUESTS)))) in
    ret true.

Definition send_agent_start : Mc B unit :=
  let payload := write (mkAgentTokens u32_max) [] in
  send_with_log env main_client_AGENT_START (make_message main_client_AGENT_START payload).

Definition maybe_send_announce_capabilities : Mc B unit :=
  let? a := agent_field id in
  if negb (ag_connected a) || ag_caps_announced a then ret tt
  else
    let payload := write client_agent_capabilities [] in
    let? queued := send_agent_data_message VD_AGENT_ANNOUNCE_CAPABILITIES payload in
    when queued (set_agent (ag_set_caps_announced true)).

Definition send_agent_monitors_config (width height : Z) : Mc B bool :=
  let? monitors := gets mc_monitors in
  let? config := unwrap (agent_monitors_config monitors width height) in
  send_agent_data_message VD_AGENT_MONITORS_CONFIG (write config []).

Definition set_resize (f : Resize -> Resize) : Mc B unit := modify (on_resize f).

Definition maybe_send_agent_monitors_config : Mc B unit :=
  let? r := gets mc_resize in
  match rz_pending r with
  | None => ret tt
  | Some (width, height) =>
      let? a := agent_field id in
      if negb (ag_connected a) then ret tt
      else if negb (ag_caps_announced a) then ret tt
      else if bool_decide (rz_last_sent r = Some (width, height)) then
        set_resize (rz_set_pending None)
      else
        let? queued := send_agent_monitors_config width height in
        when queued
          (set_resize (fun r => rz_set_pending None (rz_set_last_sent (Some (width, height)) r)))
  end.

Definition maybe_send_settled_monitors_config : Mc B unit :=
  let? debounce := gets (fun s => rz_debounce (mc_resize s)) in
  match debounce with
  | Some _ => ret tt
  | None => maybe_send_agent_monitors_config
  end.

Definition connect_agent : Mc B unit :=
  do? send_agent_start in
  do? maybe_send_announce_capabilities in
  maybe_send_settled_monitors_config.

(** * The clipboard *)

(** [clipboard_payload]: [None] until the guest's capabilities are known. *)
Definition clipboard_payload {T} `{ClipboardWireType T} (msg : T) : Mc B (option (list Z)) :=
  let? selection := agent_field ag_clip_selection in
  match selection with
  | None => ret None
  | Some has_selection => ret (Some (write_with msg [] has_selection))
  end.

Definition send_clipboard_message {T} `{ClipboardWireType T} (ty : Z) (msg : T) : Mc B bool :=
  let? payload := clipboard_payload msg in
  match payload with
  | None => ret false
  | Some payload => send_agent_data_message ty payload
  end.

Definition send_clipboard_grab : Mc B bool :=
  send_clipboard_message VD_AGENT_CLIPBOARD_GRAB
    (mkClipboardGrab VD_AGENT_CLIPBOARD_SELECTION_CLIPBOARD [VD_AGENT_CLIPBOARD_UTF8_TEXT]).

Definition send_clipboard_request : Mc B bool :=
  send_clipboard_message VD_AGENT_CLIPBOARD_REQUEST
    (mkClipboardRequest VD_AGENT_CLIPBOARD_SELECTION_CLIPBOARD VD_AGENT_CLIPBOARD_UTF8_TEXT).

Definition send_clipboard_data (text : list Z) : Mc B bool :=
  send_clipboard_message VD_AGENT_CLIPBOARD
    (mkClipboard VD_AGENT_CLIPBOARD_SELECTION_CLIPBOARD VD_AGENT_CLIPBOARD_UTF8_TEXT text).

Definition send_clipboard_none (selection : Z) : Mc B bool :=
  send_clipboard_message VD_AGENT_CLIPBOARD (mkClipboard selection VD_AGENT_CLIPBOARD_NONE []).

Definition hash_clipboard (text : list Z) : Z := env_hash env (normalize_clipboard text).

Definition set_clip (f : ClipState -> ClipState) : Mc B unit := modify (on_clip f).

(** A clipboard read on a blocking thread, with a one-second limit.  A read
    that timed out may still run to its end, so the backend's state moves on
    either way. *)
Definition get_text_blocking (cb : B) : Mc B (option (option (list Z))) :=
  let '(text, cb') := cb_get_text cb in
  let? outcome := ask (env_clip_read env) in
  do? modify (on_clipboard (fun _ => Some cb')) in
  ret (match outcome with Clip_Completed => Some text | _ => None end).

Definition read_host_clipboard_for_guest : Mc B (option (list Z)) :=
  let? backend := gets mc_clipboard in
  match backend with
  | None => ret None
  | Some cb => let? text := get_text_blocking cb in ret (default None text)
  end.

Definition poll_host_clipboard : Mc B unit :=
  let? backend := gets mc_clipboard in
  match backend with
  | None => ret tt
  | Some cb =>
      let generation := cb_generation cb in
      let? clip := gets mc_clip in
      if bool_decide (is_Some generation) && bool_decide (generation = cl_last_generation clip)
      then ret tt
      else
        let? read := get_text_blocking cb in
        match read with
        | None => ret tt
        | Some text =>
            do? set_clip (fun c => mkClipState (cl_last_hash c) generation) in
            match text with
            | None => ret tt
            | Some [] => ret tt
            | Some text =>
                let new_hash := hash_clipboard text in
                let changed := match cl_last_hash clip with
                               | Some prev => negb (prev =? new_hash)
                               | None => true
                               end in
                when changed
                  (do? set_clip (fun c => mkClipState (Some new_hash) (cl_last_generation c)) in
                   let? queued := send_clipboard_grab in
                   ret tt)
            end
        end
  end.

Definition handle_guest_clipboard (msg : GuestClipboard) : Mc B unit :=
  let selection := GuestClipboard_selection msg in
  if negb (selection =? VD_AGENT_CLIPBOARD_SELECTION_CLIPBOARD) then
    match msg with
    | Gc_Request _ => let? queued := send_clipboard_none selection in ret tt
    | _ => ret tt
    end
  else
    match msg with
    | Gc_Grab grab =>
        when (ClipboardGrab_offers grab VD_AGENT_CLIPBOARD_UTF8_TEXT)
          (let? queued := send_clipboard_request in ret tt)
    | Gc_Data clipboard =>
        if negb (Clipboard_clipboard_type clipboard =? VD_AGENT_CLIPBOARD_UTF8_TEXT) then ret tt
        else
          match Clipboard_data clipboard with
          | [] => ret tt
          | data =>
              let text := from_utf8_lossy data in
              do? modify (on_clipboard (fmap (fun cb => snd (cb_set_text text cb)))) in
              set_clip (fun c => mkClipState (Some (hash_clipboard text)) (cl_last_generation c))
          end
    | Gc_Request request =>
        let? text :=
          (if ClipboardRequest_clipboard_type request =? VD_AGENT_CLIPBOARD_UTF8_TEXT
           then read_host_clipboard_for_guest else ret None) in
        match text with
        | Some text => let? queued := send_clipboard_data text in ret tt
        | None => let? queued := send_clipboard_none selection in ret tt
        end
    | Gc_Release _ => ret tt
    end.

(** * What arrives from the agent *)

Definition handle_agent_reply (reply : VdAgentReply) : Mc B unit :=
  let? ts := elapsed in
  do? modify (on_replies (fun r => mkReplies (re_send_ts r) (re_request_count r)
        (saturating_add_u32 (re_reply_count r) 1)
        (if VdAgentReply_is_success reply then re_error_count r
         else saturating_add_u32 (re_error_count r) 1)
        (Some ts) (re_last_lag r) (re_recent_lags r) (re_outstanding r))) in
  let? r := gets mc_replies in
  match re_send_ts r !! VdAgentReply_reply_type reply with
  | None => ret tt
  | Some sent =>
      let? t := now in
      let lag := Z.min (saturating_duration_since t sent / 1000) u32_max in
      let lags := push (re_recent_lags r) lag in
      modify (on_replies (fun r => mkReplies (delete (VdAgentReply_reply_type reply) (re_send_ts r))
        (re_request_count r) (re_reply_count r) (re_error_count r) (re_last_ts r) (Some lag)
        (if MAX_RECENT_AGENT_REPLIES <? zlen lags then drop 1 lags else lags)
        (saturating_sub (re_outstanding r) 1)))
  end.

Definition handle_clipboard_message (agent_type : Z) (payload : list Z) : Mc B unit :=
  let? known := agent_field ag_clip_selection in
  match known with
  | None => ret tt
  | Some has_selection =>
      match GuestClipboard_decode agent_type payload has_selection with
      | Ok msg => handle_guest_clipboard msg
      | Panic => panic
      | Err _ =>
          if agent_type =? VD_AGENT_CLIPBOARD_REQUEST then
            match decode_with (T := ClipboardRelease) payload has_selection with
            | Ok header =>
                let? queued := send_clipboard_none (ClipboardRelease_selection header) in
                ret tt
            | Err _ => ret tt
            | Panic => panic
            end
          else ret tt
      end
  end.

Definition handle_announce_capabilities (payload : list Z) : Mc B unit :=
  do? set_agent (ag_set_guest_caps true) in
  match decode (T := AnnounceCapabilities) payload with
  | Panic => panic
  | decoded =>
      let caps := match decoded with Ok c => Some c | _ => None end in
      let has_selection :=
        match caps with
        | Some c => has_capability c VD_AGENT_CAP_CLIPBOARD_SELECTION
        | None => false
        end in
      do? set_agent (ag_set_clip_selection (Some has_selection)) in
      do? (if match caps with Some c => AnnounceCapabilities_request c =? 1 | None => false end
           then
             do? set_agent (ag_set_caps_announced false) in
             maybe_send_announce_capabilities
           else ret tt) in
      maybe_send_settled_monitors_config
  end.

Definition is_clipboard_type (agent_type : Z) : bool :=
  (agent_type =? VD_AGENT_CLIPBOARD_GRAB) || (agent_type =? VD_AGENT_CLIPBOARD)
  || (agent_type =? VD_AGENT_CLIPBOARD_REQUEST) || (agent_type =? VD_AGENT_CLIPBOARD_RELEASE).

Definition handle_agent_message (agent_type : Z) (payload : list Z) : Mc B unit :=
  do? set_agent (ag_set_guest_caps true) in
  if is_clipboard_type agent_type then handle_clipboard_message agent_type payload
  else if agent_type =? VD_AGENT_ANNOUNCE_CAPABILITIES then handle_announce_capabilities payload
  else if agent_type =? VD_AGENT_REPLY then
    match decode (T := VdAgentReply) payload with
    | Ok reply => handle_agent_reply reply
    | Err _ => ret tt
    | Panic => panic
    end
  else ret tt.

(** An oversized or out-of-step message is only logged. *)
Definition handle_agent_stream_item (item : AgentStreamItem) : Mc B unit :=
  match item with
  | Message m =>
      handle_agent_message (VdAgentMessageHeader_message_type (am_header m)) (am_payload m)
  | Oversized _ => ret tt
  | BadProtocol _ => ret tt
  end.

Fixpoint handle_agent_stream_items (items : list AgentStreamItem) : Mc B unit :=
  match items with
  | [] => ret tt
  | item :: items => do? handle_agent_stream_item item in handle_agent_stream_items items
  end.

Definition reset_agent_stream : Mc B unit := set_agent (fun a => ag_set_stream (ar_reset (ag_stream a)) a).

End Agent.
