(* ===== verification/MainChannel.v ===== *)
(** The main channel's message handling and event loop:
    [shakenfist-spice-renderer/src/channels/main_channel.rs].

    [handle_message] has one definition per message kind; [loop_arm] is one
    turn of [run_loop]'s [select!], by the arm that fired, and [run_arms] a
    run of them. *)
From Stdlib Require Import ZArith Lia.
From stdpp Require Import base numbers list gmap tactics.
From S2P Require Import Prelude Reader Utf8 Wire MsgCommon ReceiveBuffer MsgMain MsgVdAgent AgentStream LinkMess AgentQueue OpcodeCounters Clipboard Channel MainState MainAgent.

Open Scope Z_scope.
Open Scope rust_scope.

(** * Constants *)

Definition main_server_SET_ACK : Z := 3.
Definition main_server_PING : Z := 4.
Definition main_server_DISCONNECTING : Z := 6.
Definition main_server_NOTIFY : Z := 7.
Definition main_server_INIT : Z := 103.
Definition main_server_CHANNELS_LIST : Z := 104.
Definition main_server_MOUSE_MODE : Z := 105.
Definition main_server_MULTI_MEDIA_TIME : Z := 106.
Definition main_server_AGENT_CONNECTED : Z := 107.
Definition main_server_AGENT_DISCONNECTED : Z := 108.
Definition main_server_AGENT_DATA : Z := 109.
Definition main_server_AGENT_TOKEN : Z := 110.
Definition main_server_AGENT_CONNECTED_TOKENS : Z := 115.
Definition main_client_ACK_SYNC : Z := 1.
Definition main_client_PONG : Z := 3.
Definition MOUSE_MODE_SERVER : Z := 1.
Definition MOUSE_MODE_CLIENT : Z := 2.

Definition STUCK_AGENT_THRESHOLD : Z := 5000000000.
Definition STUCK_AGENT_NOTIFY_INTERVAL : Z := 20000000000.
Definition RESIZE_DEBOUNCE : Z := 200000000.
(** The text is fixed; only its being fixed matters. *)
Definition STUCK_AGENT_MESSAGE : list Z :=
  [71; 117; 101; 115; 116; 32; 97; 103; 101; 110; 116; 32; 105; 115; 32; 110; 111; 116; 32; 97;
   99; 99; 101; 112; 116; 105; 110; 103; 32; 109; 101; 115; 115; 97; 103; 101; 115; 32; 40; 99;
   108; 105; 112; 98; 111; 97; 114; 100; 32; 97; 110; 100; 32; 100; 105; 115; 112; 108; 97; 121;
   32; 114; 101; 115; 105; 122; 101; 32; 97; 114; 101; 32; 111; 110; 32; 104; 111; 108; 100; 41].

(** * Pure functions *)

Definition should_request_client_mouse_mode (supported current : Z) : bool :=
  negb (Z.land supported MOUSE_MODE_CLIENT =? 0) && negb (current =? MOUSE_MODE_CLIENT).

Definition ping_interval (last : option Z) (now : Z) : option Z :=
  last ← last; Some (saturating_duration_since now last).

Definition align_monitor_dimension (dim : Z) : Z := Z.max dim 8 / 8 * 8.

Definition should_warn_agent_stalled (starved_since last_notified : option Z) (now : Z) : bool :=
  match starved_since with
  | None => false
  | Some since =>
      if saturating_duration_since now since <? STUCK_AGENT_THRESHOLD then false
      else match last_notified with
           | None => true
           | Some t => STUCK_AGENT_NOTIFY_INTERVAL <=? saturating_duration_since now t
           end
  end.

Inductive DisplaySize : Type :=
| Requested (width height : Z)
| GuestHas (width height : Z).

Section Channel.
Context {B : Type} `{ClipboardBackend B} `{BP : BuildProfile} (env : Env).

Abbreviation now := (instant_now env : Mc B Z).
Abbreviation elapsed := (elapsed_now env : Mc B Z).

Definition set_session (f : Session -> Session) : Mc B unit := modify (on_session f).

(** * The handlers *)

Definition set_mm_clock (mm_time : Z) : Mc B unit :=
  let? ts := elapsed in
  let? t := now in
  modify (on_mm_clock (mm_set mm_time ts t)).

Definition maybe_request_client_mouse_mode (supported_modes current_mode : Z) : Mc B unit :=
  if negb (should_request_client_mouse_mode supported_modes current_mode) then ret tt
  else
    let? pending := gets (fun s => se_mouse_request_pending (mc_session s)) in
    if pending then ret tt
    else
      let payload := write (mkMouseModeRequest (as_unsigned 16 MOUSE_MODE_CLIENT)) [] in
      do? send_with_log env main_client_MOUSE_MODE_REQUEST
            (make_message main_client_MOUSE_MODE_REQUEST payload) in
      set_session (se_set_mouse_request_pending true).

Definition handle_init (payload : list Z) : Mc B unit :=
  let? init := must_decode (T := MainInit) main_server_INIT payload in
  do? set_mm_clock (MainInit_multi_media_time init) in
  do? set_session (se_set_id (Some (MainInit_session_id init))) in
  do? set_agent (ag_set_connected (negb (MainInit_agent_connected init =? 0))) in
  do? set_agent (ag_set_tokens (MainInit_agent_tokens init)) in
  do? set_agent (ag_set_caps_announced false) in
  let? signal := gets (fun s => se_init_signal (mc_session s)) in
  do? set_session (se_set_init_signal false) in
  do? when signal (log_event (Ev_SessionInit (MainInit_session_id init))) in
  let? connected := agent_field ag_connected in
  do? when connected (connect_agent env) in
  do? emit (CE_SessionInitialized (MainInit_session_id init)) in
  do? publish_agent_connected in
  do? set_session (se_set_mouse_mode (Some (MainInit_current_mouse_mode init))) in
  do? publish_mouse_mode (MainInit_current_mouse_mode init) in
  maybe_request_client_mouse_mode (MainInit_supported_mouse_modes init)
    (MainInit_current_mouse_mode init).

Definition handle_mouse_mode (payload : list Z) : Mc B unit :=
  let? mode := try_decode (T := MainMouseMode) payload in
  match mode with
  | None => ret tt
  | Some mode =>
      let current := MainMouseMode_current_mode mode in
      do? set_session (se_set_mouse_mode (Some current)) in
      do? when (current =? MOUSE_MODE_CLIENT)
            (set_session (se_set_mouse_request_pending false)) in
      do? publish_mouse_mode current in
      maybe_request_client_mouse_mode (MainMouseMode_supported_modes mode) current
  end.

Definition handle_multi_media_time (payload : list Z) : Mc B unit :=
  let? time := try_decode (T := MultiMediaTime) payload in
  match time with
  | Some time => set_mm_clock (MultiMediaTime_time time)
  | None => ret tt
  end.

Definition known_channels (cs : ChannelsList) : list (ChannelType * Z)%type :=
  omap (fun c => t ← ChannelType_from_u8 (ChannelEntry_channel_type c);
                 Some (t, ChannelEntry_channel_id c)) (ChannelsList_channels cs).

Definition handle_channels_list (payload : list Z) : Mc B unit :=
  let? cs := must_decode (T := ChannelsList) main_server_CHANNELS_LIST payload in
  let channels := known_channels cs in
  let? signal := gets (fun s => se_channels_signal (mc_session s)) in
  do? set_session (se_set_channels_signal false) in
  do? when signal (log_event (Ev_ChannelsAvail channels)) in
  emit (CE_ChannelsAvailable channels).

Definition request_channels_list : Mc B unit :=
  send_with_log env main_client_ATTACH_CHANNELS (make_message main_client_ATTACH_CHANNELS []).

Definition handle_ping (payload : list Z) : Mc B unit :=
  let? t := now in
  let? last := gets (fun s => pi_last_at (mc_pings s)) in
  let interval := ping_interval last t in
  let? ts := elapsed in
  do? modify (on_pings (fun p => mkPings (Some t) (saturating_add_u32 (pi_recv_count p) 1)
        (pi_pong_count p) (Some ts))) in
  let? ping := must_decode (T := Ping) main_server_PING payload in
  do? send_with_log env main_client_PONG
        (make_message main_client_PONG (write (Ping_pong ping) [])) in
  do? modify (on_pings (fun p => mkPings (pi_last_at p) (pi_recv_count p)
        (saturating_add_u32 (pi_pong_count p) 1) (pi_last_recv_ts p))) in
  let? s := gets mc_session in
  do? when ((0 <? Ping_id ping) && bool_decide (is_Some (se_id s))
            && negb (se_channels_requested s))
        (do? set_session (se_set_channels_requested true) in request_channels_list) in
  match interval with
  | Some i => emit (CE_PingInterval i)
  | None => ret tt
  end.

Definition handle_set_ack (payload : list Z) : Mc B unit :=
  let? ack := must_decode (T := SetAck) main_server_SET_ACK payload in
  send_with_log env main_client_ACK_SYNC
    (make_message main_client_ACK_SYNC (write (SetAck_ack_sync ack) [])).

Definition handle_notify (payload : list Z) : Mc B unit :=
  let? notify := must_decode (T := Notify) main_server_NOTIFY payload in
  emit (CE_Notification (Notify_severity_kind notify) (Source_Spice Ch_Main (Notify_what notify))
    (from_utf8_lossy (Notify_message notify)) (Notify_visibility_kind notify)).

(** The reason is only logged, so a short body is no error. *)
Definition handle_disconnecting (payload : list Z) : Mc B unit :=
  let? reason := try_decode (T := Disconnecting) payload in
  emit (CE_Disconnected Ch_Main ServerAnnounced).

Definition handle_agent_connected : Mc B unit :=
  do? reset_agent_stream in
  do? set_agent (ag_set_connected true) in
  do? publish_agent_connected in
  connect_agent env.

Definition handle_agent_connected_tokens (payload : list Z) : Mc B unit :=
  let? tokens := try_decode (T := AgentTokens) payload in
  do? match tokens with
      | Some t => set_agent (ag_set_tokens (AgentTokens_num_tokens t))
      | None => ret tt
      end in
  do? reset_agent_stream in
  do? set_agent (ag_set_connected true) in
  do? publish_agent_connected in
  do? connect_agent env in
  flush_agent_queue env.

Definition handle_agent_disconnected (payload : list Z) : Mc B unit :=
  let? reason := try_decode (T := AgentDisconnected) payload in
  do? set_agent (ag_set_connected false) in
  do? publish_agent_connected in
  do? reset_agent_stream in
  do? set_agent (ag_set_caps_announced false) in
  do? set_agent (ag_set_guest_caps false) in
  do? set_agent (ag_set_clip_selection None) in
  do? modify (on_replies (fun r => mkReplies ∅ (re_request_count r) (re_reply_count r)
        (re_error_count r) (re_last_ts r) (re_last_lag r) (re_recent_lags r) 0)) in
  do? set_agent (fun a => ag_set_queue (discard_unstarted (ag_queue a)) a) in
  note_agent_starvation env.

Definition handle_agent_data (payload : list Z) : Mc B unit :=
  let? stream := agent_field ag_stream in
  let? r := unwrap (ar_push stream payload) in
  do? set_agent (ag_set_stream (fst r)) in
  handle_agent_stream_items env (snd r).

(** A short AGENT_TOKEN counts as one token. *)
Definition handle_agent_token (payload : list Z) : Mc B unit :=
  let? tokens := try_decode (T := AgentTokens) payload in
  let granted := match tokens with Some t => AgentTokens_num_tokens t | None => 1 end in
  do? set_agent (fun a => ag_set_tokens (saturating_add_u32 (ag_tokens a) granted) a) in
  do? flush_agent_queue env in
  maybe_send_announce_capabilities env.

Definition handle_unknown (msg_type : Z) : Mc B unit :=
  count_opcodes (note_unknown main_server_named msg_type).

Definition dispatch (msg_type : Z) (payload : list Z) : Mc B unit :=
  if msg_type =? main_server_INIT then handle_init payload
  else if msg_type =? main_server_MOUSE_MODE then handle_mouse_mode payload
  else if msg_type =? main_server_MULTI_MEDIA_TIME then handle_multi_media_time payload
  else if msg_type =? main_server_CHANNELS_LIST then handle_channels_list payload
  else if msg_type =? main_server_PING then handle_ping payload
  else if msg_type =? main_server_SET_ACK then handle_set_ack payload
  else if msg_type =? main_server_NOTIFY then handle_notify payload
  else if msg_type =? main_server_DISCONNECTING then handle_disconnecting payload
  else if msg_type =? main_server_AGENT_CONNECTED then handle_agent_connected
  else if msg_type =? main_server_AGENT_CONNECTED_TOKENS then
    handle_agent_connected_tokens payload
  else if msg_type =? main_server_AGENT_DISCONNECTED then handle_agent_disconnected payload
  else if msg_type =? main_server_AGENT_DATA then handle_agent_data payload
  else if msg_type =? main_server_AGENT_TOKEN then handle_agent_token payload
  else handle_unknown msg_type.

Definition handle_message (msg_type : Z) (payload : list Z) : Mc B unit :=
  do? count_opcodes (record_recv main_server_named msg_type) in
  dispatch msg_type payload.

(** * The event loop *)

Definition note_display_size (size : DisplaySize) : Mc B unit :=
  match size with
  | Requested width height =>
      let? r := gets mc_resize in
      if bool_decide (rz_last_sent r = Some (width, height)) then
        set_resize (fun r => rz_set_debounce None (rz_set_pending None r))
      else
        do? set_resize (rz_set_pending (Some (width, height))) in
        let? t := now in
        set_resize (rz_set_debounce (Some (t + RESIZE_DEBOUNCE)))
  | GuestHas width height =>
      set_resize (fun r => rz_set_debounce None (rz_set_pending None
        (rz_set_last_sent (Some (width, height)) r)))
  end.

Definition stuck_agent_check : Mc B unit :=
  let? t := now in
  let? v := gets mc_starved in
  when (should_warn_agent_stalled (st_since v) (st_last_notified v) t)
    (do? when (negb (bool_decide (is_Some (st_last_notified v))))
           (modify (on_starved (fun v => mkStarvation (st_since v) (st_since_ts v)
              (saturating_add_u32 (st_stall_count v) 1) (st_last_notified v)))) in
     do? emit (CE_Notification Severity_Warn Source_Internal STUCK_AGENT_MESSAGE None) in
     modify (on_starved (fun v => mkStarvation (st_since v) (st_since_ts v) (st_stall_count v)
       (Some t)))).

(** What the [select!] of [run_loop] woke up for: bytes, the end of the
    stream or a failed read; a display size, or the last sender gone; a timer. *)
Inductive Arm : Type :=
| Arm_Read (chunk : list Z)
| Arm_Eof
| Arm_ReadError
| Arm_Resize (size : option DisplaySize)
| Arm_Debounce
| Arm_ClipboardTick
| Arm_Keepalive
| Arm_StuckAgentCheck
| Arm_Heartbeat.

(** One turn of the loop: whether it goes round again. *)
Definition loop_arm (arm : Arm) : Mc B bool :=
  match arm with
  | Arm_Read chunk => do? take_read env (handle_message) chunk in ret true
  | Arm_Eof => do? emit_session_ended ServerClosed in ret false
  | Arm_ReadError => throw Chan_Io
  | Arm_Resize None => do? set_resize (rz_set_open false) in ret true
  | Arm_Resize (Some size) => do? note_display_size size in ret true
  | Arm_Debounce =>
      do? set_resize (rz_set_debounce None) in
      let? pending := gets (fun s => rz_pending (mc_resize s)) in
      do? match pending with
          | Some (width, height) =>
              do? emit (CE_MonitorsConfig width height) in
              maybe_send_agent_monitors_config env
          | None => ret tt
          end in
      ret true
  | Arm_ClipboardTick =>
      let? a := agent_field id in
      do? when (ag_connected a && ag_caps_announced a
                && bool_decide (is_Some (ag_clip_selection a)))
            (poll_host_clipboard env) in
      ret true
  | Arm_Keepalive =>
      do? log_event Ev_KeepaliveFired in
      do? emit_session_ended KeepaliveTimeout in
      ret false
  | Arm_StuckAgentCheck => do? stuck_agent_check in ret true
  | Arm_Heartbeat => ret true
  end.

(** [run_loop], for the arms that fire, until one ends it. *)
Fixpoint run_arms (arms : list Arm) : Mc B unit :=
  match arms with
  | [] => ret tt
  | arm :: arms =>
      let? more := loop_arm arm in
      if more then run_arms arms else ret tt
  end.

End Channel.
