(* ===== verification/MainSpec.v ===== *)
(** What the main channel keeps true: the monitors that read its log, and the
    invariant of its state.

    The monitors are what the peer can see of the channel's traffic: the AGENT_DATA bodies written,
    the tokens the server has granted less those spent, the mouse mode
    requests and the confirmations of client mode, the PINGs and SET_ACKs and
    their answers. *)
From Stdlib Require Import ZArith Lia.
From stdpp Require Import base numbers list gmap tactics.
From S2P Require Import Prelude Reader Utf8 Wire MsgCommon ReceiveBuffer MsgMain MsgVdAgent AgentStream LinkMess AgentQueue OpcodeCounters Clipboard Channel ChannelSpec MainState MainAgent MainChannel.

Open Scope Z_scope.
Open Scope rust_scope.

#[export] Instance MainChannel_laws {B} : ChannelLaws (MainChannel B).
Proof. by split. Qed.

(** * The monitors *)

(** The body of a message of type [ty] that the stream took. *)
Definition wrote (ty : Z) (e : Event) : option (list Z) :=
  match e with
  | Ev_Wrote data =>
      if from_le (take 2 data) =? ty then Some (drop (Z.to_nat MessageHeader_SIZE) data) else None
  | _ => None
  end.

Definition received_of (ty : Z) (e : Event) : option (list Z) :=
  match e with
  | Ev_Received ty' payload => if ty' =? ty then Some payload else None
  | _ => None
  end.

Definition agent_bodies (log : list Event) : list (list Z) := omap (wrote main_client_AGENT_DATA) log.

(** The tokens the server has granted, less one for each AGENT_DATA. *)
Definition credit_step (credit : Z) (e : Event) : Z :=
  match e with
  | Ev_Received ty payload =>
      if ty =? main_server_INIT then
        match decode (T := MainInit) payload with
        | Ok init => MainInit_agent_tokens init
        | _ => credit
        end
      else if ty =? main_server_AGENT_CONNECTED_TOKENS then
        match decode (T := AgentTokens) payload with
        | Ok t => AgentTokens_num_tokens t
        | _ => credit
        end
      else if ty =? main_server_AGENT_TOKEN then
        match decode (T := AgentTokens) payload with
        | Ok t => credit + AgentTokens_num_tokens t
        | _ => credit + 1
        end
      else credit
  | Ev_Wrote _ => match wrote main_client_AGENT_DATA e with Some _ => credit - 1 | None => credit end
  | _ => credit
  end.

Definition credit (log : list Event) : Z := foldl credit_step 0 log.

(** No AGENT_DATA was ever written without a token for it. *)
Definition solvent (log : list Event) : Prop := forall n, 0 <= credit (take n log).

Definition is_client_mode (e : Event) : bool :=
  match received_of main_server_MOUSE_MODE e with
  | Some payload =>
      match decode (T := MainMouseMode) payload with
      | Ok m => MainMouseMode_current_mode m =? MOUSE_MODE_CLIENT
      | _ => false
      end
  | None => false
  end.

(** Mouse mode requests written, and client mode confirmations received. *)
Definition mouse_requests (log : list Event) : Z :=
  zlen (omap (wrote main_client_MOUSE_MODE_REQUEST) log).
Definition mouse_confirmations (log : list Event) : Z :=
  zlen (omap (fun e => if is_client_mode e then Some e else None) log).

(** The PONGs and ACK_SYNCs written, and those the messages received call for. *)
Definition answer_of (e : Event) : option (list Z) :=
  match e with
  | Ev_Wrote data =>
      if (from_le (take 2 data) =? main_client_PONG)
         || (from_le (take 2 data) =? main_client_ACK_SYNC) then Some data else None
  | _ => None
  end.

Definition answer_due (e : Event) : option (list Z) :=
  match e with
  | Ev_Received ty payload =>
      if ty =? main_server_PING then
        match decode (T := Ping) payload with
        | Ok ping => Some (make_message main_client_PONG (write (Ping_pong ping) []))
        | _ => None
        end
      else if ty =? main_server_SET_ACK then
        match decode (T := SetAck) payload with
        | Ok ack => Some (make_message main_client_ACK_SYNC (write (SetAck_ack_sync ack) []))
        | _ => None
        end
      else None
  | _ => None
  end.

Definition answers (log : list Event) : list (list Z) := omap answer_of log.
Definition answers_due (log : list Event) : list (list Z) := omap answer_due log.

Lemma credit_snoc log e : credit (log ++ [e]) = credit_step (credit log) e.
Proof. unfold credit. by rewrite foldl_app. Qed.

Lemma solvent_snoc log e : solvent log -> 0 <= credit (log ++ [e]) -> solvent (log ++ [e]).
Proof.
  intros Hl He n. destruct (decide (n <= length log)%nat).
  - rewrite take_app_le by done. apply Hl.
  - rewrite take_ge; [done|]. rewrite length_app. cbn. lia.
Qed.

Lemma wrote_message ty ty' payload : u16 ty' ->
  wrote ty (Ev_Wrote (make_message ty' payload)) = if ty' =? ty then Some payload else None.
Proof.
  intros Hty. unfold wrote, make_message, MessageHeader_write, extend_from_slice.
  cbn [message_type message_size]. rewrite app_nil_l, <- app_assoc.
  rewrite take_app_length' by by rewrite length_to_le.
  rewrite from_le_to_le, Z.mod_small by done.
  destruct (ty' =? ty); [reflexivity|done].
Qed.

Lemma answer_message ty payload : u16 ty ->
  answer_of (Ev_Wrote (make_message ty payload)) =
    if (ty =? main_client_PONG) || (ty =? main_client_ACK_SYNC)
    then Some (make_message ty payload) else None.
Proof.
  intros Hty. unfold answer_of.
  assert (from_le (take 2 (make_message ty payload)) = ty) as Hh.
  { unfold make_message, MessageHeader_write, extend_from_slice. cbn [message_type message_size].
    rewrite app_nil_l, <- app_assoc, take_app_length' by by rewrite length_to_le.
    rewrite from_le_to_le. by apply Z.mod_small. }
  by rewrite Hh.
Qed.

(** * The invariant *)

(** Backends whose texts fit an agent message's 32-bit size, whatever is put
    on them. *)
Definition MAX_CLIP_TEXT : Z := 2 ^ 32 - 16.
Definition clip_text (text : list Z) : Prop := bytes text /\ zlen text <= MAX_CLIP_TEXT.

Class ClipboardBounded (B : Type) `{ClipboardBackend B} : Type := {
  cb_ok : B -> Prop;
  cb_get_ok : forall cb, cb_ok cb ->
    cb_ok (snd (cb_get_text cb)) /\ forall text, fst (cb_get_text cb) = Some text -> clip_text text;
  cb_set_ok : forall text cb, cb_ok cb -> clip_text text -> cb_ok (snd (cb_set_text text cb))
}.

Definition mem_ok (self : MemoryClipboard) : Prop :=
  forall text, mem_text self = Some text -> clip_text text.

Lemma mem_get_ok cb : mem_ok cb ->
  mem_ok (snd (cb_get_text cb)) /\ forall text, fst (cb_get_text cb) = Some text -> clip_text text.
Proof. by intros Hcb. Qed.

Lemma mem_set_ok text cb : mem_ok cb -> clip_text text -> mem_ok (snd (cb_set_text text cb)).
Proof. intros Hcb Ht text' E. cbn in E. by injection E as <-. Qed.

#[export] Instance MemoryClipboard_bounded : ClipboardBounded MemoryClipboard :=
  {| cb_ok := mem_ok; cb_get_ok := mem_get_ok; cb_set_ok := mem_set_ok |}.

(** Display sizes of the code's types, and of a width a build that checks
    arithmetic can lay out 255 monitors of side by side.  A release build takes
    any size. *)
Definition size_ok `{BuildProfile} (size : Z * Z) : Prop :=
  u32 size.1 /\ u32 size.2 /\ (arithmetic_checked = true -> size.1 * 254 <= u32_max).

(** The bytes of a complete, well-formed agent message. *)
Definition agent_bytes_ok (bs : list Z) : Prop :=
  exists m, bs = agent_wire m /\ agent_message_ok u32_max m.

Section Invariant.
Context {B : Type} `{CB : ClipboardBackend B} {OK : ClipboardBounded B} `{BP : BuildProfile}.

(** What an operation starts from: the receive buffer, which only reading
    touches, and the answers owed to the server, none between messages. *)
Record debt : Type := owes { d_buffer : ReceiveBuffer; d_due : list (list Z) }.

Record facts (due : debt) (buffer : ReceiveBuffer) (monitors tokens : Z)
    (queue : AgentSendQueue) (stream : AgentReassembler) (pending last_sent : option (Z * Z))
    (clipboard : option B) (mouse_pending : bool) (log : list Event) : Prop := {
  f_buffer : rb_ok buffer /\ buffer = d_buffer due;
  f_monitors : 0 <= monitors < 256;
  f_tokens : 0 <= tokens <= credit log;
  f_queue : aq_ok queue;
  f_stream : ar_ok stream /\ ar_max_message_size stream = MAX_AGENT_MESSAGE_SIZE;
  f_pending : forall size, pending = Some size -> size_ok size /\ last_sent <> Some size;
  f_clipboard : forall cb, clipboard = Some cb -> cb_ok cb;
  f_wire : exists ms, Forall agent_bytes_ok ms /\
    concat (agent_bodies log) ++ owed queue = concat ms;
  f_unstarted : Forall agent_bytes_ok (unstarted queue);
  f_chunks : Forall (fun c => 1 <= zlen c <= MAX_AGENT_CHUNK) (agent_bodies log);
  f_solvent : solvent log;
  f_mouse : mouse_requests log <= mouse_confirmations log + (if mouse_pending then 1 else 0);
  f_answers : answers_due log = answers log ++ d_due due
}.

Definition inv (due : debt) (s : MainChannel B) : Prop :=
  facts due (mc_buffer s) (mc_monitors s) (ag_tokens (mc_agent s)) (ag_queue (mc_agent s))
    (ag_stream (mc_agent s)) (rz_pending (mc_resize s)) (rz_last_sent (mc_resize s))
    (mc_clipboard s) (se_mouse_request_pending (mc_session s)) (mc_log s).

(** What is still true of the log when the channel has failed. *)
Record log_ok (log : list Event) : Prop := {
  l_wire : exists ms rest, Forall agent_bytes_ok ms /\ concat (agent_bodies log) ++ rest = concat ms;
  l_chunks : Forall (fun c => 1 <= zlen c <= MAX_AGENT_CHUNK) (agent_bodies log);
  l_solvent : solvent log;
  l_mouse : mouse_requests log <= mouse_confirmations log + 1;
  l_answers : answers log `prefix_of` answers_due log
}.

Definition failed (s : MainChannel B) : Prop := log_ok (mc_log s).

Lemma inv_failed due s : inv due s -> failed s.
Proof.
  intros F. destruct F as [_ _ _ _ _ _ _ (ms & Hms & Hw) _ Hc Hs Hm Ha]. split; try done.
  - exists ms, (owed (ag_queue (mc_agent s))). done.
  - destruct (se_mouse_request_pending _); lia.
  - rewrite Ha. by apply prefix_app_r.
Qed.

(** Events no monitor looks at. *)
Definition quiet (e : Event) : bool :=
  match e with Ev_Received _ _ | Ev_Wrote _ => false | _ => true end.

Lemma quiet_monitors log e : quiet e = true ->
  agent_bodies (log ++ [e]) = agent_bodies log /\ credit (log ++ [e]) = credit log /\
  mouse_requests (log ++ [e]) = mouse_requests log /\
  mouse_confirmations (log ++ [e]) = mouse_confirmations log /\
  answers (log ++ [e]) = answers log /\ answers_due (log ++ [e]) = answers_due log.
Proof.
  intros He. unfold agent_bodies, mouse_requests, mouse_confirmations, answers, answers_due.
  rewrite credit_snoc, !omap_snoc.
  destruct e; try done; cbn; by rewrite !app_nil_r.
Qed.

Lemma facts_quiet due bu mo to q st pe la cl mp log e : quiet e = true ->
  facts due bu mo to q st pe la cl mp log -> facts due bu mo to q st pe la cl mp (log ++ [e]).
Proof.
  intros He F. destruct (quiet_monitors log e He) as (H1 & H2 & H3 & H4 & H5 & H6).
  destruct F. split; rewrite ?H1, ?H2, ?H3, ?H4, ?H5, ?H6; try done.
  apply solvent_snoc; [done|]. rewrite H2. lia.
Qed.

Lemma log_ok_quiet log e : quiet e = true -> log_ok log -> log_ok (log ++ [e]).
Proof.
  intros He F. destruct (quiet_monitors log e He) as (H1 & H2 & H3 & H4 & H5 & H6).
  destruct F. split; rewrite ?H1, ?H3, ?H4, ?H5, ?H6; try done.
  apply solvent_snoc; [done|]. rewrite H2. specialize (l_solvent0 (length log)).
  by rewrite take_ge in l_solvent0 by done.
Qed.

Abbreviation holds m := (keeps inv failed m).

Lemma holds_log e : quiet e = true -> holds (log_event e).
Proof. intros He due s Hs. cbn. by apply facts_quiet. Qed.

End Invariant.
