(* ===== verification/MainKeeps.v ===== *)
(** Every operation of the main channel keeps its invariant.

    One [holds_*] lemma per operation, in the order of the code: the writes,
    the agent's queue, the clipboard, the agent's messages.  [holds m] is the
    total triple [{inv due} m {inv due}], or [failed] when [m] ends the
    channel. *)
From Stdlib Require Import ZArith Lia.
From stdpp Require Import base numbers list gmap tactics.
From S2P Require Import Prelude Reader Utf8 Wire MsgCommon ReceiveBuffer MsgMain MsgVdAgent AgentStream LinkMess AgentQueue OpcodeCounters Clipboard Channel ChannelSpec MainState MainAgent MainChannel MainSpec.

Open Scope Z_scope.
Open Scope rust_scope.

(** * Writes *)

Definition ifz (b : bool) : Z := if b then 1 else 0.
Definition ifl {A} (b : bool) (x : A) : list A := if b then [x] else [].

Lemma wrote_monitors log ty p : u16 ty ->
  let e := Ev_Wrote (make_message ty p) in
  agent_bodies (log ++ [e]) = agent_bodies log ++ ifl (ty =? main_client_AGENT_DATA) p /\
  credit (log ++ [e]) = credit log - ifz (ty =? main_client_AGENT_DATA) /\
  mouse_requests (log ++ [e]) = mouse_requests log + ifz (ty =? main_client_MOUSE_MODE_REQUEST) /\
  mouse_confirmations (log ++ [e]) = mouse_confirmations log /\
  answers (log ++ [e]) =
    answers log ++ ifl ((ty =? main_client_PONG) || (ty =? main_client_ACK_SYNC)) (make_message ty p) /\
  answers_due (log ++ [e]) = answers_due log.
Proof.
  intros Hty e. unfold agent_bodies, mouse_requests, mouse_confirmations, answers, answers_due.
  rewrite credit_snoc, !omap_snoc. unfold e.
  unfold credit_step. rewrite !wrote_message, answer_message by done.
  destruct (ty =? main_client_AGENT_DATA), (ty =? main_client_MOUSE_MODE_REQUEST),
    ((ty =? main_client_PONG) || (ty =? main_client_ACK_SYNC)); cbn [ifl ifz];
    rewrite ?zlen_app, ?app_nil_r; cbn; rewrite ?app_nil_r;
    (split_and!; (done || (unfold zlen; cbn; lia))).
Qed.

Section Keeps.
Context {B : Type} `{CB : ClipboardBackend B} {OK : ClipboardBounded B} `{BP : BuildProfile} (env : Env).
Implicit Type s : MainChannel B.

Abbreviation holds m := (keeps inv failed m).

(** A state but for the totals, the turn and the log. *)
Definition resent s (totals : Totals) (turn : nat) (log : list Event) : MainChannel B :=
  mkMainChannel (mc_buffer s) (mc_monitors s) (mc_session s) (mc_agent s) (mc_resize s)
    (mc_starved s) (mc_replies s) (mc_clip s) (mc_clipboard s) totals (mc_pings s)
    (mc_mm_clock s) log turn.

Lemma log_event_run e s : log_event e s =
  (Ok tt, resent s (mc_totals s) (mc_turn s) (mc_log s ++ [e])).
Proof. reflexivity. Qed.

Lemma count_opcodes_run f s : exists totals,
  count_opcodes f s = (Ok tt, resent s totals (mc_turn s) (mc_log s)).
Proof. eexists. reflexivity. Qed.

Lemma capture_packet_run s : exists totals turn,
  capture_packet env s = (Ok tt, resent s totals turn (mc_log s)).
Proof.
  unfold capture_packet. destruct (env_capture env) as [room|].
  - unfold bind, ask. destruct (room (ch_turn s)); do 2 eexists; reflexivity.
  - exists (mc_totals s), (mc_turn s). by destruct s.
Qed.

Lemma send_run data s :
  (exists totals turn, send env data s = (Ok tt, resent s totals turn (mc_log s ++ [Ev_Wrote data]))) \/
  (exists totals turn, send env data s = (Err Chan_Io, resent s totals turn (mc_log s))).
Proof.
  unfold send. destruct (capture_packet_run s) as (t & n & E). rewrite !(bind_ok _ _ _ _ _ E).
  rewrite !(bind_ok (ask _) _ _ _ _ eq_refl).
  destruct (env_write_ok env _); [left|right]; do 2 eexists; reflexivity.
Qed.

Lemma send_with_log_run ty data s :
  (exists totals turn, send_with_log env ty data s =
     (Ok tt, resent s totals turn ((mc_log s ++ [Ev_Sent ty data]) ++ [Ev_Wrote data]))) \/
  (exists totals turn, send_with_log env ty data s =
     (Err Chan_Io, resent s totals turn (mc_log s ++ [Ev_Sent ty data]))).
Proof.
  unfold send_with_log, bind. rewrite log_event_run.
  destruct (count_opcodes_run (record_send ty)
    (resent s (mc_totals s) (mc_turn s) (mc_log s ++ [Ev_Sent ty data]))) as (t & ->).
  match goal with |- context [send env data ?s0] => destruct (send_run data s0)
    as [(t' & n' & ->)|(t' & n' & ->)] end; [left|right]; by exists t', n'.
Qed.

(** The rule for a write. *)
Lemma triple_send ty data (P : MainChannel B -> Prop) (Q : unit -> MainChannel B -> Prop) R :
  (forall s totals turn, P s ->
     Q tt (resent s totals turn ((mc_log s ++ [Ev_Sent ty data]) ++ [Ev_Wrote data]))) ->
  (forall s totals turn, P s -> R (resent s totals turn (mc_log s ++ [Ev_Sent ty data]))) ->
  triple P (send_with_log env ty data) Q R.
Proof.
  intros HQ HR s Hs. destruct (send_with_log_run ty data s) as [(t & n & ->)|(t & n & ->)]; auto.
Qed.

(** A message no monitor looks at. *)
Definition idle (ty : Z) : Prop :=
  u16 ty /\ ty <> main_client_AGENT_DATA /\ ty <> main_client_MOUSE_MODE_REQUEST /\
  ty <> main_client_PONG /\ ty <> main_client_ACK_SYNC.

Lemma facts_idle due bu mo to q st pe la cl mp log ty p : idle ty ->
  facts (B := B) due bu mo to q st pe la cl mp log ->
  facts due bu mo to q st pe la cl mp ((log ++ [Ev_Sent ty (make_message ty p)]) ++ [Ev_Wrote (make_message ty p)]).
Proof.
  intros (Hty & H1 & H2 & H3 & H4) F.
  apply (facts_quiet _ _ _ _ _ _ _ _ _ _ _ (Ev_Sent ty (make_message ty p))) in F; [|done].
  set (log1 := log ++ [_]) in *. destruct (wrote_monitors log1 ty p Hty) as (E1 & E2 & E3 & E4 & E5 & E6).
  rewrite (proj2 (Z.eqb_neq _ _) H1) in E1, E2. rewrite (proj2 (Z.eqb_neq _ _) H2) in E3.
  rewrite (proj2 (Z.eqb_neq _ _) H3), (proj2 (Z.eqb_neq _ _) H4) in E5.
  cbn [ifl ifz orb] in *. rewrite ?app_nil_r, ?Z.sub_0_r, ?Z.add_0_r in *.
  destruct F. split; rewrite ?E1, ?E2, ?E3, ?E4, ?E5, ?E6; try done.
  apply solvent_snoc; [done|]. rewrite E2. lia.
Qed.

Lemma holds_send ty p : idle ty -> holds (send_with_log env ty (make_message ty p)).
Proof.
  intros Hi due. apply triple_send; intros s totals turn Hs.
  - by apply facts_idle.
  - apply (log_ok_quiet _ (Ev_Sent ty (make_message ty p))); [done|]. by apply inv_failed in Hs.
Qed.

Lemma holds_ret {A} (a : A) : holds (ret a).
Proof. apply keeps_ret. Qed.

Lemma holds_bind {A C} (m : Mc B A) (k : A -> Mc B C) :
  holds m -> (forall a, holds (k a)) -> holds (bind m k).
Proof. apply keeps_bind. Qed.

Lemma holds_gets {A} (f : MainChannel B -> A) : holds (gets f).
Proof. by intros d s Hs. Qed.

Lemma holds_ask {A} (f : nat -> A) : holds (ask f : Mc B A).
Proof. by apply keeps_ask. Qed.

Lemma holds_when b (m : Mc B unit) : holds m -> holds (when b m).
Proof. intros Hm. by apply keeps_when. Qed.

(** Fields the invariant does not mention. *)
Lemma holds_starved f : holds (modify (on_starved f)).
Proof. by apply keeps_modify. Qed.
Lemma holds_replies f : holds (modify (on_replies f)).
Proof. by apply keeps_modify. Qed.
Lemma holds_pings f : holds (modify (on_pings f)).
Proof. by apply keeps_modify. Qed.
Lemma holds_clip f : holds (modify (on_clip f)).
Proof. by apply keeps_modify. Qed.
Lemma holds_totals f : holds (modify (on_totals f)).
Proof. by apply keeps_modify. Qed.
Lemma holds_mm_clock f : holds (modify (on_mm_clock f)).
Proof. by apply keeps_modify. Qed.

Lemma holds_caps v : holds (set_agent (ag_set_caps_announced v)).
Proof. by apply keeps_modify. Qed.
Lemma holds_guest_caps v : holds (set_agent (ag_set_guest_caps v)).
Proof. by apply keeps_modify. Qed.
Lemma holds_clip_selection v : holds (set_agent (ag_set_clip_selection v)).
Proof. by apply keeps_modify. Qed.
Lemma holds_connected v : holds (set_agent (ag_set_connected v)).
Proof. by apply keeps_modify. Qed.

Lemma holds_publish_agent_connected : holds publish_agent_connected.
Proof. apply holds_bind; [apply holds_gets|]. intros c. by apply holds_log. Qed.

(** * The agent's queue *)

Lemma agent_message_bytes ty payload : u32 ty -> bytes payload -> zlen payload <= u32_max ->
  agent_bytes_ok (agent_message ty payload).
Proof.
  intros Hty Hb Hl. pose proof (zlen_nonneg payload).
  assert (u32 (zlen payload)) as Hz by (unfold in_unsigned, u32_max in *; lia).
  exists (mkAgentMessage (VdAgentMessageHeader_new ty (zlen payload)) payload). split.
  - unfold agent_message, agent_wire. cbn [am_header am_payload].
    by rewrite as_unsigned_id.
  - unfold agent_message_ok. cbn [am_header am_payload]. split_and!; try done.
Qed.

(** Everything for the agent: the bodies written, then what is queued. *)
Definition agent_total s : list Z :=
  concat (agent_bodies (mc_log s)) ++ backlog (ag_queue (mc_agent s)).

(** The fields a write to the agent leaves alone. *)
Definition rest_of s :=
  (mc_buffer s, mc_monitors s, mc_session s, mc_resize s, mc_clip s, mc_clipboard s, mc_pings s,
   mc_mm_clock s, ag_connected (mc_agent s), ag_stream (mc_agent s),
   ag_caps_announced (mc_agent s), ag_guest_caps (mc_agent s), ag_clip_selection (mc_agent s)).

(** Nothing more can go out now. *)
Definition settled s : Prop :=
  ag_tokens (mc_agent s) = 0 \/ aq_is_empty (ag_queue (mc_agent s)) = true.

Definition state_at due total n rest s : Prop :=
  inv due s /\ agent_total s = total /\ aq_len (ag_queue (mc_agent s)) <= n /\ rest_of s = rest.

Lemma chunk_monitors log chunk :
  let e := Ev_Wrote (make_message main_client_AGENT_DATA chunk) in
  agent_bodies (log ++ [e]) = agent_bodies log ++ [chunk] /\
  credit (log ++ [e]) = credit log - 1 /\
  mouse_requests (log ++ [e]) = mouse_requests log /\
  mouse_confirmations (log ++ [e]) = mouse_confirmations log /\
  answers (log ++ [e]) = answers log /\ answers_due (log ++ [e]) = answers_due log.
Proof.
  destruct (wrote_monitors log main_client_AGENT_DATA chunk) as (E1 & E2 & E3 & E4 & E5 & E6);
    [done|].
  change (main_client_AGENT_DATA =? main_client_AGENT_DATA) with true in *.
  change (main_client_AGENT_DATA =? main_client_MOUSE_MODE_REQUEST) with false in *.
  change (_ || _) with false in E5. cbn [ifl ifz] in *. rewrite app_nil_r in E5.
  rewrite Z.add_0_r in E3. done.
Qed.

(** The state after a chunk is written and its token spent. *)
Lemma facts_chunk due s chunk q' : inv due s -> 0 < ag_tokens (mc_agent s) ->
  next_chunk (ag_queue (mc_agent s)) = Some (Some chunk, q') ->
  facts due (mc_buffer s) (mc_monitors s) (ag_tokens (mc_agent s) - 1) q'
    (ag_stream (mc_agent s)) (rz_pending (mc_resize s)) (rz_last_sent (mc_resize s))
    (mc_clipboard s) (se_mouse_request_pending (mc_session s))
    ((mc_log s ++ [Ev_Sent main_client_AGENT_DATA (make_message main_client_AGENT_DATA chunk)])
      ++ [Ev_Wrote (make_message main_client_AGENT_DATA chunk)]).
Proof.
  intros F Ht E.
  apply (facts_quiet _ _ _ _ _ _ _ _ _ _ _
    (Ev_Sent main_client_AGENT_DATA (make_message main_client_AGENT_DATA chunk))) in F; [|done].
  set (log1 := mc_log s ++ [_]) in *.
  destruct (chunk_monitors log1 chunk) as (E1 & E2 & E3 & E4 & E5 & E6).
  destruct F as [Hb Hmo Hto Hq Hst Hp Hcl (ms & Hms & Hw) Hu Hc Hs Hm Ha].
  destruct (next_chunk_cases _ Hq) as [[_ E']|(c & q & E' & Hq' & _ & Hsz & _ & Hcase)];
    rewrite E in E'; [done|]. injection E' as <- <-.
  split; rewrite ?E1, ?E2, ?E3, ?E4, ?E5, ?E6; try done; try lia.
  - rewrite concat_app. cbn [concat]. rewrite app_nil_r, <- app_assoc.
    destruct Hcase as [(_ & Ho & _)|(Ho & m & Hun & Hm')].
    + exists ms. by rewrite <- Ho.
    + exists (ms ++ [m]). rewrite Ho, app_nil_r in Hw. rewrite concat_app, <- Hw.
      cbn [concat]. rewrite app_nil_r, <- Hm'. split; [|done].
      apply list.Forall_app. split; [done|]. rewrite Hun in Hu. apply Forall_cons_iff in Hu as [? _].
      by repeat constructor.
  - destruct Hcase as [(_ & _ & ->)|(_ & m & Hun & _)]; [done|].
    rewrite Hun in Hu. by apply Forall_cons_iff in Hu as [_ ?].
  - apply list.Forall_app. split; [done|]. constructor; [exact Hsz|constructor].
  - apply solvent_snoc; [done|]. rewrite E2. lia.
Qed.

Lemma triple_flush_loop due total n rest fuel :
  triple (fun s => state_at due total n rest s /\
                   (length (backlog (ag_queue (mc_agent s))) < fuel)%nat)
    (flush_loop env fuel) (fun _ s => state_at due total n rest s /\ settled s) failed.
Proof.
  induction fuel as [|fuel IH]; intros s [(Hi & Ht & Hn & Hr) Hf]; [lia|].
  cbn [flush_loop]. rewrite (bind_ok (agent_field _) _ _ _ _ eq_refl).
  destruct (Z.ltb_spec 0 (ag_tokens (mc_agent s))) as [Hpos|Hz]; cbn [negb].
  2: { cbn. split; [done|]. left. destruct Hi as [_ _ [? _] _ _ _ _ _ _ _ _ _ _]. lia. }
  rewrite (bind_ok (agent_field _) _ _ _ _ eq_refl).
  pose proof (f_queue _ _ _ _ _ _ _ _ _ _ _ Hi) as Hq.
  destruct (next_chunk_cases _ Hq) as [[He En]|(chunk & q' & En & Hq' & _ & Hsz & Hlen & _)];
    rewrite En; rewrite (bind_ok (unwrap (Some _)) _ _ _ _ eq_refl); cbn [fst snd].
  { split; [done|]. by right. }
  rewrite (bind_ok (set_agent _) _ _ _ _ eq_refl).
  set (s1 := on_agent (ag_set_queue q') s).
  pose proof (next_chunk_backlog _ _ _ Hq En) as Hrem.
  destruct (send_with_log_run main_client_AGENT_DATA (make_message main_client_AGENT_DATA chunk) s1)
    as [(t & tn & Es)|(t & tn & Es)].
  - rewrite (bind_ok _ _ _ _ _ Es), (bind_ok (set_agent _) _ _ _ _ eq_refl). apply IH.
    split; [split; [|split; [|split]]|].
    + exact (facts_chunk due s chunk q' Hi Hpos En).
    + rewrite <- Ht. unfold agent_total. cbn [mc_log mc_agent resent on_agent ag_set_tokens ag_queue s1 ag_set_queue].
      rewrite (proj1 (chunk_monitors _ _)). rewrite Hrem, concat_app. cbn [concat].
      rewrite app_nil_r, <- app_assoc.
      f_equal. by destruct (quiet_monitors (mc_log s) (Ev_Sent main_client_AGENT_DATA
        (make_message main_client_AGENT_DATA chunk)) eq_refl) as (-> & _).
    + cbn. lia.
    + exact Hr.
    + cbn. rewrite Hrem, length_app in Hf. unfold zlen in Hsz. lia.
  - unfold bind. rewrite Es. apply log_ok_quiet; [done|]. by apply inv_failed in Hi.
Qed.

(** Only the starvation record changes, and the turn. *)
Lemma note_run s : exists f turn,
  note_agent_starvation env s = (Ok tt, on_turn (fun _ => turn) (on_starved f s)).
Proof.
  unfold note_agent_starvation. rewrite (bind_ok (agent_field _) _ _ _ _ eq_refl).
  rewrite (bind_ok (gets _) _ _ _ _ eq_refl).
  destruct (agent_starved _ _ _), (st_since (mc_starved s)).
  - exists id, (mc_turn s). by destruct s.
  - unfold instant_now, elapsed_now. rewrite !(bind_ok (ask _) _ _ _ _ eq_refl).
    do 2 eexists. reflexivity.
  - eexists _, (mc_turn s). reflexivity.
  - exists id, (mc_turn s). by destruct s.
Qed.

Lemma triple_flush due total n rest :
  triple (state_at due total n rest) (flush_agent_queue env)
    (fun _ s => state_at due total n rest s /\ settled s) failed.
Proof.
  unfold flush_agent_queue. intros s Hs. rewrite (bind_ok (agent_field _) _ _ _ _ eq_refl).
  pose proof (triple_flush_loop due total n rest (S (length (backlog (ag_queue (mc_agent s))))) s)
    as Hl. unfold bind. destruct (flush_loop _ _ s) as [[[]|e|] s'];
    [|apply Hl; split; [done|lia]..].
  destruct Hl as [Hat Hset]; [split; [done|lia]|].
  destruct (note_run s') as (f & t & ->). by split.
Qed.

Lemma triple_send_agent_data due total n rest ty payload :
  agent_bytes_ok (agent_message ty payload) ->
  triple (state_at due total n rest) (send_agent_data_message env ty payload)
    (fun queued s =>
       state_at due (if queued then total ++ agent_message ty payload else total) (n + 1) rest s /\
       (n < MAX_QUEUED_AGENT_MESSAGES -> queued = true) /\ (queued = true -> settled s)) failed.
Proof.
  intros Hok s (Hi & Ht & Hn & Hr). unfold send_agent_data_message.
  rewrite (bind_ok (agent_field _) _ _ _ _ eq_refl).
  pose proof (f_queue _ _ _ _ _ _ _ _ _ _ _ Hi) as Hq.
  assert (agent_message ty payload <> []) as Hne.
  { destruct Hok as (m & -> & _). unfold agent_wire. intros E. apply (f_equal zlen) in E.
    rewrite zlen_app, zlen_agent_header in E. pose proof (zlen_nonneg (am_payload m)).
    change (zlen (@nil Z)) with 0 in E. lia. }
  destruct (aq_push (ag_queue (mc_agent s)) (agent_message ty payload)) as [ok q'] eqn:E.
  destruct (aq_push_cases _ _ _ _ Hq Hne E) as (Hq' & Ho & Hu).
  destruct ok; cbn [negb]; [|destruct Hu as [-> Hfull]].
  2: { split; [split_and!; done || lia|]. split; [intros; exfalso; lia|done]. }
  destruct Hu as [Hu Hroom]. rewrite (bind_ok (set_agent _) _ _ _ _ eq_refl).
  set (s1 := on_agent (ag_set_queue q') s).
  assert (state_at due (total ++ agent_message ty payload) (n + 1) rest s1) as Hs1.
  { split_and!; [| | |done].
    - destruct Hi. split; try done; change (ag_queue (mc_agent s1)) with q'.
      + by rewrite Ho.
      + rewrite Hu. apply list.Forall_app. split; [done|]. by repeat constructor.
    - change (concat (agent_bodies (mc_log s)) ++ backlog q' = total ++ agent_message ty payload).
      rewrite <- Ht. unfold agent_total, backlog. rewrite Ho, Hu, concat_app. cbn [concat].
      by rewrite app_nil_r, <- !app_assoc.
    - change (aq_len q' <= n + 1). unfold aq_push in E. destruct (_ <=? _); [done|]. destruct (agent_message ty payload); [done|].
      injection E as <-. unfold aq_len in *. cbn. unfold push. rewrite zlen_app.
      change (zlen [_]) with 1. lia. }
  pose proof (triple_flush due _ _ _ s1 Hs1) as Hf. unfold bind at 1.
  destruct (flush_agent_queue env s1) as [[[]|e|] s2]; [|done|done]. destruct Hf as [Hs2 Hset].
  unfold bind, when. destruct (bool_decide _); by split_and!.
Qed.

Lemma inv_state_at due s : inv due s ->
  state_at due (agent_total s) (aq_len (ag_queue (mc_agent s))) (rest_of s) s.
Proof. intros Hi. by split_and!. Qed.

Lemma holds_note : holds (note_agent_starvation env).
Proof. intros due s Hs. by destruct (note_run s) as (f & t & ->). Qed.

Lemma holds_flush : holds (flush_agent_queue env).
Proof.
  intros due s Hs. pose proof (triple_flush due _ _ _ s (inv_state_at due s Hs)) as H.
  by destruct (flush_agent_queue env s) as [[[]|e|] s']; [apply H|..].
Qed.

Lemma holds_send_agent_data ty payload : u32 ty -> bytes payload -> zlen payload <= u32_max ->
  holds (send_agent_data_message env ty payload).
Proof.
  intros Hty Hb Hl due s Hs.
  pose proof (triple_send_agent_data due _ _ _ ty payload
    (agent_message_bytes ty payload Hty Hb Hl) s (inv_state_at due s Hs)) as H.
  by destruct (send_agent_data_message env ty payload s) as [[queued|e|] s']; [apply H|..].
Qed.

End Keeps.

(** * Message bodies for the agent *)

(** A body an agent message can carry. *)
Definition body_ok (payload : list Z) : Prop := bytes payload /\ zlen payload <= u32_max.

Lemma caps_body : body_ok (write client_agent_capabilities []).
Proof. split; [apply (bool_decide_unpack _); reflexivity|done]. Qed.

Lemma mul_u32_Some `{BuildProfile} a b : (arithmetic_checked = true -> a * b <= u32_max) ->
  exists x, mul_u32 a b = Some x.
Proof.
  intros Hab. unfold mul_u32. destruct arithmetic_checked; [|by eexists].
  rewrite (proj2 (Z.leb_le _ _)) by auto. by eexists.
Qed.

(** A checked build has no room for a third monitor three thousand million
    pixels wide; a release build wraps its position. *)
Lemma third_monitor_overflows :
  @agent_monitors_config {| arithmetic_checked := true |} 3 3000000000 1 = None /\
  exists config, @agent_monitors_config {| arithmetic_checked := false |} 3 3000000000 1 = Some config.
Proof. split; [done|by eexists]. Qed.

Lemma agent_monitors_ok `{BuildProfile} active width height n i :
  size_ok (width, height) -> 0 <= i -> i + Z.of_nat n <= 255 ->
  exists ms, agent_monitors active width height i n = Some ms /\ length ms = n.
Proof.
  intros Hs. revert i. induction n as [|n IH]; intros i Hi Hn; cbn [agent_monitors]; [by exists []|].
  destruct (IH (i + 1)) as (ms & -> & Hl); [lia..|].
  destruct (1 <? active).
  - destruct (mul_u32_Some width i) as (x & ->).
    { destruct Hs as (Hw & _ & Hc). cbn in *. unfold in_unsigned in *. intros Ht. specialize (Hc Ht). nia. }
    cbn. eexists. split; [done|]. cbn. by rewrite Hl.
  - cbn. eexists. split; [done|]. cbn. by rewrite Hl.
Qed.

Lemma bytes_MonConfig m : bytes (encode (T := MonConfig) m).
Proof.
  unfold encode. cbn [write MonConfig_wire]. unfold MonConfig_write, extend_from_slice.
  rewrite app_nil_l. repeat (apply list.Forall_app; split); apply to_le_bytes.
Qed.

Lemma bytes_MonConfigs ms : bytes (concat (map (encode (T := MonConfig)) ms)) /\
  zlen (concat (map (encode (T := MonConfig)) ms)) = 20 * zlen ms.
Proof.
  induction ms as [|m ms [IHb IHl]]; [done|]. cbn [map concat]. split.
  - apply list.Forall_app. split; [apply bytes_MonConfig|done].
  - rewrite zlen_app, IHl, zlen_cons, zlen_MonConfig. lia.
Qed.

Lemma monitors_config_ok `{BuildProfile} monitors width height : 0 <= monitors < 256 -> size_ok (width, height) ->
  exists config, agent_monitors_config monitors width height = Some config /\
    body_ok (write config []).
Proof.
  intros Hm Hs. unfold agent_monitors_config.
  set (active := if monitors =? 0 then 1 else monitors).
  assert (1 <= active < 256) as Ha by (unfold active; destruct (Z.eqb_spec monitors 0); lia).
  destruct (agent_monitors_ok active width height (Z.to_nat active) 0 Hs) as (ms & -> & Hl); [lia..|].
  cbn [mbind option_bind]. eexists. split; [done|].
  cbn [write MonitorsConfig_wire]. unfold MonitorsConfig_write, MonitorsConfig_has_physical_size.
  cbn [MonitorsConfig_flags MonitorsConfig_monitors].
  assert (flag_physical_size (if 1 <? active then VD_AGENT_CONFIG_MONITORS_FLAG_USE_POS else 0) = false)
    as -> by (by destruct (1 <? active)).
  rewrite write_all_app. unfold extend_from_slice. rewrite app_nil_l. split.
  - repeat (apply list.Forall_app; split); try apply to_le_bytes. apply bytes_MonConfigs.
  - rewrite !zlen_app, !zlen_to_le, (proj2 (bytes_MonConfigs ms)).
    unfold zlen in *. rewrite Hl. unfold u32_max. lia.
Qed.

Section Agent.
Context {B : Type} `{CB : ClipboardBackend B} {OK : ClipboardBounded B} `{BP : BuildProfile} (env : Env).
Implicit Type s : MainChannel B.

Abbreviation holds m := (keeps inv failed m).

Lemma holds_agent_field {A} (f : Agent -> A) : holds (agent_field f).
Proof. apply holds_gets. Qed.

Lemma holds_now : holds (instant_now env).
Proof. apply holds_ask. Qed.
Lemma holds_elapsed : holds (elapsed_now env).
Proof. apply holds_ask. Qed.

Lemma holds_send_body ty payload : u32 ty -> body_ok payload ->
  holds (send_agent_data_message env ty payload).
Proof. intros Hty [Hb Hl]. by apply holds_send_agent_data. Qed.

Lemma holds_start : holds (send_agent_start env).
Proof. apply holds_send. by split_and!. Qed.

Lemma holds_announce : holds (maybe_send_announce_capabilities env).
Proof.
  unfold maybe_send_announce_capabilities. apply holds_bind; [apply holds_agent_field|].
  intros a. destruct (_ || _); [apply holds_ret|].
  apply holds_bind; [by apply holds_send_body; [|apply caps_body]|].
  intros queued. apply holds_when, holds_caps.
Qed.

(** [GuestHas] and a sent size both leave nothing pending. *)
Lemma holds_not_pending f : (forall r, rz_pending (f r) = None) -> holds (set_resize f).
Proof.
  intros Hf due s Hs. cbn. destruct Hs. split; try done. cbn. by rewrite Hf.
Qed.

Lemma holds_monitors_config : holds (maybe_send_agent_monitors_config env).
Proof.
  intros due s Hs. unfold maybe_send_agent_monitors_config.
  rewrite (bind_ok (gets _) _ _ _ _ eq_refl).
  destruct (rz_pending (mc_resize s)) as [[w h]|] eqn:Ep; [|done].
  destruct (f_pending _ _ _ _ _ _ _ _ _ _ _ Hs _ Ep) as [Hsz Hlast].
  rewrite (bind_ok (agent_field _) _ _ _ _ eq_refl). cbn [id].
  destruct (ag_connected (mc_agent s)); cbn [negb]; [|done].
  destruct (ag_caps_announced (mc_agent s)); cbn [negb]; [|done].
  rewrite bool_decide_eq_false_2 by done.
  unfold bind at 1, send_agent_monitors_config. rewrite (bind_ok (gets _) _ _ _ _ eq_refl).
  destruct (monitors_config_ok (mc_monitors s) w h (f_monitors _ _ _ _ _ _ _ _ _ _ _ Hs) Hsz)
    as (config & -> & Hb).
  rewrite (bind_ok (unwrap (Some _)) _ _ _ _ eq_refl).
  pose proof (holds_send_body VD_AGENT_MONITORS_CONFIG (write config []) ltac:(done) Hb due s Hs) as H.
  destruct (send_agent_data_message env _ _ s) as [[queued|e|] s']; [|done|done].
  by apply holds_when; [apply holds_not_pending|].
Qed.

Lemma holds_settled_monitors : holds (maybe_send_settled_monitors_config env).
Proof.
  unfold maybe_send_settled_monitors_config. apply holds_bind; [apply holds_gets|].
  intros [t|]; [apply holds_ret|apply holds_monitors_config].
Qed.

Lemma holds_connect : holds (connect_agent env).
Proof.
  apply holds_bind; [apply holds_start|intros _].
  apply holds_bind; [apply holds_announce|intros _]. apply holds_settled_monitors.
Qed.

(** * The clipboard *)

(** A message whose body is within bounds in either layout. *)
Definition clip_ok {T} `{ClipboardWireType T} (msg : T) : Prop :=
  forall b, body_ok (write_with msg [] b).

Lemma body_app a b : body_ok a -> bytes b -> zlen a + zlen b <= u32_max -> body_ok (a ++ b).
Proof. intros [Ha _] Hb Hl. split; [by apply list.Forall_app|]. by rewrite zlen_app. Qed.

Lemma selection_body selection b : u8 selection -> body_ok (selection_bytes b selection) /\
  zlen (selection_bytes b selection) <= 4.
Proof.
  intros Hs. destruct b; cbn; [|by split].
  split; [|done]. split; [|done]. unfold in_unsigned in *. repeat constructor; lia.
Qed.

Lemma grab_ok : clip_ok (mkClipboardGrab VD_AGENT_CLIPBOARD_SELECTION_CLIPBOARD [VD_AGENT_CLIPBOARD_UTF8_TEXT]).
Proof. intros []; (split; [apply (bool_decide_unpack _); reflexivity|done]). Qed.

Lemma request_ok : clip_ok (mkClipboardRequest VD_AGENT_CLIPBOARD_SELECTION_CLIPBOARD VD_AGENT_CLIPBOARD_UTF8_TEXT).
Proof. intros []; (split; [apply (bool_decide_unpack _); reflexivity|done]). Qed.

Lemma data_ok selection ty text : u8 selection -> clip_text text -> clip_ok (mkClipboard selection ty text).
Proof.
  intros Hs [Hb Hl] b. cbn [write_with Clipboard_clip]. unfold Clipboard_write_with.
  cbn [Clipboard_selection Clipboard_clipboard_type Clipboard_data]. unfold extend_from_slice.
  rewrite write_selection_eq, app_nil_l, <- app_assoc.
  destruct (selection_body selection b Hs) as [Hsel Hlen].
  apply body_app; [done|apply list.Forall_app; split; [apply to_le_bytes|done]|].
  rewrite zlen_app, zlen_to_le. unfold MAX_CLIP_TEXT, u32_max in *. lia.
Qed.

Lemma none_ok selection : u8 selection -> clip_ok (mkClipboard selection VD_AGENT_CLIPBOARD_NONE []).
Proof. intros Hs. apply data_ok; [done|]. split; [constructor|done]. Qed.

Lemma holds_clipboard_message {T} `{ClipboardWireType T} ty (msg : T) : u32 ty -> clip_ok msg ->
  holds (send_clipboard_message env ty msg).
Proof.
  intros Hty Hm due s Hs. unfold send_clipboard_message, clipboard_payload, bind, agent_field, gets.
  destruct (ag_clip_selection (mc_agent s)) as [b|]; [|done].
  by apply holds_send_body.
Qed.

Lemma holds_grab : holds (send_clipboard_grab env).
Proof. apply holds_clipboard_message; [done|apply grab_ok]. Qed.
Lemma holds_request : holds (send_clipboard_request env).
Proof. apply holds_clipboard_message; [done|apply request_ok]. Qed.
Lemma holds_data text : clip_text text -> holds (send_clipboard_data env text).
Proof. intros Ht. apply holds_clipboard_message; [done|by apply data_ok]. Qed.
Lemma holds_none selection : u8 selection -> holds (send_clipboard_none env selection).
Proof. intros Hs. apply holds_clipboard_message; [done|by apply none_ok]. Qed.

(** A result nobody looks at. *)
Lemma holds_ignore {A} (m : Mc B A) : holds m -> holds (let? x := m in ret tt).
Proof. intros Hm. apply holds_bind; [done|]. intros _. apply holds_ret. Qed.

Lemma triple_get_text due cb :
  triple (fun s => inv due s /\ mc_clipboard s = Some cb) (get_text_blocking env cb)
    (fun read s => inv due s /\ forall text, read = Some (Some text) -> clip_text text) failed.
Proof.
  intros s [Hs Hcb]. pose proof (f_clipboard _ _ _ _ _ _ _ _ _ _ _ Hs cb Hcb) as Hok.
  destruct (cb_get_ok cb Hok) as [Hok' Ht]. unfold get_text_blocking.
  destruct (cb_get_text cb) as [text cb'] eqn:E. cbn [fst snd] in *.
  unfold bind, ask, modify, ret. cbn. split.
  - destruct Hs. split; try done. by intros cb2 [= <-].
  - intros t. destruct (env_clip_read env _); intros [= ->]. by apply Ht.
Qed.

Lemma triple_read_host due :
  triple (inv due) (read_host_clipboard_for_guest env)
    (fun text s => inv due s /\ forall t, text = Some t -> clip_text t) failed.
Proof.
  intros s Hs. unfold read_host_clipboard_for_guest. rewrite (bind_ok (gets _) _ _ _ _ eq_refl).
  destruct (mc_clipboard s) as [cb|] eqn:Ecb; [|by split].
  pose proof (triple_get_text due cb s (conj Hs Ecb)) as H. unfold bind.
  destruct (get_text_blocking env cb s) as [[read|e|] s']; [|done|done].
  destruct H as [Hi Ht]. split; [done|]. intros t. destruct read as [text|]; [|done].
  cbn. intros ->. by apply Ht.
Qed.

Lemma holds_poll : holds (poll_host_clipboard env).
Proof.
  intros due s Hs. unfold poll_host_clipboard. rewrite (bind_ok (gets _) _ _ _ _ eq_refl).
  destruct (mc_clipboard s) as [cb|] eqn:Ecb; [|done].
  rewrite (bind_ok (gets _) _ _ _ _ eq_refl). destruct (_ && _); [done|].
  pose proof (triple_get_text due cb s (conj Hs Ecb)) as H. unfold bind at 1.
  destruct (get_text_blocking env cb s) as [[[text|]|e|] s']; [|by apply H|done|done].
  destruct H as [Hi _]. revert s' Hi. apply holds_bind; [apply holds_clip|]. intros _.
  destruct text as [[|b text]|]; [apply holds_ret| |apply holds_ret].
  apply holds_when, holds_bind; [apply holds_clip|]. intros _. apply holds_ignore, holds_grab.
Qed.

(** What a decoded clipboard message of at most [MAX_AGENT_MESSAGE_SIZE] bytes
    satisfies. *)
Definition guest_ok (msg : GuestClipboard) : Prop :=
  u8 (GuestClipboard_selection msg) /\
  match msg with
  | Gc_Data m => bytes (Clipboard_data m) /\ zlen (Clipboard_data m) <= MAX_AGENT_MESSAGE_SIZE
  | _ => True
  end.

Lemma lossy_clip_text data : bytes data -> zlen data <= MAX_AGENT_MESSAGE_SIZE ->
  clip_text (from_utf8_lossy data).
Proof.
  intros Hb Hl. split; [by apply from_utf8_lossy_bytes|].
  pose proof (from_utf8_lossy_length data). unfold zlen, MAX_CLIP_TEXT, MAX_AGENT_MESSAGE_SIZE in *. lia.
Qed.

Lemma holds_clipboard_set text : clip_text text ->
  holds (modify (on_clipboard (fmap (fun cb => snd (cb_set_text text cb))))).
Proof.
  intros Ht due s Hs. pose proof (f_clipboard _ _ _ _ _ _ _ _ _ _ _ Hs) as Hcb. cbn.
  destruct Hs. split; try done. cbn. destruct (mc_clipboard s) as [cb|]; [|done].
  intros cb' [= <-]. by apply cb_set_ok; [apply Hcb|].
Qed.

Lemma holds_guest_clipboard msg : guest_ok msg -> holds (handle_guest_clipboard env msg).
Proof.
  intros [Hsel Hm]. unfold handle_guest_clipboard. destruct (negb _).
  { destruct msg; try apply holds_ret. by apply holds_ignore, holds_none. }
  destruct msg as [grab|data|request|release]; cbn [GuestClipboard_selection] in *.
  - apply holds_when, holds_ignore, holds_request.
  - destruct (negb _); [apply holds_ret|]. destruct (Clipboard_data data) as [|b l] eqn:E; [apply holds_ret|].
    destruct Hm as [Hb Hl]. apply holds_bind; [by apply holds_clipboard_set, lossy_clip_text|].
    intros _. apply holds_clip.
  - intros due s Hs. destruct (_ =? _).
    + pose proof (triple_read_host due s Hs) as H. unfold bind at 1.
      destruct (read_host_clipboard_for_guest env s) as [[[text|]|e|] s']; [|by apply holds_ignore; [apply holds_none|apply H]|done|done].
      destruct H as [Hi Ht]. apply holds_ignore; [apply holds_data; by apply Ht|done].
    + cbn. apply holds_ignore; [by apply holds_none|done].
  - apply holds_ret.
Qed.

(** * The agent's messages *)

Lemma read_rest_length r bs r' : read_rest r = (Ok bs, r') -> zlen bs <= zlen (br_data r) - br_pos r.
Proof.
  unfold read_rest, bind, remaining, get_state, bind, unwrap, checked_sub.
  destruct (Z.leb_spec (br_pos r) (zlen (br_data r))) as [Hle|]; [|done]. cbn.
  unfold read_bytes, remaining, bind, get_state, unwrap, checked_sub.
  rewrite (proj2 (Z.leb_le _ _) Hle). cbn. rewrite Z.ltb_irrefl.
  destruct (checked_add _ _) as [e|] eqn:Ee; [|done]. cbn.
  destruct (slice _ _ e) as [l|] eqn:Es; [|done]. cbn. intros [= <- _].
  apply slice_length in Es. unfold checked_add in Ee. destruct (_ <=? _); [|done].
  injection Ee as <-. lia.
Qed.

Lemma decode_clipboard_length payload b (m : Clipboard) : bytes payload -> zlen payload <= isize_max ->
  decode_with payload b = Ok m -> zlen (Clipboard_data m) <= zlen payload.
Proof.
  intros Hb Hl. assert (reader_ok (reader_new payload)) as Hr
    by (split; cbn; [pose proof (zlen_nonneg payload); lia|done|done]).
  unfold decode_with. cbn [read_with Clipboard_clip]. unfold Clipboard_read_with, bind.
  pose proof (safe_read_selection b _ Hr) as H1. destruct (read_selection b _) as [[sel|e|] r1]; [|done..].
  destruct H1 as (Hr1 & Hd1 & _). pose proof (safe_read_u32 _ Hr1) as H2.
  destruct (read_u32 r1) as [[ty|e|] r2]; [|done..]. destruct H2 as ([Hp _ _] & Hd2 & _).
  destruct (read_rest r2) as [[d|e|] r3] eqn:E; [|done..]. cbn. intros [= <-]. cbn.
  apply read_rest_length in E. rewrite Hd2, Hd1 in *. cbn in *. lia.
Qed.

Lemma decode_guest agent_type payload b : bytes payload -> zlen payload <= MAX_AGENT_MESSAGE_SIZE ->
  match GuestClipboard_decode agent_type payload b with
  | Ok msg => guest_ok msg
  | Err _ => True
  | Panic => False
  end.
Proof.
  intros Hb Hl. assert (zlen payload <= isize_max) as Hz
    by (unfold MAX_AGENT_MESSAGE_SIZE, isize_max in *; lia).
  pose proof (@laws_never_panics _ _ _ (ClipboardGrab_laws b) payload Hb Hz) as Hg.
  pose proof (@laws_never_panics _ _ _ (Clipboard_laws b) payload Hb Hz) as Hd.
  pose proof (@laws_never_panics _ _ _ (ClipboardRequest_laws b) payload Hb Hz) as Hr.
  pose proof (@laws_never_panics _ _ _ (ClipboardRelease_laws b) payload Hb Hz) as Hrel.
  pose proof (decode_clipboard_length payload b) as Hlen.
  change (decode payload) with (decode_with (T := ClipboardGrab) payload b) in Hg.
  change (decode payload) with (decode_with (T := Clipboard) payload b) in Hd.
  change (decode payload) with (decode_with (T := ClipboardRequest) payload b) in Hr.
  change (decode payload) with (decode_with (T := ClipboardRelease) payload b) in Hrel.
  unfold GuestClipboard_decode.
  destruct (agent_type =? VD_AGENT_CLIPBOARD_GRAB).
  { destruct (decode_with payload b) as [m|e|]; [|done|done]. split; [apply Hg|done]. }
  destruct (agent_type =? VD_AGENT_CLIPBOARD).
  { destruct (decode_with (T := Clipboard) payload b) as [m|e|]; [|done|done].
    destruct Hd as ([Hs _] & _ & Hbd). split; [done|]. split; [done|].
    specialize (Hlen m Hb Hz eq_refl). cbn. lia. }
  destruct (agent_type =? VD_AGENT_CLIPBOARD_REQUEST).
  { destruct (decode_with (T := ClipboardRequest) payload b) as [m|e|]; [|done|done].
    split; [apply Hr|done]. }
  destruct (agent_type =? VD_AGENT_CLIPBOARD_RELEASE); [|done].
  destruct (decode_with (T := ClipboardRelease) payload b) as [m|e|]; [|done|done].
  split; [apply Hrel|done].
Qed.
End Agent.
