(* ===== verification/MainTurns.v ===== *)
(** Every message, and every turn of the event loop, keeps the main channel's
    invariant: the handlers of [MainChannel.v], from the agent's messages to
    [run_arms]. *)
From Stdlib Require Import ZArith Lia.
From stdpp Require Import base numbers list gmap tactics.
From S2P Require Import Prelude Reader Utf8 Wire MsgCommon ReceiveBuffer MsgMain MsgVdAgent AgentStream LinkMess AgentQueue OpcodeCounters Clipboard Channel ChannelSpec MainState MainAgent MainChannel MainSpec MainKeeps.

Open Scope Z_scope.
Open Scope rust_scope.

(** * What the reassembler hands over *)

Definition item_bytes (i : AgentStreamItem) : Prop :=
  match i with Message m => bytes (am_payload m) | _ => True end.

Definition collected (st : AgentStream.spec) : list Z :=
  match st with Sp_Header got => got | Sp_Body _ got => got | _ => [] end.

Lemma spec_byte_bytes cap st b : bytes (collected st) -> u8 b ->
  bytes (collected (fst (spec_byte cap st b))) /\ Forall item_bytes (snd (spec_byte cap st b)).
Proof.
  intros Hst Hb. destruct st as [got|h got|n|]; cbn [spec_byte collected] in *; [| |by case_match; cbn; rewrite !list.Forall_nil|by cbn; rewrite !list.Forall_nil].
  all: assert (bytes (got ++ [b])) as Hg by (apply list.Forall_app; by rewrite list.Forall_singleton).
  all: case_match; [by cbn; rewrite list.Forall_nil|].
  - unfold spec_header. destruct (decode _) as [h|e|];
      repeat case_match; repeat (done || constructor).
  - repeat (done || constructor).
Qed.

Lemma spec_bytes_bytes cap bs : bytes bs -> forall st, bytes (collected st) ->
  Forall item_bytes (snd (spec_bytes cap st bs)).
Proof.
  induction 1 as [|b bs Hb _ IH]; intros st Hst; cbn [spec_bytes]; [constructor|].
  destruct (spec_byte_bytes cap st b Hst Hb) as [Hc Hi].
  destruct (spec_byte cap st b) as [st1 o1]. cbn [fst snd] in *. specialize (IH st1 Hc).
  destruct (spec_bytes cap st1 bs) as [st2 o2]. by apply list.Forall_app.
Qed.

Definition item_payload_ok (i : AgentStreamItem) : Prop :=
  match i with
  | Message m => bytes (am_payload m) /\ zlen (am_payload m) <= MAX_AGENT_MESSAGE_SIZE
  | _ => True
  end.

Lemma push_items stream chunk : ar_ok stream -> ar_max_message_size stream = MAX_AGENT_MESSAGE_SIZE ->
  bytes chunk ->
  exists stream' items, ar_push stream chunk = Some (stream', items) /\ ar_ok stream' /\
    ar_max_message_size stream' = MAX_AGENT_MESSAGE_SIZE /\ Forall item_payload_ok items.
Proof.
  intros Hok Hmax Hb. destruct (push_refines stream chunk Hok Hb) as (st' & items & E & Hok' & Hm & Hsp).
  exists st', items. split_and!; [done|done|congruence|].
  destruct Hok as [_ Hst]. rewrite Hmax in *.
  assert (bytes (collected (spec_boundary (abs (ar_state stream)))) /\
    spec_ok MAX_AGENT_MESSAGE_SIZE (spec_boundary (abs (ar_state stream)))) as [Hc Hs].
  { destruct (ar_state stream) as [buf filled|h p c|n|]; cbn in *.
    - destruct Hst as (Hl & Hf & Hbuf). split; [by apply Forall_take|].
      split; [rewrite zlen_take; lia|by apply Forall_take].
    - destruct Hst as (_ & Hp & Hz & Hbp & _). done.
    - split; [constructor|done].
    - repeat (done || constructor). }
  pose proof (spec_bytes_bytes MAX_AGENT_MESSAGE_SIZE chunk Hb _ Hc) as HF1.
  destruct (spec_bytes_outcome MAX_AGENT_MESSAGE_SIZE chunk Hb _ Hs) as (_ & HF2 & _).
  rewrite Hsp in HF1, HF2. cbn [snd] in *.
  apply list.Forall_forall. intros i Hi. rewrite list.Forall_forall in HF1, HF2.
  specialize (HF1 i Hi). specialize (HF2 i Hi). destruct i as [m|h|h]; [|done|done].
  split; [done|]. cbn in HF2. rewrite !andb_true_iff, !Z.leb_le in HF2. lia.
Qed.

Section Turns.
Context {B : Type} `{CB : ClipboardBackend B} {OK : ClipboardBounded B} `{BP : BuildProfile} (env : Env).
Implicit Type s : MainChannel B.

Abbreviation holds m := (keeps inv failed m).

(** * The agent's messages *)

Lemma holds_reply reply : holds (handle_agent_reply env reply).
Proof.
  apply holds_bind; [apply holds_elapsed|intros ts].
  apply holds_bind; [apply holds_replies|intros _].
  apply holds_bind; [apply holds_gets|intros r].
  destruct (_ !! _); [|apply holds_ret].
  apply holds_bind; [apply holds_now|intros t]. apply holds_replies.
Qed.

Lemma holds_clipboard agent_type payload :
  bytes payload -> zlen payload <= MAX_AGENT_MESSAGE_SIZE ->
  holds (handle_clipboard_message env agent_type payload).
Proof.
  intros Hb Hl. apply holds_bind; [apply holds_agent_field|]. intros [b|]; [|apply holds_ret].
  pose proof (decode_guest agent_type payload b Hb Hl) as Hd.
  destruct (GuestClipboard_decode agent_type payload b) as [msg|e|]; [by apply holds_guest_clipboard| |done].
  destruct (_ =? _); [|apply holds_ret].
  pose proof (@laws_never_panics _ _ _ (ClipboardRelease_laws b) payload Hb
    ltac:(unfold MAX_AGENT_MESSAGE_SIZE, isize_max in *; lia)) as Hr.
  change (decode payload) with (decode_with (T := ClipboardRelease) payload b) in Hr.
  destruct (decode_with (T := ClipboardRelease) payload b) as [h|e'|]; [|apply holds_ret|done].
  destruct Hr as [Hr _]. by apply holds_ignore, holds_none.
Qed.

Lemma holds_announce_capabilities payload : bytes payload -> zlen payload <= isize_max ->
  holds (handle_announce_capabilities env payload).
Proof.
  intros Hb Hl. apply holds_bind; [apply holds_guest_caps|intros _].
  pose proof (laws_never_panics (T := AnnounceCapabilities) payload Hb Hl) as Hp.
  destruct (decode payload) as [c|e|]; [| |done].
  all: apply holds_bind; [apply holds_clip_selection|intros _].
  all: apply holds_bind; [|intros _; apply holds_settled_monitors].
  - destruct (_ =? 1); [|apply holds_ret].
    apply holds_bind; [apply holds_caps|intros _; apply holds_announce].
  - apply holds_ret.
Qed.

Lemma holds_agent_message agent_type payload :
  bytes payload -> zlen payload <= MAX_AGENT_MESSAGE_SIZE ->
  holds (handle_agent_message env agent_type payload).
Proof.
  intros Hb Hl. assert (zlen payload <= isize_max) as Hz
    by (unfold MAX_AGENT_MESSAGE_SIZE, isize_max in *; lia).
  apply holds_bind; [apply holds_guest_caps|intros _].
  destruct (is_clipboard_type _); [by apply holds_clipboard|].
  destruct (_ =? _); [by apply holds_announce_capabilities|].
  destruct (_ =? _); [|apply holds_ret].
  pose proof (laws_never_panics (T := VdAgentReply) payload Hb Hz) as Hp.
  destruct (decode payload) as [r|e|]; [apply holds_reply|apply holds_ret|done].
Qed.

Lemma holds_items items : Forall item_payload_ok items -> holds (handle_agent_stream_items env items).
Proof.
  induction 1 as [|i items Hi _ IH]; [apply holds_ret|].
  apply holds_bind; [|by intros _]. destruct i as [m|h|h]; [|apply holds_ret..].
  destruct Hi. by apply holds_agent_message.
Qed.

Lemma holds_reset : holds reset_agent_stream.
Proof.
  intros due s Hs. cbn. destruct Hs as [? ? ? ? [Ha Hm] ? ? ? ? ? ? ? ?]. split; try done.
  split; [|done]. destruct Ha as [Hc _]. split; [done|apply State_header_ok].
Qed.

Lemma holds_agent_data payload : bytes payload -> holds (handle_agent_data env payload).
Proof.
  intros Hb due s Hs. unfold handle_agent_data. rewrite (bind_ok (agent_field _) _ _ _ _ eq_refl).
  destruct (f_stream _ _ _ _ _ _ _ _ _ _ _ Hs) as [Hok Hmax].
  destruct (push_items _ payload Hok Hmax Hb) as (st' & items & -> & Hok' & Hmax' & Hitems).
  rewrite (bind_ok (unwrap (Some _)) _ _ _ _ eq_refl), (bind_ok (set_agent _) _ _ _ _ eq_refl).
  cbn [fst snd]. apply holds_items; [done|]. by destruct Hs; split.
Qed.
(** * Messages *)

Context (b : ReceiveBuffer).

(** The log with a message just recorded as received. *)
Definition hear (ty : Z) (payload : list Z) s : MainChannel B :=
  on_log (fun l => l ++ [Ev_Received ty payload]) s.

Ltac state_cbn :=
  cbn [on_agent on_log hear ag_set_tokens mc_buffer mc_monitors mc_session mc_agent mc_resize
       mc_clipboard mc_log ag_tokens ag_queue ag_stream].

(** The answer a message calls for. *)
Definition due_of (ty : Z) (payload : list Z) : list (list Z) :=
  match answer_due (Ev_Received ty payload) with Some a => [a] | None => [] end.

Definition grants (ty : Z) : bool :=
  (ty =? main_server_INIT) || (ty =? main_server_AGENT_CONNECTED_TOKENS)
  || (ty =? main_server_AGENT_TOKEN).

Lemma decode_ok {T} `{WireLaws T} payload : bytes payload -> zlen payload <= isize_max ->
  match decode (T := T) payload with Ok v => wire_wf v | Err _ => True | Panic => False end.
Proof. intros Hb Hl. by apply laws_never_panics. Qed.

Lemma credit_step_nonneg c ty payload : 0 <= c -> bytes payload -> zlen payload <= isize_max ->
  0 <= credit_step c (Ev_Received ty payload).
Proof.
  intros Hc Hb Hl. unfold credit_step.
  pose proof (decode_ok (T := MainInit) payload Hb Hl) as Hi.
  pose proof (decode_ok (T := AgentTokens) payload Hb Hl) as Ht.
  destruct (ty =? _); [destruct (decode (T := MainInit) payload) as [i|e|]; [|done..];
    destruct Hi as (_ & _ & _ & _ & _ & [? _] & _); lia|].
  destruct (ty =? _); [destruct (decode (T := AgentTokens) payload) as [t|e|]; [|done..]; destruct Ht; lia|].
  destruct (ty =? _); [destruct (decode (T := AgentTokens) payload) as [t|e|]; [|lia..]; destruct Ht; lia|done].
Qed.

Lemma heard_monitors log ty payload :
  let e := Ev_Received ty payload in
  agent_bodies (log ++ [e]) = agent_bodies log /\
  credit (log ++ [e]) = credit_step (credit log) e /\
  mouse_requests (log ++ [e]) = mouse_requests log /\
  mouse_confirmations (log ++ [e]) = mouse_confirmations log + ifz (is_client_mode e) /\
  answers (log ++ [e]) = answers log /\
  answers_due (log ++ [e]) = answers_due log ++ due_of ty payload.
Proof.
  intros e. unfold agent_bodies, mouse_requests, mouse_confirmations, answers, answers_due, due_of.
  rewrite credit_snoc, !omap_snoc. fold e. split_and!; try done; try by rewrite app_nil_r.
  rewrite zlen_app. by destruct (is_client_mode e).
Qed.

(** Hearing a message leaves the invariant but for the tokens, which the three
    messages that grant them adjust, and owes the message's answer. *)
Lemma heard_but_tokens ty payload s : inv (owes b []) s -> bytes payload -> zlen payload <= isize_max ->
  inv (owes b (due_of ty payload)) (on_agent (ag_set_tokens 0) (hear ty payload s)).
Proof.
  intros F Hb Hl. destruct (heard_monitors (mc_log s) ty payload) as (E1 & E2 & E3 & E4 & E5 & E6).
  destruct F as [? ? ? ? ? ? ? Hw ? ? Hs Hm Ha].
  pose proof (credit_step_nonneg (credit (mc_log s)) ty payload ltac:(lia) Hb Hl) as Hc.
  split; state_cbn; rewrite ?E1, ?E2, ?E3, ?E4, ?E5, ?E6; try done.
  - apply solvent_snoc; [done|]. by rewrite E2.
  - unfold ifz. destruct (is_client_mode _); lia.
  - rewrite Ha. by rewrite app_nil_r.
Qed.

Lemma heard_plain ty payload s : inv (owes b []) s -> bytes payload -> zlen payload <= isize_max ->
  grants ty = false -> inv (owes b (due_of ty payload)) (hear ty payload s).
Proof.
  intros Hi Hb Hl Hg. pose proof (heard_but_tokens ty payload s Hi Hb Hl) as F.
  pose proof (f_tokens _ _ _ _ _ _ _ _ _ _ _ Hi) as Ht. destruct F. split; try done.
  cbn. rewrite credit_snoc. unfold credit_step. unfold grants in Hg.
  apply orb_false_iff in Hg as [[-> ->]%orb_false_iff ->]. done.
Qed.

(** The answer owed is given. *)
Lemma triple_answer ty p : u16 ty -> (ty =? main_client_PONG) || (ty =? main_client_ACK_SYNC) = true ->
  ty <> main_client_AGENT_DATA -> ty <> main_client_MOUSE_MODE_REQUEST ->
  triple (inv (owes b [make_message ty p])) (send_with_log env ty (make_message ty p)) (fun _ => inv (owes b [])) failed.
Proof.
  intros Hty Ha Hn1 Hn2. apply triple_send; intros s totals turn F.
  2: { apply (log_ok_quiet _ (Ev_Sent ty (make_message ty p))); [done|]. by apply inv_failed in F. }
  apply (facts_quiet _ _ _ _ _ _ _ _ _ _ _ (Ev_Sent ty (make_message ty p))) in F; [|done].
  unfold inv. cbn [resent mc_buffer mc_monitors mc_session mc_agent mc_resize mc_clipboard mc_log].
  set (log1 := mc_log s ++ [_]) in *.
  destruct (wrote_monitors log1 ty p Hty) as (E1 & E2 & E3 & E4 & E5 & E6).
  rewrite (proj2 (Z.eqb_neq _ _) Hn1) in E1, E2. rewrite (proj2 (Z.eqb_neq _ _) Hn2) in E3.
  rewrite Ha in E5. cbn [ifl ifz] in *. rewrite ?app_nil_r, ?Z.sub_0_r, ?Z.add_0_r in *.
  destruct F. split; rewrite ?E1, ?E2, ?E3, ?E4, ?E5, ?E6; try done.
  - apply solvent_snoc; [done|]. rewrite E2. lia.
  - rewrite <- app_assoc. by rewrite app_nil_r.
Qed.

Lemma holds_decode {T} `{WireLaws T} ty payload : bytes payload -> zlen payload <= isize_max ->
  holds (must_decode (T := T) ty payload).
Proof.
  intros Hb Hl. unfold must_decode. pose proof (decode_ok (T := T) payload Hb Hl).
  destruct (decode payload); [apply holds_ret| |done]. apply keeps_throw. apply inv_failed.
Qed.

Lemma holds_try_decode {T} `{WireLaws T} payload : bytes payload -> zlen payload <= isize_max ->
  holds (try_decode (T := T) payload).
Proof.
  intros Hb Hl. unfold try_decode. pose proof (decode_ok (T := T) payload Hb Hl).
  destruct (decode payload); [apply holds_ret..|done].
Qed.

Lemma holds_set_mm_clock t : holds (set_mm_clock env t).
Proof.
  apply holds_bind; [apply holds_elapsed|intros ts].
  apply holds_bind; [apply holds_now|intros n]. apply holds_mm_clock.
Qed.
(** ** The mouse mode *)

Lemma holds_mouse_mode_field v : holds (set_session (se_set_mouse_mode v)).
Proof. by apply keeps_modify. Qed.

Lemma facts_mouse_request due s : inv due s -> se_mouse_request_pending (mc_session s) = false ->
  forall p totals turn, let m := make_message main_client_MOUSE_MODE_REQUEST p in
  inv due (on_session (se_set_mouse_request_pending true)
    (resent s totals turn ((mc_log s ++ [Ev_Sent main_client_MOUSE_MODE_REQUEST m]) ++ [Ev_Wrote m]))).
Proof.
  intros F Hp p totals turn m.
  apply (facts_quiet _ _ _ _ _ _ _ _ _ _ _ (Ev_Sent main_client_MOUSE_MODE_REQUEST m)) in F; [|done].
  unfold inv.
  cbn [on_session resent mc_buffer mc_monitors mc_session mc_agent mc_resize mc_clipboard mc_log
       se_set_mouse_request_pending se_mouse_request_pending].
  set (log1 := mc_log s ++ [_]) in *.
  destruct (wrote_monitors log1 main_client_MOUSE_MODE_REQUEST p) as (E1 & E2 & E3 & E4 & E5 & E6); [done|].
  change (main_client_MOUSE_MODE_REQUEST =? main_client_AGENT_DATA) with false in *.
  change (main_client_MOUSE_MODE_REQUEST =? main_client_MOUSE_MODE_REQUEST) with true in *.
  change (_ || _) with false in E5. cbn [ifl ifz] in *. rewrite ?app_nil_r, ?Z.sub_0_r in *.
  rewrite Hp in F. fold m in E1, E2, E3, E4, E5, E6.
  destruct F. split; rewrite ?E1, ?E2, ?E3, ?E4, ?E5, ?E6; try done.
  - apply solvent_snoc; [done|]. rewrite E2. lia.
  - lia.
Qed.

Lemma holds_request_client_mode supported current :
  holds (maybe_request_client_mouse_mode env supported current).
Proof.
  intros due s Hs. unfold maybe_request_client_mouse_mode.
  destruct (negb _); [done|]. rewrite (bind_ok (gets _) _ _ _ _ eq_refl).
  destruct (se_mouse_request_pending (mc_session s)) eqn:Ep; [done|].
  set (m := make_message _ _).
  destruct (send_with_log_run env main_client_MOUSE_MODE_REQUEST m s) as [(t & n & E)|(t & n & E)].
  - rewrite (bind_ok _ _ _ _ _ E). by apply facts_mouse_request.
  - unfold bind. rewrite E. apply log_ok_quiet; [done|]. by apply inv_failed in Hs.
Qed.

(** After a confirmation of client mode, no request is outstanding. *)
Lemma triple_mouse_mode payload s0 : inv (owes b []) s0 -> bytes payload -> zlen payload <= isize_max ->
  triple (fun s => s = hear main_server_MOUSE_MODE payload s0) (handle_mouse_mode env payload)
    (fun _ => inv (owes b [])) failed.
Proof.
  intros Hi Hb Hl s ->. pose proof (heard_plain main_server_MOUSE_MODE payload s0 Hi Hb Hl eq_refl) as F.
  change (due_of main_server_MOUSE_MODE payload) with (@nil (list Z)) in F.
  unfold handle_mouse_mode, try_decode.
  destruct (decode (T := MainMouseMode) payload) as [m|e|] eqn:Ed.
  - rewrite (bind_ok (ret _) _ _ _ _ eq_refl). revert F.
    assert ((MainMouseMode_current_mode m =? MOUSE_MODE_CLIENT) = true ->
      mouse_requests (mc_log (hear main_server_MOUSE_MODE payload s0)) <=
        mouse_confirmations (mc_log (hear main_server_MOUSE_MODE payload s0))) as Hconf.
    { intros Hc. pose proof (f_mouse _ _ _ _ _ _ _ _ _ _ _ Hi) as Hm.
      destruct (heard_monitors (mc_log s0) main_server_MOUSE_MODE payload) as (_ & _ & E3 & E4 & _).
      cbn [hear on_log mc_log]. rewrite E3, E4.
      assert (is_client_mode (Ev_Received main_server_MOUSE_MODE payload) = true) as ->.
      { unfold is_client_mode. cbn [received_of]. by rewrite Z.eqb_refl, Ed. }
      cbn [ifz]. destruct (se_mouse_request_pending _); lia. }
    generalize dependent (hear main_server_MOUSE_MODE payload s0). intros s Hconf F.
    set (current := MainMouseMode_current_mode m) in *. cbv zeta.
    rewrite (bind_ok (set_session _) _ _ _ _ eq_refl).
    set (s1 := on_session (se_set_mouse_mode (Some current)) s).
    rewrite (bind_ok (when _ _) _ _ tt
      (if current =? MOUSE_MODE_CLIENT
       then on_session (se_set_mouse_request_pending false) s1 else s1))
      by (by destruct (current =? MOUSE_MODE_CLIENT)).
    apply (holds_bind (log_event (Ev_MouseMode current))).
    + by apply holds_log.
    + intros _. apply holds_request_client_mode.
    + destruct (current =? MOUSE_MODE_CLIENT); [|exact F].
      specialize (Hconf eq_refl). destruct F. split; try done. cbn. lia.
  - by apply (holds_ret tt).
  - exfalso. pose proof (decode_ok (T := MainMouseMode) payload Hb Hl) as Hd. by rewrite Ed in Hd.
Qed.

(** ** The answers *)

Lemma triple_ping payload : bytes payload -> zlen payload <= isize_max ->
  triple (inv (owes b (due_of main_server_PING payload))) (handle_ping env payload) (fun _ => inv (owes b [])) failed.
Proof.
  intros Hb Hl. unfold handle_ping. eapply triple_bind; [apply holds_now|intros t].
  eapply triple_bind; [apply holds_gets|intros last]. cbv zeta.
  eapply triple_bind; [apply holds_elapsed|intros ts].
  eapply triple_bind; [apply holds_pings|intros ?].
  unfold must_decode, due_of, answer_due. change (main_server_PING =? main_server_PING) with true.
  cbv iota. pose proof (decode_ok (T := Ping) payload Hb Hl) as Hd.
  destruct (decode (T := Ping) payload) as [ping|e|]; [| |done].
  2: { intros s Hs. by apply inv_failed in Hs. }
  apply triple_bind_ret. eapply triple_bind; [by apply triple_answer|intros ?].
  eapply triple_bind; [apply holds_pings|intros ?].
  eapply triple_bind; [apply holds_gets|intros se].
  eapply triple_bind; [apply holds_when|intros ?].
  - apply holds_bind; [by apply keeps_modify|intros ?]. by apply holds_send.
  - destruct (ping_interval _ _); [by apply holds_log|apply holds_ret].
Qed.

Lemma triple_set_ack payload : bytes payload -> zlen payload <= isize_max ->
  triple (inv (owes b (due_of main_server_SET_ACK payload))) (handle_set_ack env payload) (fun _ => inv (owes b [])) failed.
Proof.
  intros Hb Hl. unfold handle_set_ack, must_decode, due_of, answer_due.
  change (main_server_SET_ACK =? main_server_PING) with false.
  change (main_server_SET_ACK =? main_server_SET_ACK) with true. cbv iota.
  pose proof (decode_ok (T := SetAck) payload Hb Hl) as Hd.
  destruct (decode (T := SetAck) payload) as [ack|e|]; [| |done].
  2: { intros s Hs. by apply inv_failed in Hs. }
  apply triple_bind_ret. by apply triple_answer.
Qed.

(** ** The tokens *)

Lemma set_mm_clock_run t s : set_mm_clock env t s =
  (Ok tt, on_turn (fun n => S (S n)) (on_mm_clock (mm_set t (env_elapsed env (mc_turn s))
    (env_instant env (S (mc_turn s)))) s)).
Proof. reflexivity. Qed.

Lemma triple_init payload s0 : inv (owes b []) s0 -> bytes payload -> zlen payload <= isize_max ->
  triple (fun s => s = hear main_server_INIT payload s0) (handle_init env payload)
    (fun _ => inv (owes b [])) failed.
Proof.
  intros Hi Hb Hl s ->. pose proof (heard_but_tokens main_server_INIT payload s0 Hi Hb Hl) as F.
  change (due_of main_server_INIT payload) with (@nil (list Z)) in F.
  unfold handle_init, must_decode.
  pose proof (decode_ok (T := MainInit) payload Hb Hl) as Hd.
  destruct (decode (T := MainInit) payload) as [init|e|] eqn:Ed; [|by apply inv_failed in F|done].
  rewrite (bind_ok (ret _) _ _ _ _ eq_refl).
  assert (0 <= MainInit_agent_tokens init <= credit (mc_log (hear main_server_INIT payload s0))) as Ht.
  { destruct (heard_monitors (mc_log s0) main_server_INIT payload) as (_ & E2 & _).
    cbn [hear on_log mc_log]. rewrite E2. unfold credit_step. rewrite Z.eqb_refl, Ed.
    destruct Hd as (_ & _ & _ & _ & _ & [? _] & _). lia. }
  generalize dependent (hear main_server_INIT payload s0). intros s F Ht.
  rewrite (bind_ok _ _ _ _ _ (set_mm_clock_run _ s)).
  rewrite (bind_ok (set_session _) _ _ _ _ eq_refl), !(bind_ok (set_agent _) _ _ _ _ eq_refl).
  match goal with |- match ?k ?s1 with _ => _ end =>
    assert (inv (owes b []) s1) as Hs1; [|revert Hs1; generalize s1] end.
  { destruct F. by split. }
  change (triple (S := MainChannel B) (inv (owes b [])) (let? signal := gets (fun s => se_init_signal (mc_session s)) in
    do? set_session (se_set_init_signal false) in
    do? when signal (log_event (Ev_SessionInit (MainInit_session_id init))) in
    let? connected := agent_field ag_connected in
    do? when connected (connect_agent env) in
    do? emit (CE_SessionInitialized (MainInit_session_id init)) in
    do? publish_agent_connected in
    do? set_session (se_set_mouse_mode (Some (MainInit_current_mouse_mode init))) in
    do? publish_mouse_mode (MainInit_current_mouse_mode init) in
    maybe_request_client_mouse_mode env (MainInit_supported_mouse_modes init)
      (MainInit_current_mouse_mode init)) (fun _ => inv (owes b [])) failed).
  eapply triple_bind; [apply holds_gets|intros signal].
  eapply triple_bind; [by apply keeps_modify|intros ?].
  eapply triple_bind; [by apply holds_when, holds_log|intros ?].
  eapply triple_bind; [apply holds_agent_field|intros connected].
  eapply triple_bind; [apply holds_when, holds_connect|intros ?].
  eapply triple_bind; [by apply holds_log|intros ?].
  eapply triple_bind; [apply holds_publish_agent_connected|intros ?].
  eapply triple_bind; [apply holds_mouse_mode_field|intros ?].
  eapply triple_bind; [by apply holds_log|intros ?]. apply holds_request_client_mode.
Qed.

Lemma holds_handle_connected : holds (handle_agent_connected env).
Proof.
  apply holds_bind; [apply holds_reset|intros _]. apply holds_bind; [apply holds_connected|intros _].
  apply holds_bind; [apply holds_publish_agent_connected|intros _]. apply holds_connect.
Qed.

Lemma holds_attach : holds (do? reset_agent_stream in do? set_agent (ag_set_connected true) in
  do? publish_agent_connected in do? connect_agent env in flush_agent_queue env).
Proof.
  apply holds_bind; [apply holds_reset|intros _]. apply holds_bind; [apply holds_connected|intros _].
  apply holds_bind; [apply holds_publish_agent_connected|intros _].
  apply holds_bind; [apply holds_connect|intros _]. apply holds_flush.
Qed.

Lemma triple_connected_tokens payload s0 : inv (owes b []) s0 -> bytes payload -> zlen payload <= isize_max ->
  triple (fun s => s = hear main_server_AGENT_CONNECTED_TOKENS payload s0)
    (handle_agent_connected_tokens env payload) (fun _ => inv (owes b [])) failed.
Proof.
  intros Hi Hb Hl s ->.
  pose proof (heard_but_tokens main_server_AGENT_CONNECTED_TOKENS payload s0 Hi Hb Hl) as F.
  change (due_of main_server_AGENT_CONNECTED_TOKENS payload) with (@nil (list Z)) in F.
  unfold handle_agent_connected_tokens, try_decode.
  pose proof (decode_ok (T := AgentTokens) payload Hb Hl) as Hd.
  pose proof (f_tokens _ _ _ _ _ _ _ _ _ _ _ Hi) as Htok.
  destruct (heard_monitors (mc_log s0) main_server_AGENT_CONNECTED_TOKENS payload) as (_ & E2 & _).
  unfold credit_step in E2.
  change (main_server_AGENT_CONNECTED_TOKENS =? main_server_INIT) with false in E2.
  rewrite Z.eqb_refl in E2.
  destruct (decode (T := AgentTokens) payload) as [t|e|]; [| |done];
    rewrite (bind_ok (ret _) _ _ _ _ eq_refl).
  - rewrite (bind_ok (set_agent _) _ _ _ _ eq_refl). apply holds_attach.
    destruct F. split; try done. state_cbn. rewrite E2. destruct Hd. lia.
  - rewrite (bind_ok (ret _) _ _ _ _ eq_refl). apply holds_attach.
    destruct F. split; try done. state_cbn. by rewrite E2.
Qed.

(** What AGENT_TOKEN grants, and that the server is known to have granted it. *)
Lemma token_granted payload s0 : inv (owes b []) s0 -> bytes payload -> zlen payload <= isize_max ->
  exists n,
    (forall s, handle_agent_token env payload s =
       (do? set_agent (fun a => ag_set_tokens (saturating_add_u32 (ag_tokens a) n) a) in
        do? flush_agent_queue env in maybe_send_announce_capabilities env) s) /\
    inv (owes b []) (on_agent (fun a => ag_set_tokens (saturating_add_u32 (ag_tokens a) n) a)
      (hear main_server_AGENT_TOKEN payload s0)).
Proof.
  intros Hi Hb Hl.
  pose proof (heard_but_tokens main_server_AGENT_TOKEN payload s0 Hi Hb Hl) as F.
  change (due_of main_server_AGENT_TOKEN payload) with (@nil (list Z)) in F.
  unfold handle_agent_token, try_decode.
  pose proof (decode_ok (T := AgentTokens) payload Hb Hl) as Hd.
  pose proof (f_tokens _ _ _ _ _ _ _ _ _ _ _ Hi) as Htok.
  destruct (heard_monitors (mc_log s0) main_server_AGENT_TOKEN payload) as (_ & E2 & _).
  unfold credit_step in E2.
  change (main_server_AGENT_TOKEN =? main_server_INIT) with false in E2.
  change (main_server_AGENT_TOKEN =? main_server_AGENT_CONNECTED_TOKENS) with false in E2.
  rewrite Z.eqb_refl in E2.
  assert (forall n, 0 <= n -> credit (mc_log s0 ++ [Ev_Received main_server_AGENT_TOKEN payload]) =
      credit (mc_log s0) + n ->
    inv (owes b []) (on_agent (fun a => ag_set_tokens (saturating_add_u32 (ag_tokens a) n) a)
      (hear main_server_AGENT_TOKEN payload s0))) as Hset.
  { intros n Hn En. destruct F. split; try done. state_cbn. rewrite En.
    unfold saturating_add_u32, u32_max in *. lia. }
  destruct (decode (T := AgentTokens) payload) as [t|e|]; [| |done];
    (eexists; split; [by intros s|apply Hset; [|exact E2]]); [|done]. by destruct Hd.
Qed.

Lemma triple_token payload s0 : inv (owes b []) s0 -> bytes payload -> zlen payload <= isize_max ->
  triple (fun s => s = hear main_server_AGENT_TOKEN payload s0)
    (handle_agent_token env payload) (fun _ => inv (owes b [])) failed.
Proof.
  intros Hi Hb Hl s ->. destruct (token_granted payload s0 Hi Hb Hl) as (n & -> & Hset).
  rewrite (bind_ok (set_agent _) _ _ _ _ eq_refl).
  assert (holds (do? flush_agent_queue env in maybe_send_announce_capabilities env)) as Hrest.
  { apply holds_bind; [apply holds_flush|intros _]. apply holds_announce. }
  by apply Hrest.
Qed.

(** ** The others *)

Lemma holds_disconnected payload : bytes payload -> zlen payload <= isize_max ->
  holds (handle_agent_disconnected env payload).
Proof.
  intros Hb Hl. apply holds_bind; [by apply holds_try_decode|intros _].
  apply holds_bind; [apply holds_connected|intros _].
  apply holds_bind; [apply holds_publish_agent_connected|intros _].
  apply holds_bind; [apply holds_reset|intros _]. apply holds_bind; [apply holds_caps|intros _].
  apply holds_bind; [apply holds_guest_caps|intros _].
  apply holds_bind; [apply holds_clip_selection|intros _].
  apply holds_bind; [apply holds_replies|intros _].
  apply holds_bind; [|intros _; apply holds_note].
  intros due s F. destruct (discard_unstarted_spec _ (f_queue _ _ _ _ _ _ _ _ _ _ _ F)) as (Hok & Ho & Hu & _).
  destruct F. split; try done; cbn.
  - by rewrite Ho.
  - rewrite Hu. constructor.
Qed.

Lemma holds_mm_time payload : bytes payload -> zlen payload <= isize_max ->
  holds (handle_multi_media_time env payload).
Proof.
  intros Hb Hl. apply holds_bind; [by apply holds_try_decode|].
  intros [t|]; [apply holds_set_mm_clock|apply holds_ret].
Qed.

Lemma holds_channels payload : bytes payload -> zlen payload <= isize_max ->
  holds (handle_channels_list payload).
Proof.
  intros Hb Hl. apply holds_bind; [by apply holds_decode|intros cs].
  apply holds_bind; [apply holds_gets|intros signal].
  apply holds_bind; [by apply keeps_modify|intros _].
  apply holds_bind; [by apply holds_when, holds_log|intros _]. by apply holds_log.
Qed.

Lemma holds_notify payload : bytes payload -> zlen payload <= isize_max -> holds (handle_notify payload).
Proof.
  intros Hb Hl. apply holds_bind; [by apply holds_decode|intros n]. by apply holds_log.
Qed.

Lemma holds_disconnecting payload : bytes payload -> zlen payload <= isize_max ->
  holds (handle_disconnecting payload).
Proof.
  intros Hb Hl. apply holds_bind; [by apply holds_try_decode|intros n]. by apply holds_log.
Qed.

(** Hearing and handling any message keeps the invariant: nothing is owed
    afterwards. *)
Lemma triple_dispatch ty payload s0 : inv (owes b []) s0 -> bytes payload -> zlen payload <= isize_max ->
  triple (fun s => s = hear ty payload s0) (dispatch env ty payload) (fun _ => inv (owes b [])) failed.
Proof.
  intros Hi Hb Hl. unfold dispatch.
  destruct (Z.eqb_spec ty main_server_INIT) as [->|N1]; [by apply triple_init|].
  destruct (Z.eqb_spec ty main_server_MOUSE_MODE) as [->|N2]; [by apply triple_mouse_mode|].
  assert (Hpre : grants ty = false -> forall m : Mc B unit,
    triple (inv (owes b (due_of ty payload))) m (fun _ => inv (owes b [])) failed ->
    triple (fun s => s = hear ty payload s0) m (fun _ => inv (owes b [])) failed).
  { intros Hg m Hm. eapply triple_pre; [exact Hm|]. intros s ->. by apply heard_plain. }
  assert (Hnone : ty <> main_server_PING -> ty <> main_server_SET_ACK -> due_of ty payload = []).
  { intros M1 M2. unfold due_of, answer_due.
    by rewrite (proj2 (Z.eqb_neq _ _) M1), (proj2 (Z.eqb_neq _ _) M2). }
  destruct (Z.eqb_spec ty main_server_MULTI_MEDIA_TIME) as [->|N3].
  { apply Hpre; [done|]. rewrite Hnone by done. by apply holds_mm_time. }
  destruct (Z.eqb_spec ty main_server_CHANNELS_LIST) as [->|N4].
  { apply Hpre; [done|]. rewrite Hnone by done. by apply holds_channels. }
  destruct (Z.eqb_spec ty main_server_PING) as [->|N5].
  { apply Hpre; [done|]. by apply triple_ping. }
  destruct (Z.eqb_spec ty main_server_SET_ACK) as [->|N6].
  { apply Hpre; [done|]. by apply triple_set_ack. }
  destruct (Z.eqb_spec ty main_server_NOTIFY) as [->|N7].
  { apply Hpre; [done|]. rewrite Hnone by done. by apply holds_notify. }
  destruct (Z.eqb_spec ty main_server_DISCONNECTING) as [->|N8].
  { apply Hpre; [done|]. rewrite Hnone by done. by apply holds_disconnecting. }
  destruct (Z.eqb_spec ty main_server_AGENT_CONNECTED) as [->|N9].
  { apply Hpre; [done|]. rewrite Hnone by done. apply holds_handle_connected. }
  destruct (Z.eqb_spec ty main_server_AGENT_CONNECTED_TOKENS) as [->|N10].
  { by apply triple_connected_tokens. }
  destruct (Z.eqb_spec ty main_server_AGENT_DISCONNECTED) as [->|N11].
  { apply Hpre; [done|]. rewrite Hnone by done. by apply holds_disconnected. }
  destruct (Z.eqb_spec ty main_server_AGENT_DATA) as [->|N12].
  { apply Hpre; [done|]. rewrite Hnone by done. by apply holds_agent_data. }
  destruct (Z.eqb_spec ty main_server_AGENT_TOKEN) as [->|N13]; [by apply triple_token|].
  rewrite Hnone in Hpre by done. apply Hpre; [|apply holds_totals].
  unfold grants. by rewrite (proj2 (Z.eqb_neq _ _) N1), (proj2 (Z.eqb_neq _ _) N10), (proj2 (Z.eqb_neq _ _) N13).
Qed.

Lemma triple_message ty payload s0 : inv (owes b []) s0 -> bytes payload -> zlen payload <= isize_max ->
  triple (fun s => s = hear ty payload s0) (handle_message env ty payload)
    (fun _ => inv (owes b [])) failed.
Proof.
  intros Hi Hb Hl s ->. unfold handle_message.
  rewrite (bind_ok (count_opcodes _) _ _ _ _ eq_refl).
  match goal with |- context [ch_on_totals ?f _] =>
    apply (triple_dispatch ty payload (on_totals f s0)); done end.
Qed.
End Turns.

(** * Reading *)

Section Loop.
Context {B : Type} `{CB : ClipboardBackend B} {OK : ClipboardBounded B} `{BP : BuildProfile} (env : Env).
Implicit Type s : MainChannel B.

(** Between messages: whatever the buffer, nothing is owed. *)
Definition idle_inv s : Prop := inv (owes (mc_buffer s) []) s.

Lemma idle_failed s : idle_inv s -> failed s.
Proof. apply inv_failed. Qed.

Lemma idle_of b s : inv (owes b []) s -> idle_inv s.
Proof. intros F. destruct (f_buffer _ _ _ _ _ _ _ _ _ _ _ F) as [_ Hb]. unfold idle_inv. by rewrite Hb. Qed.

(** An operation that leaves the buffer alone keeps the channel idle. *)
Lemma idle_keeps {A} (m : Mc B A) : keeps inv failed m -> triple idle_inv m (fun _ => idle_inv) failed.
Proof.
  intros Hm s Hs. specialize (Hm _ s Hs). destruct (m s) as [[a|e|] s']; [|done|done].
  by eapply idle_of.
Qed.

Lemma set_buffer bf due s buf : inv (owes bf due) s -> rb_ok buf ->
  inv (owes buf due) (on_buffer (fun _ => buf) s).
Proof. intros F Hb. by destruct F; split. Qed.

(** Idle, whatever the buffer holds. *)
Definition unbuffered s : Prop := inv (owes rb_new []) (on_buffer (fun _ => rb_new) s).

Lemma idle_buffered s : idle_inv s <-> buffered unbuffered s.
Proof.
  split; [intros Hs|intros [Hb Hs]].
  - split; [apply (f_buffer _ _ _ _ _ _ _ _ _ _ _ Hs)|]. by apply (set_buffer _ _ s rb_new Hs).
  - unfold idle_inv. by destruct Hs; split.
Qed.

Lemma main_take_read chunk : bytes chunk ->
  triple idle_inv (take_read env (handle_message env) chunk) (fun _ => idle_inv) failed.
Proof.
  intros Hb. eapply (triple_conseq _ (buffered unbuffered) _ _ (fun _ => buffered unbuffered) failed failed);
    [|by intros s ?%idle_buffered|by intros _ s ?%idle_buffered|done].
  apply ChannelSpec.triple_take_read; [done|by intros f s Hs; destruct Hs; split..
    |by intros s Hs; destruct Hs; split|intros s; apply (inv_failed _ (on_buffer (fun _ => rb_new) s))| |done].
  intros b ty payload Hbuf Hbp Hlp s (s0 & Hs0 & Hb0 & ->).
  assert (inv (owes b []) s0) as Hi.
  { destruct Hs0; split; try done. by subst b. }
  pose proof (triple_message env b ty payload s0 Hi Hbp Hlp _ eq_refl) as Hm.
  change (hear ty payload s0) with (heard ty payload s0) in Hm.
  destruct (handle_message env ty payload _) as [[[]|e|] s2]; [|done|done].
  destruct (f_buffer _ _ _ _ _ _ _ _ _ _ _ Hm) as [_ E].
  split; [by apply (set_buffer _ _ s2 rb_new Hm)|done].
Qed.

(** * The event loop *)

(** What the arms may carry: bytes, and display sizes the frontends allow. *)
Definition display_size (size : DisplaySize) : Z * Z :=
  match size with Requested w h => (w, h) | GuestHas w h => (w, h) end.

Definition arm_ok (arm : Arm) : Prop :=
  match arm with
  | Arm_Read chunk => bytes chunk
  | Arm_Resize (Some size) => size_ok (display_size size)
  | _ => True
  end.

Lemma holds_display_size size : size_ok (display_size size) ->
  keeps (S := MainChannel B) inv failed (note_display_size env size).
Proof.
  intros Hsz. destruct size as [w h|w h]; cbn [note_display_size].
  2: { by apply holds_not_pending. }
  intros due s Hs. rewrite (bind_ok (gets _) _ _ _ _ eq_refl).
  destruct (bool_decide (rz_last_sent (mc_resize s) = Some (w, h))) eqn:E.
  { by apply holds_not_pending. }
  apply bool_decide_eq_false in E.
  rewrite (bind_ok (set_resize _) _ _ _ _ eq_refl), (bind_ok (instant_now env) _ _ _ _ eq_refl).
  destruct Hs. split; try done. intros size. cbn. by intros [= <-].
Qed.

Lemma holds_stuck_check : keeps (S := MainChannel B) inv failed (stuck_agent_check env).
Proof.
  apply holds_bind; [apply holds_now|intros t]. apply holds_bind; [apply holds_gets|intros v].
  apply holds_when. apply holds_bind; [apply holds_when, holds_starved|intros _].
  apply holds_bind; [by apply holds_log|intros _]. apply holds_starved.
Qed.

Lemma triple_arm arm : arm_ok arm ->
  triple idle_inv (loop_arm env arm) (fun _ => idle_inv) failed.
Proof.
  intros Ha. destruct arm as [chunk| | |[size|]| | | | |]; cbn [loop_arm].
  - eapply triple_bind; [by apply main_take_read|]. intros ?. apply idle_keeps, holds_ret.
  - apply idle_keeps, holds_bind; [by apply holds_log|intros _; apply holds_ret].
  - apply idle_keeps, keeps_throw, inv_failed.
  - apply idle_keeps, holds_bind; [by apply holds_display_size|intros _; apply holds_ret].
  - apply idle_keeps, holds_bind; [by apply keeps_modify|intros _; apply holds_ret].
  - apply idle_keeps, holds_bind; [by apply keeps_modify|intros _].
    apply holds_bind; [apply holds_gets|intros [[w h]|]].
    + apply holds_bind; [|intros _; apply holds_ret].
      apply holds_bind; [by apply holds_log|intros _]. apply holds_monitors_config.
    + apply holds_bind; [apply holds_ret|intros _; apply holds_ret].
  - apply idle_keeps, holds_bind; [apply holds_agent_field|intros a].
    apply holds_bind; [apply holds_when, holds_poll|intros _; apply holds_ret].
  - apply idle_keeps, holds_bind; [by apply holds_log|intros _].
    apply holds_bind; [by apply holds_log|intros _; apply holds_ret].
  - apply idle_keeps, holds_bind; [apply holds_stuck_check|intros _; apply holds_ret].
  - apply idle_keeps, holds_ret.
Qed.

Lemma triple_arms arms : Forall arm_ok arms ->
  triple idle_inv (run_arms env arms) (fun _ => idle_inv) failed.
Proof.
  induction 1 as [|arm arms Ha _ IH]; cbn [run_arms]; [apply idle_keeps, holds_ret|].
  eapply triple_bind; [by apply triple_arm|]. intros [|]; [exact IH|apply idle_keeps, holds_ret].
Qed.

(** A channel as [new] leaves it. *)
Lemma new_idle monitors clipboard clock : 0 <= monitors < 256 ->
  (forall cb, clipboard = Some cb -> cb_ok cb) ->
  idle_inv (MainChannel_new monitors clipboard clock).
Proof.
  intros Hm Hcb. split; try done.
  - split; [|done]. by apply reassembler_new_ok.
  - by exists [].
  - intros n. cbn. by destruct n.
Qed.

End Loop.
