(* ===== verification/MainErrors.v ===== *)
(** What ends the main channel: a write that fails, a framing error, or one of
    five messages with a body that does not parse.  [io_only m] says that the
    only error of [m] is a write the stream has just refused; it holds of
    everything the handlers do after parsing.  [calm m] says that [m] cannot fail:
    it holds of the handlers that write nothing. *)
From Stdlib Require Import ZArith Lia.
From stdpp Require Import base numbers list gmap tactics.
From S2P Require Import Prelude Reader Utf8 Wire MsgCommon ReceiveBuffer MsgMain MsgVdAgent AgentStream LinkMess AgentQueue OpcodeCounters Clipboard Channel ChannelSpec MainState MainAgent MainChannel.

Open Scope Z_scope.
Open Scope rust_scope.

Section Errors.
Context {B : Type} `{ClipboardBackend B} `{BP : BuildProfile} (env : Env).

(** The last question asked, of those after [t] that led to [t'], was a write,
    and the stream refused it. *)
Definition write_failed (t t' : nat) : Prop :=
  exists n, (t <= n)%nat /\ t' = S n /\ env_write_ok env n = false.

Definition io_only {A} (m : Mc B A) : Prop := forall s,
  let (r, s') := m s in
  (mc_turn s <= mc_turn s')%nat /\
  match r with
  | Err e => e = Chan_Io /\ write_failed (mc_turn s) (mc_turn s')
  | Ok _ | Panic => True
  end.

Lemma io_ret {A} (a : A) : io_only (ret a).
Proof. done. Qed.

Lemma io_panic {A} : io_only (panic : Mc B A).
Proof. done. Qed.

Lemma write_failed_later t1 t2 t' : (t1 <= t2)%nat -> write_failed t2 t' -> write_failed t1 t'.
Proof. intros Ht (n & Hn & -> & Hw). exists n. split; [lia|done]. Qed.

Lemma io_bind {A C} (m : Mc B A) (k : A -> Mc B C) :
  io_only m -> (forall a, io_only (k a)) -> io_only (bind m k).
Proof.
  intros Hm Hk s. unfold bind. pose proof (Hm s) as E.
  destruct (m s) as [[a|e1|] s1]; destruct E as [Ht E]; [|done|done].
  pose proof (Hk a s1) as E2. destruct (k a s1) as [[c|e|] s2]; destruct E2 as [Ht2 E2]; (split; [lia|]); try done.
  destruct E2 as [-> Hw]. split; [done|]. by eapply write_failed_later.
Qed.

Lemma io_unwrap {A} (o : option A) : io_only (unwrap o).
Proof. by destruct o. Qed.

Lemma io_gets {A} (f : MainChannel B -> A) : io_only (gets f).
Proof. done. Qed.

Lemma io_modify f : (forall s, mc_turn (f s) = mc_turn s) -> io_only (modify f).
Proof. intros Hf s. cbn. by rewrite Hf. Qed.

Lemma io_ask {A} (f : nat -> A) : io_only (ask f : Mc B A).
Proof. intros s. cbn. split; [lia|done]. Qed.

Lemma io_try {T} `{WireType T} payload : io_only (try_decode (T := T) payload).
Proof. unfold try_decode. by destruct (decode payload). Qed.

Create HintDb io.
#[local] Hint Extern 0 (forall s, mc_turn _ = mc_turn _) => reflexivity : io.
#[local] Hint Resolve io_ret io_panic io_unwrap io_gets io_modify io_ask io_try : io.

(** Walk a computation, one bind, test or match at a time. *)
Ltac io_walk :=
  repeat match goal with
  | |- io_only (bind _ _) => apply io_bind; [|intros ?]
  | |- _ => progress unfold when, agent_field, set_agent, set_session, set_resize, set_clip,
      log_event, instant_now, elapsed_now, emit, publish_mouse_mode, publish_agent_connected,
      emit_session_ended, count_opcodes, capture_packet, reset_agent_stream, set_mm_clock
  | |- io_only (if ?b then _ else _) => destruct b
  | |- io_only (match ?x with _ => _ end) => destruct x
  | |- _ => solve [eauto with io nocore]
  end.

Lemma io_send data : io_only (send env data).
Proof.
  unfold send. apply io_bind; [io_walk|intros _]. intros s. unfold bind at 1, ask.
  destruct (env_write_ok env (ch_turn s)) eqn:E; cbn [negb].
  - cbn. split; [lia|done].
  - cbn. split; [lia|]. split; [done|]. by exists (mc_turn s).
Qed.

Lemma io_send_with_log ty data : io_only (send_with_log env ty data).
Proof. unfold send_with_log. io_walk. apply io_send. Qed.
#[local] Hint Resolve io_send_with_log : io.

Lemma io_note : io_only (note_agent_starvation env).
Proof. unfold note_agent_starvation. io_walk. Qed.
#[local] Hint Resolve io_note : io.

Lemma io_flush_loop fuel : io_only (flush_loop env fuel).
Proof. induction fuel as [|fuel IH]; cbn [flush_loop]; io_walk; exact IH. Qed.
#[local] Hint Resolve io_flush_loop : io.

Lemma io_flush : io_only (flush_agent_queue env).
Proof. unfold flush_agent_queue. io_walk. Qed.
#[local] Hint Resolve io_flush : io.

Lemma io_agent_data ty payload : io_only (send_agent_data_message env ty payload).
Proof. unfold send_agent_data_message. io_walk. Qed.
#[local] Hint Resolve io_agent_data : io.

Lemma io_announce : io_only (maybe_send_announce_capabilities env).
Proof. unfold maybe_send_announce_capabilities. io_walk. Qed.
#[local] Hint Resolve io_announce : io.

Lemma io_settled : io_only (maybe_send_settled_monitors_config env).
Proof.
  unfold maybe_send_settled_monitors_config, maybe_send_agent_monitors_config,
    send_agent_monitors_config. io_walk.
Qed.
#[local] Hint Resolve io_settled : io.

Lemma io_connect : io_only (connect_agent env).
Proof. unfold connect_agent, send_agent_start. io_walk. Qed.
#[local] Hint Resolve io_connect : io.

Lemma io_clipboard_message {T} `{ClipboardWireType T} ty (msg : T) :
  io_only (send_clipboard_message env ty msg).
Proof. unfold send_clipboard_message, clipboard_payload. io_walk. Qed.
#[local] Hint Resolve io_clipboard_message : io.

Lemma io_get_text cb : io_only (get_text_blocking env cb).
Proof. unfold get_text_blocking. destruct (cb_get_text cb). io_walk. Qed.
#[local] Hint Resolve io_get_text : io.

Lemma io_guest_clipboard msg : io_only (handle_guest_clipboard env msg).
Proof.
  unfold handle_guest_clipboard, send_clipboard_none, send_clipboard_request,
    send_clipboard_data, read_host_clipboard_for_guest. io_walk.
Qed.
#[local] Hint Resolve io_guest_clipboard : io.

Lemma io_agent_message ty payload : io_only (handle_agent_message env ty payload).
Proof.
  unfold handle_agent_message, handle_clipboard_message, handle_announce_capabilities,
    handle_agent_reply, send_clipboard_none. io_walk.
Qed.
#[local] Hint Resolve io_agent_message : io.

Lemma io_items items : io_only (handle_agent_stream_items env items).
Proof.
  induction items as [|i items IH]; cbn [handle_agent_stream_items];
    unfold handle_agent_stream_item; io_walk; exact IH.
Qed.
#[local] Hint Resolve io_items : io.

Lemma io_mouse supported current : io_only (maybe_request_client_mouse_mode env supported current).
Proof. unfold maybe_request_client_mouse_mode. io_walk. Qed.
#[local] Hint Resolve io_mouse : io.

Lemma io_token payload : io_only (handle_agent_token env payload).
Proof. unfold handle_agent_token. io_walk. Qed.

(** * Messages that must parse *)

Definition refusal {T} (r : result LinkError T) : option LinkError :=
  match r with Err e => Some e | _ => None end.

(** The error that ends the channel, for the kinds of message that must parse. *)
Definition refused (ty : Z) (payload : list Z) : option LinkError :=
  if ty =? main_server_INIT then refusal (decode (T := MainInit) payload)
  else if ty =? main_server_CHANNELS_LIST then refusal (decode (T := ChannelsList) payload)
  else if ty =? main_server_PING then refusal (decode (T := Ping) payload)
  else if ty =? main_server_SET_ACK then refusal (decode (T := SetAck) payload)
  else if ty =? main_server_NOTIFY then refusal (decode (T := Notify) payload)
  else None.

(** [m] refuses what [r] says, whatever the state, and has no other error than
    a failed write. *)
Definition parses (ty : Z) (r : option LinkError) (m : Mc B unit) : Prop :=
  match r with
  | Some e => forall s, fst (m s) = Err (Chan_Malformed ty e)
  | None => io_only m
  end.

(** [m] cannot fail. *)
Definition calm {A} (m : Mc B A) : Prop := forall s, exists a, fst (m s) = Ok a.

Lemma calm_ret {A} (a : A) : calm (ret a).
Proof. intros s. by exists a. Qed.

Lemma calm_modify f : calm (modify f).
Proof. intros s. by exists tt. Qed.

Lemma calm_gets {A} (f : MainChannel B -> A) : calm (gets f).
Proof. intros s. by eexists. Qed.

Lemma calm_ask {A} (f : nat -> A) : calm (ask f : Mc B A).
Proof. intros s. by eexists. Qed.

Lemma calm_bind {A C} (m : Mc B A) (k : A -> Mc B C) :
  calm m -> (forall a, calm (k a)) -> calm (bind m k).
Proof.
  intros Hm Hk s. unfold bind. destruct (Hm s) as [a Ea]. destruct (m s) as [r s1]. cbn in Ea.
  subst r. apply Hk.
Qed.

Lemma parses_bind {A} ty r (m : Mc B A) (k : A -> Mc B unit) :
  io_only m -> calm m -> (forall a, parses ty r (k a)) -> parses ty r (bind m k).
Proof.
  intros Hm Hc Hk. destruct r as [e|]; cbn [parses] in *; [|by apply io_bind].
  intros s. unfold bind. destruct (Hc s) as [a Ea]. destruct (m s) as [r s1]. cbn in Ea. subst r. apply Hk.
Qed.

Lemma parses_must {T} `{WireLaws T} ty payload (k : T -> Mc B unit) :
  bytes payload -> zlen payload <= isize_max -> (forall v, io_only (k v)) ->
  parses ty (refusal (decode (T := T) payload)) (bind (must_decode ty payload) k).
Proof.
  intros Hb Hl Hk. pose proof (laws_never_panics payload Hb Hl) as Hd. unfold must_decode.
  destruct (decode payload) as [v|e|]; [apply Hk|done|done].
Qed.

Lemma dispatch_parses ty payload : bytes payload -> zlen payload <= isize_max ->
  parses ty (refused ty payload) (dispatch env ty payload).
Proof.
  intros Hb Hl. unfold dispatch, refused.
  destruct (Z.eqb_spec ty main_server_INIT) as [->|N1].
  { unfold handle_init. apply parses_must; [done|done|]. intros v. io_walk. }
  destruct (Z.eqb_spec ty main_server_MOUSE_MODE) as [->|N2].
  { change (io_only (handle_mouse_mode env payload)). unfold handle_mouse_mode. io_walk. }
  destruct (Z.eqb_spec ty main_server_MULTI_MEDIA_TIME) as [->|N3].
  { change (io_only (handle_multi_media_time env payload)). unfold handle_multi_media_time. io_walk. }
  destruct (Z.eqb_spec ty main_server_CHANNELS_LIST) as [->|N4].
  { unfold handle_channels_list. apply parses_must; [done|done|]. intros v. io_walk. }
  destruct (Z.eqb_spec ty main_server_PING) as [->|N5].
  { unfold handle_ping. do 4 (apply parses_bind; [io_walk|first [apply calm_gets|apply calm_modify|apply calm_ask]|intros ?]).
    apply parses_must; [done|done|]. intros v. unfold request_channels_list. io_walk. }
  destruct (Z.eqb_spec ty main_server_SET_ACK) as [->|N6].
  { unfold handle_set_ack. apply parses_must; [done|done|]. intros v. io_walk. }
  destruct (Z.eqb_spec ty main_server_NOTIFY) as [->|N7].
  { unfold handle_notify. apply parses_must; [done|done|]. intros v. io_walk. }
  cbn [parses]. repeat match goal with |- io_only (if ?b then _ else _) => destruct b end;
    unfold handle_disconnecting, handle_agent_connected, handle_agent_connected_tokens,
      handle_agent_disconnected, handle_agent_data, handle_agent_token, handle_unknown; io_walk.
Qed.

Lemma message_parses ty payload : bytes payload -> zlen payload <= isize_max ->
  parses ty (refused ty payload) (handle_message env ty payload).
Proof.
  intros Hb Hl. apply parses_bind; [io_walk|apply calm_modify|]. intros _. by apply dispatch_parses.
Qed.

(** * Messages that cannot fail *)

(** The kinds whose handling writes nothing to the server, and a MOUSE_MODE that
    does not decode: whatever is in them, they end nothing, unless they must parse
    and do not. *)
Definition harmless (ty : Z) (payload : list Z) : bool :=
  if ty =? main_server_MOUSE_MODE then
    match decode (T := MainMouseMode) payload with Err _ => true | _ => false end
  else negb (existsb (Z.eqb ty) [main_server_INIT; main_server_PING; main_server_SET_ACK;
    main_server_AGENT_CONNECTED; main_server_AGENT_CONNECTED_TOKENS; main_server_AGENT_DATA;
    main_server_AGENT_TOKEN]).

Lemma calm_try {T} `{WireLaws T} payload : bytes payload -> zlen payload <= isize_max ->
  calm (try_decode (T := T) payload : Mc B (option T)).
Proof.
  intros Hb Hl s. pose proof (laws_never_panics payload Hb Hl) as Hd. unfold try_decode.
  destruct (decode payload); [by eexists..|done].
Qed.

Create HintDb calm.
#[local] Hint Resolve calm_ret calm_gets calm_modify calm_ask : calm.

Ltac calm_walk :=
  repeat match goal with
  | |- calm (bind _ _) => apply calm_bind; [|intros ?]
  | |- calm (try_decode _) => by apply calm_try
  | |- _ => progress unfold when, agent_field, set_agent, set_session, log_event, instant_now,
      elapsed_now, emit, publish_agent_connected, count_opcodes, reset_agent_stream, set_mm_clock,
      note_agent_starvation
  | |- calm (if ?b then _ else _) => destruct b
  | |- calm (match ?x with _ => _ end) => destruct x
  | |- _ => solve [eauto with calm nocore]
  end.

Lemma harmless_calm ty payload : bytes payload -> zlen payload <= isize_max ->
  harmless ty payload = true -> refused ty payload = None -> calm (handle_message env ty payload).
Proof.
  intros Hb Hl Hh Hr. apply calm_bind; [calm_walk|]. intros _. unfold dispatch.
  destruct (Z.eqb_spec ty main_server_INIT) as [->|N1]; [done|].
  destruct (Z.eqb_spec ty main_server_MOUSE_MODE) as [->|N2].
  { unfold harmless in Hh. rewrite Z.eqb_refl in Hh. unfold handle_mouse_mode, try_decode.
    destruct (decode (T := MainMouseMode) payload); [done|exact (calm_ret tt)|done]. }
  destruct (Z.eqb_spec ty main_server_MULTI_MEDIA_TIME) as [->|N3].
  { unfold handle_multi_media_time. calm_walk. }
  destruct (Z.eqb_spec ty main_server_CHANNELS_LIST) as [->|N4].
  { cbn in Hr. unfold handle_channels_list, must_decode.
    pose proof (laws_never_panics (T := ChannelsList) payload Hb Hl).
    destruct (decode payload); [calm_walk|done|done]. }
  destruct (Z.eqb_spec ty main_server_PING) as [->|N5]; [done|].
  destruct (Z.eqb_spec ty main_server_SET_ACK) as [->|N6]; [done|].
  destruct (Z.eqb_spec ty main_server_NOTIFY) as [->|N7].
  { cbn in Hr. unfold handle_notify, must_decode. pose proof (laws_never_panics (T := Notify) payload Hb Hl).
    destruct (decode payload); [calm_walk|done|done]. }
  destruct (Z.eqb_spec ty main_server_DISCONNECTING) as [->|N8].
  { unfold handle_disconnecting. calm_walk. }
  destruct (Z.eqb_spec ty main_server_AGENT_CONNECTED) as [->|N9]; [done|].
  destruct (Z.eqb_spec ty main_server_AGENT_CONNECTED_TOKENS) as [->|N10]; [done|].
  destruct (Z.eqb_spec ty main_server_AGENT_DISCONNECTED) as [->|N11].
  { unfold handle_agent_disconnected. calm_walk. }
  destruct (Z.eqb_spec ty main_server_AGENT_DATA) as [->|N12]; [done|].
  destruct (Z.eqb_spec ty main_server_AGENT_TOKEN) as [->|N13]; [done|].
  unfold handle_unknown. calm_walk.
Qed.

End Errors.
