(* ===== verification/MainProps.v ===== *)
(** What a run of the main channel guarantees.

    A run is [run_arms] from [MainChannel_new]: any arms, in any order, with
    any answers from the environment.  [reached] are the states between two
    turns.  The theorems say what the peer and the guest agent see of it: the
    agent's stream, the token credit, the answers owed, the display size and
    the clipboard. *)
From Stdlib Require Import ZArith Lia.
From stdpp Require Import base numbers list gmap tactics.
From S2P Require Import Prelude Reader Utf8 Wire MsgCommon ReceiveBuffer MsgMain MsgVdAgent AgentStream LinkMess AgentQueue OpcodeCounters Clipboard Channel ChannelSpec MainState MainAgent MainChannel MainSpec MainKeeps MainTurns MainErrors.

Open Scope Z_scope.
Open Scope rust_scope.

Section Runs.
Context {B : Type} `{CB : ClipboardBackend B} {OK : ClipboardBounded B} `{BP : BuildProfile} (env : Env).
Implicit Type s : MainChannel B.

(** A channel just made, for up to 255 monitors. *)
Definition fresh s : Prop :=
  exists monitors clipboard clock, s = MainChannel_new monitors clipboard clock /\
    0 <= monitors < 256 /\ forall cb, clipboard = Some cb -> cb_ok cb.

Definition reached s : Prop :=
  exists s0 arms, fresh s0 /\ Forall arm_ok arms /\ run_arms env arms s0 = (Ok tt, s).

Lemma fresh_idle s : fresh s -> idle_inv s.
Proof. intros (m & cb & clock & -> & Hm & Hcb). by apply new_idle. Qed.

Lemma reached_idle s : reached s -> idle_inv s.
Proof.
  intros (s0 & arms & H0 & Ha & E). pose proof (triple_arms env arms Ha s0 (fresh_idle s0 H0)) as H.
  by rewrite E in H.
Qed.

(** However a run ends, its log is in order. *)
Lemma run_log s0 arms : fresh s0 -> Forall arm_ok arms ->
  fst (run_arms env arms s0) <> Panic /\ log_ok (mc_log (snd (run_arms env arms s0))) /\
  (fst (run_arms env arms s0) = Ok tt -> idle_inv (snd (run_arms env arms s0))).
Proof.
  intros H0 Ha. pose proof (triple_arms env arms Ha s0 (fresh_idle s0 H0)) as H.
  destruct (run_arms env arms s0) as [[[]|e|] s]; [|by split_and!|done].
  split_and!; [done|by apply (idle_failed s)|done].
Qed.

Lemma bytes_agent_wire ms : Forall agent_bytes_ok ms ->
  exists msgs, ms = map agent_wire msgs /\ Forall (agent_message_ok u32_max) msgs /\
    bytes (concat ms).
Proof.
  induction 1 as [|m ms (x & -> & Hx) _ (msgs & -> & Hmsgs & Hb)]; [by exists []|].
  exists (x :: msgs). split_and!; [done|by constructor|].
  cbn [concat]. apply list.Forall_app. split; [|done]. destruct Hx as (_ & _ & _ & _ & Hxb).
  unfold agent_wire. apply list.Forall_app. split; [|done].
  unfold encode. cbn [write VdAgentMessageHeader_wire]. unfold VdAgentMessageHeader_write, extend_from_slice.
  rewrite app_nil_l. repeat (apply list.Forall_app; split); apply to_le_bytes.
Qed.

(** The guest's reassembler on what the channel wrote. *)
Lemma guest_receives bodies rest ms : Forall agent_bytes_ok ms ->
  concat bodies ++ rest = concat ms ->
  exists guest msgs, push_all (AgentReassembler_new u32_max) bodies = Some (guest, map Message msgs) /\
    Forall (agent_message_ok u32_max) msgs /\ (rest = [] -> at_message_boundary guest = true).
Proof.
  intros Hms Hw. destruct (bytes_agent_wire ms Hms) as (msgs & -> & Hok & Hb).
  rewrite <- Hw in Hb. apply list.Forall_app in Hb as [Hb _]. apply Forall_concat_inv in Hb.
  destruct (push_messages_prefix u32_max msgs bodies rest ltac:(done) Hok Hb Hw)
    as (guest & n & E & Hbd).
  exists guest, (take n msgs). split_and!; [done|by apply Forall_take|]. by intros [? _]%Hbd.
Qed.

(** C3: The guest agent's stream is never corrupted.  Take any run of the channel
    for up to 255 monitors: whatever the server and the guest send, in whatever
    order, with agents that connect and disconnect at any point and writes that
    fail; with a host clipboard whose texts are shorter than 4 GiB; and with
    display sizes that are any [u32]s in a release build, and in a build that
    checks arithmetic have a width of at most [u32::MAX / 254], beyond which the
    position of a monitor can overflow and panic ([third_monitor_overflows]).  Then
    the channel never panics; each AGENT_DATA body it wrote is between 1 and
    [MAX_AGENT_CHUNK] bytes; and the bodies, reassembled by the guest, are complete
    well-formed agent messages and the start of at most one more.  While the
    channel is up, its queue holds at most [MAX_QUEUED_AGENT_MESSAGES], and with no
    tail owed the guest stands at a message boundary. *)
Theorem main_agent_stream s0 arms :
  fresh s0 -> Forall arm_ok arms ->
  let (r, s) := run_arms env arms s0 in
  r <> Panic /\
  Forall (fun c => 1 <= zlen c <= MAX_AGENT_CHUNK) (agent_bodies (mc_log s)) /\
  (r = Ok tt -> aq_len (ag_queue (mc_agent s)) <= MAX_QUEUED_AGENT_MESSAGES) /\
  exists guest ms,
    push_all (AgentReassembler_new u32_max) (agent_bodies (mc_log s)) = Some (guest, map Message ms) /\
    Forall (agent_message_ok u32_max) ms /\
    (r = Ok tt -> owed (ag_queue (mc_agent s)) = [] -> at_message_boundary guest = true).
Proof.
  intros H0 Ha. destruct (run_log s0 arms H0 Ha) as (Hp & Hl & Hi).
  destruct (run_arms env arms s0) as [r s]. cbn [fst snd] in *.
  split_and!; [done|apply Hl|by intros [_ ?]%Hi%f_queue|].
  destruct r as [[]|e|]; [|destruct (l_wire _ Hl) as (ms & rest & Hms & Hw)|done].
  - destruct (f_wire _ _ _ _ _ _ _ _ _ _ _ (Hi eq_refl)) as (ms & Hms & Hw).
    destruct (guest_receives _ _ ms Hms Hw) as (guest & msgs & E & Hok & Hb).
    exists guest, msgs. by split_and!.
  - destruct (guest_receives _ _ ms Hms Hw) as (guest & msgs & E & Hok & Hb).
    by exists guest, msgs.
Qed.

(** C4: The channel keeps to the server's flow control: at no point of a run,
    also one that fails, has it written more AGENT_DATA messages than the
    tokens the server granted by then (an INIT or AGENT_CONNECTED_TOKENS
    setting them, AGENT_TOKEN adding to them); and its requests for client
    mouse mode never outnumber the server's confirmations of that mode by more
    than one. *)
Theorem main_keeps_credit s0 arms :
  fresh s0 -> Forall arm_ok arms ->
  let log := mc_log (snd (run_arms env arms s0)) in
  (forall n, 0 <= credit (take n log)) /\ mouse_requests log <= mouse_confirmations log + 1.
Proof. intros H0 Ha. destruct (run_log s0 arms H0 Ha) as (_ & Hl & _). split; apply Hl. Qed.

(** C5: Every PING is answered by a PONG with its id and time stamp and every
    SET_ACK by an ACK_SYNC with its generation, in the order they came, each
    exactly once, and nothing else is sent of those types: after a run all of
    them are, and after a run that failed all up to the failure. *)
Theorem main_answers_in_order s0 arms :
  fresh s0 -> Forall arm_ok arms ->
  let (r, s) := run_arms env arms s0 in
  answers (mc_log s) `prefix_of` answers_due (mc_log s) /\
  (r = Ok tt -> answers (mc_log s) = answers_due (mc_log s)).
Proof.
  intros H0 Ha. destruct (run_log s0 arms H0 Ha) as (_ & Hl & Hi).
  destruct (run_arms env arms s0) as [r s]. cbn [fst snd] in *.
  split; [apply Hl|]. intros ->. pose proof (f_answers _ _ _ _ _ _ _ _ _ _ _ (Hi eq_refl)) as E.
  cbn [d_due] in E. by rewrite app_nil_r in E.
Qed.

(** * The display size *)

Definition announce_message : list Z :=
  agent_message VD_AGENT_ANNOUNCE_CAPABILITIES (write client_agent_capabilities []).

Definition monitors_message (config : MonitorsConfig) : list Z :=
  agent_message VD_AGENT_MONITORS_CONFIG (write config []).

Lemma agent_message_ok_body ty payload : u32 ty -> body_ok payload ->
  agent_bytes_ok (agent_message ty payload).
Proof. intros Hty [Hb Hl]. by apply agent_message_bytes. Qed.

(** Sending a message there is room for. *)
Lemma send_room due s ty payload : inv due s -> u32 ty -> body_ok payload ->
  aq_len (ag_queue (mc_agent s)) < MAX_QUEUED_AGENT_MESSAGES ->
  match send_agent_data_message env ty payload s with
  | (Ok queued, s') => queued = true /\
      state_at due (agent_total s ++ agent_message ty payload)
        (aq_len (ag_queue (mc_agent s)) + 1) (rest_of s) s' /\ settled s'
  | (Err _, s') => failed s'
  | (Panic, _) => False
  end.
Proof.
  intros Hi Hty Hb Hroom.
  pose proof (triple_send_agent_data env due _ _ _ ty payload
    (agent_message_ok_body ty payload Hty Hb) s (inv_state_at due s Hi)) as H.
  destruct (send_agent_data_message env ty payload s) as [[queued|e|] s']; [|done|done].
  destruct H as (Hs & Hq & Hset). specialize (Hq Hroom) as ->.
  split; [done|]. split; [exact Hs|by apply Hset].
Qed.

Lemma announce_room due s : inv due s -> ag_connected (mc_agent s) = true ->
  ag_caps_announced (mc_agent s) = false ->
  aq_len (ag_queue (mc_agent s)) < MAX_QUEUED_AGENT_MESSAGES ->
  match maybe_send_announce_capabilities env s with
  | (Ok _, s') => inv due s' /\ agent_total s' = agent_total s ++ announce_message /\
      aq_len (ag_queue (mc_agent s')) <= aq_len (ag_queue (mc_agent s)) + 1 /\
      mc_resize s' = mc_resize s /\ mc_monitors s' = mc_monitors s /\
      ag_connected (mc_agent s') = true /\ ag_caps_announced (mc_agent s') = true
  | (Err _, s') => failed s'
  | (Panic, _) => False
  end.
Proof.
  intros Hi Hc Ha Hroom. unfold maybe_send_announce_capabilities.
  rewrite (bind_ok (agent_field _) _ _ _ _ eq_refl). cbn [id]. rewrite Hc, Ha. cbn [negb orb].
  pose proof (send_room due s VD_AGENT_ANNOUNCE_CAPABILITIES _ Hi ltac:(done) caps_body Hroom) as H.
  unfold bind. destruct (send_agent_data_message env _ _ s) as [[queued|e|] s']; [|done|done].
  destruct H as (-> & (Hi' & Ht & Hn & Hr) & _). unfold rest_of in Hr.
  injection Hr as ?? _ ? _ _ _ _ ? _ _ _ _. cbn. split_and!; try done; try congruence.
Qed.

Lemma monitors_room due s w h config : inv due s -> ag_connected (mc_agent s) = true ->
  ag_caps_announced (mc_agent s) = true ->
  aq_len (ag_queue (mc_agent s)) < MAX_QUEUED_AGENT_MESSAGES ->
  rz_pending (mc_resize s) = Some (w, h) ->
  agent_monitors_config (mc_monitors s) w h = Some config ->
  match maybe_send_agent_monitors_config env s with
  | (Ok _, s') => agent_total s' = agent_total s ++ monitors_message config /\ settled s' /\
      rz_pending (mc_resize s') = None /\ rz_last_sent (mc_resize s') = Some (w, h)
  | (Err _, s') => failed s'
  | (Panic, _) => False
  end.
Proof.
  intros Hi Hc Ha Hroom Hp Hconf. unfold maybe_send_agent_monitors_config.
  rewrite (bind_ok (gets _) _ _ _ _ eq_refl), Hp, (bind_ok (agent_field _) _ _ _ _ eq_refl).
  cbn [id]. rewrite Hc, Ha. cbn [negb].
  destruct (f_pending _ _ _ _ _ _ _ _ _ _ _ Hi _ Hp) as [Hsz Hlast].
  rewrite bool_decide_eq_false_2 by done.
  unfold bind at 1, send_agent_monitors_config. rewrite (bind_ok (gets _) _ _ _ _ eq_refl), Hconf.
  rewrite (bind_ok (unwrap (Some _)) _ _ _ _ eq_refl).
  destruct (monitors_config_ok (mc_monitors s) w h (f_monitors _ _ _ _ _ _ _ _ _ _ _ Hi) Hsz)
    as (config' & E & Hb).
  rewrite Hconf in E. injection E as <-.
  pose proof (send_room due s VD_AGENT_MONITORS_CONFIG _ Hi ltac:(done) Hb Hroom) as H.
  destruct (send_agent_data_message env _ _ s) as [[queued|e|] s']; [|done|done].
  destruct H as (-> & (_ & Ht & _) & Hset). by split_and!.
Qed.

(** With a stream that takes writes, [m] returns. *)
Lemma writes_return {A} (m : Mc B A) s (Q : A -> MainChannel B -> Prop) :
  (forall n, env_write_ok env n = true) -> io_only env m ->
  match m s with (Ok a, s') => Q a s' | (Err _, s') => failed s' | (Panic, _) => False end ->
  exists a s', m s = (Ok a, s') /\ Q a s'.
Proof.
  intros Hok Hm HQ. pose proof (Hm s) as E. destruct (m s) as [[a|e|] s']; [by exists a, s'| |done].
  destruct E as (_ & _ & n & _ & _ & Hn). by rewrite Hok in Hn.
Qed.

Lemma io_start : io_only env (send_agent_start env : Mc B unit).
Proof. apply io_send_with_log. Qed.

Lemma start_room due s : inv due s ->
  match send_agent_start env s with
  | (Ok _, s') => inv due s' /\ agent_total s' = agent_total s /\ mc_agent s' = mc_agent s /\
      mc_resize s' = mc_resize s /\ mc_monitors s' = mc_monitors s
  | (Err _, s') => failed s'
  | (Panic, _) => False
  end.
Proof.
  intros Hi. pose proof (holds_start env due s Hi) as H. unfold send_agent_start in *.
  set (m := make_message _ _) in *.
  destruct (send_with_log_run env main_client_AGENT_START m s) as [(t & n & E)|(t & n & E)];
    rewrite E in *; [|done].
  split_and!; try done. unfold agent_total. cbn [mc_log mc_agent resent].
  do 2 f_equal. unfold agent_bodies. by rewrite !omap_snoc, !app_nil_r.
Qed.

Lemma connect_room due s w h config :
  (forall n, env_write_ok env n = true) -> inv due s -> ag_connected (mc_agent s) = true ->
  ag_caps_announced (mc_agent s) = false ->
  rz_pending (mc_resize s) = Some (w, h) -> rz_debounce (mc_resize s) = None ->
  aq_len (ag_queue (mc_agent s)) < MAX_QUEUED_AGENT_MESSAGES - 1 ->
  agent_monitors_config (mc_monitors s) w h = Some config ->
  exists s', connect_agent env s = (Ok tt, s') /\
    agent_total s' = agent_total s ++ announce_message ++ monitors_message config /\ settled s' /\
    rz_pending (mc_resize s') = None /\ rz_last_sent (mc_resize s') = Some (w, h).
Proof.
  intros Hok Hi Hc Ha Hp Hd Hroom Hconf. unfold connect_agent.
  destruct (writes_return _ s _ Hok io_start (start_room _ s Hi))
    as ([] & s2 & E2 & Hi2 & Ht2 & Hg2 & Hr2 & Hm2). rewrite (bind_ok _ _ _ _ _ E2).
  rewrite <- Hg2 in Hc, Ha, Hroom.
  destruct (writes_return _ s2 _ Hok (io_announce env) (announce_room _ s2 Hi2 Hc Ha ltac:(lia)))
    as ([] & s3 & E3 & Hi3 & Ht3 & Hn3 & Hr3 & Hm3 & Hc3 & Ha3). rewrite (bind_ok _ _ _ _ _ E3).
  rewrite <- Hr2, <- Hr3 in Hp, Hd. rewrite <- Hm2, <- Hm3 in Hconf.
  assert (maybe_send_settled_monitors_config env s3 = maybe_send_agent_monitors_config env s3) as Es.
  { unfold maybe_send_settled_monitors_config. by rewrite (bind_ok (gets _) _ _ _ _ eq_refl), Hd. }
  pose proof (monitors_room _ s3 w h config Hi3 Hc3 Ha3 ltac:(lia) Hp Hconf) as H.
  rewrite <- Es in H.
  destruct (writes_return _ s3 _ Hok (io_settled env) H) as ([] & s4 & E4 & Ht4 & Hrest).
  exists s4. split; [done|]. split; [|exact Hrest]. by rewrite Ht4, Ht3, Ht2, <- app_assoc.
Qed.

(** C6: A message ends the main channel exactly when it should.  Between any two
    turns of a run (of the runs of [main_agent_stream]), whatever the receive
    buffer holds and whatever bytes the message is made of: an INIT, CHANNELS_LIST,
    PING, SET_ACK or NOTIFY whose body does not decode fails with an error that
    names the message and carries the decoder's error; any other message is
    handled, or fails because its last write to the server was refused, and nothing
    panics.  A message that writes nothing (every kind but INIT, PING, SET_ACK, a
    MOUSE_MODE that decodes and the agent's, but not its disconnection) then always
    succeeds, an unknown one included. *)
Theorem main_message_errors ty payload s b :
  reached s -> rb_ok b -> bytes payload -> zlen payload <= isize_max ->
  let s0 := heard ty payload (on_buffer (fun _ => b) s) in
  let (r, s') := handle_message env ty payload s0 in
  match refused ty payload with
  | Some e => r = Err (Chan_Malformed ty e)
  | None => r = Ok tt \/
      (r = Err Chan_Io /\ exists n, (mc_turn s0 <= n)%nat /\ mc_turn s' = S n /\ env_write_ok env n = false)
  end /\
  (harmless ty payload = true -> refused ty payload = None -> r = Ok tt).
Proof.
  intros Hs Hbuf Hb Hl s0. pose proof (message_parses env ty payload Hb Hl) as Hp.
  pose proof (harmless_calm env ty payload Hb Hl) as Hc.
  pose proof (triple_message env b ty payload (on_buffer (fun _ => b) s)
    (set_buffer _ _ s b (reached_idle s Hs) Hbuf) Hb Hl s0 eq_refl) as Ht.
  destruct (refused ty payload) as [e|]; cbn [parses] in Hp; specialize (Hp s0).
  - destruct (handle_message env ty payload s0) as [r s']. by split.
  - assert (harmless ty payload = true -> fst (handle_message env ty payload s0) = Ok tt) as Hok.
    { intros Hh. by destruct (Hc Hh eq_refl s0) as [[] E]. }
    destruct (handle_message env ty payload s0) as [r s']. split; [|by intros Hh _; apply Hok].
    destruct r as [[]|e|]; [by left|right|done]. destruct Hp as [_ [-> Hw]]. by split.
Qed.

(** C7: A display size asked for before the guest agent was there reaches it
    when it connects: with a settled size pending, a stream that takes writes
    and room in the queue, AGENT_CONNECTED is handled without error and
    appends to the agent's stream our capabilities and then, whole, the
    MONITORS_CONFIG for that size, which is remembered as the last one sent
    and is no longer pending; and all of it is written at once, up to the
    server's tokens. *)
Theorem main_sends_pending_size s w h config :
  reached s -> (forall n, env_write_ok env n = true) ->
  rz_pending (mc_resize s) = Some (w, h) -> rz_debounce (mc_resize s) = None ->
  ag_caps_announced (mc_agent s) = false ->
  aq_len (ag_queue (mc_agent s)) < MAX_QUEUED_AGENT_MESSAGES - 1 ->
  agent_monitors_config (mc_monitors s) w h = Some config ->
  exists s', handle_agent_connected env s = (Ok tt, s') /\
    agent_total s' = agent_total s ++ announce_message ++ monitors_message config /\
    settled s' /\
    rz_pending (mc_resize s') = None /\ rz_last_sent (mc_resize s') = Some (w, h).
Proof.
  intros Hs Hok Hp Hd Ha Hroom Hconf. unfold handle_agent_connected.
  rewrite (bind_ok reset_agent_stream _ _ _ _ eq_refl), (bind_ok (set_agent _) _ _ _ _ eq_refl),
    (bind_ok publish_agent_connected _ _ _ _ eq_refl).
  match goal with |- context [connect_agent env ?x] => set (s1 := x) end.
  assert (inv (owes (mc_buffer s) []) s1) as Hi1.
  { apply (holds_log (Ev_AgentConnected true)); [done|]. apply (holds_connected true).
    apply holds_reset. by apply reached_idle. }
  assert (agent_total s1 = agent_total s) as <-.
  { unfold agent_total. do 2 f_equal. unfold agent_bodies, s1. cbn [ch_on_log ch_on_totals MainChannel_state mc_log on_log on_agent].
    by rewrite omap_snoc, app_nil_r. }
  by apply (connect_room _ s1 w h config Hok Hi1).
Qed.

(** * Tokens *)

(** A settled channel stays settled: the announcement goes out at once, or
    waits for a token, or finds the queue full. *)
Lemma announce_settled due s : inv due s -> settled s ->
  match maybe_send_announce_capabilities env s with
  | (Ok _, s') => settled s' /\ mc_resize s' = mc_resize s /\
      agent_total s `prefix_of` agent_total s'
  | (Err _, s') => failed s'
  | (Panic, _) => False
  end.
Proof.
  intros Hi Hs. unfold maybe_send_announce_capabilities.
  rewrite (bind_ok (agent_field _) _ _ _ _ eq_refl). cbn [id].
  destruct (_ || _); [done|].
  destruct (Z.lt_ge_cases (aq_len (ag_queue (mc_agent s))) MAX_QUEUED_AGENT_MESSAGES) as [Hroom|Hfull].
  - pose proof (send_room due s VD_AGENT_ANNOUNCE_CAPABILITIES _ Hi ltac:(done) caps_body Hroom) as H.
    unfold bind. destruct (send_agent_data_message env _ _ s) as [[queued|e|] s']; [|done|done].
    destruct H as (-> & (_ & Ht & _ & Hr) & Hset). unfold rest_of in Hr.
    injection Hr as _ _ _ Hr _ _ _ _ _ _ _ _ _. split; [exact Hset|]. split; [exact Hr|].
    change (agent_total s `prefix_of` agent_total s'). rewrite Ht. by apply prefix_app_r.
  - unfold send_agent_data_message, aq_push, agent_field.
    by rewrite !(bind_ok (bind (gets _) _) _ s false s)
      by (unfold bind, gets; by rewrite (proj2 (Z.leb_le _ _) Hfull)).
Qed.

Lemma token_run n s due : inv due (on_agent (fun a => ag_set_tokens (saturating_add_u32 (ag_tokens a) n) a) s) ->
  match (do? set_agent (fun a => ag_set_tokens (saturating_add_u32 (ag_tokens a) n) a) in
         do? flush_agent_queue env in maybe_send_announce_capabilities env) s with
  | (Ok _, s') => settled s' /\ mc_resize s' = mc_resize s /\
      agent_total s `prefix_of` agent_total s'
  | (Err _, s') => failed s'
  | (Panic, _) => False
  end.
Proof.
  intros Hi. rewrite (bind_ok (set_agent _) _ _ _ _ eq_refl). set (s1 := on_agent _ s) in *.
  pose proof (triple_flush env due _ _ _ s1 (inv_state_at due s1 Hi)) as H. unfold bind at 1.
  destruct (flush_agent_queue env s1) as [[[]|e|] s2]; [|done|done].
  destruct H as [(Hi2 & Ht & _ & Hr) Hset]. unfold rest_of in Hr.
  injection Hr as _ _ _ Hr _ _ _ _ _ _ _ _ _.
  change (agent_total s1) with (agent_total s) in Ht. rewrite <- Ht.
  change (mc_resize s1) with (mc_resize s) in Hr. rewrite <- Hr.
  by apply (announce_settled due).
Qed.

(** C8: A token grant drains the queue: after an AGENT_TOKEN (a short one counting
    as one token), with a stream that takes writes, either the agent's queue is
    empty or the tokens are used up, nothing queued before is lost or
    reordered, and the handler returns.  The display size still pending,
    which a full queue may have refused, is not tried again: it stays as it
    was. *)
Theorem main_token_drains s payload :
  reached s -> (forall n, env_write_ok env n = true) ->
  bytes payload -> zlen payload <= MAX_MESSAGE_BODY ->
  exists s', handle_message env main_server_AGENT_TOKEN payload
      (hear main_server_AGENT_TOKEN payload s) = (Ok tt, s') /\
    settled s' /\ agent_total s `prefix_of` agent_total s' /\ mc_resize s' = mc_resize s.
Proof.
  intros Hs Hok Hb Hl. assert (zlen payload <= isize_max) as Hz
    by (unfold MAX_MESSAGE_BODY, isize_max in *; lia).
  pose proof (reached_idle s Hs) as Hi. unfold handle_message.
  rewrite (bind_ok (count_opcodes _) _ _ _ _ eq_refl).
  match goal with |- context [dispatch env _ _ ?x] => set (s1 := x) end.
  change (dispatch env main_server_AGENT_TOKEN payload s1) with (handle_agent_token env payload s1).
  assert (agent_total s1 = agent_total s) as Ht1.
  { unfold agent_total. do 2 f_equal. unfold agent_bodies, s1, hear. cbn [ch_on_log ch_on_totals MainChannel_state mc_log on_log on_totals].
    by rewrite omap_snoc, app_nil_r. }
  match type of s1 with _ => match eval unfold s1 in s1 with ch_on_totals ?f _ =>
    destruct (token_granted env (mc_buffer s) payload (on_totals f s) Hi Hb Hz) as (n & Hrun & Hi1) end end.
  pose proof (token_run n s1 _ Hi1) as H. rewrite <- Hrun in H.
  destruct (writes_return (handle_agent_token env payload) s1 _ Hok (io_token env payload) H)
    as ([] & s' & E & Hset & Hr & Hp).
  exists s'. rewrite Ht1 in Hp. by split_and!.
Qed.

(** * The clipboard *)

Definition grab_body (has_selection : bool) : list Z :=
  write_with (mkClipboardGrab VD_AGENT_CLIPBOARD_SELECTION_CLIPBOARD
    [VD_AGENT_CLIPBOARD_UTF8_TEXT]) [] has_selection.

(** The clipboards do not ping-pong: text the guest put on the host's
    clipboard is handed to the backend and, when a later poll reads it back
    changed only as hosts change it (CRLF line endings, blanks at the end, one
    after the other or undone), nothing is sent and the agent's state does not
    change; whatever the backend, and whatever the backend's generation says. *)
Theorem main_clipboard_echo s data back cb :
  data <> [] -> host_echo (from_utf8_lossy data) back -> fst (cb_get_text cb) = Some back ->
  exists s1, handle_guest_clipboard env (Gc_Data (mkClipboard VD_AGENT_CLIPBOARD_SELECTION_CLIPBOARD
        VD_AGENT_CLIPBOARD_UTF8_TEXT data)) s = (Ok tt, s1) /\
    mc_clipboard s1 = (fun c => snd (cb_set_text (from_utf8_lossy data) c)) <$> mc_clipboard s /\
    exists s2, poll_host_clipboard env (on_clipboard (fun _ => Some cb) s1) = (Ok tt, s2) /\
      mc_log s2 = mc_log s /\ mc_agent s2 = mc_agent s.
Proof.
  intros Hne Hecho Hget. destruct data as [|x data]; [done|].
  set (text := from_utf8_lossy (x :: data)) in *.
  exists (on_clip (fun c => mkClipState (Some (hash_clipboard env text)) (cl_last_generation c))
    (on_clipboard (fmap (fun cb => snd (cb_set_text text cb))) s)).
  split; [reflexivity|]. split; [reflexivity|].
  unfold poll_host_clipboard. rewrite (bind_ok (gets _) _ _ _ _ eq_refl). cbn [mc_clipboard on_clipboard].
  rewrite (bind_ok (gets _) _ _ _ _ eq_refl). destruct (_ && _); [by eexists|].
  unfold get_text_blocking. destruct (cb_get_text cb) as [read cb'] eqn:Ecb. cbn [fst] in Hget.
  subst read. unfold bind, ask, modify, ret. cbn -[hash_clipboard].
  destruct (env_clip_read env (mc_turn s)); [|by eexists..].
  destruct back as [|y back]; [by eexists|].
  assert (hash_clipboard env (y :: back) = hash_clipboard env text) as ->
    by (unfold hash_clipboard; by rewrite (normalize_echo _ _ Hecho)).
  rewrite Z.eqb_refl. by eexists.
Qed.

(** The state in which a poll that read new text sends its grab. *)
Definition polled s cb hash generation : MainChannel B :=
  on_clip (fun _ => mkClipState (Some hash) generation)
    (on_clipboard (fun _ => Some cb) (on_turn S s)).

Lemma poll_new s text cb :
  mc_clipboard s = Some cb -> fst (cb_get_text cb) = Some text -> text <> [] ->
  (cb_generation cb = None \/ cb_generation cb <> cl_last_generation (mc_clip s)) ->
  cl_last_hash (mc_clip s) <> Some (hash_clipboard env text) ->
  env_clip_read env (mc_turn s) = Clip_Completed ->
  poll_host_clipboard env s = (let? queued := send_clipboard_grab env in ret tt)
    (polled s (snd (cb_get_text cb)) (hash_clipboard env text) (cb_generation cb)).
Proof.
  intros Hcb Hget Hne Hgen Hhash Hread.
  unfold poll_host_clipboard. rewrite (bind_ok (gets _) _ _ _ _ eq_refl), Hcb.
  rewrite (bind_ok (gets _) _ _ _ _ eq_refl).
  assert (bool_decide (is_Some (cb_generation cb)) &&
    bool_decide (cb_generation cb = cl_last_generation (mc_clip s)) = false) as ->.
  { destruct Hgen as [->|Hgen]; [done|]. by rewrite (bool_decide_eq_false_2 _ Hgen), andb_false_r. }
  unfold get_text_blocking. destruct (cb_get_text cb) as [read cb'] eqn:Ecb. cbn [fst] in Hget.
  subst read. rewrite (bind_ok _ _ s (Some (Some text)) (on_clipboard (fun _ => Some cb') (on_turn S s)))
    by (unfold bind, ask; change (ch_turn s) with (mc_turn s); by rewrite Hread).
  destruct text as [|y text]; [done|]. rewrite (bind_ok (set_clip _) _ _ _ _ eq_refl).
  assert (match cl_last_hash (mc_clip s) with
    | Some prev => negb (prev =? hash_clipboard env (y :: text)) | None => true end = true) as ->.
  { destruct (cl_last_hash (mc_clip s)) as [prev|]; [|done].
    destruct (Z.eqb_spec prev (hash_clipboard env (y :: text))) as [->|]; done. }
  cbn [when]. by rewrite (bind_ok (set_clip _) _ _ _ _ eq_refl).
Qed.

Lemma polled_inv due s cb hash generation : inv due s -> mc_clipboard s = Some cb ->
  inv due (polled s (snd (cb_get_text cb)) hash generation).
Proof.
  intros Hi Hcb. pose proof (f_clipboard _ _ _ _ _ _ _ _ _ _ _ Hi cb Hcb) as Hok.
  destruct Hi. split; try done. intros cb' [= <-]. by apply cb_get_ok.
Qed.

(** New text on the host's clipboard is offered to the guest: when a poll
    reads, in time, a text that is not empty, whose normalised hash differs
    from the last one and from a backend that does not say it is unchanged, the
    guest's capabilities are known and the queue has room, exactly one
    CLIPBOARD_GRAB in the layout the guest understands is appended to the
    agent's stream, and the text's hash is remembered. *)
Theorem main_clipboard_offer s text cb selection :
  reached s -> (forall n, env_write_ok env n = true) ->
  mc_clipboard s = Some cb -> fst (cb_get_text cb) = Some text -> text <> [] ->
  (cb_generation cb = None \/ cb_generation cb <> cl_last_generation (mc_clip s)) ->
  cl_last_hash (mc_clip s) <> Some (hash_clipboard env text) ->
  ag_clip_selection (mc_agent s) = Some selection ->
  aq_len (ag_queue (mc_agent s)) < MAX_QUEUED_AGENT_MESSAGES ->
  env_clip_read env (mc_turn s) = Clip_Completed ->
  exists s', poll_host_clipboard env s = (Ok tt, s') /\
    agent_total s' = agent_total s ++ agent_message VD_AGENT_CLIPBOARD_GRAB (grab_body selection) /\
    cl_last_hash (mc_clip s') = Some (hash_clipboard env text) /\ settled s'.
Proof.
  intros Hs Hok Hcb Hget Hne Hgen Hhash Hsel Hroom Hread.
  pose proof (poll_new s text cb Hcb Hget Hne Hgen Hhash Hread) as Hrun.
  pose proof (polled_inv _ s cb (hash_clipboard env text) (cb_generation cb) (reached_idle s Hs) Hcb) as Hi.
  set (s1 := polled _ _ _ _) in *.
  assert (clipboard_payload (mkClipboardGrab VD_AGENT_CLIPBOARD_SELECTION_CLIPBOARD
      [VD_AGENT_CLIPBOARD_UTF8_TEXT]) s1 = (Ok (Some (grab_body selection)), s1)) as Hp.
  { unfold clipboard_payload, bind, agent_field, gets. change (mc_agent s1) with (mc_agent s).
    by rewrite Hsel. }
  assert (send_clipboard_grab env s1 =
    send_agent_data_message env VD_AGENT_CLIPBOARD_GRAB (grab_body selection) s1) as Hg
    by (unfold send_clipboard_grab, send_clipboard_message; by rewrite (bind_ok _ _ _ _ _ Hp)).
  pose proof (send_room _ s1 VD_AGENT_CLIPBOARD_GRAB _ Hi ltac:(done) (grab_ok selection) Hroom) as H.
  destruct (writes_return _ s1 _ Hok (io_agent_data env _ _) H)
    as (queued & s2 & E2 & -> & (_ & Ht & _ & Hr) & Hset).
  rewrite (bind_ok _ _ _ _ _ (eq_trans Hg E2)) in Hrun. unfold rest_of in Hr.
  injection Hr as _ _ _ _ Hc _ _ _ _ _ _ _ _.
  exists s2. split; [exact Hrun|]. split; [exact Ht|]. split; [by rewrite Hc|exact Hset].
Qed.

End Runs.

(** * A session *)

(** A debug build. *)
#[local] Instance demo_profile : BuildProfile := {| arithmetic_checked := true |}.

(** Clocks that count the questions, a stream that takes every write, no
    capture, clipboard reads in time, and a small polynomial hash. *)
Definition demo_env : Env :=
  mkEnv (fun n => Z.of_nat n * 1000000) Z.of_nat (fun _ => true) None (fun _ => Clip_Completed)
    (fun text => foldl (fun h b => (31 * h + b) mod 2 ^ 64) 7 text).

Definition demo_new : MainChannel MemoryClipboard :=
  MainChannel_new 1 (Some MemoryClipboard_new) (MmClock_new 0).

(** INIT with an agent and two tokens, both mouse modes and the server's one
    current; PING; SET_ACK. *)
Definition demo_init : list Z :=
  make_message main_server_INIT (encode (mkMainInit 77 1 3 1 1 2 1000 0)).
Definition demo_pings : list Z :=
  make_message main_server_PING (encode (mkPing 5 99 0)) ++
  make_message main_server_SET_ACK (encode (mkSetAck 3 20)).

(** The size settles, the clipboard is polled, the server confirms the mode,
    and the guest says what it can do. *)
Definition demo_arms : list Arm :=
  [Arm_Resize (Some (Requested 1920 1080)); Arm_Read (take 10 demo_init); Arm_Read (drop 10 demo_init);
   Arm_Debounce; Arm_Read demo_pings; Arm_ClipboardTick;
   Arm_Read (make_message main_server_MOUSE_MODE (encode (mkMainMouseMode 3 2)));
   Arm_Read (make_message main_server_AGENT_DATA
     (agent_message VD_AGENT_ANNOUNCE_CAPABILITIES (write client_agent_capabilities [])))].

Lemma demo_fresh : fresh demo_new.
Proof. do 3 eexists. split; [reflexivity|]. split; [lia|]. by intros cb [= <-] text E. Defined.

(** Concrete arms are in bounds. *)
Ltac arms_ok :=
  repeat match goal with |- Forall _ (_ :: _) => constructor | |- Forall _ [] => constructor end;
  first [by split_and!; cbn; unfold in_unsigned, u32_max; lia | done | cbn [arm_ok]; apply (bool_decide_unpack _); vm_compute; exact I].

Lemma demo_arms_ok : Forall arm_ok demo_arms.
Proof. unfold demo_arms. arms_ok. Defined.

Definition demo_end : MainChannel MemoryClipboard := snd (run_arms demo_env demo_arms demo_new).

(** The guest gets our capabilities and the display size. *)
Lemma main_agent_stream_witness :
  agent_bodies (mc_log demo_end) =
    [announce_message; monitors_message (mkMonitorsConfig 0 [mkMonConfig 1080 1920 32 0 0] [])] /\
  let (r, s) := run_arms demo_env demo_arms demo_new in
  r <> Panic /\
  Forall (fun c => 1 <= zlen c <= MAX_AGENT_CHUNK) (agent_bodies (mc_log s)) /\
  (r = Ok tt -> aq_len (ag_queue (mc_agent s)) <= MAX_QUEUED_AGENT_MESSAGES) /\
  exists guest ms,
    push_all (AgentReassembler_new u32_max) (agent_bodies (mc_log s)) = Some (guest, map Message ms) /\
    Forall (agent_message_ok u32_max) ms /\
    (r = Ok tt -> owed (ag_queue (mc_agent s)) = [] -> at_message_boundary guest = true).
Proof.
  split; [vm_compute; reflexivity|].
  exact (main_agent_stream demo_env demo_new demo_arms demo_fresh demo_arms_ok).
Defined.

(** Two tokens granted, two spent; one request, one confirmation. *)
Lemma main_keeps_credit_witness :
  credit (mc_log demo_end) = 0 /\ mouse_requests (mc_log demo_end) = 1 /\
  (forall n, 0 <= credit (take n (mc_log demo_end))) /\
  mouse_requests (mc_log demo_end) <= mouse_confirmations (mc_log demo_end) + 1.
Proof.
  split; [vm_compute; reflexivity|]. split; [vm_compute; reflexivity|].
  exact (main_keeps_credit demo_env demo_new demo_arms demo_fresh demo_arms_ok).
Defined.

Lemma main_answers_in_order_witness :
  answers (mc_log demo_end) =
    [make_message main_client_PONG (encode (mkPing 5 99 0)); make_message main_client_ACK_SYNC [3; 0; 0; 0]] /\
  let (r, s) := run_arms demo_env demo_arms demo_new in
  answers (mc_log s) `prefix_of` answers_due (mc_log s) /\
  (r = Ok tt -> answers (mc_log s) = answers_due (mc_log s)).
Proof.
  split; [vm_compute; reflexivity|].
  exact (main_answers_in_order demo_env demo_new demo_arms demo_fresh demo_arms_ok).
Defined.

(** An INIT of two bytes ends the channel, a message of no known kind does not. *)
Lemma main_message_errors_witness :
  fst (handle_message demo_env main_server_INIT [1; 2]
    (heard main_server_INIT [1; 2] (on_buffer (fun _ => rb_new) demo_end))) =
    Err (Chan_Malformed main_server_INIT (Truncated 4 2)) /\
  fst (handle_message demo_env 999 [1; 2] (heard 999 [1; 2] (on_buffer (fun _ => rb_new) demo_end))) = Ok tt.
Proof.
  assert (reached demo_env demo_end) as Hr.
  { exists demo_new, demo_arms. split; [exact demo_fresh|]. split; [exact demo_arms_ok|]. vm_compute. reflexivity. }
  assert (rb_ok rb_new) as Hbuf by by split; [cbn|constructor].
  assert (bytes [1; 2]) as Hb by (repeat constructor; unfold in_unsigned; lia).
  split.
  - pose proof (main_message_errors demo_env main_server_INIT [1; 2] demo_end rb_new Hr Hbuf Hb ltac:(done)) as H.
    cbv zeta in H. destruct (handle_message demo_env main_server_INIT [1; 2] _) as [r s']. exact (proj1 H).
  - pose proof (main_message_errors demo_env 999 [1; 2] demo_end rb_new Hr Hbuf Hb ltac:(done)) as H.
    cbv zeta in H. destruct (handle_message demo_env 999 [1; 2] _) as [r s'].
    exact (proj2 H eq_refl eq_refl).
Defined.

(** A size asked for before there is an agent. *)
Definition early_arms : list Arm :=
  [Arm_Read (make_message main_server_INIT (encode (mkMainInit 77 1 3 2 0 5 1000 0)));
   Arm_Resize (Some (Requested 800 600)); Arm_Debounce].
Definition early_state : MainChannel MemoryClipboard := snd (run_arms demo_env early_arms demo_new).


Lemma early_reached : reached demo_env early_state.
Proof.
  exists demo_new, early_arms. split; [exact demo_fresh|]. split; [unfold early_arms; arms_ok|].
  vm_compute. reflexivity.
Defined.

Lemma main_sends_pending_size_witness :
  exists s', handle_agent_connected demo_env early_state = (Ok tt, s') /\
    agent_total s' = announce_message ++
      monitors_message (mkMonitorsConfig 0 [mkMonConfig 600 800 32 0 0] []) /\
    settled s' /\
    rz_pending (mc_resize s') = None /\ rz_last_sent (mc_resize s') = Some (800, 600).
Proof.
  exact (main_sends_pending_size demo_env early_state 800 600
    (mkMonitorsConfig 0 [mkMonConfig 600 800 32 0 0] []) early_reached (fun _ => eq_refl)
    eq_refl eq_refl eq_refl eq_refl eq_refl).
Defined.

(** An agent with no tokens: what it is to get waits for them. *)
Definition waiting_arms : list Arm :=
  [Arm_Read (make_message main_server_INIT (encode (mkMainInit 77 1 3 2 1 0 1000 0)))].
Definition waiting_state : MainChannel MemoryClipboard := snd (run_arms demo_env waiting_arms demo_new).

Lemma waiting_reached : reached demo_env waiting_state.
Proof.
  exists demo_new, waiting_arms. split; [exact demo_fresh|]. split; [unfold waiting_arms; arms_ok|].
  vm_compute. reflexivity.
Defined.

Lemma main_token_drains_witness :
  backlog (ag_queue (mc_agent waiting_state)) = announce_message /\
  exists s', handle_message demo_env main_server_AGENT_TOKEN [3; 0; 0; 0]
      (hear main_server_AGENT_TOKEN [3; 0; 0; 0] waiting_state) = (Ok tt, s') /\
    settled s' /\ agent_total waiting_state `prefix_of` agent_total s' /\
    mc_resize s' = mc_resize waiting_state.
Proof.
  split; [vm_compute; reflexivity|].
  apply (main_token_drains demo_env waiting_state [3; 0; 0; 0] waiting_reached (fun _ => eq_refl));
    [apply (bool_decide_unpack _); vm_compute; exact I|vm_compute; discriminate].
Defined.

(** The guest puts "a, newline, b" on the clipboard and the host hands it
    back with a CRLF. *)
Lemma main_clipboard_echo_witness :
  exists s1, handle_guest_clipboard demo_env (Gc_Data (mkClipboard VD_AGENT_CLIPBOARD_SELECTION_CLIPBOARD
        VD_AGENT_CLIPBOARD_UTF8_TEXT [97; 10; 98])) demo_end = (Ok tt, s1) /\
    mc_clipboard s1 = (fun c => snd (cb_set_text (from_utf8_lossy [97; 10; 98]) c)) <$> mc_clipboard demo_end /\
    exists s2, poll_host_clipboard demo_env
        (on_clipboard (fun _ => Some (set_host_text [97; 13; 10; 98] MemoryClipboard_new)) s1) = (Ok tt, s2) /\
      mc_log s2 = mc_log demo_end /\ mc_agent s2 = mc_agent demo_end.
Proof.
  apply (main_clipboard_echo demo_env demo_end [97; 10; 98] [97; 13; 10; 98]); [done| |reflexivity].
  assert (host_echo [97; 10; 98] (to_crlf [97; 10; 98])) as He
    by (constructor; repeat constructor; discriminate).
  vm_compute in He |- *. exact He.
Defined.

(** A channel whose host clipboard already holds text when the guest's
    capabilities become known. *)
Definition copied : MemoryClipboard := set_host_text [104; 105] MemoryClipboard_new.
Definition copied_new : MainChannel MemoryClipboard :=
  MainChannel_new 1 (Some copied) (MmClock_new 0).
Definition copied_arms : list Arm :=
  [Arm_Read demo_init; Arm_Read (make_message main_server_AGENT_DATA announce_message)].
Definition copied_state : MainChannel MemoryClipboard := snd (run_arms demo_env copied_arms copied_new).

Lemma copied_reached : reached demo_env copied_state.
Proof.
  exists copied_new, copied_arms. split.
  { do 3 eexists. split; [reflexivity|]. split; [lia|].
    intros cb [= <-] text [= <-]. split; [repeat constructor|]; done. }
  split; [unfold copied_arms; arms_ok|]. vm_compute. reflexivity.
Defined.

Lemma main_clipboard_offer_witness :
  exists s', poll_host_clipboard demo_env copied_state = (Ok tt, s') /\
    agent_total s' = agent_total copied_state ++
      agent_message VD_AGENT_CLIPBOARD_GRAB [0; 0; 0; 0; 1; 0; 0; 0] /\
    cl_last_hash (mc_clip s') = Some (hash_clipboard demo_env [104; 105]) /\ settled s'.
Proof.
  apply (main_clipboard_offer demo_env copied_state [104; 105] copied true copied_reached (fun _ => eq_refl));
    [vm_compute; reflexivity|reflexivity|discriminate|right|..]; vm_compute; congruence.
Defined.
