(* ===== verification/Keyboard.v ===== *)
(** Keys and scancodes: the second half of
    [shakenfist-spice-renderer/src/channels/inputs.rs].

    [make_scancode], the tables of [scancode_for_logical_key] and
    [char_to_scancode], and [translate_paste].  A [char] is its code point and
    a [String] the list of its characters.  The specification is the keyboard
    on the other side: [wire_key] reads a scancode as a PC/AT keyboard
    controller does, [us_key] is what is printed on the keys of a US keyboard,
    and [guest_step] a guest that has one plugged in. *)
From Stdlib Require Import ZArith Lia.
From stdpp Require Import base numbers list gmap tactics.
From S2P Require Import Prelude.

Open Scope Z_scope.

(** * Scancodes *)

Inductive Direction : Type := Dir_Up | Dir_Down | Dir_Left | Dir_Right.
Inductive NavKey : Type := Nav_Home | Nav_End | Nav_PageUp | Nav_PageDown | Nav_Insert | Nav_Delete.
Inductive WSKey : Type := Ws_Space | Ws_Tab | Ws_Enter | Ws_Backspace.
Inductive PunctKey : Type :=
| Pk_Minus | Pk_Equals | Pk_OpenBracket | Pk_CloseBracket | Pk_Backslash | Pk_Semicolon
| Pk_Quote | Pk_Backtick | Pk_Comma | Pk_Period | Pk_Slash.

Inductive LogicalKey : Type :=
| Letter (c : Z)
| Digit (d : Z)
| FunctionKey (n : Z)
| Arrow (d : Direction)
| Navigation (k : NavKey)
| Whitespace (k : WSKey)
| Punctuation (k : PunctKey)
| Escape.

Definition make_scancode (base : Z) (release : bool) : Z :=
  let code := if release then Z.lor base 0x80 else base in
  if 0x100 <=? base then
    let sc := Z.land code 0xFF in
    Z.lor (Z.shiftl sc 8) 0xE0
  else code.

(** The scancodes of 'A' to 'Z', of 0 to 9 and of F1 to F12. *)
Definition letter_codes : list Z :=
  [0x1E; 0x30; 0x2E; 0x20; 0x12; 0x21; 0x22; 0x23; 0x17; 0x24; 0x25; 0x26; 0x32;
   0x31; 0x18; 0x19; 0x10; 0x13; 0x1F; 0x14; 0x16; 0x2F; 0x11; 0x2D; 0x15; 0x2C].
Definition digit_codes : list Z :=
  [0x0B; 0x02; 0x03; 0x04; 0x05; 0x06; 0x07; 0x08; 0x09; 0x0A].
Definition function_codes : list Z :=
  [0x3B; 0x3C; 0x3D; 0x3E; 0x3F; 0x40; 0x41; 0x42; 0x43; 0x44; 0x57; 0x58].

Definition logical_base (key : LogicalKey) : option Z :=
  match key with
  | Letter c => index letter_codes (c - 65)
  | Digit d => index digit_codes d
  | FunctionKey n => index function_codes (n - 1)
  | Whitespace Ws_Space => Some 0x39
  | Whitespace Ws_Enter => Some 0x1C
  | Whitespace Ws_Backspace => Some 0x0E
  | Whitespace Ws_Tab => Some 0x0F
  | Escape => Some 0x01
  | Navigation Nav_Delete => Some 0x153
  | Navigation Nav_Insert => Some 0x152
  | Navigation Nav_Home => Some 0x147
  | Navigation Nav_End => Some 0x14F
  | Navigation Nav_PageUp => Some 0x149
  | Navigation Nav_PageDown => Some 0x151
  | Arrow Dir_Up => Some 0x148
  | Arrow Dir_Down => Some 0x150
  | Arrow Dir_Left => Some 0x14B
  | Arrow Dir_Right => Some 0x14D
  | Punctuation Pk_Minus => Some 0x0C
  | Punctuation Pk_Equals => Some 0x0D
  | Punctuation Pk_OpenBracket => Some 0x1A
  | Punctuation Pk_CloseBracket => Some 0x1B
  | Punctuation Pk_Backslash => Some 0x2B
  | Punctuation Pk_Semicolon => Some 0x27
  | Punctuation Pk_Quote => Some 0x28
  | Punctuation Pk_Backtick => Some 0x29
  | Punctuation Pk_Comma => Some 0x33
  | Punctuation Pk_Period => Some 0x34
  | Punctuation Pk_Slash => Some 0x35
  end.

Definition scancode_for_logical_key (key : LogicalKey) : option (Z * Z) :=
  base ← logical_base key; Some (make_scancode base false, make_scancode base true).

(** * Characters *)

(** [char_to_scancode], a row of the source's table after the other. *)
Definition char_table : list (Z * (Z * bool)) :=
  imap (fun i code => (97 + Z.of_nat i, (code, false))) letter_codes ++
  imap (fun i code => (65 + Z.of_nat i, (code, true))) letter_codes ++
  imap (fun i code => (48 + Z.of_nat i, (code, false))) digit_codes ++
  [ (* ! @ # $ % ^ & * ( ) *)
   (33, (0x02, true)); (64, (0x03, true)); (35, (0x04, true)); (36, (0x05, true));
   (37, (0x06, true)); (94, (0x07, true)); (38, (0x08, true)); (42, (0x09, true));
   (40, (0x0A, true)); (41, (0x0B, true));
   (* - = [ ] \ ; ' ` , . / *)
   (45, (0x0C, false)); (61, (0x0D, false)); (91, (0x1A, false)); (93, (0x1B, false));
   (92, (0x2B, false)); (59, (0x27, false)); (39, (0x28, false)); (96, (0x29, false));
   (44, (0x33, false)); (46, (0x34, false)); (47, (0x35, false));
   (* underscore + { } | : double quote ~ < > ? *)
   (95, (0x0C, true)); (43, (0x0D, true)); (123, (0x1A, true)); (125, (0x1B, true));
   (124, (0x2B, true)); (58, (0x27, true)); (34, (0x28, true)); (126, (0x29, true));
   (60, (0x33, true)); (62, (0x34, true)); (63, (0x35, true));
   (* space, tab, newline *)
   (32, (0x39, false)); (9, (0x0F, false)); (10, (0x1C, false))].

Definition char_to_scancode (c : Z) : option (Z * bool) :=
  snd <$> List.find (fun e => fst e =? c) char_table.

Record PasteKey : Type := mkPasteKey {
  pk_press : Z;
  pk_release : Z;
  pk_shift : bool
}.

(** [PasteError::Unrepresentable]: the number of distinct characters and up to
    three of them. *)
Inductive PasteError : Type := Unrepresentable (count : Z) (sample : list Z).

Definition CHAR_CR : Z := 13.
Definition CHAR_LF : Z := 10.

(** The pre-validation loop, with [bad_chars] as it stands. *)
Fixpoint collect_bad (bad_chars text : list Z) : list Z :=
  match text with
  | [] => bad_chars
  | c :: text =>
      if c =? CHAR_CR then collect_bad bad_chars text
      else if bool_decide (char_to_scancode c = None) && negb (bool_decide (c ∈ bad_chars))
           then collect_bad (push bad_chars c) text
           else collect_bad bad_chars text
  end.

Definition paste_key (c : Z) : option PasteKey :=
  e ← char_to_scancode c;
  Some (mkPasteKey (make_scancode (fst e) false) (make_scancode (fst e) true) (snd e)).

(** The translation loop: [None] is the [expect] of a character that has no
    scancode. *)
Fixpoint translate_keys (text : list Z) : option (list PasteKey) :=
  match text with
  | [] => Some []
  | c :: rest =>
      if c =? CHAR_CR then
        key ← paste_key CHAR_LF;
        keys ← match rest with
               | c' :: rest' => if c' =? CHAR_LF then translate_keys rest' else translate_keys rest
               | [] => translate_keys rest
               end;
        Some (key :: keys)
      else
        key ← paste_key c;
        keys ← translate_keys rest;
        Some (key :: keys)
  end.

Definition translate_paste (text : list Z) : result PasteError (list PasteKey) :=
  match collect_bad [] text with
  | [] => rlift (translate_keys text)
  | bad_chars => Err (Unrepresentable (zlen bad_chars) (take 3 bad_chars))
  end.

(** * The keyboard on the other side *)

(** A scancode as bytes on the wire, the low one first: an [E0] prefix, and the
    break bit. *)
Definition wire_key (code : Z) : bool * Z * bool :=
  let extended := Z.land code 0xFF =? 0xE0 in
  let b := if extended then Z.land (Z.shiftr code 8) 0xFF else Z.land code 0xFF in
  (extended, Z.land b 0x7F, Z.testbit b 7).

(** What is printed on the keys of a US keyboard: plain and with shift. *)
Definition us_keys : list (Z * (Z * Z)) :=
  [(0x02, (49, 33)); (0x03, (50, 64)); (0x04, (51, 35)); (0x05, (52, 36)); (0x06, (53, 37));
   (0x07, (54, 94)); (0x08, (55, 38)); (0x09, (56, 42)); (0x0A, (57, 40)); (0x0B, (48, 41));
   (0x0C, (45, 95)); (0x0D, (61, 43));
   (0x10, (113, 81)); (0x11, (119, 87)); (0x12, (101, 69)); (0x13, (114, 82)); (0x14, (116, 84));
   (0x15, (121, 89)); (0x16, (117, 85)); (0x17, (105, 73)); (0x18, (111, 79)); (0x19, (112, 80));
   (0x1A, (91, 123)); (0x1B, (93, 125));
   (0x1E, (97, 65)); (0x1F, (115, 83)); (0x20, (100, 68)); (0x21, (102, 70)); (0x22, (103, 71));
   (0x23, (104, 72)); (0x24, (106, 74)); (0x25, (107, 75)); (0x26, (108, 76)); (0x27, (59, 58));
   (0x28, (39, 34)); (0x29, (96, 126)); (0x2B, (92, 124));
   (0x2C, (122, 90)); (0x2D, (120, 88)); (0x2E, (99, 67)); (0x2F, (118, 86)); (0x30, (98, 66));
   (0x31, (110, 78)); (0x32, (109, 77)); (0x33, (44, 60)); (0x34, (46, 62)); (0x35, (47, 63))].

(** The keys that type the same with and without shift: space, tab, Enter. *)
Definition us_blank_keys : list (Z * Z) := [(0x39, 32); (0x0F, 9); (0x1C, 10)].

Definition us_key (code : Z) (shift : bool) : option Z :=
  match List.find (fun e => fst e =? code) us_keys with
  | Some (_, (plain, shifted)) => Some (if shift then shifted else plain)
  | None => snd <$> List.find (fun e => fst e =? code) us_blank_keys
  end.

Definition LEFT_CTRL : Z := 0x1D.
Definition LEFT_SHIFT : Z := 0x2A.
Definition LEFT_ALT : Z := 0x38.

(** A guest with a US keyboard: the keys held down, and what was typed.  A key
    pressed with Ctrl or Alt down is a shortcut. *)
Inductive typed : Type :=
| Typed (c : Z)
| Shortcut (code : Z).

Record Guest : Type := mkGuest {
  g_held : gset (bool * Z);
  g_typed : list typed
}.

Definition is_modifier (code : Z) : bool :=
  (code =? LEFT_CTRL) || (code =? LEFT_SHIFT) || (code =? LEFT_ALT).

Definition typed_by (held : gset (bool * Z)) (extended : bool) (code : Z) : list typed :=
  if extended || is_modifier code then []
  else if bool_decide ((false, LEFT_CTRL) ∈ held) || bool_decide ((false, LEFT_ALT) ∈ held)
  then [Shortcut code]
  else match us_key code (bool_decide ((false, LEFT_SHIFT) ∈ held)) with
       | Some c => [Typed c]
       | None => []
       end.

Definition guest_step (g : Guest) (code : Z) : Guest :=
  let '(extended, key, release) := wire_key code in
  if release then mkGuest (g_held g ∖ {[ (extended, key) ]}) (g_typed g)
  else mkGuest (g_held g ∪ {[ (extended, key) ]}) (g_typed g ++ typed_by (g_held g) extended key).

Definition guest_run (g : Guest) (codes : list Z) : Guest := foldl guest_step g codes.

(** The text as a guest should see it: line ends are Enter. *)
Fixpoint unix_lines (text : list Z) : list Z :=
  match text with
  | [] => []
  | c :: rest =>
      if c =? CHAR_CR then
        CHAR_LF :: match rest with
                   | c' :: rest' => if c' =? CHAR_LF then unix_lines rest' else unix_lines rest
                   | [] => unix_lines rest
                   end
      else c :: unix_lines rest
  end.

(** * Scancodes and keys *)

Lemma forallb_range (P : Z -> bool) n : forallb P (seqZ 0 n) = true -> forall x, 0 <= x < n -> P x = true.
Proof. rewrite forallb_forall. intros H x Hx. apply H, list_elem_of_In, elem_of_seqZ. lia. Qed.

(** Table codes: seven bits, or bit 8 for an extended key; and not the code
    whose release would read as the prefix of an extended one. *)
Definition is_base (base : Z) : bool :=
  (Z.land base 0x80 =? 0) && (base <? 0x200) && (0 <=? base) && negb (base =? 0x60).

Lemma wire_make_scancode base release : is_base base = true ->
  wire_key (make_scancode base release) = (0x100 <=? base, Z.land base 0x7F, release).
Proof.
  intros H. assert (0 <= base < 0x200) as Hr by (unfold is_base in H; lia).
  assert (implb (is_base base) (bool_decide
    (wire_key (make_scancode base release) = (0x100 <=? base, Z.land base 0x7F, release))) = true) as E.
  { revert base H Hr. intros base _ Hr. revert base Hr.
    apply forallb_range. destruct release; vm_compute; reflexivity. }
  rewrite H in E. by apply bool_decide_eq_true in E.
Qed.

Definition direction_keys : list LogicalKey := map Arrow [Dir_Up; Dir_Down; Dir_Left; Dir_Right].
Definition known_keys : list LogicalKey :=
  map Letter (seqZ 65 26) ++ map Digit (seqZ 0 10) ++ map FunctionKey (seqZ 1 12) ++
  direction_keys ++
  map Navigation [Nav_Home; Nav_End; Nav_PageUp; Nav_PageDown; Nav_Insert; Nav_Delete] ++
  map Whitespace [Ws_Space; Ws_Tab; Ws_Enter; Ws_Backspace] ++
  map Punctuation [Pk_Minus; Pk_Equals; Pk_OpenBracket; Pk_CloseBracket; Pk_Backslash;
    Pk_Semicolon; Pk_Quote; Pk_Backtick; Pk_Comma; Pk_Period; Pk_Slash] ++ [Escape].

#[export] Instance Direction_eq : EqDecision Direction.
Proof. solve_decision. Defined.
#[export] Instance NavKey_eq : EqDecision NavKey.
Proof. solve_decision. Defined.
#[export] Instance WSKey_eq : EqDecision WSKey.
Proof. solve_decision. Defined.
#[export] Instance PunctKey_eq : EqDecision PunctKey.
Proof. solve_decision. Defined.
#[export] Instance LogicalKey_eq : EqDecision LogicalKey.
Proof. solve_decision. Defined.

Lemma index_range {A} (l : list A) i x : index l i = Some x -> 0 <= i < zlen l.
Proof. unfold index. destruct ((0 <=? i) && (i <? zlen l)) eqn:E; [lia|done]. Qed.

Lemma known_key key base : logical_base key = Some base -> key ∈ known_keys.
Proof.
  intros H. unfold known_keys. rewrite !elem_of_app.
  destruct key as [c|d|n|d|k|k|k|]; cbn [logical_base] in H.
  - apply index_range in H. left. apply list_elem_of_fmap. exists c. split; [done|].
    apply elem_of_seqZ. change (zlen letter_codes) with 26 in H. lia.
  - apply index_range in H. right; left. apply list_elem_of_fmap. exists d. split; [done|].
    apply elem_of_seqZ. change (zlen digit_codes) with 10 in H. lia.
  - apply index_range in H. do 2 right; left. apply list_elem_of_fmap. exists n. split; [done|].
    apply elem_of_seqZ. change (zlen function_codes) with 12 in H. lia.
  - do 3 right; left. apply (bool_decide_unpack _). by destruct d.
  - do 4 right; left. apply (bool_decide_unpack _). by destruct k.
  - do 5 right; left. apply (bool_decide_unpack _). by destruct k.
  - do 6 right; left. apply (bool_decide_unpack _). by destruct k.
  - do 7 right. apply (bool_decide_unpack _). done.
Qed.

(** The key of a table entry. *)
Definition key_of (key : LogicalKey) : option (bool * Z) :=
  base ← logical_base key; Some (0x100 <=? base, Z.land base 0x7F).

Lemma known_forallb (P : LogicalKey -> bool) key : forallb P known_keys = true -> key ∈ known_keys ->
  P key = true.
Proof. rewrite forallb_forall. intros H Hk. by apply H, list_elem_of_In. Qed.

Lemma known_bases key base : logical_base key = Some base -> is_base base = true.
Proof.
  intros H. pose proof (known_forallb
    (fun k => match logical_base k with Some b => is_base b | None => true end) key) as HF.
  cbv beta in HF. rewrite H in HF. apply HF; [vm_compute; reflexivity|]. by eapply known_key.
Qed.

Lemma keys_differ key key' : is_Some (key_of key) -> key_of key' = key_of key -> key' = key.
Proof.
  assert (NoDup (map key_of known_keys)) as Hn by (apply (bool_decide_unpack _); vm_compute; exact I).
  assert (forall k, is_Some (key_of k) -> k ∈ known_keys) as Hk.
  { intros k [x E]. unfold key_of in E. destruct (logical_base k) as [b|] eqn:Eb; [|done].
    by eapply known_key. }
  intros Hs E. apply Hk in Hs as Hin. rewrite <- E in Hs. apply Hk in Hs.
  apply list_elem_of_lookup in Hs as [i Hi]. apply list_elem_of_lookup in Hin as [j Hj].
  assert (i = j) as ->; [|congruence].
  apply (NoDup_lookup (map key_of known_keys) i j (key_of key) Hn).
  - rewrite <- E. by rewrite list_lookup_fmap, Hi.
  - by rewrite list_lookup_fmap, Hj.
Qed.

(** Where a US keyboard has the key. *)
Definition on_keyboard (key : LogicalKey) (extended : bool) (code : Z) : Prop :=
  match key with
  | Letter c => us_key code true = Some c
  | Digit d => us_key code false = Some (48 + d)
  | Punctuation _ | Whitespace Ws_Space => is_Some (us_key code false)
  | Arrow _ | Navigation _ => extended = true
  | _ => True
  end.

#[export] Instance on_keyboard_dec key extended code : Decision (on_keyboard key extended code).
Proof. destruct key as [| | | | |[]| |]; cbn [on_keyboard]; apply _. Defined.

Lemma known_on_keyboard key extended code : key_of key = Some (extended, code) ->
  on_keyboard key extended code.
Proof.
  intros H. pose proof (known_forallb (fun k => match key_of k with
    | Some (e, c) => bool_decide (on_keyboard k e c) | None => true end) key) as HF.
  cbv beta in HF. rewrite H in HF. apply (bool_decide_eq_true_1 _), HF; [vm_compute; reflexivity|].
  unfold key_of in H. destruct (logical_base key) as [b|] eqn:Eb; [|done]. by eapply known_key.
Qed.

(** Every key has scancodes of its own: whatever logical key the table knows,
    its press and release codes are, byte by byte on the wire, the same key of
    a PC keyboard going down and going up, with the E0 prefix first for the
    arrow and navigation keys; no two logical keys share a key; and the letter,
    digit and punctuation keys are where a US keyboard has them. *)
Theorem scancodes_are_keys key press release :
  scancode_for_logical_key key = Some (press, release) ->
  exists extended code,
    wire_key press = (extended, code, false) /\ wire_key release = (extended, code, true) /\
    (forall key' press' release', scancode_for_logical_key key' = Some (press', release') ->
       (wire_key press').1 = (extended, code) -> key' = key) /\
    on_keyboard key extended code.
Proof.
  intros H. unfold scancode_for_logical_key in H.
  destruct (logical_base key) as [base|] eqn:Eb; [|done]. injection H as <- <-.
  assert (key_of key = Some (0x100 <=? base, Z.land base 0x7F)) as Hk by (unfold key_of; by rewrite Eb).
  exists (0x100 <=? base), (Z.land base 0x7F).
  rewrite !wire_make_scancode by by apply (known_bases key).
  split; [done|]. split; [done|]. split; [|by apply known_on_keyboard].
  intros key' press' release' H'. unfold scancode_for_logical_key in H'.
  destruct (logical_base key') as [base'|] eqn:Eb'; [|done]. injection H' as <- <-.
  rewrite wire_make_scancode by by apply (known_bases key'). cbn [fst]. intros [= He Hc].
  apply keys_differ; [by rewrite Hk|]. unfold key_of at 1. rewrite Eb', Hk. cbn. by rewrite He, Hc.
Qed.

Lemma scancodes_are_keys_witness :
  exists extended code,
    wire_key 0x48E0 = (extended, code, false) /\ wire_key 0xC8E0 = (extended, code, true) /\
    extended = true.
Proof.
  destruct (scancodes_are_keys (Arrow Dir_Up) 0x48E0 0xC8E0 eq_refl) as (e & c & H1 & H2 & _ & H3).
  exists e, c. split; [exact H1|]. split; [exact H2|exact H3].
Defined.

(** * Typing *)

(** The codes one key of a paste sends. *)
Definition press_codes (key : PasteKey) : list Z :=
  (if pk_shift key then [0x2A] else []) ++ [pk_press key].
Definition release_codes (key : PasteKey) : list Z :=
  pk_release key :: (if pk_shift key then [0xAA] else []).
Definition key_codes (key : PasteKey) : list Z := press_codes key ++ release_codes key.

#[export] Instance typed_eq : EqDecision typed.
Proof. solve_decision. Defined.
#[export] Instance Guest_eq : EqDecision Guest.
Proof. solve_decision. Defined.

Lemma guest_run_app g a b : guest_run g (a ++ b) = guest_run (guest_run g a) b.
Proof. apply foldl_app. Qed.

(** What was typed before does not matter. *)
Lemma guest_run_frame codes held t :
  guest_run (mkGuest held t) codes =
    mkGuest (g_held (guest_run (mkGuest held []) codes)) (t ++ g_typed (guest_run (mkGuest held []) codes)).
Proof.
  revert held t. induction codes as [|code codes IH]; intros held t; [by rewrite app_nil_r|].
  unfold guest_run in *. cbn [foldl]. unfold guest_step at 2 4 6.
  destruct (wire_key code) as [[extended key] release]. destruct release; cbn [g_held g_typed].
  - apply IH.
  - rewrite (IH _ (t ++ _)), (IH _ ([] ++ _)). cbn [g_held g_typed app]. by rewrite app_assoc.
Qed.

Lemma char_entry c e : char_to_scancode c = Some e -> (c, e) ∈ char_table.
Proof.
  unfold char_to_scancode. destruct (List.find _ char_table) as [[c' e']|] eqn:E; [|done].
  apply find_some in E as [Hin Hc]. cbn in *. intros [= <-].
  apply Z.eqb_eq in Hc as ->. by apply list_elem_of_In.
Qed.

Lemma table_forallb (P : Z * (Z * bool) -> bool) x : forallb P char_table = true ->
  x ∈ char_table -> P x = true.
Proof. rewrite forallb_forall. intros H Hx. by apply H, list_elem_of_In. Qed.

(** The keys down after the press of one of a paste. *)
Definition keys_down (key : PasteKey) : gset (bool * Z) :=
  (if pk_shift key then {[ (false, LEFT_SHIFT) ]} else ∅) ∪ {[ (wire_key (pk_press key)).1 ]}.

Lemma key_table c key (P : Z -> PasteKey -> bool) :
  forallb (fun x => P x.1 (mkPasteKey (make_scancode x.2.1 false) (make_scancode x.2.1 true) x.2.2))
    char_table = true -> paste_key c = Some key -> P c key = true.
Proof.
  unfold paste_key. intros HT. destruct (char_to_scancode c) as [[code shift]|] eqn:E; [|done].
  intros [= <-]. apply char_entry in E. exact (table_forallb _ _ HT E).
Qed.

Lemma typed_key c key t : paste_key c = Some key ->
  guest_run (mkGuest ∅ t) (key_codes key) = mkGuest ∅ (t ++ [Typed c]).
Proof.
  intros E. set (P := fun c key => bool_decide (guest_run (mkGuest ∅ []) (key_codes key) = mkGuest ∅ [Typed c])).
  assert (P c key = true) as H by (apply key_table; [vm_compute; reflexivity|done]).
  apply bool_decide_eq_true in H.
  by rewrite guest_run_frame, H.
Qed.

Lemma pressed_key c key t : paste_key c = Some key ->
  guest_run (mkGuest ∅ t) (press_codes key) = mkGuest (keys_down key) (t ++ [Typed c]).
Proof.
  intros E. set (P := fun c key => bool_decide (guest_run (mkGuest ∅ []) (press_codes key) = mkGuest (keys_down key) [Typed c])).
  assert (P c key = true) as H by (apply key_table; [vm_compute; reflexivity|done]).
  apply bool_decide_eq_true in H.
  by rewrite guest_run_frame, H.
Qed.

(** The table is the US keyboard. *)
Lemma char_on_keyboard c code shift : char_to_scancode c = Some (code, shift) ->
  us_key code shift = Some c.
Proof.
  intros E. apply char_entry in E.
  assert (forallb (fun x => bool_decide (us_key x.2.1 x.2.2 = Some x.1)) char_table = true) as HT
    by (vm_compute; reflexivity).
  pose proof (table_forallb _ _ HT E) as H. by apply bool_decide_eq_true in H.
Qed.

Lemma char_off_keyboard c : char_to_scancode c = None -> forall code shift, us_key code shift <> Some c.
Proof.
  intros Hc code shift. unfold us_key.
  destruct (List.find _ us_keys) as [[k [plain shifted]]|] eqn:E.
  - apply find_some in E as [Hin _].
    assert (forallb (fun x => bool_decide (is_Some (char_to_scancode x.2.1) /\
      is_Some (char_to_scancode x.2.2))) us_keys = true) as H by (vm_compute; reflexivity).
    rewrite forallb_forall in H. specialize (H _ Hin). apply bool_decide_eq_true in H as [H1 H2].
    cbn [fst snd] in H1, H2. destruct shift; intros [= ->]; [rewrite Hc in H2|rewrite Hc in H1]; by destruct H1, H2.
  - destruct (List.find _ us_blank_keys) as [[k ch]|] eqn:E'; [|done]. intros [= ->].
    apply find_some in E' as [Hin _].
    assert (forallb (fun x => bool_decide (is_Some (char_to_scancode x.2))) us_blank_keys = true) as H
      by (vm_compute; reflexivity).
    rewrite forallb_forall in H. specialize (H _ Hin). apply bool_decide_eq_true in H.
    cbn [fst snd] in H. rewrite Hc in H. by destruct H.
Qed.

(** ** Translating a text *)

Definition typeable (c : Z) : Prop := c = CHAR_CR \/ is_Some (char_to_scancode c).

Lemma paste_key_Some c : is_Some (char_to_scancode c) -> exists key, paste_key c = Some key.
Proof. intros [e E]. unfold paste_key. rewrite E. by eexists. Qed.

(** A text is shorter without its first line end. *)
Lemma lines_ind (P : list Z -> Prop) :
  P [] ->
  (forall c rest, c <> CHAR_CR -> P rest -> P (c :: rest)) ->
  (forall rest, P rest -> P (CHAR_CR :: CHAR_LF :: rest)) ->
  (forall rest, (forall c rest', rest = c :: rest' -> c <> CHAR_LF) -> P rest -> P (CHAR_CR :: rest)) ->
  forall text, P text.
Proof.
  intros Hnil Hc Hcrlf Hcr text. remember (length text) as n eqn:En.
  revert text En. induction (lt_wf n) as [n _ IH]. intros [|c rest] ->; [done|]. cbn [length] in IH.
  destruct (decide (c = CHAR_CR)) as [->|Hne].
  2: { apply Hc; [done|]. eapply IH; [|done]. lia. }
  destruct rest as [|c' rest']; [apply Hcr; [done|done]|].
  destruct (decide (c' = CHAR_LF)) as [->|Hne'].
  - apply Hcrlf. eapply IH; [|done]. cbn. lia.
  - apply Hcr; [by intros ? ? [= <- <-]|]. eapply IH; [|done]. lia.
Qed.

(** One key for each character of the lines. *)
Definition key_for (c : Z) (key : PasteKey) : Prop := paste_key c = Some key.

Lemma translate_lines text : Forall typeable text ->
  exists keys, translate_keys text = Some keys /\ Forall2 key_for (unix_lines text) keys.
Proof.
  destruct (paste_key CHAR_LF) as [enter|] eqn:Eenter; [|done].
  induction text as [|c rest Hc IH|rest IH|rest Hrest IH] using lines_ind; intros HF.
  - exists []. by split.
  - apply Forall_cons_iff in HF as [[?|Ht] HF]; [done|].
    destruct (IH HF) as (keys & E & Hk). destruct (paste_key_Some c Ht) as [key Ekey].
    cbn [translate_keys unix_lines]. rewrite (proj2 (Z.eqb_neq _ _) Hc), Ekey, E.
    exists (key :: keys). split; [done|by constructor].
  - apply Forall_cons_iff in HF as [_ HF]. apply Forall_cons_iff in HF as [_ HF].
    destruct (IH HF) as (keys & E & Hk).
    cbn [translate_keys unix_lines]. rewrite !Z.eqb_refl, Eenter, E.
    exists (enter :: keys). split; [done|by constructor].
  - apply Forall_cons_iff in HF as [_ HF]. destruct (IH HF) as (keys & E & Hk).
    exists (enter :: keys). cbn [translate_keys unix_lines]. rewrite Z.eqb_refl, Eenter.
    destruct rest as [|c' rest']; [rewrite E; split; [done|by constructor]|].
    rewrite (proj2 (Z.eqb_neq _ _) (Hrest c' rest' eq_refl)), E. split; [done|by constructor].
Qed.

Lemma typed_keys cs keys t : Forall2 key_for cs keys ->
  guest_run (mkGuest ∅ t) (concat (map key_codes keys)) = mkGuest ∅ (t ++ map Typed cs).
Proof.
  intros H. revert t. induction H as [|c key cs keys Hc _ IH]; intros t; cbn [map concat]; [by rewrite app_nil_r|].
  by rewrite guest_run_app, (typed_key c), IH, <- app_assoc by done.
Qed.

Lemma translate_types text : Forall typeable text ->
  exists keys, translate_keys text = Some keys /\ length keys = length (unix_lines text) /\
    forall t, guest_run (mkGuest ∅ t) (concat (map key_codes keys)) =
      mkGuest ∅ (t ++ map Typed (unix_lines text)).
Proof.
  intros HF. destruct (translate_lines text HF) as (keys & E & Hk). exists keys. split; [done|].
  split; [by apply Forall2_length in Hk|]. intros t. by apply typed_keys.
Qed.

Lemma collect_bad_spec text bad_chars : NoDup bad_chars ->
  NoDup (collect_bad bad_chars text) /\
  forall c, c ∈ collect_bad bad_chars text <->
    c ∈ bad_chars \/ (c ∈ text /\ c <> CHAR_CR /\ char_to_scancode c = None).
Proof.
  revert bad_chars. induction text as [|c text IH]; intros bad Hbad; cbn [collect_bad].
  { split; [done|]. intros c. rewrite elem_of_nil. naive_solver. }
  assert (forall x, (x ∈ c :: text) <-> x = c \/ x ∈ text) as Hin by (intros x; by rewrite elem_of_cons).
  destruct (Z.eqb_spec c CHAR_CR) as [->|Hc].
  { destruct (IH bad Hbad) as [H1 H2]. split; [done|]. intros x. rewrite H2, Hin. naive_solver. }
  destruct (bool_decide (char_to_scancode c = None) && negb (bool_decide (c ∈ bad))) eqn:E.
  - apply andb_true_iff in E as [E1%bool_decide_eq_true E2].
    apply negb_true_iff, bool_decide_eq_false in E2.
    destruct (IH (push bad c)) as [H1 H2].
    { unfold push. apply list.NoDup_app. split_and!; [done| |apply list.NoDup_singleton].
      intros x Hx ->%list_elem_of_singleton. done. }
    split; [done|]. intros x. rewrite H2, Hin. unfold push.
    rewrite elem_of_app, list_elem_of_singleton. naive_solver.
  - destruct (IH bad Hbad) as [H1 H2]. split; [done|]. intros x. rewrite H2, Hin.
    apply andb_false_iff in E as [E%bool_decide_eq_false|E%negb_false_iff%bool_decide_eq_true]; naive_solver.
Qed.

Lemma no_bad_typeable text : collect_bad [] text = [] -> Forall typeable text.
Proof.
  intros E. destruct (collect_bad_spec text []) as [_ Hb]; [constructor|]. rewrite E in Hb.
  apply list.Forall_forall. intros c Hc. destruct (decide (c = CHAR_CR)) as [->|Hne]; [by left|right].
  destruct (char_to_scancode c) eqn:Ec; [done|]. exfalso. apply (not_elem_of_nil (A := Z) c).
  apply Hb. by right.
Qed.

(** What translating a text comes to. *)
Lemma translate_paste_cases text :
  (exists keys, translate_paste text = Ok keys /\ Forall typeable text /\
     Forall2 key_for (unix_lines text) keys) \/
  (exists count sample, translate_paste text = Err (Unrepresentable count sample) /\
     ~ Forall typeable text).
Proof.
  destruct (collect_bad_spec text []) as [Hn Hb]; [constructor|]. unfold translate_paste.
  destruct (collect_bad [] text) as [|b bad] eqn:E.
  - left. apply no_bad_typeable in E as HF.
    destruct (translate_lines text HF) as (keys & -> & Hk). by exists keys.
  - right. do 2 eexists. split; [done|]. intros HF. rewrite list.Forall_forall in HF.
    destruct (proj1 (Hb b) ltac:(left)) as [Hbad|(Hin & Hcr & Hnone)]; [by apply elem_of_nil in Hbad|].
    destruct (HF b Hin) as [?|Hsome]; [done|]. rewrite Hnone in Hsome. by destruct Hsome.
Qed.

Lemma key_u32 c key : paste_key c = Some key -> u32 (pk_press key) /\ u32 (pk_release key).
Proof.
  intros E. set (P := fun (_ : Z) key => (0 <=? pk_press key) && (pk_press key <? 2 ^ 32)
    && (0 <=? pk_release key) && (pk_release key <? 2 ^ 32)).
  assert (P c key = true) as H by (apply key_table; [vm_compute; reflexivity|done]).
  unfold P in H. unfold in_unsigned. lia.
Qed.

(** Pasting types exactly the text: [translate_paste] never panics; when it
    accepts a text, every character is on a US keyboard, and the key events it
    makes, given to a guest with a US keyboard and nothing held down, type the
    text with each CR and CRLF as one Enter, no shortcut and no other
    character, and leave nothing held down; otherwise it reports how many
    different characters of the text are on no key of that keyboard, and the
    first three of them. *)
Theorem paste_translation text :
  match translate_paste text with
  | Ok keys =>
      Forall typeable text /\ length keys = length (unix_lines text) /\
      forall t, guest_run (mkGuest ∅ t) (concat (map key_codes keys)) =
        mkGuest ∅ (t ++ map Typed (unix_lines text))
  | Err (Unrepresentable count sample) =>
      exists bad, count = zlen bad /\ 0 < count /\ sample = take 3 bad /\ NoDup bad /\
        (forall c, c ∈ bad <-> c ∈ text /\ c <> CHAR_CR /\ forall code shift, us_key code shift <> Some c)
  | Panic => False
  end.
Proof.
  destruct (collect_bad_spec text []) as [Hn Hb]; [constructor|]. unfold translate_paste.
  destruct (collect_bad [] text) as [|b bad] eqn:E.
  - apply no_bad_typeable in E as HF.
    destruct (translate_types text HF) as (keys & -> & Hl & Hk). by split_and!.
  - exists (b :: bad). split; [done|]. split; [rewrite zlen_cons; pose proof (zlen_nonneg bad); lia|].
    split; [done|]. split; [done|]. intros c. rewrite Hb, elem_of_nil. split.
    + intros [[]|(? & ? & ?)]. split_and!; [done|done|by apply char_off_keyboard].
    + intros (Hc & Hcr & Hus). right. split_and!; [done|done|].
      destruct (char_to_scancode c) as [[code shift]|] eqn:Ec; [|done].
      by apply char_on_keyboard, Hus in Ec.
Qed.
