(* ===== verification/Inputs.v ===== *)
(** The inputs channel: the first half of
    [shakenfist-spice-renderer/src/channels/inputs.rs].

    [MotionWedgeDetector], [MotionRoundTrip], [PasteState] and [InputsChannel]
    are the source's types, their fields grouped where that reads better; one
    definition per method, one per kind of input event.  [run_batch] coalesces
    and handles what was queued, [advance_paste] is one step of a paste, and
    [inputs_arm] one turn of the loop.  A pasted [String] is the list of its
    characters; [overflow_checks] is the build profile, for the one sum that
    can overflow. *)
From Stdlib Require Import ZArith Lia String.
From stdpp Require Import base numbers list gmap tactics.
From S2P Require Import Prelude Reader Utf8 Wire MsgCommon ReceiveBuffer MsgInputs LinkMess OpcodeCounters Channel Keyboard.

Open Scope Z_scope.
Open Scope rust_scope.

(** * Constants *)

Definition inputs_client_ACK_SYNC : Z := 1.
Definition inputs_client_PONG : Z := 3.
Definition inputs_client_KEY_DOWN : Z := 101.
Definition inputs_client_KEY_UP : Z := 102.
Definition inputs_client_KEY_MODIFIERS : Z := 103.
Definition inputs_client_MOUSE_MOTION : Z := 111.
Definition inputs_client_MOUSE_POSITION : Z := 112.
Definition inputs_client_MOUSE_PRESS : Z := 113.
Definition inputs_client_MOUSE_RELEASE : Z := 114.
Definition inputs_server_INIT : Z := 101.
Definition inputs_server_KEY_MODIFIERS : Z := 102.
Definition inputs_server_MOUSE_MOTION_ACK : Z := 111.
Definition inputs_server_SET_ACK : Z := 3.
Definition inputs_server_PING : Z := 4.
Definition inputs_server_NOTIFY : Z := 7.
Definition keyboard_modifiers_NUM_LOCK : Z := Z.shiftl 1 1.

(** The name table, as the opcodes it names. *)
Definition inputs_server_named (op : Z) : bool :=
  (op =? 101) || (op =? 102) || (op =? 111) || common_server_named op.

Definition MOTION_ACK_BUNCH : Z := 4.
Definition MOTION_WEDGE_THRESHOLD : Z := 100.
Definition MAX_ROUND_TRIPS_PENDING : Z := 8.
Definition MAX_RECENT_EVENTS : Z := 50.
Definition PASTE_MAX_CHARS : Z := 4096.

(** * The motion window *)

Record MotionWedgeDetector : Type := mkWedge {
  wd_drops_since_ack : Z;
  wd_warned : bool
}.

Definition MotionWedgeDetector_default : MotionWedgeDetector := mkWedge 0 false.

Definition note_drop (self : MotionWedgeDetector) : bool * MotionWedgeDetector :=
  let drops := saturating_add_u32 (wd_drops_since_ack self) 1 in
  if (MOTION_WEDGE_THRESHOLD <=? drops) && negb (wd_warned self)
  then (true, mkWedge drops true)
  else (false, mkWedge drops (wd_warned self)).

Definition wedge_note_ack (self : MotionWedgeDetector) : MotionWedgeDetector := mkWedge 0 false.

(** The counters are [u64]s that count messages. *)
Record MotionRoundTrip : Type := mkRoundTrip {
  rt_sent : Z;
  rt_acks : Z;
  rt_pending : list (Z * Z)
}.

Definition MotionRoundTrip_default : MotionRoundTrip := mkRoundTrip 0 0 [].

Definition note_sent (now : Z) (self : MotionRoundTrip) : MotionRoundTrip :=
  let sent := rt_sent self + 1 in
  if sent mod MOTION_ACK_BUNCH =? 0 then
    let pending := if MAX_ROUND_TRIPS_PENDING <=? zlen (rt_pending self)
                   then tail (rt_pending self) else rt_pending self in
    mkRoundTrip sent (rt_acks self) (push pending (sent / MOTION_ACK_BUNCH, now))
  else mkRoundTrip sent (rt_acks self) (rt_pending self).

(** [while self.pending.front() is some (n, _) with n < acks { pop_front }] *)
Fixpoint drop_answered (acks : Z) (pending : list (Z * Z)) : list (Z * Z) :=
  match pending with
  | (n, t) :: rest => if n <? acks then drop_answered acks rest else pending
  | [] => []
  end.

(** [note_ack]: the round trip in nanoseconds. *)
Definition round_trip_note_ack (now : Z) (self : MotionRoundTrip) : option Z * MotionRoundTrip :=
  if rt_sent self / MOTION_ACK_BUNCH <=? rt_acks self then (None, self)
  else
    let acks := rt_acks self + 1 in
    let pending := drop_answered acks (rt_pending self) in
    match pending with
    | (n, sent_at) :: rest =>
        if n =? acks
        then (Some (saturating_duration_since now sent_at), mkRoundTrip (rt_sent self) acks rest)
        else (None, mkRoundTrip (rt_sent self) acks pending)
    | [] => (None, mkRoundTrip (rt_sent self) acks pending)
    end.

(** * The state *)

Inductive PasteSubStep : Type := Press | Release.

(** [ps_cancel]: whether the paste has a cancellation token. *)
Record PasteState : Type := mkPasteState {
  ps_keys : list PasteKey;
  ps_index : Z;
  ps_sub_step : PasteSubStep;
  ps_half_delay : Z;
  ps_start : Z;
  ps_next_fire : Z;
  ps_saved_ctrl : bool;
  ps_saved_shift : bool;
  ps_saved_alt : bool;
  ps_request_id : option RequestId;
  ps_cancel : bool
}.

Record InputEventRecord : Type := mkInputEventRecord {
  er_event_type : string;
  er_scancode : Z;
  er_x : Z;
  er_y : Z;
  er_button_mask : Z;
  er_timestamp : Z
}.

Record Motion : Type := mkMotion {
  mo_count : Z;
  mo_wedge : MotionWedgeDetector;
  mo_round_trip : MotionRoundTrip;
  mo_last_round_trip : option Z
}.

Record Held : Type := mkHeld {
  he_ctrl : bool;
  he_shift : bool;
  he_alt : bool
}.

Record InputsPings : Type := mkInputsPings {
  ip_recv_count : Z;
  ip_pong_count : Z;
  ip_last_recv_ts : option Z
}.

Record InputsChannel : Type := mkInputsChannel {
  ic_buffer : ReceiveBuffer;
  ic_last_key_time : option Z;
  ic_button_state : Z;
  ic_motion : Motion;
  ic_recent_events : list InputEventRecord;
  ic_totals : Totals;
  ic_pings : InputsPings;
  ic_enable_paste : bool;
  ic_held : Held;
  ic_paste_state : option PasteState;
  ic_log : list Event;
  ic_turn : nat
}.

Definition InputsChannel_new (enable_paste : bool) : InputsChannel :=
  mkInputsChannel rb_new None 0
    (mkMotion 0 MotionWedgeDetector_default MotionRoundTrip_default None)
    [] Totals_new (mkInputsPings 0 0 None) enable_paste (mkHeld false false false) None [] 0.

Definition ic_set_buffer (v : ReceiveBuffer) c :=
  mkInputsChannel v (ic_last_key_time c) (ic_button_state c) (ic_motion c) (ic_recent_events c)
    (ic_totals c) (ic_pings c) (ic_enable_paste c) (ic_held c) (ic_paste_state c) (ic_log c) (ic_turn c).
Definition ic_set_last_key_time (v : option Z) c :=
  mkInputsChannel (ic_buffer c) v (ic_button_state c) (ic_motion c) (ic_recent_events c)
    (ic_totals c) (ic_pings c) (ic_enable_paste c) (ic_held c) (ic_paste_state c) (ic_log c) (ic_turn c).
Definition ic_set_button_state (v : Z) c :=
  mkInputsChannel (ic_buffer c) (ic_last_key_time c) v (ic_motion c) (ic_recent_events c)
    (ic_totals c) (ic_pings c) (ic_enable_paste c) (ic_held c) (ic_paste_state c) (ic_log c) (ic_turn c).
Definition ic_on_motion (f : Motion -> Motion) c :=
  mkInputsChannel (ic_buffer c) (ic_last_key_time c) (ic_button_state c) (f (ic_motion c))
    (ic_recent_events c) (ic_totals c) (ic_pings c) (ic_enable_paste c) (ic_held c)
    (ic_paste_state c) (ic_log c) (ic_turn c).
Definition ic_set_recent_events (v : list InputEventRecord) c :=
  mkInputsChannel (ic_buffer c) (ic_last_key_time c) (ic_button_state c) (ic_motion c) v
    (ic_totals c) (ic_pings c) (ic_enable_paste c) (ic_held c) (ic_paste_state c) (ic_log c) (ic_turn c).
Definition ic_on_totals (f : Totals -> Totals) c :=
  mkInputsChannel (ic_buffer c) (ic_last_key_time c) (ic_button_state c) (ic_motion c)
    (ic_recent_events c) (f (ic_totals c)) (ic_pings c) (ic_enable_paste c) (ic_held c)
    (ic_paste_state c) (ic_log c) (ic_turn c).
Definition ic_on_pings (f : InputsPings -> InputsPings) c :=
  mkInputsChannel (ic_buffer c) (ic_last_key_time c) (ic_button_state c) (ic_motion c)
    (ic_recent_events c) (ic_totals c) (f (ic_pings c)) (ic_enable_paste c) (ic_held c)
    (ic_paste_state c) (ic_log c) (ic_turn c).
Definition ic_on_held (f : Held -> Held) c :=
  mkInputsChannel (ic_buffer c) (ic_last_key_time c) (ic_button_state c) (ic_motion c)
    (ic_recent_events c) (ic_totals c) (ic_pings c) (ic_enable_paste c) (f (ic_held c))
    (ic_paste_state c) (ic_log c) (ic_turn c).
Definition ic_set_paste_state (v : option PasteState) c :=
  mkInputsChannel (ic_buffer c) (ic_last_key_time c) (ic_button_state c) (ic_motion c)
    (ic_recent_events c) (ic_totals c) (ic_pings c) (ic_enable_paste c) (ic_held c) v (ic_log c) (ic_turn c).
Definition ic_on_log (f : list Event -> list Event) c :=
  mkInputsChannel (ic_buffer c) (ic_last_key_time c) (ic_button_state c) (ic_motion c)
    (ic_recent_events c) (ic_totals c) (ic_pings c) (ic_enable_paste c) (ic_held c)
    (ic_paste_state c) (f (ic_log c)) (ic_turn c).
Definition ic_on_turn (f : nat -> nat) c :=
  mkInputsChannel (ic_buffer c) (ic_last_key_time c) (ic_button_state c) (ic_motion c)
    (ic_recent_events c) (ic_totals c) (ic_pings c) (ic_enable_paste c) (ic_held c)
    (ic_paste_state c) (ic_log c) (f (ic_turn c)).

#[export] Instance InputsChannel_state : ChannelState InputsChannel := {|
  ch_buffer := ic_buffer;
  ch_on_buffer f c := ic_set_buffer (f (ic_buffer c)) c;
  ch_on_totals := ic_on_totals;
  ch_on_log := ic_on_log;
  ch_turn := ic_turn;
  ch_on_turn := ic_on_turn
|}.

Abbreviation Ic := (M ChannelError InputsChannel).

Definition set_ctrl (v : bool) (h : Held) : Held := mkHeld v (he_shift h) (he_alt h).
Definition set_shift (v : bool) (h : Held) : Held := mkHeld (he_ctrl h) v (he_alt h).
Definition set_alt (v : bool) (h : Held) : Held := mkHeld (he_ctrl h) (he_shift h) v.

Definition mo_set_count (v : Z) (m : Motion) : Motion :=
  mkMotion v (mo_wedge m) (mo_round_trip m) (mo_last_round_trip m).
Definition mo_set_wedge (v : MotionWedgeDetector) (m : Motion) : Motion :=
  mkMotion (mo_count m) v (mo_round_trip m) (mo_last_round_trip m).
Definition mo_set_round_trip (v : MotionRoundTrip) (m : Motion) : Motion :=
  mkMotion (mo_count m) (mo_wedge m) v (mo_last_round_trip m).
Definition mo_set_last (v : option Z) (m : Motion) : Motion :=
  mkMotion (mo_count m) (mo_wedge m) (mo_round_trip m) v.

Inductive InputEvent : Type :=
| KeyDown (scancode : Z)
| KeyUp (scancode : Z)
| KeyModifiersEvent (modifiers : Z)
| MouseMove (x y : Z)
| MouseMotionEvent (dx dy : Z)
| MouseDown (button x y : Z)
| MouseUp (button x y : Z)
| PasteText (text : list Z) (char_delay_ms : Z) (request_id : option RequestId) (cancel : bool).

Definition ps_schedule (sub_step : PasteSubStep) (next_fire : Z) (state : PasteState) : PasteState :=
  mkPasteState (ps_keys state) (ps_index state) sub_step (ps_half_delay state) (ps_start state)
    next_fire (ps_saved_ctrl state) (ps_saved_shift state) (ps_saved_alt state)
    (ps_request_id state) (ps_cancel state).
Definition ps_set_index (index : Z) (state : PasteState) : PasteState :=
  mkPasteState (ps_keys state) index (ps_sub_step state) (ps_half_delay state) (ps_start state)
    (ps_next_fire state) (ps_saved_ctrl state) (ps_saved_shift state) (ps_saved_alt state)
    (ps_request_id state) (ps_cancel state).

(** * Coalescing *)

(** [total += d] on [i32]s: [None] is the panic of a build that checks. *)
Definition add_i32 (overflow_checks : bool) (a b : Z) : option Z :=
  if overflow_checks && negb ((- 2 ^ 31 <=? a + b) && (a + b <? 2 ^ 31)) then None
  else Some (as_signed 32 (as_unsigned 32 (a + b))).

(** The last of a run of positions, and what follows the run. *)
Fixpoint last_move (x y : Z) (batch : list InputEvent) : Z * Z * list InputEvent :=
  match batch with
  | MouseMove x' y' :: rest => last_move x' y' rest
  | _ => (x, y, batch)
  end.

(** The sum of a run of relative motions, and what follows the run. *)
Fixpoint total_motion (overflow_checks : bool) (total_dx total_dy : Z) (batch : list InputEvent)
    : option (Z * Z * list InputEvent) :=
  match batch with
  | MouseMotionEvent dx dy :: rest =>
      total_dx ← add_i32 overflow_checks total_dx dx;
      total_dy ← add_i32 overflow_checks total_dy dy;
      total_motion overflow_checks total_dx total_dy rest
  | _ => Some (total_dx, total_dy, batch)
  end.

(** The next event to handle, and the batch after it. *)
Definition coalesce (overflow_checks : bool) (event : InputEvent) (rest : list InputEvent)
    : option (InputEvent * list InputEvent) :=
  match event with
  | MouseMove x y =>
      let '(x, y, rest) := last_move x y rest in Some (MouseMove x y, rest)
  | MouseMotionEvent _ _ =>
      total ← total_motion overflow_checks 0 0 (event :: rest);
      let '(dx, dy, rest) := total in Some (MouseMotionEvent dx dy, rest)
  | _ => Some (event, rest)
  end.

Section Channel.
Context (env : Env).

Abbreviation now := (instant_now env : Ic Z).
Abbreviation elapsed := (elapsed_now env : Ic Z).

(** * Writes *)

(** [send_with_log], less the log line and the snapshot: a pointer message
    that was written counts for the round trips. *)
Definition inputs_send_with_log (msg_type : Z) (data : list Z) : Ic unit :=
  do? log_event (Ev_Sent msg_type data) in
  do? count_opcodes (record_send msg_type) in
  do? send env data in
  when ((msg_type =? inputs_client_MOUSE_POSITION) || (msg_type =? inputs_client_MOUSE_MOTION))
    (let? t := now in
     modify (ic_on_motion (fun m => mo_set_round_trip (note_sent t (mo_round_trip m)) m))).

Definition send_body {T} `{WireType T} (msg_type : Z) (body : T) : Ic unit :=
  inputs_send_with_log msg_type (make_message msg_type (write body [])).

Definition send_key_modifiers (modifiers : Z) : Ic unit :=
  send_body inputs_client_KEY_MODIFIERS (mkKeyModifiers modifiers).
Definition send_key_down (scancode : Z) : Ic unit :=
  send_body inputs_client_KEY_DOWN (mkKeyEvent scancode).
Definition send_key_up (scancode : Z) : Ic unit :=
  send_body inputs_client_KEY_UP (mkKeyEvent scancode).

(** * Messages from the server *)

Definition handle_motion_ack : Ic unit :=
  do? modify (ic_on_motion (fun m =>
        mo_set_wedge (wedge_note_ack (mo_wedge m))
          (mo_set_count (saturating_sub (mo_count m) MOTION_ACK_BUNCH) m))) in
  let? t := now in
  let? m := gets ic_motion in
  let '(rtt, round_trip) := round_trip_note_ack t (mo_round_trip m) in
  do? modify (ic_on_motion (mo_set_round_trip round_trip)) in
  match rtt with
  | Some rtt =>
      do? modify (ic_on_motion (mo_set_last (Some rtt))) in
      emit (CE_InputRoundTrip rtt)
  | None => ret tt
  end.

Definition inputs_handle_set_ack (payload : list Z) : Ic unit :=
  let? set_ack := must_decode (T := SetAck) inputs_server_SET_ACK payload in
  send_body inputs_client_ACK_SYNC (SetAck_ack_sync set_ack).

Definition inputs_handle_ping (payload : list Z) : Ic unit :=
  do? modify (ic_on_pings (fun p => mkInputsPings (saturating_add_u32 (ip_recv_count p) 1)
        (ip_pong_count p) (ip_last_recv_ts p))) in
  let? ts := elapsed in
  do? modify (ic_on_pings (fun p => mkInputsPings (ip_recv_count p) (ip_pong_count p) (Some ts))) in
  let? ping := must_decode (T := Ping) inputs_server_PING payload in
  do? send_body inputs_client_PONG (Ping_pong ping) in
  modify (ic_on_pings (fun p => mkInputsPings (ip_recv_count p)
    (saturating_add_u32 (ip_pong_count p) 1) (ip_last_recv_ts p))).

Definition inputs_handle_notify (payload : list Z) : Ic unit :=
  let? notify := must_decode (T := Notify) inputs_server_NOTIFY payload in
  emit (CE_Notification (Notify_severity_kind notify) (Source_Spice Ch_Inputs (Notify_what notify))
    (from_utf8_lossy (Notify_message notify)) (Notify_visibility_kind notify)).

(** INIT and KEY_MODIFIERS are only logged. *)
Definition handle_server_message (msg_type : Z) (payload : list Z) : Ic unit :=
  do? count_opcodes (record_recv inputs_server_named msg_type) in
  if msg_type =? inputs_server_INIT then
    let? init := try_decode (T := InputsInit) payload in ret tt
  else if msg_type =? inputs_server_KEY_MODIFIERS then
    let? modifiers := try_decode (T := KeyModifiers) payload in ret tt
  else if msg_type =? inputs_server_MOUSE_MOTION_ACK then handle_motion_ack
  else if msg_type =? inputs_server_SET_ACK then inputs_handle_set_ack payload
  else if msg_type =? inputs_server_PING then inputs_handle_ping payload
  else if msg_type =? inputs_server_NOTIFY then inputs_handle_notify payload
  else count_opcodes (note_unknown inputs_server_named msg_type).

(** * Input events *)

Definition record_event (event : InputEventRecord) : Ic unit :=
  let? recent := gets ic_recent_events in
  let recent := push recent event in
  modify (ic_set_recent_events (if MAX_RECENT_EVENTS <? zlen recent then tail recent else recent)).

(** The warning is a log line; what decides it is kept. *)
Definition note_motion_throttled : Ic unit :=
  modify (ic_on_motion (fun m => mo_set_wedge (snd (note_drop (mo_wedge m))) m)).

Definition handle_key_down (scancode ts : Z) : Ic unit :=
  let? t := now in
  do? modify (ic_set_last_key_time (Some t)) in
  do? record_event (mkInputEventRecord "KeyDown" scancode 0 0 0 ts) in
  do? send_key_down scancode in
  if scancode =? 0x1D then modify (ic_on_held (set_ctrl true))
  else if scancode =? 0x2A then modify (ic_on_held (set_shift true))
  else if scancode =? 0x38 then modify (ic_on_held (set_alt true))
  else ret tt.

Definition handle_key_up (scancode ts : Z) : Ic unit :=
  do? record_event (mkInputEventRecord "KeyUp" scancode 0 0 0 ts) in
  do? send_key_up scancode in
  if scancode =? 0x9D then modify (ic_on_held (set_ctrl false))
  else if scancode =? 0xAA then modify (ic_on_held (set_shift false))
  else if scancode =? 0xB8 then modify (ic_on_held (set_alt false))
  else ret tt.

Definition handle_key_modifiers (modifiers ts : Z) : Ic unit :=
  do? record_event (mkInputEventRecord "KeyModifiers" 0 0 0 0 ts) in
  send_key_modifiers modifiers.

(** A pointer move is sent while fewer than two bunches are outstanding. *)
Definition handle_mouse_move (x y ts : Z) : Ic unit :=
  let? m := gets ic_motion in
  if mo_count m <? MOTION_ACK_BUNCH * 2 then
    let? buttons := gets ic_button_state in
    do? record_event (mkInputEventRecord "MouseMove" 0 x y buttons ts) in
    do? send_body inputs_client_MOUSE_POSITION (mkMousePosition x y (as_unsigned 16 buttons) 0) in
    modify (ic_on_motion (fun m => mo_set_count (mo_count m + 1) m))
  else note_motion_throttled.

Definition handle_mouse_motion (dx dy ts : Z) : Ic unit :=
  let? m := gets ic_motion in
  if mo_count m <? MOTION_ACK_BUNCH * 2 then
    let? buttons := gets ic_button_state in
    do? record_event
          (mkInputEventRecord "MouseMotion" 0 (as_unsigned 32 dx) (as_unsigned 32 dy) buttons ts) in
    do? send_body inputs_client_MOUSE_MOTION (mkMouseMotion dx dy (as_unsigned 16 buttons)) in
    modify (ic_on_motion (fun m => mo_set_count (mo_count m + 1) m))
  else note_motion_throttled.

Definition send_position (x y : Z) : Ic unit :=
  let? buttons := gets ic_button_state in
  send_body inputs_client_MOUSE_POSITION (mkMousePosition x y (as_unsigned 16 buttons) 0).

Definition handle_mouse_down (button x y ts : Z) : Ic unit :=
  do? send_position x y in
  do? modify (fun c => ic_set_button_state (Z.lor (ic_button_state c) button) c) in
  do? record_event (mkInputEventRecord "MouseDown" 0 x y button ts) in
  let? buttons := gets ic_button_state in
  send_body inputs_client_MOUSE_PRESS
    (mkMouseButton (MouseButton_id_for_mask button) (as_unsigned 16 buttons)).

Definition handle_mouse_up (button x y ts : Z) : Ic unit :=
  do? modify (fun c => ic_set_button_state (Z.ldiff (ic_button_state c) button) c) in
  do? send_position x y in
  do? record_event (mkInputEventRecord "MouseUp" 0 x y button ts) in
  let? buttons := gets ic_button_state in
  send_body inputs_client_MOUSE_RELEASE
    (mkMouseButton (MouseButton_id_for_mask button) (as_unsigned 16 buttons)).

(** Let go of the modifiers held, one after the other. *)
Definition release_held : Ic unit :=
  let? h := gets ic_held in
  do? when (he_ctrl h) (do? send_key_up 0x9D in modify (ic_on_held (set_ctrl false))) in
  do? when (he_shift h) (do? send_key_up 0xAA in modify (ic_on_held (set_shift false))) in
  when (he_alt h) (do? send_key_up 0xB8 in modify (ic_on_held (set_alt false))).

Definition handle_paste_text (text : list Z) (char_delay_ms : Z) (request_id : option RequestId)
    (cancel : bool) : Ic unit :=
  let? c := gets id in
  if negb (ic_enable_paste c) then ret tt
  else if bool_decide (is_Some (ic_paste_state c)) then ret tt
  else
    let text := if PASTE_MAX_CHARS <? zlen text then take (Z.to_nat PASTE_MAX_CHARS) text else text in
    match translate_paste text with
    | Panic => panic
    | Err (Unrepresentable count sample) =>
        emit (CE_PasteFailed (Paste_Unrepresentable count sample) request_id)
    | Ok [] => emit (CE_PasteCompleted 0 0 request_id)
    | Ok keys =>
        let delay := char_delay_ms * 1000000 in
        let saved := ic_held c in
        do? release_held in
        let? t := now in
        modify (ic_set_paste_state (Some (mkPasteState keys 0 Press (delay / 2) t t
          (he_ctrl saved) (he_shift saved) (he_alt saved) request_id cancel)))
    end.

Definition handle_input_event (event : InputEvent) : Ic unit :=
  let? ts := elapsed in
  match event with
  | KeyDown scancode => handle_key_down scancode ts
  | KeyUp scancode => handle_key_up scancode ts
  | KeyModifiersEvent modifiers => handle_key_modifiers modifiers ts
  | MouseMove x y => handle_mouse_move x y ts
  | MouseMotionEvent dx dy => handle_mouse_motion dx dy ts
  | MouseDown button x y => handle_mouse_down button x y ts
  | MouseUp button x y => handle_mouse_up button x y ts
  | PasteText text char_delay_ms request_id cancel =>
      handle_paste_text text char_delay_ms request_id cancel
  end.

(** * The paste *)

Definition restore_modifiers (state : PasteState) : Ic unit :=
  do? when (ps_saved_ctrl state) (do? send_key_down 0x1D in modify (ic_on_held (set_ctrl true))) in
  do? when (ps_saved_shift state) (do? send_key_down 0x2A in modify (ic_on_held (set_shift true))) in
  when (ps_saved_alt state) (do? send_key_down 0x38 in modify (ic_on_held (set_alt true))).

(** [state.sub_step = ..; state.next_fire = Instant::now() + state.half_delay] *)
Definition schedule (sub_step : PasteSubStep) (state : PasteState) : Ic unit :=
  let? t := now in
  modify (ic_set_paste_state (Some (ps_schedule sub_step (t + ps_half_delay state) state))).

Definition paste_press (key : PasteKey) : Ic unit :=
  do? when (pk_shift key) (send_key_down 0x2A) in
  do? send_key_down (pk_press key) in
  let? p := gets ic_paste_state in
  match p with
  | None => ret tt
  | Some state => schedule Release state
  end.

(** The last key was released: [elapsed().as_millis() as u64]. *)
Definition paste_complete (state : PasteState) : Ic unit :=
  let? t := now in
  let elapsed_ms := as_unsigned 64 (saturating_duration_since t (ps_start state) / 1000000) in
  do? modify (ic_set_paste_state None) in
  do? restore_modifiers state in
  emit (CE_PasteCompleted (zlen (ps_keys state)) elapsed_ms (ps_request_id state)).

Definition paste_release (key : PasteKey) : Ic unit :=
  do? send_key_up (pk_release key) in
  do? when (pk_shift key) (send_key_up 0xAA) in
  let? p := gets ic_paste_state in
  match p with
  | None => ret tt
  | Some state =>
      let state := ps_set_index (ps_index state + 1) state in
      do? modify (ic_set_paste_state (Some state)) in
      if zlen (ps_keys state) <=? ps_index state then paste_complete state
      else schedule Press state
  end.

(** [cancelled]: whether the paste's token, if it has one, has been fired. *)
Definition advance_paste (cancelled : bool) : Ic unit :=
  let? p := gets ic_paste_state in
  match p with
  | None => ret tt
  | Some state =>
      if ps_cancel state && cancelled then
        do? modify (ic_set_paste_state None) in
        emit (CE_PasteFailed Paste_Cancelled (ps_request_id state))
      else
        let? key := unwrap (index (ps_keys state) (ps_index state)) in
        match ps_sub_step state with
        | Press => paste_press key
        | Release => paste_release key
        end
  end.

(** * The event loop *)

(** Handle what was queued, one coalesced event after the other; each takes at
    least one from the queue, so its length is rounds enough. *)
Fixpoint run_batch (overflow_checks : bool) (fuel : nat) (batch : list InputEvent) : Ic unit :=
  match fuel with
  | O => panic
  | S fuel =>
      match batch with
      | [] => ret tt
      | event :: rest =>
          let? next := unwrap (coalesce overflow_checks event rest) in
          do? handle_input_event (fst next) in
          run_batch overflow_checks fuel (snd next)
      end
  end.

(** What the [select!] woke up for: bytes, the end of the stream or a failed
    read; input events; the timer of a paste, with its token fired or not. *)
Inductive InputsArm : Type :=
| In_Read (chunk : list Z)
| In_Eof
| In_ReadError
| In_Events (event : InputEvent) (queued : list InputEvent)
| In_Paste (cancelled : bool).

(** One turn of the loop: whether it goes round again. *)
Definition inputs_arm (overflow_checks : bool) (arm : InputsArm) : Ic bool :=
  match arm with
  | In_Read chunk => do? take_read env handle_server_message chunk in ret true
  | In_Eof => do? emit (CE_Disconnected Ch_Inputs ServerClosed) in ret false
  | In_ReadError => do? emit (CE_Error Ch_Inputs) in ret false
  | In_Events event queued =>
      do? run_batch overflow_checks (S (S (length queued))) (event :: queued) in ret true
  | In_Paste cancelled => do? advance_paste cancelled in ret true
  end.

Fixpoint inputs_arms (overflow_checks : bool) (arms : list InputsArm) : Ic unit :=
  match arms with
  | [] => ret tt
  | arm :: arms =>
      let? more := inputs_arm overflow_checks arm in
      if more then inputs_arms overflow_checks arms else ret tt
  end.

Definition inputs_run (overflow_checks : bool) (arms : list InputsArm) : Ic unit :=
  do? send_key_modifiers keyboard_modifiers_NUM_LOCK in
  inputs_arms overflow_checks arms.

End Channel.
