(* ===== verification/InputsMotion.v ===== *)
(** The motion window of [Inputs.v]: its wedge detector and its round trips,
    against specifications without the detector's saturation or the queue.

    [RoundTrips] is what [MotionRoundTrip] stands for: every time a pointer
    message was sent, and how many acks answered a bunch.  [run_motion] feeds
    both the same messages and acks. *)
From Stdlib Require Import ZArith Lia.
From stdpp Require Import base numbers list tactics.
From S2P Require Import Prelude Channel Inputs.

Open Scope Z_scope.
Ltac Zify.zify_post_hook ::= Z.to_euclidean_division_equations.

(** * The wedge detector *)

Inductive wedge_op : Type := Dropped | Acked.

(** What the detector is fed, and for each whether it says to warn. *)
Fixpoint run_wedge (ops : list wedge_op) (self : MotionWedgeDetector) : list bool :=
  match ops with
  | [] => []
  | Dropped :: ops => let (warn, self) := note_drop self in warn :: run_wedge ops self
  | Acked :: ops => false :: run_wedge ops (wedge_note_ack self)
  end.

(** The drops since the last ack. *)
Fixpoint wedge_run (run : Z) (ops : list wedge_op) : Z :=
  match ops with
  | [] => run
  | Dropped :: ops => wedge_run (run + 1) ops
  | Acked :: ops => wedge_run 0 ops
  end.

(** The detector after a run of [n] drops. *)
Definition wedged_after (n : Z) : MotionWedgeDetector :=
  mkWedge (Z.min n u32_max) (MOTION_WEDGE_THRESHOLD <=? n).

Lemma note_drop_spec n : 0 <= n ->
  note_drop (wedged_after n) = (n + 1 =? MOTION_WEDGE_THRESHOLD, wedged_after (n + 1)).
Proof.
  intros Hn. unfold note_drop, wedged_after, saturating_add_u32, MOTION_WEDGE_THRESHOLD, u32_max.
  cbn [wd_drops_since_ack wd_warned].
  repeat match goal with |- context [?a <=? ?b] => destruct (Z.leb_spec a b) end;
    cbn [andb negb]; repeat match goal with |- context [?a =? ?b] => destruct (Z.eqb_spec a b) end;
    do 2 f_equal; lia.
Qed.

Lemma run_wedge_spec ops n i warn : 0 <= n ->
  run_wedge ops (wedged_after n) !! i = Some warn ->
  warn = true <-> ops !! i = Some Dropped /\ wedge_run n (take (S i) ops) = MOTION_WEDGE_THRESHOLD.
Proof.
  revert n i. induction ops as [|op ops IH]; intros n i Hn E; [done|].
  destruct op; cbn [run_wedge] in E.
  - rewrite note_drop_spec in E by done. destruct i as [|i]; cbn in E |- *; [|by apply IH; [lia|]].
    injection E as <-. rewrite Z.eqb_eq. naive_solver.
  - change (wedge_note_ack (wedged_after n)) with (wedged_after 0) in E.
    destruct i as [|i]; cbn in E |- *; [by injection E as <-; naive_solver|by apply IH].
Qed.

(** The wedge detector warns exactly when it should: fed any sequence of
    dropped moves and acks, it says to warn at the [MOTION_WEDGE_THRESHOLD]th
    drop since the last ack (or the start) and at no other point, so once for
    each time the window wedges, however long it stays so. *)
Theorem wedge_warns_once ops i warn :
  run_wedge ops MotionWedgeDetector_default !! i = Some warn ->
  warn = true <-> ops !! i = Some Dropped /\ wedge_run 0 (take (S i) ops) = MOTION_WEDGE_THRESHOLD.
Proof. by apply (run_wedge_spec ops 0). Qed.

Lemma wedge_warns_once_witness :
  run_wedge (replicate 100 Dropped) MotionWedgeDetector_default !! 99%nat = Some true /\
  wedge_run 0 (replicate 100 Dropped) = 100.
Proof.
  split; [vm_compute; reflexivity|].
  pose proof (proj1 (wedge_warns_once (replicate 100 Dropped) 99 true
    ltac:(vm_compute; reflexivity)) eq_refl) as [_ E]. exact E.
Defined.

(** * Round trips *)

Inductive motion_op : Type := Pointer_sent (at' : Z) | Ack_received (at' : Z).

Definition motion_step (op : motion_op) (self : MotionRoundTrip) : option Z * MotionRoundTrip :=
  match op with
  | Pointer_sent t => (None, note_sent t self)
  | Ack_received t => round_trip_note_ack t self
  end.

Fixpoint run_motion (ops : list motion_op) (self : MotionRoundTrip) : list (option Z) * MotionRoundTrip :=
  match ops with
  | [] => ([], self)
  | op :: ops =>
      let (rtt, self) := motion_step op self in
      let (rtts, self) := run_motion ops self in (rtt :: rtts, self)
  end.

(** When the pointer messages were sent, and the acks that answered a bunch. *)
Record RoundTrips : Type := mkRoundTrips {
  sp_times : list Z;
  sp_acks : Z
}.

Definition bunches (times : list Z) : Z := zlen times / MOTION_ACK_BUNCH.

(** When bunch [n] was complete: its last message. *)
Definition bunch_time (times : list Z) (n : Z) : Z :=
  default 0 (index times (n * MOTION_ACK_BUNCH - 1)).

(** The [n]th ack that answers a complete bunch is timed against bunch [n],
    unless [MAX_ROUND_TRIPS_PENDING] later bunches are complete. *)
Definition spec_step (op : motion_op) (s : RoundTrips) : option Z * RoundTrips :=
  match op with
  | Pointer_sent t => (None, mkRoundTrips (sp_times s ++ [t]) (sp_acks s))
  | Ack_received t =>
      let n := sp_acks s + 1 in
      if bunches (sp_times s) <? n then (None, s)
      else
        (if bunches (sp_times s) - n <? MAX_ROUND_TRIPS_PENDING
         then Some (saturating_duration_since t (bunch_time (sp_times s) n)) else None,
         mkRoundTrips (sp_times s) n)
  end.

Fixpoint spec_run (ops : list motion_op) (s : RoundTrips) : list (option Z) * RoundTrips :=
  match ops with
  | [] => ([], s)
  | op :: ops =>
      let (rtt, s) := spec_step op s in
      let (rtts, s) := spec_run ops s in (rtt :: rtts, s)
  end.

(** The bunches not yet answered, the oldest forgotten. *)
Definition pending_of (s : RoundTrips) : list (Z * Z) :=
  let b := bunches (sp_times s) in
  let k := Z.max (sp_acks s) (b - MAX_ROUND_TRIPS_PENDING) in
  map (fun n => (n, bunch_time (sp_times s) n)) (seqZ (k + 1) (b - k)).

Definition rt_rel (s : RoundTrips) (self : MotionRoundTrip) : Prop :=
  0 <= sp_acks s <= bunches (sp_times s) /\
  self = mkRoundTrip (zlen (sp_times s)) (sp_acks s) (pending_of s).

Lemma bunch_time_app times t n : n * MOTION_ACK_BUNCH <= zlen times ->
  bunch_time (times ++ [t]) n = bunch_time times n.
Proof.
  intros Hn. unfold bunch_time, index. rewrite zlen_app. change (zlen [t]) with 1.
  unfold MOTION_ACK_BUNCH in *. destruct (Z.leb_spec 0 (n * 4 - 1)) as [H0|H0]; [|done].
  rewrite !(proj2 (Z.ltb_lt _ _)) by lia. cbn [andb].
  rewrite lookup_app_l; [done|]. unfold zlen in *. lia.
Qed.

Lemma bunch_time_last times t : (zlen times + 1) mod MOTION_ACK_BUNCH = 0 ->
  bunch_time (times ++ [t]) (bunches times + 1) = t.
Proof.
  unfold bunch_time, bunches, MOTION_ACK_BUNCH. intros Hm. pose proof (zlen_nonneg times).
  replace ((zlen times / 4 + 1) * 4 - 1) with (zlen times) by lia.
  rewrite index_lookup by (rewrite zlen_app; change (zlen [t]) with 1; lia).
  rewrite lookup_app_r by (unfold zlen; lia). unfold zlen. rewrite Nat2Z.id. by rewrite Nat.sub_diag.
Qed.

Lemma seqZ_snoc m n : 0 <= n -> seqZ m (n + 1) = seqZ m n ++ [m + n].
Proof. intros Hn. rewrite seqZ_app by lia. by rewrite (seqZ_cons (m + n) 1) by lia. Qed.

Lemma zlen_seqZ m n : zlen (seqZ m n) = Z.max 0 n.
Proof. unfold zlen. rewrite length_seqZ. lia. Qed.

Lemma pending_times times t b k : b * MOTION_ACK_BUNCH <= zlen times ->
  map (fun n => (n, bunch_time (times ++ [t]) n)) (seqZ (k + 1) (b - k)) =
  map (fun n => (n, bunch_time times n)) (seqZ (k + 1) (b - k)).
Proof.
  intros Hb. apply map_ext_in. intros n Hn. apply list_elem_of_In, elem_of_seqZ in Hn.
  rewrite bunch_time_app; [done|]. unfold MOTION_ACK_BUNCH in *. lia.
Qed.

Lemma note_sent_refines t s self : rt_rel s self ->
  rt_rel (snd (spec_step (Pointer_sent t) s)) (note_sent t self).
Proof.
  intros [Hacks ->]. destruct s as [times acks]. cbn [sp_times sp_acks spec_step snd] in *.
  unfold note_sent. cbn [rt_sent rt_acks rt_pending].
  pose proof (zlen_nonneg times) as H0. assert (zlen (times ++ [t]) = zlen times + 1) as Hz
    by (by rewrite zlen_app).
  destruct (Z.eqb_spec ((zlen times + 1) mod MOTION_ACK_BUNCH) 0) as [Hm|Hm].
  2: { assert (bunches (times ++ [t]) = bunches times) as Hb
         by (unfold bunches, MOTION_ACK_BUNCH in *; rewrite Hz; lia).
       unfold rt_rel, pending_of; cbn [sp_times sp_acks]. rewrite Hb, Hz. split; [done|]. f_equal.
       rewrite pending_times; [done|]. unfold bunches, MOTION_ACK_BUNCH. lia. }
  assert (bunches (times ++ [t]) = bunches times + 1) as Hb
    by (unfold bunches, MOTION_ACK_BUNCH in *; rewrite Hz; lia).
  assert ((zlen times + 1) / MOTION_ACK_BUNCH = bunches times + 1) as Hd
    by (rewrite <- Hb, <- Hz; reflexivity).
  unfold rt_rel, pending_of. cbn [sp_times sp_acks]. rewrite Hb, Hz, Hd. split; [lia|]. f_equal.
  set (b := bunches times) in *.
  set (f := fun n => (n, bunch_time (times ++ [t]) n)).
  set (k := Z.max acks (b - MAX_ROUND_TRIPS_PENDING)).
  set (k' := Z.max acks (b + 1 - MAX_ROUND_TRIPS_PENDING)).
  assert ((b + 1, t) = f (b + 1)) as -> by (unfold f; by rewrite bunch_time_last).
  rewrite <- (pending_times times t b k) by (unfold b, bunches, MOTION_ACK_BUNCH; lia).
  fold f. rewrite zlen_map, zlen_seqZ.
  assert (map f (seqZ (k' + 1) (b + 1 - k')) = push (map f (seqZ (k' + 1) (b - k'))) (f (b + 1))) as ->.
  { replace (b + 1 - k') with (b - k' + 1) by lia.
    rewrite seqZ_snoc by (unfold k', MAX_ROUND_TRIPS_PENDING; lia). rewrite map_app. unfold push. cbn.
    by replace (k' + 1 + (b - k')) with (b + 1) by lia. }
  f_equal. unfold MAX_ROUND_TRIPS_PENDING in *. destruct (Z.leb_spec 8 (Z.max 0 (b - k))).
  - rewrite (seqZ_cons (k + 1)) by lia. cbn [map tail]. do 2 f_equal; lia.
  - by replace k' with k by lia.
Qed.

Lemma drop_answered_spec f m k b : k <= m <= b ->
  drop_answered (m + 1) (map (fun n => (n, f n)) (seqZ (k + 1) (b - k))) =
  map (fun n => (n, f n)) (seqZ (m + 1) (b - m)).
Proof.
  intros Hk. remember (Z.to_nat (m - k)) as j eqn:Hj. revert k Hk Hj.
  induction j as [|j IH]; intros k Hk Hj.
  - replace k with m by lia. destruct (decide (m = b)) as [->|Hne]; [by rewrite Z.sub_diag, !seqZ_nil by lia|].
    rewrite seqZ_cons by lia. cbn [map drop_answered]. by rewrite (proj2 (Z.ltb_ge _ _)) by lia.
  - rewrite (seqZ_cons (k + 1)) by lia. cbn [map drop_answered].
    rewrite (proj2 (Z.ltb_lt _ _)) by lia. replace (Z.pred (b - k)) with (b - (k + 1)) by lia.
    apply IH; lia.
Qed.

Lemma note_ack_refines t s self : rt_rel s self ->
  fst (round_trip_note_ack t self) = fst (spec_step (Ack_received t) s) /\
  rt_rel (snd (spec_step (Ack_received t) s)) (snd (round_trip_note_ack t self)).
Proof.
  intros [Hacks ->]. destruct s as [times acks]. cbn [sp_times sp_acks spec_step] in *.
  unfold round_trip_note_ack. cbn [rt_sent rt_acks rt_pending].
  change (zlen times / MOTION_ACK_BUNCH) with (bunches times).
  destruct (Z.leb_spec (bunches times) acks) as [Hle|Hlt].
  { rewrite (proj2 (Z.ltb_lt _ _)) by lia. split; [done|]. by split. }
  rewrite (proj2 (Z.ltb_ge _ _)) by lia.
  unfold pending_of. cbn [sp_times sp_acks]. set (b := bunches times) in *.
  set (f := bunch_time times). set (k := Z.max acks (b - MAX_ROUND_TRIPS_PENDING)).
  unfold MAX_ROUND_TRIPS_PENDING in *.
  assert (rt_rel (mkRoundTrips times (acks + 1)) (mkRoundTrip (zlen times) (acks + 1)
    (map (fun n => (n, f n)) (seqZ (Z.max (acks + 1) (b - 8) + 1) (b - Z.max (acks + 1) (b - 8))))))
    as Hrel by (split; [cbn; fold b; lia|done]).
  destruct (Z.ltb_spec (b - (acks + 1)) 8) as [Hin|Hout].
  - assert (k = acks) as -> by lia. rewrite drop_answered_spec by lia.
    rewrite seqZ_cons by lia. cbn [map]. rewrite Z.eqb_refl. split; [done|].
    replace (Z.max (acks + 1) (b - 8)) with (acks + 1) in Hrel by lia.
    replace (Z.succ (acks + 1)) with (acks + 1 + 1) by lia.
    by replace (Z.pred (b - acks)) with (b - (acks + 1)) by lia.
  - assert (k = b - 8) as -> by lia. replace (b - (b - 8)) with 8 by lia.
    rewrite (seqZ_cons _ 8) by lia. cbn [map drop_answered].
    rewrite (proj2 (Z.ltb_ge _ _)) by lia. rewrite (proj2 (Z.eqb_neq _ _)) by lia.
    split; [done|]. replace (Z.max (acks + 1) (b - 8)) with (b - 8) in Hrel by lia.
    replace (b - (b - 8)) with 8 in Hrel by lia. rewrite (seqZ_cons _ 8) in Hrel by lia. exact Hrel.
Qed.

Lemma motion_step_refines op s self : rt_rel s self ->
  fst (motion_step op self) = fst (spec_step op s) /\
  rt_rel (snd (spec_step op s)) (snd (motion_step op self)).
Proof.
  destruct op; cbn [motion_step].
  - intros H. split; [done|by apply note_sent_refines].
  - apply note_ack_refines.
Qed.

Lemma run_motion_refines ops s self : rt_rel s self ->
  fst (run_motion ops self) = fst (spec_run ops s) /\
  rt_rel (snd (spec_run ops s)) (snd (run_motion ops self)).
Proof.
  revert s self. induction ops as [|op ops IH]; intros s self Hrel; [done|]. cbn [run_motion spec_run].
  destruct (motion_step_refines op s self Hrel) as [E Hrel'].
  destruct (motion_step op self) as [rtt self'], (spec_step op s) as [rtt' s']. cbn [fst snd] in *.
  destruct (IH s' self' Hrel') as [E' Hrel''].
  destruct (run_motion ops self') as [rtts self''], (spec_run ops s') as [rtts' s''].
  cbn [fst snd] in *. by subst.
Qed.

(** Round trips are paired by number: for any pointer messages and acks, at
    any times, the [n]th ack that answers a complete bunch is timed against
    the moment the [4n]th pointer message was sent, whatever bunches were
    forgotten before it; only with [MAX_ROUND_TRIPS_PENDING] later bunches
    complete is it not timed, and an ack that answers no complete bunch is
    neither timed nor counted.  The queue never holds more than
    [MAX_ROUND_TRIPS_PENDING] bunches. *)
Theorem motion_round_trips ops :
  let (rtts, self) := run_motion ops MotionRoundTrip_default in
  let (rtts', s) := spec_run ops (mkRoundTrips [] 0) in
  rtts = rtts' /\ rt_sent self = zlen (sp_times s) /\ rt_acks self = sp_acks s /\
  zlen (rt_pending self) <= MAX_ROUND_TRIPS_PENDING.
Proof.
  destruct (run_motion_refines ops (mkRoundTrips [] 0) MotionRoundTrip_default) as [E [Ha Hs]];
    [by split|].
  destruct (run_motion ops _) as [rtts self], (spec_run ops _) as [rtts' s]. cbn [fst snd] in *. subst self.
  split_and!; [done|done|done|]. cbn [rt_pending]. unfold pending_of.
  rewrite zlen_map, zlen_seqZ. unfold MAX_ROUND_TRIPS_PENDING. lia.
Qed.
