(* ===== verification/InputsBatch.v ===== *)
(** Coalescing of queued input events: [run_batch] of [Inputs.v] against
    [merge], which says what a batch comes to with no loop and no index. *)
From Stdlib Require Import ZArith Lia.
From stdpp Require Import base numbers list tactics.
From S2P Require Import Prelude Channel ChannelSpec Inputs.

Open Scope Z_scope.
Open Scope rust_scope.

Definition wrap_i32 (x : Z) : Z := as_signed 32 (as_unsigned 32 x).

(** An event before what is left of the batch: a move before a move is
    forgotten, a relative motion is added to the next one. *)
Definition merge_event (event : InputEvent) (rest : list InputEvent) : list InputEvent :=
  match event, rest with
  | MouseMove _ _, MouseMove _ _ :: _ => rest
  | MouseMotionEvent dx dy, MouseMotionEvent dx' dy' :: rest =>
      MouseMotionEvent (wrap_i32 (dx + dx')) (wrap_i32 (dy + dy')) :: rest
  | _, _ => event :: rest
  end.

Definition merge (batch : list InputEvent) : list InputEvent := foldr merge_event [] batch.

(** What holds of the events, and of relative motions, holds of the result. *)
Lemma merge_Forall (P : InputEvent -> Prop) batch : (forall dx dy, P (MouseMotionEvent dx dy)) ->
  Forall P batch -> Forall P (merge batch).
Proof.
  intros HP. induction 1 as [|event batch He _ IH]; [constructor|]. cbn [merge foldr]. fold (merge batch).
  destruct event, (merge batch) as [|[] rest]; cbn [merge_event]; try (by constructor); try done.
  apply Forall_cons_iff in IH as [_ IH]. by constructor.
Qed.

Fixpoint handle_all (env : Env) (events : list InputEvent) : Ic unit :=
  match events with
  | [] => ret tt
  | event :: events => do? handle_input_event env event in handle_all env events
  end.

Definition delta_x (event : InputEvent) : Z :=
  match event with MouseMotionEvent dx _ => dx | _ => 0 end.
Definition delta_y (event : InputEvent) : Z :=
  match event with MouseMotionEvent _ dy => dy | _ => 0 end.

(** How far the pointer moves in all, either way. *)
Definition travel (delta : InputEvent -> Z) (batch : list InputEvent) : Z :=
  foldr (fun event total => Z.abs (delta event) + total) 0 batch.

Lemma travel_cons delta event batch :
  travel delta (event :: batch) = Z.abs (delta event) + travel delta batch.
Proof. done. Qed.

Lemma travel_nonneg delta batch : 0 <= travel delta batch.
Proof. induction batch as [|event batch IH]; [done|]. rewrite travel_cons. lia. Qed.

(** The deltas are [i32]s, and in a build that checks their sums fit. *)
Definition deltas_ok (checks : bool) (batch : list InputEvent) : Prop :=
  Forall (fun event => i32 (delta_x event) /\ i32 (delta_y event)) batch /\
  (checks = true -> travel delta_x batch < 2 ^ 31 /\ travel delta_y batch < 2 ^ 31).

Lemma wrap_i32_spec x : exists k, wrap_i32 x = x + k * 2 ^ 32 /\ - 2 ^ 31 <= wrap_i32 x < 2 ^ 31.
Proof.
  unfold wrap_i32, as_signed, as_unsigned. pose proof (Z.div_mod x (2 ^ 32) ltac:(done)).
  pose proof (Z.mod_pos_bound x (2 ^ 32) ltac:(done)).
  destruct (Z.ltb_spec (x mod 2 ^ 32) (2 ^ (32 - 1))); [exists (- (x / 2 ^ 32))|exists (- (x / 2 ^ 32) - 1)]; lia.
Qed.

Lemma wrap_i32_id x : i32 x -> wrap_i32 x = x.
Proof. unfold in_signed. destruct (wrap_i32_spec x) as (k & E & H). lia. Qed.

Lemma wrap_i32_eq x y k : x = y + k * 2 ^ 32 -> wrap_i32 x = wrap_i32 y.
Proof. destruct (wrap_i32_spec x) as (k1 & E1 & H1), (wrap_i32_spec y) as (k2 & E2 & H2). lia. Qed.

Lemma wrap_i32_add_l x y : wrap_i32 (wrap_i32 x + y) = wrap_i32 (x + y).
Proof. destruct (wrap_i32_spec x) as (k & E & _). apply (wrap_i32_eq _ _ k). lia. Qed.

Lemma wrap_i32_add_r x y : wrap_i32 (x + wrap_i32 y) = wrap_i32 (x + y).
Proof. destruct (wrap_i32_spec y) as (k & E & _). apply (wrap_i32_eq _ _ k). lia. Qed.

(** A run of relative motions, summed, and what follows it. *)
Fixpoint motion_span (batch : list InputEvent) : Z * Z * list InputEvent :=
  match batch with
  | MouseMotionEvent dx dy :: rest =>
      let '(sx, sy, rest) := motion_span rest in (dx + sx, dy + sy, rest)
  | _ => (0, 0, batch)
  end.

Lemma add_i32_spec checks a b : (checks = true -> Z.abs (a + b) < 2 ^ 31) ->
  add_i32 checks a b = Some (wrap_i32 (a + b)).
Proof.
  intros H. unfold add_i32. destruct checks; [|done]. specialize (H eq_refl).
  assert ((- 2 ^ 31 <=? a + b) && (a + b <? 2 ^ 31) = true) as -> by lia. done.
Qed.

Lemma total_motion_span checks tx ty batch sx sy rest :
  motion_span batch = (sx, sy, rest) -> i32 tx -> i32 ty ->
  (checks = true -> Z.abs tx + travel delta_x batch < 2 ^ 31 /\ Z.abs ty + travel delta_y batch < 2 ^ 31) ->
  total_motion checks tx ty batch = Some (wrap_i32 (tx + sx), wrap_i32 (ty + sy), rest).
Proof.
  revert tx ty sx sy. induction batch as [|event batch IH]; intros tx ty sx sy E Hx Hy Hfit.
  { injection E as <- <- <-. cbn. by rewrite !Z.add_0_r, !wrap_i32_id. }
  destruct event as [| | | |dx dy| | |]; try by (injection E as <- <- <-; cbn; rewrite !Z.add_0_r, !wrap_i32_id).
  cbn [motion_span total_motion] in *. destruct (motion_span batch) as [[sx' sy'] rest'].
  injection E as <- <- <-. rewrite !travel_cons in Hfit. cbn [delta_x delta_y] in Hfit.
  pose proof (travel_nonneg delta_x batch). pose proof (travel_nonneg delta_y batch).
  rewrite !add_i32_spec by (intros Hc; destruct (Hfit Hc); lia). cbn [mbind option_bind].
  destruct (wrap_i32_spec (tx + dx)) as (kx & Ex & Bx), (wrap_i32_spec (ty + dy)) as (ky & Ey & By).
  rewrite (IH _ _ sx' sy').
  - by rewrite !wrap_i32_add_l, !Z.add_assoc.
  - done.
  - unfold in_signed. lia.
  - unfold in_signed. lia.
  - intros Hc. destruct (Hfit Hc). rewrite !wrap_i32_id by (unfold in_signed; lia). lia.
Qed.

Lemma merge_motion dx dy batch sx sy rest :
  i32 dx -> i32 dy -> Forall (fun event => i32 (delta_x event) /\ i32 (delta_y event)) batch ->
  motion_span batch = (sx, sy, rest) ->
  merge (MouseMotionEvent dx dy :: batch) =
    MouseMotionEvent (wrap_i32 (dx + sx)) (wrap_i32 (dy + sy)) :: merge rest.
Proof.
  intros Hx Hy HF. revert dx dy Hx Hy sx sy. induction HF as [|event batch [Hex Hey] HF IH]; intros dx dy Hx Hy sx sy E.
  { injection E as <- <- <-. cbn. by rewrite !Z.add_0_r, !wrap_i32_id. }
  cbn [merge foldr]. fold (merge batch).
  destruct event as [| | | |dx' dy'| | |]; cbn [motion_span] in E;
    try (injection E as <- <- <-; rewrite !Z.add_0_r, !wrap_i32_id by done;
      cbn [merge foldr]; fold (merge batch); destruct (merge batch) as [|[] ?]; reflexivity).
  all: cbn [delta_x delta_y] in *; destruct (motion_span batch) as [[sx' sy'] rest'].
  injection E as <- <- <-.
  change (merge_event (MouseMotionEvent dx' dy') (merge batch)) with (merge (MouseMotionEvent dx' dy' :: batch)).
  rewrite (IH dx' dy' Hex Hey sx' sy' eq_refl). cbn [merge_event].
  by rewrite !wrap_i32_add_r.
Qed.

Lemma merge_move x y batch : exists x' y' pre rest,
  last_move x y batch = (x', y', rest) /\ merge (MouseMove x y :: batch) = MouseMove x' y' :: merge rest /\
  batch = pre ++ rest.
Proof.
  revert x y. induction batch as [|event batch IH]; intros x y.
  { by exists x, y, [], []. }
  destruct event; try (exists x, y, []; eexists; split; [reflexivity|]; cbn; split; [|reflexivity];
    by destruct (foldr merge_event [] batch) as [|[]]).
  cbn [last_move]. destruct (IH x0 y0) as (x' & y' & pre & rest & E & Em & ->).
  exists x', y', (MouseMove x0 y0 :: pre), rest. split; [done|]. split; [|done].
  cbn [merge foldr] in *. by rewrite Em.
Qed.

Lemma motion_span_suffix batch sx sy rest : motion_span batch = (sx, sy, rest) ->
  exists pre, batch = pre ++ rest.
Proof.
  revert sx sy. induction batch as [|event batch IH]; intros sx sy E; [injection E as <- <- <-; by exists []|].
  destruct event; try (injection E as <- <- <-; by exists []).
  cbn [motion_span] in E. destruct (motion_span batch) as [[sx' sy'] rest']. injection E as <- <- <-.
  destruct (IH sx' sy' eq_refl) as [pre ->]. by eexists (_ :: pre).
Qed.

Lemma travel_app delta l1 l2 : travel delta (l1 ++ l2) = travel delta l1 + travel delta l2.
Proof. induction l1 as [|event l1 IH]; [done|]. cbn [app]. rewrite !travel_cons. lia. Qed.

Lemma deltas_ok_suffix checks pre rest : deltas_ok checks (pre ++ rest) -> deltas_ok checks rest.
Proof.
  intros [HF Hc]. apply list.Forall_app in HF as [_ HF]. split; [done|]. intros Hk. specialize (Hc Hk).
  rewrite !travel_app in Hc. pose proof (travel_nonneg delta_x pre). pose proof (travel_nonneg delta_y pre). lia.
Qed.

(** The next event handled is the first of what the batch comes to. *)
Lemma coalesce_merge checks event rest : deltas_ok checks (event :: rest) ->
  exists next pre rest', coalesce checks event rest = Some (next, rest') /\
    merge (event :: rest) = next :: merge rest' /\ rest = pre ++ rest'.
Proof.
  intros Hd. assert ((forall x y, event <> MouseMove x y) -> (forall dx dy, event <> MouseMotionEvent dx dy) ->
    merge (event :: rest) = event :: merge rest) as Hplain.
  { intros H1 H2. cbn [merge foldr]. fold (merge rest). destruct event; try done; [by edestruct H1|by edestruct H2]. }
  destruct event as [| | |x y|dx dy| | |]; cbn [coalesce];
    try (eexists _, [], rest; split; [reflexivity|]; split; [by apply Hplain|reflexivity]).
  - destruct (merge_move x y rest) as (x' & y' & pre & rest' & -> & Em & ->).
    by exists (MouseMove x' y'), pre, rest'.
  - destruct Hd as [HF Hc]. apply Forall_cons_iff in HF as [[Hx Hy] HF]. cbn [delta_x delta_y] in Hx, Hy.
    destruct (motion_span rest) as [[sx sy] rest'] eqn:E.
    assert (motion_span (MouseMotionEvent dx dy :: rest) = (dx + sx, dy + sy, rest')) as E'
      by (cbn [motion_span]; by rewrite E).
    rewrite (total_motion_span checks 0 0 _ _ _ _ E'); [|by unfold in_signed..|exact Hc].
    cbn [mbind option_bind]. rewrite (merge_motion dx dy rest sx sy rest') by done.
    destruct (motion_span_suffix _ _ _ _ E) as [pre ->].
    eexists _, pre, rest'. split; [reflexivity|]. by rewrite !Z.add_0_l.
Qed.

Lemma run_batch_fuel env checks fuel batch s : deltas_ok checks batch -> (length batch < fuel)%nat ->
  run_batch env checks fuel batch s = handle_all env (merge batch) s.
Proof.
  revert batch s. induction fuel as [|fuel IH]; intros batch s Hd Hf; [lia|].
  destruct batch as [|event rest]; [done|]. cbn [run_batch].
  destruct (coalesce_merge checks event rest Hd) as (next & pre & rest' & -> & -> & ->).
  rewrite (bind_ok (unwrap (Some _)) _ _ _ _ eq_refl). cbn [fst snd handle_all].
  unfold bind. destruct (handle_input_event env next s) as [[[]|e|] s']; [|done|done].
  apply IH.
  - apply (deltas_ok_suffix checks (event :: pre)). exact Hd.
  - cbn [length] in Hf. rewrite length_app in Hf. lia.
Qed.

(** C12: Coalescing loses nothing but superseded positions: whatever is queued, the
    batch is handled as [merge] says, event by event in order: a run of
    positions becomes the last of it, a run of relative motions one motion by
    its sum (as [i32]s; in a build that checks for overflow the sums must fit),
    and every key, button and paste is handled where it was, in its order,
    none lost and none twice; and the loop ends. *)
Theorem batch_coalesces env checks event queued s :
  deltas_ok checks (event :: queued) ->
  run_batch env checks (S (S (length queued))) (event :: queued) s =
    handle_all env (merge (event :: queued)) s.
Proof. intros Hd. apply run_batch_fuel; [done|cbn; lia]. Qed.

(** In a build that checks, a sum that does not fit panics; in a release build it
    wraps. *)
Lemma motion_sum_overflows :
  total_motion true (2 ^ 31 - 1) 0 [MouseMotionEvent 1 0] = None /\
  total_motion false (2 ^ 31 - 1) 0 [MouseMotionEvent 1 0] = Some (- 2 ^ 31, 0, []).
Proof. by split. Qed.

Definition quiet_world : Env :=
  mkEnv (fun _ => 0) (fun _ => 0) (fun _ => true) None (fun _ => Clip_Completed) (fun _ => 0).

Lemma batch_coalesces_witness :
  run_batch quiet_world true 7 [MouseMove 1 1; MouseMove 2 5; MouseDown 1 2 5; MouseMotionEvent 3 4;
      MouseMotionEvent (-1) 2; KeyDown 30] (InputsChannel_new true) =
    handle_all quiet_world [MouseMove 2 5; MouseDown 1 2 5; MouseMotionEvent 2 6; KeyDown 30]
      (InputsChannel_new true).
Proof.
  exact (batch_coalesces quiet_world true (MouseMove 1 1) [MouseMove 2 5; MouseDown 1 2 5; MouseMotionEvent 3 4;
      MouseMotionEvent (-1) 2; KeyDown 30] (InputsChannel_new true)
    ltac:(split; [repeat constructor; unfold in_signed; cbn; lia|intros _; split; vm_compute; reflexivity])).
Defined.
