(* ===== verification/InputsSpec.v ===== *)
(** What the inputs channel keeps true, whatever it does: the monitors that
    read its log, its invariant, and what each write does to them.

    The monitors are the guest's side of the log: the key codes written, the
    pointer messages written and the acks received for them, the outcomes of
    pastes.  [inputs_inv d] is the motion window's invariant together with the
    paste's ghost state [d]: the codes written, the paste in progress, the
    modifiers held, the outcomes so far (and the receive buffer).  Everything but a key or a paste
    keeps [d] as it is. *)
From Stdlib Require Import ZArith Lia String.
From stdpp Require Import base numbers list gmap tactics.
From S2P Require Import Prelude Reader Utf8 Wire MsgCommon ReceiveBuffer MsgInputs LinkMess OpcodeCounters Channel ChannelSpec Keyboard Inputs InputsBatch.

Open Scope Z_scope.
Open Scope rust_scope.

#[export] Instance InputsChannel_laws : ChannelLaws InputsChannel.
Proof. by split. Qed.

(** * The monitors *)

Definition written_type (data : list Z) : Z := from_le (take 2 data).

Definition is_pointer (e : Event) : bool :=
  match e with
  | Ev_Wrote data => (written_type data =? inputs_client_MOUSE_POSITION)
                     || (written_type data =? inputs_client_MOUSE_MOTION)
  | _ => false
  end.

Definition is_motion_ack (e : Event) : bool :=
  match e with Ev_Received ty _ => ty =? inputs_server_MOUSE_MOTION_ACK | _ => false end.

(** The scancode of a key message. *)
Definition key_code (e : Event) : option Z :=
  match e with
  | Ev_Wrote data =>
      if (written_type data =? inputs_client_KEY_DOWN) || (written_type data =? inputs_client_KEY_UP)
      then Some (from_le (take 4 (drop (Z.to_nat MessageHeader_SIZE) data))) else None
  | _ => None
  end.

Definition paste_outcome (e : Event) : option ChannelEvent :=
  match e with
  | Ev_Emit (CE_PasteCompleted n ms id) => Some (CE_PasteCompleted n ms id)
  | Ev_Emit (CE_PasteFailed reason id) => Some (CE_PasteFailed reason id)
  | _ => None
  end.

Definition pointers (log : list Event) : Z := zlen (List.filter is_pointer log).
Definition motion_acks (log : list Event) : Z := zlen (List.filter is_motion_ack log).
Definition codes (log : list Event) : list Z := omap key_code log.
Definition outcomes (log : list Event) : list ChannelEvent := omap paste_outcome log.

(** A server that never acknowledges a bunch it was not sent. *)
Definition honest (log : list Event) : Prop :=
  forall n, MOTION_ACK_BUNCH * motion_acks (take n log) <= pointers (take n log).

(** The pointer messages written that no ack has answered. *)
Definition unanswered (log : list Event) : Z := pointers log - MOTION_ACK_BUNCH * motion_acks log.

Definition flag (b : bool) : Z := if b then 1 else 0.

Lemma pointers_snoc log e : pointers (log ++ [e]) = pointers log + flag (is_pointer e).
Proof. unfold pointers. rewrite List.filter_app, zlen_app. cbn. by destruct (is_pointer e). Qed.

Lemma motion_acks_snoc log e : motion_acks (log ++ [e]) = motion_acks log + flag (is_motion_ack e).
Proof. unfold motion_acks. rewrite List.filter_app, zlen_app. cbn. by destruct (is_motion_ack e). Qed.

Lemma honest_snoc log e : honest (log ++ [e]) -> honest log /\ 0 <= unanswered (log ++ [e]).
Proof.
  intros H. split.
  - intros n. destruct (decide (n <= length log)%nat).
    + specialize (H n). by rewrite take_app_le in H.
    + specialize (H (length log)). rewrite take_app_length in H. by rewrite take_ge by lia.
  - specialize (H (length (log ++ [e]))). rewrite take_ge in H by done. unfold unanswered. lia.
Qed.

(** * The invariant *)

Record facts (m : Motion) (recent : list InputEventRecord) (log : list Event) : Prop := {
  f_count : 0 <= mo_count m <= MOTION_ACK_BUNCH * 2;
  f_window : honest log -> mo_count m <= unanswered log;
  f_sent : rt_sent (mo_round_trip m) = pointers log;
  f_recent : zlen recent <= MAX_RECENT_EVENTS
}.

Record Typing : Type := mkTyping {
  ty_buffer : ReceiveBuffer;
  ty_codes : list Z;
  ty_paste : option PasteState;
  ty_held : Held;
  ty_outcomes : list ChannelEvent
}.

Definition with_buffer (b : ReceiveBuffer) (d : Typing) : Typing :=
  mkTyping b (ty_codes d) (ty_paste d) (ty_held d) (ty_outcomes d).

Definition with_paste (p : option PasteState) (d : Typing) : Typing :=
  mkTyping (ty_buffer d) (ty_codes d) p (ty_held d) (ty_outcomes d).
Definition with_held (h : Held) (d : Typing) : Typing :=
  mkTyping (ty_buffer d) (ty_codes d) (ty_paste d) h (ty_outcomes d).
Definition add_outcome (e : ChannelEvent) (d : Typing) : Typing :=
  mkTyping (ty_buffer d) (ty_codes d) (ty_paste d) (ty_held d) (ty_outcomes d ++ [e]).
Definition push_codes (cs : list Z) (d : Typing) : Typing :=
  mkTyping (ty_buffer d) (ty_codes d ++ cs) (ty_paste d) (ty_held d) (ty_outcomes d).

Definition inputs_inv (d : Typing) (s : InputsChannel) : Prop :=
  facts (ic_motion s) (ic_recent_events s) (ic_log s) /\
  codes (ic_log s) = ty_codes d /\ ic_paste_state s = ty_paste d /\ ic_held s = ty_held d /\
  outcomes (ic_log s) = ty_outcomes d /\ ic_buffer s = ty_buffer d.

(** Events no monitor looks at. *)
Definition quiet (e : Event) : bool :=
  match e with
  | Ev_Wrote _ => false
  | Ev_Received ty _ => negb (ty =? inputs_server_MOUSE_MOTION_ACK)
  | _ => negb (bool_decide (is_Some (paste_outcome e)))
  end.

Lemma unmonitored log e : quiet e = true ->
  pointers (log ++ [e]) = pointers log /\ motion_acks (log ++ [e]) = motion_acks log /\
  codes (log ++ [e]) = codes log /\ outcomes (log ++ [e]) = outcomes log.
Proof.
  intros He. unfold codes, outcomes. rewrite pointers_snoc, motion_acks_snoc, !omap_snoc.
  assert (is_pointer e = false /\ is_motion_ack e = false /\ key_code e = None /\ paste_outcome e = None)
    as (-> & -> & -> & ->).
  { destruct e as [ty p| | |ev| | | | | |]; try done.
    - cbn in *. by rewrite negb_true_iff in He.
    - unfold quiet in He. rewrite negb_true_iff, bool_decide_eq_false, <- eq_None_not_Some in He. done. }
  cbn [flag]. by rewrite !app_nil_r, !Z.add_0_r.
Qed.

Lemma window_quiet m recent log e : quiet e = true -> facts m recent log -> facts m recent (log ++ [e]).
Proof.
  intros He []. destruct (unmonitored log e He) as (E1 & E2 & _). split; try done; [|by rewrite E1].
  intros H. destruct (honest_snoc _ _ H) as [Hl _]. unfold unanswered. rewrite E1, E2. by apply f_window0.
Qed.

Lemma inv_quiet d s e : quiet e = true -> inputs_inv d s ->
  inputs_inv d (ic_on_log (fun l => l ++ [e]) s).
Proof.
  intros He (Hf & Hc & Hp & Hh & Ho & Hb). destruct (unmonitored (ic_log s) e He) as (_ & _ & E3 & E4).
  unfold inputs_inv. cbn [ic_on_log ic_motion ic_recent_events ic_log ic_paste_state ic_held ic_buffer].
  rewrite E3, E4. split; [by apply window_quiet|done].
Qed.

(** * Writes *)

(** A state but for the motion, the totals, the turn and the log. *)
Definition resent (s : InputsChannel) (motion : Motion) (totals : Totals) (turn : nat)
    (log : list Event) : InputsChannel :=
  mkInputsChannel (ic_buffer s) (ic_last_key_time s) (ic_button_state s) motion
    (ic_recent_events s) totals (ic_pings s) (ic_enable_paste s) (ic_held s) (ic_paste_state s)
    log turn.

Definition writes_ok (env : Env) : Prop := forall n, env_write_ok env n = true.

Definition pointer_type (ty : Z) : bool :=
  (ty =? inputs_client_MOUSE_POSITION) || (ty =? inputs_client_MOUSE_MOTION).
Definition key_type (ty : Z) : bool :=
  (ty =? inputs_client_KEY_DOWN) || (ty =? inputs_client_KEY_UP).

Section Writes.
Context (env : Env).

Lemma inputs_capture_run s : exists totals turn,
  capture_packet env s = (Ok tt, resent s (ic_motion s) totals turn (ic_log s)).
Proof.
  unfold capture_packet. destruct (env_capture env) as [room|].
  - unfold bind, ask. destruct (room (ch_turn s)); do 2 eexists; reflexivity.
  - exists (ic_totals s), (ic_turn s). by destruct s.
Qed.

Lemma inputs_write_run data s : exists totals turn,
  send env data s = (Ok tt, resent s (ic_motion s) totals turn (ic_log s ++ [Ev_Wrote data])) \/
  (~ writes_ok env /\ send env data s = (Err Chan_Io, resent s (ic_motion s) totals turn (ic_log s))).
Proof.
  unfold send. destruct (inputs_capture_run s) as (t & n & E). rewrite (bind_ok _ _ _ _ _ E).
  rewrite (bind_ok (ask _) _ _ _ _ eq_refl).
  destruct (env_write_ok env _) eqn:Ew; do 2 eexists; [left; reflexivity|right; split; [|reflexivity]].
  intros W. by rewrite W in Ew.
Qed.

Definition sent_motion (ty : Z) (t : Z) (m : Motion) : Motion :=
  if pointer_type ty then mo_set_round_trip (note_sent t (mo_round_trip m)) m else m.

Lemma inputs_send_run ty data s : exists totals turn t,
  inputs_send_with_log env ty data s =
    (Ok tt, resent s (sent_motion ty t (ic_motion s)) totals turn
       ((ic_log s ++ [Ev_Sent ty data]) ++ [Ev_Wrote data])) \/
  (~ writes_ok env /\ inputs_send_with_log env ty data s =
    (Err Chan_Io, resent s (ic_motion s) totals turn (ic_log s ++ [Ev_Sent ty data]))).
Proof.
  unfold inputs_send_with_log. rewrite (bind_ok (log_event _) _ _ _ _ eq_refl).
  rewrite (bind_ok (count_opcodes _) _ _ _ _ eq_refl).
  match goal with |- context [bind (send env data) _ ?s0] => destruct (inputs_write_run data s0)
    as (totals & turn & [E|[W E]]) end.
  - rewrite (bind_ok _ _ _ _ _ E). unfold sent_motion. fold (pointer_type ty).
    destruct (pointer_type ty); cbn [when].
    + rewrite (bind_ok (instant_now env) _ _ _ _ eq_refl). do 3 eexists. left. reflexivity.
    + exists totals, turn, 0. left. reflexivity.
  - rewrite (bind_err _ _ _ _ _ E). exists totals, turn, 0. right. split; [done|reflexivity].
Qed.

End Writes.

(** * What a write does to the monitors *)

Abbreviation push_code code := (push_codes [code]).

Lemma written_message ty body : u16 ty -> written_type (make_message ty body) = ty.
Proof.
  intros Hty. unfold written_type, make_message, MessageHeader_write, extend_from_slice.
  cbn [message_type message_size]. rewrite app_nil_l, <- app_assoc.
  rewrite take_app_length' by by rewrite length_to_le.
  rewrite from_le_to_le. by apply Z.mod_small.
Qed.

Lemma message_body ty body : drop (Z.to_nat MessageHeader_SIZE) (make_message ty body) = body.
Proof.
  unfold make_message, MessageHeader_write, extend_from_slice. cbn [message_type message_size].
  rewrite app_nil_l. apply drop_app_length'. rewrite length_app, !length_to_le. reflexivity.
Qed.

Lemma key_event_code ty code : u16 ty -> key_type ty = true -> u32 code ->
  key_code (Ev_Wrote (make_message ty (write (mkKeyEvent code) []))) = Some code.
Proof.
  intros Hty Hk Hc. unfold key_code. rewrite written_message by done. unfold key_type in Hk.
  rewrite Hk, message_body. cbn [write KeyEvent_wire KeyEvent_write KeyEvent_scancode].
  unfold KeyEvent_write, extend_from_slice. cbn [KeyEvent_scancode]. rewrite app_nil_l.
  rewrite take_ge by by rewrite length_to_le. rewrite from_le_to_le. f_equal. by apply Z.mod_small.
Qed.

Lemma sent_quiet ty data : quiet (Ev_Sent ty data) = true.
Proof. done. Qed.

(** A message that is neither a key's nor the pointer's. *)
Lemma wrote_plain log ty body : u16 ty -> pointer_type ty = false -> key_type ty = false ->
  let e := Ev_Wrote (make_message ty body) in
  pointers (log ++ [e]) = pointers log /\ motion_acks (log ++ [e]) = motion_acks log /\
  codes (log ++ [e]) = codes log /\ outcomes (log ++ [e]) = outcomes log.
Proof.
  intros Hty Hp Hk e. unfold codes, outcomes. rewrite pointers_snoc, motion_acks_snoc, !omap_snoc.
  unfold e, is_pointer, key_code. rewrite written_message by done. unfold pointer_type, key_type in *.
  rewrite Hp, Hk. cbn. by rewrite !app_nil_r, !Z.add_0_r.
Qed.

Lemma wrote_pointer log ty body : u16 ty -> pointer_type ty = true ->
  let e := Ev_Wrote (make_message ty body) in
  pointers (log ++ [e]) = pointers log + 1 /\ motion_acks (log ++ [e]) = motion_acks log /\
  codes (log ++ [e]) = codes log /\ outcomes (log ++ [e]) = outcomes log.
Proof.
  intros Hty Hp e. unfold codes, outcomes. rewrite pointers_snoc, motion_acks_snoc, !omap_snoc.
  unfold e, is_pointer, key_code. rewrite written_message by done.
  assert ((ty =? inputs_client_KEY_DOWN) || (ty =? inputs_client_KEY_UP) = false) as ->.
  { unfold pointer_type, inputs_client_MOUSE_POSITION, inputs_client_MOUSE_MOTION,
      inputs_client_KEY_DOWN, inputs_client_KEY_UP in *. lia. }
  unfold pointer_type in *. rewrite Hp. cbn. by rewrite !app_nil_r, !Z.add_0_r.
Qed.

Lemma wrote_key log ty code : key_type ty = true -> u32 code ->
  let e := Ev_Wrote (make_message ty (write (mkKeyEvent code) [])) in
  pointers (log ++ [e]) = pointers log /\ motion_acks (log ++ [e]) = motion_acks log /\
  codes (log ++ [e]) = codes log ++ [code] /\ outcomes (log ++ [e]) = outcomes log.
Proof.
  intros Hk Hc e. assert (u16 ty) as Hty
    by (unfold key_type, inputs_client_KEY_DOWN, inputs_client_KEY_UP, in_unsigned in *; lia).
  unfold codes, outcomes. rewrite pointers_snoc, motion_acks_snoc, !omap_snoc. unfold e.
  rewrite key_event_code by done. unfold is_pointer. rewrite written_message by done.
  assert ((ty =? inputs_client_MOUSE_POSITION) || (ty =? inputs_client_MOUSE_MOTION) = false) as ->.
  { unfold key_type, inputs_client_MOUSE_POSITION, inputs_client_MOUSE_MOTION,
      inputs_client_KEY_DOWN, inputs_client_KEY_UP in *. lia. }
  cbn. by rewrite !app_nil_r, !Z.add_0_r.
Qed.

Lemma rt_sent_note t self : rt_sent (note_sent t self) = rt_sent self + 1.
Proof. unfold note_sent. by destruct (_ =? 0). Qed.

(** Writing anything but an ack leaves the window's facts. *)
Lemma facts_wrote m recent log ty body t :
  u16 ty -> facts m recent log -> facts (sent_motion ty t m) recent (log ++ [Ev_Wrote (make_message ty body)]).
Proof.
  intros Hty []. set (e := Ev_Wrote (make_message ty body)).
  assert (pointers (log ++ [e]) = pointers log + flag (pointer_type ty) /\
    motion_acks (log ++ [e]) = motion_acks log) as [E1 E2].
  { rewrite pointers_snoc, motion_acks_snoc. unfold e, is_pointer. rewrite written_message by done.
    split; [done|]. cbn. lia. }
  assert (mo_count (sent_motion ty t m) = mo_count m) as Hc by (unfold sent_motion; by destruct (pointer_type ty)).
  split; rewrite ?Hc; try done.
  - intros [Hl _]%honest_snoc. specialize (f_window0 Hl). unfold unanswered in *. rewrite E1, E2.
    unfold flag. destruct (pointer_type ty); lia.
  - rewrite E1. unfold sent_motion. destruct (pointer_type ty); cbn [flag mo_round_trip mo_set_round_trip];
      [rewrite rt_sent_note|]; lia.
Qed.

(** * Keeping the invariant *)

Section Keeps.
Context (env : Env).

(** What a failure leaves: anything the invariant implies, or nothing when no
    write can fail. *)
Context (R : InputsChannel -> Prop).
Context (HR : writes_ok env \/ forall d s, inputs_inv d s -> R s).

Abbreviation holds m := (keeps inputs_inv R m).

Lemma keep_bind {A C} (m : Ic A) (k : A -> Ic C) :
  holds m -> (forall a, holds (k a)) -> holds (bind m k).
Proof. apply keeps_bind. Qed.

Lemma holds_turn {A} (f : nat -> A) : holds (ask f).
Proof. by apply keeps_ask. Qed.

Lemma keep_log e : quiet e = true -> holds (log_event e).
Proof. intros He d s Hs. by apply inv_quiet. Qed.

(** A change of the state that no part of the invariant reads. *)
Definition unseen (f : InputsChannel -> InputsChannel) : Prop :=
  forall s, ic_motion (f s) = ic_motion s /\ ic_recent_events (f s) = ic_recent_events s /\
    ic_log (f s) = ic_log s /\ ic_paste_state (f s) = ic_paste_state s /\ ic_held (f s) = ic_held s /\
    ic_buffer (f s) = ic_buffer s.

Lemma unseen_inv f d s : unseen f -> inputs_inv d s -> inputs_inv d (f s).
Proof.
  intros Hf. unfold inputs_inv. destruct (Hf s) as (-> & -> & -> & -> & -> & ->). done.
Qed.

Lemma unseen_inv_buffer f d s : (forall s, ic_motion (f s) = ic_motion s /\
    ic_recent_events (f s) = ic_recent_events s /\ ic_log (f s) = ic_log s /\
    ic_paste_state (f s) = ic_paste_state s /\ ic_held (f s) = ic_held s) ->
  inputs_inv (with_buffer (ic_buffer s) d) s -> inputs_inv (with_buffer (ic_buffer (f s)) d) (f s).
Proof.
  intros Hf (Ha & Hb & Hc & Hd & He & _). unfold inputs_inv. destruct (Hf s) as (-> & -> & -> & -> & ->).
  by split_and!.
Qed.

Lemma holds_unseen f : unseen f -> holds (modify f).
Proof. intros Hf. apply keeps_modify. intros d s. by apply unseen_inv. Qed.

Lemma holds_count f : holds (count_opcodes f).
Proof. by apply holds_unseen. Qed.

Lemma resent_inv d s m totals turn log :
  facts m (ic_recent_events s) log -> codes log = ty_codes d -> outcomes log = ty_outcomes d ->
  inputs_inv d s -> inputs_inv d (resent s m totals turn log).
Proof. intros Hf Hc Ho (_ & _ & Hp & Hh & _ & Hb). by split_and!. Qed.

Lemma send_failed d s ty data totals turn : ~ writes_ok env -> inputs_inv d s ->
  R (resent s (ic_motion s) totals turn (ic_log s ++ [Ev_Sent ty data])).
Proof.
  intros HW Hs. destruct HR as [?|HR']; [done|]. apply (HR' d).
  apply (inv_quiet d s (Ev_Sent ty data) eq_refl) in Hs as (Hf & Hc & Hp & Hh & Ho & Hb).
  by split_and!.
Qed.

Lemma keep_send {T} `{WireType T} ty (body : T) : u16 ty -> key_type ty = false ->
  holds (send_body env ty body).
Proof.
  intros Hty Hk d s Hs. unfold send_body. set (data := make_message ty (write body [])).
  destruct (inputs_send_run env ty data s) as (totals & turn & t & [->|[HW ->]]);
    [|by apply (send_failed d)].
  pose proof (inv_quiet d s (Ev_Sent ty data) eq_refl Hs) as (Hf & Hc & _ & _ & Ho & _).
  cbn [ic_on_log ic_log ic_motion ic_recent_events] in *.
  assert (codes ((ic_log s ++ [Ev_Sent ty data]) ++ [Ev_Wrote data]) = codes (ic_log s ++ [Ev_Sent ty data]) /\
    outcomes ((ic_log s ++ [Ev_Sent ty data]) ++ [Ev_Wrote data]) = outcomes (ic_log s ++ [Ev_Sent ty data]))
    as [E3 E4].
  { destruct (pointer_type ty) eqn:Hp;
      [by destruct (wrote_pointer (ic_log s ++ [Ev_Sent ty data]) ty (write body []) Hty Hp) as (_ & _ & ? & ?)|].
    by destruct (wrote_plain (ic_log s ++ [Ev_Sent ty data]) ty (write body []) Hty Hp Hk) as (_ & _ & ? & ?). }
  apply resent_inv; [by apply facts_wrote|by rewrite E3|by rewrite E4|done].
Qed.

Lemma triple_send_key ty code d : key_type ty = true -> u32 code ->
  triple (inputs_inv d) (send_body env ty (mkKeyEvent code)) (fun _ => inputs_inv (push_code code d)) R.
Proof.
  intros Hk Hcode s Hs. unfold send_body. set (data := make_message ty (write (mkKeyEvent code) [])).
  assert (u16 ty) as Hty
    by (unfold key_type, inputs_client_KEY_DOWN, inputs_client_KEY_UP, in_unsigned in *; lia).
  destruct (inputs_send_run env ty data s) as (totals & turn & t & [->|[HW ->]]);
    [|by apply (send_failed d)].
  pose proof (inv_quiet d s (Ev_Sent ty data) eq_refl Hs) as (Hf & Hc & Hp & Hh & Ho & Hb).
  cbn [ic_on_log ic_log ic_motion ic_recent_events ic_paste_state ic_held ic_buffer] in *.
  destruct (wrote_key (ic_log s ++ [Ev_Sent ty data]) ty code Hk Hcode) as (_ & _ & E3 & E4).
  split; [by apply facts_wrote|]. cbn [resent ic_log ic_paste_state ic_held ic_buffer push_codes ty_codes ty_paste ty_held ty_outcomes ty_buffer].
  fold data in E3, E4. by rewrite E3, E4, Hc, Ho.
Qed.

Lemma triple_key_down code d : u32 code ->
  triple (inputs_inv d) (send_key_down env code) (fun _ => inputs_inv (push_code code d)) R.
Proof. by apply triple_send_key. Qed.

Lemma triple_key_up code d : u32 code ->
  triple (inputs_inv d) (send_key_up env code) (fun _ => inputs_inv (push_code code d)) R.
Proof. by apply triple_send_key. Qed.

(** ** The pointer *)

Lemma record_event_run event s : zlen (ic_recent_events s) <= MAX_RECENT_EVENTS ->
  exists recent, record_event event s = (Ok tt, ic_set_recent_events recent s) /\
    zlen recent <= MAX_RECENT_EVENTS.
Proof.
  intros Hr. unfold record_event. rewrite (bind_ok (gets _) _ _ _ _ eq_refl).
  eexists. split; [reflexivity|]. unfold push.
  destruct (Z.ltb_spec MAX_RECENT_EVENTS (zlen (ic_recent_events s ++ [event]))) as [Hlt|Hge]; [|done].
  rewrite zlen_app in Hlt. change (zlen [event]) with 1 in Hlt.
  destruct (ic_recent_events s) as [|x l]; [done|]. cbn [app tail].
  rewrite zlen_cons in *. rewrite zlen_app. change (zlen [event]) with 1. lia.
Qed.

Lemma set_recent_inv d s recent : zlen recent <= MAX_RECENT_EVENTS -> inputs_inv d s ->
  inputs_inv d (ic_set_recent_events recent s).
Proof. intros Hr ([] & H). split; [by split|done]. Qed.

Lemma holds_record event : holds (record_event event).
Proof.
  intros d s Hs. destruct Hs as [Hf Hd]. destruct (record_event_run event s (f_recent _ _ _ Hf)) as (r & -> & Hr).
  by apply set_recent_inv.
Qed.

Lemma holds_wedge f : holds (modify (ic_on_motion (fun m => mo_set_wedge (f m) m))).
Proof. apply keeps_modify. intros d s ([] & H). split; [by split|done]. Qed.

(** A pointer message sent with room in the window. *)
Lemma triple_pointer {T} `{WireType T} ty (body : T) d : u16 ty -> pointer_type ty = true ->
  triple (fun s => inputs_inv d s /\ mo_count (ic_motion s) < MOTION_ACK_BUNCH * 2)
    (do? send_body env ty body in
     modify (ic_on_motion (fun m => mo_set_count (mo_count m + 1) m)))
    (fun _ => inputs_inv d) R.
Proof.
  intros Hty Hp s [Hs Hroom]. unfold send_body. set (data := make_message ty (write body [])).
  destruct (inputs_send_run env ty data s) as (totals & turn & t & [E|[HW E]]);
    [rewrite (bind_ok _ _ _ _ _ E)|rewrite (bind_err _ _ _ _ _ E); by apply (send_failed d)].
  pose proof (inv_quiet d s (Ev_Sent ty data) eq_refl Hs) as (Hf & Hc & Hpa & Hh & Ho & Hb).
  cbn [ic_on_log ic_log ic_motion ic_recent_events ic_paste_state ic_held ic_buffer] in *.
  destruct (wrote_pointer (ic_log s ++ [Ev_Sent ty data]) ty (write body []) Hty Hp) as (E1 & E2 & E3 & E4).
  fold data in E1, E2, E3, E4. pose proof (facts_wrote _ _ _ ty (write body []) t Hty Hf) as Hf'. fold data in Hf'.
  set (log' := (ic_log s ++ [Ev_Sent ty data]) ++ [Ev_Wrote data]) in *.
  assert (mo_count (sent_motion ty t (ic_motion s)) = mo_count (ic_motion s)) as Hcount
    by (unfold sent_motion; by rewrite Hp).
  destruct Hf as [H0 Hw _ _]. destruct Hf' as [_ _ Hsent Hrecent].
  split; [split|change (codes log' = ty_codes d /\ ic_paste_state s = ty_paste d /\ ic_held s = ty_held d /\
    outcomes log' = ty_outcomes d /\ ic_buffer s = ty_buffer d); by rewrite E3, E4].
  - cbn. rewrite Hcount. lia.
  - intros [Hl _]%honest_snoc. specialize (Hw Hl). cbn. rewrite Hcount. fold log'.
    unfold unanswered in *. rewrite E1, E2. lia.
  - exact Hsent.
  - exact Hrecent.
Qed.

Lemma holds_gets_then {A C} (f : InputsChannel -> A) (k : A -> Ic C) :
  (forall d s, inputs_inv d s -> triple (fun s' => s' = s) (k (f s)) (fun _ => inputs_inv d) R) ->
  holds (bind (gets f) k).
Proof. intros Hk d s Hs. rewrite (bind_ok (gets f) k s _ _ eq_refl). by apply (Hk d s Hs). Qed.

Lemma holds_mouse_move x y ts : holds (handle_mouse_move env x y ts).
Proof.
  apply holds_gets_then. intros d s Hs s' ->.
  destruct (Z.ltb_spec (mo_count (ic_motion s)) (MOTION_ACK_BUNCH * 2)) as [Hroom|_]; [|by apply holds_wedge].
  rewrite (bind_ok (gets _) _ _ _ _ eq_refl).
  destruct (record_event_run (mkInputEventRecord "MouseMove" 0 x y (ic_button_state s) ts) s
    (f_recent _ _ _ (proj1 Hs))) as (r & E & Hr). rewrite (bind_ok _ _ _ _ _ E).
  apply triple_pointer; [done|done|]. split; [by apply set_recent_inv|done].
Qed.

Lemma holds_mouse_motion dx dy ts : holds (handle_mouse_motion env dx dy ts).
Proof.
  apply holds_gets_then. intros d s Hs s' ->.
  destruct (Z.ltb_spec (mo_count (ic_motion s)) (MOTION_ACK_BUNCH * 2)) as [Hroom|_]; [|by apply holds_wedge].
  rewrite (bind_ok (gets _) _ _ _ _ eq_refl).
  match goal with |- context [record_event ?e] =>
    destruct (record_event_run e s (f_recent _ _ _ (proj1 Hs))) as (r & E & Hr) end.
  rewrite (bind_ok _ _ _ _ _ E).
  apply triple_pointer; [done|done|]. split; [by apply set_recent_inv|done].
Qed.

Lemma holds_position x y : holds (send_position env x y).
Proof. apply keep_bind; [apply keeps_gets|intros b]. by apply keep_send. Qed.

Lemma holds_mouse_down button x y ts : holds (handle_mouse_down env button x y ts).
Proof.
  apply keep_bind; [apply holds_position|intros _]. apply keep_bind; [by apply holds_unseen|intros _].
  apply keep_bind; [apply holds_record|intros _]. apply keep_bind; [apply keeps_gets|intros b].
  by apply keep_send.
Qed.

Lemma holds_mouse_up button x y ts : holds (handle_mouse_up env button x y ts).
Proof.
  apply keep_bind; [by apply holds_unseen|intros _]. apply keep_bind; [apply holds_position|intros _].
  apply keep_bind; [apply holds_record|intros _]. apply keep_bind; [apply keeps_gets|intros b].
  by apply keep_send.
Qed.

Definition pointer_event (event : InputEvent) : bool :=
  match event with
  | MouseMove _ _ | MouseMotionEvent _ _ | MouseDown _ _ _ | MouseUp _ _ _ => true
  | _ => false
  end.

Lemma holds_key_modifiers modifiers ts : holds (handle_key_modifiers env modifiers ts).
Proof. apply keep_bind; [apply holds_record|intros _]. by apply keep_send. Qed.

Lemma holds_pointer_event event : pointer_event event = true -> holds (handle_input_event env event).
Proof.
  intros He. apply keep_bind; [apply holds_turn|intros ts]. destruct event; try done.
  - apply holds_mouse_move.
  - apply holds_mouse_motion.
  - apply holds_mouse_down.
  - apply holds_mouse_up.
Qed.

(** ** Messages *)

Section Messages.
Context (IR : forall d s, inputs_inv d s -> R s).

Lemma keep_try_decode {T} `{WireLaws T} payload : bytes payload -> zlen payload <= isize_max ->
  holds (try_decode (S := InputsChannel) (T := T) payload).
Proof.
  intros Hb Hl. unfold try_decode. pose proof (laws_never_panics (T := T) payload Hb Hl) as Hp.
  destruct (decode payload); [apply keeps_ret|apply keeps_ret|done].
Qed.

Lemma holds_must_decode {T} `{WireLaws T} ty payload : bytes payload -> zlen payload <= isize_max ->
  holds (must_decode (S := InputsChannel) (T := T) ty payload).
Proof.
  intros Hb Hl. unfold must_decode. pose proof (laws_never_panics (T := T) payload Hb Hl) as Hp.
  destruct (decode payload); [apply keeps_ret|by apply keeps_throw|done].
Qed.

Lemma holds_emit e : quiet (Ev_Emit e) = true -> holds (emit e).
Proof. apply keep_log. Qed.

Lemma holds_server_message ty payload : bytes payload -> zlen payload <= isize_max ->
  ty <> inputs_server_MOUSE_MOTION_ACK -> holds (handle_server_message env ty payload).
Proof.
  intros Hb Hl Hne. apply keep_bind; [apply holds_count|intros _].
  destruct (_ =? _); [apply keep_bind; [by apply keep_try_decode|intros _; apply keeps_ret]|].
  destruct (_ =? _); [apply keep_bind; [by apply keep_try_decode|intros _; apply keeps_ret]|].
  rewrite (proj2 (Z.eqb_neq _ _) Hne). destruct (_ =? _).
  { apply keep_bind; [by apply holds_must_decode|intros ack]. by apply keep_send. }
  destruct (_ =? _).
  { apply keep_bind; [by apply holds_unseen|intros _]. apply keep_bind; [apply holds_turn|intros ts].
    apply keep_bind; [by apply holds_unseen|intros _].
    apply keep_bind; [by apply holds_must_decode|intros ping].
    apply keep_bind; [by apply keep_send|intros _]. by apply holds_unseen. }
  destruct (_ =? _); [|apply holds_count].
  apply keep_bind; [by apply holds_must_decode|intros n]. by apply holds_emit.
Qed.

Lemma round_trip_sent t self : rt_sent (snd (round_trip_note_ack t self)) = rt_sent self.
Proof.
  unfold round_trip_note_ack. destruct (_ <=? _); [done|].
  destruct (drop_answered _ _) as [|[n t'] l]; [done|]. by destruct (_ =? _).
Qed.

Lemma triple_motion_ack payload d :
  triple (fun s => exists s0, inputs_inv d s0 /\ s = heard inputs_server_MOUSE_MOTION_ACK payload s0)
    (handle_motion_ack env) (fun _ => inputs_inv d) R.
Proof.
  intros s (s0 & (Hf & Hd) & ->). unfold handle_motion_ack.
  rewrite (bind_ok (modify _) _ _ _ _ eq_refl), (bind_ok (instant_now env) _ _ _ _ eq_refl).
  rewrite (bind_ok (gets _) _ _ _ _ eq_refl).
  match goal with |- context [round_trip_note_ack ?t ?rt] =>
    pose proof (round_trip_sent t rt) as Hsent; destruct (round_trip_note_ack t rt) as [rtt rt'] end.
  rewrite (bind_ok (modify _) _ _ _ _ eq_refl).
  assert (holds (match rtt with
    | Some rtt => do? modify (ic_on_motion (mo_set_last (Some rtt))) in emit (CE_InputRoundTrip rtt)
    | None => ret tt end)) as Hrest.
  { destruct rtt; [|apply keeps_ret]. apply keep_bind; [|intros _; by apply holds_emit].
    apply keeps_modify. intros d' s' ([] & H). split; [by split|done]. }
  apply Hrest. cbn [snd] in Hsent. destruct Hf as [Hc Hw Hs Hr].
  set (e := Ev_Received inputs_server_MOUSE_MOTION_ACK payload).
  assert (pointers (ic_log s0 ++ [e]) = pointers (ic_log s0) /\
    motion_acks (ic_log s0 ++ [e]) = motion_acks (ic_log s0) + 1 /\
    codes (ic_log s0 ++ [e]) = codes (ic_log s0) /\ outcomes (ic_log s0 ++ [e]) = outcomes (ic_log s0))
    as (E1 & E2 & E3 & E4).
  { unfold codes, outcomes. rewrite pointers_snoc, motion_acks_snoc, !omap_snoc. cbn.
    by rewrite !app_nil_r, !Z.add_0_r. }
  destruct Hd as (Hcodes & Hp & Hh & Ho & Hb).
  split; [split|change (codes (ic_log s0 ++ [e]) = ty_codes d /\ ic_paste_state s0 = ty_paste d /\
    ic_held s0 = ty_held d /\ outcomes (ic_log s0 ++ [e]) = ty_outcomes d /\ ic_buffer s0 = ty_buffer d);
    by rewrite E3, E4].
  - cbn. unfold saturating_sub, MOTION_ACK_BUNCH in *. lia.
  - intros [Hl Hpos]%honest_snoc. specialize (Hw Hl). cbn. fold e.
    fold e in Hpos.
    unfold saturating_sub, unanswered, MOTION_ACK_BUNCH in *. rewrite E1, E2 in Hpos |- *. lia.
  - change (rt_sent rt' = pointers (ic_log s0 ++ [e])). rewrite E1, Hsent. exact Hs.
  - exact Hr.
Qed.

(** ** Turns: the buffer is the reading's own. *)

Definition idle (d : Typing) : InputsChannel -> Prop :=
  buffered (fun s => inputs_inv (with_buffer (ic_buffer s) d) s).

Lemma triple_server_message d b ty payload : rb_ok b -> bytes payload -> zlen payload <= isize_max ->
  triple (fun s => exists s0, inputs_inv (with_buffer (ic_buffer s0) d) s0 /\ ch_buffer s0 = b /\
      s = heard ty payload s0)
    (handle_server_message env ty payload)
    (fun _ s => inputs_inv (with_buffer (ic_buffer s) d) s /\ ch_buffer s = b) R.
Proof.
  intros Hbuf Hb Hl.
  eapply (triple_conseq _ (fun s => exists s0, inputs_inv (with_buffer b d) s0 /\ s = heard ty payload s0)
    _ _ (fun _ => inputs_inv (with_buffer b d)) R R);
    [|by intros s (s0 & Hs0 & <- & ->); exists s0| |done].
  2: { intros _ s Hs. pose proof Hs as (_ & _ & _ & _ & _ & E). cbn in E. by rewrite E. }
  destruct (decide (ty = inputs_server_MOUSE_MOTION_ACK)) as [->|Hne].
  - intros s Hs. unfold handle_server_message. rewrite (bind_ok (count_opcodes _) _ _ _ _ eq_refl).
    apply (triple_motion_ack payload). destruct Hs as (s0 & Hs0 & ->).
    exists (ch_on_totals (fun t => mkTotals (to_bytes_in t) (to_bytes_out t) (to_capture_dropped t)
      (to_last_recv_ts t) (to_last_send_ts t)
      (record_recv inputs_server_named inputs_server_MOUSE_MOTION_ACK (to_opcodes t))) s0).
    split; [|done]. by apply (unseen_inv (ch_on_totals _)).
  - eapply triple_pre; [by apply holds_server_message|]. intros s (s0 & Hs0 & ->).
    apply (inv_quiet _ s0 (Ev_Received ty payload)); [|done].
    cbn. by apply negb_true_iff, Z.eqb_neq.
Qed.

Lemma idle_read d chunk : bytes chunk ->
  triple (idle d) (take_read env (handle_server_message env) chunk) (fun _ => idle d) R.
Proof.
  intros Hb. apply triple_take_read; [| | |by intros s; apply IR|apply triple_server_message|done].
  - intros f s. by apply (unseen_inv_buffer (ch_on_buffer f)).
  - intros f s. by apply (unseen_inv (ch_on_totals f)).
  - intros s. by apply (unseen_inv (ch_on_turn S)).
Qed.

End Messages.

(** An operation that leaves the buffer alone keeps a channel idle. *)
Lemma idle_triple {A} (m : Ic A) d (f : Typing -> Typing) :
  (forall b d, ty_buffer (f (with_buffer b d)) = b /\ f (with_buffer b d) = with_buffer b (f d)) ->
  (forall d, triple (inputs_inv d) m (fun _ => inputs_inv (f d)) R) ->
  triple (idle d) m (fun _ => idle (f d)) R.
Proof.
  intros Hf Hm s [Hb Hs]. specialize (Hm _ s Hs). destruct (m s) as [[a|e|] s']; [|done|done].
  destruct (Hf (ic_buffer s) d) as [E1 E2]. pose proof Hm as (_ & _ & _ & _ & _ & E). rewrite E1 in E.
  split; [change (rb_ok (ic_buffer s')); by rewrite E|]. rewrite E. by rewrite <- E2.
Qed.

Lemma idle_inputs {A} (m : Ic A) d : holds m -> triple (idle d) m (fun _ => idle d) R.
Proof. intros Hm. by apply (idle_triple m d id). Qed.

(** ** Keys *)

Lemma push_codes_app cs cs' d : push_codes cs' (push_codes cs d) = push_codes (cs ++ cs') d.
Proof. unfold push_codes. cbn. by rewrite app_assoc. Qed.

Lemma triple_set_paste p d :
  triple (inputs_inv d) (modify (ic_set_paste_state p)) (fun _ => inputs_inv (with_paste p d)) R.
Proof. intros s (? & ? & ? & ? & ? & ?). by split_and!. Qed.

Lemma triple_held f d :
  triple (inputs_inv d) (modify (ic_on_held f)) (fun _ => inputs_inv (with_held (f (ty_held d)) d)) R.
Proof. intros s (? & ? & ? & Hh & ? & ?). split_and!; try done. cbn. by rewrite Hh. Qed.

Lemma triple_outcome e d : paste_outcome (Ev_Emit e) = Some e ->
  triple (inputs_inv d) (emit e) (fun _ => inputs_inv (add_outcome e d)) R.
Proof.
  intros He s (Hf & Hc & Hp & Hh & Ho & Hb).
  assert (forall log, pointers (log ++ [Ev_Emit e]) = pointers log /\
    motion_acks (log ++ [Ev_Emit e]) = motion_acks log) as Hm.
  { intros log. rewrite pointers_snoc, motion_acks_snoc. cbn. lia. }
  destruct (Hm (ic_log s)) as [E1 E2]. split_and!; try done; cbn.
  - destruct Hf. split; [done| |by rewrite E1|done]. intros [Hl _]%honest_snoc.
    unfold unanswered. rewrite E1, E2. by apply f_window0.
  - unfold codes. rewrite omap_snoc. cbn. by rewrite app_nil_r.
  - unfold outcomes. rewrite omap_snoc, He. f_equal. exact Ho.
Qed.

(** One key event and what it leaves held. *)
Lemma triple_key_held (m : Ic unit) code f d :
  (forall d, triple (inputs_inv d) m (fun _ => inputs_inv (push_code code d)) R) ->
  triple (inputs_inv d) (do? m in modify (ic_on_held f))
    (fun _ => inputs_inv (with_held (f (ty_held d)) (push_code code d))) R.
Proof. intros Hm. eapply triple_bind; [apply Hm|intros ?]. apply (triple_held f (push_code code d)). Qed.

Definition release_all (h : Held) : list Z :=
  (if he_ctrl h then [0x9D] else []) ++ (if he_shift h then [0xAA] else []) ++
  (if he_alt h then [0xB8] else []).
Definition press_all (h : Held) : list Z :=
  (if he_ctrl h then [0x1D] else []) ++ (if he_shift h then [0x2A] else []) ++
  (if he_alt h then [0x38] else []).

Definition held_none : Held := mkHeld false false false.

Definition step_if (b : bool) (f : Typing -> Typing) (d : Typing) : Typing := if b then f d else d.

Lemma triple_when b (m : Ic unit) f d :
  (forall d, triple (inputs_inv d) m (fun _ => inputs_inv (f d)) R) ->
  triple (inputs_inv d) (when b m) (fun _ => inputs_inv (step_if b f d)) R.
Proof. intros H. destruct b; [apply H|by apply triple_ret]. Qed.

(** Three optional steps after each other. *)
Lemma triple_when3 (b1 b2 b3 : bool) (m1 m2 m3 : Ic unit) (f1 f2 f3 : Typing -> Typing) d :
  (forall d, triple (inputs_inv d) m1 (fun _ => inputs_inv (f1 d)) R) ->
  (forall d, triple (inputs_inv d) m2 (fun _ => inputs_inv (f2 d)) R) ->
  (forall d, triple (inputs_inv d) m3 (fun _ => inputs_inv (f3 d)) R) ->
  triple (inputs_inv d) (do? when b1 m1 in do? when b2 m2 in when b3 m3)
    (fun _ => inputs_inv (step_if b3 f3 (step_if b2 f2 (step_if b1 f1 d)))) R.
Proof.
  intros H1 H2 H3. eapply triple_bind; [by apply triple_when|intros ?].
  eapply triple_bind; [by apply triple_when|intros ?]. by apply triple_when.
Qed.

Lemma triple_release_held d :
  triple (inputs_inv d) (release_held env)
    (fun _ => inputs_inv (with_held held_none (push_codes (release_all (ty_held d)) d))) R.
Proof.
  intros s Hs. unfold release_held. rewrite (bind_ok (gets _) _ _ _ _ eq_refl).
  assert (ic_held s = ty_held d) as -> by apply Hs.
  assert (u32 0x9D /\ u32 0xAA /\ u32 0xB8) as (H1 & H2 & H3) by done.
  pose proof (triple_when3 (he_ctrl (ty_held d)) (he_shift (ty_held d)) (he_alt (ty_held d)) _ _ _ _ _ _ d
    (fun d => triple_key_held _ 0x9D (set_ctrl false) d (fun d => triple_key_up 0x9D d H1))
    (fun d => triple_key_held _ 0xAA (set_shift false) d (fun d => triple_key_up 0xAA d H2))
    (fun d => triple_key_held _ 0xB8 (set_alt false) d (fun d => triple_key_up 0xB8 d H3)) s Hs) as H.
  match type of H with match ?x with _ => _ end => destruct x as [[[]|e|] s'] end; [|done|done].
  revert H. unfold with_held, push_codes, release_all, held_none. destruct d as [b cs p [[] [] []] o]; cbn;
    by rewrite ?app_nil_r, <- ?app_assoc.
Qed.

(** The modifiers down after a paste: those saved, and those still down. *)
Definition restored (state : PasteState) (h : Held) : Held :=
  mkHeld (ps_saved_ctrl state || he_ctrl h) (ps_saved_shift state || he_shift h)
    (ps_saved_alt state || he_alt h).
Definition saved (state : PasteState) : Held :=
  mkHeld (ps_saved_ctrl state) (ps_saved_shift state) (ps_saved_alt state).

Lemma triple_restore state d :
  triple (inputs_inv d) (restore_modifiers env state)
    (fun _ => inputs_inv (with_held (restored state (ty_held d)) (push_codes (press_all (saved state)) d))) R.
Proof.
  intros s Hs. unfold restore_modifiers.
  assert (u32 0x1D /\ u32 0x2A /\ u32 0x38) as (H1 & H2 & H3) by done.
  pose proof (triple_when3 (ps_saved_ctrl state) (ps_saved_shift state) (ps_saved_alt state) _ _ _ _ _ _ d
    (fun d => triple_key_held _ 0x1D (set_ctrl true) d (fun d => triple_key_down 0x1D d H1))
    (fun d => triple_key_held _ 0x2A (set_shift true) d (fun d => triple_key_down 0x2A d H2))
    (fun d => triple_key_held _ 0x38 (set_alt true) d (fun d => triple_key_down 0x38 d H3)) s Hs) as H.
  match type of H with match ?x with _ => _ end => destruct x as [[[]|e|] s'] end; [|done|done].
  revert H. unfold with_held, push_codes, press_all, saved, restored.
  destruct d as [b cs p [] o], state as [? ? ? ? ? ? [] [] [] ? ?]; cbn; by rewrite ?app_nil_r, <- ?app_assoc.
Qed.

(** ** Pastes *)

Definition key_ok (key : PasteKey) : Prop := u32 (pk_press key) /\ u32 (pk_release key).

(** The state a paste starts in. *)
Definition paste_start (keys : list PasteKey) (char_delay_ms start : Z) (h : Held)
    (request_id : option RequestId) (cancel : bool) : PasteState :=
  mkPasteState keys 0 Press (char_delay_ms * 1000000 / 2) start start
    (he_ctrl h) (he_shift h) (he_alt h) request_id cancel.

Definition cut_text (text : list Z) : list Z :=
  if PASTE_MAX_CHARS <? zlen text then take (Z.to_nat PASTE_MAX_CHARS) text else text.

Lemma triple_paste_text text delay rid cancel keys d :
  ty_paste d = None -> translate_paste (cut_text text) = Ok keys -> keys <> [] ->
  triple (fun s => inputs_inv d s /\ ic_enable_paste s = true)
    (handle_paste_text env text delay rid cancel)
    (fun _ s => exists t, inputs_inv (with_paste (Some (paste_start keys delay t (ty_held d) rid cancel))
       (with_held held_none (push_codes (release_all (ty_held d)) d))) s) R.
Proof.
  intros Hp Ht Hk s [Hs He]. unfold handle_paste_text. rewrite (bind_ok (gets _) _ _ _ _ eq_refl). cbn [id].
  pose proof Hs as (_ & _ & Hps & Hh & _ & _).
  rewrite He, Hps, Hp. cbn [negb]. rewrite bool_decide_eq_false_2 by (by intros [? [=]]).
  fold (cut_text text). rewrite Ht. destruct keys as [|key keys]; [done|].
  unfold bind at 1. pose proof (triple_release_held d s Hs) as H.
  destruct (release_held env s) as [[[]|e|] s1]; [|done|done].
  rewrite (bind_ok (instant_now env) _ _ _ _ eq_refl). rewrite Hh.
  exists (env_instant env (ic_turn s1)).
  apply (triple_set_paste _ _ (ch_on_turn S s1)). by apply (unseen_inv (ch_on_turn S)).
Qed.

Lemma triple_codes_when b code (m : Ic unit) d :
  (forall d, triple (inputs_inv d) m (fun _ => inputs_inv (push_code code d)) R) ->
  triple (inputs_inv d) (when b m) (fun _ => inputs_inv (push_codes (if b then [code] else []) d)) R.
Proof.
  intros Hm. destruct b; [apply Hm|]. apply triple_ret. intros s.
  unfold push_codes. rewrite app_nil_r. by destruct d.
Qed.

Lemma triple_schedule sub p d :
  triple (inputs_inv d) (schedule env sub p)
    (fun _ s => exists t, inputs_inv (with_paste (Some (ps_schedule sub t p)) d) s) R.
Proof.
  intros s Hs. unfold schedule. rewrite (bind_ok (instant_now env) _ _ _ _ eq_refl).
  eexists. apply (triple_set_paste _ d (ch_on_turn S s)). by apply (unseen_inv (ch_on_turn S)).
Qed.

Lemma triple_paste_press key p d : key_ok key -> ty_paste d = Some p ->
  triple (inputs_inv d) (paste_press env key)
    (fun _ s => exists t, inputs_inv (with_paste (Some (ps_schedule Release t p))
       (push_codes (press_codes key) d)) s) R.
Proof.
  intros [Hk _] Hp. unfold paste_press. eapply triple_bind.
  { apply (triple_codes_when _ 0x2A). intros d'. by apply triple_key_down. }
  intros ?. eapply triple_bind; [by apply triple_key_down|]. intros ? s Hs. rewrite push_codes_app in Hs.
  rewrite (bind_ok (gets _) _ _ _ _ eq_refl). pose proof Hs as (_ & _ & Hps & _). rewrite Hps.
  cbn [push_codes ty_paste]. rewrite Hp. by apply triple_schedule.
Qed.

Lemma triple_paste_complete p d :
  triple (inputs_inv d) (paste_complete env p)
    (fun _ s => exists ms, inputs_inv (add_outcome (CE_PasteCompleted (zlen (ps_keys p)) ms (ps_request_id p))
       (with_held (restored p (ty_held d)) (push_codes (press_all (saved p)) (with_paste None d)))) s) R.
Proof.
  intros s Hs. unfold paste_complete. rewrite (bind_ok (instant_now env) _ _ _ _ eq_refl). cbv zeta.
  match goal with |- context [CE_PasteCompleted _ ?e _] => set (ms := e) end.
  apply (unseen_inv (ch_on_turn S)) in Hs; [|done].
  assert (triple (inputs_inv d)
    (do? modify (ic_set_paste_state None) in do? restore_modifiers env p in
     emit (CE_PasteCompleted (zlen (ps_keys p)) ms (ps_request_id p)))
    (fun _ => inputs_inv (add_outcome (CE_PasteCompleted (zlen (ps_keys p)) ms (ps_request_id p))
       (with_held (restored p (ty_held d)) (push_codes (press_all (saved p)) (with_paste None d))))) R) as H.
  { eapply triple_bind; [apply triple_set_paste|intros ?].
    eapply triple_bind; [apply triple_restore|intros ?]. by apply triple_outcome. }
  specialize (H _ Hs). cbn [ch_on_turn InputsChannel_state] in *.
  destruct (bind _ _ _) as [[[]|e|] s']; [by exists ms|done|done].
Qed.

Lemma triple_paste_release key p d : key_ok key -> ty_paste d = Some p ->
  triple (inputs_inv d) (paste_release env key)
    (fun _ s => let d1 := push_codes (release_codes key) d in
      if zlen (ps_keys p) <=? ps_index p + 1 then
        exists ms, inputs_inv (add_outcome (CE_PasteCompleted (zlen (ps_keys p)) ms (ps_request_id p))
          (with_held (restored p (ty_held d)) (push_codes (press_all (saved p)) (with_paste None d1)))) s
      else exists t, inputs_inv (with_paste (Some (ps_schedule Press t (ps_set_index (ps_index p + 1) p))) d1) s) R.
Proof.
  intros [_ Hk] Hp. unfold paste_release. eapply triple_bind; [by apply triple_key_up|].
  intros ?. eapply triple_bind.
  { apply (triple_codes_when _ 0xAA). intros d'. by apply triple_key_up. }
  intros ? s Hs. rewrite push_codes_app in Hs. change ([pk_release key] ++ _) with (release_codes key) in Hs.
  rewrite (bind_ok (gets _) _ _ _ _ eq_refl). pose proof Hs as (_ & _ & Hps & _). rewrite Hps.
  cbn [push_codes ty_paste]. rewrite Hp. cbv zeta.
  set (d1 := push_codes (release_codes key) d) in *. set (p1 := ps_set_index (ps_index p + 1) p).
  rewrite (bind_ok (modify _) _ _ _ _ eq_refl).
  pose proof (triple_set_paste (Some p1) d1 s Hs) as Hs1. cbn in Hs1.
  change (zlen (ps_keys p1)) with (zlen (ps_keys p)). change (ps_index p1) with (ps_index p + 1).
  destruct (_ <=? _); [by apply (triple_paste_complete p1 (with_paste (Some p1) d1))
                      |by apply (triple_schedule Press p1 (with_paste (Some p1) d1))].
Qed.

(** A step of a paste that is not cancelled. *)
Lemma advance_key cancelled p key d s : inputs_inv d s -> ty_paste d = Some p ->
  ps_cancel p && cancelled = false -> ps_keys p !! Z.to_nat (ps_index p) = Some key -> 0 <= ps_index p ->
  advance_paste env cancelled s =
    match ps_sub_step p with Press => paste_press env key | Release => paste_release env key end s.
Proof.
  intros (_ & _ & Hps & _) Hp Hc Hk Hi. unfold advance_paste.
  rewrite (bind_ok (gets _) _ _ _ _ eq_refl), Hps, Hp, Hc.
  rewrite index_lookup by (split; [done|]; apply lookup_lt_Some in Hk; unfold zlen; lia).
  rewrite Hk. by rewrite (bind_ok (unwrap (Some key)) _ s key s eq_refl).
Qed.

Lemma advance_cancelled p d : ty_paste d = Some p -> ps_cancel p = true ->
  triple (inputs_inv d) (advance_paste env true)
    (fun _ => inputs_inv (add_outcome (CE_PasteFailed Paste_Cancelled (ps_request_id p)) (with_paste None d))) R.
Proof.
  intros Hp Hc s Hs. unfold advance_paste. pose proof Hs as (_ & _ & Hps & _).
  rewrite (bind_ok (gets _) _ _ _ _ eq_refl), Hps, Hp, Hc. cbn [andb].
  revert s Hs Hps. intros s Hs _. revert s Hs.
  apply (triple_bind (inputs_inv d) _ _ (fun _ => inputs_inv (with_paste None d)));
    [apply triple_set_paste|intros ?; by apply triple_outcome].
Qed.

(** ** Every event and every step of a paste *)

Definition paste_ok (p : PasteState) : Prop :=
  Forall key_ok (ps_keys p) /\ 0 <= ps_index p < zlen (ps_keys p).
Definition good (d : Typing) : Prop := forall p, ty_paste d = Some p -> paste_ok p.

(** The invariant, whatever the ghost state. *)
Definition lives (b : ReceiveBuffer) (s : InputsChannel) : Prop :=
  exists d, ty_buffer d = b /\ good d /\ inputs_inv d s.

Lemma lives_from {A} (m : Ic A) :
  (forall d, good d -> triple (inputs_inv d) m
     (fun _ s => exists d', ty_buffer d' = ty_buffer d /\ good d' /\ inputs_inv d' s) R) ->
  keeps lives R m.
Proof.
  intros Hm b s (d & <- & Hg & Hs). specialize (Hm d Hg s Hs).
  by destruct (m s) as [[a|e|] s'].
Qed.

Lemma lives_map {A} (m : Ic A) (f : Typing -> Typing) :
  (forall d, ty_buffer (f d) = ty_buffer d /\ (good d -> good (f d))) ->
  (forall d, triple (inputs_inv d) m (fun _ => inputs_inv (f d)) R) -> keeps lives R m.
Proof.
  intros Hf Hm. apply lives_from. intros d Hg s Hs. specialize (Hm d s Hs).
  destruct (m s) as [[a|e|] s'], (Hf d); [|done|done]. exists (f d). split_and!; auto.
Qed.

Lemma lives_holds {A} (m : Ic A) : holds m -> keeps lives R m.
Proof. by apply (lives_map m id). Qed.

Lemma lives_bind {A C} (m : Ic A) (k : A -> Ic C) :
  keeps lives R m -> (forall a, keeps lives R (k a)) -> keeps lives R (bind m k).
Proof. apply keeps_bind. Qed.

Lemma lives_held f : keeps lives R (modify (ic_on_held f)).
Proof. apply (lives_map _ (fun d => with_held (f (ty_held d)) d)); [done|apply triple_held]. Qed.

Lemma lives_key (m : Ic unit) code :
  (forall d, triple (inputs_inv d) m (fun _ => inputs_inv (push_code code d)) R) -> keeps lives R m.
Proof. by apply (lives_map _ (push_code code)). Qed.

Lemma lives_outcome e : paste_outcome (Ev_Emit e) = Some e -> keeps lives R (emit e).
Proof. intros He. apply (lives_map _ (add_outcome e)); [done|]. intros d. by apply triple_outcome. Qed.

Definition event_ok (event : InputEvent) : Prop :=
  match event with KeyDown code | KeyUp code => u32 code | _ => True end.

Lemma lives_key_down code ts : u32 code -> keeps lives R (handle_key_down env code ts).
Proof.
  intros Hc. apply lives_bind; [by apply lives_holds, holds_turn|intros t].
  apply lives_bind; [by apply lives_holds, holds_unseen|intros _].
  apply lives_bind; [apply lives_holds, holds_record|intros _].
  apply lives_bind; [apply (lives_key _ code); intros d; by apply triple_key_down|intros _].
  repeat destruct (_ =? _); first [apply lives_held|apply keeps_ret].
Qed.

Lemma lives_key_up code ts : u32 code -> keeps lives R (handle_key_up env code ts).
Proof.
  intros Hc. apply lives_bind; [apply lives_holds, holds_record|intros _].
  apply lives_bind; [apply (lives_key _ code); intros d; by apply triple_key_up|intros _].
  repeat destruct (_ =? _); first [apply lives_held|apply keeps_ret].
Qed.

Lemma keys_for_ok cs keys : Forall2 key_for cs keys -> Forall key_ok keys.
Proof. induction 1 as [|c key cs keys Hc _ IH]; constructor; [by apply (key_u32 c)|done]. Qed.

Lemma lives_paste_text text delay rid cancel : keeps lives R (handle_paste_text env text delay rid cancel).
Proof.
  apply lives_from. intros d Hg s Hs.
  assert (forall m : Ic unit, keeps lives R m -> match m s with
    | (Ok _, s') => exists d', ty_buffer d' = ty_buffer d /\ good d' /\ inputs_inv d' s'
    | (Err _, s') => R s' | (Panic, _) => False end) as Hk.
  { intros m Hm. apply (Hm (ty_buffer d) s). by exists d. }
  destruct (ic_enable_paste s) eqn:Een; [destruct (ty_paste d) as [p|] eqn:Ep|].
  2: destruct (translate_paste_cases (cut_text text)) as [(keys & Et & _ & HF)|(n & sample & Et & _)].
  2: destruct keys as [|key keys].
  3: { pose proof (triple_paste_text text delay rid cancel (key :: keys) d Ep Et ltac:(done) s ltac:(done)) as H.
    destruct (handle_paste_text env text delay rid cancel s) as [[[]|e|] s']; [|done|done].
    destruct H as [t H]. eexists. split; [|split; [|exact H]]; [done|]. intros p [= <-].
    split; [by apply (keys_for_ok (unix_lines (cut_text text)))|]. cbn. rewrite zlen_cons.
    pose proof (zlen_nonneg keys). lia. }
  all: unfold handle_paste_text; rewrite (bind_ok (gets _) _ _ _ _ eq_refl); cbn [id].
  all: pose proof Hs as (_ & _ & Hps & _); rewrite Een, ?Hps, ?Ep; cbn [negb].
  - rewrite bool_decide_eq_true_2 by done. apply Hk, keeps_ret.
  - rewrite bool_decide_eq_false_2 by (by intros [? [=]]). fold (cut_text text). rewrite Et.
    by apply Hk, lives_outcome.
  - rewrite bool_decide_eq_false_2 by (by intros [? [=]]). fold (cut_text text). rewrite Et.
    by apply Hk, lives_outcome.
  - apply Hk, keeps_ret.
Qed.

Lemma lives_event event : event_ok event -> keeps lives R (handle_input_event env event).
Proof.
  intros He. destruct (pointer_event event) eqn:Hp; [by apply lives_holds, holds_pointer_event|].
  apply lives_bind; [by apply lives_holds, holds_turn|intros ts]. destruct event; try done.
  - by apply lives_key_down.
  - by apply lives_key_up.
  - apply lives_holds, holds_key_modifiers.
  - apply lives_paste_text.
Qed.

Lemma lives_all events : Forall event_ok events -> keeps lives R (handle_all env events).
Proof.
  induction 1 as [|event events He _ IH]; [apply keeps_ret|]. cbn [handle_all].
  apply lives_bind; [by apply lives_event|by intros _].
Qed.

Lemma lives_advance cancelled : keeps lives R (advance_paste env cancelled).
Proof.
  apply lives_from. intros d Hg s Hs. destruct (ty_paste d) as [p|] eqn:Ep.
  2: { unfold advance_paste. pose proof Hs as (_ & _ & Hps & _).
    rewrite (bind_ok (gets _) _ _ _ _ eq_refl), Hps, Ep. by exists d. }
  destruct (Hg p Ep) as [Hkeys Hi].
  destruct (ps_cancel p && cancelled) eqn:Ec.
  { apply andb_true_iff in Ec as [Ec ->]. pose proof (advance_cancelled p d Ep Ec s Hs) as H.
    destruct (advance_paste env true s) as [[[]|e|] s']; [|done|done]. eexists. by split_and!; [| |exact H]. }
  destruct (lookup_lt_is_Some_2 (ps_keys p) (Z.to_nat (ps_index p))) as [key Ek]; [unfold zlen in Hi; lia|].
  rewrite (advance_key cancelled p key d s Hs Ep Ec Ek ltac:(lia)).
  assert (key_ok key) as Hkey by by eapply Forall_lookup_1.
  destruct (ps_sub_step p).
  - pose proof (triple_paste_press key p d Hkey Ep s Hs) as H.
    destruct (paste_press env key s) as [[[]|e|] s']; [|done|done]. destruct H as [t H].
    eexists. split; [|split; [|exact H]]; [done|]. by intros p' [= <-].
  - pose proof (triple_paste_release key p d Hkey Ep s Hs) as H. cbv zeta in H.
    destruct (paste_release env key s) as [[[]|e|] s']; [|done|done].
    destruct (Z.leb_spec (zlen (ps_keys p)) (ps_index p + 1)) as [_|Hlt]; destruct H as [t H];
      (eexists; split; [|split; [|exact H]]; [done|]); [by intros p' [=]|intros p' [= <-]].
    split; [done|]. cbn. lia.
Qed.

End Keeps.

(** * Turns of the event loop *)

Definition arm_ok (checks : bool) (arm : InputsArm) : Prop :=
  match arm with
  | In_Read chunk => bytes chunk
  | In_Events event queued => Forall event_ok (event :: queued) /\ deltas_ok checks (event :: queued)
  | _ => True
  end.

Section Turns.
Context (env : Env) (R : InputsChannel -> Prop) (IR : forall d s, inputs_inv d s -> R s).

(** The channel between two turns. *)
Definition running (s : InputsChannel) : Prop := exists d, good d /\ idle d s.

Lemma running_lives {A} (m : Ic A) : keeps lives R m -> triple running m (fun _ => running) R.
Proof.
  intros Hm s (d & Hg & Hb & Hs). specialize (Hm (ic_buffer s) s ltac:(by exists (with_buffer (ic_buffer s) d))).
  destruct (m s) as [[a|e|] s']; [|done|done]. destruct Hm as (d' & Ed & Hg' & Hs').
  exists d'. split; [done|]. pose proof Hs' as (_ & _ & _ & _ & _ & Eb).
  split; [change (rb_ok (ic_buffer s')); by rewrite Eb, Ed|].
  rewrite Eb. by destruct d'.
Qed.

Lemma running_arm checks arm : arm_ok checks arm ->
  triple running (inputs_arm env checks arm) (fun _ => running) R.
Proof.
  assert (writes_ok env \/ forall d s, inputs_inv d s -> R s) as HR by by right.
  intros Ha. destruct arm as [chunk| | |event queued|cancelled]; cbn [inputs_arm].
  - eapply triple_bind; [|intros ?; by apply running_lives, keeps_ret].
    intros s (d & Hg & Hs). pose proof (idle_read env R HR IR d chunk Ha s Hs) as H.
    destruct (take_read env (handle_server_message env) chunk s) as [[[]|e|] s']; [by exists d|done|done].
  - apply running_lives, keeps_bind; [|intros _; apply keeps_ret].
    by apply lives_holds, holds_emit.
  - apply running_lives, keeps_bind; [|intros _; apply keeps_ret].
    by apply lives_holds, holds_emit.
  - destruct Ha as [He Hd]. eapply triple_bind; [|intros ?; by apply running_lives, keeps_ret].
    intros s Hs. rewrite run_batch_fuel by (done || cbn; lia).
    apply (running_lives (handle_all env (merge (event :: queued)))); [|done].
    apply lives_all; [done|]. by apply merge_Forall.
  - apply running_lives, keeps_bind; [by apply lives_advance|intros _; apply keeps_ret].
Qed.

Lemma running_arms checks arms : Forall (arm_ok checks) arms ->
  triple running (inputs_arms env checks arms) (fun _ => running) R.
Proof.
  induction 1 as [|arm arms Ha _ IH]; cbn [inputs_arms]; [by apply triple_ret|].
  eapply triple_bind; [by apply running_arm|]. intros [|]; [exact IH|by apply triple_ret].
Qed.

Lemma running_run checks arms : Forall (arm_ok checks) arms ->
  triple running (inputs_run env checks arms) (fun _ => running) R.
Proof.
  intros Ha. unfold inputs_run. eapply triple_bind; [|intros ?; by apply running_arms].
  by apply running_lives, lives_holds, keep_send; [right|..].
Qed.

End Turns.

Lemma new_running enable_paste : running (InputsChannel_new enable_paste).
Proof.
  exists (mkTyping rb_new [] None held_none []). split; [by intros p [=]|]. split; [done|].
  split; [split; done|done].
Qed.
