(* ===== verification/InputsProps.v ===== *)
(** What a run of the inputs channel guarantees: the motion window, and what a
    guest with a US keyboard sees of a paste.

    [running] are the states between two turns.  A paste is followed through
    its [halves], the key codes of one sub-step after the other: [after j] is
    the channel after [j] of them, whatever the pointer and the server did in
    between. *)
From Stdlib Require Import ZArith Lia String.
From stdpp Require Import base numbers list gmap tactics.
From S2P Require Import Prelude Reader Utf8 Wire MsgCommon ReceiveBuffer MsgInputs LinkMess OpcodeCounters Channel ChannelSpec Keyboard Inputs InputsBatch InputsSpec.

Open Scope Z_scope.
Open Scope rust_scope.

(** * The motion window *)

(** A position, as it goes out. *)
Definition position_message (x y buttons : Z) : list Z :=
  make_message inputs_client_MOUSE_POSITION
    (write (mkMousePosition x y (as_unsigned 16 buttons) 0) []).

(** C10: The motion window neither overflows nor wedges.  Take any run of the
    channel: whatever bytes and events of the code's types arrive, in whatever
    order, with writes that fail; in a build that checks arithmetic the relative
    motions queued together must come to less than 2^31 pixels either way, or
    their sum overflows and panics ([motion_sum_overflows]).  Then the channel
    never panics, never has more than two bunches of moves outstanding and never keeps more than
    [MAX_RECENT_EVENTS] events; and against a server that acknowledges only
    what it was sent, the moves counted as outstanding are never more than the
    pointer messages the server has yet to acknowledge, so with fewer than two
    bunches of those the next move is sent, not dropped. *)
Theorem inputs_motion_window env checks enable_paste arms :
  Forall (arm_ok checks) arms ->
  let (r, s) := inputs_run env checks arms (InputsChannel_new enable_paste) in
  r <> Panic /\ 0 <= mo_count (ic_motion s) <= MOTION_ACK_BUNCH * 2 /\
  zlen (ic_recent_events s) <= MAX_RECENT_EVENTS /\
  (honest (ic_log s) -> mo_count (ic_motion s) <= unanswered (ic_log s)) /\
  (honest (ic_log s) -> unanswered (ic_log s) < MOTION_ACK_BUNCH * 2 -> writes_ok env ->
   forall x y, exists s', handle_input_event env (MouseMove x y) s = (Ok tt, s') /\
     let m := position_message x y (ic_button_state s) in
     ic_log s' = ic_log s ++ [Ev_Sent inputs_client_MOUSE_POSITION m; Ev_Wrote m]).
Proof.
  intros Ha.
  pose proof (running_run env (fun s => exists d, inputs_inv d s) ltac:(by intros d s Hs; exists d)
    checks arms Ha _ (new_running enable_paste)) as H.
  assert (exists r s, inputs_run env checks arms (InputsChannel_new enable_paste) = (r, s) /\ r <> Panic /\
    exists d, inputs_inv d s) as (r & s & -> & Hp & d & Hs).
  { destruct (inputs_run _ _ _ _) as [[[]|e|] s]; [|by exists (Err e), s|done].
    exists (Ok tt), s. destruct H as (d & _ & _ & Hd). split_and!; [done|done|by eexists]. }
  pose proof (proj1 Hs) as [Hcount Hwin _ Hrec]. split_and!; [done|lia|lia|done|done|].
  intros Hh Hu HW x y. unfold handle_input_event. rewrite (bind_ok (elapsed_now env) _ _ _ _ eq_refl).
  set (s1 := ch_on_turn S s). unfold handle_mouse_move. rewrite (bind_ok (gets _) _ _ _ _ eq_refl).
  change (mo_count (ic_motion s1)) with (mo_count (ic_motion s)).
  rewrite (proj2 (Z.ltb_lt _ _)) by (specialize (Hwin Hh); lia).
  rewrite (bind_ok (gets _) _ _ _ _ eq_refl).
  match goal with |- context [record_event ?e] =>
    destruct (record_event_run e s1 Hrec) as (rec & E & _) end.
  rewrite (bind_ok _ _ _ _ _ E). unfold send_body.
  match goal with |- context [inputs_send_with_log env ?ty ?data] =>
    match goal with |- context [bind (inputs_send_with_log env ty data) _ ?s2] =>
      destruct (inputs_send_run env ty data s2) as (totals & turn & t & [Es|[HW' _]]); [|done] end end.
  rewrite (bind_ok _ _ _ _ _ Es). eexists. split; [reflexivity|]. cbn. by rewrite <- app_assoc.
Qed.

(** Eight moves without an ack: the ninth is dropped, and one ack lets it go. *)
Definition eight_moves : list InputsArm :=
  map (fun x => In_Events (MouseMove x x) []) (seqZ 0 9).
Definition motion_ack_bytes : list Z := make_message inputs_server_MOUSE_MOTION_ACK [].

Lemma eight_moves_ok : Forall (arm_ok true) (eight_moves ++ [In_Read motion_ack_bytes]).
Proof.
  apply list.Forall_app. split.
  - apply list.Forall_forall. intros arm Hin. apply list_elem_of_fmap in Hin as (x & -> & _).
    split; [by repeat constructor|]. split; [|done]. by repeat constructor.
  - constructor; [|done]. by repeat constructor.
Qed.

Lemma inputs_motion_window_witness :
  let s := snd (inputs_run quiet_world true eight_moves (InputsChannel_new false)) in
  let s' := snd (inputs_run quiet_world true (eight_moves ++ [In_Read motion_ack_bytes]) (InputsChannel_new false)) in
  mo_count (ic_motion s) = 8 /\ wd_drops_since_ack (mo_wedge (ic_motion s)) = 1 /\ mo_count (ic_motion s') = 4 /\
  fst (inputs_run quiet_world true (eight_moves ++ [In_Read motion_ack_bytes]) (InputsChannel_new false)) <> Panic.
Proof.
  cbv zeta. split; [vm_compute; reflexivity|]. split; [vm_compute; reflexivity|].
  split; [vm_compute; reflexivity|].
  pose proof (inputs_motion_window quiet_world true false (eight_moves ++ [In_Read motion_ack_bytes]) eight_moves_ok) as H.
  destruct (inputs_run _ _ _ _) as [r s]. exact (proj1 H).
Defined.

(** * Pastes *)









Section Paste.
Context (env : Env) (W : writes_ok env) (R : InputsChannel -> Prop).


(** The paste: its keys, what was held, and what there was before it. *)
Context (keys : list PasteKey) (h : Held) (rid : option RequestId) (cancel : bool).
Context (keys_ok : Forall key_ok keys) (keys_some : keys <> []).
Context (before : list Z) (past : list ChannelEvent).












(** ** A whole paste *)









End Paste.





(** ** A session: the user holds Shift and pastes two characters. *)







