(* ===== verification/FuzzBound.v ===== *)
(** The two message fuzz targets:
    [shakenfist-spice-protocol/fuzz/fuzz_targets/fuzz_client_bound.rs] and
    [fuzz_server_bound.rs].

    Each reads a byte string as one message type, writes what it accepted and
    reads that back.  The targets are modelled as executable functions over
    tables of readers in the source's order, and proved never to fail: this is
    where the message files' law instances come together. *)
From Stdlib Require Import ZArith Lia String.
From stdpp Require Import base numbers list tactics.
From S2P Require Import Prelude Reader Wire MsgCommon MsgMain MsgInputs MsgPlayback.
From S2P Require Import MsgCursor MsgVdAgent MsgDisplay MsgDrawOps MsgDrawCopy AgentStream.

Open Scope Z_scope.
Open Scope rust_scope.

(** * [derive(PartialEq, Eq)] *)

#[export] Instance Ping_eq_dec : EqDecision Ping.
Proof. solve_decision. Defined.
#[export] Instance SetAck_eq_dec : EqDecision SetAck.
Proof. solve_decision. Defined.
#[export] Instance Notify_eq_dec : EqDecision Notify.
Proof. solve_decision. Defined.
#[export] Instance MainInit_eq_dec : EqDecision MainInit.
Proof. solve_decision. Defined.
#[export] Instance ChannelEntry_eq_dec : EqDecision ChannelEntry.
Proof. solve_decision. Defined.
#[export] Instance ChannelsList_eq_dec : EqDecision ChannelsList.
Proof. solve_decision. Defined.
#[export] Instance MainMouseMode_eq_dec : EqDecision MainMouseMode.
Proof. solve_decision. Defined.
#[export] Instance MultiMediaTime_eq_dec : EqDecision MultiMediaTime.
Proof. solve_decision. Defined.
#[export] Instance AgentTokens_eq_dec : EqDecision AgentTokens.
Proof. solve_decision. Defined.
#[export] Instance AgentDisconnected_eq_dec : EqDecision AgentDisconnected.
Proof. solve_decision. Defined.
#[export] Instance MonConfig_eq_dec : EqDecision MonConfig.
Proof. solve_decision. Defined.
#[export] Instance MonitorMm_eq_dec : EqDecision MonitorMm.
Proof. solve_decision. Defined.
#[export] Instance MonitorsConfig_eq_dec : EqDecision MonitorsConfig.
Proof. solve_decision. Defined.
#[export] Instance AnnounceCapabilities_eq_dec : EqDecision AnnounceCapabilities.
Proof. solve_decision. Defined.
#[export] Instance VdAgentReply_eq_dec : EqDecision VdAgentReply.
Proof. solve_decision. Defined.
#[export] Instance ClipboardGrab_eq_dec : EqDecision ClipboardGrab.
Proof. solve_decision. Defined.
#[export] Instance ClipboardRequest_eq_dec : EqDecision ClipboardRequest.
Proof. solve_decision. Defined.
#[export] Instance Clipboard_eq_dec : EqDecision Clipboard.
Proof. solve_decision. Defined.
#[export] Instance ClipboardRelease_eq_dec : EqDecision ClipboardRelease.
Proof. solve_decision. Defined.
#[export] Instance InputsInit_eq_dec : EqDecision InputsInit.
Proof. solve_decision. Defined.
#[export] Instance KeyModifiers_eq_dec : EqDecision KeyModifiers.
Proof. solve_decision. Defined.
#[export] Instance CursorInitHead_eq_dec : EqDecision CursorInitHead.
Proof. solve_decision. Defined.
#[export] Instance CursorHeader_eq_dec : EqDecision CursorHeader.
Proof. solve_decision. Defined.
#[export] Instance SpiceCursor_eq_dec : EqDecision SpiceCursor.
Proof. solve_decision. Defined.
#[export] Instance CursorInit_eq_dec : EqDecision CursorInit.
Proof. solve_decision. Defined.
#[export] Instance CursorSetHead_eq_dec : EqDecision CursorSetHead.
Proof. solve_decision. Defined.
#[export] Instance CursorSet_eq_dec : EqDecision CursorSet.
Proof. solve_decision. Defined.
#[export] Instance CursorMove_eq_dec : EqDecision CursorMove.
Proof. solve_decision. Defined.
#[export] Instance CursorInvalOne_eq_dec : EqDecision CursorInvalOne.
Proof. solve_decision. Defined.
#[export] Instance Rect_eq_dec : EqDecision Rect.
Proof. solve_decision. Defined.
#[export] Instance Clip_eq_dec : EqDecision Clip.
Proof. solve_decision. Defined.
#[export] Instance DrawBase_eq_dec : EqDecision DrawBase.
Proof. solve_decision. Defined.
#[export] Instance SpicePoint_eq_dec : EqDecision SpicePoint.
Proof. solve_decision. Defined.
#[export] Instance SpiceQMask_eq_dec : EqDecision SpiceQMask.
Proof. solve_decision. Defined.
#[export] Instance ImageDescriptor_eq_dec : EqDecision ImageDescriptor.
Proof. solve_decision. Defined.
#[export] Instance BitmapPalette_eq_dec : EqDecision BitmapPalette.
Proof. solve_decision. Defined.
#[export] Instance BitmapHeader_eq_dec : EqDecision BitmapHeader.
Proof. solve_decision. Defined.
#[export] Instance BitmapPayload_eq_dec : EqDecision BitmapPayload.
Proof. solve_decision. Defined.
#[export] Instance BinaryData_eq_dec : EqDecision BinaryData.
Proof. solve_decision. Defined.
#[export] Instance ImagePayload_eq_dec : EqDecision ImagePayload.
Proof. solve_decision. Defined.
#[export] Instance SpiceImage_eq_dec : EqDecision SpiceImage.
Proof. solve_decision. Defined.
#[export] Instance SpiceCopy_eq_dec : EqDecision SpiceCopy.
Proof. solve_decision. Defined.
#[export] Instance QMask_eq_dec : EqDecision QMask.
Proof. solve_decision. Defined.
#[export] Instance DrawCopy_eq_dec : EqDecision DrawCopy.
Proof. solve_decision. Defined.
#[export] Instance SurfaceCreate_eq_dec : EqDecision SurfaceCreate.
Proof. solve_decision. Defined.
#[export] Instance SurfaceDestroy_eq_dec : EqDecision SurfaceDestroy.
Proof. solve_decision. Defined.
#[export] Instance DisplayHead_eq_dec : EqDecision DisplayHead.
Proof. solve_decision. Defined.
#[export] Instance DisplayMonitorsConfig_eq_dec : EqDecision DisplayMonitorsConfig.
Proof. solve_decision. Defined.
#[export] Instance StreamCreate_eq_dec : EqDecision StreamCreate.
Proof. solve_decision. Defined.
#[export] Instance StreamDataHeader_eq_dec : EqDecision StreamDataHeader.
Proof. solve_decision. Defined.
#[export] Instance StreamData_eq_dec : EqDecision StreamData.
Proof. solve_decision. Defined.
#[export] Instance StreamDataSized_eq_dec : EqDecision StreamDataSized.
Proof. solve_decision. Defined.
#[export] Instance StreamClip_eq_dec : EqDecision StreamClip.
Proof. solve_decision. Defined.
#[export] Instance StreamDestroy_eq_dec : EqDecision StreamDestroy.
Proof. solve_decision. Defined.
#[export] Instance StreamActivateReport_eq_dec : EqDecision StreamActivateReport.
Proof. solve_decision. Defined.
#[export] Instance PlaybackStart_eq_dec : EqDecision PlaybackStart.
Proof. solve_decision. Defined.
#[export] Instance PlaybackMode_eq_dec : EqDecision PlaybackMode.
Proof. solve_decision. Defined.
#[export] Instance PlaybackPacket_eq_dec : EqDecision PlaybackPacket.
Proof. solve_decision. Defined.
#[export] Instance PlaybackVolume_eq_dec : EqDecision PlaybackVolume.
Proof. solve_decision. Defined.
#[export] Instance PlaybackMute_eq_dec : EqDecision PlaybackMute.
Proof. solve_decision. Defined.
#[export] Instance PlaybackLatency_eq_dec : EqDecision PlaybackLatency.
Proof. solve_decision. Defined.
#[export] Instance Pong_eq_dec : EqDecision Pong.
Proof. solve_decision. Defined.
#[export] Instance AckSync_eq_dec : EqDecision AckSync.
Proof. solve_decision. Defined.
#[export] Instance Disconnecting_eq_dec : EqDecision Disconnecting.
Proof. solve_decision. Defined.
#[export] Instance MouseModeRequest_eq_dec : EqDecision MouseModeRequest.
Proof. solve_decision. Defined.
#[export] Instance KeyEvent_eq_dec : EqDecision KeyEvent.
Proof. solve_decision. Defined.
#[export] Instance KeyScancode_eq_dec : EqDecision KeyScancode.
Proof. solve_decision. Defined.
#[export] Instance MouseMotion_eq_dec : EqDecision MouseMotion.
Proof. solve_decision. Defined.
#[export] Instance MousePosition_eq_dec : EqDecision MousePosition.
Proof. solve_decision. Defined.
#[export] Instance MouseButton_eq_dec : EqDecision MouseButton.
Proof. solve_decision. Defined.
#[export] Instance DisplayInit_eq_dec : EqDecision DisplayInit.
Proof. solve_decision. Defined.
#[export] Instance StreamReport_eq_dec : EqDecision StreamReport.
Proof. solve_decision. Defined.
#[export] Instance PreferredCompression_eq_dec : EqDecision PreferredCompression.
Proof. solve_decision. Defined.
#[export] Instance PreferredVideoCodecType_eq_dec : EqDecision PreferredVideoCodecType.
Proof. solve_decision. Defined.

(** * The checks *)

(** What one check did: whether every assertion held, and how many bytes the
    writer produced. *)
Record checked : Type := mkChecked { ck_passed : bool; ck_written : Z }.

(** [if let Ok(value) = T::decode(body) { ... }] *)
Definition check_value {T} `{WireType T, EqDecision T} (body : list Z) : checked :=
  match decode (T := T) body with
  | Ok value =>
      let written := write value [] in
      match decode (T := T) written with
      | Ok back => mkChecked (bool_decide (back = value)) (zlen written)
      | _ => mkChecked false (zlen written)
      end
  | Err _ => mkChecked true 0
  | Panic => mkChecked false 0
  end.

Definition check {T} `{WireType T, EqDecision T} (body : list Z) : checked :=
  check_value (T := T) body.

Definition both (a b : checked) : checked :=
  mkChecked (ck_passed a && ck_passed b) (Z.max (ck_written a) (ck_written b)).

(** [for has_selection in [false, true]] *)
Definition check_clipboard {T} `{ClipboardWireType T, EqDecision T} (body : list Z) : checked :=
  both (check_value (H := with_selection (T := T) false) body)
       (check_value (H := with_selection (T := T) true) body).

Definition client_readers : list (list Z -> checked) :=
  [check (T := Ping);
   check (T := SetAck);
   check (T := Notify);
   check (T := MainInit);
   check (T := ChannelsList);
   check (T := MainMouseMode);
   check (T := MultiMediaTime);
   check (T := AgentTokens);
   check (T := AgentDisconnected);
   check (T := VdAgentMessageHeader);
   check (T := MonitorsConfig);
   check (T := AnnounceCapabilities);
   check (T := VdAgentReply);
   check_clipboard (T := ClipboardGrab);
   check_clipboard (T := ClipboardRequest);
   check_clipboard (T := Clipboard);
   check_clipboard (T := ClipboardRelease);
   check (T := InputsInit);
   check (T := KeyModifiers);
   check (T := CursorInit);
   check (T := CursorSet);
   check (T := CursorMove);
   check (T := CursorInvalOne);
   check (T := Rect);
   check (T := Clip);
   check (T := DrawBase);
   check (T := SpicePoint);
   check (T := SpiceQMask);
   check (T := ImageDescriptor);
   check (T := BitmapHeader);
   check (T := BitmapPayload);
   check (T := BinaryData);
   check (T := SpiceImage);
   check (T := SpiceCopy);
   check (T := DrawCopy);
   check (T := SurfaceCreate);
   check (T := SurfaceDestroy);
   check (T := DisplayHead);
   check (T := DisplayMonitorsConfig);
   check (T := StreamCreate);
   check (T := StreamData);
   check (T := StreamDataSized);
   check (T := StreamClip);
   check (T := StreamDestroy);
   check (T := StreamActivateReport);
   check (T := PlaybackStart);
   check (T := PlaybackMode);
   check (T := PlaybackPacket);
   check (T := PlaybackVolume);
   check (T := PlaybackMute);
   check (T := PlaybackLatency)].

Definition server_readers : list (list Z -> checked) :=
  [check (T := Pong);
   check (T := AckSync);
   check (T := Disconnecting);
   check (T := MouseModeRequest);
   check (T := AgentTokens);
   check (T := VdAgentMessageHeader);
   check (T := MonitorsConfig);
   check (T := AnnounceCapabilities);
   check (T := VdAgentReply);
   check_clipboard (T := ClipboardGrab);
   check_clipboard (T := ClipboardRequest);
   check_clipboard (T := Clipboard);
   check_clipboard (T := ClipboardRelease);
   check (T := KeyEvent);
   check (T := KeyScancode);
   check (T := KeyModifiers);
   check (T := MouseMotion);
   check (T := MousePosition);
   check (T := MouseButton);
   check (T := DisplayInit);
   check (T := StreamReport);
   fun body => both (check (T := PreferredCompression) body)
                    (check (T := PreferredVideoCodecType) body)].

Definition client_READERS : Z := 51.
Definition server_READERS : Z := 22.

(** [data.split_first()] and the dispatch on [selector % READERS]. *)
Definition run_reader (readers : list (list Z -> checked)) (count : Z) (data : list Z) : checked :=
  match data with
  | [] => mkChecked true 0
  | selector :: body =>
      match index readers (selector mod count) with
      | Some reader => reader body
      | None => mkChecked false 0
      end
  end.

Definition fuzz_client_bound (data : list Z) : checked :=
  run_reader client_readers client_READERS data.
Definition fuzz_server_bound (data : list Z) : checked :=
  run_reader server_readers server_READERS data.

(** * The checks pass *)

(** A reader that never fails on a body, as long as what it writes is no longer
    than a message body can be. *)
Definition passes (reader : list Z -> checked) : Prop :=
  forall body, bytes body -> zlen body <= isize_max ->
  ck_written (reader body) <= u32_max -> ck_passed (reader body) = true.

Lemma check_value_passes {T} `{WireLaws T} `{!EqDecision T} :
  (forall v : T, wire_wf v -> zlen (encode v) <= u32_max -> decode (encode v) = Ok v) ->
  passes (check_value (T := T)).
Proof.
  intros Hrt body Hb Hl. unfold check_value.
  pose proof (laws_never_panics (T := T) body Hb Hl) as Hp.
  destruct (decode body) as [v|e|]; [|done|done]. change (write v []) with (encode v).
  cbv zeta. intros Hw. assert (zlen (encode v) <= u32_max) as Hw'
    by (destruct (decode (encode v)); exact Hw).
  rewrite (Hrt v Hp Hw'). by apply bool_decide_eq_true.
Qed.

Lemma decode_encode {T} `{WireLaws T} `{!WireRoundTripEnd T} (v : T) :
  wire_wf v -> zlen (encode v) <= u32_max -> decode (encode v) = Ok v.
Proof.
  intros Hv Hl. unfold decode.
  rewrite laws_round_trips; [done|done|unfold u32_max, isize_max in *; lia].
Qed.

Lemma check_passes {T} `{WireLaws T} `{!WireRoundTripEnd T} `{!EqDecision T} :
  passes (check (T := T)).
Proof. apply check_value_passes, decode_encode. Qed.

Lemma both_passes r1 r2 : passes r1 -> passes r2 -> passes (fun body => both (r1 body) (r2 body)).
Proof.
  intros H1 H2 body Hb Hl Hw. simpl in *. rewrite H1, H2 by (done || lia). done.
Qed.

Lemma check_clipboard_passes {T} `{ClipboardWireType T} `{!EqDecision T}
  (wf : bool -> WireWf T)
  (laws : forall b, @WireLaws T (with_selection b) (wf b))
  (rt : forall b, @WireRoundTripEnd T (with_selection b) (wf b)) :
  passes (check_clipboard (T := T)).
Proof.
  unfold check_clipboard.
  apply (both_passes (check_value (H := with_selection false))
                     (check_value (H := with_selection true))).
  - apply (check_value_passes (H0 := wf false)). apply (decode_encode (H0 := wf false)).
  - apply (check_value_passes (H0 := wf true)). apply (decode_encode (H0 := wf true)).
Qed.

#[export] Hint Extern 1 (passes (check (T := DrawCopy))) =>
  apply check_value_passes; intros ? ? ?; unfold decode; by rewrite DrawCopy_reads_back : wire.
#[export] Hint Extern 2 (passes check) => apply check_passes : wire.
#[export] Hint Extern 1 (passes (check_clipboard (T := ClipboardGrab))) =>
  apply (check_clipboard_passes _ ClipboardGrab_laws ClipboardGrab_rt) : wire.
#[export] Hint Extern 1 (passes (check_clipboard (T := ClipboardRequest))) =>
  apply (check_clipboard_passes _ ClipboardRequest_laws
    (fun b => @round_trip_end _ _ _ (ClipboardRequest_rt b))) : wire.
#[export] Hint Extern 1 (passes (check_clipboard (T := Clipboard))) =>
  apply (check_clipboard_passes _ Clipboard_laws Clipboard_rt) : wire.
#[export] Hint Extern 1 (passes (check_clipboard (T := ClipboardRelease))) =>
  apply (check_clipboard_passes _ ClipboardRelease_laws
    (fun b => @round_trip_end _ _ _ (ClipboardRelease_rt b))) : wire.
#[export] Hint Extern 3 (passes (fun _ => both _ _)) => apply both_passes : wire.

Lemma run_reader_passes readers count :
  Forall passes readers -> 0 < count -> zlen readers = count ->
  passes (run_reader readers count).
Proof.
  intros HF Hc Hlen data Hb Hl. destruct data as [|sel body]; [done|].
  cbn [run_reader]. pose proof (Z.mod_pos_bound sel count Hc) as Hm.
  rewrite index_lookup by lia.
  destruct (lookup_lt_is_Some_2 readers (Z.to_nat (sel mod count))) as [reader E];
    [rewrite length_zlen; lia|].
  rewrite E. apply (Forall_lookup_1 _ _ _ _ HF E); [by inversion Hb|].
  rewrite zlen_cons in Hl. lia.
Qed.

Lemma client_readers_pass : Forall passes client_readers.
Proof. unfold client_readers. repeat constructor; auto 6 with wire. Qed.

Lemma server_readers_pass : Forall passes server_readers.
Proof. unfold server_readers. repeat constructor; auto 6 with wire. Qed.

(** * Properties *)

(** The fuzz target for server-to-client messages never fails: on every
    input, each of the 51 readers returns without a panic, and a value it
    accepts is written and read back unchanged (for anything that fits a message
    body's 32-bit length). *)
Theorem fuzz_client_bound_passes data :
  bytes data -> zlen data <= isize_max ->
  ck_written (fuzz_client_bound data) <= u32_max ->
  ck_passed (fuzz_client_bound data) = true.
Proof. by apply run_reader_passes, eq_refl; [apply client_readers_pass|]. Qed.

(** The same for the client-to-server messages a server or proxy reads. *)
Theorem fuzz_server_bound_passes data :
  bytes data -> zlen data <= isize_max ->
  ck_written (fuzz_server_bound data) <= u32_max ->
  ck_passed (fuzz_server_bound data) = true.
Proof. by apply run_reader_passes, eq_refl; [apply server_readers_pass|]. Qed.

(** Selector 85 is 34 modulo 51: DRAW_COPY, with the image order swapped. *)
Lemma fuzz_client_bound_passes_witness :
  ck_passed (fuzz_client_bound (85 :: swapped_body)) = true /\
  ck_written (fuzz_client_bound (85 :: swapped_body)) = 97.
Proof.
  split; [|vm_compute; reflexivity]. apply fuzz_client_bound_passes.
  - apply (bool_decide_unpack _). vm_compute. exact I.
  - vm_compute. discriminate.
  - vm_compute. discriminate.
Defined.

(** Selector 11: CLIPBOARD, in both layouts. *)
Lemma fuzz_server_bound_passes_witness :
  ck_passed (fuzz_server_bound [11; 1; 0; 0; 0; 1; 0; 0; 0; 104; 105]) = true /\
  ck_written (fuzz_server_bound [11; 1; 0; 0; 0; 1; 0; 0; 0; 104; 105]) = 10.
Proof.
  split; [|vm_compute; reflexivity]. apply fuzz_server_bound_passes.
  - apply (bool_decide_unpack _). vm_compute. exact I.
  - vm_compute. discriminate.
  - vm_compute. discriminate.
Defined.
