(* ===== verification/Lru.v ===== *)
(** The byte-bounded LRU and the renderer's image cache:
    [shakenfist-spice-compression/src/byte_bounded_lru.rs] and
    [shakenfist-spice-renderer/src/image_cache.rs].

    The map underneath is the [lru] crate's [LruCache], which is not part of
    this repository: it is the class [LruCache], and [LruLaws] states the
    documented behaviour the code relies on, in terms of the entries in
    most-recently-used order.  [list_lru] is a list that meets the laws, for
    running the definitions. *)
From Stdlib Require Import ZArith Lia.
From stdpp Require Import base numbers list tactics.
From S2P Require Import Prelude.

Open Scope Z_scope.
Open Scope rust_scope.

(** * The [lru] crate's interface *)

Class LruCache (V : Type) : Type := {
  lru : Type;
  lru_unbounded : lru;
  (** [LruCache::new(cap)] *)
  lru_new : Z -> lru;
  lru_put : lru -> Z -> V -> lru * option V;
  lru_get : lru -> Z -> lru * option V;
  lru_pop : lru -> Z -> lru * option V;
  lru_pop_lru : lru -> lru * option (Z * V);
  lru_clear : lru -> lru;
  lru_len : lru -> Z;
  (** Entries from most to least recently used. *)
  lru_iter : lru -> list (Z * V);
  (** [None] for an unbounded cache. *)
  lru_cap : lru -> option Z
}.

Definition without {V} (k : Z) (l : list (Z * V)) : list (Z * V) :=
  filter (fun e => e.1 <> k) l.

Fixpoint assoc {V} (k : Z) (l : list (Z * V)) : option V :=
  match l with
  | [] => None
  | (k', v) :: l => if k' =? k then Some v else assoc k l
  end.

(** What a capacity keeps of the entries. *)
Definition fit_cap {V} (cap : option Z) (l : list (Z * V)) : list (Z * V) :=
  match cap with None => l | Some n => take (Z.to_nat n) l end.

Class LruLaws (V : Type) `{LruCache V} : Prop := {
  iter_unbounded : lru_iter lru_unbounded = [];
  cap_unbounded : lru_cap lru_unbounded = None;
  iter_new n : lru_iter (lru_new n) = [];
  cap_new n : lru_cap (lru_new n) = Some n;
  iter_put c k v :
    lru_iter (fst (lru_put c k v)) = fit_cap (lru_cap c) ((k, v) :: without k (lru_iter c));
  put_old c k v : snd (lru_put c k v) = assoc k (lru_iter c);
  cap_put c k v : lru_cap (fst (lru_put c k v)) = lru_cap c;
  get_value c k : snd (lru_get c k) = assoc k (lru_iter c);
  iter_get c k :
    lru_iter (fst (lru_get c k)) =
    match assoc k (lru_iter c) with
    | Some v => (k, v) :: without k (lru_iter c)
    | None => lru_iter c
    end;
  cap_get c k : lru_cap (fst (lru_get c k)) = lru_cap c;
  pop_value c k : snd (lru_pop c k) = assoc k (lru_iter c);
  iter_pop c k : lru_iter (fst (lru_pop c k)) = without k (lru_iter c);
  cap_pop c k : lru_cap (fst (lru_pop c k)) = lru_cap c;
  pop_lru_value c : snd (lru_pop_lru c) = list.last (lru_iter c);
  iter_pop_lru c : lru_iter (fst (lru_pop_lru c)) = removelast (lru_iter c);
  cap_pop_lru c : lru_cap (fst (lru_pop_lru c)) = lru_cap c;
  iter_clear c : lru_iter (lru_clear c) = [];
  cap_clear c : lru_cap (lru_clear c) = lru_cap c;
  len_iter c : lru_len c = zlen (lru_iter c)
}.

(** A list in use order meets the laws. *)
Definition list_lru (V : Type) : LruCache V := {|
  lru := option Z * list (Z * V);
  lru_unbounded := (None, []);
  lru_new n := (Some n, []);
  lru_put c k v := ((c.1, fit_cap c.1 ((k, v) :: without k c.2)), assoc k c.2);
  lru_get c k :=
    match assoc k c.2 with
    | Some v => ((c.1, (k, v) :: without k c.2), Some v)
    | None => (c, None)
    end;
  lru_pop c k := ((c.1, without k c.2), assoc k c.2);
  lru_pop_lru c := ((c.1, removelast c.2), list.last c.2);
  lru_clear c := (c.1, []);
  lru_len c := zlen c.2;
  lru_iter c := c.2;
  lru_cap c := c.1
|}.

Lemma list_lru_laws V : @LruLaws V (list_lru V).
Proof. split; try done; intros; simpl; by destruct (assoc _ _). Qed.

(** * Data *)

Definition PER_ENTRY_OVERHEAD_BYTES : Z := 96.

Inductive RefusedReason : Type := EntryLargerThanCap.

Inductive InsertOutcome : Type :=
| Inserted
| InsertedAfterEviction (evicted freed_bytes : Z)
| Refused (reason : RefusedReason).

(** Additions that panic on overflow at the width of their field. *)
Definition checked_add_w (w a b : Z) : option Z :=
  if a + b <? 2 ^ w then Some (a + b) else None.

Section Cache.
Context `{LruCache (list Z)}.
(** Whether [debug_assert!] is compiled in. *)
Context (debug_assertions : bool).

Record ByteBoundedLru : Type := mkByteBoundedLru {
  bb_inner : lru;
  bb_bytes : Z;
  bb_cap_bytes : Z;
  bb_max_entries : Z;
  bb_evictions_total : Z;
  bb_evicted_bytes_total : Z
}.

(** ** Operations; [None] is a panic *)

Definition bb_with_caps (cap_bytes max_entries : Z) : option ByteBoundedLru :=
  if (0 <? cap_bytes) && (0 <? max_entries)
  then Some (mkByteBoundedLru lru_unbounded 0 cap_bytes max_entries 0 0)
  else None.

Definition bb_new (cap_bytes : Z) : option ByteBoundedLru :=
  bb_with_caps cap_bytes (Z.max (cap_bytes / PER_ENTRY_OVERHEAD_BYTES) 1).

(** What the eviction loop carries. *)
Record eviction : Type := mkEviction {
  ev_self : ByteBoundedLru;
  ev_evicted : Z;
  ev_freed_bytes : Z;
  ev_keys : list Z
}.

Definition set_inner (self : ByteBoundedLru) (inner : lru) (bytes : Z) : ByteBoundedLru :=
  mkByteBoundedLru inner bytes (bb_cap_bytes self) (bb_max_entries self)
    (bb_evictions_total self) (bb_evicted_bytes_total self).

Definition over_caps (self : ByteBoundedLru) : bool :=
  (bb_cap_bytes self <? bb_bytes self) || (bb_max_entries self <? lru_len (bb_inner self)).

(** One round of the [while] loop that found an entry to evict. *)
Definition evict_one (ev : eviction) (inner : lru) (k : Z) (v : list Z) : option eviction :=
  let self := ev_self ev in
  let n := zlen v in
  evicted ← checked_add_w 32 (ev_evicted ev) 1;
  freed_bytes ← checked_add_w 64 (ev_freed_bytes ev) n;
  evictions_total ← checked_add_w 64 (bb_evictions_total self) 1;
  evicted_bytes_total ← checked_add_w 64 (bb_evicted_bytes_total self) n;
  Some (mkEviction
    (mkByteBoundedLru inner (saturating_sub (bb_bytes self) n) (bb_cap_bytes self)
       (bb_max_entries self) evictions_total evicted_bytes_total)
    evicted freed_bytes (ev_keys ev ++ [k])).

(** The [while] loop.  The fuel is the number of entries and one more for the
    round that finds none; running out of it is [None]. *)
Fixpoint evict_loop (fuel : nat) (ev : eviction) : option eviction :=
  if over_caps (ev_self ev) then
    match fuel with
    | O => None
    | S fuel =>
        match lru_pop_lru (bb_inner (ev_self ev)) with
        | (inner, None) =>
            if debug_assertions then None
            else Some (mkEviction (set_inner (ev_self ev) inner 0)
                         (ev_evicted ev) (ev_freed_bytes ev) (ev_keys ev))
        | (inner, Some (k, v)) =>
            ev ← evict_one ev inner k v;
            evict_loop fuel ev
        end
    end
  else Some ev.

Definition bb_insert_recording_evicted (self : ByteBoundedLru) (key : Z) (value : list Z)
  : option (ByteBoundedLru * InsertOutcome * list Z) :=
  let incoming_bytes := zlen value in
  if bb_cap_bytes self <? incoming_bytes then
    Some (self, Refused EntryLargerThanCap, [])
  else
    let (inner, displaced) := lru_put (bb_inner self) key value in
    let bytes := match displaced with
                 | Some old_val => saturating_sub (bb_bytes self) (zlen old_val)
                 | None => bb_bytes self
                 end in
    bytes ← checked_add_w 64 bytes incoming_bytes;
    ev ← evict_loop (S (Z.to_nat (lru_len inner)))
           (mkEviction (set_inner self inner bytes) 0 0 []);
    Some (ev_self ev,
          if 0 <? ev_evicted ev
          then InsertedAfterEviction (ev_evicted ev) (ev_freed_bytes ev)
          else Inserted,
          ev_keys ev).

Definition bb_insert (self : ByteBoundedLru) (key : Z) (value : list Z)
  : option (ByteBoundedLru * InsertOutcome) :=
  r ← bb_insert_recording_evicted self key value;
  Some (fst r).

Definition bb_get (self : ByteBoundedLru) (key : Z) : ByteBoundedLru * option (list Z) :=
  let (inner, v) := lru_get (bb_inner self) key in
  (set_inner self inner (bb_bytes self), v).

Definition bb_remove (self : ByteBoundedLru) (key : Z) : ByteBoundedLru * bool :=
  match lru_pop (bb_inner self) key with
  | (inner, None) => (set_inner self inner (bb_bytes self), false)
  | (inner, Some v) => (set_inner self inner (saturating_sub (bb_bytes self) (zlen v)), true)
  end.

Definition bb_clear (self : ByteBoundedLru) : ByteBoundedLru :=
  set_inner self (lru_clear (bb_inner self)) 0.

Definition bb_len (self : ByteBoundedLru) : Z := lru_len (bb_inner self).

(** [for k in &victims] *)
Fixpoint pop_victims (victims : list Z) (self : ByteBoundedLru) (removed : Z)
  : ByteBoundedLru * Z :=
  match victims with
  | [] => (self, removed)
  | k :: victims =>
      match lru_pop (bb_inner self) k with
      | (inner, Some v) =>
          pop_victims victims
            (set_inner self inner (saturating_sub (bb_bytes self) (zlen v))) (removed + 1)
      | (inner, None) => pop_victims victims (set_inner self inner (bb_bytes self)) removed
      end
  end.

Definition bb_retain_keys (self : ByteBoundedLru) (f : Z -> bool) : ByteBoundedLru * Z :=
  let victims := omap (fun e : Z * list Z => if negb (f e.1) then Some e.1 else None)
                   (lru_iter (bb_inner self)) in
  pop_victims victims self 0.

(** ** The renderer's image cache *)

Record BoundedImageCache : Type := mkBoundedImageCache {
  ic_inner : ByteBoundedLru;
  ic_first_eviction_logged : bool
}.

Definition ic_new (cap_bytes : Z) : option BoundedImageCache :=
  inner ← bb_new cap_bytes;
  Some (mkBoundedImageCache inner false).

Definition ic_insert (self : BoundedImageCache) (key : Z) (value : list Z)
  : option (BoundedImageCache * InsertOutcome) :=
  r ← bb_insert (ic_inner self) key value;
  let logged := match snd r with
                | InsertedAfterEviction _ _ => true
                | _ => ic_first_eviction_logged self
                end in
  Some (mkBoundedImageCache (fst r) logged, snd r).

Definition ic_get (self : BoundedImageCache) (key : Z) : BoundedImageCache * option (list Z) :=
  let (inner, v) := bb_get (ic_inner self) key in
  (mkBoundedImageCache inner (ic_first_eviction_logged self), v).

Definition ic_remove (self : BoundedImageCache) (key : Z) : BoundedImageCache * bool :=
  let (inner, b) := bb_remove (ic_inner self) key in
  (mkBoundedImageCache inner (ic_first_eviction_logged self), b).

Definition ic_clear (self : BoundedImageCache) : BoundedImageCache :=
  mkBoundedImageCache (bb_clear (ic_inner self)) (ic_first_eviction_logged self).
End Cache.

(** * Entries in use order *)

Definition total {A} (l : list (A * list Z)) : Z := foldr (fun e n => zlen e.2 + n) 0 l.

Definition exceeds (cap max_entries : Z) (l : list (Z * list Z)) : Prop :=
  cap < total l \/ max_entries < zlen l.

Lemma total_app {A} (l1 l2 : list (A * list Z)) : total (l1 ++ l2) = total l1 + total l2.
Proof. induction l1 as [|e l1 IH]; simpl; [done|]. rewrite IH. lia. Qed.

Lemma total_nonneg {A} (l : list (A * list Z)) : 0 <= total l.
Proof. induction l as [|e l IH]; simpl; [done|]. pose proof (zlen_nonneg e.2). lia. Qed.

Lemma without_not_in {V} k (l : list (Z * V)) : k ∉ map fst (without k l).
Proof.
  unfold without. intros (e & -> & He)%list_elem_of_fmap.
  by apply list_elem_of_filter in He as [? _].
Qed.

Lemma without_keys {V} k (l : list (Z * V)) :
  map fst (without k l) = filter (fun k' => k' <> k) (map fst l).
Proof.
  unfold without. induction l as [|[k' v] l IH]; [done|]. simpl map.
  destruct (decide (k' <> k)).
  - rewrite !filter_cons_True by done. simpl. by rewrite IH.
  - rewrite !filter_cons_False by done. done.
Qed.

Lemma without_NoDup {V} k (l : list (Z * V)) :
  NoDup (map fst l) -> NoDup (map fst (without k l)).
Proof. rewrite without_keys. apply list.NoDup_filter. Qed.

Lemma without_id {V} k (l : list (Z * V)) : k ∉ map fst l -> without k l = l.
Proof.
  induction l as [|[k' v] l IH]; [done|]. simpl. rewrite not_elem_of_cons. intros [Hne Hni].
  unfold without in *. rewrite filter_cons_True by (simpl; congruence). by rewrite IH.
Qed.

Lemma assoc_None {V} k (l : list (Z * V)) : assoc k l = None <-> k ∉ map fst l.
Proof.
  induction l as [|[k' v] l IH]; simpl; [split; [intros _; apply not_elem_of_nil|done]|].
  rewrite not_elem_of_cons. destruct (Z.eqb_spec k' k) as [->|Hne].
  - split; [done|]. by intros [? _].
  - rewrite IH. split; [by split; [congruence|]|by intros [_ ?]].
Qed.

(** With distinct keys, removing one removes its length. *)
Lemma total_without k l : NoDup (map fst l) ->
  total (without k l) = total l - (if assoc k l is Some v then zlen v else 0).
Proof.
  induction l as [|[k' v] l IH]; [done|]. simpl. rewrite list.NoDup_cons. intros [Hni Hnd].
  unfold without in *. destruct (Z.eqb_spec k' k) as [->|Hne].
  - rewrite filter_cons_False by (simpl; by intros []).
    fold (without k l). rewrite without_id by done. simpl. lia.
  - rewrite filter_cons_True by done. simpl. rewrite IH by done. lia.
Qed.

Lemma zlen_without {V} k (l : list (Z * V)) : NoDup (map fst l) ->
  zlen (without k l) = zlen l - (if assoc k l is Some _ then 1 else 0).
Proof.
  induction l as [|[k' v] l IH]; [done|]. simpl. rewrite list.NoDup_cons. intros [Hni Hnd].
  unfold without in *. destruct (Z.eqb_spec k' k) as [->|Hne].
  - rewrite filter_cons_False by (simpl; by intros []).
    fold (without k l). rewrite without_id by done. rewrite zlen_cons. lia.
  - rewrite filter_cons_True by done. rewrite !zlen_cons, IH by done. lia.
Qed.

Lemma assoc_total k l v : assoc k l = Some v -> zlen v <= total l.
Proof.
  induction l as [|[k' v'] l IH]; [done|]. simpl. pose proof (total_nonneg l).
  pose proof (zlen_nonneg v'). destruct (k' =? k); [intros [= ->]; lia|]. intros Ha.
  specialize (IH Ha). lia.
Qed.

Lemma NoDup_move {V} k (v : V) l : NoDup (map fst l) ->
  NoDup (map fst ((k, v) :: without k l)).
Proof.
  intros Hnd. simpl. apply list.NoDup_cons. split; [apply without_not_in|by apply without_NoDup].
Qed.

(** * The invariant *)

Section Proofs.
Context `{HL : LruLaws (list Z)}.
Context (dbg : bool).

Definition entries (self : ByteBoundedLru) : list (Z * list Z) := lru_iter (bb_inner self).

(** Keys are distinct, the byte counter is the payload held, and both caps
    hold. *)
Record bb_ok (self : ByteBoundedLru) : Prop := {
  ok_unbounded : lru_cap (bb_inner self) = None;
  ok_nodup : NoDup (map fst (entries self));
  ok_counter : bb_bytes self = total (entries self);
  ok_within : ~ exceeds (bb_cap_bytes self) (bb_max_entries self) (entries self);
  ok_cap : 0 < bb_cap_bytes self <= isize_max;
  ok_max : 0 < bb_max_entries self < u32_max
}.

(** The session counters have room for what is held and what comes in. *)
Definition counters_room (self : ByteBoundedLru) (incoming : Z) : Prop :=
  0 <= bb_evictions_total self /\ 0 <= bb_evicted_bytes_total self /\
  bb_evictions_total self + zlen (entries self) + 1 < 2 ^ 64 /\
  bb_evicted_bytes_total self + total (entries self) + incoming < 2 ^ 64.

(** ** The eviction loop *)

(** [evicted self self' kept gone]: [gone] was popped from the end. *)
Record evicted_to (self self' : ByteBoundedLru) (kept gone : list (Z * list Z)) : Prop := {
  ev_split : entries self = kept ++ gone;
  ev_kept : entries self' = kept;
  ev_bytes : bb_bytes self' = total kept;
  ev_unbounded : lru_cap (bb_inner self') = None;
  ev_cap : bb_cap_bytes self' = bb_cap_bytes self;
  ev_max : bb_max_entries self' = bb_max_entries self;
  ev_count : bb_evictions_total self' = bb_evictions_total self + zlen gone;
  ev_freed : bb_evicted_bytes_total self' = bb_evicted_bytes_total self + total gone;
  ev_fits : ~ exceeds (bb_cap_bytes self) (bb_max_entries self) kept;
  ev_needed : forall x gone', gone = x :: gone' ->
    exceeds (bb_cap_bytes self) (bb_max_entries self) (kept ++ [x])
}.

Lemma over_caps_spec self : bb_bytes self = total (entries self) ->
  over_caps self = true <->
  exceeds (bb_cap_bytes self) (bb_max_entries self) (entries self).
Proof.
  intros Hb. unfold over_caps, exceeds. rewrite len_iter, Hb. fold (entries self).
  by rewrite orb_true_iff, !Z.ltb_lt.
Qed.

Lemma evict_one_eq ev inner k v :
  0 <= ev_evicted ev < u32_max -> ev_freed_bytes ev + zlen v < 2 ^ 64 ->
  bb_evictions_total (ev_self ev) + 1 < 2 ^ 64 ->
  bb_evicted_bytes_total (ev_self ev) + zlen v < 2 ^ 64 ->
  evict_one ev inner k v = Some (mkEviction
    (mkByteBoundedLru inner (saturating_sub (bb_bytes (ev_self ev)) (zlen v))
       (bb_cap_bytes (ev_self ev)) (bb_max_entries (ev_self ev))
       (bb_evictions_total (ev_self ev) + 1) (bb_evicted_bytes_total (ev_self ev) + zlen v))
    (ev_evicted ev + 1) (ev_freed_bytes ev + zlen v) (ev_keys ev ++ [k])).
Proof.
  intros H1 H2 H3 H4. unfold evict_one, checked_add_w. unfold u32_max in H1.
  by rewrite !(proj2 (Z.ltb_lt _ _)) by lia.
Qed.

(** The cache after one eviction. *)
Definition after_pop (self : ByteBoundedLru) (inner : lru) (v : list Z) : ByteBoundedLru :=
  mkByteBoundedLru inner (saturating_sub (bb_bytes self) (zlen v))
    (bb_cap_bytes self) (bb_max_entries self)
    (bb_evictions_total self + 1) (bb_evicted_bytes_total self + zlen v).

Lemma pop_last self l x : entries self = l ++ [x] ->
  exists inner, lru_pop_lru (bb_inner self) = (inner, Some x) /\
    lru_iter inner = l /\ lru_cap inner = lru_cap (bb_inner self).
Proof.
  intros Hl. destruct (lru_pop_lru (bb_inner self)) as [inner o] eqn:Ep.
  pose proof (pop_lru_value (bb_inner self)) as E1.
  pose proof (iter_pop_lru (bb_inner self)) as E2.
  pose proof (cap_pop_lru (bb_inner self)) as E3.
  rewrite Ep in E1, E2, E3. cbn [fst snd] in *. fold (entries self) in E1, E2.
  rewrite Hl, last_snoc in E1. rewrite Hl, removelast_last in E2. subst o. by exists inner.
Qed.

Lemma evicted_to_refl self :
  lru_cap (bb_inner self) = None -> bb_bytes self = total (entries self) ->
  ~ exceeds (bb_cap_bytes self) (bb_max_entries self) (entries self) ->
  evicted_to self self (entries self) [].
Proof. intros. split; rewrite ?app_nil_r, ?zlen_nil; simpl; try done; lia. Qed.

Lemma evicted_to_snoc self self' inner l k v kept gone :
  entries self = l ++ [(k, v)] -> lru_iter inner = l ->
  exceeds (bb_cap_bytes self) (bb_max_entries self) (entries self) ->
  evicted_to (after_pop self inner v) self' kept gone ->
  evicted_to self self' kept (gone ++ [(k, v)]).
Proof.
  intros Hl Hi Hover []. cbn in *. unfold entries at 1 in ev_split0. cbn in ev_split0.
  rewrite Hi in ev_split0. split; cbn; try done.
  - rewrite Hl, app_assoc. by f_equal.
  - rewrite zlen_app, zlen_cons, zlen_nil. lia.
  - rewrite total_app. simpl. lia.
  - intros z gone' Hz. destruct gone as [|g gone]; simpl in Hz; simplify_eq.
    + rewrite Hl in Hover. rewrite app_nil_r in ev_split0. by rewrite ev_split0 in Hover.
    + by eapply ev_needed0.
Qed.

Lemma evict_loop_eq l : forall fuel ev,
  entries (ev_self ev) = l -> l <> [] -> (length l <= fuel)%nat ->
  lru_cap (bb_inner (ev_self ev)) = None ->
  bb_bytes (ev_self ev) = total l ->
  (forall x, head l = Some x ->
     ~ exceeds (bb_cap_bytes (ev_self ev)) (bb_max_entries (ev_self ev)) [x]) ->
  0 <= ev_evicted ev -> ev_evicted ev + zlen l < 2 ^ 32 ->
  ev_freed_bytes ev + total l < 2 ^ 64 ->
  bb_evictions_total (ev_self ev) + zlen l < 2 ^ 64 ->
  bb_evicted_bytes_total (ev_self ev) + total l < 2 ^ 64 ->
  exists self' kept gone,
    evict_loop dbg fuel ev = Some (mkEviction self' (ev_evicted ev + zlen gone)
      (ev_freed_bytes ev + total gone) (ev_keys ev ++ map fst (reverse gone))) /\
    kept <> [] /\ evicted_to (ev_self ev) self' kept gone.
Proof.
  induction l as [|[k v] l IH] using rev_ind;
    intros fuel ev Hl Hne Hfuel Hcap Hb Hone Hev0 Hev Hfr Ht Htb; [done|].
  rewrite zlen_app, zlen_cons, zlen_nil in *. rewrite length_app in Hfuel. simpl in Hfuel.
  assert (total (l ++ [(k, v)]) = total l + zlen v) as Htot by (rewrite total_app; simpl; lia).
  rewrite Htot in *. pose proof (total_nonneg l). pose proof (zlen_nonneg v).
  pose proof (zlen_nonneg l). destruct fuel as [|fuel]; [lia|]. cbn [evict_loop].
  pose proof (over_caps_spec (ev_self ev) ltac:(rewrite Hl, Htot; lia)) as Hspec.
  destruct (over_caps (ev_self ev)) eqn:Eover.
  2: { exists (ev_self ev), (entries (ev_self ev)), []. split_and!; [|by rewrite Hl|].
    - destruct ev. simpl. by rewrite !Z.add_0_r, app_nil_r.
    - apply evicted_to_refl; [done|by rewrite Hl, Htot|by rewrite <- Hspec]. }
  pose proof (proj1 Hspec eq_refl) as Hover.
  destruct (pop_last _ _ _ Hl) as (inner & -> & Hi & Hc).
  rewrite evict_one_eq by (unfold u32_max; lia). cbn [mbind option_bind].
  fold (after_pop (ev_self ev) inner v).
  destruct l as [|y l'] eqn:El; [by destruct (Hone (k, v)); [|rewrite Hl in Hover]|].
  rewrite <- El in *.
  destruct (IH fuel (mkEviction (after_pop (ev_self ev) inner v) (ev_evicted ev + 1)
    (ev_freed_bytes ev + zlen v) (ev_keys ev ++ [k]))) as (self' & kept & gone & -> & Hk & Hto);
    cbn [ev_self ev_evicted ev_freed_bytes after_pop bb_inner bb_bytes bb_cap_bytes
         bb_max_entries bb_evictions_total bb_evicted_bytes_total];
    try done; try lia.
  - by rewrite El.
  - by rewrite Hc.
  - rewrite Hb. unfold saturating_sub. lia.
  - intros z Hz. apply Hone. rewrite El in *. by simpl in *.
  - exists self', kept, (gone ++ [(k, v)]). split_and!; [|done|by eapply evicted_to_snoc].
    cbn [ev_evicted ev_freed_bytes ev_keys]. rewrite zlen_app, zlen_cons, zlen_nil, total_app.
    rewrite reverse_app. cbn [map app total foldr fst snd]. rewrite <- app_assoc. do 2 f_equal; lia.
Qed.

(** ** The operations *)

(** What an accepted insert does: the new entry comes first, the longest prefix
    that fits both caps is kept, and the rest is reported, oldest first, and
    counted. *)
Record inserted_to (self self' : ByteBoundedLru) (key : Z) (value : list Z)
    (outcome : InsertOutcome) (evicted_keys : list Z) (kept gone : list (Z * list Z)) : Prop := {
  ins_split : (key, value) :: without key (entries self) = (key, value) :: kept ++ gone;
  ins_entries : entries self' = (key, value) :: kept;
  ins_needed : forall x gone', gone = x :: gone' ->
    exceeds (bb_cap_bytes self) (bb_max_entries self) ((key, value) :: kept ++ [x]);
  ins_keys : evicted_keys = map fst (reverse gone);
  ins_outcome : outcome = match gone with
                          | [] => Inserted
                          | _ :: _ => InsertedAfterEviction (zlen gone) (total gone)
                          end;
  ins_count : bb_evictions_total self' = bb_evictions_total self + zlen gone;
  ins_freed : bb_evicted_bytes_total self' = bb_evicted_bytes_total self + total gone;
  ins_caps : bb_cap_bytes self' = bb_cap_bytes self /\ bb_max_entries self' = bb_max_entries self
}.

Lemma insert_refused self key value : bb_cap_bytes self < zlen value ->
  bb_insert_recording_evicted dbg self key value = Some (self, Refused EntryLargerThanCap, []).
Proof.
  intros Hl. unfold bb_insert_recording_evicted. apply Z.ltb_lt in Hl. by rewrite Hl.
Qed.

(** The state the eviction loop starts from. *)
Lemma put_entry self key value inner old : bb_ok self ->
  lru_put (bb_inner self) key value = (inner, old) ->
  let l := (key, value) :: without key (entries self) in
  lru_iter inner = l /\ lru_cap inner = None /\ NoDup (map fst l) /\
  (match old with
   | Some old_val => saturating_sub (bb_bytes self) (zlen old_val)
   | None => bb_bytes self
   end) + zlen value = total l /\ total l <= total (entries self) + zlen value /\
  zlen l <= zlen (entries self) + 1.
Proof.
  intros [Hc Hnd Hb Hw Hcap Hmax] Hput. cbv zeta.
  pose proof (iter_put (bb_inner self) key value) as E1.
  pose proof (put_old (bb_inner self) key value) as E2.
  pose proof (cap_put (bb_inner self) key value) as E3.
  rewrite Hput in E1, E2, E3. cbn [fst snd] in *. rewrite Hc in E1, E3. cbn [fit_cap] in E1.
  fold (entries self) in E1, E2. subst old.
  pose proof (total_without key (entries self) Hnd) as Ht.
  pose proof (zlen_without key (entries self) Hnd) as Hz.
  assert (total ((key, value) :: without key (entries self)) =
    zlen value + total (without key (entries self))) as -> by done.
  rewrite zlen_cons. split_and!; try done; [by apply NoDup_move| | |].
  - rewrite Hb. destruct (assoc key (entries self)) as [v|] eqn:Ea; [|lia].
    pose proof (assoc_total _ _ _ Ea). unfold saturating_sub. lia.
  - destruct (assoc key (entries self)) as [v|]; [pose proof (zlen_nonneg v)|]; lia.
  - destruct (assoc key (entries self)); lia.
Qed.

Lemma insert_accepted self key value :
  bb_ok self -> counters_room self (zlen value) -> zlen value <= bb_cap_bytes self ->
  exists self' outcome keys kept gone,
    bb_insert_recording_evicted dbg self key value = Some (self', outcome, keys) /\
    bb_ok self' /\ inserted_to self self' key value outcome keys kept gone.
Proof.
  intros Hok (Hr1 & Hr2 & Hr3 & Hr4) Hl. unfold bb_insert_recording_evicted.
  rewrite (proj2 (Z.ltb_ge _ _)) by done.
  destruct (lru_put (bb_inner self) key value) as [inner old] eqn:Hput.
  destruct (put_entry self key value inner old Hok Hput) as (E1 & E2 & Hnd & Hb & Hbt & Hbz).
  destruct Hok as [_ _ Hcnt Hw Hcap Hmax]. unfold exceeds in Hw.
  set (l := (key, value) :: without key (entries self)) in *.
  unfold isize_max, u32_max in *. pose proof (zlen_nonneg value).
  unfold checked_add_w. rewrite Hb. rewrite (proj2 (Z.ltb_lt _ _)) by lia.
  cbn [mbind option_bind].
  destruct (evict_loop_eq l (S (Z.to_nat (lru_len inner)))
    (mkEviction (set_inner self inner (total l)) 0 0 []))
    as (self' & kept & gone & -> & Hk & Hto);
    cbn [ev_self ev_evicted ev_freed_bytes set_inner bb_inner bb_bytes bb_cap_bytes
         bb_max_entries bb_evictions_total bb_evicted_bytes_total]; try done; try lia.
  { rewrite len_iter, E1. rewrite length_zlen. lia. }
  { intros x [= <-]. unfold exceeds. change (zlen [(key, value)]) with 1. simpl. lia. }
  destruct kept as [|e kept]; [done|]. pose proof (ev_split _ _ _ _ Hto) as Hs.
  unfold entries at 1 in Hs. cbn in Hs. rewrite E1 in Hs. unfold l in Hs. simpl in Hs.
  injection Hs as <- Hs. destruct Hto. cbn in *.
  eexists self', _, _, kept, gone. split; [reflexivity|]. split.
  - split; try done; try lia; cbn.
    + rewrite ev_kept0. unfold l in Hnd. simpl in Hnd. rewrite Hs, map_app in Hnd.
      simpl. apply list.NoDup_cons in Hnd as [Hni Hnd]. apply list.NoDup_app in Hnd as (Hnd & _).
      apply list.NoDup_cons. split; [|done]. intros Hin. apply Hni, elem_of_app. by left.
    + by rewrite ev_kept0.
    + by rewrite ev_cap0, ev_max0, ev_kept0.
    + rewrite ev_cap0. unfold isize_max. lia.
    + rewrite ev_max0. unfold u32_max. lia.
  - split; try done; [by rewrite Hs|].
    destruct gone as [|g gone]; [done|].
    rewrite (proj2 (Z.ltb_lt _ _)) by (rewrite zlen_cons; pose proof (zlen_nonneg gone); lia).
    done.
Qed.

Lemma get_ok self key : bb_ok self -> bb_ok (fst (bb_get self key)).
Proof.
  intros [Hc Hnd Hb Hw Hcap Hmax]. unfold bb_get.
  pose proof (iter_get (bb_inner self) key) as E1. pose proof (cap_get (bb_inner self) key) as E2.
  destruct (lru_get (bb_inner self) key) as [inner v]. cbn [fst] in *.
  fold (entries self) in E1. split; cbn; unfold entries in *; cbn in *; try done; [congruence| | |].
  all: rewrite E1; destruct (assoc key (lru_iter (bb_inner self))) as [w|] eqn:Ea; try done.
  - by apply NoDup_move.
  - pose proof (total_without key (lru_iter (bb_inner self)) Hnd) as Ht.
    rewrite Ea in Ht. simpl. lia.
  - pose proof (total_without key (lru_iter (bb_inner self)) Hnd) as Ht.
    pose proof (zlen_without key (lru_iter (bb_inner self)) Hnd) as Hz.
    rewrite Ea in Ht, Hz. unfold exceeds in *. rewrite zlen_cons. simpl. lia.
Qed.

(** Popping one key: shared by [remove] and [retain_keys]. *)
Lemma pop_ok self key inner old : bb_ok self -> lru_pop (bb_inner self) key = (inner, old) ->
  old = assoc key (entries self) /\
  let self' := set_inner self inner
    (match old with Some v => saturating_sub (bb_bytes self) (zlen v) | None => bb_bytes self end) in
  bb_ok self' /\ entries self' = without key (entries self).
Proof.
  intros [Hc Hnd Hb Hw Hcap Hmax] Hpop.
  pose proof (pop_value (bb_inner self) key) as E1.
  pose proof (iter_pop (bb_inner self) key) as E2. pose proof (cap_pop (bb_inner self) key) as E3.
  rewrite Hpop in E1, E2, E3. cbn [fst snd] in *. fold (entries self) in E1, E2.
  split; [done|]. cbv zeta. unfold entries in *. split; [|done].
  pose proof (total_without key _ Hnd) as Ht. pose proof (zlen_without key _ Hnd) as Hz.
  split; unfold entries; cbn; try done; [congruence|by rewrite E2; apply without_NoDup| |].
  - rewrite E2, Ht, E1, Hb. destruct (assoc _ _) as [v|] eqn:Ea; [|lia].
    pose proof (assoc_total _ _ _ Ea). unfold saturating_sub. lia.
  - rewrite E2. unfold exceeds in *.
    destruct (assoc _ _) as [v|]; [pose proof (zlen_nonneg v)|]; lia.
Qed.

Lemma remove_eq self key : bb_ok self ->
  bb_ok (fst (bb_remove self key)) /\
  entries (fst (bb_remove self key)) = without key (entries self) /\
  snd (bb_remove self key) = bool_decide (key ∈ map fst (entries self)).
Proof.
  intros Hok. unfold bb_remove. destruct (lru_pop (bb_inner self) key) as [inner old] eqn:E.
  destruct (pop_ok self key inner old Hok E) as (-> & Hok' & He).
  pose proof (assoc_None key (entries self)) as Ha.
  destruct (assoc key (entries self)); cbn [fst snd] in *; split_and!; try done.
  - symmetry. apply bool_decide_eq_true. destruct (decide (key ∈ map fst (entries self))) as [|Hn];
      [done|]. by apply Ha in Hn.
  - symmetry. apply bool_decide_eq_false. by apply Ha.
Qed.

Lemma clear_eq self : bb_ok self -> bb_ok (bb_clear self) /\ entries (bb_clear self) = [].
Proof.
  intros [Hc Hnd Hb Hw Hcap Hmax]. unfold entries. cbn. split; [|apply iter_clear].
  split; unfold entries; cbn; rewrite ?iter_clear; try done; [by rewrite cap_clear|constructor|].
  unfold exceeds, zlen. simpl. lia.
Qed.

Lemma filter_agree {A} (P Q : A -> Prop) `{!forall x, Decision (P x), !forall x, Decision (Q x)}
  (l : list A) : (forall x, x ∈ l -> P x <-> Q x) -> filter P l = filter Q l.
Proof.
  induction l as [|x l IH]; intros HPQ; [done|].
  assert (filter P l = filter Q l) as E by (apply IH; intros y Hy; apply HPQ; by right).
  destruct (decide (P x)) as [Hp|Hp].
  - rewrite !filter_cons_True; [by f_equal|apply HPQ; [by left|done]|done].
  - rewrite !filter_cons_False; [done| |done]. intros Hq. by apply Hp, HPQ; [left|].
Qed.

Lemma foldl_without (ks : list Z) (l : list (Z * list Z)) :
  foldl (fun l k => without k l) l ks = filter (fun e => e.1 ∉ ks) l.
Proof.
  revert l. induction ks as [|k ks IH]; intros l; simpl.
  - induction l as [|e l IH]; [done|].
    rewrite filter_cons_True by apply not_elem_of_nil. by f_equal.
  - rewrite IH. unfold without. rewrite list_filter_filter. apply list_filter_iff.
    intros e. rewrite not_elem_of_cons. tauto.
Qed.

Lemma pop_victims_eq victims self removed : bb_ok self ->
  let r := pop_victims victims self removed in
  bb_ok (fst r) /\ entries (fst r) = foldl (fun l k => without k l) (entries self) victims /\
  snd r = removed + (zlen (entries self) - zlen (entries (fst r))) /\
  bb_evictions_total (fst r) = bb_evictions_total self /\
  bb_evicted_bytes_total (fst r) = bb_evicted_bytes_total self.
Proof.
  cbv zeta. revert self removed. induction victims as [|k ks IH]; intros self removed Hok; simpl.
  - split_and!; try done. lia.
  - destruct (lru_pop (bb_inner self) k) as [inner old] eqn:E.
    destruct (pop_ok self k inner old Hok E) as (Hold & Hok' & He). cbv zeta in *.
    pose proof (zlen_without k (entries self) (ok_nodup _ Hok)) as Hz. rewrite <- Hold in Hz.
    destruct old as [v|].
    + destruct (IH _ (removed + 1) Hok') as (H1 & H2 & H3 & H4 & H5). rewrite He in H2, H3.
      split_and!; try done. rewrite H3. lia.
    + destruct (IH _ removed Hok') as (H1 & H2 & H3 & H4 & H5). rewrite He in H2, H3.
      split_and!; try done. rewrite H3. lia.
Qed.

Lemma retain_keys_eq self f : bb_ok self ->
  let r := bb_retain_keys self f in
  bb_ok (fst r) /\ entries (fst r) = filter (fun e => f e.1 = true) (entries self) /\
  snd r = zlen (entries self) - zlen (entries (fst r)) /\
  bb_evictions_total (fst r) = bb_evictions_total self /\
  bb_evicted_bytes_total (fst r) = bb_evicted_bytes_total self.
Proof.
  cbv zeta. intros Hok. unfold bb_retain_keys. fold (entries self).
  set (victims := omap _ (entries self)).
  destruct (pop_victims_eq victims self 0 Hok) as (H1 & H2 & H3 & H4 & H5).
  split_and!; try done. rewrite H2, foldl_without.
  apply filter_agree. intros e He. subst victims. rewrite list_elem_of_omap. split.
  - intros Hni. destruct (f e.1) eqn:Ef; [done|]. exfalso. apply Hni.
    exists e. by rewrite Ef.
  - intros Hf (e' & He' & Hk). destruct (f e'.1) eqn:Ef; simpl in Hk; [done|].
    injection Hk as Hk. by rewrite Hk, Hf in Ef.
Qed.

(** ** Sequences of operations *)

Inductive bb_op : Type :=
| Op_insert (key : Z) (value : list Z)
| Op_get (key : Z)
| Op_remove (key : Z)
| Op_retain (f : Z -> bool)
| Op_clear.

Definition bb_apply (self : ByteBoundedLru) (op : bb_op) : option ByteBoundedLru :=
  match op with
  | Op_insert key value => fst <$> bb_insert dbg self key value
  | Op_get key => Some (fst (bb_get self key))
  | Op_remove key => Some (fst (bb_remove self key))
  | Op_retain f => Some (fst (bb_retain_keys self f))
  | Op_clear => Some (bb_clear self)
  end.

Fixpoint bb_run (self : ByteBoundedLru) (ops : list bb_op) : option ByteBoundedLru :=
  match ops with
  | [] => Some self
  | op :: ops => self ← bb_apply self op; bb_run self ops
  end.

(** Entries and bytes an operation brings in. *)
Definition op_entries (op : bb_op) : Z := match op with Op_insert _ _ => 1 | _ => 0 end.
Definition op_bytes (op : bb_op) : Z := match op with Op_insert _ v => zlen v | _ => 0 end.
Definition ops_entries (ops : list bb_op) : Z := foldr (fun op n => op_entries op + n) 0 ops.
Definition ops_bytes (ops : list bb_op) : Z := foldr (fun op n => op_bytes op + n) 0 ops.

(** What was ever evicted and what is held was inserted. *)
Definition accounted (self : ByteBoundedLru) (n b : Z) : Prop :=
  0 <= bb_evictions_total self /\ 0 <= bb_evicted_bytes_total self /\
  bb_evictions_total self + zlen (entries self) <= n /\
  bb_evicted_bytes_total self + total (entries self) <= b.

Lemma total_without_le k l : NoDup (map fst l) -> total (without k l) <= total l.
Proof.
  intros Hnd. rewrite total_without by done.
  destruct (assoc k l) as [v|]; [pose proof (zlen_nonneg v)|]; lia.
Qed.

Lemma zlen_without_le {V} k (l : list (Z * V)) : zlen (without k l) <= zlen l.
Proof. unfold zlen, without. pose proof (length_filter (fun e => e.1 <> k) l). lia. Qed.

Lemma total_filter_le (P : Z * list Z -> Prop) `{!forall x, Decision (P x)} l :
  total (filter P l) <= total l.
Proof.
  induction l as [|e l IH]; [done|]. pose proof (zlen_nonneg e.2).
  destruct (decide (P e)); [rewrite filter_cons_True by done|rewrite filter_cons_False by done];
    simpl; lia.
Qed.

Lemma get_entries self key : bb_ok self ->
  total (entries (fst (bb_get self key))) = total (entries self) /\
  zlen (entries (fst (bb_get self key))) = zlen (entries self).
Proof.
  intros Hok. pose proof (iter_get (bb_inner self) key) as E.
  pose proof (total_without key _ (ok_nodup _ Hok)) as Ht.
  pose proof (zlen_without key _ (ok_nodup _ Hok)) as Hz. unfold bb_get, entries in *.
  destruct (lru_get (bb_inner self) key) as [inner v]. cbn [fst set_inner bb_inner] in *. rewrite E.
  destruct (assoc key (lru_iter (bb_inner self))); [|done]. rewrite zlen_cons. simpl. lia.
Qed.

Lemma insert_accounted self self' key value outcome keys kept gone n b :
  bb_ok self -> accounted self n b ->
  inserted_to self self' key value outcome keys kept gone ->
  accounted self' (n + 1) (b + zlen value).
Proof.
  intros Hok (A1 & A2 & A3 & A4) [Hs He _ _ _ Hc Hf _]. injection Hs as Hs.
  pose proof (total_without_le key _ (ok_nodup _ Hok)) as Ht.
  pose proof (zlen_without_le key (entries self)) as Hz.
  rewrite Hs, total_app in Ht. rewrite Hs, zlen_app in Hz.
  pose proof (zlen_nonneg gone). pose proof (total_nonneg gone).
  unfold accounted. rewrite Hc, Hf, He, zlen_cons. simpl. lia.
Qed.

(** One operation keeps the invariant and the accounting. *)
Lemma apply_ok self op n b : bb_ok self -> accounted self n b ->
  n + 1 < 2 ^ 64 -> b + op_bytes op < 2 ^ 64 ->
  exists self', bb_apply self op = Some self' /\ bb_ok self' /\
    accounted self' (n + op_entries op) (b + op_bytes op).
Proof.
  intros Hok Hacc Hn Hb. pose proof Hacc as (A1 & A2 & A3 & A4).
  destruct op as [key value|key|key|f|]; cbn [bb_apply op_bytes op_entries] in *.
  - unfold bb_insert. destruct (Z.lt_ge_cases (bb_cap_bytes self) (zlen value)) as [Hl|Hl].
    + rewrite insert_refused by done. cbn. exists self. split_and!; try done.
      pose proof (zlen_nonneg value). unfold accounted. lia.
    + destruct (insert_accepted self key value Hok) as (s & o & ks & kept & gone & -> & Hok' & Hi);
        [split_and!; lia|done|]. exists s. split; [done|]. split; [done|].
      exact (insert_accounted _ _ _ _ _ _ _ _ _ _ Hok Hacc Hi).
  - eexists. split_and!; [done|by apply get_ok|]. destruct (get_entries self key Hok) as [E1 E2].
    unfold accounted. rewrite E1, E2. unfold bb_get.
    destruct (lru_get (bb_inner self) key). cbn. lia.
  - destruct (remove_eq self key Hok) as (H1 & H2 & _). eexists. split_and!; [done|done|].
    pose proof (total_without_le key _ (ok_nodup _ Hok)). pose proof (zlen_without_le key (entries self)).
    unfold accounted. rewrite H2. unfold bb_remove.
    destruct (lru_pop (bb_inner self) key) as [? []]; cbn; lia.
  - destruct (retain_keys_eq self f Hok) as (H1 & H2 & H3 & H4 & H5).
    eexists. split_and!; [done|done|]. unfold accounted. rewrite H4, H5, H2.
    pose proof (total_filter_le (fun e => f e.1 = true) (entries self)).
    pose proof (length_filter (fun e : Z * list Z => f e.1 = true) (entries self)).
    unfold zlen in *. lia.
  - destruct (clear_eq self Hok) as (H1 & H2). eexists. split_and!; [done|done|].
    pose proof (total_nonneg (entries self)). pose proof (zlen_nonneg (entries self)).
    unfold accounted. rewrite H2. unfold zlen in *. cbn. lia.
Qed.

Lemma op_bytes_nonneg op : 0 <= op_bytes op.
Proof. destruct op; simpl; try done. apply zlen_nonneg. Qed.
Lemma op_entries_range op : 0 <= op_entries op <= 1.
Proof. by destruct op. Qed.
Lemma ops_nonneg ops : 0 <= ops_bytes ops /\ 0 <= ops_entries ops.
Proof.
  induction ops as [|op ops IH]; simpl; [lia|]. pose proof (op_bytes_nonneg op).
  pose proof (op_entries_range op). lia.
Qed.

Lemma run_ok ops : forall self n b, bb_ok self -> accounted self n b ->
  n + ops_entries ops + 1 < 2 ^ 64 -> b + ops_bytes ops < 2 ^ 64 ->
  exists self', bb_run self ops = Some self' /\ bb_ok self' /\
    accounted self' (n + ops_entries ops) (b + ops_bytes ops).
Proof.
  induction ops as [|op ops IH]; intros self n b Hok Hacc Hn Hb; simpl in *.
  - exists self. rewrite !Z.add_0_r. by split_and!.
  - pose proof (op_entries_range op). pose proof (op_bytes_nonneg op).
    destruct (ops_nonneg ops). destruct (apply_ok self op n b) as (s1 & -> & Hok1 & Hacc1);
      [done|done|lia|lia|]. cbn [mbind option_bind].
    destruct (IH s1 _ _ Hok1 Hacc1) as (s2 & -> & Hok2 & Hacc2); [lia|lia|].
    exists s2. rewrite !Z.add_assoc. by split_and!.
Qed.

Lemma new_ok cap : 0 < cap <= isize_max -> cap / PER_ENTRY_OVERHEAD_BYTES < u32_max ->
  exists self, bb_new cap = Some self /\ bb_ok self /\ accounted self 0 0 /\
    bb_cap_bytes self = cap /\ bb_max_entries self = Z.max (cap / PER_ENTRY_OVERHEAD_BYTES) 1.
Proof.
  intros Hc Hm. unfold bb_new, bb_with_caps.
  rewrite !(proj2 (Z.ltb_lt _ _)) by lia. eexists. split; [reflexivity|].
  assert (entries (mkByteBoundedLru lru_unbounded 0 cap
    (Z.max (cap / PER_ENTRY_OVERHEAD_BYTES) 1) 0 0) = []) as He by apply iter_unbounded.
  split_and!; try done.
  - split; rewrite ?He; cbn; try done; [apply cap_unbounded|constructor| |unfold u32_max in *; lia].
    unfold exceeds, zlen. simpl. lia.
  - unfold accounted. rewrite He. by cbn.
Qed.

(** * Properties *)

(** Inserting into the byte-bounded LRU, in either build profile: a value
    larger than the cap is refused and nothing changes; otherwise the insert
    terminates without a panic (so the byte-accounting-drift branch is
    unreachable), the new entry is most recently used, exactly the longest
    prefix in use order that fits both caps is kept, the evicted keys are
    reported oldest first and counted, and the invariant holds again. *)
Theorem lru_insert_evicts_oldest self key value :
  bb_ok self -> counters_room self (zlen value) ->
  if bb_cap_bytes self <? zlen value then
    bb_insert_recording_evicted dbg self key value =
      Some (self, Refused EntryLargerThanCap, [])
  else
    exists self' outcome keys kept gone,
      bb_insert_recording_evicted dbg self key value = Some (self', outcome, keys) /\
      bb_ok self' /\ inserted_to self self' key value outcome keys kept gone.
Proof.
  intros Hok Hroom. destruct (Z.ltb_spec (bb_cap_bytes self) (zlen value)).
  - by apply insert_refused.
  - by apply insert_accepted.
Qed.

(** From a new cache, any sequence of inserts, lookups, removals, retains
    and clears runs without a panic and leaves the byte counter equal to the
    payload held, within the byte cap and the entry cap, with everything
    evicted or held accounted for by what was inserted. *)
Theorem lru_always_within_caps cap ops :
  0 < cap <= isize_max -> cap / PER_ENTRY_OVERHEAD_BYTES < u32_max ->
  ops_entries ops + 1 < 2 ^ 64 -> ops_bytes ops < 2 ^ 64 ->
  exists self0 self, bb_new cap = Some self0 /\ bb_run self0 ops = Some self /\
    bb_bytes self = total (entries self) /\ bb_bytes self <= bb_cap_bytes self /\
    bb_len self <= bb_max_entries self /\
    accounted self (ops_entries ops) (ops_bytes ops).
Proof.
  intros Hc Hm Hn Hb. destruct (new_ok cap Hc Hm) as (s0 & -> & Hok0 & Hacc0 & _).
  destruct (run_ok ops s0 0 0 Hok0 Hacc0) as (s & Hrun & Hok & Hacc); [lia|lia|].
  exists s0, s. destruct Hok as [_ _ Hcnt Hw _ _]. unfold bb_len. rewrite len_iter.
  unfold exceeds, entries in *. split_and!; try done; lia.
Qed.
End Proofs.

(** ** Witnesses, on the list implementation *)

Definition demo_ops : list bb_op :=
  [Op_insert 1 (replicate 60 0); Op_insert 2 (replicate 60 1); Op_get 1;
   Op_insert 3 (replicate 80 2); Op_insert 9 (replicate 300 0); Op_remove 7].

Lemma lru_always_within_caps_witness :
  exists self0 self,
    bb_new (H := list_lru _) 192 = Some self0 /\
    bb_run (H := list_lru _) true self0 demo_ops = Some self /\
    bb_bytes self = 140 /\ map fst (entries self) = [3; 1] /\ bb_evictions_total self = 1.
Proof.
  destruct (@lru_always_within_caps _ (list_lru_laws _) true 192 demo_ops)
    as (s0 & s & H1 & H2 & _); [vm_compute; by split| |vm_compute; done|vm_compute; done|].
  { vm_compute. done. }
  exists s0, s. split; [exact H1|]. split; [exact H2|].
  vm_compute in H1. injection H1 as <-. vm_compute in H2. injection H2 as <-. by vm_compute.
Defined.

Definition demo_lru : ByteBoundedLru (H := list_lru _) :=
  mkByteBoundedLru (H := list_lru _) (None, [(2, replicate 60 1); (1, replicate 60 0)])
    120 150 10 0 0.

Lemma lru_insert_evicts_oldest_witness :
  exists self', bb_insert_recording_evicted (H := list_lru _) true demo_lru 3 (replicate 80 2) =
      Some (self', InsertedAfterEviction 1 60, [1]) /\ bb_ok self'.
Proof.
  pose proof (@lru_insert_evicts_oldest _ (list_lru_laws _) true demo_lru 3 (replicate 80 2)) as H.
  destruct H as (self' & outcome & keys & kept & gone & E & Hok & _).
  - split; try (vm_compute; done).
    + apply (bool_decide_unpack _). vm_compute. exact I.
    + intros [Hx|Hx]; vm_compute in Hx; discriminate Hx.
  - repeat split; vm_compute; done.
  - exists self'. split; [|exact Hok]. rewrite E. vm_compute in E. by injection E as <- <- <-.
Defined.
