(* ===== verification/Lz.v ===== *)
(** Image limits and the LZ decoder:
    [shakenfist-spice-compression/src/limits.rs], [DecompressedImage] of
    [src/lib.rs] and [src/lz.rs].

    [decompress_lz] is modelled with the output buffer, the two offsets, every
    indexing panic and the one [usize] addition that can overflow ([src + 4]);
    [overflow_checks] is the build profile.  The other sums are bounded by the
    output size (at most 2^28) or by 255 times the data length.  The decoder is
    related to a reference expansion of LZ tokens into pixels. *)
From Stdlib Require Import ZArith Lia.
From stdpp Require Import base numbers list tactics.
From S2P Require Import Prelude Reader IoCursor.

Open Scope Z_scope.
Open Scope rust_scope.

(** * Limits *)

Definition MAX_IMAGE_DIMENSION : Z := 16384.
Definition MAX_IMAGE_PIXELS : Z := 64 * 1024 * 1024.

Definition rgba_len (width height : Z) : option Z :=
  let max_side := MAX_IMAGE_DIMENSION in
  if (width =? 0) || (height =? 0) || (max_side <? width) || (max_side <? height) then None
  else
    let pixels := width * height in
    if MAX_IMAGE_PIXELS <? pixels then None else Some (pixels * 4).

Record DecompressedImage : Type := mkDecompressedImage {
  di_width : Z;
  di_height : Z;
  di_pixels : list Z;
  di_image_id : Z;
  di_win_head_dist : Z
}.

Definition DecompressedImage_new_glz (width height : Z) (pixels : list Z)
    (image_id win_head_dist : Z) : option DecompressedImage :=
  if bool_decide (rgba_len width height = Some (zlen pixels))
  then Some (mkDecompressedImage width height pixels image_id win_head_dist)
  else None.

Definition DecompressedImage_new (width height : Z) (pixels : list Z) (image_id : Z)
    : option DecompressedImage :=
  DecompressedImage_new_glz width height pixels image_id 0.

(** * Indexed writes; [None] is the out-of-range panic *)

Definition set_index (l : list Z) (i v : Z) : option (list Z) :=
  if (0 <=? i) && (i <? zlen l) then Some (<[Z.to_nat i := v]> l) else None.

(** [output[dst] = output[src]] *)
Definition copy_byte (output : list Z) (dst src : Z) : option (list Z) :=
  v ← index output src;
  set_index output dst v.

(** The four assignments of one pixel, in order. *)
Definition copy_pixel (output : list Z) (dst src : Z) : option (list Z) :=
  output ← copy_byte output dst src;
  output ← copy_byte output (dst + 1) (src + 1);
  output ← copy_byte output (dst + 2) (src + 2);
  copy_byte output (dst + 3) (src + 3).

Definition put_pixel (output : list Z) (dst r g b a : Z) : option (list Z) :=
  output ← set_index output dst r;
  output ← set_index output (dst + 1) g;
  output ← set_index output (dst + 2) b;
  set_index output (dst + 3) a.

(** * The decoder *)

Inductive LzError : Type :=
| Lz_TooShort
| Lz_InvalidMagic
| Lz_UnsupportedVersion (major minor : Z)
| Lz_Io (e : ErrorKind)
| Lz_DimensionsRefused (width height : Z).

Definition LZ_MAGIC : list Z := [32; 32; 90; 76].
Definition LZ_MAX_COPY : Z := 32.

(** [usize] addition in either build profile. *)
Definition add_usize (overflow_checks : bool) (a b : Z) : option Z :=
  if a + b <=? usize_max then Some (a + b)
  else if overflow_checks then None
  else Some ((a + b) mod 2 ^ 64).

(** The loop variables. *)
Record lz_vars : Type := mkVars {
  lz_output : list Z;
  lz_data_offset : Z;
  lz_out_idx : Z
}.

(** How a round of the main loop ends: on to the next one, or [break]. *)
Inductive flow : Type :=
| Next (v : lz_vars)
| Break (v : lz_vars).

Section Decoder.
Context (overflow_checks : bool).
Context (data : list Z) (output_size : Z).

(** [for _ in 0..(ctrl + 1)] over the literal pixels. *)
Fixpoint literal_loop (n : nat) (v : lz_vars) : option lz_vars :=
  match n with
  | O => Some v
  | S n =>
      if (zlen data <? lz_data_offset v + 3) || (output_size <? lz_out_idx v + 4) then Some v
      else
        r ← index data (lz_data_offset v + 2);
        g ← index data (lz_data_offset v + 1);
        b ← index data (lz_data_offset v);
        output ← put_pixel (lz_output v) (lz_out_idx v) r g b 255;
        literal_loop n (mkVars output (lz_data_offset v + 3) (lz_out_idx v + 4))
  end.

(** [loop] over the run-length bytes; the fuel is the data left. *)
Fixpoint length_loop (fuel : nat) (length data_offset : Z) : option (Z * Z) :=
  match fuel with
  | O => None
  | S fuel =>
      if zlen data <=? data_offset then Some (length, data_offset)
      else
        b ← index data data_offset;
        let data_offset := data_offset + 1 in
        let length := length + b in
        if negb (b =? 255) then Some (length, data_offset)
        else length_loop fuel length data_offset
  end.

(** Repeat the directly previous pixel. *)
Fixpoint repeat_loop (n : nat) (src_start : Z) (v : lz_vars) : option lz_vars :=
  match n with
  | O => Some v
  | S n =>
      if (output_size <? lz_out_idx v + 4) || (zlen (lz_output v) <=? src_start) then Some v
      else
        output ← copy_pixel (lz_output v) (lz_out_idx v) src_start;
        repeat_loop n src_start (mkVars output (lz_data_offset v) (lz_out_idx v + 4))
  end.

(** Copy a block of earlier pixels, advancing the source.  The guard tests
    [out_idx] first, and [||] only then computes [src + 4]. *)
Fixpoint copy_loop (n : nat) (src : Z) (v : lz_vars) : option lz_vars :=
  match n with
  | O => Some v
  | S n =>
      if output_size <? lz_out_idx v + 4 then Some v
      else
        src_end ← add_usize overflow_checks src 4;
        if zlen (lz_output v) <? src_end then Some v
        else
          output ← copy_pixel (lz_output v) (lz_out_idx v) src;
          src ← add_usize overflow_checks src 4;
          copy_loop n src (mkVars output (lz_data_offset v) (lz_out_idx v + 4))
  end.

(** Copy [length] pixels from [pixel_offset] back. *)
Definition back_reference (pixel_offset length : Z) (v : lz_vars) : option lz_vars :=
  let src_start := wrapping_sub (lz_out_idx v) (pixel_offset * 4) in
  if pixel_offset =? 1 then repeat_loop (Z.to_nat length) src_start v
  else copy_loop (Z.to_nat length) src_start v.

Definition set_offset (v : lz_vars) (data_offset : Z) : lz_vars :=
  mkVars (lz_output v) data_offset (lz_out_idx v).

(** What the bytes after a control byte say. *)
Inductive lz_reference : Type :=
| Ref_truncated (data_offset : Z)
| Ref_copy (pixel_offset length data_offset : Z).

(** The back-reference arm up to [pixel_offset += 1]. *)
Definition read_reference (ctrl data_offset : Z) : option lz_reference :=
  let length := Z.shiftr ctrl 5 in
  let pixel_offset := Z.shiftl (Z.land ctrl 31) 8 in
  ld ← (if length =? 7
        then length_loop (S (Z.to_nat (zlen data - data_offset))) length data_offset
        else Some (length, data_offset));
  let '(length, data_offset) := ld in
  if zlen data <=? data_offset then Some (Ref_truncated data_offset)
  else
    code ← index data data_offset;
    let data_offset := data_offset + 1 in
    let pixel_offset := pixel_offset + code in
    if (code =? 255) && (pixel_offset - code =? Z.shiftl 31 8) then
      if zlen data <? data_offset + 2 then Some (Ref_truncated data_offset)
      else
        hi ← index data data_offset;
        lo ← index data (data_offset + 1);
        let pixel_offset := Z.lor (Z.shiftl hi 8) lo + 8191 in
        Some (Ref_copy (pixel_offset + 1) length (data_offset + 2))
    else Some (Ref_copy (pixel_offset + 1) length data_offset).

(** The body of the main loop. *)
Definition lz_round (v : lz_vars) : option flow :=
  ctrl ← index data (lz_data_offset v);
  let v := set_offset v (lz_data_offset v + 1) in
  if ctrl <? LZ_MAX_COPY then
    v ← literal_loop (Z.to_nat (ctrl + 1)) v;
    Some (Next v)
  else
    r ← read_reference ctrl (lz_data_offset v);
    match r with
    | Ref_truncated data_offset => Some (Break (set_offset v data_offset))
    | Ref_copy pixel_offset length data_offset =>
        v ← back_reference pixel_offset length (set_offset v data_offset);
        Some (Next v)
    end.

Definition lz_more (v : lz_vars) : bool :=
  (lz_out_idx v <? output_size) && (lz_data_offset v <? zlen data).

(** The main loop; every round takes at least the control byte, so the data
    left is enough fuel. *)
Fixpoint lz_loop (fuel : nat) (v : lz_vars) : option lz_vars :=
  if lz_more v then
    match fuel with
    | O => None
    | S fuel =>
        f ← lz_round v;
        match f with
        | Next v => lz_loop fuel v
        | Break v => Some v
        end
    end
  else Some v.
End Decoder.

(** [for y in 0..height] of the bottom-up flip. *)
Fixpoint flip_loop (ys : list nat) (output : list Z) (row_bytes height : Z) (flipped : list Z)
  : option (list Z) :=
  match ys with
  | [] => Some flipped
  | y :: ys =>
      let src := Z.of_nat y * row_bytes in
      let dst := (height - 1 - Z.of_nat y) * row_bytes in
      row ← slice output src (src + row_bytes);
      flipped ← copy_from_slice flipped dst row;
      flip_loop ys output row_bytes height flipped
  end.

Definition flip_rows (output : list Z) (width height : Z) : option (list Z) :=
  flip_loop (seq 0 (Z.to_nat height)) output (width * 4) height (replicate (length output) 0).

(** The fields of the 28-byte header that the decoder uses. *)
Record lz_header : Type := mkLzHeader {
  lh_magic : list Z;
  lh_version_major : Z;
  lh_version_minor : Z;
  lh_width : Z;
  lh_height : Z;
  lh_top_down : bool
}.

Definition read_lz_header : Cur lz_header :=
  let? magic := read_exact 4 in
  let? version_major := cur_u16_be in
  let? version_minor := cur_u16_be in
  do? read_exact 3 in
  do? cur_u8 in
  let? width := cur_u32_be in
  let? height := cur_u32_be in
  do? cur_u32_be in
  let? top_down := cur_u32_be in
  ret (mkLzHeader magic version_major version_minor width height (negb (top_down =? 0))).

Definition LZ_HEADER_SIZE : Z := 28.

(** The magic and version are checked as soon as they are read; with 28 bytes at
    hand no read fails, so checking them after the header is the same. *)
Definition decompress_lz (overflow_checks : bool) (data : list Z)
  : result LzError DecompressedImage :=
  if zlen data <? LZ_HEADER_SIZE then Err Lz_TooShort
  else
    match fst (read_lz_header data) with
    | Err e => Err (Lz_Io e)
    | Panic => Panic
    | Ok h =>
        if negb (bool_decide (lh_magic h = LZ_MAGIC)) then Err Lz_InvalidMagic
        else if negb (lh_version_major h =? 1) then
          Err (Lz_UnsupportedVersion (lh_version_major h) (lh_version_minor h))
        else
          match rgba_len (lh_width h) (lh_height h) with
          | None => Err (Lz_DimensionsRefused (lh_width h) (lh_height h))
          | Some output_size =>
              let output := replicate (Z.to_nat output_size) 0 in
              let! v := rlift (lz_loop overflow_checks data output_size (length data)
                                 (mkVars output LZ_HEADER_SIZE 0)) in
              let! output := rlift (if lh_top_down h then Some (lz_output v)
                                    else flip_rows (lz_output v) (lh_width h) (lh_height h)) in
              match DecompressedImage_new (lh_width h) (lh_height h) output 0 with
              | Some image => Ok image
              | None => Err (Lz_DimensionsRefused (lh_width h) (lh_height h))
              end
          end
    end.


(** * The main loop as a step relation *)

Section Steps.
Context (overflow_checks : bool) (data : list Z) (output_size : Z).

Inductive lz_steps : lz_vars -> lz_vars -> Prop :=
| steps_refl v : lz_steps v v
| steps_round v v' v'' :
    lz_more data output_size v = true ->
    lz_round overflow_checks data output_size v = Some (Next v') ->
    lz_steps v' v'' -> lz_steps v v''.

(** The round at [v] is a back-reference to the pixel just before the start of
    the image, with room to copy it to. *)
Definition before_start (v : lz_vars) : Prop :=
  lz_more data output_size v = true /\
  exists ctrl pixel_offset length data_offset,
    index data (lz_data_offset v) = Some ctrl /\ LZ_MAX_COPY <= ctrl /\
    read_reference data ctrl (lz_data_offset v + 1) =
      Some (Ref_copy pixel_offset length data_offset) /\
    2 <= pixel_offset /\ 1 <= length /\
    lz_out_idx v = (pixel_offset - 1) * 4 /\ lz_out_idx v + 4 <= output_size.
End Steps.

(** The loop variables: the output has its full size and the write position is a
    pixel boundary within it. *)
Record vars_ok (data : list Z) (output_size : Z) (v : lz_vars) : Prop := {
  vo_len : zlen (lz_output v) = output_size;
  vo_idx : 0 <= lz_out_idx v <= output_size;
  vo_mult : lz_out_idx v mod 4 = 0;
  vo_off : 0 <= lz_data_offset v <= zlen data
}.

(** * The loops stay in bounds *)

Lemma set_index_ok l i v : 0 <= i < zlen l ->
  exists l', set_index l i v = Some l' /\ zlen l' = zlen l.
Proof.
  intros Hi. unfold set_index.
  rewrite (proj2 (Z.leb_le _ _)), (proj2 (Z.ltb_lt _ _)) by lia.
  eexists. split; [done|]. apply zlen_insert.
Qed.

Lemma copy_byte_ok l dst src : 0 <= dst < zlen l -> 0 <= src < zlen l ->
  exists l', copy_byte l dst src = Some l' /\ zlen l' = zlen l.
Proof.
  intros Hd Hs. unfold copy_byte. destruct (index_is_Some l src Hs) as [v ->].
  by apply set_index_ok.
Qed.

Lemma copy_pixel_ok l dst src :
  0 <= dst -> dst + 4 <= zlen l -> 0 <= src -> src + 4 <= zlen l ->
  exists l', copy_pixel l dst src = Some l' /\ zlen l' = zlen l.
Proof.
  intros Hd1 Hd2 Hs1 Hs2. unfold copy_pixel.
  destruct (copy_byte_ok l dst src) as (l1 & -> & L1); [lia..|]. cbn [mbind option_bind].
  destruct (copy_byte_ok l1 (dst + 1) (src + 1)) as (l2 & -> & L2); [lia..|].
  cbn [mbind option_bind].
  destruct (copy_byte_ok l2 (dst + 2) (src + 2)) as (l3 & -> & L3); [lia..|].
  cbn [mbind option_bind].
  destruct (copy_byte_ok l3 (dst + 3) (src + 3)) as (l4 & -> & L4); [lia..|].
  exists l4. split; [done|congruence].
Qed.

Lemma put_pixel_ok l dst r g b a : 0 <= dst -> dst + 4 <= zlen l ->
  exists l', put_pixel l dst r g b a = Some l' /\ zlen l' = zlen l.
Proof.
  intros Hd1 Hd2. unfold put_pixel.
  destruct (set_index_ok l dst r) as (l1 & -> & L1); [lia|]. cbn [mbind option_bind].
  destruct (set_index_ok l1 (dst + 1) g) as (l2 & -> & L2); [lia|]. cbn [mbind option_bind].
  destruct (set_index_ok l2 (dst + 2) b) as (l3 & -> & L3); [lia|]. cbn [mbind option_bind].
  destruct (set_index_ok l3 (dst + 3) a) as (l4 & -> & L4); [lia|].
  exists l4. split; [done|congruence].
Qed.

Section Bounds.
Context (overflow_checks : bool) (data : list Z) (output_size : Z).
Context (Hdata : bytes data).
Context (Hsize : 0 <= output_size <= 2 ^ 32) (Hmult : output_size mod 4 = 0).

Local Abbreviation ok := (vars_ok data output_size).

Lemma idx_step n : n mod 4 = 0 -> (n + 4) mod 4 = 0.
Proof. intros H. rewrite Z.add_mod, H by lia. done. Qed.

Lemma literal_loop_ok n : forall v, ok v ->
  exists v', literal_loop data output_size n v = Some v' /\ ok v' /\
    lz_data_offset v <= lz_data_offset v'.
Proof.
  induction n as [|n IH]; intros v Hv; cbn [literal_loop]; [by exists v|].
  pose proof Hv as [Hl Hi Hm Ho].
  destruct (Z.ltb_spec (zlen data) (lz_data_offset v + 3)); simpl; [by exists v|].
  destruct (Z.ltb_spec output_size (lz_out_idx v + 4)); simpl; [by exists v|].
  destruct (index_is_Some data (lz_data_offset v + 2)) as [r ->]; [lia|].
  destruct (index_is_Some data (lz_data_offset v + 1)) as [g ->]; [lia|].
  destruct (index_is_Some data (lz_data_offset v)) as [b ->]; [lia|].
  cbn [mbind option_bind].
  destruct (put_pixel_ok (lz_output v) (lz_out_idx v) r g b 255) as (o & -> & L); [lia..|].
  cbn [mbind option_bind].
  destruct (IH (mkVars o (lz_data_offset v + 3) (lz_out_idx v + 4))) as (v' & -> & Hv' & Hle).
  { split; cbn; try lia. by apply idx_step. }
  exists v'. split_and!; try done. cbn in Hle. lia.
Qed.

Lemma length_loop_ok fuel : forall n off, 0 <= off <= zlen data ->
  zlen data - off < Z.of_nat fuel ->
  exists n' off', length_loop data fuel n off = Some (n', off') /\
    n <= n' <= n + 255 * (off' - off) /\ off <= off' <= zlen data.
Proof.
  induction fuel as [|fuel IH]; intros n off Ho Hf; [lia|]. cbn [length_loop].
  destruct (Z.leb_spec (zlen data) off); [exists n, off; split; [done|lia]|].
  rewrite index_lookup by lia.
  destruct (lookup_lt_is_Some_2 data (Z.to_nat off)) as [b Eb]; [rewrite length_zlen; lia|].
  rewrite Eb. cbn [mbind option_bind].
  pose proof (Forall_lookup_1 _ _ _ _ Hdata Eb) as [Hb Hb'].
  destruct (negb (b =? 255)).
  - eexists _, _. split; [done|lia].
  - destruct (IH (n + b) (off + 1)) as (n' & off' & -> & Hn & Hoff); [lia..|].
    eexists _, _. split; [done|lia].
Qed.

Lemma read_reference_ok ctrl off : u8 ctrl -> LZ_MAX_COPY <= ctrl -> 0 <= off <= zlen data ->
  match read_reference data ctrl off with
  | Some (Ref_truncated off') => off <= off' <= zlen data
  | Some (Ref_copy pixel_offset n off') =>
      1 <= pixel_offset <= 2 ^ 30 /\ 1 <= n /\ off <= off' <= zlen data
  | None => False
  end.
Proof.
  intros [Hc1 Hc2] Hc Ho. unfold read_reference, LZ_MAX_COPY in *.
  set (n0 := Z.shiftr ctrl 5). assert (1 <= n0) as Hn0.
  { unfold n0. rewrite Z.shiftr_div_pow2 by lia. apply Z.div_le_lower_bound; lia. }
  set (hi0 := Z.shiftl (Z.land ctrl 31) 8). assert (0 <= hi0 <= 31 * 256) as Hhi.
  { unfold hi0. rewrite Z.shiftl_mul_pow2 by lia. change (Z.land ctrl 31) with (Z.land ctrl (Z.ones 5)).
    rewrite Z.land_ones by lia. pose proof (Z.mod_pos_bound ctrl (2 ^ 5) eq_refl). lia. }
  assert (exists n off', (if n0 =? 7
        then length_loop data (S (Z.to_nat (zlen data - off))) n0 off
        else Some (n0, off)) = Some (n, off') /\ n0 <= n /\ off <= off' <= zlen data)
    as (n & off1 & -> & Hn & Hoff1).
  { destruct (n0 =? 7); [|by exists n0, off; split; [done|lia]].
    destruct (length_loop_ok (S (Z.to_nat (zlen data - off))) n0 off) as (n & off' & -> & Hn & Ho');
      [lia..|]. exists n, off'. split; [done|lia]. }
  cbn [mbind option_bind]. destruct (Z.leb_spec (zlen data) off1); [lia|].
  assert (forall i, 0 <= i < zlen data -> exists b, index data i = Some b /\ u8 b) as Hbyte.
  { intros i Hi. destruct (index_is_Some data i Hi) as [b E]. exists b. split; [done|].
    rewrite index_lookup in E by done. exact (Forall_lookup_1 _ _ _ _ Hdata E). }
  destruct (Hbyte off1) as (code & -> & [Hd1 Hd2]); [lia|]. cbn [mbind option_bind].
  destruct (_ && _).
  - destruct (Z.ltb_spec (zlen data) (off1 + 1 + 2)); [lia|].
    destruct (Hbyte (off1 + 1)) as (h & -> & [Hh1 Hh2]); [lia|].
    destruct (Hbyte (off1 + 1 + 1)) as (l & -> & [Hl1 Hl2]); [lia|]. cbn [mbind option_bind].
    assert (0 <= Z.lor (Z.shiftl h 8) l < 2 ^ 16) as Hlor.
    { split; [apply Z.lor_nonneg; split; [by apply Z.shiftl_nonneg|done]|].
      destruct (Z.eq_dec (Z.lor (Z.shiftl h 8) l) 0) as [->|Hne]; [lia|].
      apply Z.log2_lt_pow2; [assert (0 <= Z.lor (Z.shiftl h 8) l)
        by (apply Z.lor_nonneg; split; [by apply Z.shiftl_nonneg|done]); lia|].
      rewrite Z.log2_lor by (try apply Z.shiftl_nonneg; done).
      apply Z.max_lub_lt.
      - rewrite Z.shiftl_mul_pow2 by lia. destruct (Z.eq_dec h 0) as [->|]; [done|].
        apply Z.log2_lt_pow2; lia.
      - destruct (Z.eq_dec l 0) as [->|]; [done|]. apply Z.log2_lt_pow2; lia. }
    lia.
  - lia.
Qed.

Lemma repeat_loop_ok n src : forall v, ok v -> 0 <= src ->
  src + 4 <= output_size \/ output_size <= src ->
  exists v', repeat_loop output_size n src v = Some v' /\ ok v' /\
    lz_data_offset v' = lz_data_offset v.
Proof.
  induction n as [|n IH]; intros v Hv Hs Hsrc; cbn [repeat_loop]; [by exists v|].
  pose proof Hv as [Hl Hi Hm Ho]. rewrite Hl.
  destruct (Z.ltb_spec output_size (lz_out_idx v + 4)); simpl; [by exists v|].
  destruct (Z.leb_spec output_size src); simpl; [by exists v|].
  destruct (copy_pixel_ok (lz_output v) (lz_out_idx v) src) as (o & -> & L); [lia..|].
  cbn [mbind option_bind].
  destruct (IH (mkVars o (lz_data_offset v) (lz_out_idx v + 4))) as (v' & -> & Hv' & Hoff);
    [|done|lia|by exists v'].
  split; cbn; try lia. by apply idx_step.
Qed.

Lemma copy_loop_ok n : forall src v, ok v -> 0 <= src <= usize_max - 4 ->
  exists v', copy_loop overflow_checks output_size n src v = Some v' /\ ok v' /\
    lz_data_offset v' = lz_data_offset v.
Proof.
  induction n as [|n IH]; intros src v Hv Hs; cbn [copy_loop]; [by exists v|].
  pose proof Hv as [Hl Hi Hm Ho]. rewrite Hl.
  destruct (Z.ltb_spec output_size (lz_out_idx v + 4)); [by exists v|].
  unfold add_usize. rewrite (proj2 (Z.leb_le (src + 4) _)) by lia. cbn [mbind option_bind].
  destruct (Z.ltb_spec output_size (src + 4)); [by exists v|].
  destruct (copy_pixel_ok (lz_output v) (lz_out_idx v) src) as (o & -> & L); [lia..|].
  cbn [mbind option_bind].
  destruct (IH (src + 4) (mkVars o (lz_data_offset v) (lz_out_idx v + 4)))
    as (v' & -> & Hv' & Hoff); [|unfold usize_max; lia|by exists v'].
  split; cbn; try lia. by apply idx_step.
Qed.

(** One pixel before the start of the buffer, the bound check itself
    overflows: with checks that is the panic, and without them the sum wraps to
    0, passes the check, and the indexing panics. *)
Lemma copy_loop_gap n v : ok v -> lz_out_idx v + 4 <= output_size ->
  copy_loop overflow_checks output_size (S n) (2 ^ 64 - 4) v = None.
Proof.
  intros [Hl Hi Hm Ho] Hroom. cbn [copy_loop]. rewrite (proj2 (Z.ltb_ge _ _)) by lia.
  unfold add_usize. change (2 ^ 64 - 4 + 4 <=? usize_max) with false. cbv iota.
  destruct overflow_checks; [done|]. cbn [mbind option_bind].
  change ((2 ^ 64 - 4 + 4) mod 2 ^ 64) with 0. rewrite Hl, (proj2 (Z.ltb_ge _ _)) by lia.
  unfold copy_pixel, copy_byte, index. rewrite Hl.
  rewrite (proj2 (Z.ltb_ge (2 ^ 64 - 4) _)) by lia. by rewrite andb_false_r.
Qed.

Lemma wrapping_sub_below a b : 0 <= a < b -> b <= 2 ^ 64 ->
  wrapping_sub a b = 2 ^ 64 - (b - a).
Proof. intros Ha Hb. unfold wrapping_sub. symmetry. apply (Z.mod_unique _ _ (-1)); lia. Qed.

Lemma wrapping_sub_above a b : 0 <= b <= a -> a < 2 ^ 64 -> wrapping_sub a b = a - b.
Proof. intros Hb Ha. unfold wrapping_sub. apply Z.mod_small. lia. Qed.

(** A back-reference panics exactly when it starts one pixel before the image. *)
Lemma back_reference_spec pixel_offset n v : ok v ->
  1 <= pixel_offset <= 2 ^ 30 -> 1 <= n ->
  (2 <= pixel_offset /\ lz_out_idx v = (pixel_offset - 1) * 4 /\
     lz_out_idx v + 4 <= output_size /\
     back_reference overflow_checks output_size pixel_offset n v = None) \/
  (~ (2 <= pixel_offset /\ lz_out_idx v = (pixel_offset - 1) * 4 /\
      lz_out_idx v + 4 <= output_size) /\
   exists v', back_reference overflow_checks output_size pixel_offset n v = Some v' /\ ok v' /\
    lz_data_offset v' = lz_data_offset v).
Proof.
  intros Hv Hp Hn. pose proof Hv as [Hl Hi Hm Ho]. unfold back_reference.
  apply Z.mod_divide in Hm as [q Hq]; [|lia].
  destruct (Z.eqb_spec pixel_offset 1) as [->|Hne].
  - right. split; [lia|]. destruct (Z.lt_ge_cases (lz_out_idx v) (1 * 4)).
    + rewrite wrapping_sub_below by lia. apply repeat_loop_ok; [done|lia|right; lia].
    + rewrite wrapping_sub_above by lia. apply repeat_loop_ok; [done|lia|left; lia].
  - destruct (Z.lt_ge_cases (lz_out_idx v) (pixel_offset * 4)).
    + rewrite wrapping_sub_below by lia.
      destruct (Z.eq_dec (lz_out_idx v) ((pixel_offset - 1) * 4)) as [E|E].
      * replace (2 ^ 64 - (pixel_offset * 4 - lz_out_idx v)) with (2 ^ 64 - 4) by lia.
        destruct (Z.to_nat n) as [|n'] eqn:En; [lia|].
        destruct (Z.le_gt_cases (lz_out_idx v + 4) output_size).
        -- left. split_and!; try lia. by apply copy_loop_gap.
        -- right. split; [lia|]. exists v. cbn [copy_loop].
           by rewrite (proj2 (Z.ltb_lt _ _)) by lia.
      * right. split; [lia|]. apply copy_loop_ok; [done|unfold usize_max; lia].
    + right. split; [lia|]. rewrite wrapping_sub_above by lia.
      apply copy_loop_ok; [done|unfold usize_max; lia].
Qed.

Definition flow_ok (v : lz_vars) (f : flow) : Prop :=
  match f with
  | Next v' => ok v' /\ lz_data_offset v < lz_data_offset v'
  | Break v' => ok v'
  end.

(** One round of the main loop: it panics exactly at such a reference. *)
Lemma lz_round_spec v : ok v -> lz_more data output_size v = true ->
  (before_start data output_size v /\ lz_round overflow_checks data output_size v = None) \/
  (~ before_start data output_size v /\
   exists f, lz_round overflow_checks data output_size v = Some f /\ flow_ok v f).
Proof.
  intros Hv Hmore. pose proof Hv as [Hl Hi Hm Ho]. unfold lz_round.
  pose proof Hmore as [Hm1 Hm2]%andb_true_iff. apply Z.ltb_lt in Hm1, Hm2.
  destruct (index_is_Some data (lz_data_offset v)) as [ctrl Ec]; [lia|].
  assert (u8 ctrl) as Hc
    by (rewrite index_lookup in Ec by lia; exact (Forall_lookup_1 _ _ _ _ Hdata Ec)).
  rewrite Ec. cbn [mbind option_bind].
  assert (ok (set_offset v (lz_data_offset v + 1))) as Hv1 by (split; cbn; try done; lia).
  destruct (Z.ltb_spec ctrl LZ_MAX_COPY) as [Hlit|Href].
  - right. split.
    { intros (_ & c & p & n & o & Hc' & Hge & _). rewrite Ec in Hc'. simplify_eq. lia. }
    destruct (literal_loop_ok (Z.to_nat (ctrl + 1)) _ Hv1) as (v' & -> & Hv' & Hle).
    exists (Next v'). split; [done|]. cbn in *. split; [done|lia].
  - pose proof (read_reference_ok ctrl (lz_data_offset v + 1) Hc Href ltac:(lia)) as Hr.
    cbn [lz_data_offset set_offset]. 
    destruct (read_reference data ctrl (lz_data_offset v + 1)) as [[o|p n o]|] eqn:Er; [| |done];
      cbn [mbind option_bind].
    + right. split.
      { intros (_ & c & p & n & o' & Hc' & Hge & Er' & _). rewrite Ec in Hc'. simplify_eq. }
      eexists. split; [done|]. cbn. split; cbn; try done; lia.
    + destruct Hr as (Hp & Hn & Ho').
      assert (ok (set_offset (set_offset v (lz_data_offset v + 1)) o)) as Hv2
        by (split; cbn; try done; lia).
      destruct (back_reference_spec p n _ Hv2 Hp Hn) as [(B1 & B2 & B3 & ->)|(B & v' & -> & Hv' & Hoff)].
      * left. split; [|done]. split; [done|]. exists ctrl, p, n, o. split_and!; try done; lia.
      * right. split.
        { intros (_ & c & p' & n' & o' & Hc' & Hge & Er' & G1 & G2 & G3 & G4).
          rewrite Ec in Hc'. simplify_eq. by apply B. }
        eexists. split; [done|]. cbn in *. split; [done|lia].
Qed.

(** The main loop ends, and panics exactly when it reaches such a reference. *)
Lemma lz_loop_spec fuel : forall v, ok v -> zlen data - lz_data_offset v <= Z.of_nat fuel ->
  match lz_loop overflow_checks data output_size fuel v with
  | Some v' =>
      ok v' /\ forall w, lz_steps overflow_checks data output_size v w ->
        ~ before_start data output_size w
  | None =>
      exists w, lz_steps overflow_checks data output_size v w /\
        before_start data output_size w
  end.
Proof.
  induction fuel as [|fuel IH]; intros v Hv Hf.
  - cbn [lz_loop]. destruct (lz_more data output_size v) eqn:Hmore.
    + apply andb_true_iff in Hmore as [_ Hm%Z.ltb_lt]. lia.
    + split; [done|]. intros w Hw. inversion Hw; subst; [|congruence].
      intros [? _]. congruence.
  - cbn [lz_loop]. destruct (lz_more data output_size v) eqn:Hmore.
    2: { split; [done|]. intros w Hw. inversion Hw; subst; [|congruence].
         intros [? _]. congruence. }
    destruct (lz_round_spec v Hv Hmore) as [[Hb ->]|(Hb & [v'|v'] & Hr & Hok)].
    + exists v. split; [constructor|done].
    + rewrite Hr. cbn [mbind option_bind]. destruct Hok as [Hv' Hlt].
      specialize (IH v' Hv' ltac:(lia)).
      destruct (lz_loop overflow_checks data output_size fuel v') as [v''|].
      * destruct IH as [Hv'' Hall]. split; [done|]. intros w Hw. inversion Hw; subst; [done|].
        rewrite Hr in H0. simplify_eq. by apply Hall.
      * destruct IH as (w & Hw & Hbw). exists w. split; [by eapply steps_round|done].
    + rewrite Hr. cbn [mbind option_bind]. split; [done|].
      intros w Hw. inversion Hw; subst; [done|]. congruence.
Qed.
End Bounds.

(** * The bottom-up flip *)

Lemma copy_from_slice_middle {A} (pre mid post src : list A) at' :
  at' = zlen pre -> zlen src = zlen mid ->
  copy_from_slice (pre ++ mid ++ post) at' src = Some (pre ++ src ++ post).
Proof.
  intros -> Hs. unfold copy_from_slice. rewrite !zlen_app, Hs.
  pose proof (zlen_nonneg pre). pose proof (zlen_nonneg post).
  rewrite !(proj2 (Z.leb_le _ _)) by lia. simpl andb. cbv iota.
  rewrite take_zlen_app. do 3 f_equal. rewrite app_assoc.
  rewrite <- zlen_app. apply drop_zlen_app.
Qed.

Lemma zlen_concat_rows {A} (rows : list (list A)) n :
  Forall (fun r => zlen r = n) rows -> zlen (concat rows) = zlen rows * n.
Proof.
  induction 1 as [|r rows Hr _ IH]; [done|]. simpl. rewrite zlen_app, zlen_cons, IH, Hr. lia.
Qed.

Lemma flip_loop_eq row_bytes : 0 <= row_bytes -> forall todo done_,
  Forall (fun r => zlen r = row_bytes) done_ -> Forall (fun r => zlen r = row_bytes) todo ->
  let height := zlen done_ + zlen todo in
  flip_loop (seq (length done_) (length todo)) (concat (done_ ++ todo)) row_bytes height
    (replicate (Z.to_nat (zlen todo * row_bytes)) 0 ++ concat (reverse done_)) =
  Some (concat (reverse (done_ ++ todo))).
Proof.
  intros Hrb. induction todo as [|row todo IH]; intros done_ Hd Ht; cbv zeta.
  { by rewrite app_nil_r. }
  inversion Ht as [|? ? Hrow Htodo]; subst. simpl length. cbn [seq flip_loop].
  pose proof (zlen_concat_rows done_ _ Hd) as Hcd. pose proof (zlen_nonneg todo).
  change (Z.of_nat (length done_)) with (zlen done_).
  rewrite zlen_cons, concat_app. cbn [concat].
  replace (zlen done_ * zlen row) with (zlen (concat done_)) by lia.
  rewrite slice_middle. cbn [mbind option_bind].
  replace (Z.to_nat ((1 + zlen todo) * zlen row))
    with (Z.to_nat (zlen todo * zlen row) + Z.to_nat (zlen row))%nat by lia.
  rewrite replicate_add, <- app_assoc.
  rewrite copy_from_slice_middle by (rewrite zlen_replicate; lia). cbn [mbind option_bind].
  specialize (IH (done_ ++ [row]) ltac:(apply Forall_app; split; [done|by constructor]) Htodo).
  cbv zeta in IH. rewrite length_app, reverse_app, zlen_app, zlen_cons, zlen_nil in IH.
  rewrite <- !app_assoc in IH. cbn [length app reverse] in IH.
  rewrite Nat.add_1_r in IH. rewrite concat_app in IH. cbn [app concat] in IH.
  rewrite <- (Z.add_assoc _ (1 + 0)), Z.add_0_r in IH. exact IH.
Qed.

(** Flipping reverses the rows. *)
Lemma flip_rows_eq rows width : 0 <= width ->
  Forall (fun r => zlen r = width * 4) rows ->
  flip_rows (concat rows) width (zlen rows) = Some (concat (reverse rows)).
Proof.
  intros Hw Hr. unfold flip_rows.
  pose proof (flip_loop_eq (width * 4) ltac:(lia) rows [] ltac:(constructor) Hr) as H.
  cbv zeta in H. rewrite zlen_nil, Z.add_0_l in H. cbn [length app reverse concat] in H.
  rewrite app_nil_r in H. rewrite <- length_zlen. rewrite <- (zlen_concat_rows rows _ Hr) in H.
  rewrite <- length_zlen in H. exact H.
Qed.

(** Any buffer of the right size splits into rows. *)
Lemma split_rows n height (output : list Z) :
  0 <= n -> zlen output = Z.of_nat height * n ->
  exists rows, output = concat rows /\ zlen rows = Z.of_nat height /\
    Forall (fun r => zlen r = n) rows.
Proof.
  intros Hn. revert output. induction height as [|h IH]; intros output Hl.
  - exists []. split_and!; [|done|constructor]. apply zlen_0_nil. lia.
  - destruct (IH (drop (Z.to_nat n) output)) as (rows & Hc & Hz & HF).
    { rewrite zlen_drop. lia. }
    exists (take (Z.to_nat n) output :: rows). split_and!.
    + simpl. by rewrite <- Hc, take_drop.
    + rewrite zlen_cons. lia.
    + constructor; [|done]. rewrite zlen_take. lia.
Qed.

(** * The whole decoder *)

Lemma rgba_len_spec width height n : 0 <= width -> 0 <= height ->
  rgba_len width height = Some n ->
  n = width * height * 4 /\ 1 <= width <= MAX_IMAGE_DIMENSION /\
  1 <= height <= MAX_IMAGE_DIMENSION /\ width * height <= MAX_IMAGE_PIXELS.
Proof.
  intros Hw Hh. unfold rgba_len. cbv zeta.
  destruct (Z.eqb_spec width 0); [done|]. destruct (Z.eqb_spec height 0); [done|].
  destruct (Z.ltb_spec MAX_IMAGE_DIMENSION width); [done|].
  destruct (Z.ltb_spec MAX_IMAGE_DIMENSION height); [done|]. simpl.
  destruct (Z.ltb_spec MAX_IMAGE_PIXELS (width * height)); [done|]. intros [= <-]. lia.
Qed.

Lemma tame_lz_header : tame read_lz_header (fun h => u32 (lh_width h) /\ u32 (lh_height h)).
Proof. unfold read_lz_header. wire_tame. by split. Qed.

Lemma new_some width height pixels id : rgba_len width height = Some (zlen pixels) ->
  DecompressedImage_new width height pixels id =
    Some (mkDecompressedImage width height pixels id 0).
Proof.
  intros H. unfold DecompressedImage_new, DecompressedImage_new_glz.
  by rewrite bool_decide_true.
Qed.

(** What a successful decode promises. *)
Definition image_sized (image : DecompressedImage) : Prop :=
  rgba_len (di_width image) (di_height image) = Some (zlen (di_pixels image)) /\
  zlen (di_pixels image) = di_width image * di_height image * 4 /\
  zlen (di_pixels image) <= 4 * MAX_IMAGE_PIXELS.

(** A payload reaches a reference to the pixel before the image. *)
Definition reaches_before_start (overflow_checks : bool) (data : list Z) : Prop :=
  LZ_HEADER_SIZE <= zlen data /\
  exists h s output_size v,
    read_lz_header data = (Ok h, s) /\ lh_magic h = LZ_MAGIC /\ lh_version_major h = 1 /\
    rgba_len (lh_width h) (lh_height h) = Some output_size /\
    lz_steps overflow_checks data output_size
      (mkVars (replicate (Z.to_nat output_size) 0) LZ_HEADER_SIZE 0) v /\
    before_start data output_size v.

Lemma start_ok data output_size : 0 <= output_size -> LZ_HEADER_SIZE <= zlen data ->
  vars_ok data output_size (mkVars (replicate (Z.to_nat output_size) 0) LZ_HEADER_SIZE 0).
Proof.
  intros Hs Hl. unfold LZ_HEADER_SIZE in *. split; cbn; try lia; try done.
  rewrite zlen_replicate. lia.
Qed.

(** After a loop that ends, the flip and the constructor succeed. *)
Lemma finish_ok h output output_size :
  rgba_len (lh_width h) (lh_height h) = Some output_size ->
  0 <= lh_width h -> 0 <= lh_height h -> zlen output = output_size ->
  exists pixels,
    (if lh_top_down h then Some output
     else flip_rows output (lh_width h) (lh_height h)) = Some pixels /\
    zlen pixels = output_size.
Proof.
  intros Hr Hw Hh Hl. destruct (rgba_len_spec _ _ _ Hw Hh Hr) as (Hsz & _ & _ & _).
  destruct (lh_top_down h); [by exists output|].
  destruct (split_rows (lh_width h * 4) (Z.to_nat (lh_height h)) output)
    as (rows & -> & Hz & HF); [lia|lia|].
  replace (lh_height h) with (zlen rows) by lia. rewrite flip_rows_eq by done.
  eexists. split; [done|].
  rewrite (zlen_concat_rows (reverse rows) (lh_width h * 4)) by by apply Forall_reverse.
  unfold zlen in Hz |- *. rewrite length_reverse. lia.
Qed.

(** Refute [reaches_before_start] for a header that was read. *)
Ltac no_reach :=
  intros (_ & ? & ? & ? & ? & ? & ? & ? & ? & ? & ?); simplify_eq/=; try congruence.

Lemma decompress_lz_ok overflow_checks data :
  bytes data ->
  match decompress_lz overflow_checks data with
  | Ok image => image_sized image /\ ~ reaches_before_start overflow_checks data
  | Err _ => ~ reaches_before_start overflow_checks data
  | Panic => reaches_before_start overflow_checks data
  end.
Proof.
  intros Hb. unfold decompress_lz.
  destruct (Z.ltb_spec (zlen data) LZ_HEADER_SIZE); [intros [? _]; lia|].
  pose proof (tame_lz_header data Hb) as Ht. unfold reaches_before_start.
  destruct (read_lz_header data) as [[h|e|] s]; cbn [fst]; [|no_reach|done].
  destruct Ht as [_ [[Hw _] [Hh _]]].
  destruct (bool_decide_reflect (lh_magic h = LZ_MAGIC)) as [Hmagic|]; simpl negb; cbv iota;
    [|no_reach].
  destruct (Z.eqb_spec (lh_version_major h) 1) as [Hver|]; simpl negb; cbv iota;
    [|no_reach].
  destruct (rgba_len (lh_width h) (lh_height h)) as [output_size|] eqn:Er; [|no_reach].
  destruct (rgba_len_spec _ _ _ Hw Hh Er) as (Hsz & Hw' & Hh' & Hpx).
  unfold MAX_IMAGE_PIXELS in *.
  pose proof (lz_loop_spec overflow_checks data output_size Hb ltac:(lia)
    ltac:(rewrite Hsz; apply Z.mod_mul; lia) (length data) _
    (start_ok data output_size ltac:(lia) ltac:(lia))
    ltac:(unfold zlen, LZ_HEADER_SIZE; cbn; lia)) as Hl.
  destruct (lz_loop _ _ _ _ _) as [v|]; cbn [rlift rbind].
  - destruct Hl as [[Hlen _ _ _] Hno].
    destruct (finish_ok h (lz_output v) output_size Er Hw Hh Hlen) as (pixels & -> & Hp).
    cbn [rlift rbind]. rewrite new_some by (by rewrite Hp). split.
    + unfold image_sized, MAX_IMAGE_PIXELS. cbn. rewrite Hp. split_and!; [done|lia|lia].
    + no_reach. by eapply Hno.
  - destruct Hl as (w & Hw1 & Hw2). split; [done|]. exists h, s, output_size, w. by split_and!.
Qed.

(** C27: On any payload, in either build profile, the LZ decoder terminates; an
    image it returns passes the size limits with exactly [width * height * 4]
    bytes of pixels (at most 256 MiB); and it panics exactly when the stream
    reaches a back-reference to the pixel just before the start of the image. *)
Theorem lz_panics_exactly_before_start overflow_checks data :
  bytes data ->
  match decompress_lz overflow_checks data with
  | Ok image => image_sized image /\ ~ reaches_before_start overflow_checks data
  | Err _ => ~ reaches_before_start overflow_checks data
  | Panic => reaches_before_start overflow_checks data
  end.
Proof. exact (decompress_lz_ok overflow_checks data). Qed.

(** A 2x2 image: one literal pixel, then a copy from two pixels back. *)
Definition lz_crash : list Z :=
  LZ_MAGIC ++ [0; 1] ++ [0; 0] ++ [0; 0; 0] ++ [0] ++ [0; 0; 0; 2] ++ [0; 0; 0; 2] ++
  [0; 0; 0; 8] ++ [0; 0; 0; 1] ++ [0; 10; 20; 30] ++ [32; 1].

Lemma lz_panics_exactly_before_start_witness :
  (forall overflow_checks, decompress_lz overflow_checks lz_crash = Panic) /\
  reaches_before_start false lz_crash.
Proof.
  split; [by intros []; vm_compute|].
  assert (bytes lz_crash) as Hb by (apply (bool_decide_unpack _); vm_compute; exact I).
  pose proof (lz_panics_exactly_before_start false lz_crash Hb) as H.
  assert (decompress_lz false lz_crash = Panic) as E by (vm_compute; reflexivity).
  rewrite E in H. exact H.
Defined.

(** * The reference semantics of a token stream *)

Definition colour : Type := Z * Z * Z.
(** Red, green, blue and alpha. *)
Definition pixel : Type := Z * Z * Z * Z.

Definition opaque (c : colour) : pixel := (c, 255).

Inductive lz_token : Type :=
| Tok_literal (cs : list colour)
| Tok_copy (offset length : Z).

(** Copying appends, so a copy may read pixels it has just written. *)
Fixpoint expand_copy (n : nat) (offset : nat) (acc : list pixel) : list pixel :=
  match n with
  | O => acc
  | S n =>
      match acc !! (length acc - offset)%nat with
      | Some p => expand_copy n offset (acc ++ [p])
      | None => acc
      end
  end.

Definition expand_token (acc : list pixel) (t : lz_token) : list pixel :=
  match t with
  | Tok_literal cs => acc ++ map opaque cs
  | Tok_copy offset length => expand_copy (Z.to_nat length) (Z.to_nat offset) acc
  end.

Definition expand_tokens (acc : list pixel) (ts : list lz_token) : list pixel :=
  foldl expand_token acc ts.

(** ** Its wire form *)

Definition bgr (c : colour) : list Z := let '(r, g, b) := c in [b; g; r].
Definition rgba (p : pixel) : list Z := let '(r, g, b, a) := p in [r; g; b; a].
Definition flat (ps : list pixel) : list Z := concat (map rgba ps).

(** A length of seven or more continues in bytes, all 255 but the last. *)
Definition run_bytes (length : Z) : list Z :=
  if length <? 7 then []
  else replicate (Z.to_nat ((length - 7) / 255)) 255 ++ [(length - 7) mod 255].

Definition token_bytes (t : lz_token) : list Z :=
  match t with
  | Tok_literal cs => [zlen cs - 1] ++ concat (map bgr cs)
  | Tok_copy offset length =>
      let o := offset - 1 in
      if o <? 8191 then
        [Z.min length 7 * 32 + o / 256] ++ run_bytes length ++ [o mod 256]
      else
        [Z.min length 7 * 32 + 31] ++ run_bytes length ++
        [255; (o - 8191) / 256; (o - 8191) mod 256]
  end.

Definition colour_ok (c : colour) : Prop := let '(r, g, b) := c in u8 r /\ u8 g /\ u8 b.

(** Literals carry 1 to 32 pixels; a copy reaches back into the image and the
    format can express its offset. *)
Definition token_ok (acc : list pixel) (t : lz_token) : Prop :=
  match t with
  | Tok_literal cs => 1 <= zlen cs <= 32 /\ Forall colour_ok cs
  | Tok_copy offset length => 1 <= offset <= Z.min (zlen acc) (8192 + 65535) /\ 1 <= length
  end.

Fixpoint tokens_ok (acc : list pixel) (ts : list lz_token) : Prop :=
  match ts with
  | [] => True
  | t :: ts => token_ok acc t /\ tokens_ok (expand_token acc t) ts
  end.

(** * The decoder computes it *)

Lemma index_middle {A} (pre post : list A) x i : i = zlen pre -> index (pre ++ x :: post) i = Some x.
Proof.
  intros ->. pose proof (zlen_nonneg pre). pose proof (zlen_nonneg post).
  rewrite index_lookup by (rewrite zlen_app, zlen_cons; lia).
  rewrite <- length_zlen. by apply list_lookup_middle.
Qed.

Lemma set_index_middle (pre post : list Z) x v i :
  i = zlen pre -> set_index (pre ++ x :: post) i v = Some (pre ++ v :: post).
Proof.
  intros ->. unfold set_index. pose proof (zlen_nonneg pre). pose proof (zlen_nonneg post).
  rewrite (proj2 (Z.leb_le _ _)), (proj2 (Z.ltb_lt _ _)) by (rewrite ?zlen_app, ?zlen_cons; lia).
  simpl andb. cbv iota. rewrite <- length_zlen.
  by rewrite insert_app_r_alt, Nat.sub_diag by lia.
Qed.

Lemma put_pixel_eq pre post w x y z dst r g b a : dst = zlen pre ->
  put_pixel (pre ++ [w; x; y; z] ++ post) dst r g b a = Some (pre ++ [r; g; b; a] ++ post).
Proof.
  intros ->. unfold put_pixel. cbn [app].
  rewrite set_index_middle by done. cbn [mbind option_bind].
  change (pre ++ r :: x :: y :: z :: post) with (pre ++ [r] ++ x :: y :: z :: post).
  rewrite app_assoc, set_index_middle by (rewrite zlen_app; done). cbn [mbind option_bind].
  rewrite <- app_assoc. change ([r] ++ g :: y :: z :: post) with ([r; g] ++ y :: z :: post).
  rewrite app_assoc, set_index_middle by (rewrite zlen_app; done). cbn [mbind option_bind].
  rewrite <- app_assoc. change ([r; g] ++ b :: z :: post) with ([r; g; b] ++ z :: post).
  rewrite app_assoc, set_index_middle by (rewrite zlen_app; done).
  by rewrite <- app_assoc.
Qed.

(** One byte copied from a prefix to the byte after it. *)
Lemma copy_byte_eq p1 s p2 x post dst src : dst = zlen (p1 ++ s :: p2) -> src = zlen p1 ->
  copy_byte ((p1 ++ s :: p2) ++ x :: post) dst src = Some ((p1 ++ s :: p2) ++ s :: post).
Proof.
  intros -> ->. unfold copy_byte. rewrite <- app_assoc at 1. cbn [app].
  rewrite index_middle by done. cbn [mbind option_bind]. by apply set_index_middle.
Qed.

Lemma copy_pixel_eq p1 r g b a p2 w x y z post dst src :
  dst = zlen (p1 ++ [r; g; b; a] ++ p2) -> src = zlen p1 ->
  copy_pixel ((p1 ++ [r; g; b; a] ++ p2) ++ [w; x; y; z] ++ post) dst src =
    Some ((p1 ++ [r; g; b; a] ++ p2) ++ [r; g; b; a] ++ post).
Proof.
  intros -> ->. unfold copy_pixel. cbn [app].
  rewrite copy_byte_eq by done. cbn [mbind option_bind].
  pose proof (copy_byte_eq (p1 ++ [r]) g (b :: a :: p2 ++ [r]) x (y :: z :: post)
    (zlen (p1 ++ r :: g :: b :: a :: p2) + 1) (zlen p1 + 1)) as E1.
  pose proof (copy_byte_eq (p1 ++ [r; g]) b (a :: p2 ++ [r; g]) y (z :: post)
    (zlen (p1 ++ r :: g :: b :: a :: p2) + 2) (zlen p1 + 2)) as E2.
  pose proof (copy_byte_eq (p1 ++ [r; g; b]) a (p2 ++ [r; g; b]) z post
    (zlen (p1 ++ r :: g :: b :: a :: p2) + 3) (zlen p1 + 3)) as E3.
  rewrite <- !app_assoc in E1, E2, E3. cbn [app] in E1, E2, E3.
  rewrite <- !app_assoc in E1, E2, E3. cbn [app] in E1, E2, E3.
  rewrite <- !app_assoc. cbn [app].
  rewrite E1 by (autorewrite with zlen; lia). cbn [mbind option_bind].
  rewrite E2 by (autorewrite with zlen; lia). cbn [mbind option_bind].
  rewrite E3 by (autorewrite with zlen; lia). done.
Qed.

Lemma zlen_flat ps : zlen (flat ps) = 4 * zlen ps.
Proof. apply zlen_concat_map. by intros [[[r g] b] a]. Qed.

Lemma flat_app a b : flat (a ++ b) = flat a ++ flat b.
Proof. unfold flat. by rewrite map_app, concat_app. Qed.

Lemma flat_one p : flat [p] = rgba p.
Proof. unfold flat. simpl. apply app_nil_r. Qed.

(** The buffer holds the pixels so far and zeros. *)
Record drawn (size : Z) (acc : list pixel) (v : lz_vars) : Prop := {
  dr_output : lz_output v = flat acc ++ replicate (Z.to_nat (size - 4 * zlen acc)) 0;
  dr_idx : lz_out_idx v = 4 * zlen acc;
  dr_fits : 4 * zlen acc <= size
}.

Lemma drawn_room size acc v : drawn size acc v -> 4 * zlen acc + 4 <= size ->
  lz_output v = flat acc ++ [0; 0; 0; 0] ++
    replicate (Z.to_nat (size - 4 * (zlen acc + 1))) 0.
Proof.
  intros [Ho _ _] Hroom. rewrite Ho. f_equal.
  replace (Z.to_nat (size - 4 * zlen acc))
    with (4 + Z.to_nat (size - 4 * (zlen acc + 1)))%nat by lia.
  by rewrite replicate_add.
Qed.

Lemma drawn_snoc size acc p off :
  4 * zlen acc + 4 <= size ->
  drawn size (acc ++ [p]) (mkVars (flat acc ++ rgba p ++
    replicate (Z.to_nat (size - 4 * (zlen acc + 1))) 0) off (4 * zlen acc + 4)).
Proof.
  intros Hroom. split; cbn; rewrite ?zlen_app, ?zlen_cons, ?zlen_nil; try lia.
  rewrite flat_app, flat_one, <- app_assoc. by rewrite Z.add_0_r.
Qed.

Lemma drawn_zlen size acc v : drawn size acc v -> zlen (lz_output v) = size.
Proof.
  intros [Ho _ Hf]. rewrite Ho, zlen_app, zlen_flat, zlen_replicate. lia.
Qed.

Section Draw.
Context (overflow_checks : bool) (data : list Z) (size : Z).
Context (Hsize : size <= 2 ^ 32).

Lemma literal_loop_eq cs : forall acc v pre post,
  drawn size acc v -> data = pre ++ concat (map bgr cs) ++ post ->
  lz_data_offset v = zlen pre -> 4 * (zlen acc + zlen cs) <= size ->
  exists v', literal_loop data size (length cs) v = Some v' /\
    drawn size (acc ++ map opaque cs) v' /\ lz_data_offset v' = zlen pre + zlen (concat (map bgr cs)).
Proof.
  induction cs as [|[[r g] b] cs IH]; intros acc v pre post Hv Hd Ho Hfit.
  { exists v. simpl map. rewrite app_nil_r. split_and!; [done|done|]. simpl. rewrite zlen_nil. lia. }
  rewrite zlen_cons in Hfit. pose proof (zlen_nonneg cs). cbn [length literal_loop].
  pose proof Hv as [_ Hidx _]. rewrite Hidx, Ho.
  cbn [map concat bgr] in Hd. rewrite <- app_assoc in Hd. cbn [app] in Hd.
  assert (zlen data = zlen pre + 3 + zlen (concat (map bgr cs)) + zlen post) as Hzd
    by (rewrite Hd, zlen_app, !zlen_cons, zlen_app; lia).
  pose proof (zlen_nonneg (concat (map bgr cs))). pose proof (zlen_nonneg post).
  rewrite !(proj2 (Z.ltb_ge _ _)) by lia. simpl orb. cbv iota.
  set (t := concat (map bgr cs) ++ post) in *.
  assert (index data (zlen pre + 2) = Some r) as ->
    by (rewrite Hd; change (pre ++ b :: g :: r :: t) with (pre ++ [b; g] ++ r :: t);
        rewrite app_assoc; apply index_middle; by rewrite zlen_app).
  assert (index data (zlen pre + 1) = Some g) as ->
    by (rewrite Hd; change (pre ++ b :: g :: r :: t) with (pre ++ [b] ++ g :: r :: t);
        rewrite app_assoc; apply index_middle; by rewrite zlen_app).
  assert (index data (zlen pre) = Some b) as -> by (rewrite Hd; by apply index_middle).
  cbn [mbind option_bind].
  rewrite (drawn_room _ _ _ Hv) by lia.
  rewrite put_pixel_eq by (by rewrite zlen_flat). cbn [mbind option_bind].
  destruct (IH (acc ++ [(r, g, b, 255)]) (mkVars (flat acc ++ rgba (r, g, b, 255) ++
      replicate (Z.to_nat (size - 4 * (zlen acc + 1))) 0) (zlen pre + 3) (4 * zlen acc + 4))
    (pre ++ [b; g; r]) post) as (v' & Hl & Hv' & Ho').
  - apply drawn_snoc. lia.
  - rewrite Hd, <- app_assoc. done.
  - cbn. by rewrite zlen_app.
  - rewrite zlen_app, zlen_cons, zlen_nil. lia.
  - exists v'. split; [exact Hl|]. rewrite <- app_assoc in Hv'. split; [exact Hv'|].
    rewrite Ho', zlen_app. cbn [map concat bgr]. rewrite zlen_app. unfold zlen. simpl. lia.
Qed.

(** The pixel a copy reads, as a split of the buffer. *)
Lemma copy_one acc v p k : drawn size acc v -> acc !! k = Some p -> 4 * zlen acc + 4 <= size ->
  copy_pixel (lz_output v) (lz_out_idx v) (4 * Z.of_nat k) =
    Some (flat acc ++ rgba p ++ replicate (Z.to_nat (size - 4 * (zlen acc + 1))) 0).
Proof.
  intros Hv Hk Hroom. rewrite (drawn_room _ _ _ Hv) by done. pose proof Hv as [_ -> _].
  rewrite <- (take_drop_middle acc k p Hk) at 1 4. destruct p as [[[r g] b] a].
  change ((r, g, b, a) :: drop (S k) acc) with ([(r, g, b, a)] ++ drop (S k) acc).
  rewrite !flat_app, flat_one. cbn [rgba]. apply copy_pixel_eq.
  - change [r; g; b; a] with (rgba (r, g, b, a)). rewrite <- flat_one, <- !flat_app.
    cbn [app]. by rewrite take_drop_middle, zlen_flat.
  - rewrite zlen_flat, zlen_take. pose proof (lookup_lt_Some _ _ _ Hk). unfold zlen. lia.
Qed.

Lemma expand_copy_zlen n off acc : (1 <= off <= length acc)%nat ->
  zlen (expand_copy n off acc) = zlen acc + Z.of_nat n.
Proof.
  revert acc. induction n as [|n IH]; intros acc Ho; simpl; [lia|].
  destruct (lookup_lt_is_Some_2 acc (length acc - off)) as [p ->]; [lia|].
  rewrite IH by (rewrite length_app; simpl; lia). rewrite zlen_app, zlen_cons, zlen_nil. lia.
Qed.

Lemma copy_loop_eq n : forall off acc v,
  drawn size acc v -> (1 <= off <= length acc)%nat -> 4 * (zlen acc + Z.of_nat n) <= size ->
  exists v', copy_loop overflow_checks size n (4 * (zlen acc - Z.of_nat off)) v = Some v' /\
    drawn size (expand_copy n off acc) v' /\ lz_data_offset v' = lz_data_offset v.
Proof.
  induction n as [|n IH]; intros off acc v Hv Ho Hfit; cbn [copy_loop expand_copy]; [by exists v|].
  rewrite (drawn_zlen _ _ _ Hv). pose proof Hv as [_ Hidx _].
  rewrite (proj2 (Z.ltb_ge _ (lz_out_idx v + 4))) by lia.
  assert (zlen acc - Z.of_nat off = Z.of_nat (length acc - off)) as Hk by (unfold zlen; lia).
  assert (zlen acc = Z.of_nat (length acc)) as Hz by done.
  unfold add_usize. rewrite (proj2 (Z.leb_le _ _)) by (unfold usize_max; lia).
  cbn [mbind option_bind]. rewrite (proj2 (Z.ltb_ge _ _)) by lia.
  destruct (lookup_lt_is_Some_2 acc (length acc - off)) as [p Hp]; [lia|]. rewrite Hp.
  rewrite Hk, (copy_one _ _ p _ Hv Hp) by lia. cbn [mbind option_bind].
  destruct (IH off (acc ++ [p]) (mkVars (flat acc ++ rgba p ++
      replicate (Z.to_nat (size - 4 * (zlen acc + 1))) 0) (lz_data_offset v) (lz_out_idx v + 4)))
    as (v' & Hl & Hv' & Ho').
  - rewrite Hidx. apply drawn_snoc. lia.
  - rewrite length_app. simpl. lia.
  - rewrite zlen_app, zlen_cons, zlen_nil. lia.
  - exists v'. split; [|done]. rewrite <- Hl. f_equal.
    rewrite zlen_app, zlen_cons, zlen_nil. lia.
Qed.

(** Repeating the last pixel is a copy from one back. *)
Lemma repeat_loop_eq n : forall acc k p v,
  drawn size acc v -> acc !! k = Some p -> list.last acc = Some p ->
  4 * (zlen acc + Z.of_nat n) <= size ->
  exists v', repeat_loop size n (4 * Z.of_nat k) v = Some v' /\
    drawn size (expand_copy n 1 acc) v' /\ lz_data_offset v' = lz_data_offset v.
Proof.
  induction n as [|n IH]; intros acc k p v Hv Hk Hlast Hfit; cbn [repeat_loop expand_copy];
    [by exists v|].
  rewrite (drawn_zlen _ _ _ Hv). pose proof Hv as [_ Hidx _].
  pose proof (lookup_lt_Some _ _ _ Hk). assert (zlen acc = Z.of_nat (length acc)) by done.
  rewrite (proj2 (Z.ltb_ge _ (lz_out_idx v + 4))), (proj2 (Z.leb_gt _ _)) by lia.
  simpl orb. cbv iota. rewrite (copy_one _ _ p _ Hv Hk) by lia. cbn [mbind option_bind].
  rewrite last_lookup in Hlast. rewrite Nat.sub_1_r, Hlast.
  destruct (IH (acc ++ [p]) k p (mkVars (flat acc ++ rgba p ++
      replicate (Z.to_nat (size - 4 * (zlen acc + 1))) 0) (lz_data_offset v) (lz_out_idx v + 4)))
    as (v' & Hl & Hv' & Ho').
  - rewrite Hidx. apply drawn_snoc. lia.
  - by apply lookup_app_l_Some.
  - apply last_snoc.
  - rewrite zlen_app, zlen_cons, zlen_nil. lia.
  - by exists v'.
Qed.

Lemma back_reference_eq off n acc v :
  drawn size acc v -> 1 <= off <= zlen acc -> 1 <= n -> 4 * (zlen acc + n) <= size ->
  exists v', back_reference overflow_checks size off n v = Some v' /\
    drawn size (expand_copy (Z.to_nat n) (Z.to_nat off) acc) v' /\
    lz_data_offset v' = lz_data_offset v.
Proof.
  intros Hv Ho Hn Hfit. unfold back_reference. pose proof Hv as [_ -> _].
  rewrite wrapping_sub_above by lia. assert (zlen acc = Z.of_nat (length acc)) by done.
  destruct (Z.eqb_spec off 1) as [->|Hne].
  - destruct (lookup_lt_is_Some_2 acc (pred (length acc))) as [p Hp]; [lia|].
    destruct (repeat_loop_eq (Z.to_nat n) acc (pred (length acc)) p v Hv Hp) as (v' & Hl & Hv' & Ho');
      [by rewrite last_lookup|lia|].
    exists v'. split; [|done]. rewrite <- Hl. f_equal. lia.
  - destruct (copy_loop_eq (Z.to_nat n) (Z.to_nat off) acc v Hv) as (v' & Hl & Hv' & Ho');
      [lia|lia|].
    exists v'. split; [|done]. rewrite <- Hl. f_equal. lia.
Qed.
End Draw.

(** ** Parsing a token *)

Lemma ctrl_bits l hi : 0 <= l -> 0 <= hi < 32 ->
  Z.shiftr (l * 32 + hi) 5 = l /\ Z.land (l * 32 + hi) 31 = hi.
Proof.
  intros Hl Hh. split.
  - rewrite Z.shiftr_div_pow2 by lia. change (2 ^ 5) with 32.
    rewrite Z.div_add_l, Z.div_small by lia. lia.
  - change 31 with (Z.ones 5). rewrite Z.land_ones by lia. change (2 ^ 5) with 32.
    rewrite Z.add_comm, Z.mod_add, Z.mod_small by lia. done.
Qed.

(** [(hi << 8) | lo] of two bytes. *)
Lemma lor_disjoint hi lo : 0 <= hi -> 0 <= lo < 256 -> Z.lor (Z.shiftl hi 8) lo = hi * 256 + lo.
Proof.
  intros Hh Hl. assert (Z.land (Z.shiftl hi 8) lo = 0) as Hz.
  { apply Z.bits_inj'. intros i Hi. rewrite Z.land_spec, Z.bits_0.
    destruct (Z.lt_ge_cases i 8).
    - by rewrite Z.shiftl_spec_low.
    - destruct (Z.eq_dec lo 0) as [->|]; [by rewrite Z.bits_0, andb_false_r|].
      rewrite (Z.bits_above_log2 lo i), andb_false_r; [done|lia|].
      apply Z.lt_le_trans with 8; [apply Z.log2_lt_pow2; lia|done]. }
  rewrite <- Z.lxor_lor, <- Z.add_nocarry_lxor by done.
  rewrite Z.shiftl_mul_pow2 by lia. change (2 ^ 8) with 256. done.
Qed.

Lemma length_loop_eq data q : forall fuel pre r post n,
  data = pre ++ replicate q 255 ++ [r] ++ post -> 0 <= r < 255 -> (q < fuel)%nat ->
  length_loop data fuel n (zlen pre) =
    Some (n + 255 * Z.of_nat q + r, zlen pre + Z.of_nat q + 1).
Proof.
  induction q as [|q IH]; intros fuel pre r post n Hd Hr Hf;
    (destruct fuel as [|fuel]; [lia|]); cbn [length_loop].
  - cbn [replicate app] in Hd.
    rewrite (proj2 (Z.leb_gt _ _)) by (rewrite Hd, zlen_app, zlen_cons; zlen_nonneg_all; lia).
    rewrite Hd, index_middle by done. cbn [mbind option_bind].
    destruct (Z.eqb_spec r 255); [lia|]. simpl negb. cbv iota. do 2 f_equal; lia.
  - cbn [replicate app] in Hd.
    rewrite (proj2 (Z.leb_gt _ _)) by (rewrite Hd, zlen_app, zlen_cons; zlen_nonneg_all; lia).
    assert (index data (zlen pre) = Some 255) as -> by (rewrite Hd; by apply index_middle).
    cbn [mbind option_bind]. rewrite Z.eqb_refl. simpl negb. cbv iota.
    specialize (IH fuel (pre ++ [255]) r post (n + 255)).
    assert (zlen (pre ++ [255]) = zlen pre + 1) as Hz by (by rewrite zlen_app).
    rewrite Hz in IH.
    rewrite IH; [do 2 f_equal; lia|by rewrite Hd, <- app_assoc|done|lia].
Qed.

(** The length field, with its continuation bytes. *)
Lemma read_length data pre pos n post :
  data = pre ++ run_bytes n ++ post -> pos = zlen pre -> 1 <= n ->
  (if Z.min n 7 =? 7
   then length_loop data (S (Z.to_nat (zlen data - pos))) (Z.min n 7) pos
   else Some (Z.min n 7, pos)) = Some (n, pos + zlen (run_bytes n)).
Proof.
  intros Hd -> Hn. unfold run_bytes in *. destruct (Z.ltb_spec n 7).
  - rewrite Z.min_l by lia. rewrite (proj2 (Z.eqb_neq _ _)) by lia.
    rewrite zlen_nil. do 2 f_equal. lia.
  - rewrite Z.min_r, Z.eqb_refl by lia. rewrite <- app_assoc in Hd.
    pose proof (Z.mod_pos_bound (n - 7) 255 eq_refl). pose proof (Z.div_pos (n - 7) 255).
    pose proof (Z.div_mod (n - 7) 255).
    rewrite (length_loop_eq data (Z.to_nat ((n - 7) / 255)) _ pre ((n - 7) mod 255) post).
    + rewrite zlen_app, zlen_replicate, zlen_cons, zlen_nil. do 2 f_equal; lia.
    + done.
    + lia.
    + rewrite Hd, !zlen_app, zlen_replicate, zlen_cons, zlen_nil. zlen_nonneg_all. lia.
Qed.

Lemma read_reference_eq data pre off n post :
  data = pre ++ token_bytes (Tok_copy off n) ++ post -> 1 <= n -> 1 <= off <= 8192 + 65535 ->
  exists ctrl, index data (zlen pre) = Some ctrl /\ LZ_MAX_COPY <= ctrl /\
    read_reference data ctrl (zlen pre + 1) =
      Some (Ref_copy off n (zlen pre + zlen (token_bytes (Tok_copy off n)))).
Proof.
  intros Hd Hn Ho. cbn [token_bytes] in *. cbv zeta in *. unfold LZ_MAX_COPY.
  destruct (Z.ltb_spec (off - 1) 8191) as [Hs|Hl].
  - set (hi := (off - 1) / 256) in *. set (lo := (off - 1) mod 256) in *.
    assert (0 <= hi < 32 /\ 0 <= lo < 256 /\ off - 1 = hi * 256 + lo) as (Hhi & Hlo & Hoff).
    { pose proof (Z.mod_pos_bound (off - 1) 256 eq_refl). pose proof (Z.div_mod (off - 1) 256).
      unfold hi, lo. split_and!; lia. }
    rewrite <- !app_assoc in Hd. set (ctrl := Z.min n 7 * 32 + hi) in *.
    exists ctrl. split; [rewrite Hd; by apply index_middle|]. split; [unfold ctrl; lia|].
    unfold read_reference. destruct (ctrl_bits (Z.min n 7) hi) as [E1 E2]; [lia|done|].
    fold ctrl in E1, E2. rewrite E1, E2.
    rewrite (read_length data (pre ++ [ctrl]) (zlen pre + 1) n ([lo] ++ post));
      [|by rewrite Hd, <- app_assoc|by rewrite zlen_app|done].
    cbn [mbind option_bind].
    rewrite (proj2 (Z.leb_gt _ _))
      by (rewrite Hd, !zlen_app, !zlen_cons, zlen_nil; zlen_nonneg_all; lia).
    assert (index data (zlen pre + 1 + zlen (run_bytes n)) = Some lo) as ->.
    { rewrite Hd, (app_assoc [ctrl]), app_assoc. apply index_middle.
      rewrite !zlen_app, zlen_cons, zlen_nil. lia. }
    cbn [mbind option_bind]. rewrite Z.add_simpl_r, !Z.shiftl_mul_pow2 by lia.
    change (2 ^ 8) with 256. change (31 * 256) with 7936.
    rewrite (proj2 (andb_false_iff _ _)).
    + do 2 f_equal; [lia|]. rewrite !zlen_app, !zlen_cons, zlen_nil. lia.
    + destruct (Z.eqb_spec lo 255); [right; apply Z.eqb_neq; lia|by left].
  - set (hi := (off - 1 - 8191) / 256) in *. set (lo := (off - 1 - 8191) mod 256) in *.
    assert (0 <= hi < 256 /\ 0 <= lo < 256 /\ off - 1 - 8191 = hi * 256 + lo) as (Hhi & Hlo & Hoff).
    { pose proof (Z.mod_pos_bound (off - 1 - 8191) 256 eq_refl).
      pose proof (Z.div_mod (off - 1 - 8191) 256).
      unfold hi, lo. split_and!; lia. }
    rewrite <- !app_assoc in Hd. set (ctrl := Z.min n 7 * 32 + 31) in *.
    exists ctrl. split; [rewrite Hd; by apply index_middle|]. split; [unfold ctrl; lia|].
    unfold read_reference. destruct (ctrl_bits (Z.min n 7) 31) as [E1 E2]; [lia|done|].
    fold ctrl in E1, E2. rewrite E1, E2.
    rewrite (read_length data (pre ++ [ctrl]) (zlen pre + 1) n ([255; hi; lo] ++ post));
      [|by rewrite Hd, <- app_assoc|by rewrite zlen_app|done].
    cbn [mbind option_bind].
    set (q := zlen pre + 1 + zlen (run_bytes n)).
    assert (zlen data = q + 3 + zlen post) as Hzd
      by (rewrite Hd, !zlen_app, !zlen_cons, zlen_nil; unfold q; lia).
    pose proof (zlen_nonneg post).
    rewrite (proj2 (Z.leb_gt _ _)) by lia.
    assert (data = (pre ++ [ctrl] ++ run_bytes n) ++ 255 :: hi :: lo :: post) as Hd'
      by (rewrite Hd, <- !app_assoc; done).
    assert (zlen (pre ++ [ctrl] ++ run_bytes n) = q) as Hq
      by (rewrite !zlen_app, zlen_cons, zlen_nil; unfold q; lia).
    set (pre' := pre ++ [ctrl] ++ run_bytes n) in *.
    assert (index data q = Some 255) as -> by (rewrite Hd'; by apply index_middle).
    cbn [mbind option_bind]. rewrite Z.add_simpl_r. change (255 =? 255) with true. rewrite Z.eqb_refl. simpl andb. cbv iota.
    rewrite (proj2 (Z.ltb_ge _ _)) by lia.
    assert (index data (q + 1) = Some hi) as ->.
    { rewrite Hd'. change (pre' ++ 255 :: hi :: lo :: post) with (pre' ++ [255] ++ hi :: lo :: post).
      rewrite app_assoc. apply index_middle. by rewrite zlen_app, Hq. }
    assert (index data (q + 1 + 1) = Some lo) as ->.
    { rewrite Hd'. change (pre' ++ 255 :: hi :: lo :: post) with (pre' ++ [255; hi] ++ lo :: post).
      rewrite app_assoc. apply index_middle. rewrite zlen_app, Hq, zlen_cons, zlen_cons, zlen_nil. lia. }
    cbn [mbind option_bind]. rewrite lor_disjoint by lia.
    do 2 f_equal; [lia|]. rewrite !zlen_app, !zlen_cons, zlen_nil. unfold q. lia.
Qed.

Lemma expand_token_grows acc t : token_ok acc t -> zlen acc < zlen (expand_token acc t).
Proof.
  destruct t as [cs|off n]; cbn [token_ok expand_token]; intros [H1 H2].
  - rewrite zlen_app, zlen_map. lia.
  - rewrite expand_copy_zlen by (unfold zlen in H1; lia). lia.
Qed.

Lemma expand_tokens_grows ts : forall acc, tokens_ok acc ts -> zlen acc <= zlen (expand_tokens acc ts).
Proof.
  induction ts as [|t ts IH]; intros acc; cbn [tokens_ok]; [by intros _|].
  intros [Ht Hts]. apply expand_token_grows in Ht. apply IH in Hts.
  unfold expand_tokens in *. simpl. lia.
Qed.

Lemma token_bytes_pos t : (1 <= length (token_bytes t))%nat.
Proof. destruct t as [cs|off n]; cbn [token_bytes]; [simpl; lia|]. cbv zeta. case_match; simpl; lia. Qed.

Section Tokens.
Context (overflow_checks : bool) (data : list Z) (size : Z).
Context (Hsize : size <= 2 ^ 32).

(** One round of the decoder is one token. *)
Lemma lz_round_token t acc v pre post :
  drawn size acc v -> token_ok acc t -> data = pre ++ token_bytes t ++ post ->
  lz_data_offset v = zlen pre -> 4 * zlen (expand_token acc t) <= size ->
  exists v', lz_round overflow_checks data size v = Some (Next v') /\
    drawn size (expand_token acc t) v' /\ lz_data_offset v' = zlen pre + zlen (token_bytes t).
Proof.
  intros Hv Ht Hd Ho Hfit. unfold lz_round. rewrite Ho.
  destruct t as [cs|off n]; cbn [token_ok expand_token] in *; destruct Ht as [H1 H2].
  - cbn [token_bytes] in *. cbn [app] in Hd.
    assert (index data (zlen pre) = Some (zlen cs - 1)) as ->
      by (rewrite Hd; by apply index_middle).
    cbn [mbind option_bind]. unfold LZ_MAX_COPY.
    rewrite (proj2 (Z.ltb_lt _ _)) by lia.
    replace (Z.to_nat (zlen cs - 1 + 1)) with (length cs) by (unfold zlen; lia).
    destruct (literal_loop_eq data size cs acc (set_offset v (zlen pre + 1))
      (pre ++ [zlen cs - 1]) post) as (v' & -> & Hv' & Ho').
    + destruct Hv as [D1 D2 D3]. by split.
    + rewrite Hd, <- app_assoc. done.
    + by rewrite zlen_app.
    + rewrite zlen_app, zlen_map in Hfit. lia.
    + exists v'. split; [done|]. split; [done|]. rewrite Ho', !zlen_app. lia.
  - destruct (read_reference_eq data pre off n post) as (ctrl & -> & Hc & Hr); [done|done|lia|].
    cbn [mbind option_bind]. rewrite (proj2 (Z.ltb_ge _ _)) by done. cbn [lz_data_offset set_offset].
    rewrite Hr. cbn [mbind option_bind].
    destruct (back_reference_eq overflow_checks size Hsize off n acc
      (set_offset (set_offset v (zlen pre + 1)) (zlen pre + zlen (token_bytes (Tok_copy off n)))))
      as (v' & -> & Hv' & Ho').
    + destruct Hv as [D1 D2 D3]. by split.
    + lia.
    + lia.
    + rewrite expand_copy_zlen in Hfit by (unfold zlen in H1; lia). lia.
    + by exists v'.
Qed.

Lemma lz_loop_tokens ts : forall fuel acc v pre post,
  drawn size acc v -> tokens_ok acc ts -> data = pre ++ concat (map token_bytes ts) ++ post ->
  lz_data_offset v = zlen pre -> 4 * zlen (expand_tokens acc ts) = size ->
  (length (concat (map token_bytes ts)) <= fuel)%nat ->
  exists v', lz_loop overflow_checks data size fuel v = Some v' /\
    drawn size (expand_tokens acc ts) v'.
Proof.
  induction ts as [|t ts IH]; intros fuel acc v pre post Hv Ht Hd Ho Hs Hf.
  - exists v. split; [|done]. unfold expand_tokens in Hs. simpl in Hs.
    assert (lz_more data size v = false) as Hm.
    { unfold lz_more. destruct Hv as [_ -> _]. by rewrite (proj2 (Z.ltb_ge _ _)) by lia. }
    destruct fuel; simpl; by rewrite Hm.
  - destruct Ht as [Ht Hts]. cbn [map concat] in Hd, Hf. rewrite <- app_assoc in Hd.
    pose proof (expand_token_grows _ _ Ht). pose proof (expand_tokens_grows _ _ Hts) as Hg.
    change (expand_tokens acc (t :: ts)) with (expand_tokens (expand_token acc t) ts) in *.
    pose proof (token_bytes_pos t). rewrite length_app in Hf.
    destruct fuel as [|fuel]; [lia|]. cbn [lz_loop].
    assert (lz_more data size v = true) as ->.
    { unfold lz_more. pose proof Hv as [_ -> _]. rewrite Ho.
      rewrite !(proj2 (Z.ltb_lt _ _)); [done| |lia].
      rewrite Hd, !zlen_app. zlen_nonneg_all. unfold zlen at 3. lia. }
    destruct (lz_round_token t acc v pre (concat (map token_bytes ts) ++ post))
      as (v' & -> & Hv' & Ho'); [done..|lia|].
    cbn [mbind option_bind].
    apply (IH fuel _ v' (pre ++ token_bytes t) post); try done; [| |lia].
    + rewrite Hd, <- app_assoc. done.
    + by rewrite Ho', zlen_app.
Qed.
End Tokens.

(** ** The whole image *)

Definition lz_header_bytes (minor : Z) (pad : list Z) (kind width height stride top_down : Z)
    : list Z :=
  LZ_MAGIC ++ to_be 2 1 ++ to_be 2 minor ++ pad ++ to_le 1 kind ++ to_be 4 width ++
  to_be 4 height ++ to_be 4 stride ++ to_be 4 top_down.

Lemma takes_lz_header minor pad kind width height stride top_down :
  u16 minor -> length pad = 3%nat -> u8 kind -> u32 width -> u32 height -> u32 stride ->
  u32 top_down ->
  takes read_lz_header (lz_header_bytes minor pad kind width height stride top_down)
    (mkLzHeader LZ_MAGIC 1 minor width height (negb (top_down =? 0))).
Proof.
  intros. unfold read_lz_header, lz_header_bytes.
  assert (u16 1) by (split; lia).
  rewrite <- (app_nil_r (to_be 4 top_down)). wire_takes.
Qed.

Lemma zlen_lz_header minor pad kind width height stride top_down : length pad = 3%nat ->
  zlen (lz_header_bytes minor pad kind width height stride top_down) = LZ_HEADER_SIZE.
Proof.
  intros Hp. unfold lz_header_bytes. rewrite !zlen_app, !zlen_to_be, zlen_to_le.
  replace (zlen pad) with 3 by (unfold zlen; lia). done.
Qed.

Lemma flat_concat rows : flat (concat rows) = concat (map flat rows).
Proof. induction rows as [|r rows IH]; [done|]. simpl. by rewrite flat_app, IH. Qed.

(** The rows end up in the order the header asks for. *)
Lemma place_rows (top_down : bool) width rows v :
  0 <= width -> Forall (fun r => zlen r = width) rows -> lz_output v = flat (concat rows) ->
  (if top_down then Some (lz_output v) else flip_rows (lz_output v) width (zlen rows)) =
    Some (flat (concat (if top_down then rows else reverse rows))).
Proof.
  intros Hw HF ->. destruct top_down; [done|].
  rewrite flat_concat. replace (zlen rows) with (zlen (map flat rows))
    by (unfold zlen; by rewrite length_map).
  rewrite flip_rows_eq; [|done|].
  - rewrite flat_concat. do 2 f_equal. unfold reverse. rewrite !rev_append_rev, !app_nil_r.
    symmetry. apply map_rev.
  - apply list.Forall_forall. intros x (r & -> & Hr)%list_elem_of_fmap.
    rewrite zlen_flat. rewrite list.Forall_forall in HF. rewrite (HF r Hr). lia.
Qed.

(** C16: The LZ decoder computes the reference semantics.  For any image header and
    any sequence of literal and copy tokens whose expansion is the pixels of
    [width] x [height] rows, decoding the wire form gives exactly those pixels as
    opaque RGBA, top-down or bottom-up as the header says, in either build
    profile and whatever bytes follow the last token. *)
Theorem lz_decodes_tokens overflow_checks minor pad kind stride top_down width rows ts post :
  u16 minor -> length pad = 3%nat -> u8 kind -> u32 stride -> u32 top_down ->
  0 <= width -> rgba_len width (zlen rows) <> None ->
  Forall (fun r => zlen r = width) rows ->
  tokens_ok [] ts -> expand_tokens [] ts = concat rows ->
  decompress_lz overflow_checks
    (lz_header_bytes minor pad kind width (zlen rows) stride top_down ++
     concat (map token_bytes ts) ++ post) =
    Ok (mkDecompressedImage width (zlen rows)
          (flat (concat (if negb (top_down =? 0) then rows else reverse rows))) 0 0).
Proof.
  intros Hmi Hpad Hk Hst Htd Hw Hr HF Hts Hx.
  destruct (rgba_len width (zlen rows)) as [size|] eqn:Er; [|done]. clear Hr.
  pose proof (zlen_nonneg rows) as Hh.
  destruct (rgba_len_spec _ _ _ Hw Hh Er) as (Hsz & Hw' & Hh' & Hpx).
  unfold MAX_IMAGE_PIXELS, MAX_IMAGE_DIMENSION in *.
  set (header := lz_header_bytes _ _ _ _ _ _ _). set (data := header ++ _).
  assert (zlen header = LZ_HEADER_SIZE) as Hhd by by apply zlen_lz_header.
  unfold decompress_lz. rewrite (proj2 (Z.ltb_ge _ _))
    by (unfold data; rewrite zlen_app; zlen_nonneg_all; lia).
  unfold data at 1. unfold header at 1.
  rewrite takes_lz_header by (try done; split; lia). cbn [fst lh_magic lh_version_major lh_width lh_height lh_top_down].
  rewrite bool_decide_true by done. simpl negb at 1. cbv iota. rewrite Er.
  change (negb (1 =? 1)) with false. cbv iota.
  assert (zlen (concat rows) = width * zlen rows) as Hpix by (by rewrite (zlen_concat_rows _ width); [lia|]).
  assert (4 * zlen (expand_tokens [] ts) = size) as Hfull by (rewrite Hx; lia).
  destruct (lz_loop_tokens overflow_checks data size ltac:(lia) ts (length data) []
    (mkVars (replicate (Z.to_nat size) 0) LZ_HEADER_SIZE 0) header post) as (v & -> & Hv).
  - change (zlen (@nil pixel)) with 0 in *. pose proof (zlen_nonneg (concat rows)).
    split; cbn; [by rewrite Z.sub_0_r|done|unfold zlen at 1; simpl; lia].
  - done.
  - done.
  - done.
  - done.
  - unfold data. rewrite !length_app. lia.
  - cbn [rlift rbind]. destruct Hv as [Ho _ _]. rewrite Hfull, Z.sub_diag, Hx in Ho.
    simpl replicate in Ho. rewrite app_nil_r in Ho. rewrite (place_rows _ width rows v Hw HF Ho).
    cbn [rlift rbind]. rewrite new_some; [done|]. rewrite Er. f_equal. rewrite zlen_flat.
    destruct (negb _); [lia|].
    rewrite (zlen_concat_rows _ width) by by apply Forall_reverse.
    unfold zlen in *. rewrite length_reverse. lia.
Qed.

(** A 4x2 bottom-up image: two literals, then an overlapping copy and a long run. *)
Lemma lz_decodes_tokens_witness :
  let a := opaque (1, 2, 3) in let b := opaque (4, 5, 6) in
  decompress_lz true
    (lz_header_bytes 1 [0; 0; 0] 8 4 2 16 0 ++
     concat (map token_bytes [Tok_literal [(1, 2, 3); (4, 5, 6)]; Tok_copy 2 3; Tok_copy 1 3]) ++ [77]) =
    Ok (mkDecompressedImage 4 2 (flat [a; a; a; a; a; b; a; b]) 0 0).
Proof.
  intros a b.
  refine (lz_decodes_tokens true 1 [0; 0; 0] 8 16 0 4 [[a; b; a; b]; [a; a; a; a]]
    [Tok_literal [(1, 2, 3); (4, 5, 6)]; Tok_copy 2 3; Tok_copy 1 3] [77] _ _ _ _ _ _ _ _ _ _).
  1, 3-5: split; lia.
  - done.
  - lia.
  - done.
  - by repeat constructor.
  - cbn. unfold zlen. simpl length. split_and!; try lia.
    repeat (apply list.Forall_cons; split; [cbn; unfold u8, in_unsigned; lia|]).
    by apply list.Forall_nil.
  - reflexivity.
Defined.
