(* ===== verification/Lz4.v ===== *)
(** LZ4 images: [shakenfist-spice-compression/src/lz4.rs].

    An LZ4 image is a top-down flag, a pixel format and length-prefixed blocks,
    which decode one after another into one buffer of rows; the pixels are then
    converted to RGBA, the 32-bit ones where they are.  The codec of one block
    is the [lz4_flex] crate's: the class [Lz4Block] is its
    [decompress_into_with_dict], and [Lz4BlockLaws] what it documents.  A
    [None] of the source is [Err tt]. *)
From Stdlib Require Import ZArith Lia.
From stdpp Require Import base numbers list tactics.
From S2P Require Import Prelude Reader Lz.

Open Scope Z_scope.
Open Scope rust_scope.

(** * Blocks *)

(** Decompress a block into the slice [tail], with matches into [dict]: how
    many bytes were written, and the slice afterwards. *)
Class Lz4Block : Type := {
  decompress_into_with_dict : list Z -> list Z -> list Z -> option (Z * list Z)
}.

(** It writes only into the slice, and what it writes does not depend on what
    was there. *)
Class Lz4BlockLaws `{Lz4Block} : Prop := {
  block_fits block tail dict n tail' : bytes block -> bytes tail -> bytes dict ->
    decompress_into_with_dict block tail dict = Some (n, tail') ->
    0 <= n <= zlen tail /\ zlen tail' = zlen tail /\ bytes tail';
  block_fresh block tail1 tail2 dict n tail' : zlen tail1 = zlen tail2 ->
    decompress_into_with_dict block tail1 dict = Some (n, tail') ->
    exists tail'', decompress_into_with_dict block tail2 dict = Some (n, tail'') /\
      take (Z.to_nat n) tail'' = take (Z.to_nat n) tail'
}.

Definition lz4_BIT16 : Z := 6.
Definition lz4_BIT24 : Z := 7.
Definition lz4_BIT32 : Z := 8.
Definition lz4_RGBA : Z := 9.

Definition LZ4_MAX_DISTANCE : Z := 64 * 1024.

Definition lz4_bpp (format : Z) : option Z :=
  if format =? lz4_BIT16 then Some 2
  else if format =? lz4_BIT24 then Some 3
  else if (format =? lz4_BIT32) || (format =? lz4_RGBA) then Some 4
  else None.

Section Decoder.
Context `{Lz4Block}.

(** [while !blocks.is_empty()]; a round takes at least the length. *)
Fixpoint blocks_loop (fuel : nat) (blocks decoded : list Z) (pos : Z) : result unit (list Z * Z) :=
  match blocks with
  | [] => Ok (decoded, pos)
  | _ =>
      match fuel with
      | O => Panic
      | S fuel =>
          if zlen blocks <? 4 then Err tt
          else
            let len := from_be (take 4 blocks) in
            let rest := drop 4 blocks in
            if zlen rest <? len then Err tt
            else
              let block := take (Z.to_nat len) rest in
              let blocks := drop (Z.to_nat len) rest in
              if pos =? zlen decoded then Err tt
              else
                let! done' := rlift (slice decoded 0 pos) in
                let! tail := rlift (slice decoded pos (zlen decoded)) in
                let! dict := rlift (slice done' (saturating_sub pos LZ4_MAX_DISTANCE) (zlen done')) in
                match decompress_into_with_dict block tail dict with
                | Some (n, tail) => blocks_loop fuel blocks (done' ++ tail) (pos + n)
                | None => Err tt
                end
      end
  end.

(** [chunks_exact], less its remainder. *)
Fixpoint row_chunks (rows : nat) (row_bytes : nat) (l : list Z) : list (list Z) :=
  match rows with
  | O => []
  | S rows => take row_bytes l :: row_chunks rows row_bytes (drop row_bytes l)
  end.

Definition chunks (row_bytes : Z) (l : list Z) : option (list (list Z)) :=
  if row_bytes =? 0 then None
  else Some (row_chunks (Z.to_nat (zlen l / row_bytes)) (Z.to_nat row_bytes) l).

(** ** Pixels *)

Fixpoint bgra_pixels (has_alpha : bool) (pixels : list Z) : list Z :=
  match pixels with
  | b :: g :: r :: a :: pixels =>
      r :: g :: b :: (if has_alpha then a else 255) :: bgra_pixels has_alpha pixels
  | rest => rest
  end.

(** [t.swap_with_slice(b)] for the pairs of rows [zip] makes. *)
Fixpoint swap_rows (ts bs : list (list Z)) : list (list Z) * list (list Z) :=
  match ts, bs with
  | t :: ts, b :: bs => let (ts, bs) := swap_rows ts bs in (b :: ts, t :: bs)
  | ts, bs => (ts, bs)
  end.

Definition bgra_to_rgba_in_place (pixels : list Z) (width : Z) (has_alpha top_down : bool)
    : option (list Z) :=
  let pixels := bgra_pixels has_alpha pixels in
  if top_down then Some pixels
  else
    let row_bytes := width * 4 in
    if row_bytes =? 0 then None
    else
      let rows := zlen pixels / row_bytes in
      let half := rows / 2 * row_bytes in
      top ← slice pixels 0 half;
      bottom ← slice pixels half (zlen pixels);
      let skip := rows mod 2 * row_bytes in
      middle ← slice bottom 0 skip;
      bottom ← slice bottom skip (zlen bottom);
      ts ← chunks row_bytes top;
      bs ← chunks row_bytes bottom;
      let (ts', bs') := swap_rows ts (reverse bs) in
      Some (concat ts' ++ drop (length (concat ts)) top ++ middle ++
            concat (reverse bs') ++ drop (length (concat bs)) bottom).

(** A 5-bit channel widened to 8 bits. *)
Definition lz4_expand (v : Z) : Z :=
  let v := Z.land v 0x1f in
  Z.lor (Z.land (Z.shiftl v 3) 255) (Z.shiftr v 2).

(** The conversions of a row: what the source row has no pixel for is left. *)
Fixpoint convert_bit16 (src dst : list Z) : list Z :=
  match src, dst with
  | lo :: hi :: src, _ :: _ :: _ :: _ :: dst =>
      let v := from_le [lo; hi] in
      lz4_expand (Z.shiftr v 10) :: lz4_expand (Z.shiftr v 5) :: lz4_expand v :: 255 ::
        convert_bit16 src dst
  | _, dst => dst
  end.

Fixpoint convert_bit24 (src dst : list Z) : list Z :=
  match src, dst with
  | b :: g :: r :: src, _ :: _ :: _ :: _ :: dst => r :: g :: b :: 255 :: convert_bit24 src dst
  | _, dst => dst
  end.

Fixpoint convert_bit32 (has_alpha : bool) (src dst : list Z) : list Z :=
  match src, dst with
  | b :: g :: r :: a :: src, _ :: _ :: _ :: _ :: dst =>
      r :: g :: b :: (if has_alpha then a else 255) :: convert_bit32 has_alpha src dst
  | _, dst => dst
  end.

Definition convert_row (format : Z) (src dst : list Z) : list Z :=
  if format =? lz4_BIT16 then convert_bit16 src dst
  else if format =? lz4_BIT24 then convert_bit24 src dst
  else convert_bit32 (format =? lz4_RGBA) src dst.

(** [src_rows.zip(dst_rows).for_each(..)] *)
Fixpoint convert_rows (format : Z) (srcs dsts : list (list Z)) : list (list Z) :=
  match srcs, dsts with
  | s :: srcs, d :: dsts => convert_row format s d :: convert_rows format srcs dsts
  | _, dsts => dsts
  end.

(** The rows widened into a second buffer. *)
Definition widen_rows (format width row_bytes : Z) (top_down : bool) (decoded : list Z) (rgba_size : Z)
    : option (list Z) :=
  let rgba := replicate (Z.to_nat rgba_size) 0 in
  src_rows ← chunks row_bytes decoded;
  dst_rows ← chunks (width * 4) rgba;
  let rows := if top_down then convert_rows format src_rows dst_rows
              else reverse (convert_rows format src_rows (reverse dst_rows)) in
  Some (concat rows ++ drop (length (concat dst_rows)) rgba).

Definition decompress_spice_lz4 (data : list Z) (width height : Z) : result unit DecompressedImage :=
  match data with
  | flag :: format :: blocks =>
      let top_down := negb (flag =? 0) in
      match lz4_bpp format with
      | None => Err tt
      | Some bpp =>
          match rgba_len width height with
          | None => Err tt
          | Some rgba_size =>
              match checked_mul width bpp with
              | None => Err tt
              | Some row_bytes =>
                  if bool_decide (blocks = []) then Err tt
                  else
                    match checked_mul row_bytes height with
                    | None => Err tt
                    | Some total =>
                        let! p := blocks_loop (length blocks) blocks (replicate (Z.to_nat total) 0) 0 in
                        let '(decoded, pos) := p in
                        if negb (pos =? zlen decoded) then Err tt
                        else
                          let! rgba := rlift (if bpp =? 4 then
                                                bgra_to_rgba_in_place decoded width
                                                  (format =? lz4_RGBA) top_down
                                              else widen_rows format width row_bytes top_down decoded
                                                     rgba_size) in
                          match DecompressedImage_new width height rgba 0 with
                          | Some image => Ok image
                          | None => Err tt
                          end
                    end
              end
          end
      end
  | _ => Err tt
  end.

End Decoder.

(** * Reference *)

(** The blocks as they are framed. *)
Definition frame_blocks (blocks : list (list Z)) : list Z :=
  concat (map (fun b => to_be 4 (zlen b) ++ b) blocks).

(** The earlier output a block can refer to. *)
Definition window (done' : list Z) : list Z :=
  drop (Z.to_nat (saturating_sub (zlen done') LZ4_MAX_DISTANCE)) done'.

(** After [done'], the blocks decode to [out], of [total] bytes; no block comes
    after the last byte. *)
Inductive expands `{Lz4Block} (total : Z) : list Z -> list (list Z) -> list Z -> Prop :=
| expands_end out : zlen out = total -> expands total out [] out
| expands_block done' block blocks tail n tail' out :
    zlen done' < total -> zlen done' + zlen tail = total ->
    decompress_into_with_dict block tail (window done') = Some (n, tail') ->
    expands total (done' ++ take (Z.to_nat n) tail') blocks out ->
    expands total done' (block :: blocks) out.

(** A pixel in RGBA. *)
Definition widened (channel : Z) : Z := 8 * channel + channel / 4.

Definition lz4_colour (format : Z) (px : list Z) : list Z :=
  match px with
  | [lo; hi] =>
      let v := lo + 256 * hi in
      [widened (v / 1024 mod 32); widened (v / 32 mod 32); widened (v mod 32); 255]
  | [b; g; r] => [r; g; b; 255]
  | [b; g; r; a] => [r; g; b; if format =? lz4_RGBA then a else 255]
  | _ => []
  end.

Definition lz4_row (format bpp width : Z) (row : list Z) : list Z :=
  concat (map (lz4_colour format) (row_chunks (Z.to_nat width) (Z.to_nat bpp) row)).

(** The image of the bytes [raw]: rows of pixels, the first one on top, or last. *)
Definition lz4_image (format bpp width height : Z) (top_down : bool) (raw : list Z) : list Z :=
  let rows := row_chunks (Z.to_nat height) (Z.to_nat (width * bpp)) raw in
  concat (map (lz4_row format bpp width) (if top_down then rows else reverse rows)).

(** What [data] is when it holds an LZ4 image with the pixels [pixels]. *)
Definition lz4_holds `{Lz4Block} (data : list Z) (width height : Z) (pixels : list Z) : Prop :=
  exists flag format blocks bpp raw,
    data = flag :: format :: frame_blocks blocks /\ blocks <> [] /\
    Forall (fun b => u32 (zlen b)) blocks /\ lz4_bpp format = Some bpp /\
    rgba_len width height <> None /\ expands (width * bpp * height) [] blocks raw /\
    pixels = lz4_image format bpp width height (negb (flag =? 0)) raw.

(** * Rows *)

Definition rows_of (n : nat) (rows : list (list Z)) : Prop := Forall (fun r => length r = n) rows.

Lemma length_concat_rows n rows : rows_of n rows -> length (concat rows) = (length rows * n)%nat.
Proof.
  induction 1 as [|r rows Hr _ IH]; [done|]. cbn [concat length]. rewrite length_app, IH, Hr. lia.
Qed.

Lemma row_chunks_rows k n l : length l = (k * n)%nat ->
  rows_of n (row_chunks k n l) /\ length (row_chunks k n l) = k /\
  concat (row_chunks k n l) = l.
Proof.
  revert l. induction k as [|k IH]; intros l Hl; cbn [row_chunks].
  - split; [constructor|]. split; [done|]. by destruct l.
  - destruct (IH (drop n l)) as (Hr & Hk & Hc); [rewrite length_drop; lia|].
    split; [constructor; [rewrite length_take; lia|done]|]. cbn [length concat].
    rewrite Hk, Hc. split; [done|]. apply take_drop.
Qed.

Lemma row_chunks_concat n rows rest : rows_of n rows ->
  row_chunks (length rows) n (concat rows ++ rest) = rows.
Proof.
  induction 1 as [|r rows Hr _ IH]; [done|]. cbn [length row_chunks concat].
  rewrite <- app_assoc, take_app_le, take_ge by lia. f_equal.
  rewrite drop_app_le, drop_ge by lia. exact IH.
Qed.

Lemma chunks_concat n rows : 0 < n -> rows_of (Z.to_nat n) rows ->
  chunks n (concat rows) = Some rows.
Proof.
  intros Hn Hr. unfold chunks. destruct (Z.eqb_spec n 0); [lia|]. f_equal.
  assert (zlen (concat rows) / n = Z.of_nat (length rows)) as ->.
  { unfold zlen. rewrite (length_concat_rows _ _ Hr), Nat2Z.inj_mul, Z2Nat.id by lia.
    apply Z.div_mul. lia. }
  rewrite Nat2Z.id. rewrite <- (app_nil_r (concat rows)). by apply row_chunks_concat.
Qed.

(** A conversion that works row by row, on rows of whole pixels. *)
Lemma rows_map (f : list Z -> list Z) n rows :
  (forall a b, length a = n -> f (a ++ b) = f a ++ f b) -> f [] = [] -> rows_of n rows ->
  f (concat rows) = concat (map f rows).
Proof.
  intros Happ Hnil. induction 1 as [|r rows Hr _ IH]; [done|]. cbn [concat map].
  by rewrite Happ, IH.
Qed.

(** ** Pixels *)

Ltac list4 l :=
  let a := fresh "a" in let b := fresh "b" in let c := fresh "c" in let d := fresh "d" in
  destruct l as [|a [|b [|c [|d l]]]]; cbn [length] in *; try lia.

Lemma bgra_pixels_app has_alpha k : forall a b, length a = (k * 4)%nat ->
  bgra_pixels has_alpha (a ++ b) = bgra_pixels has_alpha a ++ bgra_pixels has_alpha b.
Proof.
  induction k as [|k IH]; intros a b Ha; [by destruct a|]. list4 a.
  cbn [app bgra_pixels]. rewrite IH by lia. done.
Qed.

Lemma length_bgra_pixels has_alpha k : forall a, length a = (k * 4)%nat ->
  length (bgra_pixels has_alpha a) = (k * 4)%nat.
Proof.
  induction k as [|k IH]; intros a Ha; [by destruct a|]. list4 a.
  cbn [bgra_pixels length]. rewrite IH; lia.
Qed.

Lemma bgra_pixels_row format k row : (format = lz4_BIT32 \/ format = lz4_RGBA) ->
  length row = (k * 4)%nat ->
  bgra_pixels (format =? lz4_RGBA) row = concat (map (lz4_colour format) (row_chunks k 4 row)).
Proof.
  intros Hf. revert row. induction k as [|k IH]; intros row Hr; [by destruct row|]. list4 row.
  cbn [bgra_pixels row_chunks take drop map concat lz4_colour app]. rewrite IH by lia. done.
Qed.

Lemma widened_expand v : u16 v -> lz4_expand v = widened (v mod 32).
Proof.
  intros Hv. unfold lz4_expand, widened. change 0x1f with (Z.ones 5). change 255 with (Z.ones 8).
  rewrite !Z.land_ones, Z.shiftl_mul_pow2, Z.shiftr_div_pow2 by lia.
  pose proof (Z.mod_pos_bound v 32 ltac:(lia)). change (2 ^ 5) with 32. change (2 ^ 3) with 8.
  change (2 ^ 2) with 4. change (2 ^ 8) with 256. set (c := v mod 32) in *.
  rewrite Z.mod_small by lia. rewrite Z.lor_comm, (Z.mul_comm c 8), Z.add_comm.
  rewrite <- Z.lxor_lor, Z.add_nocarry_lxor; [done| |];
    (apply Z.bits_inj'; intros i Hi; rewrite Z.land_spec, Z.bits_0;
     destruct (Z.ltb_spec i 3) as [Hlt|Hge];
     [rewrite andb_comm; change 8 with (2 ^ 3); rewrite Z.mul_comm, Z.mul_pow2_bits_low by lia; done
     |rewrite (Z.bits_above_log2 (c / 4)); [done|apply Z.div_pos; lia|]]);
    (destruct (Z.eq_dec (c / 4) 0) as [->|]; [cbn; lia|];
     apply Z.log2_lt_pow2; [pose proof (Z.div_pos c 4); lia|];
     apply Z.lt_le_trans with (2 ^ 3); [change (2 ^ 3) with 8; apply Z.div_lt_upper_bound; lia
     |apply Z.pow_le_mono_r; lia]).
Qed.

Lemma convert_bit16_row k : forall row dst, bytes row -> length row = (k * 2)%nat ->
  length dst = (k * 4)%nat ->
  convert_bit16 row dst = concat (map (lz4_colour lz4_BIT16) (row_chunks k 2 row)).
Proof.
  induction k as [|k IH]; intros row dst Hb Hr Hd; [by destruct row, dst|].
  destruct row as [|lo [|hi row]]; cbn [length] in *; try lia. list4 dst.
  apply Forall_cons_iff in Hb as [Hlo [Hhi Hb]%Forall_cons_iff].
  cbn [convert_bit16 row_chunks take drop map concat lz4_colour app].
  rewrite IH by (done || lia).
  assert (from_le [lo; hi] = lo + 256 * hi) as -> by (unfold from_le; lia).
  unfold in_unsigned in *. set (v := lo + 256 * hi).
  assert (0 <= v < 2 ^ 16) as Hv by (unfold v; lia).
  assert (forall n, 0 <= n -> u16 (Z.shiftr v n)) as Hs.
  { intros n Hn. rewrite Z.shiftr_div_pow2 by done. pose proof (Z.pow_pos_nonneg 2 n).
    split; [apply Z.div_pos; lia|]. apply Z.div_lt_upper_bound; [lia|]. nia. }
  rewrite !widened_expand by (first [by apply Hs|done]). by rewrite !Z.shiftr_div_pow2 by lia.
Qed.

Lemma convert_bit24_row k : forall row dst, length row = (k * 3)%nat -> length dst = (k * 4)%nat ->
  convert_bit24 row dst = concat (map (lz4_colour lz4_BIT24) (row_chunks k 3 row)).
Proof.
  induction k as [|k IH]; intros row dst Hr Hd; [by destruct row, dst|].
  destruct row as [|b [|g [|r row]]]; cbn [length] in *; try lia. list4 dst.
  cbn [convert_bit24 row_chunks take drop map concat lz4_colour app]. by rewrite IH by lia.
Qed.

(** ** Flipping and widening *)

Lemma swap_rows_eq ts : forall bs, length ts = length bs -> swap_rows ts bs = (bs, ts).
Proof.
  induction ts as [|t ts IH]; intros [|b bs] Hl; cbn [length] in Hl; try lia; [done|].
  cbn [swap_rows]. by rewrite IH by lia.
Qed.

Lemma zlen_concat n rows : 0 <= n -> rows_of (Z.to_nat n) rows -> zlen (concat rows) = zlen rows * n.
Proof. intros Hn Hr. unfold zlen. rewrite (length_concat_rows _ _ Hr). nia. Qed.

(** The flip of the 32-bit rows, where they are. *)
Lemma flip_in_place width has_alpha pixels rows : 0 < width ->
  rows_of (Z.to_nat (width * 4)) rows -> bgra_pixels has_alpha pixels = concat rows ->
  bgra_to_rgba_in_place pixels width has_alpha false = Some (concat (reverse rows)).
Proof.
  intros Hw Hr Hp. unfold bgra_to_rgba_in_place. rewrite Hp.
  destruct (Z.eqb_spec (width * 4) 0); [lia|].
  pose proof (zlen_concat (width * 4) rows ltac:(lia) Hr) as Hz.
  set (rb := width * 4) in *. rewrite Hz, Z.div_mul by done.
  set (h := zlen rows / 2). set (m := zlen rows mod 2).
  assert (zlen rows = 2 * h + m /\ 0 <= h /\ 0 <= m) as (Hh & Hh0 & Hm0).
  { pose proof (zlen_nonneg rows). pose proof (Z.div_mod (zlen rows) 2). split_and!;
      [unfold h, m; lia|apply Z.div_pos; lia|apply Z.mod_pos_bound; lia]. }
  set (T := take (Z.to_nat h) rows). set (R := drop (Z.to_nat h) rows).
  set (Mid := take (Z.to_nat m) R). set (B := drop (Z.to_nat m) R).
  assert (rows = T ++ Mid ++ B) as Erows by (unfold T, Mid, B, R; by rewrite !take_drop).
  assert (rows_of (Z.to_nat rb) T /\ rows_of (Z.to_nat rb) Mid /\ rows_of (Z.to_nat rb) B)
    as (HT & HM & HB).
  { rewrite Erows in Hr. unfold rows_of in *. by rewrite !list.Forall_app in Hr. }
  assert (zlen T = h /\ zlen Mid = m /\ zlen B = h) as (LT & LM & LB).
  { unfold T, Mid, B, R. rewrite !zlen_take, !zlen_drop. lia. }
  pose proof (zlen_concat rb T ltac:(lia) HT) as ZT. pose proof (zlen_concat rb Mid ltac:(lia) HM) as ZM.
  pose proof (zlen_concat rb B ltac:(lia) HB) as ZB. rewrite LT in ZT. rewrite LM in ZM. rewrite LB in ZB.
  rewrite Erows, !concat_app.
  assert (0 <= h * rb /\ 0 <= m * rb) as [? ?] by nia.
  rewrite slice_prefix by lia. cbn [mbind option_bind].
  rewrite slice_suffix by (first [lia|rewrite !zlen_app, ZT, ZM, ZB; lia]). cbn [mbind option_bind].
  rewrite slice_prefix by lia. cbn [mbind option_bind].
  rewrite slice_suffix by (first [lia|rewrite !zlen_app, ZM, ZB; lia]). cbn [mbind option_bind].
  rewrite !chunks_concat by (done || lia). cbn [mbind option_bind].
  rewrite swap_rows_eq by (rewrite length_reverse; unfold zlen in *; lia).
  rewrite !drop_all, app_nil_r, !reverse_app, !concat_app, <- !app_assoc. cbn [app].
  assert (reverse Mid = Mid) as ->; [|done].
  pose proof (Z.mod_pos_bound (zlen rows) 2 ltac:(lia)). unfold zlen in LM.
  destruct Mid as [|x [|y Mid']]; [done..|cbn [length] in LM; lia].
Qed.

Lemma colours_convert format bpp width k row dst : lz4_bpp format = Some bpp -> bpp <> 4 ->
  k = Z.to_nat width -> bytes row -> length row = (k * Z.to_nat bpp)%nat -> length dst = (k * 4)%nat ->
  convert_row format row dst = lz4_row format bpp width row.
Proof.
  intros Hf Hb -> Hrow Hl Hd. unfold lz4_bpp, convert_row, lz4_row in *. revert Hf.
  destruct (Z.eqb_spec format lz4_BIT16) as [->|]; [intros [= <-]; by apply convert_bit16_row|].
  destruct (Z.eqb_spec format lz4_BIT24) as [->|]; [intros [= <-]; by apply convert_bit24_row|].
  destruct (_ || _); congruence.
Qed.

Lemma convert_rows_eq format bpp width rows : lz4_bpp format = Some bpp -> bpp <> 4 ->
  Forall bytes rows -> rows_of (Z.to_nat width * Z.to_nat bpp) rows ->
  forall dsts, rows_of (Z.to_nat width * 4) dsts -> length dsts = length rows ->
  convert_rows format rows dsts = map (lz4_row format bpp width) rows.
Proof.
  intros Hf Hb Hrows. induction Hrows as [|row rows Hrow _ IH]; intros Hr dsts Hd Hl.
  { by destruct dsts. }
  destruct dsts as [|d dsts]; [done|]. injection Hl as Hl.
  apply Forall_cons_iff in Hr as [Hr1 Hr]. apply Forall_cons_iff in Hd as [Hd1 Hd].
  cbn [convert_rows map]. rewrite IH by done. f_equal. by eapply colours_convert.
Qed.

Lemma bytes_concat rows : bytes (concat rows) -> Forall bytes rows.
Proof.
  induction rows as [|r rows IH]; [constructor|]. cbn [concat].
  intros [? ?]%list.Forall_app. constructor; auto.
Qed.

Lemma zeros_rows k n : concat (replicate k (replicate n 0)) = replicate (k * n) (0 : Z).
Proof.
  induction k as [|k IH]; [done|]. cbn [replicate concat Nat.mul]. by rewrite IH, replicate_add.
Qed.

(** The 16 and 24-bit rows, in a second buffer. *)
Lemma widen_rows_eq format bpp width top_down rows : lz4_bpp format = Some bpp -> bpp <> 4 ->
  0 < width -> bytes (concat rows) -> rows_of (Z.to_nat (width * bpp)) rows ->
  widen_rows format width (width * bpp) top_down (concat rows) (width * zlen rows * 4) =
    Some (concat (map (lz4_row format bpp width) (if top_down then rows else reverse rows))).
Proof.
  intros Hf Hb4 Hw Hb Hr. unfold widen_rows.
  assert (bpp = 2 \/ bpp = 3) as Hbpp.
  { unfold lz4_bpp in Hf. destruct (_ =? _); [left; congruence|]. destruct (_ =? _); [right; congruence|].
    destruct (_ || _); congruence. }
  rewrite chunks_concat by (done || lia). cbn [mbind option_bind].
  pose proof (zlen_nonneg rows).
  replace (Z.to_nat (width * zlen rows * 4)) with (length rows * Z.to_nat (width * 4))%nat
    by (unfold zlen; lia).
  set (dsts := replicate (length rows) (replicate (Z.to_nat (width * 4)) (0 : Z))).
  assert (rows_of (Z.to_nat (width * 4)) dsts) as Hd.
  { apply Forall_replicate. apply length_replicate. }
  rewrite <- zeros_rows. fold dsts. rewrite chunks_concat by (done || lia). cbn [mbind option_bind].
  rewrite drop_all, app_nil_r. replace (Z.to_nat (width * bpp)) with (Z.to_nat width * Z.to_nat bpp)%nat in Hr by lia.
  replace (Z.to_nat (width * 4)) with (Z.to_nat width * 4)%nat in Hd by lia.
  apply bytes_concat in Hb. do 2 f_equal.
  destruct top_down; rewrite (convert_rows_eq _ bpp width); auto using Forall_reverse.
  - unfold dsts. by rewrite length_replicate.
  - symmetry. exact (list.fmap_reverse _ rows).
  - by apply Forall_reverse.
  - unfold dsts. by rewrite length_reverse, length_replicate.
Qed.

(** The 32-bit rows, where they are. *)
Lemma in_place_eq format width top_down rows : format = lz4_BIT32 \/ format = lz4_RGBA -> 0 < width ->
  rows_of (Z.to_nat (width * 4)) rows ->
  bgra_to_rgba_in_place (concat rows) width (format =? lz4_RGBA) top_down =
    Some (concat (map (lz4_row format 4 width) (if top_down then rows else reverse rows))).
Proof.
  intros Hf Hw Hr. set (f := bgra_pixels (format =? lz4_RGBA)).
  replace (Z.to_nat (width * 4)) with (Z.to_nat width * 4)%nat in Hr by lia.
  assert (f (concat rows) = concat (map f rows)) as Ef.
  { apply (rows_map f (Z.to_nat width * 4)); [|done|done]. intros a b. apply bgra_pixels_app. }
  assert (map f rows = map (lz4_row format 4 width) rows) as Em.
  { apply map_ext_Forall. eapply list.Forall_impl; [apply Hr|]. intros row. by apply bgra_pixels_row. }
  destruct top_down.
  - unfold bgra_to_rgba_in_place. fold f. by rewrite Ef, Em.
  - rewrite (flip_in_place _ _ _ (map f rows)) by
      (first [done|apply Forall_map; replace (Z.to_nat (width * 4)) with (Z.to_nat width * 4)%nat by lia;
              eapply list.Forall_impl; [apply Hr|]; intros row; apply length_bgra_pixels]).
    rewrite Em. do 2 f_equal. symmetry. exact (list.fmap_reverse _ rows).
Qed.

(** * Blocks *)

Lemma to_be_from_be bs : bytes bs -> to_be (length bs) (from_be bs) = bs.
Proof.
  intros Hb. unfold to_be, from_be. rewrite <- (length_reverse bs), to_le_from_le, reverse_involutive.
  - done.
  - by apply Forall_reverse.
Qed.

Section Blocks.
Context `{HL : Lz4BlockLaws}.

(** One block read off the front. *)
Lemma split_frame blocks : bytes blocks -> 4 <= zlen blocks ->
  let len := from_be (take 4 blocks) in
  u32 len /\ (len <= zlen (drop 4 blocks) ->
    blocks = to_be 4 len ++ take (Z.to_nat len) (drop 4 blocks) ++ drop (Z.to_nat len) (drop 4 blocks) /\
    zlen (take (Z.to_nat len) (drop 4 blocks)) = len).
Proof.
  intros Hb Hl len.
  assert (length (take 4 blocks) = 4%nat) as H4 by (rewrite length_take; unfold zlen in Hl; lia).
  assert (u32 len) as Hu.
  { unfold len, from_be. pose proof (from_le_bound (reverse (take 4 blocks))) as Hf.
    unfold zlen in Hf. rewrite length_reverse, H4 in Hf. apply Hf.
    apply Forall_reverse. by apply Forall_take. }
  split; [done|]. intros Hle. unfold in_unsigned in Hu. split.
  - rewrite take_drop. rewrite <- H4 at 1. unfold len at 1. rewrite to_be_from_be by by apply Forall_take.
    by rewrite take_drop.
  - rewrite zlen_take. lia.
Qed.

(** The dictionary is the window of what is decoded. *)
Lemma slices decoded pos : 0 <= pos <= zlen decoded ->
  let done' := take (Z.to_nat pos) decoded in
  let tail := drop (Z.to_nat pos) decoded in
  slice decoded 0 pos = Some done' /\ slice decoded pos (zlen decoded) = Some tail /\
  slice done' (saturating_sub pos LZ4_MAX_DISTANCE) (zlen done') = Some (window done') /\
  zlen done' = pos /\ zlen done' + zlen tail = zlen decoded.
Proof.
  intros Hp done' tail.
  assert (decoded = done' ++ tail) as E by (by unfold done', tail; rewrite take_drop).
  assert (zlen done' = pos) as Hd by (unfold done'; rewrite zlen_take; lia).
  assert (zlen done' + zlen tail = zlen decoded) as Hz by (rewrite E; by rewrite zlen_app).
  split_and!; [..|done|done].
  - rewrite E. by rewrite slice_prefix.
  - rewrite E at 1. by rewrite slice_suffix by (by rewrite <- ?E).
  - unfold window. rewrite Hd. set (k := saturating_sub pos LZ4_MAX_DISTANCE).
    assert (0 <= k <= pos) as Hk by (unfold k, saturating_sub, LZ4_MAX_DISTANCE; lia).
    rewrite slice_Some by lia. f_equal. rewrite take_ge; [done|]. rewrite length_drop. unfold zlen in Hd. lia.
Qed.

(** What the loop returns, the blocks expand to; and it does not panic. *)
Lemma blocks_loop_sound total fuel : forall blocks decoded pos,
  (length blocks <= fuel)%nat -> bytes blocks -> bytes decoded -> zlen decoded = total ->
  0 <= pos <= total ->
  match blocks_loop fuel blocks decoded pos with
  | Ok (decoded', pos') =>
      zlen decoded' = total /\ bytes decoded' /\
      (pos' = total -> exists bl, blocks = frame_blocks bl /\ Forall (fun b => u32 (zlen b)) bl /\
        expands total (take (Z.to_nat pos) decoded) bl decoded')
  | Err _ => True
  | Panic => False
  end.
Proof.
  induction fuel as [|fuel IH]; intros blocks decoded pos Hf Hb Hd Hz Hp;
    (destruct blocks as [|b0 blocks0];
      [cbn; split; [done|split; [done|]]; intros ->; exists []; split; [done|]; split; [constructor|];
       rewrite take_ge by (unfold zlen in Hz; lia); by constructor|]).
  { cbn in Hf. lia. }
  cbn [blocks_loop]. set (blocks := b0 :: blocks0) in *.
  destruct (Z.ltb_spec (zlen blocks) 4); [done|].
  destruct (split_frame blocks Hb ltac:(lia)) as [Hu Hs]. set (len := from_be (take 4 blocks)) in *.
  destruct (Z.ltb_spec (zlen (drop 4 blocks)) len); [done|]. destruct (Hs ltac:(lia)) as [Eb Hlen].
  destruct (Z.eqb_spec pos (zlen decoded)) as [|Hne]; [done|].
  destruct (slices decoded pos ltac:(lia)) as (E1 & E2 & E3 & Ed & Et). rewrite E1, E2. cbn [rlift rbind].
  rewrite E3. cbn [rlift rbind].
  set (done' := take (Z.to_nat pos) decoded) in *. set (tail := drop (Z.to_nat pos) decoded) in *.
  set (block := take (Z.to_nat len) (drop 4 blocks)) in *.
  set (blocks' := drop (Z.to_nat len) (drop 4 blocks)) in *.
  assert (bytes block /\ bytes blocks') as [Hbb Hbb'].
  { rewrite Eb, !list.Forall_app in Hb. tauto. }
  assert (bytes done' /\ bytes tail) as [Hdb Htb] by (by split; [apply Forall_take|apply Forall_drop]).
  assert (bytes (window done')) as Hwb by by apply Forall_drop.
  destruct (decompress_into_with_dict block tail (window done')) as [[n tail']|] eqn:Edec; [|done].
  destruct (block_fits _ _ _ _ _ Hbb Htb Hwb Edec) as (Hn & Hzt & Hbt).
  assert (length blocks' <= fuel)%nat as Hf'.
  { unfold blocks'. rewrite !length_drop. unfold blocks in *. cbn in *. lia. }
  specialize (IH blocks' (done' ++ tail') (pos + n) Hf' Hbb'
    ltac:(by apply list.Forall_app) ltac:(rewrite zlen_app; lia) ltac:(lia)).
  destruct (blocks_loop fuel blocks' (done' ++ tail') (pos + n)) as [[d' p']| |]; [|done|done].
  destruct IH as (Hzd & Hbd & Hex). split; [done|]. split; [done|]. intros Hp'.
  destruct (Hex Hp') as (bl & Ebl & Hbl & Hexp). exists (block :: bl). split_and!.
  - cbn [frame_blocks map concat]. rewrite Hlen, <- app_assoc. fold (frame_blocks bl). by rewrite <- Ebl.
  - constructor; [by rewrite Hlen|done].
  - eapply expands_block; [lia| |exact Edec|]; [lia|].
    rewrite take_app in Hexp. rewrite (take_ge done') in Hexp by (unfold zlen in Ed; lia).
    replace (Z.to_nat (pos + n) - length done')%nat with (Z.to_nat n) in Hexp by (unfold zlen in Ed; lia).
    done.
Qed.

(** Blocks that expand, the loop decodes. *)
Lemma blocks_loop_complete total bl out fuel : forall decoded pos,
  expands total (take (Z.to_nat pos) decoded) bl out -> Forall (fun b => u32 (zlen b)) bl ->
  (length (frame_blocks bl) <= fuel)%nat -> bytes (frame_blocks bl) -> bytes decoded ->
  zlen decoded = total -> 0 <= pos <= total ->
  blocks_loop fuel (frame_blocks bl) decoded pos = Ok (out, total).
Proof.
  revert fuel. induction bl as [|block bl IH]; intros fuel decoded pos He Hu Hf Hb Hd Hz Hp.
  { inversion He as [? Hl|]; subst. rewrite zlen_take in Hl.
    rewrite take_ge by (unfold zlen in *; lia). destruct fuel; cbn; do 2 f_equal; lia. }
  inversion He as [|? ? ? tail n tail' ? Hlt Htot Edec He']; subst.
  apply Forall_cons_iff in Hu as [Hu Hus].
  change (frame_blocks (block :: bl)) with ((to_be 4 (zlen block) ++ block) ++ frame_blocks bl) in *.
  rewrite <- app_assoc in *. assert (zlen (to_be 4 (zlen block)) = 4) as Z4 by apply zlen_to_be.
  destruct fuel as [|fuel].
  { rewrite length_app, (length_zlen (to_be _ _)), Z4 in Hf. lia. }
  rewrite !list.Forall_app in Hb. destruct Hb as (_ & Hbb & Hbs).
  set (fb := frame_blocks bl) in *. set (bs := to_be 4 (zlen block) ++ block ++ fb) in *.
  pose proof (zlen_nonneg block). pose proof (zlen_nonneg fb).
  assert (zlen bs = 4 + (zlen block + zlen fb)) as Zbs by (unfold bs; by rewrite !zlen_app, Z4).
  assert (take 4 bs = to_be 4 (zlen block) /\ drop 4 bs = block ++ fb) as [T4 D4].
  { assert (4%nat = Z.to_nat (zlen (to_be 4 (zlen block)))) as E4 by (rewrite Z4; done).
    unfold bs. by split; [rewrite E4 at 1; apply take_zlen_app|rewrite E4 at 1; apply drop_zlen_app]. }
  rewrite zlen_take in Hlt, Htot.
  destruct (slices decoded pos ltac:(lia)) as (E1 & E2 & E3 & Ed & Et).
  set (done' := take (Z.to_nat pos) decoded) in *. set (tail0 := drop (Z.to_nat pos) decoded) in *.
  destruct (block_fresh _ tail tail0 _ _ _ ltac:(lia) Edec) as (tail'' & Edec' & Etake).
  assert (bytes done' /\ bytes tail0) as [Hdb Htb] by (by split; [apply Forall_take|apply Forall_drop]).
  assert (bytes (window done')) as Hwb by by apply Forall_drop.
  destruct (block_fits _ _ _ _ _ Hbb Htb Hwb Edec') as (Hn & Hzt & Hbt).
  assert (blocks_loop (S fuel) bs decoded pos = blocks_loop fuel fb (done' ++ tail'') (pos + n)) as ->.
  { destruct bs as [|b0 bs0] eqn:Ebs; [rewrite zlen_nil in Zbs; lia|]. cbn [blocks_loop]. rewrite <- Ebs in *.
    rewrite T4, D4, from_be_to_be by done. rewrite zlen_app.
    rewrite !(proj2 (Z.ltb_ge _ _)), (proj2 (Z.eqb_neq _ _)), E1, E2 by lia. cbn [rlift rbind].
    rewrite E3. cbn [rlift rbind]. by rewrite take_zlen_app, drop_zlen_app, Edec'. }
  apply IH; [|done| |done|by apply list.Forall_app|by rewrite zlen_app; lia|lia].
  - rewrite take_app, (take_ge done') by (unfold zlen in Ed; lia).
    replace (Z.to_nat (pos + n) - length done')%nat with (Z.to_nat n) by (unfold zlen in Ed; lia).
    by rewrite Etake.
  - unfold bs in Hf. rewrite !length_app, (length_zlen (to_be _ _)), Z4 in Hf. lia.
Qed.
End Blocks.

(** * The whole decoder *)

Lemma lz4_bpp_cases format bpp : lz4_bpp format = Some bpp ->
  (bpp = 4 /\ (format = lz4_BIT32 \/ format = lz4_RGBA)) \/ (bpp <> 4 /\ (bpp = 2 \/ bpp = 3)).
Proof.
  unfold lz4_bpp. destruct (Z.eqb_spec format lz4_BIT16); [intros [= <-]; lia|].
  destruct (Z.eqb_spec format lz4_BIT24); [intros [= <-]; lia|].
  destruct (Z.eqb_spec format lz4_BIT32); [intros [= <-]; tauto|].
  destruct (Z.eqb_spec format lz4_RGBA); [intros [= <-]; tauto|]. done.
Qed.

Lemma length_lz4_row format bpp width row : lz4_bpp format = Some bpp ->
  length row = (Z.to_nat width * Z.to_nat bpp)%nat ->
  length (lz4_row format bpp width row) = (Z.to_nat width * 4)%nat.
Proof.
  intros Hf Hl. unfold lz4_row. destruct (row_chunks_rows _ _ _ Hl) as (Hr & Hk & _).
  rewrite <- Hk at 2. rewrite <- (length_map (lz4_colour format)). apply length_concat_rows.
  apply Forall_map. eapply list.Forall_impl; [apply Hr|]. intros px Hpx. cbn beta in Hpx.
  destruct (lz4_bpp_cases _ _ Hf) as [[-> _]|[_ [-> | ->]]];
    destruct px as [|? [|? [|? [|? [|? ?]]]]]; cbn [length] in Hpx; lia || done.
Qed.

Lemma lz4_converted format bpp width height top_down raw : lz4_bpp format = Some bpp ->
  1 <= width -> 1 <= height -> bytes raw -> zlen raw = width * bpp * height ->
  (if bpp =? 4 then bgra_to_rgba_in_place raw width (format =? lz4_RGBA) top_down
   else widen_rows format width (width * bpp) top_down raw (width * height * 4)) =
    Some (lz4_image format bpp width height top_down raw) /\
  zlen (lz4_image format bpp width height top_down raw) = width * height * 4.
Proof.
  intros Hf Hw Hh Hb Hz. unfold lz4_image.
  assert (0 < bpp) as Hbpp by (destruct (lz4_bpp_cases _ _ Hf); lia).
  assert (length raw = (Z.to_nat height * Z.to_nat (width * bpp))%nat) as Hl by (unfold zlen in Hz; nia).
  destruct (row_chunks_rows _ _ _ Hl) as (Hr & Hk & Hc).
  set (rows := row_chunks (Z.to_nat height) (Z.to_nat (width * bpp)) raw) in *.
  assert (zlen rows = height) as Zr by (unfold zlen; lia). split.
  - rewrite <- Hc. destruct (lz4_bpp_cases _ _ Hf) as [[-> Hf4]|[Hn _]].
    + apply in_place_eq; [done|lia|done].
    + rewrite (proj2 (Z.eqb_neq _ _)), <- Zr by done.
      apply widen_rows_eq; [done|done|lia|by rewrite Hc|done].
  - assert (zlen (if top_down then rows else reverse rows) = height) as Zo.
    { destruct top_down; [done|]. unfold zlen. rewrite length_reverse. lia. }
    rewrite (zlen_concat (width * 4)); [|lia|].
    + rewrite zlen_map, Zo. lia.
    + replace (Z.to_nat (width * 4)) with (Z.to_nat width * 4)%nat by lia. apply Forall_map.
      replace (Z.to_nat (width * bpp)) with (Z.to_nat width * Z.to_nat bpp)%nat in Hr by lia.
      assert (rows_of (Z.to_nat width * Z.to_nat bpp) (if top_down then rows else reverse rows)) as Ho.
      { destruct top_down; [done|by apply Forall_reverse]. }
      eapply list.Forall_impl; [apply Ho|]. intros row. by apply length_lz4_row.
Qed.

Lemma frame_blocks_nil blocks : frame_blocks blocks = [] -> blocks = [].
Proof.
  destruct blocks as [|b blocks]; [done|]. intros E%(f_equal zlen). cbn [frame_blocks map concat] in E.
  rewrite !zlen_app, zlen_to_be, zlen_nil in E. zlen_nonneg_all. lia.
Qed.

Section Images.
Context `{HL : Lz4BlockLaws}.

(** C29: LZ4 images decode to what their blocks expand to, whatever they hold:
    [decompress_spice_lz4] returns an image exactly when the data is a flag, a
    known format and whole framed blocks that expand, each within the last 64 KiB
    of output, to exactly the rows of an image within the limits; the pixels are
    then those rows, each pixel widened to RGBA, the last row first unless the
    flag is set.  The in-place conversion of the 32-bit formats, which swaps the
    rows of a bottom-up image in pairs, and the second buffer of the 16 and
    24-bit ones give the same as this row by row reference.  No data makes it
    panic. *)
Theorem lz4_decodes_rows data width height :
  bytes data -> u32 width -> u32 height ->
  match decompress_spice_lz4 data width height with
  | Ok image => exists pixels, lz4_holds data width height pixels /\
      image = mkDecompressedImage width height pixels 0 0 /\
      rgba_len width height = Some (zlen pixels)
  | Err _ => forall pixels, ~ lz4_holds data width height pixels
  | Panic => False
  end.
Proof.
  intros Hb [Hw0 Hw] [Hh0 Hh]. unfold decompress_spice_lz4.
  destruct data as [|flag [|format blocks]];
    [intros px (? & ? & ? & ? & ? & ? & _); done..|].
  apply Forall_cons_iff in Hb as [_ [_ Hb]%Forall_cons_iff].
  destruct (lz4_bpp format) as [bpp|] eqn:Hf;
    [|intros px (? & ? & ? & ? & ? & [= <- <- ->] & ? & ? & ? & ?); congruence].
  destruct (rgba_len width height) as [size|] eqn:Hs;
    [|intros px (? & ? & ? & ? & ? & ? & ? & ? & ? & ? & ?); congruence].
  destruct (rgba_len_spec _ _ _ Hw0 Hh0 Hs) as (-> & Hw1 & Hh1 & Hpx).
  unfold MAX_IMAGE_DIMENSION, MAX_IMAGE_PIXELS in *.
  assert (0 < bpp <= 4) as Hbpp by (destruct (lz4_bpp_cases _ _ Hf); lia).
  unfold checked_mul, usize_max. rewrite !(proj2 (Z.leb_le _ _)) by nia.
  destruct (bool_decide_reflect (blocks = [])) as [->|Hne].
  { intros px (? & ? & bl & ? & ? & [= <- <- E] & Hn & _). symmetry in E. by apply frame_blocks_nil in E. }
  set (total := width * bpp * height). assert (0 <= total) as Ht by (unfold total; nia).
  assert (bytes (replicate (Z.to_nat total) 0)) as Hz.
  { apply Forall_replicate. unfold in_unsigned. lia. }
  assert (zlen (replicate (Z.to_nat total) (0 : Z)) = total) as Zt by (rewrite zlen_replicate; lia).
  assert (forall px, lz4_holds (flag :: format :: blocks) width height px -> exists raw bl,
    blocks = frame_blocks bl /\ px = lz4_image format bpp width height (negb (flag =? 0)) raw /\
    blocks_loop (length blocks) blocks (replicate (Z.to_nat total) 0) 0 = Ok (raw, total)) as Hholds.
  { intros px (? & ? & bl & ? & raw & [= <- <- ->] & _ & Hu & Hf' & _ & He & ->).
    rewrite Hf in Hf'. injection Hf' as <-. exists raw, bl. split; [done|]. split; [done|].
    by eapply blocks_loop_complete. }
  pose proof (blocks_loop_sound total (length blocks) blocks (replicate (Z.to_nat total) 0) 0
    ltac:(lia) Hb Hz Zt ltac:(lia)) as Hsound.
  destruct (blocks_loop _ _ _ _) as [[raw pos]| |]; cbn [rbind]; [| |done].
  2:{ intros px Hpx'%Hholds. by destruct Hpx' as (? & ? & _ & _ & ?). }
  destruct Hsound as (Zraw & Hbraw & Hex). rewrite Zraw.
  destruct (Z.eqb_spec pos total) as [->|Hpos]; cbn [negb].
  2:{ intros px Hpx'%Hholds. by destruct Hpx' as (? & ? & _ & _ & [= _ ?]). }
  destruct (lz4_converted format bpp width height (negb (flag =? 0)) raw Hf) as [Hconv Hlen];
    [lia|lia|done|done|]. rewrite Hconv. cbn [rlift rbind].
  rewrite new_some by by rewrite Hlen.
  destruct (Hex eq_refl) as (bl & -> & Hu & He). eexists. split; [|by rewrite Hlen].
  exists flag, format, bl, bpp, raw. split_and!; try done; [by intros ->|by rewrite Hs].
Qed.

End Images.

(** A block codec without compression. *)
Definition stored_block : Lz4Block := {|
  decompress_into_with_dict block tail dict :=
    if zlen block <=? zlen tail then Some (zlen block, block ++ drop (length block) tail) else None
|}.

Lemma stored_block_laws : @Lz4BlockLaws stored_block.
Proof.
  split; intros *.
  - intros Hb Ht _. cbn. destruct (Z.leb_spec (zlen block) (zlen tail)); [|done]. intros [= <- <-].
    pose proof (zlen_nonneg block). rewrite zlen_app, zlen_drop. unfold zlen in *. split; [lia|].
    split; [lia|]. apply list.Forall_app. split; [done|by apply Forall_drop].
  - intros Hl. cbn. rewrite Hl. destruct (_ <=? _); [|done]. intros [= <- <-].
    eexists. split; [done|]. by rewrite !take_zlen_app.
Qed.

(** Two rows of one pixel, the second one on top. *)
Lemma lz4_decodes_rows_witness :
  let data := [0; 8; 0; 0; 0; 3; 0; 0; 255; 0; 0; 0; 5; 7; 0; 255; 0; 9] in
  @decompress_spice_lz4 stored_block data 1 2 =
    Ok (mkDecompressedImage 1 2 [0; 255; 0; 255; 255; 0; 0; 255] 0 0) /\
  @lz4_holds stored_block data 1 2 [0; 255; 0; 255; 255; 0; 0; 255].
Proof.
  intros data.
  assert (@decompress_spice_lz4 stored_block data 1 2 =
    Ok (mkDecompressedImage 1 2 [0; 255; 0; 255; 255; 0; 0; 255] 0 0)) as E by (vm_compute; reflexivity).
  split; [exact E|].
  pose proof (@lz4_decodes_rows stored_block stored_block_laws data 1 2) as H. rewrite E in H.
  destruct H as (px & Hpx & [= <-] & _); [|unfold in_unsigned; lia..|exact Hpx].
  repeat constructor; unfold in_unsigned; lia.
Defined.
