(* ===== verification/Video.v ===== *)
(** The JPEG decoder interface, and the decoders of video streams:
    [shakenfist-spice-compression/src/jpeg.rs] and [src/video.rs].

    The trait [JpegDecoder] is the class of that name, and its laws are what
    [DecodedJpeg]'s constructors guarantee; the pure-Rust backend is an
    instance, over the [jpeg-decoder] crate ([JpegCrate]).  The platform
    backends are libraries.  A video stream owns a [VideoDecoder]: MJPEG, which
    keeps the Huffman tables the server leaves out of later frames, or H.264,
    over the [openh264] crate ([OpenH264]), which gives up on a stream that
    never recovers.  A [VideoDecoderError]'s text is left out. *)
From Stdlib Require Import ZArith Lia.
From stdpp Require Import base numbers list tactics.
From S2P Require Import Prelude Reader Lz.

Open Scope Z_scope.
Open Scope rust_scope.

(** * JPEG *)

Record DecodedJpeg : Type := mkDecodedJpeg {
  dj_rgba : list Z;
  dj_width : Z;
  dj_height : Z
}.

Definition validated_dimensions (width height : Z) : option (Z * Z * Z) :=
  len ← rgba_len width height;
  Some (as_unsigned 32 width, as_unsigned 32 height, len).

Definition DecodedJpeg_zeroed (width height : Z) : option DecodedJpeg :=
  d ← validated_dimensions width height;
  let '(width, height, len) := d in
  Some (mkDecodedJpeg (replicate (Z.to_nat len) 0) width height).

Definition DecodedJpeg_from_rgba (width height : Z) (rgba : list Z) : option DecodedJpeg :=
  d ← validated_dimensions width height;
  let '(width, height, expected) := d in
  if negb (zlen rgba =? expected) then None else Some (mkDecodedJpeg rgba width height).

Definition is_jpeg_payload (data : list Z) : bool := bool_decide (take 2 data = [0xFF; 0xD8]).

Class JpegDecoder : Type := { jpeg_decode : list Z -> option DecodedJpeg }.

Definition jpeg_sized (d : DecodedJpeg) : Prop :=
  0 <= dj_width d /\ 0 <= dj_height d /\ bytes (dj_rgba d) /\
  rgba_len (dj_width d) (dj_height d) = Some (zlen (dj_rgba d)).

Class JpegDecoderLaws `{JpegDecoder} : Prop := {
  jpeg_decode_sized data d : jpeg_decode data = Some d -> jpeg_sized d
}.

(** ** The pure-Rust backend *)

Inductive PixelFormat : Type := RGB24 | L8 | OtherFormat.

(** The [jpeg-decoder] crate: what a header says, and the decoded samples. *)
Class JpegCrate : Type := {
  crate_read_info : list Z -> option (Z * Z * PixelFormat);
  crate_decode : list Z -> option (list Z)
}.

Class JpegCrateLaws `{JpegCrate} : Prop := {
  crate_info_u16 data w h f : crate_read_info data = Some (w, h, f) -> u16 w /\ u16 h;
  crate_samples data px : crate_decode data = Some px -> bytes px
}.

Section JpegRs.
Context `{JpegCrate}.

Definition read_bounded_info (data : list Z) : option (Z * Z * PixelFormat) :=
  info ← crate_read_info data;
  let '(width, height, _) := info in
  _ ← validated_dimensions width height;
  Some info.

(** The whole pixels of the samples, opaque. *)
Fixpoint rgb24_to_rgba (pixels : list Z) : list Z :=
  match pixels with
  | r :: g :: b :: pixels => r :: g :: b :: 255 :: rgb24_to_rgba pixels
  | _ => []
  end.

Fixpoint l8_to_rgba (pixels : list Z) : list Z :=
  match pixels with
  | gray :: pixels => gray :: gray :: gray :: 255 :: l8_to_rgba pixels
  | [] => []
  end.

Definition jpeg_rs_decode (data : list Z) : option DecodedJpeg :=
  if negb (is_jpeg_payload data) then None
  else
    info ← read_bounded_info data;
    pixels ← crate_decode data;
    let '(width, height, pixel_format) := info in
    rgba ← match pixel_format with
           | RGB24 => Some (rgb24_to_rgba pixels)
           | L8 => Some (l8_to_rgba pixels)
           | OtherFormat => None
           end;
    DecodedJpeg_from_rgba width height rgba.

End JpegRs.

Definition JpegDecoderRs `{JpegCrate} : JpegDecoder := {| jpeg_decode := jpeg_rs_decode |}.

(** * Video streams *)

Definition SPICE_VIDEO_CODEC_TYPE_MJPEG : Z := 1.
Definition SPICE_VIDEO_CODEC_TYPE_H264 : Z := 3.

Record DecodedFrame : Type := mkDecodedFrame {
  df_rgba : list Z;
  df_width : Z;
  df_height : Z
}.

Definition DecodedFrame_from_jpeg (jpeg : DecodedJpeg) : DecodedFrame :=
  mkDecodedFrame (dj_rgba jpeg) (dj_width jpeg) (dj_height jpeg).

Inductive VideoDecoderError : Type :=
| VD_Decode
| VD_UnsupportedCodec (codec : Z).

(** ** Huffman tables

    [None] is a panic; the loops are fuelled by the length of the frame. *)

(** The length of the segment at [i], with its marker. *)
Definition segment_len (jpeg : list Z) (i : Z) : option Z :=
  hi ← index jpeg (i + 2);
  lo ← index jpeg (i + 3);
  Some (from_be [hi; lo] + 2).

Fixpoint extract_loop (fuel : nat) (jpeg : list Z) (i : Z) (dht : list Z) : option (list Z) :=
  if i + 3 <? zlen jpeg then
    match fuel with
    | O => None
    | S fuel =>
        b ← index jpeg i;
        if (negb (b =? 0xFF) : bool) then extract_loop fuel jpeg (i + 1) dht
        else
          marker ← index jpeg (i + 1);
          if (marker =? 0xC4 : bool) then
            seg_len ← segment_len jpeg i;
            dht ← (if i + seg_len <=? zlen jpeg then
                     seg ← slice jpeg i (i + seg_len); Some (dht ++ seg)
                   else Some dht);
            extract_loop fuel jpeg (i + seg_len) dht
          else if ((marker =? 0xD8) || (marker =? 0) || ((0xD0 <=? marker) && (marker <=? 0xD7)) : bool)
          then extract_loop fuel jpeg (i + 2) dht
          else if ((marker =? 0xD9) || (marker =? 0xDA) : bool) then Some dht
          else
            seg_len ← segment_len jpeg i;
            extract_loop fuel jpeg (i + seg_len) dht
    end
  else Some dht.

Definition extract_dht_segments (jpeg : list Z) : option (list Z) :=
  extract_loop (length jpeg) jpeg 0 [].

(** [while] over the leading APP0 and APP1 segments. *)
Fixpoint skip_apps (fuel : nat) (jpeg : list Z) (i : Z) (out : list Z) : option (Z * list Z) :=
  if i + 3 <? zlen jpeg then
    b ← index jpeg i;
    marker ← index jpeg (i + 1);
    if ((b =? 0xFF) && ((marker =? 0xE0) || (marker =? 0xE1)) : bool) then
      match fuel with
      | O => None
      | S fuel =>
          seg_len ← segment_len jpeg i;
          if (zlen jpeg <? i + seg_len : bool) then Some (i, out)
          else
            seg ← slice jpeg i (i + seg_len);
            skip_apps fuel jpeg (i + seg_len) (out ++ seg)
      end
    else Some (i, out)
  else Some (i, out).

Definition inject_dht (jpeg dht : list Z) : option (list Z) :=
  let soi := bool_decide (take 2 jpeg = [0xFF; 0xD8]) in
  p ← skip_apps (length jpeg) jpeg (if soi then 2 else 0) (if soi then take 2 jpeg else []);
  let '(i, out) := p in
  rest ← slice jpeg i (zlen jpeg);
  Some (out ++ dht ++ rest).

Record MJpegVideoDecoder : Type := mkMJpeg { cached_dht : option (list Z) }.

Definition MJpegVideoDecoder_new : MJpegVideoDecoder := mkMJpeg None.

Section MJpeg.
Context `{JpegDecoder}.

(** The frame the backend is given. *)
Definition frame_data (self : MJpegVideoDecoder) (packet dht : list Z) : option (list Z) :=
  if bool_decide (dht = []) then
    match cached_dht self with
    | Some cached => inject_dht packet cached
    | None => Some packet
    end
  else Some packet.

Definition mjpeg_decode (packet : list Z) : M VideoDecoderError MJpegVideoDecoder (option DecodedFrame) :=
  let? dht := unwrap (extract_dht_segments packet) in
  let? self := get_state in
  let? frame := unwrap (frame_data self packet dht) in
  match jpeg_decode frame with
  | Some jpeg =>
      do? (if bool_decide (dht = []) then ret tt else put_state (mkMJpeg (Some dht))) in
      ret (Some (DecodedFrame_from_jpeg jpeg))
  | None => throw VD_Decode
  end.

End MJpeg.

(** ** H.264 *)

Definition H264_TERMINAL_CONSECUTIVE_FAILURES : Z := 60.

(** The [openh264] crate's decoder; a picture has dimensions, and is written
    into a buffer of just its size, or the write panics. *)
Class OpenH264 : Type := {
  oh_state : Type;
  oh_picture : Type;
  oh_new : option oh_state;
  oh_decode : oh_state -> list Z -> option (option oh_picture) * oh_state;
  oh_dimensions : oh_picture -> Z * Z;
  oh_write_rgba8 : oh_picture -> list Z -> option (list Z)
}.

Class OpenH264Laws `{OpenH264} : Prop := {
  oh_dimensions_nonneg p : 0 <= fst (oh_dimensions p) /\ 0 <= snd (oh_dimensions p);
  oh_write_fits p buf : zlen buf = fst (oh_dimensions p) * snd (oh_dimensions p) * 4 ->
    exists rgba, oh_write_rgba8 p buf = Some rgba /\ zlen rgba = zlen buf /\ bytes rgba
}.

Section H264.
Context `{OpenH264}.

Record H264VideoDecoder : Type := mkH264 {
  hd_decoder : oh_state;
  hd_rgba_scratch : list Z;
  hd_consecutive_failures : Z;
  hd_terminal : bool;
  hd_framing_logged : bool
}.

Definition H264VideoDecoder_new : result VideoDecoderError H264VideoDecoder :=
  match oh_new with
  | Some decoder => Ok (mkH264 decoder [] 0 false false)
  | None => Err VD_Decode
  end.

Abbreviation H4 := (M VideoDecoderError H264VideoDecoder).

Definition note_failure {A} : H4 A :=
  let? self := get_state in
  let failures := saturating_add_u32 (hd_consecutive_failures self) 1 in
  do? put_state (mkH264 (hd_decoder self) (hd_rgba_scratch self) failures
        (if (H264_TERMINAL_CONSECUTIVE_FAILURES <=? failures) && negb (hd_terminal self) then true
         else hd_terminal self) (hd_framing_logged self)) in
  throw VD_Decode.

(** [resize(buf_len, 0)], when the length differs. *)
Definition resized (scratch : list Z) (buf_len : Z) : list Z :=
  if zlen scratch =? buf_len then scratch
  else take (Z.to_nat buf_len) scratch ++ replicate (Z.to_nat (buf_len - zlen scratch)) 0.

(** The codec's answer, as a frame; [None] is a failure. *)
Definition h264_picture (yuv : oh_picture) : H4 (option DecodedFrame) :=
  let '(w, h) := oh_dimensions yuv in
  match rgba_len w h with
  | None => ret None
  | Some buf_len =>
      let? self := get_state in
      let? rgba := unwrap (oh_write_rgba8 yuv (resized (hd_rgba_scratch self) buf_len)) in
      do? put_state (mkH264 (hd_decoder self) rgba (hd_consecutive_failures self) (hd_terminal self)
            (hd_framing_logged self)) in
      ret (Some (mkDecodedFrame rgba (Z.min w u32_max) (Z.min h u32_max)))
  end.

Definition note_success (frame : option DecodedFrame) : H4 (option DecodedFrame) :=
  let? self := get_state in
  do? put_state (mkH264 (hd_decoder self) (hd_rgba_scratch self) 0 (hd_terminal self)
        (hd_framing_logged self)) in
  ret frame.

Definition h264_decode (packet : list Z) : H4 (option DecodedFrame) :=
  let? self := get_state in
  if hd_terminal self then throw VD_Decode
  else
    let '(outcome, decoder) := oh_decode (hd_decoder self) packet in
    do? put_state (mkH264 decoder (hd_rgba_scratch self) (hd_consecutive_failures self)
          (hd_terminal self) true) in
    match outcome with
    | None => note_failure
    | Some None => note_success None
    | Some (Some yuv) =>
        let? frame := h264_picture yuv in
        match frame with
        | Some frame => note_success (Some frame)
        | None => note_failure
        end
    end.

End H264.

(** ** The decoder of a stream *)

Section VideoDecoder.
Context `{JpegDecoder} `{OpenH264}.

Inductive VideoDecoder : Type :=
| Vd_MJpeg (d : MJpegVideoDecoder)
| Vd_H264 (d : H264VideoDecoder).

(** [h264_feature] is the build's [h264-decode]. *)
Definition for_stream (h264_feature : bool) (codec_type : Z) : result VideoDecoderError VideoDecoder :=
  if codec_type =? SPICE_VIDEO_CODEC_TYPE_MJPEG then Ok (Vd_MJpeg MJpegVideoDecoder_new)
  else if h264_feature && (codec_type =? SPICE_VIDEO_CODEC_TYPE_H264) then
    rmap Vd_H264 H264VideoDecoder_new
  else Err (VD_UnsupportedCodec codec_type).

Definition video_decode (packet : list Z) : M VideoDecoderError VideoDecoder (option DecodedFrame) :=
  fun d =>
  match d with
  | Vd_MJpeg m => let (r, m) := mjpeg_decode packet m in (r, Vd_MJpeg m)
  | Vd_H264 h => let (r, h) := h264_decode packet h in (r, Vd_H264 h)
  end.

End VideoDecoder.

(** * Frames within the limits *)

Definition frame_sized (f : DecodedFrame) : Prop :=
  0 <= df_width f /\ 0 <= df_height f /\ bytes (df_rgba f) /\
  rgba_len (df_width f) (df_height f) = Some (zlen (df_rgba f)).

Lemma validated_ok width height w h len : 0 <= width -> 0 <= height ->
  validated_dimensions width height = Some (w, h, len) ->
  w = width /\ h = height /\ rgba_len width height = Some len.
Proof.
  intros Hw Hh. unfold validated_dimensions. destruct (rgba_len width height) as [n|] eqn:E; [|done].
  cbn. intros [= <- <- <-]. destruct (rgba_len_spec _ _ _ Hw Hh E) as (_ & ? & ? & _).
  unfold MAX_IMAGE_DIMENSION, as_unsigned in *. rewrite !Z.mod_small by lia. done.
Qed.

Lemma bytes_rgb24 n : forall px, (length px <= n)%nat -> bytes px -> bytes (rgb24_to_rgba px).
Proof.
  induction n as [|n IH]; intros [|r [|g [|b px]]] Hn Hb; cbn in *; try by constructor.
  { lia. }
  rewrite !Forall_cons_iff in Hb. destruct Hb as (? & ? & ? & ?).
  repeat (constructor; [first [done|unfold in_unsigned; lia]|]). apply IH; [lia|done].
Qed.

Lemma bytes_l8 px : bytes px -> bytes (l8_to_rgba px).
Proof.
  induction 1; cbn; [constructor|]. repeat (constructor; [first [done|unfold in_unsigned; lia]|]). done.
Qed.

(** The pure-Rust backend keeps the interface's promise. *)
Lemma jpeg_rs_laws `{JpegCrateLaws} : @JpegDecoderLaws JpegDecoderRs.
Proof.
  split. intros data d. cbn. unfold jpeg_rs_decode. destruct (is_jpeg_payload data); [|done]. cbn [negb].
  unfold read_bounded_info. destruct (crate_read_info data) as [[[w h] f]|] eqn:Ei; [|done].
  destruct (crate_info_u16 _ _ _ _ Ei) as [[Hw _] [Hh _]]. cbn [mbind option_bind].
  destruct (validated_dimensions w h) as [v|]; [|done]. cbn [mbind option_bind].
  destruct (crate_decode data) as [px|] eqn:Ed; [|done]. pose proof (crate_samples _ _ Ed) as Hb.
  cbn [mbind option_bind].
  assert (forall rgba, bytes rgba -> DecodedJpeg_from_rgba w h rgba = Some d -> jpeg_sized d) as Hfrom.
  { intros rgba Hr. unfold DecodedJpeg_from_rgba.
    destruct (validated_dimensions w h) as [[[w' h'] n]|] eqn:Ev; [|done].
    destruct (validated_ok _ _ _ _ _ Hw Hh Ev) as (-> & -> & Hn). cbn [mbind option_bind].
    destruct (Z.eqb_spec (zlen rgba) n) as [Er|]; [|done]. intros [= <-]. unfold jpeg_sized. cbn.
    by rewrite Er. }
  destruct f; cbn [mbind option_bind]; [| |done]; apply Hfrom; [by eapply bytes_rgb24|by apply bytes_l8].
Qed.

(** * Scanning for tables *)

Definition standalone (marker : Z) : bool :=
  (marker =? 0xD8) || (marker =? 0) || ((0xD0 <=? marker) && (marker <=? 0xD7)).
Definition ends_scan (marker : Z) : bool := (marker =? 0xD9) || (marker =? 0xDA).

(** What the scan finds in a frame, or in what is left of it. *)
Inductive scans : list Z -> list Z -> Prop :=
| scans_short l : zlen l <= 3 -> scans l []
| scans_byte b m hi lo l out : b <> 0xFF -> scans (m :: hi :: lo :: l) out ->
    scans (b :: m :: hi :: lo :: l) out
| scans_standalone m hi lo l out : standalone m = true -> scans (hi :: lo :: l) out ->
    scans (0xFF :: m :: hi :: lo :: l) out
| scans_end m hi lo l : standalone m = false -> ends_scan m = true ->
    scans (0xFF :: m :: hi :: lo :: l) []
| scans_segment m hi lo l seg rest out : standalone m = false -> ends_scan m = false ->
    0xFF :: m :: hi :: lo :: l = seg ++ rest -> zlen seg = 256 * hi + lo + 2 -> scans rest out ->
    scans (0xFF :: m :: hi :: lo :: l) ((if m =? 0xC4 then seg else []) ++ out)
| scans_cut m hi lo l : standalone m = false -> ends_scan m = false ->
    zlen (0xFF :: m :: hi :: lo :: l) < 256 * hi + lo + 2 ->
    scans (0xFF :: m :: hi :: lo :: l) [].

Lemma scan_over fuel jpeg i dht : zlen jpeg <= i -> extract_loop fuel jpeg i dht = Some dht.
Proof. intros Hi. destruct fuel; cbn; by rewrite (proj2 (Z.ltb_ge _ _)) by lia. Qed.

Lemma index_at {A} (pre : list A) x post k : k = zlen pre -> index (pre ++ x :: post) k = Some x.
Proof.
  intros ->. rewrite index_lookup by (rewrite zlen_app, zlen_cons; zlen_nonneg_all; lia).
  unfold zlen. rewrite Nat2Z.id. by apply list_lookup_middle.
Qed.

(** Four bytes at the place the scan is at. *)
Lemma four_bytes pre b m hi lo l (jpeg := pre ++ b :: m :: hi :: lo :: l) :
  index jpeg (zlen pre) = Some b /\ index jpeg (zlen pre + 1) = Some m /\
  segment_len jpeg (zlen pre) = Some (256 * hi + lo + 2) /\
  (zlen pre + 3 <? zlen jpeg) = true.
Proof.
  split; [by apply index_at|]. subst jpeg.
  split; [|split].
  - change (b :: m :: hi :: lo :: l) with ([b] ++ m :: hi :: lo :: l). rewrite app_assoc.
    apply index_at. by rewrite zlen_app.
  - unfold segment_len.
    assert (pre ++ b :: m :: hi :: lo :: l = (pre ++ [b; m]) ++ hi :: lo :: l) as -> by by rewrite <- app_assoc.
    rewrite (index_at _ hi _ (zlen pre + 2)) by (rewrite zlen_app, !zlen_cons, zlen_nil; lia). cbn [mbind option_bind].
    assert ((pre ++ [b; m]) ++ hi :: lo :: l = (pre ++ [b; m; hi]) ++ lo :: l) as -> by by rewrite <- !app_assoc.
    rewrite (index_at _ lo _ (zlen pre + 3)) by (rewrite zlen_app, !zlen_cons, zlen_nil; lia). cbn [mbind option_bind].
    f_equal. unfold from_be. cbn [reverse]. unfold from_le. cbn. lia.
  - apply Z.ltb_lt. rewrite zlen_app, !zlen_cons. zlen_nonneg_all. lia.
Qed.

Lemma extract_scans l out : scans l out -> bytes l -> forall fuel pre acc, (length l <= fuel)%nat ->
  extract_loop fuel (pre ++ l) (zlen pre) acc = Some (acc ++ out).
Proof.
  induction 1 as [l Hl|b m hi lo l out Hb _ IH|m hi lo l out Hm _ IH|m hi lo l Hm He
    |m hi lo l seg rest out Hm He Eseg Hseg _ IH|m hi lo l Hm He Hcut]; intros Hbytes fuel pre acc Hf.
  { rewrite app_nil_r. destruct fuel; cbn; rewrite (proj2 (Z.ltb_ge _ _)); try done;
      rewrite zlen_app; lia. }
  all: destruct fuel as [|fuel]; [cbn in Hf; lia|]; cbn [extract_loop].
  all: match goal with |- context [index (?pre ++ ?b :: ?m :: ?hi :: ?lo :: ?l)] =>
         destruct (four_bytes pre b m hi lo l) as (E0 & E1 & E2 & E3) end.
  all: rewrite E3, E0; cbn [mbind option_bind].
  - rewrite (proj2 (Z.eqb_neq _ _)) by done. cbn [negb].
    specialize (IH ltac:(by apply Forall_cons_iff in Hbytes as [_ ?]) fuel (pre ++ [b]) acc).
    rewrite <- app_assoc, zlen_app in IH. apply IH. cbn [length] in *. lia.
  - rewrite Z.eqb_refl. cbn [negb]. rewrite E1. cbn [mbind option_bind].
    assert ((m =? 0xC4) = false) as -> by (unfold standalone in Hm; destruct (Z.eqb_spec m 0xC4) as [->|]; done).
    unfold standalone in Hm. rewrite Hm.
    specialize (IH ltac:(by apply Forall_cons_iff in Hbytes as [_ [_ ?]%Forall_cons_iff]) fuel (pre ++ [255; m]) acc).
    rewrite <- app_assoc, zlen_app in IH. apply IH. cbn [length] in *. lia.
  - rewrite Z.eqb_refl. cbn [negb]. rewrite E1. cbn [mbind option_bind].
    assert ((m =? 0xC4) = false) as -> by (unfold ends_scan in He; destruct (Z.eqb_spec m 0xC4) as [->|]; done).
    unfold standalone in Hm. rewrite Hm. unfold ends_scan in He. by rewrite He, app_nil_r.
  - rewrite Z.eqb_refl. cbn [negb]. rewrite E1. cbn [mbind option_bind]. unfold standalone in Hm.
    unfold ends_scan in He. rewrite Hm, He, E2. cbn [mbind option_bind]. rewrite <- Hseg.
    assert ((zlen pre + zlen seg <=? zlen (pre ++ 0xFF :: m :: hi :: lo :: l)) = true) as Hle.
    { apply Z.leb_le. rewrite Eseg, !zlen_app. zlen_nonneg_all. lia. }
    pose proof Hbytes as Hb4. rewrite !Forall_cons_iff in Hb4.
    destruct Hb4 as (_ & _ & [? _] & [? _] & _).
    rewrite Eseg in *. apply list.Forall_app in Hbytes as [_ Hbr].
    assert (length rest <= fuel)%nat as Hfr.
    { rewrite length_app in Hf. unfold zlen in Hseg. lia. }
    specialize (IH Hbr fuel (pre ++ seg)). rewrite <- app_assoc, zlen_app in IH.
    destruct (m =? 0xC4).
    + rewrite Hle, slice_middle. cbn [mbind option_bind]. rewrite IH by done. by rewrite app_assoc.
    + by rewrite IH.
  - rewrite Z.eqb_refl. cbn [negb]. rewrite E1. cbn [mbind option_bind]. unfold standalone in Hm.
    unfold ends_scan in He. rewrite Hm, He, E2. cbn [mbind option_bind]. rewrite app_nil_r.
    assert ((zlen pre + (256 * hi + lo + 2) <=? zlen (pre ++ 0xFF :: m :: hi :: lo :: l)) = false) as Hgt.
    { apply Z.leb_gt. rewrite zlen_app. lia. }
    destruct (m =? 0xC4); [rewrite Hgt; cbn [mbind option_bind]|]; apply scan_over;
      apply Z.leb_gt in Hgt; lia.
Qed.

Lemma scans_total l : bytes l -> exists out, scans l out /\ bytes out.
Proof.
  remember (length l) as n eqn:En. revert l En. induction n as [n IH] using lt_wf_ind. intros l -> Hb.
  destruct (Z.leb_spec (zlen l) 3); [exists []; split; [by constructor|constructor]|].
  destruct l as [|b [|m [|hi [|lo l]]]]; try (unfold zlen in *; cbn in *; lia).
  assert (forall l', (length l' < S (S (S (S (length l)))))%nat -> bytes l' ->
    exists out, scans l' out /\ bytes out) as IH' by eauto. clear IH.
  pose proof Hb as Hb4. rewrite !Forall_cons_iff in Hb4. destruct Hb4 as (Hb0 & Hm & [Hh ?] & [Hlo ?] & Hl).
  destruct (decide (b = 0xFF)) as [->|Hne].
  2:{ destruct (IH' (m :: hi :: lo :: l)) as (out & ? & ?); [cbn; lia|by apply Forall_cons_iff in Hb as [_ ?]|].
      exists out. split; [by constructor|done]. }
  destruct (standalone m) eqn:Es.
  { destruct (IH' (hi :: lo :: l)) as (out & ? & ?); [cbn; lia|by repeat constructor; try lia|].
    exists out. split; [by constructor|done]. }
  destruct (ends_scan m) eqn:Ee; [exists []; split; [by constructor|constructor]|].
  set (n := 256 * hi + lo + 2). set (all := 0xFF :: m :: hi :: lo :: l) in *.
  destruct (Z.ltb_spec (zlen all) n); [exists []; split; [by constructor|constructor]|].
  assert (zlen (take (Z.to_nat n) all) = n) as Hz by (rewrite zlen_take; lia).
  destruct (IH' (drop (Z.to_nat n) all)) as (out & ? & ?).
  { rewrite length_drop. unfold all. cbn [length]. lia. }
  { by apply Forall_drop. }
  eexists. split; [eapply scans_segment; [done|done|symmetry; apply (take_drop (Z.to_nat n))|exact Hz|done]|].
  destruct (m =? 0xC4); [|done]. apply list.Forall_app. split; [by apply Forall_take|done].
Qed.

(** [extract_dht_segments] always returns, and finds what the scan finds. *)
Lemma extract_ok jpeg out : bytes jpeg -> extract_dht_segments jpeg = Some out <-> scans jpeg out.
Proof.
  intros Hb. assert (forall o, scans jpeg o -> extract_dht_segments jpeg = Some o) as Hx.
  { intros o Ho. unfold extract_dht_segments. by apply (extract_scans jpeg o Ho Hb (length jpeg) [] []). }
  split; [|apply Hx]. intros E. destruct (scans_total jpeg Hb) as (o & Ho & _).
  rewrite (Hx o Ho) in E. by injection E as <-.
Qed.

Lemma scans_det l out out' : bytes l -> scans l out -> scans l out' -> out = out'.
Proof. intros Hb H1%extract_ok H2%extract_ok; [|done..]. congruence. Qed.

(** ** Segments *)

Definition segment (marker : Z) (payload : list Z) : list Z :=
  0xFF :: marker :: to_be 2 (zlen payload + 2) ++ payload.

Definition payload_ok (payload : list Z) : Prop := bytes payload /\ zlen payload + 2 < 2 ^ 16.

Definition segments (marker : Z) (payloads : list (list Z)) : list Z :=
  concat (map (segment marker) payloads).

Lemma segment_header payload : payload_ok payload -> exists hi lo, u8 hi /\ u8 lo /\
  to_be 2 (zlen payload + 2) = [hi; lo] /\ zlen payload + 4 = 256 * hi + lo + 2.
Proof.
  intros [_ Hl]. pose proof (zlen_nonneg payload). set (n := zlen payload + 2) in *.
  exists (n / 256), (n mod 256). unfold in_unsigned.
  assert (n / 256 mod 256 = n / 256) as Hs.
  { apply Z.mod_small. split; [apply Z.div_pos; lia|apply Z.div_lt_upper_bound; lia]. }
  split; [split; [apply Z.div_pos; lia|apply Z.div_lt_upper_bound; lia]|].
  split; [apply Z.mod_pos_bound; lia|]. split.
  - unfold to_be, to_le. rewrite Hs. done.
  - pose proof (Z.div_mod n 256). unfold n in *. lia.
Qed.

Lemma bytes_segment marker payload : u8 marker -> payload_ok payload -> bytes (segment marker payload).
Proof.
  intros Hm [Hp _]. unfold segment. constructor; [unfold in_unsigned; lia|]. constructor; [done|].
  apply list.Forall_app. split; [|done]. unfold to_be. apply Forall_reverse, to_le_bytes.
Qed.

Lemma bytes_segments marker payloads : u8 marker -> Forall payload_ok payloads ->
  bytes (segments marker payloads).
Proof.
  intros Hm. induction 1 as [|p ps Hp _ IH]; [constructor|].
  apply list.Forall_app. split; [by apply bytes_segment|done].
Qed.

Lemma scan_one marker payload rest out : standalone marker = false -> ends_scan marker = false ->
  payload_ok payload -> scans rest out ->
  scans (segment marker payload ++ rest) ((if marker =? 0xC4 then segment marker payload else []) ++ out).
Proof.
  intros Hs He Hp Hr. destruct (segment_header payload Hp) as (hi & lo & _ & _ & Eb & Hn).
  set (seg := segment marker payload).
  assert (seg = 0xFF :: marker :: hi :: lo :: payload) as Eseg by (unfold seg, segment; by rewrite Eb).
  assert (zlen seg = 256 * hi + lo + 2) as Hz by (rewrite Eseg, !zlen_cons; lia).
  rewrite Eseg at 1. cbn [app]. eapply scans_segment; [done|done|by rewrite Eseg|done|done].
Qed.

Lemma scan_segments marker payloads rest out : standalone marker = false -> ends_scan marker = false ->
  Forall payload_ok payloads -> scans rest out ->
  scans (segments marker payloads ++ rest) ((if marker =? 0xC4 then segments marker payloads else []) ++ out).
Proof.
  intros Hs He Hps Hr. induction Hps as [|p ps Hp _ IH].
  - cbn. by destruct (marker =? 0xC4).
  - cbn [segments map concat]. fold (segments marker ps). rewrite <- app_assoc.
    pose proof (scan_one marker p _ _ Hs He Hp IH) as H. destruct (marker =? 0xC4); [|done].
    by rewrite <- app_assoc.
Qed.

(** * Putting the tables back *)

(** A frame of a stream: the SOI marker, APP0 and APP1 segments, and the rest,
    with the tables the rest carries, if any. *)
Record Packet : Type := mkPacket {
  pk_apps : list (Z * list Z);
  pk_rest : list Z;
  pk_tables : list (list Z)
}.

Definition app_bytes (apps : list (Z * list Z)) : list Z :=
  concat (map (fun a => segment (fst a) (snd a)) apps).

Definition packet_with (pk : Packet) (dht : list Z) : list Z :=
  [0xFF; 0xD8] ++ app_bytes (pk_apps pk) ++ dht ++ pk_rest pk.

Definition packet_bytes (pk : Packet) : list Z := packet_with pk [].

Definition app_ok (a : Z * list Z) : Prop := (fst a = 0xE0 \/ fst a = 0xE1) /\ payload_ok (snd a).

Definition no_app (rest : list Z) : Prop :=
  match rest with
  | b :: m :: _ :: _ :: _ => ~ (b = 0xFF /\ (m = 0xE0 \/ m = 0xE1))
  | _ => True
  end.

Record packet_ok (pk : Packet) : Prop := {
  pk_apps_ok : Forall app_ok (pk_apps pk);
  pk_rest_bytes : bytes (pk_rest pk);
  pk_no_app : no_app (pk_rest pk);
  pk_tables_ok : Forall payload_ok (pk_tables pk);
  pk_tables_in : extract_dht_segments (pk_rest pk) = Some (segments 0xC4 (pk_tables pk))
}.

Lemma bytes_apps apps : Forall app_ok apps -> bytes (app_bytes apps).
Proof.
  induction 1 as [|[m p] apps [Hm Hp] _ IH]; [constructor|]. apply list.Forall_app.
  split; [|done]. apply bytes_segment; [|done]. cbn in *. unfold in_unsigned. lia.
Qed.

Lemma bytes_packet pk dht : packet_ok pk -> bytes dht -> bytes (packet_with pk dht).
Proof.
  intros Hpk Hd. unfold packet_with. rewrite !list.Forall_app.
  split; [repeat constructor; unfold in_unsigned; lia|].
  split; [apply bytes_apps, Hpk|]. split; [done|apply Hpk].
Qed.

Lemma scan_apps apps rest out : Forall app_ok apps -> scans rest out -> scans (app_bytes apps ++ rest) out.
Proof.
  intros Ha Hr. induction Ha as [|[m p] apps [Hm Hp] _ IH]; [done|].
  cbn [app_bytes map concat fst snd]. fold (app_bytes apps). rewrite <- app_assoc. cbn [fst snd] in Hm, Hp.
  assert ((m =? 0xC4) = false) as E4 by (apply Z.eqb_neq; lia).
  pose proof (scan_one m p _ _ ltac:(destruct Hm as [-> | ->]; done) ltac:(destruct Hm as [-> | ->]; done) Hp IH) as H.
  by rewrite E4 in H.
Qed.

Lemma scan_soi l out : scans l out -> scans (0xFF :: 0xD8 :: l) out.
Proof.
  intros Hl. destruct (Z.leb_spec (zlen l) 1) as [H1|H1].
  - assert (out = []) as ->.
    { inversion Hl; subst; [done|rewrite !zlen_cons in H1; zlen_nonneg_all; lia..]. }
    apply scans_short. rewrite !zlen_cons. lia.
  - destruct l as [|hi [|lo l]]; [rewrite ?zlen_cons, ?zlen_nil in H1; lia..|]. by apply scans_standalone.
Qed.

Lemma scan_packet pk dht out : packet_ok pk -> scans (dht ++ pk_rest pk) out ->
  scans (packet_with pk dht) out.
Proof. intros Hpk Hs. apply scan_soi, scan_apps; [apply Hpk|done]. Qed.

Lemma skip_short fuel pre rest acc : zlen rest <= 3 ->
  skip_apps fuel (pre ++ rest) (zlen pre) acc = Some (zlen pre, acc).
Proof.
  intros Hl. destruct fuel; cbn [skip_apps]; rewrite (proj2 (Z.ltb_ge _ _)); try done;
    rewrite zlen_app; lia.
Qed.

(** The loop over the headers stops where they do. *)
Lemma skip_apps_eq apps rest : Forall app_ok apps -> no_app rest -> forall fuel pre acc,
  (length apps <= fuel)%nat ->
  skip_apps fuel (pre ++ app_bytes apps ++ rest) (zlen pre) acc =
    Some (zlen (pre ++ app_bytes apps), acc ++ app_bytes apps).
Proof.
  intros Ha Hn. induction Ha as [|[m p] apps [Hm Hp] _ IH]; intros fuel pre acc Hf.
  - cbn [app_bytes map concat app]. rewrite !app_nil_r.
    destruct (Z.leb_spec (zlen rest) 3); [by apply skip_short|].
    destruct rest as [|b [|m [|hi [|lo l]]]]; try (rewrite ?zlen_cons, zlen_nil in *; lia).
    destruct (four_bytes pre b m hi lo l) as (E0 & E1 & _ & E3). cbn in Hn.
    destruct fuel; cbn [skip_apps]; rewrite E3, E0; cbn [mbind option_bind]; rewrite E1;
      cbn [mbind option_bind];
      (destruct (Z.eqb_spec b 0xFF), (Z.eqb_spec m 0xE0), (Z.eqb_spec m 0xE1); cbn [andb orb];
       done || (exfalso; tauto)).
  - destruct fuel as [|fuel]; [cbn in Hf; lia|]. cbn [fst snd] in Hm, Hp.
    cbn [app_bytes map concat fst snd]. fold (app_bytes apps).
    destruct (segment_header p Hp) as (hi & lo & _ & _ & Eb & Hlen). set (seg := segment m p).
    assert (seg = 0xFF :: m :: hi :: lo :: p) as Eseg by (unfold seg, segment; by rewrite Eb).
    assert (zlen seg = 256 * hi + lo + 2) as Hz by (rewrite Eseg, !zlen_cons; lia).
    rewrite <- (app_assoc seg). cbn [skip_apps].
    destruct (four_bytes pre 0xFF m hi lo (p ++ app_bytes apps ++ rest)) as (E0 & E1 & E2 & E3).
    change (0xFF :: m :: hi :: lo :: p ++ app_bytes apps ++ rest) with
      ((0xFF :: m :: hi :: lo :: p) ++ app_bytes apps ++ rest) in *. rewrite <- Eseg in *.
    rewrite E3, E0. cbn [mbind option_bind]. rewrite E1. cbn [mbind option_bind].
    assert (((0xFF =? 0xFF) && ((m =? 0xE0) || (m =? 0xE1))) = true) as -> by (by destruct Hm as [-> | ->]).
    rewrite E2. cbn [mbind option_bind]. rewrite <- Hz, (proj2 (Z.ltb_ge _ _)), slice_middle
      by (rewrite !zlen_app; zlen_nonneg_all; lia). cbn [mbind option_bind].
    specialize (IH fuel (pre ++ seg) (acc ++ seg) ltac:(cbn in Hf; lia)).
    rewrite zlen_app, <- !app_assoc in IH. exact IH.
Qed.

Lemma inject_packet pk dht : packet_ok pk -> inject_dht (packet_bytes pk) dht = Some (packet_with pk dht).
Proof.
  intros Hpk. unfold inject_dht, packet_bytes, packet_with. cbn [app]. rewrite bool_decide_true by done.
  pose proof (skip_apps_eq (pk_apps pk) (pk_rest pk) (pk_apps_ok _ Hpk) (pk_no_app _ Hpk)
    (length (0xFF :: 0xD8 :: app_bytes (pk_apps pk) ++ pk_rest pk)) [0xFF; 0xD8] [0xFF; 0xD8]) as Hs.
  cbn [app] in Hs. change (take 2 (_ :: _ :: ?l)) with [0xFF; 0xD8].
  change (zlen [0xFF; 0xD8]) with 2 in Hs. rewrite Hs. cbn [mbind option_bind].
  - change (0xFF :: 0xD8 :: app_bytes (pk_apps pk) ++ pk_rest pk) with
      ((0xFF :: 0xD8 :: app_bytes (pk_apps pk)) ++ pk_rest pk).
    by rewrite slice_suffix.
  - cbn [length]. rewrite length_app. assert (length (pk_apps pk) <= length (app_bytes (pk_apps pk)))%nat; [|lia].
    generalize (pk_apps pk). intros apps. induction apps as [|a apps IH]; [done|].
    cbn [app_bytes map concat length]. rewrite length_app. unfold segment at 1. cbn [length].
    unfold app_bytes in IH. lia.
Qed.

(** [inject_dht] always returns. *)
Lemma skip_apps_total jpeg fuel : forall i out, bytes jpeg -> bytes out -> 0 <= i <= zlen jpeg ->
  (Z.to_nat (zlen jpeg - i) <= fuel)%nat ->
  exists i' out', skip_apps fuel jpeg i out = Some (i', out') /\ 0 <= i' <= zlen jpeg /\ bytes out'.
Proof.
  induction fuel as [|fuel IH]; intros i out Hj Ho Hi Hf; cbn [skip_apps];
    (destruct (Z.ltb_spec (i + 3) (zlen jpeg)) as [Hlt|]; [|by eexists _, _]).
  { lia. }
  destruct (index_is_Some jpeg i ltac:(lia)) as [b ->]. cbn [mbind option_bind].
  destruct (index_is_Some jpeg (i + 1) ltac:(lia)) as [m ->]. cbn [mbind option_bind].
  destruct ((b =? 0xFF) && _); [|by eexists _, _]. unfold segment_len.
  destruct (index_is_Some jpeg (i + 2) ltac:(lia)) as [hi Ehi]. rewrite Ehi. cbn [mbind option_bind].
  destruct (index_is_Some jpeg (i + 3) ltac:(lia)) as [lo Elo]. rewrite Elo. cbn [mbind option_bind].
  assert (0 <= from_be [hi; lo]) as Hn.
  { unfold from_be. apply from_le_bound. apply Forall_reverse.
    rewrite index_lookup in Ehi, Elo by lia.
    constructor; [exact (Forall_lookup_1 _ _ _ _ Hj Ehi)|].
    constructor; [exact (Forall_lookup_1 _ _ _ _ Hj Elo)|constructor]. }
  destruct (Z.ltb_spec (zlen jpeg) (i + (from_be [hi; lo] + 2))); [by eexists _, _|].
  rewrite slice_Some by lia. cbn [mbind option_bind]. apply IH; [done| |lia|lia].
  apply list.Forall_app. split; [done|]. by apply Forall_take, Forall_drop.
Qed.

Lemma inject_total jpeg dht : bytes jpeg -> bytes dht ->
  exists frame, inject_dht jpeg dht = Some frame /\ bytes frame.
Proof.
  intros Hj Hd. unfold inject_dht. set (soi := bool_decide _).
  pose proof (zlen_nonneg jpeg).
  assert (soi = true -> 2 <= zlen jpeg) as Hsoi.
  { unfold soi. intros E%bool_decide_eq_true. destruct jpeg as [|? [|? ?]]; [done..|].
    rewrite !zlen_cons. zlen_nonneg_all. lia. }
  assert (0 <= (if soi then 2 else 0) <= zlen jpeg) as Hi by (destruct soi; lia).
  assert (bytes (if soi then take 2 jpeg else [])) as Ho by (destruct soi; [by apply Forall_take|constructor]).
  destruct (skip_apps_total jpeg (length jpeg) _ _ Hj Ho Hi) as (i & out & -> & Hi' & Hout).
  { unfold zlen. lia. }
  cbn [mbind option_bind]. rewrite slice_Some by lia. cbn [mbind option_bind]. eexists. split; [done|].
  rewrite !list.Forall_app. split; [done|]. split; [done|]. by apply Forall_take, Forall_drop.
Qed.

(** ** Every decoder *)

Definition mjpeg_ok (d : MJpegVideoDecoder) : Prop :=
  match cached_dht d with Some dht => bytes dht | None => True end.

Section Decoding.
Context `{JL : JpegDecoderLaws} `{OL : OpenH264Laws}.

Definition video_ok (d : VideoDecoder) : Prop :=
  match d with Vd_MJpeg m => mjpeg_ok m | Vd_H264 _ => True end.

Lemma mjpeg_decode_ok packet d : bytes packet -> mjpeg_ok d ->
  match mjpeg_decode packet d with
  | (Ok frame, d') => mjpeg_ok d' /\ (forall f, frame = Some f -> frame_sized f)
  | (Err _, d') => mjpeg_ok d'
  | (Panic, _) => False
  end.
Proof.
  intros Hp Hd. unfold mjpeg_decode, bind. destruct (scans_total packet Hp) as (dht & Hs & Hdht).
  rewrite (proj2 (extract_ok packet dht Hp) Hs). cbn [unwrap ret get_state].
  assert (exists frame, frame_data d packet dht = Some frame) as [frame ->].
  { unfold frame_data. destruct (bool_decide _); [|by eexists]. unfold mjpeg_ok in Hd.
    destruct (cached_dht d) as [c|]; [|by eexists].
    destruct (inject_total packet c Hp Hd) as (? & ? & _). by eexists. }
  cbn [unwrap ret]. destruct (jpeg_decode frame) as [jpeg|] eqn:E; [|done].
  apply jpeg_decode_sized in E. destruct (bool_decide _); cbn;
    (split; [done|]); intros f [= <-]; exact E.
Qed.

Lemma h264_decode_ok packet d :
  match h264_decode packet d with
  | (Ok frame, _) => forall f, frame = Some f -> frame_sized f
  | (Err _, _) => True
  | (Panic, _) => False
  end.
Proof.
  unfold h264_decode, bind. cbn [get_state]. destruct (hd_terminal d); [done|].
  destruct (oh_decode (hd_decoder d) packet) as [[[yuv|]|] dec]; cbn [put_state]; [|done|done].
  unfold h264_picture. pose proof (oh_dimensions_nonneg yuv) as [Hw Hh].
  pose proof (oh_write_fits yuv) as Hfit.
  destruct (oh_dimensions yuv) as [w h]. cbn [fst snd] in *.
  destruct (rgba_len w h) as [n|] eqn:En; [|done].
  destruct (rgba_len_spec _ _ _ Hw Hh En) as (Hn & Hw' & Hh' & _). unfold bind. cbn [get_state].
  set (buf := resized _ n). assert (zlen buf = n) as Hbuf.
  { unfold buf, resized. cbn [hd_rgba_scratch].
    destruct (Z.eqb_spec (zlen (hd_rgba_scratch d)) n); [done|].
    rewrite zlen_app, zlen_take, zlen_replicate. zlen_nonneg_all. nia. }
  destruct (Hfit buf ltac:(lia)) as (rgba & -> & Hz & Hb). cbn. intros f [= <-].
  unfold frame_sized. cbn. unfold MAX_IMAGE_DIMENSION, u32_max in *. rewrite !Z.min_l by lia.
  rewrite Hz, Hbuf. split_and!; [lia|lia|done|done].
Qed.

(** Whatever the packet, a decoder returns, and a frame it returns is within the
    limits, with four bytes a pixel. *)
Lemma video_decode_ok packet d : bytes packet -> video_ok d ->
  match video_decode packet d with
  | (Ok frame, d') => video_ok d' /\ (forall f, frame = Some f -> frame_sized f)
  | (Err _, d') => video_ok d'
  | (Panic, _) => False
  end.
Proof.
  intros Hp Hd. destruct d as [m|h]; cbn [video_decode].
  - pose proof (mjpeg_decode_ok packet m Hp Hd). by destruct (mjpeg_decode packet m) as [[?|?|] ?].
  - pose proof (h264_decode_ok packet h). by destruct (h264_decode packet h) as [[?|?|] ?].
Qed.

Lemma for_stream_ok feature codec :
  match for_stream feature codec with
  | Ok d => video_ok d /\ (codec = SPICE_VIDEO_CODEC_TYPE_MJPEG \/ codec = SPICE_VIDEO_CODEC_TYPE_H264)
  | Err _ => codec <> SPICE_VIDEO_CODEC_TYPE_MJPEG
  | Panic => False
  end.
Proof.
  unfold for_stream. destruct (Z.eqb_spec codec SPICE_VIDEO_CODEC_TYPE_MJPEG); [by split; [|left]|].
  destruct (feature && _) eqn:E; [|done]. apply andb_true_iff in E as [_ E%Z.eqb_eq].
  unfold H264VideoDecoder_new. destruct oh_new; cbn; [by split; [|right]|done].
Qed.

End Decoding.

(** ** A stream of MJPEG frames *)

Section Stream.
Context `{JpegDecoder}.

(** What the backend is given, packet after packet. *)
Fixpoint backend_frames (self : MJpegVideoDecoder) (packets : list (list Z)) : option (list (list Z)) :=
  match packets with
  | [] => Some []
  | packet :: packets =>
      dht ← extract_dht_segments packet;
      frame ← frame_data self packet dht;
      frames ← backend_frames (snd (mjpeg_decode packet self)) packets;
      Some (frame :: frames)
  end.

(** The tables each frame is to be decoded with: its own, or else those of the
    last frame that had its own and decoded. *)
Fixpoint tables_in_force (cur : list (list Z)) (pks : list Packet) : list (list (list Z)) :=
  match pks with
  | [] => []
  | pk :: pks =>
      match pk_tables pk with
      | [] => cur :: tables_in_force cur pks
      | own => own :: tables_in_force
                 (if jpeg_decode (packet_bytes pk) is Some _ then own else cur) pks
      end
  end.

Definition frame_with (pk : Packet) (tables : list (list Z)) : list Z :=
  match pk_tables pk with
  | [] => packet_with pk (segments 0xC4 tables)
  | _ => packet_bytes pk
  end.

Lemma segments_nil_iff ps : segments 0xC4 ps = [] <-> ps = [].
Proof. destruct ps; split; done. Qed.

Lemma packet_tables pk : packet_ok pk ->
  extract_dht_segments (packet_bytes pk) = Some (segments 0xC4 (pk_tables pk)).
Proof.
  intros Hpk. apply extract_ok; [apply bytes_packet; [done|constructor]|].
  apply scan_packet; [done|]. apply extract_ok; apply Hpk.
Qed.

Lemma packet_with_tables pk tables : packet_ok pk -> pk_tables pk = [] -> Forall payload_ok tables ->
  extract_dht_segments (packet_with pk (segments 0xC4 tables)) = Some (segments 0xC4 tables).
Proof.
  intros Hpk Hno Ht. assert (u8 0xC4) as H4 by (unfold in_unsigned; lia).
  apply extract_ok; [apply bytes_packet; [done|by apply bytes_segments]|].
  apply scan_packet; [done|]. pose proof (pk_tables_in _ Hpk) as Hin. rewrite Hno in Hin.
  apply extract_ok in Hin; [|apply Hpk].
  pose proof (scan_segments 0xC4 tables _ _ eq_refl eq_refl Ht Hin) as Hs. by rewrite app_nil_r in Hs.
Qed.

Definition holds (self : MJpegVideoDecoder) (cur : list (list Z)) : Prop :=
  cached_dht self = match cur with [] => None | _ => Some (segments 0xC4 cur) end.

(** C30: an MJPEG stream whose server leaves the Huffman tables out of later
    frames decodes as if it did not: of any frames of the shape the server sends
    (the SOI marker, APP0 and APP1 segments, the rest), each that has tables
    reaches the JPEG decoder as it is, and each that has none reaches it with the
    tables of the last frame that had some and decoded put after its headers; the
    scan finds in it just those tables.  A frame with tables that does not decode
    leaves the tables in force. *)
Theorem mjpeg_tables_restored pks : Forall packet_ok pks ->
  exists frames, backend_frames MJpegVideoDecoder_new (map packet_bytes pks) = Some frames /\
    frames = zip_with frame_with pks (tables_in_force [] pks) /\
    Forall2 (fun frame tables => extract_dht_segments frame = Some (segments 0xC4 tables))
      frames (tables_in_force [] pks).
Proof.
  intros Hpks. assert (holds MJpegVideoDecoder_new []) as Hh by done.
  assert (Forall payload_ok (@nil (list Z))) as Hcur by constructor.
  revert Hh Hcur. generalize MJpegVideoDecoder_new, (@nil (list Z)).
  induction Hpks as [|pk pks Hpk _ IH]; intros self cur Hh Hcur; [by exists []|].
  cbn [map backend_frames tables_in_force]. rewrite (packet_tables pk Hpk). cbn [mbind option_bind].
  destruct (pk_tables pk) as [|t ts] eqn:Et.
  - assert (frame_data self (packet_bytes pk) [] = Some (packet_with pk (segments 0xC4 cur))) as Ef.
    { unfold frame_data. rewrite bool_decide_true, Hh by done. destruct cur; [done|]. by apply inject_packet. }
    change (segments 0xC4 []) with (@nil Z). rewrite Ef. cbn [mbind option_bind].
    assert (snd (mjpeg_decode (packet_bytes pk) self) = self) as ->.
    { unfold mjpeg_decode, bind. rewrite (packet_tables pk Hpk), Et. cbn [unwrap ret get_state].
      change (segments 0xC4 []) with (@nil Z). rewrite Ef. cbn. by destruct (jpeg_decode _). }
    destruct (IH self cur Hh Hcur) as (frames & -> & -> & HF). cbn [mbind option_bind]. eexists.
    split; [done|]. split; [cbn [zip_with]; f_equal; unfold frame_with; by rewrite Et|].
    constructor; [by apply packet_with_tables|done].
  - rewrite <- Et. assert (pk_tables pk <> []) as Hne by (by rewrite Et).
    assert (forall s, frame_data s (packet_bytes pk) (segments 0xC4 (pk_tables pk)) = Some (packet_bytes pk)) as Ef.
    { intros s. unfold frame_data. rewrite bool_decide_false; [done|]. by rewrite segments_nil_iff. }
    rewrite Ef. cbn [mbind option_bind].
    set (cur' := if jpeg_decode (packet_bytes pk) is Some _ then pk_tables pk else cur).
    assert (holds (snd (mjpeg_decode (packet_bytes pk) self)) cur') as Hh'.
    { unfold mjpeg_decode, bind, cur'. rewrite (packet_tables pk Hpk). cbn [unwrap ret get_state].
      rewrite Ef. cbn [unwrap ret]. destruct (jpeg_decode _); [|done].
      rewrite bool_decide_false by by rewrite segments_nil_iff. cbn. unfold holds. by destruct (pk_tables pk). }
    destruct (IH _ cur' Hh') as (frames & -> & -> & HF).
    { unfold cur'. destruct (jpeg_decode _); [apply Hpk|done]. }
    cbn [mbind option_bind]. eexists. split; [done|].
    split; [cbn [zip_with]; f_equal; unfold frame_with; by destruct (pk_tables pk)|].
    constructor; [by apply packet_tables|done].
Qed.

End Stream.

(** A backend that decodes anything to one pixel, for examples. *)
Definition any_jpeg : JpegDecoder := {| jpeg_decode _ := Some (mkDecodedJpeg [1; 2; 3; 255] 1 1) |}.

Definition demo_packets : list Packet :=
  [ mkPacket [(0xE0, [74; 70])] (segments 0xC4 [[1; 2]] ++ [0xFF; 0xDA; 0; 2; 7; 7]) [[1; 2]];
    mkPacket [(0xE0, [74; 70])] [0xFF; 0xDA; 0; 2; 8; 8] [] ].

Lemma mjpeg_tables_restored_witness :
  exists frames,
    @backend_frames any_jpeg MJpegVideoDecoder_new (map packet_bytes demo_packets) = Some frames /\
    frames !! 1%nat = Some ([0xFF; 0xD8] ++ segment 0xE0 [74; 70] ++ segment 0xC4 [1; 2] ++
                            [0xFF; 0xDA; 0; 2; 8; 8]).
Proof.
  destruct (@mjpeg_tables_restored any_jpeg demo_packets) as (frames & Hf & E & _).
  - assert (forall l, bool_decide (bytes l) = true -> bytes l) as Hb by (intros l; apply bool_decide_eq_true).
    assert (forall p, bool_decide (bytes p) = true -> (zlen p + 2 <? 2 ^ 16) = true -> payload_ok p) as Hp.
    { intros p ? ?%Z.ltb_lt. by split; [apply Hb|]. }
    assert (app_ok (0xE0, [74; 70])) as Ha by (split; [by left|by apply Hp]).
    constructor; [|constructor; [|constructor]]; split; try (by vm_compute);
      try (by apply Hb); try (by constructor); cbn; try tauto.
    + intros [_ [E|E]]; discriminate E.
    + constructor; [by apply Hp|constructor].
    + intros [_ [E|E]]; discriminate E.
  - exists frames. split; [exact Hf|]. rewrite E. vm_compute. reflexivity.
Defined.

(** * Giving up on H.264 *)

Section GivingUp.
Context `{OpenH264}.

Definition decodes_ok (r : result VideoDecoderError (option DecodedFrame)) : bool :=
  match r with Ok _ => true | _ => false end.

(** Which packets decoded, and the decoder after them. *)
Definition h264_run (d : H264VideoDecoder) (packets : list (list Z)) : list bool * H264VideoDecoder :=
  foldl (fun '(oks, d) packet => let (r, d) := h264_decode packet d in (oks ++ [decodes_ok r], d))
    ([], d) packets.

(** 60 failures in a row. *)
Definition failing_run (oks : list bool) : Prop :=
  exists i, forall j, (i <= j < i + 60)%nat -> oks !! j = Some false.

Definition counts_failures (oks : list bool) (d : H264VideoDecoder) : Prop :=
  let n := length oks in
  let k := Z.to_nat (hd_consecutive_failures d) in
  if hd_terminal d then failing_run oks
  else ~ failing_run oks /\ 0 <= hd_consecutive_failures d < 60 /\ (k <= n)%nat /\
    (forall j, (n - k <= j < n)%nat -> oks !! j = Some false) /\
    (k = n \/ oks !! (n - k - 1)%nat = Some true).

Lemma failing_run_snoc oks ok : failing_run oks -> failing_run (oks ++ [ok]).
Proof. intros [i Hi]. exists i. intros j Hj. apply lookup_app_l_Some. by apply Hi. Qed.

Lemma no_run_snoc oks k ok : ~ failing_run oks -> (k < 59)%nat -> (k <= length oks)%nat ->
  (k = length oks \/ oks !! (length oks - k - 1)%nat = Some true) -> ~ failing_run (oks ++ [ok]).
Proof.
  intros Hno Hk Hkn Hlast [i Hi].
  assert (length (oks ++ [ok]) = S (length oks)) as Hlen by (rewrite length_app; cbn; lia).
  assert (i + 59 < S (length oks))%nat as Hin.
  { rewrite <- Hlen. apply lookup_lt_is_Some. rewrite Hi by lia. by eexists. }
  destruct (decide (i + 59 = length oks)%nat) as [E|Hne].
  - destruct Hlast as [->|Hlast]; [lia|].
    pose proof (Hi (length oks - k - 1)%nat ltac:(lia)) as Hf.
    rewrite lookup_app_l in Hf by lia. congruence.
  - apply Hno. exists i. intros j Hj. specialize (Hi j Hj). by rewrite lookup_app_l in Hi by lia.
Qed.

Lemma counts_failed oks d dec scratch log : hd_terminal d = false -> counts_failures oks d ->
  counts_failures (oks ++ [false])
    (mkH264 dec scratch (saturating_add_u32 (hd_consecutive_failures d) 1)
      (if (H264_TERMINAL_CONSECUTIVE_FAILURES <=? saturating_add_u32 (hd_consecutive_failures d) 1) && true
       then true else false) log).
Proof.
  intros Et Hc. unfold counts_failures in *. rewrite Et in Hc. cbn [hd_terminal hd_consecutive_failures].
  destruct Hc as (Hno & Hk & Hkn & Hfs & Hlast). set (k := Z.to_nat (hd_consecutive_failures d)) in *.
  unfold saturating_add_u32, u32_max, H264_TERMINAL_CONSECUTIVE_FAILURES. rewrite Z.min_l by lia.
  rewrite length_app, andb_true_r. cbn [length].
  assert (forall j, (length oks - k <= j < length oks + 1)%nat -> (oks ++ [false]) !! j = Some false) as Hfs'.
  { intros j Hj. destruct (decide (j = length oks)) as [->|]; [by apply list_lookup_middle|].
    rewrite lookup_app_l by lia. apply Hfs. lia. }
  destruct (Z.leb_spec 60 (hd_consecutive_failures d + 1)).
  - exists (length oks - 59)%nat. intros j Hj. apply Hfs'. lia.
  - split; [apply (no_run_snoc _ k); try done; lia|]. split; [lia|]. split; [lia|]. split.
    + intros j Hj. apply Hfs'. lia.
    + destruct Hlast as [Hall|Hlast]; [left; lia|right].
      replace (length oks + 1 - Z.to_nat (hd_consecutive_failures d + 1) - 1)%nat
        with (length oks - k - 1)%nat by lia.
      rewrite lookup_app_l; [done|]. apply lookup_lt_is_Some. by eexists.
Qed.

Lemma counts_succeeded oks d dec scratch log : hd_terminal d = false -> counts_failures oks d ->
  counts_failures (oks ++ [true]) (mkH264 dec scratch 0 false log).
Proof.
  intros Et Hc. unfold counts_failures in *. rewrite Et in Hc. cbn [hd_terminal hd_consecutive_failures].
  destruct Hc as (Hno & Hk & Hkn & Hfs & Hlast). rewrite length_app. cbn [length].
  assert ((oks ++ [true]) !! length oks = Some true) as Ht by by apply list_lookup_middle.
  split_and!; try lia.
  - intros [i Hi]. apply Hno. exists i. intros j Hj. specialize (Hi j Hj).
    assert (j < length (oks ++ [true]))%nat as Hl by (apply lookup_lt_is_Some; by eexists).
    rewrite length_app in Hl. cbn in Hl. destruct (decide (j = length oks)) as [->|]; [congruence|].
    by rewrite lookup_app_l in Hi by lia.
  - right. by replace (length oks + 1 - Z.to_nat 0 - 1)%nat with (length oks) by lia.
Qed.

(** One packet. *)
Lemma counts_decode `{!OpenH264Laws} oks d packet : counts_failures oks d ->
  let (r, d') := h264_decode packet d in counts_failures (oks ++ [decodes_ok r]) d'.
Proof.
  intros Hc. unfold h264_decode, bind. cbn [get_state]. destruct (hd_terminal d) eqn:Et.
  { cbn. unfold counts_failures in *. rewrite Et in *. by apply failing_run_snoc. }
  destruct (oh_decode (hd_decoder d) packet) as [[[yuv|]|] dec]; cbn [put_state].
  - unfold h264_picture, bind. pose proof (oh_dimensions_nonneg yuv) as [Hw Hh].
    pose proof (oh_write_fits yuv) as Hfit. destruct (oh_dimensions yuv) as [w h]. cbn [fst snd] in *.
    destruct (rgba_len w h) as [n|] eqn:En; [|cbn -[counts_failures]; by apply counts_failed].
    cbn [get_state hd_rgba_scratch].
    destruct (rgba_len_spec _ _ _ Hw Hh En) as (Hn & _).
    destruct (Hfit (resized (hd_rgba_scratch d) n)) as (rgba & -> & _).
    { unfold resized. destruct (Z.eqb_spec (zlen (hd_rgba_scratch d)) n); [lia|].
      rewrite zlen_app, zlen_take, zlen_replicate. pose proof (zlen_nonneg (hd_rgba_scratch d)).
      destruct (rgba_len_spec _ _ _ Hw Hh En) as (_ & ? & ? & _). nia. }
    cbn -[counts_failures]. by apply (counts_succeeded _ d).
  - cbn -[counts_failures]. by apply (counts_succeeded _ d).
  - cbn -[counts_failures]. by apply counts_failed.
Qed.

(** C31: the H.264 decoder gives up on a stream exactly when 60 packets in a row
    have failed, however the codec answered before; from then on it refuses every
    packet without running the codec, and nothing it is given changes it. *)
Theorem h264_gives_up `{!OpenH264Laws} d0 packets :
  H264VideoDecoder_new = Ok d0 ->
  let (oks, d) := h264_run d0 packets in
  (hd_terminal d = true <-> failing_run oks) /\
  (hd_terminal d = true -> forall packet, h264_decode packet d = (Err VD_Decode, d)).
Proof.
  intros Hnew. assert (counts_failures [] d0) as Hc0.
  { unfold H264VideoDecoder_new in Hnew. destruct oh_new; [|done]. injection Hnew as <-.
    unfold counts_failures. cbn. split_and!; [|lia..|intros; lia|by left].
    intros [i Hi]. by specialize (Hi i ltac:(lia)). }
  assert (forall ps oks d, counts_failures oks d -> let (oks', d') := foldl (fun '(oks, d) packet =>
    let (r, d) := h264_decode packet d in (oks ++ [decodes_ok r], d)) (oks, d) ps in
    counts_failures oks' d') as Hrun.
  { induction ps as [|p ps IH]; intros oks d Hc; [done|]. cbn [foldl].
    pose proof (counts_decode oks d p Hc) as Hd. destruct (h264_decode p d) as [r d']. by apply IH. }
  specialize (Hrun packets [] d0 Hc0). unfold h264_run. destruct (foldl _ _ _) as [oks d].
  unfold counts_failures in Hrun. split.
  - destruct (hd_terminal d); [tauto|]. destruct Hrun as [Hno _]. by split; [|intros ?%Hno].
  - intros Et packet. unfold h264_decode, bind. cbn [get_state]. by rewrite Et.
Qed.

End GivingUp.

(** A codec that refuses everything. *)
Definition broken_codec : OpenH264 := {|
  oh_state := nat;
  oh_picture := unit;
  oh_new := Some 0%nat;
  oh_decode n _ := (None, S n);
  oh_dimensions _ := (1, 1);
  oh_write_rgba8 _ buf := Some (replicate (length buf) 0)
|}.

Lemma broken_codec_laws : @OpenH264Laws broken_codec.
Proof.
  split; [by intros []|]. intros [] buf _. eexists. split; [done|]. split; [by rewrite zlen_replicate|].
  apply Forall_replicate. unfold in_unsigned. lia.
Qed.

Lemma h264_gives_up_witness :
  let d := snd (@h264_run broken_codec (@mkH264 broken_codec 0%nat [] 0 false false) (replicate 61 [1])) in
  @hd_terminal broken_codec d = true /\ @hd_decoder broken_codec d = 60%nat /\
  @h264_decode broken_codec [2] d = (Err VD_Decode, d).
Proof.
  intros d. assert (@hd_terminal broken_codec d = true) as Et by (vm_compute; reflexivity).
  split; [exact Et|]. split; [vm_compute; reflexivity|].
  pose proof (@h264_gives_up broken_codec broken_codec_laws
    (@mkH264 broken_codec 0%nat [] 0 false false) (replicate 61 [1]) eq_refl) as H.
  unfold d in *. destruct (h264_run _ _) as [oks d']. exact (proj2 H Et [2]).
Defined.
