(* ===== verification/CursorPixels.v ===== *)
(** Cursor shapes: the second half of
    [shakenfist-spice-renderer/src/channels/cursor.rs].

    [decode_cursor_pixels] turns a server's cursor into RGBA.  [None] is a
    panic (an index or a split out of range), [Some None] a shape that is
    refused.  A pixel is the list of its four bytes, the image their
    concatenation.  The reference [cursor_pixel] says what each pixel of each
    format is, straight from the data. *)
From Stdlib Require Import ZArith Lia.
From stdpp Require Import base numbers list tactics.
From S2P Require Import Prelude Reader Wire MsgCursor Channel Lz.

Open Scope Z_scope.

(** * The decoder *)

Definition cursor_type_ALPHA : Z := 0.
Definition cursor_type_MONO : Z := 1.
Definition cursor_type_COLOR4 : Z := 2.
Definition cursor_type_COLOR16 : Z := 4.
Definition cursor_type_COLOR24 : Z := 5.
Definition cursor_type_COLOR32 : Z := 6.

Inductive CursorFormat : Type :=
| Cf_Alpha | Cf_Mono | Cf_Color4 | Cf_Color16 | Cf_Color24 | Cf_Color32.

Definition COLOR4_PALETTE_LEN : Z := 16 * 4.

Definition CursorFormat_from_type (cursor_type : Z) : option CursorFormat :=
  if cursor_type =? cursor_type_ALPHA then Some Cf_Alpha
  else if cursor_type =? cursor_type_MONO then Some Cf_Mono
  else if cursor_type =? cursor_type_COLOR4 then Some Cf_Color4
  else if cursor_type =? cursor_type_COLOR16 then Some Cf_Color16
  else if cursor_type =? cursor_type_COLOR24 then Some Cf_Color24
  else if cursor_type =? cursor_type_COLOR32 then Some Cf_Color32
  else None.

Definition div_ceil (a b : Z) : Z := (a + b - 1) / b.

Definition cursor_data_len (self : CursorFormat) (width height : Z) : option Z :=
  pixels ← checked_mul width height;
  let mask := div_ceil pixels 8 in
  match self with
  | Cf_Alpha => checked_mul pixels 4
  | Cf_Mono => rows ← checked_mul (div_ceil width 8) height; checked_mul rows 2
  | Cf_Color4 =>
      rows ← checked_mul (div_ceil width 2) height;
      len ← checked_add rows COLOR4_PALETTE_LEN;
      checked_add len mask
  | Cf_Color16 => len ← checked_mul pixels 2; checked_add len mask
  | Cf_Color24 => checked_mul pixels 3
  | Cf_Color32 => len ← checked_mul pixels 4; checked_add len mask
  end.

Definition split_at (l : list Z) (mid : Z) : option (list Z * list Z) :=
  if mid <=? zlen l then Some (take (Z.to_nat mid) l, drop (Z.to_nat mid) l) else None.

Definition chunks_exact (n : Z) (l : list Z) : list (list Z) :=
  map (fun i => take (Z.to_nat n) (drop (Z.to_nat (n * i)) l)) (seqZ 0 (zlen l / n)).

(** [for (i, (src, dst)) in chunks.zip(dst_pixels).enumerate()]: pixels with
    no chunk stay zero. *)
Definition for_chunks (chunks : list (list Z)) (count : Z) (f : Z -> list Z -> option (list Z))
    : option (list (list Z)) :=
  let n := Z.min count (zlen chunks) in
  pixels ← mapM (fun i => src ← index chunks i; f i src) (seqZ 0 n);
  Some (pixels ++ replicate (Z.to_nat (count - n)) [0; 0; 0; 0]).

Definition mask_bit (mask : list Z) (i : Z) : option bool :=
  byte ← index mask (i / 8);
  Some (negb (Z.land byte (Z.shiftr 0x80 (i mod 8)) =? 0)).

Definition masked_pixel (rgb : list Z) (white : bool) (masked_alpha : Z) (masked : bool)
    (i width : Z) : list Z :=
  if negb masked then rgb ++ [0xff]
  else if white then
    if Z.land (Z.lxor (i mod width) (i / width)) 1 =? 1 then [0x30; 0x30; 0x30; 0xc0]
    else [0x50; 0x50; 0x50; 0x30]
  else rgb ++ [masked_alpha].

Definition BLACK : list Z := [0x00; 0x00; 0x00; 0xff].
Definition WHITE : list Z := [0xff; 0xff; 0xff; 0xff].
Definition TRANSPARENT : list Z := [0x00; 0x00; 0x00; 0x00].

Definition plane_bit (stride : Z) (plane : list Z) (x y : Z) : option bool :=
  byte ← index plane (stride * y + x / 8);
  Some (negb (Z.land byte (Z.shiftr 0x80 (x mod 8)) =? 0)).

(** [iter.any(..)] of a test that can panic. *)
Fixpoint any_of {A} (test : A -> option bool) (l : list A) : option bool :=
  match l with
  | [] => Some false
  | x :: l =>
      match test x with
      | Some b => if b then Some true else any_of test l
      | None => None
      end
  end.

Section Mono.
Context (width height stride : Z) (and_plane xor_plane : list Z) (and_ones : bool).

Definition is_edge (x y : Z) : option bool :=
  if (x =? 0) || (x =? width - 1) || (y =? 0) || (y =? height - 1) then Some false
  else
    set ← plane_bit stride xor_plane x y;
    if negb set then
      any_of (fun ny => any_of (fun nx => plane_bit stride xor_plane nx ny) [x - 1; x; x + 1])
        [y - 1; y; y + 1]
    else Some false.

Definition mono_pixel (x y : Z) : option (list Z) :=
  edge ← (if and_ones then is_edge x y else Some false);
  if (edge : bool) then Some BLACK
  else
    a ← plane_bit stride and_plane x y;
    x' ← plane_bit stride xor_plane x y;
    Some (if (x' : bool) then WHITE else if (a : bool) then TRANSPARENT else BLACK).

End Mono.

Definition mono_edge_highlight (width height : Z) (data : list Z) : option (list (list Z)) :=
  let stride := div_ceil width 8 in
  planes ← split_at data (stride * height);
  let '(and_plane, xor_plane) := planes in
  let and_ones := forallb (fun byte => byte =? 0xff) and_plane in
  rows ← mapM (fun y => mapM (fun x => mono_pixel width height stride and_plane xor_plane and_ones x y)
                         (seqZ 0 width)) (seqZ 0 height);
  Some (concat rows).

(** BGR and, when it has one, alpha. *)
Definition plain_pixel (has_alpha : bool) (src : list Z) : option (list Z) :=
  r ← index src 2; g ← index src 1; b ← index src 0;
  a ← (if has_alpha then index src 3 else Some 255);
  Some [r; g; b; a].

Definition is_white_entry (src : list Z) : bool := bool_decide (src = [0xff; 0xff; 0xff; 0x00]).

Definition masked_entry (mask : list Z) (width i : Z) (entry : list Z) : option (list Z) :=
  r ← index entry 2; g ← index entry 1; b ← index entry 0; a ← index entry 3;
  masked ← mask_bit mask i;
  Some (masked_pixel [r; g; b] (is_white_entry entry) a masked i width).

Definition color4_pixels (width height count : Z) (data : list Z) : option (list (list Z)) :=
  parts ← split_at data (div_ceil width 2 * height);
  let '(indices, rest) := parts in
  parts ← split_at rest COLOR4_PALETTE_LEN;
  let '(palette, mask) := parts in
  let palette := chunks_exact 4 palette in
  mapM (fun i =>
    byte ← index indices (i / 2);
    entry ← index palette (if i mod 2 =? 0 then Z.shiftr byte 4 else Z.land byte 0x0f);
    masked_entry mask width i entry) (seqZ 0 count).

Definition color16_pixel (mask : list Z) (width i : Z) (src : list Z) : option (list Z) :=
  let pixel := from_le src in
  let channel shift := as_unsigned 8 (Z.shiftl (Z.land (Z.shiftr pixel shift) 0x1f) 3) in
  masked ← mask_bit mask i;
  Some (masked_pixel [channel 10; channel 5; channel 0] (pixel =? 0x7fff) 0 masked i width).

(** Pixels and mask of the two formats with a mask after the pixels. *)
Definition masked_image (bpp width count : Z) (data : list Z)
    (f : list Z -> Z -> Z -> list Z -> option (list Z)) : option (list (list Z)) :=
  parts ← split_at data (count * bpp);
  let '(pixels, mask) := parts in
  for_chunks (chunks_exact bpp pixels) count (f mask width).

Definition cursor_rgba (format : CursorFormat) (w h count : Z) (pixel_data : list Z)
    : option (list (list Z)) :=
  match format with
  | Cf_Alpha => for_chunks (chunks_exact 4 pixel_data) count (fun _ => plain_pixel true)
  | Cf_Color24 => for_chunks (chunks_exact 3 pixel_data) count (fun _ => plain_pixel false)
  | Cf_Mono => mono_edge_highlight w h pixel_data
  | Cf_Color4 => color4_pixels w h count pixel_data
  | Cf_Color16 => masked_image 2 w count pixel_data color16_pixel
  | Cf_Color32 => masked_image 4 w count pixel_data masked_entry
  end.

Definition decode_cursor_pixels (header : CursorHeader) (pixel_data : list Z)
    : option (option CursorImage) :=
  let w := CursorHeader_width header in
  let h := CursorHeader_height header in
  if (w =? 0) || (h =? 0) then Some None
  else
    match CursorFormat_from_type (CursorHeader_cursor_type header) with
    | None => Some None
    | Some format =>
        match rgba_len w h, cursor_data_len format w h with
        | Some rgba_size, Some needed =>
            if zlen pixel_data <? needed then Some None
            else
              pixels ← cursor_rgba format w h (rgba_size / 4) pixel_data;
              Some (Some (mkCursorImage w h (CursorHeader_hot_spot_x header)
                (CursorHeader_hot_spot_y header) (concat pixels)))
        | _, _ => Some None
        end
    end.

(** * The reference *)

(** Byte [i] of the data. *)
Definition data_byte (data : list Z) (i : Z) : Z := default 0 (data !! Z.to_nat i).

(** Bit [i] of a plane that starts at [base], the high bit of a byte first. *)
Definition bit_at (data : list Z) (base i : Z) : bool :=
  Z.testbit (data_byte data (base + i / 8)) (7 - i mod 8).

(** What a masked colour at ([x], [y]) becomes: opaque where the mask is clear;
    where it is set white is a grey checker, any other colour takes [a]. *)
Definition under_mask (masked : bool) (r g b a : Z) (white : bool) (x y : Z) : list Z :=
  if negb masked then [r; g; b; 255]
  else if white then (if Z.odd (x + y) then [48; 48; 48; 192] else [80; 80; 80; 48])
  else [r; g; b; a].

(** The BGRx entry at [p]. *)
Definition bgrx_pixel (data : list Z) (p : Z) (masked : bool) (x y : Z) : list Z :=
  let d k := data_byte data (p + k) in
  under_mask masked (d 2) (d 1) (d 0) (d 3)
    (bool_decide ([d 0; d 1; d 2; d 3] = [255; 255; 255; 0])) x y.

(** A set XOR bit is white; otherwise the AND bit chooses between the screen
    and black. A cursor that only inverts is outlined in black. *)
Definition mono_reference (w h : Z) (data : list Z) (x y : Z) : list Z :=
  let stride := div_ceil w 8 in
  let and_bit x y := Z.testbit (data_byte data (stride * y + x / 8)) (7 - x mod 8) in
  let xor_bit x y := Z.testbit (data_byte data (stride * h + (stride * y + x / 8))) (7 - x mod 8) in
  let inverts_only := forallb (fun b => b =? 255) (take (Z.to_nat (stride * h)) data) in
  let inside := (0 <? x) && (x <? w - 1) && (0 <? y) && (y <? h - 1) in
  let outline := inverts_only && inside && negb (xor_bit x y) &&
    existsb (fun ny => existsb (fun nx => xor_bit nx ny) [x - 1; x; x + 1]) [y - 1; y; y + 1] in
  if outline then [0; 0; 0; 255]
  else if xor_bit x y then [255; 255; 255; 255]
  else if and_bit x y then [0; 0; 0; 0] else [0; 0; 0; 255].

(** Pixel [i] of a [w] by [h] cursor. *)
Definition cursor_pixel (format : CursorFormat) (w h : Z) (data : list Z) (i : Z) : list Z :=
  let d := data_byte data in
  let x := i mod w in
  let y := i / w in
  match format with
  | Cf_Alpha => [d (4 * i + 2); d (4 * i + 1); d (4 * i); d (4 * i + 3)]
  | Cf_Color24 => [d (3 * i + 2); d (3 * i + 1); d (3 * i); 255]
  | Cf_Color32 => bgrx_pixel data (4 * i) (bit_at data (4 * (w * h)) i) x y
  | Cf_Color16 =>
      let pixel := d (2 * i) + 256 * d (2 * i + 1) in
      let channel shift := 8 * (pixel / 2 ^ shift mod 32) in
      under_mask (bit_at data (2 * (w * h)) i) (channel 10) (channel 5) (channel 0) 0
        (pixel =? 32767) x y
  | Cf_Color4 =>
      let indices := div_ceil w 2 * h in
      let index := if i mod 2 =? 0 then d (i / 2) / 16 else d (i / 2) mod 16 in
      bgrx_pixel data (indices + 4 * index) (bit_at data (indices + 64) i) x y
  | Cf_Mono => mono_reference w h data x y
  end.

(** The bytes a format needs, whatever a machine word holds. *)
Definition bytes_needed (format : CursorFormat) (w h : Z) : Z :=
  let mask := div_ceil (w * h) 8 in
  match format with
  | Cf_Alpha => 4 * (w * h)
  | Cf_Mono => 2 * (div_ceil w 8 * h)
  | Cf_Color4 => div_ceil w 2 * h + 64 + mask
  | Cf_Color16 => 2 * (w * h) + mask
  | Cf_Color24 => 3 * (w * h)
  | Cf_Color32 => 4 * (w * h) + mask
  end.

(** Sides that are not zero and within the image limits. *)
Definition cursor_drawable (w h : Z) : bool :=
  (0 <? w) && (0 <? h) && (w <=? MAX_IMAGE_DIMENSION) && (h <=? MAX_IMAGE_DIMENSION) &&
  (w * h <=? MAX_IMAGE_PIXELS).

(** What a cursor shape becomes: the pixels of its format, or nothing. *)
Definition cursor_shape (header : CursorHeader) (data : list Z) : option CursorImage :=
  let w := CursorHeader_width header in
  let h := CursorHeader_height header in
  format ← CursorFormat_from_type (CursorHeader_cursor_type header);
  if cursor_drawable w h && (bytes_needed format w h <=? zlen data) then
    Some (mkCursorImage w h (CursorHeader_hot_spot_x header) (CursorHeader_hot_spot_y header)
      (concat (map (cursor_pixel format w h data) (seqZ 0 (w * h)))))
  else None.

(** * The decoder is the reference *)

Lemma index_byte_at data i : 0 <= i < zlen data -> index data i = Some (data_byte data i).
Proof.
  intros Hi. rewrite index_lookup by done. unfold data_byte.
  destruct (lookup_lt_is_Some_2 data (Z.to_nat i)) as [b ->]; [unfold zlen in Hi; lia|done].
Qed.

Lemma data_byte_u8 data i : bytes data -> u8 (data_byte data i).
Proof.
  intros Hd. unfold data_byte. destruct (data !! Z.to_nat i) as [b|] eqn:E; [|done].
  cbn. by eapply (Forall_lookup_1 _ _ _ _ Hd).
Qed.

Lemma byte_at_drop data m i : 0 <= m -> 0 <= i -> data_byte (drop (Z.to_nat m) data) i = data_byte data (m + i).
Proof. intros Hm Hi. unfold data_byte. rewrite lookup_drop. do 2 f_equal. lia. Qed.

Lemma byte_at_take data m i : 0 <= i < m -> data_byte (take (Z.to_nat m) data) i = data_byte data i.
Proof. intros Hi. unfold data_byte. by rewrite lookup_take_lt by lia. Qed.

(** A mask bit, read by hand. *)
Lemma mask_land_bit byte k : u8 byte -> 0 <= k < 8 ->
  negb (Z.land byte (Z.shiftr 0x80 k) =? 0) = Z.testbit byte (7 - k).
Proof.
  intros Hb Hk.
  assert (forallb (fun byte => forallb (fun k => Bool.eqb (negb (Z.land byte (Z.shiftr 0x80 k) =? 0))
    (Z.testbit byte (7 - k))) (seqZ 0 8)) (seqZ 0 256) = true) as H by (vm_compute; reflexivity).
  rewrite forallb_forall in H. specialize (H byte ltac:(apply list_elem_of_In, elem_of_seqZ; unfold in_unsigned in Hb; lia)).
  rewrite forallb_forall in H. specialize (H k ltac:(apply list_elem_of_In, elem_of_seqZ; lia)).
  by apply Bool.eqb_prop.
Qed.

Lemma mapM_map {A B} (f : A -> option B) (g : A -> B) l :
  (forall x, x ∈ l -> f x = Some (g x)) -> mapM f l = Some (map g l).
Proof.
  induction l as [|x l IH]; intros H; [done|]. cbn [mapM map].
  rewrite (H x) by left. cbn [mbind option_bind]. rewrite IH; [done|]. intros y Hy. apply H. by right.
Qed.

Lemma split_at_some data m : 0 <= m <= zlen data ->
  split_at data m = Some (take (Z.to_nat m) data, drop (Z.to_nat m) data).
Proof. intros Hm. unfold split_at. by rewrite (proj2 (Z.leb_le _ _)) by lia. Qed.

Lemma zlen_chunks n l : 0 < n -> zlen (chunks_exact n l) = zlen l / n.
Proof.
  intros Hn. unfold chunks_exact. rewrite zlen_map. unfold zlen at 1. rewrite length_seqZ.
  pose proof (zlen_nonneg l).
  apply Z2Nat.id, Z.div_pos; lia.
Qed.

Lemma index_chunk n l i : 0 < n -> 0 <= i < zlen l / n ->
  index (chunks_exact n l) i = Some (take (Z.to_nat n) (drop (Z.to_nat (n * i)) l)).
Proof.
  intros Hn Hi. rewrite index_lookup by by rewrite zlen_chunks. unfold chunks_exact.
  rewrite list_lookup_fmap, (lookup_seqZ_lt 0) by lia. cbn. do 4 f_equal. lia.
Qed.

(** A byte of a chunk. *)
Lemma chunk_byte n l i k : 0 < n -> 0 <= i < zlen l / n -> 0 <= k < n ->
  index (take (Z.to_nat n) (drop (Z.to_nat (n * i)) l)) k = Some (data_byte l (n * i + k)).
Proof.
  intros Hn Hi Hk. pose proof (Z.mul_div_le (zlen l) n Hn).
  assert (n * (i + 1) <= zlen l) by nia.
  rewrite index_byte_at by (rewrite zlen_take, zlen_drop; lia).
  by rewrite byte_at_take, byte_at_drop by lia.
Qed.

Lemma for_chunks_map n l count f g : 0 < n -> 0 <= count -> n * count <= zlen l ->
  (forall i, 0 <= i < count -> f i (take (Z.to_nat n) (drop (Z.to_nat (n * i)) l)) = Some (g i)) ->
  for_chunks (chunks_exact n l) count f = Some (map g (seqZ 0 count)).
Proof.
  intros Hn Hc Hl Hf. unfold for_chunks. rewrite zlen_chunks by done.
  assert (count <= zlen l / n) by (apply Z.div_le_lower_bound; lia).
  rewrite Z.min_l by lia.
  rewrite (mapM_map _ g).
  - cbn [mbind option_bind]. by rewrite Z.sub_diag, app_nil_r.
  - intros i Hi. apply elem_of_seqZ in Hi. rewrite index_chunk by lia. cbn [mbind option_bind]. apply Hf. lia.
Qed.

(** ** Chunks and masks *)

(** The bytes of a chunk, one by one. *)
Lemma chunk_bytes (n : nat) data p : 0 <= p -> p + Z.of_nat n <= zlen data ->
  take n (drop (Z.to_nat p) data) = map (fun k => data_byte data (p + k)) (seqZ 0 (Z.of_nat n)).
Proof.
  intros Hp Hn. apply list_eq. intros j. destruct (decide (j < n)%nat) as [Hj|Hj].
  - rewrite lookup_take_lt, lookup_drop by done. rewrite list_lookup_fmap.
    rewrite (lookup_seqZ_lt 0 (Z.of_nat n) j) by lia. cbn. unfold data_byte.
    replace (Z.to_nat (p + (0 + Z.of_nat j))) with (Z.to_nat p + j)%nat by lia.
    destruct (lookup_lt_is_Some_2 data (Z.to_nat p + j)) as [b ->]; [unfold zlen in Hn; lia|done].
  - rewrite lookup_take_ge by lia. symmetry. apply lookup_ge_None_2.
    rewrite length_map, length_seqZ. lia.
Qed.

Lemma chunk_2 data p : 0 <= p -> p + 2 <= zlen data ->
  take (Z.to_nat 2) (drop (Z.to_nat p) data) = [data_byte data (p + 0); data_byte data (p + 1)].
Proof. intros Hp Hn. by rewrite (chunk_bytes 2) by lia. Qed.
Lemma chunk_3 data p : 0 <= p -> p + 3 <= zlen data ->
  take (Z.to_nat 3) (drop (Z.to_nat p) data) =
    [data_byte data (p + 0); data_byte data (p + 1); data_byte data (p + 2)].
Proof. intros Hp Hn. by rewrite (chunk_bytes 3) by lia. Qed.
Lemma chunk_4 data p : 0 <= p -> p + 4 <= zlen data ->
  take (Z.to_nat 4) (drop (Z.to_nat p) data) =
    [data_byte data (p + 0); data_byte data (p + 1); data_byte data (p + 2); data_byte data (p + 3)].
Proof. intros Hp Hn. by rewrite (chunk_bytes 4) by lia. Qed.

Lemma mask_bit_at data m i : bytes data -> 0 <= m -> 0 <= i -> m + i / 8 < zlen data ->
  mask_bit (drop (Z.to_nat m) data) i = Some (bit_at data m i).
Proof.
  intros Hd Hm Hi Hl. pose proof (Z.div_pos i 8 Hi ltac:(lia)). unfold mask_bit.
  rewrite index_byte_at by (rewrite zlen_drop; lia). cbn [mbind option_bind].
  rewrite byte_at_drop, mask_land_bit by (by apply data_byte_u8 || (pose proof (Z.mod_pos_bound i 8); lia)).
  done.
Qed.

Lemma checker x y : (Z.land (Z.lxor x y) 1 =? 1) = Z.odd (x + y).
Proof.
  change 1 with (Z.ones 1) at 1. rewrite Z.land_ones by lia. change (2 ^ 1) with 2.
  rewrite Z.odd_add, <- !Z.bit0_odd, <- Z.lxor_spec, Z.bit0_odd, Zmod_odd.
  by destruct (Z.odd (Z.lxor x y)).
Qed.

Lemma masked_under rgb_r rgb_g rgb_b white a masked i w :
  masked_pixel [rgb_r; rgb_g; rgb_b] white a masked i w =
  under_mask masked rgb_r rgb_g rgb_b a white (i mod w) (i / w).
Proof. unfold masked_pixel, under_mask. by rewrite checker. Qed.

(** An entry with a mask, from the data. *)
Lemma masked_entry_at data p m w i : bytes data -> 0 <= p -> p + 4 <= zlen data ->
  0 <= m -> 0 <= i -> m + i / 8 < zlen data ->
  masked_entry (drop (Z.to_nat m) data) w i (take (Z.to_nat 4) (drop (Z.to_nat p) data)) =
    Some (bgrx_pixel data p (bit_at data m i) (i mod w) (i / w)).
Proof.
  intros Hd Hp Hp4 Hm Hi Hl. rewrite chunk_4 by done. unfold masked_entry, bgrx_pixel.
  rewrite mask_bit_at, <- masked_under by done. reflexivity.
Qed.

(** ** Each format *)

Section Formats.
Context (w h : Z) (data : list Z) (Hd : bytes data) (Hw : 0 < w) (Hh : 0 < h).

Abbreviation count := (w * h).
Abbreviation pixels format := (map (cursor_pixel format w h data) (seqZ 0 count)).

Lemma count_pos : 0 < count.
Proof. nia. Qed.

(** The mask's byte for a pixel is there. *)
Lemma mask_room base i : base + div_ceil count 8 <= zlen data -> 0 <= i < count -> base + i / 8 < zlen data.
Proof.
  unfold div_ceil. intros Hl Hi. assert (i / 8 + 1 <= (count + 8 - 1) / 8); [|lia].
  replace (i / 8 + 1) with ((i + 1 * 8) / 8) by (rewrite Z.div_add; lia). apply Z.div_le_mono; lia.
Qed.

Lemma alpha_exact : bytes_needed Cf_Alpha w h <= zlen data ->
  cursor_rgba Cf_Alpha w h count data = Some (pixels Cf_Alpha).
Proof.
  cbn [bytes_needed cursor_rgba]. intros Hl. pose proof count_pos. apply for_chunks_map; [lia..|].
  intros i Hi. rewrite chunk_4 by lia. cbn [cursor_pixel]. by rewrite Z.add_0_r.
Qed.

Lemma color24_exact : bytes_needed Cf_Color24 w h <= zlen data ->
  cursor_rgba Cf_Color24 w h count data = Some (pixels Cf_Color24).
Proof.
  cbn [bytes_needed cursor_rgba]. intros Hl. pose proof count_pos. apply for_chunks_map; [lia..|].
  intros i Hi. rewrite chunk_3 by lia. cbn [cursor_pixel]. by rewrite Z.add_0_r.
Qed.

Lemma div_ceil_nonneg a b : 0 <= a -> 0 < b -> 0 <= div_ceil a b.
Proof. intros Ha Hb. unfold div_ceil. apply Z.div_pos; lia. Qed.

Lemma chunk_within m p n : 0 <= p -> 0 <= n -> p + n <= m ->
  take (Z.to_nat n) (drop (Z.to_nat p) (take (Z.to_nat m) data)) =
  take (Z.to_nat n) (drop (Z.to_nat p) data).
Proof. intros Hp Hn Hm. rewrite skipn_firstn_comm, take_take. f_equal. lia. Qed.

(** A format whose mask follows its pixels. *)
Lemma masked_image_exact bpp f g : 0 < bpp -> bpp * count + div_ceil count 8 <= zlen data ->
  (forall i, 0 <= i < count ->
    f (drop (Z.to_nat (bpp * count)) data) w i (take (Z.to_nat bpp) (drop (Z.to_nat (bpp * i)) data)) = Some (g i)) ->
  masked_image bpp w count data f = Some (map g (seqZ 0 count)).
Proof.
  intros Hb Hl Hf. pose proof count_pos. pose proof (div_ceil_nonneg count 8 ltac:(lia) ltac:(lia)).
  unfold masked_image. rewrite split_at_some by nia. cbn [mbind option_bind].
  apply for_chunks_map; [done|lia|rewrite zlen_take; lia|]. intros i Hi.
  rewrite chunk_within by nia. rewrite (Z.mul_comm count). by apply Hf.
Qed.

Lemma color32_exact : bytes_needed Cf_Color32 w h <= zlen data ->
  cursor_rgba Cf_Color32 w h count data = Some (pixels Cf_Color32).
Proof.
  cbn [bytes_needed cursor_rgba]. intros Hl. apply masked_image_exact; [done|done|]. intros i Hi.
  pose proof (mask_room (4 * count) i Hl Hi). pose proof (Z.div_pos i 8 ltac:(lia) ltac:(lia)).
  pose proof (div_ceil_nonneg count 8 ltac:(lia) ltac:(lia)). by apply masked_entry_at; first [done|lia].
Qed.

Lemma channel_exact pixel shift : 0 <= pixel -> 0 <= shift ->
  as_unsigned 8 (Z.shiftl (Z.land (Z.shiftr pixel shift) 0x1f) 3) = 8 * (pixel / 2 ^ shift mod 32).
Proof.
  intros Hp Hs. rewrite Z.shiftr_div_pow2 by done. change 0x1f with (Z.ones 5).
  rewrite Z.land_ones, Z.shiftl_mul_pow2 by lia. change (2 ^ 5) with 32. change (2 ^ 3) with 8.
  unfold as_unsigned. pose proof (Z.mod_pos_bound (pixel / 2 ^ shift) 32 ltac:(lia)).
  rewrite Z.mod_small by lia. lia.
Qed.

Lemma color16_exact : bytes_needed Cf_Color16 w h <= zlen data ->
  cursor_rgba Cf_Color16 w h count data = Some (pixels Cf_Color16).
Proof.
  cbn [bytes_needed cursor_rgba]. intros Hl. apply masked_image_exact; [done|done|]. intros i Hi.
  pose proof (mask_room (2 * count) i Hl Hi). pose proof (Z.div_pos i 8 ltac:(lia) ltac:(lia)).
  pose proof (div_ceil_nonneg count 8 ltac:(lia) ltac:(lia)).
  rewrite chunk_2 by lia. unfold color16_pixel. rewrite mask_bit_at by first [done|lia].
  cbn [mbind option_bind cursor_pixel]. rewrite !Z.add_0_r.
  pose proof (data_byte_u8 data (2 * i) Hd) as [B0 _]. pose proof (data_byte_u8 data (2 * i + 1) Hd) as [B1 _].
  assert (from_le [data_byte data (2 * i); data_byte data (2 * i + 1)] =
    data_byte data (2 * i) + 256 * data_byte data (2 * i + 1)) as -> by (unfold from_le; ring).
  rewrite !channel_exact, masked_under by lia. done.
Qed.

Lemma nibble byte : u8 byte -> Z.shiftr byte 4 = byte / 16 /\ Z.land byte 0x0f = byte mod 16 /\
  0 <= byte / 16 < 16 /\ 0 <= byte mod 16 < 16.
Proof.
  intros Hb. rewrite Z.shiftr_div_pow2 by lia. change 0x0f with (Z.ones 4). rewrite Z.land_ones by lia.
  change (2 ^ 4) with 16. unfold in_unsigned in Hb. split_and!; try done; try apply Z.mod_pos_bound; try lia.
  - apply Z.div_pos; lia.
  - apply Z.div_lt_upper_bound; lia.
Qed.

Lemma color4_exact : bytes_needed Cf_Color4 w h <= zlen data ->
  cursor_rgba Cf_Color4 w h count data = Some (pixels Cf_Color4).
Proof.
  cbn [bytes_needed cursor_rgba]. intros Hl. pose proof count_pos. set (n := div_ceil w 2 * h) in *.
  pose proof (div_ceil_nonneg count 8 ltac:(lia) ltac:(lia)).
  assert (w <= 2 * div_ceil w 2) as Hhalf
    by (unfold div_ceil; pose proof (Z.mod_pos_bound (w + 2 - 1) 2); pose proof (Z.div_mod (w + 2 - 1) 2); lia).
  assert (0 <= n /\ count <= 2 * n) as [Hn Hcount] by (unfold n; nia).
  unfold color4_pixels. fold n. rewrite split_at_some by lia. cbn [mbind option_bind].
  unfold COLOR4_PALETTE_LEN. rewrite split_at_some by (rewrite zlen_drop; lia). cbn [mbind option_bind].
  rewrite drop_drop. replace (Z.to_nat n + Z.to_nat (16 * 4))%nat with (Z.to_nat (n + 64)) by lia.
  apply mapM_map. intros i Hi. apply elem_of_seqZ in Hi. cbn [cursor_pixel]. fold n.
  pose proof (mask_room (n + 64) i ltac:(lia) ltac:(lia)). pose proof (Z.div_pos i 8 ltac:(lia) ltac:(lia)).
  assert (0 <= i / 2 < n) by (split; [apply Z.div_pos; lia|apply Z.div_lt_upper_bound; lia]).
  rewrite index_byte_at by (rewrite zlen_take; lia). cbn [mbind option_bind].
  rewrite byte_at_take by lia. pose proof (data_byte_u8 data (i / 2) Hd) as Hb.
  destruct (nibble _ Hb) as (E1 & E2 & B1 & B2). rewrite E1, E2.
  set (k := if i mod 2 =? 0 then _ else _). assert (0 <= k < 16) as Hk by (unfold k; destruct (_ =? _); done).
  assert (zlen (take (Z.to_nat (16 * 4)) (drop (Z.to_nat n) data)) = 64) as Hpal
    by (rewrite zlen_take, zlen_drop; lia).
  rewrite index_chunk by (rewrite ?Hpal; change (64 / 4) with 16; lia). cbn [mbind option_bind].
  assert (take (Z.to_nat 4) (drop (Z.to_nat (4 * k)) (take (Z.to_nat (16 * 4)) (drop (Z.to_nat n) data))) =
    take (Z.to_nat 4) (drop (Z.to_nat (n + 4 * k)) data)) as ->.
  { rewrite skipn_firstn_comm, take_take, drop_drop. f_equal; [lia|]. f_equal. lia. }
  by apply masked_entry_at; first [done|lia].
Qed.

(** ** Two planes *)

Abbreviation stride := (div_ceil w 8).
Abbreviation plane := (stride * h).

Definition and_at (x y : Z) : bool := Z.testbit (data_byte data (stride * y + x / 8)) (7 - x mod 8).
Definition xor_at (x y : Z) : bool :=
  Z.testbit (data_byte data (plane + (stride * y + x / 8))) (7 - x mod 8).

(** A pixel's byte is within its plane. *)
Lemma plane_index x y : 0 <= x < w -> 0 <= y < h -> 0 <= stride * y + x / 8 < plane.
Proof.
  intros Hx Hy. pose proof (Z.div_pos x 8 ltac:(lia) ltac:(lia)).
  assert (x / 8 < stride).
  { unfold div_ceil. apply Z.lt_le_trans with ((x + 1 * 8) / 8); [rewrite Z.div_add; lia|].
    apply Z.div_le_mono; lia. }
  nia.
Qed.

Lemma and_bit_exact x y : plane <= zlen data -> 0 <= x < w -> 0 <= y < h ->
  plane_bit stride (take (Z.to_nat plane) data) x y = Some (and_at x y).
Proof.
  intros Hl Hx Hy. pose proof (plane_index x y Hx Hy). unfold plane_bit, and_at.
  rewrite index_byte_at by (rewrite zlen_take; lia). cbn [mbind option_bind].
  by rewrite byte_at_take, mask_land_bit by (by apply data_byte_u8 || (pose proof (Z.mod_pos_bound x 8); lia)).
Qed.

Lemma xor_bit_exact x y : 2 * plane <= zlen data -> 0 <= x < w -> 0 <= y < h ->
  plane_bit stride (drop (Z.to_nat plane) data) x y = Some (xor_at x y).
Proof.
  intros Hl Hx Hy. pose proof (plane_index x y Hx Hy). unfold plane_bit, xor_at.
  rewrite index_byte_at by (rewrite zlen_drop; lia). cbn [mbind option_bind].
  by rewrite byte_at_drop, mask_land_bit by (by apply data_byte_u8 || (pose proof (Z.mod_pos_bound x 8); lia)).
Qed.

Lemma any_of_existsb {A} (t : A -> option bool) (b : A -> bool) l :
  Forall (fun x => t x = Some (b x)) l -> any_of t l = Some (existsb b l).
Proof.
  induction 1 as [|x l Hx _ IH]; [done|]. cbn [any_of existsb]. rewrite Hx, IH. by destruct (b x).
Qed.

Lemma is_edge_exact x y : 2 * plane <= zlen data -> 0 <= x < w -> 0 <= y < h ->
  is_edge w h stride (drop (Z.to_nat plane) data) x y =
    Some ((0 <? x) && (x <? w - 1) && (0 <? y) && (y <? h - 1) && negb (xor_at x y) &&
      existsb (fun ny => existsb (fun nx => xor_at nx ny) [x - 1; x; x + 1]) [y - 1; y; y + 1]).
Proof.
  intros Hl Hx Hy. unfold is_edge.
  assert ((x =? 0) || (x =? w - 1) || (y =? 0) || (y =? h - 1) =
    negb ((0 <? x) && (x <? w - 1) && (0 <? y) && (y <? h - 1))) as -> by (apply Bool.eq_iff_eq_true; lia).
  destruct ((0 <? x) && _ && _ && _) eqn:E; [|done]. cbn [negb andb].
  rewrite xor_bit_exact by done. cbn [mbind option_bind]. destruct (xor_at x y); [done|]. cbn [negb andb].
  apply any_of_existsb. repeat constructor; apply any_of_existsb; repeat constructor;
    apply xor_bit_exact; lia.
Qed.

Lemma mono_pixel_exact x y : 2 * plane <= zlen data -> 0 <= x < w -> 0 <= y < h ->
  mono_pixel w h stride (take (Z.to_nat plane) data) (drop (Z.to_nat plane) data)
    (forallb (fun b => b =? 255) (take (Z.to_nat plane) data)) x y = Some (mono_reference w h data x y).
Proof.
  intros Hl Hx Hy. pose proof (plane_index x y Hx Hy).
  unfold mono_pixel. rewrite is_edge_exact, and_bit_exact, xor_bit_exact by lia.
  unfold mono_reference. fold (xor_at x y) (and_at x y). cbn zeta.
  set (ones := forallb _ _). set (any := existsb _ _).
  change (existsb (fun ny => existsb (fun nx => Z.testbit (data_byte data (plane + (stride * ny + nx / 8)))
    (7 - nx mod 8)) [x - 1; x; x + 1]) [y - 1; y; y + 1]) with any.
  destruct ones; cbn [mbind option_bind andb]; [|done].
  by destruct (_ && any).
Qed.

(** Rows put end to end are indexed by quotient and remainder. *)
Lemma rows_flat {A} (f : Z -> Z -> A) (n : nat) :
  concat (map (fun y => map (fun x => f x y) (seqZ 0 w)) (seqZ 0 (Z.of_nat n))) =
  map (fun i => f (i mod w) (i / w)) (seqZ 0 (w * Z.of_nat n)).
Proof.
  induction n as [|n IH]; [by rewrite Z.mul_0_r|].
  replace (w * Z.of_nat (S n)) with (w * Z.of_nat n + w) by lia.
  replace (Z.of_nat (S n)) with (Z.of_nat n + 1) by lia.
  rewrite !seqZ_app by lia. rewrite !map_app, concat_app, IH. f_equal.
  rewrite (seqZ_cons _ 1) by lia. cbn [map concat Z.pred]. rewrite app_nil_r.
  replace (0 + w * Z.of_nat n) with (w * Z.of_nat n + 0) by lia.
  rewrite <- (fmap_add_seqZ (w * Z.of_nat n) 0).
  rewrite <- (list_fmap_compose (Z.add _)).
  apply list_fmap_ext. intros k x Hx%list_elem_of_lookup_2%elem_of_seqZ. unfold compose.
  rewrite (Z.add_comm (w * _)), (Z.mul_comm w).
  rewrite Z.div_add, Z.mod_add, Z.mod_small, Z.div_small by lia. done.
Qed.

Lemma mono_exact : bytes_needed Cf_Mono w h <= zlen data ->
  cursor_rgba Cf_Mono w h count data = Some (pixels Cf_Mono).
Proof.
  cbn [bytes_needed cursor_rgba]. intros Hl. unfold mono_edge_highlight.
  pose proof (div_ceil_nonneg w 8 ltac:(lia) ltac:(lia)). rewrite split_at_some by nia.
  cbn [mbind option_bind].
  rewrite (mapM_map _ (fun y => map (fun x => mono_reference w h data x y) (seqZ 0 w))).
  - cbn [mbind option_bind]. f_equal. pose proof (rows_flat (mono_reference w h data) (Z.to_nat h)) as E.
    rewrite Z2Nat.id in E by lia. exact E.
  - intros y Hy%elem_of_seqZ. apply mapM_map. intros x Hx%elem_of_seqZ.
    apply mono_pixel_exact; lia.
Qed.

Lemma cursor_rgba_exact format : bytes_needed format w h <= zlen data ->
  cursor_rgba format w h count data = Some (pixels format).
Proof.
  destruct format;
    [apply alpha_exact|apply mono_exact|apply color4_exact|apply color16_exact
    |apply color24_exact|apply color32_exact].
Qed.

End Formats.

(** ** Sizes *)

Lemma checked_mul_fits a b : a * b <= usize_max -> checked_mul a b = Some (a * b).
Proof. intros H. unfold checked_mul. by rewrite (proj2 (Z.leb_le _ _)). Qed.

Lemma checked_add_fits a b : a + b <= usize_max -> checked_add a b = Some (a + b).
Proof. intros H. unfold checked_add. by rewrite (proj2 (Z.leb_le _ _)). Qed.

Lemma div_ceil_le a b : 0 <= a -> 1 <= b -> div_ceil a b <= a + 1.
Proof. intros Ha Hb. unfold div_ceil. apply Z.div_le_upper_bound; nia. Qed.

(** Every size of a cursor with [u16] sides fits a machine word. *)
Lemma cursor_data_len_exact format w h : u16 w -> u16 h ->
  cursor_data_len format w h = Some (bytes_needed format w h).
Proof.
  intros [Hw1 Hw2] [Hh1 Hh2]. change (2 ^ 16) with 65536 in *.
  assert (0 <= w * h <= 65536 * 65536) by nia.
  pose proof (div_ceil_le (w * h) 8 ltac:(lia) ltac:(lia)).
  pose proof (div_ceil_le w 8 ltac:(lia) ltac:(lia)). pose proof (div_ceil_le w 2 ltac:(lia) ltac:(lia)).
  pose proof (div_ceil_nonneg w 8 ltac:(lia) ltac:(lia)). pose proof (div_ceil_nonneg w 2 ltac:(lia) ltac:(lia)).
  assert (div_ceil w 8 * h <= 65536 * 65536) by (apply Z.mul_le_mono_nonneg; lia).
  assert (div_ceil w 2 * h <= 65536 * 65536) by (apply Z.mul_le_mono_nonneg; lia).
  assert (usize_max = 18446744073709551615) as Hmax by done.
  unfold cursor_data_len, COLOR4_PALETTE_LEN.
  destruct format; repeat (first [rewrite checked_mul_fits by lia|rewrite checked_add_fits by lia];
    cbn [mbind option_bind]); cbn [bytes_needed]; f_equal; lia.
Qed.

Lemma rgba_len_drawable w h : 0 < w -> 0 < h ->
  rgba_len w h = if cursor_drawable w h then Some (w * h * 4) else None.
Proof.
  intros Hw Hh. unfold rgba_len, cursor_drawable.
  destruct (Z.eqb_spec w 0), (Z.eqb_spec h 0); try lia.
  rewrite (proj2 (Z.ltb_lt 0 w)), (proj2 (Z.ltb_lt 0 h)) by done. cbn [orb andb].
  destruct (Z.ltb_spec MAX_IMAGE_DIMENSION w), (Z.ltb_spec MAX_IMAGE_DIMENSION h),
    (Z.ltb_spec MAX_IMAGE_PIXELS (w * h)), (Z.leb_spec w MAX_IMAGE_DIMENSION),
    (Z.leb_spec h MAX_IMAGE_DIMENSION), (Z.leb_spec (w * h) MAX_IMAGE_PIXELS); done || lia.
Qed.

(** C14: decoding a server's cursor never panics, whatever the header and the
    data: a cursor whose type is known, whose sides are within the limits and
    whose data is long enough becomes exactly the pixels of its format, and
    every other is refused. *)
Theorem cursor_pixels_exact header data :
  u16 (CursorHeader_width header) -> u16 (CursorHeader_height header) -> bytes data ->
  decode_cursor_pixels header data = Some (cursor_shape header data).
Proof.
  intros Hw Hh Hd. pose proof Hw as [Hw0 _]. pose proof Hh as [Hh0 _].
  unfold decode_cursor_pixels, cursor_shape.
  destruct (CursorFormat_from_type _) as [F|] eqn:EF; cbn [mbind option_bind];
    [|by destruct (_ || _)].
  destruct ((_ =? 0) || _) eqn:Ez.
  { assert (cursor_drawable (CursorHeader_width header) (CursorHeader_height header) = false) as ->; [|done].
    unfold cursor_drawable. lia. }
  rewrite rgba_len_drawable, cursor_data_len_exact by (done || lia).
  destruct (cursor_drawable _ _); [|done]. cbn [andb].
  rewrite Z.ltb_antisym. destruct (Z.leb_spec (bytes_needed F (CursorHeader_width header)
    (CursorHeader_height header)) (zlen data)); [|done]. cbn [negb].
  rewrite Z.div_mul, cursor_rgba_exact by (done || lia). done.
Qed.

(** A 2 by 2 masked cursor: white and red, opaque and masked. *)
Definition sample_color32 : CursorHeader := mkCursorHeader 7 6 2 2 1 1.
Definition sample_color32_data : list Z :=
  [255; 255; 255; 0; 0; 0; 255; 0; 255; 255; 255; 0; 0; 0; 255; 9; 0x30].

Lemma cursor_pixels_exact_witness :
  u16 2 /\ bytes sample_color32_data /\
  cursor_shape sample_color32 sample_color32_data =
    Some (mkCursorImage 2 2 1 1 [255; 255; 255; 255; 255; 0; 0; 255; 48; 48; 48; 192; 255; 0; 0; 9]) /\
  decode_cursor_pixels sample_color32 sample_color32_data =
    Some (cursor_shape sample_color32 sample_color32_data).
Proof.
  assert (u16 2) as H2 by (unfold in_unsigned; lia).
  assert (bytes sample_color32_data) as Hb by (repeat constructor; unfold in_unsigned; lia).
  split_and!; [done|done|vm_compute; reflexivity|].
  apply (cursor_pixels_exact sample_color32 sample_color32_data); done.
Defined.
