(* ===== verification/Cursor.v ===== *)
(** The cursor channel: [CursorChannel] of
    [shakenfist-spice-renderer/src/channels/cursor.rs].

    One definition per method and one per arm of [handle_message].  INIT and
    SET are read in two parts: the fixed fields, which must be there, then the
    cursor, which may be malformed.  The acks the server paces itself by are
    counted in [u32]s; [overflow_checks] is the build profile, which decides
    what the count of messages does at its end.  [CursorPixels.v] is the
    decoder of the shapes. *)
From Stdlib Require Import ZArith Lia.
From stdpp Require Import base numbers list gmap tactics.
From S2P Require Import Prelude Reader Utf8 Wire MsgCommon ReceiveBuffer MsgCursor LinkMess OpcodeCounters Channel CursorPixels.

Open Scope Z_scope.
Open Scope rust_scope.

(** * Constants *)

Definition cursor_server_INIT : Z := 101.
Definition cursor_server_RESET : Z := 102.
Definition cursor_server_SET : Z := 103.
Definition cursor_server_MOVE : Z := 104.
Definition cursor_server_HIDE : Z := 105.
Definition cursor_server_TRAIL : Z := 106.
Definition cursor_server_INVALIDATE_ONE : Z := 107.
Definition cursor_server_INVALIDATE_ALL : Z := 108.
Definition cursor_server_SET_ACK : Z := 3.
Definition cursor_server_PING : Z := 4.
Definition cursor_server_NOTIFY : Z := 7.
Definition cursor_client_ACK_SYNC : Z := 1.
Definition cursor_client_ACK : Z := 2.
Definition cursor_client_PONG : Z := 3.

(** The name table, as the opcodes it names. *)
Definition cursor_server_named (op : Z) : bool :=
  ((101 <=? op) && (op <=? 108)) || common_server_named op.

Definition cursor_flags_CACHE_ME : Z := Z.shiftl 1 1.
Definition cursor_flags_FROM_CACHE : Z := Z.shiftl 1 2.

Definition SpiceCursor_FLAGS_SIZE : Z := 2.

(** * The state *)

Record CursorAck : Type := mkCursorAck {
  ca_ack_generation : Z;
  ca_ack_window : Z;
  ca_message_count : Z;
  ca_last_ack : Z
}.

Record CursorPings : Type := mkCursorPings {
  cp_ping_recv_count : Z;
  cp_pong_send_count : Z;
  cp_last_ping_recv_ts : option Z
}.

Record CursorChannel : Type := mkCursorChannel {
  cc_buffer : ReceiveBuffer;
  cc_cursor_cache : gmap Z CursorImage;
  cc_ack : CursorAck;
  cc_totals : Totals;
  cc_pings : CursorPings;
  cc_log : list Event;
  cc_turn : nat
}.

Definition CursorChannel_new : CursorChannel :=
  mkCursorChannel rb_new ∅ (mkCursorAck 0 0 0 0) Totals_new (mkCursorPings 0 0 None) [] 0.

Definition cc_on_buffer (f : ReceiveBuffer -> ReceiveBuffer) c :=
  mkCursorChannel (f (cc_buffer c)) (cc_cursor_cache c) (cc_ack c) (cc_totals c) (cc_pings c)
    (cc_log c) (cc_turn c).
Definition cc_on_cache (f : gmap Z CursorImage -> gmap Z CursorImage) c :=
  mkCursorChannel (cc_buffer c) (f (cc_cursor_cache c)) (cc_ack c) (cc_totals c) (cc_pings c)
    (cc_log c) (cc_turn c).
Definition cc_on_ack (f : CursorAck -> CursorAck) c :=
  mkCursorChannel (cc_buffer c) (cc_cursor_cache c) (f (cc_ack c)) (cc_totals c) (cc_pings c)
    (cc_log c) (cc_turn c).
Definition cc_on_totals (f : Totals -> Totals) c :=
  mkCursorChannel (cc_buffer c) (cc_cursor_cache c) (cc_ack c) (f (cc_totals c)) (cc_pings c)
    (cc_log c) (cc_turn c).
Definition cc_on_pings (f : CursorPings -> CursorPings) c :=
  mkCursorChannel (cc_buffer c) (cc_cursor_cache c) (cc_ack c) (cc_totals c) (f (cc_pings c))
    (cc_log c) (cc_turn c).
Definition cc_on_log (f : list Event -> list Event) c :=
  mkCursorChannel (cc_buffer c) (cc_cursor_cache c) (cc_ack c) (cc_totals c) (cc_pings c)
    (f (cc_log c)) (cc_turn c).
Definition cc_on_turn (f : nat -> nat) c :=
  mkCursorChannel (cc_buffer c) (cc_cursor_cache c) (cc_ack c) (cc_totals c) (cc_pings c)
    (cc_log c) (f (cc_turn c)).

#[export] Instance CursorChannel_state : ChannelState CursorChannel := {|
  ch_buffer := cc_buffer;
  ch_on_buffer := cc_on_buffer;
  ch_on_totals := cc_on_totals;
  ch_on_log := cc_on_log;
  ch_turn := cc_turn;
  ch_on_turn := cc_on_turn
|}.

Abbreviation Cc := (M ChannelError CursorChannel).

(** [self.message_count += 1] on a [u32]: [None] is the panic of a build that
    checks. *)
Definition count_message (overflow_checks : bool) (count : Z) : option Z :=
  if overflow_checks && (2 ^ 32 <=? count + 1) then None else Some (as_unsigned 32 (count + 1)).

(** [self.message_count - self.last_ack], likewise. *)
Definition unacked (overflow_checks : bool) (a : CursorAck) : option Z :=
  if overflow_checks && (ca_message_count a <? ca_last_ack a) then None
  else Some (as_unsigned 32 (ca_message_count a - ca_last_ack a)).

(** Read the first part of a body, and the reader after it. *)
Definition must_read {T} `{WireType T} (msg_type : Z) (payload : list Z) : Cc (T * BoundedReader) :=
  match read (reader_new payload) with
  | (Ok v, r) => ret (v, r)
  | (Err e, _) => throw (Chan_Malformed msg_type e)
  | (Panic, _) => panic
  end.

Section Channel.
Context (env : Env).

(** * Writes *)

(** Less the log line and the snapshot. *)
Definition cursor_send_with_log (msg_type : Z) (data : list Z) : Cc unit :=
  do? log_event (Ev_Sent msg_type data) in
  do? count_opcodes (record_send msg_type) in
  send env data.

Definition send_ack : Cc unit :=
  do? cursor_send_with_log cursor_client_ACK (make_message cursor_client_ACK []) in
  modify (cc_on_ack (fun a => mkCursorAck (ca_ack_generation a) (ca_ack_window a)
    (ca_message_count a) (ca_message_count a))).

(** * Messages *)

(** [decode_cursor_pixels], whose [None] is a panic. *)
Definition show_decoded (header : CursorHeader) (data : list Z) (cache_me : bool) : Cc unit :=
  let? image := unwrap (decode_cursor_pixels header data) in
  match image with
  | Some img =>
      do? when cache_me (modify (cc_on_cache (insert (CursorHeader_unique_id header) img))) in
      emit (CE_CursorShape img)
  | None => ret tt
  end.

Definition show_cached (id : Z) : Cc unit :=
  let? cache := gets cc_cursor_cache in
  match cache !! id with
  | Some img => emit (CE_CursorShape img)
  | None => ret tt
  end.

Definition parse_and_emit_cursor (r : BoundedReader) : Cc unit :=
  match remaining r with
  | (Ok n, r) =>
      if n <? SpiceCursor_FLAGS_SIZE then ret tt
      else
        match SpiceCursorRef_read r with
        | (Ok cursor, _) =>
            match SpiceCursor_header cursor with
            | None => ret tt
            | Some header =>
                let from_cache := SpiceCursor_has_flag cursor cursor_flags_FROM_CACHE in
                let cache_me := SpiceCursor_has_flag cursor cursor_flags_CACHE_ME in
                if from_cache then show_cached (CursorHeader_unique_id header)
                else show_decoded header (SpiceCursor_data cursor) cache_me
            end
        | (Err _, _) => ret tt
        | (Panic, _) => panic
        end
  | _ => panic
  end.

Definition emit_position (x y : Z) (visible : bool) : Cc unit :=
  emit (CE_CursorPosition (as_unsigned 16 x) (as_unsigned 16 y) visible).

Definition cursor_handle_init (payload : list Z) : Cc unit :=
  let? p := must_read (T := CursorInitHead) cursor_server_INIT payload in
  let '(init, r) := p in
  do? emit_position (CursorInitHead_x init) (CursorInitHead_y init)
        (negb (CursorInitHead_visible init =? 0)) in
  parse_and_emit_cursor r.

Definition cursor_handle_set (payload : list Z) : Cc unit :=
  let? p := must_read (T := CursorSetHead) cursor_server_SET payload in
  let '(set, r) := p in
  do? emit_position (CursorSetHead_x set) (CursorSetHead_y set)
        (negb (CursorSetHead_visible set =? 0)) in
  parse_and_emit_cursor r.

Definition cursor_handle_move (payload : list Z) : Cc unit :=
  let? mv := try_decode (T := CursorMove) payload in
  match mv with
  | Some mv => emit_position (CursorMove_x mv) (CursorMove_y mv) true
  | None => ret tt
  end.

Definition cursor_handle_inval_one (payload : list Z) : Cc unit :=
  let? inval := try_decode (T := CursorInvalOne) payload in
  match inval with
  | Some inval => modify (cc_on_cache (delete (CursorInvalOne_id inval)))
  | None => ret tt
  end.

Definition clear_cache : Cc unit := modify (cc_on_cache (fun _ => ∅)).

Definition cursor_handle_set_ack (payload : list Z) : Cc unit :=
  let? set_ack := must_decode (T := SetAck) cursor_server_SET_ACK payload in
  do? modify (cc_on_ack (fun a => mkCursorAck (SetAck_generation set_ack) (SetAck_window set_ack)
        (ca_message_count a) (ca_last_ack a))) in
  cursor_send_with_log cursor_client_ACK_SYNC
    (make_message cursor_client_ACK_SYNC (write (SetAck_ack_sync set_ack) [])).

Definition cursor_handle_ping (payload : list Z) : Cc unit :=
  do? modify (cc_on_pings (fun p => mkCursorPings (saturating_add_u32 (cp_ping_recv_count p) 1)
        (cp_pong_send_count p) (cp_last_ping_recv_ts p))) in
  let? ts := elapsed_now env in
  do? modify (cc_on_pings (fun p => mkCursorPings (cp_ping_recv_count p) (cp_pong_send_count p)
        (Some ts))) in
  let? ping := must_decode (T := Ping) cursor_server_PING payload in
  do? cursor_send_with_log cursor_client_PONG
        (make_message cursor_client_PONG (write (Ping_pong ping) [])) in
  modify (cc_on_pings (fun p => mkCursorPings (cp_ping_recv_count p)
    (saturating_add_u32 (cp_pong_send_count p) 1) (cp_last_ping_recv_ts p))).

Definition cursor_handle_notify (payload : list Z) : Cc unit :=
  let? notify := must_decode (T := Notify) cursor_server_NOTIFY payload in
  emit (CE_Notification (Notify_severity_kind notify) (Source_Spice Ch_Cursor (Notify_what notify))
    (from_utf8_lossy (Notify_message notify)) (Notify_visibility_kind notify)).

Definition cursor_handle_message (msg_type : Z) (payload : list Z) : Cc unit :=
  do? count_opcodes (record_recv cursor_server_named msg_type) in
  if msg_type =? cursor_server_INIT then cursor_handle_init payload
  else if msg_type =? cursor_server_SET then cursor_handle_set payload
  else if msg_type =? cursor_server_MOVE then cursor_handle_move payload
  else if msg_type =? cursor_server_HIDE then emit_position 0 0 false
  else if msg_type =? cursor_server_RESET then clear_cache
  else if msg_type =? cursor_server_TRAIL then ret tt
  else if msg_type =? cursor_server_INVALIDATE_ONE then cursor_handle_inval_one payload
  else if msg_type =? cursor_server_INVALIDATE_ALL then clear_cache
  else if msg_type =? cursor_server_SET_ACK then cursor_handle_set_ack payload
  else if msg_type =? cursor_server_PING then cursor_handle_ping payload
  else if msg_type =? cursor_server_NOTIFY then cursor_handle_notify payload
  else count_opcodes (note_unknown cursor_server_named msg_type).

(** [self.ack_window > 0 && self.message_count - self.last_ack >= self.ack_window] *)
Definition ack_if_needed (overflow_checks : bool) : Cc unit :=
  let? a := gets cc_ack in
  if 0 <? ca_ack_window a then
    let? n := unwrap (unacked overflow_checks a) in
    when (ca_ack_window a <=? n) send_ack
  else ret tt.

(** What [process_messages] does with one message once it is recorded. *)
Definition cursor_process_one (overflow_checks : bool) (msg_type : Z) (payload : list Z) : Cc unit :=
  let? a := gets cc_ack in
  let? count := unwrap (count_message overflow_checks (ca_message_count a)) in
  do? modify (cc_on_ack (fun a => mkCursorAck (ca_ack_generation a) (ca_ack_window a) count
        (ca_last_ack a))) in
  do? cursor_handle_message msg_type payload in
  ack_if_needed overflow_checks.

(** * The loop *)

(** What each [read] returned: an error, nothing at the end of the stream, or
    bytes. *)
Fixpoint cursor_run_loop (overflow_checks : bool) (read_results : list (option (list Z))) : Cc unit :=
  match read_results with
  | [] => ret tt
  | None :: _ => throw Chan_Io
  | Some [] :: _ => emit (CE_Disconnected Ch_Cursor ServerClosed)
  | Some chunk :: read_results =>
      do? take_read env (cursor_process_one overflow_checks) chunk in
      cursor_run_loop overflow_checks read_results
  end.

End Channel.
