(* ===== verification/CursorSpec.v ===== *)
(** What the cursor channel promises, as a function of the messages it has
    received, and the proof that it keeps it.

    A [history] is the messages received, the last one first.  [cached_image]
    looks back through it for the cursor the server asked to be kept under an
    id; [shown] is the shape a message shows; [since_ack] counts the messages
    the server has not been acknowledged.  [cursor_log] is the whole promise:
    every message followed by what the frontends are told and what the server
    is answered.  [kept_promise] says a channel is where its history puts it. *)
From Stdlib Require Import ZArith Lia.
From stdpp Require Import base numbers list gmap tactics.
From S2P Require Import Prelude Reader Utf8 Wire MsgCommon ReceiveBuffer MsgCursor LinkMess OpcodeCounters Channel ChannelSpec CursorPixels Cursor.

Open Scope Z_scope.
Open Scope rust_scope.

#[export] Instance CursorChannel_laws : ChannelLaws CursorChannel.
Proof. by split. Qed.

(** * The promise *)

Abbreviation message := (Z * list Z)%type.

Definition opt_list {A} (o : option A) : list A := match o with Some a => [a] | None => [] end.

(** A body that decodes. *)
Definition parsed {T} `{WireType T} (payload : list Z) : option T :=
  match decode payload with Ok v => Some v | _ => None end.

(** Where a message puts the cursor. *)
Definition placed (m : message) : option ChannelEvent :=
  let '(ty, payload) := m in
  let at_ x y v := CE_CursorPosition (x mod 2 ^ 16) (y mod 2 ^ 16) v in
  if ty =? cursor_server_INIT then
    i ← parsed (T := CursorInitHead) payload;
    Some (at_ (CursorInitHead_x i) (CursorInitHead_y i) (negb (CursorInitHead_visible i =? 0)))
  else if ty =? cursor_server_SET then
    s ← parsed (T := CursorSetHead) payload;
    Some (at_ (CursorSetHead_x s) (CursorSetHead_y s) (negb (CursorSetHead_visible s =? 0)))
  else if ty =? cursor_server_MOVE then
    v ← parsed (T := CursorMove) payload; Some (at_ (CursorMove_x v) (CursorMove_y v) true)
  else if ty =? cursor_server_HIDE then Some (at_ 0 0 false)
  else None.

(** The cursor a whole INIT or SET carries: its header and its flagged data. *)
Definition carried (m : message) : option (CursorHeader * SpiceCursor) :=
  let '(ty, payload) := m in
  cursor ← (if ty =? cursor_server_INIT then CursorInit_cursor <$> parsed payload
            else if ty =? cursor_server_SET then CursorSet_cursor <$> parsed payload
            else None);
  header ← SpiceCursor_header cursor;
  Some (header, cursor).

Definition flagged_cache (c : SpiceCursor) : bool := SpiceCursor_has_flag c cursor_flags_CACHE_ME.
Definition flagged_cached (c : SpiceCursor) : bool := SpiceCursor_has_flag c cursor_flags_FROM_CACHE.

(** The image a message keeps under [id]. *)
Definition kept (id : Z) (m : message) : option CursorImage :=
  c ← carried m;
  let '(header, cursor) := c in
  if (CursorHeader_unique_id header =? id) && flagged_cache cursor && negb (flagged_cached cursor)
  then cursor_shape header (SpiceCursor_data cursor) else None.

Definition forgets (id : Z) (m : message) : bool :=
  let '(ty, payload) := m in
  (ty =? cursor_server_RESET) || (ty =? cursor_server_INVALIDATE_ALL) ||
  ((ty =? cursor_server_INVALIDATE_ONE) &&
   bool_decide (CursorInvalOne_id <$> parsed payload = Some id)).

Fixpoint cached_image (id : Z) (history : list message) : option CursorImage :=
  match history with
  | [] => None
  | m :: earlier =>
      if forgets id m then None
      else match kept id m with Some image => Some image | None => cached_image id earlier end
  end.

(** The shape a message shows. *)
Definition shown (earlier : list message) (m : message) : option CursorImage :=
  c ← carried m;
  let '(header, cursor) := c in
  if flagged_cached cursor then cached_image (CursorHeader_unique_id header) earlier
  else cursor_shape header (SpiceCursor_data cursor).

(** The window the server last asked for; none is zero. *)
Fixpoint ack_window (history : list message) : Z :=
  match history with
  | [] => 0
  | (ty, payload) :: earlier =>
      if ty =? cursor_server_SET_ACK then
        match parsed (T := SetAck) payload with
        | Some s => SetAck_window s
        | None => ack_window earlier
        end
      else ack_window earlier
  end.

Definition ack_due (window n : Z) : bool := (0 <? window) && (window <=? n).

(** The messages since the last ack, as a [u32] counts them. *)
Fixpoint since_ack (history : list message) : Z :=
  match history with
  | [] => 0
  | m :: earlier =>
      let n := (since_ack earlier + 1) mod 2 ^ 32 in
      if ack_due (ack_window (m :: earlier)) n then 0 else n
  end.

Definition the_ack : Event := Ev_Wrote (make_message cursor_client_ACK []).

Definition answered (m : message) : list Event :=
  let '(ty, payload) := m in
  if ty =? cursor_server_SET_ACK then
    match parsed (T := SetAck) payload with
    | Some s => [Ev_Wrote (make_message cursor_client_ACK_SYNC (encode (SetAck_ack_sync s)))]
    | None => []
    end
  else if ty =? cursor_server_PING then
    match parsed (T := Ping) payload with
    | Some p => [Ev_Wrote (make_message cursor_client_PONG (encode (Ping_pong p)))]
    | None => []
    end
  else if ty =? cursor_server_NOTIFY then
    match parsed (T := Notify) payload with
    | Some n => [Ev_Emit (CE_Notification (Notify_severity_kind n) (Source_Spice Ch_Cursor (Notify_what n))
        (from_utf8_lossy (Notify_message n)) (Notify_visibility_kind n))]
    | None => []
    end
  else [].

(** What a message does besides its ack: the position, then the shape. *)
Definition reply (earlier : list message) (m : message) : list Event :=
  map Ev_Emit (opt_list (placed m)) ++
  map (fun image => Ev_Emit (CE_CursorShape image)) (opt_list (shown earlier m)) ++ answered m.

Definition ack_of (earlier : list message) (m : message) : list Event :=
  if ack_due (ack_window (m :: earlier)) ((since_ack earlier + 1) mod 2 ^ 32) then [the_ack] else [].

Fixpoint cursor_log (history : list message) : list Event :=
  match history with
  | [] => []
  | m :: earlier =>
      cursor_log earlier ++ [Ev_Received (fst m) (snd m)] ++ reply earlier m ++ ack_of earlier m
  end.

(** * The monitors *)

Definition as_received (e : Event) : option message :=
  match e with Ev_Received ty payload => Some (ty, payload) | _ => None end.

Definition history (log : list Event) : list message := rev (omap as_received log).

(** The log less the records of what is about to be sent. *)
Definition is_visible (e : Event) : bool := match e with Ev_Sent _ _ => false | _ => true end.
Definition visible (log : list Event) : list Event := List.filter is_visible log.

Lemma history_snoc log e : history (log ++ [e]) = opt_list (as_received e) ++ history log.
Proof. unfold history. rewrite omap_snoc, rev_app_distr. by destruct e. Qed.

Lemma visible_snoc log e : visible (log ++ [e]) = visible log ++ if is_visible e then [e] else [].
Proof. unfold visible. rewrite List.filter_app. cbn. by destruct (is_visible e). Qed.

(** A channel as far as the promise is concerned. *)
Record Ghost : Type := mkGhost {
  g_history : list message;
  g_visible : list Event;
  g_cache : Z -> option CursorImage;
  g_window : Z;
  g_since : Z;
  g_buffer : ReceiveBuffer
}.

Definition g_show (e : Event) (g : Ghost) : Ghost :=
  mkGhost (g_history g) (g_visible g ++ [e]) (g_cache g) (g_window g) (g_since g) (g_buffer g).
Definition g_recache (c : Z -> option CursorImage) (g : Ghost) : Ghost :=
  mkGhost (g_history g) (g_visible g) c (g_window g) (g_since g) (g_buffer g).
Definition g_reack (w n : Z) (g : Ghost) : Ghost :=
  mkGhost (g_history g) (g_visible g) (g_cache g) w n (g_buffer g).

Record ack_at (w n : Z) (a : CursorAck) : Prop := {
  aa_window : ca_ack_window a = w;
  aa_since : as_unsigned 32 (ca_message_count a - ca_last_ack a) = n
}.

Record channel_at (g : Ghost) (s : CursorChannel) : Prop := {
  at_history : history (cc_log s) = g_history g;
  at_visible : visible (cc_log s) = g_visible g;
  at_cache : forall id, cc_cursor_cache s !! id = g_cache g id;
  at_ack : ack_at (g_window g) (g_since g) (cc_ack s);
  at_buffer : cc_buffer s = g_buffer g
}.

(** The channel is where the messages [ms] put it. *)
Definition ghost_of (h : list message) (b : ReceiveBuffer) : Ghost :=
  mkGhost h (cursor_log h) (fun id => cached_image id h) (ack_window h) (since_ack h) b.

Definition kept_promise (ms : list message) (s : CursorChannel) : Prop :=
  channel_at (ghost_of (rev ms) (cc_buffer s)) s.

(** What a failure leaves: part of the promise, in order. *)
Definition stopped (s : CursorChannel) : Prop :=
  visible (cc_log s) `prefix_of` cursor_log (history (cc_log s)).

(** A ghost that has promised no more than it may. *)
Definition promised (g : Ghost) : Prop := g_visible g `prefix_of` cursor_log (g_history g).

Lemma at_stopped g s : promised g -> channel_at g s -> stopped s.
Proof. intros Hp []. unfold stopped. by rewrite at_history0, at_visible0. Qed.

(** * The operations *)

Section Operations.
Context (env : Env).

Abbreviation runs g m g' := (triple (channel_at g) m (fun _ => channel_at g') stopped).

(** A change no part of the promise reads. *)
Definition unpromised (f : CursorChannel -> CursorChannel) : Prop :=
  forall s, cc_log (f s) = cc_log s /\ cc_cursor_cache (f s) = cc_cursor_cache s /\
    cc_ack (f s) = cc_ack s /\ cc_buffer (f s) = cc_buffer s.

Lemma at_unpromised f g s : unpromised f -> channel_at g s -> channel_at g (f s).
Proof. intros Hf []. destruct (Hf s) as (El & Ec & Ea & Eb). split; by rewrite ?El, ?Ec, ?Ea, ?Eb. Qed.

Lemma runs_modify f g : unpromised f -> runs g (modify f) g.
Proof. intros Hf s. by apply at_unpromised. Qed.

Lemma runs_ask {A} (f : nat -> A) g : runs g (ask f) g.
Proof. intros s. by apply (at_unpromised (cc_on_turn S)). Qed.

Lemma runs_log e g : is_visible e = true -> as_received e = None ->
  runs g (log_event e) (g_show e g).
Proof.
  intros Hv Hr s []. split; try done; cbn [cc_on_log ch_on_log cc_log CursorChannel_state].
  - by rewrite history_snoc, Hr.
  - by rewrite visible_snoc, Hv, at_visible0.
Qed.

Lemma runs_emit e g : runs g (emit e) (g_show (Ev_Emit e) g).
Proof. by apply runs_log. Qed.

Lemma at_sent ty data g s : channel_at g s ->
  channel_at g (cc_on_log (fun l => l ++ [Ev_Sent ty data]) s).
Proof.
  intros []. split; try done; cbn [cc_on_log cc_log]; [by rewrite history_snoc|].
  by rewrite visible_snoc, app_nil_r.
Qed.

Lemma runs_bind {A} (m : Cc A) (k : A -> Cc unit) g g1 g2 :
  runs g m g1 -> (forall a, runs g1 (k a) g2) -> runs g (bind m k) g2.
Proof. intros Hm Hk. eapply (triple_bind _ _ _ (fun _ => channel_at g1)); [exact Hm|exact Hk]. Qed.

Lemma runs_send ty data g : promised g ->
  runs g (cursor_send_with_log env ty data) (g_show (Ev_Wrote data) g).
Proof.
  intros Hp. unfold cursor_send_with_log. eapply runs_bind; [intros s; apply at_sent|].
  intros ?. eapply runs_bind; [by apply (runs_modify (cc_on_totals _))|].
  intros ?. apply triple_written.
  - intros f s. by apply at_unpromised.
  - intros s. by apply at_unpromised.
  - intros f s. by apply at_unpromised.
  - intros s. by apply at_unpromised.
  - intros s Hs. by apply (runs_log (Ev_Wrote data) g).
  - intros s. by apply at_stopped.
Qed.

Lemma runs_cache f c g : (forall m, (forall id, m !! id = g_cache g id) -> forall id, f m !! id = c id) ->
  runs g (modify (cc_on_cache f)) (g_recache c g).
Proof. intros Hf s []. split; try done. cbn. by apply Hf. Qed.

Lemma runs_ack f w n g : (forall a, ack_at (g_window g) (g_since g) a -> ack_at w n (f a)) ->
  runs g (modify (cc_on_ack f)) (g_reack w n g).
Proof. intros Hf s []. split; try done. by apply Hf. Qed.

(** ** One message *)

(** While a message is being handled: what it has shown so far, the cache and
    the acks. *)
Definition during (h : list message) (m : message) (out : list Event) (c : Z -> option CursorImage)
    (w : Z) (b : ReceiveBuffer) : Ghost :=
  mkGhost (m :: h) (cursor_log h ++ Ev_Received (fst m) (snd m) :: out) c w
    ((since_ack h + 1) mod 2 ^ 32) b.

Lemma during_promised h m out c w b : out `prefix_of` reply h m ++ ack_of h m ->
  promised (during h m out c w b).
Proof. intros Hp. unfold promised. cbn. apply prefix_app. by apply prefix_cons. Qed.

Lemma during_show h m out c w b e :
  g_show e (during h m out c w b) = during h m (out ++ [e]) c w b.
Proof. unfold g_show, during. cbn. by rewrite <- app_assoc. Qed.

(** A handler has done all its message asks. *)
Lemma runs_to h m b g (op : Cc unit) out c w : runs g op (during h m out c w b) ->
  out = reply h m -> (forall id, c id = cached_image id (m :: h)) -> w = ack_window (m :: h) ->
  runs g op (during h m (reply h m) (fun id => cached_image id (m :: h)) (ack_window (m :: h)) b).
Proof.
  intros HM -> Hc -> s Hs. specialize (HM s Hs). destruct (op s) as [[[]|e|] s']; [|done|done].
  destruct HM. split; try done. intros id. cbn in *. by rewrite at_cache0.
Qed.

Section Message.
Context (h : list message) (ty : Z) (payload : list Z) (b : ReceiveBuffer).
Context (Hb : bytes payload) (Hl : zlen payload <= isize_max).

Abbreviation m := (ty, payload).

Lemma payload_reader_ok : reader_ok (reader_new payload).
Proof. split; cbn; [pose proof (zlen_nonneg payload); lia|done|done]. Qed.

Lemma runs_must_read {T} `{WireLaws T} (k : T * BoundedReader -> Cc unit) g g' : promised g ->
  (forall v r, read (reader_new payload) = (Ok v, r) -> reader_ok r -> runs g (k (v, r)) g') ->
  runs g (bind (must_read ty payload) k) g'.
Proof.
  intros Hp Hk s Hs. unfold bind, must_read. pose proof (read_safe (reader_new payload) payload_reader_ok) as Hr.
  destruct (read (reader_new payload)) as [[v|e|] r] eqn:E; destruct Hr as (Hr & _ & _ & Hv); [|by eapply at_stopped|done].
  by apply (Hk v r).
Qed.

Lemma runs_must_decode {T} `{WireLaws T} (k : T -> Cc unit) g g' : promised g ->
  (forall v, parsed (T := T) payload = Some v -> runs g (k v) g') ->
  runs g (bind (must_decode ty payload) k) g'.
Proof.
  intros Hp Hk s Hs. pose proof (laws_never_panics payload Hb Hl) as Hd. unfold bind, must_decode, parsed in *.
  destruct (decode payload) as [v|e|]; [by apply (Hk v)|by eapply at_stopped|done].
Qed.

Lemma runs_try_decode {T} `{WireLaws T} (k : option T -> Cc unit) g g' :
  runs g (k (parsed payload)) g' -> runs g (bind (try_decode payload) k) g'.
Proof.
  intros Hk s Hs. pose proof (laws_never_panics payload Hb Hl) as Hd. unfold bind, try_decode, parsed in *.
  destruct (decode payload) as [v|e|]; [by apply Hk..|done].
Qed.

(** ** The cursor at the end of a message *)

Definition cursor_at (r : BoundedReader) : option SpiceCursor :=
  match SpiceCursorRef_read r with (Ok c, _) => Some c | _ => None end.

Lemma no_flags r : reader_ok r -> zlen (br_data r) - br_pos r < 2 -> exists e r', SpiceCursorRef_read r = (Err e, r').
Proof.
  intros [Hp _ _] Hn. unfold SpiceCursorRef_read, read_u16, read_array, read_bytes.
  do 2 eexists. unfold bind. rewrite remaining_eq by done.
  rewrite (proj2 (Z.ltb_lt _ _)) by (cbn; lia). reflexivity.
Qed.

(** The image a message with a decoded cursor keeps, when it keeps one. *)
Lemma kept_id header cursor id : carried m = Some (header, cursor) ->
  forgets id m = false ->
  cached_image id (m :: h) =
    if (CursorHeader_unique_id header =? id) && flagged_cache cursor && negb (flagged_cached cursor)
    then match cursor_shape header (SpiceCursor_data cursor) with
         | Some image => Some image | None => cached_image id h end
    else cached_image id h.
Proof. intros Hc Hf. cbn [cached_image]. rewrite Hf. unfold kept. rewrite Hc. cbn. by destruct (_ && _ && _). Qed.

Lemma kept_none id : carried m = None -> forgets id m = false -> cached_image id (m :: h) = cached_image id h.
Proof. intros Hc Hf. cbn [cached_image]. rewrite Hf. unfold kept. by rewrite Hc. Qed.

Lemma runs_show_decoded header cursor out : wire_wf cursor -> wire_wf header ->
  carried m = Some (header, cursor) -> (forall id, forgets id m = false) -> flagged_cached cursor = false ->
  runs (during h m out (fun id => cached_image id h) (ack_window h) b)
    (show_decoded header (SpiceCursor_data cursor) (flagged_cache cursor))
    (during h m (out ++ map (fun i => Ev_Emit (CE_CursorShape i)) (opt_list (shown h m)))
      (fun id => cached_image id (m :: h)) (ack_window h) b).
Proof.
  intros (_ & Hd & _) (_ & _ & Hw & Hh & _) Hc Hf Hfrom. unfold show_decoded, shown. rewrite Hc.
  cbn [mbind option_bind]. rewrite Hfrom, cursor_pixels_exact by done.
  assert (forall id, cached_image id (m :: h) =
    if (CursorHeader_unique_id header =? id) && flagged_cache cursor
    then match cursor_shape header (SpiceCursor_data cursor) with
         | Some image => Some image | None => cached_image id h end
    else cached_image id h) as Hkept.
  { intros id. rewrite (kept_id header cursor) by done. by rewrite Hfrom, andb_true_r. }
  intros s Hs. rewrite (bind_ok (unwrap (Some _)) _ _ _ _ eq_refl).
  destruct (cursor_shape header (SpiceCursor_data cursor)) as [img|]; cbn [opt_list map].
  - revert s Hs. eapply runs_bind; [|intros ?; rewrite <- during_show; apply runs_emit].
    intros s []. destruct (flagged_cache cursor); cbn [when]; split; try done; intros id;
      specialize (Hkept id); rewrite ?andb_true_r, ?andb_false_r in Hkept; cbn -[cached_image]; rewrite Hkept; [|apply at_cache0].
    clear Hkept. destruct (Z.eqb_spec (CursorHeader_unique_id header) id) as [E|Hne];
      [by rewrite E, lookup_insert_eq|rewrite lookup_insert_ne by done; apply at_cache0].
  - destruct Hs. split; try done; cbn -[cached_image]; [by rewrite app_nil_r|].
    intros id. rewrite Hkept. by destruct (_ && _).
Qed.

Lemma runs_show_cached header cursor out : carried m = Some (header, cursor) ->
  (forall id, forgets id m = false) -> flagged_cached cursor = true ->
  runs (during h m out (fun id => cached_image id h) (ack_window h) b)
    (show_cached (CursorHeader_unique_id header))
    (during h m (out ++ map (fun i => Ev_Emit (CE_CursorShape i)) (opt_list (shown h m)))
      (fun id => cached_image id (m :: h)) (ack_window h) b).
Proof.
  intros Hc Hf Hfrom s Hs. unfold show_cached. rewrite (bind_ok (gets _) _ _ _ _ eq_refl).
  destruct Hs as [? ? Hcache ? ?]. rewrite Hcache. cbn [during g_cache].
  unfold shown. rewrite Hc. cbn [mbind option_bind]. rewrite Hfrom.
  assert (channel_at (during h m out (fun id => cached_image id (m :: h)) (ack_window h) b) s) as Hs.
  { split; try done. intros id. cbn -[cached_image].
    rewrite Hcache. by rewrite (kept_id header cursor), Hfrom, andb_false_r. }
  destruct (cached_image (CursorHeader_unique_id header) h); cbn [opt_list map];
    [rewrite <- during_show; by apply runs_emit|by rewrite app_nil_r].
Qed.

Lemma runs_cursor r out : reader_ok r ->
  carried m = (cursor ← cursor_at r; header ← SpiceCursor_header cursor; Some (header, cursor)) ->
  (forall id, forgets id m = false) ->
  runs (during h m out (fun id => cached_image id h) (ack_window h) b) (parse_and_emit_cursor r)
    (during h m (out ++ map (fun i => Ev_Emit (CE_CursorShape i)) (opt_list (shown h m)))
      (fun id => cached_image id (m :: h)) (ack_window h) b).
Proof.
  intros Hr Hc Hf.
  assert (carried m = None -> runs (during h m out (fun id => cached_image id h) (ack_window h) b) (ret tt : Cc unit)
    (during h m (out ++ map (fun i => Ev_Emit (CE_CursorShape i)) (opt_list (shown h m)))
      (fun id => cached_image id (m :: h)) (ack_window h) b)) as Hnone.
  { intros E s []. unfold shown. rewrite E. cbn [mbind option_bind opt_list map]. rewrite app_nil_r.
    split; try done. intros id. cbn [during g_cache]. by rewrite kept_none. }
  unfold parse_and_emit_cursor. rewrite remaining_eq by apply Hr.
  destruct (Z.ltb_spec (zlen (br_data r) - br_pos r) SpiceCursor_FLAGS_SIZE) as [Hn|Hn].
  { apply Hnone. rewrite Hc. unfold cursor_at. by destruct (no_flags r Hr Hn) as (e & r' & ->). }
  pose proof (read_safe (T := SpiceCursor) r Hr) as Hsafe.
  change (read (T := SpiceCursor) r) with (SpiceCursorRef_read r) in Hsafe. unfold cursor_at in Hc.
  destruct (SpiceCursorRef_read r) as [[cursor|e|] r']; destruct Hsafe as (_ & _ & _ & Hwf); cbn [mbind option_bind] in Hc;
    [|by apply Hnone|done].
  pose proof Hwf as (_ & _ & Hh). destruct (SpiceCursor_header cursor) as [header|]; cbn [mbind option_bind] in Hc; [|by apply Hnone].
  fold (flagged_cached cursor) (flagged_cache cursor).
  destruct (flagged_cached cursor) eqn:E; [by apply (runs_show_cached header cursor)|].
  apply (runs_show_decoded header cursor); [done|apply Hh|done..].
Qed.

End Message.

(** ** Every kind of message *)

Section Kinds.
Context (h : list message) (payload : list Z) (b : ReceiveBuffer).
Context (Hb : bytes payload) (Hl : zlen payload <= isize_max).

Abbreviation msg ty := (ty, payload).
Abbreviation before ty := (during h (msg ty) [] (fun id => cached_image id h) (ack_window h) b).
Abbreviation after ty := (during h (msg ty) (reply h (msg ty))
  (fun id => cached_image id (msg ty :: h)) (ack_window (msg ty :: h)) b).

Lemma before_promised ty : promised (before ty).
Proof. apply during_promised, prefix_nil. Qed.

(** A message that carries no cursor and leaves the cache. *)
Lemma no_cursor ty id : carried (msg ty) = None -> forgets id (msg ty) = false ->
  shown h (msg ty) = None /\ cached_image id h = cached_image id ((msg ty) :: h).
Proof. intros Hc Hf. unfold shown. rewrite Hc. split; [done|by rewrite kept_none]. Qed.

Lemma runs_quiet ty (op : Cc unit) out : (forall id, forgets id (msg ty) = false) -> carried (msg ty) = None ->
  ack_window ((msg ty) :: h) = ack_window h -> map Ev_Emit (opt_list (placed (msg ty))) ++ answered (msg ty) = out ->
  runs (before ty) op (during h (msg ty) out (fun id => cached_image id h) (ack_window h) b) ->
  runs (before ty) op (after ty).
Proof.
  intros Hf Hc Hw Ho Hop. eapply runs_to; [exact Hop| |intros id; by apply no_cursor|done].
  destruct (no_cursor ty 0 Hc (Hf 0)) as [Hs _]. unfold reply. rewrite Hs. cbn [opt_list map app]. done.
Qed.

Lemma runs_placed_cursor ty pos r : placed (msg ty) = Some pos -> answered (msg ty) = [] ->
  ack_window ((msg ty) :: h) = ack_window h -> reader_ok r -> (forall id, forgets id (msg ty) = false) ->
  carried (msg ty) = (cursor ← cursor_at r; header ← SpiceCursor_header cursor; Some (header, cursor)) ->
  runs (before ty) (do? emit pos in parse_and_emit_cursor r) (after ty).
Proof.
  intros Hp Ha Hw Hr Hf Hc. eapply runs_to; [|reflexivity|done|done]. unfold reply. rewrite Hp, Ha, app_nil_r.
  eapply runs_bind; [apply runs_emit|]. intros ?. rewrite during_show. by apply runs_cursor.
Qed.

Lemma parsed_read {T} `{WireType T} v r : read (reader_new payload) = (Ok v, r) ->
  parsed (T := T) payload = Some v.
Proof. intros E. unfold parsed, decode. by rewrite E. Qed.

Lemma runs_init : runs (before cursor_server_INIT) (cursor_handle_init payload) (after cursor_server_INIT).
Proof.
  unfold cursor_handle_init. apply (runs_must_read _ _ Hb Hl (T := CursorInitHead)); [apply before_promised|].
  intros v r Er Hr. pose proof (parsed_read v r Er) as Ep. apply runs_placed_cursor; try done.
  - cbn. by rewrite Ep.
  - cbn. unfold parsed, decode. cbn [read CursorInit_wire]. unfold CursorInit_read, bind. rewrite Er.
    unfold cursor_at. cbn [read SpiceCursor_wire]. by destruct (SpiceCursorRef_read r) as [[c|e|] r'].
Qed.

Lemma runs_set : runs (before cursor_server_SET) (cursor_handle_set payload) (after cursor_server_SET).
Proof.
  unfold cursor_handle_set. apply (runs_must_read _ _ Hb Hl (T := CursorSetHead)); [apply before_promised|].
  intros v r Er Hr. pose proof (parsed_read v r Er) as Ep. apply runs_placed_cursor; try done.
  - cbn. by rewrite Ep.
  - cbn. unfold parsed, decode. cbn [read CursorSet_wire]. unfold CursorSet_read, bind. rewrite Er.
    unfold cursor_at. cbn [read SpiceCursor_wire]. by destruct (SpiceCursorRef_read r) as [[c|e|] r'].
Qed.

Lemma runs_show ty e : runs (before ty) (emit e) (during h (msg ty) [Ev_Emit e] (fun id => cached_image id h) (ack_window h) b).
Proof. rewrite <- (app_nil_l [Ev_Emit e]), <- during_show. apply runs_emit. Qed.

Lemma runs_move : runs (before cursor_server_MOVE) (cursor_handle_move payload) (after cursor_server_MOVE).
Proof.
  eapply runs_quiet; [done..|reflexivity|]. unfold cursor_handle_move.
  apply (runs_try_decode payload Hb Hl (T := CursorMove)).
  cbn. destruct (parsed payload) as [v|]; cbn; [apply runs_show|by intros s Hs].
Qed.

Lemma runs_hide : runs (before cursor_server_HIDE) (emit_position 0 0 false) (after cursor_server_HIDE).
Proof. eapply runs_quiet; [done..|reflexivity|]. apply runs_show. Qed.

(** A message that only changes the cache. *)
Lemma runs_forget ty f : carried (msg ty) = None -> ack_window ((msg ty) :: h) = ack_window h -> placed (msg ty) = None -> answered (msg ty) = [] ->
  (forall id c, f c !! id = if forgets id (msg ty) then None else c !! id) ->
  runs (before ty) (modify (cc_on_cache f)) (after ty).
Proof.
  intros Hc Hw Hp Ha Hf. eapply runs_to; [|reflexivity|done|done].
  unfold reply, shown. rewrite Hp, Ha, Hc. apply runs_cache. intros c Hcc id.
  rewrite Hf. cbn [cached_image]. unfold kept. rewrite Hc. cbn [mbind option_bind].
  destruct (forgets id (msg ty)); [done|apply Hcc].
Qed.

Lemma runs_clear ty : ty = cursor_server_RESET \/ ty = cursor_server_INVALIDATE_ALL ->
  runs (before ty) clear_cache (after ty).
Proof. intros [-> | ->]; apply runs_forget; try done; intros id c; apply lookup_empty. Qed.

Lemma runs_inval_one : runs (before cursor_server_INVALIDATE_ONE) (cursor_handle_inval_one payload) (after cursor_server_INVALIDATE_ONE).
Proof.
  unfold cursor_handle_inval_one. apply (runs_try_decode payload Hb Hl (T := CursorInvalOne)).
  destruct (parsed payload) as [v|] eqn:E.
  - apply runs_forget; try done. intros id c. cbn. rewrite E. cbn.
    destruct (decide (CursorInvalOne_id v = id)) as [<-|Hne].
    + by rewrite bool_decide_eq_true_2, lookup_delete_eq.
    + by rewrite bool_decide_eq_false_2, lookup_delete_ne by congruence.
  - eapply (runs_quiet _ _ []); try done; [|by intros s Hs]. intros id. cbn. rewrite E. done.
Qed.

Lemma runs_set_ack : runs (before cursor_server_SET_ACK) (cursor_handle_set_ack env payload) (after cursor_server_SET_ACK).
Proof.
  unfold cursor_handle_set_ack. apply (runs_must_decode _ _ Hb Hl (T := SetAck)); [apply before_promised|].
  intros v Ev. eapply runs_to; [|reflexivity|done|reflexivity]. cbn [ack_window].
  unfold reply, shown, placed, carried, answered. cbn. rewrite Ev. cbn.
  eapply runs_bind.
  { apply (runs_ack _ (SetAck_window v) ((since_ack h + 1) mod 2 ^ 32)). intros a []. by split. }
  intros ?. change (g_reack _ _ _) with
    (during h (msg cursor_server_SET_ACK) [] (fun id => cached_image id h) (SetAck_window v) b).
  rewrite <- (app_nil_l [Ev_Wrote _]), <- during_show. apply runs_send, during_promised, prefix_nil.
Qed.

Lemma runs_ping : runs (before cursor_server_PING) (cursor_handle_ping env payload) (after cursor_server_PING).
Proof.
  unfold cursor_handle_ping. eapply runs_bind; [by apply (runs_modify (cc_on_pings _))|]. intros ?.
  eapply runs_bind; [apply runs_ask|]. intros ts.
  eapply runs_bind; [by apply (runs_modify (cc_on_pings _))|]. intros ?.
  apply (runs_must_decode _ _ Hb Hl (T := Ping)); [apply before_promised|]. intros v Ev.
  eapply runs_to; [|reflexivity|done|reflexivity].
  unfold reply, shown, placed, carried, answered. cbn. rewrite Ev. cbn.
  eapply runs_bind; [|intros ?; by apply (runs_modify (cc_on_pings _))].
  rewrite <- (app_nil_l [Ev_Wrote _]), <- during_show. apply runs_send, before_promised.
Qed.

Lemma runs_notify : runs (before cursor_server_NOTIFY) (cursor_handle_notify payload) (after cursor_server_NOTIFY).
Proof.
  unfold cursor_handle_notify. apply (runs_must_decode _ _ Hb Hl (T := Notify)); [apply before_promised|].
  intros v Ev. eapply runs_quiet; [done..|reflexivity|]. cbn. rewrite Ev. apply runs_show.
Qed.

Lemma runs_handle ty : runs (before ty) (cursor_handle_message env ty payload) (after ty).
Proof.
  unfold cursor_handle_message. eapply runs_bind; [by apply (runs_modify (cc_on_totals _))|]. intros ?.
  destruct (Z.eqb_spec ty cursor_server_INIT) as [->|H1]; [apply runs_init|].
  destruct (Z.eqb_spec ty cursor_server_SET) as [->|H2]; [apply runs_set|].
  destruct (Z.eqb_spec ty cursor_server_MOVE) as [->|H3]; [apply runs_move|].
  destruct (Z.eqb_spec ty cursor_server_HIDE) as [->|H4]; [apply runs_hide|].
  destruct (Z.eqb_spec ty cursor_server_RESET) as [->|H5]; [apply runs_clear; by left|].
  destruct (Z.eqb_spec ty cursor_server_TRAIL) as [->|H6];
    [eapply runs_quiet; [done..|reflexivity|by intros s Hs]|].
  destruct (Z.eqb_spec ty cursor_server_INVALIDATE_ONE) as [->|H7]; [apply runs_inval_one|].
  destruct (Z.eqb_spec ty cursor_server_INVALIDATE_ALL) as [->|H8]; [apply runs_clear; by right|].
  destruct (Z.eqb_spec ty cursor_server_SET_ACK) as [->|H9]; [apply runs_set_ack|].
  destruct (Z.eqb_spec ty cursor_server_PING) as [->|H10]; [apply runs_ping|].
  destruct (Z.eqb_spec ty cursor_server_NOTIFY) as [->|H11]; [apply runs_notify|].
  apply Z.eqb_neq in H1, H2, H3, H4, H5, H7, H8, H9, H10, H11. eapply (runs_quiet _ _ []).
  - intros id. unfold forgets. by rewrite H5, H7, H8.
  - unfold carried. by rewrite H1, H2.
  - cbn [ack_window]. by rewrite H9.
  - unfold placed, answered. by rewrite H1, H2, H3, H4, H9, H10, H11.
  - by apply (runs_modify (cc_on_totals _)).
Qed.

(** The ack, when it is due. *)
Lemma ghost_due ty : ack_due (ack_window (msg ty :: h)) ((since_ack h + 1) mod 2 ^ 32) = true ->
  g_reack (ack_window (msg ty :: h)) 0 (g_show the_ack (after ty)) = ghost_of (msg ty :: h) b.
Proof.
  intros E. unfold ghost_of. cbn [since_ack cursor_log]. unfold ack_of. rewrite E.
  unfold g_show, g_reack, during. cbn [g_history g_visible g_cache g_window g_buffer fst snd].
  by rewrite <- app_assoc.
Qed.

Lemma ghost_not_due ty : ack_due (ack_window (msg ty :: h)) ((since_ack h + 1) mod 2 ^ 32) = false ->
  after ty = ghost_of (msg ty :: h) b.
Proof.
  intros E. unfold ghost_of. cbn [since_ack cursor_log]. unfold ack_of. rewrite E.
  unfold during. cbn [fst snd app]. by rewrite app_nil_r.
Qed.

Lemma runs_ack_if_needed ty : runs (after ty) (ack_if_needed env false) (ghost_of (msg ty :: h) b).
Proof.
  intros s Hs. unfold ack_if_needed. rewrite (bind_ok (gets _) _ _ _ _ eq_refl).
  pose proof (at_ack _ _ Hs) as []. cbn [during g_window g_since] in *. rewrite aa_window0.
  pose proof (ghost_due ty) as Hd. pose proof (ghost_not_due ty) as Hn. unfold ack_due in Hd, Hn.
  destruct (0 <? ack_window (msg ty :: h)); [|by rewrite <- Hn]. cbn [andb] in Hd, Hn.
  unfold unacked. cbn [andb]. rewrite (bind_ok (unwrap (Some _)) _ _ _ _ eq_refl), aa_since0.
  destruct (_ <=? _) eqn:E; cbn [when]; [|by rewrite <- Hn]. rewrite <- Hd by done.
  clear aa_window0 aa_since0. revert s Hs. unfold send_ack.
  eapply runs_bind; [apply runs_send|].
  - apply during_promised. by apply prefix_app_r.
  - intros ?. apply runs_ack. intros a' []. split; [done|]. cbn. by rewrite Z.sub_diag.
Qed.

(** The count, the message and the ack. *)
Lemma runs_one ty :
  runs (mkGhost (msg ty :: h) (cursor_log h ++ [Ev_Received ty payload]) (fun id => cached_image id h)
          (ack_window h) (since_ack h) b)
    (cursor_process_one env false ty payload) (ghost_of (msg ty :: h) b).
Proof.
  unfold cursor_process_one. intros s Hs. rewrite (bind_ok (gets _) _ _ _ _ eq_refl).
  unfold count_message. cbn [andb].
  rewrite (bind_ok (unwrap (Some _)) _ _ _ _ eq_refl), (bind_ok (modify _) _ _ _ _ eq_refl).
  match goal with |- context [cc_on_ack ?f s] => set (s1 := cc_on_ack f s) end.
  assert (channel_at (before ty) s1) as Hs1.
  { destruct Hs as [? ? ? [] ?]. split; try done. split; [done|].
    cbn [s1 cc_on_ack cc_ack ca_message_count ca_last_ack] in *. cbn [during g_since] in *.
    rewrite <- aa_since0. unfold as_unsigned. rewrite Zminus_mod_idemp_l, Zplus_mod_idemp_l. f_equal. lia. }
  clearbody s1. revert s1 Hs1. eapply runs_bind; [apply runs_handle|]. intros ?. apply runs_ack_if_needed.
Qed.

End Kinds.

(** * The channel *)

Lemma heard_at h b ty payload s : channel_at (ghost_of h b) s ->
  channel_at (mkGhost ((ty, payload) :: h) (cursor_log h ++ [Ev_Received ty payload])
    (fun id => cached_image id h) (ack_window h) (since_ack h) b) (heard ty payload s).
Proof.
  intros []. split; try done; cbn [heard ch_on_log CursorChannel_state cc_on_log cc_log ghost_of g_history g_visible] in *.
  - by rewrite history_snoc, at_history0.
  - by rewrite visible_snoc, at_visible0.
Qed.

Lemma kept_promise_stopped ms s : kept_promise ms s -> stopped s.
Proof. intros Hs. unfold stopped. by rewrite (at_visible _ _ Hs), (at_history _ _ Hs). Qed.

(** A change that no part of the promise but the buffer reads. *)
Lemma kept_promise_unpromised f ms s : (forall s, cc_log (f s) = cc_log s /\
    cc_cursor_cache (f s) = cc_cursor_cache s /\ cc_ack (f s) = cc_ack s) ->
  kept_promise ms s -> kept_promise ms (f s).
Proof.
  intros Hf []. destruct (Hf s) as (El & Ec & Ea). unfold kept_promise.
  split; rewrite ?El, ?Ec, ?Ea; done.
Qed.

Lemma runs_message ms b ty payload : bytes payload -> zlen payload <= isize_max ->
  triple (fun s => exists s0, kept_promise ms s0 /\ ch_buffer s0 = b /\ s = heard ty payload s0)
    (cursor_process_one env false ty payload)
    (fun _ s => kept_promise (ms ++ [(ty, payload)]) s /\ ch_buffer s = b) stopped.
Proof.
  intros Hb Hl s (s0 & Hs & <- & ->). apply (heard_at _ _ ty payload) in Hs.
  pose proof (runs_one _ payload _ Hb Hl ty _ Hs) as H.
  destruct (cursor_process_one _ _ _ _ _) as [[[]|e|] s']; [|done|done].
  pose proof (at_buffer _ _ H) as E. split; [|exact E]. unfold kept_promise. by rewrite rev_app_distr, E.
Qed.

Lemma runs_read ms w chunk : bytes chunk ->
  triple (waits kept_promise ms w) (take_read env (cursor_process_one env false) chunk)
    (fun _ => delivered kept_promise ms (w ++ chunk)) stopped.
Proof.
  intros Hb. apply triple_deliver; try done.
  - intros ms' f s. by apply kept_promise_unpromised.
  - intros ms' f s. by apply kept_promise_unpromised.
  - intros ms' s. by apply kept_promise_unpromised.
  - apply kept_promise_stopped.
  - intros ms' b ty payload _. apply runs_message.
Qed.

End Operations.
