(* ===== verification/CursorProps.v ===== *)
(** The theorems of the cursor channel.

    [cursor_follows_server]: whatever bytes the server sends, however the
    reads cut them, the frontends are told and the server is answered exactly
    what [CursorSpec.cursor_log] says of the messages in them, in order, and
    the cache holds what [cached_image] says.  [cursor_acks_paced]: between
    two messages the server never waits for an ack it is owed. *)
From Stdlib Require Import ZArith Lia.
From stdpp Require Import base numbers list gmap tactics.
From S2P Require Import Prelude Reader Utf8 Wire MsgCommon ReceiveBuffer MsgCursor LinkMess OpcodeCounters Channel ChannelSpec CursorPixels Cursor CursorSpec.

Open Scope Z_scope.
Open Scope rust_scope.

(** * The bytes read *)

(** The bytes read before the stream ended, and whether it did. *)
Fixpoint bytes_read (reads : list (option (list Z))) : list Z :=
  match reads with
  | Some (b :: chunk) :: reads => (b :: chunk) ++ bytes_read reads
  | _ => []
  end.

Fixpoint closed (reads : list (option (list Z))) : bool :=
  match reads with
  | Some [] :: _ => true
  | Some _ :: reads => closed reads
  | _ => false
  end.

Definition goodbye (reads : list (option (list Z))) : list Event :=
  if closed reads then [Ev_Emit (CE_Disconnected Ch_Cursor ServerClosed)] else [].

Definition reads_bytes (reads : list (option (list Z))) : Prop :=
  Forall (fun r => match r with Some chunk => bytes chunk | None => True end) reads.

(** The messages framed in a stream. *)
Definition messages_of (raws : list (list Z)) : list message := map message_of raws.

(** A channel that has kept the promise about the bytes [bs]. *)
Definition follows (bs : list Z) (bye : list Event) (s : CursorChannel) : Prop :=
  exists raws, framed MAX_MESSAGE_BODY bs raws false (waiting (cc_buffer s)) /\
    history (cc_log s) = rev (messages_of raws) /\
    visible (cc_log s) = cursor_log (rev (messages_of raws)) ++ bye /\
    (forall id, cc_cursor_cache s !! id = cached_image id (rev (messages_of raws))) /\
    ca_ack_window (cc_ack s) = ack_window (rev (messages_of raws)).

(** What the loop keeps: [bs] were read, framed as [raws]. *)
Definition read_so_far (bs : list Z) (raws : list (list Z)) (s : CursorChannel) : Prop :=
  rb_ok (cc_buffer s) /\ kept_promise (messages_of raws) s /\
  framed MAX_MESSAGE_BODY bs raws false (waiting (cc_buffer s)).

Lemma new_read_so_far : read_so_far [] [] CursorChannel_new.
Proof.
  split; [|split; [|by apply framed_more]].
  - by split; [cbn|constructor].
  - by split.
Qed.

Lemma read_more env bs raws chunk : bytes bs -> bytes chunk ->
  triple (read_so_far bs raws) (take_read env (cursor_process_one env false) chunk)
    (fun _ s => exists raws', read_so_far (bs ++ chunk) (raws ++ raws') s) stopped.
Proof.
  intros Hbs Hb s (Hok & Hs & Hf).
  pose proof (runs_read env (messages_of raws) (waiting (cc_buffer s)) chunk Hb s
    ltac:(split; [done|split; [done|reflexivity]])) as Hd.
  destruct (take_read _ _ _ _) as [[[]|e|] s']; [|done|done].
  destruct Hd as (Hok' & raws' & Hs' & Hf'). exists raws'. split; [done|]. split.
  - unfold messages_of. by rewrite map_app.
  - by eapply framed_app.
Qed.

Lemma follows_loop env reads : forall bs raws, bytes bs -> reads_bytes reads ->
  triple (read_so_far bs raws) (cursor_run_loop env false reads)
    (fun _ => follows (bs ++ bytes_read reads) (goodbye reads)) stopped.
Proof.
  induction reads as [|[[|b chunk]|] reads IH]; intros bs raws Hbs Hr.
  - intros s (_ & Hs & Hf). exists raws. rewrite app_nil_r. destruct Hs as [Hh Hv Hc [Ha _] _].
    unfold goodbye. cbn [closed]. rewrite app_nil_r. done.
  - intros s (_ & [Hh Hv Hc [Ha _] _] & Hf). exists raws. cbn [bytes_read cursor_run_loop]. rewrite app_nil_r.
    split; [done|]. unfold goodbye. cbn [closed].
    change (visible _) with (visible (cc_log s ++ [Ev_Emit (CE_Disconnected Ch_Cursor ServerClosed)])).
    change (history _) with (history (cc_log s ++ [Ev_Emit (CE_Disconnected Ch_Cursor ServerClosed)])).
    rewrite history_snoc, visible_snoc, Hv, Hh. done.
  - inversion Hr as [|? ? Hb Hr']; subst. cbn [cursor_run_loop bytes_read].
    intros s Hs. pose proof (read_more env bs raws _ Hbs Hb s Hs) as Hm. unfold bind.
    destruct (take_read _ _ _ s) as [[[]|e|] s']; [|done|done]. destruct Hm as [raws' Hm].
    specialize (IH (bs ++ b :: chunk) _ ltac:(by apply list.Forall_app) Hr' s' Hm).
    change (goodbye (Some (b :: chunk) :: reads)) with (goodbye reads).
    rewrite app_assoc. exact IH.
  - intros s (_ & Hs & _). cbn. by eapply kept_promise_stopped.
Qed.

(** * Acks *)

Definition is_ack (data : list Z) : bool := from_le (take 2 data) =? cursor_client_ACK.

(** The messages received since the last ack that was written. *)
Definition await_step (n : Z) (e : Event) : Z :=
  match e with
  | Ev_Received _ _ => n + 1
  | Ev_Wrote data => if is_ack data then 0 else n
  | _ => n
  end.

Definition awaiting (log : list Event) : Z := foldl await_step 0 log.

(** Every ack in the log was due: the server had set a window, and had not
    been acked for as many messages. *)
Definition acked_when_due (log : list Event) : Prop :=
  forall l data rest, log = l ++ Ev_Wrote data :: rest -> is_ack data = true ->
  0 < ack_window (history l) <= awaiting l.

Lemma awaiting_app l l' : awaiting (l ++ l') = foldl await_step (awaiting l) l'.
Proof. apply foldl_app. Qed.

Lemma visible_app l l' : visible (l ++ l') = visible l ++ visible l'.
Proof. apply List.filter_app. Qed.

Lemma history_app l l' : history (l ++ l') = history l' ++ history l.
Proof. unfold history. by rewrite omap_app, rev_app_distr. Qed.

Lemma awaiting_visible log : awaiting (visible log) = awaiting log.
Proof.
  induction log as [|e log IH] using rev_ind; [done|].
  rewrite visible_snoc, !awaiting_app, IH. by destruct e.
Qed.

Lemma history_visible log : history (visible log) = history log.
Proof.
  induction log as [|e log IH] using rev_ind; [done|].
  rewrite visible_snoc, history_app, history_snoc, IH. by destruct e.
Qed.

(** Events that are no message and no ack. *)
Definition idle_event (e : Event) : bool :=
  match e with Ev_Received _ _ => false | Ev_Wrote data => negb (is_ack data) | _ => true end.

Lemma reply_idle h m : forallb idle_event (reply h m) = true.
Proof.
  unfold reply. rewrite !forallb_app. destruct (placed m), (shown h m); cbn;
    destruct m as [ty payload]; unfold answered;
    repeat (destruct (ty =? _); [by destruct (parsed payload)|]); done.
Qed.

Lemma idle_events n log l : forallb idle_event l = true ->
  foldl await_step n l = n /\ history (log ++ l) = history log.
Proof.
  revert n log. induction l as [|e l IH]; intros n log H; [by rewrite app_nil_r|].
  cbn in H. apply andb_true_iff in H as [He H]. destruct (IH (await_step n e) (log ++ [e]) H) as [E1 E2].
  rewrite cons_middle, app_assoc, E2, history_snoc. cbn [foldl]. rewrite E1.
  destruct e; try done. cbn in *. by destruct (is_ack data).
Qed.

Lemma due_ack_window h m n : ack_due (ack_window (m :: h)) n = true -> 0 < ack_window (m :: h) <= n.
Proof. unfold ack_due. lia. Qed.

(** The log of a history, as its acks go. *)
Lemma log_awaiting h : zlen h < 2 ^ 32 ->
  history (cursor_log h) = h /\ awaiting (cursor_log h) = since_ack h /\ 0 <= since_ack h <= zlen h.
Proof.
  induction h as [|m h IH]; intros Hl; [done|]. rewrite zlen_cons in *.
  destruct (IH ltac:(lia)) as (Hh & Ha & Hs). cbn [cursor_log since_ack]. unfold ack_of.
  set (w := ack_window (m :: h)) in *. rewrite (Z.mod_small (since_ack h + 1)) by lia.
  set (log := cursor_log h) in *. destruct (idle_events (since_ack h + 1) (log ++ [Ev_Received (fst m) (snd m)]) _ (reply_idle h m)) as [E1 E2].
  rewrite !(app_assoc log), (app_assoc (log ++ _)), history_app, awaiting_app, E2, history_snoc, Hh.
  rewrite (awaiting_app (log ++ _)), awaiting_app, Ha. cbn [foldl await_step]. rewrite E1.
  destruct m as [ty payload]. destruct (ack_due w (since_ack h + 1)); cbn; split_and!; try done; lia.
Qed.

Lemma last_or_nil {A} (l : list A) : l = [] \/ exists l' a, l = l' ++ [a].
Proof. destruct l as [|a l _] using rev_ind; eauto. Qed.

Lemma due_snoc log e : acked_when_due log ->
  (forall data, e = Ev_Wrote data -> is_ack data = true -> 0 < ack_window (history log) <= awaiting log) ->
  acked_when_due (log ++ [e]).
Proof.
  intros Hlog He l data rest E Hd. destruct (last_or_nil rest) as [->|(rest' & e' & ->)].
  - apply app_inj_tail in E as [<- ->]. by apply (He data).
  - rewrite app_comm_cons, app_assoc in E. apply app_inj_tail in E as [E _]. by eapply Hlog.
Qed.

Lemma due_idle log l : acked_when_due log -> forallb (fun e => idle_event e || bool_decide (is_Some (as_received e))) l = true ->
  acked_when_due (log ++ l).
Proof.
  revert log. induction l as [|e l IH]; intros log Hlog H; [by rewrite app_nil_r|].
  cbn in H. apply andb_true_iff in H as [He H]. rewrite cons_middle, app_assoc. apply IH; [|done].
  apply due_snoc; [done|]. intros data -> Hd. cbn in He. by rewrite Hd in He.
Qed.

Lemma log_due h : zlen h < 2 ^ 32 -> acked_when_due (cursor_log h).
Proof.
  induction h as [|m h IH]; intros Hl; [by intros [|] data rest E|]. rewrite zlen_cons in *.
  pose proof (zlen_nonneg h). destruct (log_awaiting h ltac:(lia)) as (Hh & Ha & Hs).
  specialize (IH ltac:(lia)). cbn [cursor_log]. unfold ack_of. rewrite Z.mod_small by lia.
  rewrite app_assoc, (app_assoc (_ ++ _)).
  set (log := (cursor_log h ++ [_]) ++ _).
  assert (acked_when_due log) as Hlog.
  { apply due_idle; [by apply due_idle|]. pose proof (reply_idle h m) as Hr. rewrite forallb_forall in Hr |- *.
    intros e He. by rewrite (Hr e He). }
  destruct (ack_due _ _) eqn:E; [|by rewrite app_nil_r]. apply due_snoc; [done|]. intros _ _ _.
  apply due_ack_window in E.
  destruct (idle_events (since_ack h + 1) (cursor_log h ++ [Ev_Received (fst m) (snd m)]) _ (reply_idle h m)) as [E1 E2].
  unfold log. rewrite E2, history_snoc, Hh, !awaiting_app, Ha. cbn [foldl await_step]. rewrite E1.
  by destruct m.
Qed.

(** A log with more than the visible events in it. *)
Lemma due_visible log : acked_when_due (visible log) -> acked_when_due log.
Proof.
  intros H l data rest -> Hd. rewrite visible_app in H. cbn in H.
  rewrite <- history_visible, <- awaiting_visible. by eapply H.
Qed.

(** C13: Whatever bytes the server sends and however the reads cut them, the
    cursor channel of a release build never panics, and while it runs what it
    tells the frontends and writes to the server is, message by message,
    exactly what the framed messages ask for: the positions, the shapes
    decoded or looked up among those the server asked to be kept and has not
    had dropped since, the answers, and an ack whenever one is due; its cache
    holds just those shapes, and the end of the stream is reported once.  When
    a message it must refuse or a failed read or write ends it, what it told
    and wrote before is the beginning of the same. *)
Theorem cursor_follows_server env reads : reads_bytes reads ->
  let (r, s) := cursor_run_loop env false reads CursorChannel_new in
  match r with
  | Ok _ => follows (bytes_read reads) (goodbye reads) s
  | Err _ => stopped s
  | Panic => False
  end.
Proof.
  intros Hr. by apply (follows_loop env reads [] []); [constructor| |apply new_read_so_far].
Qed.

Definition sample_env : Env :=
  mkEnv (fun n => Z.of_nat n) (fun n => Z.of_nat n) (fun _ => true) None (fun _ => Clip_Completed) (fun _ => 0).

(** Keep a one pixel cursor as 5, show it from the cache elsewhere, ask for an
    ack of every other message, forget it, ask for it again; the stream is cut
    in the middle of the second message and ends. *)
Definition sample_set (x flags : Z) (data : list Z) : list Z :=
  make_message cursor_server_SET
    (encode (mkCursorSet (mkCursorSetHead x 4 1)
      (mkSpiceCursor flags (Some (mkCursorHeader 5 cursor_type_ALPHA 1 1 0 0)) data))).

Definition cursor_stream : list Z :=
  sample_set 3 cursor_flags_CACHE_ME [10; 20; 30; 255] ++ sample_set (-1) cursor_flags_FROM_CACHE [] ++
  make_message cursor_server_SET_ACK (encode (mkSetAck 9 2)) ++
  make_message cursor_server_INVALIDATE_ONE (encode (mkCursorInvalOne 5)) ++
  sample_set 7 cursor_flags_FROM_CACHE [].

Definition sample_reads : list (option (list Z)) :=
  [Some (take 50 cursor_stream); Some (drop 50 cursor_stream); Some []].

Definition sample_image : CursorImage := mkCursorImage 1 1 0 0 [30; 20; 10; 255].

Lemma cursor_follows_server_witness :
  let s := snd (cursor_run_loop sample_env false sample_reads CursorChannel_new) in
  reads_bytes sample_reads /\
  fst (cursor_run_loop sample_env false sample_reads CursorChannel_new) = Ok tt /\
  List.filter (fun e => match e with Ev_Emit _ | Ev_Wrote _ => true | _ => false end) (cc_log s) =
    [Ev_Emit (CE_CursorPosition 3 4 true); Ev_Emit (CE_CursorShape sample_image);
     Ev_Emit (CE_CursorPosition 65535 4 true); Ev_Emit (CE_CursorShape sample_image);
     Ev_Wrote (make_message cursor_client_ACK_SYNC [9; 0; 0; 0]); the_ack;
     Ev_Emit (CE_CursorPosition 7 4 true); the_ack; Ev_Emit (CE_Disconnected Ch_Cursor ServerClosed)] /\
  follows (bytes_read sample_reads) (goodbye sample_reads) s.
Proof.
  assert (reads_bytes sample_reads) as Hr.
  { repeat constructor; vm_compute; discriminate. }
  split_and!; [done|vm_compute; reflexivity|vm_compute; reflexivity|].
  pose proof (cursor_follows_server sample_env sample_reads Hr) as H.
  assert (fst (cursor_run_loop sample_env false sample_reads CursorChannel_new) = Ok tt) as E
    by (vm_compute; reflexivity).
  destruct (cursor_run_loop sample_env false sample_reads CursorChannel_new) as [r s]. cbn [fst snd] in *.
  by rewrite E in H.
Defined.

(** C15: The acks of the cursor channel are paced as the server asks: while
    the channel runs, and for as long as its count of messages does not wrap,
    no ack is written before the server has set a window and sent as many
    messages since the last one, and the server is never left waiting: between
    two reads it has sent fewer messages since then than the window it set. *)
Theorem cursor_acks_paced env reads s : reads_bytes reads ->
  cursor_run_loop env false reads CursorChannel_new = (Ok tt, s) ->
  zlen (history (cc_log s)) < 2 ^ 32 ->
  acked_when_due (cc_log s) /\
  (0 < ca_ack_window (cc_ack s) -> awaiting (cc_log s) < ca_ack_window (cc_ack s)).
Proof.
  intros Hr E Hl. pose proof (follows_loop env reads [] [] ltac:(constructor) Hr _ new_read_so_far) as H.
  rewrite E in H. destruct H as (raws & _ & Hh & Hv & _ & Hw). rewrite Hh in Hl.
  set (h := rev (messages_of raws)) in *. destruct (log_awaiting h Hl) as (Hh' & Ha & _).
  assert (forallb idle_event (goodbye reads) = true) as Hbye by by unfold goodbye; destruct (closed reads).
  split.
  - apply due_visible. rewrite Hv. apply due_idle; [by apply log_due|].
    rewrite forallb_forall in Hbye |- *. intros e He. by rewrite (Hbye e He).
  - rewrite Hw, <- awaiting_visible, Hv, awaiting_app, Ha.
    rewrite (proj1 (idle_events _ [] _ Hbye)). intros Hpos. destruct h as [|m h']; [done|]. cbn [since_ack].
    unfold ack_due. destruct (Z.ltb_spec 0 (ack_window (m :: h'))); [|lia]. cbn [andb].
    destruct (Z.leb_spec (ack_window (m :: h')) ((since_ack h' + 1) mod 2 ^ 32)); lia.
Qed.

Lemma cursor_acks_paced_witness :
  let s := snd (cursor_run_loop sample_env false sample_reads CursorChannel_new) in
  zlen (history (cc_log s)) = 5 /\ ca_ack_window (cc_ack s) = 2 /\ awaiting (cc_log s) = 0 /\
  acked_when_due (cc_log s) /\
  (0 < ca_ack_window (cc_ack s) -> awaiting (cc_log s) < ca_ack_window (cc_ack s)).
Proof.
  assert (reads_bytes sample_reads) as Hr.
  { repeat constructor; vm_compute; discriminate. }
  split; [vm_compute; reflexivity|]. split; [vm_compute; reflexivity|]. split; [vm_compute; reflexivity|].
  apply (cursor_acks_paced sample_env sample_reads); [exact Hr|vm_compute; reflexivity|vm_compute; reflexivity].
Defined.
