(* ===== verification/GlzDict.v ===== *)
(** The GLZ image dictionary: [GlzDictionary] of
    [shakenfist-spice-compression/src/glz.rs].

    The dictionary is shared by the display channels: its images and its
    tombstones sit behind two locks, and [insert] takes them one after the
    other.  [gd_insert] is the insert with nothing in between; its steps are
    definitions of their own, so that an interleaving of two inserts is a
    sequence of them.  [notify_waiters] is a count of its calls.  The logging
    itself is not modelled, only the flag that decides its level. *)
From Stdlib Require Import ZArith Lia.
From stdpp Require Import base numbers list sorting tactics.
From S2P Require Import Prelude Lru.

Open Scope Z_scope.
Open Scope rust_scope.

Definition EVICTED_ID_TOMBSTONES : Z := 4096.
Definition DEFAULT_GLZ_DICT_CAP_BYTES : Z := 256 * 1024 * 1024.

(** * The dictionary *)

Section Dictionary.
Context `{LruCache (list Z)} `{LruCache unit}.
Context (debug_assertions : bool).

Record GlzDictionary : Type := mkGlzDictionary {
  gd_images : ByteBoundedLru;
  gd_notified : Z;
  gd_evicted_ids : lru (V := unit);
  gd_first_eviction_logged : bool
}.

Definition gd_with_cap (cap_bytes : Z) : option GlzDictionary :=
  images ← bb_new cap_bytes;
  Some (mkGlzDictionary images 0 (lru_new EVICTED_ID_TOMBSTONES) false).

Definition gd_new : option GlzDictionary := gd_with_cap DEFAULT_GLZ_DICT_CAP_BYTES.

Definition set_images (self : GlzDictionary) (images : ByteBoundedLru) : GlzDictionary :=
  mkGlzDictionary images (gd_notified self) (gd_evicted_ids self) (gd_first_eviction_logged self).

(** ** Inserting, lock by lock *)

(** Under the lock on the images; [None] is a panic. *)
Definition insert_images (self : GlzDictionary) (image_id : Z) (pixels : list Z)
    : option (GlzDictionary * InsertOutcome * list Z) :=
  r ← bb_insert_recording_evicted debug_assertions (gd_images self) image_id pixels;
  let '(images, outcome, evicted_keys) := r in
  Some (set_images self images, outcome, evicted_keys).

(** Under the lock on the tombstones. *)
Definition insert_tombstones (self : GlzDictionary) (image_id : Z) (evicted_keys : list Z)
    : GlzDictionary :=
  let tombstones := foldl (fun tombstones id => fst (lru_put tombstones id tt))
                      (gd_evicted_ids self) evicted_keys in
  let tombstones := fst (lru_pop tombstones image_id) in
  mkGlzDictionary (gd_images self) (gd_notified self) tombstones (gd_first_eviction_logged self).

(** The log level, then the wake-up. *)
Definition insert_notify (self : GlzDictionary) (outcome : InsertOutcome) : GlzDictionary :=
  let logged := match outcome with
                | InsertedAfterEviction _ _ => true
                | _ => gd_first_eviction_logged self
                end in
  mkGlzDictionary (gd_images self) (gd_notified self + 1) (gd_evicted_ids self) logged.

Definition gd_insert (self : GlzDictionary) (image_id : Z) (pixels : list Z)
    : option GlzDictionary :=
  r ← insert_images self image_id pixels;
  let '(self, outcome, evicted_keys) := r in
  Some (insert_notify (insert_tombstones self image_id evicted_keys) outcome).

(** ** The other operations *)

Definition gd_was_evicted (self : GlzDictionary) (image_id : Z) : bool :=
  bool_decide (is_Some (assoc image_id (lru_iter (gd_evicted_ids self)))).

(** [dictionary.images.lock().get(&id).cloned()] *)
Definition gd_get (self : GlzDictionary) (image_id : Z) : GlzDictionary * option (list Z) :=
  let (images, pixels) := bb_get (gd_images self) image_id in
  (set_images self images, pixels).

Definition gd_remove (self : GlzDictionary) (image_id : Z) : GlzDictionary * bool :=
  let (images, removed) := bb_remove (gd_images self) image_id in
  (set_images self images, removed).

Definition gd_evict_older_than (self : GlzDictionary) (oldest_valid : Z) : GlzDictionary * Z :=
  let (images, removed) := bb_retain_keys (gd_images self) (fun id => oldest_valid <=? id) in
  (set_images self images, removed).

Definition gd_clear (self : GlzDictionary) : GlzDictionary :=
  set_images self (bb_clear (gd_images self)).

Definition gd_len (self : GlzDictionary) : Z := bb_len (gd_images self).
Definition gd_is_empty (self : GlzDictionary) : bool := bb_len (gd_images self) =? 0.
Definition gd_total_bytes (self : GlzDictionary) : Z := bb_bytes (gd_images self).
Definition gd_cap_bytes (self : GlzDictionary) : Z := bb_cap_bytes (gd_images self).
Definition gd_evictions_total (self : GlzDictionary) : Z := bb_evictions_total (gd_images self).
Definition gd_evicted_bytes_total (self : GlzDictionary) : Z :=
  bb_evicted_bytes_total (gd_images self).

Definition gd_image_ids (self : GlzDictionary) : list Z :=
  merge_sort Z.le (map fst (lru_iter (bb_inner (gd_images self)))).
End Dictionary.

(** * Tombstones, as a list of ids in use order *)

(** The most recent [EVICTED_ID_TOMBSTONES] ids are kept. *)
Definition remember (ids : list Z) (keys : list Z) : list Z :=
  foldl (fun ids k => take (Z.to_nat EVICTED_ID_TOMBSTONES) (k :: filter (fun k' => k' <> k) ids))
    ids keys.

Definition forget (id : Z) (ids : list Z) : list Z := filter (fun k => k <> id) ids.

Lemma elem_of_forget id k ids : k ∈ forget id ids <-> k <> id /\ k ∈ ids.
Proof. unfold forget. by rewrite list_elem_of_filter. Qed.

Lemma elem_of_remember k keys : forall ids, k ∈ remember ids keys -> k ∈ keys \/ k ∈ ids.
Proof.
  induction keys as [|k' keys IH]; intros ids; [by right|]. cbn [remember foldl].
  intros [Hk|Hk]%IH; [left; by right|]. apply elem_of_take in Hk as (i & Hi & _).
  apply list_elem_of_lookup_2 in Hi. apply elem_of_cons in Hi as [->|Hi]; [left; by left|].
  apply list_elem_of_filter in Hi as [_ ?]. by right.
Qed.

(** What [remember] preserves. *)
Definition few_ids (ids : list Z) : Prop := NoDup ids /\ zlen ids <= EVICTED_ID_TOMBSTONES.

Lemma remember_few keys : forall ids, few_ids ids -> few_ids (remember ids keys).
Proof.
  induction keys as [|k keys IH]; intros ids [Hnd Hl]; [done|]. cbn [remember foldl].
  apply IH. split.
  - apply (sublist_NoDup _ (k :: filter (fun k' => k' <> k) ids)); [|apply sublist_take].
    apply list.NoDup_cons. split; [|by apply list.NoDup_filter].
    intros [? _]%list_elem_of_filter. done.
  - rewrite zlen_take. unfold EVICTED_ID_TOMBSTONES. lia.
Qed.

Lemma forget_few id ids : few_ids ids -> few_ids (forget id ids).
Proof.
  intros [Hnd Hl]. split; [by apply list.NoDup_filter|].
  unfold zlen, forget in *. pose proof (length_filter (fun k => k <> id) ids). lia.
Qed.

(** * The invariant *)

Section Proofs.
Context `{HL : LruLaws (list Z)} `{HU : LruLaws unit}.
Context (dbg : bool).

Definition live (self : GlzDictionary) : list Z := map fst (entries (gd_images self)).
Definition tombs (self : GlzDictionary) : list Z := map fst (lru_iter (gd_evicted_ids self)).

Record gd_ok (self : GlzDictionary) : Prop := {
  gk_images : bb_ok (gd_images self);
  gk_capped : lru_cap (gd_evicted_ids self) = Some EVICTED_ID_TOMBSTONES;
  gk_few : few_ids (tombs self);
  gk_disjoint : forall id, id ∈ live self -> id ∉ tombs self
}.

Lemma was_evicted_spec self id : gd_was_evicted self id = true <-> id ∈ tombs self.
Proof.
  unfold gd_was_evicted, tombs. rewrite bool_decide_eq_true.
  pose proof (assoc_None id (lru_iter (gd_evicted_ids self))) as Ha.
  destruct (assoc id _) as [u|]; split; try done.
  - intros _. destruct (decide (id ∈ map fst (lru_iter (gd_evicted_ids self)))) as [|Hn]; [done|].
    by apply Ha in Hn.
  - intros Hin. by destruct (proj1 Ha eq_refl).
Qed.

(** The tombstone half of an insert. *)
Lemma insert_tombstones_eq self id keys :
  lru_cap (gd_evicted_ids self) = Some EVICTED_ID_TOMBSTONES ->
  let self' := insert_tombstones self id keys in
  tombs self' = forget id (remember (tombs self) keys) /\
  lru_cap (gd_evicted_ids self') = Some EVICTED_ID_TOMBSTONES /\
  gd_images self' = gd_images self.
Proof.
  intros Hcap. cbv zeta. unfold insert_tombstones, tombs. cbn [gd_evicted_ids gd_images].
  rewrite iter_pop, cap_pop, without_keys. unfold forget.
  assert (forall ks c, lru_cap c = Some EVICTED_ID_TOMBSTONES ->
    let c' := foldl (fun t i => fst (lru_put t i tt)) c ks in
    map fst (lru_iter c') = remember (map fst (lru_iter c)) ks /\
    lru_cap c' = Some EVICTED_ID_TOMBSTONES) as Hput.
  { induction ks as [|k ks IH]; intros c Hc; [done|]. cbn [foldl remember].
    destruct (IH (fst (lru_put c k tt))) as [E1 E2]; [by rewrite cap_put|].
    split; [|done]. rewrite E1, iter_put, Hc. cbn [fit_cap]. unfold remember.
    rewrite <- (firstn_map fst). cbn [map fst]. by rewrite without_keys. }
  destruct (Hput keys _ Hcap) as [E1 E2]. cbv zeta in *. by rewrite E1, E2.
Qed.

(** ** Inserting *)

(** The images and tombstones after an insert. *)
Record gd_inserted (self self' : GlzDictionary) (id : Z) (pixels : list Z)
    (kept gone : list (Z * list Z)) : Prop := {
  gi_split : without id (entries (gd_images self)) = kept ++ gone;
  gi_entries : entries (gd_images self') = (id, pixels) :: kept;
  gi_tombs : tombs self' = forget id (remember (tombs self) (map fst (reverse gone)))
}.

Lemma gd_insert_refused self id pixels : gd_ok self -> gd_cap_bytes self < zlen pixels ->
  exists self', gd_insert dbg self id pixels = Some self' /\ gd_ok self' /\
    gd_images self' = gd_images self /\ tombs self' = forget id (tombs self).
Proof.
  intros [Hi Hc Hf Hd] Hl. unfold gd_insert, insert_images.
  rewrite insert_refused by done. cbn [mbind option_bind].
  destruct (insert_tombstones_eq (set_images self (gd_images self)) id [] Hc) as (E1 & E2 & E3).
  eexists. split; [done|].
  assert (tombs (insert_tombstones (set_images self (gd_images self)) id []) =
    forget id (tombs self)) as Et by exact E1.
  split_and!; [|done|done]. split; [done|done| |].
  - change (few_ids (tombs (insert_tombstones (set_images self (gd_images self)) id []))).
    rewrite Et. by apply forget_few.
  - intros k Hk Ht. change (k ∈ tombs (insert_tombstones (set_images self (gd_images self)) id [])) in Ht.
    rewrite Et in Ht. apply elem_of_forget in Ht as [_ Ht]. by apply (Hd k).
Qed.

Lemma gd_insert_accepted self id pixels : gd_ok self ->
  counters_room (gd_images self) (zlen pixels) -> zlen pixels <= gd_cap_bytes self ->
  exists self' kept gone, gd_insert dbg self id pixels = Some self' /\ gd_ok self' /\
    gd_inserted self self' id pixels kept gone /\
    exists outcome keys, inserted_to (gd_images self) (gd_images self') id pixels outcome keys kept gone.
Proof.
  intros [Hi Hc Hf Hd] Hroom Hl. unfold gd_insert, insert_images.
  destruct (insert_accepted dbg (gd_images self) id pixels Hi Hroom Hl)
    as (images & outcome & keys & kept & gone & -> & Hok & Hto).
  cbn [mbind option_bind]. pose proof Hto as [Hs He _ Hk _ _ _ _]. injection Hs as Hs.
  destruct (insert_tombstones_eq (set_images self images) id keys Hc) as (E1 & E2 & E3).
  set (self' := insert_tombstones (set_images self images) id keys) in *.
  change (tombs (set_images self images)) with (tombs self) in E1.
  change (gd_images self' = images) in E3.
  exists (insert_notify self' outcome), kept, gone. split; [done|]. clearbody self'.
  assert (NoDup (map fst (without id (entries (gd_images self))))) as Hnd
    by by apply without_NoDup, ok_nodup.
  rewrite Hs, map_app in Hnd. apply list.NoDup_app in Hnd as (_ & Hnd & _).
  split_and!; [|split; cbn; rewrite ?E3; try done; by rewrite <- Hk| by rewrite <- E3 in Hto; eauto].
  split; cbn; [by rewrite E3|done|change (few_ids (tombs self')); rewrite E1; by apply forget_few, remember_few|].
  intros k Hkl Hkt. change (k ∈ tombs self') in Hkt. unfold live in Hkl. cbn in Hkl.
  rewrite E3, He in Hkl. cbn in Hkl.
  rewrite E1 in Hkt. apply elem_of_forget in Hkt as [Hne Hkt].
  apply elem_of_cons in Hkl as [|Hkl]; [done|].
  apply elem_of_remember in Hkt as [Hkt|Hkt].
  - rewrite Hk in Hkt. apply (Hnd k Hkl). apply list_elem_of_fmap in Hkt as (e & -> & Hin).
    apply list_elem_of_fmap_2. by apply elem_of_reverse.
  - apply (Hd k); [|done]. unfold live.
    assert (k ∈ map fst (without id (entries (gd_images self)))) as Hw
      by (rewrite Hs, map_app; apply elem_of_app; by left).
    rewrite without_keys in Hw. by apply list_elem_of_filter in Hw as [_ Hw].
Qed.

(** ** Sequences of operations *)

Inductive gd_op : Type :=
| Gd_insert (image_id : Z) (pixels : list Z)
| Gd_get (image_id : Z)
| Gd_remove (image_id : Z)
| Gd_evict_older_than (oldest_valid : Z)
| Gd_clear.

Definition gd_apply (self : GlzDictionary) (op : gd_op) : option GlzDictionary :=
  match op with
  | Gd_insert id pixels => gd_insert dbg self id pixels
  | Gd_get id => Some (fst (gd_get self id))
  | Gd_remove id => Some (fst (gd_remove self id))
  | Gd_evict_older_than oldest => Some (fst (gd_evict_older_than self oldest))
  | Gd_clear => Some (gd_clear self)
  end.

Fixpoint gd_run (self : GlzDictionary) (ops : list gd_op) : option GlzDictionary :=
  match ops with
  | [] => Some self
  | op :: ops => self ← gd_apply self op; gd_run self ops
  end.

(** The operation on the images alone. *)
Definition image_op (op : gd_op) : bb_op :=
  match op with
  | Gd_insert id pixels => Op_insert id pixels
  | Gd_get id => Op_get id
  | Gd_remove id => Op_remove id
  | Gd_evict_older_than oldest => Op_retain (fun id => oldest <=? id)
  | Gd_clear => Op_clear
  end.

(** The ids the byte cap dropped and that no insert has named since. *)
Definition dropped_by (self : GlzDictionary) (op : gd_op) (dropped : list Z) : list Z :=
  match op with
  | Gd_insert id pixels =>
      match bb_insert_recording_evicted dbg (gd_images self) id pixels with
      | Some (_, _, keys) => forget id (keys ++ dropped)
      | None => dropped
      end
  | _ => dropped
  end.

Fixpoint dropped (self : GlzDictionary) (ops : list gd_op) (acc : list Z) : list Z :=
  match ops with
  | [] => acc
  | op :: ops =>
      match gd_apply self op with
      | Some self' => dropped self' ops (dropped_by self op acc)
      | None => acc
      end
  end.

(** Lookups and removals leave the tombstones alone and bring nothing in. *)
Lemma gd_shrink self images : gd_ok self -> bb_ok images ->
  (forall id, id ∈ map fst (entries images) -> id ∈ live self) ->
  gd_ok (set_images self images).
Proof.
  intros [Hi Hc Hf Hd] Hok Hsub. split; try done. intros id Hid. by apply Hd, Hsub.
Qed.

Lemma get_live images id k : bb_ok images ->
  k ∈ map fst (entries (fst (bb_get images id))) -> k ∈ map fst (entries images).
Proof.
  intros Hok. pose proof (iter_get (bb_inner images) id) as E. unfold bb_get, entries in *.
  destruct (lru_get (bb_inner images) id) as [inner v]. cbn [fst set_inner bb_inner] in *. rewrite E.
  destruct (assoc id (lru_iter (bb_inner images))) as [w|] eqn:Ea; [|done].
  cbn [map fst]. rewrite elem_of_cons, without_keys, list_elem_of_filter.
  intros [->|[_ ?]]; [|done].
  destruct (decide (id ∈ map fst (lru_iter (bb_inner images)))) as [|Hn]; [done|].
  apply assoc_None in Hn. congruence.
Qed.

Lemma gd_apply_ok self op n b (acc : list Z) : gd_ok self -> accounted (gd_images self) n b ->
  n + 1 < 2 ^ 64 -> b + op_bytes (image_op op) < 2 ^ 64 ->
  (forall id, id ∈ tombs self -> id ∈ acc) ->
  exists self', gd_apply self op = Some self' /\ gd_ok self' /\
    accounted (gd_images self') (n + op_entries (image_op op)) (b + op_bytes (image_op op)) /\
    (forall id, id ∈ tombs self' -> id ∈ dropped_by self op acc).
Proof.
  intros Hok Hacc Hn Hb Hdr. pose proof Hacc as (A1 & A2 & A3 & A4).
  pose proof (gk_images _ Hok) as Hi.
  destruct (apply_ok dbg (gd_images self) (image_op op) n b Hi Hacc Hn Hb)
    as (images & Happ & Hbok & Hbacc).
  destruct op as [id pixels|id|id|oldest|];
    cbn [gd_apply image_op op_bytes op_entries bb_apply dropped_by] in *.
  - destruct (Z.lt_ge_cases (gd_cap_bytes self) (zlen pixels)) as [Hl|Hl].
    + destruct (gd_insert_refused self id pixels Hok Hl) as (s & -> & Hok' & Hi' & Ht).
      exists s. split_and!; try done.
      * rewrite Hi'. pose proof (zlen_nonneg pixels). unfold accounted. lia.
      * intros k Hk. rewrite Ht in Hk. rewrite insert_refused by done.
        apply elem_of_forget in Hk as [? ?]. apply elem_of_forget. split; [done|].
        apply elem_of_app. right. by apply Hdr.
    + destruct (gd_insert_accepted self id pixels Hok) as
        (s & kept & gone & E & Hok' & Hgi & outcome & keys & Hto); [split_and!; lia|done|].
      exists s. split_and!; [done|done|exact (insert_accounted _ _ _ _ _ _ _ _ _ _ Hi Hacc Hto)|].
      intros k Hk. rewrite (gi_tombs _ _ _ _ _ _ Hgi) in Hk.
      destruct (insert_accepted dbg (gd_images self) id pixels Hi) as
        (s2 & o2 & k2 & kept2 & gone2 & E2 & _ & Hto2); [split_and!; lia|done|].
      rewrite E2. unfold gd_insert, insert_images in E. rewrite E2 in E. cbn in E.
      injection E as E. assert (gd_images s = s2) as Es by by rewrite <- E.
      apply elem_of_forget in Hk as [? Hk]. apply elem_of_forget. split; [done|].
      apply elem_of_app. apply elem_of_remember in Hk as [Hk|Hk]; [left|right; by apply Hdr].
      pose proof Hto as [S1 S2 _ _ _ _ _ _]. pose proof Hto2 as [T1 T2 _ T4 _ _ _ _].
      rewrite Es in S2. rewrite S2 in T2. injection T2 as <-. rewrite S1 in T1.
      injection T1 as T1. apply app_inv_head in T1. by rewrite T4, <- T1.
  - injection Happ as <-. unfold gd_get. destruct (bb_get (gd_images self) id) as [im v] eqn:E.
    cbn [fst] in *. eexists. split_and!; [done| |done|done].
    apply gd_shrink; [done|done|]. intros k Hk. apply (get_live (gd_images self) id); [done|].
    by rewrite E.
  - injection Happ as <-. unfold gd_remove.
    destruct (remove_eq (gd_images self) id Hi) as (H1 & H2 & _).
    destruct (bb_remove (gd_images self) id) as [im v]. cbn [fst] in *.
    eexists. split_and!; [done| |done|done]. apply gd_shrink; [done|done|]. intros k.
    rewrite H2, without_keys. by intros [_ ?]%list_elem_of_filter.
  - injection Happ as <-. unfold gd_evict_older_than.
    destruct (retain_keys_eq (gd_images self) (fun id => oldest <=? id) Hi) as (H1 & H2 & _).
    destruct (bb_retain_keys (gd_images self) _) as [im v]. cbn [fst] in *.
    eexists. split_and!; [done| |done|done]. apply gd_shrink; [done|done|]. intros k.
    rewrite H2. intros (e & -> & He)%list_elem_of_fmap. apply list_elem_of_filter in He as [_ He].
    by apply list_elem_of_fmap_2.
  - injection Happ as <-. eexists. split_and!; [done| |done|done].
    destruct (clear_eq (gd_images self) Hi) as (H1 & H2).
    apply gd_shrink; [done|done|]. intros k. rewrite H2. by intros ?%elem_of_nil.
Qed.

Definition image_ops (ops : list gd_op) : list bb_op := map image_op ops.

Lemma gd_run_ok ops : forall self n b (acc : list Z), gd_ok self -> accounted (gd_images self) n b ->
  n + ops_entries (image_ops ops) + 1 < 2 ^ 64 -> b + ops_bytes (image_ops ops) < 2 ^ 64 ->
  (forall id, id ∈ tombs self -> id ∈ acc) ->
  exists self', gd_run self ops = Some self' /\ gd_ok self' /\
    (forall id, id ∈ tombs self' -> id ∈ dropped self ops acc).
Proof.
  induction ops as [|op ops IH]; intros self n b acc Hok Hacc Hn Hb Hd; simpl in *.
  - by exists self.
  - pose proof (op_entries_range (image_op op)). pose proof (op_bytes_nonneg (image_op op)).
    destruct (ops_nonneg (image_ops ops)).
    destruct (gd_apply_ok self op n b acc Hok Hacc) as (s1 & -> & Hok1 & Hacc1 & Hd1);
      [lia|lia|done|]. cbn [mbind option_bind].
    by destruct (IH s1 _ _ _ Hok1 Hacc1 ltac:(lia) ltac:(lia) Hd1) as (s2 & -> & Hok2 & Hd2); [eauto].
Qed.

Lemma gd_with_cap_ok cap : 0 < cap <= isize_max -> cap / PER_ENTRY_OVERHEAD_BYTES < u32_max ->
  exists self, gd_with_cap cap = Some self /\ gd_ok self /\
    accounted (gd_images self) 0 0 /\ tombs self = [].
Proof.
  intros Hc Hm. destruct (new_ok cap Hc Hm) as (images & E & Hok & Hacc & _).
  unfold gd_with_cap. rewrite E. eexists. split; [done|].
  assert (tombs (mkGlzDictionary images 0 (lru_new EVICTED_ID_TOMBSTONES) false) = []) as Ht
    by (unfold tombs; cbn; by rewrite iter_new).
  split_and!; [|done|done]. split; [done|apply cap_new|rewrite Ht; by split; [constructor|]|].
  intros id _. rewrite Ht. apply not_elem_of_nil.
Qed.

(** * Properties *)

(** Whatever inserts, lookups, removals, invalidations and clears a dictionary
    sees, one after another, none panics, the pixels held stay within the byte
    cap, and the tombstones are right: at most 4096 of them, never one for an
    image that is present, and each one for an id that the byte cap dropped and
    that no insert has named since. *)
Theorem glz_dict_tombstones cap ops :
  0 < cap <= isize_max -> cap / PER_ENTRY_OVERHEAD_BYTES < u32_max ->
  ops_entries (image_ops ops) + 1 < 2 ^ 64 -> ops_bytes (image_ops ops) < 2 ^ 64 ->
  exists self0 self, gd_with_cap cap = Some self0 /\ gd_run self0 ops = Some self /\
    gd_total_bytes self <= gd_cap_bytes self /\ few_ids (tombs self) /\
    (forall id, id ∈ live self -> gd_was_evicted self id = false) /\
    (forall id, gd_was_evicted self id = true -> id ∈ dropped self0 ops []).
Proof.
  intros Hc Hm Hn Hb. destruct (gd_with_cap_ok cap Hc Hm) as (s0 & -> & Hok0 & Hacc & Ht).
  destruct (gd_run_ok ops s0 0 0 [] Hok0 Hacc) as (s & Hrun & Hok & Hd);
    [lia|lia|by rewrite Ht|].
  exists s0, s. destruct Hok as [Hi _ Hf Hdis]. split_and!; try done.
  - destruct Hi as [_ _ Hcnt Hw _ _]. unfold exceeds, gd_total_bytes, gd_cap_bytes in *. lia.
  - intros id Hid. apply not_true_iff_false. rewrite was_evicted_spec. by apply Hdis.
  - intros id Hid%was_evicted_spec. by apply Hd.
Qed.

(** An insert that is refused (the image is larger than the cap) still erases the
    id's tombstone: the images are as they were, the id is not among them, and
    [was_evicted] no longer reports it, although the cap dropped it and it is not
    back. *)
Theorem glz_refused_insert_forgets self id pixels :
  gd_ok self -> gd_was_evicted self id = true -> gd_cap_bytes self < zlen pixels ->
  exists self', gd_insert dbg self id pixels = Some self' /\
    gd_images self' = gd_images self /\ (id ∉ live self') /\ gd_was_evicted self' id = false.
Proof.
  intros Hok Hev Hl. destruct (gd_insert_refused self id pixels Hok Hl) as (s & E & Hok' & Hi & Ht).
  exists s. split_and!; [done|done| |].
  - unfold live. rewrite Hi. intros Hin. apply was_evicted_spec in Hev.
    by apply (gk_disjoint _ Hok id).
  - apply not_true_iff_false. rewrite was_evicted_spec, Ht, elem_of_forget. by intros [? _].
Qed.
End Proofs.

(** ** Witnesses, on the list implementation *)

#[local] Existing Instance list_lru.

Definition demo_gd_ops : list gd_op :=
  [Gd_insert 1 (replicate 60 0); Gd_insert 2 (replicate 60 1); Gd_get 1;
   Gd_insert 3 (replicate 90 2); Gd_insert 4 (replicate 90 3); Gd_remove 4;
   Gd_insert 2 (replicate 20 4)].

Lemma glz_dict_tombstones_witness :
  exists self0 self,
    gd_with_cap 192 = Some self0 /\ gd_run true self0 demo_gd_ops = Some self /\
    live self = [2; 3] /\ tombs self = [1] /\ dropped true self0 demo_gd_ops [] = [1].
Proof.
  pose proof (list_lru_laws (list Z)). pose proof (list_lru_laws unit).
  destruct (glz_dict_tombstones true 192 demo_gd_ops) as (s0 & s & H1 & H2 & _);
    [vm_compute; by split|vm_compute; done..|].
  exists s0, s. split; [exact H1|]. split; [exact H2|].
  vm_compute in H1. injection H1 as <-. vm_compute in H2. injection H2 as <-.
  repeat split; vm_compute; reflexivity.
Defined.

Definition demo_gd : GlzDictionary :=
  mkGlzDictionary (mkByteBoundedLru (None, [(2, replicate 60 1)]) 60 150 10 1 60) 3
    (Some EVICTED_ID_TOMBSTONES, [(1, tt)]) true.

Lemma demo_gd_ok : gd_ok demo_gd.
Proof.
  split; [split|..]; try (vm_compute; done).
  - apply (bool_decide_unpack _). vm_compute. exact I.
  - intros [Hx|Hx]; vm_compute in Hx; discriminate Hx.
  - split; [apply (bool_decide_unpack _); vm_compute; exact I|vm_compute; done].
  - intros id Hid Ht. vm_compute in Hid, Ht. apply list_elem_of_singleton in Hid, Ht. congruence.
Qed.

Lemma glz_refused_insert_forgets_witness :
  exists self', gd_insert true demo_gd 1 (replicate 151 0) = Some self' /\
    live self' = [2] /\ gd_was_evicted self' 1 = false.
Proof.
  pose proof (list_lru_laws (list Z)). pose proof (list_lru_laws unit).
  destruct (glz_refused_insert_forgets true demo_gd 1 (replicate 151 0) demo_gd_ok)
    as (self' & H1 & H2 & H3 & H4); [vm_compute; reflexivity|vm_compute; reflexivity|].
  exists self'. split; [exact H1|]. split; [|exact H4]. unfold live. rewrite H2. reflexivity.
Defined.

(** Two channels inserting at once can leave an image present and tombstoned: the
    first evicts image 1 and releases the lock on the images, the second inserts
    image 1 again and clears its tombstone, and only then does the first record
    its eviction. *)
Theorem glz_racing_inserts_tombstone_live :
  let self := mkGlzDictionary
    (mkByteBoundedLru (None, [(2, replicate 60 1); (1, replicate 60 0)]) 120 200 10 0 0) 2
    (Some EVICTED_ID_TOMBSTONES, []) false in
  gd_ok self /\
  exists s1 outcome keys s2,
    insert_images true self 3 (replicate 90 2) = Some (s1, outcome, keys) /\
    gd_insert true s1 1 (replicate 40 0) = Some s2 /\
    let s3 := insert_notify (insert_tombstones s2 3 keys) outcome in
    1 ∈ live s3 /\ gd_was_evicted s3 1 = true.
Proof.
  cbv zeta. split.
  - split; [split|..]; try (vm_compute; done).
    + apply (bool_decide_unpack _). vm_compute. exact I.
    + intros [Hx|Hx]; vm_compute in Hx; discriminate Hx.
    + split; [constructor|vm_compute; done].
    + intros id _ Ht. vm_compute in Ht. by apply elem_of_nil in Ht.
  - do 4 eexists. split; [vm_compute; reflexivity|]. split; [vm_compute; reflexivity|].
    split; [apply (bool_decide_unpack _); vm_compute; exact I|vm_compute; reflexivity].
Qed.
