(* ===== verification/Glz.v ===== *)
(** The GLZ decoder: [decompress_glz] of
    [shakenfist-spice-compression/src/glz.rs].

    GLZ extends LZ by copies from earlier images, found in the dictionary the
    display channels share.  The literal, run-length and self-copy loops are the
    ones of the LZ decoder, word for word, and are its definitions ([Lz]).

    While the decoder runs, other channels use the dictionary, and a reference
    to an image that is not there yet waits for it.  A [turn] is what happens
    before the decoder's next lock or wake-up: any change to the dictionary, and
    whether a wait ended by its timeout.  The turns are an argument of the
    decoder; when they run out nothing else happens and a wait times out. *)
From Stdlib Require Import ZArith Lia.
From stdpp Require Import base numbers list tactics.
From S2P Require Import Prelude Reader IoCursor Lru GlzDict Lz.

Open Scope Z_scope.
Open Scope rust_scope.

(** * Data *)

Inductive GlzError : Type :=
| Glz_TooShort
| Glz_InvalidMagic
| Glz_UnsupportedVersion (major minor : Z)
| Glz_Io (e : ErrorKind)
| Glz_DimensionsRefused (width height : Z).

Definition GLZ_MAGIC : list Z := [32; 32; 90; 76].
Definition GLZ_HEADER_SIZE : Z := 33.

(** [usize] multiplication in either build profile. *)
Definition mul_usize (overflow_checks : bool) (a b : Z) : option Z :=
  if a * b <=? usize_max then Some (a * b)
  else if overflow_checks then None
  else Some ((a * b) mod 2 ^ 64).

(** The loops shared with LZ. *)
Definition glz_literal_loop := literal_loop.
Definition glz_length_loop := length_loop.
Definition glz_self_copy := back_reference.

Record glz_header : Type := mkGlzHeader {
  gh_magic : list Z;
  gh_version_major : Z;
  gh_version_minor : Z;
  gh_top_down : bool;
  gh_width : Z;
  gh_height : Z;
  gh_image_id : Z;
  gh_win_head_dist : Z
}.

Definition read_glz_header : Cur glz_header :=
  let? magic := read_exact 4 in
  let? version_major := cur_u16_be in
  let? version_minor := cur_u16_be in
  let? type_packed := cur_u8 in
  let top_down := negb (Z.land (Z.shiftr type_packed 4) 1 =? 0) in
  let? width := cur_u32_be in
  let? height := cur_u32_be in
  do? cur_u32_be in
  let? image_id := cur_u64_be in
  let? win_head_dist := cur_u32_be in
  ret (mkGlzHeader magic version_major version_minor top_down width height image_id
         win_head_dist).

(** What the bytes after a control byte say. *)
Inductive glz_reference : Type :=
| Glz_truncated (data_offset : Z)
| Glz_copy (pixel_offset length image_dist data_offset : Z).

Section Parse.
Context (data : list Z).

(** [for i in 0..image_flag]: the bytes of [image_dist] from bit [shift] up. *)
Fixpoint dist_loop (n : nat) (shift image_dist data_offset : Z) : option (Z * Z) :=
  match n with
  | O => Some (image_dist, data_offset)
  | S n =>
      if zlen data <=? data_offset then Some (image_dist, data_offset)
      else
        b ← index data data_offset;
        dist_loop n (shift + 8) (image_dist + Z.shiftl b shift) (data_offset + 1)
  end.

(** The reference arm up to the choice of the image. *)
Definition glz_read_reference (ctrl data_offset : Z) : option glz_reference :=
  let length := Z.shiftr ctrl 5 in
  let pixel_flag := Z.land (Z.shiftr ctrl 4) 1 in
  let pixel_offset := Z.land ctrl 15 in
  ld ← (if length =? 7
        then glz_length_loop data (S (Z.to_nat (zlen data - data_offset))) length data_offset
        else Some (length, data_offset));
  let '(length, data_offset) := ld in
  if zlen data <=? data_offset then Some (Glz_truncated data_offset)
  else
    code1 ← index data data_offset;
    let data_offset := data_offset + 1 in
    let pixel_offset := pixel_offset + Z.shiftl code1 4 in
    if zlen data <=? data_offset then Some (Glz_truncated data_offset)
    else
      code2 ← index data data_offset;
      let data_offset := data_offset + 1 in
      let image_flag := Z.land (Z.shiftr code2 6) 3 in
      if pixel_flag =? 0 then
        d ← dist_loop (Z.to_nat image_flag) 6 (Z.land code2 63) data_offset;
        let '(image_dist, data_offset) := d in
        Some (Glz_copy pixel_offset length image_dist data_offset)
      else
        let pf2 := Z.land (Z.shiftr code2 5) 1 in
        let pixel_offset := pixel_offset + Z.shiftl (Z.land code2 31) 12 in
        d ← dist_loop (Z.to_nat image_flag) 0 0 data_offset;
        let '(image_dist, data_offset) := d in
        if negb (pf2 =? 0) then
          if zlen data <=? data_offset then Some (Glz_truncated data_offset)
          else
            b ← index data data_offset;
            Some (Glz_copy (pixel_offset + Z.shiftl b 17) length image_dist (data_offset + 1))
        else Some (Glz_copy pixel_offset length image_dist data_offset).
End Parse.

(** * The decoder *)

Section Decoder.
Context `{LruCache (list Z)} `{LruCache unit}.
Context (overflow_checks : bool).

Record turn : Type := mkTurn {
  tu_others : GlzDictionary -> GlzDictionary;
  tu_timeout : bool
}.

(** The dictionary and the turns to come. *)
Record world : Type := mkWorld {
  wo_dictionary : GlzDictionary;
  wo_turns : list turn
}.

(** The dictionary as the next lock finds it. *)
Definition lock (w : world) : GlzDictionary * list turn :=
  match wo_turns w with
  | [] => (wo_dictionary w, [])
  | t :: turns => (tu_others t (wo_dictionary w), turns)
  end.

(** [dictionary.images.lock().get(&source_id).cloned()] *)
Definition lookup_image (w : world) (source_id : Z) : world * option (list Z) :=
  let (d, turns) := lock w in
  let (d, pixels) := gd_get d source_id in
  (mkWorld d turns, pixels).

Definition check_evicted (w : world) (source_id : Z) : world * bool :=
  let (d, turns) := lock w in
  (mkWorld d turns, gd_was_evicted d source_id).

(** The wait: a turn is a notification or the timeout. *)
Fixpoint wait_loop (turns : list turn) (d : GlzDictionary) (source_id : Z)
    : world * option (list Z) :=
  match turns with
  | [] => (mkWorld d [], None)
  | t :: turns =>
      let d := tu_others t d in
      if tu_timeout t then (mkWorld d turns, None)
      else
        let (d, pixels) := gd_get d source_id in
        match pixels with
        | Some p => (mkWorld d turns, Some p)
        | None => wait_loop turns d source_id
        end
  end.

(** The pixels of another image, or [None] for a miss. *)
Definition previous_image (w : world) (source_id : Z) : world * option (list Z) :=
  let (w, prev_pixels) := lookup_image w source_id in
  match prev_pixels with
  | Some p => (w, Some p)
  | None =>
      let (w, evicted) := check_evicted w source_id in
      if evicted then (w, None)
      else wait_loop (wo_turns w) (wo_dictionary w) source_id
  end.

Section Loop.
Context (data : list Z) (output_size image_id : Z).

(** The four assignments of one pixel from another image. *)
Definition copy_from (output prev_pixels : list Z) (dst src : Z) : option (list Z) :=
  r ← index prev_pixels src;
  output ← set_index output dst r;
  g ← index prev_pixels (src + 1);
  output ← set_index output (dst + 1) g;
  b ← index prev_pixels (src + 2);
  output ← set_index output (dst + 2) b;
  a ← index prev_pixels (src + 3);
  set_index output (dst + 3) a.

Fixpoint cross_loop (n : nat) (prev_pixels : list Z) (pi_idx : Z) (v : lz_vars)
    : option lz_vars :=
  match n with
  | O => Some v
  | S n =>
      if (output_size <? lz_out_idx v + 4) || (zlen prev_pixels <? pi_idx + 4) then Some v
      else
        output ← copy_from (lz_output v) prev_pixels (lz_out_idx v) pi_idx;
        cross_loop n prev_pixels (pi_idx + 4)
          (mkVars output (lz_data_offset v) (lz_out_idx v + 4))
  end.

(** [out_idx += length * 4] *)
Definition skip_pixels (length : Z) (v : lz_vars) : option lz_vars :=
  n ← mul_usize overflow_checks length 4;
  out_idx ← add_usize overflow_checks (lz_out_idx v) n;
  Some (mkVars (lz_output v) (lz_data_offset v) out_idx).

(** The copy itself, from this image or from another. *)
Definition glz_copy (pixel_offset length image_dist : Z) (v : lz_vars) (w : world)
    : option (lz_vars * world) :=
  if image_dist =? 0 then
    v ← glz_self_copy overflow_checks output_size (pixel_offset + 1) length v;
    Some (v, w)
  else
    let source_id := wrapping_sub image_id image_dist in
    let (w, prev_pixels) := previous_image w source_id in
    v ← match prev_pixels with
        | Some p => cross_loop (Z.to_nat length) p (pixel_offset * 4) v
        | None => skip_pixels length v
        end;
    Some (v, w).

(** How a round of the main loop ends: on to the next one, or [break]. *)
Inductive glz_flow : Type :=
| GNext (v : lz_vars) (w : world)
| GBreak (v : lz_vars) (w : world).

Definition glz_round (v : lz_vars) (w : world) : option glz_flow :=
  ctrl ← index data (lz_data_offset v);
  let v := set_offset v (lz_data_offset v + 1) in
  if ctrl <? LZ_MAX_COPY then
    v ← glz_literal_loop data output_size (Z.to_nat (ctrl + 1)) v;
    Some (GNext v w)
  else
    r ← glz_read_reference data ctrl (lz_data_offset v);
    match r with
    | Glz_truncated data_offset => Some (GBreak (set_offset v data_offset) w)
    | Glz_copy pixel_offset length image_dist data_offset =>
        vw ← glz_copy pixel_offset length image_dist (set_offset v data_offset) w;
        let (v, w) := (vw : lz_vars * world) in
        Some (GNext v w)
    end.

(** The main loop; every round takes at least the control byte. *)
Fixpoint glz_loop (fuel : nat) (v : lz_vars) (w : world) : option (lz_vars * world) :=
  if lz_more data output_size v then
    match fuel with
    | O => None
    | S fuel =>
        f ← glz_round v w;
        match f with
        | GNext v w => glz_loop fuel v w
        | GBreak v w => Some (v, w)
        end
    end
  else Some (v, w).
End Loop.

Definition glz_flip_rows := flip_rows.

(** As in [Lz], the magic and version checks follow the header. *)
Definition decompress_glz (data : list Z) (w : world)
    : result GlzError DecompressedImage * world :=
  if zlen data <? GLZ_HEADER_SIZE then (Err Glz_TooShort, w)
  else
    match fst (read_glz_header data) with
    | Err e => (Err (Glz_Io e), w)
    | Panic => (Panic, w)
    | Ok h =>
        if negb (bool_decide (gh_magic h = GLZ_MAGIC)) then (Err Glz_InvalidMagic, w)
        else if negb (gh_version_major h =? 1) then
          (Err (Glz_UnsupportedVersion (gh_version_major h) (gh_version_minor h)), w)
        else
          match rgba_len (gh_width h) (gh_height h) with
          | None => (Err (Glz_DimensionsRefused (gh_width h) (gh_height h)), w)
          | Some output_size =>
              match glz_loop data output_size (gh_image_id h) (length data)
                      (mkVars (replicate (Z.to_nat output_size) 0) GLZ_HEADER_SIZE 0) w with
              | None => (Panic, w)
              | Some (v, w) =>
                  (let! output := rlift (if gh_top_down h then Some (lz_output v)
                                         else glz_flip_rows (lz_output v) (gh_width h)
                                                (gh_height h)) in
                   match DecompressedImage_new_glz (gh_width h) (gh_height h) output
                           (gh_image_id h) (gh_win_head_dist h) with
                   | Some image => Ok image
                   | None => Err (Glz_DimensionsRefused (gh_width h) (gh_height h))
                   end, w)
              end
          end
    end.
End Decoder.

(** * The decoder's steps *)

Section Safety.
Context `{LruCache (list Z)} `{LruCache unit}.
Context (overflow_checks : bool).

Section Rounds.
Context (data : list Z) (output_size image_id : Z).

Inductive glz_steps : lz_vars * world -> lz_vars * world -> Prop :=
| gsteps_refl s : glz_steps s s
| gsteps_round v w v' w' s :
    lz_more data output_size v = true ->
    glz_round overflow_checks data output_size image_id v w = Some (GNext v' w') ->
    glz_steps (v', w') s -> glz_steps (v, w) s.

(** The round at [v] copies within the image, from the pixel just before its
    start. *)
Definition glz_before_start (v : lz_vars) : Prop :=
  lz_more data output_size v = true /\
  exists ctrl pixel_offset length data_offset,
    index data (lz_data_offset v) = Some ctrl /\ LZ_MAX_COPY <= ctrl /\
    glz_read_reference data ctrl (lz_data_offset v + 1) =
      Some (Glz_copy pixel_offset length 0 data_offset) /\
    1 <= pixel_offset /\ 1 <= length /\
    lz_out_idx v = pixel_offset * 4 /\ lz_out_idx v + 4 <= output_size.

Context (Hdata : bytes data) (Hlen : zlen data <= u32_max).
Context (Hsize : 0 <= output_size <= 2 ^ 32).

(** A miss may leave the write position past the end, which ends the loop. *)
Record gvars_ok (v : lz_vars) : Prop := {
  gv_len : zlen (lz_output v) = output_size;
  gv_idx : 0 <= lz_out_idx v;
  gv_mult : lz_out_idx v mod 4 = 0;
  gv_off : 0 <= lz_data_offset v <= zlen data
}.

Lemma gvars_of_vars v : vars_ok data output_size v -> gvars_ok v.
Proof. intros [? ? ? ?]. split; try done. lia. Qed.

Lemma vars_of_gvars v : gvars_ok v -> lz_more data output_size v = true ->
  vars_ok data output_size v.
Proof. intros [? ? ? ?] [Hm _]%andb_true_iff. apply Z.ltb_lt in Hm. split; try done. lia. Qed.

Lemma byte_at i : 0 <= i < zlen data -> exists b, index data i = Some b /\ u8 b.
Proof.
  intros Hi. destruct (index_is_Some data i Hi) as [b E]. exists b. split; [done|].
  rewrite index_lookup in E by done. exact (Forall_lookup_1 _ _ _ _ Hdata E).
Qed.

Lemma land_low a n : 0 <= n -> 0 <= Z.land a (Z.ones n) < 2 ^ n.
Proof. intros Hn. rewrite Z.land_ones by done. apply Z.mod_pos_bound. lia. Qed.

Lemma dist_loop_ok n : forall shift d off, 0 <= d -> 0 <= shift -> 0 <= off <= zlen data ->
  exists d' off', dist_loop data n shift d off = Some (d', off') /\ d <= d' /\
    off <= off' <= zlen data.
Proof.
  induction n as [|n IH]; intros shift d off Hd Hs Ho; cbn [dist_loop].
  { exists d, off. split; [done|lia]. }
  destruct (Z.leb_spec (zlen data) off); [exists d, off; split; [done|lia]|].
  destruct (byte_at off) as (b & -> & [Hb _]); [lia|]. cbn [mbind option_bind].
  assert (0 <= Z.shiftl b shift) by by apply Z.shiftl_nonneg.
  destruct (IH (shift + 8) (d + Z.shiftl b shift) (off + 1)) as (d' & off' & -> & Hd1 & Hd2); [lia..|].
  exists d', off'. split; [done|lia].
Qed.

Lemma glz_read_reference_ok ctrl off : u8 ctrl -> LZ_MAX_COPY <= ctrl -> 0 <= off <= zlen data ->
  match glz_read_reference data ctrl off with
  | Some (Glz_truncated off') => off <= off' <= zlen data
  | Some (Glz_copy p n d off') =>
      0 <= p < 2 ^ 26 /\ 1 <= n <= 7 + 255 * zlen data /\ 0 <= d /\ off <= off' <= zlen data
  | None => False
  end.
Proof.
  intros [Hc1 Hc2] Hc Ho. unfold glz_read_reference, LZ_MAX_COPY, glz_length_loop in *.
  set (n0 := Z.shiftr ctrl 5). assert (1 <= n0 <= 7) as Hn0.
  { unfold n0. rewrite Z.shiftr_div_pow2 by lia. split;
      [apply Z.div_le_lower_bound; lia|apply Z.lt_succ_r, Z.div_lt_upper_bound; lia]. }
  pose proof (land_low ctrl 4 ltac:(lia)) as Hlo. change (Z.ones 4) with 15 in Hlo.
  assert (exists n off', (if n0 =? 7
        then length_loop data (S (Z.to_nat (zlen data - off))) n0 off
        else Some (n0, off)) = Some (n, off') /\ n0 <= n <= 7 + 255 * zlen data /\
        off <= off' <= zlen data) as (n & off1 & -> & Hn & Hoff1).
  { destruct (n0 =? 7); [|exists n0, off; split; [done|lia]].
    destruct (length_loop_ok data Hdata (S (Z.to_nat (zlen data - off))) n0 off)
      as (n & off' & -> & ? & ?); [lia..|]. exists n, off'. split; [done|lia]. }
  cbn [mbind option_bind]. destruct (Z.leb_spec (zlen data) off1); [lia|].
  destruct (byte_at off1) as (c1 & -> & [Hb1 Hb1']); [lia|]. cbn [mbind option_bind].
  assert (Z.shiftl c1 4 = c1 * 16) as Hs4 by by rewrite Z.shiftl_mul_pow2. rewrite Hs4.
  destruct (Z.leb_spec (zlen data) (off1 + 1)); [lia|].
  destruct (byte_at (off1 + 1)) as (c2 & -> & [Hb2 Hb2']); [lia|]. cbn [mbind option_bind].
  pose proof (land_low c2 5 ltac:(lia)) as Hl5. change (Z.ones 5) with 31 in Hl5.
  pose proof (land_low c2 6 ltac:(lia)) as Hl6. change (Z.ones 6) with 63 in Hl6.
  assert (Z.shiftl (Z.land c2 31) 12 = Z.land c2 31 * 4096) as Hs12
    by by rewrite Z.shiftl_mul_pow2.
  destruct (_ =? 0).
  - destruct (dist_loop_ok (Z.to_nat (Z.land (Z.shiftr c2 6) 3)) 6 (Z.land c2 63) (off1 + 1 + 1))
      as (d & off2 & -> & Hd & Ho2); [lia..|]. cbn [mbind option_bind]. lia.
  - destruct (dist_loop_ok (Z.to_nat (Z.land (Z.shiftr c2 6) 3)) 0 0 (off1 + 1 + 1))
      as (d & off2 & -> & Hd & Ho2); [lia..|]. cbn [mbind option_bind]. rewrite Hs12.
    destruct (negb _); [|lia]. destruct (Z.leb_spec (zlen data) off2); [lia|].
    destruct (byte_at off2) as (b & -> & [Hb Hb']); [lia|]. cbn [mbind option_bind].
    assert (Z.shiftl b 17 = b * 131072) as -> by by rewrite Z.shiftl_mul_pow2. lia.
Qed.

Lemma copy_from_ok output prev dst src :
  0 <= dst -> dst + 4 <= zlen output -> 0 <= src -> src + 4 <= zlen prev ->
  exists output', copy_from output prev dst src = Some output' /\ zlen output' = zlen output.
Proof.
  intros. unfold copy_from.
  destruct (index_is_Some prev src) as [r ->]; [lia|]. cbn [mbind option_bind].
  destruct (set_index_ok output dst r) as (o1 & -> & L1); [lia|]. cbn [mbind option_bind].
  destruct (index_is_Some prev (src + 1)) as [g ->]; [lia|]. cbn [mbind option_bind].
  destruct (set_index_ok o1 (dst + 1) g) as (o2 & -> & L2); [lia|]. cbn [mbind option_bind].
  destruct (index_is_Some prev (src + 2)) as [b ->]; [lia|]. cbn [mbind option_bind].
  destruct (set_index_ok o2 (dst + 2) b) as (o3 & -> & L3); [lia|]. cbn [mbind option_bind].
  destruct (index_is_Some prev (src + 3)) as [a ->]; [lia|]. cbn [mbind option_bind].
  destruct (set_index_ok o3 (dst + 3) a) as (o4 & -> & L4); [lia|].
  exists o4. split; [done|congruence].
Qed.

Lemma cross_loop_ok n prev : forall pi v, vars_ok data output_size v -> 0 <= pi ->
  exists v', cross_loop output_size n prev pi v = Some v' /\ vars_ok data output_size v' /\
    lz_data_offset v' = lz_data_offset v.
Proof.
  induction n as [|n IH]; intros pi v Hv Hp; cbn [cross_loop]; [by exists v|].
  pose proof Hv as [Hl Hi Hm Ho].
  destruct (Z.ltb_spec output_size (lz_out_idx v + 4)); simpl; [by exists v|].
  destruct (Z.ltb_spec (zlen prev) (pi + 4)); simpl; [by exists v|].
  destruct (copy_from_ok (lz_output v) prev (lz_out_idx v) pi) as (o & -> & L); [lia..|].
  cbn [mbind option_bind].
  destruct (IH (pi + 4) (mkVars o (lz_data_offset v) (lz_out_idx v + 4)))
    as (v' & -> & Hv' & Hoff); [|lia|by exists v'].
  split; cbn; try lia. by apply idx_step.
Qed.

Lemma skip_pixels_ok n v : vars_ok data output_size v -> 1 <= n <= 7 + 255 * zlen data ->
  skip_pixels overflow_checks n v =
    Some (mkVars (lz_output v) (lz_data_offset v) (lz_out_idx v + n * 4)) /\
  gvars_ok (mkVars (lz_output v) (lz_data_offset v) (lz_out_idx v + n * 4)).
Proof.
  intros [Hl Hi Hm Ho] Hn. unfold skip_pixels, mul_usize, add_usize, u32_max, usize_max in *.
  rewrite (proj2 (Z.leb_le (n * 4) _)) by lia. cbn [mbind option_bind].
  rewrite (proj2 (Z.leb_le _ _)) by lia. split; [done|].
  split; cbn; try done; [lia|]. by rewrite Z.add_mod, Hm, Z.mod_mul by lia.
Qed.

(** The copy panics exactly when it starts one pixel before the image. *)
Lemma glz_copy_spec p n d v w : vars_ok data output_size v ->
  0 <= p < 2 ^ 26 -> 1 <= n <= 7 + 255 * zlen data -> 0 <= d ->
  let bad := d = 0 /\ 1 <= p /\ lz_out_idx v = p * 4 /\ lz_out_idx v + 4 <= output_size in
  (bad /\ glz_copy overflow_checks output_size image_id p n d v w = None) \/
  (~ bad /\ exists v' w', glz_copy overflow_checks output_size image_id p n d v w = Some (v', w') /\
    gvars_ok v' /\ lz_data_offset v' = lz_data_offset v).
Proof.
  intros Hv Hp Hn Hd. cbv zeta. unfold glz_copy, glz_self_copy.
  destruct (Z.eqb_spec d 0) as [->|Hne].
  - destruct (back_reference_spec overflow_checks data output_size Hsize (p + 1) n v Hv)
      as [(B1 & B2 & B3 & ->)|(B & v' & -> & Hv' & Ho)]; [lia|lia| |].
    + left. split; [lia|done].
    + right. split; [lia|]. exists v', w. split_and!; [done|by apply gvars_of_vars|done].
  - right. split; [lia|].
    destruct (previous_image w (wrapping_sub image_id d)) as [w' [prev|]].
    + destruct (cross_loop_ok (Z.to_nat n) prev (p * 4) v Hv ltac:(lia)) as (v' & -> & Hv' & Ho).
      exists v', w'. split_and!; [done|by apply gvars_of_vars|done].
    + destruct (skip_pixels_ok n v Hv Hn) as [-> Hg]. eexists _, w'. by split_and!.
Qed.

Definition gflow_ok (v : lz_vars) (f : glz_flow) : Prop :=
  match f with
  | GNext v' _ => gvars_ok v' /\ lz_data_offset v < lz_data_offset v'
  | GBreak v' _ => gvars_ok v'
  end.

Lemma glz_round_spec v w : gvars_ok v -> lz_more data output_size v = true ->
  (glz_before_start v /\ glz_round overflow_checks data output_size image_id v w = None) \/
  (~ glz_before_start v /\
   exists f, glz_round overflow_checks data output_size image_id v w = Some f /\ gflow_ok v f).
Proof.
  intros Hg Hmore. pose proof (vars_of_gvars _ Hg Hmore) as Hv.
  pose proof Hv as [Hl Hi Hm Ho]. unfold glz_round.
  pose proof Hmore as [Hm1 Hm2]%andb_true_iff. apply Z.ltb_lt in Hm1, Hm2.
  destruct (byte_at (lz_data_offset v)) as (ctrl & Ec & Hc); [lia|].
  rewrite Ec. cbn [mbind option_bind lz_data_offset set_offset].
  assert (forall o, 0 <= o <= zlen data -> vars_ok data output_size (set_offset v o)) as Hset
    by (intros o Hoo; by split).
  destruct (Z.ltb_spec ctrl LZ_MAX_COPY) as [Hlit|Href].
  - right. split.
    { intros (_ & c & p & n & o & Hc' & Hge & _). rewrite Ec in Hc'. simplify_eq. lia. }
    destruct (literal_loop_ok data output_size (Z.to_nat (ctrl + 1)) _
      (Hset (lz_data_offset v + 1) ltac:(lia))) as (v' & E & Hv' & Hle).
    unfold glz_literal_loop. rewrite E. eexists. split; [done|]. cbn in *.
    split; [by apply gvars_of_vars|lia].
  - pose proof (glz_read_reference_ok ctrl (lz_data_offset v + 1) Hc Href ltac:(lia)) as Hr.
    destruct (glz_read_reference data ctrl (lz_data_offset v + 1)) as [[o|p n d o]|] eqn:Er;
      [| |done]; cbn [mbind option_bind].
    + right. split.
      { intros (_ & c & p & n & o' & Hc' & Hge & Er' & _). rewrite Ec in Hc'. simplify_eq. }
      eexists. split; [done|]. apply gvars_of_vars. change (set_offset _ o) with (set_offset v o).
      apply Hset. lia.
    + destruct Hr as (Hp & Hn & Hd & Ho'). change (set_offset (set_offset _ _) o) with (set_offset v o).
      destruct (glz_copy_spec p n d (set_offset v o) w (Hset o ltac:(lia)) Hp Hn Hd)
        as [[(-> & B1 & B2 & B3) ->]|(B & v' & w' & -> & Hv' & Hoff)].
      * left. split; [|done]. split; [done|]. exists ctrl, p, n, o. split_and!; try done; lia.
      * right. split.
        { intros (_ & c & p' & n' & o' & Hc' & Hge & Er' & G1 & G2 & G3 & G4).
          rewrite Ec in Hc'. simplify_eq. by apply B. }
        eexists. split; [done|]. cbn in *. split; [done|lia].
Qed.

Lemma glz_loop_spec fuel : forall v w, gvars_ok v ->
  zlen data - lz_data_offset v <= Z.of_nat fuel ->
  match glz_loop overflow_checks data output_size image_id fuel v w with
  | Some (v', _) =>
      zlen (lz_output v') = output_size /\
      forall s, glz_steps (v, w) s -> ~ glz_before_start (fst s)
  | None => exists s, glz_steps (v, w) s /\ glz_before_start (fst s)
  end.
Proof.
  assert (forall v w, lz_more data output_size v = false ->
    forall s, glz_steps (v, w) s -> ~ glz_before_start (fst s)) as Hstop.
  { intros v w Hmore s Hs. inversion Hs; subst; [|congruence]. intros [? _].
    simpl in *. congruence. }
  induction fuel as [|fuel IH]; intros v w Hv Hf; cbn [glz_loop];
    (destruct (lz_more data output_size v) eqn:Hmore; [|split; [apply Hv|by apply Hstop]]).
  - apply andb_true_iff in Hmore as [_ Hm%Z.ltb_lt]. lia.
  - destruct (glz_round_spec v w Hv Hmore) as [[Hb ->]|(Hb & [v' w'|v' w'] & Hr & Hok)].
    + exists (v, w). split; [constructor|done].
    + rewrite Hr. cbn [mbind option_bind]. destruct Hok as [Hv' Hlt].
      specialize (IH v' w' Hv' ltac:(lia)).
      destruct (glz_loop overflow_checks data output_size image_id fuel v' w') as [[v'' w'']|].
      * destruct IH as [Hv'' Hall]. split; [done|]. intros s Hs. inversion Hs; subst; [done|].
        assert (GNext v' w' = GNext v'0 w'0) as [= <- <-] by congruence. by apply Hall.
      * destruct IH as (s & Hs & Hbs). exists s. split; [by eapply gsteps_round|done].
    + rewrite Hr. cbn [mbind option_bind]. split; [apply Hok|].
      intros s Hs. inversion Hs; subst; [done|]. congruence.
Qed.
End Rounds.

(** ** The whole decoder *)

Lemma tame_glz_header : tame read_glz_header (fun h => u32 (gh_width h) /\ u32 (gh_height h)).
Proof. unfold read_glz_header. wire_tame. by split. Qed.

(** A payload reaches a copy from the pixel before the image. *)
Definition glz_reaches_before_start (data : list Z) (w : world) : Prop :=
  GLZ_HEADER_SIZE <= zlen data /\
  exists h s output_size v w',
    read_glz_header data = (Ok h, s) /\ gh_magic h = GLZ_MAGIC /\ gh_version_major h = 1 /\
    rgba_len (gh_width h) (gh_height h) = Some output_size /\
    glz_steps data output_size (gh_image_id h)
      (mkVars (replicate (Z.to_nat output_size) 0) GLZ_HEADER_SIZE 0, w) (v, w') /\
    glz_before_start data output_size v.

Ltac no_reach :=
  intros (_ & ? & ? & ? & ? & ? & ? & ? & ? & ? & ? & ?); simplify_eq/=; try congruence.

(** On any payload of up to 4 GiB, in either build profile and whatever other
    channels do to the dictionary meanwhile, the GLZ decoder terminates; an image
    it returns has the size its dimensions say, within the limits; and it panics
    exactly when the stream copies from the pixel just before the image. *)
Theorem glz_panics_exactly_before_start data w :
  bytes data -> zlen data <= u32_max ->
  match fst (decompress_glz overflow_checks data w) with
  | Ok image => image_sized image /\ ~ glz_reaches_before_start data w
  | Err _ => ~ glz_reaches_before_start data w
  | Panic => glz_reaches_before_start data w
  end.
Proof.
  intros Hb Hlen. unfold decompress_glz.
  destruct (Z.ltb_spec (zlen data) GLZ_HEADER_SIZE); [intros [? _]; lia|].
  pose proof (tame_glz_header data Hb) as Ht. unfold glz_reaches_before_start.
  destruct (read_glz_header data) as [[h|e|] s]; cbn [fst]; [|no_reach|done].
  destruct Ht as [_ [[Hw _] [Hh _]]].
  destruct (bool_decide_reflect (gh_magic h = GLZ_MAGIC)) as [Hmagic|]; simpl negb; cbv iota;
    [|no_reach].
  destruct (Z.eqb_spec (gh_version_major h) 1) as [Hver|]; simpl negb; cbv iota; [|no_reach].
  destruct (rgba_len (gh_width h) (gh_height h)) as [output_size|] eqn:Er; [|no_reach].
  destruct (rgba_len_spec _ _ _ Hw Hh Er) as (Hsz & Hw' & Hh' & Hpx). unfold MAX_IMAGE_PIXELS in *.
  set (v0 := mkVars (replicate (Z.to_nat output_size) 0) GLZ_HEADER_SIZE 0).
  assert (gvars_ok data output_size v0) as Hv0.
  { unfold GLZ_HEADER_SIZE in *. split; cbn; try lia; try done. rewrite zlen_replicate. lia. }
  pose proof (glz_loop_spec data output_size (gh_image_id h) Hb Hlen ltac:(lia)
    (length data) v0 w Hv0
    ltac:(unfold v0, zlen, GLZ_HEADER_SIZE; cbn; lia)) as Hl.
  destruct (glz_loop _ _ _ _ _ _ _) as [[v w']|].
  - destruct Hl as [Hvl Hno]. cbn [fst].
    destruct (finish_ok (mkLzHeader [] 1 0 (gh_width h) (gh_height h) (gh_top_down h))
      (lz_output v) output_size Er Hw Hh Hvl) as (pixels & Hp & Hpl). cbn in Hp.
    unfold glz_flip_rows. rewrite Hp. cbn [rlift rbind]. unfold DecompressedImage_new_glz.
    rewrite bool_decide_true by by rewrite Hpl. split.
    + unfold image_sized, MAX_IMAGE_PIXELS. cbn. rewrite Hpl. split_and!; [done|lia|lia].
    + no_reach. by eapply (Hno (_, _)).
  - destruct Hl as ([v w'] & Hs & Hbs). split; [done|]. exists h, s, output_size, v, w'. by split_and!.
Qed.
End Safety.

(** * The reference semantics of a token stream *)

(** How a copy is written: short offsets in 12 bits, or long ones in 17 or 25,
    with so many bytes of image distance. *)
Inductive copy_form : Type :=
| Short (dist_bytes : nat)
| Long (dist_bytes : nat) (wide : bool).

(** A copy of [length] pixels: [dist = 0] names the pixel [offset + 1] back in
    this image, and otherwise [offset] is a position in the image [dist] ids
    ago. *)
Inductive glz_token : Type :=
| Gt_literal (cs : list colour)
| Gt_copy (dist offset length : Z) (form : copy_form).

Definition form_ok (dist offset : Z) (form : copy_form) : Prop :=
  match form with
  | Short n => (n <= 3)%nat /\ 0 <= offset < 2 ^ 12 /\ 0 <= dist < 64 * 2 ^ (8 * Z.of_nat n)
  | Long n wide =>
      (n <= 3)%nat /\ 0 <= offset < (if wide then 2 ^ 25 else 2 ^ 17) /\
      0 <= dist < 2 ^ (8 * Z.of_nat n)
  end.

Definition glz_token_bytes (t : glz_token) : list Z :=
  match t with
  | Gt_literal cs => [zlen cs - 1] ++ concat (map bgr cs)
  | Gt_copy dist offset length (Short n) =>
      [Z.min length 7 * 32 + offset mod 16] ++ run_bytes length ++
      [offset / 16; Z.of_nat n * 64 + dist mod 64] ++ to_le n (dist / 64)
  | Gt_copy dist offset length (Long n wide) =>
      [Z.min length 7 * 32 + 16 + offset mod 16] ++ run_bytes length ++
      [(offset / 16) mod 256;
       Z.of_nat n * 64 + (if wide then 32 else 0) + (offset / 4096) mod 32] ++
      to_le n dist ++ (if wide then [offset / 131072] else [])
  end.

Definition blank : pixel := (0, 0, 0, 0).

Section Tokens.
(** The images the references find, and the ids known to be gone. *)
Context (wanted : Z -> option (list pixel)) (gone : Z -> bool) (image_id : Z).

Definition glz_expand_token (acc : list pixel) (t : glz_token) : list pixel :=
  match t with
  | Gt_literal cs => acc ++ map opaque cs
  | Gt_copy dist offset length _ =>
      if dist =? 0 then expand_copy (Z.to_nat length) (Z.to_nat (offset + 1)) acc
      else
        match wanted (wrapping_sub image_id dist) with
        | Some ps => acc ++ take (Z.to_nat length) (drop (Z.to_nat offset) ps)
        | None => acc ++ replicate (Z.to_nat length) blank
        end
  end.

Definition glz_expand_tokens (acc : list pixel) (ts : list glz_token) : list pixel :=
  foldl glz_expand_token acc ts.

Definition glz_token_ok (acc : list pixel) (t : glz_token) : Prop :=
  match t with
  | Gt_literal cs => 1 <= zlen cs <= 32 /\ Forall colour_ok cs
  | Gt_copy dist offset length form =>
      1 <= length /\ form_ok dist offset form /\
      if dist =? 0 then offset + 1 <= zlen acc
      else
        match wanted (wrapping_sub image_id dist) with
        | Some ps => offset + length <= zlen ps
        | None => gone (wrapping_sub image_id dist) = true
        end
  end.

Fixpoint glz_tokens_ok (acc : list pixel) (ts : list glz_token) : Prop :=
  match ts with
  | [] => True
  | t :: ts => glz_token_ok acc t /\ glz_tokens_ok (glz_expand_token acc t) ts
  end.

Lemma form_offset_nonneg dist offset form : form_ok dist offset form -> 0 <= offset.
Proof. destruct form; cbn; lia. Qed.

Lemma glz_expand_token_zlen acc t : glz_token_ok acc t ->
  zlen (glz_expand_token acc t) =
    zlen acc + match t with Gt_literal cs => zlen cs | Gt_copy _ _ length _ => length end.
Proof.
  destruct t as [cs|dist off n form]; cbn [glz_token_ok glz_expand_token].
  - intros _. by rewrite zlen_app, zlen_map.
  - intros (Hn & Hf%form_offset_nonneg & Hd). destruct (dist =? 0).
    + rewrite expand_copy_zlen by (unfold zlen in Hd; lia). lia.
    + destruct (wanted _) as [ps|].
      * rewrite zlen_app, zlen_take, zlen_drop. lia.
      * rewrite zlen_app, zlen_replicate. lia.
Qed.

Lemma glz_expand_token_grows acc t : glz_token_ok acc t -> zlen acc < zlen (glz_expand_token acc t).
Proof.
  intros Ht. rewrite glz_expand_token_zlen by done.
  destruct t; cbn in Ht; destruct Ht as [? _]; lia.
Qed.

Lemma glz_expand_tokens_grows ts : forall acc, glz_tokens_ok acc ts ->
  zlen acc <= zlen (glz_expand_tokens acc ts).
Proof.
  induction ts as [|t ts IH]; intros acc; cbn [glz_tokens_ok]; [by intros _|].
  intros [Ht Hts]. apply glz_expand_token_grows in Ht. apply IH in Hts.
  unfold glz_expand_tokens in *. simpl. lia.
Qed.
End Tokens.

Lemma glz_token_bytes_pos t : (1 <= length (glz_token_bytes t))%nat.
Proof. destruct t as [cs|dist off n [k|k wide]]; simpl; lia. Qed.

(** ** Parsing a token *)

Lemma dist_loop_eq data bs : forall pre post shift d pos,
  data = pre ++ bs ++ post -> pos = zlen pre -> 0 <= shift ->
  dist_loop data (length bs) shift d pos = Some (d + from_le bs * 2 ^ shift, pos + zlen bs).
Proof.
  induction bs as [|b bs IH]; intros pre post shift d pos Hd -> Hs; cbn [length dist_loop from_le].
  { change (zlen (@nil Z)) with 0. by rewrite Z.mul_0_l, !Z.add_0_r. }
  cbn [app] in Hd. rewrite (proj2 (Z.leb_gt _ _))
    by (rewrite Hd, zlen_app, zlen_cons; zlen_nonneg_all; lia).
  assert (index data (zlen pre) = Some b) as -> by (rewrite Hd; by apply index_middle).
  cbn [mbind option_bind]. rewrite (IH (pre ++ [b]) post).
  - rewrite Z.shiftl_mul_pow2, Z.pow_add_r by lia. change (2 ^ 8) with 256.
    change (from_le (b :: bs)) with (b + 256 * from_le bs). rewrite zlen_cons.
    do 2 f_equal; lia.
  - by rewrite Hd, <- app_assoc.
  - by rewrite zlen_app.
  - lia.
Qed.

(** The bit fields of the three bytes. *)
Lemma ctrl_fields l f lo : 0 <= l -> 0 <= f < 2 -> 0 <= lo < 16 ->
  let ctrl := l * 32 + f * 16 + lo in
  Z.shiftr ctrl 5 = l /\ Z.land (Z.shiftr ctrl 4) 1 = f /\ Z.land ctrl 15 = lo.
Proof.
  intros Hl Hf Ho. cbv zeta. rewrite !Z.shiftr_div_pow2 by lia.
  change 1 with (Z.ones 1). change 15 with (Z.ones 4). rewrite !Z.land_ones by lia.
  change (2 ^ 5) with 32. change (2 ^ 4) with 16. change (2 ^ 1) with 2. split_and!.
  - symmetry. apply (Z.div_unique _ _ _ (f * 16 + lo)); lia.
  - replace ((l * 32 + f * 16 + lo) / 16) with (l * 2 + f)
      by (apply (Z.div_unique _ _ _ lo); lia).
    symmetry. apply (Z.mod_unique _ _ l); lia.
  - symmetry. apply (Z.mod_unique _ _ (l * 2 + f)); lia.
Qed.

Lemma code2_fields n w lo : 0 <= n < 4 -> 0 <= w < 2 -> 0 <= lo < 32 ->
  let code2 := n * 64 + w * 32 + lo in
  Z.land (Z.shiftr code2 6) 3 = n /\ Z.land (Z.shiftr code2 5) 1 = w /\
  Z.land code2 31 = lo.
Proof.
  intros Hn Hw Ho. cbv zeta. rewrite !Z.shiftr_div_pow2 by lia.
  change 3 with (Z.ones 2). change 1 with (Z.ones 1).
  change 31 with (Z.ones 5). rewrite !Z.land_ones by lia.
  change (2 ^ 6) with 64. change (2 ^ 5) with 32. change (2 ^ 2) with 4. change (2 ^ 1) with 2.
  split_and!.
  - replace ((n * 64 + w * 32 + lo) / 64) with n by (apply (Z.div_unique _ _ _ (w * 32 + lo)); lia).
    rewrite Z.mod_small; lia.
  - replace ((n * 64 + w * 32 + lo) / 32) with (n * 2 + w)
      by (apply (Z.div_unique _ _ _ lo); lia).
    symmetry. apply (Z.mod_unique _ _ n); lia.
  - symmetry. apply (Z.mod_unique _ _ (n * 2 + w)); lia.
Qed.

Lemma code2_short n lo : 0 <= n < 4 -> 0 <= lo < 64 ->
  let code2 := n * 64 + lo in Z.land (Z.shiftr code2 6) 3 = n /\ Z.land code2 63 = lo.
Proof.
  intros Hn Ho. cbv zeta. rewrite Z.shiftr_div_pow2 by lia.
  change 3 with (Z.ones 2). change 63 with (Z.ones 6). rewrite !Z.land_ones by lia.
  change (2 ^ 6) with 64. change (2 ^ 2) with 4.
  replace ((n * 64 + lo) / 64) with n by (apply (Z.div_unique _ _ _ lo); lia).
  split; [apply Z.mod_small; lia|]. symmetry. apply (Z.mod_unique _ _ n); lia.
Qed.

(** The three fixed bytes and the run bytes, whatever follows them. *)
Lemma glz_reference_prefix data pre f lo length code1 code2 post :
  data = pre ++ [Z.min length 7 * 32 + f * 16 + lo] ++ run_bytes length ++
         [code1; code2] ++ post ->
  0 <= f < 2 -> 0 <= lo < 16 -> 1 <= length ->
  let pos := zlen pre + 1 + zlen (run_bytes length) + 2 in
  index data (zlen pre) = Some (Z.min length 7 * 32 + f * 16 + lo) /\
  glz_read_reference data (Z.min length 7 * 32 + f * 16 + lo) (zlen pre + 1) =
    (let image_flag := Z.land (Z.shiftr code2 6) 3 in
     let pixel_offset := lo + Z.shiftl code1 4 in
     if f =? 0 then
       d ← dist_loop data (Z.to_nat image_flag) 6 (Z.land code2 63) pos;
       let '(image_dist, data_offset) := d in
       Some (Glz_copy pixel_offset length image_dist data_offset)
     else
       let pixel_offset := pixel_offset + Z.shiftl (Z.land code2 31) 12 in
       d ← dist_loop data (Z.to_nat image_flag) 0 0 pos;
       let '(image_dist, data_offset) := d in
       if negb (Z.land (Z.shiftr code2 5) 1 =? 0) then
         if zlen data <=? data_offset then Some (Glz_truncated data_offset)
         else
           b ← index data data_offset;
           Some (Glz_copy (pixel_offset + Z.shiftl b 17) length image_dist (data_offset + 1))
       else Some (Glz_copy pixel_offset length image_dist data_offset)).
Proof.
  intros Hd Hf Hlo Hn. cbv zeta. set (ctrl := Z.min length 7 * 32 + f * 16 + lo) in *.
  split; [rewrite Hd; by apply index_middle|].
  unfold glz_read_reference, glz_length_loop.
  destruct (ctrl_fields (Z.min length 7) f lo) as (E1 & E2 & E3); [lia..|].
  fold ctrl in E1, E2, E3. rewrite E1, E2, E3.
  rewrite (read_length data (pre ++ [ctrl]) (zlen pre + 1) length ([code1; code2] ++ post));
    [|by rewrite Hd, <- app_assoc|by rewrite zlen_app|done].
  cbn [mbind option_bind]. set (q := zlen pre + 1 + zlen (run_bytes length)).
  assert (zlen data = q + 2 + zlen post) as Hzd
    by (rewrite Hd, !zlen_app, !zlen_cons, zlen_nil; unfold q; lia).
  pose proof (zlen_nonneg post).
  assert (data = (pre ++ [ctrl] ++ run_bytes length) ++ code1 :: code2 :: post) as Hd'
    by (rewrite Hd, <- !app_assoc; done).
  assert (zlen (pre ++ [ctrl] ++ run_bytes length) = q) as Hq
    by (rewrite !zlen_app, zlen_cons, zlen_nil; unfold q; lia).
  set (pre' := pre ++ [ctrl] ++ run_bytes length) in *.
  rewrite !(proj2 (Z.leb_gt (zlen data) _)) by lia.
  assert (index data q = Some code1) as -> by (rewrite Hd'; by apply index_middle).
  cbn [mbind option_bind].
  assert (index data (q + 1) = Some code2) as ->.
  { rewrite Hd'. change (pre' ++ code1 :: code2 :: post) with (pre' ++ [code1] ++ code2 :: post).
    rewrite app_assoc. apply index_middle. by rewrite zlen_app, Hq. }
  cbn [mbind option_bind]. by rewrite <- !Z.add_assoc.
Qed.

Lemma from_le_to_le_small n v : 0 <= v < 2 ^ (8 * Z.of_nat n) -> from_le (to_le n v) = v.
Proof. intros Hv. rewrite from_le_to_le. by apply Z.mod_small. Qed.

Lemma glz_read_short data pre dist offset length n post :
  data = pre ++ glz_token_bytes (Gt_copy dist offset length (Short n)) ++ post ->
  1 <= length -> form_ok dist offset (Short n) ->
  exists ctrl, index data (zlen pre) = Some ctrl /\ LZ_MAX_COPY <= ctrl /\
    glz_read_reference data ctrl (zlen pre + 1) =
      Some (Glz_copy offset length dist
              (zlen pre + zlen (glz_token_bytes (Gt_copy dist offset length (Short n))))).
Proof.
  intros Hd Hn Hf. unfold LZ_MAX_COPY.
  pose proof (Z.mod_pos_bound offset 16 eq_refl) as Hm16. cbn [glz_token_bytes form_ok] in *.
  destruct Hf as (Hn3 & Ho & Hdist). change (2 ^ 12) with 4096 in Ho.
  pose proof (Z.mod_pos_bound dist 64 eq_refl) as Hm64.
  pose proof (Z.div_mod offset 16 ltac:(lia)). pose proof (Z.div_mod dist 64 ltac:(lia)).
  rewrite <- !app_assoc in Hd.
  destruct (glz_reference_prefix data pre 0 (offset mod 16) length (offset / 16)
    (Z.of_nat n * 64 + dist mod 64) (to_le n (dist / 64) ++ post)) as [Hi Hr]; [|lia..|].
  { rewrite Hd, Z.mul_0_l, Z.add_0_r. done. }
  eexists. split; [exact Hi|]. split; [lia|]. rewrite Hr. cbv zeta. cbn [Z.eqb].
  destruct (code2_short (Z.of_nat n) (dist mod 64)) as [-> ->]; [lia..|].
  rewrite Nat2Z.id. pose proof (length_to_le n (dist / 64)) as Hlen.
  pose proof (dist_loop_eq data (to_le n (dist / 64))
    (pre ++ [Z.min length 7 * 32 + offset mod 16] ++ run_bytes length ++
      [offset / 16; Z.of_nat n * 64 + dist mod 64]) post 6 (dist mod 64)
    (zlen pre + 1 + zlen (run_bytes length) + 2)) as Hdl.
  rewrite Hlen in Hdl. rewrite Hdl; [|by rewrite Hd, <- !app_assoc| |lia].
  2: { rewrite !zlen_app, !zlen_cons, zlen_nil. lia. }
  cbn [mbind option_bind]. rewrite from_le_to_le_small.
  2: { split; [apply Z.div_pos; lia|apply Z.div_lt_upper_bound; lia]. }
  rewrite Z.shiftl_mul_pow2 by lia. change (2 ^ 4) with 16. change (2 ^ 6) with 64.
  rewrite !zlen_app, !zlen_cons, zlen_nil. f_equal. f_equal; lia.
Qed.

Lemma glz_read_long data pre dist offset length n wide post :
  data = pre ++ glz_token_bytes (Gt_copy dist offset length (Long n wide)) ++ post ->
  1 <= length -> form_ok dist offset (Long n wide) ->
  exists ctrl, index data (zlen pre) = Some ctrl /\ LZ_MAX_COPY <= ctrl /\
    glz_read_reference data ctrl (zlen pre + 1) =
      Some (Glz_copy offset length dist
              (zlen pre + zlen (glz_token_bytes (Gt_copy dist offset length (Long n wide))))).
Proof.
  intros Hd Hn Hf. unfold LZ_MAX_COPY.
  pose proof (Z.mod_pos_bound offset 16 eq_refl) as Hm16. cbn [glz_token_bytes form_ok] in *.
  destruct Hf as (Hn3 & Ho & Hdist).
  change (2 ^ 17) with 131072 in Ho. change (2 ^ 25) with 33554432 in Ho.
  pose proof (Z.mod_pos_bound (offset / 16) 256 eq_refl) as Hm256.
  pose proof (Z.mod_pos_bound (offset / 4096) 32 eq_refl) as Hm32.
  pose proof (Z.div_mod offset 16 ltac:(lia)).
  pose proof (Z.div_mod (offset / 16) 256 ltac:(lia)) as Hq1.
  pose proof (Z.div_mod (offset / 4096) 32 ltac:(lia)) as Hq2.
  rewrite Z.div_div in Hq1 by lia. change (16 * 256) with 4096 in Hq1.
  rewrite Z.div_div in Hq2 by lia. change (4096 * 32) with 131072 in Hq2.
  rewrite <- !app_assoc in Hd. set (w := if wide then 1 else 0).
  set (code2 := Z.of_nat n * 64 + w * 32 + (offset / 4096) mod 32).
  assert (Z.of_nat n * 64 + (if wide then 32 else 0) + (offset / 4096) mod 32 = code2) as Ec
    by (unfold code2, w; destruct wide; lia).
  rewrite Ec in *.
  set (tail := if wide then [offset / 131072] else []) in *.
  destruct (glz_reference_prefix data pre 1 (offset mod 16) length ((offset / 16) mod 256)
    code2 (to_le n dist ++ tail ++ post)) as [Hi Hr]; [|lia..|].
  { rewrite Hd. done. }
  eexists. split; [exact Hi|]. split; [lia|]. rewrite Hr. cbv zeta. cbn [Z.eqb].
  destruct (code2_fields (Z.of_nat n) w ((offset / 4096) mod 32)) as (F1 & F2 & F3);
    [lia|unfold w; destruct wide; lia|lia|]. fold code2 in F1, F2, F3. rewrite F1, F2, F3.
  rewrite Nat2Z.id. pose proof (length_to_le n dist) as Hlen.
  set (q := zlen pre + 1 + zlen (run_bytes length) + 2).
  set (front := pre ++ [Z.min length 7 * 32 + 16 + offset mod 16] ++ run_bytes length ++
      [(offset / 16) mod 256; code2]).
  assert (zlen front = q) as Hq by (unfold front, q; rewrite !zlen_app, !zlen_cons, zlen_nil; lia).
  assert (data = front ++ to_le n dist ++ tail ++ post) as Hd'
    by (rewrite Hd; unfold front; rewrite <- !app_assoc; done).
  pose proof (dist_loop_eq data (to_le n dist) front (tail ++ post) 0 0 q) as Hdl.
  rewrite Hlen in Hdl. rewrite Hdl; [|done|done|done].
  cbn [mbind option_bind]. rewrite from_le_to_le_small by done.
  assert (zlen (to_le n dist) = Z.of_nat n) as Hzn by (unfold zlen; by rewrite Hlen).
  rewrite !Z.shiftl_mul_pow2 by lia. change (2 ^ 4) with 16. change (2 ^ 12) with 4096.
  change (2 ^ 17) with 131072.
  assert (zlen pre + zlen ([Z.min length 7 * 32 + 16 + offset mod 16] ++ run_bytes length ++
    [(offset / 16) mod 256; code2] ++ to_le n dist ++ tail) = q + Z.of_nat n + zlen tail) as ->
    by (rewrite !zlen_app, !zlen_cons, zlen_nil; unfold q; lia).
  rewrite Hzn. unfold w, tail. destruct wide; cbn [Z.eqb negb].
  + rewrite (proj2 (Z.leb_gt _ _)).
    2: { rewrite Hd', !zlen_app, Hq, Hzn. unfold tail. rewrite zlen_cons, zlen_nil.
         zlen_nonneg_all. lia. }
    assert (index data (q + Z.of_nat n) = Some (offset / 131072)) as ->.
    { rewrite Hd'. unfold tail. rewrite app_assoc. apply index_middle.
      by rewrite zlen_app, Hq, Hzn. }
    cbn [mbind option_bind]. rewrite Z.shiftl_mul_pow2 by lia. change (2 ^ 17) with 131072.
    change (zlen [offset / 131072]) with 1. f_equal. f_equal; lia.
  + change (zlen (@nil Z)) with 0. f_equal. f_equal; lia.
Qed.

Lemma glz_read_reference_eq data pre dist offset length form post :
  data = pre ++ glz_token_bytes (Gt_copy dist offset length form) ++ post ->
  1 <= length -> form_ok dist offset form ->
  exists ctrl, index data (zlen pre) = Some ctrl /\ LZ_MAX_COPY <= ctrl /\
    glz_read_reference data ctrl (zlen pre + 1) =
      Some (Glz_copy offset length dist
              (zlen pre + zlen (glz_token_bytes (Gt_copy dist offset length form)))).
Proof. destruct form as [n|n wide]; [apply glz_read_short|apply glz_read_long]. Qed.

(** * The decoder computes it *)

Section Draw.
Context `{HL : LruLaws (list Z)} `{HU : LruLaws unit}.
Context (overflow_checks : bool).
Context (wanted : Z -> option (list pixel)) (gone : Z -> bool).

(** ** The dictionary's side *)

(** Every wanted image is there, and what is gone is gone for good. *)
Record serves (d : GlzDictionary) : Prop := {
  sv_wanted : forall id ps, wanted id = Some ps ->
    assoc id (entries (gd_images d)) = Some (flat ps);
  sv_gone : forall id, gone id = true ->
    assoc id (entries (gd_images d)) = None /\ gd_was_evicted d id = true
}.

(** Other channels may do anything that leaves it so. *)
Definition world_serves (w : world) : Prop :=
  serves (wo_dictionary w) /\
  Forall (fun t => forall d, serves d -> serves (tu_others t d)) (wo_turns w).

Lemma assoc_without k id (l : list (Z * list Z)) : k <> id -> assoc k (without id l) = assoc k l.
Proof.
  intros Hne. induction l as [|[k' v] l IH]; [done|]. unfold without in *.
  destruct (decide (k' = id)) as [->|Hk].
  - rewrite filter_cons_False by (simpl; by intros []). simpl.
    rewrite (proj2 (Z.eqb_neq id k)) by done. exact IH.
  - rewrite filter_cons_True by done. simpl. by destruct (k' =? k).
Qed.

(** A lookup answers from the entries and keeps every answer. *)
Lemma gd_get_assoc d id :
  snd (gd_get d id) = assoc id (entries (gd_images d)) /\
  (forall k, assoc k (entries (gd_images (fst (gd_get d id)))) = assoc k (entries (gd_images d))) /\
  gd_evicted_ids (fst (gd_get d id)) = gd_evicted_ids d.
Proof.
  unfold gd_get, bb_get. pose proof (get_value (bb_inner (gd_images d)) id) as E1.
  pose proof (iter_get (bb_inner (gd_images d)) id) as E2.
  destruct (lru_get (bb_inner (gd_images d)) id) as [inner v]. cbn [fst snd] in *.
  fold (entries (gd_images d)) in E1, E2. split_and!; [done| |done].
  intros k. change (assoc k (lru_iter inner) = assoc k (entries (gd_images d))). rewrite E2.
  destruct (assoc id (entries (gd_images d))) as [v'|] eqn:Ea; [|done].
  cbn [assoc]. destruct (Z.eqb_spec id k) as [->|Hne]; [done|]. by apply assoc_without.
Qed.

Lemma gd_get_serves d id : serves d -> serves (fst (gd_get d id)).
Proof.
  intros [S1 S2]. destruct (gd_get_assoc d id) as (_ & Hk & Ht). split.
  - intros k ps. rewrite Hk. apply S1.
  - intros k Hg. rewrite Hk. unfold gd_was_evicted. rewrite Ht. by apply S2.
Qed.

(** A reference resolves to an image exactly as the dictionary holds it at that
    moment.  It misses for one of two reasons: the cap dropped the image, which
    is found out at the second lock without any wait; or a wait ended by its
    timeout. *)
Theorem glz_previous_image_outcome w id :
  let '(w', found) := previous_image w id in
  match found with
  | Some p => assoc id (entries (gd_images (wo_dictionary w'))) = Some p
  | None =>
      (gd_was_evicted (wo_dictionary w') id = true /\ wo_turns w' = drop 2 (wo_turns w)) \/
      wo_turns w' = [] \/ Exists (fun t => tu_timeout t = true) (wo_turns w)
  end.
Proof.
  assert (forall turns d, let '(w', found) := wait_loop turns d id in
    match found with
    | Some p => assoc id (entries (gd_images (wo_dictionary w'))) = Some p
    | None => wo_turns w' = [] \/ Exists (fun t => tu_timeout t = true) turns
    end) as Hwait.
  { induction turns as [|t turns IH]; intros d; cbn [wait_loop]; [by left|].
    destruct (tu_timeout t) eqn:Et; [right; by left|].
    destruct (gd_get_assoc (tu_others t d) id) as (E & Hk & _). specialize (Hk id).
    destruct (gd_get (tu_others t d) id) as [d' [p|]]; cbn [fst snd] in *; [cbn; congruence|].
    specialize (IH d'). destruct (wait_loop turns d' id) as [w' [p|]]; [done|].
    destruct IH as [?|?]; [by left|right; by right]. }
  unfold previous_image, lookup_image, check_evicted.
  assert (snd (lock w) = drop 1 (wo_turns w)) as Hl1 by (unfold lock; by destruct (wo_turns w)).
  destruct (lock w) as [d turns]. cbn [snd] in Hl1. subst turns.
  destruct (gd_get_assoc d id) as (E & Hk & _). specialize (Hk id).
  destruct (gd_get d id) as [d' [p|]]; cbn [fst snd] in *; [cbn; congruence|].
  set (w1 := mkWorld d' (drop 1 (wo_turns w))).
  assert (snd (lock w1) = drop 2 (wo_turns w)) as Hl2
    by (unfold lock, w1; cbn; destruct (wo_turns w) as [|? [|? ?]]; done).
  destruct (lock w1) as [d2 turns2]. cbn [snd] in Hl2. subst turns2. cbn [wo_turns wo_dictionary].
  destruct (gd_was_evicted d2 id) eqn:Ev; [by left|]. specialize (Hwait (drop 2 (wo_turns w)) d2).
  destruct (wait_loop _ d2 id) as [w' [p|]]; [done|]. right.
  destruct Hwait as [?|Hex]; [by left|right].
  rewrite <- (take_drop 2 (wo_turns w)). apply Exists_app. by right.
Qed.

Lemma lock_serves w : world_serves w ->
  serves (fst (lock w)) /\
  Forall (fun t => forall d, serves d -> serves (tu_others t d)) (snd (lock w)).
Proof.
  intros [Hd Ht]. unfold lock. destruct (wo_turns w) as [|t turns]; [done|].
  inversion Ht; subst. cbn. auto.
Qed.

Lemma lookup_image_eq w id : world_serves w ->
  exists w' r, lookup_image w id = (w', r) /\ world_serves w' /\
    (forall ps, wanted id = Some ps -> r = Some (flat ps)) /\ (gone id = true -> r = None).
Proof.
  intros [Hd Ht]%lock_serves. unfold lookup_image. destruct (lock w) as [d turns].
  cbn [fst snd] in *. pose proof (gd_get_assoc d id) as (E & _).
  pose proof (gd_get_serves d id) as Hs. destruct (gd_get d id) as [d' r]. cbn [fst snd] in *. subst r.
  eexists _, _. split; [done|]. split_and!; [by split; [apply Hs|]| |].
  - intros ps Hw. by apply (sv_wanted _ Hd).
  - intros Hg. by apply (sv_gone _ Hd).
Qed.

(** A reference finds its image, or misses without a wait. *)
Lemma previous_image_eq w id : world_serves w ->
  match wanted id with
  | Some ps => exists w', previous_image w id = (w', Some (flat ps)) /\ world_serves w'
  | None => gone id = true ->
      exists w', previous_image w id = (w', None) /\ world_serves w'
  end.
Proof.
  intros Hw. destruct (lookup_image_eq w id Hw) as (w1 & r & E & Hw1 & H1 & H2).
  unfold previous_image. rewrite E.
  destruct (wanted id) as [ps|]; [rewrite (H1 ps) by done; by exists w1|].
  intros Hg. rewrite (H2 Hg). unfold check_evicted. destruct (lock_serves w1 Hw1) as [Hd Ht].
  destruct (lock w1) as [d turns]. cbn [fst snd] in *.
  rewrite (proj2 (sv_gone _ Hd id Hg)). eexists. split; [done|]. by split.
Qed.

(** ** The pixels' side *)

Context (data : list Z) (size : Z) (Hsize : size <= 2 ^ 32).

Lemma copy_from_put output prev dst src r g b a :
  index prev src = Some r -> index prev (src + 1) = Some g ->
  index prev (src + 2) = Some b -> index prev (src + 3) = Some a ->
  copy_from output prev dst src = put_pixel output dst r g b a.
Proof.
  intros Hr Hg Hb Ha. unfold copy_from, put_pixel. rewrite Hr, Hg, Hb, Ha. cbn [mbind option_bind].
  done.
Qed.

(** The four bytes of a pixel. *)
Lemma flat_index ps k r g b a : ps !! k = Some (r, g, b, a) ->
  let i := 4 * Z.of_nat k in
  index (flat ps) i = Some r /\ index (flat ps) (i + 1) = Some g /\
  index (flat ps) (i + 2) = Some b /\ index (flat ps) (i + 3) = Some a.
Proof.
  intros Hk. cbv zeta. pose proof (lookup_lt_Some (ps : list pixel) k _ Hk).
  rewrite <- (take_drop_middle ps k _ Hk).
  change ((r, g, b, a) :: drop (S k) ps) with ([(r, g, b, a)] ++ drop (S k) ps).
  rewrite !flat_app, flat_one. cbn [rgba].
  assert (zlen (flat (take k ps)) = 4 * Z.of_nat k) as Hz
    by (rewrite zlen_flat, zlen_take; unfold zlen, pixel in *; lia).
  set (pre := flat (take k ps)) in *. set (post := flat (drop (S k) ps)).
  split_and!.
  - by apply index_middle.
  - change ([r; g; b; a] ++ post) with ([r] ++ g :: [b; a] ++ post). rewrite app_assoc.
    apply index_middle. by rewrite zlen_app, Hz.
  - change ([r; g; b; a] ++ post) with ([r; g] ++ b :: [a] ++ post). rewrite app_assoc.
    apply index_middle. by rewrite zlen_app, Hz.
  - change ([r; g; b; a] ++ post) with ([r; g; b] ++ a :: post). rewrite app_assoc.
    apply index_middle. by rewrite zlen_app, Hz.
Qed.

Lemma cross_loop_eq ps n : forall k acc v,
  drawn size acc v -> Z.of_nat k + Z.of_nat n <= zlen ps -> 4 * (zlen acc + Z.of_nat n) <= size ->
  exists v', cross_loop size n (flat ps) (4 * Z.of_nat k) v = Some v' /\
    drawn size (acc ++ take n (drop k ps)) v' /\ lz_data_offset v' = lz_data_offset v.
Proof.
  induction n as [|n IH]; intros k acc v Hv Hk Hfit; cbn [cross_loop].
  { rewrite take_0, app_nil_r. by exists v. }
  pose proof Hv as [_ Hidx _]. rewrite zlen_flat, !(proj2 (Z.ltb_ge _ _)) by lia.
  simpl orb. cbv iota.
  destruct (lookup_lt_is_Some_2 ps k) as [[[[r g] b] a] Hp]; [unfold zlen in Hk; lia|].
  destruct (flat_index ps k r g b a Hp) as (I1 & I2 & I3 & I4). cbv zeta in *.
  rewrite (copy_from_put _ _ _ _ r g b a I1 I2 I3 I4).
  rewrite (drawn_room _ _ _ Hv) by lia. rewrite Hidx, put_pixel_eq by (by rewrite zlen_flat).
  cbn [mbind option_bind].
  destruct (IH (S k) (acc ++ [(r, g, b, a)]) (mkVars (flat acc ++ rgba (r, g, b, a) ++
      replicate (Z.to_nat (size - 4 * (zlen acc + 1))) 0) (lz_data_offset v) (4 * zlen acc + 4)))
    as (v' & Hl & Hv' & Ho').
  - apply drawn_snoc. lia.
  - lia.
  - rewrite zlen_app, zlen_cons, zlen_nil. lia.
  - exists v'. split; [|split; [|done]].
    + rewrite <- Hl. f_equal. lia.
    + rewrite (drop_S _ _ _ Hp). cbn [firstn]. by rewrite <- app_assoc in Hv'.
Qed.

Lemma flat_blank n : flat (replicate n blank) = replicate (4 * n) 0.
Proof.
  induction n as [|n IH]; [done|]. replace (4 * S n)%nat with (4 + 4 * n)%nat by lia.
  rewrite replicate_add, <- IH. done.
Qed.

Lemma skip_pixels_eq n acc v : drawn size acc v -> 1 <= n ->
  4 * (zlen acc + n) <= size ->
  exists v', skip_pixels overflow_checks n v = Some v' /\
    drawn size (acc ++ replicate (Z.to_nat n) blank) v' /\
    lz_data_offset v' = lz_data_offset v.
Proof.
  intros [Ho Hi Hf] Hn Hfit. pose proof (zlen_nonneg acc).
  unfold skip_pixels, mul_usize, add_usize, usize_max.
  rewrite (proj2 (Z.leb_le (n * 4) _)) by lia. cbn [mbind option_bind].
  rewrite (proj2 (Z.leb_le _ _)) by lia. eexists. split; [done|]. split; [|done].
  split; cbn; rewrite zlen_app, zlen_replicate; [|lia|lia].
  rewrite Ho, flat_app, flat_blank, <- app_assoc, <- replicate_add. do 2 f_equal. lia.
Qed.

(** ** Tokens *)

Context (image_id : Z).

Lemma drawn_offset acc v o : drawn size acc v -> drawn size acc (set_offset v o).
Proof. intros [D1 D2 D3]. by split. Qed.

(** One copy, from this image or another, or a miss. *)
Lemma glz_copy_eq dist offset n form acc v w :
  drawn size acc v -> world_serves w ->
  glz_token_ok wanted gone image_id acc (Gt_copy dist offset n form) ->
  4 * (zlen acc + n) <= size ->
  exists v' w', glz_copy overflow_checks size image_id offset n dist v w = Some (v', w') /\
    drawn size (glz_expand_token wanted image_id acc (Gt_copy dist offset n form)) v' /\
    world_serves w' /\ lz_data_offset v' = lz_data_offset v.
Proof.
  intros Hv Hw (Hn & Hf%form_offset_nonneg & Hd) Hfit. unfold glz_copy, glz_self_copy.
  cbn [glz_expand_token]. destruct (dist =? 0).
  - destruct (back_reference_eq overflow_checks size Hsize (offset + 1) n acc v Hv)
      as (v' & -> & Hv' & Ho'); [lia|lia|done|]. by exists v', w.
  - pose proof (previous_image_eq w (wrapping_sub image_id dist) Hw) as Hp.
    destruct (wanted (wrapping_sub image_id dist)) as [ps|].
    + destruct Hp as (w' & -> & Hw').
      destruct (cross_loop_eq ps (Z.to_nat n) (Z.to_nat offset) acc v Hv)
        as (v' & Hl & Hv' & Ho'); [lia|lia|].
      exists v', w'. split; [|done]. replace (offset * 4) with (4 * Z.of_nat (Z.to_nat offset)) by lia.
      by rewrite Hl.
    + destruct (Hp Hd) as (w' & -> & Hw').
      destruct (skip_pixels_eq n acc v Hv Hn Hfit) as (v' & -> & Hv' & Ho'). by exists v', w'.
Qed.

(** One round of the decoder is one token. *)
Lemma glz_round_token t acc v w pre post :
  drawn size acc v -> world_serves w -> glz_token_ok wanted gone image_id acc t ->
  data = pre ++ glz_token_bytes t ++ post -> lz_data_offset v = zlen pre ->
  4 * zlen (glz_expand_token wanted image_id acc t) <= size ->
  exists v' w', glz_round overflow_checks data size image_id v w = Some (GNext v' w') /\
    drawn size (glz_expand_token wanted image_id acc t) v' /\ world_serves w' /\
    lz_data_offset v' = zlen pre + zlen (glz_token_bytes t).
Proof.
  intros Hv Hw Ht Hd Ho Hfit. pose proof Ht as Ht'. unfold glz_round. rewrite Ho.
  rewrite (glz_expand_token_zlen _ _ _ _ _ Ht) in Hfit.
  destruct t as [cs|dist off n form]; cbn [glz_token_ok] in Ht'.
  - destruct Ht' as [H1 H2]. cbn [glz_token_bytes] in *. cbn [app] in Hd.
    assert (index data (zlen pre) = Some (zlen cs - 1)) as ->
      by (rewrite Hd; by apply index_middle).
    cbn [mbind option_bind]. unfold LZ_MAX_COPY. rewrite (proj2 (Z.ltb_lt _ _)) by lia.
    replace (Z.to_nat (zlen cs - 1 + 1)) with (length cs) by (unfold zlen; lia).
    unfold glz_literal_loop.
    destruct (literal_loop_eq data size cs acc (set_offset v (zlen pre + 1))
      (pre ++ [zlen cs - 1]) post) as (v' & -> & Hv' & Ho').
    + by apply drawn_offset.
    + rewrite Hd, <- app_assoc. done.
    + by rewrite zlen_app.
    + lia.
    + exists v', w. split_and!; try done. rewrite Ho', !zlen_app. lia.
  - destruct Ht' as (H1 & H2 & _).
    destruct (glz_read_reference_eq data pre dist off n form post) as (ctrl & -> & Hc & Hr);
      [done..|].
    cbn [mbind option_bind]. rewrite (proj2 (Z.ltb_ge _ _)) by done.
    cbn [lz_data_offset set_offset]. rewrite Hr. cbn [mbind option_bind].
    destruct (glz_copy_eq dist off n form acc
      (set_offset (set_offset v (zlen pre + 1)) (zlen pre + zlen (glz_token_bytes
         (Gt_copy dist off n form)))) w) as (v' & w' & -> & Hv' & Hw' & Ho');
      [by apply drawn_offset, drawn_offset|done|done|done|].
    by exists v', w'.
Qed.

Lemma glz_loop_tokens ts : forall fuel acc v w pre post,
  drawn size acc v -> world_serves w -> glz_tokens_ok wanted gone image_id acc ts ->
  data = pre ++ concat (map glz_token_bytes ts) ++ post -> lz_data_offset v = zlen pre ->
  4 * zlen (glz_expand_tokens wanted image_id acc ts) = size ->
  (length (concat (map glz_token_bytes ts)) <= fuel)%nat ->
  exists v' w', glz_loop overflow_checks data size image_id fuel v w = Some (v', w') /\
    drawn size (glz_expand_tokens wanted image_id acc ts) v' /\ world_serves w'.
Proof.
  induction ts as [|t ts IH]; intros fuel acc v w pre post Hv Hw Ht Hd Ho Hs Hf.
  - exists v, w. split; [|done]. unfold glz_expand_tokens in Hs. simpl in Hs.
    assert (lz_more data size v = false) as Hm.
    { unfold lz_more. destruct Hv as [_ -> _]. by rewrite (proj2 (Z.ltb_ge _ _)) by lia. }
    destruct fuel; simpl; by rewrite Hm.
  - destruct Ht as [Ht Hts]. cbn [map concat] in Hd, Hf. rewrite <- app_assoc in Hd.
    pose proof (glz_expand_token_grows _ _ _ _ _ Ht).
    pose proof (glz_expand_tokens_grows _ _ _ _ _ Hts) as Hg.
    change (glz_expand_tokens wanted image_id acc (t :: ts))
      with (glz_expand_tokens wanted image_id (glz_expand_token wanted image_id acc t) ts) in *.
    pose proof (glz_token_bytes_pos t). rewrite length_app in Hf.
    destruct fuel as [|fuel]; [lia|]. cbn [glz_loop].
    assert (lz_more data size v = true) as ->.
    { unfold lz_more. pose proof Hv as [_ -> _]. rewrite Ho.
      rewrite !(proj2 (Z.ltb_lt _ _)); [done| |lia].
      rewrite Hd, !zlen_app. zlen_nonneg_all. unfold zlen at 3. lia. }
    destruct (glz_round_token t acc v w pre (concat (map glz_token_bytes ts) ++ post))
      as (v' & w' & -> & Hv' & Hw' & Ho'); [done..|lia|].
    cbn [mbind option_bind].
    apply (IH fuel _ v' w' (pre ++ glz_token_bytes t) post); try done; [| |lia].
    + rewrite Hd, <- app_assoc. done.
    + by rewrite Ho', zlen_app.
Qed.
End Draw.

(** ** The whole image *)

Definition glz_header_bytes (minor type_packed width height stride image_id win_head_dist : Z)
    : list Z :=
  GLZ_MAGIC ++ to_be 2 1 ++ to_be 2 minor ++ to_le 1 type_packed ++ to_be 4 width ++
  to_be 4 height ++ to_be 4 stride ++ to_be 8 image_id ++ to_be 4 win_head_dist.

(** The bit that says the rows come top first. *)
Definition packed_top_down (type_packed : Z) : bool := Z.testbit type_packed 4.

Lemma top_down_bit t : negb (Z.land (Z.shiftr t 4) 1 =? 0) = packed_top_down t.
Proof.
  unfold packed_top_down.
  change 1 with (Z.ones 1). rewrite Z.land_ones by lia. change (2 ^ 1) with 2.
  rewrite Z.testbit_odd. rewrite Zmod_odd. by destruct (Z.odd _).
Qed.

Lemma takes_glz_header minor type_packed width height stride image_id win_head_dist :
  u16 minor -> u8 type_packed -> u32 width -> u32 height -> u32 stride -> u64 image_id ->
  u32 win_head_dist ->
  takes read_glz_header
    (glz_header_bytes minor type_packed width height stride image_id win_head_dist)
    (mkGlzHeader GLZ_MAGIC 1 minor (packed_top_down type_packed) width height image_id
       win_head_dist).
Proof.
  intros. unfold read_glz_header, glz_header_bytes. rewrite <- top_down_bit.
  assert (u16 1) by (split; lia).
  rewrite <- (app_nil_r (to_be 4 win_head_dist)). wire_takes.
Qed.

Lemma zlen_glz_header minor type_packed width height stride image_id win_head_dist :
  zlen (glz_header_bytes minor type_packed width height stride image_id win_head_dist) =
    GLZ_HEADER_SIZE.
Proof. unfold glz_header_bytes. by rewrite !zlen_app, !zlen_to_be, zlen_to_le. Qed.

Section Image.
Context `{HL : LruLaws (list Z)} `{HU : LruLaws unit}.

(** C28: The GLZ decoder computes the reference semantics.  For any header and any
    tokens (literals, copies within the image, copies from the images named by
    their distance, and misses of ids the cap evicted) in any of the encodings of
    a copy, whose expansion is the image's rows, decoding the wire form gives
    exactly those pixels, with the header's id and window, provided the
    dictionary holds the wanted images throughout; other channels may change
    anything else about it at every lock. *)
Theorem glz_decodes_tokens overflow_checks wanted gone minor type_packed stride image_id
    win_head_dist width rows ts post w :
  u16 minor -> u8 type_packed -> u32 stride -> u64 image_id -> u32 win_head_dist ->
  0 <= width -> rgba_len width (zlen rows) <> None ->
  Forall (fun r => zlen r = width) rows ->
  glz_tokens_ok wanted gone image_id [] ts ->
  glz_expand_tokens wanted image_id [] ts = concat rows ->
  world_serves wanted gone w ->
  exists w',
    decompress_glz overflow_checks
      (glz_header_bytes minor type_packed width (zlen rows) stride image_id win_head_dist ++
       concat (map glz_token_bytes ts) ++ post) w =
    (Ok (mkDecompressedImage width (zlen rows)
           (flat (concat (if packed_top_down type_packed then rows else reverse rows)))
           image_id win_head_dist), w') /\
    world_serves wanted gone w'.
Proof.
  intros Hmi Htp Hst Hid Hwd Hw Hr HF Hts Hx Hserve.
  destruct (rgba_len width (zlen rows)) as [size|] eqn:Er; [|done]. clear Hr.
  pose proof (zlen_nonneg rows) as Hh.
  destruct (rgba_len_spec _ _ _ Hw Hh Er) as (Hsz & Hw' & Hh' & Hpx).
  unfold MAX_IMAGE_PIXELS, MAX_IMAGE_DIMENSION in *.
  set (header := glz_header_bytes _ _ _ _ _ _ _). set (data := header ++ _).
  assert (zlen header = GLZ_HEADER_SIZE) as Hhd by by apply zlen_glz_header.
  unfold decompress_glz. rewrite (proj2 (Z.ltb_ge _ _))
    by (unfold data; rewrite zlen_app; zlen_nonneg_all; lia).
  unfold data at 1. unfold header at 1. rewrite takes_glz_header by (try done; split; lia).
  cbn [fst gh_magic gh_version_major gh_width gh_height gh_top_down gh_image_id gh_win_head_dist].
  rewrite bool_decide_true by done. simpl negb at 1. cbv iota. rewrite Er.
  change (negb (1 =? 1)) with false. cbv iota.
  assert (zlen (concat rows) = width * zlen rows) as Hpix
    by (by rewrite (zlen_concat_rows _ width); [lia|]).
  assert (4 * zlen (glz_expand_tokens wanted image_id [] ts) = size) as Hfull by (rewrite Hx; lia).
  destruct (glz_loop_tokens overflow_checks wanted gone data size ltac:(lia) image_id ts
    (length data) [] (mkVars (replicate (Z.to_nat size) 0) GLZ_HEADER_SIZE 0) w header post)
    as (v & w' & -> & Hv & Hserve'); try done.
  - pose proof (zlen_nonneg (concat rows)).
    split; cbn; change (zlen (@nil pixel)) with 0; [by rewrite Z.sub_0_r|done|lia].
  - unfold data. rewrite !length_app. lia.
  - exists w'. split; [|done]. destruct Hv as [Ho _ _]. rewrite Hfull, Z.sub_diag, Hx in Ho.
    simpl replicate in Ho. rewrite app_nil_r in Ho. unfold glz_flip_rows.
    rewrite (place_rows _ width rows v Hw HF Ho). cbn [rlift rbind].
    unfold DecompressedImage_new_glz. rewrite bool_decide_true; [done|].
    rewrite Er. f_equal. rewrite zlen_flat. destruct (packed_top_down _); [lia|].
    rewrite (zlen_concat_rows _ width) by by apply Forall_reverse.
    unfold zlen in *. rewrite length_reverse. lia.
Qed.
End Image.

(** * Witnesses, on the list implementation *)

#[local] Existing Instance list_lru.

(** A dictionary with image 6 of four pixels, where the cap has dropped image 4. *)
Definition demo_pixels : list pixel :=
  [(1, 2, 3, 255); (4, 5, 6, 255); (7, 8, 9, 255); (10, 11, 12, 255)].

Definition demo_dictionary : GlzDictionary :=
  mkGlzDictionary (mkByteBoundedLru (None, [(6, flat demo_pixels)]) 16 150 10 1 60) 3
    (Some EVICTED_ID_TOMBSTONES, [(4, tt)]) true.

Definition demo_world : world := mkWorld demo_dictionary [].

(** A 2x2 image: one literal pixel, then a copy from two pixels back. *)
Definition glz_crash : list Z :=
  glz_header_bytes 0 16 2 2 8 7 0 ++ [0; 10; 20; 30] ++ [33; 0; 0].

Lemma glz_panics_exactly_before_start_witness :
  (forall overflow_checks, fst (decompress_glz overflow_checks glz_crash demo_world) = Panic) /\
  glz_reaches_before_start false glz_crash demo_world.
Proof.
  split; [by intros []; vm_compute|].
  assert (bytes glz_crash) as Hb by (apply (bool_decide_unpack _); vm_compute; exact I).
  assert (zlen glz_crash <= u32_max) as Hl by (vm_compute; discriminate).
  pose proof (glz_panics_exactly_before_start false glz_crash demo_world Hb Hl) as H.
  assert (fst (decompress_glz false glz_crash demo_world) = Panic) as E by (vm_compute; reflexivity).
  rewrite E in H. exact H.
Defined.

Definition demo_wanted (id : Z) : option (list pixel) := if id =? 6 then Some demo_pixels else None.

(** A 3x2 image 7: a literal, a pixel of image 6 by a long form, a miss of image 4,
    and a copy within the image. *)
Lemma glz_decodes_tokens_witness :
  fst (decompress_glz true
    (glz_header_bytes 0 16 3 2 12 7 2 ++
     concat (map glz_token_bytes
       [Gt_literal [(20, 21, 22)]; Gt_copy 1 2 2 (Long 1 true); Gt_copy 3 0 1 (Short 0);
        Gt_copy 0 3 2 (Short 1)]) ++ [9]) demo_world) =
  Ok (mkDecompressedImage 3 2
        (flat [(20, 21, 22, 255); (7, 8, 9, 255); (10, 11, 12, 255);
               blank; (20, 21, 22, 255); (7, 8, 9, 255)]) 7 2).
Proof.
  pose proof (list_lru_laws (list Z)). pose proof (list_lru_laws unit).
  destruct (glz_decodes_tokens true demo_wanted (fun id => id =? 4) 0 16 12 7 2 3
    [[(20, 21, 22, 255); (7, 8, 9, 255); (10, 11, 12, 255)];
     [blank; (20, 21, 22, 255); (7, 8, 9, 255)]]
    [Gt_literal [(20, 21, 22)]; Gt_copy 1 2 2 (Long 1 true); Gt_copy 3 0 1 (Short 0);
     Gt_copy 0 3 2 (Short 1)] [9] demo_world) as (w' & E & _).
  1-5: split; lia.
  - lia.
  - done.
  - by repeat constructor.
  - cbn [glz_tokens_ok glz_token_ok]. split_and!;
      lazymatch goal with
      | |- Forall _ _ => apply list.Forall_cons; split; [cbn; unfold in_unsigned; lia|constructor]
      | |- form_ok _ _ _ => cbv beta iota delta [form_ok]; lia
      | |- _ => first [exact I | vm_compute; reflexivity | vm_compute; discriminate]
      end.
  - reflexivity.
  - split; [|constructor]. split.
    + intros id ps. unfold demo_wanted. destruct (Z.eqb_spec id 6) as [->|]; [|done].
      intros [= <-]. reflexivity.
    + intros id Hid. apply Z.eqb_eq in Hid as ->. by split.
  - exact (f_equal fst E).
Defined.

(** A reference can miss an image that is there: if another channel inserts it
    after the decoder's first lookup and before it starts to wait, the wait has
    no notification to end it and runs into its timeout, and the pixels stay
    blank. *)
Theorem glz_lost_wakeup :
  let insert_6 d := default d (gd_insert true d 6 (flat demo_pixels)) in
  let d := mkGlzDictionary (mkByteBoundedLru (None, []) 0 150 10 0 0) 0
             (Some EVICTED_ID_TOMBSTONES, []) false in
  let turns := [mkTurn id false; mkTurn insert_6 false] in
  let '(w, found) := previous_image (mkWorld d turns) 6 in
  found = None /\ wo_turns w = [] /\
  snd (gd_get (wo_dictionary w) 6) = Some (flat demo_pixels).
Proof. vm_compute. by split_and!. Qed.

(** Image 4 misses at the second lock, before the two turns that are left. *)
Lemma glz_previous_image_outcome_witness :
  let turns := [mkTurn id false; mkTurn id false; mkTurn id true; mkTurn id false] in
  let r := previous_image (mkWorld demo_dictionary turns) 4 in
  snd r = None /\ length (wo_turns (fst r)) = 2%nat /\
  gd_was_evicted (wo_dictionary (fst r)) 4 = true.
Proof.
  cbv zeta. pose proof (list_lru_laws (list Z)). pose proof (list_lru_laws unit).
  pose proof (glz_previous_image_outcome (mkWorld demo_dictionary
    [mkTurn id false; mkTurn id false; mkTurn id true; mkTurn id false]) 4) as Ho.
  destruct (previous_image _ 4) as [w [p|]] eqn:E; [vm_compute in E; discriminate E|].
  cbn [fst snd]. split; [done|]. destruct Ho as [[Hev Ht]|[Ht|_]].
  - by rewrite Ht.
  - vm_compute in E. injection E as <-. discriminate Ht.
  - vm_compute in E. by injection E as <-.
Defined.
