(* ===== verification/QuicModel.v ===== *)
(** The statistical model of the QUIC decoder:
    [shakenfist-spice-compression/src/quic.rs], lines 9 to 482.

    Golomb code families, the bucketed model of a channel, its adaptive state and
    the pseudo-random wait sequence, with the tables copied from the source.
    Shifts by 32 or more and out-of-range indexing are panics ([None]); the sums
    that build the tables are evaluated at the decoder's two depths and stay
    small.  The theorems relate the Golomb decoder to a reference code. *)
From Stdlib Require Import ZArith Lia List.
From stdpp Require Import base numbers list tactics.
From S2P Require Import Prelude Lz.

Open Scope Z_scope.
Open Scope rust_scope.

(** * Constants and tables *)

Definition QUIC_IMAGE_TYPE_INVALID : Z := 0.
Definition QUIC_IMAGE_TYPE_GRAY : Z := 1.
Definition QUIC_IMAGE_TYPE_RGB16 : Z := 2.
Definition QUIC_IMAGE_TYPE_RGB24 : Z := 3.
Definition QUIC_IMAGE_TYPE_RGB32 : Z := 4.
Definition QUIC_IMAGE_TYPE_RGBA : Z := 5.

Definition DEFEVOL : Z := 3.
Definition DEFWMIMAX : Z := 6.
Definition DEFWMINEXT : Z := 2048.
Definition DEFMAXCLEN : Z := 26.

Definition RGB32_PIXEL_PAD : Z := 3.
Definition RGB32_PIXEL_R : Z := 2.
Definition RGB32_PIXEL_G : Z := 1.
Definition RGB32_PIXEL_B : Z := 0.
Definition RGB32_PIXEL_SIZE : Z := 4.

Definition BPPMASK : list Z := [
   0x00000000; 0x00000001; 0x00000003; 0x00000007; 0x0000000f; 0x0000001f; 0x0000003f; 0x0000007f;
   0x000000ff; 0x000001ff; 0x000003ff; 0x000007ff; 0x00000fff; 0x00001fff; 0x00003fff; 0x00007fff;
   0x0000ffff; 0x0001ffff; 0x0003ffff; 0x0007ffff; 0x000fffff; 0x001fffff; 0x003fffff; 0x007fffff;
   0x00ffffff; 0x01ffffff; 0x03ffffff; 0x07ffffff; 0x0fffffff; 0x1fffffff; 0x3fffffff; 0x7fffffff;
   0xffffffff
].

Definition BESTTRIGTAB : list (list Z) := [
   [550; 900; 800; 700; 500; 350; 300; 200; 180; 180; 160];
   [110; 550; 900; 800; 550; 400; 350; 250; 140; 160; 140];
   [100; 120; 550; 900; 700; 500; 400; 300; 220; 250; 160]
].

Definition MELCSTATES : Z := 32.

Definition J : list Z := [
   0; 0; 0; 0; 1; 1; 1; 1; 2; 2; 2; 2; 3; 3; 3; 3;
   4; 4; 5; 5; 6; 6; 7; 7; 8; 9; 10; 11; 12; 13; 14; 15
].

Definition LZEROES : list Z := [
   8; 7; 6; 6; 5; 5; 5; 5; 4; 4; 4; 4; 4; 4; 4; 4; 3; 3; 3; 3; 3; 3; 3; 3; 3; 3; 3; 3; 3; 3; 3; 3;
   2; 2; 2; 2; 2; 2; 2; 2; 2; 2; 2; 2; 2; 2; 2; 2; 2; 2; 2; 2; 2; 2; 2; 2; 2; 2; 2; 2; 2; 2; 2; 2;
   1; 1; 1; 1; 1; 1; 1; 1; 1; 1; 1; 1; 1; 1; 1; 1; 1; 1; 1; 1; 1; 1; 1; 1; 1; 1; 1; 1; 1; 1; 1; 1;
   1; 1; 1; 1; 1; 1; 1; 1; 1; 1; 1; 1; 1; 1; 1; 1; 1; 1; 1; 1; 1; 1; 1; 1; 1; 1; 1; 1; 1; 1; 1; 1;
   0; 0; 0; 0; 0; 0; 0; 0; 0; 0; 0; 0; 0; 0; 0; 0; 0; 0; 0; 0; 0; 0; 0; 0; 0; 0; 0; 0; 0; 0; 0; 0;
   0; 0; 0; 0; 0; 0; 0; 0; 0; 0; 0; 0; 0; 0; 0; 0; 0; 0; 0; 0; 0; 0; 0; 0; 0; 0; 0; 0; 0; 0; 0; 0;
   0; 0; 0; 0; 0; 0; 0; 0; 0; 0; 0; 0; 0; 0; 0; 0; 0; 0; 0; 0; 0; 0; 0; 0; 0; 0; 0; 0; 0; 0; 0; 0;
   0; 0; 0; 0; 0; 0; 0; 0; 0; 0; 0; 0; 0; 0; 0; 0; 0; 0; 0; 0; 0; 0; 0; 0; 0; 0; 0; 0; 0; 0; 0; 0
].

Definition TABRAND_CHAOS : list Z := [
   0x02c57542; 0x35427717; 0x2f5a2153; 0x9244f155; 0x7bd26d07; 0x354c6052; 0x57329b28; 0x2993868e;
   0x6cd8808c; 0x147b46e0; 0x99db66af; 0xe32b4cac; 0x1b671264; 0x9d433486; 0x62a4c192; 0x06089a4b;
   0x9e3dce44; 0xdaabee13; 0x222425ea; 0xa46f331d; 0xcd589250; 0x8bb81d7f; 0xc8b736b9; 0x35948d33;
   0xd7ac7fd0; 0x5fbe2803; 0x2cfbc105; 0x013dbc4e; 0x7a37820f; 0x39f88e9e; 0xedd58794; 0xc5076689;
   0xfcada5a4; 0x64c2f46d; 0xb3ba3243; 0x8974b4f9; 0x5a05aebd; 0x20afcd00; 0x39e2b008; 0x88a18a45;
   0x600bde29; 0xf3971ace; 0xf37b0a6b; 0x7041495b; 0x70b707ab; 0x06beffbb; 0x4206051f; 0xe13c4ee3;
   0xc1a78327; 0x91aa067c; 0x8295f72a; 0x732917a6; 0x1d871b4d; 0x4048f136; 0xf1840e7e; 0x6a6048c1;
   0x696cb71a; 0x7ff501c3; 0x0fc6310b; 0x57e0f83d; 0x8cc26e74; 0x11a525a2; 0x946934c7; 0x7cd888f0;
   0x8f9d8604; 0x4f86e73b; 0x04520316; 0xdeeea20c; 0xf1def496; 0x67687288; 0xf540c5b2; 0x22401484;
   0x3478658a; 0xc2385746; 0x01979c2c; 0x5dad73c8; 0x0321f58b; 0xf0fedbee; 0x92826ddf; 0x284bec73;
   0x5b1a1975; 0x03df1e11; 0x20963e01; 0xa17cf12b; 0x740d776e; 0xa7a6bf3c; 0x01b5cce4; 0x1118aa76;
   0xfc6fac0a; 0xce927e9b; 0x00bf2567; 0x806f216c; 0xbca69056; 0x795bd3e9; 0xc9dc4557; 0x8929b6c2;
   0x789d52ec; 0x3f3fbf40; 0xb9197368; 0xa38c15b5; 0xc3b44fa8; 0xca8333b0; 0xb7e8d590; 0xbe807feb;
   0xbf5f8360; 0xd99e2f5c; 0x372928e1; 0x7c757c4c; 0x0db5b154; 0xc01ede02; 0x1fc86e78; 0x1f3985be;
   0xb4805c77; 0x00c880fa; 0x974c1b12; 0x35ab0214; 0xb2dc840d; 0x5b00ae37; 0xd313b026; 0xb260969d;
   0x7f4c8879; 0x1734c4d3; 0x49068631; 0xb9f6a021; 0x6b863e6f; 0xcee5debf; 0x29f8c9fb; 0x53dd6880;
   0x72b61223; 0x1f67a9fd; 0x0a0f6993; 0x13e59119; 0x11cca12e; 0xfe6b6766; 0x16b6effc; 0x97918fc4;
   0xc2b8a563; 0x94f2f741; 0x0bfa8c9a; 0xd1537ae8; 0xc1da349c; 0x873c60ca; 0x95005b85; 0x9b5c080e;
   0xbc8abbd9; 0xe1eab1d2; 0x6dac9070; 0x4ea9ebf1; 0xe0cf30d4; 0x1ef5bd7b; 0xd161043e; 0x5d2fa2e2;
   0xff5d3cae; 0x86ed9f87; 0x2aa1daa1; 0xbd731a34; 0x9e8f4b22; 0xb1c2c67a; 0xc21758c9; 0xa182215d;
   0xccb01948; 0x8d168df7; 0x04238cfe; 0x368c3dbc; 0x0aeadca5; 0xbad21c24; 0x0a71fee5; 0x9fc5d872;
   0x54c152c6; 0xfc329483; 0x6783384a; 0xeddb3e1c; 0x65f90e30; 0x884ad098; 0xce81675a; 0x4b372f7d;
   0x68bf9a39; 0x43445f1e; 0x40f8d8cb; 0x90d5acb6; 0x4cd07282; 0x349eeb06; 0x0c9d5332; 0x520b24ef;
   0x80020447; 0x67976491; 0x2f931ca3; 0xfe9b0535; 0xfcd30220; 0x61a9e6cc; 0xa487d8d7; 0x3f7c5dd1;
   0x7d0127c5; 0x48f51d15; 0x60dea871; 0xc9a91cb7; 0x58b53bb3; 0x9d5e0b2d; 0x624a78b4; 0x30dbee1b;
   0x9bdf22e7; 0x1df5c299; 0x2d5643a7; 0xf4dd35ff; 0x03ca8fd6; 0x53b47ed8; 0x6f2c19aa; 0xfeb0c1f4;
   0x49e54438; 0x2f2577e6; 0xbf876969; 0x72440ea9; 0xfa0bafb8; 0x74f5b3a0; 0x7dd357cd; 0x89ce1358;
   0x6ef2cdda; 0x1e7767f3; 0xa6be9fdb; 0x4f5f88f8; 0xba994a3a; 0x08ca6b65; 0xe0893818; 0x9e00a16a;
   0xf42bfc8f; 0x9972eedc; 0x749c8b51; 0x32c05f5e; 0xd706805f; 0x6bfbb7cf; 0xd9210a10; 0x31a1db97;
   0x923a9559; 0x37a7a1f6; 0x059f8861; 0xca493e62; 0x65157e81; 0x8f6467dd; 0xab85ff9f; 0x9331aff2;
   0x8616b9f5; 0xedbd5695; 0xee7e29b1; 0x313ac44f; 0xb903112f; 0x432ef649; 0xdc0a36c0; 0x61cf2bba;
   0x81474925; 0xa8b6c7ad; 0xee5931de; 0xb2f8158d; 0x59fb7409; 0x2e3dfaed; 0x9af25a3f; 0xe1fed4d5
].

(** * 32-bit shifts; a shift by the width or more panics *)

Definition shr32 (x n : Z) : option Z :=
  if (0 <=? n) && (n <? 32) then Some (Z.shiftr x n) else None.
Definition shl32 (x n : Z) : option Z :=
  if (0 <=? n) && (n <? 32) then Some (Z.shiftl x n mod 2 ^ 32) else None.

(** * Golomb code families *)

Record Family : Type := mkFamily {
  n_gr_codewords : list Z;
  not_gr_cw_len : list Z;
  not_gr_prefix_mask : list Z;
  not_gr_suffix_len : list Z;
  xlat_u2l : list Z;
  xlat_l2u : list Z
}.

Definition Family_new : Family :=
  mkFamily (replicate 8 0) (replicate 8 0) (replicate 8 0) (replicate 8 0) [] [].

(** [while val != 0]; a [u32] is 0 after 32 halvings. *)
Fixpoint ceil_log_2_loop (fuel : nat) (val result : Z) : Z :=
  match fuel with
  | O => result
  | S fuel =>
      if val =? 0 then result
      else
        let val := Z.shiftr val 1 in
        ceil_log_2_loop fuel val (if negb (val =? 0) then result + 1 else result)
  end.

Definition ceil_log_2 (val : Z) : Z :=
  if val =? 1 then 0 else ceil_log_2_loop 32 (val - 1) 1.

(** The body of [for l in 0..bpc]. *)
Definition family_code (bpc limit : Z) (family : Family) (l : Z) : option Family :=
  mask ← index BPPMASK (bpc - l);
  let altprefixlen := limit - bpc in
  let altprefixlen := if mask <? altprefixlen then mask else altprefixlen in
  full ← index BPPMASK bpc;
  words ← shl32 altprefixlen l;
  let altcodewords := full + 1 - words in
  n_gr ← set_index (n_gr_codewords family) l words;
  cw_len ← set_index (not_gr_cw_len family) l (altprefixlen + ceil_log_2 altcodewords);
  prefix ← index BPPMASK (32 - altprefixlen);
  prefix_mask ← set_index (not_gr_prefix_mask family) l prefix;
  suffix_len ← set_index (not_gr_suffix_len family) l (ceil_log_2 altcodewords);
  Some (mkFamily n_gr cw_len prefix_mask suffix_len (xlat_u2l family) (xlat_l2u family)).

Fixpoint family_codes (bpc limit : Z) (ls : list nat) (family : Family) : option Family :=
  match ls with
  | [] => Some family
  | l :: ls =>
      family ← family_code bpc limit family (Z.of_nat l);
      family_codes bpc limit ls family
  end.

(** The two translation tables; every slot is assigned in turn. *)
Definition u2l (pixelbitmask s : Z) : Z :=
  if s <=? Z.shiftr pixelbitmask 1 then Z.shiftl s 1
  else Z.shiftl (pixelbitmask - s) 1 + 1.
Definition l2u (pixelbitmask s : Z) : Z :=
  if Z.land s 1 =? 1 then pixelbitmask - Z.shiftr s 1 else Z.shiftr s 1.

Definition zrange (n : Z) : list Z := map Z.of_nat (seq 0 (Z.to_nat n)).

Definition family_init (family : Family) (bpc limit : Z) : option Family :=
  family ← family_codes bpc limit (seq 0 (Z.to_nat bpc)) family;
  pixelbitmask ← index BPPMASK bpc;
  Some (mkFamily (n_gr_codewords family) (not_gr_cw_len family) (not_gr_prefix_mask family)
          (not_gr_suffix_len family)
          (map (u2l pixelbitmask) (zrange (pixelbitmask + 1)))
          (map (l2u pixelbitmask) (zrange (pixelbitmask + 1)))).

Definition checked_run_end (start run end' : Z) : option Z :=
  room ← checked_sub end' start;
  if run <=? room then Some (start + run) else None.

Definition quic_image_bpc (image_type : Z) : Z :=
  if image_type =? QUIC_IMAGE_TYPE_GRAY then 8
  else if image_type =? QUIC_IMAGE_TYPE_RGB16 then 5
  else if (image_type =? QUIC_IMAGE_TYPE_RGB24) || (image_type =? QUIC_IMAGE_TYPE_RGB32)
          || (image_type =? QUIC_IMAGE_TYPE_RGBA) then 8
  else 0.

Definition cnt_l_zeroes (bits : Z) : option Z :=
  if negb (Z.land bits 0xff800000 =? 0) then index LZEROES (Z.shiftr bits 24)
  else if negb (Z.land bits 0xffff8000 =? 0) then
    n ← index LZEROES (Z.land (Z.shiftr bits 16) 0xff); Some (8 + n)
  else if negb (Z.land bits 0xffffff80 =? 0) then
    n ← index LZEROES (Z.land (Z.shiftr bits 8) 0xff); Some (16 + n)
  else
    n ← index LZEROES (Z.land bits 0xff); Some (24 + n).

(** The code length and the value of the code at the head of [bits]. *)
Definition golomb_decoding_8bpc (l bits : Z) (family_8bpc : Family) : option (Z * Z) :=
  prefix_mask ← index (not_gr_prefix_mask family_8bpc) l;
  if (as_signed 32 bits <? 0) || (prefix_mask <? bits) then
    zeroprefix ← cnt_l_zeroes bits;
    let cwlen := zeroprefix + 1 + l in
    high ← shl32 zeroprefix l;
    low ← shr32 bits (32 - cwlen);
    mask ← index BPPMASK l;
    Some (cwlen, Z.land (Z.lor high (Z.land low mask)) 0xff)
  else
    cwlen ← index (not_gr_cw_len family_8bpc) l;
    n_gr ← index (n_gr_codewords family_8bpc) l;
    low ← shr32 bits (32 - cwlen);
    suffix_len ← index (not_gr_suffix_len family_8bpc) l;
    mask ← index BPPMASK suffix_len;
    Some (cwlen, Z.land (n_gr + Z.land low mask) 0xff).

Definition golomb_code_len_8bpc (n l : Z) (family_8bpc : Family) : option Z :=
  n_gr ← index (n_gr_codewords family_8bpc) l;
  if n <? n_gr then Some (Z.shiftr n l + 1 + l)
  else index (not_gr_cw_len family_8bpc) l.

(** * The bucketed model *)

Record QuicModel : Type := mkQuicModel {
  qm_n_buckets : Z;
  qm_repfirst : Z;
  qm_firstsize : Z;
  qm_repnext : Z;
  qm_mulsize : Z;
  qm_levels : Z
}.

Definition evolution : Z * Z * Z * Z :=
  match DEFEVOL with
  | 1 => (3, 1, 2, 2)
  | 3 => (1, 1, 1, 2)
  | 5 => (1, 1, 1, 4)
  | _ => (1, 1, 1, 2)
  end.

(** The loop variables shared by [QuicModel::new] and [fill_model_structures]:
    the bucket number, the counter, the bucket size and the last end. *)
Record bucket_vars : Type := mkBucketVars {
  bv_number : Z;
  bv_repcntr : Z;
  bv_bsize : Z;
  bv_bend : Z
}.

(** One round up to the assignment of [bend]: the start and the new variables. *)
Definition next_bucket (repnext mulsize levels : Z) (v : bucket_vars) : Z * bucket_vars :=
  let bstart := if 0 <? bv_number v then bv_bend v + 1 else 0 in
  let repcntr := bv_repcntr v - 1 in
  let '(repcntr, bsize) :=
    if repcntr =? 0 then (repnext, bv_bsize v * mulsize) else (repcntr, bv_bsize v) in
  let bend := bstart + bsize - 1 in
  let bend := if levels <=? bend + bsize then levels - 1 else bend in
  (bstart, mkBucketVars (bv_number v) repcntr bsize bend).

Fixpoint n_buckets_loop (fuel : nat) (repnext mulsize levels : Z) (v : bucket_vars) : option Z :=
  match fuel with
  | O => None
  | S fuel =>
      let '(_, v) := next_bucket repnext mulsize levels v in
      let n_buckets := bv_number v + 1 in
      if levels - 1 <=? bv_bend v then Some n_buckets
      else n_buckets_loop fuel repnext mulsize levels
             (mkBucketVars n_buckets (bv_repcntr v) (bv_bsize v) (bv_bend v))
  end.

Definition QuicModel_new (bpc : Z) : option QuicModel :=
  levels ← shl32 1 bpc;
  let '(repfirst, firstsize, repnext, mulsize) := evolution in
  n_buckets ← n_buckets_loop (Z.to_nat levels) repnext mulsize levels
                (mkBucketVars 0 (repfirst + 1) firstsize 0);
  Some (mkQuicModel n_buckets repfirst firstsize repnext mulsize levels).

Record CommonState : Type := mkCommonState {
  waitcnt : Z;
  tabrand_seed : Z;
  wm_trigger : Z;
  wmidx : Z;
  wmileft : Z;
  melcstate : Z;
  melclen : Z;
  melcorder : Z
}.

Record QuicBucket : Type := mkQuicBucket {
  bestcode : Z;
  counters : list Z
}.

Definition QuicBucket_new : QuicBucket := mkQuicBucket 0 (replicate 8 0).
Definition QuicBucket_reset (bpp : Z) (b : QuicBucket) : QuicBucket :=
  mkQuicBucket bpp (replicate 8 0).


(** [self.counters[i] = self.counters[i].saturating_add(golomb_code_len_8bpc(..))] *)
Definition count_code (curval : Z) (family_8bpc : Family) (cs : list Z) (i : Z)
  : option (list Z) :=
  c ← index cs i;
  len ← golomb_code_len_8bpc curval i family_8bpc;
  set_index cs i (saturating_add_u32 c len).

(** [for i in (0..=(bpp - 2)).rev()]: the counters, the best code and its length. *)
Fixpoint best_code_loop (curval : Z) (family_8bpc : Family) (ls : list nat)
    (cs : list Z) (best best_len : Z) : option (list Z * Z * Z) :=
  match ls with
  | [] => Some (cs, best, best_len)
  | i :: ls =>
      let i := Z.of_nat i in
      cs ← count_code curval family_8bpc cs i;
      len ← index cs i;
      if len <? best_len then best_code_loop curval family_8bpc ls cs i len
      else best_code_loop curval family_8bpc ls cs best best_len
  end.

Definition halve_counters (n : nat) (cs : list Z) : list Z :=
  map (fun c => Z.shiftr c 1) (take n cs) ++ drop n cs.

Definition update_model_8bpc (state : CommonState) (curval bpp : Z) (family_8bpc : Family)
    (b : QuicBucket) : option QuicBucket :=
  let best := bpp - 1 in
  cs ← count_code curval family_8bpc (counters b) best;
  best_len ← index cs best;
  r ← best_code_loop curval family_8bpc (rev (seq 0 (Z.to_nat (bpp - 1)))) cs best best_len;
  let '(cs, best, best_len) := r in
  Some (mkQuicBucket best
          (if wm_trigger state <? best_len then halve_counters (Z.to_nat bpp) cs else cs)).

Record QuicFamilyStat : Type := mkQuicFamilyStat {
  fs_buckets_ptrs : list Z;
  fs_n_buckets : Z
}.

Definition QuicFamilyStat_new : QuicFamilyStat := mkQuicFamilyStat [] 0.

(** [for i in bstart..=bend]: [self.buckets_ptrs[i] = bnumber] *)
Fixpoint assign_bucket (ls : list nat) (bnumber : Z) (ptrs : list Z) : option (list Z) :=
  match ls with
  | [] => Some ptrs
  | i :: ls =>
      ptrs ← set_index ptrs (Z.of_nat i) bnumber;
      assign_bucket ls bnumber ptrs
  end.

Fixpoint fill_loop (fuel : nat) (repnext mulsize levels : Z) (v : bucket_vars) (ptrs : list Z)
  : option QuicFamilyStat :=
  match fuel with
  | O => None
  | S fuel =>
      let '(bstart, v) := next_bucket repnext mulsize levels v in
      ptrs ← assign_bucket (seq (Z.to_nat bstart) (Z.to_nat (bv_bend v + 1 - bstart)))
               (bv_number v) ptrs;
      let bnumber := bv_number v + 1 in
      if levels - 1 <=? bv_bend v then Some (mkQuicFamilyStat ptrs bnumber)
      else fill_loop fuel repnext mulsize levels
             (mkBucketVars bnumber (bv_repcntr v) (bv_bsize v) (bv_bend v)) ptrs
  end.

Definition resize {A} (l : list A) (n : Z) (x : A) : list A :=
  take (Z.to_nat n) l ++ replicate (Z.to_nat n - length l) x.

Definition fill_model_structures (stat : QuicFamilyStat) (model : QuicModel)
  : option QuicFamilyStat :=
  let ptrs := resize (fs_buckets_ptrs stat) (qm_levels model) 0 in
  fill_loop (Z.to_nat (qm_levels model)) (qm_repnext model) (qm_mulsize model) (qm_levels model)
    (mkBucketVars 0 (qm_repfirst model + 1) (qm_firstsize model) 0) ptrs.

(** * The adaptive state *)

Definition with_waitcnt (s : CommonState) (w : Z) : CommonState :=
  mkCommonState w (tabrand_seed s) (wm_trigger s) (wmidx s) (wmileft s)
    (melcstate s) (melclen s) (melcorder s).
Definition with_wm (s : CommonState) (trigger idx left' : Z) : CommonState :=
  mkCommonState (waitcnt s) (tabrand_seed s) trigger idx left'
    (melcstate s) (melclen s) (melcorder s).
Definition with_melc (s : CommonState) (state len order : Z) : CommonState :=
  mkCommonState (waitcnt s) (tabrand_seed s) (wm_trigger s) (wmidx s) (wmileft s)
    state len order.

Definition set_wm_trigger (s : CommonState) : option CommonState :=
  let wm := Z.min (wmidx s) 10 in
  row ← index BESTTRIGTAB (DEFEVOL / 2);
  trigger ← index row wm;
  Some (with_wm s trigger (wmidx s) (wmileft s)).

Definition CommonState_reset (s : CommonState) : option CommonState :=
  let s := mkCommonState 0 0xff (wm_trigger s) 0 DEFWMINEXT
             (melcstate s) (melclen s) (melcorder s) in
  s ← set_wm_trigger s;
  len ← index J 0;
  Some (with_melc s 0 len (Z.shiftl 1 len)).

Definition CommonState_new : option CommonState :=
  CommonState_reset (mkCommonState 0 0xff 0 0 DEFWMINEXT 0 0 1).

Definition tabrand (s : CommonState) : option (Z * CommonState) :=
  let seed := (tabrand_seed s + 1) mod 2 ^ 32 in
  v ← index TABRAND_CHAOS (Z.land seed 0xff);
  Some (v, mkCommonState (waitcnt s) seed (wm_trigger s) (wmidx s) (wmileft s)
             (melcstate s) (melclen s) (melcorder s)).

(** * A colour channel *)

Record CorrelateRow : Type := mkCorrelateRow {
  cr_zero : Z;
  cr_row : list Z
}.

Record QuicChannel : Type := mkQuicChannel {
  ch_state : CommonState;
  family_stat_8bpc : QuicFamilyStat;
  family_stat_5bpc : QuicFamilyStat;
  correlate_row : CorrelateRow;
  buckets_ptrs : list Z;
  buckets_buf : list QuicBucket
}.

Definition QuicChannel_new (model_8bpc model_5bpc : QuicModel) : option QuicChannel :=
  stat8 ← fill_model_structures QuicFamilyStat_new model_8bpc;
  stat5 ← fill_model_structures QuicFamilyStat_new model_5bpc;
  s ← CommonState_new;
  Some (mkQuicChannel s stat8 stat5 (mkCorrelateRow 0 []) [] []).

(** [false] (the inner [None]) leaves the state, the correlation row cleared. *)
Definition QuicChannel_reset (bpc width : Z) (ch : QuicChannel)
  : option (bool * QuicChannel) :=
  let row := mkCorrelateRow 0 (replicate (Z.to_nat width) 0) in
  let fresh stat bpp :=
    (fs_buckets_ptrs stat,
     map (QuicBucket_reset bpp) (replicate (Z.to_nat (fs_n_buckets stat)) QuicBucket_new)) in
  let reset buckets :=
    s ← CommonState_reset (ch_state ch);
    Some (true, mkQuicChannel s (family_stat_8bpc ch) (family_stat_5bpc ch) row
                  (fst buckets) (snd buckets)) in
  if bpc =? 8 then reset (fresh (family_stat_8bpc ch) 7)
  else if bpc =? 5 then reset (fresh (family_stat_5bpc ch) 4)
  else Some (false, mkQuicChannel (ch_state ch) (family_stat_8bpc ch) (family_stat_5bpc ch) row
                      (buckets_ptrs ch) (buckets_buf ch)).

(** * The reference Golomb code

    With 8 bits a component and parameter [l], a value below [cutoff l * 2 ^ l]
    is its quotient in unary (zeros, then a one) and its low [l] bits; the others
    are [cutoff l] zeros and the excess in [suffix_bits l] bits. *)

Definition cutoff (l : Z) : Z := Z.min 18 (2 ^ (8 - l) - 1).
Definition suffix_bits (l : Z) : Z := Z.log2_up (256 - cutoff l * 2 ^ l).

Definition golomb_length (l n : Z) : Z :=
  if n <? cutoff l * 2 ^ l then n / 2 ^ l + 1 + l else cutoff l + suffix_bits l.
Definition golomb_codeword (l n : Z) : Z :=
  if n <? cutoff l * 2 ^ l then 2 ^ l + n mod 2 ^ l else n - cutoff l * 2 ^ l.

(** The family the decoder uses. *)
Inductive is_family8 (f : Family) : Prop :=
| Is_family8 : family_init Family_new 8 DEFMAXCLEN = Some f -> is_family8 f.

#[global] Arguments TABRAND_CHAOS : simpl never.
#[global] Arguments LZEROES : simpl never.
#[global] Arguments BPPMASK : simpl never.
#[global] Arguments J : simpl never.
#[global] Arguments BESTTRIGTAB : simpl never.

(** * Tables *)

(** A decidable fact of every index of a table, checked by evaluation. *)
Lemma below_check (n : nat) (P : Z -> Prop) `{forall x, Decision (P x)} x :
  forallb (fun i => bool_decide (P (Z.of_nat i))) (seq 0 n) = true ->
  0 <= x < Z.of_nat n -> P x.
Proof.
  intros Hall Hx. rewrite forallb_forall in Hall.
  specialize (Hall (Z.to_nat x)). rewrite Z2Nat.id, bool_decide_eq_true in Hall by lia.
  apply Hall, in_seq. lia.
Qed.

Lemma index_Forall {A} (P : A -> Prop) (l : list A) i :
  Forall P l -> 0 <= i < zlen l -> exists x, index l i = Some x /\ P x.
Proof.
  intros HP Hi. destruct (index_is_Some l i Hi) as [x Hx]. exists x. split; [done|].
  rewrite index_lookup in Hx by done. by eapply Forall_lookup_1.
Qed.

Lemma bppmask_index n : 0 <= n <= 32 -> index BPPMASK n = Some (2 ^ n - 1).
Proof.
  intros Hn. apply (below_check 33 (fun n => index BPPMASK n = Some (2 ^ n - 1))); [|lia].
  by vm_compute.
Qed.

Lemma land_mask x n : 0 <= n -> Z.land x (2 ^ n - 1) = x mod 2 ^ n.
Proof. intros Hn. by rewrite <- Z.land_ones, Z.ones_equiv by lia. Qed.

Lemma land_255 x : 0 <= x < 256 -> Z.land x 255 = x.
Proof. intros Hx. change 255 with (2 ^ 8 - 1). rewrite land_mask by lia. by apply Z.mod_small. Qed.

(** A mask of the high bits tests whether the value reaches them. *)
Lemma land_high x k : 0 <= k <= 32 -> 0 <= x < 2 ^ 32 ->
  (Z.land x (2 ^ 32 - 2 ^ k) =? 0) = (x <? 2 ^ k).
Proof.
  intros Hk Hx.
  assert (Z.land x (2 ^ 32 - 2 ^ k) = Z.shiftl (Z.shiftr x k) k) as ->.
  { replace (2 ^ 32 - 2 ^ k) with (Z.shiftl (Z.ones (32 - k)) k).
    2:{ rewrite Z.shiftl_mul_pow2, Z.ones_equiv by lia.
        replace (2 ^ 32) with (2 ^ (32 - k) * 2 ^ k) by (rewrite <- Z.pow_add_r by lia; f_equal; lia).
        lia. }
    apply Z.bits_inj'. intros n Hn. rewrite Z.land_spec.
    destruct (Z.lt_ge_cases n k).
    { by rewrite !Z.shiftl_spec_low, andb_false_r by lia. }
    rewrite !Z.shiftl_spec by lia. rewrite Z.shiftr_spec by lia.
    replace (n - k + k) with n by lia.
    destruct (Z.lt_ge_cases n 32).
    { by rewrite Z.ones_spec_low, andb_true_r by lia. }
    rewrite Z.ones_spec_high, andb_false_r by lia.
    symmetry. rewrite <- (Z.mod_small x (2 ^ 32)) by lia. by apply Z.mod_pow2_bits_high; lia. }
  rewrite Z.shiftl_mul_pow2, Z.shiftr_div_pow2 by lia.
  pose proof (Z.pow_pos_nonneg 2 k ltac:(lia) ltac:(lia)).
  destruct (Z.ltb_spec x (2 ^ k)) as [Hlt|Hge].
  - by rewrite Z.div_small by lia.
  - apply Z.eqb_neq. pose proof (Z.div_le_lower_bound x (2 ^ k) 1 ltac:(lia) ltac:(lia)). nia.
Qed.

Definition leading_zeroes (w x : Z) : Z := if x =? 0 then w else w - 1 - Z.log2 x.

Lemma lzeroes_index x : 0 <= x < 256 -> index LZEROES x = Some (leading_zeroes 8 x).
Proof.
  intros Hx. apply (below_check 256 (fun x => index LZEROES x = Some (leading_zeroes 8 x))); [|lia].
  by vm_compute.
Qed.

(** Shifting out [k] bits of a value below [2 ^ (k + 8)] takes [k] from the width. *)
Lemma leading_zeroes_shiftr w x k :
  0 <= k -> 2 ^ (k - 1) <= x -> 0 < x ->
  leading_zeroes w x = leading_zeroes (w - k) (Z.shiftr x k).
Proof.
  intros Hk Hx Hpos. unfold leading_zeroes. rewrite (proj2 (Z.eqb_neq x 0)) by lia.
  rewrite Z.shiftr_div_pow2 by lia.
  destruct (Z.eqb_spec (x / 2 ^ k) 0) as [E|E].
  - apply Z.div_small_iff in E; [|apply Z.pow_nonzero; lia].
    destruct (Z.eq_dec k 0) as [->|]; [lia|].
    rewrite (Z.log2_unique x (k - 1)); [lia|lia|].
    replace (Z.succ (k - 1)) with k by lia. lia.
  - pose proof (Z.div_pos x (2 ^ k)  ltac:(lia) ltac:(apply Z.pow_pos_nonneg; lia)).
    rewrite <- Z.shiftr_div_pow2, Z.log2_shiftr by lia.
    assert (k <= Z.log2 x).
    { apply Z.log2_le_pow2; [done|]. destruct (Z.lt_ge_cases x (2 ^ k)); [|lia]. by rewrite Z.div_small in E by lia. }
    lia.
Qed.

Lemma cnt_l_zeroes_spec bits : u32 bits -> cnt_l_zeroes bits = Some (leading_zeroes 32 bits).
Proof.
  intros [H0 H1]. unfold cnt_l_zeroes.
  change 0xff800000 with (2 ^ 32 - 2 ^ 23). change 0xffff8000 with (2 ^ 32 - 2 ^ 15).
  change 0xffffff80 with (2 ^ 32 - 2 ^ 7).
  rewrite !land_high by lia.
  assert (forall k, 0 <= k -> bits < 2 ^ (k + 8) -> 0 <= Z.shiftr bits k < 256) as Hs.
  { intros k Hk Hb. rewrite Z.shiftr_div_pow2 by lia.
    rewrite Z.pow_add_r in Hb by lia. change (2 ^ 8) with 256 in Hb.
    pose proof (Z.pow_pos_nonneg 2 k ltac:(lia) Hk). split; [by apply Z.div_pos; lia|].
    apply Z.div_lt_upper_bound; lia. }
  assert (forall k, 0 < k -> bits < 2 ^ (k + 8) -> 2 ^ (k - 1) <= bits ->
    index LZEROES (Z.shiftr bits k) = Some (leading_zeroes 32 bits - (24 - k))) as Hk.
  { intros k Hk Hb Hl. rewrite lzeroes_index by (apply Hs; lia). f_equal.
    pose proof (Z.pow_pos_nonneg 2 (k - 1) ltac:(lia) ltac:(lia)).
    rewrite (leading_zeroes_shiftr 32 bits k) by lia. unfold leading_zeroes.
    destruct (Z.shiftr bits k =? 0); lia. }
  destruct (Z.ltb_spec bits (2 ^ 23)); simpl negb; cbv iota.
  2:{ rewrite Hk by (simpl; lia). f_equal. lia. }
  destruct (Z.ltb_spec bits (2 ^ 15)); simpl negb; cbv iota.
  2:{ rewrite land_255 by (apply Hs; simpl; lia). rewrite Hk by (simpl; lia). simpl. f_equal. lia. }
  destruct (Z.ltb_spec bits (2 ^ 7)); simpl negb; cbv iota.
  2:{ rewrite land_255 by (apply Hs; simpl; lia). rewrite Hk by (simpl; lia). simpl. f_equal. lia. }
  rewrite land_255, lzeroes_index by lia. simpl. f_equal. unfold leading_zeroes.
  destruct (bits =? 0); lia.
Qed.

(** * The family of 8-bit codes *)

Lemma family8_exists : exists f, is_family8 f.
Proof. eexists. constructor. vm_compute. reflexivity. Qed.

(** What the tables of the family hold for the parameter [l]. *)
Record code_params (f : Family) (l : Z) : Prop := {
  cp_n_gr : index (n_gr_codewords f) l = Some (cutoff l * 2 ^ l);
  cp_len : index (not_gr_cw_len f) l = Some (cutoff l + suffix_bits l);
  cp_prefix : index (not_gr_prefix_mask f) l = Some (2 ^ (32 - cutoff l) - 1);
  cp_suffix : index (not_gr_suffix_len f) l = Some (suffix_bits l);
  cp_cutoff : 1 <= cutoff l <= 18 /\ cutoff l + l <= 25;
  cp_n_gr_le : 0 <= cutoff l * 2 ^ l < 256;
  cp_bits : 1 <= suffix_bits l <= 8 /\ 256 - cutoff l * 2 ^ l <= 2 ^ suffix_bits l
}.

Lemma family8_params f l : is_family8 f -> 0 <= l < 8 -> code_params f l.
Proof.
  intros Hf Hl.
  assert (option_map n_gr_codewords (family_init Family_new 8 DEFMAXCLEN) =
          Some (map (fun l => cutoff l * 2 ^ l) (zrange 8))) as H1 by (vm_compute; reflexivity).
  assert (option_map not_gr_cw_len (family_init Family_new 8 DEFMAXCLEN) =
          Some (map (fun l => cutoff l + suffix_bits l) (zrange 8))) as H2
    by (vm_compute; reflexivity).
  assert (option_map not_gr_prefix_mask (family_init Family_new 8 DEFMAXCLEN) =
          Some (map (fun l => 2 ^ (32 - cutoff l) - 1) (zrange 8))) as H3
    by (vm_compute; reflexivity).
  assert (option_map not_gr_suffix_len (family_init Family_new 8 DEFMAXCLEN) =
          Some (map suffix_bits (zrange 8))) as H4 by (vm_compute; reflexivity).
  destruct Hf as [Hf]. rewrite Hf in *. cbn [option_map] in H1, H2, H3, H4.
  apply (inj Some) in H1, H2, H3, H4.
  assert (forall g : Z -> Z, index (map g (zrange 8)) l = Some (g l)) as Hg.
  { intros g. rewrite index_lookup by (rewrite zlen_map; vm_compute zlen; lia).
    unfold zrange. rewrite map_map, list_lookup_fmap, lookup_seq_lt by lia. simpl.
    by rewrite Z2Nat.id by lia. }
  split; try (rewrite ?H1, ?H2, ?H3, ?H4; apply Hg).
  1: apply (below_check 8 (fun l => 1 <= cutoff l <= 18 /\ cutoff l + l <= 25)); [by vm_compute|lia].
  1: apply (below_check 8 (fun l => 0 <= cutoff l * 2 ^ l < 256)); [by vm_compute|lia].
  apply (below_check 8 (fun l => 1 <= suffix_bits l <= 8 /\
    256 - cutoff l * 2 ^ l <= 2 ^ suffix_bits l)); [by vm_compute|lia].
Qed.

Lemma family8_l2u f s : is_family8 f -> 0 <= s < 256 ->
  index (xlat_l2u f) s = Some (l2u 255 s) /\ 0 <= l2u 255 s < 256.
Proof.
  intros Hf Hs.
  assert (option_map xlat_l2u (family_init Family_new 8 DEFMAXCLEN) =
          Some (map (l2u 255) (zrange 256))) as H by (vm_compute; reflexivity).
  destruct Hf as [Hf]. rewrite Hf in H. cbn [option_map] in H. apply (inj Some) in H. rewrite H.
  apply (below_check 256 (fun s => index (map (l2u 255) (zrange 256)) s = Some (l2u 255 s) /\
    0 <= l2u 255 s < 256)); [by vm_compute|lia].
Qed.

Lemma shr32_div x n : 0 <= n < 32 -> shr32 x n = Some (x / 2 ^ n).
Proof.
  intros Hn. unfold shr32. rewrite (proj2 (Z.leb_le 0 n)), (proj2 (Z.ltb_lt n 32)) by lia.
  simpl. by rewrite Z.shiftr_div_pow2 by lia.
Qed.

Lemma shl32_mul x n : 0 <= n < 32 -> 0 <= x * 2 ^ n < 2 ^ 32 -> shl32 x n = Some (x * 2 ^ n).
Proof.
  intros Hn Hx. unfold shl32. rewrite (proj2 (Z.leb_le 0 n)), (proj2 (Z.ltb_lt n 32)) by lia.
  simpl. by rewrite Z.shiftl_mul_pow2, Z.mod_small by lia.
Qed.

(** Or-ing a value below [2 ^ n] onto a multiple of [2 ^ n] adds it. *)
Lemma lor_shift_add a b n : 0 <= n -> 0 <= b < 2 ^ n -> Z.lor (a * 2 ^ n) b = a * 2 ^ n + b.
Proof.
  intros Hn Hb. pose proof (Zbitwise.Z.add_lor_land (a * 2 ^ n) b) as H.
  assert (Z.land (a * 2 ^ n) b = 0) as H0.
  { rewrite <- Z.shiftl_mul_pow2 by done. apply Z.bits_inj'. intros i Hi.
    rewrite Z.land_spec, Z.bits_0. destruct (Z.lt_ge_cases i n).
    - by rewrite Z.shiftl_spec_low.
    - rewrite <- (Z.mod_small b (2 ^ n)) by done.
      by rewrite Z.mod_pow2_bits_high, andb_false_r by lia. }
  lia.
Qed.

(** ** Decoding inverts the reference code *)

Lemma pow2_pos n : 0 <= n -> 0 < 2 ^ n.
Proof. intros. by apply Z.pow_pos_nonneg. Qed.

(** The test that selects the unary branch. *)
Lemma golomb_branch f l bits : code_params f l -> u32 bits ->
  ((as_signed 32 bits <? 0) || (2 ^ (32 - cutoff l) - 1 <? bits)) = (2 ^ (32 - cutoff l) <=? bits).
Proof.
  intros Hp [Hb1 Hb2]. pose proof (cp_cutoff _ _ Hp) as Hc.
  unfold as_signed. change (2 ^ (32 - 1)) with (2 ^ 31).
  pose proof (Z.pow_le_mono_r 2 (32 - cutoff l) 31 ltac:(lia) ltac:(lia)).
  destruct (Z.ltb_spec bits (2 ^ 31)).
  - rewrite (proj2 (Z.ltb_ge bits 0)) by lia. simpl.
    destruct (Z.ltb_spec (2 ^ (32 - cutoff l) - 1) bits), (Z.leb_spec (2 ^ (32 - cutoff l)) bits); lia.
  - rewrite (proj2 (Z.ltb_lt (bits - 2 ^ 32) 0)) by lia.
    symmetry. apply Z.leb_le. lia.
Qed.

(** The unary branch: the zeros of [bits] are the quotient, the next [l] bits after
    the one the remainder. *)
Lemma golomb_unary f l bits : code_params f l -> 0 <= l < 8 -> u32 bits ->
  2 ^ (32 - cutoff l) <= bits ->
  let q := 31 - Z.log2 bits in
  let low := bits / 2 ^ (32 - (q + 1 + l)) in
  0 <= q < cutoff l /\
  golomb_decoding_8bpc l bits f = Some (q + 1 + l, q * 2 ^ l + low mod 2 ^ l).
Proof.
  intros Hp Hl Hb Hbits q low. pose proof (golomb_branch f l bits Hp Hb) as Hbr.
  destruct Hp. destruct Hb as [Hb0 Hb].
  pose proof (pow2_pos (32 - cutoff l) ltac:(lia)).
  assert (0 <= q < cutoff l) as Hq.
  { pose proof (Z.log2_lt_pow2 bits 32 ltac:(lia)) as [H1 _].
    pose proof (Z.log2_le_pow2 bits (32 - cutoff l) ltac:(lia)) as [H2 _]. subst q. lia. }
  split; [done|]. unfold golomb_decoding_8bpc. rewrite cp_prefix0. simpl.
  rewrite Hbr, (proj2 (Z.leb_le _ _)) by lia.
  rewrite cnt_l_zeroes_spec by done. simpl.
  replace (leading_zeroes 32 bits) with q by (unfold leading_zeroes; rewrite (proj2 (Z.eqb_neq bits 0)) by lia; lia).
  pose proof (pow2_pos l ltac:(lia)).
  assert (q * 2 ^ l + 2 ^ l <= 256) by nia.
  rewrite shl32_mul by (try change (2 ^ 32) with 4294967296; lia). simpl.
  rewrite shr32_div by lia. simpl. rewrite bppmask_index by lia. simpl.
  rewrite land_mask by lia. fold low.
  pose proof (Z.mod_pos_bound low (2 ^ l) ltac:(lia)).
  rewrite lor_shift_add, land_255 by lia. done.
Qed.

(** The other branch: the suffix after [cutoff l] zeros. *)
Lemma golomb_suffix f l bits : code_params f l -> 0 <= l < 8 -> u32 bits ->
  bits < 2 ^ (32 - cutoff l) ->
  golomb_decoding_8bpc l bits f =
    Some (cutoff l + suffix_bits l,
          (cutoff l * 2 ^ l + bits / 2 ^ (32 - (cutoff l + suffix_bits l))) mod 256).
Proof.
  intros Hp Hl Hb Hbits. pose proof (golomb_branch f l bits Hp Hb) as Hbr.
  destruct Hp. destruct Hb as [Hb0 Hb].
  unfold golomb_decoding_8bpc. rewrite cp_prefix0. simpl.
  rewrite Hbr, (proj2 (Z.leb_gt _ _)) by lia.
  rewrite cp_len0, cp_n_gr0. simpl. rewrite shr32_div by lia. simpl.
  rewrite cp_suffix0. simpl. rewrite bppmask_index by lia. simpl.
  rewrite land_mask by lia. change 255 with (2 ^ 8 - 1). rewrite land_mask by lia.
  f_equal. f_equal. f_equal. f_equal. apply Z.mod_small. split.
  - apply Z.div_pos; [done|]. apply pow2_pos; lia.
  - apply Z.div_lt_upper_bound; [apply pow2_pos; lia|].
    rewrite <- Z.pow_add_r by lia.
    replace (32 - (cutoff l + suffix_bits l) + suffix_bits l) with (32 - cutoff l) by lia. done.
Qed.

(** Every window decodes to a code of 1 to 26 bits and a component. *)
Lemma golomb_total f l bits : is_family8 f -> 0 <= l < 8 -> u32 bits ->
  exists cwlen rc, golomb_decoding_8bpc l bits f = Some (cwlen, rc) /\
    1 <= cwlen <= 26 /\ 0 <= rc < 256.
Proof.
  intros Hf Hl Hb. pose proof (family8_params f l Hf Hl) as Hp.
  destruct (Z.lt_ge_cases bits (2 ^ (32 - cutoff l))) as [Hlt|Hge].
  - rewrite golomb_suffix by done. destruct Hp. eexists _, _. split; [done|].
    split; [|apply Z.mod_pos_bound; lia].
    clear -Hl. apply (below_check 8 (fun l => 1 <= cutoff l + suffix_bits l <= 26)); [by vm_compute|lia].
  - destruct (golomb_unary f l bits Hp Hl Hb Hge) as [Hq ->]. destruct Hp.
    eexists _, _. split; [done|]. split; [lia|].
    pose proof (pow2_pos l ltac:(lia)).
    pose proof (Z.mod_pos_bound (bits / 2 ^ (32 - (31 - Z.log2 bits + 1 + l))) (2 ^ l) ltac:(lia)).
    nia.
Qed.

(** A window that starts with the codeword of [n] decodes to [n]. *)
Lemma golomb_decodes_codeword f l n bits :
  is_family8 f -> 0 <= l < 8 -> 0 <= n < 256 -> u32 bits ->
  bits / 2 ^ (32 - golomb_length l n) = golomb_codeword l n ->
  golomb_decoding_8bpc l bits f = Some (golomb_length l n, n).
Proof.
  intros Hf Hl Hn Hb Hcw. pose proof (family8_params f l Hf Hl) as Hp.
  pose proof (golomb_unary f l bits Hp Hl Hb) as Hun.
  pose proof (golomb_suffix f l bits Hp Hl Hb) as Hsu. destruct Hp, Hb as [Hb0 Hb].
  unfold golomb_length, golomb_codeword in *.
  pose proof (pow2_pos l ltac:(lia)) as Hpl.
  destruct (Z.ltb_spec n (cutoff l * 2 ^ l)) as [Hlt|Hge].
  - set (q := n / 2 ^ l) in *.
    assert (0 <= q < cutoff l) as Hq.
    { split; [by apply Z.div_pos; lia|]. apply Z.div_lt_upper_bound; lia. }
    set (e := 32 - (q + 1 + l)) in *. pose proof (pow2_pos e ltac:(lia)) as Hpe.
    pose proof (Z.mod_pos_bound n (2 ^ l) ltac:(lia)) as Hm.
    assert (2 ^ (31 - q) <= bits < 2 ^ (32 - q)) as Hwin.
    { replace (31 - q) with (e + l) by lia. replace (32 - q) with (1 + (e + l)) by lia.
      rewrite (Z.pow_add_r 2 1), Z.pow_add_r by lia.
      pose proof (Z.div_mod bits (2 ^ e) ltac:(lia)).
      pose proof (Z.mod_pos_bound bits (2 ^ e) ltac:(lia)). nia. }
    assert (Z.log2 bits = 31 - q) as Hlog.
    { apply Z.log2_unique; [lia|]. replace (Z.succ (31 - q)) with (32 - q) by lia. done. }
    rewrite Hlog in Hun. replace (31 - (31 - q)) with q in Hun by lia.
    destruct Hun as [_ ->].
    { pose proof (Z.pow_le_mono_r 2 (32 - cutoff l) (31 - q) ltac:(lia) ltac:(lia)). lia. }
    f_equal. f_equal. fold e. rewrite Hcw.
    rewrite <- Zplus_mod_idemp_l, Z_mod_same_full, Z.add_0_l, Z.mod_mod by lia.
    pose proof (Z.div_mod n (2 ^ l) ltac:(lia)). subst q. lia.
  - rewrite Hsu.
    + f_equal. f_equal. rewrite Hcw. replace (cutoff l * 2 ^ l + (n - cutoff l * 2 ^ l)) with n by lia.
      by apply Z.mod_small.
    + set (e := 32 - (cutoff l + suffix_bits l)) in *. pose proof (pow2_pos e) as Hpe.
      assert (0 <= e). { subst e. clear -Hl. apply (below_check 8 (fun l => 0 <= 32 - (cutoff l + suffix_bits l))); [by vm_compute|lia]. }
      replace (32 - cutoff l) with (e + suffix_bits l) by lia. rewrite Z.pow_add_r by lia.
      pose proof (Z.div_mod bits (2 ^ e) ltac:(lia)).
      pose proof (Z.mod_pos_bound bits (2 ^ e) ltac:(lia)). nia.
Qed.

Lemma golomb_code_len_spec f l n : is_family8 f -> 0 <= l < 8 ->
  golomb_code_len_8bpc n l f = Some (golomb_length l n).
Proof.
  intros Hf Hl. destruct (family8_params f l Hf Hl). unfold golomb_code_len_8bpc, golomb_length.
  rewrite cp_n_gr0. simpl. destruct (n <? cutoff l * 2 ^ l); [|done].
  by rewrite Z.shiftr_div_pow2 by lia.
Qed.

(** * What the model keeps *)

Record bucket_ok (b : QuicBucket) : Prop := {
  bo_best : 0 <= bestcode b < 8;
  bo_len : zlen (counters b) = 8;
  bo_counters : Forall (in_unsigned 32) (counters b)
}.

Record state_ok (s : CommonState) : Prop := {
  so_wait : 0 <= waitcnt s <= 63;
  so_seed : u32 (tabrand_seed s);
  so_trigger : u32 (wm_trigger s);
  so_wmidx : 0 <= wmidx s <= DEFWMIMAX;
  so_wmileft : 0 <= wmileft s <= DEFWMINEXT;
  so_melc : 0 <= melcstate s < MELCSTATES;
  so_melclen : index J (melcstate s) = Some (melclen s);
  so_melcorder : melcorder s = 2 ^ melclen s
}.

(** The bucket table of a depth: [2 ^ bpc] entries, each naming a bucket. *)
Definition stat_ok (levels : Z) (st : QuicFamilyStat) : Prop :=
  zlen (fs_buckets_ptrs st) = levels /\
  Forall (fun b => 0 <= b < fs_n_buckets st) (fs_buckets_ptrs st).

(** A channel that decodes 8-bit components of rows of [width] pixels. *)
Record channel_ok (width : Z) (ch : QuicChannel) : Prop := {
  co_state : state_ok (ch_state ch);
  co_zero : u8 (cr_zero (correlate_row ch));
  co_len : zlen (cr_row (correlate_row ch)) = width;
  co_row : bytes (cr_row (correlate_row ch));
  co_ptrs_len : zlen (buckets_ptrs ch) = 256;
  co_ptrs : Forall (fun b => 0 <= b < zlen (buckets_buf ch)) (buckets_ptrs ch);
  co_buckets : Forall bucket_ok (buckets_buf ch)
}.

Lemma set_index_Some l i v : 0 <= i < zlen l -> set_index l i v = Some (<[Z.to_nat i := v]> l).
Proof.
  intros Hi. unfold set_index.
  by rewrite (proj2 (Z.leb_le 0 i)), (proj2 (Z.ltb_lt i (zlen l))) by lia.
Qed.

Lemma melclen_range s : state_ok s -> 0 <= melclen s <= 15.
Proof.
  intros []. destruct (index_Forall (fun n => 0 <= n <= 15) J (melcstate s)) as (n & Hn & Hr).
  - apply (bool_decide_unpack _). by vm_compute.
  - change (zlen J) with MELCSTATES. done.
  - congruence.
Qed.

Lemma melc_index n : 0 <= n < MELCSTATES -> exists len, index J n = Some len /\ 0 <= len <= 15.
Proof.
  intros Hn. apply (index_Forall (fun n => 0 <= n <= 15) J n); [|done].
  apply (bool_decide_unpack _). by vm_compute.
Qed.

Lemma count_code_ok f cs i curval :
  is_family8 f -> 0 <= i < 8 -> u8 curval ->
  zlen cs = 8 -> Forall (in_unsigned 32) cs ->
  exists cs', count_code curval f cs i = Some cs' /\ zlen cs' = 8 /\ Forall (in_unsigned 32) cs'.
Proof.
  intros Hf Hi Hc Hlen Hcs. unfold count_code.
  destruct (index_Forall _ cs i Hcs ltac:(lia)) as (c & -> & Hcr). simpl.
  rewrite golomb_code_len_spec by done. simpl.
  rewrite set_index_Some by lia. eexists. split; [done|]. rewrite zlen_insert. split; [done|].
  apply Forall_insert; [done|]. unfold saturating_add_u32, u32_max, in_unsigned in *.
  assert (0 <= golomb_length i curval).
  { unfold golomb_length. destruct (family8_params f i Hf Hi).
    pose proof (Z.div_pos curval (2 ^ i) ltac:(lia) (pow2_pos i ltac:(lia))).
    destruct (curval <? _); lia. }
  lia.
Qed.

Lemma best_code_loop_ok f curval : is_family8 f -> u8 curval -> forall ls cs best best_len,
  Forall (fun i => (i < 8)%nat) ls -> 0 <= best < 8 ->
  zlen cs = 8 -> Forall (in_unsigned 32) cs ->
  exists cs' best' best_len', best_code_loop curval f ls cs best best_len = Some (cs', best', best_len') /\
    0 <= best' < 8 /\ zlen cs' = 8 /\ Forall (in_unsigned 32) cs'.
Proof.
  intros Hf Hc. induction ls as [|i ls IH]; intros cs best best_len Hls Hbest Hlen Hcs; simpl.
  { by exists cs, best, best_len. }
  apply list.Forall_cons_1 in Hls as [Hi Hls].
  destruct (count_code_ok f cs (Z.of_nat i) curval) as (cs' & -> & Hlen' & Hcs'); [done|lia|done|done|done|].
  simpl. destruct (index_is_Some cs' (Z.of_nat i)) as [len ->]; [lia|]. simpl.
  destruct (len <? best_len); apply IH; auto; lia.
Qed.

(** Updating a bucket never fails and keeps it well formed. *)
Lemma update_model_ok f s b curval : is_family8 f -> bucket_ok b -> u8 curval ->
  exists b', update_model_8bpc s curval 8 f b = Some b' /\ bucket_ok b'.
Proof.
  intros Hf [Hbest Hlen Hcs] Hc. unfold update_model_8bpc. change (8 - 1) with 7.
  destruct (count_code_ok f (counters b) 7 curval) as (cs & -> & Hl & Hr); [done|lia|done|done|done|].
  cbn [mbind option_bind]. destruct (index_is_Some cs 7) as [len ->]; [lia|]. cbn [mbind option_bind].
  destruct (best_code_loop_ok f curval Hf Hc (rev (seq 0 (Z.to_nat 7))) cs 7 len)
    as (cs' & best & best_len & -> & Hb & Hl' & Hr'); [|lia|done|done|].
  { apply (bool_decide_unpack _). by vm_compute. }
  cbn [mbind option_bind]. eexists. split; [done|]. split; simpl; [done| |].
  - destruct (_ <? _); [|done]. unfold halve_counters.
    rewrite zlen_app, zlen_map, zlen_take, zlen_drop. lia.
  - destruct (_ <? _); [|done]. unfold halve_counters. apply Forall_app. split.
    + apply Forall_map. apply Forall_take. eapply Forall_impl; [|exact Hr'].
      intros x [Hx1 Hx2]. rewrite Z.shiftr_div_pow2 by lia. change (2 ^ 1) with 2.
      split; [by apply Z.div_pos; lia|]. apply Z.div_lt_upper_bound; lia.
    + by apply Forall_drop.
Qed.

Lemma set_wm_trigger_ok s : 0 <= wmidx s <= DEFWMIMAX ->
  exists t, set_wm_trigger s = Some (with_wm s t (wmidx s) (wmileft s)) /\ u32 t.
Proof.
  unfold DEFWMIMAX. intros Hw. unfold set_wm_trigger. rewrite Z.min_l by lia.
  change (index BESTTRIGTAB (DEFEVOL / 2)) with
    (Some [110; 550; 900; 800; 550; 400; 350; 250; 140; 160; 140]). cbn [mbind option_bind].
  destruct (index_Forall (in_unsigned 32) [110; 550; 900; 800; 550; 400; 350; 250; 140; 160; 140]
    (wmidx s)) as (t & -> & Ht).
  - apply (bool_decide_unpack _). by vm_compute.
  - change (0 <= wmidx s < 11). lia.
  - by exists t.
Qed.

Lemma CommonState_reset_ok s : exists s', CommonState_reset s = Some s' /\ state_ok s'.
Proof. eexists. split; [reflexivity|]. split; simpl; try done; split; (done || lia). Qed.

(** The random wait is below 64. *)
Lemma tabrand_ok s : state_ok s ->
  exists v s', tabrand s = Some (v, s') /\ 0 <= v /\ state_ok s' /\
    wmidx s' = wmidx s /\ wmileft s' = wmileft s.
Proof.
  intros []. unfold tabrand.
  set (seed := (tabrand_seed s + 1) mod 2 ^ 32).
  destruct (index_Forall (fun x => 0 <= x) TABRAND_CHAOS (Z.land seed 0xff)) as (v & -> & Hv).
  - apply (bool_decide_unpack _). by vm_compute.
  - change 255 with (2 ^ 8 - 1). rewrite land_mask by lia.
    change (zlen TABRAND_CHAOS) with 256. apply Z.mod_pos_bound. lia.
  - simpl. eexists _, _. split; [done|]. split; [done|]. split; [|done].
    split; simpl; try done. apply Z.mod_pos_bound. lia.
Qed.

Lemma wait_range v n : 0 <= n <= 6 -> 0 <= v -> 0 <= Z.land v (2 ^ n - 1) <= 63.
Proof.
  intros Hn Hv. rewrite land_mask by lia.
  pose proof (Z.mod_pos_bound v (2 ^ n) (pow2_pos n ltac:(lia))).
  pose proof (Z.pow_le_mono_r 2 n 6 ltac:(lia) ltac:(lia)) as H6. change (2 ^ 6) with 64 in H6. lia.
Qed.

Lemma QuicChannel_new_ok m8 m5 : QuicModel_new 8 = Some m8 -> QuicModel_new 5 = Some m5 ->
  exists ch, QuicChannel_new m8 m5 = Some ch /\
    stat_ok 256 (family_stat_8bpc ch) /\ stat_ok 32 (family_stat_5bpc ch).
Proof.
  intros H8 H5. vm_compute in H8, H5. injection H8 as <-. injection H5 as <-.
  eexists. split; [vm_compute; reflexivity|]. unfold stat_ok.
  split; (split; [by vm_compute|]); apply (bool_decide_unpack _); by vm_compute.
Qed.

(** Resetting a channel never fails; at 8 bits it makes the channel ready. *)
Lemma QuicChannel_reset_ok bpc width ch :
  0 <= width -> stat_ok 256 (family_stat_8bpc ch) ->
  exists b ch', QuicChannel_reset bpc width ch = Some (b, ch') /\
    (bpc = 8 -> b = true /\ channel_ok width ch').
Proof.
  intros Hw [Hlen Hptrs]. unfold QuicChannel_reset.
  destruct (CommonState_reset_ok (ch_state ch)) as (s & -> & Hs). cbn [mbind option_bind].
  destruct (Z.eqb_spec bpc 8) as [->|].
  - eexists _, _. split; [done|]. intros _. split; [done|].
    split; simpl; try done.
    + rewrite zlen_replicate. lia.
    + by apply Forall_replicate.
    + eapply Forall_impl; [|exact Hptrs]. simpl. intros x Hx.
      rewrite zlen_map, zlen_replicate. lia.
    + apply Forall_map, Forall_replicate. split; [simpl; lia|done|]. by apply Forall_replicate.
  - destruct (bpc =? 5); eexists _, _; (split; [done|]); lia.
Qed.

(** C19: the Golomb decoder inverts the code the model costs with: for every
    parameter and component, the codeword has the length [golomb_code_len_8bpc]
    reports, and any 32-bit window that starts with it decodes to that length and
    that component; and whatever the window holds, decoding yields a code of 1 to
    26 bits and a component of 8 bits, without an out-of-range shift or index. *)
Theorem golomb_code_round_trip f l :
  family_init Family_new 8 DEFMAXCLEN = Some f -> 0 <= l < 8 ->
  (forall n, 0 <= n < 256 ->
     golomb_code_len_8bpc n l f = Some (golomb_length l n) /\
     forall bits, u32 bits -> bits / 2 ^ (32 - golomb_length l n) = golomb_codeword l n ->
       golomb_decoding_8bpc l bits f = Some (golomb_length l n, n)) /\
  (forall bits, u32 bits -> exists cwlen rc,
     golomb_decoding_8bpc l bits f = Some (cwlen, rc) /\ 1 <= cwlen <= 26 /\ 0 <= rc < 256).
Proof.
  intros Hf%Is_family8 Hl. split.
  - intros n Hn. split; [by apply golomb_code_len_spec|].
    intros bits Hb. by apply golomb_decodes_codeword.
  - intros bits Hb. by apply golomb_total.
Qed.

Lemma golomb_code_round_trip_witness : exists f,
  family_init Family_new 8 DEFMAXCLEN = Some f /\
  golomb_code_len_8bpc 77 3 f = Some 13 /\ golomb_decoding_8bpc 3 0x006fffff f = Some (13, 77).
Proof.
  destruct family8_exists as [f [Hf]]. exists f. split; [exact Hf|].
  destruct (golomb_code_round_trip f 3 Hf ltac:(lia)) as [H _].
  destruct (H 77 ltac:(lia)) as [H1 H2]. split; [exact H1|].
  refine (H2 0x006fffff _ _).
  - split; vm_compute; congruence.
  - vm_compute. reflexivity.
Defined.
