(* ===== verification/QuicBits.v ===== *)
(** The QUIC decoder's state, its bit reader and its header:
    [shakenfist-spice-compression/src/quic.rs], lines 484 to 721.

    A method that returns [false] or [None] is an [Err] of the monad, which keeps
    what the method did to the decoder before.  The bit reader is related to an
    abstract bit stream: [io_word] is always the 32-bit window at the read
    position. *)
From Stdlib Require Import ZArith Lia List.
From stdpp Require Import base numbers list tactics.
From S2P Require Import Prelude Lz QuicModel.

Open Scope Z_scope.
Open Scope rust_scope.

(** * The decoder *)

(** [false] of the [bool] methods, [None] of the [Option] ones. *)
Inductive Refused : Type := refused.

Record QuicDecoder : Type := mkQuicDecoder {
  image_type : Z;
  qd_width : Z;
  qd_height : Z;
  output_len : Z;
  io_idx : Z;
  io_available_bits : Z;
  io_word : Z;
  io_next_word : Z;
  io_now : list Z;
  io_end : Z;
  rows_completed : Z;
  rgb_state : CommonState;
  channels : list QuicChannel;
  model_8bpc : QuicModel;
  family_8bpc : Family;
  zero_lut : list Z
}.

Definition with_io (d : QuicDecoder) (idx bits word next : Z) : QuicDecoder :=
  mkQuicDecoder (image_type d) (qd_width d) (qd_height d) (output_len d) idx bits word next
    (io_now d) (io_end d) (rows_completed d) (rgb_state d) (channels d) (model_8bpc d)
    (family_8bpc d) (zero_lut d).
Definition with_header (d : QuicDecoder) (type width height len : Z) : QuicDecoder :=
  mkQuicDecoder type width height len (io_idx d) (io_available_bits d) (io_word d)
    (io_next_word d) (io_now d) (io_end d) (rows_completed d) (rgb_state d) (channels d)
    (model_8bpc d) (family_8bpc d) (zero_lut d).
Definition with_rows_completed (d : QuicDecoder) (rows : Z) : QuicDecoder :=
  mkQuicDecoder (image_type d) (qd_width d) (qd_height d) (output_len d) (io_idx d)
    (io_available_bits d) (io_word d) (io_next_word d) (io_now d) (io_end d) rows
    (rgb_state d) (channels d) (model_8bpc d) (family_8bpc d) (zero_lut d).
Definition with_states (d : QuicDecoder) (s : CommonState) (chs : list QuicChannel)
    : QuicDecoder :=
  mkQuicDecoder (image_type d) (qd_width d) (qd_height d) (output_len d) (io_idx d)
    (io_available_bits d) (io_word d) (io_next_word d) (io_now d) (io_end d)
    (rows_completed d) s chs (model_8bpc d) (family_8bpc d) (zero_lut d).

(** [for slot in &mut zero_lut] *)
Fixpoint zero_lut_loop (slots : nat) (j k l : Z) : list Z :=
  match slots with
  | O => []
  | S slots =>
      l :: (let k := k - 1 in
            if k =? 0 then zero_lut_loop slots (j * 2) j (saturating_sub l 1)
            else zero_lut_loop slots j k l)
  end.

Definition QuicDecoder_new : option QuicDecoder :=
  family8 ← family_init Family_new 8 DEFMAXCLEN;
  family5 ← family_init Family_new 5 DEFMAXCLEN;
  model8 ← QuicModel_new 8;
  model5 ← QuicModel_new 5;
  s ← CommonState_new;
  ch ← QuicChannel_new model8 model5;
  Some (mkQuicDecoder QUIC_IMAGE_TYPE_INVALID 0 0 0 0 0 0 0 [] 0 0 s [ch; ch; ch; ch]
          model8 family8 (zero_lut_loop 256 1 1 8)).

Definition Dec (A : Type) : Type := M Refused QuicDecoder A.

Definition QuicDecoder_reset (io_ptr : list Z) : Dec unit :=
  let? d := get_state in
  let? s := unwrap (CommonState_reset (rgb_state d)) in
  put_state (mkQuicDecoder (image_type d) (qd_width d) (qd_height d) 0 0
    (io_available_bits d) (io_word d) (io_next_word d) io_ptr (zlen io_ptr) 0 s (channels d)
    (model_8bpc d) (family_8bpc d) (zero_lut d)).

Definition read_io_word : Dec unit :=
  let? d := get_state in
  if io_end d <? io_idx d + 4 then throw refused
  else
    let? b0 := unwrap (index (io_now d) (io_idx d)) in
    let? b1 := unwrap (index (io_now d) (io_idx d + 1)) in
    let? b2 := unwrap (index (io_now d) (io_idx d + 2)) in
    let? b3 := unwrap (index (io_now d) (io_idx d + 3)) in
    let word := Z.lor (Z.lor (Z.lor b0 (Z.shiftl b1 8)) (Z.shiftl b2 16)) (Z.shiftl b3 24) in
    put_state (with_io d (io_idx d + 4) (io_available_bits d) (io_word d) word).

Definition decode_eatbits (len : Z) : Dec unit :=
  let? d := get_state in
  let? word := unwrap (shl32 (io_word d) len) in
  let delta := io_available_bits d - len in
  if 0 <=? delta then
    let? low := unwrap (shr32 (io_next_word d) delta) in
    put_state (with_io d (io_idx d) delta (Z.lor word low) (io_next_word d))
  else
    let delta := - delta in
    let? low := unwrap (shl32 (io_next_word d) delta) in
    do? put_state (with_io d (io_idx d) (io_available_bits d) (Z.lor word low) (io_next_word d)) in
    do? read_io_word in
    let? d := get_state in
    let bits := 32 - delta in
    let? low := unwrap (shr32 (io_next_word d) bits) in
    put_state (with_io d (io_idx d) bits (Z.lor (io_word d) low) (io_next_word d)).

Definition decode_eat32bits : Dec unit :=
  do? decode_eatbits 16 in
  decode_eatbits 16.

(** [for c in 0..4], stopping at the first channel that refuses the depth. *)
Fixpoint reset_channels_loop (bpc : Z) (cs : list Z) : Dec unit :=
  match cs with
  | [] => ret tt
  | c :: cs =>
      let? d := get_state in
      let? ch := unwrap (index (channels d) c) in
      let? r := unwrap (QuicChannel_reset bpc (qd_width d) ch) in
      do? put_state (with_states d (rgb_state d) (<[Z.to_nat c := snd r]> (channels d))) in
      if fst r then reset_channels_loop bpc cs else throw refused
  end.

Definition reset_channels (bpc : Z) : Dec unit := reset_channels_loop bpc [0; 1; 2; 3].

Definition quic_decode_begin (io_ptr : list Z) : Dec unit :=
  do? QuicDecoder_reset io_ptr in
  do? read_io_word in
  let? d := get_state in
  do? put_state (with_io d (io_idx d) 0 (io_next_word d) (io_next_word d)) in
  let? d := get_state in
  let magic := io_word d in
  do? decode_eat32bits in
  if negb (magic =? 0x43495551) then throw refused
  else
    let? d := get_state in
    let version := io_word d in
    do? decode_eat32bits in
    if negb (version =? 0) then throw refused
    else
      let? d := get_state in
      do? put_state (with_header d (io_word d) (qd_width d) (qd_height d) (output_len d)) in
      do? decode_eat32bits in
      let? d := get_state in
      do? put_state (with_header d (image_type d) (io_word d) (qd_height d) (output_len d)) in
      do? decode_eat32bits in
      let? d := get_state in
      do? put_state (with_header d (image_type d) (qd_width d) (io_word d) (output_len d)) in
      do? decode_eat32bits in
      let? d := get_state in
      match rgba_len (qd_width d) (qd_height d) with
      | None => throw refused
      | Some len =>
          do? put_state (with_header d (image_type d) (qd_width d) (qd_height d) len) in
          reset_channels (quic_image_bpc (image_type d))
      end.

(** * Run lengths *)

(** [state.melclen = J[state.melcstate]; state.melcorder = 1usize << state.melclen] *)
Definition set_melcstate (s : CommonState) (melc : Z) : option CommonState :=
  len ← index J melc;
  if len <? 64 then Some (with_melc s melc len (Z.shiftl 1 len)) else None.

(** [for _ in 1..=temp] *)
Fixpoint run_ones (temp : nat) (runlen : Z) (s : CommonState) : option (Z * CommonState) :=
  match temp with
  | O => Some (runlen, s)
  | S temp =>
      runlen ← checked_add runlen (melcorder s);
      if melcstate s <? MELCSTATES - 1 then
        s ← set_melcstate s (melcstate s + 1);
        run_ones temp runlen s
      else run_ones temp runlen s
  end.

(** The [loop]; every round but the last takes 8 bits. *)
Fixpoint run_loop (fuel : nat) (runlen : Z) (s : CommonState) : Dec (Z * CommonState) :=
  match fuel with
  | O => panic
  | S fuel =>
      let? d := get_state in
      let? top := unwrap (shr32 (io_word d) 24) in
      let x := Z.land (u32_max - top) 0xff in
      let? temp := unwrap (index (zero_lut d) x) in
      let? r := unwrap (run_ones (Z.to_nat temp) runlen s) in
      if negb (temp =? 8) then
        do? decode_eatbits (temp + 1) in
        ret r
      else
        do? decode_eatbits 8 in
        run_loop fuel (fst r) (snd r)
  end.

(** The bits of the stream that are not in [io_word] yet. *)
Definition bits_left (d : QuicDecoder) : Z :=
  8 * (io_end d - io_idx d) + io_available_bits d.

Definition decode_run (s : CommonState) : Dec (Z * CommonState) :=
  let? d := get_state in
  let? r := run_loop (S (Z.to_nat (bits_left d))) 0 s in
  let runlen := fst r in
  let s := snd r in
  let? runlen :=
    (if negb (melclen s =? 0) then
       let? d := get_state in
       let? extra := unwrap (shr32 (io_word d) (32 - melclen s)) in
       let? runlen := unwrap (checked_add runlen extra) in
       do? decode_eatbits (melclen s) in
       ret runlen
     else ret runlen) in
  if negb (melcstate s =? 0) then
    let? s := unwrap (set_melcstate s (melcstate s - 1)) in
    ret (runlen, s)
  else ret (runlen, s).

(** * Weakest preconditions

    [wp m Q s]: run from [s], [m] does not panic, and [Q] holds of what it returns
    and leaves behind when it succeeds. *)
Definition wp {E St A} (m : M E St A) (Q : A -> St -> Prop) (s : St) : Prop :=
  match m s with
  | (Ok a, s') => Q a s'
  | (Err _, _) => True
  | (Panic, _) => False
  end.

Section Wp.
Context {E St : Type}.

Lemma wp_ret {A} (a : A) (Q : A -> St -> Prop) s : Q a s -> wp (@ret E St A a) Q s.
Proof. done. Qed.

Lemma wp_bind {A B} (m : M E St A) (k : A -> M E St B) Q s :
  wp m (fun a => wp (k a) Q) s -> wp (bind m k) Q s.
Proof. unfold wp, bind. by destruct (m s) as [[a|e|] s']. Qed.

Lemma wp_mono {A} (m : M E St A) (P Q : A -> St -> Prop) s :
  wp m P s -> (forall a s', P a s' -> Q a s') -> wp m Q s.
Proof. unfold wp. destruct (m s) as [[a|e|] s']; auto. Qed.

Lemma wp_seq {A B} (m : M E St A) (k : A -> M E St B) P Q s :
  wp m P s -> (forall a s', P a s' -> wp (k a) Q s') -> wp (bind m k) Q s.
Proof. intros Hm Hk. apply wp_bind. by eapply wp_mono. Qed.

Lemma wp_throw {A} e (Q : A -> St -> Prop) s : wp (@throw E St A e) Q s.
Proof. done. Qed.

Lemma wp_put (Q : unit -> St -> Prop) s s' : Q tt s' -> wp (@put_state E St s') Q s.
Proof. done. Qed.

Lemma wp_unwrap {A} (o : option A) a (Q : A -> St -> Prop) s :
  o = Some a -> Q a s -> wp (@unwrap E St A o) Q s.
Proof. by intros ->. Qed.

Lemma wp_get_bind {B} (k : St -> M E St B) Q s : wp (k s) Q s -> wp (bind get_state k) Q s.
Proof. done. Qed.

Lemma wp_put_bind {B} (k : unit -> M E St B) Q s s' :
  wp (k tt) Q s' -> wp (bind (put_state s') k) Q s.
Proof. done. Qed.

Lemma wp_unwrap_bind {A B} (o : option A) a (k : A -> M E St B) Q s :
  o = Some a -> wp (k a) Q s -> wp (bind (unwrap o) k) Q s.
Proof. by intros ->. Qed.
End Wp.

(** * The abstract bit stream

    The stream is the little-endian words of the data, each from its most
    significant bit down; a tail of fewer than four bytes is never read. *)

Definition stream_word (data : list Z) (k : Z) : Z :=
  from_le (take 4 (drop (Z.to_nat (4 * k)) data)).
Definition stream_bit (data : list Z) (n : Z) : bool :=
  Z.testbit (stream_word data (n / 32)) (31 - n mod 32).

(** [w] holds the 32 bits of the stream from [pos], the first on top. *)
Definition holds_window (data : list Z) (pos w : Z) : Prop :=
  u32 w /\ forall j, 0 <= j < 32 -> Z.testbit w (31 - j) = stream_bit data (pos + j).

(** The stream position of the top bit of [io_word]. *)
Definition position (d : QuicDecoder) : Z := 8 * io_idx d - io_available_bits d - 32.

(** The reader stands somewhere in [data]: [io_word] is the window at its position
    and [io_next_word] the aligned word that holds the window's end. *)
Record reader_ok (data : list Z) (d : QuicDecoder) : Prop := {
  ro_now : io_now d = data;
  ro_end : io_end d = zlen data;
  ro_idx : 4 <= io_idx d <= zlen data /\ io_idx d mod 4 = 0;
  ro_bits : 0 <= io_available_bits d < 32;
  ro_next : holds_window data (8 * io_idx d - 32) (io_next_word d);
  ro_word : holds_window data (position d) (io_word d)
}.

(** Only the reader's own fields have changed. *)
Definition io_only (d d' : QuicDecoder) : Prop :=
  exists idx bits word next, d' = with_io d idx bits word next.

Lemma io_only_trans d1 d2 d3 : io_only d1 d2 -> io_only d2 d3 -> io_only d1 d3.
Proof.
  intros (i & b & w & n & ->) (i' & b' & w' & n' & ->). by exists i', b', w', n'.
Qed.

(** ** Bits of shifted words *)

Lemma u32_above x i : u32 x -> 32 <= i -> Z.testbit x i = false.
Proof.
  intros [H1 H2] Hi. rewrite <- (Z.mod_small x (2 ^ 32)) by done.
  by apply Z.mod_pow2_bits_high; lia.
Qed.

Lemma shl32_bits x n y : shl32 x n = Some y ->
  u32 y /\ forall j, 0 <= j < 32 -> Z.testbit y (31 - j) = Z.testbit x (31 - (j + n)).
Proof.
  unfold shl32. destruct (_ && _) eqn:Hn; [|done]. intros [= <-].
  apply andb_true_iff in Hn as [Hn1%Z.leb_le Hn2%Z.ltb_lt].
  split; [by apply Z.mod_pos_bound|].
  intros j Hj. rewrite Z.mod_pow2_bits_low by lia. rewrite Z.shiftl_spec by lia.
  f_equal. lia.
Qed.

Lemma shr32_bits x n y : u32 x -> shr32 x n = Some y ->
  u32 y /\ forall j, 0 <= j < 32 -> Z.testbit y (31 - j) = Z.testbit x (31 - (j - n)).
Proof.
  intros Hx. unfold shr32. destruct (_ && _) eqn:Hn; [|done]. intros [= <-].
  apply andb_true_iff in Hn as [Hn1%Z.leb_le Hn2%Z.ltb_lt].
  split.
  - rewrite Z.shiftr_div_pow2 by lia. destruct Hx as [Hx1 Hx2].
    pose proof (pow2_pos n Hn1). split; [by apply Z.div_pos; lia|].
    apply Z.div_lt_upper_bound; nia.
  - intros j Hj. rewrite Z.shiftr_spec by lia. f_equal. lia.
Qed.

Lemma u32_lor x y : u32 x -> u32 y -> u32 (Z.lor x y).
Proof.
  intros Hx Hy. split; [apply Z.lor_nonneg; split; [apply Hx|apply Hy]|].
  destruct (Z.eq_dec (Z.lor x y) 0) as [->|]; [done|].
  apply Z.log2_lt_pow2.
  - assert (0 <= Z.lor x y) by (apply Z.lor_nonneg; split; [apply Hx|apply Hy]). lia.
  - rewrite Z.log2_lor by (apply Hx || apply Hy).
    assert (forall z, u32 z -> Z.log2 z < 32) as Hlog.
    { intros z [H1 H2]. destruct (Z.eq_dec z 0) as [->|]; [done|]. apply Z.log2_lt_pow2; lia. }
    pose proof (Hlog x Hx). pose proof (Hlog y Hy). lia.
Qed.

(** The bits of a word, seen from the top: nothing outside the 32. *)
Lemma window_bit data pos w i : holds_window data pos w ->
  Z.testbit w (31 - i) =
    if (0 <=? i) && (i <? 32) then stream_bit data (pos + i) else false.
Proof.
  intros [Hu Hw]. destruct (Z.leb_spec 0 i); simpl.
  - destruct (Z.ltb_spec i 32); [by apply Hw|]. apply Z.testbit_neg_r. lia.
  - by apply u32_above; [|lia].
Qed.

(** ** Reading a word *)

Lemma le_word b0 b1 b2 b3 : u8 b0 -> u8 b1 -> u8 b2 -> u8 b3 ->
  Z.lor (Z.lor (Z.lor b0 (Z.shiftl b1 8)) (Z.shiftl b2 16)) (Z.shiftl b3 24) =
  from_le [b0; b1; b2; b3].
Proof.
  unfold in_unsigned. change (2 ^ 8) with 256. intros H0 H1 H2 H3.
  rewrite !Z.shiftl_mul_pow2 by lia.
  rewrite (Z.lor_comm b0), lor_shift_add by (try change (2 ^ 8) with 256; lia).
  rewrite (Z.lor_comm _ (b2 * _)), lor_shift_add
    by (try change (2 ^ 8) with 256; try change (2 ^ 16) with 65536; lia).
  rewrite (Z.lor_comm _ (b3 * _)), lor_shift_add
    by (try change (2 ^ 8) with 256; try change (2 ^ 16) with 65536;
        try change (2 ^ 24) with 16777216; lia).
  unfold from_le. change (2 ^ 8) with 256. change (2 ^ 16) with 65536.
  change (2 ^ 24) with 16777216. lia.
Qed.

Lemma read_io_word_spec data d :
  bytes data -> io_now d = data -> io_end d = zlen data -> 0 <= io_idx d -> io_idx d mod 4 = 0 ->
  match read_io_word d with
  | (Ok _, d') =>
      io_idx d + 4 <= zlen data /\
      exists next, d' = with_io d (io_idx d + 4) (io_available_bits d) (io_word d) next /\
        next = stream_word data (io_idx d / 4) /\ holds_window data (8 * io_idx d) next
  | (Err _, d') => zlen data < io_idx d + 4 /\ d' = d
  | (Panic, _) => False
  end.
Proof.
  intros Hb Hnow Hend H0 Hmod. unfold read_io_word, bind, get_state. rewrite Hend.
  destruct (Z.ltb_spec (zlen data) (io_idx d + 4)) as [|Hle]; [done|].
  rewrite Hnow.
  destruct (index_Forall _ data (io_idx d) Hb ltac:(lia)) as (b0 & E0 & Hb0).
  destruct (index_Forall _ data (io_idx d + 1) Hb ltac:(lia)) as (b1 & E1 & Hb1).
  destruct (index_Forall _ data (io_idx d + 2) Hb ltac:(lia)) as (b2 & E2 & Hb2).
  destruct (index_Forall _ data (io_idx d + 3) Hb ltac:(lia)) as (b3 & E3 & Hb3).
  rewrite E0, E1, E2, E3. unfold unwrap, ret, put_state. rewrite le_word by done.
  split; [done|]. eexists. split; [done|].
  assert (stream_word data (io_idx d / 4) = from_le [b0; b1; b2; b3]) as Hword.
  { unfold stream_word. f_equal.
    rewrite index_lookup in E0, E1, E2, E3 by lia.
    pose proof (Z.div_mod (io_idx d) 4 ltac:(lia)).
    replace (4 * (io_idx d / 4)) with (io_idx d) by lia.
    set (n := Z.to_nat (io_idx d)) in *.
    replace (Z.to_nat (io_idx d + 1)) with (S n) in E1 by lia.
    replace (Z.to_nat (io_idx d + 2)) with (S (S n)) in E2 by lia.
    replace (Z.to_nat (io_idx d + 3)) with (S (S (S n))) in E3 by lia.
    by rewrite (drop_S _ _ _ E0), (drop_S _ _ _ E1), (drop_S _ _ _ E2), (drop_S _ _ _ E3). }
  split; [by rewrite Hword|]. split.
  - apply (from_le_bound [b0; b1; b2; b3]).
    by repeat (apply list.Forall_cons_2; [done|]).
  - intros j Hj. unfold stream_bit.
    pose proof (Z.div_mod (io_idx d) 4 ltac:(lia)).
    rewrite <- (Z.div_unique (8 * io_idx d + j) 32 (io_idx d / 4) j) by lia.
    rewrite <- (Z.mod_unique (8 * io_idx d + j) 32 (io_idx d / 4) j) by lia.
    by rewrite Hword.
Qed.

(** ** Advancing *)

Lemma eatbits_spec data d len : bytes data -> reader_ok data d -> 0 <= len < 32 ->
  match decode_eatbits len d with
  | (Ok _, d') =>
      reader_ok data d' /\ io_only d d' /\ position d' = position d + len /\
      position d + len + 32 <= 8 * io_idx d'
  | (Err _, d') => zlen data < io_idx d + 4 /\ 8 * io_idx d < position d + len + 32
  | (Panic, _) => False
  end.
Proof.
  intros Hb [Hnow Hend [Hidx Hmod] Hbits Hnext Hword] Hlen.
  assert (exists word, shl32 (io_word d) len = Some word) as [word Hshl].
  { unfold shl32. rewrite (proj2 (Z.leb_le 0 len)), (proj2 (Z.ltb_lt len 32)) by lia. by eexists. }
  destruct (shl32_bits _ _ _ Hshl) as [Hwu Hwb].
  assert (forall x n, 0 <= n < 32 -> exists y, shr32 x n = Some y) as Hshr.
  { intros x n Hn. rewrite shr32_div by done. by eexists. }
  unfold decode_eatbits, bind, get_state. rewrite Hshl. simpl unwrap. unfold ret at 1.
  destruct (Z.leb_spec 0 (io_available_bits d - len)) as [Hd|Hd].
  - set (delta := io_available_bits d - len) in *.
    destruct (Hshr (io_next_word d) delta ltac:(lia)) as [low Hlow].
    destruct (shr32_bits _ _ _ (proj1 Hnext) Hlow) as [Hlu Hlb]. rewrite Hlow. simpl.
    split; [|split; [by eexists _, _, _, _|unfold position; simpl; lia]].
    split; simpl; try done; [lia|]. split; [by apply u32_lor|].
    intros j Hj. rewrite Z.lor_spec, Hwb, Hlb by lia.
    rewrite (window_bit _ _ _ _ Hword), (window_bit _ _ _ _ Hnext).
    unfold position in *. simpl.
    replace (8 * io_idx d - io_available_bits d - 32 + (j + len)) with
      (8 * io_idx d - delta - 32 + j) by lia.
    replace (8 * io_idx d - 32 + (j - delta)) with (8 * io_idx d - delta - 32 + j) by lia.
    destruct (Z.leb_spec 0 (j - delta)), (Z.ltb_spec (j - delta) 32), (Z.leb_spec 0 (j + len)),
      (Z.ltb_spec (j + len) 32); simpl; try lia; by destruct (stream_bit _ _).
  - set (delta := - (io_available_bits d - len)) in *.
    assert (exists low, shl32 (io_next_word d) delta = Some low) as [low Hlow].
    { unfold shl32. rewrite (proj2 (Z.leb_le 0 delta)), (proj2 (Z.ltb_lt delta 32)) by lia.
      by eexists. }
    destruct (shl32_bits _ _ _ Hlow) as [Hlu Hlb]. rewrite Hlow. unfold unwrap, ret, put_state.
    set (d1 := with_io d (io_idx d) (io_available_bits d) (Z.lor word low) (io_next_word d)).
    pose proof (read_io_word_spec data d1 Hb Hnow Hend ltac:(simpl; lia) Hmod) as Hread.
    destruct (read_io_word d1) as [[[]|e|] d2]; simpl in Hread; [|unfold position; lia|done].
    destruct Hread as (Hle & next & -> & Hnw & Hnew). simpl.
    destruct (Hshr next (32 - delta) ltac:(lia)) as [low' Hlow'].
    destruct (shr32_bits _ _ _ (proj1 Hnew) Hlow') as [Hlu' Hlb']. rewrite Hlow'. simpl.
    split; [|split; [by eexists _, _, _, _|unfold position; simpl; lia]].
    split; simpl; try done; [|lia| |].
    + split; [lia|]. rewrite <- Zplus_mod_idemp_l, Hmod. done.
    + replace (8 * (io_idx d + 4) - 32) with (8 * io_idx d) by lia. done.
    + split; [by apply u32_lor; [apply u32_lor|]|].
      intros j Hj. rewrite !Z.lor_spec, Hwb, Hlb, Hlb' by lia.
      rewrite (window_bit _ _ _ _ Hword), (window_bit _ _ _ _ Hnext), (window_bit _ _ _ _ Hnew).
      unfold position in *. simpl.
      set (p := 8 * (io_idx d + 4) - (32 - delta) - 32 + j).
      replace (8 * io_idx d - io_available_bits d - 32 + (j + len)) with p by lia.
      replace (8 * io_idx d - 32 + (j + delta)) with p by lia.
      replace (8 * io_idx d + (j - (32 - delta))) with p by lia.
      destruct (Z.leb_spec 0 (j + len)), (Z.ltb_spec (j + len) 32), (Z.leb_spec 0 (j + delta)),
        (Z.ltb_spec (j + delta) 32), (Z.leb_spec 0 (j - (32 - delta))),
        (Z.ltb_spec (j - (32 - delta)) 32); simpl; try lia; by destruct (stream_bit _ _).
Qed.

(** C18: the bit reader implements the abstract stream: from a reader that stands in
    the data, skipping fewer than 32 bits advances the position by that many, with
    [io_word] the 32-bit window at the new position; it is refused exactly when the
    new window would pass the last whole word of the data, and never panics. *)
Theorem bit_reader_refines data d len :
  bytes data -> reader_ok data d -> 0 <= len < 32 ->
  match decode_eatbits len d with
  | (Ok _, d') =>
      reader_ok data d' /\ position d' = position d + len /\
      holds_window data (position d + len) (io_word d') /\
      position d + len + 32 <= 32 * (zlen data / 4)
  | (Err _, _) => 32 * (zlen data / 4) < position d + len + 32
  | (Panic, _) => False
  end.
Proof.
  intros Hb Hr Hlen. pose proof (eatbits_spec data d len Hb Hr Hlen) as H.
  pose proof (Z.div_mod (zlen data) 4 ltac:(lia)).
  pose proof (Z.mod_pos_bound (zlen data) 4 ltac:(lia)).
  destruct (decode_eatbits len d) as [[[]|e|] d']; [|destruct Hr as [_ _ [? ?]]|done].
  - destruct H as (Hr' & _ & Hpos & Hle). split; [done|]. split; [done|]. split.
    + rewrite <- Hpos. apply Hr'.
    + destruct Hr' as [_ _ [? Hm] _ _ _].
      pose proof (Z.div_mod (io_idx d') 4 ltac:(lia)).
      pose proof (Z.div_le_mono (io_idx d') (zlen data) 4 ltac:(lia) ltac:(lia)). lia.
  - destruct H as [Hs1 Hs2].
    assert (zlen data / 4 = io_idx d / 4); [|pose proof (Z.div_mod (io_idx d) 4 ltac:(lia)); lia].
    pose proof (Z.div_mod (io_idx d) 4 ltac:(lia)). lia.
Qed.

(** * The parts of the decoder that decoding relies on *)

Definition lut_ok (lut : list Z) : Prop := zlen lut = 256 /\ Forall (fun n => 0 <= n <= 8) lut.

(** The tables of a decoder that [QuicDecoder_new] made. *)
Record tables_ok (d : QuicDecoder) : Prop := {
  to_family : is_family8 (family_8bpc d);
  to_lut : lut_ok (zero_lut d)
}.

Lemma io_only_fields d d' : io_only d d' ->
  image_type d' = image_type d /\ qd_width d' = qd_width d /\ qd_height d' = qd_height d /\
  output_len d' = output_len d /\ rgb_state d' = rgb_state d /\ channels d' = channels d /\
  family_8bpc d' = family_8bpc d /\ zero_lut d' = zero_lut d /\ io_end d' = io_end d /\
  rows_completed d' = rows_completed d.
Proof. by intros (? & ? & ? & ? & ->). Qed.

Lemma io_only_tables d d' : io_only d d' -> tables_ok d -> tables_ok d'.
Proof. intros (? & ? & ? & ? & ->) []. by split. Qed.

Lemma bits_left_position data d : reader_ok data d -> bits_left d = 8 * zlen data - 32 - position d.
Proof. intros []. unfold bits_left, position. lia. Qed.

Lemma bits_left_nonneg data d : reader_ok data d -> 0 <= bits_left d.
Proof. intros []. unfold bits_left. lia. Qed.

Lemma eatbits_wp data d len : bytes data -> reader_ok data d -> 0 <= len < 32 ->
  wp (decode_eatbits len)
    (fun _ d' => reader_ok data d' /\ io_only d d' /\ position d' = position d + len /\
       bits_left d' = bits_left d - len) d.
Proof.
  intros Hb Hr Hlen. pose proof (eatbits_spec data d len Hb Hr Hlen) as H. unfold wp.
  destruct (decode_eatbits len d) as [[[]|e|] d']; [|done|done].
  destruct H as (Hr' & Hio & Hpos & _). split; [done|]. split; [done|]. split; [done|].
  rewrite (bits_left_position _ _ Hr), (bits_left_position _ _ Hr'). lia.
Qed.

(** ** The header *)

Lemma stream_word_u32 data k : bytes data -> u32 (stream_word data k).
Proof.
  intros Hb. unfold stream_word.
  assert (bytes (take 4 (drop (Z.to_nat (4 * k)) data))) as Ht by (by apply Forall_take, Forall_drop).
  pose proof (from_le_bound _ Ht) as [H1 H2]. split; [done|].
  apply (Z.lt_le_trans _ _ _ H2). apply Z.pow_le_mono_r; [lia|]. rewrite zlen_take. lia.
Qed.

Lemma window_aligned data k w : bytes data -> holds_window data (32 * k) w -> w = stream_word data k.
Proof.
  intros Hb [Hw Hbits]. apply Z.bits_inj'. intros n Hn.
  destruct (Z.lt_ge_cases n 32).
  - specialize (Hbits (31 - n) ltac:(lia)). replace (31 - (31 - n)) with n in Hbits by lia.
    rewrite Hbits. unfold stream_bit.
    rewrite <- (Z.div_unique (32 * k + (31 - n)) 32 k (31 - n)) by lia.
    rewrite <- (Z.mod_unique (32 * k + (31 - n)) 32 k (31 - n)) by lia.
    f_equal. lia.
  - rewrite !u32_above; [done|by apply stream_word_u32|done|done|done].
Qed.

Lemma eat32_wp data d k : bytes data -> reader_ok data d -> position d = 32 * k ->
  wp decode_eat32bits
    (fun _ d' => reader_ok data d' /\ io_only d d' /\ position d' = 32 * (k + 1) /\
       io_word d' = stream_word data (k + 1)) d.
Proof.
  intros Hb Hr Hk. unfold decode_eat32bits.
  eapply wp_seq; [by apply (eatbits_wp data)|]. intros _ d1 (Hr1 & Hio1 & Hp1 & _).
  eapply wp_mono; [by apply (eatbits_wp data)|]. intros _ d2 (Hr2 & Hio2 & Hp2 & _).
  assert (position d2 = 32 * (k + 1)) as Hp by lia.
  split; [done|]. split; [by eapply io_only_trans|]. split; [done|].
  apply window_aligned; [done|]. rewrite <- Hp. apply Hr2.
Qed.

(** A decoder before [quic_decode_begin]. *)
Record fresh_ok (d : QuicDecoder) : Prop := {
  fo_tables : tables_ok d;
  fo_channels : zlen (channels d) = 4;
  fo_stats : Forall (fun ch => stat_ok 256 (family_stat_8bpc ch)) (channels d)
}.

Lemma QuicDecoder_new_ok : exists d, QuicDecoder_new = Some d /\ fresh_ok d.
Proof.
  unfold QuicDecoder_new.
  destruct family8_exists as [f8 [Hf8]]. rewrite Hf8. cbn [mbind option_bind].
  assert (exists f5, family_init Family_new 5 DEFMAXCLEN = Some f5) as [f5 ->]
    by (eexists; vm_compute; reflexivity).
  cbn [mbind option_bind].
  assert (exists m8, QuicModel_new 8 = Some m8) as [m8 H8] by (eexists; vm_compute; reflexivity).
  assert (exists m5, QuicModel_new 5 = Some m5) as [m5 H5] by (eexists; vm_compute; reflexivity).
  rewrite H8, H5. cbn [mbind option_bind].
  destruct (CommonState_reset_ok (mkCommonState 0 255 0 0 DEFWMINEXT 0 0 1)) as (s & Hs & _).
  change (CommonState_reset (mkCommonState 0 255 0 0 DEFWMINEXT 0 0 1)) with CommonState_new in Hs.
  rewrite Hs. cbn [mbind option_bind].
  destruct (QuicChannel_new_ok m8 m5 H8 H5) as (ch & -> & Hst & _). cbn [mbind option_bind].
  eexists. split; [done|]. split; simpl; [|done|by repeat apply list.Forall_cons_2].
  split; simpl; [by constructor|]. split; [by vm_compute|].
  apply (bool_decide_unpack _). by vm_compute.
Qed.

(** A decoder whose header has been read: the reader stands after the header, the
    header's fields are the words of the stream, the image is within the limits,
    and for an 8-bit image the channels are ready for rows of the image's width. *)
Record begun_ok (data : list Z) (d : QuicDecoder) : Prop := {
  bo_reader : reader_ok data d;
  bo_tables : tables_ok d;
  bo_magic : stream_word data 0 = 0x43495551 /\ stream_word data 1 = 0;
  bo_type : image_type d = stream_word data 2;
  bo_width : qd_width d = stream_word data 3;
  bo_height : qd_height d = stream_word data 4;
  bo_size : rgba_len (qd_width d) (qd_height d) = Some (output_len d);
  bo_state : state_ok (rgb_state d);
  bo_channels : zlen (channels d) = 4;
  bo_ready : quic_image_bpc (image_type d) = 8 ->
             Forall (channel_ok (qd_width d)) (channels d)
}.


(** Resetting the channels [cs] in turn leaves the earlier ones ready. *)
Lemma reset_channels_loop_wp bpc : forall cs d,
  0 <= qd_width d -> Forall (fun c => 0 <= c < 4) cs -> zlen (channels d) = 4 ->
  Forall (fun ch => stat_ok 256 (family_stat_8bpc ch)) (drop (4 - length cs) (channels d)) ->
  cs = map Z.of_nat (seq (4 - length cs) (length cs)) ->
  (bpc = 8 -> Forall (channel_ok (qd_width d)) (take (4 - length cs) (channels d))) ->
  wp (reset_channels_loop bpc cs)
    (fun _ d' => exists chs, d' = with_states d (rgb_state d) chs /\ zlen chs = 4 /\
       (bpc = 8 -> Forall (channel_ok (qd_width d)) chs)) d.
Proof.
  induction cs as [|c cs IH]; intros d Hw Hcs Hlen Hst Heq Hok; simpl.
  { exists (channels d). split; [by destruct d|]. split; [done|]. intros Hb. specialize (Hok Hb).
    rewrite take_ge in Hok by (unfold zlen in Hlen; simpl; lia). done. }
  apply list.Forall_cons_1 in Hcs as [Hc Hcs]. cbn [length] in *.
  assert (S (length cs) <= 4)%nat as Hle.
  { destruct (Nat.le_gt_cases (S (length cs)) 4) as [|Hgt]; [done|].
    replace (4 - S (length cs))%nat with 0%nat in Heq by lia. simpl in Heq.
    injection Heq as _ Heq. rewrite Heq in Hcs.
    assert (In 4%nat (seq 1 (length cs))) as Hin by (apply in_seq; lia).
    assert (In 4 (map Z.of_nat (seq 1 (length cs)))) as Hin' by (by apply (in_map Z.of_nat) in Hin).
    rewrite list.Forall_forall in Hcs. specialize (Hcs 4). rewrite list_elem_of_In in Hcs.
    specialize (Hcs Hin'). lia. }
  set (n := (4 - S (length cs))%nat) in *. simpl in Heq. injection Heq as -> Heq.
  assert (n < length (channels d))%nat as Hn by (unfold zlen in Hlen; lia).
  destruct (lookup_lt_is_Some_2 _ _ Hn) as [ch Hch].
  apply wp_get_bind. eapply wp_unwrap_bind.
  { rewrite index_lookup by (unfold zlen in *; lia). rewrite Nat2Z.id. exact Hch. }
  rewrite (drop_S _ _ _ Hch) in Hst. apply list.Forall_cons_1 in Hst as [Hst1 Hst].
  destruct (QuicChannel_reset_ok bpc (qd_width d) ch Hw Hst1) as (b & ch' & Hreset & Hready).
  eapply wp_unwrap_bind; [exact Hreset|]. apply wp_put_bind. cbn [fst snd].
  destruct b; [|by apply wp_throw]. rewrite Nat2Z.id.
  eapply wp_mono; [apply IH|]; simpl; rewrite ?zlen_insert; try done.
  - replace (4 - length cs)%nat with (S n) by lia. by rewrite drop_insert_lt by lia.
  - replace (4 - length cs)%nat with (S n) by lia. done.
  - intros Hb. replace (4 - length cs)%nat with (S n) by lia.
    rewrite (take_S_r _ _ ch') by (by apply list_lookup_insert_eq).
    rewrite take_insert_ge by lia. apply Forall_app. split; [by apply Hok|].
    apply list.Forall_cons_2; [|done]. by apply Hready.
Qed.

Lemma quic_decode_begin_wp data d : bytes data -> fresh_ok d ->
  wp (quic_decode_begin data) (fun _ d' => begun_ok data d') d.
Proof.
  intros Hb [Htab Hlen Hst]. unfold quic_decode_begin, QuicDecoder_reset.
  apply wp_bind, wp_get_bind.
  destruct (CommonState_reset_ok (rgb_state d)) as (s & Hs & Hsok).
  eapply wp_unwrap_bind; [exact Hs|]. apply wp_put. apply wp_bind.
  match goal with |- wp read_io_word _ ?x => set (d1 := x) end.
  pose proof (read_io_word_spec data d1 Hb eq_refl eq_refl ltac:(simpl; lia) eq_refl) as Hread.
  unfold wp at 1. destruct (read_io_word d1) as [[[]|e|] d2]; [|done|done].
  destruct Hread as (Hle & next & -> & Hnext & Hwin).
  apply wp_get_bind, wp_put_bind, wp_get_bind.
  match goal with |- wp _ _ ?x => set (d3 := x) end.
  assert (reader_ok data d3) as Hr3.
  { subst d3 d1. split; simpl in *; try done; lia. }
  eapply wp_seq; [by apply (eat32_wp data d3 0)|]. cbn beta.
  intros _ d4 (Hr4 & Hio4 & Hp4 & Hw4).
  change (io_word d3) with next. destruct (Z.eqb_spec next 0x43495551) as [Hmagic|]; [|by apply wp_throw].
  apply wp_get_bind. eapply wp_seq; [by apply (eat32_wp data d4 1)|]. cbn beta.
  intros _ d5 (Hr5 & Hio5 & Hp5 & Hw5).
  destruct (Z.eqb_spec (io_word d4) 0) as [Hver|]; [|by apply wp_throw].
  apply wp_get_bind, wp_put_bind.
  eapply wp_seq; [apply (eat32_wp data _ 2 Hb); [by destruct Hr5; split|done]|]. cbn beta.
  intros _ d6 (Hr6 & Hio6 & Hp6 & Hw6). apply wp_get_bind, wp_put_bind.
  eapply wp_seq; [apply (eat32_wp data _ 3 Hb); [by destruct Hr6; split|done]|]. cbn beta.
  intros _ d7 (Hr7 & Hio7 & Hp7 & Hw7). apply wp_get_bind, wp_put_bind.
  eapply wp_seq; [apply (eat32_wp data _ 4 Hb); [by destruct Hr7; split|done]|]. cbn beta.
  intros _ d8 (Hr8 & Hio8 & Hp8 & Hw8). apply wp_get_bind.
  destruct (rgba_len (qd_width d8) (qd_height d8)) as [len|] eqn:Hsize; [|by apply wp_throw].
  apply wp_put_bind.
  apply io_only_fields in Hio4 as F4, Hio5 as F5, Hio6 as F6, Hio7 as F7, Hio8 as F8.
  assert (tables_ok d8) as Htab8.
  { apply (io_only_tables _ _ Hio8). destruct (io_only_tables _ _ Hio7); [|by split].
    destruct (io_only_tables _ _ Hio6); [|by split].
    destruct (io_only_tables _ _ Hio5); [|by split].
    apply (io_only_tables _ _ Hio4). by destruct Htab; split. }
  simpl in F4, F5, F6, F7, F8.
  change (io_idx d1 / 4) with 0 in Hnext.
  change (0 + 1) with 1 in Hw4. change (1 + 1) with 2 in Hw5. change (2 + 1) with 3 in Hw6.
  change (3 + 1) with 4 in Hw7.
  assert (channels d8 = channels d) as Hch by (decompose [and] F8; decompose [and] F7;
    decompose [and] F6; decompose [and] F5; decompose [and] F4; congruence).
  assert (rgb_state d8 = s) as Hrgb by (decompose [and] F8; decompose [and] F7;
    decompose [and] F6; decompose [and] F5; decompose [and] F4; congruence).
  assert (qd_width d8 = stream_word data 3) as Hwidth
    by (decompose [and] F8; decompose [and] F7; congruence).
  assert (qd_height d8 = stream_word data 4) as Hheight by (decompose [and] F8; congruence).
  assert (image_type d8 = stream_word data 2) as Htype
    by (decompose [and] F8; decompose [and] F7; decompose [and] F6; congruence).
  pose proof (stream_word_u32 data 3 Hb) as [Hw0 _].
  eapply wp_mono; [apply reset_channels_loop_wp|]; simpl; rewrite ?Hch; try done.
  { lia. }
  { repeat (apply list.Forall_cons_2; [lia|]). apply list.Forall_nil_2. }
  intros _ d9 (chs & -> & Hl9 & Hready). split; simpl; try done.
  - by destruct Hr8; split.
  - by destruct Htab8; split.
  - split; congruence.
  - by rewrite Hrgb.
Qed.

(** ** Runs *)

Lemma set_melcstate_ok s melc : state_ok s -> 0 <= melc < MELCSTATES ->
  exists s', set_melcstate s melc = Some s' /\ state_ok s' /\
    waitcnt s' = waitcnt s /\ wmidx s' = wmidx s /\ wmileft s' = wmileft s.
Proof.
  intros Hs Hm. unfold set_melcstate. destruct (melc_index melc Hm) as (len & Hlen & Hr).
  rewrite Hlen. simpl. rewrite (proj2 (Z.ltb_lt len 64)) by lia.
  eexists. split; [done|]. split; [|done]. destruct Hs. split; simpl; try done.
  by rewrite Z.shiftl_mul_pow2, Z.mul_1_l by lia.
Qed.

(** The parts of a state that a run does not change. *)
Definition same_wait (s s' : CommonState) : Prop :=
  waitcnt s' = waitcnt s /\ wmidx s' = wmidx s /\ wmileft s' = wmileft s.

Lemma same_wait_trans s1 s2 s3 : same_wait s1 s2 -> same_wait s2 s3 -> same_wait s1 s3.
Proof. unfold same_wait. intuition congruence. Qed.

Lemma run_ones_ok : forall temp runlen s, state_ok s ->
  0 <= runlen -> runlen + 2 ^ 15 * Z.of_nat temp <= 2 ^ 62 ->
  exists runlen' s', run_ones temp runlen s = Some (runlen', s') /\
    runlen <= runlen' <= runlen + 2 ^ 15 * Z.of_nat temp /\ state_ok s' /\ same_wait s s'.
Proof.
  induction temp as [|temp IH]; intros runlen s Hs H0 Hle; simpl.
  { eexists _, _. split; [done|]. split; [lia|]. by split. }
  pose proof (melclen_range s Hs) as Hr.
  assert (0 < melcorder s <= 2 ^ 15) as Ho.
  { rewrite (so_melcorder s Hs). split; [apply pow2_pos; lia|]. apply Z.pow_le_mono_r; lia. }
  unfold checked_add. rewrite (proj2 (Z.leb_le _ _)) by (unfold usize_max; lia). simpl.
  destruct (Z.ltb_spec (melcstate s) (MELCSTATES - 1)) as [Hlt|_].
  - destruct (set_melcstate_ok s (melcstate s + 1) Hs) as (s1 & -> & Hs1 & Hw).
    { destruct Hs. lia. }
    simpl. destruct (IH (runlen + melcorder s) s1 Hs1) as (r & s2 & -> & Hr2 & Hs2 & Hw2); [lia|lia|].
    eexists _, _. split; [done|]. split; [lia|]. split; [done|]. by apply (same_wait_trans s s1 s2).
  - destruct (IH (runlen + melcorder s) s Hs) as (r & s2 & -> & Hr2 & Hs2 & Hw2); [lia|lia|].
    eexists _, _. split; [done|]. split; [lia|]. by split.
Qed.

Lemma top_byte d data : reader_ok data d ->
  exists top, shr32 (io_word d) 24 = Some top /\ 0 <= Z.land (u32_max - top) 0xff < 256.
Proof.
  intros Hr. rewrite shr32_div by lia. eexists. split; [done|].
  change 255 with (2 ^ 8 - 1). rewrite land_mask by lia. by apply Z.mod_pos_bound.
Qed.

(** What a run leaves behind. *)
Definition after_run (data : list Z) (d : QuicDecoder) (s : CommonState)
    (r : Z * CommonState) (d' : QuicDecoder) : Prop :=
  reader_ok data d' /\ io_only d d' /\ bits_left d' < bits_left d /\
  0 <= fst r /\ fst r + 2 ^ 15 * bits_left d' <= 2 ^ 61 /\ state_ok (snd r) /\ same_wait s (snd r).

Lemma run_loop_wp data : bytes data -> forall fuel runlen s d,
  reader_ok data d -> lut_ok (zero_lut d) -> state_ok s -> 0 <= runlen ->
  runlen + 2 ^ 15 * bits_left d <= 2 ^ 61 -> bits_left d < Z.of_nat fuel ->
  wp (run_loop fuel runlen s) (after_run data d s) d.
Proof.
  intros Hb. induction fuel as [|fuel IH]; intros runlen s d Hr Hlut Hs H0 Hle Hfuel; cbn [run_loop].
  { pose proof (bits_left_nonneg _ _ Hr). lia. }
  apply wp_get_bind. destruct (top_byte d data Hr) as (top & Htop & Hx).
  eapply wp_unwrap_bind; [exact Htop|]. cbv zeta.
  destruct Hlut as [Hl1 Hl2].
  destruct (index_Forall _ _ (Z.land (u32_max - top) 0xff) Hl2 ltac:(lia)) as (temp & Et & Htemp).
  eapply wp_unwrap_bind; [exact Et|]. pose proof (bits_left_nonneg _ _ Hr) as Hn.
  destruct (run_ones_ok (Z.to_nat temp) runlen s Hs H0 ltac:(lia)) as (r & s1 & E1 & Hr1 & Hs1 & Hw1).
  eapply wp_unwrap_bind; [exact E1|]. cbn [fst snd].
  destruct (Z.eqb_spec temp 8) as [->|Hne]; simpl negb; cbv iota.
  - eapply wp_seq; [by apply (eatbits_wp data)|]. cbn beta.
    intros _ d1 (Hr2 & Hio & _ & Hbits).
    pose proof (bits_left_nonneg _ _ Hr2).
    pose proof (io_only_fields _ _ Hio) as F. decompose [and] F.
    eapply wp_mono; [apply IH; try done; try lia; by split; congruence|].
    intros [rl s2] d2 (Ha & Hio2 & Hb2 & Hc & Hd & He & Hf).
    split; [done|]. split; [by eapply io_only_trans|]. split; [lia|].
    split; [done|]. split; [done|]. split; [done|]. by apply (same_wait_trans s s1 s2).
  - eapply wp_seq; [apply (eatbits_wp data); [done|done|lia]|]. cbn beta.
    intros _ d1 (Hr2 & Hio & _ & Hbits). apply wp_ret.
    split; [done|]. split; [done|]. split; [lia|]. cbn [fst snd].
    split; [lia|]. split; [lia|]. by split.
Qed.

(** Decoding a run consumes at least one bit and changes only the run state. *)
Lemma decode_run_wp data d s : bytes data -> zlen data <= u32_max ->
  reader_ok data d -> lut_ok (zero_lut d) -> state_ok s ->
  wp (decode_run s)
    (fun r d' => reader_ok data d' /\ io_only d d' /\ bits_left d' < bits_left d /\
       0 <= fst r /\ state_ok (snd r) /\ same_wait s (snd r)) d.
Proof.
  intros Hb Hmax Hr Hlut Hs. unfold decode_run. apply wp_get_bind.
  assert (bits_left d <= 8 * u32_max + 32) as Hbound.
  { rewrite (bits_left_position _ _ Hr). destruct Hr. unfold position. lia. }
  pose proof (bits_left_nonneg _ _ Hr).
  eapply wp_seq; [apply (run_loop_wp data); try done; unfold u32_max in *; lia|].
  intros [runlen s1] d1 (Hr1 & Hio1 & Hbits1 & H0 & Hle & Hs1 & Hw1). cbn [fst snd] in *.
  pose proof (melclen_range s1 Hs1) as Hml. pose proof (bits_left_nonneg _ _ Hr1).
  eapply (wp_seq _ _ (fun runlen d' => reader_ok data d' /\ io_only d d' /\
    bits_left d' < bits_left d /\ 0 <= runlen)).
  { destruct (Z.eqb_spec (melclen s1) 0) as [|Hne]; simpl negb; cbv iota.
    { by apply wp_ret. }
    apply wp_get_bind. destruct (ro_word _ _ Hr1) as [[Hu1 Hu2] _].
    eapply wp_unwrap_bind; [apply shr32_div; lia|].
    pose proof (pow2_pos (32 - melclen s1) ltac:(lia)).
    pose proof (Z.div_pos (io_word d1) _ Hu1 H2).
    pose proof (Z.div_le_upper_bound (io_word d1) (2 ^ (32 - melclen s1)) (2 ^ 32)
      ltac:(lia) ltac:(nia)).
    eapply wp_unwrap_bind.
    { unfold checked_add. rewrite (proj2 (Z.leb_le _ _)) by (unfold usize_max; lia). done. }
    eapply wp_seq; [apply (eatbits_wp data); [done|done|lia]|]. cbn beta.
    intros _ d2 (Hr2 & Hio2 & _ & Hbits2). apply wp_ret.
    split; [done|]. split; [by eapply io_only_trans|]. lia. }
  cbn beta. intros runlen' d2 (Hr2 & Hio2 & Hbits2 & H02).
  destruct (Z.eqb_spec (melcstate s1) 0) as [|Hne]; simpl negb; cbv iota.
  { by apply wp_ret. }
  destruct (set_melcstate_ok s1 (melcstate s1 - 1) Hs1) as (s2 & E2 & Hs2 & Hw2).
  { destruct Hs1. lia. }
  eapply wp_unwrap_bind; [exact E2|]. apply wp_ret. cbn [fst snd].
  split; [done|]. split; [done|]. split; [done|]. split; [done|]. split; [done|].
  by apply (same_wait_trans s s1 s2).
Qed.

(** ** A concrete reader *)

Lemma holds_window_word data k : bytes data -> holds_window data (32 * k) (stream_word data k).
Proof.
  intros Hb. split; [by apply stream_word_u32|]. intros j Hj. unfold stream_bit.
  rewrite <- (Z.div_unique (32 * k + j) 32 k j) by lia.
  by rewrite <- (Z.mod_unique (32 * k + j) 32 k j) by lia.
Qed.

Definition sample_data : list Z := [0x51; 0x55; 0x49; 0x43; 0x78; 0x56; 0x34; 0x12; 0xff].

Definition sample_state : CommonState := mkCommonState 0 255 110 0 2048 0 0 1.

Definition sample_reader : QuicDecoder :=
  mkQuicDecoder 0 0 0 0 4 0 0x43495551 0x43495551 sample_data 9 0
    sample_state [] (mkQuicModel 8 1 1 1 2 256) Family_new [].

Lemma sample_reader_ok : bytes sample_data /\ reader_ok sample_data sample_reader.
Proof.
  assert (bytes sample_data) as Hb by (apply (bool_decide_unpack _); reflexivity).
  split; [done|].
  pose proof (holds_window_word sample_data 0 Hb) as Hw.
  split; try reflexivity; [by vm_compute|by vm_compute|exact Hw|exact Hw].
Qed.

Lemma bit_reader_refines_witness :
  bytes sample_data /\ reader_ok sample_data sample_reader /\ 0 <= 20 < 32 /\
  match decode_eatbits 20 sample_reader with
  | (Ok _, d') => position d' = 20 /\ holds_window sample_data 20 (io_word d')
  | (Err _, _) | (Panic, _) => False
  end.
Proof.
  destruct sample_reader_ok as [Hb Hr]. split; [exact Hb|]. split; [exact Hr|].
  split; [lia|]. pose proof (bit_reader_refines sample_data sample_reader 20 Hb Hr ltac:(lia)) as H.
  revert H. destruct (decode_eatbits 20 sample_reader) as [[[]|e|] d'] eqn:E; intros H.
  - destruct H as (_ & Hp & Hw & _). split; [exact Hp|exact Hw].
  - vm_compute in E. discriminate E.
  - exact H.
Defined.
