(* ===== verification/Quic.v ===== *)
(** The QUIC row decoder: [shakenfist-spice-compression/src/quic.rs], lines 714 to
    1652.

    The source spells the row functions out twice: for the three colour components,
    which share the decoder's [rgb_state], and for the alpha channel, which has its
    own.  They are modelled as one set of functions over a [Plane], the operations
    in which the two differ, and its two instances.  A row function runs on a
    [Frame], the decoder with the row it writes.  The pixel indices are [usize] sums
    of a row position and a wait below 64, so they are left unbounded. *)
From Stdlib Require Import ZArith Lia List.
From stdpp Require Import base numbers list tactics.
From S2P Require Import Prelude Lz QuicModel QuicBits.

Open Scope Z_scope.
Open Scope rust_scope.

#[global] Arguments shr32 : simpl never.
#[global] Arguments shl32 : simpl never.

(** * Frames *)

Record Frame : Type := mkFrame {
  fr_dec : QuicDecoder;
  fr_row : list Z
}.

Definition Row (A : Type) : Type := M Refused Frame A.

Definition on_dec {A} (m : Dec A) : Row A :=
  fun f => let '(r, d) := m (fr_dec f) in (r, mkFrame d (fr_row f)).

Definition get_dec : Row QuicDecoder :=
  let? f := get_state in
  ret (fr_dec f).
Definition set_dec (d : QuicDecoder) : Row unit :=
  let? f := get_state in
  put_state (mkFrame d (fr_row f)).

Definition row_get (i : Z) : Row Z :=
  let? f := get_state in
  unwrap (index (fr_row f) i).
Definition row_set (i v : Z) : Row unit :=
  let? f := get_state in
  let? row := unwrap (set_index (fr_row f) i v) in
  put_state (mkFrame (fr_dec f) row).

(** [while cond(v) { v = body(v) }] over the loop variables [v]. *)
Fixpoint while_loop {E St V} (fuel : nat) (cond : V -> bool) (body : V -> M E St V) (v : V)
  : M E St V :=
  if cond v then
    match fuel with
    | O => panic
    | S fuel =>
        let? v := body v in
        while_loop fuel cond body v
    end
  else ret v.

Fixpoint for_each {E St V} (vs : list V) (body : V -> M E St unit) : M E St unit :=
  match vs with
  | [] => ret tt
  | v :: vs =>
      do? body v in
      for_each vs body
  end.

(** * One component of a pixel *)

Definition get_channel (c : Z) : Row QuicChannel :=
  let? d := get_dec in
  unwrap (index (channels d) c).

Definition set_at {A} (l : list A) (i : Z) (x : A) : option (list A) :=
  if (0 <=? i) && (i <? zlen l) then Some (<[Z.to_nat i := x]> l) else None.

Definition put_channel (c : Z) (ch : QuicChannel) : Row unit :=
  let? d := get_dec in
  let? chs := unwrap (set_at (channels d) c ch) in
  set_dec (with_states d (rgb_state d) chs).

Definition with_correlate (ch : QuicChannel) (cr : CorrelateRow) : QuicChannel :=
  mkQuicChannel (ch_state ch) (family_stat_8bpc ch) (family_stat_5bpc ch) cr
    (buckets_ptrs ch) (buckets_buf ch).
Definition with_buckets (ch : QuicChannel) (buckets : list QuicBucket) : QuicChannel :=
  mkQuicChannel (ch_state ch) (family_stat_8bpc ch) (family_stat_5bpc ch) (correlate_row ch)
    (buckets_ptrs ch) buckets.

(** [self.channels[c].correlate_row.row[i]], read and assigned. *)
Definition correlate (c i : Z) : Row Z :=
  let? ch := get_channel c in
  unwrap (index (cr_row (correlate_row ch)) i).
Definition set_correlate (c i rc : Z) : Row unit :=
  let? ch := get_channel c in
  let? row := unwrap (set_index (cr_row (correlate_row ch)) i rc) in
  put_channel c (with_correlate ch (mkCorrelateRow (cr_zero (correlate_row ch)) row)).

Definition correlate_zero (c : Z) : Row Z :=
  let? ch := get_channel c in
  ret (cr_zero (correlate_row ch)).

(** [self.channels[c].buckets_ptrs[key]] *)
Definition bucket_of (c key : Z) : Row Z :=
  let? ch := get_channel c in
  unwrap (index (buckets_ptrs ch) key).

(** The code at the head of [io_word] under the bucket's best parameter. *)
Definition golomb_at (c bidx : Z) : Row (Z * Z) :=
  let? ch := get_channel c in
  let? b := unwrap (index (buckets_buf ch) bidx) in
  let? d := get_dec in
  unwrap (golomb_decoding_8bpc (bestcode b) (io_word d) (family_8bpc d)).

(** [self.family_8bpc.xlat_l2u[rc]] *)
Definition translate (rc : Z) : Row Z :=
  let? d := get_dec in
  unwrap (index (xlat_l2u (family_8bpc d)) rc).

Definition update_bucket (c : Z) (s : CommonState) (bidx curval bpc : Z) : Row unit :=
  let? ch := get_channel c in
  let? b := unwrap (index (buckets_buf ch) bidx) in
  let? d := get_dec in
  let? b := unwrap (update_model_8bpc s curval bpc (family_8bpc d) b) in
  let? buckets := unwrap (set_at (buckets_buf ch) bidx b) in
  put_channel c (with_buckets ch buckets).

Definition eatbits (len : Z) : Row unit := on_dec (decode_eatbits len).

(** [x + y] of two integers of [w] bits. *)
Definition add_w (w x y : Z) : option Z := if x + y <? 2 ^ w then Some (x + y) else None.

(** Decode a component coded under the bucket of [key] into position [i] of the
    correlation row and byte [at'] of the row, [pixel] giving the byte from the
    translated residual; the bucket is returned. *)
Definition component (c key i at' : Z) (pixel : Z -> Row Z) : Row Z :=
  let? bidx := bucket_of c key in
  let? code := golomb_at c bidx in
  do? set_correlate c i (snd code) in
  let? x := translate (snd code) in
  let? v := pixel x in
  do? row_set at' v in
  do? eatbits (fst code) in
  ret bidx.

(** The four ways a byte is predicted: not at all, from the left neighbour, from the
    pixel above, and from the mean of the two. *)
Definition plain (x : Z) : Row Z := ret (x mod 256).
Definition from_left_wrapping (at' bpc_mask x : Z) : Row Z :=
  let? left' := row_get at' in
  ret (Z.land ((x + left') mod 2 ^ 32 mod 256) bpc_mask).
Definition from_left (at' bpc_mask x : Z) : Row Z :=
  let? left' := row_get at' in
  let? sum := unwrap (add_w 32 x left') in
  ret (Z.land (sum mod 256) bpc_mask).
Definition from_above (prev_row : list Z) (at' bpc_mask x : Z) : Row Z :=
  let? above := unwrap (index prev_row at') in
  let? sum := unwrap (add_w 32 x above) in
  ret (Z.land (sum mod 256) bpc_mask).
Definition from_mean (prev_row : list Z) (left_at at' bpc_mask x : Z) : Row Z :=
  let? left_val := row_get left_at in
  let? above_val := unwrap (index prev_row at') in
  let? sum := unwrap (add_w 16 left_val above_val) in
  let? sum := unwrap (add_w 32 x (Z.shiftr sum 1)) in
  ret (Z.land (sum mod 256) bpc_mask).

(** * Planes *)

Record Plane : Type := mkPlane {
  (** the adaptive state: [self.rgb_state] or [self.channels[c].state] *)
  pl_state : QuicDecoder -> option CommonState;
  pl_set_state : QuicDecoder -> CommonState -> option QuicDecoder;
  (** the pixel at 0, on the first row and on the others *)
  pl_first0 : Row unit;
  pl_first : list Z -> Row unit;
  (** the model update after the pixel at 0 *)
  pl_update_first : Row unit;
  (** a pixel at [i > 0]; the bucket it was coded under is returned *)
  pl_pixel0 : Z -> Row Z;
  pl_pixel : list Z -> Z -> Row Z;
  (** the model update at [stopidx], with the bucket of the pixel before *)
  pl_update : Z -> Z -> Row unit;
  (** does a run start at [i]: previous row, current row, [i], [run_index] *)
  pl_repeats : list Z -> list Z -> Z -> Z -> option bool;
  (** copy the pixel at [i - 1] to [i] *)
  pl_copy : Z -> Row unit
}.

(** [a && b] where either may panic. *)
Definition and_then (a b : option bool) : option bool :=
  match a with
  | Some true => b
  | Some false => Some false
  | None => None
  end.
Definition same_byte (row : list Z) (i j : Z) : option bool :=
  x ← index row i;
  y ← index row j;
  Some (x =? y).

Definition rgb_channels : list Z := [0; 1; 2].

Section RgbPlane.
Context (bpc bpc_mask : Z).

Definition rgb_first0 : Row unit :=
  do? row_set RGB32_PIXEL_PAD 0 in
  for_each rgb_channels (fun c =>
    let? z := correlate_zero c in
    do? component c z 0 (2 - c) plain in
    ret tt).

Definition rgb_first (prev_row : list Z) : Row unit :=
  do? row_set RGB32_PIXEL_PAD 0 in
  for_each rgb_channels (fun c =>
    let? z := correlate_zero c in
    do? component c z 0 (2 - c) (from_above prev_row (2 - c) bpc_mask) in
    ret tt).

Definition rgb_update_first : Row unit :=
  for_each rgb_channels (fun c =>
    let? rc0 := correlate c 0 in
    let? z := correlate_zero c in
    let? bidx := bucket_of c z in
    let? d := get_dec in
    update_bucket c (rgb_state d) bidx rc0 bpc).

Definition rgb_pixel0 (i : Z) : Row Z :=
  let pixel := i * RGB32_PIXEL_SIZE in
  do? row_set (pixel + RGB32_PIXEL_PAD) 0 in
  do? for_each rgb_channels (fun c =>
    let? prev_idx := correlate c (i - 1) in
    do? component c prev_idx i (pixel + (2 - c))
          (from_left_wrapping ((i - 1) * RGB32_PIXEL_SIZE + (2 - c)) bpc_mask) in
    ret tt) in
  ret 0.

Definition rgb_pixel (prev_row : list Z) (i : Z) : Row Z :=
  let pixel := i * RGB32_PIXEL_SIZE in
  let pixelm1 := (i - 1) * RGB32_PIXEL_SIZE in
  do? row_set (pixel + RGB32_PIXEL_PAD) 0 in
  do? for_each rgb_channels (fun c =>
    let? prev_idx := correlate c (i - 1) in
    do? component c prev_idx i (pixel + (2 - c))
          (from_mean prev_row (pixelm1 + (2 - c)) (pixel + (2 - c)) bpc_mask) in
    ret tt) in
  ret 0.

Definition rgb_update (stopidx _last_bucket : Z) : Row unit :=
  for_each rgb_channels (fun c =>
    let? key := correlate c (stopidx - 1) in
    let? bidx := bucket_of c key in
    let? value := correlate c stopidx in
    let? d := get_dec in
    update_bucket c (rgb_state d) bidx value bpc).

Definition rgb_repeats (prev_row cur_row : list Z) (i run_index : Z) : option bool :=
  let pixel := i * RGB32_PIXEL_SIZE in
  let pixelm1 := (i - 1) * RGB32_PIXEL_SIZE in
  let pixelm2 := saturating_sub i 2 * RGB32_PIXEL_SIZE in
  and_then (same_byte prev_row (pixelm1 + RGB32_PIXEL_R) (pixel + RGB32_PIXEL_R))
  (and_then (same_byte prev_row (pixelm1 + RGB32_PIXEL_G) (pixel + RGB32_PIXEL_G))
  (and_then (same_byte prev_row (pixelm1 + RGB32_PIXEL_B) (pixel + RGB32_PIXEL_B))
  (and_then (Some (negb (run_index =? i)))
  (and_then (Some (2 <? i))
  (and_then (same_byte cur_row (pixelm1 + RGB32_PIXEL_R) (pixelm2 + RGB32_PIXEL_R))
  (and_then (same_byte cur_row (pixelm1 + RGB32_PIXEL_G) (pixelm2 + RGB32_PIXEL_G))
  (same_byte cur_row (pixelm1 + RGB32_PIXEL_B) (pixelm2 + RGB32_PIXEL_B)))))))).

Definition rgb_copy (i : Z) : Row unit :=
  let p := i * RGB32_PIXEL_SIZE in
  let pm1 := (i - 1) * RGB32_PIXEL_SIZE in
  do? row_set (p + RGB32_PIXEL_PAD) 0 in
  for_each [RGB32_PIXEL_R; RGB32_PIXEL_G; RGB32_PIXEL_B] (fun k =>
    let? v := row_get (pm1 + k) in
    row_set (p + k) v).

Definition rgb_plane : Plane :=
  mkPlane (fun d => Some (rgb_state d)) (fun d s => Some (with_states d s (channels d)))
    rgb_first0 rgb_first rgb_update_first rgb_pixel0 rgb_pixel rgb_update rgb_repeats rgb_copy.
End RgbPlane.

Section AlphaPlane.
Context (channel_index bpc bpc_mask : Z).

Definition with_ch_state (ch : QuicChannel) (s : CommonState) : QuicChannel :=
  mkQuicChannel s (family_stat_8bpc ch) (family_stat_5bpc ch) (correlate_row ch)
    (buckets_ptrs ch) (buckets_buf ch).

Definition alpha_state (d : QuicDecoder) : option CommonState :=
  ch ← index (channels d) channel_index;
  Some (ch_state ch).
Definition alpha_set_state (d : QuicDecoder) (s : CommonState) : option QuicDecoder :=
  ch ← index (channels d) channel_index;
  chs ← set_at (channels d) channel_index (with_ch_state ch s);
  Some (with_states d (rgb_state d) chs).

Definition alpha_update_bucket (bidx value : Z) : Row unit :=
  let? ch := get_channel channel_index in
  update_bucket channel_index (ch_state ch) bidx value bpc.

Definition alpha_first0 : Row unit :=
  let? z := correlate_zero channel_index in
  do? component channel_index z 0 RGB32_PIXEL_PAD plain in
  ret tt.

Definition alpha_first (prev_row : list Z) : Row unit :=
  let? z := correlate_zero channel_index in
  do? component channel_index z 0 RGB32_PIXEL_PAD
        (from_above prev_row RGB32_PIXEL_PAD bpc_mask) in
  ret tt.

Definition alpha_update_first : Row unit :=
  let? z := correlate_zero channel_index in
  let? bidx := bucket_of channel_index z in
  let? val := correlate channel_index 0 in
  alpha_update_bucket bidx val.

Definition alpha_pixel0 (i : Z) : Row Z :=
  let? key := correlate channel_index (i - 1) in
  component channel_index key i (i * RGB32_PIXEL_SIZE + RGB32_PIXEL_PAD)
    (from_left ((i - 1) * RGB32_PIXEL_SIZE + RGB32_PIXEL_PAD) bpc_mask).

Definition alpha_row_pixel (prev_row : list Z) (i : Z) : Row Z :=
  let pixel := i * RGB32_PIXEL_SIZE in
  let pixelm1 := (i - 1) * RGB32_PIXEL_SIZE in
  let? key := correlate channel_index (i - 1) in
  component channel_index key i (pixel + RGB32_PIXEL_PAD)
    (from_mean prev_row (pixelm1 + RGB32_PIXEL_PAD) (pixel + RGB32_PIXEL_PAD) bpc_mask).

Definition alpha_update (stopidx last_bucket : Z) : Row unit :=
  let? value := correlate channel_index stopidx in
  alpha_update_bucket last_bucket value.

Definition alpha_repeats (prev_row cur_row : list Z) (i run_index : Z) : option bool :=
  let pixel := i * RGB32_PIXEL_SIZE in
  let pixelm1 := (i - 1) * RGB32_PIXEL_SIZE in
  let pixelm2 := saturating_sub i 2 * RGB32_PIXEL_SIZE in
  and_then (same_byte prev_row (pixelm1 + RGB32_PIXEL_PAD) (pixel + RGB32_PIXEL_PAD))
  (and_then (Some (negb (run_index =? i)))
  (and_then (Some (2 <? i))
  (same_byte cur_row (pixelm1 + RGB32_PIXEL_PAD) (pixelm2 + RGB32_PIXEL_PAD)))).

Definition alpha_copy (i : Z) : Row unit :=
  let p := i * RGB32_PIXEL_SIZE in
  let pm1 := (i - 1) * RGB32_PIXEL_SIZE in
  let? v := row_get (pm1 + RGB32_PIXEL_PAD) in
  row_set (p + RGB32_PIXEL_PAD) v.

Definition alpha_plane : Plane :=
  mkPlane alpha_state alpha_set_state alpha_first0 alpha_first alpha_update_first
    alpha_pixel0 alpha_row_pixel alpha_update alpha_repeats alpha_copy.
End AlphaPlane.

(** * Segments *)

Section Segments.
Context (p : Plane).

Definition plane_state : Row CommonState :=
  let? d := get_dec in
  unwrap (pl_state p d).
Definition set_plane_state (s : CommonState) : Row unit :=
  let? d := get_dec in
  let? d := unwrap (pl_set_state p d s) in
  set_dec d.

Definition set_waitcnt (w : Z) : Row unit :=
  let? s := plane_state in
  set_plane_state (with_waitcnt s w).

(** [state.tabrand() & waitmask] *)
Definition random_wait (waitmask : Z) : Row Z :=
  let? s := plane_state in
  let? r := unwrap (tabrand s) in
  do? set_plane_state (snd r) in
  ret (Z.land (fst r) waitmask).

Definition first_wait (waitmask : Z) : Row unit :=
  let? s := plane_state in
  if 0 <? waitcnt s then set_plane_state (with_waitcnt s (waitcnt s - 1))
  else
    let? w := random_wait waitmask in
    do? set_waitcnt w in
    pl_update_first p.

(** Up to the first [stopidx]: the position and [stopidx]. *)
Definition start_segment (first : Row unit) (waitmask i : Z) : Row (Z * Z) :=
  let? i :=
    (if i =? 0 then
       do? first in
       do? first_wait waitmask in
       ret (i + 1)
     else ret i) in
  let? s := plane_state in
  ret (i, i + waitcnt s).

(** [while i <= stopidx] of the first row: the position and the last bucket. *)
Definition pixels_to_stop0 (i stopidx : Z) : Row (Z * Z) :=
  while_loop (Z.to_nat (stopidx + 1 - i)) (fun v => fst v <=? stopidx)
    (fun v =>
       let? last_bucket := pl_pixel0 p (fst v) in
       ret (fst v + 1, last_bucket))
    (i, 0).

(** [while stopidx < end] of the first row; every round passes [stopidx]. *)
Definition rounds0 (waitmask end' : Z) (v : Z * Z) : Row (Z * Z) :=
  while_loop (Z.to_nat (end' - fst v)) (fun v => snd v <? end')
    (fun v =>
       let? r := pixels_to_stop0 (fst v) (snd v) in
       do? pl_update p (snd v) (snd r) in
       let? w := random_wait waitmask in
       ret (fst r, fst r + w))
    v.

Definition uncompress_row0_seg (i end' waitmask : Z) : Row unit :=
  let? v := start_segment (pl_first0 p) waitmask i in
  let? v := rounds0 waitmask end' v in
  do? while_loop (Z.to_nat (end' - fst v)) (fun i => i <? end')
        (fun i =>
           do? pl_pixel0 p i in
           ret (i + 1))
        (fst v) in
  set_waitcnt (saturating_sub (snd v) end').

(** The loop variables of a later row. *)
Record seg_vars : Type := mkSegVars {
  sv_i : Z;
  sv_stopidx : Z;
  sv_run_index : Z
}.

(** How a loop of a later row ends: its condition failed, a run was decoded
    ([rc_break]), or the method returned [true]. *)
Inductive seg_flow : Type :=
| Going (v : seg_vars)
| Ran (v : seg_vars)
| Returned.

Definition decode_run_plane : Row Z :=
  let? s := plane_state in
  let? r := on_dec (decode_run s) in
  do? set_plane_state (snd r) in
  ret (fst r).

(** The body of the run branch. *)
Definition run_pixels (end' i wait : Z) : Row seg_flow :=
  do? set_waitcnt wait in
  let run_index := i in
  let? run := decode_run_plane in
  match checked_run_end i run end' with
  | None => throw refused
  | Some run_end =>
      let? i := while_loop (Z.to_nat (run_end - i)) (fun i => i <? run_end)
                  (fun i =>
                     do? pl_copy p i in
                     ret (i + 1))
                  i in
      if i =? end' then ret Returned
      else
        let? s := plane_state in
        ret (Ran (mkSegVars i (i + waitcnt s) run_index))
  end.

Definition repeats_here (prev_row : list Z) (i run_index : Z) : Row bool :=
  let? f := get_state in
  unwrap (pl_repeats p prev_row (fr_row f) i run_index).

(** [while i <= stopidx && !rc_break]: the flow and the last bucket. *)
Fixpoint pixels_to_stop (fuel : nat) (prev_row : list Z) (end' : Z) (v : seg_vars)
    (last_bucket : Z) : Row (seg_flow * Z) :=
  if sv_i v <=? sv_stopidx v then
    match fuel with
    | O => panic
    | S fuel =>
        let? repeats := repeats_here prev_row (sv_i v) (sv_run_index v) in
        if repeats then
          let? flow := run_pixels end' (sv_i v) (sv_stopidx v - sv_i v) in
          ret (flow, last_bucket)
        else
          let? last_bucket := pl_pixel p prev_row (sv_i v) in
          pixels_to_stop fuel prev_row end'
            (mkSegVars (sv_i v + 1) (sv_stopidx v) (sv_run_index v)) last_bucket
    end
  else ret (Going v, last_bucket).

(** [while stopidx < end && !rc_break] *)
Fixpoint rounds (fuel : nat) (prev_row : list Z) (waitmask end' : Z) (v : seg_vars)
  : Row seg_flow :=
  if sv_stopidx v <? end' then
    match fuel with
    | O => panic
    | S fuel =>
        let? r := pixels_to_stop (Z.to_nat (sv_stopidx v + 1 - sv_i v)) prev_row end' v 0 in
        match fst r with
        | Going u =>
            do? pl_update p (sv_stopidx u) (snd r) in
            let? w := random_wait waitmask in
            rounds fuel prev_row waitmask end'
              (mkSegVars (sv_i u) (sv_i u + w) (sv_run_index u))
        | flow => ret flow
        end
    end
  else ret (Going v).

(** [while i < end && !rc_break] *)
Fixpoint pixels_to_end (fuel : nat) (prev_row : list Z) (end' : Z) (v : seg_vars)
  : Row seg_flow :=
  if sv_i v <? end' then
    match fuel with
    | O => panic
    | S fuel =>
        let? repeats := repeats_here prev_row (sv_i v) (sv_run_index v) in
        if repeats then run_pixels end' (sv_i v) (saturating_sub (sv_stopidx v) (sv_i v))
        else
          do? pl_pixel p prev_row (sv_i v) in
          pixels_to_end fuel prev_row end'
            (mkSegVars (sv_i v + 1) (sv_stopidx v) (sv_run_index v))
    end
  else ret (Going v).

(** The outer [loop]; it goes round again only after a run, which took a bit. *)
Fixpoint segment_loop (fuel : nat) (prev_row : list Z) (waitmask end' : Z) (v : seg_vars)
  : Row unit :=
  match fuel with
  | O => panic
  | S fuel =>
      let? flow := rounds (Z.to_nat (end' - sv_i v)) prev_row waitmask end' v in
      let? flow :=
        match flow with
        | Going u => pixels_to_end (Z.to_nat (end' - sv_i u)) prev_row end' u
        | flow => ret flow
        end in
      match flow with
      | Going u => set_waitcnt (saturating_sub (sv_stopidx u) end')
      | Ran u => segment_loop fuel prev_row waitmask end' u
      | Returned => ret tt
      end
  end.

Definition uncompress_row_seg (prev_row : list Z) (i end' : Z) : Row unit :=
  let? s := plane_state in
  let? waitmask := unwrap (index BPPMASK (wmidx s)) in
  let? v := start_segment (pl_first p prev_row) waitmask i in
  let? d := get_dec in
  segment_loop (S (Z.to_nat (bits_left d))) prev_row waitmask end'
    (mkSegVars (fst v) (snd v) 0).

(** * Rows *)

(** The [while] over the segments at which the wait grows; [wmidx] rises at every
    round, so 7 rounds are enough. *)
Fixpoint segments_loop (fuel : nat) (seg : Z -> Z -> Row unit) (pos width : Z) : Row (Z * Z) :=
  let? s := plane_state in
  if (wmidx s <? DEFWMIMAX) && (wmileft s <=? width) then
    match fuel with
    | O => panic
    | S fuel =>
        let? v :=
          (if 0 <? wmileft s then
             do? seg pos (pos + wmileft s) in
             let? s := plane_state in
             let? width := unwrap (checked_sub width (wmileft s)) in
             ret (pos + wmileft s, width)
           else ret (pos, width)) in
        let? s := plane_state in
        let? s := unwrap (set_wm_trigger (with_wm s (wm_trigger s) (wmidx s + 1) (wmileft s))) in
        do? set_plane_state (with_wm s (wm_trigger s) (wmidx s) DEFWMINEXT) in
        segments_loop fuel seg (fst v) (snd v)
    end
  else ret (pos, width).

Definition uncompress_segments (seg : Z -> Z -> Row unit) : Row unit :=
  let? d := get_dec in
  let? v := segments_loop 7 seg 0 (qd_width d) in
  let pos := fst v in
  let width := snd v in
  if 0 <? width then
    do? seg pos (pos + width) in
    let? s := plane_state in
    if wmidx s <? DEFWMIMAX then
      let? left' := unwrap (checked_sub (wmileft s) width) in
      set_plane_state (with_wm s (wm_trigger s) (wmidx s) left')
    else ret tt
  else ret tt.

Definition uncompress_row0 : Row unit :=
  uncompress_segments (fun pos end' =>
    let? s := plane_state in
    let? waitmask := unwrap (index BPPMASK (wmidx s)) in
    uncompress_row0_seg pos end' waitmask).

Definition uncompress_row (prev_row : list Z) : Row unit :=
  uncompress_segments (uncompress_row_seg prev_row).
End Segments.

(** The two copies of the source. *)
Definition decode_run_rgb : Row Z := decode_run_plane (rgb_plane 8 0xff).
Definition decode_run_channel (channel_index : Z) : Row Z :=
  decode_run_plane (alpha_plane channel_index 8 0xff).

Definition quic_rgb32_uncompress_row0_seg (i end' waitmask bpc bpc_mask : Z) : Row unit :=
  uncompress_row0_seg (rgb_plane bpc bpc_mask) i end' waitmask.
Definition quic_rgb32_uncompress_row_seg (prev_row : list Z) (i end' bpc bpc_mask : Z)
    : Row unit :=
  uncompress_row_seg (rgb_plane bpc bpc_mask) prev_row i end'.
Definition quic_rgb32_uncompress_row0 : Row unit := uncompress_row0 (rgb_plane 8 0xff).
Definition quic_rgb32_uncompress_row (prev_row : list Z) : Row unit :=
  uncompress_row (rgb_plane 8 0xff) prev_row.
Definition quic_four_uncompress_row0_seg (channel_index i end' waitmask bpc bpc_mask : Z)
    : Row unit :=
  uncompress_row0_seg (alpha_plane channel_index bpc bpc_mask) i end' waitmask.
Definition quic_four_uncompress_row_seg (channel_index : Z) (prev_row : list Z)
    (i end' bpc bpc_mask : Z) : Row unit :=
  uncompress_row_seg (alpha_plane channel_index bpc bpc_mask) prev_row i end'.
Definition quic_four_uncompress_row0 (channel_index : Z) : Row unit :=
  uncompress_row0 (alpha_plane channel_index 8 0xff).
Definition quic_four_uncompress_row (channel_index : Z) (prev_row : list Z) : Row unit :=
  uncompress_row (alpha_plane channel_index 8 0xff) prev_row.

(** * Images *)

(** The decoder and the pixel buffer. *)
Record Picture : Type := mkPicture {
  pi_dec : QuicDecoder;
  pi_buf : list Z
}.

Definition Pic (A : Type) : Type := M Refused Picture A.

(** Run on the [stride] bytes of the buffer at [start], borrowed mutably. *)
Definition on_row {A} (start stride : Z) (m : Row A) : Pic A :=
  fun s =>
    match slice (pi_buf s) start (start + stride) with
    | None => (Panic, s)
    | Some row =>
        let '(r, f) := m (mkFrame (pi_dec s) row) in
        (r, mkPicture (fr_dec f)
              (take (Z.to_nat start) (pi_buf s) ++ fr_row f ++
               drop (Z.to_nat (start + stride)) (pi_buf s)))
    end.

Definition with_zero (ch : QuicChannel) (z : Z) : QuicChannel :=
  with_correlate ch (mkCorrelateRow z (cr_row (correlate_row ch))).

(** [self.channels[c].correlate_row.zero = 0] *)
Definition clear_zero (c : Z) : Row unit :=
  let? ch := get_channel c in
  put_channel c (with_zero ch 0).
(** [self.channels[c].correlate_row.zero = self.channels[c].correlate_row.row[0]] *)
Definition carry_zero (c : Z) : Row unit :=
  let? ch := get_channel c in
  let? rc := correlate c 0 in
  put_channel c (with_zero ch rc).

Definition row_completed : Row unit :=
  let? d := get_dec in
  set_dec (with_rows_completed d (rows_completed d + 1)).

(** [for row in 1..self.height], [four] telling the alpha channel. *)
Fixpoint rows_loop (four : bool) (stride : Z) (rows : list nat) : Pic unit :=
  match rows with
  | [] => ret tt
  | row :: rows =>
      let split := Z.of_nat row * stride in
      let? s := get_state in
      let? prev_row := unwrap (slice (pi_buf s) (split - stride) split) in
      do? on_row split stride
            (do? for_each rgb_channels carry_zero in
             do? quic_rgb32_uncompress_row prev_row in
             do? (if four then
                    do? carry_zero 3 in
                    quic_four_uncompress_row 3 prev_row
                  else ret tt) in
             row_completed) in
      rows_loop four stride rows
  end.

Definition decode_rows (four : bool) (stride : Z) : Pic unit :=
  do? on_row 0 stride
        (do? for_each rgb_channels clear_zero in
         do? quic_rgb32_uncompress_row0 in
         do? (if four then
                do? clear_zero 3 in
                quic_four_uncompress_row0 3
              else ret tt) in
         row_completed) in
  let? s := get_state in
  rows_loop four stride (seq 1 (Z.to_nat (qd_height (pi_dec s)) - 1)).

(** [QuicDecoder::quic_decode] *)
Definition decode_image (stride : Z) : Pic unit :=
  let? s := get_state in
  let type := image_type (pi_dec s) in
  if (type =? QUIC_IMAGE_TYPE_RGB32) || (type =? QUIC_IMAGE_TYPE_RGB24) then
    decode_rows false stride
  else if type =? QUIC_IMAGE_TYPE_RGBA then decode_rows true stride
  else throw refused.

(** [for i in (0..total).step_by(4)] *)
Fixpoint swizzle (alpha : bool) (native : list Z) (is' : list nat) (rgba : list Z)
  : option (list Z) :=
  match is' with
  | [] => Some rgba
  | n :: is' =>
      let i := 4 * Z.of_nat n in
      b ← index native i;
      g ← index native (i + 1);
      r ← index native (i + 2);
      rgba ← set_index rgba i r;
      rgba ← set_index rgba (i + 1) g;
      rgba ← set_index rgba (i + 2) b;
      a ← (if alpha then
             a ← index native (i + 3);
             Some ((255 - a) mod 256)
           else Some 255);
      rgba ← set_index rgba (i + 3) a;
      swizzle alpha native is' rgba
  end.

Definition quic_decode (data : list Z) (width height : Z) : result Refused (list Z) :=
  let! decoder := rlift QuicDecoder_new in
  let '(begun, decoder) := quic_decode_begin data decoder in
  let! _ := begun in
  let type := image_type decoder in
  if negb (type =? QUIC_IMAGE_TYPE_RGB32) && negb (type =? QUIC_IMAGE_TYPE_RGB24)
     && negb (type =? QUIC_IMAGE_TYPE_RGBA) then Err refused
  else if negb (qd_width decoder mod 2 ^ 32 =? width)
          || negb (qd_height decoder mod 2 ^ 32 =? height) then Err refused
  else
    let total := output_len decoder in
    let stride := qd_width decoder * RGB32_PIXEL_SIZE in
    let native := replicate (Z.to_nat total) 0 in
    let '(decoded, pic) := decode_image stride (mkPicture decoder native) in
    let! _ := decoded in
    rlift (swizzle (image_type (pi_dec pic) =? QUIC_IMAGE_TYPE_RGBA) (pi_buf pic)
             (seq 0 (Z.to_nat (total / 4))) (replicate (Z.to_nat total) 0)).

(** * The invariant of the decoder *)

(** A decoder between two pixels of rows of [W] pixels, in the stream [data]; [T] is
    the type and the height of the image. *)
Record dec_ok (data : list Z) (W : Z) (T : Z * Z) (d : QuicDecoder) : Prop := {
  dk_reader : reader_ok data d;
  dk_tables : tables_ok d;
  dk_width : qd_width d = W;
  dk_header : (image_type d, qd_height d) = T;
  dk_state : state_ok (rgb_state d);
  dk_len : zlen (channels d) = 4;
  dk_channels : Forall (channel_ok W) (channels d)
}.

Record frame_ok (data : list Z) (W : Z) (T : Z * Z) (f : Frame) : Prop := {
  fk_dec : dec_ok data W T (fr_dec f);
  fk_len : zlen (fr_row f) = 4 * W;
  fk_row : bytes (fr_row f)
}.

(** What a plane's state depends on: the shared state and the channels' states. *)
Definition same_states (d d' : QuicDecoder) : Prop :=
  rgb_state d' = rgb_state d /\ map ch_state (channels d') = map ch_state (channels d).

(** The state of a plane can be read and replaced. *)
Class PlaneState (p : Plane) : Prop := {
  ps_get data W T d : dec_ok data W T d -> exists s, pl_state p d = Some s /\ state_ok s;
  ps_set data W T d s : dec_ok data W T d -> state_ok s ->
    exists d', pl_set_state p d s = Some d' /\ dec_ok data W T d' /\
      pl_state p d' = Some s /\ bits_left d' = bits_left d;
  ps_ext d d' : same_states d d' -> pl_state p d' = pl_state p d
}.

Section Invariant.
Context (data : list Z) (W : Z) (T : Z * Z) (p : Plane) `{!PlaneState p}.
Context (Hdata : bytes data) (Hmax : zlen data <= u32_max) (HW : 1 <= W).

(** A frame with at most [B] bits left, whose plane is [left'] pixels away from the
    end of its window [idx]. *)
Definition inv (B idx left' : Z) (f : Frame) : Prop :=
  frame_ok data W T f /\ bits_left (fr_dec f) <= B /\
  exists s, pl_state p (fr_dec f) = Some s /\ state_ok s /\ wmidx s = idx /\ wmileft s = left'.

Lemma inv_weaken B B' idx left' f : B <= B' -> inv B idx left' f -> inv B' idx left' f.
Proof. intros HB (Hf & Hb & Hs). split; [done|]. split; [lia|done]. Qed.

Lemma inv_bound B B' idx left' f : bits_left (fr_dec f) <= B' -> inv B idx left' f -> inv B' idx left' f.
Proof. by intros Hb (Hf & _ & Hs). Qed.

(** ** Primitive operations *)

Lemma wp_on_dec {A} (m : Dec A) Q f :
  wp m (fun a d => Q a (mkFrame d (fr_row f))) (fr_dec f) -> wp (on_dec m) Q f.
Proof. unfold wp, on_dec. by destruct (m (fr_dec f)) as [[a|e|] d]. Qed.

Lemma wp_get_dec {A} (k : QuicDecoder -> Row A) Q f :
  wp (k (fr_dec f)) Q f -> wp (bind get_dec k) Q f.
Proof. done. Qed.

(** Replacing the decoder by one with the same states keeps the invariant. *)
Lemma inv_dec B idx left' f d :
  inv B idx left' f -> dec_ok data W T d -> same_states (fr_dec f) d -> bits_left d <= B ->
  inv B idx left' (mkFrame d (fr_row f)).
Proof.
  intros (Hf & Hb & s & Hs & Hsok & Hw) Hd Hsame Hb'.
  split; [destruct Hf; by split|]. split; [done|]. exists s. simpl.
  by rewrite (ps_ext _ _ Hsame).
Qed.

Lemma io_only_dec_ok d d' : dec_ok data W T d -> reader_ok data d' -> io_only d d' ->
  dec_ok data W T d'.
Proof.
  intros [] Hr Hio. pose proof (io_only_tables _ _ Hio dk_tables0).
  pose proof (io_only_fields _ _ Hio) as F. decompose [and] F.
  split; try done; congruence.
Qed.

Lemma io_only_states d d' : io_only d d' -> same_states d d'.
Proof. intros Hio. pose proof (io_only_fields _ _ Hio) as F. decompose [and] F. split; congruence. Qed.

Lemma eatbits_inv B idx left' len f : inv B idx left' f -> 0 <= len < 32 ->
  wp (eatbits len) (fun _ f' => inv B idx left' f' /\ channels (fr_dec f') = channels (fr_dec f)) f.
Proof.
  intros Hi Hlen. pose proof Hi as (Hf & Hb & _). apply wp_on_dec.
  eapply wp_mono; [by apply (eatbits_wp data); [done|apply Hf|]|]. cbn beta.
  intros _ d' (Hr & Hio & _ & Hbits). split.
  - apply inv_dec; [done| |by apply io_only_states|lia].
    eapply io_only_dec_ok; [apply Hf|done|done].
  - pose proof (io_only_fields _ _ Hio) as F. decompose [and] F. simpl. congruence.
Qed.

Lemma row_set_inv B idx left' i v f : inv B idx left' f -> 0 <= i < 4 * W -> u8 v ->
  wp (row_set i v) (fun _ f' => inv B idx left' f' /\ channels (fr_dec f') = channels (fr_dec f)) f.
Proof.
  intros (Hf & Hb & Hs) Hi Hv. apply wp_get_bind. eapply wp_unwrap_bind.
  { apply set_index_Some. destruct Hf. lia. }
  apply wp_put. split; [|done]. split; [|done]. destruct Hf. split; simpl; [done|by rewrite zlen_insert|].
  by apply Forall_insert.
Qed.

Lemma row_get_inv i f (Q : Z -> Frame -> Prop) : frame_ok data W T f -> 0 <= i < 4 * W ->
  (forall v, u8 v -> Q v f) -> wp (row_get i) Q f.
Proof.
  intros Hf Hi HQ. apply wp_get_bind.
  destruct (index_Forall _ (fr_row f) i (fk_row _ _ _ _ Hf)) as (v & Hv & Hu).
  { destruct Hf. lia. }
  eapply wp_unwrap; [exact Hv|]. by apply HQ.
Qed.

Lemma get_channel_wp c f (Q : QuicChannel -> Frame -> Prop) :
  frame_ok data W T f -> 0 <= c < 4 ->
  (forall ch, index (channels (fr_dec f)) c = Some ch -> channel_ok W ch -> Q ch f) ->
  wp (get_channel c) Q f.
Proof.
  intros Hf Hc HQ. apply wp_get_dec.
  destruct (index_Forall _ _ c (dk_channels _ _ _ _ (fk_dec _ _ _ _ Hf))) as (ch & Hch & Hok).
  { destruct Hf as [[] _ _]. lia. }
  eapply wp_unwrap; [exact Hch|]. by apply HQ.
Qed.

(** Replacing a channel by one with the same adaptive state. *)
Lemma put_channel_inv B idx left' c ch ch' f : inv B idx left' f -> 0 <= c < 4 ->
  index (channels (fr_dec f)) c = Some ch -> channel_ok W ch' -> ch_state ch' = ch_state ch ->
  wp (put_channel c ch') (fun _ f' => inv B idx left' f' /\
    channels (fr_dec f') = <[Z.to_nat c := ch']> (channels (fr_dec f))) f.
Proof.
  intros Hi Hc Hch Hok Hst. pose proof Hi as (Hf & Hb & _). apply wp_get_dec.
  destruct Hf as [[] _ _].
  eapply wp_unwrap_bind.
  { unfold set_at. rewrite (proj2 (Z.leb_le 0 c)), (proj2 (Z.ltb_lt c _)) by lia. done. }
  apply wp_get_bind, wp_put. split; [|done]. apply inv_dec; [done| | |done].
  - split; simpl; try done; [by destruct dk_reader0; split|by destruct dk_tables0; split| |].
    + by rewrite zlen_insert.
    + by apply Forall_insert.
  - split; simpl; [done|]. change (map ch_state) with (fmap (M := list) ch_state).
    rewrite list_fmap_insert. apply list_insert_id.
    rewrite list_lookup_fmap. rewrite index_lookup in Hch by lia. by rewrite Hch, Hst.
Qed.

Lemma plane_state_wp B idx left' f (Q : CommonState -> Frame -> Prop) :
  inv B idx left' f ->
  (forall s, pl_state p (fr_dec f) = Some s -> state_ok s -> wmidx s = idx ->
     wmileft s = left' -> Q s f) ->
  wp (plane_state p) Q f.
Proof.
  intros (_ & _ & s & Hs & Hok & Hi & Hl) HQ. apply wp_get_dec.
  eapply wp_unwrap; [exact Hs|]. by apply HQ.
Qed.

Lemma set_plane_state_wp B idx left' s f : inv B idx left' f -> state_ok s ->
  wp (set_plane_state p s) (fun _ => inv B (wmidx s) (wmileft s)) f.
Proof.
  intros (Hf & Hb & _) Hs. apply wp_get_dec. destruct Hf.
  destruct (ps_set _ _ _ _ s fk_dec0 Hs) as (d' & Hd & Hok & Hp & Hbits).
  eapply wp_unwrap_bind; [exact Hd|]. apply wp_get_bind, wp_put.
  split; [by split|]. split; [simpl; lia|]. by exists s.
Qed.

Lemma set_waitcnt_inv B idx left' w f : inv B idx left' f -> 0 <= w <= 63 ->
  wp (set_waitcnt p w) (fun _ => inv B idx left') f.
Proof.
  intros Hi Hw. eapply wp_bind, plane_state_wp; [done|]. intros s Hs Hok <- <-.
  eapply (set_plane_state_wp B _ _ (with_waitcnt s w)); [done|]. destruct Hok. by split.
Qed.

Lemma random_wait_wp B idx left' n f : inv B idx left' f -> 0 <= n <= 6 ->
  wp (random_wait p (2 ^ n - 1)) (fun w f' => inv B idx left' f' /\ 0 <= w <= 63) f.
Proof.
  intros Hi Hn. eapply wp_bind, plane_state_wp; [done|]. intros s Hs Hok Hidx Hleft.
  destruct (tabrand_ok s Hok) as (v & s' & Hr & Hv & Hok' & Hidx' & Hleft').
  eapply wp_unwrap_bind; [exact Hr|]. cbn [fst snd].
  eapply wp_seq; [by apply (set_plane_state_wp B idx left' s')|]. cbn beta.
  intros _ f' Hi'. apply wp_ret. rewrite Hidx', Hleft', Hidx, Hleft in Hi'.
  split; [done|]. by apply wait_range.
Qed.

(** ** Components *)

Lemma correlate_wp c i f (Q : Z -> Frame -> Prop) :
  frame_ok data W T f -> 0 <= c < 4 -> 0 <= i < W ->
  (forall v, u8 v -> Q v f) -> wp (correlate c i) Q f.
Proof.
  intros Hf Hc Hi HQ. eapply wp_bind, get_channel_wp; [done|done|]. intros ch _ Hok.
  destruct (index_Forall _ _ i (co_row _ _ Hok)) as (v & Hv & Hu).
  { rewrite (co_len _ _ Hok). done. }
  eapply wp_unwrap; [exact Hv|]. by apply HQ.
Qed.

Lemma correlate_zero_wp c f (Q : Z -> Frame -> Prop) :
  frame_ok data W T f -> 0 <= c < 4 -> (forall v, u8 v -> Q v f) ->
  wp (correlate_zero c) Q f.
Proof.
  intros Hf Hc HQ. eapply wp_bind, get_channel_wp; [done|done|]. intros ch _ Hok.
  apply wp_ret, HQ, Hok.
Qed.

(** The bucket [bidx] of channel [c] exists. *)
Definition bucket_in (c bidx : Z) (f : Frame) : Prop :=
  exists ch, index (channels (fr_dec f)) c = Some ch /\ 0 <= bidx < zlen (buckets_buf ch).

Lemma bucket_of_wp c key f (Q : Z -> Frame -> Prop) :
  frame_ok data W T f -> 0 <= c < 4 -> u8 key ->
  (forall bidx, bucket_in c bidx f -> Q bidx f) -> wp (bucket_of c key) Q f.
Proof.
  intros Hf Hc Hkey HQ. eapply wp_bind, get_channel_wp; [done|done|]. intros ch Hch Hok.
  destruct (index_Forall _ _ key (co_ptrs _ _ Hok)) as (b & Hb & Hr).
  { rewrite (co_ptrs_len _ _ Hok). done. }
  eapply wp_unwrap; [exact Hb|]. apply HQ. by exists ch.
Qed.

Lemma golomb_at_wp c bidx f (Q : Z * Z -> Frame -> Prop) :
  frame_ok data W T f -> 0 <= c < 4 -> bucket_in c bidx f ->
  (forall cwlen rc, 1 <= cwlen <= 26 -> u8 rc -> Q (cwlen, rc) f) ->
  wp (golomb_at c bidx) Q f.
Proof.
  intros Hf Hc (ch' & Hch' & Hb) HQ. eapply wp_bind, get_channel_wp; [done|done|].
  intros ch Hch Hok. assert (ch' = ch) as -> by congruence.
  destruct (index_Forall _ _ bidx (co_buckets _ _ Hok) Hb) as (b & Eb & Hbok).
  eapply wp_unwrap_bind; [exact Eb|]. apply wp_get_dec.
  destruct (fk_dec _ _ _ _ Hf).
  destruct (golomb_total (family_8bpc (fr_dec f)) (bestcode b) (io_word (fr_dec f)))
    as (cwlen & rc & E & Hcw & Hrc).
  - apply dk_tables0.
  - apply Hbok.
  - apply dk_reader0.
  - eapply wp_unwrap; [exact E|]. by apply HQ.
Qed.

Lemma set_correlate_inv B idx left' c i rc f :
  inv B idx left' f -> 0 <= c < 4 -> 0 <= i < W -> u8 rc ->
  wp (set_correlate c i rc) (fun _ f' => inv B idx left' f' /\
    forall bidx, bucket_in c bidx f -> bucket_in c bidx f') f.
Proof.
  intros Hinv Hc Hi Hrc. pose proof Hinv as (Hf & _ & _).
  eapply wp_bind, get_channel_wp; [done|done|]. intros ch Hch Hok.
  eapply wp_unwrap_bind.
  { apply set_index_Some. rewrite (co_len _ _ Hok). done. }
  eapply wp_mono; [eapply put_channel_inv; [done|done|exact Hch| |done]|].
  - destruct Hok. split; simpl; try done; [by rewrite zlen_insert|by apply Forall_insert].
  - cbn beta. intros _ f' [Hi' Hch']. split; [done|]. intros bidx (ch' & E & Hb).
    assert (ch' = ch) as -> by congruence. eexists. rewrite Hch'.
    assert (zlen (channels (fr_dec f)) = 4) by apply Hf.
    rewrite index_lookup, list_lookup_insert_eq; [done|unfold zlen in *; lia|].
    rewrite zlen_insert. lia.
Qed.

Lemma translate_wp rc f (Q : Z -> Frame -> Prop) :
  frame_ok data W T f -> u8 rc -> (forall x, u8 x -> Q x f) -> wp (translate rc) Q f.
Proof.
  intros Hf Hrc HQ. apply wp_get_dec. destruct (fk_dec _ _ _ _ Hf).
  destruct (family8_l2u (family_8bpc (fr_dec f)) rc) as [E Hx]; [apply dk_tables0|done|].
  eapply wp_unwrap; [exact E|]. by apply HQ.
Qed.

Lemma update_bucket_inv B idx left' c s bidx v bpc f :
  inv B idx left' f -> 0 <= c < 4 -> bucket_in c bidx f -> u8 v -> bpc = 8 ->
  wp (update_bucket c s bidx v bpc) (fun _ => inv B idx left') f.
Proof.
  intros Hinv Hc (ch' & Hch' & Hb) Hv ->. pose proof Hinv as (Hf & _ & _).
  eapply wp_bind, get_channel_wp; [done|done|].
  intros ch Hch Hok. assert (ch' = ch) as -> by congruence.
  destruct (index_Forall _ _ bidx (co_buckets _ _ Hok) Hb) as (b & Eb & Hbok).
  eapply wp_unwrap_bind; [exact Eb|]. apply wp_get_dec.
  destruct (update_model_ok (family_8bpc (fr_dec f)) s b v) as (b' & Eu & Hb'); [|done|done|].
  { apply Hf. }
  eapply wp_unwrap_bind; [exact Eu|]. eapply wp_unwrap_bind.
  { unfold set_at. rewrite (proj2 (Z.leb_le 0 bidx)), (proj2 (Z.ltb_lt bidx _)) by lia. done. }
  eapply wp_mono; [eapply put_channel_inv; [done|done|exact Hch| |done]|].
  - destruct Hok. split; simpl; try done; [by rewrite zlen_insert|by apply Forall_insert].
  - by intros _ f' [Hi' _].
Qed.

(** The byte a predictor computes, in a frame it does not change. *)
Definition predicts (pixel : Z -> Row Z) : Prop :=
  forall x f, frame_ok data W T f -> u8 x -> wp (pixel x) (fun v f' => f' = f /\ u8 v) f.

Lemma component_inv B idx left' c key i at' pixel f :
  inv B idx left' f -> 0 <= c < 4 -> u8 key -> 0 <= i < W -> 0 <= at' < 4 * W ->
  predicts pixel ->
  wp (component c key i at' pixel) (fun bidx f' => inv B idx left' f' /\ bucket_in c bidx f') f.
Proof.
  intros Hinv Hc Hkey Hi Hat Hpix. pose proof Hinv as (Hf & _ & _). unfold component.
  eapply wp_bind, bucket_of_wp; [done|done|done|]. intros bidx Hb.
  eapply wp_bind, golomb_at_wp; [done|done|done|]. intros cwlen rc Hcw Hrc. cbn [fst snd].
  eapply wp_seq; [by apply (set_correlate_inv B idx left')|]. cbn beta.
  intros _ f1 [Hi1 Hb1]. pose proof Hi1 as (Hf1 & _ & _). specialize (Hb1 _ Hb).
  eapply wp_bind, translate_wp; [done|done|]. intros x Hx.
  eapply wp_seq; [by apply Hpix|]. cbn beta. intros v ? [-> Hv].
  eapply wp_seq; [by apply (row_set_inv B idx left')|]. cbn beta. intros _ f2 [Hi2 Hc2].
  eapply wp_seq; [apply (eatbits_inv B idx left'); [done|lia]|]. cbn beta. intros _ f3 [Hi3 Hc3].
  apply wp_ret. split; [done|]. unfold bucket_in. by rewrite Hc3, Hc2.
Qed.
End Invariant.

(** * The laws of a plane *)

Definition prev_ok (W : Z) (prev_row : list Z) : Prop := zlen prev_row = 4 * W /\ bytes prev_row.

(** The operations of a plane keep the invariant wherever the row functions call
    them; [pw_last] is what [pl_pixel] promises [pl_update] of the bucket. *)
Class PlaneLaws (p : Plane) : Type := {
  pw_state :: PlaneState p;
  pw_last : Frame -> Z -> Prop;
  pw_first0 data W T B idx left' f : bytes data -> 1 <= W -> inv data W T p B idx left' f ->
    wp (pl_first0 p) (fun _ => inv data W T p B idx left') f;
  pw_first data W T B idx left' prev f : bytes data -> 1 <= W -> prev_ok W prev ->
    inv data W T p B idx left' f ->
    wp (pl_first p prev) (fun _ => inv data W T p B idx left') f;
  pw_update_first data W T B idx left' f : 1 <= W -> inv data W T p B idx left' f ->
    wp (pl_update_first p) (fun _ => inv data W T p B idx left') f;
  pw_pixel0 data W T B idx left' i f : bytes data -> 1 <= i < W -> inv data W T p B idx left' f ->
    wp (pl_pixel0 p i) (fun last f' => inv data W T p B idx left' f' /\ pw_last f' last) f;
  pw_pixel data W T B idx left' prev i f : bytes data -> 1 <= i < W -> prev_ok W prev ->
    inv data W T p B idx left' f ->
    wp (pl_pixel p prev i) (fun last f' => inv data W T p B idx left' f' /\ pw_last f' last) f;
  pw_update data W T B idx left' stopidx last f : 1 <= stopidx < W ->
    inv data W T p B idx left' f -> pw_last f last ->
    wp (pl_update p stopidx last) (fun _ => inv data W T p B idx left') f;
  pw_repeats data W T i run_index prev f : 1 <= i < W -> prev_ok W prev ->
    frame_ok data W T f -> exists b, pl_repeats p prev (fr_row f) i run_index = Some b;
  pw_copy data W T B idx left' i f : 1 <= i < W -> inv data W T p B idx left' f ->
    wp (pl_copy p i) (fun _ => inv data W T p B idx left') f
}.

Lemma wp_for_each {E St V} (I : St -> Prop) (vs : list V) (body : V -> M E St unit) :
  Forall (fun v => forall f, I f -> wp (body v) (fun _ => I) f) vs ->
  forall f, I f -> wp (for_each vs body) (fun _ => I) f.
Proof.
  induction 1 as [|v vs Hv _ IH]; intros f Hf; simpl; [done|].
  eapply wp_seq; [by apply Hv|]. cbn beta. intros _ f' Hf'. by apply IH.
Qed.

Lemma wp_while {E St V} (I : V -> St -> Prop) (measure : V -> Z) cond (body : V -> M E St V) :
  (forall v s, I v s -> cond v = true ->
     0 < measure v /\ wp (body v) (fun v' s' => I v' s' /\ measure v' < measure v) s) ->
  forall fuel v s, measure v <= Z.of_nat fuel -> I v s ->
  wp (while_loop fuel cond body v) (fun v' s' => I v' s' /\ cond v' = false) s.
Proof.
  intros Hbody. induction fuel as [|fuel IH]; intros v s Hfuel HI; simpl;
    destruct (cond v) eqn:Hc; try by apply wp_ret.
  - destruct (Hbody v s HI Hc) as [Hpos _]. lia.
  - destruct (Hbody v s HI Hc) as [_ Hb]. eapply wp_seq; [exact Hb|].
    intros v' s' [HI' Hlt]. apply IH; [lia|done].
Qed.

(** ** Predictors *)

Lemma masked_byte x : u8 (Z.land (x mod 256) 255).
Proof.
  pose proof (Z.mod_pos_bound x 256 ltac:(lia)). by rewrite land_255.
Qed.

Section Predictors.
Context (data : list Z) (W : Z) (T : Z * Z).

Lemma plain_predicts : predicts data W T plain.
Proof. intros x f _ _. apply wp_ret. split; [done|]. by apply Z.mod_pos_bound. Qed.

Lemma from_left_wrapping_predicts at' : 0 <= at' < 4 * W ->
  predicts data W T (from_left_wrapping at' 255).
Proof.
  intros Hat x f Hf _. eapply wp_bind, row_get_inv; [done|done|]. intros v _.
  apply wp_ret. split; [done|]. apply masked_byte.
Qed.

Lemma add_32 x y : u8 x -> u8 y -> add_w 32 x y = Some (x + y).
Proof.
  unfold in_unsigned, add_w. intros. rewrite (proj2 (Z.ltb_lt _ _)); [done|].
  change (2 ^ 8) with 256 in *. change (2 ^ 32) with 4294967296. lia.
Qed.

Lemma from_left_predicts at' : 0 <= at' < 4 * W -> predicts data W T (from_left at' 255).
Proof.
  intros Hat x f Hf Hx. eapply wp_bind, row_get_inv; [done|done|]. intros v Hv.
  eapply wp_unwrap_bind; [by apply add_32|]. apply wp_ret. split; [done|]. apply masked_byte.
Qed.

Lemma from_above_predicts prev at' : prev_ok W prev -> 0 <= at' < 4 * W ->
  predicts data W T (from_above prev at' 255).
Proof.
  intros [Hlen Hprev] Hat x f Hf Hx.
  destruct (index_Forall _ prev at' Hprev ltac:(lia)) as (v & Ev & Hv).
  eapply wp_unwrap_bind; [exact Ev|].
  eapply wp_unwrap_bind; [by apply add_32|]. apply wp_ret. split; [done|]. apply masked_byte.
Qed.

Lemma from_mean_predicts prev left_at at' : prev_ok W prev -> 0 <= left_at < 4 * W ->
  0 <= at' < 4 * W -> predicts data W T (from_mean prev left_at at' 255).
Proof.
  intros [Hlen Hprev] Hl Hat x f Hf Hx. eapply wp_bind, row_get_inv; [done|done|]. intros u Hu.
  destruct (index_Forall _ prev at' Hprev ltac:(lia)) as (v & Ev & Hv).
  eapply wp_unwrap_bind; [exact Ev|]. unfold in_unsigned in *. change (2 ^ 8) with 256 in *.
  eapply wp_unwrap_bind.
  { unfold add_w. rewrite (proj2 (Z.ltb_lt _ _)); [done|]. change (2 ^ 16) with 65536. lia. }
  eapply wp_unwrap_bind; [apply add_32; [done|]|].
  { rewrite Z.shiftr_div_pow2 by lia. change (2 ^ 1) with 2. unfold in_unsigned.
    change (2 ^ 8) with 256. split; [apply Z.div_pos; lia|]. apply Z.div_lt_upper_bound; lia. }
  apply wp_ret. split; [done|]. apply masked_byte.
Qed.
End Predictors.

Lemma and_then_is_Some a b : (exists x, a = Some x) -> (exists y, b = Some y) ->
  exists z, and_then a b = Some z.
Proof. intros [[] ->] [y ->]; by eexists. Qed.

(** ** The colour plane *)

#[export] Instance rgb_plane_state : PlaneState (rgb_plane 8 255).
Proof.
  split.
  - intros data W T d Hd. exists (rgb_state d). split; [done|]. apply Hd.
  - intros data W T d s [] Hs. eexists. split; [done|]. split; [|done].
    split; simpl; try done; [by destruct dk_reader0; split|by destruct dk_tables0; split].
  - intros d d' [H _]. simpl. by rewrite H.
Qed.

Lemma rgb_channels_in (P : Z -> Prop) : (forall c, 0 <= c < 3 -> P c) -> Forall P rgb_channels.
Proof. intros H. repeat (apply list.Forall_cons_2; [apply H; lia|]). apply list.Forall_nil_2. Qed.

(** The common step of the colour loops: a component coded under [key]. *)
Lemma rgb_component data W T p `{!PlaneState p} B idx left' c key i at' pixel f :
  bytes data -> inv data W T p B idx left' f -> 0 <= c < 4 -> u8 key -> 0 <= i < W ->
  0 <= at' < 4 * W -> predicts data W T pixel ->
  wp (let? _ := component c key i at' pixel in ret tt) (fun _ => inv data W T p B idx left') f.
Proof.
  intros Hb Hi Hc Hk Hiw Hat Hp.
  eapply wp_seq; [by apply (component_inv data W T p Hb B idx left')|].
  cbn beta. intros _ f' [Hi' _]. by apply wp_ret.
Qed.

#[export] Instance rgb_plane_laws : PlaneLaws (rgb_plane 8 255).
Proof.
  refine {| pw_last := fun _ _ => True |}; intros data W T.
  - intros B idx left' f Hb HW Hi. simpl. unfold rgb_first0, RGB32_PIXEL_PAD.
    eapply wp_seq; [apply (row_set_inv data W T (rgb_plane 8 255) B idx left'); [done|lia|done]|]. cbn beta.
    intros _ f1 [Hi1 _]. apply wp_for_each; [|done]. apply rgb_channels_in.
    intros c Hc f2 Hi2. eapply wp_bind, correlate_zero_wp; [apply Hi2|lia|]. intros z Hz.
    apply (rgb_component data W T (rgb_plane 8 255)); try done; try lia. apply plain_predicts.
  - intros B idx left' prev f Hb HW Hp Hi. simpl. unfold rgb_first, RGB32_PIXEL_PAD.
    eapply wp_seq; [apply (row_set_inv data W T (rgb_plane 8 255) B idx left'); [done|lia|done]|]. cbn beta.
    intros _ f1 [Hi1 _]. apply wp_for_each; [|done]. apply rgb_channels_in.
    intros c Hc f2 Hi2. eapply wp_bind, correlate_zero_wp; [apply Hi2|lia|]. intros z Hz.
    apply (rgb_component data W T (rgb_plane 8 255)); try done; try lia. apply from_above_predicts; [done|lia].
  - intros B idx left' f HW Hi. simpl. apply wp_for_each; [|done]. apply rgb_channels_in.
    intros c Hc f1 Hi1. eapply wp_bind, correlate_wp; [apply Hi1|lia|lia|]. intros v Hv.
    eapply wp_bind, correlate_zero_wp; [apply Hi1|lia|]. intros z Hz.
    eapply wp_bind, bucket_of_wp; [apply Hi1|lia|done|]. intros b Hb. apply wp_get_dec.
    apply (update_bucket_inv data W T (rgb_plane 8 255)); [done|lia|done|done|done].
  - intros B idx left' i f Hb Hiw Hi. simpl. unfold rgb_pixel0, RGB32_PIXEL_PAD, RGB32_PIXEL_SIZE.
    eapply wp_seq; [apply (row_set_inv data W T (rgb_plane 8 255) B idx left'); [done|lia|done]|]. cbn beta.
    intros _ f1 [Hi1 _].
    eapply wp_seq; [apply (wp_for_each (inv data W T (rgb_plane 8 255) B idx left')); [|exact Hi1]|];
      [|cbn beta; intros _ f2 Hi2; by apply wp_ret].
    apply rgb_channels_in. intros c Hc f2 Hi2.
    eapply wp_bind, correlate_wp; [apply Hi2|lia|lia|]. intros key Hk.
    apply (rgb_component data W T (rgb_plane 8 255)); try done; try lia. apply from_left_wrapping_predicts. lia.
  - intros B idx left' prev i f Hb Hiw Hp Hi. simpl.
    unfold rgb_pixel, RGB32_PIXEL_PAD, RGB32_PIXEL_SIZE.
    eapply wp_seq; [apply (row_set_inv data W T (rgb_plane 8 255) B idx left'); [done|lia|done]|]. cbn beta.
    intros _ f1 [Hi1 _].
    eapply wp_seq; [apply (wp_for_each (inv data W T (rgb_plane 8 255) B idx left')); [|exact Hi1]|];
      [|cbn beta; intros _ f2 Hi2; by apply wp_ret].
    apply rgb_channels_in. intros c Hc f2 Hi2.
    eapply wp_bind, correlate_wp; [apply Hi2|lia|lia|]. intros key Hk.
    apply (rgb_component data W T (rgb_plane 8 255)); try done; try lia. apply from_mean_predicts; [done|lia|lia].
  - intros B idx left' stopidx last f Hs Hi _. simpl. apply wp_for_each; [|done].
    apply rgb_channels_in. intros c Hc f1 Hi1.
    eapply wp_bind, correlate_wp; [apply Hi1|lia|lia|]. intros key Hk.
    eapply wp_bind, bucket_of_wp; [apply Hi1|lia|done|]. intros b Hb.
    eapply wp_bind, correlate_wp; [apply Hi1|lia|lia|]. intros v Hv. apply wp_get_dec.
    apply (update_bucket_inv data W T (rgb_plane 8 255)); [done|lia|done|done|done].
  - intros i run_index prev f Hiw [Hlen _] [_ Hrow _]. simpl.
    unfold rgb_repeats, same_byte, saturating_sub, RGB32_PIXEL_SIZE, RGB32_PIXEL_R,
      RGB32_PIXEL_G, RGB32_PIXEL_B.
    assert (forall (row : list Z) j, zlen row = 4 * W -> 0 <= j < 4 * W -> exists x, index row j = Some x) as Hix
      by (intros row j Hr Hj; apply index_is_Some; lia).
    repeat (match goal with |- context [index ?l ?j] =>
      let x := fresh in let E := fresh in
      destruct (Hix l j) as [x E]; [done|lia|rewrite E; clear E]; cbn [mbind option_bind] end).
    repeat (apply and_then_is_Some; [by eexists|]). by eexists.
  - intros B idx left' i f Hiw Hi. simpl.
    unfold rgb_copy, RGB32_PIXEL_PAD, RGB32_PIXEL_SIZE, RGB32_PIXEL_R, RGB32_PIXEL_G, RGB32_PIXEL_B.
    eapply wp_seq; [apply (row_set_inv data W T (rgb_plane 8 255) B idx left'); [done|lia|done]|]. cbn beta.
    intros _ f1 [Hi1 _]. apply wp_for_each; [|done].
    assert (forall k, 0 <= k < 3 -> forall f, inv data W T (rgb_plane 8 255) B idx left' f ->
      wp (let? v := row_get ((i - 1) * 4 + k) in row_set (i * 4 + k) v)
        (fun _ => inv data W T (rgb_plane 8 255) B idx left') f) as Hk.
    { intros k Hk f2 Hi2. eapply wp_bind, row_get_inv; [apply Hi2|lia|]. intros v Hv.
      eapply wp_mono; [apply (row_set_inv data W T (rgb_plane 8 255) B idx left'); [done|lia|done]|].
      by intros _ f3 [Hi3 _]. }
    repeat (apply list.Forall_cons_2; [apply Hk; lia|]). apply list.Forall_nil_2.
Qed.

(** ** The alpha plane *)

Lemma index_map {A B} (g : A -> B) l i : index (map g l) i = g <$> index l i.
Proof.
  unfold index. rewrite zlen_map. destruct (_ && _); [|done]. apply list_lookup_fmap.
Qed.

Lemma alpha_plane_state c : 0 <= c < 4 -> PlaneState (alpha_plane c 8 255).
Proof.
  intros Hc. split.
  - intros data W T d []. simpl. unfold alpha_state.
    destruct (index_Forall _ _ c dk_channels0 ltac:(lia)) as (ch & -> & Hch).
    exists (ch_state ch). split; [done|apply Hch].
  - intros data W T d s [] Hs. simpl. unfold alpha_set_state, alpha_state.
    destruct (index_Forall _ _ c dk_channels0 ltac:(lia)) as (ch & -> & Hch).
    cbn [mbind option_bind]. unfold set_at at 1.
    rewrite (proj2 (Z.leb_le 0 c)), (proj2 (Z.ltb_lt c _)) by lia. cbn [andb mbind option_bind].
    eexists. split; [done|]. split; [|split; [|done]].
    + split; simpl; try done; [by destruct dk_reader0; split|by destruct dk_tables0; split| |].
      * by rewrite zlen_insert.
      * apply Forall_insert; [done|]. destruct Hch. by split.
    + simpl. rewrite index_lookup by (rewrite zlen_insert; lia).
      rewrite list_lookup_insert_eq; [done|]. unfold zlen in *. lia.
  - intros d d' [_ Hmap]. simpl. unfold alpha_state.
    assert (forall o : option QuicChannel, (ch ← o; Some (ch_state ch)) = ch_state <$> o) as Hf
      by (by intros []).
    by rewrite !Hf, <- !index_map, Hmap.
Qed.

Lemma alpha_repeats_ok c W i run_index prev row : 1 <= i < W ->
  zlen prev = 4 * W -> zlen row = 4 * W ->
  exists b, pl_repeats (alpha_plane c 8 255) prev row i run_index = Some b.
Proof.
  intros Hiw Hlen Hrow. simpl.
  unfold alpha_repeats, same_byte, saturating_sub, RGB32_PIXEL_SIZE, RGB32_PIXEL_PAD.
  assert (forall (r : list Z) j, zlen r = 4 * W -> 0 <= j < 4 * W -> exists x, index r j = Some x)
    as Hix by (intros r j Hr Hj; apply index_is_Some; lia).
  repeat (match goal with |- context [index ?l ?j] =>
    let x := fresh in let E := fresh in
    destruct (Hix l j) as [x E]; [done|lia|rewrite E; clear E]; cbn [mbind option_bind] end).
  repeat (apply and_then_is_Some; [by eexists|]). by eexists.
Qed.

#[export] Instance alpha_plane_laws : PlaneLaws (alpha_plane 3 8 255).
Proof.
  pose proof (alpha_plane_state 3 ltac:(lia)) as Hps.
  set (p := alpha_plane 3 8 255) in *.
  refine {| pw_last := fun f last => bucket_in 3 last f |}; intros data W T.
  - intros B idx left' f Hb HW Hi. simpl. unfold alpha_first0.
    eapply wp_bind, correlate_zero_wp; [apply Hi|lia|]. intros z Hz.
    unfold RGB32_PIXEL_PAD. apply (rgb_component data W T p); try done; try lia.
    apply plain_predicts.
  - intros B idx left' prev f Hb HW Hp Hi. simpl. unfold alpha_first.
    eapply wp_bind, correlate_zero_wp; [apply Hi|lia|]. intros z Hz.
    unfold RGB32_PIXEL_PAD. apply (rgb_component data W T p); try done; try lia.
    apply from_above_predicts; [done|lia].
  - intros B idx left' f HW Hi. simpl. unfold alpha_update_first, alpha_update_bucket.
    eapply wp_bind, correlate_zero_wp; [apply Hi|lia|]. intros z Hz.
    eapply wp_bind, bucket_of_wp; [apply Hi|lia|done|]. intros b Hb.
    eapply wp_bind, correlate_wp; [apply Hi|lia|lia|]. intros v Hv.
    eapply wp_bind, get_channel_wp; [apply Hi|lia|]. intros ch _ _.
    by apply (update_bucket_inv data W T p).
  - intros B idx left' i f Hb Hiw Hi. simpl. unfold alpha_pixel0, RGB32_PIXEL_PAD, RGB32_PIXEL_SIZE.
    eapply wp_bind, correlate_wp; [apply Hi|lia|lia|]. intros key Hk.
    apply (component_inv data W T p); try done; try lia. apply from_left_predicts. lia.
  - intros B idx left' prev i f Hb Hiw Hp Hi. simpl.
    unfold alpha_row_pixel, RGB32_PIXEL_PAD, RGB32_PIXEL_SIZE.
    eapply wp_bind, correlate_wp; [apply Hi|lia|lia|]. intros key Hk.
    apply (component_inv data W T p); try done; try lia. apply from_mean_predicts; [done|lia|lia].
  - intros B idx left' stopidx last f Hs Hi Hlast. simpl. unfold alpha_update, alpha_update_bucket.
    eapply wp_bind, correlate_wp; [apply Hi|lia|lia|]. intros v Hv.
    eapply wp_bind, get_channel_wp; [apply Hi|lia|]. intros ch _ _.
    by apply (update_bucket_inv data W T p).
  - intros i run_index prev f Hiw [Hlen _] [_ Hrow _]. by apply (alpha_repeats_ok 3 W).
  - intros B idx left' i f Hiw Hi. simpl. unfold alpha_copy, RGB32_PIXEL_PAD, RGB32_PIXEL_SIZE.
    eapply wp_bind, row_get_inv; [apply Hi|lia|]. intros v Hv.
    eapply wp_mono; [apply (row_set_inv data W T p B idx left'); [done|lia|done]|].
    by intros _ f3 [Hi3 _].
Qed.

(** * Segments *)

Section Segments.
Context (data : list Z) (W : Z) (T : Z * Z) (p : Plane) `{!PlaneLaws p}.
Context (Hdata : bytes data) (Hmax : zlen data <= u32_max) (HW : 1 <= W).

Abbreviation inv := (inv data W T p).

(** The start of a segment: past pixel 0, with a stop within 63 pixels. *)
Lemma start_segment_wp B idx left' first n i end' f :
  (forall f, inv B idx left' f -> wp first (fun _ => inv B idx left') f) ->
  inv B idx left' f -> 0 <= n <= 6 -> 0 <= i < end' ->
  wp (start_segment p first (2 ^ n - 1) i)
    (fun v f' => inv B idx left' f' /\ 1 <= fst v <= end' /\ fst v <= snd v <= fst v + 63) f.
Proof.
  intros Hfirst Hi Hn Hr. unfold start_segment.
  eapply (wp_seq _ _ (fun i' f' => inv B idx left' f' /\ 1 <= i' <= end')).
  { destruct (Z.eqb_spec i 0) as [->|]; [|apply wp_ret; split; [done|lia]].
    eapply wp_seq; [by apply Hfirst|]. cbn beta. intros _ f1 Hi1.
    eapply (wp_seq _ _ (fun _ => inv B idx left')).
    - eapply wp_bind, plane_state_wp; [done|]. intros s Hs Hok <- <-.
      destruct (Z.ltb_spec 0 (waitcnt s)).
      + eapply (set_plane_state_wp data W T p B _ _ (with_waitcnt s (waitcnt s - 1))); [done|].
        destruct Hok. split; simpl; try done. lia.
      + eapply wp_seq; [by eapply (random_wait_wp data W T p)|]. cbn beta. intros w f2 [Hi2 Hw].
        eapply wp_seq; [by eapply (set_waitcnt_inv data W T p)|]. cbn beta. intros _ f3 Hi3.
        by eapply (pw_update_first (p := p)).
    - cbn beta. intros _ f2 Hi2. apply wp_ret. split; [done|lia]. }
  cbn beta. intros i' f1 [Hi1 Hr1].
  eapply wp_bind, plane_state_wp; [done|]. intros s Hs Hok _ _. apply wp_ret.
  split; [done|]. cbn [fst snd]. destruct Hok. lia.
Qed.

(** ** The first row *)

Lemma pixels_to_stop0_wp B idx left' i stopidx f : inv B idx left' f -> 1 <= i <= stopidx ->
  stopidx < W ->
  wp (pixels_to_stop0 p i stopidx)
    (fun r f' => inv B idx left' f' /\ fst r = stopidx + 1 /\ pw_last (p := p) f' (snd r)) f.
Proof.
  intros Hi Hr Hs. unfold pixels_to_stop0.
  eapply wp_mono; [apply (wp_while (fun v f => inv B idx left' f /\ i <= fst v <= stopidx + 1 /\
    (i < fst v -> pw_last (p := p) f (snd v))) (fun v => stopidx + 1 - fst v))|].
  - intros v f1 (Hi1 & Hv & _) Hc%Z.leb_le. split; [lia|].
    eapply wp_seq; [eapply (pw_pixel0 (p := p)); [done| |exact Hi1]; lia|]. cbn beta.
    intros last f2 [Hi2 Hlast]. apply wp_ret. cbn [fst snd]. split; [|lia].
    split; [done|]. split; [lia|done].
  - cbn [fst]. lia.
  - cbn [fst snd]. split; [done|]. split; [lia|lia].
  - cbn beta. intros v f1 [(Hi1 & Hv & Hlast) Hc%Z.leb_gt].
    split; [done|]. split; [lia|]. apply Hlast. lia.
Qed.

Lemma rounds0_wp B idx left' n end' v f : inv B idx left' f -> 0 <= n <= 6 -> end' <= W ->
  1 <= fst v <= end' -> fst v <= snd v <= fst v + 63 ->
  wp (rounds0 p (2 ^ n - 1) end' v)
    (fun v f' => inv B idx left' f' /\ 1 <= fst v <= end' /\ end' <= snd v <= fst v + 63) f.
Proof.
  intros Hi Hn He Hv Hs. unfold rounds0.
  eapply wp_mono; [apply (wp_while (fun v f => inv B idx left' f /\ 1 <= fst v <= end' /\
    fst v <= snd v <= fst v + 63) (fun v => end' - fst v))|].
  - intros u f1 (Hi1 & Hu1 & Hu2) Hc%Z.ltb_lt. split; [lia|].
    eapply wp_seq; [eapply pixels_to_stop0_wp; [exact Hi1|lia|lia]|]. cbn beta.
    intros r f2 (Hi2 & Hr & Hlast).
    eapply wp_seq; [eapply (pw_update (p := p)); [|exact Hi2|exact Hlast]; lia|]. cbn beta.
    intros _ f3 Hi3. eapply wp_seq; [by eapply (random_wait_wp data W T p)|]. cbn beta.
    intros w f4 [Hi4 Hw]. apply wp_ret. cbn [fst snd]. split; [|lia]. split; [done|]. lia.
  - lia.
  - done.
  - cbn beta. intros u f1 [(Hi1 & Hu1 & Hu2) Hc%Z.ltb_ge]. split; [done|]. lia.
Qed.

Lemma uncompress_row0_seg_wp B idx left' n i end' f :
  inv B idx left' f -> 0 <= n <= 6 -> 0 <= i < end' -> end' <= W ->
  wp (uncompress_row0_seg p i end' (2 ^ n - 1)) (fun _ => inv B idx left') f.
Proof.
  intros Hi Hn Hr He. unfold uncompress_row0_seg.
  eapply wp_seq; [eapply start_segment_wp; [|done|done|done]|].
  { intros f1 Hi1. by eapply (pw_first0 (p := p)). }
  cbn beta. intros v f1 (Hi1 & Hv & Hs).
  eapply wp_seq; [by eapply rounds0_wp|]. cbn beta. intros u f2 (Hi2 & Hu & Hus).
  eapply wp_seq; [apply (wp_while (fun i f => inv B idx left' f /\ 1 <= i <= end')
    (fun i => end' - i))|].
  - intros j f3 (Hi3 & Hj) Hc%Z.ltb_lt. split; [lia|].
    eapply wp_seq; [eapply (pw_pixel0 (p := p)); [done| |exact Hi3]; lia|]. cbn beta.
    intros _ f4 [Hi4 _]. apply wp_ret. split; [|lia]. split; [done|lia].
  - lia.
  - split; [done|lia].
  - cbn beta. intros j f3 [[Hi3 _] _]. eapply (set_waitcnt_inv data W T p); [done|].
    unfold saturating_sub. lia.
Qed.

(** ** Later rows *)

(** The loop variables of a segment that ends at [end']. *)
Definition vars_ok (end' : Z) (v : seg_vars) : Prop :=
  1 <= sv_i v <= end' /\ sv_i v - 1 <= sv_stopidx v <= sv_i v + 63.

(** What a loop promises of how it ends; a run has taken a bit. *)
Definition flow_ok (B idx left' end' : Z) (flow : seg_flow) (f : Frame) : Prop :=
  match flow with
  | Going v => inv B idx left' f /\ vars_ok end' v
  | Ran v => inv (B - 1) idx left' f /\ vars_ok end' v /\ sv_i v <= sv_stopidx v
  | Returned => inv B idx left' f
  end.

Lemma decode_run_plane_wp B idx left' f : inv B idx left' f ->
  wp (decode_run_plane p) (fun run f' => inv (B - 1) idx left' f' /\ 0 <= run) f.
Proof.
  intros Hi. eapply wp_bind, (plane_state_wp data W T p); [done|]. intros s Hs Hok Hidx Hleft.
  pose proof Hi as (Hf & Hb & _). destruct (fk_dec _ _ _ _ Hf).
  eapply (wp_seq _ _ (fun r f' => inv (B - 1) idx left' f' /\ 0 <= fst r /\ state_ok (snd r) /\
    same_wait s (snd r))).
  { apply wp_on_dec.
    eapply wp_mono; [by apply (decode_run_wp data); [| |apply dk_reader0|apply dk_tables0|]|].
    cbn beta. intros r d' (Hr & Hio & Hbits & H0 & Hok' & Hw). split; [|done].
    apply (inv_bound data W T p B); [simpl; lia|].
    apply (inv_dec data W T p); [done| |by apply io_only_states|lia].
    eapply io_only_dec_ok; [apply Hf|done|done]. }
  cbn beta. intros r f1 (Hi1 & H0 & Hok' & Hw1 & Hw2 & Hw3).
  eapply wp_seq; [by apply (set_plane_state_wp data W T p (B - 1) idx left')|]. cbn beta.
  intros _ f2 Hi2. apply wp_ret. rewrite Hw2, Hw3, Hidx, Hleft in Hi2. done.
Qed.

Lemma run_pixels_wp B idx left' end' i wait f : inv B idx left' f -> 1 <= i < end' -> end' <= W ->
  0 <= wait <= 63 ->
  wp (run_pixels p end' i wait)
    (fun flow f' => flow_ok B idx left' end' flow f' /\
       match flow with Going _ => False | _ => True end) f.
Proof.
  intros Hi Hr He Hw. unfold run_pixels.
  eapply wp_seq; [by eapply (set_waitcnt_inv data W T p)|]. cbn beta. intros _ f1 Hi1.
  eapply wp_seq; [by eapply decode_run_plane_wp|]. cbn beta. intros run f2 [Hi2 Hrun].
  unfold checked_run_end, checked_sub. rewrite (proj2 (Z.leb_le i end')) by lia.
  cbn [mbind option_bind]. destruct (Z.leb_spec run (end' - i)); [|by apply wp_throw].
  eapply wp_seq; [apply (wp_while (fun j f => inv (B - 1) idx left' f /\ i <= j <= i + run)
    (fun j => i + run - j))|].
  - intros j f3 (Hi3 & Hj) Hc%Z.ltb_lt. split; [lia|].
    eapply wp_seq; [eapply (pw_copy (p := p)); [|exact Hi3]; lia|]. cbn beta.
    intros _ f4 Hi4. apply wp_ret. split; [|lia]. split; [done|lia].
  - lia.
  - split; [done|lia].
  - cbn beta. intros j f3 [[Hi3 Hj] Hc%Z.ltb_ge].
    destruct (Z.eqb_spec j end').
    + apply wp_ret. split; [|done]. eapply inv_weaken; [|exact Hi3]. lia.
    + eapply wp_bind, (plane_state_wp data W T p); [done|]. intros s Hs Hok _ _.
      apply wp_ret. destruct Hok. split; [|done]. split; [done|]. unfold vars_ok. simpl. lia.
Qed.

Lemma repeats_here_wp B idx left' prev i run_index f (Q : bool -> Frame -> Prop) :
  inv B idx left' f -> 1 <= i < W -> prev_ok W prev -> (forall b, Q b f) ->
  wp (repeats_here p prev i run_index) Q f.
Proof.
  intros (Hf & _) Hr Hp HQ. apply wp_get_bind.
  destruct (pw_repeats (p := p) data W T i run_index prev f Hr Hp Hf) as [b Hb].
  eapply wp_unwrap; [exact Hb|]. apply HQ.
Qed.

Section LaterRow.
Context (prev : list Z) (Hprev : prev_ok W prev).
Context (B idx left' end' : Z) (Hend : end' <= W).

Lemma pixels_to_stop_wp : forall fuel v last f,
  inv B idx left' f -> vars_ok end' v -> sv_stopidx v < end' ->
  sv_stopidx v + 1 - sv_i v <= Z.of_nat fuel ->
  (sv_i v = sv_stopidx v + 1 -> pw_last (p := p) f last) ->
  wp (pixels_to_stop p fuel prev end' v last)
    (fun r f' => flow_ok B idx left' end' (fst r) f' /\
       match fst r with
       | Going u => sv_i u = sv_stopidx u + 1 /\ sv_stopidx u = sv_stopidx v /\
                    pw_last (p := p) f' (snd r)
       | _ => True
       end) f.
Proof.
  induction fuel as [|fuel IH]; intros v last f Hi [Hv1 Hv2] Hs Hfuel Hlast;
    cbn [pixels_to_stop]; destruct (Z.leb_spec (sv_i v) (sv_stopidx v)).
  - lia.
  - apply wp_ret. cbn [fst snd]. split; [by split|]. split; [lia|]. split; [done|]. apply Hlast. lia.
  - eapply wp_bind, repeats_here_wp; [exact Hi|lia|done|]. intros [].
    + eapply wp_seq; [eapply run_pixels_wp; [exact Hi|lia|done|lia]|]. cbn beta.
      intros flow f1 [Hf1 Hgo]. apply wp_ret. cbn [fst snd]. split; [done|]. by destruct flow.
    + eapply wp_seq; [eapply (pw_pixel (p := p)); [done| |exact Hprev|exact Hi]; lia|]. cbn beta.
      intros last' f1 [Hi1 Hlast'].
      eapply wp_mono; [apply IH; cbn [sv_i sv_stopidx sv_run_index]; try done; [|lia]|done].
      unfold vars_ok. simpl. lia.
  - apply wp_ret. cbn [fst snd]. split; [by split|]. split; [lia|]. split; [done|]. apply Hlast. lia.
Qed.

Lemma rounds_wp n : 0 <= n <= 6 -> forall fuel v f,
  inv B idx left' f -> vars_ok end' v -> sv_i v <= sv_stopidx v ->
  end' - sv_i v <= Z.of_nat fuel ->
  wp (rounds p fuel prev (2 ^ n - 1) end' v)
    (fun flow f' => flow_ok B idx left' end' flow f' /\
       match flow with Going u => end' <= sv_stopidx u | _ => True end) f.
Proof.
  intros Hn. induction fuel as [|fuel IH]; intros v f Hi Hv Hs Hfuel;
    cbn [rounds]; destruct (Z.ltb_spec (sv_stopidx v) end').
  - destruct Hv. lia.
  - apply wp_ret. split; [by split|done].
  - eapply wp_seq; [eapply pixels_to_stop_wp; [exact Hi|done|done|lia|lia]|]. cbn beta.
    intros [flow last] f1 [Hf1 Hgo]. cbn [fst snd] in *.
    destruct flow as [u|u|]; [|by apply wp_ret|by apply wp_ret].
    destruct Hf1 as [Hi1 [Hu1 Hu2]]. destruct Hgo as (Hu3 & Hu4 & Hlast). destruct Hv as [Hv1 Hv2].
    eapply wp_seq; [eapply (pw_update (p := p)); [|exact Hi1|exact Hlast]; lia|]. cbn beta.
    intros _ f2 Hi2. eapply wp_seq; [by eapply (random_wait_wp data W T p)|]. cbn beta.
    intros w f3 [Hi3 Hw]. apply IH; unfold vars_ok; simpl; [done|lia|lia|lia].
  - apply wp_ret. split; [by split|done].
Qed.

Lemma pixels_to_end_wp : forall fuel v f,
  inv B idx left' f -> vars_ok end' v -> end' <= sv_stopidx v ->
  end' - sv_i v <= Z.of_nat fuel ->
  wp (pixels_to_end p fuel prev end' v) (flow_ok B idx left' end') f.
Proof.
  induction fuel as [|fuel IH]; intros v f Hi [Hv1 Hv2] Hs Hfuel;
    cbn [pixels_to_end]; destruct (Z.ltb_spec (sv_i v) end').
  - lia.
  - apply wp_ret. by split.
  - eapply wp_bind, repeats_here_wp; [exact Hi|lia|done|]. intros [].
    + eapply wp_mono; [eapply run_pixels_wp; [exact Hi|lia|done|unfold saturating_sub; lia]|].
      by intros flow f1 [Hf1 _].
    + eapply wp_seq; [eapply (pw_pixel (p := p)); [done| |exact Hprev|exact Hi]; lia|]. cbn beta.
      intros _ f1 [Hi1 _]. apply IH; unfold vars_ok; simpl; [done|lia|lia|lia].
  - apply wp_ret. by split.
Qed.
End LaterRow.

Lemma segment_loop_wp prev idx left' n end' : prev_ok W prev -> end' <= W -> 0 <= n <= 6 ->
  forall fuel B v f, inv B idx left' f -> vars_ok end' v -> sv_i v <= sv_stopidx v ->
  B < Z.of_nat fuel ->
  wp (segment_loop p fuel prev (2 ^ n - 1) end' v) (fun _ => inv B idx left') f.
Proof.
  intros Hprev He Hn. induction fuel as [|fuel IH]; intros B v f Hi Hv Hs Hfuel; cbn [segment_loop].
  { pose proof Hi as ([Hd _ _] & Hb & _). pose proof (bits_left_nonneg _ _ (dk_reader _ _ _ _ Hd)). lia. }
  eapply wp_seq; [eapply (rounds_wp prev Hprev B idx left'); try done; lia|]. cbn beta.
  intros flow f1 [Hf1 Hgo].
  eapply (wp_seq _ _ (flow_ok B idx left' end')).
  { destruct flow as [u|u|]; [|by apply wp_ret|by apply wp_ret].
    destruct Hf1 as [Hi1 Hu]. apply pixels_to_end_wp; try done. lia. }
  intros flow' f2 Hf2. destruct flow' as [u|u|].
  - destruct Hf2 as [Hi2 [Hu1 Hu2]]. eapply (set_waitcnt_inv data W T p); [done|].
    unfold saturating_sub. lia.
  - destruct Hf2 as (Hi2 & Hu & Hus).
    eapply wp_mono; [apply (IH (B - 1)); try done; lia|]. cbn beta.
    intros _ f3 Hi3. eapply inv_weaken; [|exact Hi3]. lia.
  - by apply wp_ret.
Qed.

Lemma uncompress_row_seg_wp prev B idx left' i end' f : prev_ok W prev ->
  inv B idx left' f -> 0 <= i < end' -> end' <= W ->
  wp (uncompress_row_seg p prev i end') (fun _ => inv B idx left') f.
Proof.
  intros Hprev Hi Hr He. unfold uncompress_row_seg.
  eapply wp_bind, (plane_state_wp data W T p); [done|]. intros s Hs Hok Hidx Hleft.
  assert (0 <= wmidx s <= 6) as Hn by apply Hok.
  eapply wp_unwrap_bind; [apply bppmask_index; lia|].
  eapply wp_seq; [eapply start_segment_wp; [|exact Hi|done|done]|].
  { intros f1 Hi1. by eapply (pw_first (p := p)). }
  cbn beta. intros v f1 (Hi1 & Hv & Hvs). apply wp_get_dec.
  pose proof Hi1 as ([Hd _ _] & Hb & _). pose proof (bits_left_nonneg _ _ (dk_reader _ _ _ _ Hd)).
  eapply wp_mono; [apply (segment_loop_wp prev idx left' (wmidx s) end' Hprev He Hn _
    (bits_left (fr_dec f1)))|].
  - by eapply inv_bound.
  - unfold vars_ok. simpl. lia.
  - simpl. lia.
  - lia.
  - cbn beta. intros _ f2 Hi2. eapply inv_weaken; [|exact Hi2]. lia.
Qed.

(** ** Whole rows *)

(** A frame between two rows. *)
Definition resting (f : Frame) : Prop := exists B idx left', inv B idx left' f.

(** What a segment function does to the invariant. *)
Definition keeps_segment (seg : Z -> Z -> Row unit) : Prop :=
  forall B idx left' i end' f, inv B idx left' f -> 0 <= i < end' -> end' <= W ->
    wp (seg i end') (fun _ => inv B idx left') f.

Lemma segments_loop_wp seg B : keeps_segment seg -> forall fuel idx left' pos width f,
  inv B idx left' f -> 0 <= pos -> 0 <= width -> pos + width = W -> DEFWMIMAX - idx <= Z.of_nat fuel ->
  wp (segments_loop p fuel seg pos width)
    (fun v f' => exists idx left', inv B idx left' f' /\ 0 <= fst v /\ 0 <= snd v /\
       fst v + snd v = W /\ (idx < DEFWMIMAX -> snd v < left')) f.
Proof.
  intros Hseg. induction fuel as [|fuel IH]; intros idx left' pos width f Hi Hp Hw Hsum Hfuel;
    cbn [segments_loop]; (eapply wp_bind, (plane_state_wp data W T p); [done|]);
    intros s Hs Hok Hidx Hleft.
  - rewrite (proj2 (Z.ltb_ge _ _)) by lia. apply wp_ret. exists idx, left'. cbn [fst snd].
    split; [done|]. lia.
  - destruct (Z.ltb_spec (wmidx s) DEFWMIMAX); simpl andb.
    2:{ apply wp_ret. exists idx, left'. cbn [fst snd]. split; [done|]. lia. }
    destruct (Z.leb_spec (wmileft s) width).
    2:{ apply wp_ret. exists idx, left'. cbn [fst snd]. split; [done|]. lia. }
    eapply (wp_seq _ _ (fun v f' => inv B idx left' f' /\ 0 <= fst v /\ 0 <= snd v /\
      fst v + snd v = W)).
    { destruct (Z.ltb_spec 0 (wmileft s)); [|by apply wp_ret].
      eapply wp_seq; [apply (Hseg B idx left'); [done|lia|lia]|]. cbn beta. intros _ f1 Hi1.
      eapply wp_bind, (plane_state_wp data W T p); [done|]. intros s1 Hs1 Hok1 Hidx1 Hleft1.
      eapply wp_unwrap_bind.
      { unfold checked_sub. rewrite (proj2 (Z.leb_le (wmileft s1) width)) by lia. done. }
      apply wp_ret. cbn [fst snd]. split; [done|]. lia. }
    cbn beta. intros v f1 (Hi1 & Hv1 & Hv2 & Hv3).
    eapply wp_bind, (plane_state_wp data W T p); [done|]. intros s1 Hs1 Hok1 Hidx1 Hleft1.
    destruct (set_wm_trigger_ok (with_wm s1 (wm_trigger s1) (wmidx s1 + 1) (wmileft s1)))
      as (t & Ht & Htu).
    { simpl. destruct Hok1. lia. }
    eapply wp_unwrap_bind; [exact Ht|]. simpl.
    eapply wp_seq; [eapply (set_plane_state_wp data W T p B _ _ (with_wm _ t (wmidx s1 + 1) DEFWMINEXT)); [done|]|].
    { destruct Hok1. split; simpl; try done; unfold DEFWMINEXT; lia. }
    cbn beta. intros _ f2 Hi2. simpl in Hi2. eapply IH; try done. lia.
Qed.

Lemma uncompress_segments_wp seg f : keeps_segment seg -> resting f ->
  wp (uncompress_segments p seg) (fun _ => resting) f.
Proof.
  intros Hseg (B & idx & left' & Hi). unfold uncompress_segments. apply wp_get_dec.
  pose proof Hi as ([[] _ _] & _ & s & _ & Hok & Hidx & _). destruct Hok.
  eapply wp_seq; [eapply (segments_loop_wp seg B Hseg); [exact Hi|lia|lia|lia|unfold DEFWMIMAX in *; lia]|].
  cbn beta. intros [pos width] f1 (idx1 & left1 & Hi1 & Hv1 & Hv2 & Hv3 & Hv4). cbn [fst snd] in *.
  destruct (Z.ltb_spec 0 width); [|apply wp_ret; by exists B, idx1, left1].
  eapply wp_seq; [apply (Hseg B idx1 left1); [done|lia|lia]|]. cbn beta. intros _ f2 Hi2.
  eapply wp_bind, (plane_state_wp data W T p); [done|]. intros s2 Hs2 Hok2 Hidx2 Hleft2.
  destruct (Z.ltb_spec (wmidx s2) DEFWMIMAX); [|apply wp_ret; by exists B, idx1, left1].
  eapply wp_unwrap_bind.
  { unfold checked_sub. rewrite (proj2 (Z.leb_le width (wmileft s2))) by lia. done. }
  eapply wp_mono; [eapply (set_plane_state_wp data W T p B); [exact Hi2|]|].
  - destruct Hok2. split; simpl; try done. lia.
  - cbn beta. intros _ f3 Hi3. by eexists _, _, _.
Qed.

Lemma uncompress_row0_wp f : resting f -> wp (uncompress_row0 p) (fun _ => resting) f.
Proof.
  apply uncompress_segments_wp. intros B idx left' i end' f1 Hi Hr He.
  eapply wp_bind, (plane_state_wp data W T p); [done|]. intros s Hs Hok Hidx Hleft.
  assert (0 <= wmidx s <= 6) by apply Hok.
  eapply wp_unwrap_bind; [apply bppmask_index; lia|]. by apply uncompress_row0_seg_wp.
Qed.

Lemma uncompress_row_wp prev f : prev_ok W prev -> resting f ->
  wp (uncompress_row p prev) (fun _ => resting) f.
Proof.
  intros Hprev. apply uncompress_segments_wp. intros B idx left' i end' f1 Hi Hr He.
  by apply uncompress_row_seg_wp.
Qed.
End Segments.

(** * Images *)

Section Images.
Context (data : list Z) (W H : Z) (T : Z * Z).
Context (Hdata : bytes data) (Hmax : zlen data <= u32_max) (HW : 1 <= W) (HH : 1 <= H).

Record picture_ok (s : Picture) : Prop := {
  po_dec : dec_ok data W T (pi_dec s);
  po_len : zlen (pi_buf s) = 4 * W * H;
  po_bytes : bytes (pi_buf s)
}.

Lemma frame_resting p `{!PlaneState p} f : frame_ok data W T f -> resting data W T p f.
Proof.
  intros Hf. destruct (ps_get _ _ _ _ (fk_dec _ _ _ _ Hf)) as (s & Hs & Hok).
  exists (bits_left (fr_dec f)), (wmidx s), (wmileft s). split; [done|]. split; [lia|]. by exists s.
Qed.

(** A plane's row function, as a step from frame to frame. *)
Lemma plane_row_wp p `{!PlaneState p} (m : Row unit) f :
  (forall f, resting data W T p f -> wp m (fun _ => resting data W T p) f) ->
  frame_ok data W T f -> wp m (fun _ => frame_ok data W T) f.
Proof.
  intros Hm Hf. eapply wp_mono; [apply Hm; by apply frame_resting|].
  by intros _ f' (B & idx & left' & Hi & _).
Qed.

Lemma with_zero_wp c ch z f : frame_ok data W T f -> 0 <= c < 4 ->
  index (channels (fr_dec f)) c = Some ch -> channel_ok W ch -> u8 z ->
  wp (put_channel c (with_zero ch z)) (fun _ => frame_ok data W T) f.
Proof.
  intros Hf Hc Hch Hok Hz.
  destruct (frame_resting (rgb_plane 8 255) f Hf) as (B & idx & left' & Hi).
  eapply wp_mono; [eapply (put_channel_inv data W T (rgb_plane 8 255) B); [exact Hi|done|exact Hch| |done]|].
  - destruct Hok. by split.
  - by intros _ f' [(Hf' & _) _].
Qed.

Lemma clear_zero_wp c f : frame_ok data W T f -> 0 <= c < 4 ->
  wp (clear_zero c) (fun _ => frame_ok data W T) f.
Proof.
  intros Hf Hc. eapply wp_bind, get_channel_wp; [done|done|]. intros ch Hch Hok.
  by apply with_zero_wp.
Qed.

Lemma carry_zero_wp c f : frame_ok data W T f -> 0 <= c < 4 ->
  wp (carry_zero c) (fun _ => frame_ok data W T) f.
Proof.
  intros Hf Hc. eapply wp_bind, get_channel_wp; [done|done|]. intros ch Hch Hok.
  eapply wp_bind, correlate_wp; [done|done|lia|]. intros rc Hrc. by apply with_zero_wp.
Qed.

Lemma row_completed_wp f : frame_ok data W T f ->
  wp row_completed (fun _ => frame_ok data W T) f.
Proof.
  intros [[] Hl Hr]. apply wp_get_dec. apply wp_get_bind, wp_put.
  split; simpl; [|done|done].
  split; simpl; try done; [by destruct dk_reader0; split|by destruct dk_tables0; split].
Qed.

Lemma on_row_wp start m s : picture_ok s -> 0 <= start -> start + 4 * W <= 4 * W * H ->
  (forall f, frame_ok data W T f -> wp m (fun _ => frame_ok data W T) f) ->
  wp (on_row start (4 * W) (m : Row unit)) (fun _ => picture_ok) s.
Proof.
  intros [Hd Hl Hb] H0 Hs Hm. unfold wp, on_row.
  destruct (slice (pi_buf s) start (start + 4 * W)) as [row|] eqn:Er.
  2:{ rewrite slice_Some in Er by lia. done. }
  assert (frame_ok data W T (mkFrame (pi_dec s) row)) as Hf.
  { split; simpl; [done| |]; [|by eapply slice_Forall]. apply slice_length in Er. lia. }
  specialize (Hm _ Hf). unfold wp in Hm.
  destruct (m (mkFrame (pi_dec s) row)) as [r f'] eqn:Em.
  destruct r as [[]|e|]; [|done|done].
  destruct Hm as [Hd' Hl' Hb']. split; simpl; [done| |].
  - rewrite !zlen_app, zlen_take, zlen_drop. lia.
  - apply Forall_app. split; [by apply Forall_take|]. apply Forall_app.
    split; [done|by apply Forall_drop].
Qed.

(** The operations of one row. *)
Lemma row0_ops_wp four f : frame_ok data W T f ->
  wp (do? for_each rgb_channels clear_zero in
      do? quic_rgb32_uncompress_row0 in
      do? (if four : bool then
             do? clear_zero 3 in
             quic_four_uncompress_row0 3
           else ret tt) in
      row_completed) (fun _ => frame_ok data W T) f.
Proof.
  intros Hf. eapply (wp_seq _ _ (fun _ => frame_ok data W T)).
  { apply wp_for_each; [|done]. apply rgb_channels_in. intros c Hc f1 Hf1.
    apply clear_zero_wp; [done|lia]. }
  cbn beta. intros _ f1 Hf1. eapply (wp_seq _ _ (fun _ => frame_ok data W T)).
  { apply (plane_row_wp (rgb_plane 8 255)); [|done]. intros f2. by apply (uncompress_row0_wp data W T (rgb_plane 8 255)). }
  cbn beta. intros _ f2 Hf2. eapply (wp_seq _ _ (fun _ => frame_ok data W T)).
  { destruct four; [|by apply wp_ret].
    eapply (wp_seq _ _ (fun _ => frame_ok data W T)); [apply clear_zero_wp; [done|lia]|].
    cbn beta. intros _ f3 Hf3.
    pose proof (alpha_plane_state 3 ltac:(lia)).
    apply (plane_row_wp (alpha_plane 3 8 255)); [|done]. intros f4.
    by apply (uncompress_row0_wp data W T (alpha_plane 3 8 255)). }
  cbn beta. intros _ f3 Hf3. by apply row_completed_wp.
Qed.

Lemma row_ops_wp four prev f : prev_ok W prev -> frame_ok data W T f ->
  wp (do? for_each rgb_channels carry_zero in
      do? quic_rgb32_uncompress_row prev in
      do? (if four : bool then
             do? carry_zero 3 in
             quic_four_uncompress_row 3 prev
           else ret tt) in
      row_completed) (fun _ => frame_ok data W T) f.
Proof.
  intros Hp Hf. eapply (wp_seq _ _ (fun _ => frame_ok data W T)).
  { apply wp_for_each; [|done]. apply rgb_channels_in. intros c Hc f1 Hf1.
    apply carry_zero_wp; [done|lia]. }
  cbn beta. intros _ f1 Hf1. eapply (wp_seq _ _ (fun _ => frame_ok data W T)).
  { apply (plane_row_wp (rgb_plane 8 255)); [|done]. intros f2. by apply (uncompress_row_wp data W T (rgb_plane 8 255)). }
  cbn beta. intros _ f2 Hf2. eapply (wp_seq _ _ (fun _ => frame_ok data W T)).
  { destruct four; [|by apply wp_ret].
    eapply (wp_seq _ _ (fun _ => frame_ok data W T)); [apply carry_zero_wp; [done|lia]|].
    cbn beta. intros _ f3 Hf3.
    pose proof (alpha_plane_state 3 ltac:(lia)).
    apply (plane_row_wp (alpha_plane 3 8 255)); [|done]. intros f4.
    by apply (uncompress_row_wp data W T (alpha_plane 3 8 255)). }
  cbn beta. intros _ f3 Hf3. by apply row_completed_wp.
Qed.

Lemma rows_loop_wp four : forall rows s, picture_ok s ->
  Forall (fun row => 1 <= Z.of_nat row < H) rows ->
  wp (rows_loop four (4 * W) rows) (fun _ => picture_ok) s.
Proof.
  induction rows as [|row rows IH]; intros s Hs Hrows; cbn [rows_loop]; [done|].
  apply list.Forall_cons_1 in Hrows as [Hrow Hrows]. apply wp_get_bind. destruct Hs.
  eapply wp_unwrap_bind; [apply slice_Some; nia|].
  eapply wp_seq; [apply on_row_wp; [by split|nia|nia|]|].
  - intros f Hf. apply row_ops_wp; [|done]. split.
    + rewrite zlen_take, zlen_drop. nia.
    + by apply Forall_take, Forall_drop.
  - cbn beta. intros _ s' Hs'. by apply IH.
Qed.

Lemma decode_rows_wp four s : T.2 = H -> picture_ok s ->
  wp (decode_rows four (4 * W)) (fun _ => picture_ok) s.
Proof.
  intros HT Hs. unfold decode_rows.
  eapply wp_seq; [apply on_row_wp; [done|lia|nia|apply row0_ops_wp]|]. cbn beta.
  intros _ s1 Hs1. apply wp_get_bind. apply rows_loop_wp; [done|].
  pose proof (dk_header _ _ _ _ (po_dec _ Hs1)) as Hh.
  assert (qd_height (pi_dec s1) = H) as -> by (rewrite <- HT, <- Hh; done).
  apply list.Forall_forall. intros row Hrow%elem_of_seq. lia.
Qed.

Lemma decode_image_wp s : T.2 = H -> picture_ok s ->
  wp (decode_image (4 * W)) (fun _ => picture_ok) s.
Proof.
  intros HT Hs. apply wp_get_bind. cbv zeta.
  destruct (_ || _); [by apply decode_rows_wp|].
  destruct (_ =? _); [by apply decode_rows_wp|by apply wp_throw].
Qed.
End Images.

(** The final byte order; pixel [j] is opaque unless the image has alpha. *)
Lemma swizzle_ok alpha native total : zlen native = total -> bytes native ->
  forall ls rgba, Forall (fun n => 4 * Z.of_nat n + 3 < total) ls ->
  zlen rgba = total -> bytes rgba ->
  exists out, swizzle alpha native ls rgba = Some out /\ zlen out = total /\ bytes out /\
    (alpha = false -> forall j, 0 <= j -> 4 * j + 3 < total ->
       In (Z.to_nat j) ls \/ index rgba (4 * j + 3) = Some 255 ->
       index out (4 * j + 3) = Some 255).
Proof.
  intros Hnl Hnb. induction ls as [|n ls IH]; intros rgba Hls Hl Hb; cbn [swizzle].
  { exists rgba. split; [done|]. split; [done|]. split; [done|].
    intros _ j _ _ [[]|Hj]. done. }
  apply list.Forall_cons_1 in Hls as [Hn Hls]. cbv zeta. set (i := 4 * Z.of_nat n) in *.
  assert (forall k, 0 <= k < 4 -> exists v, index native (i + k) = Some v /\ u8 v) as Hix.
  { intros k Hk. apply (index_Forall (in_unsigned 8)); [done|lia]. }
  destruct (Hix 0 ltac:(lia)) as (b & Eb & Hbb). rewrite Z.add_0_r in Eb. rewrite Eb.
  destruct (Hix 1 ltac:(lia)) as (g & -> & Hg). destruct (Hix 2 ltac:(lia)) as (r & -> & Hr).
  destruct (Hix 3 ltac:(lia)) as (a & -> & Ha). cbn [mbind option_bind].
  rewrite set_index_Some by lia. cbn [mbind option_bind].
  rewrite set_index_Some by (rewrite zlen_insert; lia). cbn [mbind option_bind].
  rewrite set_index_Some by (rewrite !zlen_insert; lia). cbn [mbind option_bind].
  set (v := if alpha then (255 - a) mod 256 else 255).
  assert ((if alpha then Some ((255 - a) mod 256) else Some 255) = Some v) as Hv by (by destruct alpha).
  rewrite Hv. cbn [mbind option_bind].
  rewrite set_index_Some by (rewrite !zlen_insert; lia). cbn [mbind option_bind].
  match goal with |- context [swizzle alpha native ls ?l] => set (rgba' := l) end.
  assert (zlen rgba' = total) as Hl' by (subst rgba'; by rewrite !zlen_insert).
  assert (bytes rgba') as Hb'.
  { subst rgba'. repeat apply Forall_insert; try done. subst v. destruct alpha; [|done].
    by apply Z.mod_pos_bound. }
  destruct (IH rgba' Hls Hl' Hb') as (out & Hout & Hlo & Hbo & Hop).
  exists out. split; [done|]. split; [done|]. split; [done|].
  intros Halpha j Hj Hjt Hcase. apply (Hop Halpha j Hj Hjt).
  destruct (Z.eq_dec j (Z.of_nat n)) as [->|Hne].
  - right. fold i. rewrite index_lookup by lia. subst rgba' v. rewrite Halpha.
    apply list_lookup_insert_eq. rewrite !length_insert. unfold zlen in Hl. lia.
  - destruct Hcase as [[Hn0|Hin]|Hj255]; [exfalso; lia|by left|]. right.
    rewrite index_lookup in Hj255 |- * by lia. subst rgba'.
    rewrite !list_lookup_insert_ne by lia. done.
Qed.

(** ** The whole decoder *)

(** What a decoded image is: of the size the caller expected and the header
    declares, within the limits, four bytes a pixel, and opaque unless the header
    says there is alpha. *)
Record image_ok (data : list Z) (width height : Z) (rgba : list Z) : Prop := {
  io_magic : stream_word data 0 = 0x43495551 /\ stream_word data 1 = 0;
  io_width : stream_word data 3 = width;
  io_height : stream_word data 4 = height;
  io_size : rgba_len width height = Some (zlen rgba);
  io_bytes : bytes rgba;
  io_opaque : stream_word data 2 <> QUIC_IMAGE_TYPE_RGBA ->
    forall j, 0 <= j < width * height -> index rgba (4 * j + 3) = Some 255
}.

Lemma quic_decode_ok data width height :
  bytes data -> zlen data <= u32_max -> u32 width -> u32 height ->
  match quic_decode data width height with
  | Ok rgba => image_ok data width height rgba
  | Err _ => True
  | Panic => False
  end.
Proof.
  intros Hb Hmax Hw Hh. unfold quic_decode.
  destruct QuicDecoder_new_ok as (d0 & -> & Hd0). cbn [rlift rbind].
  pose proof (quic_decode_begin_wp data d0 Hb Hd0) as Hbegin. unfold wp in Hbegin.
  destruct (quic_decode_begin data d0) as [[[]|e|] d]; cbn [rbind]; [|done|done].
  destruct Hbegin as [Hr Htab Hmagic Htype Hwidth Hheight Hsize Hst Hlen Hready].
  destruct (_ && _) eqn:Ht; [done|].
  destruct (_ || _) eqn:Hd; [done|].
  rewrite orb_false_iff, !negb_false_iff, !Z.eqb_eq in Hd. destruct Hd as [Hdw Hdh].
  rewrite Z.mod_small in Hdw by (rewrite Hwidth; by apply stream_word_u32).
  rewrite Z.mod_small in Hdh by (rewrite Hheight; by apply stream_word_u32).
  rewrite Hdw, Hdh in *. destruct Hw as [Hw0 Hw1]. destruct Hh as [Hh0 Hh1].
  destruct (rgba_len_spec width height _ Hw0 Hh0 Hsize) as (Htot & HW & HH & _).
  assert (1 <= width * height) as Hpos by nia.
  assert (quic_image_bpc (image_type d) = 8) as Hbpc.
  { unfold quic_image_bpc. revert Ht.
    destruct (image_type d =? QUIC_IMAGE_TYPE_RGB24) eqn:E1;
      [apply Z.eqb_eq in E1 as ->; done|].
    destruct (image_type d =? QUIC_IMAGE_TYPE_RGB32) eqn:E2;
      [apply Z.eqb_eq in E2 as ->; done|].
    destruct (image_type d =? QUIC_IMAGE_TYPE_RGBA) eqn:E3;
      [apply Z.eqb_eq in E3 as ->; done|done]. }
  specialize (Hready Hbpc).
  replace (width * RGB32_PIXEL_SIZE) with (4 * width) by (unfold RGB32_PIXEL_SIZE; lia).
  set (s := mkPicture d (replicate (Z.to_nat (output_len d)) 0)).
  assert (picture_ok data width height (image_type d, height) s) as Hs.
  { split; simpl.
    - split; simpl; try done. by rewrite Hdh.
    - rewrite zlen_replicate. lia.
    - by apply Forall_replicate. }
  pose proof (decode_image_wp data width height (image_type d, height) Hb Hmax
    ltac:(lia) ltac:(lia) s eq_refl Hs) as Himage. unfold wp in Himage.
  destruct (decode_image (4 * width) s) as [[[]|e|] pic]; cbn [rbind]; [|done|done].
  destruct Himage as [Hpd Hpl Hpb].
  pose proof (dk_header _ _ _ _ Hpd) as Hhd. apply (f_equal fst) in Hhd. cbn [fst] in Hhd.
  rewrite Hhd, Htype.
  assert (output_len d / 4 = width * height) as Hq by (rewrite Htot; by apply Z.div_mul).
  rewrite Hq.
  destruct (swizzle_ok (stream_word data 2 =? QUIC_IMAGE_TYPE_RGBA) (pi_buf pic) (output_len d)
    ltac:(lia) Hpb (seq 0 (Z.to_nat (width * height))) (replicate (Z.to_nat (output_len d)) 0))
    as (out & -> & Hlo & Hbo & Hop).
  - apply list.Forall_forall. intros n Hn%elem_of_seq. lia.
  - rewrite zlen_replicate. lia.
  - by apply Forall_replicate.
  - cbn [rlift]. split; try done; [by rewrite Hlo|].
    intros Hne j Hj. apply Hop; [by apply Z.eqb_neq|lia|lia|]. left. apply in_seq. lia.
Qed.

(** C17: whatever the bytes, [quic_decode] returns: no loop runs on, no index or slice
    is out of range, no shift or subtraction overflows, and what it returns is an
    image of the size the header and the caller agree on, within the limits, with
    four bytes a pixel and opaque unless the header declares alpha. *)
Theorem quic_decode_returns data width height :
  bytes data -> zlen data <= u32_max -> u32 width -> u32 height ->
  match quic_decode data width height with
  | Ok rgba => image_ok data width height rgba
  | Err _ => True
  | Panic => False
  end.
Proof. exact (quic_decode_ok data width height). Qed.

(** ** The source's own test streams *)

Definition quic_stream (type width height : Z) (words : list Z) : list Z :=
  concat (map (to_le 4) ([0x43495551; 0; type; width; height] ++ words)) ++ replicate 16 0.

(** Row 0 of an 8x2 black image, three pixels of row 1, then a run of five. *)
Definition black_8x2 : list Z :=
  quic_stream QUIC_IMAGE_TYPE_RGB32 8 2 [0x808080ff; 0xffffffd0].

Example run_to_row_end_decodes :
  quic_decode black_8x2 8 2 = Ok (concat (replicate 16 [0; 0; 0; 255])).
Proof. vm_compute. reflexivity. Qed.

Example rgb_run_past_row_end_returns_none :
  quic_decode (quic_stream QUIC_IMAGE_TYPE_RGB32 8 2 [0x808080ff; 0xffffffe0]) 8 2 = Err refused.
Proof. vm_compute. reflexivity. Qed.

Lemma quic_decode_returns_witness :
  bytes black_8x2 /\ zlen black_8x2 <= u32_max /\ u32 8 /\ u32 2 /\
  exists rgba, quic_decode black_8x2 8 2 = Ok rgba /\ image_ok black_8x2 8 2 rgba.
Proof.
  assert (bytes black_8x2) as Hb by (apply (bool_decide_unpack _); vm_compute; reflexivity).
  assert (u32 8) as Hw by (split; vm_compute; congruence).
  assert (u32 2) as Hh by (split; vm_compute; congruence).
  assert (zlen black_8x2 <= u32_max) as Hl by (vm_compute; congruence).
  split; [exact Hb|]. split; [exact Hl|]. split; [exact Hw|]. split; [exact Hh|].
  pose proof (quic_decode_returns black_8x2 8 2 Hb Hl Hw Hh) as H.
  destruct (quic_decode black_8x2 8 2) as [rgba|e|] eqn:E.
  - exists rgba. split; [reflexivity|exact H].
  - vm_compute in E. discriminate E.
  - destruct H.
Defined.
