(* ===== verification/Damage.v ===== *)
(** Damage tracking: [shakenfist-spice-renderer/src/display/damage.rs].

    A [DamageRegion] is the list of rectangles written since a consumer last
    looked.  [add] merges and, past [MAX_DAMAGE_RECTS], collapses to the
    bounding box; it may only ever report more pixels than were drawn. *)
From Stdlib Require Import ZArith Lia.
From stdpp Require Import base numbers list tactics.
From S2P Require Import Prelude.

Open Scope Z_scope.
Open Scope rust_scope.

(** * Rectangles *)

Definition MAX_DAMAGE_RECTS : Z := 32.

Record DamageRect : Type := mkDamageRect {
  dr_left : Z;
  dr_top : Z;
  dr_right : Z;
  dr_bottom : Z
}.

#[export] Instance DamageRect_eq_dec : EqDecision DamageRect.
Proof. solve_decision. Defined.

Definition dr_is_empty (self : DamageRect) : bool :=
  (dr_right self <=? dr_left self) || (dr_bottom self <=? dr_top self).

Definition dr_width (self : DamageRect) : Z := saturating_sub (dr_right self) (dr_left self).
Definition dr_height (self : DamageRect) : Z := saturating_sub (dr_bottom self) (dr_top self).
Definition dr_area (self : DamageRect) : Z := dr_width self * dr_height self.

Definition dr_contains (self other : DamageRect) : bool :=
  (dr_left self <=? dr_left other) && (dr_top self <=? dr_top other) &&
  (dr_right other <=? dr_right self) && (dr_bottom other <=? dr_bottom self).

Definition dr_union (self other : DamageRect) : DamageRect :=
  mkDamageRect (Z.min (dr_left self) (dr_left other)) (Z.min (dr_top self) (dr_top other))
    (Z.max (dr_right self) (dr_right other)) (Z.max (dr_bottom self) (dr_bottom other)).


Definition merges_with (self other : DamageRect) : bool :=
  dr_area (dr_union self other) <=? saturating_add_u64 (dr_area self) (dr_area other).

(** * Regions *)

Record DamageRegion : Type := mkDamageRegion { rects : list DamageRect }.

Definition region_new : DamageRegion := mkDamageRegion [].

Definition region_is_empty (self : DamageRegion) : bool :=
  match rects self with [] => true | _ => false end.

Definition bounding_box (self : DamageRegion) : option DamageRect :=
  match rects self with
  | [] => None
  | first :: rest => Some (foldl dr_union first rest)
  end.

(** [Vec::swap_remove]: the last element takes the place of the removed one. *)
Definition swap_remove {A} (l : list A) (i : nat) : option (A * list A) :=
  x ← l !! i;
  last ← list.last l;
  Some (x, removelast (<[i := last]> l)).

(** [rects.iter().position(|r| ...)] *)
Fixpoint position {A} (f : A -> bool) (l : list A) : option nat :=
  match l with
  | [] => None
  | x :: l => if f x then Some O else S <$> position f l
  end.

(** The merge loop; each round removes a rectangle, so their number is enough
    fuel. *)
Fixpoint merge_loop (fuel : nat) (rs : list DamageRect) (grown : DamageRect)
    : option (list DamageRect * DamageRect) :=
  match position (fun r => merges_with r grown) rs with
  | None => Some (rs, grown)
  | Some i =>
      match fuel with
      | O => None
      | S fuel =>
          r ← swap_remove rs i;
          merge_loop fuel (snd r) (dr_union grown (fst r))
      end
  end.

Definition region_add (self : DamageRegion) (rect : DamageRect) : option DamageRegion :=
  if dr_is_empty rect || existsb (fun r => dr_contains r rect) (rects self) then Some self
  else
    m ← merge_loop (length (rects self)) (rects self) rect;
    let rs := fst m ++ [snd m] in
    if MAX_DAMAGE_RECTS <? zlen rs then
      match bounding_box (mkDamageRegion rs) with
      | Some bbox => Some (mkDamageRegion [bbox])
      | None => Some (mkDamageRegion rs)
      end
    else Some (mkDamageRegion rs).

Definition region_full (width height : Z) : option DamageRegion :=
  region_add region_new (mkDamageRect 0 0 width height).

(** * Pixels *)

(** The rectangle covers the pixel. *)
Definition covers (r : DamageRect) (x y : Z) : Prop :=
  dr_left r <= x < dr_right r /\ dr_top r <= y < dr_bottom r.

Definition region_covers (self : DamageRegion) (x y : Z) : Prop :=
  Exists (fun r => covers r x y) (rects self).

(** A rectangle of surface pixels that is not empty. *)
Definition rect_ok (r : DamageRect) : Prop :=
  u32 (dr_left r) /\ u32 (dr_top r) /\ u32 (dr_right r) /\ u32 (dr_bottom r) /\
  dr_left r < dr_right r /\ dr_top r < dr_bottom r.

(** A region as [add] keeps it: at most [MAX_DAMAGE_RECTS] rectangles, none of
    them empty, no two of which qualify to merge. *)
Fixpoint pairwise {A} (P : A -> A -> Prop) (l : list A) : Prop :=
  match l with
  | [] => True
  | x :: l => Forall (P x) l /\ pairwise P l
  end.

Definition apart (r s : DamageRect) : Prop := merges_with r s = false.

Definition region_ok (self : DamageRegion) : Prop :=
  Forall rect_ok (rects self) /\ pairwise apart (rects self) /\
  zlen (rects self) <= MAX_DAMAGE_RECTS.

Definition total_area (rs : list DamageRect) : Z := foldr (fun r a => dr_area r + a) 0 rs.

(** The bounding box grows by the rectangle added. *)
Definition box_with (b : option DamageRect) (r : DamageRect) : DamageRect :=
  match b with None => r | Some b => dr_union b r end.

(** * Lemmas

    ** Rectangles *)

Lemma is_empty_spec r : dr_is_empty r = true <-> forall x y, ~ covers r x y.
Proof.
  unfold dr_is_empty, covers. rewrite orb_true_iff, !Z.leb_le. split; [lia|].
  intros Hn. destruct (Z.le_gt_cases (dr_right r) (dr_left r)); [by left|].
  destruct (Z.le_gt_cases (dr_bottom r) (dr_top r)); [by right|].
  destruct (Hn (dr_left r) (dr_top r)). lia.
Qed.

Lemma contains_spec r s : rect_ok s ->
  dr_contains r s = true <-> forall x y, covers s x y -> covers r x y.
Proof.
  intros (_ & _ & _ & _ & Hw & Hh). unfold dr_contains, covers.
  rewrite !andb_true_iff, !Z.leb_le. split; [lia|]. intros Hc.
  pose proof (Hc (dr_left s) (dr_top s)). pose proof (Hc (dr_right s - 1) (dr_bottom s - 1)). lia.
Qed.

Lemma union_ok r s : rect_ok r -> rect_ok s -> rect_ok (dr_union r s).
Proof. unfold rect_ok, in_unsigned, dr_union. cbn. lia. Qed.

Lemma union_covers r s x y : covers r x y \/ covers s x y -> covers (dr_union r s) x y.
Proof. unfold covers, dr_union. cbn. lia. Qed.

Lemma union_comm r s : dr_union r s = dr_union s r.
Proof. unfold dr_union. f_equal; lia. Qed.

Lemma union_assoc r s t : dr_union (dr_union r s) t = dr_union r (dr_union s t).
Proof. unfold dr_union. cbn. f_equal; lia. Qed.

Lemma merges_with_comm r s : merges_with r s = merges_with s r.
Proof. unfold merges_with. rewrite union_comm. unfold saturating_add_u64, u64_max. f_equal. lia. Qed.

(** The sum saturates without changing the comparison. *)
Lemma merges_with_spec r s : rect_ok r -> rect_ok s ->
  merges_with r s = true <-> dr_area (dr_union r s) <= dr_area r + dr_area s.
Proof.
  intros Hr Hs. pose proof (union_ok _ _ Hr Hs) as Hu. unfold merges_with, saturating_add_u64, u64_max.
  assert (dr_area (dr_union r s) < 2 ^ 64) as Ha.
  { unfold dr_area, dr_width, dr_height, saturating_sub.
    destruct Hu as ([? ?] & [? ?] & [? ?] & [? ?] & ? & ?). rewrite !Z.max_r by lia.
    apply Z.le_lt_trans with ((2 ^ 32 - 1) * (2 ^ 32 - 1)); [|done].
    apply Z.mul_le_mono_nonneg; lia. }
  rewrite Z.leb_le. lia.
Qed.

Lemma area_eq r : rect_ok r ->
  dr_area r = (dr_right r - dr_left r) * (dr_bottom r - dr_top r).
Proof.
  intros (_ & _ & _ & _ & ? & ?). unfold dr_area, dr_width, dr_height, saturating_sub.
  by rewrite !Z.max_r by lia.
Qed.

(** ** Lists up to order *)

Lemma pairwise_perm {A} (P : A -> A -> Prop) l l' :
  (forall x y, P x y -> P y x) -> l ≡ₚ l' -> pairwise P l -> pairwise P l'.
Proof.
  intros Hsym. induction 1 as [|x l l' Hp IH|x y l|l l' l'' _ IH1 _ IH2]; cbn; auto.
  - intros [Hx ?]. split; [by rewrite <- Hp|auto].
  - rewrite !Forall_cons_iff. intros ([? ?] & ? & ?). split_and!; auto.
Qed.

Lemma pairwise_app_r {A} (P : A -> A -> Prop) l l' : pairwise P (l ++ l') -> pairwise P l'.
Proof. induction l; [done|]. cbn. intros [_ ?]. auto. Qed.

Lemma position_Some {A} (f : A -> bool) l i :
  position f l = Some i -> exists x, l !! i = Some x /\ f x = true.
Proof.
  revert i. induction l as [|x l IH]; [done|]. intros i. cbn.
  destruct (f x) eqn:E; [intros [= <-]; by exists x|].
  destruct (position f l) as [j|]; [|done]. intros [= <-]. cbn. by apply IH.
Qed.

Lemma position_None {A} (f : A -> bool) l :
  position f l = None -> Forall (fun x => f x = false) l.
Proof.
  induction l as [|x l IH]; [constructor|]. cbn. destruct (f x) eqn:E; [done|].
  destruct (position f l); [done|]. constructor; auto.
Qed.

Lemma swap_remove_perm {A} (l : list A) i x : l !! i = Some x ->
  exists l', swap_remove l i = Some (x, l') /\ l ≡ₚ x :: l' /\ length l = S (length l').
Proof.
  intros Hx. destruct l as [|last l _] using rev_ind; [done|].
  unfold swap_remove. rewrite Hx, last_snoc. cbn.
  destruct (decide (i = length l)) as [->|Hi].
  - rewrite lookup_app_r, Nat.sub_diag in Hx by lia. cbn in Hx. injection Hx as ->.
    exists l. rewrite (list_insert_id (l ++ [x])) by (by rewrite lookup_app_r, Nat.sub_diag by lia).
    rewrite removelast_last. split_and!; [done| |by rewrite length_app; cbn; lia].
    by rewrite Permutation_app_comm.
  - apply lookup_lt_Some in Hx as Hl. rewrite length_app in Hl. cbn in Hl.
    rewrite lookup_app_l in Hx by lia.
    exists (<[i:=last]> l). rewrite insert_app_l, removelast_last by lia.
    split_and!; [done| |by rewrite length_app, length_insert; cbn; lia].
    rewrite <- (take_drop_middle l i x Hx) at 1. rewrite insert_take_drop by lia.
    rewrite <- app_assoc, <- !Permutation_middle, app_nil_r, <- Permutation_middle. apply Permutation_swap.
Qed.

(** ** The merge loop

    The rectangles it absorbs, in order, are folded into the newcomer; none of
    those left merges with the result.  Each round removes a rectangle, so
    their number is enough fuel. *)
Lemma merge_loop_spec fuel rs g : (length rs <= fuel)%nat ->
  exists absorbed rs' g', merge_loop fuel rs g = Some (rs', g') /\
    rs ≡ₚ absorbed ++ rs' /\ g' = foldl dr_union g absorbed /\
    Forall (fun r => merges_with r g' = false) rs' /\
    (Forall rect_ok rs -> rect_ok g -> dr_area g' <= dr_area g + total_area absorbed).
Proof.
  revert rs g. induction fuel as [|fuel IH]; intros rs g Hf; cbn;
    destruct (position _ rs) as [i|] eqn:Ep;
    try (apply position_None in Ep; exists [], rs, g; cbn; split_and!; auto; lia).
  { apply position_Some in Ep as (x & Hx & _). apply lookup_lt_Some in Hx. lia. }
  apply position_Some in Ep as (x & Hx & Hm).
  destruct (swap_remove_perm rs i x Hx) as (l' & -> & Hp & Hlen). cbn.
  destruct (IH l' (dr_union g x)) as (ab & rs' & g' & -> & Hp' & Hg & Hn & Ha); [lia|].
  exists (x :: ab), rs', g'. split_and!; [done| |done|done|].
  { by rewrite Hp, Hp'. }
  intros Hok Hg0. rewrite Hp in Hok. apply Forall_cons_iff in Hok as [Hx0 Hok].
  pose proof (Ha Hok (union_ok _ _ Hg0 Hx0)). rewrite merges_with_comm in Hm.
  apply merges_with_spec in Hm; [|done|done]. cbn. fold (total_area ab). lia.
Qed.

(** ** Folding unions *)

Lemma foldl_union_ok rs g : rect_ok g -> Forall rect_ok rs -> rect_ok (foldl dr_union g rs).
Proof.
  intros Hg Hrs. revert g Hg. induction Hrs as [|r rs Hr _ IH]; [done|]. intros g Hg. cbn.
  by apply IH, union_ok.
Qed.

Lemma foldl_union_covers rs g x y :
  covers g x y \/ Exists (fun r => covers r x y) rs -> covers (foldl dr_union g rs) x y.
Proof.
  revert g. induction rs as [|r rs IH]; intros g Hc; cbn.
  { destruct Hc as [?|Hc]; [done|]. inversion Hc. }
  apply IH. rewrite Exists_cons in Hc.
  destruct Hc as [?|[?|?]]; [left; apply union_covers; by left|
    left; apply union_covers; by right|by right].
Qed.

(** The bounding box of a list, from a rectangle. *)
Lemma foldl_union_out rs g h : foldl dr_union (dr_union g h) rs = dr_union (foldl dr_union g rs) h.
Proof.
  revert g. induction rs as [|r rs IH]; [done|]. intros g. cbn. rewrite <- IH. f_equal.
  by rewrite !union_assoc, (union_comm h).
Qed.

Lemma foldl_union_perm rs rs' g : rs ≡ₚ rs' -> foldl dr_union g rs = foldl dr_union g rs'.
Proof.
  intros Hp. revert g. induction Hp as [|x l l' _ IH|x y l|l l' l'' _ IH1 _ IH2]; intros g; cbn; auto.
  - by rewrite !union_assoc, (union_comm y).
  - by rewrite IH1.
Qed.

Lemma bounding_box_cons r rs :
  bounding_box (mkDamageRegion (r :: rs)) = Some (foldl dr_union r rs).
Proof. done. Qed.

Lemma bounding_box_perm rs rs' : rs ≡ₚ rs' ->
  bounding_box (mkDamageRegion rs) = bounding_box (mkDamageRegion rs').
Proof.
  induction 1 as [|x l l' Hp IH|x y l|l l' l'' _ IH1 _ IH2]; [done| | |congruence].
  - rewrite !bounding_box_cons. by rewrite (foldl_union_perm l l').
  - rewrite !bounding_box_cons. cbn. by rewrite union_comm.
Qed.

Lemma bounding_box_with rs r :
  bounding_box (mkDamageRegion (r :: rs)) = Some (box_with (bounding_box (mkDamageRegion rs)) r).
Proof.
  rewrite bounding_box_cons. destruct rs as [|x rs]; [done|]. cbn.
  by rewrite (union_comm r), foldl_union_out.
Qed.

Lemma box_with_comm b r s : dr_union (box_with b r) s = dr_union (box_with b s) r.
Proof. destruct b; cbn; [by rewrite !union_assoc, (union_comm r)|apply union_comm]. Qed.

Lemma box_with_union b r s : box_with b (dr_union r s) = dr_union (box_with b s) r.
Proof. destruct b; cbn; [by rewrite union_assoc, (union_comm s)|apply union_comm]. Qed.

(** The box of [absorbed] and [rs'] grows by [g] whether or not [absorbed] was
    merged into [g] first. *)
Lemma bounding_box_absorb absorbed rs' g :
  box_with (bounding_box (mkDamageRegion rs')) (foldl dr_union g absorbed) =
  box_with (bounding_box (mkDamageRegion (absorbed ++ rs'))) g.
Proof.
  revert g. induction absorbed as [|a ab IH]; intros g; [done|]. simpl app.
  rewrite bounding_box_with. cbn. by rewrite IH, box_with_union.
Qed.

(** A rectangle inside a held one is inside the bounding box. *)
Lemma contains_union r s : dr_contains r s = true -> dr_union r s = r.
Proof.
  unfold dr_contains. rewrite !andb_true_iff, !Z.leb_le. intros ?.
  destruct r, s. unfold dr_union. cbn in *. f_equal; lia.
Qed.

Lemma bounding_box_contained rs r s : r ∈ rs -> dr_contains r s = true ->
  bounding_box (mkDamageRegion rs) = Some (box_with (bounding_box (mkDamageRegion rs)) s).
Proof.
  intros (l1 & l2 & ->)%list_elem_of_split Hc.
  rewrite (bounding_box_perm _ (r :: l1 ++ l2)) by (by rewrite Permutation_middle).
  rewrite bounding_box_with. cbn [box_with]. f_equal.
  rewrite box_with_comm. destruct (bounding_box _); cbn.
  - rewrite union_assoc, (union_comm s), (contains_union r s Hc). done.
  - rewrite union_comm, (contains_union r s Hc). done.
Qed.

(** ** The rectangles a whole region covers *)

Lemma bounding_box_covers rs x y b : bounding_box (mkDamageRegion rs) = Some b ->
  region_covers (mkDamageRegion rs) x y -> covers b x y.
Proof.
  destruct rs as [|r rs]; [done|]. rewrite bounding_box_cons. intros [= <-].
  unfold region_covers. cbn. rewrite Exists_cons. apply foldl_union_covers.
Qed.

Lemma pairwise_snoc rs g :
  pairwise apart rs -> Forall (fun r => merges_with r g = false) rs -> pairwise apart (rs ++ [g]).
Proof.
  intros Hp Hg. apply (pairwise_perm apart (g :: rs)).
  { unfold apart. intros ??. by rewrite merges_with_comm. }
  { by rewrite Permutation_app_comm. }
  split; [|done]. revert Hg. apply Forall_impl. intros r. unfold apart. by rewrite merges_with_comm.
Qed.

Lemma total_area_app l l' : total_area (l ++ l') = total_area l + total_area l'.
Proof. unfold total_area. induction l; cbn in *; lia. Qed.

Lemma total_area_perm l l' : l ≡ₚ l' -> total_area l = total_area l'.
Proof. unfold total_area. induction 1; cbn in *; lia. Qed.

(** One add, before the collapse: the list it builds. *)
Lemma add_merged rs rect : Forall rect_ok rs -> pairwise apart rs -> rect_ok rect ->
  exists m, merge_loop (length rs) rs rect = Some m /\
    let rs2 := fst m ++ [snd m] in
    Forall rect_ok rs2 /\ pairwise apart rs2 /\ (length rs2 <= S (length rs))%nat /\
    (forall x y, region_covers (mkDamageRegion rs) x y \/ covers rect x y ->
       region_covers (mkDamageRegion rs2) x y) /\
    bounding_box (mkDamageRegion rs2) = Some (box_with (bounding_box (mkDamageRegion rs)) rect) /\
    total_area rs2 <= total_area rs + dr_area rect.
Proof.
  intros Hok Hap Hr.
  destruct (merge_loop_spec (length rs) rs rect) as (ab & rs' & g & -> & Hp & -> & Hn & Ha); [done|].
  eexists. split; [done|]. cbn [fst snd]. set (g := foldl dr_union rect ab) in *.
  pose proof Hok as Hok'. rewrite Hp in Hok'. apply Forall_app in Hok' as [Hok1 Hok2].
  split_and!.
  - apply Forall_app. split; [done|]. constructor; [|constructor]. by apply foldl_union_ok.
  - apply pairwise_snoc; [|done]. apply (pairwise_app_r _ ab).
    apply (pairwise_perm apart rs); [|done|done]. unfold apart. intros ??. by rewrite merges_with_comm.
  - rewrite Hp, !length_app. cbn. lia.
  - intros x y Hc. unfold region_covers in *. cbn in *. rewrite Exists_app, Exists_cons.
    rewrite Hp, Exists_app in Hc. destruct Hc as [[Hc|Hc]|Hc]; [|by left|];
      right; left; apply foldl_union_covers; auto.
  - rewrite (bounding_box_perm _ (g :: rs')) by (by rewrite Permutation_app_comm).
    rewrite bounding_box_with. unfold g. rewrite bounding_box_absorb.
    by rewrite (bounding_box_perm _ _ Hp).
  - pose proof (Ha Hok Hr) as Hg. rewrite (total_area_perm _ _ Hp), !total_area_app. cbn.
    unfold total_area in *. cbn in *. fold g in Hg. lia.
Qed.

(** Collapsing to the bounding box keeps every pixel. *)
Lemma collapse_ok rs b : Forall rect_ok rs -> bounding_box (mkDamageRegion rs) = Some b ->
  region_ok (mkDamageRegion [b]) /\
  (forall x y, region_covers (mkDamageRegion rs) x y -> region_covers (mkDamageRegion [b]) x y).
Proof.
  intros Hok Hb. split.
  - unfold region_ok. cbn. split_and!; [|done|done|done].
    constructor; [|constructor]. destruct Hok as [|r rs Hr Hrs]; [done|].
    rewrite bounding_box_cons in Hb. injection Hb as <-. by apply foldl_union_ok.
  - intros x y Hc. constructor. by apply (bounding_box_covers rs).
Qed.

Lemma existsb_contains rs rect : existsb (fun r => dr_contains r rect) rs = true ->
  exists r, r ∈ rs /\ dr_contains r rect = true.
Proof. intros (r & ? & ?)%existsb_exists. exists r. by rewrite list_elem_of_In. Qed.

Lemma existsb_contains_covers rs rect x y : rect_ok rect ->
  existsb (fun r => dr_contains r rect) rs = true -> covers rect x y ->
  region_covers (mkDamageRegion rs) x y.
Proof.
  intros Hr (r & Hin & Hc)%existsb_contains Hxy. apply Exists_exists.
  exists r. split; [by apply list_elem_of_In|]. by apply (contains_spec r rect).
Qed.

Lemma not_empty_ok r : u32 (dr_left r) -> u32 (dr_top r) -> u32 (dr_right r) ->
  u32 (dr_bottom r) -> dr_is_empty r = false -> rect_ok r.
Proof.
  intros. unfold dr_is_empty in *. rewrite orb_false_iff, !Z.leb_gt in *.
  unfold rect_ok. tauto.
Qed.

Lemma swap_mul a b c d e f : a * b <= c * d + e * f <-> b * a <= d * c + f * e.
Proof. by rewrite (Z.mul_comm a), (Z.mul_comm c), (Z.mul_comm e). Qed.

(** Two boxes side by side fill their bounding box only when they touch and
    are equally long. *)
Lemma strip w1 w2 gap h1 h2 W H :
  0 < w1 -> 0 < w2 -> 0 <= gap -> 0 < h1 <= H -> 0 < h2 <= H -> W = w1 + gap + w2 ->
  W * H <= w1 * h1 + w2 * h2 -> H = h1 /\ H = h2 /\ gap = 0.
Proof. nia. Qed.

(** ** Adding a rectangle *)

Lemma region_add_ok self rect
  (Hself : region_ok self)
  (Hl : u32 (dr_left rect)) (Ht : u32 (dr_top rect))
  (Hr : u32 (dr_right rect)) (Hb : u32 (dr_bottom rect)) :
  exists self', region_add self rect = Some self' /\ region_ok self' /\
    (forall x y, region_covers self x y \/ covers rect x y -> region_covers self' x y) /\
    bounding_box self' =
      (if dr_is_empty rect then bounding_box self
       else Some (box_with (bounding_box self) rect)) /\
    (total_area (rects self') <= total_area (rects self) + dr_area rect \/
     Some (rects self') = (fun b => [b]) <$> bounding_box self').
Proof.
  destruct self as [rs]. destruct Hself as (Hok & Hap & Hlen). cbn [rects] in *.
  unfold region_add. cbn [rects].
  assert (0 <= dr_area rect) as Harea.
  { unfold dr_area, dr_width, dr_height, saturating_sub. apply Z.mul_nonneg_nonneg; lia. }
  destruct (dr_is_empty rect) eqn:Ee; cbn [orb].
  { exists (mkDamageRegion rs). split; [done|]. split; [done|]. split_and!; [|done|left; cbn [rects]; lia].
    intros x y [?|Hc]; [done|]. by apply is_empty_spec in Hc. }
  pose proof (not_empty_ok rect Hl Ht Hr Hb Ee) as Hrect.
  destruct (existsb _ rs) eqn:Ex.
  { exists (mkDamageRegion rs). split; [done|]. split; [done|]. split_and!; [| |left; cbn [rects]; lia].
    - intros x y [?|Hc]; [done|]. by apply (existsb_contains_covers rs rect).
    - apply existsb_contains in Ex as (r & ? & ?). by apply (bounding_box_contained _ r). }
  destruct (add_merged rs rect Hok Hap Hrect) as (m & -> & Hok2 & Hap2 & Hlen2 & Hcov & Hbb & Ha).
  cbn. set (rs2 := fst m ++ [snd m]) in *.
  destruct (Z.ltb_spec MAX_DAMAGE_RECTS (zlen rs2)).
  - rewrite Hbb. eexists. split; [done|].
    destruct (collapse_ok rs2 _ Hok2 Hbb) as [? Hc]. split; [done|]. split_and!; auto.
  - exists (mkDamageRegion rs2). split; [done|]. split; [by split_and!|]. split_and!; auto.
Qed.

(** * Properties *)

(** C39: [DamageRegion::add] always returns, and from a region it built keeps
    the module's rules: no empty rectangle, no two that qualify to merge, at
    most [MAX_DAMAGE_RECTS].  No damage is lost: every pixel covered before and
    every pixel of the rectangle added is covered after.  The bounding box is
    exactly the old one grown by the rectangle (unchanged by an empty one), and
    unless the region collapsed to that box the pixels reported grow by no more
    than the rectangle's own area. *)
Theorem damage_add_correct self rect
  (Hself : region_ok self)
  (Hl : u32 (dr_left rect)) (Ht : u32 (dr_top rect))
  (Hr : u32 (dr_right rect)) (Hb : u32 (dr_bottom rect)) :
  exists self', region_add self rect = Some self' /\ region_ok self' /\
    (forall x y, region_covers self x y \/ covers rect x y -> region_covers self' x y) /\
    bounding_box self' =
      (if dr_is_empty rect then bounding_box self
       else Some (box_with (bounding_box self) rect)) /\
    (total_area (rects self') <= total_area (rects self) + dr_area rect \/
     Some (rects self') = (fun b => [b]) <$> bounding_box self').
Proof. by apply region_add_ok. Qed.

Lemma damage_add_correct_witness :
  region_add (mkDamageRegion [mkDamageRect 0 0 4 4; mkDamageRect 8 0 12 4])
    (mkDamageRect 4 0 8 4) = Some (mkDamageRegion [mkDamageRect 0 0 12 4]) /\
  exists self', region_add (mkDamageRegion [mkDamageRect 0 0 4 4; mkDamageRect 8 0 12 4])
    (mkDamageRect 4 0 8 4) = Some self' /\ region_ok self'.
Proof.
  split; [reflexivity|].
  destruct (damage_add_correct (mkDamageRegion [mkDamageRect 0 0 4 4; mkDamageRect 8 0 12 4])
    (mkDamageRect 4 0 8 4)) as (s & Hs & Hok & _).
  - unfold region_ok, rect_ok, in_unsigned, MAX_DAMAGE_RECTS, zlen, apart. cbn.
    repeat match goal with |- Forall _ _ => constructor | |- _ /\ _ => split end; first [done|lia].
  - cbn. unfold in_unsigned. lia.
  - cbn. unfold in_unsigned. lia.
  - cbn. unfold in_unsigned. lia.
  - cbn. unfold in_unsigned. lia.
  - exists s. by split.
Defined.

(** The merge rule claims nothing new: two rectangles with no pixel in
    common that qualify to merge are replaced by a rectangle that covers
    exactly the pixels of the two. *)
Theorem damage_merge_exact r s
  (Hr : rect_ok r) (Hs : rect_ok s)
  (Hdisj : forall x y, ~ (covers r x y /\ covers s x y))
  (Hm : merges_with r s = true) :
  forall x y, covers (dr_union r s) x y <-> covers r x y \/ covers s x y.
Proof.
  apply merges_with_spec in Hm; [|done|done].
  rewrite !area_eq in Hm by auto using union_ok.
  pose proof (Hdisj (Z.max (dr_left r) (dr_left s)) (Z.max (dr_top r) (dr_top s))) as Hd.
  destruct r as [l1 t1 r1 b1], s as [l2 t2 r2 b2]. unfold rect_ok, covers, dr_union in *. cbn in *.
  destruct Hr as (_ & _ & _ & _ & ? & ?), Hs as (_ & _ & _ & _ & ? & ?).
  assert (r1 <= l2 \/ r2 <= l1 \/ b1 <= t2 \/ b2 <= t1) as [Hx|[Hx|[Hx|Hx]]] by lia.
  - apply (strip (r1 - l1) (r2 - l2) (l2 - r1)) in Hm; lia.
  - apply (strip (r1 - l1) (r2 - l2) (l1 - r2)) in Hm; lia.
  - rewrite swap_mul in Hm. apply (strip (b1 - t1) (b2 - t2) (t2 - b1)) in Hm; lia.
  - rewrite swap_mul in Hm. apply (strip (b1 - t1) (b2 - t2) (t1 - b2)) in Hm; lia.
Qed.

Lemma damage_merge_exact_witness :
  merges_with (mkDamageRect 0 0 4 4) (mkDamageRect 4 0 8 4) = true /\
  (covers (dr_union (mkDamageRect 0 0 4 4) (mkDamageRect 4 0 8 4)) 5 1 <->
   covers (mkDamageRect 0 0 4 4) 5 1 \/ covers (mkDamageRect 4 0 8 4) 5 1).
Proof.
  split; [reflexivity|]. apply damage_merge_exact.
  - unfold rect_ok, in_unsigned. cbn. lia.
  - unfold rect_ok, in_unsigned. cbn. lia.
  - unfold covers. cbn. lia.
  - reflexivity.
Defined.
