(* ===== verification/Clip.v ===== *)
(** Clips: [shakenfist-spice-renderer/src/display/clip.rs].

    [clip_area] reduces the clip of a draw to disjoint rectangles inside the
    draw's destination, so that a draw touches each pixel at most once however
    many overlapping rectangles the server sends.  [union] cuts the rectangles
    into bands at their top and bottom edges, merges the spans of each band, and
    extends the rectangles of the band above when the spans are the same. *)
From Stdlib Require Import ZArith Lia Sorted.
From stdpp Require Import base numbers list gmap sorting tactics.
From S2P Require Import Prelude Reader Wire MsgCommon MsgDisplay.

Open Scope Z_scope.
Open Scope rust_scope.

(** * Model *)

Definition MAX_CLIP_RECTS : Z := 1024.

(** A rectangle (left, top, right, bottom), right and bottom exclusive. *)
Abbreviation Ltrb := (Z * Z * Z * Z)%type.

Inductive ClipArea : Type :=
| Whole
| Rects (boxes : list Ltrb)
| Nothing
| TooComplex (sent : Z).

(** The derived orders of tuples. *)
Definition span_le (a b : Z * Z) : Prop :=
  let '(l1, r1) := a in
  let '(l2, r2) := b in
  l1 < l2 \/ (l1 = l2 /\ r1 <= r2).

Definition ltrb_le (a b : Ltrb) : Prop :=
  let '(l1, t1, r1, b1) := a in
  let '(l2, t2, r2, b2) := b in
  l1 < l2 \/ (l1 = l2 /\ (t1 < t2 \/ (t1 = t2 /\ (r1 < r2 \/ (r1 = r2 /\ b1 <= b2))))).

#[export] Instance span_le_dec a b : Decision (span_le a b).
Proof. destruct a, b. unfold span_le. apply _. Defined.
#[export] Instance ltrb_le_dec a b : Decision (ltrb_le a b).
Proof. destruct a as [[[? ?] ?] ?], b as [[[? ?] ?] ?]. unfold ltrb_le. apply _. Defined.

(** [Vec::sort_unstable]: equal elements of these types are the same, so any
    sort gives the same list. *)
Definition sort_u32 (l : list Z) : list Z := merge_sort Z.le l.
Definition sort_spans (l : list (Z * Z)) : list (Z * Z) := merge_sort span_le l.
Definition sort_ltrb (l : list Ltrb) : list Ltrb := merge_sort ltrb_le l.

(** [Vec::dedup]: keeps the first of each run of equal elements. *)
Fixpoint dedup (l : list Z) : list Z :=
  match l with
  | [] => []
  | x :: l =>
      match l with
      | [] => [x]
      | y :: _ => if x =? y then dedup l else x :: dedup l
      end
  end.

(** [slice::windows(2)] *)
Fixpoint windows2 (l : list Z) : list (Z * Z) :=
  match l with
  | [] => []
  | x :: l =>
      match l with
      | [] => []
      | y :: _ => (x, y) :: windows2 l
      end
  end.

Definition clamp (rect : Rect) (dest : Ltrb) : option Ltrb :=
  let '(dl, dt, dr, db) := dest in
  let left := Z.max (Rect_left rect) dl in
  let top := Z.max (Rect_top rect) dt in
  let right := Z.min (Rect_right rect) dr in
  let bottom := Z.min (Rect_bottom rect) db in
  if (right <=? left) || (bottom <=? top) then None
  else Some (as_unsigned 32 left, as_unsigned 32 top, as_unsigned 32 right, as_unsigned 32 bottom).

(** The loop over a band's sorted spans: one round. *)
Definition merge_span (merged : list (Z * Z)) (span : Z * Z) : list (Z * Z) :=
  let '(left', right') := span in
  match list.last merged with
  | Some (l, r) =>
      if left' <=? r then removelast merged ++ [(l, Z.max r right')]
      else push merged (left', right')
  | None => push merged (left', right')
  end.

Definition band_spans (rects : list Ltrb) (top bottom : Z) : list (Z * Z) :=
  sort_spans (map (fun '(l, _, r, _) => (l, r))
    (List.filter (fun '(_, t, _, b) => (t <=? top) && (bottom <=? b)) rects)).

Record Bands : Type := mkBands {
  bands_out : list Ltrb;
  prev_spans : list (Z * Z);
  prev_boxes : list nat;
  prev_bottom : option Z
}.

(** [out[i].3 = bottom]: [None] is the panic. *)
Definition set_bottom (out : list Ltrb) (bottom : Z) (i : nat) : option (list Ltrb) :=
  match out !! i with
  | Some (l, t, r, _) => Some (<[i := (l, t, r, bottom)]> out)
  | None => None
  end.

Fixpoint set_bottoms (out : list Ltrb) (bottom : Z) (boxes : list nat) : option (list Ltrb) :=
  match boxes with
  | [] => Some out
  | i :: boxes => out ← set_bottom out bottom i; set_bottoms out bottom boxes
  end.

(** One band; [Err tt] is the early [None] of the source. *)
Definition band_step (rects : list Ltrb) (st : Bands) (band : Z * Z) : result unit Bands :=
  let '(top, bottom) := band in
  let merged := foldl merge_span [] (band_spans rects top bottom) in
  if bool_decide (prev_bottom st = Some top) && bool_decide (merged = prev_spans st) then
    let! out := rlift (set_bottoms (bands_out st) bottom (prev_boxes st)) in
    Ok (mkBands out (prev_spans st) (prev_boxes st) (Some bottom))
  else
    let boxes := seq (length (bands_out st)) (length merged) in
    let out := bands_out st ++ map (fun '(left', right') => (left', top, right', bottom)) merged in
    if MAX_CLIP_RECTS <? zlen out then Err tt
    else Ok (mkBands out merged boxes (Some bottom)).

Fixpoint bands_loop (rects : list Ltrb) (st : Bands) (bands : list (Z * Z)) : result unit Bands :=
  match bands with
  | [] => Ok st
  | band :: bands => let! st' := band_step rects st band in bands_loop rects st' bands
  end.

Definition union_edges (rects : list Ltrb) : list Z :=
  dedup (sort_u32 (concat (map (fun '(_, t, _, b) => [t; b]) rects))).

Definition union (rects : list Ltrb) : result unit (list Ltrb) :=
  rmap bands_out (bands_loop rects (mkBands [] [] [] None) (windows2 (union_edges rects))).

(** The loop that collects the distinct clamped rectangles; [None] when they
    pass the limit. *)
Fixpoint distinct_loop (dest : Ltrb) (rects : list Rect) (distinct : gset Ltrb)
    : option (gset Ltrb) :=
  match rects with
  | [] => Some distinct
  | rect :: rects =>
      match clamp rect dest with
      | Some clamped =>
          let distinct := {[clamped]} ∪ distinct in
          if MAX_CLIP_RECTS <? Z.of_nat (size distinct) then None
          else distinct_loop dest rects distinct
      | None => distinct_loop dest rects distinct
      end
  end.

Definition clip_area (clip : Clip) (dest : Ltrb) : result unit ClipArea :=
  if negb (Clip_clip_type clip =? clip_type_RECTS) then Ok Whole
  else
    match distinct_loop dest (Clip_rects clip) ∅ with
    | None => Ok (TooComplex (zlen (Clip_rects clip)))
    | Some distinct =>
        if bool_decide (distinct = ∅) then Ok Nothing
        else
          match union (sort_ltrb (elements distinct)) with
          | Ok boxes => Ok (Rects boxes)
          | Err _ => Ok (TooComplex (zlen (Clip_rects clip)))
          | Panic => Panic
          end
    end.

(** * Pixels and order *)

Definition box_covers (box : Ltrb) (x y : Z) : Prop :=
  let '(l, t, r, b) := box in l <= x < r /\ t <= y < b.

Definition box_nonempty (box : Ltrb) : Prop :=
  let '(l, t, r, b) := box in l < r /\ t < b.

(** [a] is drawn before [b]: in a band above, or to the left in the same band
    with a gap between. *)
Definition box_before (a b : Ltrb) : Prop :=
  let '(l1, t1, r1, b1) := a in
  let '(l2, t2, r2, b2) := b in
  b1 <= t2 \/ (t1 = t2 /\ b1 = b2 /\ r1 < l2).

Definition span_before (a b : Z * Z) : Prop := a.2 < b.1.

Definition span_covers (x : Z) (s : Z * Z) : Prop := s.1 <= x < s.2.

Definition rect_covers (rect : Rect) (x y : Z) : Prop :=
  Rect_left rect <= x < Rect_right rect /\ Rect_top rect <= y < Rect_bottom rect.

(** The distinct rectangles a clip leaves of its destination. *)
Definition distinct_rects (rects : list Rect) (dest : Ltrb) : gset Ltrb :=
  list_to_set (omap (fun r => clamp r dest) rects).

Definition ltrb_u32 (r : Ltrb) : Prop :=
  let '(l, t, r, b) := r in u32 l /\ u32 t /\ u32 r /\ u32 b.

(** * Lemmas

    ** Orders and sorting *)

#[export] Instance span_le_trans : Transitive span_le.
Proof. intros [? ?] [? ?] [? ?]. unfold span_le. lia. Qed.
#[export] Instance span_le_total : Total span_le.
Proof. intros [? ?] [? ?]. unfold span_le. lia. Qed.

Lemma sort_u32_sorted l : StronglySorted Z.le (sort_u32 l).
Proof. apply StronglySorted_merge_sort; apply _. Qed.
Lemma elem_of_sort_u32 l x : x ∈ sort_u32 l <-> x ∈ l.
Proof. unfold sort_u32. by rewrite merge_sort_Permutation. Qed.
Lemma sort_spans_sorted l : StronglySorted span_le (sort_spans l).
Proof. apply StronglySorted_merge_sort; apply _. Qed.
Lemma sort_spans_perm l : sort_spans l ≡ₚ l.
Proof. apply merge_sort_Permutation. Qed.

Lemma dedup_cons x y l : dedup (x :: y :: l) = if x =? y then dedup (y :: l) else x :: dedup (y :: l).
Proof. done. Qed.

Lemma elem_of_dedup l x : x ∈ dedup l <-> x ∈ l.
Proof.
  induction l as [|y l IH]; [done|]. destruct l as [|z l]; [done|]. rewrite dedup_cons.
  destruct (Z.eqb_spec y z) as [->|].
  - rewrite IH. set_solver.
  - rewrite (elem_of_cons (dedup _)), IH. set_solver.
Qed.

Lemma dedup_sorted l : StronglySorted Z.le l -> StronglySorted Z.lt (dedup l).
Proof.
  induction 1 as [|y l Hs IH Hy]; [constructor|]. destruct l as [|z l]; [repeat constructor|].
  rewrite dedup_cons. destruct (Z.eqb_spec y z); [done|]. constructor; [done|].
  apply list.Forall_forall. intros x Hx. rewrite elem_of_dedup in Hx.
  apply Forall_cons_iff in Hy as [Hyz _]. apply StronglySorted_inv in Hs as [_ Hs].
  apply elem_of_cons in Hx as [->|Hx]; [lia|]. eapply list.Forall_forall in Hs; [|done]. lia.
Qed.

Lemma length_dedup l : (length (dedup l) <= length l)%nat.
Proof.
  induction l as [|y l IH]; [done|]. destruct l as [|z l]; [done|]. rewrite dedup_cons.
  destruct (y =? z); simpl length in *; lia.
Qed.

Lemma union_edges_sorted rects : StronglySorted Z.lt (union_edges rects).
Proof. apply dedup_sorted, sort_u32_sorted. Qed.

Lemma elem_of_union_edges rects v :
  v ∈ union_edges rects <-> Exists (fun '(_, t, _, b) => v = t \/ v = b) rects.
Proof.
  unfold union_edges. rewrite elem_of_dedup, elem_of_sort_u32.
  induction rects as [|[[[l t] r] b] rects IH]; cbn; [rewrite Exists_nil; set_solver|].
  rewrite Exists_cons, <- IH. set_solver.
Qed.

Lemma length_union_edges rects : (length (union_edges rects) <= 2 * length rects)%nat.
Proof.
  unfold union_edges. etrans; [apply length_dedup|]. unfold sort_u32. rewrite merge_sort_Permutation.
  induction rects as [|[[[l t] r] b] rects IH]; cbn in *; lia.
Qed.

(** ** Merging the spans of a band *)

Definition span_nonempty (s : Z * Z) : Prop := s.1 < s.2.

(** What one round does to the spans so far. *)
Lemma merge_span_spec acc s :
  StronglySorted span_before acc -> Forall span_nonempty acc -> span_nonempty s ->
  (forall a, a ∈ acc -> a.1 <= s.1) ->
  let m := merge_span acc s in
  StronglySorted span_before m /\ Forall span_nonempty m /\
  (forall a, a ∈ m -> a.1 <= s.1) /\
  (forall x, Exists (span_covers x) m <-> Exists (span_covers x) acc \/ span_covers x s) /\
  (length m <= S (length acc))%nat.
Proof.
  intros Hs Hne Hns Hle. destruct s as [l r]. unfold merge_span.
  destruct acc as [|[l0 r0] acc _] using rev_ind.
  { cbn. unfold push. cbn. split_and!; [repeat constructor|by repeat constructor| | |done].
    - set_solver by lia.
    - intros x. rewrite Exists_cons, Exists_nil. naive_solver. }
  rewrite last_snoc. apply StronglySorted_app in Hs as (Hb & Hs & _).
  apply Forall_app in Hne as [Hne Hne0]. apply Forall_cons_iff in Hne0 as [Hne0 _].
  pose proof (Hle (l0, r0)) as Hl0. unfold span_nonempty, span_before in *. cbn in *.
  destruct (Z.leb_spec l r0).
  - rewrite removelast_last. split_and!.
    + apply StronglySorted_app_2; [|done|repeat constructor].
      intros a a' Ha Ha'%list_elem_of_singleton. subst. cbn. by apply (Hb a (l0, r0)), list_elem_of_singleton.
    + apply Forall_app. split; [done|]. constructor; [cbn; lia|constructor].
    + intros a [Ha|Ha%list_elem_of_singleton]%elem_of_app; [set_solver|]. subst. cbn. set_solver.
    + intros x. rewrite !Exists_app, !Exists_cons, !Exists_nil. unfold span_covers. cbn.
      assert (l0 <= l) by set_solver. intuition lia.
    + rewrite !length_app. cbn. lia.
  - unfold push. split_and!.
    + apply StronglySorted_app_2; [|by apply StronglySorted_app_2; [|done|repeat constructor]|repeat constructor].
      intros a a' Ha Ha'%list_elem_of_singleton. subst. cbn.
      apply elem_of_app in Ha as [Ha|Ha%list_elem_of_singleton]; [|by subst].
      pose proof (Hb a (l0, r0) Ha). set_solver by lia.
    + rewrite !Forall_app. split_and!; [done|by repeat constructor|by repeat constructor].
    + intros a [Ha|Ha%list_elem_of_singleton]%elem_of_app; [set_solver|]. subst. cbn. lia.
    + intros x. rewrite !Exists_app, !Exists_cons, !Exists_nil. naive_solver.
    + rewrite !length_app. cbn. lia.
Qed.

Lemma merge_spans_from spans acc :
  StronglySorted span_le spans -> Forall span_nonempty spans ->
  StronglySorted span_before acc -> Forall span_nonempty acc ->
  (forall a s, a ∈ acc -> s ∈ spans -> a.1 <= s.1) ->
  let m := foldl merge_span acc spans in
  StronglySorted span_before m /\ Forall span_nonempty m /\
  (forall x, Exists (span_covers x) m <->
     Exists (span_covers x) acc \/ Exists (span_covers x) spans) /\
  (length m <= length acc + length spans)%nat.
Proof.
  intros Hss Hsn. revert acc. induction Hss as [|s spans Hss IH Hs]; intros acc Ha Hn Hle; cbn.
  { split_and!; [done|done| |lia]. intros x. rewrite Exists_nil. tauto. }
  apply Forall_cons_iff in Hsn as [Hsn0 Hsn].
  destruct (merge_span_spec acc s) as (Ha' & Hn' & Hl' & Hc' & Hlen'); [done|done|done|set_solver|].
  destruct (IH Hsn (merge_span acc s) Ha' Hn') as (? & ? & Hc & ?).
  { intros a s' Hin Hin'. pose proof (Hl' a Hin). eapply list.Forall_forall in Hs; [|done].
    destruct s, s'. unfold span_le in Hs. cbn in *. lia. }
  split_and!; [done|done| |lia]. intros x. rewrite Hc, Hc', Exists_cons. tauto.
Qed.

(** ** The bands *)

(** No edge of [rects] lies strictly inside the band. *)
Definition clean_band (rects : list Ltrb) (top bottom : Z) : Prop :=
  top < bottom /\
  Forall (fun '(_, t, _, b) => (t <= top \/ bottom <= t) /\ (b <= top \/ bottom <= b)) rects.

Lemma length_band_spans rects top bottom :
  (length (band_spans rects top bottom) <= length rects)%nat.
Proof.
  unfold band_spans. rewrite sort_spans_perm, length_map. apply filter_length_le.
Qed.

Lemma elem_of_band_spans rects top bottom s :
  s ∈ band_spans rects top bottom <->
  exists t b, (s.1, t, s.2, b) ∈ rects /\ t <= top /\ bottom <= b.
Proof.
  unfold band_spans. rewrite sort_spans_perm, list_elem_of_In, in_map_iff. split.
  - intros ([[[l t] r] b] & <- & Hin%filter_In). cbn. exists t, b.
    rewrite andb_true_iff, !Z.leb_le in Hin. by rewrite list_elem_of_In.
  - intros (t & b & Hin & ? & ?). exists (s.1, t, s.2, b). split; [by destruct s|].
    apply filter_In. rewrite andb_true_iff, !Z.leb_le. by rewrite <- list_elem_of_In.
Qed.

(** The rectangles over a row of a clean band are the band's spans. *)
Lemma band_spans_cover rects top bottom x y : clean_band rects top bottom -> top <= y < bottom ->
  Exists (fun r => box_covers r x y) rects <->
  Exists (span_covers x) (band_spans rects top bottom).
Proof.
  intros [Htb Hc] Hy. rewrite !list.Exists_exists. split.
  - intros ([[[l t] r] b] & Hin & Hx & Hyr). exists (l, r). split; [|done].
    apply elem_of_band_spans. exists t, b. split; [done|].
    eapply list.Forall_forall in Hc; [|done]. cbn in Hc. lia.
  - intros (s & (t & b & Hin & ? & ?)%elem_of_band_spans & Hx). eexists. split; [done|].
    unfold span_covers in Hx. cbn. lia.
Qed.

(** The merged spans of a band. *)
Lemma band_merged rects top bottom : Forall box_nonempty rects ->
  let m := foldl merge_span [] (band_spans rects top bottom) in
  StronglySorted span_before m /\ Forall span_nonempty m /\
  (forall x, Exists (span_covers x) m <-> Exists (span_covers x) (band_spans rects top bottom)) /\
  (length m <= length rects)%nat.
Proof.
  intros Hne. pose proof (length_band_spans rects top bottom).
  destruct (merge_spans_from (band_spans rects top bottom) []) as (? & ? & Hc & Hl).
  - apply sort_spans_sorted.
  - apply list.Forall_forall. intros s (t & b & Hin & _)%elem_of_band_spans.
    eapply list.Forall_forall in Hne; [|done]. cbn in Hne. unfold span_nonempty. lia.
  - constructor.
  - constructor.
  - set_solver.
  - cbn in Hl. split_and!; [done|done| |lia]. intros x. rewrite Hc, Exists_nil. tauto.
Qed.

(** ** Extending the rectangles of the band above *)

Definition band_box (top bottom : Z) (s : Z * Z) : Ltrb := (s.1, top, s.2, bottom).

Lemma map_band_box top bottom m :
  map (fun '(l, r) => (l, top, r, bottom)) m = map (band_box top bottom) m.
Proof. apply map_ext. by intros []. Qed.

Lemma set_bottoms_ok above top e e' spans :
  set_bottoms (above ++ map (band_box top e) spans) e' (seq (length above) (length spans)) =
  Some (above ++ map (band_box top e') spans).
Proof.
  revert above. induction spans as [|s spans IH]; intros above; [done|]. cbn.
  unfold set_bottom. rewrite lookup_app_r, Nat.sub_diag by lia. cbn.
  rewrite insert_app_r_alt, Nat.sub_diag by lia. cbn.
  replace (S (length above)) with (length (above ++ [band_box top e' s]))
    by (rewrite length_app; cbn; lia).
  change (s.1, top, s.2, e') with (band_box top e' s).
  rewrite (cons_middle _ above (map _ spans)), (cons_middle _ above (map (band_box top e') spans)).
  rewrite !(app_assoc above). by apply IH.
Qed.

Lemma band_boxes_cover top e spans x y :
  Exists (fun r => box_covers r x y) (map (band_box top e) spans) <->
  top <= y < e /\ Exists (span_covers x) spans.
Proof.
  rewrite Exists_map. unfold band_box, box_covers, span_covers. induction spans as [|s spans IH].
  - rewrite !Exists_nil. tauto.
  - rewrite !Exists_cons, IH. tauto.
Qed.

(** ** The invariant of the loop over the bands, after those above [e] *)

Definition bands_inv (rects : list Ltrb) (e : Z) (st : Bands) : Prop :=
  exists above top,
    bands_out st = above ++ map (band_box top e) (prev_spans st) /\
    prev_boxes st = seq (length above) (length (prev_spans st)) /\
    (forall b, prev_bottom st = Some b -> b = e) /\ top < e /\
    StronglySorted box_before above /\ Forall box_nonempty above /\
    Forall (fun '(_, _, _, b) => b <= top) above /\
    StronglySorted span_before (prev_spans st) /\ Forall span_nonempty (prev_spans st) /\
    (forall x y, y < e -> Exists (fun r => box_covers r x y) (bands_out st) <->
       Exists (fun r => box_covers r x y) rects) /\
    zlen (bands_out st) <= MAX_CLIP_RECTS.

Lemma band_boxes_sorted top e spans :
  StronglySorted span_before spans -> StronglySorted box_before (map (band_box top e) spans).
Proof.
  apply (StronglySorted_fmap (band_box top e)). intros [? ?] [? ?]. unfold span_before. cbn. lia.
Qed.

Lemma band_boxes_nonempty top e spans : top < e ->
  Forall span_nonempty spans -> Forall box_nonempty (map (band_box top e) spans).
Proof. intros Ht. induction 1; constructor; [|done]. by split. Qed.

(** Rectangles that end above [top] come before those of a band from [top]. *)
Lemma above_sorted above top e spans :
  StronglySorted box_before above -> Forall (fun '(_, _, _, b) => b <= top) above ->
  StronglySorted span_before spans ->
  StronglySorted box_before (above ++ map (band_box top e) spans).
Proof.
  intros Ha Hb Hs. apply StronglySorted_app_2; [|done|by apply band_boxes_sorted].
  intros [[[? ?] ?] ?] x2 Hin ([? ?] & -> & _)%list_elem_of_fmap.
  eapply list.Forall_forall in Hb; [|done]. cbn in *. lia.
Qed.

(** What the invariant says of the rectangles so far. *)
Lemma bands_inv_out rects e st : bands_inv rects e st ->
  StronglySorted box_before (bands_out st) /\ Forall box_nonempty (bands_out st) /\
  Forall (fun '(_, _, _, b) => b <= e) (bands_out st).
Proof.
  intros (above & top & -> & _ & _ & Ht & Hs & Hn & Hb & Hps & Hpn & _). split_and!.
  - by apply above_sorted.
  - apply Forall_app. split; [done|]. by apply band_boxes_nonempty.
  - apply Forall_app. split.
    + eapply Forall_impl; [|done]. intros [[[? ?] ?] ?]. cbn. lia.
    + apply Forall_map, Forall_true. intros ?. cbn. lia.
Qed.

Lemma not_covered_below e out x y : Forall (fun '(_, _, _, b) => b <= e) out -> e <= y ->
  ~ Exists (fun r => box_covers r x y) out.
Proof.
  intros Hb Hy ([[[? ?] ?] ?] & Hin & Hc)%list.Exists_exists.
  eapply list.Forall_forall in Hb; [|done]. cbn in *. lia.
Qed.

(** A rectangle set covers the rows up to [bottom] when it covers those up to
    [top] and the band's spans the band. *)
Lemma cover_next rects e bottom above top spans :
  clean_band rects e bottom -> top <= e ->
  Forall (fun '(_, _, _, b) => b <= top) above ->
  (forall x, Exists (span_covers x) spans <-> Exists (span_covers x) (band_spans rects e bottom)) ->
  (forall x y, y < e ->
     Exists (fun r => box_covers r x y) above \/ (top <= y < e /\ Exists (span_covers x) spans) <->
     Exists (fun r => box_covers r x y) rects) ->
  forall x y, y < bottom ->
    Exists (fun r => box_covers r x y) (above ++ map (band_box top bottom) spans) <->
    Exists (fun r => box_covers r x y) rects.
Proof.
  intros Hc Ht Hb Hs Hup x y Hy. rewrite Exists_app, band_boxes_cover.
  destruct (Z.lt_ge_cases y e) as [Hye|Hye].
  - rewrite <- (Hup x y Hye). destruct Hc. intuition lia.
  - rewrite (band_spans_cover rects e bottom x y Hc) by lia. rewrite Hs.
    assert (~ Exists (fun r => box_covers r x y) above) by (apply (not_covered_below top); [done|lia]).
    intuition lia.
Qed.

Lemma band_step_ok rects e bottom st :
  Forall box_nonempty rects -> bands_inv rects e st -> clean_band rects e bottom ->
  match band_step rects st (e, bottom) with
  | Ok st' => bands_inv rects bottom st' /\ zlen (bands_out st') <= zlen (bands_out st) + zlen rects
  | Err _ => MAX_CLIP_RECTS < zlen (bands_out st) + zlen rects
  | Panic => False
  end.
Proof.
  intros Hne Hinv Hc. pose proof (bands_inv_out _ _ _ Hinv) as (Hos & Hon & Hob).
  destruct (band_merged rects e bottom Hne) as (Hms & Hmn & Hmc & Hml).
  destruct Hinv as (above & top & Hout & Hbox & Hbot & Ht & Hs & Hn & Hb & Hps & Hpn & Hcov & Hlen).
  unfold band_step. set (m := foldl merge_span [] (band_spans rects e bottom)) in *. clearbody m.
  destruct (bool_decide (prev_bottom st = Some e) && bool_decide (m = prev_spans st)) eqn:Ed.
  - apply andb_true_iff in Ed as [_ ->%bool_decide_eq_true].
    rewrite Hout, Hbox, set_bottoms_ok. cbn [rlift rbind]. split.
    2:{ cbn. rewrite !zlen_app, !zlen_map. zlen_solve. }
    exists above, top. cbn. split_and!; try done.
    + naive_solver.
    + destruct Hc. lia.
    + apply (cover_next rects e); [done|lia|done|done|]. intros x y Hy.
      rewrite <- Hcov, Hout, Exists_app, band_boxes_cover by done. tauto.
    + rewrite Hout, zlen_app, zlen_map in Hlen. by rewrite zlen_app, zlen_map.
  - rewrite map_band_box. destruct (Z.ltb_spec MAX_CLIP_RECTS (zlen (bands_out st ++ map (band_box e bottom) m))) as [Hm|Hm];
      rewrite zlen_app, zlen_map in Hm; unfold zlen in *; [lia|].
    cbn. split; [|rewrite length_app, length_map; lia].
    exists (bands_out st), e. cbn. split_and!; try done.
    + naive_solver.
    + by destruct Hc.
    + apply (cover_next rects e); [done|lia|done|done|]. intros x y Hy.
      rewrite Hcov by done. intuition lia.
    + unfold zlen. rewrite length_app, length_map. lia.
Qed.

(** The loop over the bands between consecutive edges.  Every edge is [e] or
    above, or among those to come. *)
Lemma bands_loop_ok rects edges : forall e st,
  Forall box_nonempty rects -> bands_inv rects e st ->
  StronglySorted Z.lt (e :: edges) ->
  Forall (fun '(_, t, _, b) => (t <= e \/ t ∈ edges) /\ (b <= e \/ b ∈ edges)) rects ->
  match bands_loop rects st (windows2 (e :: edges)) with
  | Ok st' =>
      exists e', bands_inv rects e' st' /\ Forall (fun '(_, t, _, b) => t <= e' /\ b <= e') rects
  | Err _ => MAX_CLIP_RECTS < zlen (bands_out st) + zlen edges * zlen rects
  | Panic => False
  end.
Proof.
  induction edges as [|e2 edges IH]; intros e st Hne Hinv Hs Hed.
  { exists e. split; [done|]. eapply Forall_impl; [|exact Hed]. intros [[[? ?] ?] ?]. set_solver. }
  apply StronglySorted_inv in Hs as [Hs Hlt].
  change (windows2 (e :: e2 :: edges)) with ((e, e2) :: windows2 (e2 :: edges)). cbn [bands_loop].
  assert (clean_band rects e e2) as Hc.
  { split; [by apply Forall_cons_iff in Hlt as [? _]|].
    eapply Forall_impl; [|exact Hed]. intros [[[l t] r] b] [Ht Hb].
    assert (forall v, v ∈ e2 :: edges -> e2 <= v) as Hge.
    { intros v [->|Hv]%elem_of_cons; [lia|]. apply StronglySorted_inv in Hs as [_ Hs].
      eapply list.Forall_forall in Hs; [|done]. lia. }
    pose proof (Hge t). pose proof (Hge b). intuition lia. }
  pose proof (band_step_ok rects e e2 st Hne Hinv Hc) as Hstep.
  destruct (band_step rects st (e, e2)) as [st'|[]|]; cbn [rbind]; [|zlen_solve|done].
  destruct Hstep as [Hinv' Hlen].
  assert (Forall (fun '(_, t, _, b) => (t <= e2 \/ t ∈ edges) /\ (b <= e2 \/ b ∈ edges)) rects) as Hed2.
  { eapply Forall_impl; [|exact Hed]. intros [[[l t] r] b].
    apply Forall_cons_iff in Hlt as [? _]. rewrite !elem_of_cons. intuition lia. }
  specialize (IH e2 st' Hne Hinv' Hs Hed2).
  destruct (bands_loop _ _ _) as [?|?|]; [done| |done]. rewrite zlen_cons. lia.
Qed.

(** ** The union *)

Lemma banded_union_ok rects : Forall box_nonempty rects ->
  match union rects with
  | Ok boxes =>
      StronglySorted box_before boxes /\ Forall box_nonempty boxes /\
      zlen boxes <= MAX_CLIP_RECTS /\
      (forall x y, Exists (fun r => box_covers r x y) boxes <->
         Exists (fun r => box_covers r x y) rects)
  | Err _ => MAX_CLIP_RECTS < zlen rects * (2 * zlen rects - 1)
  | Panic => False
  end.
Proof.
  intros Hne. unfold union, rmap.
  pose proof (union_edges_sorted rects) as Hs. pose proof (length_union_edges rects) as Hl.
  assert (Forall (fun '(_, t, _, b) => t ∈ union_edges rects /\ b ∈ union_edges rects) rects) as Hed.
  { apply list.Forall_forall. intros [[[l t] r] b] Hin.
    rewrite !elem_of_union_edges, !list.Exists_exists. split; eexists; (split; [done|]); cbn; auto. }
  destruct (union_edges rects) as [|e edges].
  { destruct rects as [|[[[l t] r] b] rects]; cbn.
    - split_and!; [constructor|constructor|unfold zlen, MAX_CLIP_RECTS; cbn; lia|done].
    - apply Forall_cons_iff in Hed as [? _]. set_solver. }
  assert (bands_inv rects e (mkBands [] [] [] None)) as Hinv.
  { exists [], (e - 1). cbn. split_and!; try done; try lia; try apply SSorted_nil.
    intros x y Hy. rewrite Exists_nil. split; [done|]. rewrite list.Exists_exists.
    intros ([[[l t] r] b] & Hin & Hc).
    eapply list.Forall_forall in Hed; [|done]. cbn in Hed. destruct Hed as [Ht _].
    apply StronglySorted_inv in Hs as [_ Hlt]. apply elem_of_cons in Ht as [->|Ht]; cbn in Hc; [lia|].
    eapply list.Forall_forall in Hlt; [|done]. lia. }
  pose proof (bands_loop_ok rects edges e _ Hne Hinv Hs) as Hloop.
  assert (Forall (fun '(_, t, _, b) => (t <= e \/ t ∈ edges) /\ (b <= e \/ b ∈ edges)) rects) as Hed'.
  { eapply Forall_impl; [|exact Hed]. intros [[[l t] r] b].
    rewrite !elem_of_cons. intuition lia. }
  specialize (Hloop Hed'). destruct (bands_loop _ _ _) as [st|?|]; cbn; [| |done].
  2:{ cbn in Hl. unfold zlen in *. cbn in Hloop. nia. }
  destruct Hloop as (e' & Hinv' & Hbelow). pose proof (bands_inv_out _ _ _ Hinv') as (Hos & Hon & Hob).
  destruct Hinv' as (_ & _ & _ & _ & _ & _ & _ & _ & _ & _ & _ & Hcov & Hlen).
  split_and!; [done|done|done|]. intros x y. destruct (Z.lt_ge_cases y e'); [by apply Hcov|].
  split; intros Hc; exfalso.
  - by apply (not_covered_below e' (bands_out st) x y).
  - apply (not_covered_below e' rects x y); [|done|done].
    eapply Forall_impl; [|exact Hbelow]. intros [[[? ?] ?] ?]. tauto.
Qed.

(** ** Collecting the distinct rectangles *)

Lemma clamp_ok rect dest c : ltrb_u32 dest -> clamp rect dest = Some c ->
  box_nonempty c /\ forall x y, box_covers c x y <-> box_covers dest x y /\ rect_covers rect x y.
Proof.
  destruct dest as [[[dl dt] dr] db]. unfold clamp, rect_covers. intros (Hl & Ht & Hr & Hb).
  destruct (_ || _) eqn:E; [done|]. rewrite orb_false_iff, !Z.leb_gt in E.
  intros [= <-]. unfold in_unsigned in *. rewrite !as_unsigned_id by (unfold in_unsigned; lia).
  cbn. split; [lia|]. intros x y. lia.
Qed.

Lemma clamp_none rect dest x y : clamp rect dest = None ->
  box_covers dest x y -> ~ rect_covers rect x y.
Proof.
  destruct dest as [[[dl dt] dr] db]. unfold clamp, rect_covers.
  destruct (_ || _) eqn:E; [|done]. rewrite orb_true_iff, !Z.leb_le in E. cbn. lia.
Qed.

Lemma distinct_rects_cons rect rects dest :
  distinct_rects (rect :: rects) dest =
  match clamp rect dest with Some c => {[c]} ∪ distinct_rects rects dest
  | None => distinct_rects rects dest end.
Proof. unfold distinct_rects. cbn. by destruct (clamp rect dest). Qed.

(** The early return does not change the outcome. *)
Lemma distinct_loop_eq dest rects d : Z.of_nat (size d) <= MAX_CLIP_RECTS ->
  distinct_loop dest rects d =
  if MAX_CLIP_RECTS <? Z.of_nat (size (distinct_rects rects dest ∪ d)) then None
  else Some (distinct_rects rects dest ∪ d).
Proof.
  revert d. induction rects as [|rect rects IH]; intros d Hd.
  { cbn. replace (distinct_rects [] dest ∪ d) with d by (cbn; set_solver).
    case_bool; [lia|done]. }
  rewrite distinct_rects_cons. cbn. destruct (clamp rect dest) as [c|]; [|by apply IH].
  replace ({[c]} ∪ distinct_rects rects dest ∪ d)
    with (distinct_rects rects dest ∪ ({[c]} ∪ d)) by set_solver.
  destruct (Z.ltb_spec MAX_CLIP_RECTS (Z.of_nat (size ({[c]} ∪ d)))) as [Hlt|]; [|by apply IH].
  assert (size ({[c]} ∪ d) <= size (distinct_rects rects dest ∪ ({[c]} ∪ d)))%nat
    by (apply subseteq_size; set_solver).
  case_bool; [done|lia].
Qed.

Lemma distinct_rects_ok rects dest : ltrb_u32 dest ->
  Forall box_nonempty (elements (distinct_rects rects dest)) /\
  (forall x y, Exists (fun r => box_covers r x y) (elements (distinct_rects rects dest)) <->
     box_covers dest x y /\ Exists (fun r => rect_covers r x y) rects).
Proof.
  intros Hd.
  assert (forall c, c ∈ elements (distinct_rects rects dest) <->
            exists r, r ∈ rects /\ clamp r dest = Some c) as Hel.
  { intros c. unfold distinct_rects.
    by rewrite elem_of_elements, elem_of_list_to_set, list_elem_of_omap. }
  split.
  - apply list.Forall_forall. intros c (r & _ & Hc)%Hel. by apply (clamp_ok r dest c Hd).
  - intros x y. rewrite !list.Exists_exists. split.
    + intros (c & (r & Hr & Hc)%Hel & Hxy). destruct (clamp_ok r dest c Hd Hc) as [_ Hcov].
      apply Hcov in Hxy as [? ?]. eauto.
    + intros (Hdest & r & Hr & Hxy). destruct (clamp r dest) as [c|] eqn:Hc.
      * exists c. split; [apply Hel; eauto|]. by apply (clamp_ok r dest c Hd Hc).
      * by apply (clamp_none r dest x y) in Hc.
Qed.

Lemma sort_ltrb_perm l : sort_ltrb l ≡ₚ l.
Proof. apply merge_sort_Permutation. Qed.

Lemma clip_area_ok clip dest (Hdest : ltrb_u32 dest) :
  match clip_area clip dest with
  | Ok Whole => Clip_clip_type clip <> clip_type_RECTS
  | Ok (Rects boxes) =>
      Clip_clip_type clip = clip_type_RECTS /\ boxes <> [] /\ zlen boxes <= MAX_CLIP_RECTS /\
      StronglySorted box_before boxes /\ Forall box_nonempty boxes /\
      (forall x y, Exists (fun b => box_covers b x y) boxes <->
         box_covers dest x y /\ Exists (fun r => rect_covers r x y) (Clip_rects clip))
  | Ok Nothing =>
      Clip_clip_type clip = clip_type_RECTS /\
      (forall x y, box_covers dest x y -> ~ Exists (fun r => rect_covers r x y) (Clip_rects clip))
  | Ok (TooComplex sent) =>
      Clip_clip_type clip = clip_type_RECTS /\ sent = zlen (Clip_rects clip) /\
      let k := Z.of_nat (size (distinct_rects (Clip_rects clip) dest)) in
      MAX_CLIP_RECTS < k * (2 * k - 1)
  | Err _ | Panic => False
  end.
Proof.
  unfold clip_area. destruct (Z.eqb_spec (Clip_clip_type clip) clip_type_RECTS) as [Ht|]; [|done].
  cbn [negb]. rewrite distinct_loop_eq, union_empty_r_L by done.
  destruct (distinct_rects_ok (Clip_rects clip) dest Hdest) as [Hne Hcov].
  set (d := distinct_rects (Clip_rects clip) dest) in *.
  destruct (Z.ltb_spec MAX_CLIP_RECTS (Z.of_nat (size d))).
  { split_and!; [done|done|]. unfold MAX_CLIP_RECTS in *. nia. }
  destruct (bool_decide (d = ∅)) eqn:Ed.
  { apply bool_decide_eq_true in Ed. rewrite Ed, elements_empty in Hcov. split; [done|].
    intros x y Hd Hx. pose proof (proj2 (Hcov x y) (conj Hd Hx)) as He. inversion He. }
  apply bool_decide_eq_false in Ed.
  assert (Forall box_nonempty (sort_ltrb (elements d))) as Hne' by (by rewrite sort_ltrb_perm).
  pose proof (banded_union_ok _ Hne') as Hu. destruct (union _) as [boxes|[]|]; [| |done].
  2:{ split_and!; [done|done|]. unfold zlen in Hu. rewrite sort_ltrb_perm in Hu. exact Hu. }
  destruct Hu as (Hs & Hn & Hl & Hc). split_and!; try done.
  - intros ->. apply Ed, leibniz_equiv, elements_empty_inv.
    setoid_rewrite sort_ltrb_perm in Hc. destruct (elements d) as [|[[[l t] r] b] ds]; [done|].
    apply Forall_cons_iff in Hne as [[? ?] _].
    assert (Exists (fun r0 => box_covers r0 l t) []) as He; [|inversion He].
    apply (Hc l t). constructor. cbn. lia.
  - intros x y. rewrite Hc, sort_ltrb_perm. apply Hcov.
Qed.

(** * Properties *)

(** C38: [clip_area] never panics, and reduces a RECTS clip to what it should:
    rectangles in drawing order, none empty, no two sharing a pixel, no more
    than [MAX_CLIP_RECTS], which cover exactly the pixels of the destination
    that some listed rectangle covers; [Nothing] exactly when there are none.
    [TooComplex] needs k distinct clamped rectangles with k (2k - 1) above the
    limit: repeats cost nothing, and up to 22 distinct ones are never refused. *)
Theorem clip_area_correct clip dest (Hdest : ltrb_u32 dest) :
  match clip_area clip dest with
  | Ok Whole => Clip_clip_type clip <> clip_type_RECTS
  | Ok (Rects boxes) =>
      Clip_clip_type clip = clip_type_RECTS /\ boxes <> [] /\ zlen boxes <= MAX_CLIP_RECTS /\
      StronglySorted box_before boxes /\ Forall box_nonempty boxes /\
      (forall x y, Exists (fun b => box_covers b x y) boxes <->
         box_covers dest x y /\ Exists (fun r => rect_covers r x y) (Clip_rects clip))
  | Ok Nothing =>
      Clip_clip_type clip = clip_type_RECTS /\
      (forall x y, box_covers dest x y -> ~ Exists (fun r => rect_covers r x y) (Clip_rects clip))
  | Ok (TooComplex sent) =>
      Clip_clip_type clip = clip_type_RECTS /\ sent = zlen (Clip_rects clip) /\
      let k := Z.of_nat (size (distinct_rects (Clip_rects clip) dest)) in
      MAX_CLIP_RECTS < k * (2 * k - 1)
  | Err _ | Panic => False
  end.
Proof. exact (clip_area_ok clip dest Hdest). Qed.

Lemma clip_area_correct_witness :
  clip_area (Clip_of_rects [mkRect 0 0 4 4; mkRect 2 2 6 6; mkRect 0 0 4 4]) (0, 0, 5, 5) =
    Ok (Rects [(0, 0, 4, 2); (0, 2, 5, 4); (2, 4, 5, 5)]) /\
  (box_covers (0, 0, 5, 5) 4 4 /\
     Exists (fun r => rect_covers r 4 4) [mkRect 0 0 4 4; mkRect 2 2 6 6; mkRect 0 0 4 4] ->
   Exists (fun b => box_covers b 4 4) [(0, 0, 4, 2); (0, 2, 5, 4); (2, 4, 5, 5)]).
Proof.
  assert (clip_area (Clip_of_rects [mkRect 0 0 4 4; mkRect 2 2 6 6; mkRect 0 0 4 4]) (0, 0, 5, 5) =
    Ok (Rects [(0, 0, 4, 2); (0, 2, 5, 4); (2, 4, 5, 5)])) as E by (vm_compute; reflexivity).
  split; [exact E|].
  pose proof (clip_area_correct (Clip_of_rects [mkRect 0 0 4 4; mkRect 2 2 6 6; mkRect 0 0 4 4])
    (0, 0, 5, 5)) as H.
  rewrite E in H. apply H. unfold ltrb_u32, in_unsigned. lia.
Defined.
