(* ===== verification/Surface.v ===== *)
(** Display surfaces: [shakenfist-spice-renderer/src/display/surface.rs].

    A [DisplaySurface] is an RGBA pixel buffer with a dirty flag and the damage
    region of [Damage].  Every draw is specified by what it does to the image,
    and by the damage it must report. *)
From Stdlib Require Import ZArith Lia.
From stdpp Require Import base numbers list tactics.
From S2P Require Import Prelude Damage.

Open Scope Z_scope.
Open Scope rust_scope.

(** * Loops and arithmetic *)

(** [for i in a..b] over a state; [None] is a panic in the body. *)
Fixpoint for_n {St} (n : nat) (i : Z) (body : Z -> St -> option St) (s : St) : option St :=
  match n with
  | O => Some s
  | S n => s ← body i s; for_n n (i + 1) body s
  end.

Definition for_range {St} (a b : Z) (body : Z -> St -> option St) (s : St) : option St :=
  for_n (Z.to_nat (b - a)) a body s.

(** The same with [break], which is [inr]. *)
Fixpoint for_n_break {St} (n : nat) (i : Z) (body : Z -> St -> option (St + St)) (s : St)
    : option St :=
  match n with
  | O => Some s
  | S n =>
      r ← body i s;
      match r with
      | inl s => for_n_break n (i + 1) body s
      | inr s => Some s
      end
  end.

(** Unsigned arithmetic at width [w]: [None] is the overflow panic of a debug
    build. *)
Definition no_overflow (w x : Z) : option Z := if (0 <=? x) && (x <? 2 ^ w) then Some x else None.
Definition u32_add (a b : Z) : option Z := no_overflow 32 (a + b).
Definition u32_mul (a b : Z) : option Z := no_overflow 32 (a * b).

(** [l[i] = v]: [None] is the out-of-range panic. *)
Definition set_at {A} (l : list A) (i : Z) (v : A) : option (list A) :=
  if (0 <=? i) && (i <? zlen l) then Some (<[Z.to_nat i := v]> l) else None.

(** * Surfaces *)

(** The shared per-side decode limit of [limits.rs]. *)
Definition MAX_SURFACE_DIMENSION : Z := 16384.

Record DisplaySurface : Type := mkDisplaySurface {
  ds_id : Z;
  ds_width : Z;
  ds_height : Z;
  ds_pixels : list Z;
  ds_dirty : bool;
  ds_damage : DamageRegion
}.

Definition with_pixels (self : DisplaySurface) (pixels : list Z) : DisplaySurface :=
  mkDisplaySurface (ds_id self) (ds_width self) (ds_height self) pixels (ds_dirty self)
    (ds_damage self).

Definition set_dirty (self : DisplaySurface) (dirty : bool) : DisplaySurface :=
  mkDisplaySurface (ds_id self) (ds_width self) (ds_height self) (ds_pixels self) dirty
    (ds_damage self).

(** [self.damage.add(DamageRect::new(...))] *)
Definition add_damage (self : DisplaySurface) (left top right bottom : Z)
    : option DisplaySurface :=
  damage ← region_add (ds_damage self) (mkDamageRect left top right bottom);
  Some (mkDisplaySurface (ds_id self) (ds_width self) (ds_height self) (ds_pixels self)
    (ds_dirty self) damage).

Definition ds_new (id width height : Z) : option DisplaySurface :=
  let '(width, height) :=
    if (MAX_SURFACE_DIMENSION <? width) || (MAX_SURFACE_DIMENSION <? height)
    then (Z.min width MAX_SURFACE_DIMENSION, Z.min height MAX_SURFACE_DIMENSION)
    else (width, height) in
  let num_pixels := width * height in
  let pixels := concat (replicate (Z.to_nat num_pixels) [0; 0; 0; 255]) in
  damage ← region_full width height;
  Some (mkDisplaySurface id width height pixels true damage).

(** ** Drawing images *)

(** One row of [blit]. *)
Definition blit_row (pixels : list Z) (self_height top src_stride dst_stride dst_left copy_width y : Z)
    (px : list Z) : option (list Z + list Z) :=
  let dst_y := top + y in
  if self_height <=? dst_y then Some (inr px)
  else
    let src_start := y * src_stride in
    let dst_start := dst_y * dst_stride + dst_left in
    if (src_start + copy_width <=? zlen pixels) && (dst_start + copy_width <=? zlen px) then
      row ← slice pixels src_start (src_start + copy_width);
      px ← copy_from_slice px dst_start row;
      Some (inl px)
    else Some (inl px).

Definition blit (self : DisplaySurface) (left top width height : Z) (pixels : list Z)
    : option DisplaySurface :=
  if (ds_width self <=? left) || (ds_height self <=? top) then Some self
  else
    let src_stride := width * 4 in
    let dst_stride := ds_width self * 4 in
    let dst_left := left * 4 in
    let copy_width := Z.min src_stride (saturating_sub dst_stride dst_left) in
    px ← for_n_break (Z.to_nat height) 0
      (blit_row pixels (ds_height self) top src_stride dst_stride dst_left copy_width)
      (ds_pixels self);
    right ← u32_add left (as_unsigned 32 (copy_width / 4));
    let bottom := Z.min (saturating_add_u32 top height) (ds_height self) in
    self ← add_damage (with_pixels self px) left top right bottom;
    Some (set_dirty self true).

(** Four bytes of one pixel. *)
Definition put_pixel (px : list Z) (p : Z) (colour : Z * Z * Z * Z) : option (list Z) :=
  let '(r, g, b, a) := colour in
  px ← set_at px p r;
  px ← set_at px (p + 1) g;
  px ← set_at px (p + 2) b;
  set_at px (p + 3) a.

Definition get_pixel (px : list Z) (p : Z) : option (Z * Z * Z * Z) :=
  r ← index px p;
  g ← index px (p + 1);
  b ← index px (p + 2);
  a ← index px (p + 3);
  Some (r, g, b, a).

(** One source pixel of [blit_chroma]; the state is the buffer and [wrote]. *)
Definition chroma_pixel (pixels : list Z) (chroma_rgba : Z * Z * Z * Z) (src_row dst_row x : Z)
    (st : list Z * bool) : option ((list Z * bool) + (list Z * bool)) :=
  let '(cr, cg, cb, _) := chroma_rgba in
  let '(px, wrote) := st in
  let sp := src_row + x * 4 in
  if zlen pixels <? sp + 4 then Some (inr st)
  else
    s ← get_pixel pixels sp;
    let '(sr, sg, sb, sa) := s in
    if (sr =? cr) && (sg =? cg) && (sb =? cb) then Some (inl st)
    else
      px ← put_pixel px (dst_row + x * 4) (sr, sg, sb, sa);
      Some (inl (px, true)).

Definition blit_chroma (self : DisplaySurface) (left top width height : Z) (pixels : list Z)
    (chroma_rgba : Z * Z * Z * Z) : option DisplaySurface :=
  if (ds_width self <=? left) || (ds_height self <=? top) then Some self
  else if (width =? 0) || (height =? 0) then Some self
  else
    let clip_w := Z.min width (ds_width self - left) in
    let clip_h := Z.min height (ds_height self - top) in
    if (clip_w =? 0) || (clip_h =? 0) then Some self
    else
      let src_stride := width * 4 in
      let dst_stride := ds_width self * 4 in
      r ← for_range 0 clip_h (fun y st =>
        let src_row := y * src_stride in
        let dst_row := (top + y) * dst_stride + left * 4 in
        for_n_break (Z.to_nat clip_w) 0 (chroma_pixel pixels chroma_rgba src_row dst_row) st)
        (ds_pixels self, false);
      let '(px, wrote) := r in
      if (wrote : bool) then
        right ← u32_add left clip_w;
        bottom ← u32_add top clip_h;
        self ← add_damage (with_pixels self px) left top right bottom;
        Some (set_dirty self true)
      else Some (with_pixels self px).

(** One channel of the blend, in [u16]. *)
Definition blend (s d effective_a inv_a : Z) : option Z :=
  m ← no_overflow 16 (s * effective_a);
  n ← no_overflow 16 (d * inv_a);
  sum ← no_overflow 16 (m + n);
  sum ← no_overflow 16 (sum + 127);
  Some (as_unsigned 8 (sum / 255)).

Definition alpha_pixel (pixels : list Z) (alpha : Z) (src_row dst_row x : Z) (px : list Z)
    : option (list Z + list Z) :=
  let sp := src_row + x * 4 in
  if zlen pixels <? sp + 4 then Some (inr px)
  else
    s ← get_pixel pixels sp;
    let '(sr, sg, sb, sa) := s in
    m ← no_overflow 16 (sa * alpha);
    m ← no_overflow 16 (m + 127);
    let effective_a := m / 255 in
    inv_a ← no_overflow 16 (255 - effective_a);
    let dp := dst_row + x * 4 in
    dr ← index px dp;
    dg ← index px (dp + 1);
    db ← index px (dp + 2);
    out_r ← blend sr dr effective_a inv_a;
    out_g ← blend sg dg effective_a inv_a;
    out_b ← blend sb db effective_a inv_a;
    px ← put_pixel px dp (out_r, out_g, out_b, 255);
    Some (inl px).

Definition blit_alpha (self : DisplaySurface) (left top width height : Z) (pixels : list Z)
    (alpha : Z) : option DisplaySurface :=
  if (ds_width self <=? left) || (ds_height self <=? top) then Some self
  else if (width =? 0) || (height =? 0) || (alpha =? 0) then Some self
  else
    let clip_w := Z.min width (ds_width self - left) in
    let clip_h := Z.min height (ds_height self - top) in
    if (clip_w =? 0) || (clip_h =? 0) then Some self
    else
      let src_stride := width * 4 in
      let dst_stride := ds_width self * 4 in
      px ← for_range 0 clip_h (fun y px =>
        let src_row := y * src_stride in
        let dst_row := (top + y) * dst_stride + left * 4 in
        for_n_break (Z.to_nat clip_w) 0 (alpha_pixel pixels alpha src_row dst_row) px)
        (ds_pixels self);
      right ← u32_add left clip_w;
      bottom ← u32_add top clip_h;
      self ← add_damage (with_pixels self px) left top right bottom;
      Some (set_dirty self true).

(** ** Drawing rectangles *)

Definition clip_to_bounds (width height left top right bottom : Z) : option (Z * Z * Z * Z) :=
  let l := Z.min left width in
  let t := Z.min top height in
  let r := Z.min right width in
  let b := Z.min bottom height in
  if (r <=? l) || (b <=? t) then None else Some (l, t, r, b).

Definition fill_subrect (colour : Z * Z * Z * Z) (left top right bottom : Z)
    (self : DisplaySurface) : option DisplaySurface :=
  stride ← u32_mul (ds_width self) 4;
  px ← for_range top bottom (fun y px =>
    let row_start := y * stride in
    for_range left right (fun x px =>
      let p := row_start + x * 4 in
      put_pixel px p colour) px) (ds_pixels self);
  Some (with_pixels self px).

Definition invert_pixel (px : list Z) (p : Z) : option (list Z) :=
  r ← index px p;
  px ← set_at px p (255 - r);
  g ← index px (p + 1);
  px ← set_at px (p + 1) (255 - g);
  b ← index px (p + 2);
  set_at px (p + 2) (255 - b).

Definition invert_subrect (left top right bottom : Z) (self : DisplaySurface)
    : option DisplaySurface :=
  stride ← u32_mul (ds_width self) 4;
  px ← for_range top bottom (fun y px =>
    let row_start := y * stride in
    for_range left right (fun x px => invert_pixel px (row_start + x * 4)) px)
    (ds_pixels self);
  Some (with_pixels self px).

Definition copy_subrect (sx sy dl dt dr db : Z) (self : DisplaySurface)
    : option DisplaySurface :=
  stride ← u32_mul (ds_width self) 4;
  let w := dr - dl in
  let h := db - dt in
  let row_bytes := w * 4 in
  scratch ← for_range 0 h (fun row scratch =>
    let src_row_start := (sy + row) * stride + sx * 4 in
    let scratch_start := row * row_bytes in
    src ← slice (ds_pixels self) src_row_start (src_row_start + row_bytes);
    copy_from_slice scratch scratch_start src) (replicate (Z.to_nat (row_bytes * h)) 0);
  px ← for_range 0 h (fun row px =>
    let dst_row_start := (dt + row) * stride + dl * 4 in
    let scratch_start := row * row_bytes in
    src ← slice scratch scratch_start (scratch_start + row_bytes);
    copy_from_slice px dst_row_start src) (ds_pixels self);
  Some (with_pixels self px).

(** The loop over the clip, which [fill_rect], [copy_bits] and [invert_rect]
    share up to the sub-rectangle they draw. *)
Fixpoint clip_loop (sub : Z -> Z -> Z -> Z -> DisplaySurface -> option DisplaySurface)
    (l t r b : Z) (clip : list (Z * Z * Z * Z)) (self : DisplaySurface) (wrote : bool)
    : option (DisplaySurface * bool) :=
  match clip with
  | [] => Some (self, wrote)
  | (cl, ct, cr, cb) :: clip =>
      let il := Z.max l cl in
      let it := Z.max t ct in
      let ir := Z.min r cr in
      let ib := Z.min b cb in
      if (ir <=? il) || (ib <=? it) then clip_loop sub l t r b clip self wrote
      else
        self ← sub il it ir ib self;
        self ← add_damage self il it ir ib;
        clip_loop sub l t r b clip self true
  end.

(** The end of the three operations, from the bounded rectangle on. *)
Definition draw_clipped (sub : Z -> Z -> Z -> Z -> DisplaySurface -> option DisplaySurface)
    (l t r b : Z) (clip : list (Z * Z * Z * Z)) (self : DisplaySurface)
    : option DisplaySurface :=
  res ←
    match clip with
    | [] =>
        self ← sub l t r b self;
        self ← add_damage self l t r b;
        Some (self, true)
    | _ => clip_loop sub l t r b clip self false
    end;
  let '(self, wrote) := res in
  Some (if wrote : bool then set_dirty self true else self).

Definition fill_rect (self : DisplaySurface) (left top right bottom : Z)
    (colour : Z * Z * Z * Z) (clip : list (Z * Z * Z * Z)) : option DisplaySurface :=
  match clip_to_bounds (ds_width self) (ds_height self) left top right bottom with
  | None => Some self
  | Some (l, t, r, b) => draw_clipped (fill_subrect colour) l t r b clip self
  end.

Definition invert_rect (self : DisplaySurface) (left top right bottom : Z)
    (clip : list (Z * Z * Z * Z)) : option DisplaySurface :=
  match clip_to_bounds (ds_width self) (ds_height self) left top right bottom with
  | None => Some self
  | Some (l, t, r, b) => draw_clipped invert_subrect l t r b clip self
  end.

(** An edge of the destination, pulled back by what the source overhangs;
    [None] is the early return. *)
Definition shrink (d_lo d_hi src_hi limit : Z) : option Z :=
  if limit <? src_hi then
    let overflow := src_hi - limit in
    if d_hi - d_lo <=? overflow then None else Some (d_hi - overflow)
  else Some d_hi.

(** The source moves with the part of the destination that is drawn. *)
Definition copy_shifted (sx sy dl dt il it ir ib : Z) (self : DisplaySurface)
    : option DisplaySurface :=
  ssx ← u32_add sx (il - dl);
  ssy ← u32_add sy (it - dt);
  copy_subrect ssx ssy il it ir ib self.

Definition copy_bits (self : DisplaySurface)
    (src_x src_y dest_left dest_top dest_right dest_bottom : Z)
    (clip : list (Z * Z * Z * Z)) : option DisplaySurface :=
  if (dest_right <=? dest_left) || (dest_bottom <=? dest_top) then Some self
  else
    let dl := dest_left in
    let dt := dest_top in
    let sx := src_x in
    let sy := src_y in
    let w := ds_width self in
    let h := ds_height self in
    let dr := if w <? dest_right then w else dest_right in
    let db := if h <? dest_bottom then h else dest_bottom in
    if (dr <=? dl) || (db <=? dt) then Some self
    else if (w <=? sx) || (h <=? sy) then Some self
    else
      let src_r := saturating_add_u32 sx (dr - dl) in
      let src_b := saturating_add_u32 sy (db - dt) in
      match shrink dl dr src_r w with
      | None => Some self
      | Some dr =>
          match shrink dt db src_b h with
          | None => Some self
          | Some db =>
              if (dr <=? dl) || (db <=? dt) then Some self
              else draw_clipped (copy_shifted sx sy dl dt) dl dt dr db clip self
          end
      end.

(** ** Reading the state *)

Definition ds_size (self : DisplaySurface) : Z * Z := (ds_width self, ds_height self).

Definition is_dirty (self : DisplaySurface) : bool := ds_dirty self.

Definition consume_dirty (self : DisplaySurface) : DisplaySurface * bool :=
  (set_dirty self false, ds_dirty self).

Definition take_damage (self : DisplaySurface) : DisplaySurface * DamageRegion :=
  (mkDisplaySurface (ds_id self) (ds_width self) (ds_height self) (ds_pixels self)
     (ds_dirty self) region_new, ds_damage self).

Definition mark_all_damaged (self : DisplaySurface) : option DisplaySurface :=
  damage ← region_full (ds_width self) (ds_height self);
  Some (mkDisplaySurface (ds_id self) (ds_width self) (ds_height self) (ds_pixels self)
    true damage).

(** * Specification

    A surface shows an image, and a draw transforms it. *)

Abbreviation rgba := (Z * Z * Z * Z)%type.

Definition byte_at (px : list Z) (k : Z) : Z := default 0 (px !! Z.to_nat k).

(** Pixel number [i] of a buffer. *)
Definition pixel_at (px : list Z) (i : Z) : rgba :=
  (byte_at px (4 * i), byte_at px (4 * i + 1), byte_at px (4 * i + 2), byte_at px (4 * i + 3)).

Abbreviation image := (Z -> Z -> rgba).

Definition shows (self : DisplaySurface) : image :=
  fun x y => pixel_at (ds_pixels self) (y * ds_width self + x).

Definition surface_ok (self : DisplaySurface) : Prop :=
  0 <= ds_width self <= MAX_SURFACE_DIMENSION /\
  0 <= ds_height self <= MAX_SURFACE_DIMENSION /\
  zlen (ds_pixels self) = 4 * (ds_height self * ds_width self) /\
  bytes (ds_pixels self) /\
  region_ok (ds_damage self).

Definition on_surface (self : DisplaySurface) (x y : Z) : Prop :=
  0 <= x < ds_width self /\ 0 <= y < ds_height self.

Definition in_rectb (r : DamageRect) (x y : Z) : bool :=
  (dr_left r <=? x) && (x <? dr_right r) && (dr_top r <=? y) && (y <? dr_bottom r).

(** ** Lemmas on bytes and pixels *)

Lemma byte_at_index px k : 0 <= k < zlen px -> index px k = Some (byte_at px k).
Proof.
  intros Hk. rewrite index_lookup by done. unfold byte_at.
  destruct (px !! Z.to_nat k) eqn:E; [done|]. apply lookup_ge_None in E. unfold zlen in Hk. lia.
Qed.

Lemma byte_at_u8 px k : bytes px -> u8 (byte_at px k).
Proof.
  intros Hb. unfold byte_at. destruct (px !! _) eqn:E; cbn; [|unfold in_unsigned; lia].
  by eapply Forall_lookup_1.
Qed.

Lemma set_at_ok px k v : 0 <= k < zlen px -> bytes px -> u8 v ->
  exists px', set_at px k v = Some px' /\ zlen px' = zlen px /\ bytes px' /\
    forall j, 0 <= j -> byte_at px' j = if j =? k then v else byte_at px j.
Proof.
  intros Hk Hb Hv. unfold set_at.
  rewrite (proj2 (Z.leb_le _ _)), (proj2 (Z.ltb_lt _ _)) by lia. eexists. split; [done|].
  split_and!; [by rewrite zlen_insert|by apply Forall_insert|].
  intros j Hj. unfold byte_at. destruct (Z.eqb_spec j k) as [->|].
  - by rewrite list_lookup_insert_eq by (unfold zlen in Hk; lia).
  - by rewrite list_lookup_insert_ne by lia.
Qed.

(** [px'] is [px] with [f] applied to the pixels in [R]. *)
Definition upd (px px' : list Z) (R : Z -> Prop) (f : Z -> rgba -> rgba) : Prop :=
  zlen px' = zlen px /\ bytes px' /\
  forall i, 0 <= i ->
    (R i -> pixel_at px' i = f i (pixel_at px i)) /\ (~ R i -> pixel_at px' i = pixel_at px i).

Lemma put_pixel_upd px i c f :
  0 <= i -> 4 * i + 4 <= zlen px -> bytes px ->
  (let '(r, g, b, a) := c in u8 r /\ u8 g /\ u8 b /\ u8 a) ->
  f i (pixel_at px i) = c ->
  exists px', put_pixel px (4 * i) c = Some px' /\ upd px px' (fun j => j = i) f.
Proof.
  intros Hi Hlen Hb Hc Hf. destruct c as [[[r g] b] a]. destruct Hc as (Hr & Hg & Hbl & Ha).
  unfold put_pixel.
  destruct (set_at_ok px (4 * i) r) as (px1 & -> & Hl1 & Hb1 & H1); [lia|done|done|]. cbn.
  destruct (set_at_ok px1 (4 * i + 1) g) as (px2 & -> & Hl2 & Hb2 & H2); [lia|done|done|]. cbn.
  destruct (set_at_ok px2 (4 * i + 2) b) as (px3 & -> & Hl3 & Hb3 & H3); [lia|done|done|]. cbn.
  destruct (set_at_ok px3 (4 * i + 3) a) as (px4 & -> & Hl4 & Hb4 & H4); [lia|done|done|].
  exists px4. split; [done|]. split_and!; [lia|done|]. intros j Hj.
  assert (forall k, 0 <= k -> byte_at px4 k =
    if k =? 4 * i + 3 then a else if k =? 4 * i + 2 then b
    else if k =? 4 * i + 1 then g else if k =? 4 * i then r else byte_at px k) as Hk.
  { intros k Hk. by rewrite H4, H3, H2, H1 by done. }
  unfold pixel_at. rewrite !Hk by lia. split.
  - intros ->. fold (pixel_at px i). rewrite Hf. repeat (case_bool; try lia). done.
  - intros Hne. repeat (case_bool; try lia). done.
Qed.

Definition inverted (c : rgba) : rgba := let '(r, g, b, a) := c in (255 - r, 255 - g, 255 - b, a).

Lemma invert_pixel_upd px i : 0 <= i -> 4 * i + 4 <= zlen px -> bytes px ->
  exists px', invert_pixel px (4 * i) = Some px' /\ upd px px' (fun j => j = i) (fun _ => inverted).
Proof.
  intros Hi Hlen Hb. unfold invert_pixel.
  assert (forall k, u8 (255 - byte_at px k)) as Hu.
  { intros k. pose proof (byte_at_u8 px k Hb). unfold in_unsigned in *. lia. }
  rewrite byte_at_index by lia. cbn.
  destruct (set_at_ok px (4 * i) (255 - byte_at px (4 * i))) as (px1 & -> & Hl1 & Hb1 & H1);
    [lia|done|apply Hu|]. cbn.
  rewrite byte_at_index, H1 by lia. rewrite (proj2 (Z.eqb_neq _ _)) by lia. cbn.
  destruct (set_at_ok px1 (4 * i + 1) (255 - byte_at px (4 * i + 1)))
    as (px2 & -> & Hl2 & Hb2 & H2); [lia|done|apply Hu|]. cbn.
  rewrite byte_at_index, H2, H1 by lia. rewrite !(proj2 (Z.eqb_neq _ _)) by lia. cbn.
  destruct (set_at_ok px2 (4 * i + 2) (255 - byte_at px (4 * i + 2)))
    as (px3 & -> & Hl3 & Hb3 & H3); [lia|done|apply Hu|].
  exists px3. split; [done|]. split_and!; [lia|done|]. intros j Hj. unfold pixel_at.
  rewrite !H3, !H2, !H1 by lia. split.
  - intros ->. repeat (case_bool; try lia). done.
  - intros Hne. repeat (case_bool; try lia). done.
Qed.

Lemma byte_at_copy px at' src : 0 <= at' -> at' + zlen src <= zlen px ->
  exists px', copy_from_slice px at' src = Some px' /\ zlen px' = zlen px /\
    (bytes px -> bytes src -> bytes px') /\
    forall k, 0 <= k -> byte_at px' k =
      if (at' <=? k) && (k <? at' + zlen src) then byte_at src (k - at') else byte_at px k.
Proof.
  intros Ha Hl. pose proof (zlen_nonneg src). unfold copy_from_slice.
  rewrite !(proj2 (Z.leb_le _ _)) by lia. eexists. split; [done|]. split_and!.
  - rewrite !zlen_app, zlen_take, zlen_drop. lia.
  - intros Hp Hs. rewrite !Forall_app. split_and!; [by apply Forall_take|done|by apply Forall_drop].
  - intros k Hk. unfold byte_at. assert (length (take (Z.to_nat at') px) = Z.to_nat at') as Ht.
    { rewrite length_take. unfold zlen in *. lia. }
    destruct (Z.leb_spec at' k); cbn [andb].
    + rewrite lookup_app_r by lia. rewrite Ht.
      destruct (Z.ltb_spec k (at' + zlen src)).
      * rewrite lookup_app_l by (unfold zlen in *; lia). do 2 f_equal. lia.
      * rewrite lookup_app_r by (unfold zlen in *; lia). rewrite lookup_drop. do 2 f_equal.
        unfold zlen in *. lia.
    + rewrite lookup_app_l by lia. rewrite lookup_take_lt by lia. done.
Qed.

Lemma byte_at_slice l a b s k : slice l a b = Some s -> 0 <= k < b - a ->
  byte_at s k = byte_at l (a + k).
Proof.
  unfold slice. destruct (_ && _) eqn:E; [|done]. rewrite !andb_true_iff, !Z.leb_le in E.
  intros [= <-] Hk. unfold byte_at. rewrite lookup_take_lt by lia. rewrite lookup_drop.
  do 2 f_equal. lia.
Qed.

Lemma slice_ok {A} (l : list A) a b : 0 <= a <= b -> b <= zlen l ->
  exists s, slice l a b = Some s /\ zlen s = b - a.
Proof.
  intros Hab Hb. pose proof (slice_Some l a b Hab Hb) as E. eexists. split; [done|].
  by apply slice_length in E.
Qed.

(** A row of [n] pixels of [src], from pixel [j'], copied to pixel [j]. *)
Lemma copy_row_upd px src j j' n :
  0 <= j -> 0 <= j' -> 0 <= n -> 4 * (j + n) <= zlen px -> 4 * (j' + n) <= zlen src ->
  bytes px -> bytes src ->
  exists row px', slice src (4 * j') (4 * j' + 4 * n) = Some row /\
    copy_from_slice px (4 * j) row = Some px' /\
    upd px px' (fun i => j <= i < j + n) (fun i _ => pixel_at src (i - j + j')).
Proof.
  intros Hj Hj' Hn Hp Hs Hb Hbs.
  destruct (slice_ok src (4 * j') (4 * j' + 4 * n)) as (row & Hrow & Hlr); [lia|lia|].
  destruct (byte_at_copy px (4 * j) row) as (px' & Hc & Hl & Hbb & Hk); [lia|lia|].
  exists row, px'. split; [done|]. split; [done|]. split; [done|]. split.
  { apply Hbb; [done|]. by eapply slice_Forall. }
  intros i Hi. unfold pixel_at. rewrite !Hk, !Hlr by lia. split; intros HR.
  - rewrite !(proj2 (Z.leb_le _ _)), !(proj2 (Z.ltb_lt _ _)) by lia. cbn [andb].
    rewrite !(byte_at_slice _ _ _ _ _ Hrow) by lia. f_equal; [f_equal; [f_equal|]|]; f_equal; lia.
  - assert (forall c, 0 <= c <= 3 ->
      (4 * j <=? 4 * i + c) && (4 * i + c <? 4 * j + (4 * j' + 4 * n - 4 * j')) = false) as Hf.
    { intros c Hc'. apply andb_false_iff. rewrite Z.leb_gt, Z.ltb_ge. lia. }
    pose proof (Hf 0) as H0. rewrite Z.add_0_r in H0. by rewrite H0, !Hf by lia.
Qed.

(** ** Loops whose rounds draw different pixels *)

Lemma upd_refl px R f : bytes px -> (forall i, ~ R i) -> upd px px R f.
Proof. intros Hb HR. split_and!; [done|done|]. intros i _. by split; [intros ?%HR|]. Qed.

Lemma upd_seq px px1 px2 R1 R2 f :
  upd px px1 R1 f -> upd px1 px2 R2 f -> (forall i, R1 i -> R2 i -> False) ->
  upd px px2 (fun i => R1 i \/ R2 i) f.
Proof.
  intros (Hl1 & Hb1 & H1) (Hl2 & Hb2 & H2) Hd. split_and!; [lia|done|]. intros i Hi.
  destruct (H1 i Hi) as [Hy1 Hn1], (H2 i Hi) as [Hy2 Hn2]. split.
  - intros [HR|HR].
    + rewrite Hn2 by eauto. by apply Hy1.
    + rewrite Hy2 by done. by rewrite Hn1 by eauto.
  - intros HR. rewrite Hn2 by tauto. apply Hn1. tauto.
Qed.

Lemma upd_iff px px' R R' f f' :
  (forall i, 0 <= i -> R i <-> R' i) -> (forall i c, 0 <= i -> R i -> f i c = f' i c) ->
  upd px px' R f -> upd px px' R' f'.
Proof.
  intros HR Hf (Hl & Hb & H). split_and!; [done|done|]. intros i Hi. destruct (H i Hi) as [Hy Hn].
  rewrite <- (HR i Hi). split; [|done]. intros ?. rewrite <- Hf by done. auto.
Qed.

(** The loops thread a state that holds the buffer, and possibly more: [Q]
    relates it before and after. *)
Section loops.
Context {St : Type} (pr : St -> list Z) (Q : St -> St -> Prop).
Context `{Q_refl : !Reflexive Q} `{Q_trans : !Transitive Q}.
Context (R : Z -> Z -> Prop) (f : Z -> rgba -> rgba) (N : Z).
Hypothesis R_inj : forall k k' i, R k i -> R k' i -> k = k'.

Lemma upd_step (px px1 px2 : list Z) a hi : a < hi ->
  upd px px1 (R a) f -> upd px1 px2 (fun i => exists k, a + 1 <= k < hi /\ R k i) f ->
  upd px px2 (fun i => exists k, a <= k < hi /\ R k i) f.
Proof using R_inj.
  intros Ha H1 H2. eapply upd_iff; [| |eapply (upd_seq _ _ _ _ _ _ H1 H2)]; [|done|].
  - intros i _. split.
    + intros [?|(k & ? & ?)]; [exists a|exists k]; (split; [lia|done]).
    + intros (k & ? & ?). destruct (decide (k = a)) as [->|]; [by left|right; exists k]. split; [lia|done].
  - cbn. intros i Hi (k & ? & Hk). pose proof (R_inj _ _ _ Hi Hk). lia.
Qed.

Lemma for_n_upd n : forall a body st,
  (forall k st, a <= k < a + Z.of_nat n -> zlen (pr st) = N -> bytes (pr st) ->
     exists st', body k st = Some st' /\ upd (pr st) (pr st') (R k) f /\ Q st st') ->
  zlen (pr st) = N -> bytes (pr st) ->
  exists st', for_n n a body st = Some st' /\
    upd (pr st) (pr st') (fun i => exists k, a <= k < a + Z.of_nat n /\ R k i) f /\ Q st st'.
Proof using R_inj Q_refl Q_trans.
  induction n as [|n IH]; intros a body st Hbody Hl Hb; cbn.
  { exists st. split; [done|]. split; [|reflexivity]. apply upd_refl; [done|]. intros i (k & ? & _). lia. }
  destruct (Hbody a st) as (st1 & -> & Hu1 & HQ1); [lia|done|done|]. cbn.
  destruct (IH (a + 1) body st1) as (st2 & -> & Hu2 & HQ2).
  - intros k st' Hk. apply Hbody. lia.
  - destruct Hu1 as [-> _]. done.
  - by destruct Hu1 as (_ & ? & _).
  - exists st2. split; [done|]. split; [|by transitivity st1].
    apply (upd_step _ (pr st1)); [lia|done|].
    eapply upd_iff; [| |exact Hu2]; [|done]. intros i _. split; intros (k & ? & ?); exists k; (split; [lia|done]).
Qed.

(** The body breaks from round [K] on. *)
Lemma for_n_break_upd K n : forall a body st,
  (forall k st, a <= k < a + Z.of_nat n -> k < K -> zlen (pr st) = N -> bytes (pr st) ->
     exists st', body k st = Some (inl st') /\ upd (pr st) (pr st') (R k) f /\ Q st st') ->
  (forall k st, K <= k -> zlen (pr st) = N -> body k st = Some (inr st)) ->
  zlen (pr st) = N -> bytes (pr st) ->
  exists st', for_n_break n a body st = Some st' /\
    upd (pr st) (pr st') (fun i => exists k, a <= k < Z.min (a + Z.of_nat n) K /\ R k i) f /\ Q st st'.
Proof using R_inj Q_refl Q_trans.
  induction n as [|n IH]; intros a body st Hbody Hbreak Hl Hb; cbn.
  { exists st. split; [done|]. split; [|reflexivity]. apply upd_refl; [done|]. intros i (k & ? & _). lia. }
  destruct (Z.lt_ge_cases a K) as [HK|HK].
  2:{ rewrite Hbreak by done. cbn. exists st. split; [done|]. split; [|reflexivity].
      apply upd_refl; [done|]. intros i (k & ? & _). lia. }
  destruct (Hbody a st) as (st1 & -> & Hu1 & HQ1); [lia|done|done|done|]. cbn.
  destruct (IH (a + 1) body st1) as (st2 & -> & Hu2 & HQ2).
  - intros k st' Hk. apply Hbody. lia.
  - done.
  - destruct Hu1 as [-> _]. done.
  - by destruct Hu1 as (_ & ? & _).
  - exists st2. split; [done|]. split; [|by transitivity st1].
    apply (upd_step _ (pr st1)); [lia|done|].
    eapply upd_iff; [| |exact Hu2]; [|done]. intros i _. split; intros (k & ? & ?); exists k; (split; [lia|done]).
Qed.
End loops.

(** Without anything besides the buffer. *)
Definition no_rel {St} (_ _ : St) : Prop := True.
#[export] Instance no_rel_refl {St} : Reflexive (@no_rel St).
Proof. done. Qed.
#[export] Instance no_rel_trans {St} : Transitive (@no_rel St).
Proof. done. Qed.

Lemma for_range_upd a b body R f px :
  (forall k k' i, R k i -> R k' i -> k = k') ->
  (forall k px', a <= k < b -> zlen px' = zlen px -> bytes px' ->
     exists px'', body k px' = Some px'' /\ upd px' px'' (R k) f) ->
  bytes px ->
  exists px', for_range a b body px = Some px' /\ upd px px' (fun i => exists k, a <= k < b /\ R k i) f.
Proof.
  intros Hinj Hbody Hb. unfold for_range.
  destruct (for_n_upd id no_rel R f (zlen px) Hinj (Z.to_nat (b - a)) a body px) as (px' & -> & Hu & _).
  - intros k px' Hk Hl Hb'. destruct (Hbody k px') as (px'' & ? & ?); [lia|done|done|]. by exists px''.
  - done.
  - done.
  - exists px'. split; [done|]. eapply upd_iff; [| |exact Hu]; [|done].
    intros i _. split; intros (k & ? & ?); exists k; (split; [lia|done]).
Qed.

(** Rows and columns number the pixels without repetition. *)
Lemma pixel_index_inj w x y x' y' : 0 <= x < w -> 0 <= x' < w ->
  y * w + x = y' * w + x' -> x = x' /\ y = y'.
Proof. intros ? ? E. assert (y = y') by nia. subst. lia. Qed.

Lemma rect_loop_upd w l t r b body f px :
  0 <= l -> r <= w -> bytes px ->
  (forall x y px', l <= x < r -> t <= y < b -> zlen px' = zlen px -> bytes px' ->
     exists px'', body y x px' = Some px'' /\ upd px' px'' (fun i => i = y * w + x) f) ->
  exists px', for_range t b (fun y px => for_range l r (body y) px) px = Some px' /\
    upd px px' (fun i => exists x y, l <= x < r /\ t <= y < b /\ i = y * w + x) f.
Proof.
  intros Hl Hr Hb Hbody.
  destruct (for_range_upd t b (fun y px => for_range l r (body y) px)
    (fun y i => exists x, l <= x < r /\ i = y * w + x) f px) as (px' & -> & Hu).
  - intros y y' i (x & Hx & ->) (x' & Hx' & E). apply pixel_index_inj in E; lia.
  - intros y px1 Hy Hl1 Hb1.
    destruct (for_range_upd l r (body y) (fun x i => i = y * w + x) f px1) as (px2 & -> & Hu).
    + intros. lia.
    + intros x px2 Hx Hl2 Hb2. apply Hbody; [done|done|congruence|done].
    + done.
    + exists px2. split; [done|]. eapply upd_iff; [| |exact Hu]; [|done].
      intros i _. split; intros (x & ? & ?); by exists x.
  - done.
  - exists px'. split; [done|]. eapply upd_iff; [| |exact Hu]; [|done]. intros i _. split.
    + intros (y & ? & x & ? & ?). by exists x, y.
    + intros (x & y & ? & ? & ?). exists y. split; [done|]. by exists x.
Qed.

(** ** From buffers to images *)

(** [self'] is [self] with the image transformed by [T]. *)
Definition paints (self self' : DisplaySurface) (T : image -> image) : Prop :=
  exists px', self' = with_pixels self px' /\ zlen px' = zlen (ds_pixels self) /\ bytes px' /\
    forall x y, on_surface self x y -> shows self' x y = T (shows self) x y.

(** [T] reads and writes pixels of the surface only. *)
Definition local (w h : Z) (T : image -> image) : Prop :=
  forall F G : image, (forall x y, 0 <= x < w -> 0 <= y < h -> F x y = G x y) ->
  forall x y, 0 <= x < w -> 0 <= y < h -> T F x y = T G x y.

Lemma paints_ok self self' T : surface_ok self -> paints self self' T -> surface_ok self'.
Proof. intros (? & ? & Hl & Hb & Hd) (px' & -> & ? & ? & _). unfold surface_ok; cbn in *.
  split; [done|]. split; [done|]. split; [lia|]. by split. Qed.

(** A rectangle on the surface that is not empty. *)
Definition rect_in (w h : Z) (r : DamageRect) : Prop :=
  0 <= dr_left r < dr_right r /\ dr_right r <= w /\ 0 <= dr_top r < dr_bottom r /\ dr_bottom r <= h.

Lemma in_rectb_spec r x y : in_rectb r x y = true <-> covers r x y.
Proof. unfold in_rectb, covers. rewrite !andb_true_iff, !Z.leb_le, !Z.ltb_lt. tauto. Qed.

Lemma upd_paints self rc px' (f : Z -> rgba -> rgba) (T : image -> image) :
  upd (ds_pixels self) px'
    (fun i => exists x y, dr_left rc <= x < dr_right rc /\ dr_top rc <= y < dr_bottom rc /\
       i = y * ds_width self + x) f ->
  0 <= dr_left rc -> dr_right rc <= ds_width self ->
  (forall x y, on_surface self x y ->
     T (shows self) x y = if in_rectb rc x y then f (y * ds_width self + x) (shows self x y)
                          else shows self x y) ->
  paints self (with_pixels self px') T.
Proof.
  intros (Hl & Hb & H) Hlo Hhi HT. exists px'. split_and!; [done|done|done|].
  intros x y [Hx Hy]. rewrite HT by done. unfold shows at 1. cbn [ds_pixels ds_width with_pixels].
  destruct (H (y * ds_width self + x)) as [Hyes Hno]; [nia|].
  destruct (in_rectb rc x y) eqn:E.
  - apply in_rectb_spec in E as [? ?]. apply Hyes. by exists x, y.
  - apply Hno. intros (x' & y' & ? & ? & Ei). apply pixel_index_inj in Ei as [<- <-]; [|done|lia].
    apply not_true_iff_false in E. apply E, in_rectb_spec. by split.
Qed.

(** Painting a colour. *)
Definition fill_image (colour : rgba) (rc : DamageRect) (F : image) : image :=
  fun x y => if in_rectb rc x y then colour else F x y.
(** Inverting what is there. *)
Definition invert_image (rc : DamageRect) (F : image) : image :=
  fun x y => if in_rectb rc x y then inverted (F x y) else F x y.
(** Copying from a distance (the destination at [(dl, dt)] shows [(sx, sy)]). *)
Definition copy_image (sx sy dl dt : Z) (rc : DamageRect) (F : image) : image :=
  fun x y => if in_rectb rc x y then F (x - dl + sx) (y - dt + sy) else F x y.

Lemma u32_mul_stride self : surface_ok self -> u32_mul (ds_width self) 4 = Some (ds_width self * 4).
Proof.
  intros ([? Hw] & _). unfold u32_mul, no_overflow, MAX_SURFACE_DIMENSION in *.
  by rewrite (proj2 (Z.leb_le _ _)), (proj2 (Z.ltb_lt _ _)) by lia.
Qed.

(** A pixel of a rectangle on the surface is in the buffer. *)
Lemma pixel_in_buffer self rc x y : surface_ok self -> rect_in (ds_width self) (ds_height self) rc ->
  covers rc x y -> 0 <= y * ds_width self + x /\
  4 * (y * ds_width self + x) + 4 <= zlen (ds_pixels self).
Proof.
  intros (? & ? & -> & _) (? & ? & ? & ?) [? ?].
  assert (y * ds_width self + ds_width self <= ds_height self * ds_width self) by nia. nia.
Qed.

Definition rgba_u8 (c : rgba) : Prop := let '(r, g, b, a) := c in u8 r /\ u8 g /\ u8 b /\ u8 a.

Lemma fill_subrect_paints colour self l t r b :
  surface_ok self -> rgba_u8 colour ->
  rect_in (ds_width self) (ds_height self) (mkDamageRect l t r b) ->
  exists self', fill_subrect colour l t r b self = Some self' /\
    paints self self' (fill_image colour (mkDamageRect l t r b)).
Proof.
  intros Hok Hc Hin. unfold fill_subrect. rewrite u32_mul_stride by done. cbn.
  destruct (rect_loop_upd (ds_width self) l t r b
    (fun y x px => put_pixel px (y * (ds_width self * 4) + x * 4) colour)
    (fun _ _ => colour) (ds_pixels self)) as (px' & -> & Hu).
  - destruct Hin; cbn in *; lia.
  - destruct Hin; cbn in *; lia.
  - by destruct Hok as (_ & _ & _ & ? & _).
  - intros x y px' Hx Hy Hl Hb.
    destruct (pixel_in_buffer self _ x y Hok Hin) as [? ?]; [by split|].
    replace (y * (ds_width self * 4) + x * 4) with (4 * (y * ds_width self + x)) by lia.
    apply put_pixel_upd; [done|lia|done|exact Hc|done].
  - eexists. split; [done|]. apply (upd_paints _ (mkDamageRect l t r b) _ (fun _ _ => colour));
      [done|destruct Hin; cbn in *; lia|destruct Hin; cbn in *; lia|done].
Qed.

Lemma invert_subrect_paints self l t r b :
  surface_ok self -> rect_in (ds_width self) (ds_height self) (mkDamageRect l t r b) ->
  exists self', invert_subrect l t r b self = Some self' /\
    paints self self' (invert_image (mkDamageRect l t r b)).
Proof.
  intros Hok Hin. unfold invert_subrect. rewrite u32_mul_stride by done. cbn.
  destruct (rect_loop_upd (ds_width self) l t r b
    (fun y x px => invert_pixel px (y * (ds_width self * 4) + x * 4))
    (fun _ => inverted) (ds_pixels self)) as (px' & -> & Hu).
  - destruct Hin; cbn in *; lia.
  - destruct Hin; cbn in *; lia.
  - by destruct Hok as (_ & _ & _ & ? & _).
  - intros x y px' Hx Hy Hl Hb.
    destruct (pixel_in_buffer self _ x y Hok Hin) as [? ?]; [by split|].
    replace (y * (ds_width self * 4) + x * 4) with (4 * (y * ds_width self + x)) by lia.
    apply invert_pixel_upd; [done|lia|done].
  - eexists. split; [done|]. apply (upd_paints _ (mkDamageRect l t r b) _ (fun _ => inverted));
      [done|destruct Hin; cbn in *; lia|destruct Hin; cbn in *; lia|done].
Qed.

Lemma for_range_ext {St} a b (body body' : Z -> St -> option St) s :
  (forall k s, body k s = body' k s) -> for_range a b body s = for_range a b body' s.
Proof.
  intros H. unfold for_range. generalize (Z.to_nat (b - a)) as n. intros n. revert a s.
  induction n as [|n IH]; intros a s; cbn; [done|]. rewrite H. destruct (body' a s); cbn; [apply IH|done].
Qed.

(** One of the two loops of [copy_subrect]: rows of [n] pixels of [src], [w']
    apart from pixel [a'], go to rows [w] apart from pixel [a]. *)
Lemma copy_rows_upd px src a a' w w' n h :
  0 <= a -> 0 <= a' -> 0 < n <= w -> n <= w' -> 0 <= h ->
  (forall row, 0 <= row < h -> 4 * (a + row * w + n) <= zlen px) ->
  (forall row, 0 <= row < h -> 4 * (a' + row * w' + n) <= zlen src) ->
  bytes px -> bytes src ->
  exists px', for_range 0 h (fun row px =>
      s ← slice src (4 * (a' + row * w')) (4 * (a' + row * w') + 4 * n);
      copy_from_slice px (4 * (a + row * w)) s) px = Some px' /\
    zlen px' = zlen px /\ bytes px' /\
    (forall row c, 0 <= row < h -> 0 <= c < n ->
       pixel_at px' (a + row * w + c) = pixel_at src (a' + row * w' + c)) /\
    (forall i, 0 <= i -> ~ (exists row c, 0 <= row < h /\ 0 <= c < n /\ i = a + row * w + c) ->
       pixel_at px' i = pixel_at px i).
Proof.
  intros Ha Ha' Hn Hn' Hh Hpx Hsrc Hb Hbs.
  set (f := fun i (_ : rgba) => pixel_at src (a' + (i - a) / w * w' + (i - a) mod w)).
  assert (forall row c, 0 <= c < n -> (row * w + c) / w = row /\ (row * w + c) mod w = c) as Hdiv.
  { intros row c Hc. split.
    - rewrite Z.div_add_l, (Z.div_small c) by lia. lia.
    - rewrite Z.add_comm, Z.mod_add, Z.mod_small by lia. lia. }
  destruct (for_range_upd 0 h (fun row px =>
      s ← slice src (4 * (a' + row * w')) (4 * (a' + row * w') + 4 * n);
      copy_from_slice px (4 * (a + row * w)) s)
    (fun row i => exists c, 0 <= c < n /\ i = a + row * w + c) f px) as (px' & -> & Hl & Hb' & Hu).
  - intros k k' i (c & Hc & ->) (c' & Hc' & E). apply (pixel_index_inj w c k c' k'); lia.
  - intros row px1 Hrow Hl1 Hb1.
    destruct (copy_row_upd px1 src (a + row * w) (a' + row * w') n) as (s & px2 & Hs & Hc & Hu).
    + nia.
    + nia.
    + lia.
    + rewrite Hl1. by apply Hpx.
    + by apply Hsrc.
    + done.
    + done.
    + rewrite Hs. cbn. exists px2. split; [done|]. eapply upd_iff; [| |exact Hu].
      * intros i _. cbn. split; [|intros (c & ? & ->); lia].
        intros Hi. exists (i - (a + row * w)). lia.
      * cbn. intros i c0 _ Hi. unfold f. destruct (Hdiv row (i - (a + row * w))) as [E1 E2]; [lia|].
        replace (i - a) with (row * w + (i - (a + row * w))) by lia. rewrite E1, E2. f_equal. lia.
  - done.
  - exists px'. split; [done|]. split; [done|]. split; [done|]. split.
    + intros row c Hrow Hc. destruct (Hu (a + row * w + c)) as [Hy _]; [nia|].
      rewrite Hy by (exists row; split; [done|]; by exists c).
      unfold f. replace (a + row * w + c - a) with (row * w + c) by lia.
      by destruct (Hdiv row c Hc) as [-> ->].
    + intros i Hi HR. apply Hu; [done|]. intros (row & Hrow & c & Hc & ->).
      apply HR. by exists row, c.
Qed.

Lemma bytes_replicate_0 n : bytes (replicate n 0).
Proof. apply Forall_replicate. unfold in_unsigned. lia. Qed.

Lemma copy_subrect_paints sx sy dl dt dr db self :
  surface_ok self -> rect_in (ds_width self) (ds_height self) (mkDamageRect dl dt dr db) ->
  0 <= sx -> sx + (dr - dl) <= ds_width self -> 0 <= sy -> sy + (db - dt) <= ds_height self ->
  exists self', copy_subrect sx sy dl dt dr db self = Some self' /\
    paints self self' (copy_image sx sy dl dt (mkDamageRect dl dt dr db)).
Proof.
  intros Hok (Hl & Hr & Ht & Hb) Hsx Hsw Hsy Hsh. cbn in *.
  unfold copy_subrect. rewrite u32_mul_stride by done. cbn [mbind option_bind].
  destruct Hok as (Hw & Hh & Hlen & Hbytes & _). set (w := ds_width self) in *.
  set (h := ds_height self) in *. set (n := dr - dl) in *. set (m := db - dt) in *.
  assert (forall y, y < h -> y * w + w <= h * w) as Hrow by (intros; nia).
  destruct (copy_rows_upd (replicate (Z.to_nat (n * 4 * m)) 0) (ds_pixels self)
    0 (sy * w + sx) n w n m) as (scratch & Hs & Hsl & Hsb & Hsp & _).
  - lia.
  - nia.
  - lia.
  - lia.
  - lia.
  - intros row Hrw. rewrite zlen_replicate. nia.
  - intros row Hrw. pose proof (Hrow (sy + row)). nia.
  - apply bytes_replicate_0.
  - done.
  - rewrite zlen_replicate in Hsl.
    destruct (copy_rows_upd (ds_pixels self) scratch (dt * w + dl) 0 w n n m)
      as (px' & Hp & Hpl & Hpb & Hpp & Hpn).
    + nia.
    + lia.
    + lia.
    + lia.
    + lia.
    + intros row Hrw. pose proof (Hrow (dt + row)). nia.
    + intros row Hrw. rewrite Hsl. nia.
    + done.
    + done.
    + rewrite (for_range_ext _ _ _ (fun row px =>
        s ← slice (ds_pixels self) (4 * (sy * w + sx + row * w)) (4 * (sy * w + sx + row * w) + 4 * n);
        copy_from_slice px (4 * (0 + row * n)) s)).
      2:{ intros k px. replace ((sy + k) * (w * 4) + sx * 4) with (4 * (sy * w + sx + k * w)) by lia.
          rewrite (Z.mul_comm n 4). by replace (k * (4 * n)) with (4 * (0 + k * n)) by lia. }
      rewrite Hs. cbn [mbind option_bind].
      rewrite (for_range_ext _ _ _ (fun row px =>
        s ← slice scratch (4 * (0 + row * n)) (4 * (0 + row * n) + 4 * n);
        copy_from_slice px (4 * (dt * w + dl + row * w)) s)).
      2:{ intros k px. replace ((dt + k) * (w * 4) + dl * 4) with (4 * (dt * w + dl + k * w)) by lia.
          rewrite (Z.mul_comm n 4). by replace (k * (4 * n)) with (4 * (0 + k * n)) by lia. }
      rewrite Hp. cbn [mbind option_bind].
      eexists. split; [done|]. exists px'. split_and!; [done|done|done|].
      intros x y [Hx Hy]. unfold copy_image, shows at 1. cbn [ds_pixels ds_width with_pixels].
      fold w. destruct (in_rectb _ x y) eqn:E.
      * apply in_rectb_spec in E as [? ?]. cbn in *.
        replace (y * w + x) with (dt * w + dl + (y - dt) * w + (x - dl)) by lia.
        rewrite Hpp, Hsp by lia. unfold shows. fold w. f_equal. lia.
      * apply Hpn; [nia|]. intros (row & c & Hrw & Hc & Ei).
        assert (y * w + x = (dt + row) * w + (dl + c)) as Ei' by lia.
        apply pixel_index_inj in Ei' as [-> ->]; [|done|lia].
        apply not_true_iff_false in E. apply E, in_rectb_spec. unfold covers. cbn. lia.
Qed.

(** ** The loop over the clip *)

(** The parts of a rectangle a clip list draws, in order. *)
Definition clip_part (l t r b : Z) (c : rgba) : option DamageRect :=
  let '(cl, ct, cr, cb) := c in
  let il := Z.max l cl in
  let it := Z.max t ct in
  let ir := Z.min r cr in
  let ib := Z.min b cb in
  if (ir <=? il) || (ib <=? it) then None else Some (mkDamageRect il it ir ib).

Definition draw_parts (l t r b : Z) (clip : list rgba) : list DamageRect :=
  match clip with
  | [] => [mkDamageRect l t r b]
  | _ => omap (clip_part l t r b) clip
  end.

(** The parts drawn one after another. *)
Definition draw_image (T : DamageRect -> image -> image) (parts : list DamageRect) (F : image)
    : image :=
  foldl (fun F rc => T rc F) F parts.

Definition same_geometry (self self' : DisplaySurface) : Prop :=
  ds_id self' = ds_id self /\ ds_width self' = ds_width self /\ ds_height self' = ds_height self.

Definition keeps_damage (self self' : DisplaySurface) (parts : list DamageRect) : Prop :=
  forall x y, region_covers (ds_damage self) x y \/ Exists (fun rc => covers rc x y) parts ->
    region_covers (ds_damage self') x y.

Lemma clip_part_in l t r b c rc : clip_part l t r b c = Some rc ->
  l <= dr_left rc < dr_right rc /\ dr_right rc <= r /\ t <= dr_top rc < dr_bottom rc /\ dr_bottom rc <= b.
Proof.
  destruct c as [[[cl ct] cr] cb]. unfold clip_part. destruct (_ || _) eqn:E; [done|].
  rewrite orb_false_iff, !Z.leb_gt in E. intros [= <-]. cbn. lia.
Qed.

Lemma add_damage_ok self l t r b :
  surface_ok self -> u32 l -> u32 t -> u32 r -> u32 b ->
  exists self', add_damage self l t r b = Some self' /\ surface_ok self' /\
    same_geometry self self' /\ ds_dirty self' = ds_dirty self /\ ds_pixels self' = ds_pixels self /\
    keeps_damage self self' [mkDamageRect l t r b].
Proof.
  intros (? & ? & ? & ? & Hd) Hl Ht Hr Hb. unfold add_damage.
  destruct (region_add_ok (ds_damage self) (mkDamageRect l t r b)) as (d & -> & Hok & Hc & _); [done..|].
  cbn. eexists. split; [done|]. split; [unfold surface_ok; cbn; tauto|].
  split; [done|]. split; [done|]. split; [done|].
  intros x y Hxy. apply Hc. destruct Hxy as [Hxy|Hxy]; [by left|right].
  apply Exists_cons in Hxy as [Hxy|Hxy]; [done|]. inversion Hxy.
Qed.

Section clipped.
Context (w h : Z) (sub : Z -> Z -> Z -> Z -> DisplaySurface -> option DisplaySurface)
  (T : DamageRect -> image -> image) (l t r b : Z).
Hypothesis Hw : 0 <= w <= MAX_SURFACE_DIMENSION.
Hypothesis Hh : 0 <= h <= MAX_SURFACE_DIMENSION.
Hypothesis Hin : rect_in w h (mkDamageRect l t r b).
(** What the sub-rectangle operation does inside the bounded rectangle. *)
Definition inside (rc : DamageRect) : Prop :=
  l <= dr_left rc < dr_right rc /\ dr_right rc <= r /\ t <= dr_top rc < dr_bottom rc /\ dr_bottom rc <= b.
Hypothesis Hsub : forall rc self, inside rc -> surface_ok self ->
  ds_width self = w -> ds_height self = h ->
  exists self', sub (dr_left rc) (dr_top rc) (dr_right rc) (dr_bottom rc) self = Some self' /\
    paints self self' (T rc).
Hypothesis Hlocal : forall rc, inside rc -> local w h (T rc).

Lemma one_part rc self : inside rc -> surface_ok self -> ds_width self = w -> ds_height self = h ->
  exists self1 self', sub (dr_left rc) (dr_top rc) (dr_right rc) (dr_bottom rc) self = Some self1 /\
    add_damage self1 (dr_left rc) (dr_top rc) (dr_right rc) (dr_bottom rc) = Some self' /\
    surface_ok self' /\ same_geometry self self' /\ ds_dirty self' = ds_dirty self /\
    (forall x y, 0 <= x < w -> 0 <= y < h -> shows self' x y = T rc (shows self) x y) /\
    keeps_damage self self' [rc].
Proof using Hw Hh Hin Hsub.
  intros Hi Hok Ew Eh. destruct (Hsub rc self Hi Hok Ew Eh) as (self1 & E1 & Hp).
  pose proof (paints_ok _ _ _ Hok Hp) as Hok1. destruct Hp as (px' & -> & _ & _ & Hs).
  destruct Hi as (? & ? & ? & ?), Hin as (? & ? & ? & ?). cbn in *.
  unfold MAX_SURFACE_DIMENSION in *.
  destruct (add_damage_ok (with_pixels self px') (dr_left rc) (dr_top rc) (dr_right rc) (dr_bottom rc))
    as (self' & E2 & Hok' & Hg & Hd & Hpx & Hk); [done|unfold in_unsigned; lia..|].
  exists (with_pixels self px'), self'. split_and!; try done.
  - intros x y Hx Hy. rewrite <- Hs by (unfold on_surface; lia). unfold shows. rewrite Hpx.
    destruct Hg as (_ & -> & _). done.
  - intros x y. destruct rc. apply Hk.
Qed.

Lemma draw_image_local parts : Forall inside parts -> local w h (draw_image T parts).
Proof using Hlocal.
  induction 1 as [|rc parts Hrc _ IH]; intros F G HFG; [done|]. cbn.
  apply IH. by apply Hlocal.
Qed.

Lemma clip_loop_ok clip : forall self wrote, surface_ok self -> ds_width self = w -> ds_height self = h ->
  let parts := omap (clip_part l t r b) clip in
  exists self', clip_loop sub l t r b clip self wrote =
      Some (self', wrote || negb (bool_decide (parts = []))) /\
    surface_ok self' /\ same_geometry self self' /\ ds_dirty self' = ds_dirty self /\
    (forall x y, 0 <= x < w -> 0 <= y < h ->
       shows self' x y = draw_image T parts (shows self) x y) /\
    keeps_damage self self' parts.
Proof using Hw Hh Hin Hsub Hlocal.
  induction clip as [|[[[cl ct] cr] cb] clip IH]; intros self wrote Hok Ew Eh.
  { exists self. cbn. rewrite orb_false_r. split; [done|]. split_and!; try done.
    intros x y [?|H]; [done|inversion H]. }
  cbn [omap list_omap clip_loop]. destruct (clip_part l t r b (cl, ct, cr, cb)) as [rc|] eqn:Ec;
    [pose proof (clip_part_in _ _ _ _ _ _ Ec) as Hi|];
    unfold clip_part in Ec; destruct (_ || _); [done| |by apply IH|done].
  injection Ec as <-. set (rc := mkDamageRect (l `max` cl) (t `max` ct) (r `min` cr) (b `min` cb)) in *.
  destruct (one_part rc self Hi Hok Ew Eh) as (self1 & self2 & E1 & E2 & Hok2 & Hg & Hd & Hs & Hk).
  cbn in E1, E2. rewrite E1. cbn. rewrite E2. cbn.
  destruct Hg as (Eid & Ew2 & Eh2).
  destruct (IH self2 true) as (self' & -> & Hok' & Hg' & Hd' & Hs' & Hk'); [done|congruence|congruence|].
  exists self'. cbn. rewrite orb_true_r. split; [done|]. split_and!.
  - done.
  - unfold same_geometry in *. by destruct Hg' as (-> & -> & ->).
  - congruence.
  - intros x y Hx Hy. rewrite Hs' by done. cbn. apply draw_image_local; [|done|done|done].
    apply list.Forall_forall. intros rc' (c & _ & Hc)%list_elem_of_omap. by apply clip_part_in in Hc.
  - intros x y H. apply Hk'. rewrite Exists_cons in H. destruct H as [H|[H|H]]; [left|left|by right];
      apply Hk; [by left|right; by constructor].
Qed.

Lemma draw_clipped_ok clip self : surface_ok self -> ds_width self = w -> ds_height self = h ->
  let parts := draw_parts l t r b clip in
  exists self', draw_clipped sub l t r b clip self = Some self' /\
    surface_ok self' /\ same_geometry self self' /\
    ds_dirty self' = ds_dirty self || negb (bool_decide (parts = [])) /\
    (forall x y, 0 <= x < w -> 0 <= y < h ->
       shows self' x y = draw_image T parts (shows self) x y) /\
    keeps_damage self self' parts.
Proof using Hw Hh Hin Hsub Hlocal.
  intros Hok Ew Eh. unfold draw_clipped, draw_parts. destruct clip as [|c clip].
  - destruct (one_part (mkDamageRect l t r b) self) as (self1 & self2 & E1 & E2 & Hok2 & Hg & Hd & Hs & Hk).
    { destruct Hin as (? & ? & ? & ?). unfold inside. cbn in *. lia. }
    { done. } { done. } { done. }
    cbn in E1, E2. rewrite E1. cbn. rewrite E2. cbn. eexists. split; [done|].
    split; [done|]. split; [done|]. rewrite orb_true_r. by split_and!.
  - destruct (clip_loop_ok (c :: clip) self false Hok Ew Eh)
      as (self' & -> & Hok' & Hg & Hd & Hs & Hk).
    cbn [mbind option_bind]. eexists. split; [done|].
    destruct (omap _ _) as [|rc parts] eqn:E; cbn [negb bool_decide orb].
    + rewrite bool_decide_eq_true_2 by done. cbn. rewrite orb_false_r. by split_and!.
    + rewrite bool_decide_eq_false_2 by done. cbn. rewrite orb_true_r.
      split; [done|]. by split_and!.
Qed.
End clipped.

(** ** What a draw should show

    [masked G m] applies [G] to the pixels of the mask. *)
Definition masked (G : image -> image) (m : Z -> Z -> bool) (F : image) : image :=
  fun x y => if m x y then G F x y else F x y.

Definition in_clip (c : rgba) (x y : Z) : bool :=
  let '(cl, ct, cr, cb) := c in (cl <=? x) && (x <? cr) && (ct <=? y) && (y <? cb).

(** The clip list: none means no clipping. *)
Definition clips (clip : list rgba) : list (Z -> Z -> bool) :=
  match clip with
  | [] => [fun _ _ => true]
  | _ => map in_clip clip
  end.

Lemma clip_part_mask l t r b c x y :
  match clip_part l t r b c with Some rc => in_rectb rc x y | None => false end =
  in_rectb (mkDamageRect l t r b) x y && in_clip c x y.
Proof.
  destruct c as [[[cl ct] cr] cb]. unfold clip_part, in_rectb, in_clip.
  apply eq_true_iff_eq. destruct (_ || _) eqn:E.
  - rewrite !andb_true_iff, !Z.leb_le, !Z.ltb_lt. cbn. rewrite orb_true_iff, !Z.leb_le in E.
    split; [done|]. lia.
  - rewrite !andb_true_iff, !Z.leb_le, !Z.ltb_lt. cbn. lia.
Qed.

(** The parts drawn one after another are the clip's masks applied one after
    another. *)
Lemma draw_image_masked (G : image -> image) l t r b clip F x y :
  (forall F F' : image, (forall x y, F x y = F' x y) -> forall x y, G F x y = G F' x y) ->
  draw_image (fun rc => masked G (in_rectb rc)) (draw_parts l t r b clip) F x y =
  foldl (fun F m => masked G (fun x y => in_rectb (mkDamageRect l t r b) x y && m x y) F)
    F (clips clip) x y.
Proof.
  intros HG. unfold draw_parts, clips. destruct clip as [|c clip].
  { cbn. unfold masked. by rewrite andb_true_r. }
  generalize (c :: clip). clear c clip. intros clip.
  assert (forall F F' : image, (forall x y, F x y = F' x y) ->
    draw_image (fun rc => masked G (in_rectb rc)) (omap (clip_part l t r b) clip) F x y =
    foldl (fun F m => masked G (fun x y => in_rectb (mkDamageRect l t r b) x y && m x y) F)
      F' (map in_clip clip) x y) as H; [|by apply H].
  induction clip as [|c clip IH]; intros F1 F2 HF; [apply HF|]. cbn.
  destruct (clip_part l t r b c) as [rc|] eqn:Ec; [cbn|]; apply IH; intros x' y';
    pose proof (clip_part_mask l t r b c x' y') as Hm; rewrite Ec in Hm; unfold masked;
    rewrite <- Hm; [|apply HF].
  destruct (in_rectb rc x' y'); [by apply HG|apply HF].
Qed.

Inductive SurfaceOp : Type :=
| OpBlit (left top width height : Z) (pixels : list Z)
| OpChroma (left top width height : Z) (pixels : list Z) (chroma_rgba : rgba)
| OpAlpha (left top width height : Z) (pixels : list Z) (alpha : Z)
| OpFill (left top right bottom : Z) (colour : rgba) (clip : list rgba)
| OpCopy (src_x src_y left top right bottom : Z) (clip : list rgba)
| OpInvert (left top right bottom : Z) (clip : list rgba).

Definition apply_op (op : SurfaceOp) (self : DisplaySurface) : option DisplaySurface :=
  match op with
  | OpBlit l t wd ht pixels => blit self l t wd ht pixels
  | OpChroma l t wd ht pixels chroma => blit_chroma self l t wd ht pixels chroma
  | OpAlpha l t wd ht pixels alpha => blit_alpha self l t wd ht pixels alpha
  | OpFill l t r b colour clip => fill_rect self l t r b colour clip
  | OpCopy sx sy l t r b clip => copy_bits self sx sy l t r b clip
  | OpInvert l t r b clip => invert_rect self l t r b clip
  end.

(** Source-over with the pixel's alpha times the constant one, rounded. *)
Definition blended (s d : rgba) (alpha : Z) : rgba :=
  let '(sr, sg, sb, sa) := s in
  let '(dr, dg, db, _) := d in
  let a := (sa * alpha + 127) / 255 in
  let mix s d := (s * a + d * (255 - a) + 127) / 255 in
  (mix sr dr, mix sg dg, mix sb db, 255).

Definition same_rgb (c d : rgba) : bool :=
  let '(r1, g1, b1, _) := c in
  let '(r2, g2, b2, _) := d in
  (r1 =? r2) && (g1 =? g2) && (b1 =? b2).

(** The image an operation should leave on a [w] by [h] surface. *)
Definition op_image (w h : Z) (op : SurfaceOp) (F : image) : image :=
  match op with
  | OpBlit l t wd ht pixels =>
      masked (fun _ x y => pixel_at pixels ((y - t) * wd + (x - l)))
        (fun x y => in_clip (l, t, l + wd, t + ht) x y &&
           (4 * ((y - t) * wd + Z.min wd (w - l)) <=? zlen pixels)) F
  | OpChroma l t wd ht pixels chroma =>
      masked (fun _ x y => pixel_at pixels ((y - t) * wd + (x - l)))
        (fun x y => in_clip (l, t, l + wd, t + ht) x y &&
           (4 * ((y - t) * wd + (x - l)) + 4 <=? zlen pixels) &&
           negb (same_rgb (pixel_at pixels ((y - t) * wd + (x - l))) chroma)) F
  | OpAlpha l t wd ht pixels alpha =>
      masked (fun F x y => blended (pixel_at pixels ((y - t) * wd + (x - l))) (F x y) alpha)
        (fun x y => negb (alpha =? 0) && in_clip (l, t, l + wd, t + ht) x y &&
           (4 * ((y - t) * wd + (x - l)) + 4 <=? zlen pixels)) F
  | OpFill l t r b colour clip =>
      masked (fun _ _ _ => colour)
        (fun x y => in_clip (l, t, r, b) x y && existsb (fun c => c x y) (clips clip)) F
  | OpCopy sx sy l t r b clip =>
      foldl (fun F c => masked (fun F x y => F (x - l + sx) (y - t + sy))
        (fun x y => in_clip (l, t, r, b) x y && c x y &&
           (x - l + sx <? w) && (y - t + sy <? h)) F) F (clips clip)
  | OpInvert l t r b clip =>
      masked (fun F x y =>
        Nat.iter (length (List.filter (fun c => c x y) (clips clip))) inverted (F x y))
        (in_clip (l, t, r, b)) F
  end.

(** Arguments as the code's types allow them. *)
Definition rgba_u32 (c : rgba) : Prop :=
  let '(l, t, r, b) := c in u32 l /\ u32 t /\ u32 r /\ u32 b.

Definition op_ok (op : SurfaceOp) : Prop :=
  match op with
  | OpBlit l t wd ht pixels
  | OpChroma l t wd ht pixels _ =>
      u32 l /\ u32 t /\ u32 wd /\ u32 ht /\ bytes pixels
  | OpAlpha l t wd ht pixels alpha =>
      u32 l /\ u32 t /\ u32 wd /\ u32 ht /\ bytes pixels /\ u8 alpha
  | OpFill l t r b colour clip =>
      rgba_u32 (l, t, r, b) /\ rgba_u8 colour /\ Forall rgba_u32 clip
  | OpCopy sx sy l t r b clip =>
      u32 sx /\ u32 sy /\ rgba_u32 (l, t, r, b) /\ Forall rgba_u32 clip
  | OpInvert l t r b clip =>
      rgba_u32 (l, t, r, b) /\ Forall rgba_u32 clip
  end.

(** What a draw does to a surface: the image, the damage and the dirty flag.
    Every pixel that changed is damaged, and nothing damaged is forgotten. *)
Definition drawn (self self' : DisplaySurface) (T : image -> image) : Prop :=
  surface_ok self' /\ same_geometry self self' /\
  (forall x y, on_surface self x y -> shows self' x y = T (shows self) x y) /\
  (forall x y, region_covers (ds_damage self) x y -> region_covers (ds_damage self') x y) /\
  (forall x y, on_surface self x y -> shows self' x y <> shows self x y ->
     region_covers (ds_damage self') x y /\ ds_dirty self' = true) /\
  (ds_dirty self = true -> ds_dirty self' = true).

Lemma drawn_id self T : surface_ok self ->
  (forall x y, on_surface self x y -> T (shows self) x y = shows self x y) -> drawn self self T.
Proof.
  intros Hok HT. split; [done|]. split; [by split_and!|]. split; [by intros; rewrite HT|].
  split_and!; [done|done|done].
Qed.

Lemma drawn_ext self self' T T' :
  (forall x y, on_surface self x y -> T (shows self) x y = T' (shows self) x y) ->
  drawn self self' T -> drawn self self' T'.
Proof.
  intros HT (? & ? & Hs & ?). split; [done|]. split; [done|]. split; [|done].
  intros x y Hon. by rewrite <- HT, Hs.
Qed.

Lemma draw_image_off G parts F x y : ~ Exists (fun rc => covers rc x y) parts ->
  draw_image (fun rc => masked G (in_rectb rc)) parts F x y = F x y.
Proof.
  unfold draw_image. revert F. induction parts as [|rc parts IH]; [done|]. intros F.
  rewrite Exists_cons. intros Hn. cbn. rewrite IH by tauto. unfold masked. destruct (in_rectb rc x y) eqn:E; [|done].
  apply in_rectb_spec in E. tauto.
Qed.

Lemma drawn_parts self self' G parts :
  surface_ok self' -> same_geometry self self' ->
  ds_dirty self' = ds_dirty self || negb (bool_decide (parts = [])) ->
  (forall x y, on_surface self x y ->
     shows self' x y = draw_image (fun rc => masked G (in_rectb rc)) parts (shows self) x y) ->
  keeps_damage self self' parts ->
  drawn self self' (draw_image (fun rc => masked G (in_rectb rc)) parts).
Proof.
  intros Hok Hg Hd Hs Hk. split; [done|]. split; [done|]. split; [done|].
  split; [intros x y ?; apply Hk; by left|]. split.
  - intros x y Hon Hne. rewrite Hs in Hne by done.
    destruct (decide (Exists (fun rc => in_rectb rc x y = true) parts)) as [He|He].
    + split.
      * apply Hk. right. revert He. apply Exists_impl. intros rc. apply in_rectb_spec.
      * rewrite Hd, bool_decide_eq_false_2; [apply orb_true_r|]. intros ->. inversion He.
    + destruct Hne. apply draw_image_off. intros H. apply He.
      revert H. apply Exists_impl. intros rc. apply in_rectb_spec.
  - intros Ed. by rewrite Hd, Ed.
Qed.

(** The three clipped operations. *)
Lemma draw_masked self sub G l t r b clip : surface_ok self ->
  (forall F F' : image, (forall x y, F x y = F' x y) -> forall x y, G F x y = G F' x y) ->
  (forall rc, inside l t r b rc -> local (ds_width self) (ds_height self) (masked G (in_rectb rc))) ->
  rect_in (ds_width self) (ds_height self) (mkDamageRect l t r b) ->
  (forall rc self0, inside l t r b rc -> surface_ok self0 -> ds_width self0 = ds_width self ->
     ds_height self0 = ds_height self ->
     exists self', sub (dr_left rc) (dr_top rc) (dr_right rc) (dr_bottom rc) self0 = Some self' /\
       paints self0 self' (masked G (in_rectb rc))) ->
  exists self', draw_clipped sub l t r b clip self = Some self' /\
    drawn self self'
      (fun F => foldl (fun F m => masked G (fun x y => in_rectb (mkDamageRect l t r b) x y && m x y) F)
         F (clips clip)).
Proof.
  intros Hok HG Hloc Hin Hsub. pose proof Hok as (Hw & Hh & _).
  destruct (draw_clipped_ok (ds_width self) (ds_height self) sub (fun rc => masked G (in_rectb rc))
    l t r b Hw Hh Hin Hsub Hloc clip self Hok eq_refl eq_refl) as (self' & -> & Hok' & Hg & Hd & Hs & Hk).
  exists self'. split; [done|].
  apply (drawn_ext _ _ (draw_image (fun rc => masked G (in_rectb rc)) (draw_parts l t r b clip))).
  - intros x y _. by apply draw_image_masked.
  - apply drawn_parts; [done|done|done| |done]. intros x y [? ?]. by apply Hs.
Qed.

Lemma bounded_rect w h l t r b : 0 <= w -> 0 <= h -> rgba_u32 (l, t, r, b) ->
  match clip_to_bounds w h l t r b with
  | Some (l', t', r', b') => rect_in w h (mkDamageRect l' t' r' b') /\
      forall x y, 0 <= x < w -> 0 <= y < h ->
        in_rectb (mkDamageRect l' t' r' b') x y = in_clip (l, t, r, b) x y
  | None => forall x y, 0 <= x < w -> 0 <= y < h -> in_clip (l, t, r, b) x y = false
  end.
Proof.
  intros Hw Hh ([? ?] & [? ?] & [? ?] & [? ?]). unfold clip_to_bounds, in_clip, in_rectb, rect_in.
  destruct (_ || _) eqn:E.
  - rewrite orb_true_iff, !Z.leb_le in E. intros x y Hx Hy. apply not_true_iff_false.
    rewrite !andb_true_iff, !Z.leb_le, !Z.ltb_lt. lia.
  - rewrite orb_false_iff, !Z.leb_gt in E. cbn. split; [lia|]. intros x y Hx Hy.
    apply eq_true_iff_eq. rewrite !andb_true_iff, !Z.leb_le, !Z.ltb_lt. lia.
Qed.

(** Masks applied one after another: a constant is painted where any of them
    is, a function is applied as often as there are masks. *)
Lemma foldl_masked_iter (g : rgba -> rgba) inr ms F x y :
  foldl (fun F m => masked (fun F x y => g (F x y)) (fun x y => inr x y && m x y) F) F ms x y =
  if inr x y : bool then Nat.iter (length (List.filter (fun m => m x y) ms)) g (F x y) else F x y.
Proof.
  revert F. induction ms as [|m ms IH]; intros F; cbn; [by destruct (inr x y)|].
  rewrite IH. unfold masked. destruct (inr x y); cbn; [|done]. destruct (m x y); cbn; [|done].
  apply Nat.iter_swap.
Qed.

Lemma iter_const {A} (c : A) n a : Nat.iter n (fun _ => c) a = if (0 <? Z.of_nat n) then c else a.
Proof. by destruct n. Qed.

Lemma existsb_filter {A} (f : A -> bool) l :
  existsb f l = (0 <? Z.of_nat (length (List.filter f l))).
Proof. induction l as [|x l IH]; [done|]. cbn. by destruct (f x). Qed.

(** Masks need only agree on the surface, where [G] stays. *)
Lemma foldl_masked_on w h G (inr inr' : (Z -> Z -> bool) -> Z -> Z -> bool) ms F x y :
  (forall m x y, 0 <= x < w -> 0 <= y < h -> inr m x y = inr' m x y) ->
  (forall F F' : image, (forall x y, 0 <= x < w -> 0 <= y < h -> F x y = F' x y) ->
     forall m x y, 0 <= x < w -> 0 <= y < h -> inr' m x y = true -> G F x y = G F' x y) ->
  0 <= x < w -> 0 <= y < h ->
  foldl (fun F m => masked G (inr m) F) F ms x y =
  foldl (fun F m => masked G (inr' m) F) F ms x y.
Proof.
  intros Hi HG Hx Hy.
  assert (forall F F' : image, (forall x y, 0 <= x < w -> 0 <= y < h -> F x y = F' x y) ->
    foldl (fun F m => masked G (inr m) F) F ms x y =
    foldl (fun F m => masked G (inr' m) F) F' ms x y) as H; [|by apply H].
  induction ms as [|m ms IH]; intros F1 F2 HF; [by apply HF|]. cbn. apply IH. intros x' y' Hx' Hy'.
  unfold masked. rewrite Hi by done. destruct (inr' m x' y') eqn:E; [by apply (HG _ _ HF m)|by apply HF].
Qed.


(** ** Each operation *)

Lemma masked_local w h G rc :
  (forall F F' : image, (forall x y, 0 <= x < w -> 0 <= y < h -> F x y = F' x y) ->
     forall x y, 0 <= x < w -> 0 <= y < h -> in_rectb rc x y = true -> G F x y = G F' x y) ->
  local w h (masked G (in_rectb rc)).
Proof.
  intros HG F F' HF x y Hx Hy. unfold masked. destruct (in_rectb rc x y) eqn:E; [by apply HG|by apply HF].
Qed.

Lemma inside_in w h l t r b rc : rect_in w h (mkDamageRect l t r b) -> inside l t r b rc ->
  rect_in w h rc.
Proof. unfold rect_in, inside. cbn. lia. Qed.

(** What [fill_rect] and [invert_rect] share. *)
Lemma draw_pointwise self sub g l t r b clip : surface_ok self -> rgba_u32 (l, t, r, b) ->
  (forall rc self0, surface_ok self0 -> rect_in (ds_width self0) (ds_height self0) rc ->
     exists self', sub (dr_left rc) (dr_top rc) (dr_right rc) (dr_bottom rc) self0 = Some self' /\
       paints self0 self' (masked (fun F x y => g (F x y)) (in_rectb rc))) ->
  exists self',
    match clip_to_bounds (ds_width self) (ds_height self) l t r b with
    | None => Some self
    | Some (l', t', r', b') => draw_clipped sub l' t' r' b' clip self
    end = Some self' /\
    drawn self self' (masked
      (fun F x y => Nat.iter (length (List.filter (fun c => c x y) (clips clip))) g (F x y))
      (in_clip (l, t, r, b))).
Proof.
  intros Hok Hr Hsub. pose proof Hok as ([Hw _] & [Hh _] & _).
  pose proof (bounded_rect _ _ l t r b Hw Hh Hr) as Hbd.
  destruct (clip_to_bounds _ _ l t r b) as [[[[l' t'] r'] b']|].
  2:{ exists self. split; [done|]. apply drawn_id; [done|]. intros x y [? ?].
      unfold masked. by rewrite Hbd. }
  destruct Hbd as [Hin Hmask].
  destruct (draw_masked self sub (fun F x y => g (F x y)) l' t' r' b' clip Hok)
    as (self' & -> & Hd).
  - intros F F' HF x y. by rewrite HF.
  - intros rc _. apply masked_local. intros F F' HF x y Hx Hy _. by rewrite HF.
  - done.
  - intros rc self0 Hi Hok0 Ew Eh. apply Hsub; [done|]. rewrite Ew, Eh. by eapply inside_in.
  - exists self'. split; [done|]. revert Hd. apply drawn_ext. intros x y [Hx Hy].
    rewrite foldl_masked_iter. unfold masked. by rewrite Hmask.
Qed.

Lemma fill_rect_drawn self l t r b colour clip : surface_ok self ->
  op_ok (OpFill l t r b colour clip) ->
  exists self', fill_rect self l t r b colour clip = Some self' /\
    drawn self self' (op_image (ds_width self) (ds_height self) (OpFill l t r b colour clip)).
Proof.
  intros Hok (Hr & Hc & _).
  destruct (draw_pointwise self (fill_subrect colour) (fun _ => colour) l t r b clip Hok Hr)
    as (self' & E & Hd).
  { intros rc self0 Hok0 Hin. destruct rc. by apply fill_subrect_paints. }
  exists self'. split; [exact E|]. revert Hd. apply drawn_ext. intros x y _. unfold op_image, masked.
  rewrite iter_const, existsb_filter. by destruct (in_clip _ x y), (0 <? _).
Qed.

Lemma invert_rect_drawn self l t r b clip : surface_ok self ->
  op_ok (OpInvert l t r b clip) ->
  exists self', invert_rect self l t r b clip = Some self' /\
    drawn self self' (op_image (ds_width self) (ds_height self) (OpInvert l t r b clip)).
Proof.
  intros Hok (Hr & _). apply draw_pointwise; [done|done|].
  intros rc self0 Hok0 Hin. destruct rc. by apply invert_subrect_paints.
Qed.

(** The destination of [copy_bits] after the two clips of its source. *)
Lemma shrink_spec lo hi s limit : 0 <= lo < hi -> hi <= limit -> 0 <= s < limit ->
  limit <= MAX_SURFACE_DIMENSION ->
  match shrink lo hi (saturating_add_u32 s (hi - lo)) limit with
  | Some hi' => hi' = Z.min hi (limit - s + lo) /\ lo < hi'
  | None => False
  end.
Proof.
  intros ? ? ? Hm. unfold MAX_SURFACE_DIMENSION in Hm. unfold shrink, saturating_add_u32, u32_max.
  rewrite Z.min_l by lia. case_bool; lia.
Qed.

Lemma u32_add_ok a b : 0 <= a -> 0 <= b -> a + b <= MAX_SURFACE_DIMENSION -> u32_add a b = Some (a + b).
Proof.
  unfold MAX_SURFACE_DIMENSION, u32_add, no_overflow. intros.
  by rewrite (proj2 (Z.leb_le _ _)), (proj2 (Z.ltb_lt _ _)) by lia.
Qed.

Lemma copy_shifted_paints sx sy dl dt dr db rc self : surface_ok self ->
  rect_in (ds_width self) (ds_height self) (mkDamageRect dl dt dr db) -> inside dl dt dr db rc ->
  0 <= sx -> sx + (dr - dl) <= ds_width self -> 0 <= sy -> sy + (db - dt) <= ds_height self ->
  exists self', copy_shifted sx sy dl dt (dr_left rc) (dr_top rc) (dr_right rc) (dr_bottom rc) self =
      Some self' /\
    paints self self' (masked (fun F x y => F (x - dl + sx) (y - dt + sy)) (in_rectb rc)).
Proof.
  intros Hok Hin Hi ? ? ? ?. unfold copy_shifted.
  pose proof (inside_in _ _ _ _ _ _ _ Hin Hi) as Hrc.
  pose proof Hok as ([? ?] & [? ?] & _). destruct Hi as (? & ? & ? & ?).
  rewrite !u32_add_ok by lia. cbn [mbind option_bind].
  destruct (copy_subrect_paints (sx + (dr_left rc - dl)) (sy + (dr_top rc - dt))
    (dr_left rc) (dr_top rc) (dr_right rc) (dr_bottom rc) self) as (self' & -> & Hp).
  - done.
  - by destruct rc.
  - lia.
  - lia.
  - lia.
  - lia.
  - exists self'. split; [done|]. destruct Hp as (px' & ? & ? & ? & Hs). exists px'.
    split_and!; [done|done|done|]. intros x y Hon. rewrite Hs by done. destruct rc.
    unfold copy_image, masked. cbn. destruct (in_rectb _ x y); [|done]. f_equal; lia.
Qed.

(** A mask that is empty on the surface. *)
Ltac mask_false :=
  intros; cbn; apply not_true_iff_false;
  rewrite ?orb_true_iff, ?andb_true_iff, ?Z.leb_le, ?Z.ltb_lt in *; lia.

Lemma copy_bits_drawn self sx sy l t r b clip : surface_ok self ->
  op_ok (OpCopy sx sy l t r b clip) ->
  exists self', copy_bits self sx sy l t r b clip = Some self' /\
    drawn self self' (op_image (ds_width self) (ds_height self) (OpCopy sx sy l t r b clip)).
Proof.
  intros Hok (Hsx & Hsy & (Hl & Ht & Hr & Hb) & _). unfold copy_bits, in_unsigned in *.
  pose proof Hok as ([Hw Hw'] & [Hh Hh'] & _).
  set (w := ds_width self) in *. set (h := ds_height self) in *.
  (** Nothing to draw: no mask is set on the surface. *)
  assert (forall (Hno : forall x y, 0 <= x < w -> 0 <= y < h ->
      in_clip (l, t, r, b) x y && (x - l + sx <? w) && (y - t + sy <? h) = false),
    exists self', Some self = Some self' /\ drawn self self' (op_image w h (OpCopy sx sy l t r b clip)))
    as Hnone.
  { intros Hno. exists self. split; [done|]. apply drawn_id; [done|]. intros x y [Hx Hy]. cbn.
    generalize (shows self) as F. induction (clips clip) as [|m ms IH]; intros F; [done|]. cbn.
    rewrite IH. unfold masked. specialize (Hno x y Hx Hy). cbn in Hno.
    destruct (m x y); [by rewrite andb_true_r, Hno|by rewrite andb_false_r]. }
  replace (if w <? r then w else r) with (Z.min r w) by (case_bool; lia).
  replace (if h <? b then h else b) with (Z.min b h) by (case_bool; lia).
  destruct ((r <=? l) || (b <=? t)) eqn:E1; [apply Hnone; mask_false|].
  destruct ((Z.min r w <=? l) || (Z.min b h <=? t)) eqn:E2; [apply Hnone; mask_false|].
  destruct ((w <=? sx) || (h <=? sy)) eqn:E3; [apply Hnone; mask_false|]. clear Hnone.
  rewrite orb_false_iff, !Z.leb_gt in E1, E2, E3. destruct E1, E2, E3.
  pose proof (shrink_spec l (Z.min r w) sx w) as Hsr.
  destruct (shrink l (Z.min r w) _ w) as [dr|]; [|exfalso; apply Hsr; lia].
  destruct Hsr as [Edr ?]; [lia..|].
  pose proof (shrink_spec t (Z.min b h) sy h) as Hsb.
  destruct (shrink t (Z.min b h) _ h) as [db|]; [|exfalso; apply Hsb; lia].
  destruct Hsb as [Edb ?]; [lia..|].
  rewrite !(proj2 (Z.leb_gt _ _)) by lia. cbn [orb].
  assert (rect_in w h (mkDamageRect l t dr db)) as Hin by (unfold rect_in; cbn; lia).
  destruct (draw_masked self (copy_shifted sx sy l t) (fun F x y => F (x - l + sx) (y - t + sy))
    l t dr db clip Hok) as (self' & -> & Hd).
  - intros F F' HF x y. apply HF.
  - intros rc Hi. apply masked_local. intros F F' HF x y Hx Hy Hc.
    apply in_rectb_spec in Hc as [? ?]. destruct Hi as (? & ? & ? & ?). apply HF; subst w h; lia.
  - done.
  - intros rc self0 Hi Hok0 Ew Eh. apply (copy_shifted_paints sx sy l t dr db); try done; rewrite ?Ew, ?Eh; fold w h; done || lia.
  - exists self'. split; [done|]. revert Hd. apply drawn_ext. intros x y [Hx Hy]. unfold op_image.
    apply (foldl_masked_on w h); [| |done|done].
    + intros m x' y' Hx' Hy'. unfold in_rectb, in_clip. cbn. rewrite Edr, Edb.
      destruct (m x' y'); rewrite ?andb_true_r, ?andb_false_r; [|done]. apply eq_true_iff_eq. rewrite !andb_true_iff, !Z.leb_le, !Z.ltb_lt. lia.
    + intros F F' HF m x' y' Hx' Hy' Hm. unfold in_clip in Hm.
      rewrite !andb_true_iff, !Z.leb_le, !Z.ltb_lt in Hm. apply HF; lia.
Qed.

(** ** The image operations *)

Lemma upd_paints_mask self px' R f (P : Z -> Z -> bool) (T : image -> image) :
  upd (ds_pixels self) px' R f ->
  0 <= ds_width self ->
  (forall x y, on_surface self x y -> R (y * ds_width self + x) <-> P x y = true) ->
  (forall x y, on_surface self x y ->
     T (shows self) x y = if P x y then f (y * ds_width self + x) (shows self x y)
                          else shows self x y) ->
  paints self (with_pixels self px') T.
Proof.
  intros (Hl & Hb & H) Hw HR HT. exists px'. split_and!; [done|done|done|].
  intros x y Hon. rewrite HT by done. unfold shows at 1. cbn [ds_pixels ds_width with_pixels].
  destruct (H (y * ds_width self + x)) as [Hyes Hno]; [destruct Hon; nia|].
  specialize (HR x y Hon). destruct (P x y) eqn:E; [by apply Hyes, HR|].
  apply Hno. rewrite HR. congruence.
Qed.

(** A painted image with its damage recorded. *)
Lemma drawn_painted self self1 T l t r b : surface_ok self -> paints self self1 T ->
  u32 l -> u32 t -> u32 r -> u32 b ->
  (forall x y, on_surface self x y -> T (shows self) x y <> shows self x y ->
     covers (mkDamageRect l t r b) x y) ->
  exists self2, add_damage self1 l t r b = Some self2 /\ drawn self (set_dirty self2 true) T.
Proof.
  intros Hok Hp Hl Ht Hr Hb HT. pose proof (paints_ok _ _ _ Hok Hp) as Hok1.
  destruct (add_damage_ok self1 l t r b) as (self2 & -> & Hok2 & Hg & Hd & Hpx & Hk); [done..|].
  exists self2. split; [done|]. destruct Hp as (px' & -> & _ & _ & Hs).
  assert (forall x y, on_surface self x y -> shows (set_dirty self2 true) x y = T (shows self) x y) as Hs'.
  { intros x y Hon. rewrite <- Hs by done. unfold shows. cbn. rewrite Hpx.
    destruct Hg as (_ & -> & _). done. }
  split; [done|]. split; [done|]. split; [done|]. split; [|split; [|done]].
  - intros x y Hc. apply Hk. by left.
  - intros x y Hon Hne. split; [|done]. apply Hk. right. constructor. apply HT; [done|].
    by rewrite <- Hs'.
Qed.

Lemma pixel_div w a x : 0 <= x < w -> (a * w + x) / w = a /\ (a * w + x) mod w = x.
Proof.
  intros Hx. split.
  - rewrite Z.div_add_l, (Z.div_small x) by lia. lia.
  - rewrite Z.add_comm, Z.mod_add, Z.mod_small by lia. lia.
Qed.

(** The source pixel of destination pixel [i]. *)
Definition src_index (w l t wd i : Z) : Z := (i / w - t) * wd + (i mod w - l).

Lemma src_index_at w l t wd x y : 0 <= x < w ->
  src_index w l t wd (y * w + x) = (y - t) * wd + (x - l).
Proof. intros Hx. unfold src_index. by destruct (pixel_div w y x Hx) as [-> ->]. Qed.

(** The rows of [blit]: row [y] draws its [n] pixels if the source has them. *)
Lemma blit_rows_upd px pixels w h l t wd ht n : bytes px -> bytes pixels ->
  0 <= l -> l + n <= w -> 0 <= t -> 0 <= n <= wd -> 0 <= ht -> zlen px = 4 * (h * w) ->
  exists px', for_n_break (Z.to_nat ht) 0
      (blit_row pixels h t (wd * 4) (w * 4) (l * 4) (4 * n)) px = Some px' /\
    upd px px' (fun i => exists y, 0 <= y < Z.min ht (h - t) /\
        4 * (y * wd + n) <= zlen pixels /\ exists x, 0 <= x < n /\ i = (t + y) * w + (l + x))
      (fun i _ => pixel_at pixels (src_index w l t wd i)).
Proof.
  intros Hb Hbs ? ? ? ? ? Hlen.
  destruct (for_n_break_upd id no_rel
    (fun y i => 4 * (y * wd + n) <= zlen pixels /\ exists x, 0 <= x < n /\ i = (t + y) * w + (l + x))
    (fun i _ => pixel_at pixels (src_index w l t wd i)) (zlen px)
    ltac:(intros k k' i [_ (c & ? & ->)] [_ (c' & ? & Ei)]; apply pixel_index_inj in Ei; lia)
    (h - t) (Z.to_nat ht) 0 (blit_row pixels h t (wd * 4) (w * 4) (l * 4) (4 * n)) px)
    as (px' & -> & Hu & _).
  - intros y px1 Hy Hy' Hlp Hbp. unfold id, blit_row in *. rewrite (proj2 (Z.leb_gt _ _)) by lia.
    assert ((t + y) * w + w <= h * w) as Hrow by nia.
    rewrite (proj2 (Z.leb_le ((t + y) * (w * 4) + l * 4 + 4 * n) _)), andb_true_r by lia.
    destruct (Z.leb_spec (y * (wd * 4) + 4 * n) (zlen pixels)) as [Hfit|Hfit].
    + destruct (copy_row_upd px1 pixels ((t + y) * w + l) (y * wd) n) as (row & px2 & Hs & Hc & Hu);
        [nia|nia|lia|lia|lia|done|done|].
      replace (y * (wd * 4)) with (4 * (y * wd)) by lia. rewrite Hs. cbn [mbind option_bind].
      replace ((t + y) * (w * 4) + l * 4) with (4 * ((t + y) * w + l)) by lia. rewrite Hc.
      cbn [mbind option_bind]. exists px2. split; [done|]. split; [|done].
      eapply upd_iff; [| |exact Hu].
      * intros i _. split; [|intros (_ & c & ? & ->); lia].
        intros Hi. split; [lia|]. exists (i - ((t + y) * w + l)). lia.
      * cbn. intros i _ _ Hi. f_equal.
        replace i with ((t + y) * w + (i - (t + y) * w)) at 2 by lia.
        rewrite src_index_at by lia. lia.
    + exists px1. split; [done|]. split; [|done]. apply upd_refl; [done|]. intros i [? _]. lia.
  - intros y px1 Hy _. unfold blit_row. by rewrite (proj2 (Z.leb_le _ _)) by lia.
  - done.
  - done.
  - exists px'. split; [done|]. eapply upd_iff; [| |exact Hu]; [|done].
    intros i _. split; intros (y & ? & ?); exists y; (split; [lia|done]).
Qed.

Lemma blit_paints self px' l t wd ht pixels : surface_ok self ->
  0 <= l < ds_width self -> 0 <= t < ds_height self -> 0 <= wd -> 0 <= ht ->
  upd (ds_pixels self) px' (fun i => exists y, 0 <= y < Z.min ht (ds_height self - t) /\
      4 * (y * wd + Z.min wd (ds_width self - l)) <= zlen pixels /\
      exists x, 0 <= x < Z.min wd (ds_width self - l) /\ i = (t + y) * ds_width self + (l + x))
    (fun i _ => pixel_at pixels (src_index (ds_width self) l t wd i)) ->
  paints self (with_pixels self px')
    (op_image (ds_width self) (ds_height self) (OpBlit l t wd ht pixels)).
Proof.
  intros ([Hw _] & _) ? ? ? ? Hu.
  apply (upd_paints_mask _ _ _ _ (fun x y => in_clip (l, t, l + wd, t + ht) x y &&
    (4 * ((y - t) * wd + Z.min wd (ds_width self - l)) <=? zlen pixels)) _ Hu Hw).
  - intros x y [Hx Hy]. unfold in_clip.
    rewrite !andb_true_iff, !Z.leb_le, !Z.ltb_lt. split.
    + intros (k & ? & ? & c & ? & Ei). apply pixel_index_inj in Ei as [-> ->]; lia.
    + intros ?. exists (y - t). split; [lia|]. split; [lia|]. exists (x - l). lia.
  - intros x y [Hx Hy]. unfold op_image, masked. destruct (_ && _); [|done].
    by rewrite src_index_at.
Qed.

Lemma blit_drawn self l t wd ht pixels : surface_ok self -> op_ok (OpBlit l t wd ht pixels) ->
  exists self', blit self l t wd ht pixels = Some self' /\
    drawn self self' (op_image (ds_width self) (ds_height self) (OpBlit l t wd ht pixels)).
Proof.
  intros Hok (Hl & Ht & Hwd & Hht & Hbs). pose proof Hok as ([Hw Hw'] & [Hh Hh'] & Hlen & Hb & _).
  unfold in_unsigned, MAX_SURFACE_DIMENSION, blit in *.
  destruct (_ || _) eqn:E.
  { rewrite orb_true_iff, !Z.leb_le in E.
    exists self. split; [done|]. apply drawn_id; [done|]. intros x y [Hx Hy]. unfold op_image, masked.
    assert (in_clip (l, t, l + wd, t + ht) x y = false) as ->; [|done]. mask_false. }
  rewrite orb_false_iff, !Z.leb_gt in E. destruct E as [Hlw Hth].
  replace (Z.min (wd * 4) (saturating_sub (ds_width self * 4) (l * 4)))
    with (4 * Z.min wd (ds_width self - l)) by (unfold saturating_sub; lia).
  destruct (blit_rows_upd (ds_pixels self) pixels (ds_width self) (ds_height self) l t wd ht
    (Z.min wd (ds_width self - l))) as (px' & -> & Hu); [done|done|lia..|].
  apply blit_paints in Hu; [|done|lia|lia|lia|lia]. cbn [mbind option_bind].
  rewrite (Z.mul_comm 4), Z.div_mul, as_unsigned_id, u32_add_ok
    by (unfold MAX_SURFACE_DIMENSION, in_unsigned; lia).
  cbn [mbind option_bind].
  destruct (drawn_painted _ _ _ l t (l + Z.min wd (ds_width self - l))
    (Z.min (saturating_add_u32 t ht) (ds_height self)) Hok Hu) as (self2 & -> & Hd);
    [unfold in_unsigned, saturating_add_u32, u32_max; lia..| |cbn; by eexists].
  intros x y [Hx Hy]. unfold op_image, masked.
  destruct (in_clip _ x y) eqn:E; [|done]. intros _. unfold in_clip in E.
  rewrite !andb_true_iff, !Z.leb_le, !Z.ltb_lt in E.
  unfold covers, saturating_add_u32, u32_max. cbn. lia.
Qed.

(** The loops of [blit_chroma] and [blit_alpha]: a round draws the next source
    pixel with [g] if it satisfies [P], and breaks where the source ends. *)
Section source_loop.
Context {St : Type} (pr : St -> list Z) (Q : St -> St -> Prop).
Context `{Q_refl : !Reflexive Q} `{Q_trans : !Transitive Q}.
Context (pixels : list Z) (body : Z -> Z -> Z -> St -> option (St + St)).
Context (P : rgba -> bool) (g : rgba -> rgba -> rgba) (N w l t wd n m : Z).
Hypothesis Hstep : forall j i src_row dst_row x st,
  zlen (pr st) = N -> bytes (pr st) -> 0 <= j -> 0 <= i ->
  4 * j + 4 <= zlen pixels -> 4 * i + 4 <= N ->
  src_row + x * 4 = 4 * j -> dst_row + x * 4 = 4 * i ->
  exists st', body src_row dst_row x st = Some (inl st') /\
    upd (pr st) (pr st') (fun k => k = i /\ P (pixel_at pixels j) = true)
      (fun _ c => g (pixel_at pixels j) c) /\ Q st st'.
Hypothesis Hbreak : forall src_row dst_row x st,
  zlen pixels < src_row + x * 4 + 4 -> body src_row dst_row x st = Some (inr st).
Hypothesis Hdims : 0 <= l /\ l + n <= w /\ 0 <= t /\ 0 <= n <= wd /\ 4 * ((t + m) * w) <= N.

Definition drawn_at (y x i : Z) : Prop :=
  0 <= x < n /\ i = (t + y) * w + (l + x) /\ 4 * (y * wd + x) + 4 <= zlen pixels /\
  P (pixel_at pixels (y * wd + x)) = true.

Definition drawn_with (i : Z) (c : rgba) : rgba := g (pixel_at pixels (src_index w l t wd i)) c.

Lemma source_row_upd y st : 0 <= y < m -> zlen (pr st) = N -> bytes (pr st) ->
  exists st', for_n_break (Z.to_nat n) 0
      (body (y * (wd * 4)) ((t + y) * (w * 4) + l * 4)) st = Some st' /\
    upd (pr st) (pr st') (fun i => exists x, drawn_at y x i) drawn_with /\ Q st st'.
Proof using Hstep Hbreak Hdims Q_refl Q_trans.
  intros Hy Hl Hb. destruct Hdims as (? & ? & ? & ? & ?).
  assert ((t + y) * w + w <= (t + m) * w) as Hrow by nia.
  destruct (for_n_break_upd pr Q (drawn_at y) drawn_with N
    ltac:(intros k k' i (? & -> & _) (? & ? & _); lia)
    ((zlen pixels - y * wd * 4) / 4) (Z.to_nat n) 0
    (body (y * (wd * 4)) ((t + y) * (w * 4) + l * 4)) st) as (st' & -> & Hu & HQ).
  - intros x st1 Hx Hlt Hl1 Hb1.
    assert (4 * (y * wd + x) + 4 <= zlen pixels) as Hsrc
      by (pose proof (Z.mul_div_le (zlen pixels - y * wd * 4) 4); lia).
    destruct (Hstep (y * wd + x) ((t + y) * w + (l + x)) (y * (wd * 4)) ((t + y) * (w * 4) + l * 4) x st1)
      as (st2 & -> & Hu & HQ); [done|done|nia|nia|lia|nia|lia|lia|].
    exists st2. split; [done|]. split; [|done]. eapply upd_iff; [| |exact Hu].
    + intros i _. unfold drawn_at. split; [intros [-> ?]; split_and!; lia || done|tauto].
    + intros i c _ [-> _]. unfold drawn_with. rewrite src_index_at by lia.
      do 2 f_equal. lia.
  - intros x st1 Hx _. apply Hbreak.
    pose proof (Z.mul_succ_div_gt (zlen pixels - y * wd * 4) 4). lia.
  - done.
  - done.
  - exists st'. split; [done|]. split; [|done]. eapply upd_iff; [| |exact Hu]; [|done].
    intros i _. split; [intros (x & _ & ?); by exists x|]. intros (x & Hd). exists x.
    split; [|done]. destruct Hd as (? & _ & ? & _). split; [lia|].
    apply Z.min_glb_lt; [lia|]. apply Z.lt_le_trans with (x + 1); [lia|].
    apply Z.div_le_lower_bound; lia.
Qed.

Lemma source_loop_upd st : zlen (pr st) = N -> bytes (pr st) ->
  exists st', for_range 0 m (fun y st =>
      for_n_break (Z.to_nat n) 0 (body (y * (wd * 4)) ((t + y) * (w * 4) + l * 4)) st) st = Some st' /\
    upd (pr st) (pr st') (fun i => exists x y, 0 <= y < m /\ drawn_at y x i) drawn_with /\ Q st st'.
Proof using Hstep Hbreak Hdims Q_refl Q_trans.
  intros Hl Hb. destruct Hdims as (? & ? & ? & ? & ?). unfold for_range.
  destruct (for_n_upd pr Q (fun y i => exists x, drawn_at y x i) drawn_with N
    ltac:(intros y y' i (x & ? & -> & _) (x' & ? & Ei & _); apply pixel_index_inj in Ei; lia)
    (Z.to_nat (m - 0)) 0 (fun y st =>
      for_n_break (Z.to_nat n) 0 (body (y * (wd * 4)) ((t + y) * (w * 4) + l * 4)) st) st)
    as (st' & -> & Hu & HQ).
  - intros y st1 Hy. apply source_row_upd. lia.
  - done.
  - done.
  - exists st'. split; [done|]. split; [|done]. eapply upd_iff; [| |exact Hu]; [|done].
    intros i _. split.
    + intros (y & ? & x & ?). exists x, y. split; [lia|done].
    + intros (x & y & ? & ?). exists y. split; [lia|]. by exists x.
Qed.
End source_loop.

Lemma get_pixel_ok pixels j p : 0 <= j -> 4 * j + 4 <= zlen pixels -> p = 4 * j ->
  get_pixel pixels p = Some (pixel_at pixels j).
Proof.
  intros Hj Hl ->. unfold get_pixel. by rewrite !byte_at_index by lia.
Qed.

Lemma pixel_at_u8 px i : bytes px -> rgba_u8 (pixel_at px i).
Proof. intros Hb. unfold pixel_at, rgba_u8. split_and!; by apply byte_at_u8. Qed.

(** The flag [wrote] is set when the buffer changed. *)
Definition wrote_rel (st st' : list Z * bool) : Prop := st'.2 = true \/ st' = st.
#[export] Instance wrote_rel_refl : Reflexive wrote_rel.
Proof. intros st. by right. Qed.
#[export] Instance wrote_rel_trans : Transitive wrote_rel.
Proof. intros st1 st2 st3 H1 [H2|H2]; [by left|]. rewrite H2. exact H1. Qed.

Lemma chroma_pixel_step pixels chroma j i src_row dst_row x st : bytes pixels ->
  bytes st.1 -> 0 <= j -> 0 <= i -> 4 * j + 4 <= zlen pixels -> 4 * i + 4 <= zlen st.1 ->
  src_row + x * 4 = 4 * j -> dst_row + x * 4 = 4 * i ->
  exists st', chroma_pixel pixels chroma src_row dst_row x st = Some (inl st') /\
    upd st.1 st'.1 (fun k => k = i /\ negb (same_rgb (pixel_at pixels j) chroma) = true)
      (fun _ _ => pixel_at pixels j) /\ wrote_rel st st'.
Proof.
  intros Hbs Hb Hj Hi Hlj Hli Es Ed. destruct st as [px wrote]. cbn [fst] in *.
  unfold chroma_pixel. destruct chroma as [[[cr cg] cb] ca]. rewrite Es, Ed.
  rewrite (proj2 (Z.ltb_ge _ _)) by lia. rewrite (get_pixel_ok pixels j) by (done || lia).
  cbn [mbind option_bind]. pose proof (pixel_at_u8 pixels j Hbs) as Hu.
  destruct (pixel_at pixels j) as [[[sr sg] sb] sa] eqn:Epx. cbn [same_rgb].
  destruct ((sr =? cr) && (sg =? cg) && (sb =? cb)) eqn:Ec; cbn [negb].
  - exists (px, wrote). split; [done|]. split; [|by right]. apply upd_refl; [done|]. intros k [_ ?]. done.
  - destruct (put_pixel_upd px i (sr, sg, sb, sa) (fun _ _ => (sr, sg, sb, sa)))
      as (px' & -> & Hupd); [done|lia|done|exact Hu|done|].
    cbn [mbind option_bind]. exists (px', true). split; [done|]. split; [|by left].
    eapply upd_iff; [| |exact Hupd]; [|done]. intros k _. split; [done|]. by intros [-> _].
Qed.

Lemma no_overflow_ok w x : 0 <= x < 2 ^ w -> no_overflow w x = Some x.
Proof.
  intros Hx. unfold no_overflow. by rewrite (proj2 (Z.leb_le _ _)), (proj2 (Z.ltb_lt _ _)) by lia.
Qed.

(** The blend of two bytes stays in [u16], and its result in a byte. *)
Lemma blend_ok s d a : u8 s -> u8 d -> u8 a ->
  u8 ((s * a + d * (255 - a) + 127) / 255) /\
  blend s d a (255 - a) = Some ((s * a + d * (255 - a) + 127) / 255).
Proof.
  unfold in_unsigned. change (2 ^ 8) with 256. intros Hs Hd Ha.
  assert (0 <= s * a <= 255 * a) by nia. assert (0 <= d * (255 - a) <= 255 * (255 - a)) by nia.
  assert (0 <= (s * a + d * (255 - a) + 127) / 255 < 256).
  { split; [apply Z.div_pos; lia|apply Z.div_lt_upper_bound; lia]. }
  split; [done|]. unfold blend. repeat (rewrite !no_overflow_ok by lia; cbn [mbind option_bind]).
  by rewrite as_unsigned_id.
Qed.

Lemma alpha_pixel_step pixels alpha j i src_row dst_row x px : bytes pixels -> u8 alpha ->
  bytes px -> 0 <= j -> 0 <= i -> 4 * j + 4 <= zlen pixels -> 4 * i + 4 <= zlen px ->
  src_row + x * 4 = 4 * j -> dst_row + x * 4 = 4 * i ->
  exists px', alpha_pixel pixels alpha src_row dst_row x px = Some (inl px') /\
    upd px px' (fun k => k = i) (fun _ c => blended (pixel_at pixels j) c alpha).
Proof.
  intros Hbs Hal Hb Hj Hi Hlj Hli Es Ed. unfold alpha_pixel. rewrite Es, Ed.
  rewrite (proj2 (Z.ltb_ge _ _)) by lia. rewrite (get_pixel_ok pixels j) by (done || lia).
  cbn [mbind option_bind]. pose proof (pixel_at_u8 pixels j Hbs) as Hu.
  destruct (pixel_at pixels j) as [[[sr sg] sb] sa] eqn:Epx. destruct Hu as (Hr & Hg & Hbl & Ha).
  pose proof (pixel_at_u8 px i Hb) as (Hdr & Hdg & Hdb & _).
  assert (0 <= sa * alpha <= 255 * 255) by (unfold in_unsigned in *; nia).
  do 2 (rewrite !no_overflow_ok by lia; cbn [mbind option_bind]).
  assert (u8 ((sa * alpha + 127) / 255)) as Hea.
  { unfold in_unsigned. split; [apply Z.div_pos; lia|apply Z.div_lt_upper_bound; lia]. }
  rewrite !no_overflow_ok by (unfold in_unsigned in *; lia). cbn [mbind option_bind].
  rewrite !byte_at_index by lia. cbn [mbind option_bind].
  destruct (blend_ok sr _ _ Hr Hdr Hea) as [Hor ->], (blend_ok sg _ _ Hg Hdg Hea) as [Hog ->],
    (blend_ok sb _ _ Hbl Hdb Hea) as [Hob ->]. cbn [mbind option_bind].
  destruct (put_pixel_upd px i (blended (sr, sg, sb, sa) (pixel_at px i) alpha)
    (fun _ c => blended (sr, sg, sb, sa) c alpha)) as (px' & Hpx & Hupd).
  - done.
  - lia.
  - done.
  - unfold pixel_at, blended. split_and!; try done.
  - done.
  - unfold blended, pixel_at in Hpx. cbn in Hpx. cbn. rewrite Hpx. cbn. by exists px'.
Qed.

(** What the two operations show, and what they damage. *)
Definition source_image (pixels : list Z) (P : rgba -> bool) (g : rgba -> rgba -> rgba)
    (l t wd ht : Z) : image -> image :=
  masked (fun F x y => g (pixel_at pixels ((y - t) * wd + (x - l))) (F x y))
    (fun x y => in_clip (l, t, l + wd, t + ht) x y &&
       (4 * ((y - t) * wd + (x - l)) + 4 <=? zlen pixels) &&
       P (pixel_at pixels ((y - t) * wd + (x - l)))).

Lemma source_paints self px' pixels P g l t wd ht : surface_ok self ->
  0 <= l < ds_width self -> 0 <= t < ds_height self -> 0 <= wd -> 0 <= ht ->
  upd (ds_pixels self) px' (fun i => exists x y, 0 <= y < Z.min ht (ds_height self - t) /\
      drawn_at pixels P (ds_width self) l t wd (Z.min wd (ds_width self - l)) y x i)
    (drawn_with pixels g (ds_width self) l t wd) ->
  paints self (with_pixels self px') (source_image pixels P g l t wd ht).
Proof.
  intros Hok Hl Ht Hwd Hht Hu. pose proof Hok as ([Hw _] & _).
  apply (upd_paints_mask _ _ _ _ (fun x y => in_clip (l, t, l + wd, t + ht) x y &&
       (4 * ((y - t) * wd + (x - l)) + 4 <=? zlen pixels) &&
       P (pixel_at pixels ((y - t) * wd + (x - l)))) _ Hu Hw).
  - intros x y [Hx Hy]. cbn beta. unfold in_clip, drawn_at.
    rewrite !andb_true_iff, !Z.leb_le, !Z.ltb_lt. split.
    + intros (x' & y' & ? & ? & Ei & ? & HP). apply pixel_index_inj in Ei as [-> ->]; [|lia|lia].
      replace ((t + y' - t) * wd + (l + x' - l)) with (y' * wd + x') by ring.
      generalize dependent (y' * wd + x'). intros j Hj HP. split_and!; lia || done.
    + intros [[? ?] HP]. exists (x - l), (y - t). generalize dependent ((y - t) * wd + (x - l)).
      intros j Hj HP. split_and!; try done; try lia.
  - intros x y [Hx Hy]. unfold source_image, masked, drawn_with. cbn beta.
    destruct (_ && _); [|done]. by rewrite src_index_at.
Qed.

Lemma source_image_off self pixels P g l t wd ht :
  0 <= l < ds_width self -> 0 <= t < ds_height self ->
  forall x y, on_surface self x y ->
    source_image pixels P g l t wd ht (shows self) x y <> shows self x y ->
    covers (mkDamageRect l t (l + Z.min wd (ds_width self - l)) (t + Z.min ht (ds_height self - t))) x y.
Proof.
  intros Hl Ht x y [Hx Hy]. unfold source_image, masked.
  destruct (in_clip _ x y) eqn:E; [|done]. intros _. unfold in_clip in E.
  rewrite !andb_true_iff, !Z.leb_le, !Z.ltb_lt in E. unfold covers. cbn. lia.
Qed.

Lemma source_image_none self pixels P g l t wd ht : surface_ok self ->
  ds_width self <= l \/ ds_height self <= t \/ wd = 0 \/ ht = 0 ->
  drawn self self (source_image pixels P g l t wd ht).
Proof.
  intros Hok Hn. apply drawn_id; [done|]. intros x y [Hx Hy]. unfold source_image, masked.
  assert (in_clip (l, t, l + wd, t + ht) x y = false) as ->; [|done]. mask_false.
Qed.

Lemma blit_chroma_drawn self l t wd ht pixels chroma : surface_ok self ->
  op_ok (OpChroma l t wd ht pixels chroma) ->
  exists self', blit_chroma self l t wd ht pixels chroma = Some self' /\
    drawn self self' (op_image (ds_width self) (ds_height self) (OpChroma l t wd ht pixels chroma)).
Proof.
  intros Hok (Hl & Ht & Hwd & Hht & Hbs).
  change (op_image _ _ _) with
    (source_image pixels (fun s => negb (same_rgb s chroma)) (fun s _ => s) l t wd ht).
  pose proof Hok as ([Hw Hw'] & [Hh Hh'] & Hlen & Hb & _).
  unfold in_unsigned, MAX_SURFACE_DIMENSION, blit_chroma in *.
  destruct (_ || _) eqn:E1.
  { exists self. split; [done|]. apply source_image_none; [done|].
    rewrite orb_true_iff, !Z.leb_le in E1. tauto. }
  rewrite orb_false_iff, !Z.leb_gt in E1. destruct E1 as [Hlw Hth].
  destruct (_ || _) eqn:E2.
  { exists self. split; [done|]. apply source_image_none; [done|].
    rewrite orb_true_iff, !Z.eqb_eq in E2. tauto. }
  rewrite orb_false_iff, !Z.eqb_neq in E2. rewrite !(proj2 (Z.eqb_neq _ _)) by lia. cbn [orb].
  destruct (source_loop_upd fst wrote_rel pixels (chroma_pixel pixels chroma)
    (fun s => negb (same_rgb s chroma)) (fun s _ => s) (zlen (ds_pixels self)) (ds_width self)
    l t wd (Z.min wd (ds_width self - l)) (Z.min ht (ds_height self - t))) with
    (st := (ds_pixels self, false)) as ([px' wrote] & -> & Hu & HQ).
  - intros j i src_row dst_row x st Hl1 Hb1 ? ? ? ? ? ?. apply chroma_pixel_step; done || lia.
  - intros src_row dst_row x [px wrote] Hlt. unfold chroma_pixel. destruct chroma as [[[? ?] ?] ?].
    by rewrite (proj2 (Z.ltb_lt _ _)) by lia.
  - split_and!; try lia. nia.
  - done.
  - done.
  - cbn [mbind option_bind fst] in *. apply source_paints in Hu; [|done|lia|lia|lia|lia].
    destruct wrote.
    + rewrite !u32_add_ok by (unfold MAX_SURFACE_DIMENSION; lia). cbn [mbind option_bind].
      destruct (drawn_painted _ _ _ l t (l + Z.min wd (ds_width self - l))
        (t + Z.min ht (ds_height self - t)) Hok Hu) as (self2 & -> & Hd);
        [unfold in_unsigned; lia..| |cbn; by eexists].
      apply source_image_off; lia.
    + destruct HQ as [HQ|HQ]; [done|]. injection HQ as ->. exists self.
      split; [by destruct self|]. apply drawn_id; [done|].
      destruct Hu as (px & E & _ & _ & Hs). intros x y Hon. rewrite <- Hs by done. by destruct self.
Qed.

Lemma blit_alpha_drawn self l t wd ht pixels alpha : surface_ok self ->
  op_ok (OpAlpha l t wd ht pixels alpha) ->
  exists self', blit_alpha self l t wd ht pixels alpha = Some self' /\
    drawn self self' (op_image (ds_width self) (ds_height self) (OpAlpha l t wd ht pixels alpha)).
Proof.
  intros Hok (Hl & Ht & Hwd & Hht & Hbs & Hal).
  pose proof Hok as ([Hw Hw'] & [Hh Hh'] & Hlen & Hb & _).
  destruct (Z.eqb_spec alpha 0) as [->|Hne].
  { exists self. split.
    - unfold blit_alpha. rewrite orb_true_r. by destruct (_ || _).
    - apply drawn_id; [done|]. done. }
  set (T := source_image pixels (fun _ => true) (fun s d => blended s d alpha) l t wd ht).
  assert (exists self', blit_alpha self l t wd ht pixels alpha = Some self' /\ drawn self self' T)
    as (self' & E & Hd).
  2:{ exists self'. split; [done|]. revert Hd. apply drawn_ext. intros x y _.
      unfold T, source_image, op_image, masked.
      by rewrite (proj2 (Z.eqb_neq _ _)), andb_true_r by done. }
  unfold in_unsigned, MAX_SURFACE_DIMENSION, blit_alpha in *.
  destruct (_ || _) eqn:E1.
  { exists self. split; [done|]. apply source_image_none; [done|].
    rewrite orb_true_iff, !Z.leb_le in E1. tauto. }
  rewrite orb_false_iff, !Z.leb_gt in E1. destruct E1 as [Hlw Hth].
  rewrite (proj2 (Z.eqb_neq alpha 0)), orb_false_r by done.
  destruct (_ || _) eqn:E2.
  { exists self. split; [done|]. apply source_image_none; [done|].
    rewrite orb_true_iff, !Z.eqb_eq in E2. tauto. }
  rewrite orb_false_iff, !Z.eqb_neq in E2. rewrite !(proj2 (Z.eqb_neq _ _)) by lia. cbn [orb].
  destruct (source_loop_upd id no_rel pixels (alpha_pixel pixels alpha)
    (fun _ => true) (fun s d => blended s d alpha) (zlen (ds_pixels self)) (ds_width self)
    l t wd (Z.min wd (ds_width self - l)) (Z.min ht (ds_height self - t))) with
    (st := ds_pixels self) as (px' & -> & Hu & _).
  - intros j i src_row dst_row x px Hl1 Hb1 ? ? ? ? ? ?. unfold id in *.
    destruct (alpha_pixel_step pixels alpha j i src_row dst_row x px) as (px1 & -> & Hu1);
      try done; [lia|]. exists px1. split; [done|]. split; [|done].
    eapply upd_iff; [| |exact Hu1]; [|done]. intros k _. tauto.
  - intros src_row dst_row x px Hlt. unfold alpha_pixel. by rewrite (proj2 (Z.ltb_lt _ _)) by lia.
  - split_and!; try lia. nia.
  - done.
  - done.
  - cbn [mbind option_bind]. unfold id in Hu. apply source_paints in Hu; [|done|lia|lia|lia|lia].
    rewrite !u32_add_ok by (unfold MAX_SURFACE_DIMENSION; lia). cbn [mbind option_bind].
    destruct (drawn_painted _ _ _ l t (l + Z.min wd (ds_width self - l))
      (t + Z.min ht (ds_height self - t)) Hok Hu) as (self2 & -> & Hd);
      [unfold in_unsigned; lia..| |cbn; by eexists].
    apply source_image_off; lia.
Qed.

(** ** Creating, and reading the state *)

Lemma region_new_ok : region_ok region_new.
Proof. split_and!; [constructor|done|unfold MAX_DAMAGE_RECTS, zlen; cbn; lia]. Qed.

Lemma region_full_ok w h : u32 w -> u32 h ->
  exists d, region_full w h = Some d /\ region_ok d /\
    forall x y, 0 <= x < w -> 0 <= y < h -> region_covers d x y.
Proof.
  intros Hw Hh. unfold region_full.
  destruct (region_add_ok region_new (mkDamageRect 0 0 w h) region_new_ok) as (d & -> & Hok & Hc & _);
    [unfold in_unsigned; cbn; lia|unfold in_unsigned; cbn; lia|done|done|].
  exists d. split; [done|]. split; [done|]. intros x y Hx Hy. apply Hc. right. by split.
Qed.

Lemma byte_at_black n k : 0 <= k < 4 * Z.of_nat n ->
  byte_at (concat (replicate n [0; 0; 0; 255])) k = if k mod 4 =? 3 then 255 else 0.
Proof.
  revert k. induction n as [|n IH]; intros k Hk; [lia|]. cbn [replicate concat].
  destruct (Z.lt_ge_cases k 4).
  - assert (k = 0 \/ k = 1 \/ k = 2 \/ k = 3) as [ -> | [ -> | [ -> | -> ] ] ] by lia; done.
  - replace (k mod 4) with ((k - 4) mod 4)
      by (rewrite <- (Z_mod_plus_full k (-1) 4); f_equal; lia).
    rewrite <- IH by lia. unfold byte_at. rewrite lookup_app_r by (cbn; lia). do 2 f_equal. cbn. lia.
Qed.

Lemma zlen_concat_replicate (l : list Z) n : 0 <= n ->
  zlen (concat (replicate (Z.to_nat n) l)) = n * zlen l.
Proof.
  intros Hn. rewrite <- (Z2Nat.id n Hn) at 2. generalize (Z.to_nat n). clear. intros n.
  induction n as [|n IH]; [done|]. cbn [replicate concat]. rewrite zlen_app, IH. lia.
Qed.

Lemma ds_new_ok id w h : u32 w -> u32 h ->
  exists self, ds_new id w h = Some self /\ surface_ok self /\ ds_dirty self = true /\
    ds_width self = Z.min w MAX_SURFACE_DIMENSION /\ ds_height self = Z.min h MAX_SURFACE_DIMENSION /\
    forall x y, on_surface self x y ->
      shows self x y = (0, 0, 0, 255) /\ region_covers (ds_damage self) x y.
Proof.
  intros [Hw Hw'] [Hh Hh']. unfold ds_new, MAX_SURFACE_DIMENSION in *.
  replace (if (16384 <? w) || (16384 <? h) then (Z.min w 16384, Z.min h 16384) else (w, h))
    with (Z.min w 16384, Z.min h 16384)
    by (destruct (Z.ltb_spec 16384 w), (Z.ltb_spec 16384 h); cbn; try done; f_equal; lia).
  cbv zeta. set (w' := Z.min w 16384). set (h' := Z.min h 16384).
  destruct (region_full_ok w' h') as (d & -> & Hd & Hc); [unfold in_unsigned; lia..|].
  cbn [mbind option_bind]. eexists. split; [done|].
  assert (zlen (concat (replicate (Z.to_nat (w' * h')) [0; 0; 0; 255])) = 4 * (h' * w')) as Hl.
  { rewrite zlen_concat_replicate by nia. change (zlen [0; 0; 0; 255]) with 4. lia. }
  split; [|split; [done|split; [done|split; [done|]]]].
  - unfold surface_ok, MAX_SURFACE_DIMENSION. cbn. split_and!; try lia; try done.
    apply Forall_concat, Forall_replicate. repeat constructor; unfold in_unsigned; lia.
  - intros x y [Hx Hy]. cbn in *. split; [|by apply Hc].
    unfold shows, pixel_at. cbn [ds_pixels ds_width]. assert (0 <= y * w' + x < h' * w') by nia.
    rewrite !byte_at_black by lia.
    assert (forall c, 0 <= c < 4 -> (4 * (y * w' + x) + c) mod 4 = c) as Hm.
    { intros c Hc'. rewrite Z.mul_comm, Z.add_comm, Z.mod_add, Z.mod_small; lia. }
    rewrite !Hm by lia. replace (4 * (y * w' + x)) with (4 * (y * w' + x) + 0) by lia.
    by rewrite Hm by lia.
Qed.

Lemma apply_op_drawn op self : surface_ok self -> op_ok op ->
  exists self', apply_op op self = Some self' /\
    drawn self self' (op_image (ds_width self) (ds_height self) op).
Proof.
  intros Hok Hop. destruct op; cbn [apply_op];
    auto using blit_drawn, blit_chroma_drawn, blit_alpha_drawn, fill_rect_drawn, copy_bits_drawn,
      invert_rect_drawn.
Qed.

(** ** Clipped copies

    [copy_bits] copies its parts one after another, each from the surface the
    one before has left.  When a part's source is another's destination, pixels
    arrive twice: the source below is a column of three colours, moved down by
    one through a clip of two parts. *)
Definition column : DisplaySurface :=
  mkDisplaySurface 0 2 3
    ([1; 1; 1; 255; 0; 0; 0; 255] ++ [2; 2; 2; 255; 0; 0; 0; 255] ++ [3; 3; 3; 255; 0; 0; 0; 255])
    false region_new.

Lemma column_ok : surface_ok column.
Proof.
  unfold surface_ok, MAX_SURFACE_DIMENSION. split; [cbn; lia|]. split; [cbn; lia|].
  split; [done|]. split; [|apply region_new_ok].
  unfold column, in_unsigned. cbn. repeat constructor; lia.
Qed.

Lemma copy_bits_reads_what_it_drew :
  exists whole parts,
    copy_bits column 0 0 0 1 2 3 [(0, 1, 2, 3)] = Some whole /\
    copy_bits column 0 0 0 1 2 3 [(0, 1, 1, 2); (0, 2, 2, 3)] = Some parts /\
    shows whole 0 2 = shows column 0 1 /\
    shows parts 0 2 = shows column 0 0 /\ shows column 0 0 <> shows column 0 1.
Proof. do 2 eexists. split; [vm_compute; reflexivity|]. split; [vm_compute; reflexivity|]. by vm_compute. Qed.

(** An inversion through two clip rectangles that overlap inverts their common
    pixels twice, where a fill through them colours the union. *)
Lemma invert_twice_is_not_the_union :
  exists inverted_twice filled,
    invert_rect column 0 0 2 3 [(0, 0, 2, 2); (0, 1, 2, 3)] = Some inverted_twice /\
    fill_rect column 0 0 2 3 (9, 9, 9, 255) [(0, 0, 2, 2); (0, 1, 2, 3)] = Some filled /\
    shows inverted_twice 0 0 = (254, 254, 254, 255) /\ shows inverted_twice 0 1 = shows column 0 1 /\
    shows filled 0 0 = (9, 9, 9, 255) /\ shows filled 0 1 = (9, 9, 9, 255).
Proof.
  do 2 eexists. split; [vm_compute; reflexivity|]. split; [vm_compute; reflexivity|]. by vm_compute.
Qed.

(** * Properties *)

(** C32: Every draw, on any surface and for any arguments of the code's types
    (positions and clip rectangles off the surface, pixel buffers too short),
    finishes without a panic and leaves the image the operation means: a blit
    its source rows, a chroma blit its unkeyed pixels, an alpha blit the rounded
    blend, a fill the colour in the union of the clip.  An inversion inverts each
    pixel as often as the clip covers it, and a copy takes the source pixels clip
    rectangle by clip rectangle, each from what the one before has left: with clip
    rectangles that overlap, or that read where another wrote, this is not the
    union of the clip and the [memmove] their comments promise
    ([invert_twice_is_not_the_union], [copy_bits_reads_what_it_drew]).  The surface stays well formed; every pixel that changed is in the
    damage and sets the dirty flag, and damage already recorded is kept. *)
Theorem surface_draws_correct self op (Hok : surface_ok self) (Hop : op_ok op) :
  exists self', apply_op op self = Some self' /\ surface_ok self' /\ same_geometry self self' /\
    (forall x y, on_surface self x y ->
       shows self' x y = op_image (ds_width self) (ds_height self) op (shows self) x y) /\
    (forall x y, region_covers (ds_damage self) x y -> region_covers (ds_damage self') x y) /\
    (forall x y, on_surface self x y -> shows self' x y <> shows self x y ->
       region_covers (ds_damage self') x y /\ ds_dirty self' = true).
Proof.
  destruct (apply_op_drawn op self Hok Hop) as (self' & E & ? & ? & ? & ? & ? & _).
  exists self'. tauto.
Qed.

Lemma surface_draws_correct_witness :
  exists self', apply_op (OpInvert 0 0 1 5 [(0, 0, 9, 1); (0, 0, 1, 2)]) column = Some self' /\
    shows self' 0 0 = (1, 1, 1, 255) /\ shows self' 0 1 = (253, 253, 253, 255).
Proof.
  destruct (surface_draws_correct column (OpInvert 0 0 1 5 [(0, 0, 9, 1); (0, 0, 1, 2)]))
    as (self' & E & _ & _ & Hs & _).
  - apply column_ok.
  - cbn. unfold in_unsigned. split; [lia|]. repeat constructor; cbn; lia.
  - exists self'. split; [exact E|]. split.
    + rewrite Hs; [reflexivity|]. unfold on_surface. cbn. lia.
    + rewrite Hs; [reflexivity|]. unfold on_surface. cbn. lia.
Defined.
