(* ===== verification/Mirror.v ===== *)
(** The surface mirror: [shakenfist-spice-renderer/src/surface_mirror.rs].

    [SurfaceMirror] applies the display channels' draw events to a map of
    surfaces; consumers keep a copy of a surface by taking its damage. *)
From Stdlib Require Import ZArith Lia.
From stdpp Require Import base numbers list gmap tactics.
From S2P Require Import Prelude Damage Surface.

Open Scope Z_scope.
Open Scope rust_scope.

(** * Model *)

(** [(display_channel_id, surface_id)] *)
Abbreviation key := (Z * Z)%type.

(** The display events; every other event is [NotDisplayEvent]. *)
Inductive ChannelEvent : Type :=
| SurfaceCreated (display_channel_id surface_id width height : Z)
| SurfaceDestroyed (display_channel_id surface_id : Z)
| ImageReady (display_channel_id surface_id left top width height : Z) (pixels : list Z)
| ImageReadyChroma (display_channel_id surface_id left top width height : Z) (pixels : list Z)
    (chroma_rgba : rgba)
| ImageReadyAlpha (display_channel_id surface_id left top width height : Z) (pixels : list Z)
    (alpha : Z)
| FillRect (display_channel_id surface_id : Z) (rect : rgba) (colour : rgba) (clip : list rgba)
| CopyBits (display_channel_id surface_id src_x src_y : Z) (dest_rect : rgba) (clip : list rgba)
| Invert (display_channel_id surface_id : Z) (rect : rgba) (clip : list rgba)
| NotDisplayEvent.

Inductive DrawOutcome : Type :=
| NotDisplay
| Created (k : key) (width height : Z)
| AutoCreated (k : key) (width height : Z)
| Destroyed (k : key)
| Drawn (k : key)
| UnknownSurface (k : key).

Record SurfaceMirror : Type := mkSurfaceMirror { surfaces : gmap key DisplaySurface }.

Definition mirror_new : SurfaceMirror := mkSurfaceMirror ∅.

(** A draw on a surface the mirror holds, through [get_mut]. *)
Definition draw_on (self : SurfaceMirror) (k : key)
    (draw : DisplaySurface -> option DisplaySurface) : option (SurfaceMirror * DrawOutcome) :=
  match surfaces self !! k with
  | Some s => s ← draw s; Some (mkSurfaceMirror (<[k := s]> (surfaces self)), Drawn k)
  | None => Some (self, UnknownSurface k)
  end.

Definition apply_event (self : SurfaceMirror) (event : ChannelEvent)
    : option (SurfaceMirror * DrawOutcome) :=
  match event with
  | SurfaceCreated display_channel_id surface_id width height =>
      let k := (display_channel_id, surface_id) in
      s ← ds_new surface_id width height;
      Some (mkSurfaceMirror (<[k := s]> (surfaces self)), Created k width height)
  | SurfaceDestroyed display_channel_id surface_id =>
      let k := (display_channel_id, surface_id) in
      match surfaces self !! k with
      | Some _ => Some (mkSurfaceMirror (delete k (surfaces self)), Destroyed k)
      | None => Some (self, UnknownSurface k)
      end
  | ImageReady display_channel_id surface_id left' top' width height pixels =>
      let k := (display_channel_id, surface_id) in
      entry ←
        match surfaces self !! k with
        | Some s => Some (s, Drawn k)
        | None =>
            let surf_w := saturating_add_u32 left' width in
            let surf_h := saturating_add_u32 top' height in
            s ← ds_new surface_id surf_w surf_h;
            Some (s, AutoCreated k surf_w surf_h)
        end;
      s ← blit (fst entry) left' top' width height pixels;
      Some (mkSurfaceMirror (<[k := s]> (surfaces self)), snd entry)
  | ImageReadyChroma display_channel_id surface_id left' top' width height pixels chroma_rgba =>
      draw_on self (display_channel_id, surface_id) (fun s =>
        blit_chroma s left' top' width height pixels chroma_rgba)
  | ImageReadyAlpha display_channel_id surface_id left' top' width height pixels alpha =>
      draw_on self (display_channel_id, surface_id) (fun s =>
        blit_alpha s left' top' width height pixels alpha)
  | FillRect display_channel_id surface_id (left', top', right', bottom') colour clip =>
      draw_on self (display_channel_id, surface_id) (fun s =>
        fill_rect s left' top' right' bottom' colour clip)
  | CopyBits display_channel_id surface_id src_x src_y (left', top', right', bottom') clip =>
      draw_on self (display_channel_id, surface_id) (fun s =>
        copy_bits s src_x src_y left' top' right' bottom' clip)
  | Invert display_channel_id surface_id (left', top', right', bottom') clip =>
      draw_on self (display_channel_id, surface_id) (fun s =>
        invert_rect s left' top' right' bottom' clip)
  | NotDisplayEvent => Some (self, NotDisplay)
  end.

(** The fallback is any key: the order of a [HashMap] is unspecified. *)
Definition primary_key (self : SurfaceMirror) : option key :=
  match surfaces self !! (0, 0) with
  | Some _ => Some (0, 0)
  | None => fst <$> head (map_to_list (surfaces self))
  end.

Definition primary_surface (self : SurfaceMirror) : option DisplaySurface :=
  k ← primary_key self; surfaces self !! k.

Definition mirror_mark_all_damaged (self : SurfaceMirror) : option SurfaceMirror :=
  m ← map_fold (fun k s (acc : option (gmap key DisplaySurface)) =>
        acc ← acc; s ← mark_all_damaged s; Some (<[k := s]> acc)) (Some ∅) (surfaces self);
  Some (mkSurfaceMirror m).

(** * A consumer

    It keeps a copy of the surface at one key, and brings it up to date where
    the damage it takes says. *)

Definition region_coversb (d : DamageRegion) (x y : Z) : bool :=
  existsb (fun r => in_rectb r x y) (rects d).

Definition take_at (k : key) (self : SurfaceMirror) (copy : image) : SurfaceMirror * image :=
  match surfaces self !! k with
  | Some s =>
      let '(s', damage) := take_damage s in
      (mkSurfaceMirror (<[k := s']> (surfaces self)),
       fun x y => if region_coversb damage x y then shows s x y else copy x y)
  | None => (self, copy)
  end.

Inductive Action : Type :=
| Apply (event : ChannelEvent)
| MarkAll
| Take.

Definition act (k : key) (st : SurfaceMirror * image) (a : Action) : option (SurfaceMirror * image) :=
  let '(self, copy) := st in
  match a with
  | Apply event => r ← apply_event self event; Some (fst r, copy)
  | MarkAll => self ← mirror_mark_all_damaged self; Some (self, copy)
  | Take => Some (take_at k self copy)
  end.

Fixpoint acts (k : key) (st : SurfaceMirror * image) (actions : list Action)
    : option (SurfaceMirror * image) :=
  match actions with
  | [] => Some st
  | a :: actions => st ← act k st a; acts k st actions
  end.

(** Arguments of the code's types. *)
Definition event_ok (e : ChannelEvent) : Prop :=
  match e with
  | SurfaceCreated _ _ width height => u32 width /\ u32 height
  | ImageReady _ _ left' top' width height pixels =>
      op_ok (OpBlit left' top' width height pixels)
  | ImageReadyChroma _ _ left' top' width height pixels chroma =>
      op_ok (OpChroma left' top' width height pixels chroma)
  | ImageReadyAlpha _ _ left' top' width height pixels alpha =>
      op_ok (OpAlpha left' top' width height pixels alpha)
  | FillRect _ _ (left', top', right', bottom') colour clip =>
      op_ok (OpFill left' top' right' bottom' colour clip)
  | CopyBits _ _ src_x src_y (left', top', right', bottom') clip =>
      op_ok (OpCopy src_x src_y left' top' right' bottom' clip)
  | Invert _ _ (left', top', right', bottom') clip =>
      op_ok (OpInvert left' top' right' bottom' clip)
  | SurfaceDestroyed _ _ | NotDisplayEvent => True
  end.

Definition action_ok (a : Action) : Prop :=
  match a with Apply e => event_ok e | MarkAll | Take => True end.

Definition mirror_ok (self : SurfaceMirror) : Prop := map_Forall (fun _ => surface_ok) (surfaces self).

(** The copy is right wherever the surface is not damaged. *)
Definition in_sync (k : key) (self : SurfaceMirror) (copy : image) : Prop :=
  forall s, surfaces self !! k = Some s -> forall x y, on_surface s x y ->
    region_covers (ds_damage s) x y \/ copy x y = shows s x y.

Definition consumer_ok (k : key) (st : SurfaceMirror * image) : Prop :=
  mirror_ok (fst st) /\ in_sync k (fst st) (snd st).

(** * Lemmas *)

Lemma region_coversb_spec d x y : region_coversb d x y = true <-> region_covers d x y.
Proof.
  unfold region_coversb, region_covers. rewrite existsb_exists, list.Exists_exists.
  split; intros (r & Hin & Hc); exists r; (split; [by apply list_elem_of_In|by apply in_rectb_spec]).
Qed.

(** Replacing a surface by one that a draw produced. *)
Lemma insert_drawn k k' self copy s s' T : consumer_ok k (self, copy) ->
  surfaces self !! k' = Some s -> drawn s s' T ->
  consumer_ok k (mkSurfaceMirror (<[k' := s']> (surfaces self)), copy).
Proof.
  intros [Hok Hsync] Hk' (Hok' & (_ & Ew & Eh) & _ & Hkeep & Hch & _). split.
  - by apply map_Forall_insert_2.
  - intros s1. cbn. destruct (decide (k = k')) as [->|Hne].
    + rewrite lookup_insert_eq. intros [= <-] x y [Hx Hy].
      assert (on_surface s x y) as Hon by (unfold on_surface; by rewrite <- Ew, <- Eh).
      destruct (decide (shows s' x y = shows s x y)) as [E|E]; [|left; by apply Hch].
      rewrite E. destruct (Hsync s Hk' x y Hon); auto.
    + rewrite lookup_insert_ne by done. apply Hsync.
Qed.

(** A surface that is damaged all over. *)
Lemma insert_damaged k k' self copy s' : consumer_ok k (self, copy) -> surface_ok s' ->
  (forall x y, on_surface s' x y -> region_covers (ds_damage s') x y) ->
  consumer_ok k (mkSurfaceMirror (<[k' := s']> (surfaces self)), copy).
Proof.
  intros [Hok Hsync] Hok' Hd. split.
  - by apply map_Forall_insert_2.
  - intros s1. cbn. destruct (decide (k = k')) as [->|Hne].
    + rewrite lookup_insert_eq. intros [= <-] x y Hon. left. by apply Hd.
    + rewrite lookup_insert_ne by done. apply Hsync.
Qed.

Lemma draw_on_ok k k' self copy draw op : consumer_ok k (self, copy) -> op_ok op ->
  (forall s, draw s = apply_op op s) ->
  exists r, draw_on self k' draw = Some r /\ consumer_ok k (fst r, copy).
Proof.
  intros Hc Hop Hdraw. unfold draw_on. destruct (surfaces self !! k') as [s|] eqn:E.
  - rewrite Hdraw. assert (surface_ok s) as Hs by (destruct Hc as [Hok _]; by eapply Hok).
    destruct (apply_op_drawn op s Hs Hop) as (s' & -> & Hd). cbn. eexists. split; [done|].
    by eapply insert_drawn.
  - by eexists.
Qed.

Lemma saturating_add_u32_u32 a b : u32 a -> u32 b -> u32 (saturating_add_u32 a b).
Proof. unfold in_unsigned, saturating_add_u32, u32_max. lia. Qed.

Lemma apply_event_ok k self copy e : consumer_ok k (self, copy) -> event_ok e ->
  exists r, apply_event self e = Some r /\ consumer_ok k (fst r, copy).
Proof.
  intros Hc He. destruct e as [c i w h|c i|c i l t w h px|c i l t w h px ch|c i l t w h px al
    |c i [[[l t] r] b] col clip|c i sx sy [[[l t] r] b] clip|c i [[[l t] r] b] clip|];
    cbn [apply_event].
  - destruct He as [Hw Hh].
    destruct (ds_new_ok i w h Hw Hh) as (s & -> & Hs & _ & _ & _ & Hd). cbn. eexists. split; [done|].
    apply insert_damaged; [done|done|]. intros x y Hon. by apply Hd.
  - destruct (surfaces self !! (c, i)) eqn:E; [|by eexists]. eexists. split; [done|].
    destruct Hc as [Hok Hsync]. split; [by apply map_Forall_delete|].
    intros s1. cbn. intros [_ Hs1]%lookup_delete_Some. by apply Hsync.
  - destruct (surfaces self !! (c, i)) as [s|] eqn:E; cbn [mbind option_bind fst snd].
    + assert (surface_ok s) as Hs by (destruct Hc as [Hok _]; by eapply Hok).
      destruct (apply_op_drawn (OpBlit l t w h px) s Hs He) as (s' & Es & Hd). cbn in Es.
      rewrite Es. cbn. eexists. split; [done|]. by eapply insert_drawn.
    + pose proof He as (Hl & Ht & Hw & Hh & _).
      destruct (ds_new_ok i (saturating_add_u32 l w) (saturating_add_u32 t h))
        as (s & -> & Hs & _ & _ & _ & Hall); [by apply saturating_add_u32_u32..|].
      cbn [mbind option_bind fst snd].
      destruct (apply_op_drawn (OpBlit l t w h px) s Hs He) as (s' & Es & Hd). cbn in Es.
      rewrite Es. cbn. eexists. split; [done|].
      destruct Hd as (Hs' & (_ & Ew & Eh) & _ & Hkeep & _). apply insert_damaged; [done|done|].
      intros x y [Hx Hy]. apply Hkeep, Hall. unfold on_surface. by rewrite <- Ew, <- Eh.
  - eapply draw_on_ok; [done|exact He|done].
  - eapply draw_on_ok; [done|exact He|done].
  - eapply draw_on_ok; [done|exact He|done].
  - eapply draw_on_ok; [done|exact He|done].
  - eapply draw_on_ok; [done|exact He|done].
  - by eexists.
Qed.

Lemma mark_all_damaged_ok s : surface_ok s ->
  exists s', mark_all_damaged s = Some s' /\ surface_ok s' /\
    forall x y, on_surface s' x y -> region_covers (ds_damage s') x y.
Proof.
  intros (Hw & Hh & Hl & Hb & _). unfold mark_all_damaged, MAX_SURFACE_DIMENSION in *.
  destruct (region_full_ok (ds_width s) (ds_height s)) as (d & -> & Hd & Hc);
    [unfold in_unsigned; lia..|]. cbn. eexists. split; [done|]. split.
  - unfold surface_ok, MAX_SURFACE_DIMENSION. tauto.
  - intros x y [Hx Hy]. by apply Hc.
Qed.

Lemma mirror_mark_all_ok k self copy : consumer_ok k (self, copy) ->
  exists self', mirror_mark_all_damaged self = Some self' /\ consumer_ok k (self', copy).
Proof.
  intros [Hok _]. unfold mirror_mark_all_damaged.
  assert (exists m', map_fold (fun k s (acc : option (gmap key DisplaySurface)) =>
      acc ← acc; s ← mark_all_damaged s; Some (<[k := s]> acc)) (Some ∅) (surfaces self) = Some m' /\
    map_Forall (fun _ s => surface_ok s /\
      forall x y, on_surface s x y -> region_covers (ds_damage s) x y) m') as (m' & -> & Hm').
  { revert Hok. unfold mirror_ok.
    apply (map_fold_weak_ind (fun r m => map_Forall (fun _ => surface_ok) m ->
      exists m', r = Some m' /\ map_Forall (fun _ s => surface_ok s /\
        forall x y, on_surface s x y -> region_covers (ds_damage s) x y) m')).
    - intros _. exists ∅. split; [done|]. apply map_Forall_empty.
    - intros k1 s m r Hk1 IH Hm. apply map_Forall_insert in Hm as [Hs Hm]; [|done].
      destruct (IH Hm) as (m' & -> & Hm'). cbn.
      destruct (mark_all_damaged_ok s Hs) as (s' & -> & Hs' & Hd). cbn.
      eexists. split; [done|]. by apply map_Forall_insert_2. }
  cbn. eexists. split; [done|]. split.
  - intros k1 s1 Hs1. by apply (Hm' k1 s1 Hs1).
  - intros s1 Hs1 x y Hon. left. by apply (Hm' k s1 Hs1).
Qed.

Lemma take_ok k self copy : consumer_ok k (self, copy) ->
  consumer_ok k (take_at k self copy) /\
  forall s, surfaces (fst (take_at k self copy)) !! k = Some s ->
    forall x y, on_surface s x y -> snd (take_at k self copy) x y = shows s x y.
Proof.
  intros [Hok Hsync]. unfold take_at. destruct (surfaces self !! k) as [s|] eqn:E.
  2:{ split; [done|]. cbn. congruence. }
  assert (forall x y, on_surface s x y ->
    (if region_coversb (ds_damage s) x y then shows s x y else copy x y) = shows s x y) as Hall.
  { intros x y Hon. destruct (region_coversb _ x y) eqn:Ec; [done|].
    destruct (Hsync s E x y Hon) as [Hc|]; [|done]. apply region_coversb_spec in Hc. congruence. }
  cbn. split; [split|].
  - apply map_Forall_insert_2; [|done]. destruct (Hok k s E) as (? & ? & ? & ? & _).
    unfold surface_ok. cbn. split; [done|]. split; [done|]. split; [done|]. split; [done|].
    apply region_new_ok.
  - intros s1. cbn. rewrite lookup_insert_eq. intros [= <-] x y Hon. right. by apply Hall.
  - intros s1. rewrite lookup_insert_eq. intros [= <-] x y Hon. by apply Hall.
Qed.

Lemma acts_ok k actions : forall st, consumer_ok k st -> Forall action_ok actions ->
  exists st', acts k st actions = Some st' /\ consumer_ok k st'.
Proof.
  induction actions as [|a actions IH]; intros [self copy] Hc Ha; [by eexists|].
  apply Forall_cons_iff in Ha as [Ha Hrest]. cbn [acts act].
  destruct a as [e| |]; cbn [mbind option_bind].
  - destruct (apply_event_ok k self copy e Hc Ha) as (r & -> & Hr). by apply IH.
  - destruct (mirror_mark_all_ok k self copy Hc) as (self' & -> & Hs). by apply IH.
  - apply IH; [|done]. by apply take_ok.
Qed.

Lemma acts_app k st a1 a2 : acts k st (a1 ++ a2) = st ← acts k st a1; acts k st a2.
Proof. revert st. induction a1 as [|a a1 IH]; intros st; [done|]. cbn. destruct (act k st a); cbn; auto. Qed.

Lemma consumer_ok_new k copy : consumer_ok k (mirror_new, copy).
Proof. split; [apply map_Forall_empty|]. intros s. cbn. by rewrite lookup_empty. Qed.

(** * Properties *)

(** C33: A consumer that only ever repaints the damage it takes is never left
    with a stale picture: from an empty mirror, whatever events arrive (draws
    before the surface exists, surfaces replaced or destroyed, a lagged mirror
    marked as damaged), in any order with the takes, nothing panics, and right
    after a take the consumer's copy equals the surface pixel for pixel. *)
Theorem mirror_consumer_in_sync k actions copy (Ha : Forall action_ok actions) :
  exists self' copy', acts k (mirror_new, copy) (actions ++ [Take]) = Some (self', copy') /\
    mirror_ok self' /\
    forall s, surfaces self' !! k = Some s ->
      forall x y, on_surface s x y -> copy' x y = shows s x y.
Proof.
  destruct (acts_ok k actions (mirror_new, copy) (consumer_ok_new k copy) Ha)
    as ([self' copy'] & E & Hc).
  rewrite acts_app, E. cbn [mbind option_bind acts act]. destruct (take_ok k self' copy' Hc) as [[? ?] ?].
  destruct (take_at k self' copy') as [self2 copy2]. exists self2, copy2. by split_and!.
Qed.

Lemma mirror_consumer_in_sync_witness :
  exists self' copy',
    acts (0, 0) (mirror_new, fun _ _ => (9, 9, 9, 9))
      [Apply (SurfaceCreated 0 0 2 2); Take; Apply (FillRect 0 0 (1, 0, 9, 1) (5, 6, 7, 255) []); Take] =
      Some (self', copy') /\
    copy' 1 0 = (5, 6, 7, 255) /\ copy' 0 1 = (0, 0, 0, 255) /\
    (forall s, surfaces self' !! (0, 0) = Some s ->
      forall x y, on_surface s x y -> copy' x y = shows s x y).
Proof.
  destruct (mirror_consumer_in_sync (0, 0)
    [Apply (SurfaceCreated 0 0 2 2); Take; Apply (FillRect 0 0 (1, 0, 9, 1) (5, 6, 7, 255) [])]
    (fun _ _ => (9, 9, 9, 9))) as (self' & copy' & E & _ & H).
  - repeat constructor; cbn; unfold in_unsigned; lia.
  - exists self', copy'. split; [exact E|]. vm_compute in E. injection E as <- <-.
    split; [reflexivity|]. split; [reflexivity|]. exact H.
Defined.
