(* ===== verification/DisplayDraw.v ===== *)
(** Draws of the display channel, less the channel: the free functions of
    [shakenfist-spice-renderer/src/channels/display.rs].

    What a draw's payload asks for (the [decode_*] functions and their
    outcomes), the clip it is drawn through, rectangles copied out of an image,
    the crop of a video frame, the inflated layer of a ZLIB_GLZ image, the rows
    of a raw bitmap, and when a stream is to be reported on.  Log lines, and the
    warning for an H.264 stream that never decodes, are left out. *)
From Stdlib Require Import ZArith Lia.
From stdpp Require Import base numbers list tactics.
From S2P Require Import Prelude Reader Wire MsgDisplay MsgDrawOps MsgDrawCopy LinkMess Lz Video Channel Clip Surface.

Open Scope Z_scope.
Open Scope rust_scope.

(** * Little-endian fields of a payload

    [shakenfist-spice-protocol/src/parse.rs]; [None] is the panic of an index. *)

Definition read_le (n : Z) (data : list Z) (offset : Z) : option Z :=
  bs ← slice data offset (offset + n);
  Some (from_le bs).

Definition read_u16_le : list Z -> Z -> option Z := read_le 2.
Definition read_u32_le : list Z -> Z -> option Z := read_le 4.
Definition read_u64_le : list Z -> Z -> option Z := read_le 8.

(** * Rectangles and clips *)

(** [as u32] on the signed edges. *)
Definition ltrb (rect : Rect) : Ltrb :=
  (as_unsigned 32 (Rect_left rect), as_unsigned 32 (Rect_top rect),
   as_unsigned 32 (Rect_right rect), as_unsigned 32 (Rect_bottom rect)).

(** [None] is a panic, [Some None] a draw that paints nothing, and [Some (Some
    [])] one that is not clipped. *)
Definition event_clip (base : DrawBase) (dest : Ltrb) : option (option (list Ltrb)) :=
  match clip_area (DrawBase_clip base) dest with
  | Ok Whole => Some (Some [])
  | Ok (Rects rects) => Some (Some rects)
  | Ok Nothing | Ok (TooComplex _) => Some None
  | _ => None
  end.

(** * Payloads *)

Definition read_draw_base (payload : list Z) : result ErrorKind (DrawBase * list Z) :=
  from_link (fst ((let? base := DrawBase_read in
                   let? n := remaining in
                   let? body := read_bytes n in
                   ret (base, body)) (reader_new payload))).

(** The RGBA of a colour the wire has as a little-endian BGRX. *)
Definition bgrx_colour (color : Z) : rgba :=
  (Z.land (Z.shiftr color 16) 0xff, Z.land (Z.shiftr color 8) 0xff, Z.land color 0xff, 0xff).

Inductive FillOutcome : Type :=
| Fill_Paint (base : DrawBase) (colour : rgba) (masked_fallback : bool)
| Fill_SkipNonOpPut (rop : Z)
| Fill_SkipNoneBrush
| Fill_SkipPatternBrush.

Definition mask_present (mask : SpiceQMask) : bool :=
  negb (SpiceQMask_flags mask =? 0) || negb (SpiceQMask_bitmap_offset mask =? 0).

Definition decode_draw_fill (payload : list Z) : result ErrorKind FillOutcome :=
  let! p := read_draw_base payload in
  let '(base, body) := p in
  let! f := SpiceFill_read body in
  let '(fill, _) := f in
  if negb (SpiceFill_rop_descriptor fill =? ropd_OP_PUT) then
    Ok (Fill_SkipNonOpPut (SpiceFill_rop_descriptor fill))
  else
    match SpiceFill_brush fill with
    | Brush_Solid color => Ok (Fill_Paint base (bgrx_colour color) (mask_present (SpiceFill_mask fill)))
    | Brush_None => Ok Fill_SkipNoneBrush
    | Brush_Pattern _ _ => Ok Fill_SkipPatternBrush
    end.

Inductive SolidFillOutcome : Type :=
| SolidFill_Paint (base : DrawBase) (masked_fallback : bool).

Definition decode_draw_solid_fill (payload : list Z) : result ErrorKind SolidFillOutcome :=
  let! p := read_draw_base payload in
  let '(base, body) := p in
  let! body := SpiceBlackness_read body in
  Ok (SolidFill_Paint base (mask_present (SpiceBlackness_mask body))).

Inductive CopyBitsOutcome : Type :=
| CopyBits_Copy (base : DrawBase) (src_x src_y : Z).

Definition decode_copy_bits (payload : list Z) : result ErrorKind CopyBitsOutcome :=
  let! p := read_draw_base payload in
  let '(base, body) := p in
  let! src_pos := from_link (decode (T := SpicePoint) body) in
  Ok (CopyBits_Copy base (as_unsigned 32 (Z.max (SpicePoint_x src_pos) 0))
       (as_unsigned 32 (Z.max (SpicePoint_y src_pos) 0))).

Inductive BlendOutcome : Type :=
| Blend_Paint (base : DrawBase) (copy : SpiceCopy) (fixed_len : Z)
| Blend_SkipNonOpPut (rop : Z).

Definition decode_draw_blend (payload : list Z) : result ErrorKind BlendOutcome :=
  from_link (fst ((
    let? base := DrawBase_read in
    let? copy := SpiceCopy_read in
    if negb (SpiceCopy_rop_descriptor copy =? ropd_OP_PUT) then
      ret (Blend_SkipNonOpPut (SpiceCopy_rop_descriptor copy))
    else
      let? fixed_len := position in
      ret (Blend_Paint base copy fixed_len)) (reader_new payload))).

Inductive OpaqueOutcome : Type :=
| Opaque_Paint (base : DrawBase) (src_bitmap_offset src_top src_left src_bottom src_right : Z)
| Opaque_SkipNonOpPut (rop : Z).

Definition decode_draw_opaque (payload : list Z) : result ErrorKind OpaqueOutcome :=
  let! p := read_draw_base payload in
  let '(base, body) := p in
  let! o := SpiceOpaque_read body in
  let '(opaque, _) := o in
  if negb (SpiceOpaque_rop_descriptor opaque =? ropd_OP_PUT) then
    Ok (Opaque_SkipNonOpPut (SpiceOpaque_rop_descriptor opaque))
  else
    Ok (Opaque_Paint base (SpiceOpaque_src_bitmap opaque) (SpiceOpaque_src_top opaque)
         (SpiceOpaque_src_left opaque) (SpiceOpaque_src_bottom opaque) (SpiceOpaque_src_right opaque)).

Inductive TransparentOutcome : Type :=
| Transparent_Paint (base : DrawBase) (chroma_rgba : rgba)
    (src_bitmap_offset src_top src_left src_bottom src_right : Z).

Definition decode_draw_transparent (payload : list Z) : result ErrorKind TransparentOutcome :=
  let! p := read_draw_base payload in
  let '(base, body) := p in
  let! t := SpiceTransparent_read body in
  Ok (Transparent_Paint base (bgrx_colour (SpiceTransparent_src_color t))
       (SpiceTransparent_src_bitmap t) (SpiceTransparent_src_top t) (SpiceTransparent_src_left t)
       (SpiceTransparent_src_bottom t) (SpiceTransparent_src_right t)).

Inductive AlphaBlendOutcome : Type :=
| AlphaBlend_Paint (base : DrawBase) (alpha alpha_flags : Z)
    (src_bitmap_offset src_top src_left src_bottom src_right : Z)
| AlphaBlend_SkipZeroAlpha.

Definition decode_draw_alpha_blend (payload : list Z) : result ErrorKind AlphaBlendOutcome :=
  let! p := read_draw_base payload in
  let '(base, body) := p in
  let! ab := SpiceAlphaBlend_read body in
  if SpiceAlphaBlend_alpha ab =? 0 then Ok AlphaBlend_SkipZeroAlpha
  else
    Ok (AlphaBlend_Paint base (SpiceAlphaBlend_alpha ab) (SpiceAlphaBlend_alpha_flags ab)
         (SpiceAlphaBlend_src_bitmap ab) (SpiceAlphaBlend_src_top ab) (SpiceAlphaBlend_src_left ab)
         (SpiceAlphaBlend_src_bottom ab) (SpiceAlphaBlend_src_right ab)).

(** * Pictures *)

Inductive CompositeMode : Type :=
| Overwrite
| ChromaKey (chroma_rgba : rgba)
| AlphaBlend (alpha : Z).

Definition build_image_event (composite : CompositeMode) (display_channel_id surface_id left top width
    height : Z) (pixels : list Z) (image_id produced_at : Z) : Channel.ChannelEvent :=
  match composite with
  | Overwrite =>
      CE_ImageReady display_channel_id surface_id left top width height pixels image_id produced_at
  | ChromaKey chroma_rgba =>
      CE_ImageReadyChroma display_channel_id surface_id left top width height pixels chroma_rgba
        image_id produced_at
  | AlphaBlend alpha =>
      CE_ImageReadyAlpha display_channel_id surface_id left top width height pixels alpha image_id
        produced_at
  end.

(** The rows of a [w] by [h] rectangle at ([x], [y]) of an image [src_w] pixels
    wide, copied one by one into a buffer of their own. *)
Definition sub_image (pixels : list Z) (src_w x y w h : Z) : option (list Z) :=
  for_range 0 h (fun row out =>
    let src_off := ((y + row) * src_w + x) * 4 in
    let dst_off := row * w * 4 in
    src ← slice pixels src_off (src_off + w * 4);
    copy_from_slice out dst_off src) (replicate (Z.to_nat (w * h * 4)) 0).

(** The part of the image the source rectangle leaves: its width, height and
    pixels. *)
Definition crop_source (img : DecompressedImage) (src : Ltrb) : option (Z * Z * list Z) :=
  let '(src_left, src_top, src_right, src_bottom) := src in
  let out_width := di_width img in
  let out_height := di_height img in
  let crop_w := saturating_sub src_right src_left in
  let crop_h := saturating_sub src_bottom src_top in
  if (0 <? crop_w) && (0 <? crop_h) &&
     (negb (src_left =? 0) || negb (src_top =? 0) || negb (crop_w =? out_width) ||
      negb (crop_h =? out_height)) then
    let left_px := Z.min src_left out_width in
    let top_px := Z.min src_top out_height in
    let right_px := Z.min src_right out_width in
    let bottom_px := Z.min src_bottom out_height in
    if (left_px <? right_px) && (top_px <? bottom_px) then
      let new_w := right_px - left_px in
      let new_h := bottom_px - top_px in
      cropped ← sub_image (di_pixels img) out_width left_px top_px new_w new_h;
      Some (as_unsigned 32 new_w, as_unsigned 32 new_h, cropped)
    else Some (out_width, out_height, di_pixels img)
  else Some (out_width, out_height, di_pixels img).

(** [l.copy_within(src..src + len, dst)]: [None] is a panic. *)
Definition copy_within (l : list Z) (src len dst : Z) : option (list Z) :=
  seg ← slice l src (src + len);
  copy_from_slice l dst seg.

Definition crop_frame_to_dest (frame : DecodedFrame) (dest_w dest_h : Z)
    : result VideoDecoderError DecodedFrame :=
  let frame_w := df_width frame in
  let frame_h := df_height frame in
  let src_stride := frame_w * 4 in
  if negb ((src_stride * frame_h <=? usize_max) && (src_stride * frame_h <=? zlen (df_rgba frame)))
  then Err VD_Decode
  else
    let width := Z.min frame_w dest_w in
    let height := Z.min frame_h dest_h in
    let row_bytes := width * 4 in
    let! rgba := rlift (
      if width <? frame_w then
        for_range 1 height (fun y rgba => copy_within rgba (y * src_stride) row_bytes (y * row_bytes))
          (df_rgba frame)
      else Some (df_rgba frame)) in
    Ok (mkDecodedFrame (take (Z.to_nat (row_bytes * height)) rgba) width height).

(** ** Raw bitmaps *)

Definition ImageDescriptor_SIZE : Z := 18.

(** [bitmap_fmt] and [bitmap_flags]. *)
Definition bitmap_fmt_BIT32 : Z := 8.
Definition bitmap_fmt_RGBA : Z := 9.
Definition bitmap_flags_TOP_DOWN : Z := Z.shiftl 1 2.

(** The [for y in 0..height]. *)
Definition pixmap_rows (rgba_format top_down : bool) (width height stride : Z) (pixel_data : list Z)
    (expected_pixels : Z) : option (list Z) :=
  let row_bytes := width * 4 in
  for_range 0 height (fun y rgba =>
    let src_y := if top_down then y else height - 1 - y in
    src_row ← slice pixel_data (src_y * stride) (src_y * stride + row_bytes);
    let dst_start := y * row_bytes in
    for_range 0 width (fun x rgba =>
      let si := x * 4 in
      let di := dst_start + x * 4 in
      r ← index src_row (si + 2);
      g ← index src_row (si + 1);
      b ← index src_row si;
      a ← if rgba_format then index src_row (si + 3) else Some 255;
      put_pixel rgba di (r, g, b, a)) rgba) (replicate (Z.to_nat expected_pixels) 0).

(** What decoding an image came to: pixels or none, or that the draw ends
    there. *)
Inductive Decoded : Type :=
| Dec_Image (image : option DecompressedImage)
| Dec_Return.

Definition decode_pixmap (img_desc : ImageDescriptor) (image_data : list Z) : result ErrorKind Decoded :=
  match BitmapHeader_read (reader_new image_data) with
  | (Ok header, bitmap) =>
      let bmp_fmt := BitmapHeader_format header in
      let width := BitmapHeader_x header in
      let height := BitmapHeader_y header in
      let stride := BitmapHeader_stride header in
      let top_down := negb (Z.land (BitmapHeader_flags header) bitmap_flags_TOP_DOWN =? 0) in
      let! pixel_data := from_link (fst (read_rest bitmap)) in
      if negb (bmp_fmt =? bitmap_fmt_BIT32) && negb (bmp_fmt =? bitmap_fmt_RGBA) then Ok Dec_Return
      else
        match rgba_len width height with
        | None => Ok Dec_Return
        | Some expected_pixels =>
            match checked_mul stride height with
            | None => Ok Dec_Return
            | Some needed_bytes =>
                let row_fits_stride := width * 4 <=? stride in
                if zlen pixel_data <? needed_bytes then Ok (Dec_Image None)
                else if negb row_fits_stride then Ok (Dec_Image None)
                else
                  let! rgba := rlift (pixmap_rows (bmp_fmt =? bitmap_fmt_RGBA) top_down width height
                                        stride pixel_data expected_pixels) in
                  Ok (Dec_Image (DecompressedImage_new width height rgba
                                   (ImageDescriptor_image_id img_desc)))
            end
        end
  | (Err _, _) => Ok (Dec_Image None)
  | (Panic, _) => Panic
  end.

(** ** The zlib layer *)

(** [flate2]'s decoder: what reading at most [limit] bytes of the inflated
    stream gives; [None] is an error of the stream. *)
Class Zlib : Type := { zlib_take : list Z -> Z -> option (list Z) }.

Class ZlibLaws `{Zlib} : Prop := {
  zlib_take_bytes data limit out : bytes data -> 0 <= limit -> zlib_take data limit = Some out ->
    bytes out /\ zlen out <= limit
}.

Inductive InflateGlzError : Type :=
| Inflate_DimensionsRefused
| Inflate_DeclaredTooLarge
| Inflate_ExceedsDeclared
| Inflate_SizeMismatch (inflated : Z)
| Inflate_Zlib.

Definition GLZ_STREAM_FIXED_OVERHEAD : Z := 64.

Definition glz_stream_limit (width height : Z) : option Z :=
  rgba ← rgba_len width height;
  Some (rgba + rgba / 4 + GLZ_STREAM_FIXED_OVERHEAD).

Definition inflate_glz_stream `{Zlib} (zlib_data : list Z) (declared_glz_size width height : Z)
    : result InflateGlzError (list Z) :=
  match glz_stream_limit width height with
  | None => Err Inflate_DimensionsRefused
  | Some limit =>
      if limit <? declared_glz_size then Err Inflate_DeclaredTooLarge
      else
        match zlib_take zlib_data (declared_glz_size + 1) with
        | None => Err Inflate_Zlib
        | Some glz_data =>
            if declared_glz_size <? zlen glz_data then Err Inflate_ExceedsDeclared
            else if negb (zlen glz_data =? declared_glz_size) then
              Err (Inflate_SizeMismatch (zlen glz_data))
            else Ok glz_data
        end
  end.

(** * Streams *)

Definition STREAM_REPORT_DEFAULT_WINDOW_SIZE : Z := 5.
Definition STREAM_REPORT_MIN_TIMEOUT_MS : Z := 100.
Definition STREAM_REPORT_MAX_TIMEOUT_MS : Z := 60000.
Definition STREAM_REPORT_DROP_SEQ_LEN_LIMIT : Z := 3.

Definition stream_report_should_send (num_frames max_window_size elapsed_since_window_start timeout_ms
    drops_seq_len : Z) : bool :=
  (max_window_size <=? num_frames) || (as_signed 32 timeout_ms <=? elapsed_since_window_start) ||
  (STREAM_REPORT_DROP_SEQ_LEN_LIMIT <=? drops_seq_len).

Definition clamp_stream_report_params (max_window_size timeout_ms : Z) : Z * Z :=
  (if max_window_size =? 0 then STREAM_REPORT_DEFAULT_WINDOW_SIZE else max_window_size,
   Z.max STREAM_REPORT_MIN_TIMEOUT_MS (Z.min timeout_ms STREAM_REPORT_MAX_TIMEOUT_MS)).

(** How many milliseconds [a] is after [b], which wrap: [(a as i64).wrapping_sub(b
    as i64) as i32]. *)
Definition mm_time_diff (a b : Z) : Z := as_signed 32 (as_unsigned 32 (a - b)).

Definition RECENT_ACK_INTERVALS_CAP : Z := 32.

(** [push_back], and the oldest gone when that is one too many. *)
Definition push_bounded {A} (cap : Z) (ring : list A) (a : A) : list A :=
  let ring := ring ++ [a] in
  if cap <? zlen ring then tail ring else ring.

Definition push_ack_interval (ring : list Z) (interval : Z) : list Z :=
  push_bounded RECENT_ACK_INTERVALS_CAP ring interval.

Definition preferred_video_codecs (h264 : H264Offer) : list Z :=
  match h264 with
  | H264_Off => [SPICE_VIDEO_CODEC_TYPE_MJPEG]
  | H264_AfterMjpeg => [SPICE_VIDEO_CODEC_TYPE_MJPEG; SPICE_VIDEO_CODEC_TYPE_H264]
  | H264_Preferred => [SPICE_VIDEO_CODEC_TYPE_H264; SPICE_VIDEO_CODEC_TYPE_MJPEG]
  end.

(** [h264_feature] is the build's [h264-decode]. *)
Definition supported_h264_offer (h264_feature : bool) (requested : H264Offer) : H264Offer :=
  if h264_feature then requested else H264_Off.

(** * Pictures, pixel by pixel *)

(** A decoded image as rows of pixels. *)
Definition picture (w : Z) (pixels : list Z) : image := fun x y => pixel_at pixels (y * w + x).

Lemma sub_image_ok pixels src_w x y w h : bytes pixels -> 0 <= x -> 0 <= y -> 0 < w -> 0 <= h ->
  x + w <= src_w -> 4 * ((y + h) * src_w) <= zlen pixels ->
  exists out, sub_image pixels src_w x y w h = Some out /\ zlen out = w * h * 4 /\ bytes out /\
    forall i j, 0 <= i < w -> 0 <= j < h -> picture w out i j = picture src_w pixels (x + i) (y + j).
Proof.
  intros Hb Hx Hy Hw Hh Hxw Hlen.
  destruct (copy_rows_upd (replicate (Z.to_nat (w * h * 4)) 0) pixels 0 (y * src_w + x) w src_w w h)
    as (out & Hs & Hl & Hbo & Hp & _).
  - lia.
  - nia.
  - lia.
  - lia.
  - lia.
  - intros row Hr. rewrite zlen_replicate. nia.
  - intros row Hr. assert ((y + row) * src_w + src_w <= (y + h) * src_w) by nia. lia.
  - apply bytes_replicate_0.
  - done.
  - exists out. unfold sub_image. rewrite (for_range_ext _ _ _ (fun row px =>
      s ← slice pixels (4 * (y * src_w + x + row * src_w)) (4 * (y * src_w + x + row * src_w) + 4 * w);
      copy_from_slice px (4 * (0 + row * w)) s)).
    2:{ intros k px. replace (((y + k) * src_w + x) * 4) with (4 * (y * src_w + x + k * src_w)) by lia.
        rewrite (Z.mul_comm w 4). by replace (k * w * 4) with (4 * (0 + k * w)) by lia. }
    split; [done|]. rewrite zlen_replicate in Hl. split; [lia|]. split; [done|].
    intros i j Hi Hj. unfold picture. replace (j * w + i) with (0 + j * w + i) by lia.
    rewrite Hp by lia. f_equal. lia.
Qed.

(** An image with all its pixels. *)
Definition sized_image (w h : Z) (pixels : list Z) : Prop :=
  0 < w <= MAX_IMAGE_DIMENSION /\ 0 < h <= MAX_IMAGE_DIMENSION /\ bytes pixels /\ zlen pixels = w * h * 4.

(** The rectangle of an image its source rectangle names: all of it, when there
    is nothing of it in the source rectangle. *)
Definition source_part (w h : Z) (src : Ltrb) : Ltrb :=
  let '(l, t, r, b) := src in
  if (Z.min l w <? Z.min r w) && (Z.min t h <? Z.min b h)
  then (Z.min l w, Z.min t h, Z.min r w, Z.min b h) else (0, 0, w, h).

Lemma u32_small w : 0 <= w <= MAX_IMAGE_DIMENSION -> as_unsigned 32 w = w.
Proof. intros Hw. unfold MAX_IMAGE_DIMENSION in Hw. apply as_unsigned_id. unfold in_unsigned. lia. Qed.

Lemma crop_source_ok img src : sized_image (di_width img) (di_height img) (di_pixels img) ->
  ltrb_u32 src ->
  let '(l, t, r, b) := source_part (di_width img) (di_height img) src in
  exists out, crop_source img src = Some (r - l, b - t, out) /\ sized_image (r - l) (b - t) out /\
    forall i j, 0 <= i < r - l -> 0 <= j < b - t ->
      picture (r - l) out i j = picture (di_width img) (di_pixels img) (l + i) (t + j).
Proof.
  destruct img as [w h px id dist], src as [[[l t] r] b]. cbn [di_width di_height di_pixels].
  intros (Hw & Hh & Hb & Hlen) (Hl & Ht & Hr & Hbt). unfold source_part, crop_source.
  cbn [di_width di_height di_pixels]. unfold in_unsigned in *.
  assert (sized_image w h px) as Hsz by done.
  destruct (Z.ltb_spec (Z.min l w) (Z.min r w)) as [Hlr|Hlr], (Z.ltb_spec (Z.min t h) (Z.min b h)) as [Htb|Htb];
    cbn [andb].
  2-4: assert (forall c : bool, (if c then Some (w, h, px) else Some (w, h, px)) = Some (w, h, px)) as Hif by (by intros []);
    rewrite ?Hif, ?Z.sub_0_r; exists px; split; [done|]; split; [done|]; intros; by rewrite !Z.add_0_l.
  unfold saturating_sub. rewrite !(proj2 (Z.ltb_lt _ _)) by lia. cbn [andb].
  destruct (_ || _) eqn:Eor.
  - destruct (sub_image_ok px w (Z.min l w) (Z.min t h) (Z.min r w - Z.min l w) (Z.min b h - Z.min t h))
      as (out & -> & Hlo & Hbo & Hp); [done|lia|lia|lia|lia|lia|nia|]. cbn [mbind option_bind].
    rewrite !u32_small by lia. exists out. split; [done|]. split; [|done].
    split; [lia|]. split; [lia|]. done.
  - rewrite !orb_false_iff, !negb_false_iff, !Z.eqb_eq in Eor. destruct Eor as (((-> & ->) & ?) & ?).
    rewrite !Z.min_l by lia. replace r with w by lia. replace b with h by lia.
    rewrite ?Z.min_id, !Z.sub_0_r. exists px. split; [done|]. split; [done|].
    intros. by rewrite !Z.add_0_l.
Qed.

(** Pixel ([x], [y]) of a raw bitmap, whose bytes are BGRX or BGRA. *)
Definition bitmap_pixel (rgba_format top_down : bool) (height stride : Z) (data : list Z) (x y : Z) : rgba :=
  let p := (if top_down then y else height - 1 - y) * stride + x * 4 in
  (byte_at data (p + 2), byte_at data (p + 1), byte_at data p,
   if rgba_format then byte_at data (p + 3) else 255).

Section Pixmap.
Context (rgba_format top_down : bool) (width height stride : Z) (data : list Z).
Context (Hw : 0 < width) (Hh : 0 < height) (Hfit : width * 4 <= stride).
Context (Hlen : stride * height <= zlen data) (Hb : bytes data).

Definition bitmap_at (i : Z) (_ : rgba) : rgba :=
  bitmap_pixel rgba_format top_down height stride data (i mod width) (i / width).

(** One pixel of the loop. *)
Lemma pixmap_pixel src_row x y px : 0 <= x < width -> 0 <= y < height ->
  let p := (if top_down then y else height - 1 - y) * stride in
  slice data p (p + width * 4) = Some src_row ->
  bytes px -> 4 * (y * width + x) + 4 <= zlen px ->
  exists px', (r ← index src_row (x * 4 + 2);
               g ← index src_row (x * 4 + 1);
               b ← index src_row (x * 4);
               a ← if rgba_format then index src_row (x * 4 + 3) else Some 255;
               put_pixel px (y * (width * 4) + x * 4) (r, g, b, a)) = Some px' /\
    upd px px' (fun i => i = y * width + x) bitmap_at.
Proof.
  intros Hx Hy p Hs Hbp Hlp. pose proof (slice_length _ _ _ _ Hs) as Hls.
  pose proof (slice_Forall _ _ _ _ _ Hb Hs) as Hbs.
  rewrite (byte_at_index src_row (x * 4 + 2)), (byte_at_index src_row (x * 4 + 1)),
    (byte_at_index src_row (x * 4)) by lia. cbn [mbind option_bind].
  assert ((if rgba_format then index src_row (x * 4 + 3) else Some 255) =
          Some (if rgba_format then byte_at src_row (x * 4 + 3) else 255)) as ->
    by (destruct rgba_format; [apply byte_at_index; lia|done]).
  cbn [mbind option_bind]. replace (y * (width * 4) + x * 4) with (4 * (y * width + x)) by lia.
  apply put_pixel_upd; [nia|lia|done| |].
  - assert (u8 255) by (unfold in_unsigned; lia).
    split_and!; try (by apply byte_at_u8). destruct rgba_format; [by apply byte_at_u8|done].
  - unfold bitmap_at, bitmap_pixel. rewrite Z.div_add_l, Z.div_small, Z.add_0_r by lia.
    rewrite (Z.add_comm (y * width)), Z.mod_add, Z.mod_small by lia. fold p.
    rewrite !(byte_at_slice data p (p + width * 4) src_row) by (done || lia).
    rewrite !Z.add_assoc. done.
Qed.

Lemma pixmap_rows_ok expected : expected = width * height * 4 ->
  exists out, pixmap_rows rgba_format top_down width height stride data expected = Some out /\
    zlen out = expected /\ bytes out /\
    forall x y, 0 <= x < width -> 0 <= y < height ->
      picture width out x y = bitmap_pixel rgba_format top_down height stride data x y.
Proof.
  intros ->. unfold pixmap_rows.
  destruct (for_range_upd 0 height (fun y rgba =>
      src_row ← slice data ((if top_down then y else height - 1 - y) * stride)
        ((if top_down then y else height - 1 - y) * stride + width * 4);
      for_range 0 width (fun x rgba =>
        r ← index src_row (x * 4 + 2); g ← index src_row (x * 4 + 1); b ← index src_row (x * 4);
        a ← if rgba_format then index src_row (x * 4 + 3) else Some 255;
        put_pixel rgba (y * (width * 4) + x * 4) (r, g, b, a)) rgba)
    (fun y i => exists x, 0 <= x < width /\ i = y * width + x) bitmap_at
    (replicate (Z.to_nat (width * height * 4)) 0)) as (out & Ho & Hlo & Hbo & Hu).
  - intros k k' i (x & Hx & ->) (x' & Hx' & E). apply pixel_index_inj in E; lia.
  - intros y px Hy Hl1 Hb1. rewrite zlen_replicate in Hl1.
    set (p := (if top_down then y else height - 1 - y) * stride).
    assert (0 <= p /\ p + width * 4 <= zlen data) as [Hp0 Hp1].
    { assert (0 <= (if top_down then y else height - 1 - y) <= height - 1) by (destruct top_down; lia).
      unfold p. nia. }
    destruct (slice_ok data p (p + width * 4)) as (row & Hrow & _); [lia|lia|].
    rewrite Hrow. cbn [mbind option_bind].
    destruct (for_range_upd 0 width (fun x rgba =>
        r ← index row (x * 4 + 2); g ← index row (x * 4 + 1); b ← index row (x * 4);
        a ← if rgba_format then index row (x * 4 + 3) else Some 255;
        put_pixel rgba (y * (width * 4) + x * 4) (r, g, b, a))
      (fun x i => i = y * width + x) bitmap_at px) as (px2 & -> & Hu).
    + intros. lia.
    + intros x px1 Hx Hl2 Hb2. apply (pixmap_pixel row x y); [done|done|done|done|].
      rewrite Hl2, Hl1. nia.
    + done.
    + exists px2. split; [done|]. eapply upd_iff; [| |exact Hu]; [|done].
      intros i _. split; intros (x & ? & ?); by exists x.
  - apply bytes_replicate_0.
  - exists out. split; [exact Ho|]. rewrite zlen_replicate in Hlo. split; [nia|]. split; [done|].
    intros x y Hx Hy. unfold picture. destruct (Hu (y * width + x)) as [Hin _]; [nia|].
    rewrite Hin by (exists y; split; [done|]; by exists x). unfold bitmap_at.
    rewrite Z.div_add_l, Z.div_small, Z.add_0_r by lia.
    by rewrite (Z.add_comm (y * width)), Z.mod_add, Z.mod_small by lia.
Qed.

End Pixmap.

(** ** Frames *)

Section Crop.
Context (rgba : list Z) (frame_w frame_h width height : Z).
Context (Hw : 0 <= width <= frame_w) (Hh : 0 <= height <= frame_h).
Context (Hb : bytes rgba) (Hlen : 4 * (frame_w * frame_h) <= zlen rgba).

(** The rows before [a] are where they go, and nothing behind them has
    changed. *)
Definition rows_moved (a : Z) (px : list Z) : Prop :=
  zlen px = zlen rgba /\ bytes px /\
  (forall x y, 0 <= x < width -> 0 <= y < a -> pixel_at px (y * width + x) = pixel_at rgba (y * frame_w + x)) /\
  (forall i, a * width <= i -> 0 <= i -> pixel_at px i = pixel_at rgba i).

Lemma move_row a px : 0 <= a < height -> rows_moved a px ->
  exists px', copy_within px (a * (frame_w * 4)) (width * 4) (a * (width * 4)) = Some px' /\
    rows_moved (a + 1) px'.
Proof.
  intros Ha (Hl & Hbp & Hmoved & Hrest).
  assert (a * frame_w + frame_w <= frame_w * frame_h) as Hrow by nia.
  assert (a * width <= a * frame_w) as Hle by nia.
  destruct (copy_row_upd px px (a * width) (a * frame_w) width)
    as (row & px' & Hs & Hc & Hl' & Hb' & Hu); [nia|nia|lia|lia|lia|done|done|].
  exists px'. unfold copy_within. replace (a * (frame_w * 4)) with (4 * (a * frame_w)) by lia.
  replace (width * 4) with (4 * width) by lia. replace (a * (4 * width)) with (4 * (a * width)) by lia.
  rewrite Hs. cbn [mbind option_bind]. split; [done|]. split; [lia|]. split; [done|]. split.
  - intros x y Hx Hy. destruct (Hu (y * width + x)) as [Hin Hout]; [nia|].
    destruct (decide (y = a)) as [->|Hne].
    + rewrite Hin by lia. rewrite Hrest by nia. f_equal. lia.
    + rewrite Hout by nia. apply Hmoved; lia.
  - intros i Hi H0. destruct (Hu i) as [_ Hout]; [lia|]. rewrite Hout by nia. apply Hrest; nia.
Qed.

Lemma move_rows n : forall a px, 0 <= a -> a + Z.of_nat n <= height -> rows_moved a px ->
  exists px', for_n n a (fun y px => copy_within px (y * (frame_w * 4)) (width * 4) (y * (width * 4))) px
    = Some px' /\ rows_moved (a + Z.of_nat n) px'.
Proof.
  induction n as [|n IH]; intros a px Ha Hn Hpx; cbn [for_n].
  { exists px. by rewrite Z.add_0_r. }
  destruct (move_row a px) as (px1 & -> & H1); [lia|done|]. cbn [mbind option_bind].
  destruct (IH (a + 1) px1) as (px2 & -> & H2); [lia|lia|done|]. exists px2. split; [done|].
  replace (a + Z.of_nat (S n)) with (a + 1 + Z.of_nat n) by lia. done.
Qed.

Lemma crop_rows_ok : exists px,
  for_range 1 height (fun y px => copy_within px (y * (frame_w * 4)) (width * 4) (y * (width * 4))) rgba
    = Some px /\ rows_moved height px.
Proof.
  destruct (Z.le_gt_cases height 1) as [H1|H1].
  { exists rgba. unfold for_range. replace (Z.to_nat (height - 1)) with 0%nat by lia. split; [done|].
    split; [done|]. split; [done|]. split; [|done]. intros x y Hx Hy. f_equal. nia. }
  unfold for_range. destruct (move_rows (Z.to_nat (height - 1)) 1 rgba) as (px & -> & Hpx); [lia|lia| |].
  - split; [done|]. split; [done|]. split; [|done]. intros x y Hx Hy. f_equal. nia.
  - exists px. split; [done|]. by replace (1 + Z.of_nat (Z.to_nat (height - 1))) with height in Hpx by lia.
Qed.

End Crop.

Lemma pixel_at_take n px i : 0 <= i -> 4 * i + 4 <= n -> pixel_at (take (Z.to_nat n) px) i = pixel_at px i.
Proof.
  intros Hi Hn. unfold pixel_at, byte_at.
  by rewrite !lookup_take_lt by lia.
Qed.

(** The top-left corner of the frame, as much of it as there is. *)
Lemma crop_frame_ok frame dest_w dest_h : frame_sized frame -> 0 <= dest_w -> 0 <= dest_h ->
  exists rgba, crop_frame_to_dest frame dest_w dest_h =
    Ok (mkDecodedFrame rgba (Z.min (df_width frame) dest_w) (Z.min (df_height frame) dest_h)) /\
    bytes rgba /\ zlen rgba = Z.min (df_width frame) dest_w * Z.min (df_height frame) dest_h * 4 /\
    forall x y, 0 <= x < Z.min (df_width frame) dest_w -> 0 <= y < Z.min (df_height frame) dest_h ->
      picture (Z.min (df_width frame) dest_w) rgba x y = picture (df_width frame) (df_rgba frame) x y.
Proof.
  destruct frame as [px w h]. intros (Hw & Hh & Hb & Hlen) Hdw Hdh.
  cbn [df_width df_height df_rgba] in *.
  destruct (rgba_len_spec _ _ _ Hw Hh Hlen) as (Hl & Hw' & Hh' & _). unfold MAX_IMAGE_DIMENSION in *.
  unfold crop_frame_to_dest. cbn [df_width df_height df_rgba].
  assert (0 <= w * h <= 16384 * 16384) as Hwh by nia.
  rewrite (proj2 (Z.leb_le _ usize_max)) by (unfold usize_max; lia).
  rewrite (proj2 (Z.leb_le _ (zlen px))) by lia. cbn [andb negb].
  set (width := Z.min w dest_w). set (height := Z.min h dest_h).
  assert (width * height <= w * h) as Hle by nia.
  assert (exists px', (if width <? w
      then for_range 1 height (fun y px => copy_within px (y * (w * 4)) (width * 4) (y * (width * 4))) px
      else Some px) = Some px' /\ rows_moved px w width height px') as (px' & -> & Hl' & Hb' & Hm & _).
  { destruct (Z.ltb_spec width w) as [Hlt|Hge].
    - apply (crop_rows_ok px w h); [lia|lia|done|lia].
    - exists px. split; [done|]. assert (width = w) as -> by lia. done. }
  cbn [rlift rbind]. eexists. split; [done|]. split; [by apply Forall_take|]. split.
  { rewrite zlen_take, Hl'. lia. }
  intros x y Hx Hy. unfold picture. rewrite pixel_at_take by nia. by apply Hm.
Qed.
