(* ===== verification/DisplayPayload.v ===== *)
(** The draw payloads of [DisplayDraw.v]: their parsers never panic, what they
    accept is in range, and a draw as the server marshals it is the draw they
    return; and the clip of an event. *)
From Stdlib Require Import ZArith Lia Sorted.
From stdpp Require Import base numbers list gmap tactics.
From S2P Require Import Prelude Reader Wire IoCursor MsgDisplay MsgDrawOps MsgDrawCopy Lz Channel Clip Surface DisplayDraw.

Open Scope Z_scope.
Open Scope rust_scope.

(** * Never a panic *)

Lemma reader_new_ok s : bytes s -> zlen s <= isize_max -> reader_ok (reader_new s).
Proof. intros Hb Hl. pose proof (zlen_nonneg s). split; cbn; [lia|done|done]. Qed.

Lemma from_link_safe {A} (m : Rd A) Q s : safe m Q -> bytes s -> zlen s <= isize_max ->
  match from_link (fst (m (reader_new s))) with Ok a => Q a | Err _ => True | Panic => False end.
Proof.
  intros Hm Hb Hl. pose proof (Hm _ (reader_new_ok s Hb Hl)) as Hs.
  destruct (m (reader_new s)) as [[a|e|] r]; tauto.
Qed.

Definition body_ok (p : DrawBase * list Z) : Prop :=
  wire_wf (fst p) /\ bytes (snd p) /\ zlen (snd p) <= isize_max.

Lemma read_draw_base_total : io_total read_draw_base (fun _ => body_ok).
Proof.
  intros s Hb Hl. apply from_link_safe; [|done|done].
  eapply safe_bind; [exact (read_safe (T := DrawBase))|]. intros base Hbase.
  eapply safe_bind; [apply safe_remaining|]. cbv beta. intros n Hn.
  eapply safe_bind; [apply safe_read_bytes; lia|]. cbv beta. intros body [Hlb Hbb].
  apply safe_ret. split; cbn; [done|]. split; [done|lia].
Qed.

(** A payload that opens with a base. *)
Lemma base_total {A} (k : DrawBase -> list Z -> result ErrorKind A) (Q : A -> Prop) :
  (forall base body, wire_wf base -> bytes body -> zlen body <= isize_max ->
     match k base body with Ok a => Q a | Err _ => True | Panic => False end) ->
  io_total (fun payload => let! p := read_draw_base payload in let '(base, body) := p in k base body)
    (fun _ => Q).
Proof.
  intros Hk s Hb Hl. eapply total_bind; [by apply read_draw_base_total|].
  intros [base body] (? & ? & ?). by apply Hk.
Qed.

Lemma bgrx_colour_u8 color : rgba_u8 (bgrx_colour color).
Proof.
  assert (forall x, u8 (Z.land x 0xff)) as Hland.
  { intros x. change 0xff with (Z.ones 8). rewrite Z.land_ones by lia. unfold in_unsigned.
    pose proof (Z.mod_pos_bound x (2 ^ 8)). lia. }
  split_and!; try apply Hland. unfold in_unsigned. lia.
Qed.

Lemma fill_decodes : io_total decode_draw_fill (fun _ o =>
  match o with Fill_Paint base colour _ => wire_wf base /\ rgba_u8 colour | _ => True end).
Proof.
  apply base_total. intros base body Hbase Hb Hl. eapply total_bind; [by apply fill_total|].
  intros [fill n] _. destruct (negb _); [done|]. destruct (SpiceFill_brush fill); [done| |done].
  split; [done|apply bgrx_colour_u8].
Qed.

Lemma solid_fill_decodes : io_total decode_draw_solid_fill (fun _ o =>
  match o with SolidFill_Paint base _ => wire_wf base end).
Proof.
  apply base_total. intros base body Hbase Hb Hl. eapply total_bind; [by apply blackness_total|]. done.
Qed.

Lemma copy_bits_decodes : io_total decode_copy_bits (fun _ o =>
  match o with CopyBits_Copy base src_x src_y => wire_wf base /\ u32 src_x /\ u32 src_y end).
Proof.
  apply base_total. intros base body Hbase Hb Hl.
  eapply total_bind; [by apply from_link_decode|]. intros p _.
  split; [done|]. split; by apply as_unsigned_range.
Qed.

Definition source_ok (offset t l b r : Z) : Prop := u32 offset /\ u32 t /\ u32 l /\ u32 b /\ u32 r.

Lemma opaque_decodes : io_total decode_draw_opaque (fun _ o =>
  match o with
  | Opaque_Paint base offset t l b r => wire_wf base /\ source_ok offset t l b r
  | _ => True
  end).
Proof.
  apply base_total. intros base body Hbase Hb Hl. eapply total_bind; [by apply opaque_total|].
  intros [o n] [Ho _]. destruct (negb _); [done|]. split; [done|]. unfold opaque_ok, source_ok in *. tauto.
Qed.

Lemma transparent_decodes : io_total decode_draw_transparent (fun _ o =>
  match o with Transparent_Paint base chroma offset t l b r =>
    wire_wf base /\ rgba_u8 chroma /\ source_ok offset t l b r end).
Proof.
  apply base_total. intros base body Hbase Hb Hl. eapply total_bind; [by apply transparent_total|].
  intros t Ht. split; [done|]. split; [apply bgrx_colour_u8|]. unfold transparent_ok, source_ok in *. tauto.
Qed.

Lemma alpha_blend_decodes : io_total decode_draw_alpha_blend (fun _ o =>
  match o with
  | AlphaBlend_Paint base alpha _ offset t l b r => wire_wf base /\ u8 alpha /\ source_ok offset t l b r
  | _ => True
  end).
Proof.
  apply base_total. intros base body Hbase Hb Hl. eapply total_bind; [by apply alpha_blend_total|].
  intros a Ha. destruct (_ =? 0); [done|]. split; [done|]. unfold alpha_blend_ok, source_ok in *. tauto.
Qed.

Lemma blend_decodes : io_total decode_draw_blend (fun _ o =>
  match o with
  | Blend_Paint base copy fixed_len => wire_wf base /\ wire_wf copy /\ 0 <= fixed_len
  | _ => True
  end).
Proof.
  intros s Hb Hl. apply from_link_safe; [|done|done].
  eapply safe_bind; [exact (read_safe (T := DrawBase))|]. intros base Hbase.
  eapply safe_bind; [exact (read_safe (T := SpiceCopy))|]. intros copy Hcopy.
  apply safe_if; intros _; [by apply safe_ret|].
  eapply safe_bind; [apply safe_position|]. cbv beta. intros n Hn. apply safe_ret. split; [done|]. split; [done|lia].
Qed.

(** * What the server marshals *)

Lemma read_draw_base_accepts base rest : wire_wf base -> zlen (encode base ++ rest) <= isize_max ->
  read_draw_base (encode base ++ rest) = Ok (base, rest).
Proof.
  intros Hw Hl. unfold read_draw_base, bind at 1.
  pose proof (reads_back (T := DrawBase) base Hw [] rest) as Hr. rewrite !app_nil_l, zlen_nil in Hr.
  unfold reader_new. change (DrawBase_read (mkReader (encode base ++ rest) 0)) with
    (read (T := DrawBase) (mkReader (encode base ++ rest) 0)). rewrite Hr by done.
  pose proof (reads_end_rest rest (encode base)) as He. unfold read_rest, bind in He. unfold bind.
  rewrite Z.add_0_l. destruct (remaining _) as [[n|e|] r]; [|by specialize (He Hl)..].
  rewrite He by done. done.
Qed.

Lemma ropd_put_eqb : (ropd_OP_PUT =? ropd_OP_PUT) = true.
Proof. apply Z.eqb_refl. Qed.

Lemma fill_accepted base color rop_mask rest : wire_wf base -> u32 color -> wire_wf rop_mask ->
  let payload := encode base ++ fill_bytes (mkSpiceFill (Brush_Solid color) ropd_OP_PUT rop_mask) ++ rest in
  zlen payload <= isize_max ->
  decode_draw_fill payload = Ok (Fill_Paint base (bgrx_colour color) (mask_present rop_mask)).
Proof.
  intros Hw Hc Hm payload Hl. unfold decode_draw_fill, payload in *.
  rewrite read_draw_base_accepts by done. cbn [rbind].
  assert (zlen (encode base) + zlen (fill_bytes (mkSpiceFill (Brush_Solid color) ropd_OP_PUT rop_mask) ++ rest)
    <= isize_max) as Hl' by (by rewrite <- zlen_app). pose proof (zlen_nonneg (encode base)).
  rewrite fill_accepts; [|split_and!; [done|by unfold in_unsigned, ropd_OP_PUT; cbn|done]|lia].
  cbn [rbind SpiceFill_rop_descriptor SpiceFill_brush SpiceFill_mask]. by rewrite ropd_put_eqb.
Qed.

Lemma solid_fill_accepted base mask rest : wire_wf base -> wire_wf mask ->
  let payload := encode base ++ encode mask ++ rest in
  zlen payload <= isize_max ->
  decode_draw_solid_fill payload = Ok (SolidFill_Paint base (mask_present mask)).
Proof.
  intros Hw Hm payload Hl. unfold decode_draw_solid_fill, payload in *.
  rewrite read_draw_base_accepts by done. cbn [rbind]. by rewrite blackness_accepts.
Qed.

Lemma copy_bits_accepted base (p : SpicePoint) rest : wire_wf base -> wire_wf p ->
  let payload := encode base ++ encode p ++ rest in
  zlen payload <= isize_max ->
  decode_copy_bits payload = Ok (CopyBits_Copy base (Z.max (SpicePoint_x p) 0) (Z.max (SpicePoint_y p) 0)).
Proof.
  intros Hw Hp payload Hl. unfold decode_copy_bits, payload in *.
  rewrite read_draw_base_accepts by done. cbn [rbind].
  rewrite zlen_app in Hl. pose proof (zlen_nonneg (encode base)).
  assert (zlen (encode p ++ rest) <= isize_max) as Hlp by lia.
  rewrite (laws_ignores_trailing (T := SpicePoint) p rest Hp Hlp). cbn [from_link rbind].
  destruct Hp as [[? ?] [? ?]]. unfold in_signed in *. by rewrite !as_unsigned_id by (unfold in_unsigned; lia).
Qed.

(** * The clip of an event *)

(** The pixels a clip lets through. *)
Definition clip_lets (clip : Clip) (x y : Z) : Prop :=
  Clip_clip_type clip = clip_type_RECTS -> Exists (fun r => rect_covers r x y) (Clip_rects clip).

#[export] Instance clip_lets_dec clip x y : Decision (clip_lets clip x y).
Proof.
  unfold clip_lets, rect_covers. apply _.
Defined.

(** A clip of at most 22 rectangles is never too complex. *)
Definition clip_simple (clip : Clip) : Prop := zlen (Clip_rects clip) <= 22.

Lemma size_distinct rects dest : Z.of_nat (size (distinct_rects rects dest)) <= zlen rects.
Proof.
  unfold distinct_rects, zlen. apply Nat2Z.inj_le.
  assert (size (list_to_set (omap (fun r => clamp r dest) rects) : gset Ltrb)
    <= length (omap (fun r => clamp r dest) rects))%nat as Hs.
  { induction (omap _ rects) as [|b l IH]; cbn; [by rewrite size_empty|].
    destruct (decide (b ∈ (list_to_set l : gset Ltrb))) as [Hin|Hn].
    - rewrite subseteq_union_1_L by set_solver. lia.
    - rewrite size_union, size_singleton by set_solver. lia. }
  etrans; [exact Hs|]. clear Hs. induction rects as [|r rects IH]; cbn; [done|].
  destruct (clamp r dest); cbn; lia.
Qed.

Lemma event_clip_ok base dest : ltrb_u32 dest ->
  match event_clip base dest with
  | Some (Some []) => Clip_clip_type (DrawBase_clip base) <> clip_type_RECTS
  | Some (Some boxes) =>
      Clip_clip_type (DrawBase_clip base) = clip_type_RECTS /\
      StronglySorted box_before boxes /\ Forall box_nonempty boxes /\
      (forall x y, Exists (fun b => box_covers b x y) boxes <->
         box_covers dest x y /\ clip_lets (DrawBase_clip base) x y)
  | Some None =>
      clip_simple (DrawBase_clip base) ->
      forall x y, box_covers dest x y -> ~ clip_lets (DrawBase_clip base) x y
  | None => False
  end.
Proof.
  intros Hd. pose proof (clip_area_ok (DrawBase_clip base) dest Hd) as Hc. unfold event_clip.
  destruct (clip_area (DrawBase_clip base) dest) as [[|boxes| |sent]|e|]; [done| | | |done..].
  - destruct Hc as (Ht & Hne & _ & Hs & Hn & Hcov). destruct boxes; [done|].
    split; [done|]. split; [done|]. split; [done|]. intros x y. rewrite Hcov. unfold clip_lets. tauto.
  - destruct Hc as (Ht & Hcov). intros _ x y Hx Hl. by apply (Hcov x y Hx), Hl.
  - destruct Hc as (Ht & _ & Hk). intros Hs. exfalso. cbv zeta in Hk.
    pose proof (size_distinct (Clip_rects (DrawBase_clip base)) dest). unfold clip_simple in Hs.
    set (k := Z.of_nat _) in *. unfold MAX_CLIP_RECTS in Hk. assert (k <= 22) by lia.
    assert (0 <= k) by lia. nia.
Qed.
