(* ===== verification/DisplayState.v ===== *)
(** The state of the display channel: the [DisplayChannel] and [StreamState] of
    [shakenfist-spice-renderer/src/channels/display.rs], in groups of fields.

    The GLZ dictionary is shared with the other display channels: it is the
    [world] of [Glz.v], the dictionary with what they do to it before each of
    this channel's next locks.  Snapshots and what only feeds them (the clock of
    the last publish) are left out; the rings they show are not.  A [u64] count
    is a [Z]. *)
From Stdlib Require Import ZArith Lia.
From stdpp Require Import base numbers list gmap tactics.
From S2P Require Import Prelude ReceiveBuffer OpcodeCounters Channel Lru GlzDict Glz MsgDrawCopy Video LinkMess DisplayDraw.

Open Scope Z_scope.
Open Scope rust_scope.

(** * Constants *)

Definition display_server_MARK : Z := 102.
Definition display_server_RESET : Z := 103.
Definition display_server_COPY_BITS : Z := 104.
Definition display_server_INVALIDATE_LIST : Z := 105.
Definition display_server_INVAL_ALL_PIXMAPS : Z := 106.
Definition display_server_INVAL_PALETTE : Z := 107.
Definition display_server_INVAL_ALL_PALETTES : Z := 108.
Definition display_server_STREAM_CREATE : Z := 122.
Definition display_server_STREAM_DATA : Z := 123.
Definition display_server_STREAM_CLIP : Z := 124.
Definition display_server_STREAM_DESTROY : Z := 125.
Definition display_server_STREAM_DESTROY_ALL : Z := 126.
Definition display_server_DRAW_FILL : Z := 302.
Definition display_server_DRAW_OPAQUE : Z := 303.
Definition display_server_DRAW_COPY : Z := 304.
Definition display_server_DRAW_BLEND : Z := 305.
Definition display_server_DRAW_BLACKNESS : Z := 306.
Definition display_server_DRAW_WHITENESS : Z := 307.
Definition display_server_DRAW_INVERS : Z := 308.
Definition display_server_DRAW_ROP3 : Z := 309.
Definition display_server_DRAW_STROKE : Z := 310.
Definition display_server_DRAW_TEXT : Z := 311.
Definition display_server_DRAW_TRANSPARENT : Z := 312.
Definition display_server_DRAW_ALPHA_BLEND : Z := 313.
Definition display_server_SURFACE_CREATE : Z := 314.
Definition display_server_SURFACE_DESTROY : Z := 315.
Definition display_server_STREAM_DATA_SIZED : Z := 316.
Definition display_server_MONITORS_CONFIG : Z := 317.
Definition display_server_DRAW_COMPOSITE : Z := 318.
Definition display_server_STREAM_ACTIVATE_REPORT : Z := 319.
Definition display_server_SET_ACK : Z := 3.
Definition display_server_PING : Z := 4.
Definition display_server_NOTIFY : Z := 7.
Definition display_client_ACK_SYNC : Z := 1.
Definition display_client_ACK : Z := 2.
Definition display_client_PONG : Z := 3.
Definition display_client_INIT : Z := 101.
Definition display_client_STREAM_REPORT : Z := 102.
Definition display_client_PREFERRED_COMPRESSION : Z := 103.
Definition display_client_PREFERRED_VIDEO_CODEC_TYPE : Z := 105.

(** The name table, as the opcodes it names. *)
Definition display_server_named (op : Z) : bool :=
  ((101 <=? op) && (op <=? 108)) || ((122 <=? op) && (op <=? 126)) ||
  ((302 <=? op) && (op <=? 323)) || common_server_named op.

Definition IMAGE_FLAGS_CACHE_ME : Z := Z.shiftl 1 0.
Definition IMAGE_FLAGS_CACHE_REPLACE_ME : Z := Z.shiftl 1 2.

Definition MAX_RECENT_DECODES : Z := 20.
Definition MAX_CONCURRENT_STREAMS : Z := 16.
Definition MAX_RECENT_DESTROYED_STREAMS : Z := 16.
Definition H264_NO_PICTURE_WARN_FRAMES : Z := 10.

(** * Streams *)

Record StreamGeometry : Type := mkStreamGeometry {
  sg_surface_id : Z;
  sg_codec_type : Z;
  sg_stream_width : Z;
  sg_stream_height : Z;
  sg_dest_top : Z;
  sg_dest_left : Z;
  sg_dest_bottom : Z;
  sg_dest_right : Z;
  sg_created_at : Z
}.

Record StreamFrames : Type := mkStreamFrames {
  sf_received : Z;
  sf_decoded_ok : Z;
  sf_decode_failed : Z;
  sf_last_frame_ts : option Z;
  sf_last_decode_ok_ts : option Z;
  sf_last_decode_duration_us : Z;
  sf_warned_never_decodes : bool
}.

(** What was asked for, what has been sent, and the last one sent. *)
Record StreamReporting : Type := mkStreamReporting {
  sr_is_active : bool;
  sr_unique_id : Z;
  sr_max_window_size : Z;
  sr_timeout_ms : Z;
  sr_send_count : Z;
  sr_last_sent_ts : option Z;
  sr_last_num_frames : Z;
  sr_last_num_drops : Z;
  sr_last_last_frame_delay : Z
}.

(** The frames since the last report. *)
Record StreamWindow : Type := mkStreamWindow {
  sw_num_frames : Z;
  sw_num_drops : Z;
  sw_drops_seq_len : Z;
  sw_start_frame_mm_time : Z;
  sw_end_frame_mm_time : Z;
  sw_start_now_mm_time : Z
}.

Definition StreamFrames_new : StreamFrames := mkStreamFrames 0 0 0 None None 0 false.
Definition StreamReporting_new : StreamReporting := mkStreamReporting false 0 0 0 0 None 0 0 0.
Definition StreamWindow_new : StreamWindow := mkStreamWindow 0 0 0 0 0 0.

Section Streams.
Context `{OpenH264}.

Record StreamState : Type := mkStreamState {
  ss_geometry : StreamGeometry;
  ss_video_decoder : VideoDecoder;
  ss_frames : StreamFrames;
  ss_reporting : StreamReporting;
  ss_window : StreamWindow
}.

Definition ss_on_frames (f : StreamFrames -> StreamFrames) s :=
  mkStreamState (ss_geometry s) (ss_video_decoder s) (f (ss_frames s)) (ss_reporting s) (ss_window s).
Definition ss_on_reporting (f : StreamReporting -> StreamReporting) s :=
  mkStreamState (ss_geometry s) (ss_video_decoder s) (ss_frames s) (f (ss_reporting s)) (ss_window s).
Definition ss_on_window (f : StreamWindow -> StreamWindow) s :=
  mkStreamState (ss_geometry s) (ss_video_decoder s) (ss_frames s) (ss_reporting s) (f (ss_window s)).
Definition ss_set_decoder (d : VideoDecoder) s :=
  mkStreamState (ss_geometry s) d (ss_frames s) (ss_reporting s) (ss_window s).

End Streams.

(** A stream as it was when it ended; the name of its decoder is left out. *)
Record StreamSnapshot : Type := mkStreamSnapshot {
  sn_stream_id : Z;
  sn_geometry : StreamGeometry;
  sn_frames : StreamFrames;
  sn_reporting : StreamReporting;
  sn_destroyed_at : option Z
}.

Definition stream_state_to_snapshot `{OpenH264} (id : Z) (s : StreamState) (destroyed_at : option Z)
    : StreamSnapshot :=
  mkStreamSnapshot id (ss_geometry s) (ss_frames s) (ss_reporting s) destroyed_at.

(** * The channel *)

Record DecodeResult : Type := mkDecodeResult {
  dr_image_type : option ImageType;
  dr_image_id : Z;
  dr_image_width : Z;
  dr_image_height : Z;
  dr_from_cache : bool;
  dr_success : bool;
  dr_timestamp : Z;
  dr_decode_duration_us : Z
}.

Record Decodes : Type := mkDecodes {
  dc_recent : list DecodeResult;
  dc_total_count : Z;
  dc_failed_count : Z;
  dc_from_cache_count : Z
}.

(** What one codec has cost: the recent durations, the attempts and the
    failures. *)
Record CodecCost : Type := mkCodecCost {
  co_recent_durations : list Z;
  co_total_count : Z;
  co_failed_count : Z
}.

Record StreamTotals : Type := mkStreamTotals {
  so_created_total : Z;
  so_destroyed_total : Z;
  so_rejected_total : Z;
  so_orphan_count : Z;
  so_reports_sent_total : Z;
  so_recently_destroyed : list StreamSnapshot;
  so_mjpeg : CodecCost;
  so_h264 : CodecCost
}.

Record DisplayAck : Type := mkDisplayAck {
  da_generation : Z;
  da_window : Z;
  da_message_count : Z;
  da_last_ack : Z;
  da_send_count : Z;
  da_last_send_ts : option Z;
  da_recent_intervals : list Z
}.

Record DisplayPings : Type := mkDisplayPings {
  di_recv_count : Z;
  di_pong_send_count : Z;
  di_last_recv_ts : option Z
}.

Record SocketReads : Type := mkSocketReads {
  sk_read_count : Z;
  sk_reads_at_chunk_cap : Z;
  sk_max_chunk_bytes : Z
}.

Record Preferences : Type := mkPreferences {
  pr_h264 : H264Offer;
  pr_compression : Z;
  pr_compression_sent : bool;
  pr_video_codec_type_sent : bool
}.

Section Channel.
Context `{LruCache (list Z)} `{LruCache unit} `{OpenH264}.

Record DisplayChannel : Type := mkDisplayChannel {
  dp_channel_id : Z;
  dp_buffer : ReceiveBuffer;
  dp_glz : world;
  dp_image_cache : BoundedImageCache;
  dp_streams : gmap Z StreamState;
  dp_decodes : Decodes;
  dp_stream_totals : StreamTotals;
  dp_ack : DisplayAck;
  dp_pings : DisplayPings;
  dp_reads : SocketReads;
  dp_preferences : Preferences;
  dp_totals : Totals;
  dp_log : list Event;
  dp_turn : nat
}.

(** [DisplayChannel::new]; a cache of no bytes panics.  The dictionary was made
    for the session. *)
Definition DisplayChannel_new (h264_feature : bool) (channel_id : Z) (glz_dictionary : world)
    (h264 : H264Offer) (image_cache_cap_bytes preferred_compression : Z) : option DisplayChannel :=
  image_cache ← ic_new image_cache_cap_bytes;
  Some (mkDisplayChannel channel_id rb_new glz_dictionary image_cache ∅ (mkDecodes [] 0 0 0)
    (mkStreamTotals 0 0 0 0 0 [] (mkCodecCost [] 0 0) (mkCodecCost [] 0 0))
    (mkDisplayAck 0 0 0 0 0 None []) (mkDisplayPings 0 0 None) (mkSocketReads 0 0 0)
    (mkPreferences (supported_h264_offer h264_feature h264) preferred_compression false false)
    Totals_new [] 0).

Definition dp_on_buffer (f : ReceiveBuffer -> ReceiveBuffer) c :=
  mkDisplayChannel (dp_channel_id c) (f (dp_buffer c)) (dp_glz c) (dp_image_cache c) (dp_streams c)
    (dp_decodes c) (dp_stream_totals c) (dp_ack c) (dp_pings c) (dp_reads c) (dp_preferences c)
    (dp_totals c) (dp_log c) (dp_turn c).
Definition dp_on_glz (f : world -> world) c :=
  mkDisplayChannel (dp_channel_id c) (dp_buffer c) (f (dp_glz c)) (dp_image_cache c) (dp_streams c)
    (dp_decodes c) (dp_stream_totals c) (dp_ack c) (dp_pings c) (dp_reads c) (dp_preferences c)
    (dp_totals c) (dp_log c) (dp_turn c).
Definition dp_on_image_cache (f : BoundedImageCache -> BoundedImageCache) c :=
  mkDisplayChannel (dp_channel_id c) (dp_buffer c) (dp_glz c) (f (dp_image_cache c)) (dp_streams c)
    (dp_decodes c) (dp_stream_totals c) (dp_ack c) (dp_pings c) (dp_reads c) (dp_preferences c)
    (dp_totals c) (dp_log c) (dp_turn c).
Definition dp_on_streams (f : gmap Z StreamState -> gmap Z StreamState) c :=
  mkDisplayChannel (dp_channel_id c) (dp_buffer c) (dp_glz c) (dp_image_cache c) (f (dp_streams c))
    (dp_decodes c) (dp_stream_totals c) (dp_ack c) (dp_pings c) (dp_reads c) (dp_preferences c)
    (dp_totals c) (dp_log c) (dp_turn c).
Definition dp_on_decodes (f : Decodes -> Decodes) c :=
  mkDisplayChannel (dp_channel_id c) (dp_buffer c) (dp_glz c) (dp_image_cache c) (dp_streams c)
    (f (dp_decodes c)) (dp_stream_totals c) (dp_ack c) (dp_pings c) (dp_reads c) (dp_preferences c)
    (dp_totals c) (dp_log c) (dp_turn c).
Definition dp_on_stream_totals (f : StreamTotals -> StreamTotals) c :=
  mkDisplayChannel (dp_channel_id c) (dp_buffer c) (dp_glz c) (dp_image_cache c) (dp_streams c)
    (dp_decodes c) (f (dp_stream_totals c)) (dp_ack c) (dp_pings c) (dp_reads c) (dp_preferences c)
    (dp_totals c) (dp_log c) (dp_turn c).
Definition dp_on_ack (f : DisplayAck -> DisplayAck) c :=
  mkDisplayChannel (dp_channel_id c) (dp_buffer c) (dp_glz c) (dp_image_cache c) (dp_streams c)
    (dp_decodes c) (dp_stream_totals c) (f (dp_ack c)) (dp_pings c) (dp_reads c) (dp_preferences c)
    (dp_totals c) (dp_log c) (dp_turn c).
Definition dp_on_pings (f : DisplayPings -> DisplayPings) c :=
  mkDisplayChannel (dp_channel_id c) (dp_buffer c) (dp_glz c) (dp_image_cache c) (dp_streams c)
    (dp_decodes c) (dp_stream_totals c) (dp_ack c) (f (dp_pings c)) (dp_reads c) (dp_preferences c)
    (dp_totals c) (dp_log c) (dp_turn c).
Definition dp_on_reads (f : SocketReads -> SocketReads) c :=
  mkDisplayChannel (dp_channel_id c) (dp_buffer c) (dp_glz c) (dp_image_cache c) (dp_streams c)
    (dp_decodes c) (dp_stream_totals c) (dp_ack c) (dp_pings c) (f (dp_reads c)) (dp_preferences c)
    (dp_totals c) (dp_log c) (dp_turn c).
Definition dp_on_preferences (f : Preferences -> Preferences) c :=
  mkDisplayChannel (dp_channel_id c) (dp_buffer c) (dp_glz c) (dp_image_cache c) (dp_streams c)
    (dp_decodes c) (dp_stream_totals c) (dp_ack c) (dp_pings c) (dp_reads c) (f (dp_preferences c))
    (dp_totals c) (dp_log c) (dp_turn c).
Definition dp_on_totals (f : Totals -> Totals) c :=
  mkDisplayChannel (dp_channel_id c) (dp_buffer c) (dp_glz c) (dp_image_cache c) (dp_streams c)
    (dp_decodes c) (dp_stream_totals c) (dp_ack c) (dp_pings c) (dp_reads c) (dp_preferences c)
    (f (dp_totals c)) (dp_log c) (dp_turn c).
Definition dp_on_log (f : list Event -> list Event) c :=
  mkDisplayChannel (dp_channel_id c) (dp_buffer c) (dp_glz c) (dp_image_cache c) (dp_streams c)
    (dp_decodes c) (dp_stream_totals c) (dp_ack c) (dp_pings c) (dp_reads c) (dp_preferences c)
    (dp_totals c) (f (dp_log c)) (dp_turn c).
Definition dp_on_turn (f : nat -> nat) c :=
  mkDisplayChannel (dp_channel_id c) (dp_buffer c) (dp_glz c) (dp_image_cache c) (dp_streams c)
    (dp_decodes c) (dp_stream_totals c) (dp_ack c) (dp_pings c) (dp_reads c) (dp_preferences c)
    (dp_totals c) (dp_log c) (f (dp_turn c)).

#[export] Instance DisplayChannel_state : ChannelState DisplayChannel := {|
  ch_buffer := dp_buffer;
  ch_on_buffer := dp_on_buffer;
  ch_on_totals := dp_on_totals;
  ch_on_log := dp_on_log;
  ch_turn := dp_turn;
  ch_on_turn := dp_on_turn
|}.

End Channel.

(** The environment, and the session's multimedia clock. *)
Record DisplayEnv : Type := mkDisplayEnv {
  de_env : Env;
  de_mm_now : nat -> Z
}.
