(* ===== verification/DisplayImage.v ===== *)
(** Drawing the image of a draw: [decode_image_and_emit] of
    [shakenfist-spice-renderer/src/channels/display.rs], with the two ways a draw
    finds its image.

    The image is decoded by its type, from or into the caches; its source
    rectangle is cut out; and it goes to the frontends in one event, or in one for
    each rectangle of the clip. *)
From Stdlib Require Import ZArith Lia.
From stdpp Require Import base numbers list gmap tactics.
From S2P Require Import Prelude Reader Wire ReceiveBuffer MsgDisplay MsgDrawOps MsgDrawCopy Lru GlzDict Lz Glz Lz4 Quic Video Channel Clip Surface LinkMess DisplayDraw DisplayState.

Open Scope Z_scope.
Open Scope rust_scope.

Section Images.
Context `{LruCache (list Z)} `{LruCache unit} `{OpenH264} `{JpegDecoder} `{Lz4Block} `{Zlib}.
Context (env : DisplayEnv) (overflow_checks debug_assertions : bool).

Abbreviation Dc := (M ChannelError DisplayChannel).

(** [?] on a draw that does not parse. *)
Definition draw_result {A} (r : result ErrorKind A) : Dc A :=
  match r with
  | Ok a => ret a
  | Err e => throw (Chan_Draw e)
  | Panic => panic
  end.

(** * The shared dictionary *)

(** Under one lock, which the other channels may have taken before. *)
Definition glz_locked {A} (f : GlzDictionary -> GlzDictionary * A) : Dc A :=
  let? w := gets dp_glz in
  let '(d, turns) := lock w in
  let '(d, a) := f d in
  do? modify (dp_on_glz (fun _ => mkWorld d turns)) in
  ret a.

Definition glz_remove (id : Z) : Dc bool := glz_locked (fun d => gd_remove d id).
Definition glz_clear : Dc unit := glz_locked (fun d => (gd_clear d, tt)).
Definition glz_evict_older_than (oldest_valid : Z) : Dc Z :=
  glz_locked (fun d => gd_evict_older_than d oldest_valid).

Definition glz_insert (image_id : Z) (pixels : list Z) : Dc unit :=
  let? r := glz_locked (fun d =>
    match insert_images debug_assertions d image_id pixels with
    | Some (d, outcome, evicted_keys) => (d, Some (outcome, evicted_keys))
    | None => (d, None)
    end) in
  let? r := unwrap r in
  let '(outcome, evicted_keys) := r in
  do? glz_locked (fun d => (insert_tombstones d image_id evicted_keys, tt)) in
  modify (dp_on_glz (fun w => mkWorld (insert_notify (wo_dictionary w) outcome) (wo_turns w))).

Definition glz_decompress (data : list Z) : Dc (option DecompressedImage) :=
  let? w := gets dp_glz in
  let '(r, w) := decompress_glz overflow_checks data w in
  do? modify (dp_on_glz (fun _ => w)) in
  match r with
  | Ok img => ret (Some img)
  | Err _ => ret None
  | Panic => panic
  end.

(** * Decoding, by type *)

(** Past the size the server puts before the stream. *)
Definition decode_glz (image_data : list Z) : Dc (option DecompressedImage) :=
  if zlen image_data <? 4 then ret None
  else
    let? data := unwrap (slice image_data 4 (zlen image_data)) in
    glz_decompress data.

Definition decode_lz (image_data : list Z) : Dc (option DecompressedImage) :=
  if zlen image_data <? 4 then ret None
  else
    let? data := unwrap (slice image_data 4 (zlen image_data)) in
    match decompress_lz overflow_checks data with
    | Ok img => ret (Some img)
    | Err _ => ret None
    | Panic => panic
    end.

Definition decode_zlib_glz (img_desc : ImageDescriptor) (image_data : list Z)
    : Dc (option DecompressedImage) :=
  if zlen image_data <? 8 then ret None
  else
    let? declared_glz_size := unwrap (read_u32_le image_data 0) in
    let? zlib_size := unwrap (read_u32_le image_data 4) in
    let? zlib_data := unwrap (slice image_data 8 (8 + Z.min zlib_size (zlen image_data - 8))) in
    match inflate_glz_stream zlib_data declared_glz_size (ImageDescriptor_width img_desc)
            (ImageDescriptor_height img_desc) with
    | Ok glz_data => glz_decompress glz_data
    | Err _ => ret None
    | Panic => panic
    end.

(** The bytes of a [BinaryData], or [None] when it is cut short. *)
Definition sized_data (image_data : list Z) : Dc (option (list Z)) :=
  match fst (BinaryData_read_data (reader_new image_data)) with
  | Ok data => ret (Some data)
  | Err _ => ret None
  | Panic => panic
  end.

Definition decode_lz4 (img_desc : ImageDescriptor) (image_data : list Z)
    : Dc (option DecompressedImage) :=
  let? data := sized_data image_data in
  match data with
  | None => ret None
  | Some lz4_data =>
      match decompress_spice_lz4 lz4_data (ImageDescriptor_width img_desc)
              (ImageDescriptor_height img_desc) with
      | Ok img => ret (Some img)
      | Err _ => ret None
      | Panic => panic
      end
  end.

Definition decode_from_cache (img_desc : ImageDescriptor) : Dc (option DecompressedImage) :=
  let id := ImageDescriptor_image_id img_desc in
  let? cache := gets dp_image_cache in
  let '(cache, pixels) := ic_get cache id in
  do? modify (dp_on_image_cache (fun _ => cache)) in
  match pixels with
  | None => ret None
  | Some pixels =>
      let width := ImageDescriptor_width img_desc in
      let height := ImageDescriptor_height img_desc in
      let fits := bool_decide (rgba_len width height = Some (zlen pixels)) in
      ret (if fits then DecompressedImage_new width height pixels id else None)
  end.

Definition decode_jpeg_image (img_desc : ImageDescriptor) (image_data : list Z)
    : Dc (option DecompressedImage) :=
  let? data := sized_data image_data in
  match data with
  | None => ret None
  | Some jpeg_data =>
      ret (dec ← jpeg_decode jpeg_data;
           DecompressedImage_new (dj_width dec) (dj_height dec) (dj_rgba dec)
             (ImageDescriptor_image_id img_desc))
  end.

Definition decode_quic_image (img_desc : ImageDescriptor) (image_data : list Z)
    : Dc (option DecompressedImage) :=
  if zlen image_data <? 4 then ret None
  else
    let? data_size := unwrap (read_u32_le image_data 0) in
    let? quic_data := unwrap (slice image_data 4 (4 + Z.min data_size (zlen image_data - 4))) in
    let width := ImageDescriptor_width img_desc in
    let height := ImageDescriptor_height img_desc in
    match quic_decode quic_data width height with
    | Ok rgba => ret (DecompressedImage_new width height rgba (ImageDescriptor_image_id img_desc))
    | Err _ => ret None
    | Panic => panic
    end.

Definition decode_image (image_type : option ImageType) (img_desc : ImageDescriptor)
    (image_data : list Z) : Dc Decoded :=
  let decoded (m : Dc (option DecompressedImage)) := let? img := m in ret (Dec_Image img) in
  match image_type with
  | Some Image_Pixmap => draw_result (decode_pixmap img_desc image_data)
  | Some Image_GlzRgb => decoded (decode_glz image_data)
  | Some Image_LzRgb => decoded (decode_lz image_data)
  | Some Image_ZlibGlzRgb => decoded (decode_zlib_glz img_desc image_data)
  | Some Image_Lz4 => decoded (decode_lz4 img_desc image_data)
  | Some Image_FromCache | Some Image_FromCacheLossless => decoded (decode_from_cache img_desc)
  | Some Image_Jpeg => decoded (decode_jpeg_image img_desc image_data)
  | Some Image_Quic => decoded (decode_quic_image img_desc image_data)
  | Some Image_LzPalette | Some Image_Surface | Some Image_JpegAlpha | None => ret (Dec_Image None)
  end.

(** * Keeping *)

Definition record_decode (decode : DecodeResult) : Dc unit :=
  modify (dp_on_decodes (fun d => mkDecodes (push_bounded MAX_RECENT_DECODES (dc_recent d) decode)
    (saturating_add_u64 (dc_total_count d) 1)
    (if dr_success decode then dc_failed_count d else saturating_add_u64 (dc_failed_count d) 1)
    (if dr_from_cache decode then saturating_add_u64 (dc_from_cache_count d) 1
     else dc_from_cache_count d))).

Definition from_cache_type (image_type : option ImageType) : bool :=
  match image_type with
  | Some Image_FromCache | Some Image_FromCacheLossless => true
  | _ => false
  end.

Definition glz_type (image_type : option ImageType) : bool :=
  match image_type with
  | Some Image_GlzRgb | Some Image_ZlibGlzRgb => true
  | _ => false
  end.

(** [u32::try_from(start.elapsed().as_micros())], saturating. *)
Definition micros_since (start : Z) : Dc Z :=
  let? now := instant_now (de_env env) in
  ret (Z.min u32_max (saturating_duration_since now start / 1000)).

(** The image's id; a GLZ image goes into the dictionary, another into the cache
    when the server asks. *)
Definition keep_image (image_type : option ImageType) (img_desc : ImageDescriptor)
    (img : DecompressedImage) : Dc Z :=
  if glz_type image_type then
    do? glz_insert (di_image_id img) (di_pixels img) in
    do? when (0 <? di_win_head_dist img)
          (do? glz_evict_older_than (saturating_sub (di_image_id img) (di_win_head_dist img)) in
           ret tt) in
    ret (di_image_id img)
  else
    let image_id := ImageDescriptor_image_id img_desc in
    do? when (negb (Z.land (ImageDescriptor_flags img_desc)
                      (Z.lor IMAGE_FLAGS_CACHE_ME IMAGE_FLAGS_CACHE_REPLACE_ME) =? 0))
          (let? cache := gets dp_image_cache in
           let? r := unwrap (ic_insert debug_assertions cache image_id (di_pixels img)) in
           modify (dp_on_image_cache (fun _ => fst r))) in
    ret image_id.

(** * Showing *)

(** Unsigned subtraction, which panics or wraps as the program was built. *)
Definition u32_sub (a b : Z) : option Z :=
  if overflow_checks then no_overflow 32 (a - b) else Some (as_unsigned 32 (a - b)).

Section Show.
Context (composite : CompositeMode) (surface_id image_id : Z).

Definition emit_image (left top width height : Z) (pixels : list Z) : Dc unit :=
  let? channel_id := gets dp_channel_id in
  let? ts := elapsed_now (de_env env) in
  emit (build_image_event composite channel_id surface_id left top width height pixels image_id ts).

(** One event for each rectangle of the clip. *)
Fixpoint emit_boxes (dest_left dest_top out_width : Z) (out_pixels : list Z) (clip : list Ltrb)
    : Dc unit :=
  match clip with
  | [] => ret tt
  | (il, it, ir, ib) :: clip =>
      let? sub_w := unwrap (u32_sub ir il) in
      let? sub_h := unwrap (u32_sub ib it) in
      let? x_off := unwrap (u32_sub il dest_left) in
      let? y_off := unwrap (u32_sub it dest_top) in
      let? sub_pixels := unwrap (sub_image out_pixels out_width x_off y_off sub_w sub_h) in
      do? emit_image il it sub_w sub_h sub_pixels in
      emit_boxes dest_left dest_top out_width out_pixels clip
  end.

Definition show_image (base : DrawBase) (src : Ltrb) (img : DecompressedImage) : Dc unit :=
  let? out := unwrap (crop_source img src) in
  let '(out_width, out_height, out_pixels) := out in
  let '(dest_left, dest_top, _, _) := ltrb (DrawBase_bbox base) in
  let dest := (dest_left, dest_top, saturating_add_u32 dest_left out_width,
               saturating_add_u32 dest_top out_height) in
  let? clip := unwrap (event_clip base dest) in
  match clip with
  | None => ret tt
  | Some [] => emit_image dest_left dest_top out_width out_height out_pixels
  | Some clip => emit_boxes dest_left dest_top out_width out_pixels clip
  end.

End Show.

Definition decode_image_and_emit (base : DrawBase) (img_desc : ImageDescriptor) (image_data : list Z)
    (src_area : Rect) (composite : CompositeMode) : Dc unit :=
  let image_type := ImageType_from_u8 (ImageDescriptor_image_type img_desc) in
  let? decode_start := instant_now (de_env env) in
  let? decoded := decode_image image_type img_desc image_data in
  match decoded with
  | Dec_Return => ret tt
  | Dec_Image decompressed =>
      let is_from_cache := from_cache_type image_type in
      let? decode_duration_us := (if is_from_cache then ret 0 else micros_since decode_start) in
      let? ts := elapsed_now (de_env env) in
      do? record_decode (mkDecodeResult image_type (ImageDescriptor_image_id img_desc)
            (ImageDescriptor_width img_desc) (ImageDescriptor_height img_desc) is_from_cache
            (bool_decide (is_Some decompressed)) ts decode_duration_us) in
      match decompressed with
      | None => ret tt
      | Some img =>
          let? image_id := keep_image image_type img_desc img in
          show_image composite (DrawBase_surface_id base) image_id base (ltrb src_area) img
      end
  end.

(** * Finding the image *)

(** An [image.read_bytes(image.remaining())?], which cannot fail. *)
Definition decode_copy_image_and_emit (payload : list Z) (base : DrawBase) (copy : SpiceCopy)
    (fixed_len : Z) : Dc unit :=
  match SpiceCopy_src_bitmap_reader copy payload fixed_len with
  | Ok None | Err _ => ret tt
  | Panic => panic
  | Ok (Some image) =>
      match ImageDescriptor_read image with
      | (Err _, _) => ret tt
      | (Panic, _) => panic
      | (Ok img_desc, image) =>
          let? image_data := draw_result (from_link (fst (read_rest image))) in
          decode_image_and_emit base img_desc image_data (SpiceCopy_src_area copy) Overwrite
      end
  end.

Definition decode_image_at_offset_and_emit (payload : list Z) (base : DrawBase)
    (src_bitmap_offset src_top src_left src_bottom src_right : Z) (composite : CompositeMode)
    : Dc unit :=
  if src_bitmap_offset =? 0 then ret tt
  else
    let image_start := src_bitmap_offset in
    if zlen payload <? image_start + ImageDescriptor_SIZE then ret tt
    else
      let? tail := unwrap (slice payload image_start (zlen payload)) in
      let? img_desc := draw_result (from_link (decode (T := ImageDescriptor) tail)) in
      let? image_data := unwrap (slice payload (image_start + ImageDescriptor_SIZE) (zlen payload)) in
      let src_area := mkRect (as_signed 32 src_top) (as_signed 32 src_left) (as_signed 32 src_bottom)
                        (as_signed 32 src_right) in
      decode_image_and_emit base img_desc image_data src_area composite.

End Images.
