(* ===== verification/DisplayStreams.v ===== *)
(** Video streams of the display channel: the STREAM_* arms of [handle_message]
    in [shakenfist-spice-renderer/src/channels/display.rs], the reports on them,
    and the writes of the channel.

    A stream is created with a decoder for its codec, unless too many are open;
    its frames are decoded, cropped to where they go, and emitted; when the server
    asks for reports, the frames since the last one are counted and one is sent
    when they, the time or the drops are enough. *)
From Stdlib Require Import ZArith Lia.
From stdpp Require Import base numbers list gmap sorting tactics.
From S2P Require Import Prelude Reader Wire MsgCommon ReceiveBuffer MsgDisplay LinkMess OpcodeCounters Lru GlzDict Glz Video Channel Clip DisplayDraw DisplayState DisplayImage.

Open Scope Z_scope.
Open Scope rust_scope.

(** * One stream *)

Section Stream.
Context `{OpenH264}.

(** A frame has arrived. *)
Definition note_frame (now_secs : Z) : StreamState -> StreamState :=
  ss_on_frames (fun f => mkStreamFrames (saturating_add_u64 (sf_received f) 1) (sf_decoded_ok f)
    (sf_decode_failed f) (Some now_secs) (sf_last_decode_ok_ts f) (sf_last_decode_duration_us f)
    (sf_warned_never_decodes f)).

(** The window with one more frame. *)
Definition window_frame (frame_mm_time now_mm_time : Z) (w : StreamWindow) : StreamWindow :=
  let first := sw_num_frames w =? 0 in
  let late := mm_time_diff frame_mm_time now_mm_time <? 0 in
  mkStreamWindow (saturating_add_u32 (sw_num_frames w) 1)
    (if late then saturating_add_u32 (sw_num_drops w) 1 else sw_num_drops w)
    (if late then saturating_add_u32 (sw_drops_seq_len w) 1 else 0)
    (if first then frame_mm_time else sw_start_frame_mm_time w)
    frame_mm_time
    (if first then now_mm_time else sw_start_now_mm_time w).

Definition report_due (now_mm_time : Z) (s : StreamState) : bool :=
  let w := ss_window s in
  stream_report_should_send (sw_num_frames w) (sr_max_window_size (ss_reporting s))
    (mm_time_diff now_mm_time (sw_start_now_mm_time w)) (sr_timeout_ms (ss_reporting s))
    (sw_drops_seq_len w).

(** The bookkeeping of a frame: the stream, and whether a report is to be sent. *)
Definition report_frame (frame_mm_time now_mm_time : Z) (s : StreamState) : StreamState * bool :=
  if sr_is_active (ss_reporting s) then
    let s := ss_on_window (window_frame frame_mm_time now_mm_time) s in
    (s, report_due now_mm_time s)
  else (s, false).

Definition report_of (stream_id now_mm_time : Z) (s : StreamState) : StreamReport :=
  let w := ss_window s in
  mkStreamReport stream_id (sr_unique_id (ss_reporting s)) (sw_start_frame_mm_time w)
    (sw_end_frame_mm_time w) (sw_num_frames w) (sw_num_drops w)
    (mm_time_diff (sw_end_frame_mm_time w) now_mm_time) u32_max.

(** What making the report leaves. *)
Definition note_report (now_mm_time now_secs : Z) (s : StreamState) : StreamState :=
  let w := ss_window s in
  let delay := mm_time_diff (sw_end_frame_mm_time w) now_mm_time in
  ss_on_window (fun _ => StreamWindow_new)
    (ss_on_reporting (fun r => mkStreamReporting (sr_is_active r) (sr_unique_id r)
       (sr_max_window_size r) (sr_timeout_ms r) (saturating_add_u32 (sr_send_count r) 1) (Some now_secs)
       (sw_num_frames w) (sw_num_drops w) delay) s).

Definition activate_report (unique_id max_window_size timeout_ms : Z) (s : StreamState) : StreamState :=
  ss_on_window (fun _ => StreamWindow_new)
    (ss_on_reporting (fun r => mkStreamReporting true unique_id max_window_size timeout_ms
       (sr_send_count r) (sr_last_sent_ts r) (sr_last_num_frames r) (sr_last_num_drops r)
       (sr_last_last_frame_delay r)) s).

Definition note_decoded (now_secs duration_us : Z) : StreamState -> StreamState :=
  ss_on_frames (fun f => mkStreamFrames (sf_received f) (saturating_add_u64 (sf_decoded_ok f) 1)
    (sf_decode_failed f) (sf_last_frame_ts f) (Some now_secs) duration_us (sf_warned_never_decodes f)).

Definition note_decode_failed : StreamState -> StreamState :=
  ss_on_frames (fun f => mkStreamFrames (sf_received f) (sf_decoded_ok f)
    (saturating_add_u64 (sf_decode_failed f) 1) (sf_last_frame_ts f) (sf_last_decode_ok_ts f)
    (sf_last_decode_duration_us f) (sf_warned_never_decodes f)).

(** The flag that keeps the warning from being repeated. *)
Definition warn_if_h264_never_decodes (s : StreamState) : StreamState :=
  let f := ss_frames s in
  if negb (sg_codec_type (ss_geometry s) =? SPICE_VIDEO_CODEC_TYPE_H264) ||
     sf_warned_never_decodes f || (0 <? sf_decoded_ok f) ||
     (sf_received f <? H264_NO_PICTURE_WARN_FRAMES)
  then s
  else ss_on_frames (fun f => mkStreamFrames (sf_received f) (sf_decoded_ok f) (sf_decode_failed f)
         (sf_last_frame_ts f) (sf_last_decode_ok_ts f) (sf_last_decode_duration_us f) true) s.

End Stream.

Definition note_cost (duration_us : Z) (failed : bool) (c : CodecCost) : CodecCost :=
  mkCodecCost (push_bounded MAX_RECENT_DECODES (co_recent_durations c) duration_us)
    (saturating_add_u64 (co_total_count c) 1)
    (if failed then saturating_add_u64 (co_failed_count c) 1 else co_failed_count c).

(** A frame as either message carries it: its destination (top, left, bottom,
    right) when the message has one. *)
Definition stream_frame (sized : bool) (payload : list Z)
    : result LinkError (StreamDataHeader * option Ltrb * list Z) :=
  let r := reader_new payload in
  if sized then
    rmap (fun frame =>
      let '(l, t, r, b) := ltrb (StreamDataSized_dest frame) in
      (StreamDataSized_base frame, Some (t, l, b, r), StreamDataSized_data frame))
      (fst (StreamDataSizedRef_read r))
  else
    rmap (fun frame => (StreamData_base frame, None, StreamData_data frame))
      (fst (StreamDataRef_read r)).

Section Channel.
Context `{LruCache (list Z)} `{LruCache unit} `{OpenH264} `{JpegDecoder}.
Context (env : DisplayEnv) (h264_feature : bool).

Abbreviation Dc := (M ChannelError DisplayChannel).

(** * Writes *)

(** Less the log line and the snapshot. *)
Definition display_send_with_log (msg_type : Z) (data : list Z) : Dc unit :=
  do? log_event (Ev_Sent msg_type data) in
  do? count_opcodes (record_send msg_type) in
  send (de_env env) data.

Definition on_stream (stream_id : Z) (f : StreamState -> StreamState) : Dc unit :=
  modify (dp_on_streams (alter f stream_id)).

Definition on_stream_totals (f : StreamTotals -> StreamTotals) : Dc unit :=
  modify (dp_on_stream_totals f).

Definition display_mm_now : Dc Z := ask (de_mm_now env).
Definition display_elapsed : Dc Z := elapsed_now (de_env env).

Definition send_stream_report (stream_id : Z) : Dc unit :=
  let? now_mm_time := display_mm_now in
  let? now_secs := display_elapsed in
  let? streams := gets dp_streams in
  match streams !! stream_id with
  | None => ret tt
  | Some stream =>
      let payload := write (report_of stream_id now_mm_time stream) [] in
      do? on_stream stream_id (note_report now_mm_time now_secs) in
      do? display_send_with_log display_client_STREAM_REPORT
            (make_message display_client_STREAM_REPORT payload) in
      on_stream_totals (fun t => mkStreamTotals (so_created_total t) (so_destroyed_total t)
        (so_rejected_total t) (so_orphan_count t) (saturating_add_u64 (so_reports_sent_total t) 1)
        (so_recently_destroyed t) (so_mjpeg t) (so_h264 t))
  end.

(** * Creation and destruction *)

Definition retire_stream (stream_id : Z) (state : StreamState) (destroyed_at : Z) : Dc unit :=
  on_stream_totals (fun t => mkStreamTotals (so_created_total t) (so_destroyed_total t)
    (so_rejected_total t) (so_orphan_count t) (so_reports_sent_total t)
    (push_bounded MAX_RECENT_DESTROYED_STREAMS (so_recently_destroyed t)
       (stream_state_to_snapshot stream_id state (Some destroyed_at)))
    (so_mjpeg t) (so_h264 t)).

Definition count_destroyed (n : Z) : Dc unit :=
  on_stream_totals (fun t => mkStreamTotals (so_created_total t)
    (saturating_add_u64 (so_destroyed_total t) n) (so_rejected_total t) (so_orphan_count t)
    (so_reports_sent_total t) (so_recently_destroyed t) (so_mjpeg t) (so_h264 t)).

(** [streams.remove(&stream_id)], and the stream it held retired. *)
Definition remove_stream (stream_id now : Z) : Dc unit :=
  let? streams := gets dp_streams in
  match streams !! stream_id with
  | None => ret tt
  | Some state =>
      do? modify (dp_on_streams (delete stream_id)) in
      do? retire_stream stream_id state now in
      count_destroyed 1
  end.

Definition StreamState_new (create : StreamCreate) (video_decoder : VideoDecoder) (now : Z) : StreamState :=
  let '(dest_left, dest_top, dest_right, dest_bottom) := ltrb (StreamCreate_dest create) in
  mkStreamState
    (mkStreamGeometry (StreamCreate_surface_id create) (StreamCreate_codec_type create)
       (StreamCreate_stream_width create) (StreamCreate_stream_height create) dest_top dest_left
       dest_bottom dest_right now)
    video_decoder StreamFrames_new StreamReporting_new StreamWindow_new.

Definition handle_stream_create (payload : list Z) : Dc unit :=
  let? create := try_decode (T := StreamCreate) payload in
  match create with
  | None => ret tt
  | Some create =>
      let stream_id := StreamCreate_id create in
      let? streams := gets dp_streams in
      let replacing_live_stream := bool_decide (is_Some (streams !! stream_id)) in
      if negb replacing_live_stream && (MAX_CONCURRENT_STREAMS <=? Z.of_nat (size streams)) then
        on_stream_totals (fun t => mkStreamTotals (so_created_total t) (so_destroyed_total t)
          (saturating_add_u64 (so_rejected_total t) 1) (so_orphan_count t) (so_reports_sent_total t)
          (so_recently_destroyed t) (so_mjpeg t) (so_h264 t))
      else
        match for_stream h264_feature (StreamCreate_codec_type create) with
        | Err _ => ret tt
        | Panic => panic
        | Ok video_decoder =>
            let? now := display_elapsed in
            do? remove_stream stream_id now in
            do? modify (dp_on_streams (insert stream_id (StreamState_new create video_decoder now))) in
            on_stream_totals (fun t => mkStreamTotals (saturating_add_u64 (so_created_total t) 1)
              (so_destroyed_total t) (so_rejected_total t) (so_orphan_count t) (so_reports_sent_total t)
              (so_recently_destroyed t) (so_mjpeg t) (so_h264 t))
        end
  end.

Definition handle_stream_destroy (payload : list Z) : Dc unit :=
  let? destroy := try_decode (T := StreamDestroy) payload in
  match destroy with
  | None => ret tt
  | Some destroy =>
      let? now := display_elapsed in
      remove_stream (StreamDestroy_id destroy) now
  end.

Fixpoint retire_streams (drained : list (Z * StreamState)) (now : Z) : Dc unit :=
  match drained with
  | [] => ret tt
  | (id, state) :: drained =>
      do? retire_stream id state now in
      retire_streams drained now
  end.

(** [sort_by_key]. *)
Definition by_id (a b : Z * StreamState) : Prop := fst a <= fst b.

#[local] Instance by_id_dec a b : Decision (by_id a b).
Proof. unfold by_id. apply _. Defined.

Definition handle_stream_destroy_all : Dc unit :=
  let? streams := gets dp_streams in
  let cleared := Z.of_nat (size streams) in
  let? now := display_elapsed in
  do? modify (dp_on_streams (fun _ => ∅)) in
  do? retire_streams (merge_sort by_id (map_to_list streams)) now in
  count_destroyed cleared.

Definition handle_stream_activate_report (payload : list Z) : Dc unit :=
  let? a := try_decode (T := StreamActivateReport) payload in
  match a with
  | None => ret tt
  | Some a =>
      let '(max_window_size, timeout_ms) :=
        clamp_stream_report_params (StreamActivateReport_max_window_size a)
          (StreamActivateReport_timeout_ms a) in
      on_stream (StreamActivateReport_stream_id a)
        (activate_report (StreamActivateReport_unique_id a) max_window_size timeout_ms)
  end.

(** * Frames *)

Definition note_codec_cost (codec_type duration_us : Z) (failed : bool) : Dc unit :=
  if codec_type =? SPICE_VIDEO_CODEC_TYPE_MJPEG then
    on_stream_totals (fun t => mkStreamTotals (so_created_total t) (so_destroyed_total t)
      (so_rejected_total t) (so_orphan_count t) (so_reports_sent_total t) (so_recently_destroyed t)
      (note_cost duration_us failed (so_mjpeg t)) (so_h264 t))
  else if codec_type =? SPICE_VIDEO_CODEC_TYPE_H264 then
    on_stream_totals (fun t => mkStreamTotals (so_created_total t) (so_destroyed_total t)
      (so_rejected_total t) (so_orphan_count t) (so_reports_sent_total t) (so_recently_destroyed t)
      (so_mjpeg t) (note_cost duration_us failed (so_h264 t)))
  else ret tt.

(** [and_then(|frame| frame.map(|frame| crop_frame_to_dest(frame, w, h)).transpose())] *)
Definition crop_decoded (r : result VideoDecoderError (option DecodedFrame)) (w h : Z)
    : result VideoDecoderError (option DecodedFrame) :=
  let! frame := r in
  match frame with
  | Some frame => rmap Some (crop_frame_to_dest frame w h)
  | None => Ok None
  end.

(** The frame through the stream's decoder; [None] is a failure to decode. *)
Definition decode_frame (stream_id : Z) (stream : StreamState) (dest : option Ltrb) (data : list Z)
    : Dc unit :=
  let? now_secs := display_elapsed in
  let g := ss_geometry stream in
  let '(t, l, b, r) :=
    default (sg_dest_top g, sg_dest_left g, sg_dest_bottom g, sg_dest_right g) dest in
  let w := saturating_sub r l in
  let h := saturating_sub b t in
  let? decode_start := instant_now (de_env env) in
  let '(decode_result, decoder) := video_decode data (ss_video_decoder stream) in
  do? on_stream stream_id (ss_set_decoder decoder) in
  let? duration_us := micros_since env decode_start in
  let? frame := (match crop_decoded decode_result w h with
                 | Ok frame => ret (Some frame)
                 | Err _ => ret None
                 | Panic => panic
                 end) in
  do? note_codec_cost (sg_codec_type g) duration_us ((match frame with None => true | _ => false end)) in
  do? match frame with
      | Some (Some frame) =>
          do? on_stream stream_id (note_decoded now_secs duration_us) in
          let? channel_id := gets dp_channel_id in
          emit (CE_ImageReady channel_id (sg_surface_id g) l t (df_width frame) (df_height frame)
                  (df_rgba frame) 0 now_secs)
      | Some None => ret tt
      | None => on_stream stream_id note_decode_failed
      end in
  on_stream stream_id warn_if_h264_never_decodes.

Definition handle_stream_data (sized : bool) (payload : list Z) : Dc unit :=
  match stream_frame sized payload with
  | Err _ => ret tt
  | Panic => panic
  | Ok (base, dest, data) =>
      let stream_id := StreamDataHeader_id base in
      let? now_mm_time := display_mm_now in
      let? streams := gets dp_streams in
      do? match streams !! stream_id with
          | None => ret tt
          | Some stream =>
              let? now_secs := display_elapsed in
              let '(stream, send) := report_frame (StreamDataHeader_multi_media_time base) now_mm_time
                                       (note_frame now_secs stream) in
              do? on_stream stream_id (fun _ => stream) in
              when send (send_stream_report stream_id)
          end in
      let? streams := gets dp_streams in
      match streams !! stream_id with
      | Some stream => decode_frame stream_id stream dest data
      | None =>
          on_stream_totals (fun t => mkStreamTotals (so_created_total t) (so_destroyed_total t)
            (so_rejected_total t) (saturating_add_u64 (so_orphan_count t) 1) (so_reports_sent_total t)
            (so_recently_destroyed t) (so_mjpeg t) (so_h264 t))
      end
  end.

End Channel.
