(* ===== verification/Display.v ===== *)
(** The display channel: the draw handlers, the dispatch and the loop of
    [DisplayChannel] in [shakenfist-spice-renderer/src/channels/display.rs].

    One definition per handler and one per arm of [handle_message]; the streams
    are those of [DisplayStreams.v], the images of [DisplayImage.v].  A draw whose
    base does not parse ends the channel; an image that does not decode is
    skipped. *)
From Stdlib Require Import ZArith Lia.
From stdpp Require Import base numbers list gmap tactics.
From S2P Require Import Prelude Reader Utf8 Wire MsgCommon ReceiveBuffer MsgDisplay MsgDrawOps MsgDrawCopy LinkMess OpcodeCounters Lru GlzDict Lz Glz Lz4 Video Channel Clip Surface DisplayDraw DisplayState DisplayImage DisplayStreams.

Open Scope Z_scope.
Open Scope rust_scope.

Section Channel.
Context `{LruCache (list Z)} `{LruCache unit} `{OpenH264} `{JpegDecoder} `{Lz4Block} `{Zlib}.
Context (env : DisplayEnv) (overflow_checks debug_assertions h264_feature : bool).

Abbreviation Dc := (M ChannelError DisplayChannel).

(** * Draws without an image *)

(** What the events of the rectangle draws have in common: the clip, the
    channel and the time. *)
Definition emit_draw (base : DrawBase) (dest : Ltrb)
    (event : Z -> Z -> list Ltrb -> Z -> Channel.ChannelEvent) : Dc unit :=
  let? clip := unwrap (event_clip base dest) in
  match clip with
  | None => ret tt
  | Some clip =>
      let? channel_id := gets dp_channel_id in
      let? ts := display_elapsed env in
      emit (event channel_id (DrawBase_surface_id base) clip ts)
  end.

Definition handle_draw_fill (payload : list Z) : Dc unit :=
  let? outcome := draw_result (decode_draw_fill payload) in
  match outcome with
  | Fill_SkipNonOpPut _ | Fill_SkipNoneBrush | Fill_SkipPatternBrush => ret tt
  | Fill_Paint base colour _ =>
      let rect := ltrb (DrawBase_bbox base) in
      emit_draw base rect (fun channel surface clip ts =>
        CE_FillRect channel surface rect colour clip ts)
  end.

Definition handle_draw_solid_fill (colour : rgba) (payload : list Z) : Dc unit :=
  let? outcome := draw_result (decode_draw_solid_fill payload) in
  let '(SolidFill_Paint base _) := outcome in
  let rect := ltrb (DrawBase_bbox base) in
  emit_draw base rect (fun channel surface clip ts => CE_FillRect channel surface rect colour clip ts).

Definition handle_draw_blackness : list Z -> Dc unit := handle_draw_solid_fill (0, 0, 0, 0xff).
Definition handle_draw_whiteness : list Z -> Dc unit := handle_draw_solid_fill (0xff, 0xff, 0xff, 0xff).

Definition handle_draw_invers (payload : list Z) : Dc unit :=
  let? outcome := draw_result (decode_draw_solid_fill payload) in
  let '(SolidFill_Paint base _) := outcome in
  let rect := ltrb (DrawBase_bbox base) in
  emit_draw base rect (fun channel surface clip ts => CE_Invert channel surface rect clip ts).

Definition handle_copy_bits (payload : list Z) : Dc unit :=
  let? outcome := draw_result (decode_copy_bits payload) in
  let '(CopyBits_Copy base src_x src_y) := outcome in
  let dest_rect := ltrb (DrawBase_bbox base) in
  emit_draw base dest_rect (fun channel surface clip ts =>
    CE_CopyBits channel surface src_x src_y dest_rect clip ts).

(** * Draws of an image *)

Definition DrawBase_MIN_SIZE : Z := 4 + Rect_SIZE + 1.

Definition handle_draw_copy (payload : list Z) : Dc unit :=
  if zlen payload <? DrawBase_MIN_SIZE then ret tt
  else
    match DrawBase_read (reader_new payload) with
    | (Err e, _) => throw (Chan_Malformed display_server_DRAW_COPY e)
    | (Panic, _) => panic
    | (Ok base, r) =>
        match SpiceCopy_read r with
        | (Err _, _) => ret tt
        | (Panic, _) => panic
        | (Ok copy, r) =>
            decode_copy_image_and_emit env overflow_checks debug_assertions payload base copy (br_pos r)
        end
    end.

Definition handle_draw_blend (payload : list Z) : Dc unit :=
  let? outcome := draw_result (decode_draw_blend payload) in
  match outcome with
  | Blend_SkipNonOpPut _ => ret tt
  | Blend_Paint base copy fixed_len =>
      decode_copy_image_and_emit env overflow_checks debug_assertions payload base copy fixed_len
  end.

Definition handle_draw_opaque (payload : list Z) : Dc unit :=
  let? outcome := draw_result (decode_draw_opaque payload) in
  match outcome with
  | Opaque_SkipNonOpPut _ => ret tt
  | Opaque_Paint base src_bitmap_offset src_top src_left src_bottom src_right =>
      decode_image_at_offset_and_emit env overflow_checks debug_assertions payload base
        src_bitmap_offset src_top src_left src_bottom src_right Overwrite
  end.

Definition handle_draw_transparent (payload : list Z) : Dc unit :=
  let? outcome := draw_result (decode_draw_transparent payload) in
  let '(Transparent_Paint base chroma_rgba src_bitmap_offset src_top src_left src_bottom src_right) :=
    outcome in
  decode_image_at_offset_and_emit env overflow_checks debug_assertions payload base
    src_bitmap_offset src_top src_left src_bottom src_right (ChromaKey chroma_rgba).

Definition handle_draw_alpha_blend (payload : list Z) : Dc unit :=
  let? outcome := draw_result (decode_draw_alpha_blend payload) in
  match outcome with
  | AlphaBlend_SkipZeroAlpha => ret tt
  | AlphaBlend_Paint base alpha _ src_bitmap_offset src_top src_left src_bottom src_right =>
      decode_image_at_offset_and_emit env overflow_checks debug_assertions payload base
        src_bitmap_offset src_top src_left src_bottom src_right (AlphaBlend alpha)
  end.

(** * The other messages *)

Definition handle_surface_create (payload : list Z) : Dc unit :=
  let? surface := must_decode (T := SurfaceCreate) display_server_SURFACE_CREATE payload in
  let? channel_id := gets dp_channel_id in
  emit (CE_SurfaceCreated channel_id (SurfaceCreate_surface_id surface) (SurfaceCreate_width surface)
    (SurfaceCreate_height surface)).

Definition handle_surface_destroy (payload : list Z) : Dc unit :=
  let? destroy := try_decode (T := SurfaceDestroy) payload in
  match destroy with
  | None => ret tt
  | Some destroy =>
      let? channel_id := gets dp_channel_id in
      emit (CE_SurfaceDestroyed channel_id (SurfaceDestroy_surface_id destroy))
  end.

(** Only logged. *)
Definition handle_display_monitors_config (payload : list Z) : Dc unit :=
  do? try_decode (T := DisplayMonitorsConfig) payload in
  ret tt.

Definition handle_mark : Dc unit :=
  let? ts := display_elapsed env in
  emit (CE_DisplayMark ts).

Definition display_handle_set_ack (payload : list Z) : Dc unit :=
  let? set_ack := must_decode (T := SetAck) display_server_SET_ACK payload in
  do? modify (dp_on_ack (fun a => mkDisplayAck (SetAck_generation set_ack) (SetAck_window set_ack)
        (da_message_count a) (da_last_ack a) (da_send_count a) (da_last_send_ts a)
        (da_recent_intervals a))) in
  display_send_with_log env display_client_ACK_SYNC
    (make_message display_client_ACK_SYNC (write (SetAck_ack_sync set_ack) [])).

Definition display_handle_ping (payload : list Z) : Dc unit :=
  do? modify (dp_on_pings (fun p => mkDisplayPings (saturating_add_u32 (di_recv_count p) 1)
        (di_pong_send_count p) (di_last_recv_ts p))) in
  let? ts := display_elapsed env in
  do? modify (dp_on_pings (fun p => mkDisplayPings (di_recv_count p) (di_pong_send_count p) (Some ts))) in
  let? ping := must_decode (T := Ping) display_server_PING payload in
  do? display_send_with_log env display_client_PONG
        (make_message display_client_PONG (write (Ping_pong ping) [])) in
  modify (dp_on_pings (fun p => mkDisplayPings (di_recv_count p)
    (saturating_add_u32 (di_pong_send_count p) 1) (di_last_recv_ts p))).

Definition display_handle_notify (payload : list Z) : Dc unit :=
  let? notify := must_decode (T := Notify) display_server_NOTIFY payload in
  emit (CE_Notification (Notify_severity_kind notify) (Source_Spice Ch_Display (Notify_what notify))
    (from_utf8_lossy (Notify_message notify)) (Notify_visibility_kind notify)).

Definition forget_image (id : Z) : Dc unit :=
  do? modify (dp_on_image_cache (fun c => fst (ic_remove c id))) in
  do? glz_remove id in
  ret tt.

(** [for i in 0..count]; an entry that is cut short ends it. *)
Fixpoint invalidate_loop (n : nat) (i : Z) (payload : list Z) : Dc unit :=
  match n with
  | O => ret tt
  | S n =>
      let offset := 2 + i * 9 + 1 in
      if zlen payload <? offset + 8 then ret tt
      else
        let? id := unwrap (read_u64_le payload offset) in
        do? forget_image id in
        invalidate_loop n (i + 1) payload
  end.

Definition handle_invalidate_list (payload : list Z) : Dc unit :=
  if 2 <=? zlen payload then
    let? count := unwrap (read_u16_le payload 0) in
    invalidate_loop (Z.to_nat count) 0 payload
  else ret tt.

Definition forget_all_images : Dc unit :=
  do? modify (dp_on_image_cache ic_clear) in
  glz_clear.

(** * Dispatch *)

Definition display_handle_message (msg_type : Z) (payload : list Z) : Dc unit :=
  do? count_opcodes (record_recv display_server_named msg_type) in
  if msg_type =? display_server_SURFACE_CREATE then handle_surface_create payload
  else if msg_type =? display_server_SURFACE_DESTROY then handle_surface_destroy payload
  else if msg_type =? display_server_COPY_BITS then handle_copy_bits payload
  else if msg_type =? display_server_DRAW_FILL then handle_draw_fill payload
  else if msg_type =? display_server_DRAW_OPAQUE then handle_draw_opaque payload
  else if msg_type =? display_server_DRAW_COPY then handle_draw_copy payload
  else if msg_type =? display_server_DRAW_BLEND then handle_draw_blend payload
  else if msg_type =? display_server_DRAW_BLACKNESS then handle_draw_blackness payload
  else if msg_type =? display_server_DRAW_WHITENESS then handle_draw_whiteness payload
  else if msg_type =? display_server_DRAW_INVERS then handle_draw_invers payload
  else if msg_type =? display_server_DRAW_TRANSPARENT then handle_draw_transparent payload
  else if msg_type =? display_server_DRAW_ALPHA_BLEND then handle_draw_alpha_blend payload
  else if (msg_type =? display_server_DRAW_ROP3) || (msg_type =? display_server_DRAW_STROKE) ||
          (msg_type =? display_server_DRAW_TEXT) || (msg_type =? display_server_DRAW_COMPOSITE)
  then ret tt
  else if msg_type =? display_server_MONITORS_CONFIG then handle_display_monitors_config payload
  else if msg_type =? display_server_MARK then handle_mark
  else if msg_type =? display_server_SET_ACK then display_handle_set_ack payload
  else if msg_type =? display_server_PING then display_handle_ping payload
  else if msg_type =? display_server_NOTIFY then display_handle_notify payload
  else if msg_type =? display_server_INVALIDATE_LIST then handle_invalidate_list payload
  else if msg_type =? display_server_INVAL_ALL_PIXMAPS then forget_all_images
  else if (msg_type =? display_server_INVAL_PALETTE) || (msg_type =? display_server_INVAL_ALL_PALETTES)
  then ret tt
  else if msg_type =? display_server_RESET then forget_all_images
  else if msg_type =? display_server_STREAM_CREATE then handle_stream_create env h264_feature payload
  else if (msg_type =? display_server_STREAM_DATA) || (msg_type =? display_server_STREAM_DATA_SIZED)
  then handle_stream_data env (msg_type =? display_server_STREAM_DATA_SIZED) payload
  else if msg_type =? display_server_STREAM_CLIP then
    (do? try_decode (T := StreamClip) payload in ret tt)
  else if msg_type =? display_server_STREAM_DESTROY then handle_stream_destroy env payload
  else if msg_type =? display_server_STREAM_DESTROY_ALL then handle_stream_destroy_all env
  else if msg_type =? display_server_STREAM_ACTIVATE_REPORT then handle_stream_activate_report payload
  else count_opcodes (note_unknown display_server_named msg_type).

(** * Acks *)

Definition display_send_ack : Dc unit :=
  do? display_send_with_log env display_client_ACK (make_message display_client_ACK []) in
  do? modify (dp_on_ack (fun a => mkDisplayAck (da_generation a) (da_window a) (da_message_count a)
        (da_message_count a) (da_send_count a) (da_last_send_ts a) (da_recent_intervals a))) in
  let? now := display_elapsed env in
  modify (dp_on_ack (fun a => mkDisplayAck (da_generation a) (da_window a) (da_message_count a)
    (da_last_ack a) (saturating_add_u32 (da_send_count a) 1) (Some now)
    (match da_last_send_ts a with
     | Some prev => push_ack_interval (da_recent_intervals a) (now - prev)
     | None => da_recent_intervals a
     end))).

Definition display_ack_if_needed : Dc unit :=
  let? a := gets dp_ack in
  when ((0 <? da_window a) && (da_window a <=? da_message_count a - da_last_ack a)) display_send_ack.

(** What [process_messages] does with one message once it is recorded. *)
Definition display_process_one (msg_type : Z) (payload : list Z) : Dc unit :=
  do? modify (dp_on_ack (fun a => mkDisplayAck (da_generation a) (da_window a) (da_message_count a + 1)
        (da_last_ack a) (da_send_count a) (da_last_send_ts a) (da_recent_intervals a))) in
  do? display_handle_message msg_type payload in
  display_ack_if_needed.

(** * The loop *)

Definition send_init : Dc unit :=
  let init := mkDisplayInit 1 (20 * 1024 * 1024) 1 (3 * 1024 * 1024) in
  display_send_with_log env display_client_INIT (make_message display_client_INIT (write init [])).

Definition send_preferred_compression (scheme : Z) : Dc unit :=
  do? display_send_with_log env display_client_PREFERRED_COMPRESSION
        (make_message display_client_PREFERRED_COMPRESSION (write (mkPreferredCompression scheme) [])) in
  modify (dp_on_preferences (fun p => mkPreferences (pr_h264 p) (pr_compression p) true
    (pr_video_codec_type_sent p))).

(** The count is a byte, so at most 255 codecs. *)
Definition send_preferred_video_codec_type (codecs : list Z) : Dc unit :=
  let num := Z.min (zlen codecs) 255 in
  do? display_send_with_log env display_client_PREFERRED_VIDEO_CODEC_TYPE
        (make_message display_client_PREFERRED_VIDEO_CODEC_TYPE
           (write (mkPreferredVideoCodecType (take (Z.to_nat num) codecs)) [])) in
  modify (dp_on_preferences (fun p => mkPreferences (pr_h264 p) (pr_compression p)
    (pr_compression_sent p) true)).

Definition send_link_up_preferences : Dc unit :=
  let? p := gets dp_preferences in
  do? send_preferred_compression (pr_compression p) in
  send_preferred_video_codec_type (preferred_video_codecs (pr_h264 p)).

Definition READ_CHUNK : Z := 262144.

Definition count_read (n : Z) : Dc unit :=
  modify (dp_on_reads (fun r => mkSocketReads (saturating_add_u64 (sk_read_count r) 1)
    (if n =? READ_CHUNK then saturating_add_u64 (sk_reads_at_chunk_cap r) 1 else sk_reads_at_chunk_cap r)
    (Z.max (Z.min n u32_max) (sk_max_chunk_bytes r)))).

(** The [loop] of [run_loop], over what each [read] returned: an error, nothing at
    the end of the stream, or bytes. *)
Fixpoint display_reads (read_results : list (option (list Z))) : Dc unit :=
  match read_results with
  | [] => ret tt
  | None :: _ => throw Chan_Io
  | Some [] :: _ => emit (CE_Disconnected Ch_Display ServerClosed)
  | Some chunk :: read_results =>
      do? count_read (zlen chunk) in
      do? take_read (de_env env) display_process_one chunk in
      display_reads read_results
  end.

Definition display_run_loop (read_results : list (option (list Z))) : Dc unit :=
  do? send_init in
  do? send_link_up_preferences in
  display_reads read_results.

End Channel.
