(* ===== verification/DisplayPaint.v ===== *)
(** From the display channel to the screen: the events of [Display.v] on the
    surfaces of [Mirror.v].

    [mirror_event] is a channel's event as the mirror takes it, and [paints_on]
    what a list of them does to a surface, pixel by pixel.  The draws of a
    rectangle and the images are dealt with here, with their clips. *)
From Stdlib Require Import ZArith Lia Sorted.
From stdpp Require Import base numbers list gmap tactics.
From S2P Require Import Prelude MsgDisplay Lz Channel ChannelSpec Damage Clip Surface Mirror DisplayDraw DisplayPayload.

Open Scope Z_scope.
Open Scope rust_scope.

(** * Events on a mirror *)

Definition mirror_event (e : Channel.ChannelEvent) : Mirror.ChannelEvent :=
  match e with
  | CE_SurfaceCreated c i w h => SurfaceCreated c i w h
  | CE_SurfaceDestroyed c i => SurfaceDestroyed c i
  | CE_ImageReady c i l t w h px _ _ => ImageReady c i l t w h px
  | CE_ImageReadyChroma c i l t w h px chroma _ _ => ImageReadyChroma c i l t w h px chroma
  | CE_ImageReadyAlpha c i l t w h px alpha _ _ => ImageReadyAlpha c i l t w h px alpha
  | CE_FillRect c i rect colour clip _ => FillRect c i rect colour clip
  | CE_CopyBits c i sx sy dest clip _ => CopyBits c i sx sy dest clip
  | CE_Invert c i rect clip _ => Invert c i rect clip
  | _ => NotDisplayEvent
  end.

Fixpoint apply_events (self : SurfaceMirror) (es : list Channel.ChannelEvent) : option SurfaceMirror :=
  match es with
  | [] => Some self
  | e :: es => r ← apply_event self (mirror_event e); apply_events (fst r) es
  end.

(** What the events make of the surface at [k], of whatever size it is; they
    touch no other, and do not panic. *)
Definition paints_on (k : key) (es : list Channel.ChannelEvent) (T : Z -> Z -> image -> image) : Prop :=
  forall self s, surfaces self !! k = Some s -> surface_ok s ->
  exists self' s', apply_events self es = Some self' /\
    surfaces self' = <[k := s']> (surfaces self) /\ surface_ok s' /\ same_geometry s s' /\
    forall x y, on_surface s x y -> shows s' x y = T (ds_width s) (ds_height s) (shows s) x y.

Lemma paints_nil k T : (forall w h F x y, T w h F x y = F x y) -> paints_on k [] T.
Proof.
  intros HT self s Hs Hok. exists self, s. split; [done|].
  split; [by rewrite insert_id|]. split; [done|]. split; [by split_and!|]. intros. by rewrite HT.
Qed.

Lemma on_surface_same s s' x y : same_geometry s s' -> on_surface s x y -> on_surface s' x y.
Proof. intros (_ & Ew & Eh). unfold on_surface. by rewrite Ew, Eh. Qed.

Lemma apply_events_app self es1 es2 :
  apply_events self (es1 ++ es2) = (self' ← apply_events self es1; apply_events self' es2).
Proof.
  revert self. induction es1 as [|e es1 IH]; intros self; cbn; [done|].
  destruct (apply_event self _) as [[m o]|]; [apply IH|done].
Qed.

(** One after the other; the second draws on what the first has left. *)
Lemma paints_app k es1 es2 T1 T2 T : paints_on k es1 T1 -> paints_on k es2 T2 ->
  (forall w h F F' x y, (forall x y, 0 <= x < w -> 0 <= y < h -> F' x y = T1 w h F x y) ->
     0 <= x < w -> 0 <= y < h -> T2 w h F' x y = T w h F x y) ->
  paints_on k (es1 ++ es2) T.
Proof.
  intros H1 H2 HT self s Hs Hok. destruct (H1 self s Hs Hok) as (m1 & s1 & E1 & S1 & Ok1 & G1 & P1).
  destruct (H2 m1 s1) as (m2 & s2 & E2 & S2 & Ok2 & G2 & P2); [by rewrite S1, lookup_insert_eq|done|].
  exists m2, s2. split; [by rewrite apply_events_app, E1|].
  split; [by rewrite S2, S1, insert_insert_eq|]. split; [done|].
  pose proof G1 as (I1 & Ew & Eh). pose proof G2 as (I2 & Ew' & Eh').
  split. { unfold same_geometry in *. by rewrite I2, Ew', Eh'. }
  intros x y Hon. rewrite P2 by (by eapply on_surface_same). rewrite Ew, Eh.
  destruct Hon as [Hx Hy]. apply HT; [|done|done]. intros x' y' Hx' Hy'. by apply P1.
Qed.

Lemma paints_ext k es T T' : paints_on k es T' ->
  (forall w h F x y, 0 <= w <= MAX_SURFACE_DIMENSION -> 0 <= h <= MAX_SURFACE_DIMENSION ->
     0 <= x < w -> 0 <= y < h -> T' w h F x y = T w h F x y) ->
  paints_on k es T.
Proof.
  intros HT' E self s Hs Hok. destruct (HT' self s Hs Hok) as (m & s1 & ? & ? & ? & ? & P).
  exists m, s1. split_and!; try done. intros x y Hon. rewrite P by done.
  pose proof Hok as (? & ? & _). destruct Hon. by apply E.
Qed.

(** An event the mirror takes as a draw. *)
Lemma paints_op k e op : op_ok op ->
  (forall self s, surfaces self !! k = Some s ->
     apply_event self (mirror_event e) =
       (s' ← apply_op op s; Some (mkSurfaceMirror (<[k := s']> (surfaces self)), Drawn k))) ->
  paints_on k [e] (fun w h F => op_image w h op F).
Proof.
  intros Hop He self s Hs Hok. destruct (apply_op_drawn op s Hok Hop) as (s' & E & Hok' & Hg & Hp & _).
  cbn [apply_events]. rewrite (He self s Hs), E. by do 2 eexists.
Qed.

Lemma draw_on_some self k s draw : surfaces self !! k = Some s ->
  draw_on self k draw = (s' ← draw s; Some (mkSurfaceMirror (<[k := s']> (surfaces self)), Drawn k)).
Proof. intros Hs. unfold draw_on. by rewrite Hs. Qed.

Lemma paints_fill c i l t r b colour clip ts : op_ok (OpFill l t r b colour clip) ->
  paints_on (c, i) [CE_FillRect c i (l, t, r, b) colour clip ts]
    (fun w h => op_image w h (OpFill l t r b colour clip)).
Proof. intros Hop. apply paints_op; [done|]. intros. by apply draw_on_some. Qed.

Lemma paints_invert c i l t r b clip ts : op_ok (OpInvert l t r b clip) ->
  paints_on (c, i) [CE_Invert c i (l, t, r, b) clip ts]
    (fun w h => op_image w h (OpInvert l t r b clip)).
Proof. intros Hop. apply paints_op; [done|]. intros. by apply draw_on_some. Qed.

Lemma paints_copy c i sx sy l t r b clip ts : op_ok (OpCopy sx sy l t r b clip) ->
  paints_on (c, i) [CE_CopyBits c i sx sy (l, t, r, b) clip ts]
    (fun w h => op_image w h (OpCopy sx sy l t r b clip)).
Proof. intros Hop. apply paints_op; [done|]. intros. by apply draw_on_some. Qed.

(** * Clips *)

Lemma in_clip_spec box x y : in_clip box x y = true <-> box_covers box x y.
Proof.
  destruct box as [[[l t] r] b]. unfold in_clip, box_covers.
  rewrite !andb_true_iff, !Z.leb_le, !Z.ltb_lt. tauto.
Qed.

Lemma in_clip_some boxes x y :
  existsb (fun m => m x y) (map in_clip boxes) = true <-> Exists (fun b => box_covers b x y) boxes.
Proof.
  induction boxes as [|b boxes IH]; cbn; [by rewrite Exists_nil|].
  by rewrite orb_true_iff, Exists_cons, IH, in_clip_spec.
Qed.

Lemma box_before_disjoint a b x y : box_before a b -> box_covers a x y -> box_covers b x y -> False.
Proof. destruct a as [[[? ?] ?] ?], b as [[[? ?] ?] ?]. cbn. lia. Qed.

(** A pixel is in one box of a clip at most. *)
Lemma in_clip_once boxes x y : StronglySorted box_before boxes ->
  length (List.filter (fun m => m x y) (map in_clip boxes)) =
  if existsb (fun m => m x y) (map in_clip boxes) then 1%nat else 0%nat.
Proof.
  induction 1 as [|b boxes Hs IH Hb]; [done|]. cbn [map List.filter existsb].
  destruct (in_clip b x y) eqn:E; cbn [orb length]; rewrite IH; [|done].
  destruct (existsb _ _) eqn:E2; [|done]. exfalso. apply in_clip_some, list.Exists_exists in E2.
  destruct E2 as (b' & Hin & Hc). apply in_clip_spec in E.
  eapply box_before_disjoint; [by eapply list.Forall_forall in Hb|done|done].
Qed.

Definition box_within (dest b : Ltrb) : Prop :=
  let '(dl, dt, dr, db) := dest in
  let '(l, t, r, b) := b in
  dl <= l /\ dt <= t /\ r <= dr /\ b <= db.

Section Clipped.
Context (base : DrawBase) (dest : Ltrb) (Hdest : ltrb_u32 dest) (Hsimple : clip_simple (DrawBase_clip base)).

(** The pixels a clipped draw paints. *)
Definition painted (x y : Z) : bool :=
  in_clip dest x y && bool_decide (clip_lets (DrawBase_clip base) x y).

(** What [event_clip] leaves, of what the surface does with it. *)
Lemma event_clip_paints : exists clip, event_clip base dest = Some clip /\
  match clip with
  | None => forall x y, painted x y = false
  | Some boxes => Forall (fun b => rgba_u32 b /\ box_within dest b) boxes /\ StronglySorted box_before boxes /\ Forall box_nonempty boxes /\
      (forall x y, in_clip dest x y && existsb (fun m => m x y) (clips boxes) = painted x y) /\
      (forall x y, length (List.filter (fun m => m x y) (clips boxes)) =
         if existsb (fun m => m x y) (clips boxes) then 1%nat else 0%nat) /\
      (boxes <> [] -> forall x y, Exists (fun b => box_covers b x y) boxes <-> painted x y = true)
  end.
Proof.
  pose proof (event_clip_ok base dest Hdest) as Hc. unfold painted.
  destruct (event_clip base dest) as [[[|b boxes]|]|]; [| | |done].
  - exists (Some []). split; [done|]. split_and!; [done|constructor|done| |done|done].
    intros x y. cbn. by rewrite bool_decide_true by (by unfold clip_lets).
  - exists (Some (b :: boxes)). split; [done|]. destruct Hc as (Ht & Hs & Hn & Hcov).
    assert (forall x y, Exists (fun b => box_covers b x y) (b :: boxes) <->
      in_clip dest x y && bool_decide (clip_lets (DrawBase_clip base) x y) = true) as Hp.
    { intros x y. by rewrite Hcov, andb_true_iff, bool_decide_eq_true, in_clip_spec. }
    split_and!; [|done|done| |intros; by apply in_clip_once|done].
    + apply list.Forall_forall. intros [[[l t] r] bt] Hin.
      pose proof (proj1 (list.Forall_forall _ _) Hn _ Hin) as [Hlr Htb].
      assert (forall x y, box_covers (l, t, r, bt) x y -> box_covers dest x y) as Hd.
      { intros x y Hbox. apply (Hcov x y), list.Exists_exists. by eexists. }
      destruct dest as [[[dl dt] dr] db], Hdest as (? & ? & ? & ?).
      pose proof (Hd l t) as Hlo. pose proof (Hd (r - 1) (bt - 1)) as Hhi. cbn in Hlo, Hhi.
      unfold rgba_u32, box_within, in_unsigned in *. lia.
    + intros x y. apply eq_true_iff_eq. rewrite <- Hp. cbn [clips].
      rewrite andb_true_iff, in_clip_some. split; [tauto|]. intros He. split; [|done].
      apply in_clip_spec. by apply Hcov in He as [? _].
  - exists None. split; [done|]. intros x y. apply not_true_iff_false.
    rewrite andb_true_iff, in_clip_spec, bool_decide_eq_true. intros [? ?]. by eapply Hc.
Qed.

End Clipped.

(** * Images *)

Definition composite_ok (composite : CompositeMode) : Prop :=
  match composite with
  | Overwrite => True
  | ChromaKey _ => True
  | AlphaBlend alpha => u8 alpha
  end.

(** A pixel [s] of an image drawn over the pixel [d]. *)
Definition composited (composite : CompositeMode) (s d : rgba) : rgba :=
  match composite with
  | Overwrite => s
  | ChromaKey chroma_rgba => if same_rgb s chroma_rgba then d else s
  | AlphaBlend alpha => if alpha =? 0 then d else blended s d alpha
  end.

(** An image of the size the event says. *)
Lemma paints_image composite c i l t wd ht px id ts : composite_ok composite -> u32 l -> u32 t ->
  sized_image wd ht px ->
  paints_on (c, i) [build_image_event composite c i l t wd ht px id ts]
    (fun _ _ F x y => if in_clip (l, t, l + wd, t + ht) x y
       then composited composite (picture wd px (x - l) (y - t)) (F x y) else F x y).
Proof.
  intros Hc Hl Ht (Hw & Hh & Hb & Hlen). unfold MAX_IMAGE_DIMENSION in *.
  assert (u32 wd) by (unfold in_unsigned; lia). assert (u32 ht) by (unfold in_unsigned; lia).
  assert (forall w x y, in_clip (l, t, l + wd, t + ht) x y = true ->
    4 * ((y - t) * wd + Z.min wd (w - l)) <= zlen px /\ 4 * ((y - t) * wd + (x - l)) + 4 <= zlen px)
    as Hin.
  { intros w x y Hin%in_clip_spec. cbn in Hin.
    assert (y - t + 1 <= ht) as Hy by lia. pose proof (Z.mul_le_mono_nonneg_r _ _ wd ltac:(lia) Hy). lia. }
  destruct composite as [|chroma|alpha]; cbn [build_image_event composited].
  - eapply paints_ext; [eapply (paints_op _ _ (OpBlit l t wd ht px)); [done|]|].
    + intros self s Hs. cbn [mirror_event apply_event]. by rewrite Hs.
    + intros w h F x y _ _ _ _. cbn [op_image]. unfold masked.
      destruct (in_clip _ x y) eqn:E; [|done]. destruct (Hin w x y E) as [H1 _].
      by rewrite (proj2 (Z.leb_le _ _) H1).
  - eapply paints_ext; [eapply (paints_op _ _ (OpChroma l t wd ht px chroma)); [done|]|].
    + intros self s Hs. by apply draw_on_some.
    + intros w h F x y _ _ _ _. cbn [op_image]. unfold masked.
      destruct (in_clip _ x y) eqn:E; [|done]. destruct (Hin w x y E) as [_ H2].
      rewrite (proj2 (Z.leb_le _ _) H2). unfold picture. by destruct (same_rgb _ _).
  - eapply paints_ext; [eapply (paints_op _ _ (OpAlpha l t wd ht px alpha)); [done|]|].
    + intros self s Hs. by apply draw_on_some.
    + intros w h F x y _ _ _ _. cbn [op_image]. unfold masked.
      destruct (in_clip _ x y) eqn:E; [|by rewrite andb_false_r].
      destruct (Hin w x y E) as [_ H2]. rewrite (proj2 (Z.leb_le _ _) H2).
      by destruct (alpha =? 0).
Qed.
