(* ===== verification/DisplayProps.v ===== *)
(** The display channel's draws on a surface of [Mirror.v]: what it is for a
    handler of [Display.v] to draw, the draws of a rectangle
    ([rect_draws_paint]), through the dispatch, and the showing of a decoded image
    ([show_image_draws]). *)
From Stdlib Require Import ZArith Lia Sorted.
From stdpp Require Import base numbers list gmap tactics.
From S2P Require Import Prelude Reader Wire IoCursor ReceiveBuffer MsgDisplay MsgDrawOps MsgDrawCopy LinkMess OpcodeCounters Lru GlzDict Lz Lz4 Video Channel ChannelSpec Damage Clip Surface Mirror DisplayDraw DisplayPayload DisplayState DisplayImage DisplayStreams Display DisplayPaint.

Open Scope Z_scope.
Open Scope rust_scope.

(** * What a handler draws *)

Section Draws.
Context `{LruCache (list Z)} `{LruCache unit} `{OpenH264}.

Abbreviation Dc := (M ChannelError DisplayChannel).

(** [m] succeeds, and all it logs are events that make [T] of the surface. *)
Definition draws_to (m : Dc unit) (c c' : DisplayChannel) (surface_id : Z)
    (T : Z -> Z -> image -> image) : Prop :=
  m c = (Ok tt, c') /\ dp_channel_id c' = dp_channel_id c /\
  exists es, dp_log c' = dp_log c ++ map Ev_Emit es /\ paints_on (dp_channel_id c, surface_id) es T.

(** And it leaves the cache alone. *)
Definition draws (m : Dc unit) (c : DisplayChannel) (surface_id : Z) (T : Z -> Z -> image -> image) : Prop :=
  exists c', draws_to m c c' surface_id T /\ dp_image_cache c' = dp_image_cache c.

(** One event is the draw. *)
Lemma draws_event m c c' surface_id e T : m c = (Ok tt, c') -> dp_log c' = dp_log c ++ [Ev_Emit e] ->
  dp_channel_id c' = dp_channel_id c -> dp_image_cache c' = dp_image_cache c ->
  paints_on (dp_channel_id c, surface_id) [e] T -> draws m c surface_id T.
Proof. intros Em El Ei Ec Hp. exists c'. split; [|done]. split; [done|]. split; [done|]. by exists [e]. Qed.

(** Counting the opcode does not matter to it. *)
Lemma draws_count f m c surface_id T :
  draws m (dp_on_totals f c) surface_id T -> draws (do? modify (ch_on_totals f) in m) c surface_id T.
Proof. done. Qed.

Lemma draws_nothing c surface_id T : (forall w h F x y, T w h F x y = F x y) ->
  draws (ret tt) c surface_id T.
Proof.
  intros HT. exists c. split; [|done]. split; [done|]. split; [done|]. exists [].
  split; [by rewrite app_nil_r|by apply paints_nil].
Qed.

Lemma draws_ret {A} (a : A) k c surface_id T :
  draws (k a) c surface_id T -> draws (let? a := ret a in k a) c surface_id T.
Proof. done. Qed.

Lemma draws_ext m c surface_id T T' : draws m c surface_id T' ->
  (forall w h F x y, 0 <= w <= MAX_SURFACE_DIMENSION -> 0 <= h <= MAX_SURFACE_DIMENSION ->
     0 <= x < w -> 0 <= y < h -> T' w h F x y = T w h F x y) ->
  draws m c surface_id T.
Proof.
  intros (c' & (E & I & es & L & P) & K) HT. exists c'. split; [|done]. split; [done|]. split; [done|].
  exists es. split; [done|]. by eapply paints_ext.
Qed.

(** One draw after another. *)
Lemma draws_then m m' c surface_id T1 T2 T : draws m c surface_id T1 ->
  (forall c', draws m' c' surface_id T2) ->
  (forall w h F F' x y, (forall x y, 0 <= x < w -> 0 <= y < h -> F' x y = T1 w h F x y) ->
     0 <= x < w -> 0 <= y < h -> T2 w h F' x y = T w h F x y) ->
  draws (do? m in m') c surface_id T.
Proof.
  intros (c1 & (E1 & I1 & es1 & L1 & P1) & K1) H2 HT.
  destruct (H2 c1) as (c2 & (E2 & I2 & es2 & L2 & P2) & K2). exists c2. split; [|by rewrite K2].
  split; [by rewrite (bind_ok _ _ _ _ _ E1)|]. split; [by rewrite I2|].
  exists (es1 ++ es2). split; [by rewrite L2, L1, map_app, app_assoc|].
  rewrite I1 in P2. by eapply paints_app.
Qed.

End Draws.

(** The arm of the dispatch a message of this payload takes. *)
Ltac handled_by handler :=
  match goal with
  | Hl : zlen ?payload <= isize_max |- draws _ ?c ?surface_id ?T =>
      change (draws (handler payload) c surface_id T)
  end.

(** * The draws of a rectangle *)

Inductive RectDraw : Type :=
| Rd_Fill (color : Z) (mask : SpiceQMask)
| Rd_Blackness (mask : SpiceQMask)
| Rd_Whiteness (mask : SpiceQMask)
| Rd_Invers (mask : SpiceQMask)
| Rd_CopyBits (src_pos : SpicePoint).

Definition rd_type (d : RectDraw) : Z :=
  match d with
  | Rd_Fill _ _ => display_server_DRAW_FILL
  | Rd_Blackness _ => display_server_DRAW_BLACKNESS
  | Rd_Whiteness _ => display_server_DRAW_WHITENESS
  | Rd_Invers _ => display_server_DRAW_INVERS
  | Rd_CopyBits _ => display_server_COPY_BITS
  end.

Definition rd_body (d : RectDraw) : list Z :=
  match d with
  | Rd_Fill color mask => fill_bytes (mkSpiceFill (Brush_Solid color) ropd_OP_PUT mask)
  | Rd_Blackness mask | Rd_Whiteness mask | Rd_Invers mask => encode mask
  | Rd_CopyBits src_pos => encode src_pos
  end.

(** In range; a clipped copy is left to [surface_draws_correct]. *)
Definition rd_ok (base : DrawBase) (d : RectDraw) : Prop :=
  match d with
  | Rd_Fill color mask => u32 color /\ wire_wf mask
  | Rd_Blackness mask | Rd_Whiteness mask | Rd_Invers mask => wire_wf mask
  | Rd_CopyBits src_pos => wire_wf src_pos /\ Clip_clip_type (DrawBase_clip base) <> clip_type_RECTS
  end.

(** The pixel a draw puts at ([x], [y]). *)
Definition rd_pixel (base : DrawBase) (d : RectDraw) (w h : Z) (F : image) (x y : Z) : rgba :=
  match d with
  | Rd_Fill color _ => bgrx_colour color
  | Rd_Blackness _ => (0, 0, 0, 255)
  | Rd_Whiteness _ => (255, 255, 255, 255)
  | Rd_Invers _ => inverted (F x y)
  | Rd_CopyBits src_pos =>
      let '(l, t, _, _) := ltrb (DrawBase_bbox base) in
      let sx := x - l + Z.max (SpicePoint_x src_pos) 0 in
      let sy := y - t + Z.max (SpicePoint_y src_pos) 0 in
      if (sx <? w) && (sy <? h) then F sx sy else F x y
  end.

Lemma ltrb_ltrb_u32 rect : ltrb_u32 (ltrb rect).
Proof. split_and!; by apply as_unsigned_range. Qed.

Section RectDraws.
Context `{LruCache (list Z)} `{LruCache unit} `{OpenH264} `{JpegDecoder} `{Lz4Block} `{Zlib}.
Context (env : DisplayEnv) (overflow_checks debug_assertions h264_feature : bool).

(** A draw with its clip, when the event paints what it should. *)
Lemma draws_clipped base dest event T c : ltrb_u32 dest -> clip_simple (DrawBase_clip base) ->
  (forall clip ts, event_clip base dest = Some (Some clip) ->
     paints_on (dp_channel_id c, DrawBase_surface_id base)
       [event (dp_channel_id c) (DrawBase_surface_id base) clip ts] T) ->
  (forall w h F x y, painted base dest x y = false -> T w h F x y = F x y) ->
  draws (emit_draw env base dest event) c (DrawBase_surface_id base) T.
Proof.
  intros Hd Hs He HT. unfold emit_draw.
  destruct (event_clip_paints base dest Hd Hs) as (clip & E & Hc). rewrite E.
  destruct clip as [clip|]; [|apply draws_nothing; intros; by apply HT].
  eapply draws_event; [reflexivity..|]. by apply He.
Qed.

Lemma clip_event_ok base dest clip : ltrb_u32 dest -> clip_simple (DrawBase_clip base) ->
  event_clip base dest = Some (Some clip) ->
  Forall rgba_u32 clip /\
  (forall x y, in_clip dest x y && existsb (fun m => m x y) (clips clip) = painted base dest x y) /\
  (forall x y, length (List.filter (fun m => m x y) (clips clip)) =
     if existsb (fun m => m x y) (clips clip) then 1%nat else 0%nat).
Proof.
  intros Hd Hs E. destruct (event_clip_paints base dest Hd Hs) as (clip' & E' & Hc).
  rewrite E in E'. injection E' as <-.
  destruct Hc as (Hu & _ & _ & Hp & Hn & _). split; [|done].
  eapply list.Forall_impl; [exact Hu|]. by intros b [? _].
Qed.

Lemma fills base dest colour c : ltrb_u32 dest -> clip_simple (DrawBase_clip base) -> rgba_u8 colour ->
  draws (emit_draw env base dest (fun channel surface clip ts => CE_FillRect channel surface dest colour clip ts))
    c (DrawBase_surface_id base)
    (fun _ _ F x y => if painted base dest x y then colour else F x y).
Proof.
  intros Hd Hs Hcol. apply draws_clipped; [done|done| |by intros ? ? ? ? ? ->].
  intros clip ts E. destruct (clip_event_ok base dest clip Hd Hs E) as (Hu & Hp & _).
  destruct dest as [[[l t] r] b]. eapply paints_ext; [by apply paints_fill|].
  intros w h F x y _ _ _ _. cbn [op_image]. unfold masked. by rewrite Hp.
Qed.

Lemma inverts base dest c : ltrb_u32 dest -> clip_simple (DrawBase_clip base) ->
  draws (emit_draw env base dest (fun channel surface clip ts => CE_Invert channel surface dest clip ts))
    c (DrawBase_surface_id base)
    (fun _ _ F x y => if painted base dest x y then inverted (F x y) else F x y).
Proof.
  intros Hd Hs. apply draws_clipped; [done|done| |by intros ? ? ? ? ? ->].
  intros clip ts E. destruct (clip_event_ok base dest clip Hd Hs E) as (Hu & Hp & Hn).
  destruct dest as [[[l t] r] b]. eapply paints_ext; [by apply paints_invert|].
  intros w h F x y _ _ _ _. cbn [op_image]. unfold masked. rewrite <- Hp, Hn.
  by destruct (in_clip _ x y), (existsb _ _).
Qed.

Lemma copies base dest sx sy c : ltrb_u32 dest -> clip_simple (DrawBase_clip base) -> u32 sx -> u32 sy ->
  Clip_clip_type (DrawBase_clip base) <> clip_type_RECTS ->
  draws (emit_draw env base dest (fun channel surface clip ts => CE_CopyBits channel surface sx sy dest clip ts))
    c (DrawBase_surface_id base)
    (fun w h F x y => if painted base dest x y then
       let '(l, t, _, _) := dest in
       if (x - l + sx <? w) && (y - t + sy <? h) then F (x - l + sx) (y - t + sy) else F x y
     else F x y).
Proof.
  intros Hd Hs Hx Hy Hw. apply draws_clipped; [done|done| |by intros ? ? ? ? ? ->].
  intros clip ts E. destruct (clip_event_ok base dest clip Hd Hs E) as (Hu & Hp & _).
  pose proof (event_clip_ok base dest Hd) as Hc. rewrite E in Hc.
  destruct clip as [|b clip]; [|by destruct Hc].
  destruct dest as [[[l t] r] b]. eapply paints_ext; [by apply paints_copy|].
  intros w h F x y _ _ _ _. cbn [op_image clips foldl]. unfold masked. rewrite <- Hp.
  cbn [clips existsb]. rewrite orb_true_l, andb_true_r.
  by destruct (in_clip _ x y), (_ <? w), (_ <? h).
Qed.

(** Whatever follows the fields the client reads. *)
Lemma rect_draws_paint base d rest c : wire_wf base -> rd_ok base d ->
  clip_simple (DrawBase_clip base) ->
  zlen (encode base ++ rd_body d ++ rest) <= isize_max ->
  draws (display_handle_message env overflow_checks debug_assertions h264_feature (rd_type d)
           (encode base ++ rd_body d ++ rest))
    c (DrawBase_surface_id base)
    (fun w h F x y => if painted base (ltrb (DrawBase_bbox base)) x y then rd_pixel base d w h F x y else F x y).
Proof.
  intros Hb Hd Hs Hl. pose proof (ltrb_ltrb_u32 (DrawBase_bbox base)) as Hbox.
  assert (forall v, u8 v -> rgba_u8 (v, v, v, 255)) as Hgrey
    by (intros v Hv; unfold rgba_u8, in_unsigned in *; lia).
  destruct d as [color mask|mask|mask|mask|p]; cbn [rd_body rd_type rd_pixel rd_ok] in *;
    apply draws_count.
  - destruct Hd as [Hc Hm]. handled_by (handle_draw_fill env).
    unfold handle_draw_fill. rewrite fill_accepted by done. apply fills; [done|done|].
    apply bgrx_colour_u8.
  - handled_by (handle_draw_blackness env). unfold handle_draw_blackness, handle_draw_solid_fill.
    rewrite solid_fill_accepted by done. apply fills; [done|done|]. apply Hgrey. by unfold in_unsigned.
  - handled_by (handle_draw_whiteness env). unfold handle_draw_whiteness, handle_draw_solid_fill.
    rewrite solid_fill_accepted by done. apply fills; [done|done|]. apply Hgrey. by unfold in_unsigned.
  - handled_by (handle_draw_invers env). unfold handle_draw_invers.
    rewrite solid_fill_accepted by done. by apply inverts.
  - destruct Hd as [Hp Hw]. handled_by (handle_copy_bits env). unfold handle_copy_bits.
    rewrite copy_bits_accepted by done. destruct Hp as [[? ?] [? ?]].
    apply copies; [done|done| | |done]; unfold in_unsigned; lia.
Qed.

End RectDraws.

(** * Images *)

Lemma u32_sub_ok overflow_checks a b : 0 <= a - b < 2 ^ 32 -> u32_sub overflow_checks a b = Some (a - b).
Proof.
  intros Hab. unfold u32_sub, no_overflow. destruct overflow_checks; [|by rewrite as_unsigned_id].
  by rewrite (proj2 (Z.leb_le 0 _)), (proj2 (Z.ltb_lt _ _)) by lia.
Qed.

Section Images.
Context `{LruCache (list Z)} `{LruCache unit} `{OpenH264} `{JpegDecoder} `{Lz4Block} `{Zlib}.
Context (env : DisplayEnv) (overflow_checks : bool) (composite : CompositeMode) (surface_id image_id : Z).
Context (Hcomposite : composite_ok composite).

Lemma emit_image_draws l t wd ht px c : u32 l -> u32 t -> sized_image wd ht px ->
  draws (emit_image env composite surface_id image_id l t wd ht px) c surface_id
    (fun _ _ F x y => if in_clip (l, t, l + wd, t + ht) x y
       then composited composite (picture wd px (x - l) (y - t)) (F x y) else F x y).
Proof.
  intros Hl Ht Hs. eapply draws_event; [reflexivity..|]. by apply paints_image.
Qed.

Section Boxes.
Context (dest_left dest_top out_width out_height : Z) (out_pixels : list Z).
Context (Hleft : u32 dest_left) (Htop : u32 dest_top) (Hsized : sized_image out_width out_height out_pixels).

(** The image at its destination. *)
Definition placed (F : image) (x y : Z) : rgba :=
  composited composite (picture out_width out_pixels (x - dest_left) (y - dest_top)) (F x y).

(** One box of the clip. *)
Lemma box_draws il it ir ib c : rgba_u32 (il, it, ir, ib) -> box_nonempty (il, it, ir, ib) ->
  box_within (dest_left, dest_top, dest_left + out_width, dest_top + out_height) (il, it, ir, ib) ->
  exists sub_pixels,
    sub_image out_pixels out_width (il - dest_left) (it - dest_top) (ir - il) (ib - it) = Some sub_pixels /\
    draws (emit_image env composite surface_id image_id il it (ir - il) (ib - it) sub_pixels) c surface_id
      (fun _ _ F x y => if in_clip (il, it, ir, ib) x y then placed F x y else F x y).
Proof.
  intros (? & ? & ? & ?) [? ?] (? & ? & ? & ?). destruct Hsized as (Hw & Hh & Hb & Hlen).
  destruct (sub_image_ok out_pixels out_width (il - dest_left) (it - dest_top) (ir - il) (ib - it))
    as (px & Hpx & Hlp & Hbp & Hp); [done|lia|lia|lia|lia|lia|nia|].
  exists px. split; [done|]. eapply draws_ext; [apply emit_image_draws; [done|done|]|].
  { split; [lia|]. split; [lia|by split]. }
  intros w h F x y _ _ _ _. cbv beta.
  replace (il + (ir - il)) with ir by lia. replace (it + (ib - it)) with ib by lia.
  destruct (in_clip _ x y) eqn:E; [|done]. apply in_clip_spec in E. cbn in E. unfold placed.
  rewrite Hp by lia. do 2 f_equal; lia.
Qed.

Lemma boxes_draw clip : StronglySorted box_before clip -> Forall box_nonempty clip ->
  Forall (fun b => rgba_u32 b /\
    box_within (dest_left, dest_top, dest_left + out_width, dest_top + out_height) b) clip ->
  forall c, draws (emit_boxes env overflow_checks composite surface_id image_id dest_left dest_top out_width out_pixels clip)
    c surface_id
    (fun _ _ F x y => if existsb (fun m => m x y) (map in_clip clip) then placed F x y else F x y).
Proof.
  induction clip as [|[[[il it] ir] ib] clip IH]; intros Hs Hn Hin c; [by apply draws_nothing|].
  apply StronglySorted_inv in Hs as [Hs Hbefore]. apply list.Forall_cons in Hn as [Hne Hn].
  apply list.Forall_cons in Hin as [[Hu Hwi] Hin]. cbn [emit_boxes].
  destruct (box_draws il it ir ib c Hu Hne Hwi) as (px & Hpx & Hbox).
  destruct Hu as (? & ? & ? & ?), Hne, Hwi as (? & ? & ? & ?). unfold in_unsigned in *.
  rewrite !u32_sub_ok by lia.
  do 4 apply draws_ret. rewrite Hpx. apply draws_ret. eapply draws_then; [exact Hbox|by apply IH|].
  intros w h F F' x y HF Hx Hy. cbn [map existsb]. rewrite HF by done. cbv beta.
  destruct (in_clip (il, it, ir, ib) x y) eqn:E, (existsb _ _) eqn:E2; cbn [orb]; try done.
  - exfalso. apply in_clip_some, list.Exists_exists in E2. destruct E2 as (b' & Hb' & Hc).
    apply in_clip_spec in E. eapply box_before_disjoint; [by eapply list.Forall_forall in Hbefore|done|done].
  - unfold placed. rewrite HF by done. cbv beta. by rewrite E.
Qed.

End Boxes.

(** The box an image is drawn in, and where its pixel ([x], [y]) comes from: the
    image is not scaled to the draw's box, whose right and bottom edges do not
    matter. *)
Definition image_box (base : DrawBase) (src : Ltrb) (img : DecompressedImage) : Ltrb :=
  let '(sl, st, sr, sb) := source_part (di_width img) (di_height img) src in
  let '(dl, dt, _, _) := ltrb (DrawBase_bbox base) in
  (dl, dt, dl + (sr - sl), dt + (sb - st)).

Definition image_pixel (base : DrawBase) (src : Ltrb) (img : DecompressedImage) (x y : Z) : rgba :=
  let '(sl, st, _, _) := source_part (di_width img) (di_height img) src in
  let '(dl, dt, _, _) := ltrb (DrawBase_bbox base) in
  picture (di_width img) (di_pixels img) (sl + (x - dl)) (st + (y - dt)).

Lemma in_clip_saturated dl dt w h x y : u32 dl -> u32 dt -> 0 <= x < MAX_SURFACE_DIMENSION ->
  0 <= y < MAX_SURFACE_DIMENSION ->
  in_clip (dl, dt, saturating_add_u32 dl w, saturating_add_u32 dt h) x y = in_clip (dl, dt, dl + w, dt + h) x y.
Proof.
  unfold in_unsigned, MAX_SURFACE_DIMENSION, saturating_add_u32, u32_max. intros. apply eq_true_iff_eq.
  rewrite !in_clip_spec. cbn. lia.
Qed.

Lemma box_within_trans d d' b : box_within d' b ->
  (let '(l, t, r, b) := d' in let '(l', t', r', b') := d in l' <= l /\ t' <= t /\ r <= r' /\ b <= b') ->
  box_within d b.
Proof. destruct d as [[[? ?] ?] ?], d' as [[[? ?] ?] ?], b as [[[? ?] ?] ?]. cbn. lia. Qed.

Lemma show_image_draws base src img c : ltrb_u32 src -> clip_simple (DrawBase_clip base) ->
  sized_image (di_width img) (di_height img) (di_pixels img) ->
  draws (show_image env overflow_checks composite surface_id image_id base src img) c surface_id
    (fun _ _ F x y => if painted base (image_box base src img) x y
       then composited composite (image_pixel base src img x y) (F x y) else F x y).
Proof.
  intros Hsrc Hs Hi. unfold show_image, image_box, image_pixel.
  pose proof (crop_source_ok img src Hi Hsrc) as Hcrop. pose proof (ltrb_ltrb_u32 (DrawBase_bbox base)) as Hbox.
  destruct (source_part _ _ src) as [[[sl st] sr] sb]. destruct Hcrop as (out & Eout & Hout & Hpix).
  destruct (ltrb _) as [[[dl dt] dr] db]. destruct Hbox as (Hdl & Hdt & _ & _).
  rewrite Eout. apply draws_ret.
  set (ow := sr - sl) in *. set (oh := sb - st) in *.
  assert (0 <= saturating_add_u32 dl ow <= dl + ow /\ 0 <= saturating_add_u32 dt oh <= dt + oh) as Hsat.
  { destruct Hout as (? & ? & _). unfold in_unsigned, saturating_add_u32, u32_max in *. lia. }
  set (dest := (dl, dt, saturating_add_u32 dl ow, saturating_add_u32 dt oh)).
  assert (ltrb_u32 dest) as Hdest.
  { split_and!; [done|done|..]; unfold in_unsigned, saturating_add_u32, u32_max in *; lia. }
  destruct (event_clip_paints base dest Hdest Hs) as (clip & Eclip & Hc).
  rewrite Eclip. apply draws_ret.
  assert (forall w h x y, 0 <= w <= MAX_SURFACE_DIMENSION -> 0 <= h <= MAX_SURFACE_DIMENSION ->
    0 <= x < w -> 0 <= y < h -> painted base dest x y = painted base (dl, dt, dl + ow, dt + oh) x y) as Hp.
  { intros w h x y Hw Hh Hx Hy. unfold painted, dest. by rewrite in_clip_saturated by (done || lia). }
  assert (forall x y, painted base dest x y = true ->
    picture ow out (x - dl) (y - dt) = picture (di_width img) (di_pixels img) (sl + (x - dl)) (st + (y - dt)))
    as Hpx.
  { intros x y Hxy. apply Hpix; unfold painted in Hxy;
      apply andb_true_iff in Hxy as [Hxy%in_clip_spec _]; cbn in Hxy; lia. }
  destruct clip as [[|b boxes]|].
  - destruct Hc as (_ & _ & _ & Hc & _ & _). eapply draws_ext; [by apply emit_image_draws|].
    intros w h F x y Hw Hh Hx Hy. cbv beta. rewrite <- (Hp w h) by done.
    rewrite <- (Hc x y). cbn [clips existsb]. rewrite orb_true_l, andb_true_r. unfold dest.
    rewrite in_clip_saturated by (done || lia). destruct (in_clip _ x y) eqn:E; [|done].
    rewrite Hpx; [done|]. rewrite <- (Hc x y). cbn [clips existsb]. rewrite orb_true_l, andb_true_r.
    unfold dest. by rewrite in_clip_saturated by (done || lia).
  - destruct Hc as (Hin & Hs' & Hn & _ & _ & Hc).
    eapply draws_ext; [eapply (boxes_draw dl dt ow oh out); [done|done|done|done|done|]|].
    + eapply list.Forall_impl; [exact Hin|]. intros b' [? ?]. split; [done|].
      eapply box_within_trans; [done|]. cbn. lia.
    + intros w h F x y Hw Hh Hx Hy. cbv beta. rewrite <- (Hp w h) by done.
      assert (existsb (fun m => m x y) (map in_clip (b :: boxes)) = painted base dest x y) as ->.
      { apply eq_true_iff_eq. rewrite in_clip_some. by apply Hc. }
      destruct (painted base dest x y) eqn:E; [|done]. unfold placed. by rewrite Hpx.
  - eapply (draws_ext _ _ _ _ (fun _ _ F => F)); [by apply draws_nothing|].
    intros w h F x y Hw Hh Hx Hy. cbv beta. by rewrite <- (Hp w h), Hc by done.
Qed.

End Images.
