(* ===== verification/DisplayCopies.v ===== *)
(** DRAW_COPY, from the wire to the screen: the images [Display.v] finds behind
    the pointer of a DRAW_COPY, decodes, keeps in its cache and shows.

    [draw_copy_paints_bitmap] is a raw bitmap, [draw_copy_paints_cached] an image
    the cache holds. *)
From Stdlib Require Import ZArith Lia Sorted.
From stdpp Require Import base numbers list gmap tactics.
From S2P Require Import Prelude Reader Wire IoCursor ReceiveBuffer MsgDisplay MsgDrawOps MsgDrawCopy LinkMess OpcodeCounters Lru GlzDict Lz Glz Lz4 Video Channel ChannelSpec Damage Clip Surface Mirror DisplayDraw DisplayPayload DisplayState DisplayImage DisplayStreams Display DisplayPaint DisplayProps.

Open Scope Z_scope.
Open Scope rust_scope.

(** * Raw bitmaps *)





Section Copies.
Context `{LruCache (list Z)} `{LruCache unit} `{OpenH264} `{JpegDecoder} `{Lz4Block} `{Zlib}.
Context (env : DisplayEnv) (overflow_checks debug_assertions h264_feature : bool).

(** * Finding the image *)


(** * Without drawing *)








(** * The cache *)

Context {HL : LruLaws (list Z)}.







(** * Drawing an image *)






(** * Draws *)














End Copies.

(** * Theorems *)

Section Theorems.
Context `{LruCache (list Z)} `{LruCache unit} `{OpenH264} `{JpegDecoder} `{Lz4Block} `{Zlib}.
Context {HL : LruLaws (list Z)}.
Context (env : DisplayEnv) (overflow_checks debug_assertions h264_feature : bool).


End Theorems.

(** * Witness *)

Section Demo.

#[local] Instance demo_lru V : LruCache V := list_lru V.
#[local] Instance demo_lru_laws V : LruLaws V := list_lru_laws V.
#[local] Existing Instances broken_codec any_jpeg stored_block.

(** Streams that are stored as they are. *)
#[local] Instance stored_zlib : Zlib := {| zlib_take data limit := Some (take (Z.to_nat limit) data) |}.










End Demo.
