(* ===== verification/UsbMessages.v ===== *)
(** The messages of the USB redirection protocol:
    [shakenfist-spice-usbredir/src/messages.rs] and [constants.rs].

    Each struct is a record with its [read] and, where the source has one, its
    [write].  [UsbWire] states what every message promises; its instances are
    what the parser of [Usbredir] is verified against. *)
From Stdlib Require Import ZArith Lia.
From stdpp Require Import base numbers list tactics.
From S2P Require Import Prelude Reader IoCursor Utf8.

Open Scope Z_scope.
Open Scope rust_scope.

(** * Constants *)

Module msg_type.
Definition HELLO : Z := 0.
Definition DEVICE_CONNECT : Z := 1.
Definition DEVICE_DISCONNECT : Z := 2.
Definition RESET : Z := 3.
Definition INTERFACE_INFO : Z := 4.
Definition EP_INFO : Z := 5.
Definition SET_CONFIGURATION : Z := 6.
Definition GET_CONFIGURATION : Z := 7.
Definition CONFIGURATION_STATUS : Z := 8.
Definition SET_ALT_SETTING : Z := 9.
Definition GET_ALT_SETTING : Z := 10.
Definition ALT_SETTING_STATUS : Z := 11.
Definition START_INTERRUPT_RECEIVING : Z := 15.
Definition STOP_INTERRUPT_RECEIVING : Z := 16.
Definition INTERRUPT_RECEIVING_STATUS : Z := 17.
Definition CANCEL_DATA_PACKET : Z := 21.
Definition FILTER_REJECT : Z := 22.
Definition DEVICE_DISCONNECT_ACK : Z := 24.
Definition CONTROL_PACKET : Z := 100.
Definition BULK_PACKET : Z := 101.
Definition INTERRUPT_PACKET : Z := 103.
End msg_type.

Inductive Status : Type :=
| Status_Success | Status_Cancelled | Status_Inval | Status_Ioerror | Status_Stall
| Status_Timeout | Status_Babble.

Definition Status_from_u8 (v : Z) : Status :=
  match v with
  | 0 => Status_Success
  | 1 => Status_Cancelled
  | 2 => Status_Inval
  | 3 => Status_Ioerror
  | 4 => Status_Stall
  | 5 => Status_Timeout
  | 6 => Status_Babble
  | _ => Status_Inval
  end.

(** * Reading

    [if data.len() < Self::SIZE] and a [Cursor] from the start of the data. *)

Definition io_read {A} (size : Z) (m : Cur A) (data : list Z) : result ErrorKind A :=
  if zlen data <? size then Err UnexpectedEof else fst (m data).

(** * Header *)

Record UsbredirHeader : Type := mkUsbredirHeader {
  uh_msg_type : Z;
  uh_length : Z;
  uh_id : Z
}.

Definition UsbredirHeader_SIZE : Z := 12.

Definition UsbredirHeader_read : list Z -> result ErrorKind UsbredirHeader :=
  io_read UsbredirHeader_SIZE (
    let? msg_type := cur_u32 in
    let? length := cur_u32 in
    let? id := cur_u32 in
    ret (mkUsbredirHeader msg_type length id)).

Definition UsbredirHeader_write (self : UsbredirHeader) (buf : list Z) : list Z :=
  buf <+ to_le 4 (uh_msg_type self) <+ to_le 4 (uh_length self) <+ to_le 4 (uh_id self).

Definition make_usbredir_message (msg_type id : Z) (payload : list Z) : list Z :=
  UsbredirHeader_write (mkUsbredirHeader msg_type (as_unsigned 32 (zlen payload)) id) []
    <+ payload.

(** * Control messages *)

(** [version] is the UTF-8 of the string. *)
Record Hello : Type := mkHello { Hello_version : list Z; Hello_capabilities : Z }.

Definition Hello_SIZE : Z := 68.

(** [iter().position(|&b| b == 0)], or the length. *)
Fixpoint until_nul (bs : list Z) : list Z :=
  match bs with
  | [] => []
  | b :: bs => if b =? 0 then [] else b :: until_nul bs
  end.

Definition Hello_read (data : list Z) : result ErrorKind Hello :=
  if zlen data <? Hello_SIZE then Err UnexpectedEof
  else
    let! version_bytes := rlift (slice data 0 64) in
    let version := from_utf8_lossy (until_nul version_bytes) in
    let! rest := rlift (slice data 64 (zlen data)) in
    let! capabilities := fst (cur_u32 rest) in
    Ok (mkHello version capabilities).

Definition Hello_write (self : Hello) (buf : list Z) : list Z :=
  let bs := Hello_version self in
  let len := Nat.min (length bs) 63 in
  buf <+ (take len bs ++ replicate (64 - len) 0) <+ to_le 4 (Hello_capabilities self).

Record DeviceConnect : Type := mkDeviceConnect {
  DeviceConnect_speed : Z;
  DeviceConnect_device_class : Z;
  DeviceConnect_device_subclass : Z;
  DeviceConnect_device_protocol : Z;
  DeviceConnect_vendor_id : Z;
  DeviceConnect_product_id : Z;
  DeviceConnect_device_version_bcd : Z
}.

Definition DeviceConnect_SIZE : Z := 10.

Definition DeviceConnect_read : list Z -> result ErrorKind DeviceConnect :=
  io_read DeviceConnect_SIZE (
    let? speed := cur_u8 in
    let? device_class := cur_u8 in
    let? device_subclass := cur_u8 in
    let? device_protocol := cur_u8 in
    let? vendor_id := cur_u16 in
    let? product_id := cur_u16 in
    let? device_version_bcd := cur_u16 in
    ret (mkDeviceConnect speed device_class device_subclass device_protocol vendor_id product_id
           device_version_bcd)).

Definition DeviceConnect_write (self : DeviceConnect) (buf : list Z) : list Z :=
  buf <+ to_le 1 (DeviceConnect_speed self)
    <+ to_le 1 (DeviceConnect_device_class self)
    <+ to_le 1 (DeviceConnect_device_subclass self)
    <+ to_le 1 (DeviceConnect_device_protocol self)
    <+ to_le 2 (DeviceConnect_vendor_id self)
    <+ to_le 2 (DeviceConnect_product_id self)
    <+ to_le 2 (DeviceConnect_device_version_bcd self).

Record InterfaceInfo : Type := mkInterfaceInfo {
  InterfaceInfo_interface_count : Z;
  InterfaceInfo_interface : list Z;
  InterfaceInfo_interface_class : list Z;
  InterfaceInfo_interface_subclass : list Z;
  InterfaceInfo_interface_protocol : list Z
}.

Definition InterfaceInfo_SIZE : Z := 132.

Definition InterfaceInfo_read : list Z -> result ErrorKind InterfaceInfo :=
  io_read InterfaceInfo_SIZE (
    let? interface_count := cur_u32 in
    let? interface := read_exact 32 in
    let? interface_class := read_exact 32 in
    let? interface_subclass := read_exact 32 in
    let? interface_protocol := read_exact 32 in
    ret (mkInterfaceInfo interface_count interface interface_class interface_subclass
           interface_protocol)).

Definition InterfaceInfo_write (self : InterfaceInfo) (buf : list Z) : list Z :=
  buf <+ to_le 4 (InterfaceInfo_interface_count self)
    <+ InterfaceInfo_interface self
    <+ InterfaceInfo_interface_class self
    <+ InterfaceInfo_interface_subclass self
    <+ InterfaceInfo_interface_protocol self.

Record EpInfo : Type := mkEpInfo {
  EpInfo_ep_type : list Z;
  EpInfo_ep_interval : list Z;
  EpInfo_ep_interface : list Z;
  EpInfo_ep_max_packet_size : list Z
}.

Definition EpInfo_SIZE : Z := 160.

(** [for i in 0..32 { ep_max_packet_size[i] = c.read_u16()? }] *)
Fixpoint read_u16s (n : nat) : Cur (list Z) :=
  match n with
  | O => ret []
  | S n =>
      let? size := cur_u16 in
      let? sizes := read_u16s n in
      ret (size :: sizes)
  end.

Definition EpInfo_read (data : list Z) : result ErrorKind EpInfo :=
  if zlen data <? EpInfo_SIZE then Err UnexpectedEof
  else
    let! ep_type := rlift (slice data 0 32) in
    let! ep_interval := rlift (slice data 32 64) in
    let! ep_interface := rlift (slice data 64 96) in
    let! sizes := rlift (slice data 96 160) in
    let! ep_max_packet_size := fst (read_u16s 32 sizes) in
    Ok (mkEpInfo ep_type ep_interval ep_interface ep_max_packet_size).

Definition EpInfo_write (self : EpInfo) (buf : list Z) : list Z :=
  buf <+ EpInfo_ep_type self <+ EpInfo_ep_interval self <+ EpInfo_ep_interface self
    <+ concat (map (to_le 2) (EpInfo_ep_max_packet_size self)).

(** [data[i]] for the messages that index their bytes: the length was checked. *)
Definition byte_of (data : list Z) (i : Z) : result ErrorKind Z := rlift (index data i).

Record SetConfiguration : Type := mkSetConfiguration { SetConfiguration_configuration : Z }.

Definition SetConfiguration_read (data : list Z) : result ErrorKind SetConfiguration :=
  if zlen data =? 0 then Err UnexpectedEof
  else let! configuration := byte_of data 0 in Ok (mkSetConfiguration configuration).

Record ConfigurationStatus : Type := mkConfigurationStatus {
  ConfigurationStatus_status : Z;
  ConfigurationStatus_configuration : Z
}.

Definition ConfigurationStatus_SIZE : Z := 2.

Definition ConfigurationStatus_read (data : list Z) : result ErrorKind ConfigurationStatus :=
  if zlen data <? ConfigurationStatus_SIZE then Err UnexpectedEof
  else
    let! status := byte_of data 0 in
    let! configuration := byte_of data 1 in
    Ok (mkConfigurationStatus status configuration).

Definition ConfigurationStatus_write (self : ConfigurationStatus) (buf : list Z) : list Z :=
  buf <+ to_le 1 (ConfigurationStatus_status self)
    <+ to_le 1 (ConfigurationStatus_configuration self).

Record SetAltSetting : Type := mkSetAltSetting {
  SetAltSetting_interface : Z;
  SetAltSetting_alt_setting : Z
}.

Definition SetAltSetting_SIZE : Z := 2.

Definition SetAltSetting_read (data : list Z) : result ErrorKind SetAltSetting :=
  if zlen data <? SetAltSetting_SIZE then Err UnexpectedEof
  else
    let! interface := byte_of data 0 in
    let! alt_setting := byte_of data 1 in
    Ok (mkSetAltSetting interface alt_setting).

Record GetAltSetting : Type := mkGetAltSetting { GetAltSetting_interface : Z }.

Definition GetAltSetting_read (data : list Z) : result ErrorKind GetAltSetting :=
  if zlen data =? 0 then Err UnexpectedEof
  else let! interface := byte_of data 0 in Ok (mkGetAltSetting interface).

Record AltSettingStatus : Type := mkAltSettingStatus {
  AltSettingStatus_status : Z;
  AltSettingStatus_interface : Z;
  AltSettingStatus_alt_setting : Z
}.

Definition AltSettingStatus_SIZE : Z := 3.

Definition AltSettingStatus_read (data : list Z) : result ErrorKind AltSettingStatus :=
  if zlen data <? AltSettingStatus_SIZE then Err UnexpectedEof
  else
    let! status := byte_of data 0 in
    let! interface := byte_of data 1 in
    let! alt_setting := byte_of data 2 in
    Ok (mkAltSettingStatus status interface alt_setting).

Definition AltSettingStatus_write (self : AltSettingStatus) (buf : list Z) : list Z :=
  buf <+ to_le 1 (AltSettingStatus_status self)
    <+ to_le 1 (AltSettingStatus_interface self)
    <+ to_le 1 (AltSettingStatus_alt_setting self).

Record StartInterruptReceiving : Type := mkStartInterruptReceiving {
  StartInterruptReceiving_endpoint : Z
}.

Definition StartInterruptReceiving_read (data : list Z)
    : result ErrorKind StartInterruptReceiving :=
  if zlen data =? 0 then Err UnexpectedEof
  else let! endpoint := byte_of data 0 in Ok (mkStartInterruptReceiving endpoint).

Record StopInterruptReceiving : Type := mkStopInterruptReceiving {
  StopInterruptReceiving_endpoint : Z
}.

Definition StopInterruptReceiving_read (data : list Z)
    : result ErrorKind StopInterruptReceiving :=
  if zlen data =? 0 then Err UnexpectedEof
  else let! endpoint := byte_of data 0 in Ok (mkStopInterruptReceiving endpoint).

Record InterruptReceivingStatus : Type := mkInterruptReceivingStatus {
  InterruptReceivingStatus_status : Z;
  InterruptReceivingStatus_endpoint : Z
}.

Definition InterruptReceivingStatus_SIZE : Z := 2.

Definition InterruptReceivingStatus_read (data : list Z)
    : result ErrorKind InterruptReceivingStatus :=
  if zlen data <? InterruptReceivingStatus_SIZE then Err UnexpectedEof
  else
    let! status := byte_of data 0 in
    let! endpoint := byte_of data 1 in
    Ok (mkInterruptReceivingStatus status endpoint).

Definition InterruptReceivingStatus_write (self : InterruptReceivingStatus) (buf : list Z)
    : list Z :=
  buf <+ to_le 1 (InterruptReceivingStatus_status self)
    <+ to_le 1 (InterruptReceivingStatus_endpoint self).

(** * Data transfer messages *)

Record ControlPacketHeader : Type := mkControlPacketHeader {
  ControlPacketHeader_endpoint : Z;
  ControlPacketHeader_request : Z;
  ControlPacketHeader_request_type : Z;
  ControlPacketHeader_status : Z;
  ControlPacketHeader_value : Z;
  ControlPacketHeader_index : Z;
  ControlPacketHeader_length : Z
}.

Definition ControlPacketHeader_SIZE : Z := 10.

Definition ControlPacketHeader_read : list Z -> result ErrorKind ControlPacketHeader :=
  io_read ControlPacketHeader_SIZE (
    let? endpoint := cur_u8 in
    let? request := cur_u8 in
    let? request_type := cur_u8 in
    let? status := cur_u8 in
    let? value := cur_u16 in
    let? index := cur_u16 in
    let? length := cur_u16 in
    ret (mkControlPacketHeader endpoint request request_type status value index length)).

Definition ControlPacketHeader_write (self : ControlPacketHeader) (buf : list Z) : list Z :=
  buf <+ to_le 1 (ControlPacketHeader_endpoint self)
    <+ to_le 1 (ControlPacketHeader_request self)
    <+ to_le 1 (ControlPacketHeader_request_type self)
    <+ to_le 1 (ControlPacketHeader_status self)
    <+ to_le 2 (ControlPacketHeader_value self)
    <+ to_le 2 (ControlPacketHeader_index self)
    <+ to_le 2 (ControlPacketHeader_length self).

Record BulkPacketHeader : Type := mkBulkPacketHeader {
  BulkPacketHeader_endpoint : Z;
  BulkPacketHeader_status : Z;
  BulkPacketHeader_length : Z;
  BulkPacketHeader_stream_id : Z;
  BulkPacketHeader_length_high : Z
}.

Definition BulkPacketHeader_SIZE : Z := 10.

Definition BulkPacketHeader_read : list Z -> result ErrorKind BulkPacketHeader :=
  io_read BulkPacketHeader_SIZE (
    let? endpoint := cur_u8 in
    let? status := cur_u8 in
    let? length := cur_u16 in
    let? stream_id := cur_u32 in
    let? length_high := cur_u16 in
    ret (mkBulkPacketHeader endpoint status length stream_id length_high)).

Definition BulkPacketHeader_write (self : BulkPacketHeader) (buf : list Z) : list Z :=
  buf <+ to_le 1 (BulkPacketHeader_endpoint self)
    <+ to_le 1 (BulkPacketHeader_status self)
    <+ to_le 2 (BulkPacketHeader_length self)
    <+ to_le 4 (BulkPacketHeader_stream_id self)
    <+ to_le 2 (BulkPacketHeader_length_high self).

Definition actual_length (self : BulkPacketHeader) : Z :=
  Z.lor (Z.shiftl (BulkPacketHeader_length_high self) 16) (BulkPacketHeader_length self).

Record InterruptPacketHeader : Type := mkInterruptPacketHeader {
  InterruptPacketHeader_endpoint : Z;
  InterruptPacketHeader_status : Z;
  InterruptPacketHeader_length : Z
}.

Definition InterruptPacketHeader_SIZE : Z := 4.

Definition InterruptPacketHeader_read : list Z -> result ErrorKind InterruptPacketHeader :=
  io_read InterruptPacketHeader_SIZE (
    let? endpoint := cur_u8 in
    let? status := cur_u8 in
    let? length := cur_u16 in
    ret (mkInterruptPacketHeader endpoint status length)).

Definition InterruptPacketHeader_write (self : InterruptPacketHeader) (buf : list Z) : list Z :=
  buf <+ to_le 1 (InterruptPacketHeader_endpoint self)
    <+ to_le 1 (InterruptPacketHeader_status self)
    <+ to_le 2 (InterruptPacketHeader_length self).

(** * What every message promises *)

Class UsbWire (T : Type) : Type := {
  usb_size : Z;
  usb_read : list Z -> result ErrorKind T;
  (** What a peer sends for the value: [write] where the source has one. *)
  usb_bytes : T -> list Z;
  (** The values of the code's types. *)
  usb_wf : T -> Prop;
  (** The values the layout can carry. *)
  usb_fits : T -> Prop
}.

Class UsbLaws (T : Type) `{UsbWire T} : Prop := {
  (** Reading never panics, fails exactly on short data, and returns a value of
      the type. *)
  usb_typed : forall data, bytes data ->
    match usb_read data with
    | Ok v => usb_size <= zlen data /\ usb_wf v
    | Err e => e = UnexpectedEof /\ zlen data < usb_size
    | Panic => False
    end;
  usb_back : forall v, usb_wf v -> usb_fits v -> forall rest,
    usb_read (usb_bytes v ++ rest) = Ok v;
  usb_bytes_ok : forall v, usb_wf v -> usb_fits v ->
    zlen (usb_bytes v) = usb_size /\ bytes (usb_bytes v)
}.

(** ** Reading a fixed number of bytes *)

(** [m] takes [n] bytes, if there are as many, to a value satisfying [Q]. *)
Definition reads_n {A} (n : nat) (m : Cur A) (Q : A -> Prop) : Prop :=
  forall s, bytes s -> (n <= length s)%nat ->
  exists a, m s = (Ok a, drop n s) /\ Q a.

Lemma reads_n_ret {A} (a : A) (Q : A -> Prop) : Q a -> reads_n 0 (ret a) Q.
Proof. intros Ha s _ _. exists a. by rewrite drop_0. Qed.

Lemma reads_n_bind {A B} n k (m : Cur A) (f : A -> Cur B) P Q :
  reads_n n m P -> (forall a, P a -> reads_n k (f a) Q) -> reads_n (n + k) (bind m f) Q.
Proof.
  intros Hm Hf s Hs Hl. destruct (Hm s Hs) as (a & Ea & Ha); [lia|].
  destruct (Hf a Ha (drop n s)) as (b & Eb & Hb); [by apply Forall_drop|rewrite length_drop; lia|].
  exists b. unfold bind. by rewrite Ea, Eb, drop_drop.
Qed.

Lemma reads_n_exact n : reads_n n (read_exact n) (fun a => length a = n /\ bytes a).
Proof.
  intros s Hs Hl. exists (take n s). unfold read_exact. case_bool; [unfold zlen in *; lia|].
  split; [done|]. split; [rewrite length_take; lia|by apply Forall_take].
Qed.

Lemma reads_n_uint n :
  reads_n n (let? a := read_exact n in ret (from_le a)) (in_unsigned (8 * Z.of_nat n)).
Proof.
  replace n with (n + 0)%nat at 1 by lia.
  eapply reads_n_bind; [apply reads_n_exact|]. intros a [Hl Hb]. apply reads_n_ret.
  red. replace (Z.of_nat n) with (zlen a) by (unfold zlen; lia). by apply from_le_bound.
Qed.

Lemma reads_n_u8 : reads_n 1 cur_u8 u8.
Proof. apply (reads_n_uint 1). Qed.
Lemma reads_n_u16 : reads_n 2 cur_u16 u16.
Proof. apply (reads_n_uint 2). Qed.
Lemma reads_n_u32 : reads_n 4 cur_u32 u32.
Proof. apply (reads_n_uint 4). Qed.

#[export] Hint Resolve reads_n_u8 reads_n_u16 reads_n_u32 reads_n_exact : wire.

Lemma reads_n_u16s n : reads_n (2 * n) (read_u16s n) (fun a => length a = n /\ Forall u16 a).
Proof.
  induction n as [|n IH]; [by apply reads_n_ret|].
  replace (2 * S n)%nat with (2 + (2 * n + 0))%nat by lia. cbn [read_u16s].
  eapply reads_n_bind; [apply reads_n_u16|]. intros a Ha.
  eapply reads_n_bind; [apply IH|]. intros l [Hl Hf]. apply reads_n_ret. cbn. auto.
Qed.

Lemma takes_u16s sizes : Forall u16 sizes ->
  takes (read_u16s (length sizes)) (concat (map (to_le 2) sizes)) sizes.
Proof.
  induction 1 as [|x sizes Hx _ IH]; [apply takes_ret|]. cbn [length read_u16s map concat].
  eapply takes_bind; [by apply takes_u16|]. rewrite <- (app_nil_r (concat _)).
  eapply takes_bind; [apply IH|]. apply takes_ret.
Qed.

(** The laws of a message read by [io_read] from those of its reader. *)
Lemma io_read_typed {A} (size : Z) n (m : Cur A) (Q : A -> Prop) data :
  reads_n n m Q -> size = Z.of_nat n -> bytes data ->
  match io_read size m data with
  | Ok v => size <= zlen data /\ Q v
  | Err e => e = UnexpectedEof /\ zlen data < size
  | Panic => False
  end.
Proof.
  intros Hm -> Hb. unfold io_read. case_bool; [done|].
  destruct (Hm data Hb) as (a & -> & Ha); [unfold zlen in *; lia|]. done.
Qed.

Lemma io_read_back {A} (size : Z) (m : Cur A) bs v rest :
  takes m bs v -> zlen bs = size -> io_read size m (bs ++ rest) = Ok v.
Proof.
  intros Hm <-. unfold io_read. rewrite zlen_app. pose proof (zlen_nonneg rest).
  case_bool; [lia|]. by rewrite Hm.
Qed.

Ltac reads_n_all :=
  repeat lazymatch goal with
    | |- reads_n _ (bind _ _) _ =>
        eapply (reads_n_bind _); [solve [eauto with wire] | cbv beta; intros ? ?]
    | |- reads_n _ (ret _) _ => apply reads_n_ret
    end.

(** Bytes of the layouts: their length and that they are bytes. *)
Lemma bytes_app bs bs' : bytes bs -> bytes bs' -> bytes (bs ++ bs').
Proof. intros. by apply Forall_app. Qed.

Lemma bytes_zeros n : bytes (replicate n 0).
Proof. apply Forall_replicate. unfold in_unsigned. lia. Qed.

Ltac usb_bytes_tac :=
  unfold extend_from_slice; cbn -[to_le app]; split;
  [ rewrite ?zlen_app, ?zlen_to_le; reflexivity
  | repeat apply bytes_app; try apply to_le_bytes; try constructor ].

(** Discharge the laws of a message that is a straight line of integers. *)
Ltac usb_laws rd wr :=
  split;
  [ intros data Hb; cbn [usb_read usb_size usb_wf]; unfold rd;
    eapply (io_read_typed _ _); [reads_n_all; cbn; split_and?; eassumption | reflexivity | exact Hb]
  | intros v Hv _ rest; destruct v; cbn [usb_wf] in Hv; cbn in Hv; destruct_and?;
    cbn -[app to_le bind io_read]; unfold rd, wr, extend_from_slice; cbn -[app to_le bind io_read];
    apply io_read_back;
    [ rewrite <- ?app_assoc; rewrite ?app_nil_l;
      match goal with |- takes _ ?bs _ => rewrite <- (app_nil_r bs); rewrite <- ?app_assoc end;
      wire_takes
    | rewrite ?zlen_app, ?zlen_to_le; reflexivity ]
  | intros v Hv _; cbn -[app to_le]; unfold wr; usb_bytes_tac ].

#[export] Instance DeviceConnect_usb : UsbWire DeviceConnect := {|
  usb_size := DeviceConnect_SIZE;
  usb_read := DeviceConnect_read;
  usb_bytes v := DeviceConnect_write v [];
  usb_wf v :=
    u8 (DeviceConnect_speed v) /\ u8 (DeviceConnect_device_class v) /\
    u8 (DeviceConnect_device_subclass v) /\ u8 (DeviceConnect_device_protocol v) /\
    u16 (DeviceConnect_vendor_id v) /\ u16 (DeviceConnect_product_id v) /\
    u16 (DeviceConnect_device_version_bcd v);
  usb_fits _ := True
|}.
#[export] Instance DeviceConnect_laws : UsbLaws DeviceConnect.
Proof. usb_laws DeviceConnect_read DeviceConnect_write. Qed.

#[export] Instance ControlPacketHeader_usb : UsbWire ControlPacketHeader := {|
  usb_size := ControlPacketHeader_SIZE;
  usb_read := ControlPacketHeader_read;
  usb_bytes v := ControlPacketHeader_write v [];
  usb_wf v :=
    u8 (ControlPacketHeader_endpoint v) /\ u8 (ControlPacketHeader_request v) /\
    u8 (ControlPacketHeader_request_type v) /\ u8 (ControlPacketHeader_status v) /\
    u16 (ControlPacketHeader_value v) /\ u16 (ControlPacketHeader_index v) /\
    u16 (ControlPacketHeader_length v);
  usb_fits _ := True
|}.
#[export] Instance ControlPacketHeader_laws : UsbLaws ControlPacketHeader.
Proof. usb_laws ControlPacketHeader_read ControlPacketHeader_write. Qed.

#[export] Instance BulkPacketHeader_usb : UsbWire BulkPacketHeader := {|
  usb_size := BulkPacketHeader_SIZE;
  usb_read := BulkPacketHeader_read;
  usb_bytes v := BulkPacketHeader_write v [];
  usb_wf v :=
    u8 (BulkPacketHeader_endpoint v) /\ u8 (BulkPacketHeader_status v) /\
    u16 (BulkPacketHeader_length v) /\ u32 (BulkPacketHeader_stream_id v) /\
    u16 (BulkPacketHeader_length_high v);
  usb_fits _ := True
|}.
#[export] Instance BulkPacketHeader_laws : UsbLaws BulkPacketHeader.
Proof. usb_laws BulkPacketHeader_read BulkPacketHeader_write. Qed.

#[export] Instance InterruptPacketHeader_usb : UsbWire InterruptPacketHeader := {|
  usb_size := InterruptPacketHeader_SIZE;
  usb_read := InterruptPacketHeader_read;
  usb_bytes v := InterruptPacketHeader_write v [];
  usb_wf v :=
    u8 (InterruptPacketHeader_endpoint v) /\ u8 (InterruptPacketHeader_status v) /\
    u16 (InterruptPacketHeader_length v);
  usb_fits _ := True
|}.
#[export] Instance InterruptPacketHeader_laws : UsbLaws InterruptPacketHeader.
Proof. usb_laws InterruptPacketHeader_read InterruptPacketHeader_write. Qed.

#[export] Instance UsbredirHeader_usb : UsbWire UsbredirHeader := {|
  usb_size := UsbredirHeader_SIZE;
  usb_read := UsbredirHeader_read;
  usb_bytes v := UsbredirHeader_write v [];
  usb_wf v := u32 (uh_msg_type v) /\ u32 (uh_length v) /\ u32 (uh_id v);
  usb_fits _ := True
|}.
#[export] Instance UsbredirHeader_laws : UsbLaws UsbredirHeader.
Proof. usb_laws UsbredirHeader_read UsbredirHeader_write. Qed.

(** ** Messages that index their bytes *)

Lemma byte_of_typed data i : bytes data -> 0 <= i < zlen data ->
  exists b, byte_of data i = Ok b /\ u8 b.
Proof.
  intros Hb Hi. unfold byte_of. destruct (index_is_Some data i Hi) as [b E]. rewrite E.
  exists b. split; [done|]. rewrite index_lookup in E by done. by eapply Forall_lookup_1.
Qed.

Lemma byte_of_front l rest i b : l !! Z.to_nat i = Some b -> 0 <= i ->
  byte_of (l ++ rest) i = Ok b.
Proof.
  intros Hl Hi. unfold byte_of. apply lookup_lt_Some in Hl as Hlt.
  rewrite index_lookup by (unfold zlen; rewrite length_app; lia).
  by rewrite lookup_app_l, Hl by done.
Qed.

Ltac byte_typed :=
  repeat match goal with
    | Hb : bytes ?data |- context [byte_of ?data ?i] =>
        let b := fresh "b" in
        destruct (byte_of_typed data i Hb) as (b & -> & ?); [lia|cbn [rbind]]
    end.

Lemma singleton_wf b : u8 b -> bytes [b].
Proof. intros. by constructor. Qed.

Lemma to_le_1 b : u8 b -> to_le 1 b = [b].
Proof. intros Hb. unfold to_le. by rewrite Z.mod_small by exact Hb. Qed.

(** Discharge the laws of such a message: [rd] is its reader, and [wr] its
    writer or [id]. *)
Ltac byte_laws rd wr :=
  split;
  [ intros data Hb; cbn -[to_le app]; unfold rd;
    pose proof (zlen_nonneg data); unfold ConfigurationStatus_SIZE, SetAltSetting_SIZE,
      AltSettingStatus_SIZE, InterruptReceivingStatus_SIZE in *;
    case_bool; [split; [done|lia]|]; byte_typed; cbn; split_and?; (lia || assumption)
  | intros v Hv _ rest; destruct v; cbn in Hv; destruct_and?; cbn -[to_le app];
    unfold rd, wr, ConfigurationStatus_SIZE, SetAltSetting_SIZE, AltSettingStatus_SIZE,
      InterruptReceivingStatus_SIZE;
    unfold extend_from_slice; cbn -[to_le app]; rewrite ?to_le_1, ?app_nil_l by assumption;
    rewrite !zlen_app; pose proof (zlen_nonneg rest); rewrite ?zlen_cons, ?zlen_nil;
    case_bool; [lia|];
    repeat (erewrite byte_of_front; [cbn [rbind] | reflexivity | lia]); reflexivity
  | intros v Hv _; destruct v; cbn in Hv; destruct_and?; cbn -[to_le app];
    unfold wr, extend_from_slice; cbn -[to_le app]; rewrite ?to_le_1 by assumption; cbn; split;
    [reflexivity | repeat (apply list.Forall_cons_2; [assumption|]); apply list.Forall_nil_2] ].

#[export] Instance SetConfiguration_usb : UsbWire SetConfiguration := {|
  usb_size := 1;
  usb_read := SetConfiguration_read;
  usb_bytes v := [SetConfiguration_configuration v];
  usb_wf v := u8 (SetConfiguration_configuration v);
  usb_fits _ := True
|}.
#[export] Instance SetConfiguration_laws : UsbLaws SetConfiguration.
Proof. byte_laws SetConfiguration_read @id. Qed.

#[export] Instance GetAltSetting_usb : UsbWire GetAltSetting := {|
  usb_size := 1;
  usb_read := GetAltSetting_read;
  usb_bytes v := [GetAltSetting_interface v];
  usb_wf v := u8 (GetAltSetting_interface v);
  usb_fits _ := True
|}.
#[export] Instance GetAltSetting_laws : UsbLaws GetAltSetting.
Proof. byte_laws GetAltSetting_read @id. Qed.

#[export] Instance StartInterruptReceiving_usb : UsbWire StartInterruptReceiving := {|
  usb_size := 1;
  usb_read := StartInterruptReceiving_read;
  usb_bytes v := [StartInterruptReceiving_endpoint v];
  usb_wf v := u8 (StartInterruptReceiving_endpoint v);
  usb_fits _ := True
|}.
#[export] Instance StartInterruptReceiving_laws : UsbLaws StartInterruptReceiving.
Proof. byte_laws StartInterruptReceiving_read @id. Qed.

#[export] Instance StopInterruptReceiving_usb : UsbWire StopInterruptReceiving := {|
  usb_size := 1;
  usb_read := StopInterruptReceiving_read;
  usb_bytes v := [StopInterruptReceiving_endpoint v];
  usb_wf v := u8 (StopInterruptReceiving_endpoint v);
  usb_fits _ := True
|}.
#[export] Instance StopInterruptReceiving_laws : UsbLaws StopInterruptReceiving.
Proof. byte_laws StopInterruptReceiving_read @id. Qed.

#[export] Instance SetAltSetting_usb : UsbWire SetAltSetting := {|
  usb_size := SetAltSetting_SIZE;
  usb_read := SetAltSetting_read;
  usb_bytes v := [SetAltSetting_interface v; SetAltSetting_alt_setting v];
  usb_wf v := u8 (SetAltSetting_interface v) /\ u8 (SetAltSetting_alt_setting v);
  usb_fits _ := True
|}.
#[export] Instance SetAltSetting_laws : UsbLaws SetAltSetting.
Proof. byte_laws SetAltSetting_read @id. Qed.

#[export] Instance ConfigurationStatus_usb : UsbWire ConfigurationStatus := {|
  usb_size := ConfigurationStatus_SIZE;
  usb_read := ConfigurationStatus_read;
  usb_bytes v := ConfigurationStatus_write v [];
  usb_wf v := u8 (ConfigurationStatus_status v) /\ u8 (ConfigurationStatus_configuration v);
  usb_fits _ := True
|}.
#[export] Instance ConfigurationStatus_laws : UsbLaws ConfigurationStatus.
Proof. byte_laws ConfigurationStatus_read ConfigurationStatus_write. Qed.

#[export] Instance AltSettingStatus_usb : UsbWire AltSettingStatus := {|
  usb_size := AltSettingStatus_SIZE;
  usb_read := AltSettingStatus_read;
  usb_bytes v := AltSettingStatus_write v [];
  usb_wf v := u8 (AltSettingStatus_status v) /\ u8 (AltSettingStatus_interface v) /\
    u8 (AltSettingStatus_alt_setting v);
  usb_fits _ := True
|}.
#[export] Instance AltSettingStatus_laws : UsbLaws AltSettingStatus.
Proof. byte_laws AltSettingStatus_read AltSettingStatus_write. Qed.

#[export] Instance InterruptReceivingStatus_usb : UsbWire InterruptReceivingStatus := {|
  usb_size := InterruptReceivingStatus_SIZE;
  usb_read := InterruptReceivingStatus_read;
  usb_bytes v := InterruptReceivingStatus_write v [];
  usb_wf v := u8 (InterruptReceivingStatus_status v) /\ u8 (InterruptReceivingStatus_endpoint v);
  usb_fits _ := True
|}.
#[export] Instance InterruptReceivingStatus_laws : UsbLaws InterruptReceivingStatus.
Proof. byte_laws InterruptReceivingStatus_read InterruptReceivingStatus_write. Qed.

(** ** Arrays and text *)

#[export] Instance InterfaceInfo_usb : UsbWire InterfaceInfo := {|
  usb_size := InterfaceInfo_SIZE;
  usb_read := InterfaceInfo_read;
  usb_bytes v := InterfaceInfo_write v [];
  usb_wf v :=
    u32 (InterfaceInfo_interface_count v) /\
    (length (InterfaceInfo_interface v) = 32%nat /\ bytes (InterfaceInfo_interface v)) /\
    (length (InterfaceInfo_interface_class v) = 32%nat /\ bytes (InterfaceInfo_interface_class v)) /\
    (length (InterfaceInfo_interface_subclass v) = 32%nat /\
       bytes (InterfaceInfo_interface_subclass v)) /\
    (length (InterfaceInfo_interface_protocol v) = 32%nat /\
       bytes (InterfaceInfo_interface_protocol v));
  usb_fits _ := True
|}.
#[export] Instance InterfaceInfo_laws : UsbLaws InterfaceInfo.
Proof.
  split.
  - intros data Hb. cbn [usb_read usb_size usb_wf InterfaceInfo_usb]. unfold InterfaceInfo_read.
    eapply (io_read_typed _ _); [reads_n_all; destruct_and?; cbn; by split_and!|reflexivity|done].
  - intros v Hv _ rest. destruct v. cbn in Hv. destruct_and?.
    cbn -[app to_le bind io_read]. unfold InterfaceInfo_read, InterfaceInfo_write, extend_from_slice.
    cbn -[app to_le bind io_read]. apply io_read_back.
    + rewrite app_nil_l. match goal with |- takes _ ?bs _ => rewrite <- (app_nil_r bs) end.
      rewrite <- !app_assoc. wire_takes.
    + rewrite !zlen_app, zlen_to_le, zlen_nil. unfold zlen, InterfaceInfo_SIZE. lia.
  - intros v Hv _. destruct v. cbn in Hv. destruct_and?. cbn -[app to_le].
    unfold InterfaceInfo_write, extend_from_slice. cbn -[app to_le]. split.
    + rewrite !zlen_app, zlen_to_le, zlen_nil. unfold zlen, InterfaceInfo_SIZE. lia.
    + repeat apply bytes_app; try done. apply to_le_bytes.
Qed.

#[export] Instance EpInfo_usb : UsbWire EpInfo := {|
  usb_size := EpInfo_SIZE;
  usb_read := EpInfo_read;
  usb_bytes v := EpInfo_write v [];
  usb_wf v :=
    (length (EpInfo_ep_type v) = 32%nat /\ bytes (EpInfo_ep_type v)) /\
    (length (EpInfo_ep_interval v) = 32%nat /\ bytes (EpInfo_ep_interval v)) /\
    (length (EpInfo_ep_interface v) = 32%nat /\ bytes (EpInfo_ep_interface v)) /\
    (length (EpInfo_ep_max_packet_size v) = 32%nat /\ Forall u16 (EpInfo_ep_max_packet_size v));
  usb_fits _ := True
|}.

Lemma slice_typed data a b n : bytes data -> 0 <= a -> b <= zlen data -> b - a = Z.of_nat n ->
  exists s, slice data a b = Some s /\ length s = n /\ bytes s.
Proof.
  intros Hb Ha Hl Hn. assert (slice data a b = Some (take (Z.to_nat (b - a)) (drop (Z.to_nat a) data))) as E
    by (apply slice_Some; lia).
  eexists. split; [exact E|]. split; [apply slice_length in E; unfold zlen in E; lia|].
  by eapply slice_Forall.
Qed.

Lemma zlen_u16s sizes : zlen (concat (map (to_le 2) sizes)) = 2 * zlen sizes.
Proof. apply zlen_concat_map. intros x. by rewrite zlen_to_le. Qed.

Lemma bytes_u16s sizes : bytes (concat (map (to_le 2) sizes)).
Proof. induction sizes as [|x sizes IH]; [constructor|]. apply bytes_app; [apply to_le_bytes|done]. Qed.

#[export] Instance EpInfo_laws : UsbLaws EpInfo.
Proof.
  split.
  - intros data Hb. cbn [usb_read usb_size usb_wf EpInfo_usb]. unfold EpInfo_read, EpInfo_SIZE.
    case_bool; [done|].
    destruct (slice_typed data 0 32 32) as (s1 & -> & ? & ?); [done|lia..|].
    destruct (slice_typed data 32 64 32) as (s2 & -> & ? & ?); [done|lia..|].
    destruct (slice_typed data 64 96 32) as (s3 & -> & ? & ?); [done|lia..|].
    destruct (slice_typed data 96 160 64) as (s4 & -> & Hl & ?); [done|lia..|]. cbn [rlift rbind].
    destruct (reads_n_u16s 32 s4) as (a & -> & ? & ?); [done|lia|]. cbn. by split_and!.
  - intros v Hv _ rest. destruct v as [a b c d]. cbn in Hv. destruct_and?.
    cbn -[app to_le]. unfold EpInfo_read, EpInfo_write, extend_from_slice, EpInfo_SIZE.
    cbn -[app to_le read_u16s]. rewrite app_nil_l, <- !app_assoc.
    rewrite !zlen_app, zlen_u16s. pose proof (zlen_nonneg rest).
    assert (zlen a = 32 /\ zlen b = 32 /\ zlen c = 32 /\ zlen d = 32) as (Ha & Hb & Hc & Hd)
      by (unfold zlen; lia).
    case_bool; [lia|].
    pose proof (slice_middle [] a (b ++ c ++ concat (map (to_le 2) d) ++ rest)) as S1.
    pose proof (slice_middle a b (c ++ concat (map (to_le 2) d) ++ rest)) as S2.
    pose proof (slice_middle (a ++ b) c (concat (map (to_le 2) d) ++ rest)) as S3.
    pose proof (slice_middle (a ++ b ++ c) (concat (map (to_le 2) d)) rest) as S4.
    rewrite <- !app_assoc in *. rewrite !zlen_app, ?zlen_u16s in *. rewrite Ha, Hb, Hc, Hd in *.
    rewrite app_nil_l in S1. change (zlen (@nil Z)) with 0 in S1.
    change (0 + 32) with 32 in S1. change (32 + 32) with 64 in *. change (32 + 64) with 96 in *.
    change (2 * 32) with 64 in *. change (64 + 32) with 96 in *. change (96 + 64) with 160 in *.
    rewrite S1, S2, S3, S4. cbn [rlift rbind].
    pose proof (takes_u16s d ltac:(done) []) as Ht. rewrite app_nil_r in Ht.
    replace (length d) with 32%nat in Ht by done. by rewrite Ht.
  - intros v Hv _. destruct v. cbn in Hv. destruct_and?. cbn -[app to_le concat map].
    unfold EpInfo_write, extend_from_slice. cbn -[app to_le concat map]. split.
    + rewrite !zlen_app, zlen_u16s, zlen_nil. unfold zlen, EpInfo_SIZE. lia.
    + repeat apply bytes_app; try done. apply bytes_u16s.
Qed.

(** A [Hello] version is text without a NUL; the wire has room for 63 bytes. *)
#[export] Instance Hello_usb : UsbWire Hello := {|
  usb_size := Hello_SIZE;
  usb_read := Hello_read;
  usb_bytes v := Hello_write v [];
  usb_wf v := u32 (Hello_capabilities v) /\ bytes (Hello_version v) /\ utf8 (Hello_version v) /\
    Forall (fun b => b <> 0) (Hello_version v);
  usb_fits v := (length (Hello_version v) <= 63)%nat
|}.

Lemma until_nul_nonzero bs : Forall (fun b => b <> 0) (until_nul bs).
Proof. induction bs as [|b bs IH]; [constructor|]. cbn. case_bool; [constructor|by constructor]. Qed.

Lemma until_nul_Forall (P : Z -> Prop) bs : Forall P bs -> Forall P (until_nul bs).
Proof. induction 1 as [|b bs Hb _ IH]; [constructor|]. cbn. case_bool; [constructor|by constructor]. Qed.

Lemma until_nul_app bs n : Forall (fun b => b <> 0) bs -> until_nul (bs ++ replicate n 0) = bs.
Proof.
  induction 1 as [|b bs Hb _ IH]; [by destruct n|]. cbn. case_bool; [done|]. by rewrite IH.
Qed.

Lemma lossy_loop_nonzero fuel bs : Forall (fun b => b <> 0) bs ->
  Forall (fun b => b <> 0) (lossy_loop fuel bs).
Proof.
  revert bs. induction fuel as [|fuel IH]; intros bs Hb; [constructor|].
  destruct bs as [|b bs]; [constructor|]. cbn [lossy_loop].
  destruct (utf8_step (b :: bs)) as [ok n]. apply Forall_app. split; [|by apply IH, Forall_drop].
  destruct ok; [by apply Forall_take|]. unfold replacement. repeat constructor; lia.
Qed.

#[export] Instance Hello_laws : UsbLaws Hello.
Proof.
  split.
  - intros data Hb. cbn [usb_read usb_size usb_wf Hello_usb]. unfold Hello_read, Hello_SIZE.
    case_bool; [done|]. pose proof (zlen_nonneg data).
    destruct (slice_typed data 0 64 64) as (s1 & -> & ? & ?); [done|lia..|].
    destruct (slice_typed data 64 (zlen data) (Z.to_nat (zlen data - 64))) as (s2 & -> & ? & ?);
      [done|lia..|]. cbn [rlift rbind].
    destruct (reads_n_u32 s2) as (a & -> & Ha); [done|lia|]. cbn.
    split; [lia|]. split; [done|]. split; [|split].
    + by apply from_utf8_lossy_bytes, until_nul_Forall.
    + apply from_utf8_lossy_utf8.
    + apply lossy_loop_nonzero, until_nul_nonzero.
  - intros v (Hc & Hb & Hu & Hz) Hf rest. destruct v as [v c]. cbn in *.
    unfold Hello_read, Hello_write, extend_from_slice, Hello_SIZE. cbn -[app to_le replicate Nat.min].
    rewrite ?app_nil_l, Nat.min_l, take_ge, <- !app_assoc by lia.
    rewrite !zlen_app, zlen_replicate, zlen_to_le. pose proof (zlen_nonneg rest).
    assert (zlen v <= 63) by (unfold zlen; lia). pose proof (zlen_nonneg v).
    replace (zlen v) with (Z.of_nat (length v)) by done. case_bool; [lia|].
    pose proof (slice_middle [] (v ++ replicate (64 - length v) 0) (to_le 4 c ++ rest)) as S1.
    pose proof (slice_middle (v ++ replicate (64 - length v) 0) (to_le 4 c ++ rest) []) as S2.
    rewrite app_nil_r in S2.
    rewrite !zlen_app, zlen_replicate, zlen_to_le in *. unfold zlen in *. cbn [length] in *.
    rewrite app_nil_l in S1. rewrite <- !app_assoc in *.
    replace (Z.of_nat 0 + (Z.of_nat (length v) + Z.of_nat (64 - length v))) with 64 in S1 by lia.
    replace (Z.of_nat (length v) + Z.of_nat (64 - length v)) with 64 in S2 by lia.
    change (Z.of_nat 0) with 0 in S1. rewrite S1. cbn [rlift rbind].
    replace (Z.of_nat (length v) + (Z.of_nat (64 - length v) + (Z.of_nat 4 + Z.of_nat (length rest))))
      with (64 + (Z.of_nat 4 + Z.of_nat (length rest))) by lia.
    rewrite S2. cbn [rlift rbind]. rewrite until_nul_app, from_utf8_lossy_id by done.
    by rewrite takes_u32.
  - intros v (Hc & Hb & Hu & Hz) Hf. destruct v as [v c]. cbn in *.
    unfold Hello_write, extend_from_slice, Hello_SIZE. cbn -[app to_le replicate Nat.min].
    rewrite ?app_nil_l, Nat.min_l, take_ge by lia. split.
    + rewrite !zlen_app, zlen_replicate, zlen_to_le. unfold zlen. lia.
    + repeat apply bytes_app; [done|apply bytes_zeros|apply to_le_bytes].
Qed.
