(* ===== verification/Usbredir.v ===== *)
(** The usbredir stream parser: [shakenfist-spice-usbredir/src/parser.rs], fed
    as [handle_vmc_data] of the renderer's [channels/usbredir.rs] feeds it.

    The parser is verified against [usb_front], which says what the front of a
    byte queue holds, and through the interface [UsbWire] of the messages. *)
From Stdlib Require Import ZArith Lia.
From stdpp Require Import base numbers list tactics.
From S2P Require Import Prelude Reader IoCursor Utf8 UsbMessages.

Open Scope Z_scope.
Open Scope rust_scope.

(** * Data *)

Inductive UsbredirPayload : Type :=
| P_Hello (m : Hello)
| P_DeviceConnect (m : DeviceConnect)
| P_DeviceDisconnect
| P_Reset
| P_InterfaceInfo (m : InterfaceInfo)
| P_EpInfo (m : EpInfo)
| P_SetConfiguration (m : SetConfiguration)
| P_GetConfiguration
| P_ConfigurationStatus (m : ConfigurationStatus)
| P_SetAltSetting (m : SetAltSetting)
| P_GetAltSetting (m : GetAltSetting)
| P_AltSettingStatus (m : AltSettingStatus)
| P_StartInterruptReceiving (m : StartInterruptReceiving)
| P_StopInterruptReceiving (m : StopInterruptReceiving)
| P_InterruptReceivingStatus (m : InterruptReceivingStatus)
| P_CancelDataPacket
| P_FilterReject
| P_DeviceDisconnectAck
| P_ControlPacket (header : ControlPacketHeader) (data : list Z)
| P_BulkPacket (header : BulkPacketHeader) (data : list Z)
| P_InterruptPacket (header : InterruptPacketHeader) (data : list Z)
| P_Unknown (msg_type : Z) (data : list Z).

Record UsbredirMessage : Type := mkUsbredirMessage {
  um_id : Z;
  um_payload : UsbredirPayload
}.

Record UsbredirParser : Type := mkUsbredirParser { up_buf : list Z }.

Inductive ParserError : Type :=
| PayloadTooLarge (length : Z)
| Io (e : ErrorKind).

Definition MAX_PAYLOAD_SIZE : Z := 16 * 1024 * 1024.

(** * Operations *)

Definition up_new : UsbredirParser := mkUsbredirParser [].

Definition feed (self : UsbredirParser) (data : list Z) : UsbredirParser :=
  mkUsbredirParser (up_buf self <+ data).

(** [data.get(n..).unwrap_or(&[])] *)
Definition get_from (data : list Z) (n : Z) : list Z := default [] (slice data n (zlen data)).

Definition parse_payload (mt : Z) (data : list Z) : result ErrorKind UsbredirPayload :=
  if mt =? msg_type.HELLO then rmap P_Hello (Hello_read data)
  else if mt =? msg_type.DEVICE_CONNECT then rmap P_DeviceConnect (DeviceConnect_read data)
  else if mt =? msg_type.DEVICE_DISCONNECT then Ok P_DeviceDisconnect
  else if mt =? msg_type.RESET then Ok P_Reset
  else if mt =? msg_type.INTERFACE_INFO then rmap P_InterfaceInfo (InterfaceInfo_read data)
  else if mt =? msg_type.EP_INFO then rmap P_EpInfo (EpInfo_read data)
  else if mt =? msg_type.SET_CONFIGURATION then
    rmap P_SetConfiguration (SetConfiguration_read data)
  else if mt =? msg_type.GET_CONFIGURATION then Ok P_GetConfiguration
  else if mt =? msg_type.CONFIGURATION_STATUS then
    rmap P_ConfigurationStatus (ConfigurationStatus_read data)
  else if mt =? msg_type.SET_ALT_SETTING then rmap P_SetAltSetting (SetAltSetting_read data)
  else if mt =? msg_type.GET_ALT_SETTING then rmap P_GetAltSetting (GetAltSetting_read data)
  else if mt =? msg_type.ALT_SETTING_STATUS then
    rmap P_AltSettingStatus (AltSettingStatus_read data)
  else if mt =? msg_type.START_INTERRUPT_RECEIVING then
    rmap P_StartInterruptReceiving (StartInterruptReceiving_read data)
  else if mt =? msg_type.STOP_INTERRUPT_RECEIVING then
    rmap P_StopInterruptReceiving (StopInterruptReceiving_read data)
  else if mt =? msg_type.INTERRUPT_RECEIVING_STATUS then
    rmap P_InterruptReceivingStatus (InterruptReceivingStatus_read data)
  else if mt =? msg_type.CANCEL_DATA_PACKET then Ok P_CancelDataPacket
  else if mt =? msg_type.FILTER_REJECT then Ok P_FilterReject
  else if mt =? msg_type.DEVICE_DISCONNECT_ACK then Ok P_DeviceDisconnectAck
  else if mt =? msg_type.CONTROL_PACKET then
    let! header := ControlPacketHeader_read data in
    Ok (P_ControlPacket header (get_from data ControlPacketHeader_SIZE))
  else if mt =? msg_type.BULK_PACKET then
    let! header := BulkPacketHeader_read data in
    Ok (P_BulkPacket header (get_from data BulkPacketHeader_SIZE))
  else if mt =? msg_type.INTERRUPT_PACKET then
    let! header := InterruptPacketHeader_read data in
    Ok (P_InterruptPacket header (get_from data InterruptPacketHeader_SIZE))
  else Ok (P_Unknown mt data).

(** [?] on an [io::Result] in a function of the parser. *)
Definition io {St A} (r : result ErrorKind A) : M ParserError St A :=
  fun s =>
    match r with
    | Ok a => (Ok a, s)
    | Err e => (Err (Io e), s)
    | Panic => (Panic, s)
    end.

(** [self.buf.drain(..n)]: panics if there are fewer bytes. *)
Definition drain (n : Z) : M ParserError UsbredirParser unit :=
  let? self := get_state in
  let? rest := unwrap (slice (up_buf self) n (zlen (up_buf self))) in
  put_state (mkUsbredirParser rest).

Definition next_message : M ParserError UsbredirParser (option UsbredirMessage) :=
  let? self := get_state in
  if zlen (up_buf self) <? UsbredirHeader_SIZE then ret None
  else
    let? header := io (UsbredirHeader_read (up_buf self)) in
    if MAX_PAYLOAD_SIZE <? uh_length header then
      do? drain UsbredirHeader_SIZE in
      throw (PayloadTooLarge (uh_length header))
    else
      let total := UsbredirHeader_SIZE + uh_length header in
      if zlen (up_buf self) <? total then ret None
      else
        let? payload_bytes := unwrap (slice (up_buf self) UsbredirHeader_SIZE total) in
        do? drain total in
        let? payload := io (parse_payload (uh_msg_type header) payload_bytes) in
        ret (Some (mkUsbredirMessage (uh_id header) payload)).

(** ** The loop that feeds the parser

    [handle_vmc_data] runs in the channel: what it does with a usbredir message
    and how it counts the bytes are the channel's, and an error of either ends
    the loop. *)
Section Feeding.
Context {E C : Type}.
Context (parser : C -> UsbredirParser) (set_parser : UsbredirParser -> C -> C).
Context (parser_failed : ParserError -> E).
Context (record_device_bytes_from_guest : Z -> M E C unit).
Context (handle_usbredir_message : UsbredirMessage -> M E C unit).

(** [self.parser.next_message()?] *)
Definition parser_next : M E C (option UsbredirMessage) :=
  fun self =>
    let (r, p) := next_message (parser self) in
    (match r with
     | Ok m => Ok m
     | Err e => Err (parser_failed e)
     | Panic => Panic
     end, set_parser p self).

(** Each round takes at least a header, so as many rounds as bytes, and one, are
    enough; without fuel is a panic. *)
Fixpoint message_loop (fuel : nat) : M E C unit :=
  match fuel with
  | O => panic
  | S fuel =>
      let? next := parser_next in
      match next with
      | Some msg => do? handle_usbredir_message msg in message_loop fuel
      | None => ret tt
      end
  end.

Definition handle_vmc_data (payload : list Z) : M E C unit :=
  do? record_device_bytes_from_guest (zlen payload) in
  do? (fun self => (Ok tt, set_parser (feed (parser self) payload) self)) in
  let? self := get_state in
  message_loop (S (length (up_buf (parser self)))).

(** The VMC messages of a channel one after another, up to the error that ends
    it. *)
Fixpoint vmc_stream (payloads : list (list Z)) : M E C unit :=
  match payloads with
  | [] => ret tt
  | payload :: payloads => do? handle_vmc_data payload in vmc_stream payloads
  end.

End Feeding.

(** * Specification *)

(** What the front of a byte queue holds. *)
Inductive usb_framing : Type :=
| UsbNeedMore
| UsbRefuse (e : ParserError)
| UsbMessage (msg : UsbredirMessage) (rest : list Z).

Definition usb_front (bs : list Z) : usb_framing :=
  if zlen bs <? 12 then UsbNeedMore
  else
    let mt := from_le (take 4 bs) in
    let len := from_le (take 4 (drop 4 bs)) in
    let id := from_le (take 4 (drop 8 bs)) in
    if MAX_PAYLOAD_SIZE <? len then UsbRefuse (PayloadTooLarge len)
    else if zlen bs <? 12 + len then UsbNeedMore
    else
      match parse_payload mt (take (Z.to_nat len) (drop 12 bs)) with
      | Ok payload => UsbMessage (mkUsbredirMessage id payload) (drop (Z.to_nat (12 + len)) bs)
      | Err e => UsbRefuse (Io e)
      | Panic => UsbNeedMore
      end.

(** The messages of a whole stream, the error that ends it, and what is left
    over: a relation, so that it takes no fuel. *)
Inductive usb_stream : list Z -> list UsbredirMessage -> option ParserError -> list Z -> Prop :=
| usb_stop bs : usb_front bs = UsbNeedMore -> usb_stream bs [] None bs
| usb_error bs e : usb_front bs = UsbRefuse e -> usb_stream bs [] (Some e) []
| usb_next bs msg rest msgs err left : usb_front bs = UsbMessage msg rest ->
    usb_stream rest msgs err left -> usb_stream bs (msg :: msgs) err left.

(** The types the parser gives a variant of their own. *)
Definition known_types : list Z :=
  [0; 1; 2; 3; 4; 5; 6; 7; 8; 9; 10; 11; 15; 16; 17; 21; 22; 24; 100; 101; 103].

(** The values a payload may hold: a payload of a known type has the variant of
    that type. *)
Definition payload_wf (p : UsbredirPayload) : Prop :=
  match p with
  | P_Hello m => usb_wf m
  | P_DeviceConnect m => usb_wf m
  | P_InterfaceInfo m => usb_wf m
  | P_EpInfo m => usb_wf m
  | P_SetConfiguration m => usb_wf m
  | P_ConfigurationStatus m => usb_wf m
  | P_SetAltSetting m => usb_wf m
  | P_GetAltSetting m => usb_wf m
  | P_AltSettingStatus m => usb_wf m
  | P_StartInterruptReceiving m => usb_wf m
  | P_StopInterruptReceiving m => usb_wf m
  | P_InterruptReceivingStatus m => usb_wf m
  | P_ControlPacket h d => usb_wf h /\ bytes d
  | P_BulkPacket h d => usb_wf h /\ bytes d
  | P_InterruptPacket h d => usb_wf h /\ bytes d
  | P_Unknown mt d => (mt ∉ known_types) /\ bytes d
  | P_DeviceDisconnect | P_Reset | P_GetConfiguration | P_CancelDataPacket | P_FilterReject
  | P_DeviceDisconnectAck => True
  end.

(** The message type of a payload and the bytes a peer sends for it. *)
Definition payload_type (p : UsbredirPayload) : Z :=
  match p with
  | P_Hello _ => 0 | P_DeviceConnect _ => 1 | P_DeviceDisconnect => 2 | P_Reset => 3
  | P_InterfaceInfo _ => 4 | P_EpInfo _ => 5 | P_SetConfiguration _ => 6
  | P_GetConfiguration => 7 | P_ConfigurationStatus _ => 8 | P_SetAltSetting _ => 9
  | P_GetAltSetting _ => 10 | P_AltSettingStatus _ => 11 | P_StartInterruptReceiving _ => 15
  | P_StopInterruptReceiving _ => 16 | P_InterruptReceivingStatus _ => 17
  | P_CancelDataPacket => 21 | P_FilterReject => 22 | P_DeviceDisconnectAck => 24
  | P_ControlPacket _ _ => 100 | P_BulkPacket _ _ => 101 | P_InterruptPacket _ _ => 103
  | P_Unknown mt _ => mt
  end.

Definition payload_bytes (p : UsbredirPayload) : list Z :=
  match p with
  | P_Hello m => usb_bytes m
  | P_DeviceConnect m => usb_bytes m
  | P_InterfaceInfo m => usb_bytes m
  | P_EpInfo m => usb_bytes m
  | P_SetConfiguration m => usb_bytes m
  | P_ConfigurationStatus m => usb_bytes m
  | P_SetAltSetting m => usb_bytes m
  | P_GetAltSetting m => usb_bytes m
  | P_AltSettingStatus m => usb_bytes m
  | P_StartInterruptReceiving m => usb_bytes m
  | P_StopInterruptReceiving m => usb_bytes m
  | P_InterruptReceivingStatus m => usb_bytes m
  | P_ControlPacket h d => usb_bytes h ++ d
  | P_BulkPacket h d => usb_bytes h ++ d
  | P_InterruptPacket h d => usb_bytes h ++ d
  | P_Unknown _ d => d
  | P_DeviceDisconnect | P_Reset | P_GetConfiguration | P_CancelDataPacket | P_FilterReject
  | P_DeviceDisconnectAck => []
  end.

(** The payloads a peer can put on the wire. *)
Definition payload_fits (p : UsbredirPayload) : Prop :=
  zlen (payload_bytes p) <= MAX_PAYLOAD_SIZE /\
  match p with
  | P_Hello m => usb_fits m
  | P_Unknown mt _ => u32 mt
  | _ => True
  end.

(** A channel that keeps the messages it is handed and the bytes it has counted,
    and ends with an error of its own on the messages [refuse] names. *)
Record Sink : Type := mkSink {
  sk_parser : UsbredirParser;
  sk_messages : list UsbredirMessage;
  sk_bytes : Z
}.

Inductive feed_error (X : Type) : Type :=
| ParserFailed (e : ParserError)
| HandlerFailed (x : X).
Arguments ParserFailed {X}.
Arguments HandlerFailed {X}.

Definition sink_new : Sink := mkSink up_new [] 0.

Definition sink_stream {X} (refuse : UsbredirMessage -> option X)
    : list (list Z) -> M (feed_error X) Sink unit :=
  vmc_stream sk_parser (fun p k => mkSink p (sk_messages k) (sk_bytes k)) ParserFailed
    (fun n k => (Ok tt, mkSink (sk_parser k) (sk_messages k) (sk_bytes k + n)))
    (fun msg k =>
       (match refuse msg with Some x => Err (HandlerFailed x) | None => Ok tt end,
        mkSink (sk_parser k) (sk_messages k ++ [msg]) (sk_bytes k))).

(** The messages handed on, up to the first that is refused, and how it ends. *)
Fixpoint handed {X} (refuse : UsbredirMessage -> option X) (msgs : list UsbredirMessage)
    (err : option ParserError) : list UsbredirMessage * result (feed_error X) unit :=
  match msgs with
  | [] => ([], match err with Some e => Err (ParserFailed e) | None => Ok tt end)
  | msg :: msgs =>
      match refuse msg with
      | Some x => ([msg], Err (HandlerFailed x))
      | None => let (ms, r) := handed refuse msgs err in (msg :: ms, r)
      end
  end.

(** * Lemmas

    ** Payloads *)

Lemma rmap_typed {T} `{UsbLaws T} (f : T -> UsbredirPayload) (mt : Z) r data :
  bytes data -> r = usb_read data ->
  (forall v, usb_wf v -> payload_wf (f v) /\ payload_type (f v) = mt) ->
  match rmap f r with
  | Ok p => payload_wf p /\ payload_type p = mt
  | Err e => e = UnexpectedEof
  | Panic => False
  end.
Proof.
  intros Hb -> Hf. pose proof (usb_typed data Hb) as Ht.
  destruct (usb_read data); cbn; [|tauto|done]. apply Hf. tauto.
Qed.

Lemma get_from_bytes data n : bytes data -> bytes (get_from data n).
Proof.
  intros Hb. unfold get_from. destruct (slice _ _ _) eqn:E; cbn; [by eapply slice_Forall|constructor].
Qed.

Lemma packet_typed {T} `{UsbLaws T} (f : T -> list Z -> UsbredirPayload) (mt n : Z) r data :
  bytes data -> r = usb_read data ->
  (forall v d, usb_wf v -> bytes d -> payload_wf (f v d) /\ payload_type (f v d) = mt) ->
  match (let! h := r in Ok (f h (get_from data n))) with
  | Ok p => payload_wf p /\ payload_type p = mt
  | Err e => e = UnexpectedEof
  | Panic => False
  end.
Proof.
  intros Hb -> Hf. pose proof (usb_typed data Hb) as Ht.
  destruct (usb_read data); cbn; [|tauto|done]. apply Hf; [tauto|by apply get_from_bytes].
Qed.

Lemma parse_payload_typed mt data : bytes data ->
  match parse_payload mt data with
  | Ok p => payload_wf p /\ payload_type p = mt
  | Err e => e = UnexpectedEof
  | Panic => False
  end.
Proof.
  intros Hb. unfold parse_payload.
  repeat match goal with
    | |- context [if mt =? ?c then _ else _] => destruct (Z.eqb_spec mt c) as [->|]
    end; try done;
    lazymatch goal with
    | |- match rmap ?f ?r with _ => _ end =>
        refine (rmap_typed f _ r data Hb eq_refl _); intros v Hv; by split
    | |- match rbind ?r (fun h => Ok (?f h _)) with _ => _ end =>
        refine (packet_typed f _ _ r data Hb eq_refl _); intros v d Hv Hd; by split
    | |- _ => idtac
    end.
  split; [|done]. split; [|done]. unfold known_types.
  repeat (apply not_elem_of_cons; split; [done|]). apply not_elem_of_nil.
Qed.

Lemma get_from_app bs d : get_from (bs ++ d) (zlen bs) = d.
Proof.
  unfold get_from. pose proof (slice_middle bs d []) as S.
  rewrite app_nil_r in S. by rewrite zlen_app, S.
Qed.

Lemma packet_back {T} `{UsbLaws T} (f : T -> list Z -> UsbredirPayload) (v : T) d n :
  usb_wf v -> usb_fits v -> n = usb_size (T := T) ->
  (let! h := usb_read (usb_bytes v ++ d) in Ok (f h (get_from (usb_bytes v ++ d) n))) = Ok (f v d).
Proof.
  intros Hv Hf ->. rewrite usb_back by done. cbn.
  destruct (usb_bytes_ok v Hv Hf) as [Hl _]. by rewrite <- Hl, get_from_app.
Qed.

Lemma rmap_back {T} `{UsbLaws T} (f : T -> UsbredirPayload) v : usb_wf v -> usb_fits v ->
  rmap f (usb_read (usb_bytes v)) = Ok (f v).
Proof. intros Hv Hf. rewrite <- (app_nil_r (usb_bytes v)). by rewrite usb_back. Qed.

Lemma parse_payload_back p : payload_wf p -> payload_fits p ->
  parse_payload (payload_type p) (payload_bytes p) = Ok p.
Proof.
  intros Hw [_ Hf]. destruct p; cbn [payload_type payload_bytes]; cbn [payload_wf] in Hw;
    try done;
    try match goal with
    | h : _, d : list Z |- _ = Ok (?f ?h ?d) =>
        exact (packet_back f h d _ (proj1 Hw) I eq_refl)
    | m : _ |- _ = Ok (?f ?m) => exact (rmap_back f m Hw (ltac:(exact Hf || exact I)))
    end.
  destruct Hw as [Hn _]. unfold parse_payload.
  repeat match goal with
    | |- context [if ?mt =? ?c then _ else _] => destruct (Z.eqb_spec mt c) as [->|]
    end; try done; exfalso; apply Hn; by apply (bool_decide_unpack _).
Qed.

Lemma payload_bytes_ok p : payload_wf p -> payload_fits p ->
  bytes (payload_bytes p) /\ u32 (payload_type p).
Proof.
  intros Hw [_ Hf].
  destruct p; cbn [payload_type payload_bytes]; cbn [payload_wf] in Hw; split;
    try (unfold in_unsigned; lia); try apply Forall_nil_2;
    try match goal with
    | |- bytes (usb_bytes _ ++ _) =>
        apply bytes_app; [exact (proj2 (usb_bytes_ok _ (proj1 Hw) I))|apply Hw]
    | |- bytes (usb_bytes _) => exact (proj2 (usb_bytes_ok _ Hw (ltac:(exact Hf || exact I))))
    end.
  - apply Hw.
  - apply Hf.
Qed.

(** ** One message *)

Definition message_wf (m : UsbredirMessage) : Prop := u32 (um_id m) /\ payload_wf (um_payload m).

Lemma read_exact_front n s : Z.of_nat n <= zlen s -> read_exact n s = (Ok (take n s), drop n s).
Proof. intros Hl. unfold read_exact. case_bool; [lia|done]. Qed.

Lemma cur_u32_front s : 4 <= zlen s -> cur_u32 s = (Ok (from_le (take 4 s)), drop 4 s).
Proof. intros Hl. unfold cur_u32, bind. by rewrite (read_exact_front 4). Qed.

Lemma header_front bs : 12 <= zlen bs ->
  UsbredirHeader_read bs = Ok (mkUsbredirHeader (from_le (take 4 bs))
    (from_le (take 4 (drop 4 bs))) (from_le (take 4 (drop 8 bs)))).
Proof.
  intros Hl. unfold UsbredirHeader_read, io_read, UsbredirHeader_SIZE. case_bool; [lia|].
  unfold bind. rewrite cur_u32_front by lia.
  rewrite cur_u32_front by (rewrite zlen_drop; lia).
  rewrite cur_u32_front by (rewrite !zlen_drop; lia). by rewrite !drop_drop.
Qed.

Lemma from_le_take4 bs : bytes bs -> u32 (from_le (take 4 bs)).
Proof.
  intros Hb. pose proof (from_le_bound (take 4 bs) ltac:(by apply Forall_take)) as Hr.
  unfold in_unsigned. pose proof (zlen_take 4 bs) as Hl.
  assert (2 ^ (8 * zlen (take 4 bs)) <= 2 ^ 32) by (apply Z.pow_le_mono_r; lia). lia.
Qed.

Lemma drain_front bs n : 0 <= n <= zlen bs ->
  drain n (mkUsbredirParser bs) = (Ok tt, mkUsbredirParser (drop (Z.to_nat n) bs)).
Proof.
  intros Hn. unfold drain, bind, get_state, put_state. cbn [up_buf].
  rewrite slice_Some by lia. unfold unwrap, ret.
  by rewrite take_ge by (rewrite length_drop; unfold zlen in *; lia).
Qed.

(** [next_message] does what the specification says, and leaves the buffer as
    it was when it asks for more. *)
Lemma next_message_front bs : bytes bs ->
  match usb_front bs with
  | UsbNeedMore => next_message (mkUsbredirParser bs) = (Ok None, mkUsbredirParser bs)
  | UsbRefuse e => fst (next_message (mkUsbredirParser bs)) = Err e
  | UsbMessage msg rest =>
      next_message (mkUsbredirParser bs) = (Ok (Some msg), mkUsbredirParser rest) /\
      message_wf msg /\ bytes rest /\ (length rest < length bs)%nat
  end.
Proof.
  intros Hb. unfold usb_front, next_message, bind, get_state. cbn [up_buf].
  change UsbredirHeader_SIZE with 12. destruct (Z.ltb_spec (zlen bs) 12); [done|].
  rewrite header_front by lia. cbn [io uh_length uh_msg_type uh_id].
  pose proof (from_le_take4 bs Hb) as Hmt.
  pose proof (from_le_take4 (drop 4 bs) ltac:(by apply Forall_drop)) as Hlen.
  pose proof (from_le_take4 (drop 8 bs) ltac:(by apply Forall_drop)) as Hid.
  set (len := from_le (take 4 (drop 4 bs))) in *.
  unfold in_unsigned in Hlen. destruct (Z.ltb_spec MAX_PAYLOAD_SIZE len).
  { by rewrite drain_front by lia. }
  destruct (Z.ltb_spec (zlen bs) (12 + len)); [done|].
  rewrite (slice_Some bs 12) by lia. cbn [unwrap ret]. rewrite drain_front by lia.
  replace (12 + len - 12) with len by lia.
  pose proof (parse_payload_typed (from_le (take 4 bs)) (take (Z.to_nat len) (drop (Z.to_nat 12) bs))
    ltac:(by apply Forall_take, Forall_drop)) as Ht.
  change (Z.to_nat 12) with 12%nat in *. destruct (parse_payload _ _) as [p|e|]; cbn [io ret]; [|done|done].
  split; [done|]. split; [split; [done|apply Ht]|]. split; [by apply Forall_drop|].
  rewrite length_drop. unfold zlen in *. lia.
Qed.

(** More bytes behind a message, or behind a refusal, do not change it. *)
Lemma usb_front_app bs more : bytes bs ->
  match usb_front bs with
  | UsbNeedMore => True
  | UsbRefuse e => usb_front (bs ++ more) = UsbRefuse e
  | UsbMessage msg rest => usb_front (bs ++ more) = UsbMessage msg (rest ++ more)
  end.
Proof.
  intros Hb. unfold usb_front. destruct (Z.ltb_spec (zlen bs) 12); [done|].
  pose proof (zlen_nonneg more) as Hm. rewrite zlen_app.
  assert (length bs >= 12)%nat as Hl by (unfold zlen in *; lia).
  rewrite (drop_app_le bs more 4), (drop_app_le bs more 8), (drop_app_le bs more 12) by lia.
  rewrite (take_app_le bs), (take_app_le (drop 4 bs)), (take_app_le (drop 8 bs))
    by (rewrite ?length_drop; lia).
  rewrite (proj2 (Z.ltb_ge (zlen bs + zlen more) 12)) by lia.
  pose proof (from_le_take4 (drop 4 bs) ltac:(by apply Forall_drop)) as Hlen.
  set (len := from_le (take 4 (drop 4 bs))) in *. unfold in_unsigned in Hlen.
  destruct (Z.ltb_spec MAX_PAYLOAD_SIZE len); [done|].
  destruct (Z.ltb_spec (zlen bs) (12 + len)); [done|].
  rewrite (proj2 (Z.ltb_ge (zlen bs + zlen more) (12 + len))) by lia.
  rewrite take_app_le by (rewrite length_drop; unfold zlen in *; lia).
  rewrite drop_app_le by (unfold zlen in *; lia).
  by destruct (parse_payload _ _).
Qed.

(** ** Streams *)

Lemma usb_stream_det bs msgs err rest : usb_stream bs msgs err rest ->
  forall msgs' err' rest', usb_stream bs msgs' err' rest' ->
  msgs' = msgs /\ err' = err /\ rest' = rest.
Proof.
  induction 1 as [bs E|bs e E|bs msg rest msgs err last E _ IH]; intros msgs' err' rest' H';
    inversion H' as [? E'|? ? E'|? ? ? ? ? ? E' H'']; subst; rewrite E in E'; try done;
    inversion E'; subst; [done|].
  by destruct (IH _ _ _ H'') as (-> & -> & ->).
Qed.

(** A stream that asked for more continues where it stopped; one that ended with
    an error stays ended. *)
Lemma usb_stream_app bs msgs err rest : usb_stream bs msgs err rest -> bytes bs ->
  forall more,
  match err with
  | Some _ => usb_stream (bs ++ more) msgs err rest
  | None => forall msgs' err' rest', usb_stream (rest ++ more) msgs' err' rest' ->
      usb_stream (bs ++ more) (msgs ++ msgs') err' rest'
  end.
Proof.
  induction 1 as [bs E|bs e E|bs msg rest msgs err last E _ IH]; intros Hb more.
  - done.
  - apply usb_error. pose proof (usb_front_app bs more Hb) as H. by rewrite E in H.
  - pose proof (usb_front_app bs more Hb) as H. rewrite E in H.
    pose proof (next_message_front bs Hb) as Hn. rewrite E in Hn. destruct Hn as (_ & _ & Hr & _).
    specialize (IH Hr more). destruct err; [by eapply usb_next|].
    intros msgs' err' rest' Hs. cbn. eapply usb_next; [exact H|]. by apply IH.
Qed.

(** Every stream has its messages, of the types of their fields. *)
Lemma usb_stream_exists bs : bytes bs ->
  exists msgs err rest, usb_stream bs msgs err rest /\ Forall message_wf msgs /\
    (err = None -> bytes rest /\ usb_front rest = UsbNeedMore).
Proof.
  remember (length bs) as n eqn:En. revert bs En.
  induction (lt_wf n) as [n _ IH]; intros bs -> Hb. pose proof (next_message_front bs Hb) as Hn.
  destruct (usb_front bs) as [|e|msg rest] eqn:E.
  - exists [], None, bs. split; [by constructor|]. by split.
  - exists [], (Some e), []. split; [by constructor|]. by split.
  - destruct Hn as (_ & Hm & Hr & Hl).
    destruct (IH _ Hl rest eq_refl Hr) as (msgs & err & left & Hs & Hw & Hrest).
    exists (msg :: msgs), err, left. split; [by eapply usb_next|]. split; [by constructor|done].
Qed.

Section Sink.
Context {X : Type} (refuse : UsbredirMessage -> option X).

Local Notation sink_set := (fun p k => mkSink p (sk_messages k) (sk_bytes k)).
Local Notation sink_loop := (message_loop (E := feed_error X) sk_parser sink_set ParserFailed
  (fun msg k =>
     (match refuse msg with Some x => Err (HandlerFailed x) | None => Ok tt end,
      mkSink (sk_parser k) (sk_messages k ++ [msg]) (sk_bytes k)))).

(** One VMC message's worth of the stream. *)
Lemma sink_loop_stream bs msgs err rest : usb_stream bs msgs err rest -> bytes bs ->
  forall fuel acc n, (length bs < fuel)%nat ->
  let (ms, r) := handed refuse msgs err in
  exists p, sink_loop fuel (mkSink (mkUsbredirParser bs) acc n) = (r, mkSink p (acc ++ ms) n) /\
    (r = Ok tt -> p = mkUsbredirParser rest).
Proof.
  induction 1 as [bs E|bs e E|bs msg rest msgs err last E _ IH]; intros Hb fuel acc n Hf;
    (destruct fuel as [|fuel]; [lia|]); pose proof (next_message_front bs Hb) as Hn; rewrite E in Hn;
    cbn [message_loop handed]; unfold bind at 1, parser_next; cbn [sk_parser].
  - rewrite Hn. exists (mkUsbredirParser bs). rewrite app_nil_r. by split.
  - destruct (next_message (mkUsbredirParser bs)) as [r p]. cbn in Hn. subst r.
    exists p. rewrite app_nil_r. by split.
  - destruct Hn as (-> & _ & Hr & Hl). unfold bind. cbn [sk_messages sk_parser sk_bytes].
    destruct (refuse msg) as [x|]; [by exists (mkUsbredirParser rest)|].
    specialize (IH Hr fuel (acc ++ [msg]) n ltac:(lia)). destruct (handed refuse msgs err) as [ms r].
    destruct IH as (p & E' & Hp). exists p. split; [|done]. rewrite E'. by rewrite <- app_assoc.
Qed.

(** Handing on a stream cut in two. *)
Lemma handed_app msgs1 msgs2 err :
  handed refuse (msgs1 ++ msgs2) err =
    match handed refuse msgs1 None with
    | (ms1, Ok _) => let (ms2, r) := handed refuse msgs2 err in (ms1 ++ ms2, r)
    | stopped => stopped
    end.
Proof.
  induction msgs1 as [|msg msgs1 IH]; cbn; [by destruct (handed _ _ _)|].
  destruct (refuse msg); [done|]. rewrite IH.
  destruct (handed refuse msgs1 None) as [ms1 [[]|e|]]; [|done..].
  by destruct (handed refuse msgs2 err).
Qed.

Lemma handed_no_panic msgs err : snd (handed refuse msgs err) <> Panic.
Proof.
  induction msgs as [|msg msgs IH]; cbn; [by destruct err|].
  destruct (refuse msg); [done|]. by destruct (handed refuse msgs err).
Qed.

(** An error of the parser is the last thing that can happen. *)
Lemma handed_err msgs e : snd (handed refuse msgs (Some e)) <> Ok tt.
Proof.
  induction msgs as [|msg msgs IH]; cbn; [done|].
  destruct (refuse msg); [done|]. by destruct (handed refuse msgs (Some e)).
Qed.

Lemma sink_stream_from payloads bs acc n : bytes bs -> Forall bytes payloads ->
  usb_front bs = UsbNeedMore ->
  exists msgs err rest, usb_stream (bs ++ concat payloads) msgs err rest /\ Forall message_wf msgs /\
    let (ms, r) := handed refuse msgs err in
    exists p counted,
      sink_stream refuse payloads (mkSink (mkUsbredirParser bs) acc n) =
        (r, mkSink p (acc ++ ms) counted) /\
      (r = Ok tt -> p = mkUsbredirParser rest /\ counted = n + zlen (concat payloads)).
Proof.
  intros Hb Hp. revert bs acc n Hb. induction Hp as [|payload payloads Hp Hps IH]; intros bs acc n Hb E.
  { exists [], None, bs. cbn [concat handed]. rewrite !app_nil_r. split; [by constructor|].
    split; [done|]. exists (mkUsbredirParser bs), n. split; [done|]. split; [done|]. by rewrite Z.add_0_r. }
  cbn [concat]. rewrite app_assoc. assert (bytes (bs ++ payload)) as Hbp by by apply bytes_app.
  destruct (usb_stream_exists _ Hbp) as (msgs & err & rest & Hs & Hw & Hrest).
  pose proof (usb_stream_app _ _ _ _ Hs Hbp (concat payloads)) as Happ.
  pose proof (sink_loop_stream _ _ _ _ Hs Hbp (S (length (bs ++ payload))) acc (n + zlen payload)
    (Nat.lt_succ_diag_r _)) as Hloop.
  unfold sink_stream in *. cbn [vmc_stream]. unfold handle_vmc_data.
  unfold bind, get_state, feed, extend_from_slice. cbn [sk_parser sk_messages sk_bytes up_buf].
  destruct err as [e|].
  - exists msgs, (Some e), rest. split; [done|]. split; [done|].
    pose proof (handed_err msgs e) as Hno. destruct (handed refuse msgs (Some e)) as [ms r].
    destruct Hloop as (p & -> & _). cbn in Hno. exists p, (n + zlen payload).
    by destruct r as [[]| |].
  - destruct (Hrest eq_refl) as [Hr E']. pose proof (handed_app msgs) as Hh.
    destruct (handed refuse msgs None) as [ms r] eqn:Eh. destruct Hloop as (p & El & Hpr).
    destruct (IH rest (acc ++ ms) (n + zlen payload) Hr E') as (msgs' & err' & rest' & Hs' & Hw' & Hrun).
    exists (msgs ++ msgs'), err', rest'. split; [by apply Happ|]. split; [by apply Forall_app|].
    rewrite Hh, El. destruct r as [[]|e|]; [|by exists p, (n + zlen payload)..].
    rewrite (Hpr eq_refl). destruct (handed refuse msgs' err') as [ms' r'].
    destruct Hrun as (p' & counted & -> & Hend). exists p', counted. rewrite app_assoc.
    split; [done|]. rewrite zlen_app. intros Hr'. destruct (Hend Hr'). split; [done|]. lia.
Qed.

End Sink.

(** A channel that takes every message. *)
Definition collect (payloads : list (list Z)) : result (feed_error Empty_set) unit * Sink :=
  sink_stream (fun _ => None) payloads sink_new.

Lemma handed_all msgs err :
  handed (X := Empty_set) (fun _ => None) msgs err =
    (msgs, match err with Some e => Err (ParserFailed e) | None => Ok tt end).
Proof. induction msgs as [|msg msgs IH]; cbn; [done|]. by rewrite IH. Qed.

(** ** What a peer sends *)

(** The bytes of a message: [make_usbredir_message]. *)
Definition message_bytes (m : UsbredirMessage) : list Z :=
  make_usbredir_message (payload_type (um_payload m)) (um_id m) (payload_bytes (um_payload m)).

Lemma message_bytes_eq m : message_wf m -> payload_fits (um_payload m) ->
  let h := mkUsbredirHeader (payload_type (um_payload m))
             (zlen (payload_bytes (um_payload m))) (um_id m) in
  message_bytes m = usb_bytes h ++ payload_bytes (um_payload m) /\ usb_wf h /\
  zlen (usb_bytes h) = 12 /\ bytes (message_bytes m).
Proof.
  intros [Hid Hw] Hf. destruct (payload_bytes_ok _ Hw Hf) as [Hb Ht].
  pose proof (zlen_nonneg (payload_bytes (um_payload m))) as Hn. destruct Hf as [Hl _].
  assert (u32 (zlen (payload_bytes (um_payload m)))) as Hu
    by (unfold in_unsigned; unfold MAX_PAYLOAD_SIZE in Hl; lia).
  intros h. assert (usb_wf h) as Hh by (by split_and!).
  destruct (usb_bytes_ok h Hh I) as [Hlen Hhb].
  assert (message_bytes m = usb_bytes h ++ payload_bytes (um_payload m)) as ->.
  { unfold message_bytes, make_usbredir_message. by rewrite as_unsigned_id. }
  split; [done|]. split; [done|]. split; [exact Hlen|]. by apply bytes_app.
Qed.

Lemma message_front m rest : message_wf m -> payload_fits (um_payload m) ->
  usb_front (message_bytes m ++ rest) = UsbMessage m rest.
Proof.
  intros Hm Hf. destruct (message_bytes_eq m Hm Hf) as (-> & Hh & Hl & _).
  set (h := mkUsbredirHeader _ _ _) in *. set (d := payload_bytes (um_payload m)) in *.
  rewrite <- app_assoc. pose proof (usb_back h Hh I (d ++ rest)) as Hback.
  pose proof (header_front (usb_bytes h ++ d ++ rest)) as Hfront.
  pose proof (zlen_nonneg d). pose proof (zlen_nonneg rest).
  cbn [usb_read UsbredirHeader_usb] in Hback. rewrite Hback in Hfront.
  rewrite !zlen_app in Hfront. specialize (Hfront ltac:(lia)).
  unfold usb_front. revert Hfront. generalize (from_le (take 4 (usb_bytes h ++ d ++ rest))) as a.
  generalize (from_le (take 4 (drop 4 (usb_bytes h ++ d ++ rest)))) as b.
  generalize (from_le (take 4 (drop 8 (usb_bytes h ++ d ++ rest)))) as c.
  intros c b a [= <- <- <-]. rewrite !zlen_app.
  rewrite (proj2 (Z.ltb_ge _ 12)) by lia. destruct Hf as [Hmax Hf]. fold d in Hmax.
  rewrite (proj2 (Z.ltb_ge MAX_PAYLOAD_SIZE _)) by lia.
  rewrite (proj2 (Z.ltb_ge _ (12 + _))) by lia.
  assert (drop 12 (usb_bytes h ++ d ++ rest) = d ++ rest) as ->.
  { apply drop_app_length'. unfold zlen in Hl. lia. }
  rewrite take_zlen_app, parse_payload_back by (by split || apply Hm).
  rewrite app_assoc. replace (12 + zlen d) with (zlen (usb_bytes h ++ d)) by (rewrite zlen_app; lia).
  rewrite drop_zlen_app. by destruct m.
Qed.

Lemma messages_stream msgs : Forall (fun m => message_wf m /\ payload_fits (um_payload m)) msgs ->
  usb_stream (concat (map message_bytes msgs)) msgs None [] /\
  bytes (concat (map message_bytes msgs)).
Proof.
  induction 1 as [|m msgs [Hm Hf] _ [IHs IHb]]; cbn [map concat].
  - split; [by apply usb_stop|constructor].
  - split; [by eapply usb_next; [apply message_front|]|].
    apply bytes_app; [by apply message_bytes_eq|done].
Qed.

(** A peer's messages, cut anywhere, come back. *)
Lemma messages_back msgs payloads :
  Forall (fun m => message_wf m /\ payload_fits (um_payload m)) msgs ->
  concat payloads = concat (map message_bytes msgs) ->
  collect payloads = (Ok tt, mkSink up_new msgs (zlen (concat payloads))).
Proof.
  intros Hm Hp. destruct (messages_stream msgs Hm) as [Hs Hb].
  assert (Forall bytes payloads) as Hps by (rewrite <- Hp in Hb; by apply Forall_concat in Hb).
  destruct (sink_stream_from (X := Empty_set) (fun _ => None) payloads [] [] 0 ltac:(constructor) Hps
    eq_refl) as (msgs' & err & rest & Hs' & _ & Hrun).
  cbn in Hs'. rewrite Hp in Hs'. destruct (usb_stream_det _ _ _ _ Hs _ _ _ Hs') as (-> & -> & ->).
  rewrite handed_all in Hrun. destruct Hrun as (p & counted & E & Hend).
  unfold collect, sink_new. change up_new with (mkUsbredirParser []). rewrite E.
  by destruct (Hend eq_refl) as (-> & ->).
Qed.

(** * Theorems *)

(** C34: whatever the bytes of the usbredir channel, however the VMC messages cut
    them and whichever messages the channel's handler refuses with an error of
    its own, [handle_vmc_data] run over the VMC messages one after another never
    panics and always ends.  The stream as a whole has exactly one framing, that
    of [usb_stream]; the usbredir messages handed on are those of that framing
    in order, up to and including the first that is refused, and every one holds
    values of its fields' types.  The run ends with the handler's error on a
    refused message, otherwise with the parser's error if the framing ends with
    one, otherwise well: the unfinished rest is then in the parser's buffer and
    every byte of the VMC messages has been counted. *)
Theorem vmc_stream_frames {X} (refuse : UsbredirMessage -> option X) (payloads : list (list Z))
  (H : Forall bytes payloads) :
  exists msgs err rest,
    usb_stream (concat payloads) msgs err rest /\
    (forall msgs' err' rest', usb_stream (concat payloads) msgs' err' rest' ->
       msgs' = msgs /\ err' = err) /\
    Forall message_wf msgs /\
    let (ms, r) := handed refuse msgs err in
    r <> Panic /\
    exists p counted,
      sink_stream refuse payloads sink_new = (r, mkSink p ms counted) /\
      (r = Ok tt -> up_buf p = rest /\ counted = zlen (concat payloads)).
Proof.
  destruct (sink_stream_from refuse payloads [] [] 0 ltac:(constructor) H eq_refl)
    as (msgs & err & rest & Hs & Hw & Hrun).
  exists msgs, err, rest. split; [done|]. split.
  { intros msgs' err' rest' Hs'. by destruct (usb_stream_det _ _ _ _ Hs _ _ _ Hs') as (-> & -> & _). }
  split; [done|]. pose proof (handed_no_panic refuse msgs err) as Hno.
  destruct (handed refuse msgs err) as [ms r]. split; [done|].
  destruct Hrun as (p & counted & E & Hend). exists p, counted. split; [done|].
  intros Hr. by destruct (Hend Hr) as (-> & ->).
Qed.

(** any usbredir messages that fit, encoded with [make_usbredir_message] and
    the payloads' [write]s and cut into VMC messages anywhere, come back from
    [handle_vmc_data] as exactly those messages in order, with no error and
    nothing left in the buffer. *)
Theorem vmc_stream_roundtrip (msgs : list UsbredirMessage) (payloads : list (list Z))
  (Hm : Forall (fun m => message_wf m /\ payload_fits (um_payload m)) msgs)
  (Hp : concat payloads = concat (map message_bytes msgs)) :
  collect payloads = (Ok tt, mkSink up_new msgs (zlen (concat payloads))).
Proof. by apply messages_back. Qed.

(** the parser gives every payload the type the wire names: for any message
    type and payload bytes [parse_payload] never panics; it returns the variant
    of that message type with every field in the range of its Rust type, or
    fails with [UnexpectedEof]. *)
Theorem parse_payload_type_sound (mt : Z) (data : list Z) (H : bytes data) :
  match parse_payload mt data with
  | Ok p => payload_wf p /\ payload_type p = mt
  | Err e => e = UnexpectedEof
  | Panic => False
  end.
Proof. by apply parse_payload_typed. Qed.

(** * Witnesses *)

(** A hello and a bulk packet behind each other, cut inside a header. *)
Definition sample_messages : list UsbredirMessage :=
  [ mkUsbredirMessage 1 (P_Hello (mkHello [114; 121; 108; 108] 7));
    mkUsbredirMessage 2 (P_BulkPacket (mkBulkPacketHeader 129 0 3 0 0) [1; 2; 3]);
    mkUsbredirMessage 3 P_Reset ].

Definition sample_stream : list Z := concat (map message_bytes sample_messages).

Definition sample_payloads : list (list Z) :=
  [take 5 sample_stream; []; take 80 (drop 5 sample_stream); drop 85 sample_stream].

(** The third message is refused: it is the last handed on. *)
Lemma vmc_stream_frames_witness :
  exists p counted,
    sink_stream (fun m => match um_payload m with P_Reset => Some 7 | _ => None end)
      sample_payloads sink_new =
      (Err (HandlerFailed 7), mkSink p sample_messages counted).
Proof.
  assert (Forall bytes sample_payloads) as Hb by (apply (bool_decide_unpack _); vm_compute; reflexivity).
  destruct (vmc_stream_frames (fun m => match um_payload m with P_Reset => Some 7 | _ => None end)
    sample_payloads Hb) as (msgs & err & rest & _ & _ & _ & Hrun).
  destruct (handed _ msgs err) as [ms r]. destruct Hrun as (_ & p & counted & E & _).
  exists p, counted. rewrite E.
  assert (r = Err (HandlerFailed 7) /\ ms = sample_messages) as [-> ->].
  { pose proof (f_equal fst E) as E1. pose proof (f_equal (fun x => sk_messages (snd x)) E) as E2.
    split; [refine (eq_trans (eq_sym E1) _)|refine (eq_trans (eq_sym E2) _)]; vm_compute; reflexivity. }
  reflexivity.
Defined.

Lemma sample_messages_fit :
  Forall (fun m => message_wf m /\ payload_fits (um_payload m)) sample_messages.
Proof.
  repeat constructor; cbn; try lia; try done;
    try (unfold MAX_PAYLOAD_SIZE; vm_compute; discriminate).
  all: repeat (eapply (utf8_char _ 1); [done|reflexivity|]); apply utf8_nil.
Qed.

Lemma vmc_stream_roundtrip_witness :
  collect sample_payloads = (Ok tt, mkSink up_new sample_messages (zlen (concat sample_payloads))).
Proof.
  apply (vmc_stream_roundtrip sample_messages sample_payloads).
  - apply sample_messages_fit.
  - vm_compute. reflexivity.
Defined.

Lemma parse_payload_type_sound_witness :
  payload_wf (P_InterruptPacket (mkInterruptPacketHeader 1 0 2) [9; 8]).
Proof.
  pose proof (parse_payload_type_sound 103 [1; 0; 2; 0; 9; 8]) as H.
  assert (bytes [1; 0; 2; 0; 9; 8]) as Hb by (apply (bool_decide_unpack _); reflexivity).
  specialize (H Hb). apply H.
Defined.
