(* ===== verification/VirtualMsc.v ===== *)
(** The virtual USB disk: [shakenfist-spice-renderer/src/usb/virtual_msc.rs] and
    the transfer types of [usb/mod.rs].

    [VirtualMsc] answers USB transfers as a mass storage device (Bulk-Only
    Transport with a few SCSI commands) over a file.  The file is [tokio]'s: the
    class [RawFile] has the calls the device makes on it, [RawFileLaws] what
    their documentation promises.  An operation is a function in the monad [M]
    on the device; the source never returns an error from one, so its error type
    is [unit] and only the panics matter. *)
From Stdlib Require Import ZArith Lia.
From stdpp Require Import base numbers list tactics.
From S2P Require Import Prelude Reader UsbMessages.

Open Scope Z_scope.
Open Scope rust_scope.

(** * The file *)

(** [data] written at [pos]: past the end the gap is filled with zeros. *)
Definition write_at (bs : list Z) (pos : Z) (data : list Z) : list Z :=
  take (Z.to_nat pos) (bs ++ replicate (Z.to_nat (pos - zlen bs)) 0) ++ data ++
    drop (Z.to_nat (pos + zlen data)) bs.

(** [bs'] is [bs], perhaps longer, but for the [len] bytes from [pos]. *)
Definition same_outside (pos len : Z) (bs bs' : list Z) : Prop :=
  zlen bs <= zlen bs' /\
  forall i, (i < length bs)%nat -> (Z.of_nat i < pos \/ pos + len <= Z.of_nat i) ->
    bs' !! i = bs !! i.

(** [seek], [read_exact], [write_all] and [flush] of [tokio::fs::File]: [false]
    and [None] are errors. *)
Class RawFile (F : Type) : Type := {
  rf_bytes : F -> list Z;
  rf_pos : F -> Z;
  rf_seek : F -> Z -> bool * F;
  rf_read_exact : F -> Z -> option (list Z) * F;
  rf_write_all : F -> list Z -> bool * F;
  rf_flush : F -> bool * F
}.

(** A read returns what the file holds at the position and fails at the end.  A
    write is in the file once the [flush] behind it succeeds; before that, or
    when either fails, any part of its data may be. *)
Class RawFileLaws (F : Type) `{RawFile F} : Prop := {
  rf_bytes_ok f : bytes (rf_bytes f);
  rf_seek_ok f offset : 0 <= offset ->
    rf_bytes (snd (rf_seek f offset)) = rf_bytes f /\
    (fst (rf_seek f offset) = true -> rf_pos (snd (rf_seek f offset)) = offset);
  rf_read_ok f n : 0 <= n ->
    rf_bytes (snd (rf_read_exact f n)) = rf_bytes f /\
    (forall data, fst (rf_read_exact f n) = Some data ->
       slice (rf_bytes f) (rf_pos f) (rf_pos f + n) = Some data);
  rf_write_ok f data : bytes data -> 0 <= rf_pos f ->
    let (written, f1) := rf_write_all f data in
    let (flushed, f2) := rf_flush f1 in
    same_outside (rf_pos f) (zlen data) (rf_bytes f) (rf_bytes f1) /\
    same_outside (rf_pos f) (zlen data) (rf_bytes f) (rf_bytes f2) /\
    (written = true -> flushed = true ->
       rf_bytes f2 = write_at (rf_bytes f) (rf_pos f) data)
}.

(** * Constants *)

Definition BLOCK_SIZE : Z := 512.
Definition VENDOR_ID : Z := 7531.
Definition PRODUCT_ID : Z := 260.
Definition EP_BULK_OUT : Z := 2.
Definition EP_BULK_IN : Z := 17.
Definition CBW_SIGNATURE : Z := 1128420181.
Definition CSW_SIGNATURE : Z := 1396855637.
Definition CBW_SIZE : Z := 31.
Definition CSW_STATUS_PASSED : Z := 0.
Definition CSW_STATUS_FAILED : Z := 1.
Definition MAX_TRANSFER_BLOCKS : Z := 2048.

Definition SCSI_TEST_UNIT_READY : Z := 0.
Definition SCSI_REQUEST_SENSE : Z := 3.
Definition SCSI_INQUIRY : Z := 18.
Definition SCSI_MODE_SENSE_6 : Z := 26.
Definition SCSI_PREVENT_ALLOW_MEDIUM_REMOVAL : Z := 30.
Definition SCSI_READ_CAPACITY_10 : Z := 37.
Definition SCSI_READ_10 : Z := 40.
Definition SCSI_WRITE_10 : Z := 42.

Definition SENSE_NO_SENSE : Z := 0.
Definition SENSE_MEDIUM_ERROR : Z := 3.
Definition SENSE_ILLEGAL_REQUEST : Z := 5.
Definition SENSE_DATA_PROTECT : Z := 7.

Definition USB_REQ_GET_STATUS : Z := 0.
Definition USB_REQ_SET_CONFIGURATION : Z := 9.
Definition USB_REQ_GET_DESCRIPTOR : Z := 6.
Definition MSC_REQ_GET_MAX_LUN : Z := 254.
Definition MSC_REQ_BULK_ONLY_RESET : Z := 255.

Definition DEVICE_DESCRIPTOR : list Z :=
  [18; 1; 0; 2; 0; 0; 0; 64;
   Z.land VENDOR_ID 255; Z.shiftr VENDOR_ID 8; Z.land PRODUCT_ID 255; Z.shiftr PRODUCT_ID 8;
   0; 1; 1; 2; 3; 1].

Definition CONFIG_DESCRIPTOR : list Z :=
  [9; 2; 32; 0; 1; 1; 0; 192; 0;
   9; 4; 0; 0; 2; 8; 6; 80; 0;
   7; 5; 2; 2; 0; 2; 0;
   7; 5; 129; 2; 0; 2; 0].

(** * Data *)

Record TransferResult : Type := mkTransferResult { tr_status : Status; tr_data : list Z }.

Definition tr_success (data : list Z) : TransferResult := mkTransferResult Status_Success data.
Definition tr_success_empty : TransferResult := mkTransferResult Status_Success [].
Definition tr_stall : TransferResult := mkTransferResult Status_Stall [].

Record ControlSetup : Type := mkControlSetup {
  cs_endpoint : Z;
  cs_request_type : Z;
  cs_request : Z;
  cs_value : Z;
  cs_index : Z;
  cs_length : Z
}.

Inductive BotState : Type :=
| Bot_Idle
| Bot_DataOut (tag lba remaining : Z)
| Bot_DataIn
| Bot_Status.

Record Cbw : Type := mkCbw {
  cbw_tag : Z;
  cbw_data_transfer_length : Z;
  cbw_direction_in : bool;
  cbw_lun : Z;
  cbw_cb_length : Z;
  cbw_cb : list Z
}.

(** The outer [option] is a panic. *)
Definition Cbw_parse (data : list Z) : option (option Cbw) :=
  if zlen data <? CBW_SIZE then Some None
  else
    sig ← from_le <$> slice data 0 4;
    if negb (sig =? CBW_SIGNATURE) then Some None
    else
      tag ← from_le <$> slice data 4 8;
      data_transfer_length ← from_le <$> slice data 8 12;
      flags ← index data 12;
      lun ← index data 13;
      cb_length ← index data 14;
      cb ← slice data 15 31;
      Some (Some (mkCbw tag data_transfer_length (negb (Z.land flags 128 =? 0))
                    (Z.land lun 15) (Z.land cb_length 31) cb)).

Definition build_csw (tag data_residue status : Z) : list Z :=
  to_le 4 CSW_SIGNATURE ++ to_le 4 tag ++ to_le 4 data_residue ++ [status].

Record ScsiResult : Type := mkScsiResult {
  sr_status : Z;
  sr_data : list Z;
  sr_sense_key : Z;
  sr_sense_asc : Z;
  sr_sense_ascq : Z
}.

Definition scsi_good (data : list Z) : ScsiResult := mkScsiResult 0 data 0 0 0.
Definition scsi_good_empty : ScsiResult := mkScsiResult 0 [] 0 0 0.
Definition check_condition (sense_key asc ascq : Z) : ScsiResult :=
  mkScsiResult 2 [] sense_key asc ascq.

Record VirtualMsc (F : Type) : Type := mkVirtualMsc {
  vm_file : F;
  vm_read_only : bool;
  vm_block_count : Z;
  vm_bot_state : BotState;
  vm_pending_data : list Z;
  vm_pending_csw : list Z;
  vm_write_buf : list Z;
  vm_sense : Z * Z * Z
}.
Arguments mkVirtualMsc {F}.
Arguments vm_file {F}.
Arguments vm_read_only {F}.
Arguments vm_block_count {F}.
Arguments vm_bot_state {F}.
Arguments vm_pending_data {F}.
Arguments vm_pending_csw {F}.
Arguments vm_write_buf {F}.
Arguments vm_sense {F}.

Definition set_file {F} (f : F) (s : VirtualMsc F) : VirtualMsc F :=
  mkVirtualMsc f (vm_read_only s) (vm_block_count s) (vm_bot_state s) (vm_pending_data s)
    (vm_pending_csw s) (vm_write_buf s) (vm_sense s).
Definition set_bot {F} (b : BotState) (s : VirtualMsc F) : VirtualMsc F :=
  mkVirtualMsc (vm_file s) (vm_read_only s) (vm_block_count s) b (vm_pending_data s)
    (vm_pending_csw s) (vm_write_buf s) (vm_sense s).
Definition set_pending_data {F} (d : list Z) (s : VirtualMsc F) : VirtualMsc F :=
  mkVirtualMsc (vm_file s) (vm_read_only s) (vm_block_count s) (vm_bot_state s) d
    (vm_pending_csw s) (vm_write_buf s) (vm_sense s).
Definition set_pending_csw {F} (c : list Z) (s : VirtualMsc F) : VirtualMsc F :=
  mkVirtualMsc (vm_file s) (vm_read_only s) (vm_block_count s) (vm_bot_state s)
    (vm_pending_data s) c (vm_write_buf s) (vm_sense s).
Definition set_write_buf {F} (w : list Z) (s : VirtualMsc F) : VirtualMsc F :=
  mkVirtualMsc (vm_file s) (vm_read_only s) (vm_block_count s) (vm_bot_state s)
    (vm_pending_data s) (vm_pending_csw s) w (vm_sense s).
Definition set_sense {F} (key asc ascq : Z) (s : VirtualMsc F) : VirtualMsc F :=
  mkVirtualMsc (vm_file s) (vm_read_only s) (vm_block_count s) (vm_bot_state s)
    (vm_pending_data s) (vm_pending_csw s) (vm_write_buf s) (key, asc, ascq).

(** * Operations *)

Section Device.
Context {F : Type} `{RawFile F}.

Abbreviation Dev := (M unit (VirtualMsc F)).

Definition modify (f : VirtualMsc F -> VirtualMsc F) : Dev unit := fun s => (Ok tt, f s).

(** [open], given the file [tokio] opened. *)
Definition msc_open (file : F) (read_only : bool) : VirtualMsc F :=
  let file_size := zlen (rf_bytes file) in
  mkVirtualMsc file read_only (file_size / BLOCK_SIZE) Bot_Idle [] [] [] (SENSE_NO_SENSE, 0, 0).

(** ** Control transfers *)

(** The texts of the string descriptors, in ASCII. *)
Definition string_text (index : Z) : option (list Z) :=
  match index with
  | 1 => Some [114; 121; 108; 108]
  | 2 => Some [86; 105; 114; 116; 117; 97; 108; 32; 68; 105; 115; 107]
  | 3 => Some [48; 48; 48; 48; 48; 48; 48; 49]
  | _ => None
  end.

Definition get_string_descriptor (index max_len : Z) : TransferResult :=
  if index =? 0 then tr_success [4; 3; 9; 4]
  else
    match string_text index with
    | None => tr_stall
    | Some s =>
        let desc := as_unsigned 8 (2 + zlen s * 2) :: 3 :: concat (map (fun ch => [ch; 0]) s) in
        tr_success (take (Z.to_nat max_len) desc)
    end.

Definition get_descriptor (desc_type desc_index max_len : Z) : TransferResult :=
  match desc_type with
  | 1 => tr_success (take (Z.to_nat max_len) DEVICE_DESCRIPTOR)
  | 2 => tr_success (take (Z.to_nat max_len) CONFIG_DESCRIPTOR)
  | 3 => get_string_descriptor desc_index max_len
  | _ => tr_stall
  end.

Definition handle_standard_request (setup : ControlSetup) (is_in : bool) : TransferResult :=
  let request := cs_request setup in
  if (request =? USB_REQ_GET_DESCRIPTOR) && is_in then
    get_descriptor (as_unsigned 8 (Z.shiftr (cs_value setup) 8)) (Z.land (cs_value setup) 255)
      (cs_length setup)
  else if request =? USB_REQ_SET_CONFIGURATION then tr_success_empty
  else if (request =? USB_REQ_GET_STATUS) && is_in then tr_success [1; 0]
  else tr_stall.

Definition handle_class_request (setup : ControlSetup) (is_in : bool) : TransferResult :=
  let request := cs_request setup in
  if (request =? MSC_REQ_GET_MAX_LUN) && is_in then tr_success [0]
  else if request =? MSC_REQ_BULK_ONLY_RESET then tr_success_empty
  else tr_stall.

Definition handle_control (setup : ControlSetup) : TransferResult :=
  let is_in := negb (Z.land (cs_request_type setup) 128 =? 0) in
  let req_type := Z.land (Z.shiftr (cs_request_type setup) 5) 3 in
  match req_type with
  | 0 => handle_standard_request setup is_in
  | 1 => handle_class_request setup is_in
  | _ => tr_stall
  end.

(** ** The file *)

Definition on_file {A} (op : F -> A * F) : Dev A :=
  fun s => let (a, f) := op (vm_file s) in (Ok a, set_file f s).

(** [None] is an error: [?] returns at once. *)
Definition do_read (offset len : Z) : Dev (option (list Z)) :=
  let? ok := on_file (fun f => rf_seek f offset) in
  if negb ok then ret None else on_file (fun f => rf_read_exact f len).

Definition do_write (lba : Z) (data : list Z) : Dev bool :=
  let offset := lba * BLOCK_SIZE in
  let? ok := on_file (fun f => rf_seek f offset) in
  if negb ok then ret false
  else
    let? ok := on_file (fun f => rf_write_all f data) in
    if negb ok then ret false else on_file (fun f => rf_flush f).

(** ** SCSI commands *)

Definition scsi_request_sense (cbw : Cbw) : Dev ScsiResult :=
  let? alloc_len := unwrap (index (cbw_cb cbw) 4) in
  let? self := get_state in
  let '(key, asc, ascq) := vm_sense self in
  let sense := [112; 0; key; 0; 0; 0; 0; 10; 0; 0; 0; 0; asc; ascq; 0; 0; 0; 0] in
  do? modify (set_sense SENSE_NO_SENSE 0 0) in
  ret (scsi_good (take (Z.to_nat alloc_len) sense)).

Definition scsi_inquiry (cbw : Cbw) : Dev ScsiResult :=
  let? alloc := unwrap (slice (cbw_cb cbw) 3 5) in
  let data := [0; 128; 4; 2; 31; 0; 0; 0] ++
    [114; 121; 108; 108; 32; 32; 32; 32] ++
    [86; 105; 114; 116; 117; 97; 108; 32; 68; 105; 115; 107; 32; 32; 32; 32] ++
    [48; 48; 48; 49] in
  ret (scsi_good (take (Z.to_nat (from_be alloc)) data)).

Definition scsi_mode_sense_6 : Dev ScsiResult :=
  let? self := get_state in
  ret (scsi_good [3; 0; if vm_read_only self then 128 else 0; 0]).

Definition scsi_read_capacity_10 : Dev ScsiResult :=
  let? self := get_state in
  let last_lba := if 0 <? vm_block_count self then vm_block_count self - 1 else 0 in
  let last_lba_32 := Z.min last_lba u32_max in
  ret (scsi_good (to_be 4 last_lba_32 ++ to_be 4 BLOCK_SIZE)).

Definition scsi_read_10 (cbw : Cbw) : Dev ScsiResult :=
  let? lba_bytes := unwrap (slice (cbw_cb cbw) 2 6) in
  let? blocks_bytes := unwrap (slice (cbw_cb cbw) 7 9) in
  let lba := from_be lba_bytes in
  let transfer_blocks := from_be blocks_bytes in
  if MAX_TRANSFER_BLOCKS <? transfer_blocks then
    ret (check_condition SENSE_ILLEGAL_REQUEST 32 0)
  else
    let byte_count := transfer_blocks * BLOCK_SIZE in
    let? self := get_state in
    if vm_block_count self <? lba + transfer_blocks then
      ret (check_condition SENSE_MEDIUM_ERROR 33 0)
    else
      let? r := do_read (lba * BLOCK_SIZE) byte_count in
      match r with
      | Some data => ret (scsi_good data)
      | None => ret (check_condition SENSE_MEDIUM_ERROR 17 0)
      end.

Definition scsi_write_10 (cbw : Cbw) : Dev ScsiResult :=
  let? self := get_state in
  if vm_read_only self then ret (check_condition SENSE_DATA_PROTECT 39 0)
  else
    let? lba_bytes := unwrap (slice (cbw_cb cbw) 2 6) in
    let? blocks_bytes := unwrap (slice (cbw_cb cbw) 7 9) in
    let lba := from_be lba_bytes in
    let transfer_blocks := from_be blocks_bytes in
    if MAX_TRANSFER_BLOCKS <? transfer_blocks then
      ret (check_condition SENSE_ILLEGAL_REQUEST 32 0)
    else if vm_block_count self <? lba + transfer_blocks then
      ret (check_condition SENSE_MEDIUM_ERROR 33 0)
    else
      let byte_count := transfer_blocks * BLOCK_SIZE in
      do? modify (set_bot (Bot_DataOut (cbw_tag cbw) lba byte_count)) in
      do? modify (set_write_buf []) in
      ret scsi_good_empty.

Definition execute_scsi (cbw : Cbw) : Dev ScsiResult :=
  let? opcode := unwrap (index (cbw_cb cbw) 0) in
  if opcode =? SCSI_TEST_UNIT_READY then ret scsi_good_empty
  else if opcode =? SCSI_REQUEST_SENSE then scsi_request_sense cbw
  else if opcode =? SCSI_INQUIRY then scsi_inquiry cbw
  else if opcode =? SCSI_MODE_SENSE_6 then scsi_mode_sense_6
  else if opcode =? SCSI_PREVENT_ALLOW_MEDIUM_REMOVAL then ret scsi_good_empty
  else if opcode =? SCSI_READ_CAPACITY_10 then scsi_read_capacity_10
  else if opcode =? SCSI_READ_10 then scsi_read_10 cbw
  else if opcode =? SCSI_WRITE_10 then scsi_write_10 cbw
  else ret (check_condition SENSE_ILLEGAL_REQUEST 32 0).

(** ** Bulk transfers *)

(** What [handle_cbw] does with the result of a command without a data-out
    phase. *)
Definition finish_cbw (cbw : Cbw) (r : ScsiResult) : Dev TransferResult :=
  let good := sr_status r =? 0 in
  do? (if good then ret tt
       else modify (set_sense (sr_sense_key r) (sr_sense_asc r) (sr_sense_ascq r))) in
  let data_residue :=
    if good then saturating_sub (cbw_data_transfer_length cbw) (as_unsigned 32 (zlen (sr_data r)))
    else cbw_data_transfer_length cbw in
  let csw_status := if good then CSW_STATUS_PASSED else CSW_STATUS_FAILED in
  do? modify (set_pending_csw (build_csw (cbw_tag cbw) data_residue csw_status)) in
  do? (if negb (zlen (sr_data r) =? 0) && cbw_direction_in cbw then
         do? modify (set_pending_data (sr_data r)) in
         modify (set_bot Bot_DataIn)
       else modify (set_bot Bot_Status)) in
  ret tr_success_empty.

Definition is_data_out (b : BotState) : bool :=
  match b with Bot_DataOut _ _ _ => true | _ => false end.

Definition handle_cbw (data : list Z) : Dev TransferResult :=
  let? parsed := unwrap (Cbw_parse data) in
  match parsed with
  | None => ret tr_stall
  | Some cbw =>
      let? scsi_result := execute_scsi cbw in
      let? self := get_state in
      if is_data_out (vm_bot_state self) then ret tr_success_empty
      else finish_cbw cbw scsi_result
  end.

Definition handle_data_out (tag lba remaining : Z) (data : list Z) : Dev TransferResult :=
  let? self := get_state in
  do? modify (set_write_buf (vm_write_buf self <+ data)) in
  let? self := get_state in
  let received := zlen (vm_write_buf self) in
  do? (if remaining <=? received then
         let? ok := do_write lba (vm_write_buf self) in
         do? modify (set_write_buf []) in
         do? (if ok then ret tt else modify (set_sense SENSE_MEDIUM_ERROR 3 0)) in
         do? modify (set_pending_csw
               (if ok then build_csw tag 0 CSW_STATUS_PASSED
                else build_csw tag (as_unsigned 32 remaining) CSW_STATUS_FAILED)) in
         modify (set_bot Bot_Status)
       else ret tt) in
  ret tr_success_empty.

Definition handle_bulk_out (data : list Z) : Dev TransferResult :=
  let? self := get_state in
  match vm_bot_state self with
  | Bot_Idle => handle_cbw data
  | Bot_DataOut tag lba remaining => handle_data_out tag lba remaining data
  | Bot_DataIn | Bot_Status => ret tr_stall
  end.

Definition handle_bulk_in (max_len : Z) : Dev TransferResult :=
  let? self := get_state in
  match vm_bot_state self with
  | Bot_DataIn =>
      let len := Z.to_nat (Z.min (zlen (vm_pending_data self)) max_len) in
      let chunk := take len (vm_pending_data self) in
      let rest := drop len (vm_pending_data self) in
      do? modify (set_pending_data rest) in
      do? (if zlen rest =? 0 then modify (set_bot Bot_Status) else ret tt) in
      ret (tr_success chunk)
  | Bot_Status =>
      do? modify (set_pending_csw []) in
      do? modify (set_bot Bot_Idle) in
      ret (tr_success (vm_pending_csw self))
  | Bot_Idle | Bot_DataOut _ _ _ => ret (tr_success [])
  end.

Definition reset_bot : Dev unit :=
  do? modify (set_bot Bot_Idle) in
  do? modify (set_pending_data []) in
  do? modify (set_pending_csw []) in
  modify (set_write_buf []).

(** ** The device *)

Definition msc_reset : Dev unit :=
  do? reset_bot in
  modify (set_sense SENSE_NO_SENSE 0 0).

Definition msc_control_transfer (setup : ControlSetup) (data : list Z) : Dev TransferResult :=
  ret (handle_control setup).

Definition msc_bulk_in (endpoint max_len : Z) : Dev TransferResult :=
  if negb (endpoint =? EP_BULK_IN) then ret tr_stall else handle_bulk_in max_len.

Definition msc_bulk_out (endpoint : Z) (data : list Z) : Dev TransferResult :=
  if negb (endpoint =? EP_BULK_OUT) then ret tr_stall else handle_bulk_out data.

Definition msc_set_configuration (configuration : Z) : Dev Status := ret Status_Success.
Definition msc_get_configuration : Dev Z := ret 1.
Definition msc_set_alt_setting (interface alt_setting : Z) : Dev Status := ret Status_Success.
Definition msc_get_alt_setting (interface : Z) : Dev Z := ret 0.
Definition msc_interrupt_out (endpoint : Z) (data : list Z) : Dev TransferResult := ret tr_stall.

End Device.

Definition msc_device_info : DeviceConnect := mkDeviceConnect 3 0 0 0 VENDOR_ID PRODUCT_ID 256.

Definition msc_endpoint_info : EpInfo :=
  let zeros := replicate 32 0 in
  mkEpInfo
    (<[Z.to_nat EP_BULK_IN := 2]> (<[Z.to_nat EP_BULK_OUT := 2]> (replicate 32 255)))
    zeros
    (<[Z.to_nat EP_BULK_IN := 0]> (<[Z.to_nat EP_BULK_OUT := 0]> zeros))
    (<[Z.to_nat EP_BULK_IN := 512]> (<[Z.to_nat EP_BULK_OUT := 512]> zeros)).

Definition msc_interface_info : InterfaceInfo :=
  let zeros := replicate 32 0 in
  mkInterfaceInfo 1 (<[0%nat := 0]> zeros) (<[0%nat := 8]> zeros) (<[0%nat := 6]> zeros)
    (<[0%nat := 80]> zeros).

(** ** Transfers *)

(** What the usbredir channel can ask of the device's endpoints. *)
Inductive transfer : Type :=
| T_Control (setup : ControlSetup) (data : list Z)
| T_BulkIn (endpoint max_len : Z)
| T_BulkOut (endpoint : Z) (data : list Z)
| T_Reset.

Definition run_transfer {F} `{RawFile F} (t : transfer) : M unit (VirtualMsc F) TransferResult :=
  match t with
  | T_Control setup data => msc_control_transfer setup data
  | T_BulkIn endpoint max_len => msc_bulk_in endpoint max_len
  | T_BulkOut endpoint data => msc_bulk_out endpoint data
  | T_Reset => do? msc_reset in ret tr_success_empty
  end.

(** * Specification

    A host that talks Bulk-Only Transport: it sends a command block, then the
    data if the command has any, and reads the bulk IN endpoint until the device
    is idle again.  The last packet is the status. *)

Section Host.
Context {F : Type} `{RawFile F}.

Abbreviation Dev := (M unit (VirtualMsc F)).

Inductive disk_op : Type :=
| Op_Read (tag lba blocks packet : Z)
| Op_Write (tag lba blocks : Z) (chunks : list (list Z)).

(** [Stuck]: an empty packet came where the status was due, and the device waits
    for data the host does not have. *)
Inductive outcome : Type :=
| Passed (data : list Z)
| Failed
| Stuck.

#[export] Instance outcome_eq_dec : EqDecision outcome.
Proof. solve_decision. Defined.

(** The command block of READ(10) and WRITE(10). *)
Definition host_cbw (tag flags opcode lba blocks : Z) : list Z :=
  to_le 4 CBW_SIGNATURE ++ to_le 4 tag ++ to_le 4 (blocks * BLOCK_SIZE) ++ [flags; 0; 10] ++
    [opcode; 0] ++ to_be 4 lba ++ [0] ++ to_be 2 blocks ++ replicate 7 0.

(** Data goes out until a packet stalls. *)
Fixpoint send_chunks (chunks : list (list Z)) : Dev unit :=
  match chunks with
  | [] => ret tt
  | chunk :: chunks =>
      let? r := msc_bulk_out EP_BULK_OUT chunk in
      match tr_status r with
      | Status_Stall => ret tt
      | _ => send_chunks chunks
      end
  end.

(** A device that never becomes idle is a panic of the specification. *)
Fixpoint read_packets (fuel : nat) (packet : Z) : Dev (list (list Z)) :=
  match fuel with
  | O => panic
  | S fuel =>
      let? self := get_state in
      match vm_bot_state self with
      | Bot_Idle => ret []
      | _ =>
          let? r := msc_bulk_in EP_BULK_IN packet in
          let? packets := read_packets fuel packet in
          ret (tr_data r :: packets)
      end
  end.

Definition outcome_of (tag : Z) (packets : list (list Z)) : outcome :=
  match reverse packets with
  | csw :: data =>
      if decide (csw = build_csw tag 0 CSW_STATUS_PASSED) then Passed (concat (reverse data))
      else Failed
  | [] => Failed
  end.

Definition finish_exchange (tag packet : Z) : Dev outcome :=
  let? self := get_state in
  match vm_bot_state self with
  | Bot_DataOut _ _ _ =>
      let? r := msc_bulk_in EP_BULK_IN packet in
      ret (match tr_data r with [] => Stuck | _ => Failed end)
  | _ =>
      let? packets := read_packets (3 + length (vm_pending_data self)) packet in
      ret (outcome_of tag packets)
  end.

Definition exchange (op : disk_op) : Dev outcome :=
  match op with
  | Op_Read tag lba blocks packet =>
      do? msc_bulk_out EP_BULK_OUT (host_cbw tag 128 SCSI_READ_10 lba blocks) in
      finish_exchange tag packet
  | Op_Write tag lba blocks chunks =>
      do? msc_bulk_out EP_BULK_OUT (host_cbw tag 0 SCSI_WRITE_10 lba blocks) in
      do? send_chunks chunks in
      finish_exchange tag 512
  end.

(** A host that is stuck sends no more commands. *)
Fixpoint exchanges (ops : list disk_op) : Dev (list outcome) :=
  match ops with
  | [] => ret []
  | op :: ops =>
      let? o := exchange op in
      match o with
      | Stuck => ret [Stuck]
      | _ =>
          let? os := exchanges ops in
          ret (o :: os)
      end
  end.

(** A host's commands: the data of a write is as long as the command says, in
    packets that are not empty. *)
Definition op_ok (op : disk_op) : Prop :=
  match op with
  | Op_Read tag lba blocks packet => u32 tag /\ u32 lba /\ u16 blocks /\ 0 < packet
  | Op_Write tag lba blocks chunks =>
      u32 tag /\ u32 lba /\ u16 blocks /\
      zlen (concat chunks) = blocks * BLOCK_SIZE /\
      Forall (fun c => c <> [] /\ bytes c) chunks
  end.

(** A file on which nothing fails but reading past its end. *)
Definition reliable : Prop :=
  (forall (f : F) offset, fst (rf_seek f offset) = true) /\
  (forall (f : F) n, 0 <= n -> 0 <= rf_pos f -> rf_pos f + n <= zlen (rf_bytes f) ->
     is_Some (fst (rf_read_exact f n))) /\
  (forall (f : F) data, fst (rf_write_all f data) = true) /\
  (forall (f : F), fst (rf_flush f) = true).

(** The commands a disk of [count] blocks accepts. *)
Definition accepts (read_only : bool) (count : Z) (op : disk_op) : Prop :=
  match op with
  | Op_Read _ lba blocks _ => blocks <= MAX_TRANSFER_BLOCKS /\ lba + blocks <= count
  | Op_Write _ lba blocks _ =>
      blocks <= MAX_TRANSFER_BLOCKS /\ lba + blocks <= count /\ read_only = false
  end.

(** What a command does to the bytes of a disk. *)
Definition disk_step (read_only : bool) (count : Z) (bs : list Z) (op : disk_op) (o : outcome)
    (bs' : list Z) : Prop :=
  match o, op with
  | Passed data, Op_Read _ lba blocks _ =>
      accepts read_only count op /\ bs' = bs /\
      slice bs (lba * BLOCK_SIZE) ((lba + blocks) * BLOCK_SIZE) = Some data
  | Passed data, Op_Write _ lba blocks chunks =>
      accepts read_only count op /\ 0 < blocks /\ data = [] /\
      bs' = write_at bs (lba * BLOCK_SIZE) (concat chunks)
  | Failed, Op_Read _ _ _ _ => bs' = bs /\ (reliable -> ~ accepts read_only count op)
  | Failed, Op_Write _ lba blocks _ =>
      same_outside (lba * BLOCK_SIZE) (blocks * BLOCK_SIZE) bs bs' /\
      (~ accepts read_only count op -> bs' = bs) /\
      (reliable -> ~ accepts read_only count op) /\
      (blocks = 0 -> ~ accepts read_only count op)
  | Stuck, Op_Write _ _ blocks _ => accepts read_only count op /\ blocks = 0 /\ bs' = bs
  | Stuck, Op_Read _ _ _ _ => False
  end.

Fixpoint disk_runs (read_only : bool) (count : Z) (bs : list Z) (ops : list disk_op)
    (os : list outcome) (bs' : list Z) : Prop :=
  match ops, os with
  | [], [] => bs' = bs
  | op :: ops, o :: os =>
      exists mid, disk_step read_only count bs op o mid /\
        match o with
        | Stuck => os = [] /\ bs' = mid
        | _ => disk_runs read_only count mid ops os bs'
        end
  | _, _ => False
  end.

End Host.

(** * The invariant *)

Definition sense_ok (sense : Z * Z * Z) : Prop :=
  let '(key, asc, ascq) := sense in u8 key /\ u8 asc /\ u8 ascq.

Definition csw_ok (csw : list Z) : Prop := zlen csw = 13 /\ bytes csw.

Definition max_transfer : Z := MAX_TRANSFER_BLOCKS * BLOCK_SIZE.

(** An accepted WRITE(10): its blocks are on the disk. *)
Definition write_accepted {F} (s : VirtualMsc F) (tag lba remaining : Z) : Prop :=
  vm_read_only s = false /\ u32 tag /\ u32 lba /\ 0 <= remaining <= max_transfer /\
  lba * BLOCK_SIZE + remaining <= vm_block_count s * BLOCK_SIZE.

Definition phase_ok {F} (s : VirtualMsc F) : Prop :=
  match vm_bot_state s with
  | Bot_Idle => vm_pending_data s = [] /\ vm_pending_csw s = [] /\ vm_write_buf s = []
  | Bot_DataOut tag lba remaining =>
      vm_pending_data s = [] /\ vm_pending_csw s = [] /\ bytes (vm_write_buf s) /\
      write_accepted s tag lba remaining /\
      (zlen (vm_write_buf s) < remaining \/ remaining = 0 /\ vm_write_buf s = [])
  | Bot_DataIn =>
      0 < zlen (vm_pending_data s) <= max_transfer /\ bytes (vm_pending_data s) /\
      csw_ok (vm_pending_csw s) /\ vm_write_buf s = []
  | Bot_Status =>
      vm_pending_data s = [] /\ csw_ok (vm_pending_csw s) /\ vm_write_buf s = []
  end.

Definition vm_ok {F} `{RawFile F} (s : VirtualMsc F) : Prop :=
  0 <= vm_block_count s /\ vm_block_count s * BLOCK_SIZE <= zlen (rf_bytes (vm_file s)) /\
  sense_ok (vm_sense s) /\ phase_ok s.

(** * Lemmas *)

Lemma bytes_take n bs : bytes bs -> bytes (take n bs).
Proof. apply Forall_take. Qed.

Lemma from_be_bound n bs : bytes bs -> zlen bs = n -> 0 <= from_be bs < 2 ^ (8 * n).
Proof.
  intros Hb <-. unfold from_be. pose proof (from_le_bound (reverse bs)) as Hr.
  unfold zlen in *. rewrite length_reverse in Hr. apply Hr. by apply Forall_reverse.
Qed.

Lemma to_be_bytes n v : bytes (to_be n v).
Proof. apply Forall_reverse, to_le_bytes. Qed.

Lemma same_outside_refl pos len bs : same_outside pos len bs bs.
Proof. by split. Qed.

Lemma csw_ok_build tag residue status : u8 status -> csw_ok (build_csw tag residue status).
Proof.
  intros Hs. unfold build_csw. split; [by rewrite !zlen_app, !zlen_to_le|].
  do 3 (apply bytes_app; [apply to_le_bytes|]). by apply singleton_wf.
Qed.

(** A piece of a command block of 16 bytes. *)
Lemma piece cb a b : bytes cb -> zlen cb = 16 -> 0 <= a <= b -> b <= 16 ->
  exists p, slice cb a b = Some p /\ bytes p /\ zlen p = b - a.
Proof.
  intros Hb Hl Ha Hb16. destruct (slice cb a b) as [p|] eqn:E; [|by rewrite slice_Some in E by lia].
  exists p. split; [done|]. split; [by eapply slice_Forall|by eapply slice_length].
Qed.

Lemma index_byte cb i : bytes cb -> 0 <= i < zlen cb -> exists b, index cb i = Some b /\ u8 b.
Proof.
  intros Hb Hi. destruct (index_is_Some cb i Hi) as [b E]. exists b. split; [done|].
  rewrite index_lookup in E by lia. by eapply (Forall_lookup_1 _ _ _ _ Hb).
Qed.

Definition cbw_ok (cbw : Cbw) : Prop :=
  u32 (cbw_tag cbw) /\ bytes (cbw_cb cbw) /\ zlen (cbw_cb cbw) = 16.

Lemma from_le_piece data a : bytes data -> 0 <= a -> a + 4 <= zlen data ->
  exists p, from_le <$> slice data a (a + 4) = Some (from_le p) /\ u32 (from_le p).
Proof.
  intros Hb Ha Hl. destruct (slice data a (a + 4)) as [p|] eqn:E; [|by rewrite slice_Some in E by lia].
  exists p. split; [done|]. pose proof (from_le_bound p ltac:(by eapply slice_Forall)) as Hr.
  rewrite (slice_length _ _ _ _ E) in Hr. replace (a + 4 - a) with 4 in Hr by lia. exact Hr.
Qed.

Lemma Cbw_parse_ok data : bytes data ->
  exists o, Cbw_parse data = Some o /\ (forall cbw, o = Some cbw -> cbw_ok cbw).
Proof.
  intros Hb. unfold Cbw_parse, CBW_SIZE. case_bool; [by exists None|].
  destruct (from_le_piece data 0) as (p0 & E0 & H0); [done|lia..|].
  destruct (from_le_piece data 4) as (p1 & E1 & H1); [done|lia..|].
  destruct (from_le_piece data 8) as (p2 & E2 & H2); [done|lia..|].
  change (0 + 4) with 4 in E0. change (4 + 4) with 8 in E1. change (8 + 4) with 12 in E2.
  rewrite E0, E1, E2. cbn [mbind option_bind].
  destruct (negb (from_le p0 =? CBW_SIGNATURE)); [by exists None|].
  destruct (index_byte data 12) as (b0 & -> & _); [done|lia|].
  destruct (index_byte data 13) as (b1 & -> & _); [done|lia|].
  destruct (index_byte data 14) as (b2 & -> & _); [done|lia|]. cbn [mbind option_bind].
  destruct (slice data 15 31) as [cb|] eqn:E; [|by rewrite slice_Some in E by lia].
  cbn. eexists. split; [done|]. intros cbw [= <-]. split; [done|]. cbn.
  split; [by eapply slice_Forall|by rewrite (slice_length _ _ _ _ E)].
Qed.

Section Facts.
Context {F : Type} `{RawFileLaws F}.

Abbreviation Dev := (M unit (VirtualMsc F)).

(** ** The file *)

Lemma do_read_ok (s : VirtualMsc F) offset len : 0 <= offset -> 0 <= len ->
  exists r f, do_read offset len s = (Ok r, set_file f s) /\
    rf_bytes f = rf_bytes (vm_file s) /\
    (forall data, r = Some data -> slice (rf_bytes (vm_file s)) offset (offset + len) = Some data) /\
    (reliable (F := F) -> offset + len <= zlen (rf_bytes (vm_file s)) -> is_Some r).
Proof.
  intros Ho Hl. unfold do_read, bind, on_file.
  destruct (rf_seek_ok (vm_file s) offset Ho) as [Hb Hp].
  assert (reliable (F := F) -> fst (rf_seek (vm_file s) offset) = true) as Hrel by (intros R; apply R).
  destruct (rf_seek (vm_file s) offset) as [[] f1]; cbn in *; cycle 1.
  { exists None, f1. split; [done|]. split; [done|]. split; [done|]. intros R. by specialize (Hrel R). }
  destruct (rf_read_ok f1 len Hl) as [Hb2 Hr].
  assert (reliable (F := F) -> rf_pos f1 + len <= zlen (rf_bytes f1) ->
    is_Some (fst (rf_read_exact f1 len))) as Hrel2.
  { intros R Hlen. apply R; [done|rewrite Hp by done; lia|done]. }
  rewrite Hp, Hb in * by done. destruct (rf_read_exact f1 len) as [r f2]. cbn in *.
  exists r, f2. split; [done|]. split; [congruence|]. by split.
Qed.

Lemma do_write_ok (s : VirtualMsc F) lba data : bytes data -> 0 <= lba ->
  exists ok f, do_write lba data s = (Ok ok, set_file f s) /\
    same_outside (lba * BLOCK_SIZE) (zlen data) (rf_bytes (vm_file s)) (rf_bytes f) /\
    (ok = true -> rf_bytes f = write_at (rf_bytes (vm_file s)) (lba * BLOCK_SIZE) data) /\
    (reliable (F := F) -> ok = true).
Proof.
  intros Hd Hl. unfold do_write, bind, on_file. unfold BLOCK_SIZE in *.
  destruct (rf_seek_ok (vm_file s) (lba * 512) ltac:(lia)) as [Hb Hp].
  assert (reliable (F := F) -> fst (rf_seek (vm_file s) (lba * 512)) = true) as Hrel
    by (intros R; apply R).
  destruct (rf_seek (vm_file s) (lba * 512)) as [[] f1]; cbn in *; cycle 1.
  { exists false, f1. rewrite Hb. split; [done|]. split; [apply same_outside_refl|].
    split; [done|]. intros R. by specialize (Hrel R). }
  specialize (Hp eq_refl). assert (0 <= rf_pos f1) as H0p by (rewrite Hp; lia).
  pose proof (rf_write_ok f1 data Hd H0p) as Hw.
  assert (reliable (F := F) -> fst (rf_write_all f1 data) = true) as Hrel1 by (intros R; apply R).
  rewrite Hp, Hb in Hw. destruct (rf_write_all f1 data) as [written f2]. cbn in *.
  assert (reliable (F := F) -> fst (rf_flush f2) = true) as Hrel2 by (intros R; apply R).
  destruct (rf_flush f2) as [flushed f3] eqn:Ef. cbn in Hrel2. destruct Hw as (Hw1 & Hw2 & Hw3).
  destruct written; cbn.
  - rewrite Ef. exists flushed, f3. split; [done|]. split; [done|]. split; [by apply Hw3|done].
  - exists false, f2. split; [done|]. split; [done|]. split; [done|]. intros R. by specialize (Hrel1 R).
Qed.

(** ** Commands *)

(** [s'] is [s] after something that left its disk and its endpoints alone. *)
Definition same_disk (s s' : VirtualMsc F) : Prop :=
  rf_bytes (vm_file s') = rf_bytes (vm_file s) /\ vm_read_only s' = vm_read_only s /\
  vm_block_count s' = vm_block_count s /\ vm_pending_data s' = vm_pending_data s /\
  vm_pending_csw s' = vm_pending_csw s.

Definition scsi_result_ok (r : ScsiResult) : Prop :=
  bytes (sr_data r) /\ zlen (sr_data r) <= max_transfer /\
  sense_ok (sr_sense_key r, sr_sense_asc r, sr_sense_ascq r).

(** What a command leaves behind: an accepted write, or the phase as it was. *)
Definition scsi_post (cbw : Cbw) (s s' : VirtualMsc F) : Prop :=
  same_disk s s' /\ sense_ok (vm_sense s') /\
  (vm_bot_state s' = vm_bot_state s /\ vm_write_buf s' = vm_write_buf s \/
   exists lba remaining, vm_bot_state s' = Bot_DataOut (cbw_tag cbw) lba remaining /\
     vm_write_buf s' = [] /\ write_accepted s' (cbw_tag cbw) lba remaining).

Lemma scsi_post_refl cbw (s : VirtualMsc F) : sense_ok (vm_sense s) -> scsi_post cbw s s.
Proof. intros Hs. split; [by split_and!|]. split; [done|]. by left. Qed.

Lemma condition_ok key asc ascq : u8 key -> u8 asc -> u8 ascq ->
  scsi_result_ok (check_condition key asc ascq).
Proof. intros ???. split; [constructor|]. split; [done|]. by split_and!. Qed.

Lemma good_ok data : bytes data -> zlen data <= max_transfer -> scsi_result_ok (scsi_good data).
Proof. intros ??. split; [done|]. split; [done|]. done. Qed.

Lemma zlen_take_le {A} n (l : list A) m : zlen l <= m -> zlen (take n l) <= m.
Proof. rewrite zlen_take. lia. Qed.

Lemma request_sense_ok cbw (s : VirtualMsc F) : cbw_ok cbw -> sense_ok (vm_sense s) ->
  exists r s', scsi_request_sense cbw s = (Ok r, s') /\ scsi_result_ok r /\ scsi_post cbw s s'.
Proof.
  intros (_ & Hb & Hl) Hs. destruct (index_byte (cbw_cb cbw) 4) as (n & E & _); [done|lia|].
  unfold scsi_request_sense, bind, unwrap, get_state, modify. rewrite E. cbn.
  destruct (vm_sense s) as [[key asc] ascq]. destruct Hs as (? & ? & ?). cbn.
  eexists _, _. split; [done|]. split.
  - apply good_ok; [|by apply zlen_take_le]. apply bytes_take.
    repeat (apply list.Forall_cons_2; [unfold in_unsigned in *; lia|]). constructor.
  - split; [by split_and!|]. split; [done|]. by left.
Qed.

Lemma inquiry_ok cbw (s : VirtualMsc F) : cbw_ok cbw ->
  exists r, scsi_inquiry cbw s = (Ok r, s) /\ scsi_result_ok r.
Proof.
  intros (_ & Hb & Hl). destruct (piece (cbw_cb cbw) 3 5) as (p & E & _); [done|done|lia..|].
  unfold scsi_inquiry, bind, unwrap. rewrite E. cbn [ret app].
  eexists. split; [done|]. apply good_ok; [|by apply zlen_take_le].
  apply bytes_take. apply (bool_decide_unpack _). reflexivity.
Qed.

Lemma capacity_ok (s : VirtualMsc F) : 0 <= vm_block_count s ->
  exists r, scsi_read_capacity_10 s = (Ok r, s) /\ scsi_result_ok r.
Proof.
  intros _. eexists. split; [done|]. apply good_ok; [|by rewrite zlen_app, !zlen_to_be].
  apply bytes_app; apply to_be_bytes.
Qed.

(** The block number and count of READ(10) and WRITE(10). *)
Lemma command_blocks cb : bytes cb -> zlen cb = 16 ->
  exists p q, slice cb 2 6 = Some p /\ slice cb 7 9 = Some q /\
    u32 (from_be p) /\ u16 (from_be q).
Proof.
  intros Hb Hl. destruct (piece cb 2 6) as (p & Ep & Hp & Lp); [done|done|lia..|].
  destruct (piece cb 7 9) as (q & Eq & Hq & Lq); [done|done|lia..|].
  exists p, q. split; [done|]. split; [done|].
  split; [by apply (from_be_bound 4)|by apply (from_be_bound 2)].
Qed.

Lemma read_10_ok cbw (s : VirtualMsc F) : cbw_ok cbw -> vm_ok s ->
  exists r f, scsi_read_10 cbw s = (Ok r, set_file f s) /\ scsi_result_ok r /\
    rf_bytes f = rf_bytes (vm_file s).
Proof.
  intros (_ & Hb & Hl) (Hc & Hf & _). destruct (command_blocks _ Hb Hl) as (p & q & Ep & Eq & Hp & Hq).
  unfold scsi_read_10, bind at 1 2, unwrap. rewrite Ep, Eq. cbn [ret].
  unfold in_unsigned, MAX_TRANSFER_BLOCKS, BLOCK_SIZE in *.
  destruct (Z.ltb_spec 2048 (from_be q)).
  { exists (check_condition SENSE_ILLEGAL_REQUEST 32 0), (vm_file s).
    split; [by destruct s|]. split; [by apply condition_ok|done]. }
  unfold bind at 1, get_state. destruct (Z.ltb_spec (vm_block_count s) (from_be p + from_be q)).
  { exists (check_condition SENSE_MEDIUM_ERROR 33 0), (vm_file s).
    split; [by destruct s|]. split; [by apply condition_ok|done]. }
  destruct (do_read_ok s (from_be p * 512) (from_be q * 512)) as (r & f & E & Hfb & Hr & _); [lia..|].
  unfold bind. rewrite E. destruct r as [data|]; eexists _, f; (split; [done|]; split; [|done]).
  - specialize (Hr data eq_refl). apply good_ok.
    + by eapply slice_Forall; [apply rf_bytes_ok|].
    + rewrite (slice_length _ _ _ _ Hr). unfold max_transfer, MAX_TRANSFER_BLOCKS, BLOCK_SIZE. lia.
  - by apply condition_ok.
Qed.

Lemma write_10_ok cbw (s : VirtualMsc F) : cbw_ok cbw -> sense_ok (vm_sense s) ->
  exists r s', scsi_write_10 cbw s = (Ok r, s') /\ scsi_result_ok r /\ scsi_post cbw s s'.
Proof.
  intros (Ht & Hb & Hl) Hs. destruct (command_blocks _ Hb Hl) as (p & q & Ep & Eq & Hp & Hq).
  unfold scsi_write_10, bind, unwrap, get_state, modify. rewrite Ep, Eq. cbn [ret].
  destruct (vm_read_only s) eqn:Ero.
  { eexists _, s. split; [done|]. split; [by apply condition_ok|by apply scsi_post_refl]. }
  unfold in_unsigned, MAX_TRANSFER_BLOCKS, BLOCK_SIZE in *. destruct (Z.ltb_spec 2048 (from_be q)).
  { eexists _, s. split; [done|]. split; [by apply condition_ok|by apply scsi_post_refl]. }
  destruct (Z.ltb_spec (vm_block_count s) (from_be p + from_be q)).
  { eexists _, s. split; [done|]. split; [by apply condition_ok|by apply scsi_post_refl]. }
  eexists _, _. split; [done|]. split; [by apply good_ok|].
  split; [by split_and!|]. split; [done|]. right. eexists _, _. split; [done|]. split; [done|].
  split; [done|]. split; [done|]. split; [done|].
  unfold max_transfer, MAX_TRANSFER_BLOCKS, BLOCK_SIZE. cbn. lia.
Qed.

Lemma execute_scsi_ok cbw (s : VirtualMsc F) : cbw_ok cbw -> vm_ok s ->
  exists r s', execute_scsi cbw s = (Ok r, s') /\ scsi_result_ok r /\ scsi_post cbw s s'.
Proof.
  intros Hc Hs. pose proof Hs as (Hn & _ & Hse & _).
  destruct (index_byte (cbw_cb cbw) 0) as (op & E & _); [apply Hc|destruct Hc as (_ & _ & ->); lia|].
  unfold execute_scsi, bind at 1, unwrap. rewrite E. cbn [ret].
  assert (exists r s', (Ok (E := unit) scsi_good_empty, s) = (Ok r, s') /\ scsi_result_ok r /\
    scsi_post cbw s s') as Hempty.
  { eexists _, s. split; [done|]. split; [by apply good_ok|by apply scsi_post_refl]. }
  destruct (op =? SCSI_TEST_UNIT_READY); [exact Hempty|].
  destruct (op =? SCSI_REQUEST_SENSE); [by apply request_sense_ok|].
  destruct (op =? SCSI_INQUIRY); [destruct (inquiry_ok cbw s Hc) as (r & -> & Hr); eexists _, s;
    split; [done|]; split; [done|by apply scsi_post_refl]|].
  destruct (op =? SCSI_MODE_SENSE_6); [eexists _, s; split; [done|]; split; [|by apply scsi_post_refl]|].
  { apply good_ok; [|done]. destruct (vm_read_only s); apply (bool_decide_unpack _); reflexivity. }
  destruct (op =? SCSI_PREVENT_ALLOW_MEDIUM_REMOVAL); [exact Hempty|].
  destruct (op =? SCSI_READ_CAPACITY_10); [destruct (capacity_ok s Hn) as (r & -> & Hr); eexists _, s;
    split; [done|]; split; [done|by apply scsi_post_refl]|].
  destruct (op =? SCSI_READ_10); [destruct (read_10_ok cbw s Hc Hs) as (r & f & -> & Hr & Hf);
    eexists _, _; split; [done|]; split; [done|]|].
  { split; [by split_and!|]. split; [done|]. by left. }
  destruct (op =? SCSI_WRITE_10); [by apply write_10_ok|].
  eexists _, s. split; [done|]. split; [by apply condition_ok|by apply scsi_post_refl].
Qed.

(** ** Transfers *)

Definition same_device (s s' : VirtualMsc F) : Prop :=
  vm_read_only s' = vm_read_only s /\ vm_block_count s' = vm_block_count s.

Lemma finish_cbw_ok cbw r s : scsi_result_ok r -> vm_ok s -> vm_bot_state s = Bot_Idle ->
  exists s', finish_cbw cbw r s = (Ok tr_success_empty, s') /\ vm_ok s' /\ same_device s s' /\
    rf_bytes (vm_file s') = rf_bytes (vm_file s).
Proof.
  intros (Hb & Hl & Hse) (Hn & Hf & Hs & Hp) E. unfold phase_ok in Hp. rewrite E in Hp.
  destruct Hp as (Hpd & Hcsw & Hwb).
  unfold finish_cbw, bind, modify, ret.
  assert (csw_ok (build_csw (cbw_tag cbw) (if sr_status r =? 0
    then saturating_sub (cbw_data_transfer_length cbw) (as_unsigned 32 (zlen (sr_data r)))
    else cbw_data_transfer_length cbw)
    (if sr_status r =? 0 then CSW_STATUS_PASSED else CSW_STATUS_FAILED))) as Hc
    by (apply csw_ok_build; by destruct (sr_status r =? 0)).
  destruct (Z.eqb_spec (zlen (sr_data r)) 0);
    destruct (cbw_direction_in cbw); destruct (sr_status r =? 0);
    (eexists; split; [done|]; split; [|done]; split; [done|]; split; [done|]; split; [done|]);
    cbn; try done.
  all: pose proof (zlen_nonneg (sr_data r)); split; [lia|done].
Qed.

Lemma handle_cbw_ok data s : bytes data -> vm_ok s -> vm_bot_state s = Bot_Idle ->
  exists r s', handle_cbw data s = (Ok r, s') /\ tr_data r = [] /\ vm_ok s' /\ same_device s s' /\
    rf_bytes (vm_file s') = rf_bytes (vm_file s).
Proof.
  intros Hd Hs E. destruct (Cbw_parse_ok data Hd) as (o & Ep & Hc).
  unfold handle_cbw, bind, unwrap. rewrite Ep. destruct o as [cbw|]; cbn [ret]; cycle 1.
  { exists tr_stall, s. by split_and!. }
  destruct (execute_scsi_ok cbw s (Hc cbw eq_refl) Hs)
    as (r & s' & -> & Hr & (Hb & Hro & Hbc & Hpd & Hcsw) & Hse & Hph).
  unfold get_state. destruct Hs as (Hn & Hf & _ & Hp). unfold phase_ok in Hp. rewrite E in Hp.
  destruct Hp as (Hpd0 & Hcsw0 & Hwb0). destruct Hph as [[Hbot Hwb]|(lba & rem & Hbot & Hwb & Hacc)].
  - rewrite Hbot, E. cbn [is_data_out].
    destruct (finish_cbw_ok cbw r s' Hr) as (s2 & -> & Hok & (? & ?) & Hfb).
    { unfold vm_ok, phase_ok. rewrite Hbot, E, Hb, Hbc, Hpd, Hcsw, Hwb. by split_and!. }
    { by rewrite Hbot. }
    exists tr_success_empty, s2. split; [done|]. split; [done|]. split; [done|].
    split; [split; congruence|congruence].
  - rewrite Hbot. cbn [is_data_out]. exists tr_success_empty, s'. split; [done|]. split; [done|].
    split; [|by split]. unfold vm_ok, phase_ok. rewrite Hbot, Hb, Hbc, Hpd, Hcsw, Hwb.
    split; [done|]. split; [done|]. split; [done|]. split; [done|]. split; [done|].
    split; [constructor|]. split; [done|]. change (zlen (@nil Z)) with 0.
    destruct Hacc as (_ & _ & _ & ? & _). destruct (decide (rem = 0)); [by right|left; lia].
Qed.

(** The bytes a write touches: from its first block, as many as have been sent. *)
Lemma handle_data_out_ok tag lba remaining data s : bytes data -> vm_ok s ->
  vm_bot_state s = Bot_DataOut tag lba remaining ->
  let sent := vm_write_buf s ++ data in
  exists s', handle_data_out tag lba remaining data s = (Ok tr_success_empty, s') /\
    vm_ok s' /\ same_device s s' /\
    (if remaining <=? zlen sent
     then same_outside (lba * BLOCK_SIZE) (zlen sent) (rf_bytes (vm_file s)) (rf_bytes (vm_file s')) /\
       vm_bot_state s' = Bot_Status /\
       (vm_pending_csw s' = build_csw tag 0 CSW_STATUS_PASSED /\
          rf_bytes (vm_file s') = write_at (rf_bytes (vm_file s)) (lba * BLOCK_SIZE) sent \/
        vm_pending_csw s' = build_csw tag (as_unsigned 32 remaining) CSW_STATUS_FAILED /\
          ~ reliable (F := F))
     else s' = set_write_buf sent s).
Proof.
  intros Hd (Hn & Hf & Hs & Hp) E. cbn. unfold phase_ok in Hp. rewrite E in Hp.
  destruct Hp as (Hpd & Hcsw & Hwb & Hacc & Hlen).
  assert (bytes (vm_write_buf s ++ data)) as Hsent by by apply bytes_app.
  unfold handle_data_out, bind, get_state, modify, extend_from_slice. cbn [vm_write_buf set_write_buf].
  destruct (Z.leb_spec remaining (zlen (vm_write_buf s ++ data))); cycle 1.
  { eexists. split; [done|]. split; [|by split]. unfold vm_ok, phase_ok. cbn. rewrite E. by split_and!; auto. }
  destruct Hacc as (Hro & Ht & Hlba & Hrem & Hin).
  destruct (do_write_ok (set_write_buf (vm_write_buf s ++ data) s) lba (vm_write_buf s ++ data))
    as (ok & f & -> & Hout & Hok & Hrel); [done|apply Hlba|].
  cbn [vm_file set_write_buf] in *.
  destruct ok; cbn [ret]; (eexists; split; [done|]; split; [|split; [done|]]).
  - unfold vm_ok, phase_ok. cbn. split; [done|]. split; [destruct Hout; lia|]. split; [done|].
    split; [done|]. split; [by apply csw_ok_build|done].
  - split; [done|]. split; [done|]. left. split; [done|]. by apply Hok.
  - unfold vm_ok, phase_ok. cbn. split; [done|]. split; [destruct Hout; lia|]. split; [done|].
    split; [done|]. split; [by apply csw_ok_build|done].
  - split; [done|]. split; [done|]. right. split; [done|]. intros R. by specialize (Hrel R).
Qed.

Lemma handle_bulk_in_ok max_len s : 0 <= max_len -> vm_ok s ->
  exists r s', handle_bulk_in max_len s = (Ok r, s') /\ vm_ok s' /\ same_device s s' /\
    rf_bytes (vm_file s') = rf_bytes (vm_file s) /\
    bytes (tr_data r) /\ zlen (tr_data r) <= max_transfer.
Proof.
  intros Hm (Hn & Hf & Hs & Hp). unfold handle_bulk_in, bind, get_state, modify. unfold phase_ok in Hp.
  destruct (vm_bot_state s) eqn:E.
  - eexists _, s. split; [done|]. split; [|by split_and!]. unfold vm_ok, phase_ok. by rewrite E.
  - eexists _, s. split; [done|]. split; [|by split_and!]. unfold vm_ok, phase_ok. by rewrite E.
  - destruct Hp as (Hl & Hb & Hc & Hw).
    assert (zlen (take (Z.to_nat (Z.min (zlen (vm_pending_data s)) max_len)) (vm_pending_data s))
      <= max_transfer) as Ht by (apply zlen_take_le; lia).
    assert (bytes (drop (Z.to_nat (Z.min (zlen (vm_pending_data s)) max_len)) (vm_pending_data s)))
      as Hdb by by apply Forall_drop.
    assert (zlen (drop (Z.to_nat (Z.min (zlen (vm_pending_data s)) max_len)) (vm_pending_data s))
      <= max_transfer) as Hdl by (rewrite zlen_drop; lia).
    set (rest := drop _ _) in *. pose proof (zlen_nonneg rest). destruct (Z.eqb_spec (zlen rest) 0).
    + eexists _, _. split; [done|]. split; [|split; [done|split; [done|]]; split; [by apply bytes_take|done]].
      split; [done|]. split; [done|]. split; [done|]. unfold phase_ok. cbn.
      split; [by apply zlen_0_nil|done].
    + eexists _, _. split; [done|]. split; [|split; [done|split; [done|]]; split; [by apply bytes_take|done]].
      split; [done|]. split; [done|]. split; [done|]. unfold phase_ok. cbn. rewrite E. split; [lia|done].
  - destruct Hp as (Hpd & Hc & Hw). eexists _, _. split; [done|]. cbn. split; [|split; [done|split; [done|]]].
    + split; [done|]. split; [done|]. split; [done|]. done.
    + destruct Hc as [Hc Hb]. split; [done|]. rewrite Hc. done.
Qed.

(** ** The host *)

Definition idle_after (s : VirtualMsc F) : VirtualMsc F :=
  set_bot Bot_Idle (set_pending_csw [] (set_pending_data [] s)).

Definition answering (s : VirtualMsc F) : Prop :=
  vm_bot_state s = Bot_DataIn /\ 0 < zlen (vm_pending_data s) \/
  vm_bot_state s = Bot_Status /\ vm_pending_data s = [].

Lemma idle_after_ok s : vm_ok s -> answering s -> vm_ok (idle_after s).
Proof.
  intros (Hn & Hf & Hs & Hp) Ha. split; [done|]. split; [done|]. split; [done|].
  unfold phase_ok in Hp. split; [done|]. split; [done|]. cbn.
  destruct Ha as [[E _]|[E _]]; rewrite E in Hp; apply Hp.
Qed.

(** The host reads the data, then the status, and the device is idle. *)
Lemma read_packets_ok fuel packet s : 0 < packet -> answering s ->
  (3 + length (vm_pending_data s) <= fuel)%nat ->
  exists pieces,
    read_packets fuel packet s = (Ok (pieces ++ [vm_pending_csw s]), idle_after s) /\
    concat pieces = vm_pending_data s.
Proof.
  intros Hp. revert s. induction fuel as [|fuel IH]; intros s Ha Hl; [lia|].
  cbn [read_packets]. unfold bind at 1, get_state. destruct Ha as [[E Hpd]|[E Epd]]; rewrite E.
  - unfold bind, msc_bulk_in, handle_bulk_in, get_state. cbn [EP_BULK_IN Z.eqb Pos.eqb negb].
    unfold bind, modify. rewrite E.
    set (len := Z.to_nat (Z.min (zlen (vm_pending_data s)) packet)).
    set (rest := drop len (vm_pending_data s)).
    assert (length rest < length (vm_pending_data s))%nat as Hr.
    { unfold rest, len. rewrite length_drop. unfold zlen in *. lia. }
    destruct (Z.eqb_spec (zlen rest) 0) as [H0r|H0r]; cbn [ret tr_success tr_data].
    + destruct (IH (set_bot Bot_Status (set_pending_data rest s))) as (pieces & Er & Ec).
      { right. split; [done|]. by apply zlen_0_nil. }
      { cbn. lia. }
      rewrite Er. exists (take len (vm_pending_data s) :: pieces). split; [done|].
      cbn [concat]. rewrite Ec. cbn. unfold rest. by rewrite take_drop.
    + destruct (IH (set_pending_data rest s)) as (pieces & Er & Ec).
      { left. split; [done|]. cbn. pose proof (zlen_nonneg rest). lia. }
      { cbn. lia. }
      rewrite Er. exists (take len (vm_pending_data s) :: pieces). split; [done|].
      cbn [concat]. rewrite Ec. cbn. unfold rest. by rewrite take_drop.
  - destruct fuel as [|fuel]; [lia|]. exists []. split; [|done].
    unfold bind at 1, msc_bulk_in, handle_bulk_in. cbn [EP_BULK_IN Z.eqb Pos.eqb negb].
    unfold bind at 1, get_state. rewrite E. cbn. unfold idle_after. by destruct s; cbn in *; subst.
Qed.

Lemma outcome_of_packets tag pieces csw :
  outcome_of tag (pieces ++ [csw]) =
    (if decide (csw = build_csw tag 0 CSW_STATUS_PASSED) then Passed (concat pieces) else Failed).
Proof. unfold outcome_of. rewrite reverse_snoc, reverse_involutive. done. Qed.

Lemma finish_exchange_ok tag packet s : 0 < packet -> answering s ->
  finish_exchange tag packet s =
    (Ok (if decide (vm_pending_csw s = build_csw tag 0 CSW_STATUS_PASSED)
         then Passed (vm_pending_data s) else Failed), idle_after s).
Proof.
  intros Hp Ha. assert (finish_exchange tag packet s = (let? packets :=
      read_packets (3 + length (vm_pending_data s)) packet in ret (outcome_of tag packets)) s) as ->.
  { unfold finish_exchange, bind at 1, get_state. destruct Ha as [[Ha _]|[Ha _]]; by rewrite Ha. }
  unfold bind.
  destruct (read_packets_ok (3 + length (vm_pending_data s)) packet s Hp Ha ltac:(lia))
    as (pieces & -> & <-). unfold ret. by rewrite outcome_of_packets.
Qed.

Lemma failed_csw tag residue tag' residue' :
  build_csw tag residue CSW_STATUS_FAILED <> build_csw tag' residue' CSW_STATUS_PASSED.
Proof. intros E. apply (f_equal (fun l => l !! 12%nat)) in E. done. Qed.

(** The command block as the device parses it. *)
Definition host_cb (opcode lba blocks : Z) : list Z :=
  [opcode; 0] ++ to_be 4 lba ++ [0] ++ to_be 2 blocks ++ replicate 7 0.

Definition parsed_cbw (tag flags opcode lba blocks : Z) : Cbw :=
  mkCbw tag (blocks * BLOCK_SIZE) (negb (Z.land flags 128 =? 0)) 0 10 (host_cb opcode lba blocks).

Lemma zlen_host_cb opcode lba blocks : zlen (host_cb opcode lba blocks) = 16.
Proof. unfold host_cb. by rewrite !zlen_app, !zlen_to_be, zlen_replicate. Qed.

Lemma host_cbw_parses tag flags opcode lba blocks :
  u32 tag -> u16 blocks ->
  Cbw_parse (host_cbw tag flags opcode lba blocks) =
    Some (Some (parsed_cbw tag flags opcode lba blocks)).
Proof.
  intros Ht Hb. unfold in_unsigned in *.
  assert (host_cbw tag flags opcode lba blocks = to_le 4 CBW_SIGNATURE ++ to_le 4 tag ++
    to_le 4 (blocks * BLOCK_SIZE) ++ [flags; 0; 10] ++ host_cb opcode lba blocks) as -> by done.
  set (cb := host_cb opcode lba blocks). assert (zlen cb = 16) as Hcb by apply zlen_host_cb.
  pose proof (slice_middle (to_le 4 CBW_SIGNATURE) (to_le 4 tag)
    (to_le 4 (blocks * BLOCK_SIZE) ++ [flags; 0; 10] ++ cb)) as S1.
  pose proof (slice_middle (to_le 4 CBW_SIGNATURE ++ to_le 4 tag) (to_le 4 (blocks * BLOCK_SIZE))
    ([flags; 0; 10] ++ cb)) as S2.
  pose proof (slice_middle (to_le 4 CBW_SIGNATURE ++ to_le 4 tag ++ to_le 4 (blocks * BLOCK_SIZE) ++
    [flags; 0; 10]) cb []) as S3.
  rewrite <- !app_assoc, app_nil_r in S3. rewrite <- !app_assoc in S2.
  rewrite !zlen_app, !zlen_to_le, Hcb in *. change (zlen [flags; 0; 10]) with 3 in *.
  change (Z.of_nat 4) with 4 in *. change (4 + 4) with 8 in *. change (8 + 4) with 12 in *.
  change (4 + (4 + (4 + 3))) with 15 in *. change (15 + 16) with 31 in *.
  unfold Cbw_parse. rewrite !zlen_app, !zlen_to_le, Hcb. change (zlen [flags; 0; 10]) with 3.
  cbn [Z.ltb]. rewrite S1, S2, S3. cbn -[from_le to_le cb BLOCK_SIZE].
  rewrite !from_le_to_le. unfold BLOCK_SIZE. rewrite !Z.mod_small by (cbn; lia). done.
Qed.

Lemma parsed_cbw_ok tag flags opcode lba blocks : u32 tag -> u8 opcode ->
  cbw_ok (parsed_cbw tag flags opcode lba blocks).
Proof.
  intros Ht Ho. split; [done|]. split; [|apply zlen_host_cb].
  unfold parsed_cbw, cbw_cb, host_cb.
  apply bytes_app; [repeat (apply list.Forall_cons_2; [unfold in_unsigned in *; lia|]); constructor|].
  apply bytes_app; [apply to_be_bytes|]. apply bytes_app; [by apply singleton_wf|].
  apply bytes_app; [apply to_be_bytes|apply bytes_zeros].
Qed.

Lemma host_cb_blocks opcode lba blocks :
  slice (host_cb opcode lba blocks) 2 6 = Some (to_be 4 lba) /\
  slice (host_cb opcode lba blocks) 7 9 = Some (to_be 2 blocks).
Proof.
  pose proof (slice_middle [opcode; 0] (to_be 4 lba) ([0] ++ to_be 2 blocks ++ replicate 7 0)) as S1.
  pose proof (slice_middle ([opcode; 0] ++ to_be 4 lba ++ [0]) (to_be 2 blocks) (replicate 7 0)) as S2.
  rewrite <- !app_assoc in S2. rewrite !zlen_app, !zlen_to_be in *. by split.
Qed.

(** [finish_cbw] as a state transformer. *)
Definition finished (cbw : Cbw) (r : ScsiResult) (s : VirtualMsc F) : VirtualMsc F :=
  let good := sr_status r =? 0 in
  let s := if good then s else set_sense (sr_sense_key r) (sr_sense_asc r) (sr_sense_ascq r) s in
  let residue :=
    if good then saturating_sub (cbw_data_transfer_length cbw) (as_unsigned 32 (zlen (sr_data r)))
    else cbw_data_transfer_length cbw in
  let s := set_pending_csw (build_csw (cbw_tag cbw) residue
             (if good then CSW_STATUS_PASSED else CSW_STATUS_FAILED)) s in
  if negb (zlen (sr_data r) =? 0) && cbw_direction_in cbw
  then set_bot Bot_DataIn (set_pending_data (sr_data r) s) else set_bot Bot_Status s.

Lemma finish_cbw_eq cbw r s : finish_cbw cbw r s = (Ok tr_success_empty, finished cbw r s).
Proof.
  unfold finish_cbw, finished, bind, modify, ret.
  by destruct (sr_status r =? 0), (zlen (sr_data r) =? 0), (cbw_direction_in cbw).
Qed.

Lemma host_opcode opcode lba blocks : index (host_cb opcode lba blocks) 0 = Some opcode.
Proof. rewrite index_lookup; [done|rewrite zlen_host_cb; lia]. Qed.

Lemma host_read_ok tag lba blocks packet s : u32 lba -> u16 blocks -> vm_ok s ->
  let op := Op_Read tag lba blocks packet in
  exists r f, execute_scsi (parsed_cbw tag 128 SCSI_READ_10 lba blocks) s = (Ok r, set_file f s) /\
    rf_bytes f = rf_bytes (vm_file s) /\
    (accepts (vm_read_only s) (vm_block_count s) op /\
     (exists data, r = scsi_good data /\
       slice (rf_bytes (vm_file s)) (lba * BLOCK_SIZE) ((lba + blocks) * BLOCK_SIZE) = Some data) \/
     (sr_status r = 2 /\ sr_data r = [] /\
      (reliable (F := F) -> ~ accepts (vm_read_only s) (vm_block_count s) op))).
Proof.
  intros Hlba Hblocks (Hn & Hf & _). cbn [accepts].
  unfold execute_scsi, bind at 1, unwrap. cbn [cbw_cb parsed_cbw]. rewrite host_opcode. cbn [ret].
  cbn [SCSI_READ_10 SCSI_TEST_UNIT_READY SCSI_REQUEST_SENSE SCSI_INQUIRY SCSI_MODE_SENSE_6
    SCSI_PREVENT_ALLOW_MEDIUM_REMOVAL SCSI_READ_CAPACITY_10 Z.eqb Pos.eqb].
  destruct (host_cb_blocks SCSI_READ_10 lba blocks) as [S1 S2].
  unfold scsi_read_10, bind at 1 2, unwrap. cbn [cbw_cb parsed_cbw]. rewrite S1, S2. cbn [ret].
  rewrite !from_be_to_be by done. unfold in_unsigned, MAX_TRANSFER_BLOCKS, BLOCK_SIZE in *.
  destruct (Z.ltb_spec 2048 blocks).
  { eexists _, (vm_file s). split; [by destruct s|]. split; [done|]. right. split; [done|].
    split; [done|]. lia. }
  unfold bind at 1, get_state. destruct (Z.ltb_spec (vm_block_count s) (lba + blocks)).
  { eexists _, (vm_file s). split; [by destruct s|]. split; [done|]. right. split; [done|].
    split; [done|]. lia. }
  destruct (do_read_ok s (lba * 512) (blocks * 512)) as (r & f & E & Hfb & Hr & Hrel); [lia..|].
  unfold bind. rewrite E. destruct r as [data|]; eexists _, f; (split; [done|]; split; [done|]).
  - left. split; [lia|]. exists data. split; [done|].
    replace ((lba + blocks) * 512) with (lba * 512 + blocks * 512) by lia. by apply Hr.
  - right. split; [done|]. split; [done|]. intros R _. destruct (Hrel R ltac:(lia)). done.
Qed.

Lemma exchange_read_ok tag lba blocks packet s :
  let op := Op_Read tag lba blocks packet in
  op_ok op -> vm_ok s -> vm_bot_state s = Bot_Idle ->
  exists o s', exchange op s = (Ok o, s') /\ vm_ok s' /\ vm_bot_state s' = Bot_Idle /\
    same_device s s' /\
    disk_step (F := F) (vm_read_only s) (vm_block_count s) (rf_bytes (vm_file s)) op o
      (rf_bytes (vm_file s')).
Proof.
  intros op (Ht & Hlba & Hbl & Hp) Hs E.
  destruct (handle_cbw_ok (host_cbw tag 128 SCSI_READ_10 lba blocks) s) as
    (r0 & s1 & Ecbw & _ & Hs1 & Hdev & Hfb); [|done|done|].
  { unfold host_cbw. do 3 (apply bytes_app; [apply to_le_bytes|]).
    apply bytes_app; [apply (bool_decide_unpack _); reflexivity|].
    by apply (parsed_cbw_ok tag 128 SCSI_READ_10 lba blocks). }
  destruct (host_read_ok tag lba blocks packet s Hlba Hbl Hs) as (r & f & Ex & Hf & Hr).
  unfold exchange, op, bind at 1, msc_bulk_out. cbn [EP_BULK_OUT Z.eqb Pos.eqb negb].
  unfold handle_bulk_out, bind at 1, get_state. rewrite E, Ecbw.
  assert (s1 = finished (parsed_cbw tag 128 SCSI_READ_10 lba blocks) r (set_file f s)) as ->.
  { unfold handle_cbw, bind, unwrap in Ecbw. rewrite host_cbw_parses in Ecbw by done.
    cbn [ret] in Ecbw. rewrite Ex in Ecbw. unfold get_state in Ecbw. cbn in Ecbw.
    rewrite E in Ecbw. cbn [is_data_out] in Ecbw. rewrite finish_cbw_eq in Ecbw. by injection Ecbw. }
  set (s1 := finished _ _ _) in *. assert (vm_pending_data s = []) as Hpd.
  { destruct Hs as (_ & _ & _ & Hph). unfold phase_ok in Hph. rewrite E in Hph. apply Hph. }
  assert (answering s1) as Ha.
  { unfold s1, finished, answering. pose proof (zlen_nonneg (sr_data r)).
    destruct (Z.eqb_spec (zlen (sr_data r)) 0); [right|left].
    - cbn. by destruct (sr_status r =? 0).
    - split; [done|]. change (0 < zlen (sr_data r)). lia. }
  rewrite (finish_exchange_ok tag packet s1 Hp Ha). eexists _, _. split; [done|].
  split; [by apply idle_after_ok|]. split; [done|]. split; [by destruct Hdev|].
  cbn [idle_after set_bot set_pending_csw set_pending_data vm_file]. rewrite Hfb.
  destruct Hr as [(Hacc & data & -> & Hd)|(H2 & Hnil & Hrel)].
  - assert (vm_pending_csw s1 = build_csw tag 0 CSW_STATUS_PASSED) as ->.
    { unfold s1, finished. cbn. pose proof (slice_length _ _ _ _ Hd) as Hl.
      unfold BLOCK_SIZE in Hl. unfold in_unsigned in *.
      assert (saturating_sub (blocks * BLOCK_SIZE) (as_unsigned 32 (zlen data)) = 0) as ->.
      { rewrite as_unsigned_id by (unfold in_unsigned; lia). unfold saturating_sub, BLOCK_SIZE. lia. }
      by destruct (zlen data =? 0). }
    rewrite decide_True by done. split; [done|]. split; [done|]. rewrite Hd. f_equal.
    unfold s1, finished. cbn. destruct (Z.eqb_spec (zlen data) 0); [|done]. cbn. rewrite Hpd.
    by apply zlen_0_nil.
  - rewrite decide_False; [by split|]. unfold s1, finished. rewrite H2, Hnil. cbn. apply failed_csw.
Qed.

Lemma host_write_ok tag lba blocks chunks s : u32 tag -> u32 lba -> u16 blocks ->
  let op := Op_Write tag lba blocks chunks in
  let cbw := parsed_cbw tag 0 SCSI_WRITE_10 lba blocks in
  exists r s', execute_scsi cbw s = (Ok r, s') /\
    (accepts (vm_read_only s) (vm_block_count s) op /\
     s' = set_write_buf [] (set_bot (Bot_DataOut tag lba (blocks * BLOCK_SIZE)) s) \/
     ~ accepts (vm_read_only s) (vm_block_count s) op /\
     s' = s /\ sr_status r = 2 /\ sr_data r = []).
Proof.
  intros Ht Hlba Hblocks. cbn [accepts].
  unfold execute_scsi, bind at 1, unwrap. cbn [cbw_cb parsed_cbw]. rewrite host_opcode. cbn [ret].
  cbn [SCSI_WRITE_10 SCSI_READ_10 SCSI_TEST_UNIT_READY SCSI_REQUEST_SENSE SCSI_INQUIRY
    SCSI_MODE_SENSE_6 SCSI_PREVENT_ALLOW_MEDIUM_REMOVAL SCSI_READ_CAPACITY_10 Z.eqb Pos.eqb].
  destruct (host_cb_blocks SCSI_WRITE_10 lba blocks) as [S1 S2].
  unfold scsi_write_10, bind, unwrap, get_state. cbn [cbw_cb parsed_cbw]. rewrite S1, S2. cbn [ret].
  rewrite !from_be_to_be by done. unfold MAX_TRANSFER_BLOCKS in *.
  destruct (vm_read_only s).
  { eexists _, s. split; [done|]. right. split; [by intros (_ & _ & ?)|done]. }
  destruct (Z.ltb_spec 2048 blocks).
  { eexists _, s. split; [done|]. right. split; [lia|done]. }
  destruct (Z.ltb_spec (vm_block_count s) (lba + blocks)).
  { eexists _, s. split; [done|]. right. split; [lia|done]. }
  eexists _, _. split; [done|]. left. split; [split; [lia|split; [lia|done]]|done].
Qed.

Lemma send_chunks_stalls chunks s : vm_bot_state s = Bot_Status -> send_chunks chunks s = (Ok tt, s).
Proof.
  intros E. destruct chunks as [|c chunks]; [done|]. cbn [send_chunks].
  unfold bind at 1, msc_bulk_out. cbn [EP_BULK_OUT Z.eqb Pos.eqb negb].
  unfold handle_bulk_out, bind, get_state. by rewrite E.
Qed.

(** The last chunk completes the write. *)
Lemma send_chunks_ok tag lba remaining chunks s : vm_ok s ->
  vm_bot_state s = Bot_DataOut tag lba remaining ->
  Forall (fun c => c <> [] /\ bytes c) chunks ->
  zlen (vm_write_buf s ++ concat chunks) = remaining -> zlen (vm_write_buf s) < remaining ->
  let sent := vm_write_buf s ++ concat chunks in
  exists s', send_chunks chunks s = (Ok tt, s') /\ vm_ok s' /\ same_device s s' /\
    vm_bot_state s' = Bot_Status /\
    same_outside (lba * BLOCK_SIZE) (zlen sent) (rf_bytes (vm_file s)) (rf_bytes (vm_file s')) /\
    (vm_pending_csw s' = build_csw tag 0 CSW_STATUS_PASSED /\
       rf_bytes (vm_file s') = write_at (rf_bytes (vm_file s)) (lba * BLOCK_SIZE) sent \/
     vm_pending_csw s' = build_csw tag (as_unsigned 32 remaining) CSW_STATUS_FAILED /\
       ~ reliable (F := F)).
Proof.
  intros Hs E Hc. revert s Hs E. induction Hc as [|c chunks [Hne Hb] Hc IH]; intros s Hs E Hl Hlt; cbn.
  { cbn in Hl. rewrite app_nil_r in Hl. lia. }
  unfold bind at 1, msc_bulk_out. cbn [EP_BULK_OUT Z.eqb Pos.eqb negb].
  unfold handle_bulk_out, bind at 1, get_state. rewrite E. cbn [concat] in *. rewrite app_assoc in *.
  destruct (handle_data_out_ok tag lba remaining c s Hb Hs E) as (s1 & -> & Hs1 & Hdev & Hr).
  cbn [tr_success_empty tr_status]. rewrite zlen_app in Hl. pose proof (zlen_nonneg (concat chunks)).
  destruct (Z.leb_spec remaining (zlen (vm_write_buf s ++ c))).
  - assert (concat chunks = []) as Hnil by (apply zlen_0_nil; lia). rewrite Hnil, app_nil_r.
    destruct Hr as (Ho & Hst & Hr). rewrite send_chunks_stalls by done.
    exists s1. by split_and!.
  - subst s1. destruct (IH (set_write_buf (vm_write_buf s ++ c) s) Hs1) as (s2 & -> & ? & ? & ? & ? & ?).
    + done.
    + cbn. rewrite zlen_app. lia.
    + cbn. lia.
    + exists s2. by split_and!.
Qed.

(** A write of no blocks has no packets. *)
Lemma no_chunks (chunks : list (list Z)) : Forall (fun c => c <> [] /\ bytes c) chunks ->
  zlen (concat chunks) = 0 -> chunks = [].
Proof.
  destruct 1 as [|c chunks [Hne _] _]; [done|]. cbn [concat]. rewrite zlen_app. intros Hl. exfalso.
  apply Hne, zlen_0_nil. pose proof (zlen_nonneg c). pose proof (zlen_nonneg (concat chunks)). lia.
Qed.

Lemma exchange_write_ok tag lba blocks chunks s :
  let op := Op_Write tag lba blocks chunks in
  op_ok op -> vm_ok s -> vm_bot_state s = Bot_Idle ->
  exists o s', exchange op s = (Ok o, s') /\ vm_ok s' /\ (o <> Stuck -> vm_bot_state s' = Bot_Idle) /\
    same_device s s' /\
    disk_step (F := F) (vm_read_only s) (vm_block_count s) (rf_bytes (vm_file s)) op o
      (rf_bytes (vm_file s')).
Proof.
  intros op (Ht & Hlba & Hbl & Hlen & Hch) Hs E.
  destruct (handle_cbw_ok (host_cbw tag 0 SCSI_WRITE_10 lba blocks) s) as
    (r0 & s1 & Ecbw & _ & Hs1 & Hdev & Hfb); [|done|done|].
  { unfold host_cbw. do 3 (apply bytes_app; [apply to_le_bytes|]).
    apply bytes_app; [apply (bool_decide_unpack _); reflexivity|].
    by apply (parsed_cbw_ok tag 0 SCSI_WRITE_10 lba blocks). }
  destruct (host_write_ok tag lba blocks chunks s Ht Hlba Hbl) as (r & s0 & Ex & Hr).
  unfold exchange, op, bind at 1, msc_bulk_out at 1. cbn [EP_BULK_OUT Z.eqb Pos.eqb negb].
  unfold handle_bulk_out at 1, bind at 1, get_state. rewrite E, Ecbw. cbn.
  unfold handle_cbw, bind, unwrap in Ecbw. rewrite host_cbw_parses in Ecbw by done.
  cbn [ret] in Ecbw. rewrite Ex in Ecbw. unfold get_state in Ecbw.
  destruct Hr as [(Hacc & ->)|(Hacc & -> & H2 & Hnil)].
  - cbn in Ecbw. injection Ecbw as <- <-.
    destruct (decide (blocks = 0)) as [->|Hnz].
    { rewrite (no_chunks chunks Hch) by lia. exists Stuck. eexists. split; [reflexivity|]. by split_and!. }
    destruct (send_chunks_ok tag lba (blocks * BLOCK_SIZE) chunks
      (set_write_buf [] (set_bot (Bot_DataOut tag lba (blocks * BLOCK_SIZE)) s)) Hs1 eq_refl Hch)
      as (s2 & Esend & Hs2 & Hdev2 & Hst & Ho & Hr); [done|unfold in_unsigned in Hbl; change (0 < blocks * 512); lia|].
    unfold bind. rewrite Esend. cbn in Hr, Ho. rewrite Hlen in Ho.
    assert (answering s2) as Ha.
    { right. split; [done|]. destruct Hs2 as (_ & _ & _ & Hp). unfold phase_ok in Hp.
      rewrite Hst in Hp. apply Hp. }
    rewrite (finish_exchange_ok tag 512 s2 ltac:(lia) Ha). eexists _, _. split; [done|].
    split; [by apply idle_after_ok|]. split; [done|]. split; [by destruct Hdev2|]. cbn [idle_after].
    destruct Ha as [[Ha _]|[_ Hpd]]; [congruence|].
    destruct Hr as [[-> Hw]|[-> Hrel]].
    + rewrite decide_True by done. split; [done|]. split; [unfold in_unsigned in Hbl; lia|]. by split.
    + rewrite decide_False by apply failed_csw. split; [done|]. split; [tauto|]. by split.
  - rewrite E in Ecbw. cbn [is_data_out] in Ecbw. rewrite finish_cbw_eq in Ecbw.
    injection Ecbw as _ <-. assert (vm_pending_data s = []) as Hpd.
    { destruct Hs as (_ & _ & _ & Hph). unfold phase_ok in Hph. rewrite E in Hph. apply Hph. }
    unfold finished in *. rewrite H2, Hnil in *. cbn [Z.eqb negb andb zlen length Z.of_nat] in *.
    unfold bind. rewrite send_chunks_stalls by done. rewrite finish_exchange_ok; [|lia|by right].
    eexists _, _. split; [done|]. split; [apply idle_after_ok; [exact Hs1|by right]|].
    split; [done|]. split; [done|]. cbn [vm_pending_csw set_bot set_pending_csw].
    rewrite decide_False by apply failed_csw. cbn. split; [apply same_outside_refl|]. by split_and!.
Qed.

Lemma exchange_ok op s : op_ok op -> vm_ok s -> vm_bot_state s = Bot_Idle ->
  exists o s', exchange op s = (Ok o, s') /\ vm_ok s' /\ (o <> Stuck -> vm_bot_state s' = Bot_Idle) /\
    same_device s s' /\
    disk_step (F := F) (vm_read_only s) (vm_block_count s) (rf_bytes (vm_file s)) op o
      (rf_bytes (vm_file s')).
Proof.
  destruct op; [|apply exchange_write_ok]. intros Ho Hs E.
  destruct (exchange_read_ok tag lba blocks packet s Ho Hs E) as (o & s' & Ex & Hs' & E' & Hr).
  exists o, s'. destruct Hr. by split_and!.
Qed.

Lemma exchanges_ok ops s : Forall op_ok ops -> vm_ok s -> vm_bot_state s = Bot_Idle ->
  exists os s', exchanges ops s = (Ok os, s') /\ vm_ok s' /\ (Stuck ∉ os -> vm_bot_state s' = Bot_Idle) /\
    disk_runs (F := F) (vm_read_only s) (vm_block_count s) (rf_bytes (vm_file s)) ops os
      (rf_bytes (vm_file s')).
Proof.
  intros Ho. revert s. induction Ho as [|op ops Ho _ IH]; intros s Hs E.
  { exists [], s. by split_and!. }
  destruct (exchange_ok op s Ho Hs E) as (o & s1 & Ex & Hs1 & E1 & (Hro & Hbc) & Hstep).
  cbn [exchanges]. unfold bind at 1. rewrite Ex. destruct (decide (o = Stuck)) as [->|Hne].
  { exists [Stuck], s1. split; [done|]. split; [done|]. split; [by intros []%not_elem_of_cons|].
    cbn [disk_runs]. by eexists. }
  destruct (IH s1 Hs1 (E1 Hne)) as (os & s2 & Exs & Hs2 & E2 & Hrun).
  exists (o :: os), s2. split; [destruct o; unfold bind; by rewrite ?Exs|].
  split; [done|]. split; [by intros [_ ?]%not_elem_of_cons; apply E2|].
  rewrite Hro, Hbc in Hrun. cbn [disk_runs]. eexists. split; [done|]. by destruct o.
Qed.

Lemma msc_open_ok file read_only : vm_ok (msc_open file read_only).
Proof.
  pose proof (zlen_nonneg (rf_bytes file)). unfold vm_ok, msc_open, BLOCK_SIZE.
  cbn -[Z.div Z.mul]. split; [by apply Z.div_pos|]. split; [|by split_and!].
  rewrite Z.mul_comm. by apply Z.mul_div_le.
Qed.

End Facts.

Section Control.

Definition setup_ok (setup : ControlSetup) : Prop := u16 (cs_length setup) /\ u16 (cs_value setup).

(** A transfer the channel can pass on. *)
Definition transfer_ok (t : transfer) : Prop :=
  match t with
  | T_Control _ _ | T_Reset => True
  | T_BulkIn _ max_len => 0 <= max_len
  | T_BulkOut _ data => bytes data
  end.

Definition answer_ok (r : TransferResult) : Prop :=
  bytes (tr_data r) /\ zlen (tr_data r) <= max_transfer.

Lemma answer_nil status : answer_ok (mkTransferResult status []).
Proof. split; [constructor|done]. Qed.

Lemma answer_short data : bytes data -> zlen data <= 64 -> answer_ok (tr_success data).
Proof. intros ??. split; [done|]. change max_transfer with 1048576. cbn [tr_data tr_success]. lia. Qed.

Lemma answer_take n data : bytes data -> zlen data <= 64 -> answer_ok (tr_success (take n data)).
Proof. intros ??. apply answer_short; [by apply bytes_take|by apply zlen_take_le]. Qed.

Lemma string_descriptor_ok index max_len : answer_ok (get_string_descriptor index max_len).
Proof.
  unfold get_string_descriptor. destruct (index =? 0).
  { apply answer_short; [apply (bool_decide_unpack _); reflexivity|done]. }
  unfold string_text. destruct index as [|[[]|[]|]|]; try apply answer_nil;
    apply answer_take; try done; apply (bool_decide_unpack _); reflexivity.
Qed.

Lemma handle_control_ok setup : answer_ok (handle_control setup).
Proof.
  assert (forall a b c, answer_ok (get_descriptor a b c)) as Hd.
  { intros a b c. unfold get_descriptor. destruct a as [|[[]|[]|]|]; try apply answer_nil;
      try apply string_descriptor_ok; apply answer_take; try done;
      apply (bool_decide_unpack _); reflexivity. }
  assert (forall data, bytes data -> zlen data <= 64 -> answer_ok (tr_success data)) as Hs
    by apply answer_short.
  unfold handle_control. destruct (Z.land _ 3) as [|[]|]; try apply answer_nil.
  - unfold handle_standard_request. destruct (_ && _); [apply Hd|].
    destruct (_ =? _); [apply answer_nil|]. destruct (_ && _); [|apply answer_nil].
    apply Hs; [apply (bool_decide_unpack _); reflexivity|done].
  - unfold handle_class_request. destruct (_ && _); [|destruct (_ =? _); apply answer_nil].
    apply Hs; [apply (bool_decide_unpack _); reflexivity|done].
Qed.

End Control.

Section Transfers.
Context {F : Type} `{RawFileLaws F}.

Lemma msc_reset_ok (s : VirtualMsc F) : vm_ok s ->
  exists s', msc_reset s = (Ok tt, s') /\ vm_ok s' /\ same_device s s' /\ vm_file s' = vm_file s /\
    vm_bot_state s' = Bot_Idle.
Proof.
  intros (Hn & Hf & Hs & Hp). eexists. split; [done|]. by repeat split.
Qed.

(** Every byte sent in the data phase is written, whatever the command
    announced: more than [remaining] goes past the blocks that were checked, and
    behind a WRITE(10) of no blocks, which is answered only once data comes, the
    next command block is written to the disk. *)
Lemma data_out_writes_everything tag lba remaining data (s : VirtualMsc F) :
  vm_ok s -> vm_bot_state s = Bot_DataOut tag lba remaining -> vm_write_buf s = [] ->
  bytes data -> remaining <= zlen data -> reliable (F := F) ->
  exists s', msc_bulk_out EP_BULK_OUT data s = (Ok tr_success_empty, s') /\
    rf_bytes (vm_file s') = write_at (rf_bytes (vm_file s)) (lba * BLOCK_SIZE) data.
Proof.
  intros Hs E Hw Hd Hl R. unfold msc_bulk_out. cbn [EP_BULK_OUT Z.eqb Pos.eqb negb].
  unfold handle_bulk_out, bind at 1, get_state. rewrite E.
  destruct (handle_data_out_ok tag lba remaining data s Hd Hs E) as (s' & -> & _ & _ & Hr).
  rewrite Hw, app_nil_l in Hr. rewrite (proj2 (Z.leb_le _ _) Hl) in Hr.
  exists s'. split; [done|]. destruct Hr as (_ & _ & [[_ Hr]|[_ Hr]]); [done|tauto].
Qed.

(** One transfer: what may change on the disk. *)
Definition transfer_post (s : VirtualMsc F) (t : transfer) (r : TransferResult)
    (s' : VirtualMsc F) : Prop :=
  vm_ok s' /\ same_device s s' /\ answer_ok r /\
  (rf_bytes (vm_file s') = rf_bytes (vm_file s) \/
   exists tag lba remaining data, t = T_BulkOut EP_BULK_OUT data /\
     vm_bot_state s = Bot_DataOut tag lba remaining /\ write_accepted s tag lba remaining /\
     same_outside (lba * BLOCK_SIZE) (zlen (vm_write_buf s) + zlen data)
       (rf_bytes (vm_file s)) (rf_bytes (vm_file s'))).

Lemma bulk_out_ok endpoint data (s : VirtualMsc F) : bytes data -> vm_ok s ->
  exists r s', msc_bulk_out endpoint data s = (Ok r, s') /\
    transfer_post s (T_BulkOut endpoint data) r s'.
Proof.
  intros Hd Hs. unfold msc_bulk_out. destruct (Z.eqb_spec endpoint EP_BULK_OUT) as [->|]; cbn [negb]; cycle 1.
  { exists tr_stall, s. split; [done|]. split; [done|]. split; [done|]. split; [apply answer_nil|by left]. }
  unfold handle_bulk_out, bind at 1, get_state. destruct (vm_bot_state s) as [|tag lba remaining| |] eqn:E.
  - destruct (handle_cbw_ok data s Hd Hs E) as ([st d] & s' & -> & Hr & ? & ? & ?). cbn in Hr. subst d.
    eexists _, s'. split; [done|]. split; [done|]. split; [done|]. split; [apply answer_nil|by left].
  - destruct (handle_data_out_ok tag lba remaining data s Hd Hs E) as (s' & -> & Hs' & Hdev & Hr).
    eexists _, s'. split; [done|]. split; [done|]. split; [done|]. split; [apply answer_nil|].
    destruct (remaining <=? _); [|left; by subst s'].
    right. exists tag, lba, remaining, data. split; [done|]. split; [done|].
    destruct Hs as (_ & _ & _ & Hp). unfold phase_ok in Hp. rewrite E in Hp.
    split; [apply Hp|]. rewrite <- zlen_app. apply Hr.
  - exists tr_stall, s. split; [done|]. split; [done|]. split; [done|]. split; [apply answer_nil|by left].
  - exists tr_stall, s. split; [done|]. split; [done|]. split; [done|]. split; [apply answer_nil|by left].
Qed.

Lemma run_transfer_ok t (s : VirtualMsc F) : transfer_ok t -> vm_ok s ->
  exists r s', run_transfer t s = (Ok r, s') /\ transfer_post s t r s'.
Proof.
  intros Ht Hs. destruct t as [setup data|endpoint max_len|endpoint data|]; cbn [run_transfer].
  - eexists _, s. split; [done|]. split; [done|]. split; [done|]. split; [apply handle_control_ok|by left].
  - unfold msc_bulk_in. destruct (negb (endpoint =? EP_BULK_IN)).
    + exists tr_stall, s. split; [done|]. split; [done|]. split; [done|]. split; [apply answer_nil|by left].
    + destruct (handle_bulk_in_ok max_len s Ht Hs) as (r & s' & -> & ? & ? & ? & ? & ?).
      exists r, s'. split; [done|]. split; [done|]. split; [done|]. split; [by split|by left].
  - by apply bulk_out_ok.
  - destruct (msc_reset_ok s Hs) as (s' & E & ? & ? & Hf & _). unfold bind. rewrite E.
    eexists _, s'. split; [done|]. split; [done|]. split; [done|]. split; [apply answer_nil|].
    left. by rewrite Hf.
Qed.

End Transfers.

(** * A file in memory *)

Record MemFile : Type := mkMemFile { mf_raw : list Z; mf_pos : Z }.

Definition mf_bytes (f : MemFile) : list Z := map (fun b => b mod 256) (mf_raw f).

#[export] Instance MemFile_file : RawFile MemFile := {|
  rf_bytes := mf_bytes;
  rf_pos := mf_pos;
  rf_seek f offset := (true, mkMemFile (mf_raw f) offset);
  rf_read_exact f n :=
    match slice (mf_bytes f) (mf_pos f) (mf_pos f + n) with
    | Some data => (Some data, mkMemFile (mf_raw f) (mf_pos f + n))
    | None => (None, f)
    end;
  rf_write_all f data :=
    (true, mkMemFile (write_at (mf_raw f) (mf_pos f) data) (mf_pos f + zlen data));
  rf_flush f := (true, f)
|}.

Lemma write_at_same_outside bs pos data : 0 <= pos ->
  same_outside pos (zlen data) bs (write_at bs pos data).
Proof.
  intros Hp. pose proof (zlen_nonneg data). unfold write_at. split.
  - rewrite !zlen_app, zlen_take, zlen_drop, zlen_app, zlen_replicate. lia.
  - intros i Hi [Ho|Ho].
    + rewrite lookup_app_l by (rewrite length_take, length_app, length_replicate; unfold zlen in *; lia).
      rewrite lookup_take_lt by lia. by rewrite lookup_app_l.
    + assert (length (take (Z.to_nat pos) (bs ++ replicate (Z.to_nat (pos - zlen bs)) 0)) = Z.to_nat pos)
        as Hl by (rewrite length_take, length_app, length_replicate; unfold zlen in *; lia).
      rewrite lookup_app_r, Hl by lia. rewrite lookup_app_r by (unfold zlen in *; lia).
      rewrite lookup_drop. f_equal. unfold zlen in *. lia.
Qed.

Lemma map_bytes bs : bytes bs -> map (fun b => b mod 256) bs = bs.
Proof.
  induction 1 as [|b bs Hb _ IH]; [done|]. cbn. rewrite IH. f_equal.
  apply Z.mod_small. unfold in_unsigned in Hb. lia.
Qed.

Lemma map_write_at bs pos data : bytes data ->
  map (fun b => b mod 256) (write_at bs pos data) =
    write_at (map (fun b => b mod 256) bs) pos data.
Proof.
  intros Hd. unfold write_at. rewrite !map_app, (map_bytes data) by done. rewrite zlen_map.
  rewrite <- firstn_map, <- skipn_map, map_app. do 3 f_equal. apply (fmap_replicate (fun b => b mod 256)).
Qed.

#[export] Instance MemFile_laws : RawFileLaws MemFile.
Proof.
  split.
  - intros f. cbn. unfold mf_bytes. apply list.Forall_fmap. apply list.Forall_true. intros b. cbn.
    unfold in_unsigned. apply Z.mod_pos_bound. lia.
  - intros f offset Ho. by split.
  - intros f n Hn. cbn. destruct (slice _ _ _) eqn:E; [|by split]. split; [done|]. by intros ? [= <-].
  - intros f data Hd Hp. cbn in *. unfold mf_bytes. cbn. rewrite map_write_at by done.
    pose proof (write_at_same_outside (map (fun b => b mod 256) (mf_raw f)) (mf_pos f) data Hp).
    by split.
Qed.


(** * Theorems *)

(** C35: [VirtualMsc] is a disk, but for writes of no blocks.  A host runs any
    sequence of READ(10) and WRITE(10) commands over Bulk-Only Transport: any
    blocks, none, in range or not, writes with as much data as they announce, cut
    into any non-empty packets, any packet size for reading.  A WRITE(10) of no
    blocks that is in range and allowed leaves the host stuck: bulk IN gives an
    empty packet where the status is due, nothing is written, and the device waits
    for data.  Every other command is answered with the device idle again, and the
    outcomes and the file's bytes are those of the abstract disk: a read that
    passes returns what the file holds at those blocks, a write that passes
    replaces exactly them, a command out of range, too large or on a read-only disk
    fails and changes nothing, and a command in range fails only when the file
    does, having changed nothing outside its blocks. *)
Theorem virtual_disk_refines {F} `{RawFileLaws F} (file : F) (read_only : bool)
  (ops : list disk_op) (Hops : Forall op_ok ops) :
  exists os s', exchanges ops (msc_open file read_only) = (Ok os, s') /\
    (Stuck ∉ os -> vm_bot_state s' = Bot_Idle) /\
    disk_runs (F := F) read_only (zlen (rf_bytes file) / BLOCK_SIZE) (rf_bytes file) ops os
      (rf_bytes (vm_file s')).
Proof.
  destruct (exchanges_ok ops _ Hops (msc_open_ok file read_only) eq_refl) as (os & s' & E & _ & Hi & Hr).
  exists os, s'. by split_and!.
Qed.

(** C37: whatever a guest sends the device - control transfers, bulk transfers of
    any bytes to any endpoint in any order, resets - nothing panics and the
    device keeps its invariant: the phase of the transport and its buffers
    agree, a data phase has an accepted write whose blocks are on the disk, and
    no buffer or answer holds more than [MAX_TRANSFER_BLOCKS] blocks.  Only data
    for an accepted write, never on a read-only disk, changes the file, and
    never before the write's first block or behind the data sent for it. *)
Theorem virtual_disk_invariant {F} `{RawFileLaws F} :
  (forall (file : F) read_only, vm_ok (msc_open file read_only)) /\
  (forall (s : VirtualMsc F) t, vm_ok s -> transfer_ok t ->
     exists r s', run_transfer t s = (Ok r, s') /\ transfer_post s t r s').
Proof. split; [apply msc_open_ok|]. intros s t Hs Ht. by apply run_transfer_ok. Qed.

(** * Witnesses *)

Definition sample_disk : MemFile := mkMemFile (replicate 1536 7) 0.

Definition sample_ops : list disk_op :=
  [ Op_Write 1 1 1 [replicate 500 1; replicate 12 2];
    Op_Read 2 1 2 600;
    Op_Read 3 2 2 512;
    Op_Write 4 9 1 [replicate 512 3];
    Op_Write 5 0 0 [];
    Op_Read 6 0 1 512 ].

Lemma sample_ops_ok : Forall op_ok sample_ops.
Proof.
  repeat (apply list.Forall_cons_2; [|]); try apply list.Forall_nil_2; cbn;
    unfold in_unsigned; split_and!; try lia; try reflexivity;
    repeat (apply list.Forall_cons_2; [split; [done|apply (bool_decide_unpack _); reflexivity]|]);
    apply list.Forall_nil_2.
Qed.

Lemma virtual_disk_refines_witness :
  fst (exchanges sample_ops (msc_open sample_disk false)) =
    Ok [ Passed []; Passed (replicate 500 1 ++ replicate 12 2 ++ replicate 512 7); Failed; Failed; Stuck ] /\
  exists os s', exchanges sample_ops (msc_open sample_disk false) = (Ok os, s') /\
    disk_runs (F := MemFile) false 3 (replicate 1536 7) sample_ops os (rf_bytes (vm_file s')).
Proof.
  split; [vm_compute; reflexivity|].
  destruct (virtual_disk_refines sample_disk false sample_ops sample_ops_ok) as (os & s' & E & _ & Hr).
  exists os, s'. split; [exact E|exact Hr].
Defined.

Lemma virtual_disk_invariant_witness :
  vm_ok (snd (run_transfer (T_BulkOut EP_BULK_OUT (host_cbw 5 0 SCSI_WRITE_10 1 1))
                (msc_open sample_disk false))) /\
  is_data_out (vm_bot_state
    (snd (run_transfer (T_BulkOut EP_BULK_OUT (host_cbw 5 0 SCSI_WRITE_10 1 1))
            (msc_open sample_disk false)))) = true.
Proof.
  split; [|vm_compute; reflexivity].
  destruct (virtual_disk_invariant (F := MemFile)) as [Hopen Hstep].
  destruct (Hstep (msc_open sample_disk false)
    (T_BulkOut EP_BULK_OUT (host_cbw 5 0 SCSI_WRITE_10 1 1)) (Hopen sample_disk false))
    as (r & s' & E & Hs' & _).
  - apply (bool_decide_unpack _). vm_compute. reflexivity.
  - rewrite E. exact Hs'.
Defined.

(** The next command block lands on the disk behind a write of no blocks, and a
    write of one block is not cut to its length. *)
Lemma sample_zero_block_write :
  let s1 := snd (msc_bulk_out EP_BULK_OUT (host_cbw 1 0 SCSI_WRITE_10 0 0)
                   (msc_open sample_disk false)) in
  fst (msc_bulk_in EP_BULK_IN 13 s1) = Ok (tr_success []) /\
  take 31 (rf_bytes (vm_file (snd (msc_bulk_out EP_BULK_OUT (host_cbw 2 128 SCSI_READ_10 0 1) s1)))) =
    host_cbw 2 128 SCSI_READ_10 0 1.
Proof. split; vm_compute; reflexivity. Qed.
