(* ===== verification/UsbChannel.v ===== *)
(** The usbredir channel: [shakenfist-spice-renderer/src/channels/usbredir.rs]
    and the device trait of [usb/mod.rs].

    The channel takes usbredir messages from its parser, has the attached device
    do what they ask and sends the answers.  The trait [UsbDeviceBackend] is a
    class: the channel's theorems use [BackendLaws], which the virtual disk
    meets ([Virtual_laws]).  Not modelled: the select loop, the clock, counters
    and snapshots for diagnostics, logging; a write to the socket succeeds. *)
From Stdlib Require Import ZArith Lia.
From stdpp Require Import base numbers list gmap tactics.
From S2P Require Import Prelude Reader Wire MsgCommon Utf8 UsbMessages Usbredir VirtualMsc.

Open Scope Z_scope.
Open Scope rust_scope.

(** * The device trait

    An error of an operation is the value [Err tt]. *)

Class UsbDeviceBackend (B : Type) : Type := {
  device_info : B -> DeviceConnect;
  endpoint_info : B -> EpInfo;
  interface_info : B -> InterfaceInfo;
  set_configuration : Z -> M unit B Status;
  get_configuration : M unit B Z;
  set_alt_setting : Z -> Z -> M unit B Status;
  get_alt_setting : Z -> M unit B Z;
  reset : M unit B unit;
  control_transfer : ControlSetup -> list Z -> M unit B TransferResult;
  bulk_in : Z -> Z -> M unit B TransferResult;
  bulk_out : Z -> list Z -> M unit B TransferResult;
  start_interrupt_in : Z -> M unit B unit;
  interrupt_out : Z -> list Z -> M unit B TransferResult
}.

Definition VirtualMsc_impl {F} `{RawFile F} : UsbDeviceBackend (VirtualMsc F) := {|
  device_info _ := msc_device_info;
  endpoint_info _ := msc_endpoint_info;
  interface_info _ := msc_interface_info;
  set_configuration := msc_set_configuration;
  get_configuration := msc_get_configuration;
  set_alt_setting := msc_set_alt_setting;
  get_alt_setting := msc_get_alt_setting;
  reset := msc_reset;
  control_transfer := msc_control_transfer;
  bulk_in := msc_bulk_in;
  bulk_out := msc_bulk_out;
  start_interrupt_in _ := throw tt;
  interrupt_out := msc_interrupt_out
|}.
#[export] Existing Instance VirtualMsc_impl.

(** A real device is a library's. *)
Inductive DeviceBackend (R V : Type) : Type :=
| Real (d : R)
| Virtual (d : V).
Arguments Real {R V}.
Arguments Virtual {R V}.

(** An operation on whichever device it is. *)
Definition dispatch {R V A} (real : M unit R A) (virtual : M unit V A)
    : M unit (DeviceBackend R V) A :=
  fun self =>
    match self with
    | Real d => let (a, d) := real d in (a, Real d)
    | Virtual d => let (a, d) := virtual d in (a, Virtual d)
    end.

Definition DeviceBackend_impl {R V} `{UsbDeviceBackend R, UsbDeviceBackend V}
    : UsbDeviceBackend (DeviceBackend R V) := {|
  device_info self := match self with Real d => device_info d | Virtual d => device_info d end;
  endpoint_info self := match self with Real d => endpoint_info d | Virtual d => endpoint_info d end;
  interface_info self :=
    match self with Real d => interface_info d | Virtual d => interface_info d end;
  set_configuration c := dispatch (set_configuration c) (set_configuration c);
  get_configuration := dispatch get_configuration get_configuration;
  set_alt_setting i a := dispatch (set_alt_setting i a) (set_alt_setting i a);
  get_alt_setting i := dispatch (get_alt_setting i) (get_alt_setting i);
  reset := dispatch reset reset;
  control_transfer setup data := dispatch (control_transfer setup data) (control_transfer setup data);
  bulk_in ep n := dispatch (bulk_in ep n) (bulk_in ep n);
  bulk_out ep data := dispatch (bulk_out ep data) (bulk_out ep data);
  start_interrupt_in ep := dispatch (start_interrupt_in ep) (start_interrupt_in ep);
  interrupt_out ep data := dispatch (interrupt_out ep data) (interrupt_out ep data)
|}.
#[export] Existing Instance DeviceBackend_impl.

Definition is_ep_in (ep : Z) : bool := 16 <=? ep.

Definition usbredir_ep_to_usb (ep : Z) : Z := if 16 <=? ep then Z.lor 128 (ep - 16) else ep.

Definition usb_ep_to_usbredir (addr : Z) : Z :=
  if negb (Z.land addr 128 =? 0) then 16 + Z.land addr 15 else Z.land addr 15.

(** [status as u8] *)
Definition status_u8 (s : Status) : Z :=
  match s with
  | Status_Success => 0
  | Status_Cancelled => 1
  | Status_Inval => 2
  | Status_Ioerror => 3
  | Status_Stall => 4
  | Status_Timeout => 5
  | Status_Babble => 6
  end.

(** * Data *)

Definition spicevmc_server_DATA : Z := 101.
Definition spicevmc_server_COMPRESSED_DATA : Z := 102.
Definition spicevmc_server_SET_ACK : Z := 3.
Definition spicevmc_server_PING : Z := 4.
Definition spicevmc_server_NOTIFY : Z := 7.

Definition spicevmc_client_DATA : Z := 101.
Definition spicevmc_client_ACK_SYNC : Z := 1.
Definition spicevmc_client_ACK : Z := 2.
Definition spicevmc_client_PONG : Z := 3.

Definition RYLL_CAPS : Z := Z.lor (Z.lor (Z.shiftl 1 1) (Z.shiftl 1 3)) (Z.shiftl 1 4).

(** The text of ryll's hello, "ryll usb-redir 0.1". *)
Definition hello_version : list Z :=
  [114; 121; 108; 108; 32; 117; 115; 98; 45; 114; 101; 100; 105; 114; 32; 48; 46; 49].

Record VirtualDiskConfig : Type := mkVirtualDiskConfig {
  vd_path : list Z;
  vd_read_only : bool
}.

Record RedirectedDevice : Type := mkRedirectedDevice {
  rd_vendor_id : Z;
  rd_product_id : Z;
  rd_device_class : Z;
  rd_bytes_to_guest : Z;
  rd_bytes_from_guest : Z
}.

Inductive UsbCommand : Type :=
| ConnectPhysical (bus address : Z)
| ConnectVirtualDisk (disk : VirtualDiskConfig)
| DisconnectDevice.

Record InterruptData : Type := mkInterruptData {
  id_endpoint : Z;
  id_data : list Z;
  id_status : Status
}.

(** What the channel tells the application; the texts are left out. *)
Inductive UsbEvent : Type :=
| UsbConnectFailed
| UsbDeviceConnected
| UsbDeviceDisconnected
| UsbNotification (severity : NotifySeverity) (message : list Z).

Inductive ChannelError : Type :=
| Ce_Parser (e : ParserError)
| Ce_Decode (e : LinkError)
| Ce_Backend
| Ce_Lz4.

Record UsbredirChannel (B : Type) : Type := mkUsbredirChannel {
  uc_ack : Z * Z;
  uc_pings : Z * Z;
  uc_parser : UsbredirParser;
  uc_server_caps : Z;
  uc_client_caps : Z;
  uc_backend : option B;
  uc_devices : list RedirectedDevice;
  uc_totals : Z * Z;
  uc_auto_disks : list VirtualDiskConfig;
  uc_interrupts : gset Z;
  (** The bytes of each message written to the socket, and the events. *)
  uc_sent : list (list Z);
  uc_events : list UsbEvent
}.
Arguments mkUsbredirChannel {B}.
Arguments uc_ack {B}.
Arguments uc_pings {B}.
Arguments uc_parser {B}.
Arguments uc_server_caps {B}.
Arguments uc_client_caps {B}.
Arguments uc_backend {B}.
Arguments uc_devices {B}.
Arguments uc_totals {B}.
Arguments uc_auto_disks {B}.
Arguments uc_interrupts {B}.
Arguments uc_sent {B}.
Arguments uc_events {B}.

Definition channel_new {B} (auto_connect_disks : list VirtualDiskConfig) : UsbredirChannel B :=
  mkUsbredirChannel (0, 0) (0, 0) up_new 0 0 None [] (0, 0) auto_connect_disks ∅ [] [].

Definition set_ack {B} (a : Z * Z) (c : UsbredirChannel B) : UsbredirChannel B :=
  mkUsbredirChannel a (uc_pings c) (uc_parser c) (uc_server_caps c) (uc_client_caps c)
    (uc_backend c) (uc_devices c) (uc_totals c) (uc_auto_disks c) (uc_interrupts c) (uc_sent c)
    (uc_events c).
Definition set_pings {B} (p : Z * Z) (c : UsbredirChannel B) : UsbredirChannel B :=
  mkUsbredirChannel (uc_ack c) p (uc_parser c) (uc_server_caps c) (uc_client_caps c)
    (uc_backend c) (uc_devices c) (uc_totals c) (uc_auto_disks c) (uc_interrupts c) (uc_sent c)
    (uc_events c).
Definition set_parser {B} (p : UsbredirParser) (c : UsbredirChannel B) : UsbredirChannel B :=
  mkUsbredirChannel (uc_ack c) (uc_pings c) p (uc_server_caps c) (uc_client_caps c)
    (uc_backend c) (uc_devices c) (uc_totals c) (uc_auto_disks c) (uc_interrupts c) (uc_sent c)
    (uc_events c).
Definition set_caps {B} (server client : Z) (c : UsbredirChannel B) : UsbredirChannel B :=
  mkUsbredirChannel (uc_ack c) (uc_pings c) (uc_parser c) server client
    (uc_backend c) (uc_devices c) (uc_totals c) (uc_auto_disks c) (uc_interrupts c) (uc_sent c)
    (uc_events c).
Definition set_backend {B} (b : option B) (c : UsbredirChannel B) : UsbredirChannel B :=
  mkUsbredirChannel (uc_ack c) (uc_pings c) (uc_parser c) (uc_server_caps c) (uc_client_caps c)
    b (uc_devices c) (uc_totals c) (uc_auto_disks c) (uc_interrupts c) (uc_sent c)
    (uc_events c).
Definition set_devices {B} (d : list RedirectedDevice) (c : UsbredirChannel B) : UsbredirChannel B :=
  mkUsbredirChannel (uc_ack c) (uc_pings c) (uc_parser c) (uc_server_caps c) (uc_client_caps c)
    (uc_backend c) d (uc_totals c) (uc_auto_disks c) (uc_interrupts c) (uc_sent c)
    (uc_events c).
Definition set_totals {B} (t : Z * Z) (c : UsbredirChannel B) : UsbredirChannel B :=
  mkUsbredirChannel (uc_ack c) (uc_pings c) (uc_parser c) (uc_server_caps c) (uc_client_caps c)
    (uc_backend c) (uc_devices c) t (uc_auto_disks c) (uc_interrupts c) (uc_sent c)
    (uc_events c).
Definition set_auto_disks {B} (d : list VirtualDiskConfig) (c : UsbredirChannel B)
    : UsbredirChannel B :=
  mkUsbredirChannel (uc_ack c) (uc_pings c) (uc_parser c) (uc_server_caps c) (uc_client_caps c)
    (uc_backend c) (uc_devices c) (uc_totals c) d (uc_interrupts c) (uc_sent c)
    (uc_events c).
Definition set_interrupts {B} (i : gset Z) (c : UsbredirChannel B) : UsbredirChannel B :=
  mkUsbredirChannel (uc_ack c) (uc_pings c) (uc_parser c) (uc_server_caps c) (uc_client_caps c)
    (uc_backend c) (uc_devices c) (uc_totals c) (uc_auto_disks c) i (uc_sent c)
    (uc_events c).
Definition set_sent {B} (s : list (list Z)) (c : UsbredirChannel B) : UsbredirChannel B :=
  mkUsbredirChannel (uc_ack c) (uc_pings c) (uc_parser c) (uc_server_caps c) (uc_client_caps c)
    (uc_backend c) (uc_devices c) (uc_totals c) (uc_auto_disks c) (uc_interrupts c) s
    (uc_events c).
Definition set_events {B} (e : list UsbEvent) (c : UsbredirChannel B) : UsbredirChannel B :=
  mkUsbredirChannel (uc_ack c) (uc_pings c) (uc_parser c) (uc_server_caps c) (uc_client_caps c)
    (uc_backend c) (uc_devices c) (uc_totals c) (uc_auto_disks c) (uc_interrupts c) (uc_sent c)
    e.

(** * Operations *)

Section Channel.
Context {B : Type} `{UsbDeviceBackend B}.
(** The file system and the bus: the device a command names, or none if it
    cannot be found or opened. *)
Context (open_disk : VirtualDiskConfig -> option B).
Context (open_physical : Z -> Z -> option B).
(** [lz4_flex::decompress] *)
Context (lz4_decompress : list Z -> Z -> option (list Z)).

Abbreviation Ch := (M ChannelError (UsbredirChannel B)).

Definition change (f : UsbredirChannel B -> UsbredirChannel B) : Ch unit := fun c => (Ok tt, f c).

(** ** Sending *)


(** [f] on the last entry: [redirected_devices.last_mut()] *)
Definition on_last_device (f : RedirectedDevice -> RedirectedDevice) (ds : list RedirectedDevice)
    : list RedirectedDevice :=
  match reverse ds with
  | [] => []
  | d :: ds => reverse (f d :: ds)
  end.

Definition record_device_bytes_to_guest (n : Z) : Ch unit :=
  change (fun c => set_devices (on_last_device (fun d =>
    mkRedirectedDevice (rd_vendor_id d) (rd_product_id d) (rd_device_class d)
      (saturating_add_u64 (rd_bytes_to_guest d) n) (rd_bytes_from_guest d)) (uc_devices c)) c).

Definition record_device_bytes_from_guest (n : Z) : Ch unit :=
  change (fun c => set_devices (on_last_device (fun d =>
    mkRedirectedDevice (rd_vendor_id d) (rd_product_id d) (rd_device_class d)
      (rd_bytes_to_guest d) (saturating_add_u64 (rd_bytes_from_guest d) n)) (uc_devices c)) c).

Definition send (data : list Z) : Ch unit := change (fun c => set_sent (uc_sent c ++ [data]) c).

Definition send_data (data : list Z) : Ch unit := send (make_message spicevmc_client_DATA data).

Definition send_usbredir (usbredir_type id : Z) (payload : list Z) : Ch unit :=
  let usbredir_msg := make_usbredir_message usbredir_type id payload in
  do? record_device_bytes_to_guest (zlen usbredir_msg) in
  send_data usbredir_msg.

Definition emit (e : UsbEvent) : Ch unit := change (fun c => set_events (uc_events c ++ [e]) c).

Definition send_hello : Ch unit :=
  let hello := mkHello hello_version RYLL_CAPS in
  do? change (fun c => set_caps (uc_server_caps c) RYLL_CAPS c) in
  send_usbredir msg_type.HELLO 0 (Hello_write hello []).

(** ** Devices *)

Definition connect_device (backend : B) : Ch unit :=
  do? send_usbredir msg_type.EP_INFO 0 (EpInfo_write (endpoint_info backend) []) in
  do? send_usbredir msg_type.INTERFACE_INFO 0 (InterfaceInfo_write (interface_info backend) []) in
  let dev := device_info backend in
  do? send_usbredir msg_type.DEVICE_CONNECT 0 (DeviceConnect_write dev []) in
  do? change (fun c => set_devices (uc_devices c ++
        [mkRedirectedDevice (DeviceConnect_vendor_id dev) (DeviceConnect_product_id dev)
           (DeviceConnect_device_class dev) 0 0]) c) in
  do? change (fun c => set_totals (fst (uc_totals c) + 1, snd (uc_totals c)) c) in
  do? change (set_backend (Some backend)) in
  emit UsbDeviceConnected.

Definition stop_interrupt_poll (endpoint : Z) : Ch unit :=
  change (fun c => set_interrupts (uc_interrupts c ∖ {[endpoint]}) c).

Definition stop_all_interrupt_polls : Ch unit := change (set_interrupts ∅).

Definition disconnect_device : Ch unit :=
  let? self := get_state in
  match uc_backend self with
  | None => ret tt
  | Some _ =>
      do? stop_all_interrupt_polls in
      do? send_usbredir msg_type.DEVICE_DISCONNECT 0 [] in
      do? change (set_backend None) in
      do? change (set_devices []) in
      do? change (fun c => set_totals (fst (uc_totals c), snd (uc_totals c) + 1) c) in
      emit UsbDeviceDisconnected
  end.

Definition connect_opened (opened : option B) : Ch unit :=
  match opened with
  | Some backend => connect_device backend
  | None => emit UsbConnectFailed
  end.

Definition handle_usb_command (cmd : UsbCommand) : Ch unit :=
  match cmd with
  | ConnectPhysical bus address =>
      do? disconnect_device in connect_opened (open_physical bus address)
  | ConnectVirtualDisk disk => do? disconnect_device in connect_opened (open_disk disk)
  | DisconnectDevice => disconnect_device
  end.

(** An operation on the attached device and what to do with its result;
    nothing, if there is no device.  [?] ends the channel. *)
Definition with_backend {A} (op : M unit B A) (k : A -> Ch unit) : Ch unit :=
  let? self := get_state in
  match uc_backend self with
  | None => ret tt
  | Some b =>
      let (r, b) := op b in
      do? change (set_backend (Some b)) in
      match r with
      | Ok a => k a
      | Err _ => throw Ce_Backend
      | Panic => panic
      end
  end.

Definition start_interrupt_poll (endpoint : Z) : Ch Status :=
  let? self := get_state in
  if 32 <=? Z.of_nat (size (uc_interrupts self)) then ret Status_Ioerror
  else if decide (endpoint ∈ uc_interrupts self) then ret Status_Success
  else
    match uc_backend self with
    | None => ret Status_Ioerror
    | Some b =>
        let (r, b) := start_interrupt_in endpoint b in
        do? change (set_backend (Some b)) in
        match r with
        | Ok _ =>
            do? change (fun c => set_interrupts ({[endpoint]} ∪ uc_interrupts c) c) in
            ret Status_Success
        | Err _ => ret Status_Ioerror
        | Panic => panic
        end
    end.

Definition forward_interrupt_data (idata : InterruptData) : Ch unit :=
  let header := mkInterruptPacketHeader (id_endpoint idata) (status_u8 (id_status idata))
                  (as_unsigned 16 (zlen (id_data idata))) in
  send_usbredir msg_type.INTERRUPT_PACKET 0 (InterruptPacketHeader_write header [] <+ id_data idata).

(** ** usbredir messages *)

Definition on_hello (hello : Hello) : Ch unit :=
  do? change (fun c => set_caps (Hello_capabilities hello) (uc_client_caps c) c) in
  let? self := get_state in
  do? change (set_auto_disks []) in
  match uc_auto_disks self with
  | disk :: _ => connect_opened (open_disk disk)
  | [] => ret tt
  end.

Definition send_configuration_status (id status configuration : Z) : Ch unit :=
  send_usbredir msg_type.CONFIGURATION_STATUS id
    (ConfigurationStatus_write (mkConfigurationStatus status configuration) []).

Definition send_alt_setting_status (id status interface alt : Z) : Ch unit :=
  send_usbredir msg_type.ALT_SETTING_STATUS id
    (AltSettingStatus_write (mkAltSettingStatus status interface alt) []).

Definition setup_of (header : ControlPacketHeader) : ControlSetup :=
  mkControlSetup (ControlPacketHeader_endpoint header) (ControlPacketHeader_request_type header)
    (ControlPacketHeader_request header) (ControlPacketHeader_value header)
    (ControlPacketHeader_index header) (ControlPacketHeader_length header).

Definition control_reply (header : ControlPacketHeader) (result : TransferResult)
    : ControlPacketHeader :=
  mkControlPacketHeader (ControlPacketHeader_endpoint header) (ControlPacketHeader_request header)
    (ControlPacketHeader_request_type header) (status_u8 (tr_status result))
    (ControlPacketHeader_value header) (ControlPacketHeader_index header)
    (as_unsigned 16 (zlen (tr_data result))).

Definition on_control_packet (id : Z) (header : ControlPacketHeader) (data : list Z) : Ch unit :=
  with_backend (control_transfer (setup_of header) data) (fun result =>
    send_usbredir msg_type.CONTROL_PACKET id
      (ControlPacketHeader_write (control_reply header result) [] <+ tr_data result)).

Definition MAX_BULK_TRANSFER : Z := 16 * 1024 * 1024.

Definition bulk_reply (header : BulkPacketHeader) (result : TransferResult) : BulkPacketHeader :=
  let data_len := as_unsigned 32 (zlen (tr_data result)) in
  mkBulkPacketHeader (BulkPacketHeader_endpoint header) (status_u8 (tr_status result))
    (Z.land data_len 65535) (BulkPacketHeader_stream_id header)
    (Z.land (Z.shiftr data_len 16) 65535).

Definition on_bulk_packet (id : Z) (header : BulkPacketHeader) (data : list Z) : Ch unit :=
  let? self := get_state in
  match uc_backend self with
  | None => ret tt
  | Some _ =>
      let endpoint := BulkPacketHeader_endpoint header in
      if MAX_BULK_TRANSFER <? actual_length header then
        send_usbredir msg_type.BULK_PACKET id
          (BulkPacketHeader_write (mkBulkPacketHeader endpoint (status_u8 Status_Inval) 0
             (BulkPacketHeader_stream_id header) 0) [])
      else
        with_backend (if is_ep_in endpoint then bulk_in endpoint (actual_length header)
                      else bulk_out endpoint data) (fun result =>
          send_usbredir msg_type.BULK_PACKET id
            (BulkPacketHeader_write (bulk_reply header result) [] <+ tr_data result))
  end.

Definition on_interrupt_packet (id : Z) (header : InterruptPacketHeader) (data : list Z) : Ch unit :=
  let endpoint := InterruptPacketHeader_endpoint header in
  if is_ep_in endpoint then ret tt
  else
    with_backend (interrupt_out endpoint data) (fun result =>
      send_usbredir msg_type.INTERRUPT_PACKET id
        (InterruptPacketHeader_write
           (mkInterruptPacketHeader endpoint (status_u8 (tr_status result)) 0) [])).

Definition send_interrupt_status (id : Z) (status : Status) (endpoint : Z) : Ch unit :=
  send_usbredir msg_type.INTERRUPT_RECEIVING_STATUS id
    (InterruptReceivingStatus_write (mkInterruptReceivingStatus (status_u8 status) endpoint) []).

(** [reset]: an error is logged and dropped. *)
Definition on_reset : Ch unit :=
  let? self := get_state in
  match uc_backend self with
  | None => ret tt
  | Some b =>
      let (r, b) := reset b in
      do? change (set_backend (Some b)) in
      match r with
      | Panic => panic
      | _ => ret tt
      end
  end.

Definition handle_usbredir_message (msg : UsbredirMessage) : Ch unit :=
  let id := um_id msg in
  match um_payload msg with
  | P_Hello hello => on_hello hello
  | P_SetConfiguration sc =>
      let configuration := SetConfiguration_configuration sc in
      with_backend (set_configuration configuration) (fun status =>
        send_configuration_status id (status_u8 status) configuration)
  | P_GetConfiguration =>
      with_backend get_configuration (fun config =>
        send_configuration_status id (status_u8 Status_Success) config)
  | P_SetAltSetting sa =>
      let interface := SetAltSetting_interface sa in
      let alt := SetAltSetting_alt_setting sa in
      with_backend (set_alt_setting interface alt) (fun status =>
        send_alt_setting_status id (status_u8 status) interface alt)
  | P_GetAltSetting ga =>
      let interface := GetAltSetting_interface ga in
      with_backend (get_alt_setting interface) (fun alt =>
        send_alt_setting_status id (status_u8 Status_Success) interface alt)
  | P_Reset => on_reset
  | P_CancelDataPacket | P_FilterReject => ret tt
  | P_DeviceDisconnectAck => change (set_backend None)
  | P_ControlPacket header data => on_control_packet id header data
  | P_BulkPacket header data => on_bulk_packet id header data
  | P_InterruptPacket header data => on_interrupt_packet id header data
  | P_StartInterruptReceiving sir =>
      let endpoint := StartInterruptReceiving_endpoint sir in
      let? status := start_interrupt_poll endpoint in
      send_interrupt_status id status endpoint
  | P_StopInterruptReceiving sir =>
      let endpoint := StopInterruptReceiving_endpoint sir in
      do? stop_interrupt_poll endpoint in
      send_interrupt_status id Status_Success endpoint
  | P_DeviceConnect _ | P_DeviceDisconnect | P_InterfaceInfo _ | P_EpInfo _
  | P_ConfigurationStatus _ | P_AltSettingStatus _ | P_InterruptReceivingStatus _
  | P_Unknown _ _ => ret tt
  end.

(** ** SPICE messages *)

(** [handle_vmc_data], whose loop Usbredir.v has, with this channel's fields and
    handler. *)
Definition on_vmc_data : list Z -> Ch unit :=
  handle_vmc_data uc_parser set_parser Ce_Parser record_device_bytes_from_guest
    handle_usbredir_message.

Definition handle_vmc_compressed_data (payload : list Z) : Ch unit :=
  if zlen payload <? 5 then ret tt
  else
    let? compression_type := unwrap (index payload 0) in
    let? size_bytes := unwrap (slice payload 1 5) in
    let? compressed := unwrap (slice payload 5 (zlen payload)) in
    let uncompressed_size := from_le size_bytes in
    if 64 * 1024 * 1024 <? uncompressed_size then ret tt
    else
      match compression_type with
      | 1 =>
          match lz4_decompress compressed uncompressed_size with
          | None => throw Ce_Lz4
          | Some decompressed => on_vmc_data decompressed
          end
      | 0 => on_vmc_data compressed
      | _ => ret tt
      end.

(** [T::decode(payload)?] *)
Definition decoded {T} `{WireType T} (payload : list Z) : Ch T :=
  fun c =>
    match decode payload with
    | Ok v => (Ok v, c)
    | Err e => (Err (Ce_Decode e), c)
    | Panic => (Panic, c)
    end.

Definition saturating_inc_u32 (n : Z) : Z := Z.min (n + 1) u32_max.

Definition handle_message (msg_type : Z) (payload : list Z) : Ch unit :=
  if msg_type =? spicevmc_server_DATA then on_vmc_data payload
  else if msg_type =? spicevmc_server_COMPRESSED_DATA then handle_vmc_compressed_data payload
  else if msg_type =? spicevmc_server_SET_ACK then
    let? ack := decoded (T := SetAck) payload in
    do? change (set_ack (SetAck_generation ack, SetAck_window ack)) in
    send (make_message spicevmc_client_ACK_SYNC (AckSync_write (SetAck_ack_sync ack) []))
  else if msg_type =? spicevmc_server_PING then
    do? change (fun c => set_pings (saturating_inc_u32 (fst (uc_pings c)), snd (uc_pings c)) c) in
    let? ping := decoded (T := Ping) payload in
    do? send (make_message spicevmc_client_PONG (Pong_write (Ping_pong ping) [])) in
    change (fun c => set_pings (fst (uc_pings c), saturating_inc_u32 (snd (uc_pings c))) c)
  else if msg_type =? spicevmc_server_NOTIFY then
    let? notify := decoded (T := Notify) payload in
    emit (UsbNotification (Notify_severity_kind notify) (from_utf8_lossy (Notify_message notify)))
  else ret tt.

(** The payloads of successive DATA messages. *)
Definition on_vmc_stream : list (list Z) -> Ch unit :=
  vmc_stream uc_parser set_parser Ce_Parser record_device_bytes_from_guest
    handle_usbredir_message.

End Channel.

(** * Specification

    What a guest asks of the device's endpoints and what it gets back. *)

Section Guest.
Context {B : Type} `{UsbDeviceBackend B}.

Definition device_transfer (t : transfer) : M unit B TransferResult :=
  match t with
  | T_Control setup data => control_transfer setup data
  | T_BulkIn endpoint max_len => bulk_in endpoint max_len
  | T_BulkOut endpoint data => bulk_out endpoint data
  | T_Reset => do? reset in ret tr_success_empty
  end.

(** What a request gets: the transfer it names, unless it asks for a bulk
    transfer of more than 16 MiB. *)
Definition request_answer (p : UsbredirPayload) : M unit B TransferResult :=
  match p with
  | P_ControlPacket (mkControlPacketHeader endpoint request request_type _ value index len) data =>
      device_transfer (T_Control (mkControlSetup endpoint request_type request value index len) data)
  | P_BulkPacket header data =>
      let endpoint := BulkPacketHeader_endpoint header in
      if 16777216 <? actual_length header then ret (mkTransferResult Status_Inval [])
      else device_transfer
        (if is_ep_in endpoint then T_BulkIn endpoint (actual_length header)
         else T_BulkOut endpoint data)
  | _ => throw tt
  end.

(** The answer to a request: its id, its header with the status and the length
    of the data, and the data. *)
Definition reply_to (m : UsbredirMessage) (r : TransferResult) : UsbredirMessage :=
  let status := status_u8 (tr_status r) in
  let len := zlen (tr_data r) in
  mkUsbredirMessage (um_id m)
    match um_payload m with
    | P_ControlPacket (mkControlPacketHeader endpoint request request_type _ value index _) _ =>
        P_ControlPacket (mkControlPacketHeader endpoint request request_type status value index
          (len mod 2 ^ 16)) (tr_data r)
    | P_BulkPacket (mkBulkPacketHeader endpoint _ _ stream_id _) _ =>
        P_BulkPacket (mkBulkPacketHeader endpoint status (len mod 2 ^ 16) stream_id (len / 2 ^ 16))
          (tr_data r)
    | p => p
    end.

(** The requests one after another, up to the one the device fails on: the
    replies, how it ends, and the device. *)
Fixpoint run_requests (requests : list UsbredirMessage) (b : B)
    : list UsbredirMessage * result unit unit * B :=
  match requests with
  | [] => ([], Ok tt, b)
  | m :: requests =>
      match request_answer (um_payload m) b with
      | (Ok r, b) =>
          let '(replies, end_, b) := run_requests requests b in (reply_to m r :: replies, end_, b)
      | (Err e, b) => ([], Err e, b)
      | (Panic, b) => ([], Panic, b)
      end
  end.

(** Control and bulk requests, of any size a message can have. *)
Definition request_ok (m : UsbredirMessage) : Prop :=
  message_wf m /\ payload_fits (um_payload m) /\
  match um_payload m with
  | P_ControlPacket _ _ | P_BulkPacket _ _ => True
  | _ => False
  end.

End Guest.

(** What the channel needs of a device: an invariant that every transfer keeps,
    whether it is answered or fails, and answers of bytes, at most as many as
    the channel lets a transfer have. *)
Definition transfer_asked (t : transfer) : Prop :=
  transfer_ok t /\ match t with T_BulkIn _ n => n <= MAX_BULK_TRANSFER | _ => True end.

Definition answer_fits (r : TransferResult) : Prop :=
  bytes (tr_data r) /\ zlen (tr_data r) <= MAX_BULK_TRANSFER.

Class BackendLaws (B : Type) `{UsbDeviceBackend B} : Type := {
  device_ok : B -> Prop;
  device_transfer_ok b t : device_ok b -> transfer_asked t ->
    let (r, b') := device_transfer t b in
    device_ok b' /\
    match r with
    | Ok r => answer_fits r
    | Err _ => True
    | Panic => False
    end
}.

#[export] Instance Virtual_laws {F} `{RawFileLaws F} : BackendLaws (VirtualMsc F).
Proof.
  refine {| device_ok := vm_ok |}. intros b t Hb [Ht _].
  destruct (run_transfer_ok t b Ht Hb) as (r & b' & E & Hb' & _ & [Hr Hl] & _).
  change (device_transfer t b) with (run_transfer t b). rewrite E.
  split; [done|]. split; [done|]. unfold MAX_BULK_TRANSFER. change max_transfer with 1048576 in Hl. lia.
Defined.

#[export] Instance DeviceBackend_laws {R V} `{BackendLaws R, BackendLaws V} :
  BackendLaws (DeviceBackend R V).
Proof.
  refine {| device_ok b := match b with Real d => device_ok d | Virtual d => device_ok d end |}.
  intros [d|d] t Hd Ht; pose proof (device_transfer_ok d t Hd Ht) as Hl;
    destruct t; cbn in *; unfold dispatch, bind in *; cbn in *;
    lazymatch type of Hl with
    | let (_, _) := (let (_, _) := ?x in _) in _ => destruct x as [[] d2]; cbn in *
    | let (_, _) := ?x in _ => destruct x as [[] d2]; cbn in *
    end; done.
Defined.

(** * Lemmas *)

Section Facts.
Context {B : Type} `{BackendLaws B}.
Context (open_disk : VirtualDiskConfig -> option B).

Lemma status_u8_ok s : u8 (status_u8 s).
Proof. destruct s; done. Qed.

(** The code's headers are the specification's. *)
Lemma bulk_reply_eq header r : answer_fits r ->
  bulk_reply header r =
    mkBulkPacketHeader (BulkPacketHeader_endpoint header) (status_u8 (tr_status r))
      (zlen (tr_data r) mod 2 ^ 16) (BulkPacketHeader_stream_id header) (zlen (tr_data r) / 2 ^ 16).
Proof.
  intros [_ Hl]. unfold MAX_BULK_TRANSFER in Hl. pose proof (zlen_nonneg (tr_data r)).
  unfold bulk_reply. rewrite as_unsigned_id by (unfold in_unsigned; lia).
  change 65535 with (Z.ones 16). rewrite !Z.land_ones by lia. rewrite Z.shiftr_div_pow2 by lia.
  rewrite (Z.mod_small (_ / _)); [done|].
  split; [by apply Z.div_pos|]. apply Z.div_lt_upper_bound; lia.
Qed.

Lemma reply_ok m r : request_ok m -> answer_fits r -> message_wf (reply_to m r).
Proof.
  intros ([Hid Hw] & _ & Hk) [Hb Hl]. unfold MAX_BULK_TRANSFER in Hl.
  pose proof (zlen_nonneg (tr_data r)) as Hn.
  assert (u16 (zlen (tr_data r) mod 2 ^ 16)) as Hmod by (apply Z.mod_pos_bound; lia).
  unfold reply_to, message_wf. destruct m as [id p]. cbn [um_id um_payload] in *.
  destruct p as [| | | | | | | | | | | | | | | | | |h d|h d| |]; try done; destruct Hw as [Hh _];
    destruct h; cbn in Hh; destruct_and?; (split; [done|split; [|done]]);
    split_and!; try done; try apply status_u8_ok.
  split; [by apply Z.div_pos|]. apply Z.div_lt_upper_bound; lia.
Qed.

Lemma request_answer_ok m b : request_ok m -> device_ok b ->
  let (r, b') := request_answer (um_payload m) b in
  device_ok b' /\ match r with Ok r => answer_fits r | Err _ => True | Panic => False end.
Proof.
  intros ([_ Hw] & _ & Hk) Hb. destruct m as [id p]. cbn in *.
  destruct p as [| | | | | | | | | | | | | | | | | |h d|h d| |]; try done; cbn in Hw |- *.
  - destruct h. refine (device_transfer_ok b (T_Control _ _) Hb _). by split.
  - destruct (Z.ltb_spec 16777216 (actual_length h)).
    { split; [done|]. split; [constructor|done]. }
    refine (device_transfer_ok b _ Hb _). destruct (is_ep_in _); [|by split; [apply Hw|]].
    split; [|done]. destruct h. cbn in Hw. destruct_and?. unfold actual_length. cbn.
    apply Z.lor_nonneg. unfold in_unsigned in *. split; [apply Z.shiftl_nonneg; lia|lia].
Qed.

Definition reply_message (m : UsbredirMessage) : list Z :=
  make_message spicevmc_client_DATA (message_bytes m).

(** How the channel ends when the device does. *)
Definition channel_end (e : result unit unit) : result ChannelError unit :=
  match e with
  | Ok _ => Ok tt
  | Err _ => Err Ce_Backend
  | Panic => Panic
  end.

(** What serving requests does to the channel, its parser apart. *)
Definition serves (c : UsbredirChannel B) (requests : list UsbredirMessage)
    (out : result ChannelError unit) (c' : UsbredirChannel B) : Prop :=
  forall b, uc_backend c = Some b -> device_ok b ->
  exists replies e b', run_requests requests b = (replies, e, b') /\
    e <> Panic /\ out = channel_end e /\
    uc_backend c' = Some b' /\ device_ok b' /\
    uc_sent c' = uc_sent c ++ map reply_message replies /\ Forall message_wf replies.

(** What the code sends for an answer. *)
Lemma handle_request_eq m c b : request_ok m -> uc_backend c = Some b -> device_ok b ->
  let (r, b') := request_answer (um_payload m) b in
  exists c', handle_usbredir_message open_disk m c =
      (match r with Ok _ => Ok tt | Err _ => Err Ce_Backend | Panic => Panic end, c') /\
    uc_parser c' = uc_parser c /\ uc_backend c' = Some b' /\
    uc_sent c' = uc_sent c ++ match r with Ok r => [reply_message (reply_to m r)] | _ => [] end.
Proof.
  intros Hm Hc Hb. pose proof (request_answer_ok m b Hm Hb) as Hok.
  destruct Hm as (_ & _ & Hk). destruct m as [id p]. unfold handle_usbredir_message.
  cbn [um_id um_payload] in *.
  destruct p as [| | | | | | | | | | | | | | | | | |h d|h d| |]; try done; cbn [request_answer] in *.
  - destruct h as [endpoint request request_type st value index len]. cbn [device_transfer] in *.
    change (mkControlSetup endpoint request_type request value index len)
      with (setup_of (mkControlPacketHeader endpoint request request_type st value index len)) in *.
    unfold on_control_packet, with_backend, bind, get_state. rewrite Hc.
    destruct (control_transfer _ _ _) as [[r|e|] b']; eexists; (split; [reflexivity|]);
      (split; [done|]); (split; [done|]); try (cbn; by rewrite app_nil_r).
    done.
  - unfold on_bulk_packet, with_backend, bind, get_state. rewrite Hc.
    change MAX_BULK_TRANSFER with 16777216.
    destruct (Z.ltb_spec 16777216 (actual_length h)).
    { eexists. split; [reflexivity|]. split; [done|]. split; [done|]. by destruct h. }
    rewrite Hc.
    assert ((if is_ep_in (BulkPacketHeader_endpoint h)
             then bulk_in (BulkPacketHeader_endpoint h) (actual_length h)
             else bulk_out (BulkPacketHeader_endpoint h) d) b =
      device_transfer (if is_ep_in (BulkPacketHeader_endpoint h)
             then T_BulkIn (BulkPacketHeader_endpoint h) (actual_length h)
             else T_BulkOut (BulkPacketHeader_endpoint h) d) b) as ->
      by by destruct (is_ep_in _).
    destruct (device_transfer _ _) as [[r|e|] b']; eexists; (split; [reflexivity|]);
      (split; [done|]); (split; [done|]); try (cbn; by rewrite app_nil_r).
    rewrite bulk_reply_eq by apply Hok. by destruct h.
Qed.

(** One request: one reply, or the end. *)
Lemma handle_request m c b : request_ok m -> uc_backend c = Some b -> device_ok b ->
  exists out c', handle_usbredir_message open_disk m c = (out, c') /\
    uc_parser c' = uc_parser c /\ serves c [m] out c'.
Proof.
  intros Hm Hc Hb. pose proof (handle_request_eq m c b Hm Hc Hb) as He.
  pose proof (request_answer_ok m b Hm Hb) as Ha.
  destruct (request_answer (um_payload m) b) as [r b'] eqn:E.
  destruct He as (c' & Eh & Hp & Hbk & Hs), Ha as [Hb' Hr].
  eexists _, c'. split; [exact Eh|]. split; [done|]. intros b0 Hb0 _. rewrite Hc in Hb0.
  injection Hb0 as <-. cbn [run_requests]. rewrite E.
  destruct r as [r|e|]; [|by exists [], (Err e), b'|done].
  exists [reply_to m r], (Ok tt), b'. split_and!; try done.
  constructor; [by apply reply_ok|constructor].
Qed.

Lemma run_requests_app ms1 ms2 (b : B) :
  run_requests (ms1 ++ ms2) b =
    match run_requests ms1 b with
    | (rs1, Ok _, b1) => let '(rs2, e, b2) := run_requests ms2 b1 in (rs1 ++ rs2, e, b2)
    | stopped => stopped
    end.
Proof.
  revert b. induction ms1 as [|m ms1 IH]; intros b; cbn [app run_requests].
  { by destruct (run_requests ms2 b) as [[rs e] b2]. }
  destruct (request_answer (um_payload m) b) as [[r|e|] b0]; [|done..]. rewrite IH.
  destruct (run_requests ms1 b0) as [[rs1 [[]|e|]] b1]; [|done..].
  by destruct (run_requests ms2 b1) as [[rs2 e] b2].
Qed.

(** The replies answer the requests in order. *)
Lemma run_requests_ids ms (b : B) : let '(rs, e, _) := run_requests ms b in
  map um_id rs `prefix_of` map um_id ms /\ (e = Ok tt -> map um_id rs = map um_id ms).
Proof.
  revert b. induction ms as [|m ms IH]; intros b; cbn [run_requests]; [by split|].
  destruct (request_answer (um_payload m) b) as [[r|e|] b0]; [|by split; [apply prefix_nil|]..].
  specialize (IH b0). destruct (run_requests ms b0) as [[rs e] b1]. destruct IH as [Hp He].
  cbn. split; [by apply prefix_cons|]. intros ->. by rewrite He.
Qed.

Lemma serves_nil c c' : uc_backend c' = uc_backend c -> uc_sent c' = uc_sent c ->
  serves c [] (Ok tt) c'.
Proof.
  intros Eb Es b Hb Hok. exists [], (Ok tt), b. rewrite Eb, Es, app_nil_r. by split_and!.
Qed.

Lemma serves_app c ms1 c1 ms2 out c2 : serves c ms1 (Ok tt) c1 -> serves c1 ms2 out c2 ->
  serves c (ms1 ++ ms2) out c2.
Proof.
  intros H1 H2 b Hb Hok. destruct (H1 b Hb Hok) as (rs1 & e1 & b1 & E1 & _ & Ho1 & Hb1 & Hok1 & Hs1 & Hw1).
  destruct e1 as [[]|e|]; [|done..].
  destruct (H2 b1 Hb1 Hok1) as (rs2 & e & b2 & E2 & He & Ho & Hb2 & Hok2 & Hs2 & Hw2).
  exists (rs1 ++ rs2), e, b2. rewrite run_requests_app, E1, E2. split; [done|]. split; [done|].
  split; [done|]. split; [done|]. split; [done|].
  rewrite Hs2, Hs1, map_app, app_assoc. split; [done|]. by apply Forall_app.
Qed.

(** The requests behind the one the device fails on are not served. *)
Lemma serves_stop c ms1 e c1 ms2 : serves c ms1 (Err e) c1 -> serves c (ms1 ++ ms2) (Err e) c1.
Proof.
  intros H1 b Hb Hok. destruct (H1 b Hb Hok) as (rs1 & e1 & b1 & E1 & He & Ho & Hrest).
  exists rs1, e1, b1. rewrite run_requests_app, E1. by destruct e1 as [[]| |].
Qed.

(** An attached device in its invariant. *)
Definition attached (c : UsbredirChannel B) : Prop := exists b, uc_backend c = Some b /\ device_ok b.

Lemma serves_attached c ms out c' : serves c ms out c' -> attached c -> attached c' /\ out <> Panic.
Proof.
  intros H1 (b & Hb & Hok). destruct (H1 b Hb Hok) as (_ & e & b' & _ & He & -> & ? & ? & _).
  split; [by exists b'|]. by destruct e.
Qed.

Lemma message_loop_ok bs ms rest : usb_stream bs ms None rest -> bytes bs ->
  Forall request_ok ms -> forall fuel c, (length bs < fuel)%nat ->
  uc_parser c = mkUsbredirParser bs -> attached c ->
  exists out c', message_loop uc_parser set_parser Ce_Parser (handle_usbredir_message open_disk) fuel c =
      (out, c') /\
    (out = Ok tt -> uc_parser c' = mkUsbredirParser rest) /\ serves c ms out c'.
Proof.
  intros Hs. remember None as err eqn:Ee. induction Hs as [bs E|bs e E|bs m next ms err last E Hs IH];
    intros Hb Hms fuel c Hf Hc Ha; try done; (destruct fuel as [|fuel]; [lia|]);
    pose proof (next_message_front bs Hb) as Hn; rewrite E in Hn;
    cbn [message_loop]; unfold bind at 1, parser_next; rewrite Hc.
  - rewrite Hn. eexists _, _. split; [done|]. split; [done|]. by apply serves_nil.
  - destruct Hn as (-> & _ & Hnb & Hnl). unfold bind.
    apply Forall_cons_iff in Hms as [Hm Hms]. destruct Ha as (b & Hbk & Hok).
    destruct (handle_request m (set_parser (mkUsbredirParser next) c) b Hm Hbk Hok)
      as (out & c1 & E1 & Hp1 & Hs1). rewrite E1.
    destruct (serves_attached _ _ _ _ Hs1 ltac:(by exists b)) as [Ha1 Hno].
    destruct out as [[]|e|]; [| |done].
    + destruct (IH Ee Hnb Hms fuel c1) as (out & c2 & E2 & Hp2 & Hs2); [lia|done..|].
      exists out, c2. split; [done|]. split; [done|]. by eapply (serves_app c [m] c1).
    + exists (Err e), c1. split; [done|]. split; [done|]. by apply (serves_stop c [m]).
Qed.

Lemma on_vmc_data_ok payload bs ms rest c : usb_stream (bs ++ payload) ms None rest ->
  bytes (bs ++ payload) -> Forall request_ok ms -> uc_parser c = mkUsbredirParser bs -> attached c ->
  exists out c', on_vmc_data open_disk payload c = (out, c') /\
    (out = Ok tt -> uc_parser c' = mkUsbredirParser rest) /\ serves c ms out c'.
Proof.
  intros Hs Hb Hms Hc Ha.
  unfold on_vmc_data, handle_vmc_data, bind, change, get_state, record_device_bytes_from_guest.
  unfold feed, extend_from_slice. cbn [uc_parser set_parser set_devices change].
  rewrite Hc. cbn [up_buf].
  edestruct (message_loop_ok (bs ++ payload) ms rest Hs Hb Hms
    (S (length (bs ++ payload)))) as (out & c' & E & Hp & Hserves);
    [lia| | |by exists out, c'; split; [exact E|]].
  - reflexivity.
  - exact Ha.
Qed.

Lemma on_vmc_stream_ok payloads bs ms rest c : usb_stream (bs ++ concat payloads) ms None rest ->
  bytes bs -> usb_front bs = UsbNeedMore -> Forall bytes payloads -> Forall request_ok ms ->
  uc_parser c = mkUsbredirParser bs -> attached c ->
  exists out c', on_vmc_stream open_disk payloads c = (out, c') /\
    (out = Ok tt -> uc_parser c' = mkUsbredirParser rest) /\ serves c ms out c'.
Proof.
  intros Hs Hb Hfront Hps. revert bs ms c Hs Hb Hfront.
  induction Hps as [|payload payloads Hp Hps IH]; intros bs ms c Hs Hb Hfront Hms Hc Ha.
  - cbn in Hs. rewrite app_nil_r in Hs.
    destruct (usb_stream_det _ _ _ _ (usb_stop bs Hfront) _ _ _ Hs) as (-> & _ & ->).
    exists (Ok tt), c. split; [done|]. split; [done|]. by apply serves_nil.
  - cbn [concat] in Hs. rewrite app_assoc in Hs.
    assert (bytes (bs ++ payload)) as Hbp by by apply bytes_app.
    destruct (usb_stream_exists _ Hbp) as (ms1 & err & mid & Hs1 & _ & Hn).
    pose proof (usb_stream_app _ _ _ _ Hs1 Hbp (concat payloads)) as Happ. destruct err as [e|].
    { by destruct (usb_stream_det _ _ _ _ Happ _ _ _ Hs) as (_ & ? & _). }
    destruct (Hn eq_refl) as (Hmid & Efront).
    assert (bytes (mid ++ concat payloads)) as Hmp by by apply bytes_app; [|by apply Forall_concat].
    destruct (usb_stream_exists _ Hmp) as (ms2 & err & last & Hs2 & _).
    destruct (usb_stream_det _ _ _ _ (Happ _ _ _ Hs2) _ _ _ Hs) as (-> & <- & ->).
    apply Forall_app in Hms as [Hms1 Hms2].
    destruct (on_vmc_data_ok payload bs ms1 mid c Hs1 Hbp Hms1 Hc Ha) as (out & c1 & E1 & Hp1 & Hserves1).
    destruct (serves_attached _ _ _ _ Hserves1 Ha) as [Ha1 Hno].
    unfold on_vmc_stream. cbn [vmc_stream]. fold (on_vmc_data open_disk payload).
    fold (on_vmc_stream open_disk payloads). unfold bind. rewrite E1.
    destruct out as [[]|e|]; [| |done].
    + destruct (IH mid ms2 c1 Hs2 Hmid Efront Hms2 (Hp1 eq_refl) Ha1) as (out & c2 & E2 & Hp2 & Hserves2).
      exists out, c2. split; [done|]. split; [done|]. by eapply serves_app.
    + exists (Err e), c1. split; [done|]. split; [done|]. by apply serves_stop.
Qed.

End Facts.

(** * The stale acknowledgement

    The guest acknowledges a disconnect while the next device is already
    attached: the channel drops the new device and keeps counting it. *)
Lemma stale_ack_drops_the_next_device {B} `{UsbDeviceBackend B} open_disk (b1 b2 : B)
    (c : UsbredirChannel B) disk id :
  uc_backend c = Some b1 -> open_disk disk = Some b2 ->
  let c' := snd (handle_usb_command open_disk (fun _ _ => None) (ConnectVirtualDisk disk) c) in
  uc_backend c' = Some b2 /\ length (uc_devices c') = 1%nat /\
  let c'' := snd (handle_usbredir_message open_disk (mkUsbredirMessage id P_DeviceDisconnectAck) c') in
  uc_backend c'' = None /\ length (uc_devices c'') = 1%nat /\ uc_interrupts c'' = ∅.
Proof.
  intros Hb Ho. unfold handle_usb_command, disconnect_device, connect_opened, bind, get_state.
  rewrite Hb, Ho. by split_and!.
Qed.

(** * Theorems *)

(** C36: the channel carries a device's transfers faithfully.  A guest sends any
    control and bulk requests that fit usbredir messages to the attached device,
    cut into DATA messages anywhere.  The channel never panics.  It has the
    device do exactly the transfers asked for, in that order, and sends one DATA
    message for each with the answer: the request's id, and the status and the
    data the device returned; a bulk request of more than 16 MiB it answers with
    [Inval] without asking the device.  If the device fails a transfer, an error
    of [UsbDeviceBackend] itself and not a status, the channel ends there with
    that error, the replies before it sent and none behind it; otherwise it
    ends well, with a reply to every request and nothing left in the parser.
    Whatever way the answers are cut, the guest's parser gets them back, when
    each is a message it accepts, of at most 16 MiB with its header.  Of the
    device it is assumed, as [BackendLaws], that it does not panic and answers
    with at most 16 MiB; the virtual disk is proved to do so. *)
Theorem channel_carries_transfers {B} `{BackendLaws B} (open_disk : VirtualDiskConfig -> option B)
  (c : UsbredirChannel B) (b : B) (requests : list UsbredirMessage) (payloads : list (list Z))
  (Hb : uc_backend c = Some b) (Hok : device_ok b) (Hp : uc_parser c = up_new)
  (Hr : Forall request_ok requests)
  (Hcut : concat payloads = concat (map message_bytes requests)) :
  exists replies e b' c', run_requests requests b = (replies, e, b') /\ e <> Panic /\
    on_vmc_stream open_disk payloads c = (channel_end e, c') /\
    uc_backend c' = Some b' /\ device_ok b' /\ (e = Ok tt -> uc_parser c' = up_new) /\
    uc_sent c' = uc_sent c ++
      map (fun m => make_message spicevmc_client_DATA (message_bytes m)) replies /\
    map um_id replies `prefix_of` map um_id requests /\
    (e = Ok tt -> map um_id replies = map um_id requests) /\
    (Forall (fun m => payload_fits (um_payload m)) replies ->
     forall cut, concat cut = concat (map message_bytes replies) ->
       collect cut = (Ok tt, mkSink up_new replies (zlen (concat cut)))).
Proof.
  assert (Forall (fun m => message_wf m /\ payload_fits (um_payload m)) requests) as Hm.
  { eapply list.Forall_impl; [exact Hr|]. by intros m (? & ? & _). }
  destruct (messages_stream requests Hm) as [Hs Hbs].
  assert (Forall bytes payloads) as Hps by (rewrite <- Hcut in Hbs; by apply Forall_concat in Hbs).
  rewrite <- Hcut in Hs.
  destruct (on_vmc_stream_ok open_disk payloads [] requests [] c Hs ltac:(constructor) eq_refl Hps Hr Hp)
    as (out & c' & E & Hpc & Hserves); [by exists b|].
  destruct (Hserves b Hb Hok) as (replies & e & b' & Er & He & -> & Hb' & Hok' & Hsent & Hw).
  exists replies, e, b', c'. pose proof (run_requests_ids requests b) as Hi. rewrite Er in Hi.
  split; [done|]. split; [done|]. split; [done|]. split; [done|]. split; [done|].
  split; [intros ->; by apply Hpc|]. split; [done|]. split; [apply Hi|]. split; [apply Hi|].
  intros Hf cut Hcut'. apply messages_back; [|done]. by apply Forall_and.
Qed.

(** * Witness *)

(** A guest writes a block and reads it back, over the channel. *)
Definition sample_requests : list UsbredirMessage :=
  let out id data :=
    mkUsbredirMessage id (P_BulkPacket (mkBulkPacketHeader 2 0 (zlen data) 0 0) data) in
  let inn id n := mkUsbredirMessage id (P_BulkPacket (mkBulkPacketHeader 17 0 n 0 0) []) in
  [ mkUsbredirMessage 1 (P_ControlPacket (mkControlPacketHeader 0 254 161 0 0 0 1) []);
    out 2 (host_cbw 1 0 SCSI_WRITE_10 1 1); out 3 (replicate 512 9); inn 4 13;
    out 5 (host_cbw 2 128 SCSI_READ_10 1 1); inn 6 512; inn 7 13;
    mkUsbredirMessage 8 (P_BulkPacket (mkBulkPacketHeader 17 0 1 0 256) []) ].

Definition sample_channel : UsbredirChannel (VirtualMsc MemFile) :=
  set_backend (Some (msc_open sample_disk false)) (channel_new []).

Lemma bulk_request_ok id endpoint n high d :
  u32 id -> u8 endpoint -> u16 n -> u16 high -> bytes d -> zlen d <= 1024 ->
  request_ok (mkUsbredirMessage id (P_BulkPacket (mkBulkPacketHeader endpoint 0 n 0 high) d)).
Proof.
  intros Hi He Hn Hh' Hd Hl.
  assert (usb_wf (mkBulkPacketHeader endpoint 0 n 0 high)) as Hh by by split_and!.
  split; [by split|]. split.
  - split; [|done]. cbn [um_payload payload_bytes]. rewrite zlen_app.
    destruct (usb_bytes_ok _ Hh I) as [-> _]. change usb_size with 10. unfold MAX_PAYLOAD_SIZE. lia.
  - done.
Qed.

Lemma sample_requests_ok : Forall request_ok sample_requests.
Proof.
  apply list.Forall_cons_2.
  { split; [split; [done|split; [by split_and!|constructor]]|]. split; [|done]. split; [|done].
    vm_compute. discriminate. }
  repeat (apply list.Forall_cons_2; [apply bulk_request_ok;
    first [done|apply (bool_decide_unpack _); vm_compute; reflexivity|vm_compute; discriminate]|]).
  apply list.Forall_nil_2.
Qed.

Lemma channel_carries_transfers_witness :
  exists c', on_vmc_stream (fun _ => None)
      [take 30 (concat (map message_bytes sample_requests));
       drop 30 (concat (map message_bytes sample_requests))] sample_channel = (Ok tt, c') /\
    length (uc_sent c') = 8%nat /\
    exists r, r ∈ uc_sent c' /\ drop 28 r = replicate 512 9.
Proof.
  destruct (channel_carries_transfers (fun _ => None) sample_channel (msc_open sample_disk false)
    sample_requests
    [take 30 (concat (map message_bytes sample_requests));
     drop 30 (concat (map message_bytes sample_requests))])
    as (replies & e & b' & c' & Er & _ & E & _).
  - reflexivity.
  - exact (msc_open_ok sample_disk false).
  - reflexivity.
  - apply sample_requests_ok.
  - vm_compute. reflexivity.
  - assert (e = Ok tt) as -> by
      (refine (eq_trans (eq_sym (f_equal (fun x => snd (fst x)) Er)) _); vm_compute; reflexivity).
    exists c'. split; [exact E|].
    assert (c' = snd (on_vmc_stream (fun _ => None)
      [take 30 (concat (map message_bytes sample_requests));
       drop 30 (concat (map message_bytes sample_requests))] sample_channel)) as ->
      by (exact (eq_sym (f_equal snd E))).
    split; [vm_compute; reflexivity|]. eexists. split.
    + apply (list_elem_of_lookup_2 _ 5). vm_compute. reflexivity.
    + vm_compute. reflexivity.
Defined.
